(* ===== verification/_CoqProject ===== *)
-Q . S2P
Prelude.v
Texts.v
Decimal.v
RoadNetwork.v
Fleet.v
Capacity.v
Routing.v
Evidence.v
Dispatch.v
RuntimeThreads.v
ThreadRunner.v
RedisLock.v
Idempotency.v
Streams.v
Worker.v
Security.v
Overrides.v
MemoryPolicy.v
SharedMemory.v
VehicleOperations.v
Breakdown.v
DecimalText.v
Records.v
AuditReview.v
Decisions.v
EventPayloads.v
Events.v
Doubles.v
RateLimit.v
Auth.v
Submission.v
TaskResult.v
AnomalyReports.v
RealRoutes.v
Recommendations.v
GraphMemory.v
Snapshots.v
Sandtable.v
SandtableSeed.v
VehicleViews.v
HttpGuards.v
Settings.v
SecurityAudit.v
Environment.v
Agents.v
Graph.v
VectorMemory.v
GraphStore.v
DemoReset.v
WorkspaceReads.v
