(* ===== verification/Prelude.v ===== *)
(** * Verification of the CountyFlow dispatch back end

    The back end under [src/backend/app] takes reports about deliveries, runs
    eight agents over a graph that chooses a vehicle and a route, has the choice
    audited, reviewed and published, and keeps what it does in SQL tables, Redis
    streams and Redis locks.  This library is a shallow embedding of it: the
    definitions are translated from the Python source under the names they have
    there, and the theorems are about those definitions.

    ** How the program works

    A driver reports a problem (AnomalyReports) or a dispatcher submits a task
    (Submission).  Either way one row of the task ledger (Idempotency) is
    written for the key of the request and a message goes to a Redis stream
    (Streams).  A worker (Worker) takes the message, holds the lock of the task
    (RedisLock), asks the ledger whether this delivery may execute, claims the
    runtime thread of the task (RuntimeThreads) and runs the graph from
    checkpoint to checkpoint (ThreadRunner).  An operator can stop at a
    checkpoint and change the state there (Overrides).

    The graph (Graph) is the eight nodes of Agents in a fixed order: intake
    reads the order and its road network (Sandtable, Snapshots), memory recalls
    facts (GraphMemory), environment asks for weather (Environment), capacity
    decides whether the assignment can stand (Capacity), routing plans over the
    road network (Routing, RoadNetwork, Fleet), advises the driver
    (Recommendations) and draws the route on a map (RealRoutes), dispatch
    reserves the vehicle (Dispatch, Evidence), and audit checks the outcome
    independently (AuditReview).  A person decides what the audit will not, and
    an approved dispatch is published (Decisions).  Each step is an event that a
    browser follows (EventPayloads, Events); the outcome is read through
    TaskResult, the lists of the workspace through WorkspaceReads.  A breakdown
    opens a rescue and a repair (Breakdown, VehicleOperations), and DemoReset
    restores a demonstration.  Facts learned are changed by recorded mutations
    under a policy (MemoryPolicy, SharedMemory).  Every request passes
    authentication, permissions and admission (Auth, Security, RateLimit).

    ** The files, and what they model (paths under [src/backend/app])

    - Prelude: [result], actions on a state, lists, texts, automation; Texts,
      Decimal, DecimalText: [str], [decimal.Decimal] and what is read of a text.
    - RoadNetwork: [road_network/models.py], [dijkstra.py],
      [sqlalchemy_repository.py]; Snapshots: [road_network/service.py],
      [graph/state.py]; Sandtable: [sandtable/service.py] and its repository;
      SandtableSeed: [sandtable/seed_data.py], the seeding in its repository,
      and the migration of older demonstration orders in [seed.py].
    - Fleet: [fleet/]; Capacity: [capacity/]; Routing: [routing/];
      Environment: [services/environment.py]; RealRoutes: [real_routes/] and
      [services/circuit_breaker.py]; Recommendations: [recommendations/];
      GraphMemory: [graph_memory/] but its Neo4j client, which is in GraphStore.
    - Evidence, Dispatch: [dispatch/service.py]; AuditReview:
      [audit/service.py], [agents/audit.py]; Decisions: [reviews/service.py],
      [publications/service.py]; Records: the rows in [models/] they share.
    - Agents: [agents/], [memory/service.py]; Graph: [graph/builder.py].
    - RuntimeThreads, ThreadRunner: [runtime_threads/]; Overrides:
      [runtime_overrides/].
    - RedisLock: [locks/redis_execution_lock.py]; Idempotency:
      [idempotency/service.py]; Streams: [streams/]; Worker:
      [workers/dispatch_worker.py].
    - Submission, TaskResult: [services/dispatch_task_api_service.py], the two
      sides of it, with [api/v1/dispatch_tasks.py]; AnomalyReports:
      [anomaly_reports/]; WorkspaceReads: [workspace_reads/].
    - EventPayloads, Events: [events/], [runtime_threads/events.py] and
      [api/v1/task_events.py].
    - MemoryPolicy, SharedMemory: [shared_memory/]; VectorMemory, GraphStore: the
      projections of the facts into Qdrant and Neo4j and the repositories that
      read them ([memory/qdrant_repository.py], [graph_memory/neo4j_repository.py],
      the listing of [workspace_reads/qdrant_repository.py]).
    - VehicleOperations, Breakdown, VehicleViews: [vehicle_operations/] and
      [api/v1/vehicle_operations.py], the last its read routes; DemoReset:
      [demo_reset/].
    - Security, Auth, RateLimit: [security/], [api/v1/auth.py],
      [api/v1/ws_tickets.py]; Doubles: the numbers of the limiter's script, and
      their texts; HttpGuards: [security/http.py] and the correlation ids around
      it; SecurityAudit: the log of security decisions and
      [security/redaction.py]; Settings: [core/config.py] and what start-up
      takes from it.

    The doc comment of each file says which operations it holds and what they
    take as arguments.

    ** How the code is modelled

    - A fallible function returns [result], Ok or the exception with its class;
      code that changes state is a function from a state to a [result] and a
      state, and returns the state on both branches, because an exception does
      not undo what was committed before it.
    - A table is a list of records in the order of its primary key, or a map by
      its unique key.  A transaction that locks its rows first is one step.
      Where the code reads, then writes, other sessions can commit in between:
      such an operation takes what they do as an argument ([env], [others]), or
      is split into its phases and interleaved with other requests by a step
      relation ([Inductive step]), and the theorem holds for every environment
      and every interleaving.
    - The state of the graph, the payloads and JSON are untyped Python values
      (Evidence: [pyval], dictionaries in insertion order), so that the code's
      own checks of types are part of the model.
    - Decimals are rationals; the operations of the default context round to 28
      digits.  Binary floating point is a rational that is rounded after each
      operation (Doubles) or where the code rounds it (Capacity), or carried as
      its text.  Texts are lists of UTF-8 bytes.
    - The [DATETIME] columns of MySQL hold whole seconds without a zone, whatever
      [DateTime(timezone=True)] says.  VehicleOperations and SecurityAudit, whose
      loops and orders depend on it, round; elsewhere a time is kept as written,
      and no theorem compares the fractions of two stored times.
    - What is not under [src] is an argument, with the documented behaviour the
      code relies on as a class of laws, and a server that satisfies them: the
      Redis client ([LockClientLaws], [StreamClientLaws], [EventStreams]), the
      graph engine and its checkpoint store ([CheckpointStore], the streams and
      listings of ThreadRunner), the JWT library, digests, random tokens, clocks,
      pydantic, [LIKE], and the clients of the vector store and the graph database
      ([QdrantClientLaws], [Neo4jDriverLaws]).  Interfaces of the source are
      classes too: the path finder ([PathFinderLaws]), the event broker ([TaskEventBroker]), the graph
      repository, the projections ([ProjectionPort]), and what the graph needs
      of its two deciding services ([RoutingPromise], [DispatchPromise]).  How the
      database orders rows of one time is an argument where an order by time
      decides what is read (SecurityAudit).

    ** What the theorems show (the claims C1 to C40 of the manifest)

    - Executing a task once: the worker refines the life cycle of a task (C1)
      and acknowledges a message only when its outcome is durable (C7); of any
      requests whose transactions interleave, no two execute one task or key
      (C8); a submission enters once (C9) and can be made again when its message
      was lost ([lost_submission_can_be_retried]); a report is recorded once
      (C20); the lock excludes (C22).
    - Runtime threads: promotion is a compare-and-swap (C2), the ledger stays
      well-formed (C23), a boundary has one owner ([boundary_has_one_owner]),
      ancestry is decided (C31), an override leaves a thread as it answers (C17).
    - Choosing a route and a vehicle: the search ends and is optimal (C5), a
      plan is safe (C29), allocation selects the best (C6), the snapshot in the
      state is restored (C36), seeding the county again changes nothing
      ([seeding_settles]), and planning on the map stands behind a breaker that
      equals a reference reading of its history (C15).
    - The graph as a whole: what it executes was verified (C4); what its routing
      node makes of the review flag, whatever an earlier node had set (C13).
    - Dispatching and deciding: no double booking (C3), the audit approves
      exactly what may stand (C16), nothing is published unapproved (C10), and an
      unpublished result hides the route (C11).
    - Vehicles: cases stay consistent (C19), the progressor completes them,
      at any polling interval (C32), their read routes never fail (C37), a reset strands other vehicles
      (C21).
    - Events and lists: a session gets each event once (C12), completes its
      stream on Redis (C26), event data is typed (C39), the pages of a list show
      each task once (C27).
    - Memory: the policy protects unconfirmed facts (C33), a mutation does what
      it announces (C18), resuming completes it (C25), a recall of the vector
      store shows what was activated and neither staged again nor retired since,
      in whatever order the calls come and whichever fail (C28), a publication in
      the graph shows its version (C35), a recall of the graph is the set of
      simple trails (C34).
    - Access: an authenticated principal is vouched for (C24), the limiter is a
      token bucket up to a bound on its rounding (C14), a body is passed on, whole
      and once, exactly when it is within the limit of its route (C38), the
      security log is read back as it was written, by the second (C30), and
      settings that pass validation satisfy what their users require (C40).
    Theorems of the files that the manifest does not list belong to the same
    groups: what a search with no result means, admission while Redis is away, the
    routes of breakdowns, retention and redaction of logs, and more.

    ** Bounds and fuel

    Loops that are not structural run on fuel that is proved, or by
    construction is, enough.  [RoadNetwork.find] pops at most
    2 * |edges| + 2 times ([find_decides]); the two ancestry loops of
    ThreadRunner have one step per listed checkpoint and one more
    ([ancestry_decided]); the search of GraphMemory counts the ways that are
    left; [strip] and [words] have the length of their text; following the
    cursors of WorkspaceReads takes one page per row and one more; the time
    the progressor takes is bounded in the statement
    ([progressor_completes_cases]); the digits of a number are counted with the
    length of its binary form ([ilog_spec]).
    A worker polls for ever: its theorems are about every number of rounds.
    The decimal context has 28 digits, and an operation that exceeds it fails as
    it does in the code.  Counters, clocks and identifiers are unbounded, as
    Python's integers are; of the columns' widths only that of [DATETIME] is
    modelled, where it is said above; a double's exponent is unbounded.

    ** What modelling showed

    Among the findings of the manifest: the routing node overwrites a review an
    earlier node asked for (C13); a reset strands the vehicles outside its
    scenario (C21); a malformed entry blocks the recovery of a stream; a terminal
    state that could not be written is acknowledged; an event history that
    compares stream ids as texts loses events; a cancelled probe leaves the
    breaker open; two seeded orders have no road for their vehicle; a second
    [Content-Type] header takes a body past its cap; a resumed mutation leaves
    the version it replaces shown, and one whose staging was lost hides the
    version that another has published since
    ([resumption_hides_published_fact]); a publication in the graph shows the edge
    of an abandoned one; a recall overwrites governed facts of the graph; the
    answer of an audit is the record of an earlier one; nothing applies the
    retention of the security log, whose times are whole seconds.

    ** What is not modelled

    The clients of language models, embeddings, maps and weather (their replies
    are arguments of the nodes that use them);
    the adapters of the checkpoint store; the accounts and cases of [seed.py];
    metrics, logs and health checks, which the program does not read back; the
    wiring at start-up; the column declarations beyond the columns and
    constraints the services use; the acceptance runs and scripts, which only
    drive the back end. *)

From stdpp Require Export base tactics option list gmap strings fin_maps pretty.
From Stdlib Require Export ZArith QArith Lia Lqa Permutation Sorted.
From Stdlib Require Import Ascii.

Local Open Scope Z_scope.
Local Open Scope list_scope.

(** ** Exceptions and fallible computations

    A Python exception is its class name and the first argument it was raised
    with; a fallible function returns a [result].  Code that also changes state
    is a function [S -> result A * S]: a Python exception does not undo the
    effects that were committed before it was raised, so the state is returned
    on both branches. *)
Record exn := Exn { exn_class : string; exn_arg : string }.

#[global] Instance exn_eq_dec : EqDecision exn.
Proof. solve_decision. Defined.

Inductive result (A : Type) : Type :=
| Ok (a : A)
| Err (e : exn).
Arguments Ok {A} a.
Arguments Err {A} e.

#[global] Instance result_eq_dec {A} `{EqDecision A} : EqDecision (result A).
Proof. solve_decision. Defined.

#[global] Instance result_ret : MRet result := @Ok.
#[global] Instance result_bind : MBind result := fun A B f m =>
  match m with Ok a => f a | Err e => Err e end.

Definition of_option {A} (e : exn) (o : option A) : result A :=
  match o with Some a => Ok a | None => Err e end.

(** A plain (non-monadic) function space for operations on a store. *)
Definition action (S A : Type) : Type := S -> result A * S.

Definition ret_action {S A} (a : A) : action S A := fun s => (Ok a, s).
Definition raise_action {S A} (e : exn) : action S A := fun s => (Err e, s).
Definition bind_action {S A B} (m : action S A) (f : A -> action S B) : action S B :=
  fun s => match m s with
           | (Ok a, s') => f a s'
           | (Err e, s') => (Err e, s')
           end.
(** [try: m  except: h]: the handler runs in the state the exception left. *)
Definition catch_action {S A} (m : action S A) (h : exn -> action S A) : action S A :=
  fun s => match m s with
           | (Ok a, s') => (Ok a, s')
           | (Err e, s') => h e s'
           end.
(** [try: m  finally: f]: [f] runs on both branches; the outcome is [m]'s. *)
Definition finally_action {S A} (m : action S A) (f : S -> S) : action S A :=
  fun s => let (r, s') := m s in (r, f s').

Declare Scope action_scope.
Delimit Scope action_scope with action.
Notation "'do' x <- m ; k" := (bind_action m (fun x => k))
  (at level 10, x pattern, m at level 100, k at level 200) : action_scope.
Notation "m ;; k" := (bind_action m (fun _ => k))
  (at level 100, k at level 200, right associativity) : action_scope.

Lemma bind_action_ok {S A B} (m : action S A) (f : A -> action S B) s a s' :
  m s = (Ok a, s') -> bind_action m f s = f a s'.
Proof. unfold bind_action. by intros ->. Qed.

Lemma bind_action_err {S A B} (m : action S A) (f : A -> action S B) s e s' :
  m s = (Err e, s') -> bind_action m f s = (Err e, s').
Proof. unfold bind_action. by intros ->. Qed.

Lemma bind_action_inv {S A B} (m : action S A) (f : A -> action S B) s r s' :
  bind_action m f s = (r, s') ->
  (exists a s1, m s = (Ok a, s1) /\ f a s1 = (r, s')) \/ (exists e, m s = (Err e, s') /\ r = Err e).
Proof. unfold bind_action. destruct (m s) as [[a|e] s1]; intros H; [left; eauto|right]. injection H as <- <-. eauto. Qed.

Lemma result_bind_ok {A B} (m : result A) (f : A -> result B) b :
  m ≫= f = Ok b -> exists a, m = Ok a /\ f a = Ok b.
Proof. destruct m; simpl; [eauto | discriminate]. Qed.

Lemma elem_of_one {A} (x y : A) : x ∈ [y] -> x = y.
Proof. by intros [->|H%not_elem_of_nil]%elem_of_cons. Qed.

(** [mapM] over the result monad, as a Python comprehension that may raise. *)
Fixpoint map_result {A B} (f : A -> result B) (l : list A) : result (list B) :=
  match l with
  | [] => Ok []
  | x :: l' => y ← f x; ys ← map_result f l'; Ok (y :: ys)
  end.

Lemma map_result_Forall2 {A B} (f : A -> result B) l l' :
  map_result f l = Ok l' -> Forall2 (fun x y => f x = Ok y) l l'.
Proof.
  revert l'. induction l as [|x l IH]; simpl; intros l' H.
  - by injection H as <-.
  - apply result_bind_ok in H as (y & Hy & H).
    apply result_bind_ok in H as (ys & Hys & H).
    injection H as <-. by constructor; [|apply IH].
Qed.

Lemma map_result_map {A A' C} (f : A' -> result C) (g : A -> A') l : map_result f (map g l) = map_result (fun x => f (g x)) l.
Proof. induction l as [|x l IH]; [done|]. simpl. by rewrite IH. Qed.

Lemma map_result_total {A B} (f : A -> result B) l :
  (forall x, x ∈ l -> exists y, f x = Ok y) -> exists l', map_result f l = Ok l'.
Proof.
  induction l as [|x l IH]; intros H; [by eexists|].
  destruct (H x) as [y Hy]; [set_solver|].
  destruct IH as [ys Hys]; [intros; apply H; set_solver|].
  exists (y :: ys). simpl. rewrite Hy; simpl. by rewrite Hys.
Qed.

Lemma map_result_elem {A B} (f : A -> result B) l l' y :
  map_result f l = Ok l' -> y ∈ l' -> exists x, x ∈ l /\ f x = Ok y.
Proof.
  intros H%map_result_Forall2 Hy. apply list_elem_of_lookup in Hy as [i Hi].
  destruct (Forall2_lookup_r _ _ _ _ _ H Hi) as (x & Hx & E). exists x. split; [by eapply list_elem_of_lookup_2|done].
Qed.

Lemma map_result_elem_l {A B} (f : A -> result B) l l' x :
  map_result f l = Ok l' -> x ∈ l -> exists y, y ∈ l' /\ f x = Ok y.
Proof.
  intros H%map_result_Forall2 Hx. apply list_elem_of_lookup in Hx as [i Hi].
  destruct (Forall2_lookup_l _ _ _ _ _ H Hi) as (y & Hy & E). exists y. split; [by eapply list_elem_of_lookup_2|done].
Qed.

(** ** Strings *)

(** [str(n)] of an integer. *)
Definition z_str (n : Z) : string := pretty n.
(** [sep.join(parts)]. *)
Definition join (sep : string) (parts : list string) : string := String.concat sep parts.
(** [needle in haystack]. *)
Definition contains (needle haystack : string) : bool :=
  match String.index 0 needle haystack with Some _ => true | None => false end.
(** [s1 or s2] on an optional string and a string: [None] and [""] are false. *)
Definition or_else (s1 : option string) (s2 : string) : string :=
  match s1 with
  | Some s => if String.eqb s "" then s2 else s
  | None => s2
  end.
(** [len(s)]: strings are UTF-8, so the code points are the bytes that do not
    continue one. *)
Definition continues (c : Ascii.ascii) : bool :=
  let n := Ascii.nat_of_ascii c in Nat.leb 128 n && Nat.ltb n 192.
Definition py_len (s : string) : Z :=
  Z.of_nat (length (List.filter (fun c => negb (continues c)) (String.list_ascii_of_string s))).

(** [except Exception]: a cancellation is not caught. *)
Definition is_exception (e : exn) : bool := negb (String.eqb (exn_class e) "CancelledError").
(** [except C1, C2] by class. *)
Definition raised_as (classes : list string) (e : exn) : bool := existsb (String.eqb (exn_class e)) classes.
(** [try: m  except classes: h]. *)
Definition except_as {S A} (classes : list string) (m h : action S A) : action S A :=
  catch_action m (fun e => if raised_as classes e then h else raise_action e).
Lemma except_as_inv {S A} cls (m h : action S A) s x s' : except_as cls m h s = (x, s') ->
  (exists y, m s = (Ok y, s') /\ x = Ok y) \/
  (exists e s1, m s = (Err e, s1) /\ raised_as cls e = true /\ h s1 = (x, s')) \/
  (exists e, m s = (Err e, s') /\ raised_as cls e = false /\ x = Err e).
Proof.
  unfold except_as, catch_action. destruct (m s) as [[y|e] s1]; [by intros [= <- <-]; left; eauto|].
  destruct (raised_as cls e) eqn:R; [by intros E; right; left; eauto|]. intros [= <- <-]. right. right. eauto.
Qed.

(** [str.strip()]: the characters of [str.isspace], by their UTF-8 bytes. *)
Definition bytes_of (l : list nat) : string := String.string_of_list_ascii (map Ascii.ascii_of_nat l).
Definition whitespace : list string :=
  map (fun n => bytes_of [n]) ([9; 10; 11; 12; 13; 28; 29; 30; 31; 32])%nat
  ++ map bytes_of ([[194; 133]; [194; 160]; [225; 154; 128]; [226; 128; 168]; [226; 128; 169]; [226; 128; 175]; [226; 129; 159]; [227; 128; 128]])%nat
  ++ map (fun n : nat => bytes_of [226; 128; n]%nat) (seq 128 11).
Fixpoint strip_prefix (fuel : nat) (spaces : list string) (s : string) : string :=
  match fuel with
  | O => s
  | S fuel' =>
      match List.find (fun w => String.prefix w s) spaces with
      | Some w => strip_prefix fuel' spaces (String.substring (String.length w) (String.length s - String.length w) s)
      | None => s
      end
  end.
Definition reversed (s : string) : string := String.string_of_list_ascii (rev (String.list_ascii_of_string s)).
Definition strip (s : string) : string :=
  let l := strip_prefix (String.length s) whitespace s in
  reversed (strip_prefix (String.length l) (map reversed whitespace) (reversed l)).

(** [str.upper()] of an ASCII text. *)
Definition upper_ascii (c : Ascii.ascii) : Ascii.ascii :=
  let n := Ascii.nat_of_ascii c in if (Nat.leb 97 n && Nat.leb n 122)%bool then Ascii.ascii_of_nat (n - 32) else c.
Definition upper (s : string) : string := String.string_of_list_ascii (map upper_ascii (String.list_ascii_of_string s)).

(** Membership in a literal set of strings. *)
Definition one_of (x : string) (l : list string) : bool := existsb (String.eqb x) l.

Lemma one_of_true x l : one_of x l = true <-> x ∈ l.
Proof.
  unfold one_of. rewrite existsb_exists. split.
  - intros (y & Hy & ->%String.eqb_eq). by apply list_elem_of_In.
  - intros H. exists x. split; [by apply list_elem_of_In|apply String.eqb_refl].
Qed.

Lemma one_of_false x l : one_of x l = false <-> x ∉ l.
Proof. rewrite <- not_true_iff_false, one_of_true. done. Qed.

(** ** Enumerations *)
Class PyEnum (A : Type) := { members : list A; value : A -> string }.

(** [enum_type(value)]. *)
Definition enum_of {A} `{PyEnum A} (v : string) : option A := List.find (fun a => String.eqb (value a) v) members.

Class PyEnumLaws (A : Type) `{PyEnum A} := enum_of_value (a : A) : enum_of (value a) = Some a.

(** ** Python ordering

    [<] on strings, numbers and tuples, as one three-way comparison per type.
    [Eq] is Python's [==], which is coarser than Leibniz equality on decimals;
    the law class states what the sorting lemmas need. *)
Class PyCmp (A : Type) := pycmp : A -> A -> comparison.

Class PyCmpLaws (A : Type) `{PyCmp A} := {
  pycmp_refl : forall x : A, pycmp x x = Eq;
  pycmp_opp : forall x y : A, pycmp y x = CompOpp (pycmp x y);
  pycmp_eq_l : forall x y z : A, pycmp x y = Eq -> pycmp x z = pycmp y z;
  pycmp_lt_trans : forall x y z : A, pycmp x y = Lt -> pycmp y z = Lt -> pycmp x z = Lt;
}.

Definition py_lt {A} `{PyCmp A} (x y : A) : bool :=
  match pycmp x y with Lt => true | _ => false end.
Definition py_le {A} `{PyCmp A} (x y : A) : bool :=
  match pycmp x y with Gt => false | _ => true end.

Section ordering.
Context {A : Type} `{PyCmpLaws A}.
Implicit Types x y z : A.

Lemma pycmp_eq_r x y z : pycmp x y = Eq -> pycmp z x = pycmp z y.
Proof. intros E. rewrite (pycmp_opp x z), (pycmp_opp y z). by rewrite (pycmp_eq_l x y z E). Qed.

Lemma py_le_refl x : py_le x x = true.
Proof. unfold py_le. by rewrite pycmp_refl. Qed.

Lemma py_lt_irrefl x : py_lt x x = false.
Proof. unfold py_lt. by rewrite pycmp_refl. Qed.

Lemma py_lt_le x y : py_lt x y = true -> py_le x y = true.
Proof. unfold py_lt, py_le. by destruct (pycmp x y). Qed.

Lemma py_not_lt x y : py_lt x y = false -> py_le y x = true.
Proof. unfold py_lt, py_le. rewrite (pycmp_opp x y). by destruct (pycmp x y). Qed.

Lemma py_not_le x y : py_le x y = false -> py_lt y x = true.
Proof. unfold py_lt, py_le. rewrite (pycmp_opp x y). by destruct (pycmp x y). Qed.

Lemma py_le_total x y : py_le x y = true \/ py_le y x = true.
Proof. unfold py_le. rewrite (pycmp_opp x y). destruct (pycmp x y); auto. Qed.

Lemma py_lt_trans x y z : py_lt x y = true -> py_lt y z = true -> py_lt x z = true.
Proof.
  unfold py_lt. destruct (pycmp x y) eqn:E1; try done.
  destruct (pycmp y z) eqn:E2; try done. by rewrite (pycmp_lt_trans x y z).
Qed.

Lemma py_lt_le_trans x y z : py_lt x y = true -> py_le y z = true -> py_lt x z = true.
Proof.
  unfold py_lt, py_le. destruct (pycmp x y) eqn:E1; try done.
  destruct (pycmp y z) eqn:E2; try done; intros _ _.
  - by rewrite <- (pycmp_eq_r _ _ x E2), E1.
  - by rewrite (pycmp_lt_trans x y z).
Qed.

Lemma py_le_lt_trans x y z : py_le x y = true -> py_lt y z = true -> py_lt x z = true.
Proof.
  unfold py_lt, py_le. destruct (pycmp x y) eqn:E1; try done;
  destruct (pycmp y z) eqn:E2; try done; intros _ _.
  - by rewrite (pycmp_eq_l _ _ z E1), E2.
  - by rewrite (pycmp_lt_trans x y z).
Qed.

Lemma py_le_trans x y z : py_le x y = true -> py_le y z = true -> py_le x z = true.
Proof.
  intros H1 H2. destruct (py_le x z) eqn:E; [done|].
  apply py_not_le in E. apply (py_lt_le_trans z x y) in E; [|done].
  apply (py_lt_le_trans z y z) in E; [|done]. by rewrite py_lt_irrefl in E.
Qed.

Lemma py_le_lt_false x y : py_le x y = true -> py_lt y x = false.
Proof.
  intros H1. destruct (py_lt y x) eqn:E; [|done].
  apply (py_le_lt_trans x y x) in H1; [|done]. by rewrite py_lt_irrefl in H1.
Qed.
End ordering.

(** *** Instances: integers, decimals, strings, booleans, tuples, lists *)
#[global] Instance z_cmp : PyCmp Z := Z.compare.
#[global] Instance z_cmp_laws : PyCmpLaws Z.
Proof.
  split; unfold pycmp, z_cmp.
  - apply Z.compare_refl.
  - intros x y. apply Z.compare_antisym.
  - intros x y z ->%Z.compare_eq_iff. done.
  - intros x y z. rewrite !Z.compare_lt_iff. lia.
Qed.

#[global] Instance q_cmp : PyCmp Q := Qcompare.
#[global] Instance q_cmp_laws : PyCmpLaws Q.
Proof.
  split; unfold pycmp, q_cmp.
  - intros x. by apply Qeq_alt.
  - intros x y. symmetry. apply Qcompare_antisym.
  - intros x y z E%Qeq_alt. by rewrite E.
  - intros x y z H1%Qlt_alt H2%Qlt_alt. apply Qlt_alt. by apply Qlt_trans with y.
Qed.

(** Strings are compared by code unit; on UTF-8 this is the order by code point. *)
#[global] Instance string_cmp : PyCmp string := String.compare.

Lemma ascii_compare_opp a b : Ascii.compare b a = CompOpp (Ascii.compare a b).
Proof. apply N.compare_antisym. Qed.

Lemma ascii_compare_lt_trans a b c :
  Ascii.compare a b = Lt -> Ascii.compare b c = Lt -> Ascii.compare a c = Lt.
Proof. unfold Ascii.compare. rewrite !N.compare_lt_iff. lia. Qed.

#[global] Instance string_cmp_laws : PyCmpLaws string.
Proof.
  assert (R : forall x, String.compare x x = Eq).
  { induction x as [|a x IH]; simpl; [done|]. unfold Ascii.compare. by rewrite N.compare_refl. }
  split; unfold pycmp, string_cmp.
  - exact R.
  - intros x y. apply String.compare_antisym.
  - intros x y z ->%String.compare_eq_iff. done.
  - intros x. induction x as [|a x IH]; intros [|b y] [|c z]; simpl; try done.
    destruct (Ascii.compare a b) eqn:E1; try done; destruct (Ascii.compare b c) eqn:E2; try done.
    + apply Ascii.compare_eq_iff in E1 as ->. rewrite E2. apply IH.
    + apply Ascii.compare_eq_iff in E1 as ->. by rewrite E2.
    + apply Ascii.compare_eq_iff in E2 as <-. by rewrite E1.
    + by rewrite (ascii_compare_lt_trans a b c).
Qed.

(** [False < True]. *)
#[global] Instance bool_cmp : PyCmp bool := Bool.compare.
#[global] Instance bool_cmp_laws : PyCmpLaws bool.
Proof. split; [intros []|intros [] []|intros [] [] []|intros [] [] []]; done. Qed.

#[global] Instance prod_cmp {A B} `{PyCmp A, PyCmp B} : PyCmp (A * B) := fun p q =>
  match pycmp p.1 q.1 with Eq => pycmp p.2 q.2 | c => c end.
Lemma pycmp_pair {A B} `{PyCmp A, PyCmp B} (a a' : A) (b b' : B) :
  pycmp (a, b) (a', b') = match pycmp a a' with Eq => pycmp b b' | c => c end.
Proof. reflexivity. Qed.

#[global] Instance prod_cmp_laws {A B} `{PyCmpLaws A, PyCmpLaws B} : PyCmpLaws (A * B).
Proof.
  split; unfold pycmp, prod_cmp.
  - intros [a b]; simpl. by rewrite !pycmp_refl.
  - intros [a b] [a' b']; simpl. rewrite (pycmp_opp a a'), (pycmp_opp b b').
    by destruct (pycmp a a').
  - intros [a b] [a' b'] [a2 b2]; simpl. destruct (pycmp a a') eqn:E; try done.
    intros E'. by rewrite (pycmp_eq_l a a' a2 E), (pycmp_eq_l b b' b2 E').
  - intros [a b] [a' b'] [a2 b2]; simpl.
    destruct (pycmp a a') eqn:E1; try done; destruct (pycmp a' a2) eqn:E2; try done; intros H1' H2'.
    + rewrite (pycmp_eq_l a a' a2 E1), E2. eauto using pycmp_lt_trans.
    + by rewrite (pycmp_eq_l a a' a2 E1), E2.
    + by rewrite <- (pycmp_eq_r _ _ a E2), E1.
    + by rewrite (pycmp_lt_trans a a' a2).
Qed.

Fixpoint list_compare {A} `{PyCmp A} (l1 l2 : list A) : comparison :=
  match l1, l2 with
  | [], [] => Eq
  | [], _ :: _ => Lt
  | _ :: _, [] => Gt
  | x :: l1', y :: l2' =>
      match pycmp x y with Eq => list_compare l1' l2' | c => c end
  end.
#[global] Instance list_cmp {A} `{PyCmp A} : PyCmp (list A) := list_compare.
#[global] Instance list_cmp_laws {A} `{PyCmpLaws A} : PyCmpLaws (list A).
Proof.
  split; unfold pycmp, list_cmp.
  - intros l. induction l as [|x l IH]; simpl; [done|]. by rewrite pycmp_refl.
  - intros l. induction l as [|x l IH]; intros [|y l']; simpl; try done.
    rewrite (pycmp_opp x y). destruct (pycmp x y); simpl; auto.
  - intros l. induction l as [|x l IH]; intros [|y l'] [|z l2]; simpl; try done.
    destruct (pycmp x y) eqn:E; try done. intros E'.
    rewrite (pycmp_eq_l x y z E). destruct (pycmp y z); eauto.
  - intros l. induction l as [|x l IH]; intros [|y l'] [|z l2]; simpl; try done.
    destruct (pycmp x y) eqn:E1; try done; destruct (pycmp y z) eqn:E2; try done; intros H1 H2.
    + rewrite (pycmp_eq_l x y z E1), E2. eauto.
    + by rewrite (pycmp_eq_l x y z E1), E2.
    + by rewrite <- (pycmp_eq_r _ _ x E2), E1.
    + by rewrite (pycmp_lt_trans x y z).
Qed.

(** On strings and lists of strings, Python's [==] is Leibniz equality. *)
Lemma string_cmp_eq (x y : string) : pycmp x y = Eq -> x = y.
Proof. apply String.compare_eq_iff. Qed.

Lemma strings_cmp_eq (x y : list string) : pycmp x y = Eq -> x = y.
Proof.
  revert y. induction x as [|a x IH]; intros [|b y]; cbn; try done.
  destruct (pycmp a b) eqn:E; try done. apply string_cmp_eq in E as ->.
  intros ?. f_equal. by apply IH.
Qed.

(** ** Sorting

    [list.sort] and [sorted] are stable: insertion sort by a boolean
    "[x] may stay in front of [y]" relation is the reference definition. *)
Section sorting.
Context {A : Type} (le : A -> A -> bool).

Fixpoint insert_by (x : A) (l : list A) : list A :=
  match l with
  | [] => [x]
  | y :: l' => if le x y then x :: l else y :: insert_by x l'
  end.

Fixpoint sort_by (l : list A) : list A :=
  match l with [] => [] | x :: l' => insert_by x (sort_by l') end.

Lemma insert_by_perm x l : insert_by x l ≡ₚ x :: l.
Proof.
  induction l as [|y l IH]; simpl; [done|]. destruct (le x y); [done|].
  rewrite IH. apply Permutation_swap.
Qed.

Lemma sort_by_perm l : sort_by l ≡ₚ l.
Proof. induction l as [|x l IH]; simpl; [done|]. by rewrite insert_by_perm, IH. Qed.

Lemma sort_by_elem x l : x ∈ sort_by l <-> x ∈ l.
Proof. by rewrite sort_by_perm. Qed.

Hypothesis le_total : forall x y, le x y = true \/ le y x = true.
Hypothesis le_trans : forall x y z, le x y = true -> le y z = true -> le x z = true.

Lemma insert_by_sorted x l :
  StronglySorted (fun a b => le a b = true) l ->
  StronglySorted (fun a b => le a b = true) (insert_by x l).
Proof.
  induction 1 as [|y l Hs IH Hall]; simpl; [repeat constructor|].
  destruct (le x y) eqn:E.
  - constructor; [by constructor|]. constructor; [done|].
    eapply List.Forall_impl; [|exact Hall]. intros z Hz. by apply le_trans with y.
  - constructor; [done|]. apply List.Forall_forall. intros z Hz.
    apply list_elem_of_In in Hz. rewrite insert_by_perm in Hz.
    apply elem_of_cons in Hz as [->|Hz].
    + destruct (le_total x y); congruence.
    + rewrite List.Forall_forall in Hall. by apply Hall, list_elem_of_In.
Qed.

Lemma sort_by_sorted l : StronglySorted (fun a b => le a b = true) (sort_by l).
Proof. induction l as [|x l IH]; simpl; [constructor|]. by apply insert_by_sorted. Qed.

Lemma sort_by_head_le x l y :
  head (sort_by l) = Some x -> y ∈ l -> le x y = true.
Proof.
  intros Hx Hy. apply sort_by_elem in Hy. pose proof (sort_by_sorted l) as Hs.
  destruct (sort_by l) as [|z l'] eqn:E; [done|]. injection Hx as ->.
  inversion Hs as [|? ? _ Hall]; subst. apply elem_of_cons in Hy as [->|Hy].
  - destruct (le_total x x); done.
  - rewrite List.Forall_forall in Hall. by apply Hall, list_elem_of_In.
Qed.
End sorting.

(** [sorted(l, key=key)] and [sorted(l, key=key, reverse=True)]; both stable. *)
Definition sorted_key {A K} `{PyCmp K} (key : A -> K) (l : list A) : list A :=
  sort_by (fun x y => py_le (key x) (key y)) l.
Definition sorted_key_desc {A K} `{PyCmp K} (key : A -> K) (l : list A) : list A :=
  sort_by (fun x y => py_le (key y) (key x)) l.

Lemma sorted_key_perm {A K} `{PyCmp K} (key : A -> K) l : sorted_key key l ≡ₚ l.
Proof. apply sort_by_perm. Qed.

Lemma sorted_key_head_le {A K} `{PyCmpLaws K} (key : A -> K) l x y :
  head (sorted_key key l) = Some x -> y ∈ l -> py_le (key x) (key y) = true.
Proof.
  apply (sort_by_head_le (fun x y => py_le (key x) (key y))).
  - intros; apply py_le_total.
  - intros ???; apply py_le_trans.
Qed.

Lemma sorted_key_sorted {A K} `{PyCmpLaws K} (key : A -> K) l :
  StronglySorted (fun x y => py_le (key x) (key y) = true) (sorted_key key l).
Proof.
  apply (sort_by_sorted (fun x y => py_le (key x) (key y))).
  - intros; apply py_le_total.
  - intros ???; apply py_le_trans.
Qed.

(** In a sorted list the first element with a property is the least with it. *)
Lemma sorted_find_first {A} (R : A -> A -> Prop) (f : A -> bool) l x y :
  (forall z, R z z) -> StronglySorted R l -> List.find f l = Some x -> y ∈ l -> f y = true -> R x y.
Proof.
  intros Hrefl. induction 1 as [|z l _ IH Hall]; simpl; [done|]. intros Hf Hy Hfy.
  destruct (f z) eqn:E.
  - injection Hf as ->. apply elem_of_cons in Hy as [->|Hy]; [apply Hrefl|].
    rewrite List.Forall_forall in Hall. by apply Hall, list_elem_of_In.
  - apply elem_of_cons in Hy as [->|Hy]; [congruence|auto].
Qed.

Lemma sorted_key_desc_perm {A K} `{PyCmp K} (key : A -> K) l : sorted_key_desc key l ≡ₚ l.
Proof. apply sort_by_perm. Qed.

Lemma sorted_key_desc_sorted {A K} `{PyCmpLaws K} (key : A -> K) l :
  StronglySorted (fun x y => py_le (key y) (key x) = true) (sorted_key_desc key l).
Proof.
  apply (sort_by_sorted (fun x y => py_le (key y) (key x))).
  - intros; apply py_le_total.
  - intros ??? H1 H2. by apply py_le_trans with (key y).
Qed.

(** The first minimal element, as [min(l, key=key)] returns; [None] models the
    [ValueError] of an empty sequence. *)
Fixpoint min_key {A K} `{PyCmp K} (key : A -> K) (l : list A) : option A :=
  match l with
  | [] => None
  | x :: l' =>
      match min_key key l' with
      | Some y => if py_le (key x) (key y) then Some x else Some y
      | None => Some x
      end
  end.

Lemma min_key_elem {A K} `{PyCmp K} (key : A -> K) l x :
  min_key key l = Some x -> x ∈ l.
Proof.
  revert x. induction l as [|y l IH]; simpl; intros x E; [done|].
  destruct (min_key key l) as [z|]; [|set_solver].
  destruct (py_le (key y) (key z)); set_solver.
Qed.

Lemma min_key_none {A K} `{PyCmp K} (key : A -> K) l : min_key key l = None <-> l = [].
Proof.
  destruct l as [|x l]; simpl; [done|]. split; [|done].
  destruct (min_key key l) as [y|]; [destruct (py_le (key x) (key y))|]; done.
Qed.

Lemma min_key_le {A K} `{PyCmpLaws K} (key : A -> K) l x y :
  min_key key l = Some x -> y ∈ l -> py_le (key x) (key y) = true.
Proof.
  revert x. induction l as [|z l IH]; simpl; intros x E Hy; [set_solver|].
  destruct (min_key key l) as [m|] eqn:Em.
  - apply elem_of_cons in Hy as [->|Hy].
    + destruct (py_le (key z) (key m)) eqn:El; injection E as <-; [apply py_le_refl|].
      by apply py_lt_le, py_not_le.
    + specialize (IH m eq_refl Hy). destruct (py_le (key z) (key m)) eqn:El; injection E as <-; [|done].
      by apply py_le_trans with (key m).
  - injection E as <-. apply min_key_none in Em as ->.
    apply elem_of_cons in Hy as [->|Hy]; [apply py_le_refl|set_solver].
Qed.

(** [heapq.heappop]: a minimal element and the remaining ones. *)
Fixpoint heappop {A K} `{PyCmp K} (key : A -> K) (l : list A) : option (A * list A) :=
  match l with
  | [] => None
  | x :: l' =>
      match heappop key l' with
      | None => Some (x, [])
      | Some (y, rest) => if py_le (key x) (key y) then Some (x, l') else Some (y, x :: rest)
      end
  end.

Lemma heappop_none {A K} `{PyCmp K} (key : A -> K) l : heappop key l = None -> l = [].
Proof.
  destruct l as [|x l]; simpl; [done|].
  destruct (heappop key l) as [[y rest]|]; [destruct (py_le (key x) (key y))|]; done.
Qed.

Lemma heappop_perm {A K} `{PyCmp K} (key : A -> K) l x rest :
  heappop key l = Some (x, rest) -> l ≡ₚ x :: rest.
Proof.
  revert x rest. induction l as [|y l IH]; simpl; intros x rest E; [done|].
  destruct (heappop key l) as [[z r]|] eqn:Ez.
  - destruct (py_le (key y) (key z)); injection E as <- <-; [done|].
    rewrite (IH z r eq_refl). apply Permutation_swap.
  - injection E as <- <-. by rewrite (heappop_none key l).
Qed.

Lemma heappop_min {A K} `{PyCmpLaws K} (key : A -> K) l x rest y :
  heappop key l = Some (x, rest) -> y ∈ l -> py_le (key x) (key y) = true.
Proof.
  revert x rest. induction l as [|w l IH]; simpl; intros x rest E Hy; [by apply not_elem_of_nil in Hy|].
  destruct (heappop key l) as [[z r]|] eqn:Ez.
  - apply elem_of_cons in Hy as [->|Hy].
    + destruct (py_le (key w) (key z)) eqn:El; injection E as <- <-; [apply py_le_refl|].
      by apply py_lt_le, py_not_le.
    + specialize (IH z r eq_refl Hy). destruct (py_le (key w) (key z)) eqn:El; injection E as <- <-; [|done].
      by apply py_le_trans with (key z).
  - injection E as <- <-. apply heappop_none in Ez as ->.
    apply elem_of_cons in Hy as [->|Hy]; [apply py_le_refl|by apply not_elem_of_nil in Hy].
Qed.

(** ** Sublists *)
Lemma NoDup_sublist {A} (l1 l2 : list A) : l1 `sublist_of` l2 -> NoDup l2 -> NoDup l1.
Proof.
  induction 1 as [|x l1 l2 H IH|x l1 l2 H IH]; [done| |]; rewrite NoDup_cons; intros [Hx Hn].
  - constructor; [|auto]. intros Hx'. by apply Hx, (elem_of_sublist _ _ _ Hx').
  - auto.
Qed.

Lemma filter_sublist_impl {A} (P Q : A -> Prop) `{forall x, Decision (P x), forall x, Decision (Q x)} l :
  (forall x, x ∈ l -> P x -> Q x) -> (filter P l) `sublist_of` (filter Q l).
Proof.
  induction l as [|x l IH]; intros HPQ; [done|]. rewrite !filter_cons.
  assert (IH' : (filter P l) `sublist_of` (filter Q l)) by (apply IH; intros; apply HPQ; [by right|done]).
  destruct (decide (P x)) as [p|], (decide (Q x)) as [|nq].
  - by apply sublist_skip.
  - destruct nq. apply HPQ; [left|done].
  - by apply sublist_cons.
  - done.
Qed.

(** Finding in an updated list. *)
Lemma find_map {A} (p : A -> bool) (f : A -> A) l : (forall x, p (f x) = p x) -> List.find p (map f l) = f <$> List.find p l.
Proof. intros H. induction l as [|x l IH]; [done|]. simpl. rewrite H. by destruct (p x). Qed.

Lemma find_map_where {A} (p : A -> bool) (f : A -> A) (l : list A) :
  (forall x, p (f x) = p x) -> List.find p (map (fun x => if p x then f x else x) l) = f <$> List.find p l.
Proof.
  intros P. induction l as [|x l IH]; simpl; [done|]. destruct (p x) eqn:E; simpl; [by rewrite P, E|by rewrite E].
Qed.

Lemma find_app {A} (p : A -> bool) (l m : list A) :
  List.find p (l ++ m) = match List.find p l with Some x => Some x | None => List.find p m end.
Proof. induction l as [|x l IH]; simpl; [done|]. by destruct (p x). Qed.

(** ** Automation *)
Create HintDb countyflow.
#[export] Hint Resolve py_le_refl py_lt_le py_not_lt py_not_le : countyflow.
#[export] Hint Resolve sort_by_perm sorted_key_perm : countyflow.

(** Split the innermost [match]/[if] of the goal or of a hypothesis. *)
Ltac case_match_in H :=
  match type of H with
  | context [ match ?x with _ => _ end ] => destruct x eqn:?
  end.
(** Reduce equations between results and options, and clear the absurd cases. *)
Ltac results :=
  repeat match goal with
  | H : Ok _ = Ok _ |- _ => injection H; clear H; intros; subst
  | H : Err _ = Err _ |- _ => injection H; clear H; intros; subst
  | H : Some _ = Some _ |- _ => injection H; clear H; intros; subst
  | H : (_, _) = (_, _) |- _ => injection H; clear H; intros; subst
  | H : Ok _ = Err _ |- _ => discriminate H
  | H : Err _ = Ok _ |- _ => discriminate H
  | H : Some _ = None |- _ => discriminate H
  | H : None = Some _ |- _ => discriminate H
  | H : andb _ _ = true |- _ => apply andb_true_iff in H as [? ?]
  | H : negb _ = true |- _ => apply negb_true_iff in H
  | H : negb _ = false |- _ => apply negb_false_iff in H
  | H : orb _ _ = false |- _ => apply orb_false_iff in H as [? ?]
  end.

(** ** Calls of a service that fail by a schedule

    For concrete servers: a call is answered, or fails before or after it took
    effect. *)
Inductive outage := Answered | Lost | Unheard.
