(* ===== verification/Texts.v ===== *)
(** * Texts: facts about the strings of the prelude

    Appending, reversing, prefixes and [strip]: a stripped text has no white
    space at its ends, and stripping it again changes nothing. *)

From S2P Require Import Prelude.

Local Open Scope Z_scope.
Local Open Scope list_scope.

(** [str.lower()] of an ASCII text. *)
Definition lower_ascii (c : Ascii.ascii) : Ascii.ascii :=
  let n := Ascii.nat_of_ascii c in if (65 <=? n)%nat && (n <=? 90)%nat then Ascii.ascii_of_nat (n + 32) else c.
Definition lower (s : string) : string := String.string_of_list_ascii (map lower_ascii (String.list_ascii_of_string s)).

(** The first [n] characters. *)
Fixpoint py_take (n : nat) (s : string) : string :=
  match s with
  | EmptyString => EmptyString
  | String c rest =>
      if continues c then String c (py_take n rest)
      else match n with O => EmptyString | S n' => String c (py_take n' rest) end
  end.

(** ** Stripped texts *)
Definition no_prefix (spaces : list string) (s : string) : Prop := List.find (fun w => String.prefix w s) spaces = None.

Lemma string_prefix_app p s : String.prefix p s = true <-> exists t, s = p +:+ t.
Proof.
  revert s. induction p as [|c p IH]; intros s; (destruct s as [|d s]; simpl); [by split; [exists ""%string|]|by split; [exists (String d s)|]|split; [done|by intros (t & [=])]|].
  destruct (Ascii.ascii_dec c d) as [->|N].
  - rewrite IH. split; intros (t & E); exists t; [by rewrite E|by injection E].
  - split; [done|]. intros (t & [= -> _]). by destruct N.
Qed.

Lemma append_length s t : String.length (s +:+ t) = (String.length s + String.length t)%nat.
Proof. induction s as [|c s IH]; [done|]. change (S (String.length (s +:+ t)) = S (String.length s + String.length t)). by rewrite IH. Qed.

Lemma append_empty_r (s : string) : s +:+ "" = s.
Proof. induction s as [|c s IH]; [done|]. change (String c (s +:+ "") = String c s). by rewrite IH. Qed.
Lemma append_assoc (s t u : string) : (s +:+ t) +:+ u = s +:+ (t +:+ u).
Proof. induction s as [|c s IH]; [done|]. change (String c ((s +:+ t) +:+ u) = String c (s +:+ (t +:+ u))). by rewrite IH. Qed.

Lemma substring_all s : String.substring 0 (String.length s) s = s.
Proof. induction s as [|c s IH]; simpl; [done|by rewrite IH]. Qed.

Lemma substring_drop p t : String.substring (String.length p) (String.length (p +:+ t) - String.length p) (p +:+ t) = t.
Proof.
  rewrite append_length, Nat.add_comm, Nat.add_sub. induction p as [|c p IH]; simpl; [apply substring_all|done].
Qed.

Lemma strip_prefix_stops fuel spaces s : (String.length s <= fuel)%nat -> (forall w, w ∈ spaces -> w <> "") ->
  no_prefix spaces (strip_prefix fuel spaces s) /\ exists t, s = t +:+ strip_prefix fuel spaces s.
Proof.
  intros L N. revert s L. induction fuel as [|n IH]; intros s L; simpl.
  - destruct s; [|simpl in L; lia]. split; [|by exists ""]. unfold no_prefix. induction spaces as [|w l IHl]; simpl; [done|].
    destruct w; [by destruct (N "" (list_elem_of_here _ _))|]. apply IHl. intros w' Hw. apply N. by right.
  - destruct (List.find _ spaces) as [w|] eqn:F; [|split; [done|by exists ""]]. apply find_some in F as [Hw P].
    apply string_prefix_app in P as (t & ->). rewrite substring_drop.
    destruct (IH t) as [A (u & B)].
    { apply list_elem_of_In, N in Hw. rewrite append_length in L. destruct w; [done|]. cbn in L. lia. }
    split; [done|]. exists (w +:+ u). by rewrite append_assoc, <- B.
Qed.

Lemma strip_prefix_fixed fuel spaces s : no_prefix spaces s -> strip_prefix fuel spaces s = s.
Proof. intros N. destruct fuel; simpl; [done|]. by rewrite N. Qed.

Lemma of_list_app l m : String.string_of_list_ascii (l ++ m) = String.string_of_list_ascii l +:+ String.string_of_list_ascii m.
Proof. induction l as [|c l IH]; [done|]. change (String c (String.string_of_list_ascii (l ++ m)) = String c (String.string_of_list_ascii l +:+ String.string_of_list_ascii m)). by rewrite IH. Qed.

Lemma list_of_app s t : String.list_ascii_of_string (s +:+ t) = String.list_ascii_of_string s ++ String.list_ascii_of_string t.
Proof. induction s as [|c s IH]; [done|]. change (c :: String.list_ascii_of_string (s +:+ t) = c :: (String.list_ascii_of_string s ++ String.list_ascii_of_string t)). by rewrite IH. Qed.

Lemma reversed_involutive s : reversed (reversed s) = s.
Proof. unfold reversed. by rewrite String.list_ascii_of_string_of_list_ascii, rev_involutive, String.string_of_list_ascii_of_string. Qed.

Lemma reversed_app s t : reversed (s +:+ t) = reversed t +:+ reversed s.
Proof. unfold reversed. by rewrite list_of_app, rev_app_distr, of_list_app. Qed.

Lemma reversed_length s : String.length (reversed s) = String.length s.
Proof.
  assert (L : forall l, String.length (String.string_of_list_ascii l) = length l) by (induction l; simpl; congruence).
  unfold reversed. rewrite L, length_rev. clear L. induction s; simpl; congruence.
Qed.

Lemma no_string_prefix_app spaces s t : no_prefix spaces (s +:+ t) -> no_prefix spaces s.
Proof.
  unfold no_prefix. intros N. destruct (List.find (fun w => String.prefix w s) spaces) as [w|] eqn:F; [|done]. apply find_some in F as [Hw P].
  apply string_prefix_app in P as (u & ->). apply (find_none _ _ N) in Hw. rewrite append_assoc in Hw.
  assert (P : String.prefix w (w +:+ (u +:+ t)) = true) by (apply string_prefix_app; by eexists). congruence.
Qed.

Lemma whitespace_nonempty w : (w ∈ whitespace -> w <> ""%string) /\ (w ∈ map reversed whitespace -> w <> ""%string).
Proof.
  assert (A : forallb (fun w => negb (String.eqb w "")) whitespace = true) by (vm_compute; reflexivity).
  assert (B : forallb (fun w => negb (String.eqb w "")) (map reversed whitespace) = true) by (vm_compute; reflexivity).
  rewrite forallb_forall in A, B. split; intros W%list_elem_of_In ->; [by apply A in W|by apply B in W].
Qed.

Lemma strip_idempotent s : strip (strip s) = strip s.
Proof.
  set (r := strip s). unfold strip in r. cbn zeta in r.
  destruct (strip_prefix_stops (String.length s) whitespace s) as [A _]; [done|intros w; apply whitespace_nonempty|].
  set (l := strip_prefix (String.length s) whitespace s) in *.
  destruct (strip_prefix_stops (String.length l) (map reversed whitespace) (reversed l)) as [B (t & E)];
    [by rewrite reversed_length|intros w; apply whitespace_nonempty|].
  assert (Er : reversed r = strip_prefix (String.length l) (map reversed whitespace) (reversed l)) by (unfold r; by rewrite reversed_involutive).
  rewrite <- Er in B, E. apply (f_equal reversed) in E. rewrite reversed_app, !reversed_involutive in E. rewrite E in A. apply no_string_prefix_app in A.
  unfold strip. cbn zeta. rewrite (strip_prefix_fixed _ _ r A). rewrite (strip_prefix_fixed _ _ _ B). by rewrite reversed_involutive.
Qed.
