(* ===== verification/Decimal.v ===== *)
(** * Decimal: Python's [decimal.Decimal] under the default context

    A finite decimal is its exact value, a rational.  The constructors
    ([Decimal("0.1")], [Decimal(3)]) and the comparisons are exact; [+], [-],
    [*] and [/] round their exact result to 28 significant digits, ties to even
    (the default context, which the back end never changes); [quantize] rounds
    half up and raises [InvalidOperation] when the result needs more than 28
    digits.  NaN, infinities and the exponent limits of +-999999 do not occur:
    the numbers come from [Numeric] columns. *)

From S2P Require Import Prelude.
From Stdlib Require Import Qround Qabs Qpower.

Local Open Scope Z_scope.
Local Open Scope list_scope.

(** ** Definitions *)

Definition InvalidOperation : exn := Exn "decimal.InvalidOperation" "".
Definition DivisionByZero : exn := Exn "decimal.DivisionByZero" "".

(** Number of decimal digits of a positive integer. *)
Fixpoint digits_fuel (fuel : nat) (n : Z) : Z :=
  match fuel with
  | O => 0
  | S f => if n <=? 0 then 0 else 1 + digits_fuel f (n / 10)
  end.
Definition digits (n : Z) : Z := digits_fuel (Z.to_nat (Z.log2 n + 1)) n.

Definition pow10 (z : Z) : Q := (inject_Z 10 ^ z)%Q.

(** The adjusted exponent of a positive [q]: [pow10 e <= q < pow10 (e + 1)]. *)
Definition magnitude (q : Q) : Z :=
  let e := digits (Qnum q) - digits (Zpos (Qden q)) in
  if Qle_bool (pow10 e) q then e else e - 1.

Definition half_even (s : Q) : Z :=
  let f := Qfloor s in
  match Qcompare (s - inject_Z f) (1 # 2) with
  | Lt => f
  | Gt => f + 1
  | Eq => if Z.even f then f else f + 1
  end.

Definition prec : Z := 28.

Definition dec_ctx_pos (q : Q) : Q :=
  let e := magnitude q in
  (inject_Z (half_even (q * pow10 (prec - 1 - e))) * pow10 (e - (prec - 1)))%Q.

Definition dec_ctx (q : Q) : Q :=
  match Qcompare q 0 with
  | Eq => 0%Q
  | Gt => Qred (dec_ctx_pos q)
  | Lt => Qred (- dec_ctx_pos (- q))%Q
  end.

Definition dec_add (a b : Q) : Q := dec_ctx (a + b)%Q.
Definition dec_sub (a b : Q) : Q := dec_ctx (a - b)%Q.
Definition dec_mul (a b : Q) : Q := dec_ctx (a * b)%Q.
Definition dec_neg (a : Q) : Q := dec_ctx (- a)%Q.
Definition dec_div (a b : Q) : result Q :=
  if Qeq_bool b 0
  then Err (if Qeq_bool a 0 then InvalidOperation else DivisionByZero)
  else Ok (dec_ctx (a / b)%Q).

(** [sum(values, Decimal("0"))]. *)
Definition dec_sum (l : list Q) : Q := fold_left dec_add l 0%Q.

(** [int(d.to_integral_value(rounding=ROUND_CEILING))]. *)
Definition ceil_int (q : Q) : Z := Qceiling q.

(** Half up is away from zero on ties. *)
Definition half_up (s : Q) : Z :=
  match Qcompare s 0 with
  | Lt => - Qfloor (- s + (1 # 2))
  | _ => Qfloor (s + (1 # 2))
  end.

(** [d.quantize(Decimal("0.01"), rounding=ROUND_HALF_UP)], for [places = 2]. *)
Definition quantize (places : Z) (q : Q) : result Q :=
  let n := half_up (q * pow10 places) in
  if Z.abs n <? 10 ^ prec then Ok (Qred (inject_Z n * pow10 (- places))%Q)
  else Err InvalidOperation.

(** [f"{x:.2f}"] for [places = 2]: the exact value rounded, ties to even.  The
    texts of [Numeric(_, 2)] columns are of this form. *)
Definition zero_pad (width : nat) (s : string) : string :=
  String.concat "" (repeat "0"%string (width - String.length s)) +:+ s.
Definition format_fixed (places : Z) (q : Q) : string :=
  let n := half_even ((if Qle_bool 0 q then q else - q) * pow10 places) in
  (if Qle_bool 0 q then "" else "-") +:+ z_str (n / 10 ^ places) +:+ "."
    +:+ zero_pad (Z.to_nat places) (z_str (n mod 10 ^ places)).

(** ** Powers of ten *)
Lemma ten_neq_0 : ~ (inject_Z 10 == 0)%Q.
Proof. done. Qed.

Lemma pow10_plus a b : (pow10 (a + b) == pow10 a * pow10 b)%Q.
Proof. apply Qpower_plus, ten_neq_0. Qed.

Lemma pow10_pos z : (0 < pow10 z)%Q.
Proof. apply Qpower_0_lt. done. Qed.

Lemma pow10_inv z : (pow10 z * pow10 (- z) == 1)%Q.
Proof. rewrite <- pow10_plus. by rewrite Z.add_opp_diag_r. Qed.

Lemma pow10_Z z : 0 <= z -> (pow10 z == inject_Z (10 ^ z))%Q.
Proof. intros. unfold pow10. by rewrite <- Zpower_Qpower. Qed.

Lemma pow10_le a b : a <= b -> (pow10 a <= pow10 b)%Q.
Proof. intros. by apply Qpower_le_compat_l. Qed.

Lemma pow10_lt_inv a b : (pow10 a < pow10 b)%Q -> a < b.
Proof.
  intros H. destruct (Z_lt_le_dec a b) as [|L]; [done|].
  apply pow10_le in L. by apply Qle_not_lt in L.
Qed.

(** ** Digits and magnitude *)
Lemma digits_fuel_spec f n :
  0 < n -> n < 10 ^ Z.of_nat f ->
  1 <= digits_fuel f n /\ 10 ^ (digits_fuel f n - 1) <= n < 10 ^ digits_fuel f n.
Proof.
  revert n. induction f as [|f IH]; intros n Hn Hf; [simpl in Hf; lia|].
  cbn [digits_fuel]. destruct (Z.leb_spec n 0); [lia|].
  rewrite Nat2Z.inj_succ, Z.pow_succ_r in Hf by lia.
  pose proof (Z.div_mod n 10 ltac:(lia)) as Hd. pose proof (Z.mod_pos_bound n 10 ltac:(lia)).
  destruct (Z.eq_dec (n / 10) 0) as [E|E].
  - assert (digits_fuel f 0 = 0) as F0 by (clear; destruct f; reflexivity).
    rewrite E, F0. simpl. lia.
  - assert (0 <= n / 10) by (apply Z.div_pos; lia).
    destruct (IH (n / 10) ltac:(lia)) as (G1 & G2 & G3).
    { apply Z.div_lt_upper_bound; lia. }
    split; [lia|]. set (d := digits_fuel f (n / 10)) in *.
    replace (1 + d - 1) with (Z.succ (d - 1)) by lia. replace (1 + d) with (Z.succ d) by lia.
    rewrite !Z.pow_succ_r by lia. lia.
Qed.

Lemma digits_spec n : 0 < n -> 10 ^ (digits n - 1) <= n < 10 ^ digits n /\ 1 <= digits n.
Proof.
  intros Hn. destruct (digits_fuel_spec (Z.to_nat (Z.log2 n + 1)) n Hn) as (G1 & G2); [|split; done].
  pose proof (Z.log2_nonneg n). rewrite Z2Nat.id by lia.
  apply Z.lt_le_trans with (2 ^ (Z.log2 n + 1)).
  - pose proof (Z.log2_spec n Hn). rewrite Z.add_1_r. lia.
  - apply Z.pow_le_mono_l. lia.
Qed.

Lemma Q_num_den q : (q * inject_Z (Zpos (Qden q)) == inject_Z (Qnum q))%Q.
Proof. destruct q as [n d]. unfold Qeq, inject_Z. simpl. lia. Qed.

Lemma magnitude_bounds q :
  (0 < q)%Q ->
  (pow10 (digits (Qnum q) - digits (Zpos (Qden q)) - 1) <= q /\
   q < pow10 (digits (Qnum q) - digits (Zpos (Qden q)) + 1))%Q.
Proof.
  intros Hq. assert (Hn : 0 < Qnum q).
  { unfold Qlt in Hq. simpl in Hq. lia. }
  destruct (digits_spec _ Hn) as [[G1 G2] G3].
  destruct (digits_spec (Zpos (Qden q)) ltac:(lia)) as [[D1 D2] D3].
  set (dn := digits (Qnum q)) in *. set (dd := digits (Zpos (Qden q))) in *.
  assert (Hd : (0 < inject_Z (Zpos (Qden q)))%Q) by done.
  rewrite Zle_Qle in G1, D1. rewrite Zlt_Qlt in G2, D2.
  rewrite <- pow10_Z in G1, G2, D1, D2 by lia.
  split.
  - apply (Qmult_le_r _ _ _ Hd). rewrite Q_num_den.
    apply Qle_trans with (pow10 (dn - 1)); [|done].
    replace (dn - 1) with (dn - dd - 1 + dd) by lia. rewrite pow10_plus.
    rewrite !(Qmult_comm (pow10 (dn - dd - 1))).
    apply Qmult_le_compat_r; [by apply Qlt_le_weak|apply Qlt_le_weak, pow10_pos].
  - apply (Qmult_lt_r _ _ _ Hd). rewrite Q_num_den.
    apply Qlt_le_trans with (pow10 dn); [done|].
    replace dn with (dn - dd + 1 + (dd - 1)) by lia. rewrite pow10_plus.
    replace (dn - dd + 1 + (dd - 1)) with dn by lia.
    rewrite !(Qmult_comm (pow10 (dn - dd + 1))).
    apply Qmult_le_compat_r; [done|apply Qlt_le_weak, pow10_pos].
Qed.

Lemma magnitude_spec q :
  (0 < q)%Q -> (pow10 (magnitude q) <= q /\ q < pow10 (magnitude q + 1))%Q.
Proof.
  intros Hq. destruct (magnitude_bounds q Hq) as [B1 B2]. unfold magnitude.
  set (e := digits (Qnum q) - digits (Zpos (Qden q))) in *.
  destruct (Qle_bool (pow10 e) q) eqn:E.
  - apply Qle_bool_iff in E. done.
  - split; [done|]. replace (e - 1 + 1) with e by lia. apply Qnot_le_lt.
    intros H%Qle_bool_iff. congruence.
Qed.

(** ** Rounding is monotone *)
Lemma half_even_bounds s : Qfloor s <= half_even s <= Qfloor s + 1.
Proof. unfold half_even. destruct (_ ?= _)%Q; [destruct (Z.even _)|..]; lia. Qed.

Lemma half_even_mono s s' : (s <= s')%Q -> half_even s <= half_even s'.
Proof.
  intros H. pose proof (Qfloor_resp_le _ _ H) as Hf.
  pose proof (half_even_bounds s). pose proof (half_even_bounds s').
  destruct (Z.eq_dec (Qfloor s) (Qfloor s')) as [E|]; [|lia].
  unfold half_even. rewrite <- E. set (f := Qfloor s).
  destruct (Qcompare_spec (s - inject_Z f) (1 # 2)) as [C|C|C];
  destruct (Qcompare_spec (s' - inject_Z f) (1 # 2)) as [C'|C'|C'];
  try (destruct (Z.even f)); try lia; lra.
Qed.

Lemma half_even_Z z : half_even (inject_Z z) = z.
Proof.
  unfold half_even. rewrite Qfloor_Z.
  destruct (Qcompare_spec (inject_Z z - inject_Z z) (1 # 2)); [lra|done|lra].
Qed.

Lemma half_even_le_Z s z : (s <= inject_Z z)%Q -> half_even s <= z.
Proof. intros H%half_even_mono. by rewrite half_even_Z in H. Qed.

Lemma half_even_ge_Z s z : (inject_Z z <= s)%Q -> z <= half_even s.
Proof. intros H%half_even_mono. by rewrite half_even_Z in H. Qed.

Lemma pow10_mult_le a b x : (a <= b)%Q -> (a * pow10 x <= b * pow10 x)%Q.
Proof. intros. apply Qmult_le_compat_r; [done|apply Qlt_le_weak, pow10_pos]. Qed.

Lemma pow10_scale x t : (x * pow10 t * pow10 (- t) == x)%Q.
Proof. rewrite <- Qmult_assoc, pow10_inv. ring. Qed.

(** The rounded value lies in the closed decade of its argument. *)
Lemma dec_ctx_pos_bounds q :
  (0 < q)%Q -> (pow10 (magnitude q) <= dec_ctx_pos q /\ dec_ctx_pos q <= pow10 (magnitude q + 1))%Q.
Proof.
  intros Hq. destruct (magnitude_spec q Hq) as [M1 M2]. unfold dec_ctx_pos, prec.
  set (e := magnitude q) in *.
  apply (pow10_mult_le _ _ (27 - e)) in M1. apply Qlt_le_weak, (pow10_mult_le _ _ (27 - e)) in M2.
  rewrite <- pow10_plus in M1, M2.
  replace (e + (27 - e)) with 27 in M1 by lia. replace (e + 1 + (27 - e)) with 28 in M2 by lia.
  rewrite (pow10_Z 27) in M1 by lia. rewrite (pow10_Z 28) in M2 by lia.
  apply half_even_ge_Z in M1. apply half_even_le_Z in M2.
  replace (28 - 1 - e) with (27 - e) by lia. replace (e - (28 - 1)) with (e - 27) by lia.
  rewrite Zle_Qle in M1, M2. rewrite <- (pow10_Z 27) in M1 by lia. rewrite <- (pow10_Z 28) in M2 by lia.
  apply (pow10_mult_le _ _ (e - 27)) in M1. apply (pow10_mult_le _ _ (e - 27)) in M2.
  rewrite <- pow10_plus in M1, M2.
  replace (27 + (e - 27)) with e in M1 by lia. by replace (28 + (e - 27)) with (e + 1) in M2 by lia.
Qed.

Lemma magnitude_mono p q : (0 < p)%Q -> (p <= q)%Q -> magnitude p <= magnitude q.
Proof.
  intros Hp Hpq. destruct (magnitude_spec p Hp) as [M1 _].
  destruct (magnitude_spec q ltac:(lra)) as [_ M2].
  assert (pow10 (magnitude p) < pow10 (magnitude q + 1))%Q as H%pow10_lt_inv by lra. lia.
Qed.

Lemma dec_ctx_pos_mono p q : (0 < p)%Q -> (p <= q)%Q -> (dec_ctx_pos p <= dec_ctx_pos q)%Q.
Proof.
  intros Hp Hpq. pose proof (magnitude_mono p q Hp Hpq) as Hm.
  destruct (Z.eq_dec (magnitude p) (magnitude q)) as [E|].
  - unfold dec_ctx_pos. rewrite <- E. apply pow10_mult_le. rewrite <- Zle_Qle.
    by apply half_even_mono, pow10_mult_le.
  - apply Qle_trans with (pow10 (magnitude p + 1)); [by apply dec_ctx_pos_bounds|].
    apply Qle_trans with (pow10 (magnitude q)); [apply pow10_le; lia|].
    apply dec_ctx_pos_bounds. lra.
Qed.

#[export] Instance half_even_proper : Proper (Qeq ==> eq) half_even.
Proof.
  intros s s' E. apply Z.le_antisymm; apply half_even_mono; rewrite E; apply Qle_refl.
Qed.

Lemma dec_ctx_pos_pos q : (0 < q)%Q -> (0 < dec_ctx_pos q)%Q.
Proof.
  intros Hq. eapply Qlt_le_trans; [apply pow10_pos|]. by apply dec_ctx_pos_bounds.
Qed.

Lemma dec_ctx_of_pos q : (0 < q)%Q -> (dec_ctx q == dec_ctx_pos q)%Q.
Proof.
  intros Hq. unfold dec_ctx. destruct (Qcompare_spec q 0); [lra|lra|]. apply Qred_correct.
Qed.

Lemma dec_ctx_of_neg q : (q < 0)%Q -> (dec_ctx q == - dec_ctx_pos (- q))%Q.
Proof.
  intros Hq. unfold dec_ctx. destruct (Qcompare_spec q 0); [lra| |lra]. apply Qred_correct.
Qed.

Lemma dec_ctx_0 q : (q == 0)%Q -> dec_ctx q = 0%Q.
Proof. intros E. unfold dec_ctx. destruct (Qcompare_spec q 0); [done|lra|lra]. Qed.

Lemma dec_ctx_mono p q : (p <= q)%Q -> (dec_ctx p <= dec_ctx q)%Q.
Proof.
  intros H. destruct (Qcompare_spec p 0) as [P|P|P], (Qcompare_spec q 0) as [Q0|Q0|Q0];
  try lra; try rewrite (dec_ctx_0 p P); try rewrite (dec_ctx_0 q Q0); try lra;
  try rewrite (dec_ctx_of_neg p P); try rewrite (dec_ctx_of_neg q Q0);
  try rewrite (dec_ctx_of_pos p P); try rewrite (dec_ctx_of_pos q Q0);
  try (pose proof (dec_ctx_pos_pos (- p) ltac:(lra)));
  try (pose proof (dec_ctx_pos_pos q ltac:(lra))); try lra.
  - pose proof (dec_ctx_pos_mono (- q) (- p) ltac:(lra) ltac:(lra)). lra.
  - by apply dec_ctx_pos_mono.
Qed.

#[export] Instance dec_ctx_proper : Proper (Qeq ==> Qeq) dec_ctx.
Proof. intros p q E. apply Qle_antisym; apply dec_ctx_mono; rewrite E; apply Qle_refl. Qed.

Lemma dec_ctx_pos_short n k :
  0 < n <= 10 ^ prec -> (dec_ctx_pos (inject_Z n * pow10 k) == inject_Z n * pow10 k)%Q.
Proof.
  unfold prec. intros [Hn Hn']. set (v := (inject_Z n * pow10 k)%Q).
  assert (Hv : (0 < v)%Q).
  { apply Qmult_lt_0_compat; [by rewrite (Zlt_Qlt 0) in Hn|apply pow10_pos]. }
  destruct (magnitude_spec v Hv) as [M1 _]. unfold dec_ctx_pos, prec. set (e := magnitude v) in *.
  assert (Hup : (v <= pow10 (28 + k))%Q).
  { rewrite pow10_plus. apply pow10_mult_le. rewrite (pow10_Z 28) by lia. by rewrite <- Zle_Qle. }
  replace (28 - 1 - e) with (27 - e) by lia. replace (e - (28 - 1)) with (- (27 - e)) by lia.
  assert (Hz : exists z, (v * pow10 (27 - e) == inject_Z z)%Q).
  { destruct (Z_le_gt_dec e (27 + k)) as [L|G].
    - exists (n * 10 ^ (k + (27 - e))). rewrite inject_Z_mult, <- pow10_Z by lia.
      unfold v. rewrite pow10_plus. ring.
    - exists (10 ^ 27). assert (pow10 (28 + k) <= pow10 e)%Q by (apply pow10_le; lia).
      assert (v == pow10 e)%Q as -> by lra. rewrite <- pow10_plus, <- pow10_Z by lia.
      by replace (e + (27 - e)) with 27 by lia. }
  destruct Hz as [z Hz]. rewrite Hz, half_even_Z, <- Hz. apply pow10_scale.
Qed.

(** A decimal with at most 28 digits is a value of the context: rounding it is
    the identity, so sums and products that stay within 28 digits are exact. *)
Lemma dec_ctx_short n k :
  Z.abs n <= 10 ^ prec -> (dec_ctx (inject_Z n * pow10 k) == inject_Z n * pow10 k)%Q.
Proof.
  intros H. destruct (Z.lt_trichotomy n 0) as [N|[->|N]].
  - assert (E : (inject_Z n * pow10 k == - (inject_Z (- n) * pow10 k))%Q).
    { rewrite inject_Z_opp. ring. }
    assert (0 < inject_Z (- n) * pow10 k)%Q.
    { apply Qmult_lt_0_compat; [|apply pow10_pos]. rewrite <- (Zlt_Qlt 0). lia. }
    rewrite E, dec_ctx_of_neg by lra.
    pose proof (dec_ctx_of_pos (- - (inject_Z (- n) * pow10 k))%Q ltac:(lra)) as P.
    rewrite <- P, Qopp_involutive, dec_ctx_of_pos by lra. rewrite dec_ctx_pos_short by lia. done.
  - rewrite dec_ctx_0 by ring. ring.
  - rewrite dec_ctx_of_pos; [|apply Qmult_lt_0_compat; [by rewrite (Zlt_Qlt 0) in N|apply pow10_pos]].
    apply dec_ctx_pos_short. lia.
Qed.

Lemma dec_ctx_pos_form q :
  (0 < q)%Q -> exists n k, 0 <= n <= 10 ^ prec /\ (dec_ctx_pos q == inject_Z n * pow10 k)%Q.
Proof.
  intros Hq. destruct (magnitude_spec q Hq) as [_ M2].
  eexists _, _. split; [|reflexivity]. unfold prec. replace (28 - 1 - magnitude q) with (27 - magnitude q) by lia.
  apply Qlt_le_weak, (pow10_mult_le _ _ (27 - magnitude q)) in M2. rewrite <- pow10_plus in M2.
  replace (magnitude q + 1 + (27 - magnitude q)) with 28 in M2 by lia.
  rewrite (pow10_Z 28) in M2 by lia. apply half_even_le_Z in M2. split; [|done].
  apply half_even_ge_Z. apply Qlt_le_weak, Qmult_lt_0_compat; [done|apply pow10_pos].
Qed.

Lemma dec_ctx_form q :
  exists n k, Z.abs n <= 10 ^ prec /\ (dec_ctx q == inject_Z n * pow10 k)%Q.
Proof.
  destruct (Qcompare_spec q 0) as [E|N|P].
  - exists 0, 0. split; [done|]. by rewrite (dec_ctx_0 q E).
  - destruct (dec_ctx_pos_form (- q)) as (n & k & Hn & E); [lra|].
    exists (- n), k. split; [lia|]. rewrite dec_ctx_of_neg, E, inject_Z_opp by done. ring.
  - destruct (dec_ctx_pos_form q) as (n & k & Hn & E); [lra|].
    exists n, k. split; [lia|]. by rewrite dec_ctx_of_pos, E by done.
Qed.

(** A decimal is a number the context represents exactly. *)
Definition is_dec (q : Q) : Prop := (dec_ctx q == q)%Q.

Lemma dec_ctx_is_dec q : is_dec (dec_ctx q).
Proof.
  unfold is_dec. destruct (dec_ctx_form q) as (n & k & Hn & E). rewrite E. by apply dec_ctx_short.
Qed.

Lemma is_dec_short n k : Z.abs n <= 10 ^ prec -> is_dec (inject_Z n * pow10 k).
Proof. apply dec_ctx_short. Qed.

Lemma is_dec_Z n : Z.abs n <= 10 ^ prec -> is_dec (inject_Z n).
Proof.
  intros H. unfold is_dec. assert (E : (inject_Z n == inject_Z n * pow10 0)%Q).
  { change (pow10 0) with 1%Q. ring. }
  rewrite E. by apply dec_ctx_short.
Qed.

Lemma is_dec_0 : is_dec 0.
Proof. done. Qed.

Lemma dec_ctx_ge c x : is_dec c -> (c <= x)%Q -> (c <= dec_ctx x)%Q.
Proof. unfold is_dec. intros Hc H%dec_ctx_mono. by rewrite Hc in H. Qed.

Lemma dec_ctx_le c x : is_dec c -> (x <= c)%Q -> (dec_ctx x <= c)%Q.
Proof. unfold is_dec. intros Hc H%dec_ctx_mono. by rewrite Hc in H. Qed.

Lemma dec_add_mono a a' b : (a <= a')%Q -> (dec_add a b <= dec_add a' b)%Q.
Proof. intros. apply dec_ctx_mono. lra. Qed.

Lemma dec_add_inflationary a b : is_dec a -> (0 <= b)%Q -> (a <= dec_add a b)%Q.
Proof. intros. apply dec_ctx_ge; [done|lra]. Qed.

Lemma dec_add_nonneg a b : (0 <= a)%Q -> (0 <= b)%Q -> (0 <= dec_add a b)%Q.
Proof. intros. apply dec_ctx_ge; [apply is_dec_0|lra]. Qed.

Lemma dec_mul_nonneg a b : (0 <= a)%Q -> (0 <= b)%Q -> (0 <= dec_mul a b)%Q.
Proof. intros. apply dec_ctx_ge; [apply is_dec_0|]. by apply Qmult_le_0_compat. Qed.

#[export] Instance dec_add_proper : Proper (Qeq ==> Qeq ==> Qeq) dec_add.
Proof. intros a a' Ha b b' Hb. unfold dec_add. by rewrite Ha, Hb. Qed.

#[export] Instance dec_mul_proper : Proper (Qeq ==> Qeq ==> Qeq) dec_mul.
Proof. intros a a' Ha b b' Hb. unfold dec_mul. by rewrite Ha, Hb. Qed.

(** Normalising by the maximum stays in the unit interval. *)
Lemma dec_div_unit a b q :
  (0 <= a)%Q -> (a <= b)%Q -> dec_div a b = Ok q -> (0 <= q /\ q <= 1)%Q.
Proof.
  unfold dec_div. intros Ha Hab H. destruct (Qeq_bool b 0) eqn:E; [done|]. results.
  apply Qeq_bool_neq in E. assert (0 < b)%Q by (destruct (Qcompare_spec b 0); lra).
  split.
  - apply dec_ctx_ge; [done|]. apply Qle_shift_div_l; lra.
  - apply dec_ctx_le; [done|]. apply Qle_shift_div_r; lra.
Qed.

Lemma dec_div_ok a b : ~ (b == 0)%Q -> exists q, dec_div a b = Ok q.
Proof.
  intros H. unfold dec_div. destruct (Qeq_bool b 0) eqn:E; [|eauto].
  apply Qeq_bool_eq in E. done.
Qed.

Lemma half_up_nonneg s : (0 <= s)%Q -> 0 <= half_up s.
Proof.
  intros H. unfold half_up. destruct (Qcompare_spec s 0); [|lra|];
  change 0 with (Qfloor 0); apply Qfloor_resp_le; lra.
Qed.

Lemma quantize_nonneg p q r : (0 <= q)%Q -> quantize p q = Ok r -> (0 <= r)%Q.
Proof.
  unfold quantize. intros H E. case_match; [|done]. results. rewrite Qred_correct.
  apply Qmult_le_0_compat; [|apply Qlt_le_weak, pow10_pos].
  rewrite <- (Zle_Qle 0). apply half_up_nonneg.
  apply Qmult_le_0_compat; [done|apply Qlt_le_weak, pow10_pos].
Qed.

#[export] Hint Resolve is_dec_0 dec_ctx_is_dec dec_add_nonneg dec_mul_nonneg : countyflow.

(** ** Bounds of sums and products *)
Lemma dec_sub_ge lo a b : is_dec lo -> (lo <= a - b)%Q -> (lo <= dec_sub a b)%Q.
Proof. apply dec_ctx_ge. Qed.
Lemma dec_sub_le hi a b : is_dec hi -> (a - b <= hi)%Q -> (dec_sub a b <= hi)%Q.
Proof. apply dec_ctx_le. Qed.

Lemma dec_mul_unit q c : is_dec c -> (0 <= c)%Q -> (0 <= q /\ q <= 1)%Q -> (0 <= dec_mul q c /\ dec_mul q c <= c)%Q.
Proof.
  intros Hc Hc0 [H0 H1]. split; [by apply dec_mul_nonneg|]. apply dec_ctx_le; [done|].
  pose proof (Qmult_le_compat_r q 1 c H1 Hc0). lra.
Qed.

(** ** Negation *)
Lemma dec_ctx_opp q : (dec_ctx (- q) == - dec_ctx q)%Q.
Proof.
  destruct (Qcompare_spec q 0) as [E|N|P].
  - rewrite !dec_ctx_0 by lra. ring.
  - pose proof (dec_ctx_of_neg q N) as H. rewrite dec_ctx_of_pos, H by lra. ring.
  - pose proof (dec_ctx_of_neg (- q) ltac:(lra)) as H. rewrite H, dec_ctx_of_pos by done.
    pose proof (dec_ctx_of_pos (- - q) ltac:(lra)) as H2. rewrite <- H2, Qopp_involutive, dec_ctx_of_pos by done. reflexivity.
Qed.

Lemma dec_neg_le a b : is_dec a -> is_dec b -> (dec_neg a <= dec_neg b)%Q -> (b <= a)%Q.
Proof. unfold is_dec, dec_neg. intros Ha Hb H. rewrite !dec_ctx_opp, Ha, Hb in H. lra. Qed.

Lemma quantize_is_dec p q r : quantize p q = Ok r -> is_dec r.
Proof.
  unfold quantize. intros H. destruct (Z.abs (half_up (q * pow10 p)) <? 10 ^ prec) eqn:E; [|done].
  results. unfold is_dec. rewrite Qred_correct. apply dec_ctx_short. apply Z.ltb_lt in E. lia.
Qed.

(** Decimals are computed by [vm_compute]; proofs keep them folded. *)
Arguments dec_ctx : simpl never.
Arguments dec_add : simpl never.
Arguments dec_sub : simpl never.
Arguments dec_mul : simpl never.
Arguments dec_neg : simpl never.
Arguments dec_div : simpl never.
Arguments quantize : simpl never.
Arguments half_even : simpl never.
Arguments half_up : simpl never.
Arguments magnitude : simpl never.
Arguments pow10 : simpl never.
#[global] Strategy 1000 [dec_ctx dec_ctx_pos dec_add dec_sub dec_mul dec_neg dec_div quantize half_even half_up magnitude pow10 digits].
