(* ===== verification/RoadNetwork.v ===== *)
(** * RoadNetwork: snapshots of the road graph and the Dijkstra path finder

    Models [app/road_network/models.py], [dijkstra.py], [protocols.py] and
    [sqlalchemy_repository.py].  The heap of [DijkstraPathFinder.find] is the
    list of its entries, popped in Python's tuple order; [best] is a [gmap];
    the [while] loop runs on fuel, and [find] never runs out of it.  A walk is
    specified independently ([Walk]), with its cost added up the way the code
    adds it, so the theorems also hold where decimal addition rounds. *)

From S2P Require Import Prelude Decimal.

Local Open Scope Z_scope.
Local Open Scope list_scope.

(** ** Data *)
Inductive RouteObjective := FASTEST | SHORTEST | SAFEST.

#[export] Instance RouteObjective_eq_dec : EqDecision RouteObjective.
Proof. solve_decision. Defined.

(** [for objective in RouteObjective]. *)
Definition route_objectives : list RouteObjective := [FASTEST; SHORTEST; SAFEST].

Definition objective_value (o : RouteObjective) : string :=
  match o with FASTEST => "FASTEST" | SHORTEST => "SHORTEST" | SAFEST => "SAFEST" end.

Record RoadNodeSnapshot := {
  node_id : string;
  node_name : string;
  x_km : Q;
  y_km : Q;
  node_type : string;
}.

Record RoadEdgeSnapshot := {
  edge_id : string;
  edge_name : string;
  from_node_id : string;
  to_node_id : string;
  distance_km : Q;
  base_minutes : Z;
  road_level : string;
  risk_level : string;
  edge_status : string;
  congestion_factor : Q;
  weight_limit_tons : Q;
  bidirectional : bool;
  edge_version : Z;
}.

Record RoadNetworkSnapshot := {
  network_version : Z;
  nodes : list RoadNodeSnapshot;
  edges : list RoadEdgeSnapshot;
}.

Record PathResult := {
  objective : RouteObjective;
  path_node_ids : list string;
  path_edge_ids : list string;
  path_distance_km : Q;
  estimated_minutes : Z;
  risk_cost : Q;
  visited_node_count : Z;
}.

(** ** The repository: rows of [road_nodes] and [road_edges] to a snapshot *)
Definition decimal_places (value : Q) : result Q := quantize 2 value.

Definition node_snapshot (row : RoadNodeSnapshot) : result RoadNodeSnapshot :=
  x ← decimal_places (x_km row);
  y ← decimal_places (y_km row);
  Ok {| node_id := node_id row; node_name := node_name row; x_km := x; y_km := y;
        node_type := node_type row |}.

Definition edge_snapshot (row : RoadEdgeSnapshot) : result RoadEdgeSnapshot :=
  d ← decimal_places (distance_km row);
  c ← decimal_places (congestion_factor row);
  w ← decimal_places (weight_limit_tons row);
  Ok {| edge_id := edge_id row; edge_name := edge_name row;
        from_node_id := from_node_id row; to_node_id := to_node_id row;
        distance_km := d; base_minutes := base_minutes row; road_level := road_level row;
        risk_level := risk_level row; edge_status := edge_status row;
        congestion_factor := c; weight_limit_tons := w;
        bidirectional := bidirectional row; edge_version := edge_version row |}.

(** [max((edge.version for edge in edges), default=0)]. *)
Definition max_version (es : list RoadEdgeSnapshot) : Z :=
  match es with
  | [] => 0
  | e :: es' => fold_left (fun m e' => Z.max m (edge_version e')) es' (edge_version e)
  end.

(** The rows are read in the order of their identifiers. *)
Definition snapshot (node_rows : list RoadNodeSnapshot) (edge_rows : list RoadEdgeSnapshot)
    : result RoadNetworkSnapshot :=
  ns ← map_result node_snapshot (sorted_key node_id node_rows);
  es ← map_result edge_snapshot (sorted_key edge_id edge_rows);
  Ok {| network_version := max_version es; nodes := ns; edges := es |}.

(** ** Edge weights *)
Definition risk_penalty (edge : RoadEdgeSnapshot) : result Q :=
  if String.eqb (risk_level edge) "LOW" then Ok 0%Q
  else if String.eqb (risk_level edge) "MEDIUM" then Ok 4%Q
  else if String.eqb (risk_level edge) "HIGH" then Ok 12%Q
  else Err (Exn "KeyError" (risk_level edge)).

Definition edge_minutes (edge : RoadEdgeSnapshot) : Q :=
  dec_mul (inject_Z (base_minutes edge)) (congestion_factor edge).

Definition weight (edge : RoadEdgeSnapshot) (o : RouteObjective) : result Q :=
  match o with
  | SHORTEST => Ok (distance_km edge)
  | FASTEST => Ok (edge_minutes edge)
  | SAFEST => p ← risk_penalty edge; Ok (dec_add (edge_minutes edge) p)
  end.

Definition quantize_distance (d : Q) : result Q := quantize 2 d.

Definition is_available (edge : RoadEdgeSnapshot) (vehicle_weight_tons : Q) (excluded : gset string) : bool :=
  negb (bool_decide (edge_id edge ∈ excluded)) && negb (String.eqb (edge_status edge) "BLOCKED")
  && Qle_bool vehicle_weight_tons (weight_limit_tons edge).

(** [edges = {edge.edge_id: edge for edge in snapshot.edges}]: the last edge of an id wins. *)
Definition edges_by_id (s : RoadNetworkSnapshot) : gmap string RoadEdgeSnapshot :=
  fold_left (fun m e => <[edge_id e := e]> m) (edges s) ∅.

Definition minutes_of (s : RoadNetworkSnapshot) (i : string) : result Q :=
  match edges_by_id s !! i with
  | Some e => Ok (edge_minutes e)
  | None => Err (Exn "KeyError" i)
  end.

Definition display_minutes (s : RoadNetworkSnapshot) (edge_ids : list string) : result Z :=
  ms ← map_result (minutes_of s) edge_ids;
  Ok (ceil_int (dec_sum ms)).

(** ** The adjacency lists *)
Definition arc : Type := string * RoadEdgeSnapshot.

Definition push_arc (from : string) (a : arc) (m : gmap string (list arc)) : gmap string (list arc) :=
  <[from := default [] (m !! from) ++ [a]]> m.

Definition add_edge (vehicle_weight_tons : Q) (excluded : gset string)
    (m : gmap string (list arc)) (edge : RoadEdgeSnapshot) : gmap string (list arc) :=
  if is_available edge vehicle_weight_tons excluded then
    let m := push_arc (from_node_id edge) (to_node_id edge, edge) m in
    if bidirectional edge then push_arc (to_node_id edge) (from_node_id edge, edge) m else m
  else m.

Definition adjacency (s : RoadNetworkSnapshot) (vehicle_weight_tons : Q) (excluded : gset string)
    : gmap string (list arc) :=
  (fun nbrs => sorted_key (fun a : arc => (edge_id a.2, a.1)) nbrs)
  <$> fold_left (add_edge vehicle_weight_tons excluded) (edges s) ∅.

Definition neighbours (adj : gmap string (list arc)) (n : string) : list arc := default [] (adj !! n).

(** ** The search *)
Definition label : Type := Q * list string.

(** A heap entry; tuples are compared field by field, in this order. *)
Record entry := {
  cost : Q;
  entry_edge_ids : list string;
  entry_node : string;
  node_path : list string;
  entry_distance : Q;
  entry_risk : Q;
}.

Definition entry_key (e : entry) : Q * (list string * (string * (list string * (Q * Q)))) :=
  (cost e, (entry_edge_ids e, (entry_node e, (node_path e, (entry_distance e, entry_risk e))))).
Definition entry_label (e : entry) : label := (cost e, entry_edge_ids e).

(** [l == l'] on labels: numeric on the cost. *)
Definition label_eqb (l l' : label) : bool :=
  match pycmp l l' with Eq => true | _ => false end.

(** The body of [for next_node_id, edge in adjacency.get(node_id, ())]. *)
Definition relax (o : RouteObjective) (cur : entry) (bh : gmap string label * list entry) (a : arc)
    : result (gmap string label * list entry) :=
  let '(best, heap) := bh in
  let '(next_node_id, edge) := a in
  let next_edge_ids := entry_edge_ids cur ++ [edge_id edge] in
  w ← weight edge o;
  let next_cost := dec_add (cost cur) w in
  let candidate := (next_cost, next_edge_ids) in
  if match best !! next_node_id with Some l => py_le l candidate | None => false end then Ok (best, heap)
  else
    p ← risk_penalty edge;
    Ok (<[next_node_id := candidate]> best,
        {| cost := next_cost; entry_edge_ids := next_edge_ids; entry_node := next_node_id;
           node_path := node_path cur ++ [next_node_id];
           entry_distance := dec_add (entry_distance cur) (distance_km edge);
           entry_risk := dec_add (entry_risk cur) p |} :: heap).

Fixpoint relax_all (o : RouteObjective) (cur : entry) (bh : gmap string label * list entry) (nbrs : list arc)
    : result (gmap string label * list entry) :=
  match nbrs with
  | [] => Ok bh
  | a :: nbrs' => bh' ← relax o cur bh a; relax_all o cur bh' nbrs'
  end.

Definition is_stale (best : gmap string label) (cur : entry) : bool :=
  match best !! entry_node cur with Some l => negb (label_eqb l (entry_label cur)) | None => true end.

Definition path_result (s : RoadNetworkSnapshot) (o : RouteObjective) (cur : entry) (visited : Z) : result PathResult :=
  minutes ← display_minutes s (entry_edge_ids cur);
  d ← quantize_distance (entry_distance cur);
  Ok {| objective := o; path_node_ids := node_path cur; path_edge_ids := entry_edge_ids cur;
        path_distance_km := d; estimated_minutes := minutes; risk_cost := entry_risk cur;
        visited_node_count := visited |}.

Definition OutOfFuel : exn := Exn "OutOfFuel" "".

(** [while heap]. *)
Fixpoint search (fuel : nat) (s : RoadNetworkSnapshot) (o : RouteObjective) (end_node_id : string)
    (adj : gmap string (list arc)) (best : gmap string label) (heap : list entry) (visited : Z)
    : result (option PathResult) :=
  match fuel with
  | O => Err OutOfFuel
  | S f =>
      match heappop entry_key heap with
      | None => Ok None
      | Some (cur, heap') =>
          if is_stale best cur then search f s o end_node_id adj best heap' visited
          else if String.eqb (entry_node cur) end_node_id then
            r ← path_result s o cur (visited + 1); Ok (Some r)
          else
            bh ← relax_all o cur (best, heap') (neighbours adj (entry_node cur));
            search f s o end_node_id adj bh.1 bh.2 (visited + 1)
      end
  end.

Definition start_entry (start_node_id : string) : entry :=
  {| cost := 0; entry_edge_ids := []; entry_node := start_node_id; node_path := [start_node_id];
     entry_distance := 0; entry_risk := 0 |}.

Definition search_fuel (s : RoadNetworkSnapshot) : nat := 2 * length (edges s) + 2.

Definition has_node (s : RoadNetworkSnapshot) (n : string) : bool :=
  existsb (fun node => String.eqb (node_id node) n) (nodes s).

Definition trivial_path (o : RouteObjective) (start_node_id : string) : PathResult :=
  {| objective := o; path_node_ids := [start_node_id]; path_edge_ids := []; path_distance_km := 0;
     estimated_minutes := 0; risk_cost := 0; visited_node_count := 0 |}.

Definition find (s : RoadNetworkSnapshot) (start_node_id end_node_id : string) (o : RouteObjective)
    (vehicle_weight_tons : Q) (excluded_edge_ids : gset string) : result (option PathResult) :=
  if negb (has_node s start_node_id) || negb (has_node s end_node_id) then Ok None
  else if String.eqb start_node_id end_node_id then Ok (Some (trivial_path o start_node_id))
  else
    search (search_fuel s) s o end_node_id (adjacency s vehicle_weight_tons excluded_edge_ids)
      {[ start_node_id := (0%Q, []) ]} [start_entry start_node_id] 0.

(** ** Specification: walks over the available arcs *)

(** The arcs an edge contributes, each with its origin. *)
Definition arcs_of (vehicle_weight_tons : Q) (excluded : gset string) (e : RoadEdgeSnapshot) : list (string * arc) :=
  if is_available e vehicle_weight_tons excluded then
    (from_node_id e, (to_node_id e, e))
      :: (if bidirectional e then [(to_node_id e, (from_node_id e, e))] else [])
  else [].

Definition arcs (s : RoadNetworkSnapshot) (vehicle_weight_tons : Q) (excluded : gset string) : list (string * arc) :=
  flat_map (arcs_of vehicle_weight_tons excluded) (edges s).

Definition arcs_from (n : string) (l : list (string * arc)) : list arc :=
  (filter (fun x => x.1 = n) l).*2.

(** A walk extended by one arc whose weight is [w] and risk penalty is [p]. *)
Definition extend_walk (cur : entry) (a : arc) (w p : Q) : entry :=
  {| cost := dec_add (cost cur) w;
     entry_edge_ids := entry_edge_ids cur ++ [edge_id a.2];
     entry_node := a.1;
     node_path := node_path cur ++ [a.1];
     entry_distance := dec_add (entry_distance cur) (distance_km a.2);
     entry_risk := dec_add (entry_risk cur) p |}.

(** [Walk l o start cur es]: following the edges [es] along the arcs [l] from
    [start] leads to [entry_node cur], with the totals recorded in [cur]. *)
Inductive Walk (l : list (string * arc)) (o : RouteObjective) (start : string) : entry -> list RoadEdgeSnapshot -> Prop :=
| walk_start : Walk l o start (start_entry start) []
| walk_step cur es a w p :
    Walk l o start cur es -> (entry_node cur, a) ∈ l ->
    weight a.2 o = Ok w -> risk_penalty a.2 = Ok p ->
    Walk l o start (extend_walk cur a w p) (es ++ [a.2]).

(** What the database guarantees of an edge: no negative quantity. *)
Definition edge_ok (e : RoadEdgeSnapshot) : Prop :=
  0 <= base_minutes e /\ (0 <= congestion_factor e)%Q /\ (0 <= distance_km e)%Q.
Definition network_ok (s : RoadNetworkSnapshot) : Prop := Forall edge_ok (edges s).
(** The risk levels of the catalogue. *)
Definition risk_known (e : RoadEdgeSnapshot) : Prop := exists p, risk_penalty e = Ok p.

(** ** Adjacency *)
Lemma push_arc_lookup from a m n :
  neighbours (push_arc from a m) n = neighbours m n ++ (if String.eqb from n then [a] else []).
Proof.
  unfold neighbours, push_arc. destruct (String.eqb_spec from n) as [->|N].
  - by rewrite lookup_insert_eq.
  - rewrite lookup_insert_ne by done. by rewrite app_nil_r.
Qed.

Lemma arcs_from_cons n x l :
  arcs_from n (x :: l) = (if String.eqb x.1 n then [x.2] else []) ++ arcs_from n l.
Proof.
  unfold arcs_from. rewrite filter_cons. destruct (String.eqb_spec x.1 n); by case_decide.
Qed.

Lemma arcs_from_app n l l' : arcs_from n (l ++ l') = arcs_from n l ++ arcs_from n l'.
Proof. unfold arcs_from. by rewrite filter_app, fmap_app. Qed.

Lemma add_edge_neighbours vw ex m e n :
  neighbours (add_edge vw ex m e) n = neighbours m n ++ arcs_from n (arcs_of vw ex e).
Proof.
  unfold add_edge, arcs_of. destruct (is_available e vw ex).
  - destruct (bidirectional e); rewrite !push_arc_lookup, !arcs_from_cons; simpl.
    + by rewrite <- !app_assoc, app_nil_r.
    + by rewrite app_nil_r.
  - by rewrite app_nil_r.
Qed.

Lemma add_edges_neighbours vw ex es m n :
  neighbours (fold_left (add_edge vw ex) es m) n = neighbours m n ++ arcs_from n (flat_map (arcs_of vw ex) es).
Proof.
  revert m. induction es as [|e es IH]; intros m; simpl; [by rewrite app_nil_r|].
  by rewrite IH, add_edge_neighbours, arcs_from_app, app_assoc.
Qed.

(** The adjacency list of a node holds exactly its outgoing arcs. *)
Lemma adjacency_neighbours s vw ex n :
  neighbours (adjacency s vw ex) n ≡ₚ arcs_from n (arcs s vw ex).
Proof.
  pose proof (add_edges_neighbours vw ex (edges s) ∅ n) as H.
  unfold adjacency, neighbours in *. rewrite lookup_fmap. rewrite lookup_empty in H. simpl in H.
  destruct (fold_left _ _ _ !! n); simpl in *; [rewrite sorted_key_perm|]; by rewrite H.
Qed.

Lemma elem_of_arcs_from n a l : a ∈ arcs_from n l <-> (n, a) ∈ l.
Proof.
  unfold arcs_from. rewrite list_elem_of_fmap. split.
  - intros ([m b] & -> & [E H]%list_elem_of_filter). simpl in *. by subst.
  - intros H. exists (n, a). split; [done|]. by apply list_elem_of_filter.
Qed.

Lemma adjacency_arcs s vw ex n a :
  a ∈ neighbours (adjacency s vw ex) n <-> (n, a) ∈ arcs s vw ex.
Proof. by rewrite adjacency_neighbours, elem_of_arcs_from. Qed.

Lemma arcs_edge s vw ex n a :
  (n, a) ∈ arcs s vw ex ->
  a.2 ∈ edges s /\ is_available a.2 vw ex = true /\
  ((n, a.1) = (from_node_id a.2, to_node_id a.2) \/
   bidirectional a.2 = true /\ (n, a.1) = (to_node_id a.2, from_node_id a.2)).
Proof.
  unfold arcs. intros H%list_elem_of_In%in_flat_map. destruct H as (e & He & H).
  unfold arcs_of in H. apply list_elem_of_In in He.
  destruct (is_available e vw ex) eqn:A; [|done].
  destruct H as [E|H]; [by injection E as <- <-; auto|].
  destruct (bidirectional e) eqn:B; [|done]. destruct H as [E|[]]. injection E as <- <-. auto.
Qed.

(** ** Labels *)
Lemma label_le_cost (l l' : label) : py_le l l' = true -> (l.1 <= l'.1)%Q.
Proof.
  unfold py_le, pycmp, prod_cmp, pycmp, q_cmp.
  destruct (Qcompare_spec l.1 l'.1); intros; try lra; done.
Qed.

Lemma label_eqb_cost (l l' : label) : label_eqb l l' = true -> (l.1 == l'.1)%Q /\ l.2 = l'.2.
Proof.
  unfold label_eqb, pycmp, prod_cmp. destruct (pycmp l.1 l'.1) eqn:E; try done.
  apply Qeq_alt in E. destruct (pycmp l.2 l'.2) eqn:E2; try done. by apply strings_cmp_eq in E2.
Qed.

Lemma label_eqb_refl l : label_eqb l l = true.
Proof. unfold label_eqb. by rewrite pycmp_refl. Qed.

Lemma label_lt_not_eqb l l' : py_lt l l' = true -> label_eqb l l' = false.
Proof. unfold py_lt, label_eqb. by destruct (pycmp l l'). Qed.

Lemma label_eqb_le l l' : label_eqb l l' = true -> py_le l l' = true /\ py_le l' l = true.
Proof. unfold label_eqb, py_le. rewrite (pycmp_opp l l'). by destruct (pycmp l l'). Qed.

Lemma strings_prefix_lt (l : list string) x : pycmp l (l ++ [x]) = Lt.
Proof.
  induction l as [|y l IH]; [done|]. cbn. by rewrite pycmp_refl.
Qed.

Lemma extend_label_lt cur a w p :
  is_dec (cost cur) -> (0 <= w)%Q ->
  py_lt (entry_label cur) (entry_label (extend_walk cur a w p)) = true.
Proof.
  intros Hc Hw. pose proof (dec_add_inflationary _ _ Hc Hw) as H.
  unfold py_lt, pycmp, prod_cmp. simpl.
  destruct (pycmp (cost cur) (dec_add (cost cur) w)) eqn:E; [by rewrite strings_prefix_lt|done|].
  unfold pycmp, q_cmp in E. apply Qgt_alt in E. lra.
Qed.

Lemma entry_key_label x y : py_le (entry_key x) (entry_key y) = true -> py_le (entry_label x) (entry_label y) = true.
Proof.
  unfold py_le, entry_key, entry_label, label. rewrite !pycmp_pair.
  destruct (pycmp (cost x) (cost y)); [|done..].
  by destruct (pycmp (entry_edge_ids x) (entry_edge_ids y)).
Qed.

Lemma Walk_is_dec l o start cur es : Walk l o start cur es -> is_dec (cost cur).
Proof. destruct 1; simpl; auto with countyflow. apply dec_ctx_is_dec. Qed.

Lemma label_le_refl (l : label) : py_le l l = true.
Proof. apply py_le_refl. Qed.
#[local] Hint Resolve label_le_refl : countyflow.

(** ** One relaxation *)
Section relaxing.
Context (o : RouteObjective) (cur : entry).

(** Some label at [v] costs at most [c]. *)
Definition labelled_within (best : gmap string label) (v : string) (c : Q) : Prop :=
  exists l : label, best !! v = Some l /\ (l.1 <= c)%Q.

Lemma relax_cases best heap a best' heap' :
  relax o cur (best, heap) a = Ok (best', heap') ->
  exists w, weight a.2 o = Ok w /\
  ((best' = best /\ heap' = heap /\ labelled_within best a.1 (dec_add (cost cur) w)) \/
   (exists p, risk_penalty a.2 = Ok p /\ let x := extend_walk cur a w p in
      best' = <[a.1 := entry_label x]> best /\ heap' = x :: heap /\
      (forall l, best !! a.1 = Some l -> py_lt (entry_label x) l = true))).
Proof.
  destruct a as [v e]. cbn [relax fst snd]. intros H.
  apply result_bind_ok in H as (w & Hw & H). exists w. split; [done|].
  destruct (best !! v) as [l|] eqn:El.
  - destruct (py_le l (dec_add (cost cur) w, entry_edge_ids cur ++ [edge_id e])) eqn:Ele.
    + results. left. split_and!; [done..|]. exists l. split; [done|]. by apply label_le_cost in Ele.
    + apply result_bind_ok in H as (p & Hp & H). results. right. exists p. split_and!; try done.
      intros l' E. results. by apply py_not_le.
  - apply result_bind_ok in H as (p & Hp & H). results. right. exists p. by split_and!.
Qed.

(** What a whole [for] loop does to [best] and the heap. *)
Record relaxed_to (nbrs : list arc) (best : gmap string label) (heap : list entry)
    (best' : gmap string label) (heap' : list entry) : Prop := {
  rt_mono : forall n l, best !! n = Some l -> exists l', best' !! n = Some l' /\ py_le l' l = true;
  rt_new : forall n l, best' !! n = Some l -> best !! n = Some l \/
             exists x, x ∈ heap' /\ entry_node x = n /\ entry_label x = l;
  rt_incl : heap ⊆ heap';
  rt_entries : forall x, x ∈ heap' -> x ∈ heap \/
             exists a w p, a ∈ nbrs /\ weight a.2 o = Ok w /\ risk_penalty a.2 = Ok p /\ x = extend_walk cur a w p;
  rt_done : forall a w, a ∈ nbrs -> weight a.2 o = Ok w -> labelled_within best' a.1 (dec_add (cost cur) w);
  rt_length : (length heap' <= length heap + length nbrs)%nat;
}.

Lemma relax_relaxed_to a best heap best' heap' :
  relax o cur (best, heap) a = Ok (best', heap') -> relaxed_to [a] best heap best' heap'.
Proof.
  intros (w & Hw & [(-> & -> & Hl)|(p & Hp & -> & -> & Hlt)])%relax_cases.
  - split; [eauto with countyflow|eauto|done|eauto| |simpl; lia].
    intros a' w' Ha Hw'. apply elem_of_one in Ha as ->. rewrite Hw in Hw'. by results.
  - split; [| |set_solver| | |simpl; lia].
    + intros n l E. destruct (decide (n = a.1)) as [->|].
      * rewrite lookup_insert_eq. eauto using py_lt_le.
      * rewrite lookup_insert_ne by done. eauto with countyflow.
    + intros n l. destruct (decide (n = a.1)) as [->|].
      * rewrite lookup_insert_eq. intros [= <-]. right. eexists. split; [left|done].
      * rewrite lookup_insert_ne by done. auto.
    + intros x [->|]%elem_of_cons; [|auto]. right. exists a, w, p. set_solver.
    + intros a' w' Ha Hw'. apply elem_of_one in Ha as ->. rewrite Hw in Hw'. results.
      eexists. rewrite lookup_insert_eq. split; [done|]. simpl. apply Qle_refl.
Qed.

Lemma labelled_within_mono best best' v c :
  (forall n l, best !! n = Some l -> exists l', best' !! n = Some l' /\ py_le l' l = true) ->
  labelled_within best v c -> labelled_within best' v c.
Proof.
  intros Hm (l & Hl & Hc). destruct (Hm _ _ Hl) as (l' & Hl' & Hle). exists l'. split; [done|].
  apply label_le_cost in Hle. lra.
Qed.

Lemma relaxed_to_cons a nbrs best heap best1 heap1 best' heap' :
  relaxed_to [a] best heap best1 heap1 -> relaxed_to nbrs best1 heap1 best' heap' ->
  relaxed_to (a :: nbrs) best heap best' heap'.
Proof.
  intros [m1 n1 i1 e1 d1 l1] [m2 n2 i2 e2 d2 l2]. split.
  - intros n l E. destruct (m1 _ _ E) as (l3 & E3 & L3), (m2 _ _ E3) as (l4 & E4 & L4).
    exists l4. split; [done|]. by apply py_le_trans with l3.
  - intros n l E. destruct (n2 _ _ E) as [E1|]; [|auto].
    destruct (n1 _ _ E1) as [|(x & Hx & ?)]; [auto|]. right. exists x. split; [by apply i2|done].
  - set_solver.
  - intros x Hx. destruct (e2 x Hx) as [Hx1|(a2 & w & p & ? & ?)].
    + destruct (e1 x Hx1) as [|(a2 & w & p & ->%elem_of_one & E)]; [auto|].
      right. exists a, w, p. split; [by left|done].
    + right. exists a2, w, p. split; [by right|done].
  - intros a2 w [->|Ha]%elem_of_cons Hw; [|eauto].
    apply (labelled_within_mono best1); [done|]. apply d1; [set_solver|done].
  - simpl in *. lia.
Qed.

Lemma relax_all_spec nbrs best heap best' heap' :
  relax_all o cur (best, heap) nbrs = Ok (best', heap') -> relaxed_to nbrs best heap best' heap'.
Proof.
  revert best heap. induction nbrs as [|a nbrs IH]; intros best heap H; simpl in H.
  - results. split; [eauto with countyflow|eauto|done|eauto|set_solver|simpl; lia].
  - apply result_bind_ok in H as ([best1 heap1] & H1 & H2).
    eapply relaxed_to_cons; [by apply relax_relaxed_to|by apply IH].
Qed.
End relaxing.

(** ** The search loop *)
Section searching.
Context (s : RoadNetworkSnapshot) (o : RouteObjective) (start end_ : string).
Context (l : list (string * arc)) (adj : gmap string (list arc)).
Hypothesis adj_arcs : forall n, neighbours adj n ≡ₚ arcs_from n l.
Hypothesis weight_nonneg : forall n a w, (n, a) ∈ l -> weight a.2 o = Ok w -> (0 <= w)%Q.

Lemma neighbours_arcs n a : a ∈ neighbours adj n <-> (n, a) ∈ l.
Proof. by rewrite adj_arcs, elem_of_arcs_from. Qed.

(** *** Soundness: every heap entry is a walk *)
Definition heap_walks (heap : list entry) : Prop := forall x, x ∈ heap -> exists es, Walk l o start x es.

Lemma relax_all_walks cur best heap best' heap' :
  (exists es, Walk l o start cur es) -> heap_walks heap ->
  relax_all o cur (best, heap) (neighbours adj (entry_node cur)) = Ok (best', heap') ->
  heap_walks heap'.
Proof.
  intros (es & Hcur) Hh H%relax_all_spec x Hx.
  destruct (rt_entries _ _ _ _ _ _ _ H x Hx) as [|(a & w & p & Ha & Hw & Hp & ->)]; [auto|].
  exists (es ++ [a.2]). apply walk_step; [done|by apply neighbours_arcs|done|done].
Qed.

(** *** Optimality *)
Definition pending (heap : list entry) (n : string) (lab : label) : Prop :=
  exists x, x ∈ heap /\ entry_node x = n /\ entry_label x = lab.

Definition relaxed (best : gmap string label) (n : string) (c : Q) : Prop :=
  forall a w, (n, a) ∈ l -> weight a.2 o = Ok w -> labelled_within best a.1 (dec_add c w).

Record frontier (best : gmap string label) (heap : list entry) : Prop := {
  f_start : labelled_within best start 0;
  f_node : forall n lab, best !! n = Some lab ->
             pending heap n lab \/ (n <> end_ /\ relaxed best n lab.1);
}.

Lemma relaxed_mono best best' n c c' :
  (forall m lab, best !! m = Some lab -> exists lab', best' !! m = Some lab' /\ py_le lab' lab = true) ->
  (c <= c')%Q -> relaxed best n c -> relaxed best' n c'.
Proof.
  intros Hm Hc Hr a w Ha Hw. destruct (Hr a w Ha Hw) as (lv & Hlv & Hle).
  apply (labelled_within_mono best best'); [done|]. exists lv. split; [done|].
  pose proof (dec_add_mono c c' w Hc). lra.
Qed.

Lemma frontier_stale best heap cur heap' :
  frontier best heap -> heap ≡ₚ cur :: heap' -> is_stale best cur = true -> frontier best heap'.
Proof.
  intros [fs fn] Hp Hst. split; [done|]. intros n lab E.
  destruct (fn n lab E) as [(x & Hx & <- & <-)|]; [|auto]. left. rewrite Hp in Hx.
  apply elem_of_cons in Hx as [->|Hx]; [|by exists x].
  unfold is_stale in Hst. by rewrite E, label_eqb_refl in Hst.
Qed.

Lemma frontier_relax best heap cur heap' best2 heap2 :
  frontier best heap -> heap ≡ₚ cur :: heap' -> is_stale best cur = false -> entry_node cur <> end_ ->
  relax_all o cur (best, heap') (neighbours adj (entry_node cur)) = Ok (best2, heap2) ->
  frontier best2 heap2.
Proof.
  intros [fs fn] Hp Hst Hend H%relax_all_spec. destruct H as [m1 n1 i1 e1 d1 l1]. split.
  { by apply (labelled_within_mono best). }
  intros n lab E. destruct (n1 n lab E) as [E0|]; [|auto].
  destruct (fn n lab E0) as [(x & Hx & <- & <-)|[Hne Hr]].
  - rewrite Hp in Hx. apply elem_of_cons in Hx as [->|Hx]; [|left; exists x; split; [by apply i1|done]].
    right. split; [done|]. intros a w Ha Hw. apply d1; [by apply neighbours_arcs|done].
  - right. split; [done|]. apply (relaxed_mono best best2 n lab.1); [done|apply Qle_refl|done].
Qed.

(** A walk to [v] that costs [c] is matched by the label of [v], or some
    pending entry is at most as expensive. *)
Lemma frontier_walk best heap x es :
  frontier best heap -> Walk l o start x es ->
  labelled_within best (entry_node x) (cost x) \/ exists y, y ∈ heap /\ (cost y <= cost x)%Q.
Proof.
  intros [fs fn]. induction 1 as [|cur es a w p Hcur IH Ha Hw Hp]; [by left|]. simpl.
  pose proof (dec_add_inflationary _ w (Walk_is_dec _ _ _ _ _ Hcur) (weight_nonneg _ _ _ Ha Hw)).
  destruct IH as [(lu & Elu & Hlu)|(y & Hy & Hle)]; [|right; exists y; split; [done|lra]].
  destruct (fn _ _ Elu) as [(y & Hy & Hn & <-)|[_ Hr]].
  - right. exists y. split; [done|]. simpl in Hlu. lra.
  - left. destruct (Hr a w Ha Hw) as (lv & Elv & Hlv). exists lv. split; [done|].
    pose proof (dec_add_mono _ _ w Hlu). lra.
Qed.

(** When the end node is popped with its current label, no walk is cheaper. *)
Lemma frontier_pop best heap cur heap' x es :
  frontier best heap -> heappop entry_key heap = Some (cur, heap') -> is_stale best cur = false ->
  Walk l o start x es -> entry_node x = entry_node cur -> (cost cur <= cost x)%Q.
Proof.
  intros Hf Hpop Hst Hx Hn. destruct (frontier_walk best heap x es Hf Hx) as [(lv & Elv & Hlv)|(y & Hy & Hle)].
  - unfold is_stale in Hst. rewrite <- Hn, Elv in Hst. results.
    apply label_eqb_cost in Hst as [E _]. simpl in E. lra.
  - pose proof (heappop_min _ _ _ _ _ Hpop Hy) as H%entry_key_label%label_le_cost. simpl in H. lra.
Qed.

Lemma frontier_empty best x es : frontier best [] -> Walk l o start x es -> entry_node x <> end_.
Proof.
  intros Hf Hx. destruct (frontier_walk _ _ _ _ Hf Hx) as [(lv & Elv & _)|(y & Hy & _)]; [|by apply not_elem_of_nil in Hy].
  destruct (f_node _ _ Hf _ _ Elv) as [(y & Hy & _)|[]]; [by apply not_elem_of_nil in Hy|done].
Qed.

(** The search returns a cheapest walk, or there is none. *)
Lemma search_correct fuel best heap visited r :
  frontier best heap -> heap_walks heap -> 
  search fuel s o end_ adj best heap visited = Ok r ->
  match r with
  | Some p => exists cur es v, Walk l o start cur es /\ entry_node cur = end_ /\ path_result s o cur v = Ok p /\
                forall x es', Walk l o start x es' -> entry_node x = end_ -> (cost cur <= cost x)%Q
  | None => forall x es, Walk l o start x es -> entry_node x <> end_
  end.
Proof.
  revert best heap visited. induction fuel as [|f IH]; intros best heap visited Hf Hw H; [done|].
  cbn [search] in H. destruct (heappop entry_key heap) as [[cur heap']|] eqn:Hpop; cycle 1.
  { results. apply heappop_none in Hpop as ->. intros x es. by apply frontier_empty with best. }
  pose proof (heappop_perm _ _ _ _ Hpop) as Hperm.
  assert (Hw' : heap_walks heap') by (intros x Hx; apply Hw; rewrite Hperm; by right).
  assert (Hcur : exists es, Walk l o start cur es) by (apply Hw; rewrite Hperm; by left).
  destruct (is_stale best cur) eqn:Hst.
  - apply IH in H; [done| |done]. by apply (frontier_stale best heap cur).
  - destruct (String.eqb_spec (entry_node cur) end_) as [Hend|Hend].
    + apply result_bind_ok in H as (p & Hp & H). results. destruct Hcur as (es & Hcur).
      exists cur, es, (visited + 1). split_and!; try done. intros x es' Hx Hxe.
      apply (frontier_pop best heap cur heap' x es'); congruence.
    + apply result_bind_ok in H as ([best2 heap2] & Hr & H).
      apply IH in H; [done|by apply (frontier_relax best heap cur heap')|].
      by apply (relax_all_walks cur best heap' best2 heap2).
Qed.
End searching.

(** ** Termination

    Pops never decrease and a label only ever improves, so a node is expanded at
    most once and every arc pushes at most one entry. *)
Section terminating.
Context (o : RouteObjective) (l : list (string * arc)).
Hypothesis weight_nonneg : forall n a w, (n, a) ∈ l -> weight a.2 o = Ok w -> (0 <= w)%Q.

Definition live (best : gmap string label) (x : entry) : Prop := is_stale best x = false.
#[local] Instance live_dec best x : Decision (live best x).
Proof. unfold live. apply _. Defined.

(** [done_] lists the expanded nodes, [last] is the label popped last. *)
Record progress (done_ : list string) (last : label) (best : gmap string label) (heap : list entry) : Prop := {
  p_dec : forall x, x ∈ heap -> is_dec (cost x);
  p_last : forall x, x ∈ heap -> py_le last (entry_label x) = true;
  p_done : forall n, n ∈ done_ -> exists lab, best !! n = Some lab /\ py_le lab last = true;
  p_best : forall x, x ∈ heap -> exists lab, best !! entry_node x = Some lab /\ py_le lab (entry_label x) = true;
  p_nodup : NoDup (done_ ++ (entry_node <$> filter (live best) heap));
}.

Definition unexpanded (done_ : list string) : list (string * arc) :=
  filter (fun x => x.1 ∉ done_) l.

Definition potential (done_ : list string) (heap : list entry) : nat :=
  length heap + length (unexpanded done_).

Lemma unexpanded_cons n done_ :
  n ∉ done_ -> (length (unexpanded (n :: done_)) + length (arcs_from n l) = length (unexpanded done_))%nat.
Proof.
  clear weight_nonneg. intros Hn. unfold unexpanded, arcs_from. rewrite length_fmap. induction l as [|x l' IH]; [done|].
  rewrite !filter_cons.
  destruct (decide (x.1 = n)) as [->|Hx].
  - rewrite (decide_False (P := n ∉ n :: done_)) by (intros C; apply C; left).
    rewrite (decide_True (P := n ∉ done_)) by done. simpl. lia.
  - destruct (decide (x.1 ∉ done_)) as [Hd|Hd].
    + rewrite decide_True by (by rewrite not_elem_of_cons). simpl. lia.
    + rewrite decide_False by (rewrite not_elem_of_cons; tauto). done.
Qed.

Lemma pop_progress done_ last best heap cur heap' :
  progress done_ last best heap -> heappop entry_key heap = Some (cur, heap') ->
  if is_stale best cur then progress done_ last best heap'
  else (entry_node cur ∉ done_) /\ progress (entry_node cur :: done_) (entry_label cur) best heap'.
Proof.
  clear l weight_nonneg o. intros [pd pl pn pb pu] Hpop. pose proof (heappop_perm _ _ _ _ Hpop) as Hp.
  assert (Hsub : forall x, x ∈ heap' -> x ∈ heap) by (intros x; rewrite Hp; by right).
  rewrite Hp, filter_cons in pu. destruct (is_stale best cur) eqn:Hst.
  - rewrite decide_False in pu by (unfold live; congruence). split; auto.
  - rewrite decide_True in pu by done. rewrite fmap_cons, (Permutation_app_comm done_) in pu.
    simpl in pu. rewrite (Permutation_app_comm _ done_) in pu.
    split; [intros Hin; apply NoDup_cons in pu as [pu _]; apply pu; set_solver|].
    split; [auto| | |auto|done].
    + intros x Hx. apply entry_key_label, (heappop_min _ _ _ _ _ Hpop), Hsub, Hx.
    + intros n [->|Hn]%elem_of_cons.
      * unfold is_stale in Hst. destruct (best !! entry_node cur) as [lab|] eqn:E; [|done]. results.
        exists lab. split; [done|]. by apply label_eqb_le in Hst as [? _].
      * destruct (pn n Hn) as (lab & E & Hle). exists lab. split; [done|].
        apply (py_le_trans lab last); [done|]. apply pl. rewrite Hp. by left.
Qed.

Lemma relax_progress done_ cur a best heap best' heap' :
  is_dec (cost cur) -> (entry_node cur, a) ∈ l ->
  progress done_ (entry_label cur) best heap ->
  relax o cur (best, heap) a = Ok (best', heap') -> progress done_ (entry_label cur) best' heap'.
Proof.
  intros Hdec Ha [pd pl pn pb pu] (w & Hw & [(-> & -> & _)|(p & _ & -> & -> & Hlt)])%relax_cases; [by split|].
  pose proof (extend_label_lt cur a w p Hdec (weight_nonneg _ _ _ Ha Hw)) as Hext.
  set (x := extend_walk cur a w p) in *.
  assert (Hv : a.1 ∉ done_).
  { intros Hin. destruct (pn _ Hin) as (lab & E & Hle).
    pose proof (py_lt_trans _ _ _ Hext (Hlt lab E)) as C.
    apply (py_lt_le_trans _ _ _ C) in Hle. by rewrite py_lt_irrefl in Hle. }
  assert (Hheap : forall y, y ∈ heap -> entry_node y = a.1 -> py_lt (entry_label x) (entry_label y) = true).
  { intros y Hy E. destruct (pb y Hy) as (lab & El & Hle). rewrite E in El.
    by apply (py_lt_le_trans _ lab), Hle; apply Hlt. }
  split.
  - intros y [->|Hy]%elem_of_cons; [apply dec_ctx_is_dec|auto].
  - intros y [->|Hy]%elem_of_cons; [by apply py_lt_le|auto].
  - intros n Hn. destruct (pn n Hn) as (lab & E & Hle). exists lab. split; [|done].
    rewrite lookup_insert_ne; [done|]. by intros <-.
  - intros y [->|Hy]%elem_of_cons.
    + exists (entry_label x). split; [apply lookup_insert_eq|apply py_le_refl].
    + destruct (decide (entry_node y = a.1)) as [E|E].
      * exists (entry_label x). rewrite E. split; [apply lookup_insert_eq|]. apply py_lt_le. auto.
      * rewrite lookup_insert_ne by done. auto.
  - assert (Hno : forall y, y ∈ heap -> live (<[a.1 := entry_label x]> best) y -> entry_node y <> a.1 /\ live best y).
    { intros y Hy. unfold live, is_stale. destruct (decide (entry_node y = a.1)) as [E|E].
      - rewrite E, lookup_insert_eq. rewrite label_lt_not_eqb by auto. done.
      - by rewrite lookup_insert_ne. }
    assert (Hs : (filter (live (<[a.1 := entry_label x]> best)) heap) `sublist_of` (filter (live best) heap)).
    { apply filter_sublist_impl. intros y Hy Hl. by apply Hno. }
    rewrite filter_cons, decide_True; [|unfold live, is_stale; simpl; by rewrite lookup_insert_eq, label_eqb_refl].
    rewrite fmap_cons, <- Permutation_middle. constructor.
    + rewrite elem_of_app, list_elem_of_fmap. intros [Hin|(y & E & [Hl Hy]%list_elem_of_filter)]; [done|].
      by destruct (Hno y Hy Hl).
    + eapply NoDup_sublist; [|exact pu]. apply sublist_app; [done|]. by apply fmap_sublist.
Qed.

Lemma relax_all_progress done_ cur nbrs best heap best' heap' :
  is_dec (cost cur) -> (forall a, a ∈ nbrs -> (entry_node cur, a) ∈ l) ->
  progress done_ (entry_label cur) best heap ->
  relax_all o cur (best, heap) nbrs = Ok (best', heap') -> progress done_ (entry_label cur) best' heap'.
Proof.
  intros Hdec. revert best heap. induction nbrs as [|a nbrs IH]; intros best heap Hn Hpr H; simpl in H; [by results|].
  apply result_bind_ok in H as ([best1 heap1] & H1 & H2).
  apply (IH best1 heap1); [intros; apply Hn; by right| |done].
  apply (relax_progress done_ cur a best heap); [done|apply Hn; left|done|done].
Qed.

(** The ways the search can fail: a risk level outside the catalogue, or a
    total distance of more than 28 digits. *)
Definition expected_failure (e : exn) : Prop :=
  e = InvalidOperation \/ exists n a, (n, a) ∈ l /\ risk_penalty a.2 = Err e.

Lemma weight_failure a e : weight a o = Err e -> risk_penalty a = Err e.
Proof. clear. destruct o; simpl; try done. destruct (risk_penalty a); simpl; [done|by intros]. Qed.

Lemma relax_all_failure cur bh nbrs e :
  (forall a, a ∈ nbrs -> (entry_node cur, a) ∈ l) ->
  relax_all o cur bh nbrs = Err e -> expected_failure e.
Proof.
  clear weight_nonneg. revert bh. induction nbrs as [|[v ed] nbrs IH]; intros [best heap] Hn H; [done|]. cbn [relax_all] in H.
  destruct (relax o cur (best, heap) (v, ed)) as [bh'|e'] eqn:E; simpl in H.
  - apply (IH bh'); [intros; apply Hn; by right|done].
  - results. right. exists (entry_node cur), (v, ed). split; [apply Hn; left|]. simpl.
    cbn [relax] in E. destruct (weight ed o) as [w|e'] eqn:Ew; simpl in E; [|results; by apply weight_failure].
    case_match; [done|]. by destruct (risk_penalty ed); simpl in E; results.
Qed.
End terminating.

(** ** Properties of walks *)
Lemma Walk_edge_ids l o start cur es : Walk l o start cur es -> entry_edge_ids cur = edge_id <$> es.
Proof. induction 1 as [|cur es a w p _ IH]; simpl; [done|]. by rewrite fmap_app, IH. Qed.

Lemma Walk_arcs l o start cur es :
  Walk l o start cur es -> forall e, e ∈ es -> exists n v, (n, (v, e)) ∈ l.
Proof.
  induction 1 as [|cur es [v e] w p _ IH Ha]; intros e' He; [by apply not_elem_of_nil in He|].
  apply elem_of_app in He as [He|He%elem_of_one]; [auto|]. subst. eauto.
Qed.

Lemma Walk_nodes l o start cur es :
  Walk l o start cur es ->
  head (node_path cur) = Some start /\ last (node_path cur) = Some (entry_node cur) /\
  length (node_path cur) = S (length es).
Proof.
  induction 1 as [|cur es a w p _ (Hh & _ & Hl)]; [done|]. cbn [extend_walk node_path entry_node].
  rewrite last_snoc, !length_app, Hl. split; [|split; [done|simpl; lia]].
  by destruct (node_path cur).
Qed.

Lemma Walk_nonneg l o start cur es :
  (forall n a, (n, a) ∈ l -> (0 <= distance_km a.2)%Q) -> Walk l o start cur es ->
  (0 <= entry_distance cur /\ 0 <= entry_risk cur)%Q.
Proof.
  intros Hd. induction 1 as [|cur es a w p _ [IH1 IH2] Ha Hw Hp]; simpl; [lra|].
  split; apply dec_add_nonneg; try done; [by apply (Hd _ _ Ha)|].
  unfold risk_penalty in Hp. repeat case_match; results; lra.
Qed.

Lemma edge_minutes_nonneg e : edge_ok e -> (0 <= edge_minutes e)%Q.
Proof. intros (Hm & Hc & _). apply dec_mul_nonneg; [|done]. by rewrite (Zle_Qle 0) in Hm. Qed.

Lemma weight_edge_ok e o w : edge_ok e -> weight e o = Ok w -> (0 <= w)%Q.
Proof.
  intros He. pose proof (edge_minutes_nonneg e He). destruct He as (_ & _ & Hd).
  destruct o; simpl; intros; results; try done.
  destruct (risk_penalty e) as [p|] eqn:Hp; simpl in *; results. apply dec_add_nonneg; [done|].
  unfold risk_penalty in Hp. repeat case_match; results; lra.
Qed.

Lemma arcs_edge_ok s vw ex n a : network_ok s -> (n, a) ∈ arcs s vw ex -> edge_ok a.2.
Proof. intros Hok Ha. apply arcs_edge in Ha as (He & _). unfold network_ok in Hok. by rewrite Forall_forall in Hok; apply Hok. Qed.

Lemma Walk_cost_nonneg s o vw ex start cur es :
  network_ok s -> Walk (arcs s vw ex) o start cur es -> (0 <= cost cur)%Q.
Proof.
  intros Hok. induction 1 as [|cur es a w p _ IH Ha Hw]; simpl; [apply Qle_refl|].
  apply dec_add_nonneg; [done|]. apply (weight_edge_ok a.2 o); [|done]. by apply (arcs_edge_ok s vw ex (entry_node cur)).
Qed.

(** ** Displayed minutes *)
Lemma edges_by_id_fold (es : list RoadEdgeSnapshot) (m : gmap string RoadEdgeSnapshot) i :
  is_Some (m !! i) \/ i ∈ edge_id <$> es -> is_Some (fold_left (fun m e => <[edge_id e := e]> m) es m !! i).
Proof.
  revert m. induction es as [|e es IH]; intros m; simpl; [intros [|H%not_elem_of_nil]; done|].
  intros H. apply IH. destruct (decide (edge_id e = i)) as [<-|N]; [left; rewrite lookup_insert_eq; eauto|].
  rewrite lookup_insert_ne by done. destruct H as [|[->|]%elem_of_cons]; auto. done.
Qed.

Lemma edges_by_id_fold_ne (es : list RoadEdgeSnapshot) (m : gmap string RoadEdgeSnapshot) i :
  i ∉ edge_id <$> es -> fold_left (fun m e => <[edge_id e := e]> m) es m !! i = m !! i.
Proof.
  revert m. induction es as [|e es IH]; intros m; simpl; [done|].
  rewrite not_elem_of_cons. intros [N Hi]. by rewrite IH, lookup_insert_ne.
Qed.

Lemma edges_by_id_unique s e :
  NoDup (edge_id <$> edges s) -> e ∈ edges s -> edges_by_id s !! edge_id e = Some e.
Proof.
  unfold edges_by_id. generalize (∅ : gmap string RoadEdgeSnapshot).
  induction (edges s) as [|e' es IH]; intros m Hn He; [by apply not_elem_of_nil in He|].
  apply NoDup_cons in Hn as [Hni Hn]. simpl. apply elem_of_cons in He as [->|He]; [|auto].
  by rewrite edges_by_id_fold_ne, lookup_insert_eq.
Qed.

Lemma display_minutes_total s es :
  (forall e, e ∈ es -> e ∈ edges s) -> exists m, display_minutes s (edge_id <$> es) = Ok m.
Proof.
  intros Hes. unfold display_minutes.
  destruct (map_result_total (minutes_of s) (edge_id <$> es)) as [ms Hms]; [|rewrite Hms; by eexists].
  intros i (e & -> & He)%list_elem_of_fmap.
  destruct (edges_by_id_fold (edges s) ∅ (edge_id e)) as [e' E]; [right; by apply list_elem_of_fmap_2, Hes|].
  unfold minutes_of, edges_by_id. rewrite E. by eexists.
Qed.

Lemma display_minutes_edges s es :
  NoDup (edge_id <$> edges s) -> (forall e, e ∈ es -> e ∈ edges s) ->
  display_minutes s (edge_id <$> es) = Ok (ceil_int (dec_sum (edge_minutes <$> es))).
Proof.
  intros Hn Hes. unfold display_minutes.
  assert (H : map_result (minutes_of s) (edge_id <$> es) = Ok (edge_minutes <$> es)); [|by rewrite H].
  induction es as [|e es IH]; [done|]. cbn [fmap list_fmap map_result].
  assert (He : minutes_of s (edge_id e) = Ok (edge_minutes e)).
  { unfold minutes_of. by rewrite edges_by_id_unique by (try done; apply Hes; left). }
  rewrite He. simpl. rewrite IH; [done|]. intros; apply Hes. by right.
Qed.

Lemma path_result_failure s o vw ex start cur es v e :
  Walk (arcs s vw ex) o start cur es -> path_result s o cur v = Err e -> e = InvalidOperation.
Proof.
  intros Hw. unfold path_result. rewrite (Walk_edge_ids _ _ _ _ _ Hw).
  destruct (display_minutes_total s es) as [m ->].
  { intros e' He. destruct (Walk_arcs _ _ _ _ _ Hw e' He) as (n & v' & Ha). by apply arcs_edge in Ha as (? & _). }
  simpl. unfold quantize_distance, quantize. case_match; simpl; intros; by results.
Qed.

(** ** The search never runs out of fuel *)
Lemma search_failure s o start end_ vw ex adj fuel done_ last best heap visited e :
  (forall n, neighbours adj n ≡ₚ arcs_from n (arcs s vw ex)) ->
  (forall n a w, (n, a) ∈ arcs s vw ex -> weight a.2 o = Ok w -> (0 <= w)%Q) ->
  progress done_ last best heap -> heap_walks o start (arcs s vw ex) heap ->
  (potential (arcs s vw ex) done_ heap < fuel)%nat ->
  search fuel s o end_ adj best heap visited = Err e -> expected_failure (arcs s vw ex) e.
Proof.
  intros Hadj Hw. revert done_ last best heap visited.
  induction fuel as [|f IH]; intros done_ last best heap visited Hpr Hwk Hpot H; [lia|].
  cbn [search] in H. destruct (heappop entry_key heap) as [[cur heap']|] eqn:Hpop; [|done].
  pose proof (pop_progress _ _ _ _ _ _ Hpr Hpop) as Hpr'. pose proof (heappop_perm _ _ _ _ Hpop) as Hp.
  assert (Hwk' : heap_walks o start (arcs s vw ex) heap') by (intros x Hx; apply Hwk; rewrite Hp; by right).
  destruct (Hwk cur ltac:(rewrite Hp; left)) as (es & Hcur).
  unfold potential in Hpot. rewrite Hp in Hpot. simpl in Hpot.
  destruct (is_stale best cur).
  { apply (IH done_ last best heap' visited); try done. unfold potential. lia. }
  destruct Hpr' as [Hnew Hpr'].
  destruct (String.eqb (entry_node cur) end_).
  { destruct (path_result s o cur (visited + 1)) as [r|e'] eqn:E; simpl in H; [done|]. results.
    left. by apply (path_result_failure s o vw ex start cur es (visited + 1)). }
  assert (Hn : forall a, a ∈ neighbours adj (entry_node cur) -> (entry_node cur, a) ∈ arcs s vw ex).
  { intros a. by rewrite Hadj, elem_of_arcs_from. }
  destruct (relax_all o cur (best, heap') (neighbours adj (entry_node cur))) as [[best2 heap2]|e'] eqn:Hr; simpl in H.
  - apply (IH (entry_node cur :: done_) (entry_label cur) best2 heap2 (visited + 1)); try done.
    + apply (relax_all_progress o (arcs s vw ex) Hw _ cur (neighbours adj (entry_node cur)) best heap'); try done.
      by apply (Walk_is_dec _ _ _ _ _ Hcur).
    + apply (relax_all_walks o start (arcs s vw ex) adj Hadj cur best heap' best2 heap2); eauto.
    + pose proof (rt_length _ _ _ _ _ _ _ (relax_all_spec _ _ _ _ _ _ _ Hr)) as Hl.
      rewrite Hadj in Hl. pose proof (unexpanded_cons (arcs s vw ex) _ _ Hnew) as Hu.
      unfold potential. lia.
  - results. by apply (relax_all_failure o (arcs s vw ex) cur (best, heap') (neighbours adj (entry_node cur))).
Qed.

Lemma arcs_length s vw ex : (length (arcs s vw ex) <= 2 * length (edges s))%nat.
Proof.
  unfold arcs. induction (edges s) as [|e es IH]; [done|]. simpl. rewrite length_app. unfold arcs_of at 1.
  destruct (is_available e vw ex); [destruct (bidirectional e)|]; simpl; lia.
Qed.

Section initial.
Context (s : RoadNetworkSnapshot) (o : RouteObjective) (a b : string) (vw : Q) (ex : gset string).

Lemma initial_walks : heap_walks o a (arcs s vw ex) [start_entry a].
Proof. intros x ->%elem_of_one. exists []. constructor. Qed.

Lemma initial_frontier : frontier o a b (arcs s vw ex) {[ a := (0%Q, []) ]} [start_entry a].
Proof.
  split.
  - exists (0%Q, []). rewrite lookup_singleton_eq. split; [done|apply Qle_refl].
  - intros n lab [<- <-]%lookup_singleton_Some. left. exists (start_entry a). split; [left|done].
Qed.

Lemma initial_progress : progress [] (0%Q, []) {[ a := (0%Q, []) ]} [start_entry a].
Proof.
  split.
  - by intros x ->%elem_of_one.
  - by intros x ->%elem_of_one.
  - by intros n H%not_elem_of_nil.
  - intros x ->%elem_of_one. exists (0%Q, []). by rewrite lookup_singleton_eq.
  - simpl. rewrite filter_cons, filter_nil. case_decide; simpl; [apply NoDup_singleton|constructor].
Qed.

Lemma initial_fuel : (potential (arcs s vw ex) [] [start_entry a] < search_fuel s)%nat.
Proof.
  unfold potential, search_fuel. pose proof (arcs_length s vw ex).
  assert (length (unexpanded (arcs s vw ex) []) <= length (arcs s vw ex))%nat by apply length_filter.
  simpl length. lia.
Qed.

Hypothesis Hok : network_ok s.

Lemma arcs_weight_nonneg n x w : (n, x) ∈ arcs s vw ex -> weight x.2 o = Ok w -> (0 <= w)%Q.
Proof. intros Hx. apply weight_edge_ok. by apply (arcs_edge_ok s vw ex n). Qed.

Lemma find_search_correct r :
  search (search_fuel s) s o b (adjacency s vw ex) {[ a := (0%Q, []) ]} [start_entry a] 0 = Ok r ->
  match r with
  | Some p => exists cur es v, Walk (arcs s vw ex) o a cur es /\ entry_node cur = b /\ path_result s o cur v = Ok p /\
                forall x es', Walk (arcs s vw ex) o a x es' -> entry_node x = b -> (cost cur <= cost x)%Q
  | None => forall x es, Walk (arcs s vw ex) o a x es -> entry_node x <> b
  end.
Proof.
  apply (search_correct s o a b (arcs s vw ex) (adjacency s vw ex)).
  - apply adjacency_neighbours.
  - apply arcs_weight_nonneg.
  - apply initial_frontier.
  - apply initial_walks.
Qed.
End initial.

(** ** The finder's contract *)
Lemma find_some_inv s a b o vw ex p :
  find s a b o vw ex = Ok (Some p) ->
  has_node s a = true /\ has_node s b = true /\
  ((a = b /\ p = trivial_path o a) \/
   (a <> b /\ search (search_fuel s) s o b (adjacency s vw ex) {[ a := (0%Q, []) ]} [start_entry a] 0 = Ok (Some p))).
Proof.
  unfold find. destruct (has_node s a), (has_node s b); simpl; try done. intros H. split_and!; [done..|].
  destruct (String.eqb_spec a b); [left|right]; by results.
Qed.

(** Soundness needs no assumption on the weights: a result is always a walk. *)
Lemma search_sound s o a b vw ex fuel best heap visited p :
  heap_walks o a (arcs s vw ex) heap ->
  search fuel s o b (adjacency s vw ex) best heap visited = Ok (Some p) ->
  exists cur es v, Walk (arcs s vw ex) o a cur es /\ entry_node cur = b /\ path_result s o cur v = Ok p.
Proof.
  revert best heap visited. induction fuel as [|f IH]; intros best heap visited Hw H; [done|].
  cbn [search] in H. destruct (heappop entry_key heap) as [[cur heap']|] eqn:Hpop; [|done].
  pose proof (heappop_perm _ _ _ _ Hpop) as Hperm.
  assert (Hw' : heap_walks o a (arcs s vw ex) heap') by (intros x Hx; apply Hw; rewrite Hperm; by right).
  destruct (Hw cur ltac:(rewrite Hperm; left)) as (es & Hcur).
  destruct (is_stale best cur); [by apply IH in H|].
  destruct (String.eqb_spec (entry_node cur) b) as [Hend|Hend].
  - apply result_bind_ok in H as (q & Hq & H). results. by exists cur, es, (visited + 1).
  - apply result_bind_ok in H as ([best2 heap2] & Hr & H). apply IH in H; [done|].
    apply (relax_all_walks o a (arcs s vw ex) (adjacency s vw ex) (adjacency_neighbours s vw ex) cur best heap' best2 heap2); eauto.
Qed.

Lemma path_result_fields s o cur v p :
  path_result s o cur v = Ok p ->
  objective p = o /\ path_node_ids p = node_path cur /\ path_edge_ids p = entry_edge_ids cur /\
  risk_cost p = entry_risk cur /\ quantize_distance (entry_distance cur) = Ok (path_distance_km p) /\
  display_minutes s (entry_edge_ids cur) = Ok (estimated_minutes p).
Proof.
  unfold path_result. intros H. apply result_bind_ok in H as (m & Hm & H).
  apply result_bind_ok in H as (d & Hd & H). by results.
Qed.

Lemma find_walk s a b o vw ex p :
  find s a b o vw ex = Ok (Some p) ->
  exists cur es, Walk (arcs s vw ex) o a cur es /\ entry_node cur = b /\
    objective p = o /\ path_node_ids p = node_path cur /\ path_edge_ids p = edge_id <$> es /\
    risk_cost p = entry_risk cur /\ quantize_distance (entry_distance cur) = Ok (path_distance_km p) /\
    display_minutes s (edge_id <$> es) = Ok (estimated_minutes p).
Proof.
  intros (_ & _ & [(-> & ->)|(_ & H)])%find_some_inv.
  - exists (start_entry b), []. split; [constructor|]. by split_and!.
  - apply (search_sound s o a) in H as (cur & es & v & Hw & Hn & Hp); [|apply initial_walks].
    exists cur, es. apply path_result_fields in Hp. rewrite (Walk_edge_ids _ _ _ _ _ Hw) in Hp.
    split; [done|split; [done|exact Hp]].
Qed.

(** What the routing service relies on. *)
Class PathFinder := path_find :
  RoadNetworkSnapshot -> string -> string -> RouteObjective -> Q -> gset string -> result (option PathResult).

Class PathFinderLaws `{PathFinder} := {
  pf_objective s a b o vw ex p : path_find s a b o vw ex = Ok (Some p) -> objective p = o;
  pf_ends s a b o vw ex p : path_find s a b o vw ex = Ok (Some p) ->
    head (path_node_ids p) = Some a /\ last (path_node_ids p) = Some b;
  pf_available s a b o vw ex p i : path_find s a b o vw ex = Ok (Some p) -> i ∈ path_edge_ids p ->
    exists e, e ∈ edges s /\ edge_id e = i /\ is_available e vw ex = true;
  pf_nonneg s a b o vw ex p : network_ok s -> path_find s a b o vw ex = Ok (Some p) ->
    0 <= estimated_minutes p /\ (0 <= path_distance_km p)%Q /\ (0 <= risk_cost p)%Q;
  pf_none s a b o vw ex x es : network_ok s -> has_node s a = true -> has_node s b = true ->
    path_find s a b o vw ex = Ok None -> Walk (arcs s vw ex) o a x es -> entry_node x <> b;
}.

#[export] Instance DijkstraPathFinder : PathFinder := find.

Lemma dec_sum_nonneg l : (forall q, q ∈ l -> (0 <= q)%Q) -> (0 <= dec_sum l)%Q.
Proof.
  unfold dec_sum. assert (G : forall acc, (0 <= acc)%Q -> (forall q, q ∈ l -> (0 <= q)%Q) -> (0 <= fold_left dec_add l acc)%Q).
  { induction l as [|q l IH]; intros acc Ha Hl; [done|]. simpl. apply IH.
    - apply dec_add_nonneg; [done|]. apply Hl. left.
    - intros; apply Hl. by right. }
  intros Hl. by apply G.
Qed.

Lemma display_minutes_nonneg s ids m : network_ok s -> display_minutes s ids = Ok m -> 0 <= m.
Proof.
  intros Hok H. unfold display_minutes in H. apply result_bind_ok in H as (ms & Hms & H). results.
  unfold ceil_int. change 0 with (Qround.Qceiling 0). apply Qround.Qceiling_resp_le, dec_sum_nonneg.
  intros q Hq. apply map_result_Forall2 in Hms. apply list_elem_of_lookup in Hq as [k Hk].
  destruct (Forall2_lookup_r _ _ _ _ _ Hms Hk) as (i & _ & Hi). unfold minutes_of in Hi.
  destruct (edges_by_id s !! i) as [e|] eqn:E; [|done]. results. apply edge_minutes_nonneg.
  unfold network_ok in Hok. rewrite Forall_forall in Hok. apply Hok.
  assert (G : forall es m0, (fold_left (fun m e => <[edge_id e := e]> m) es m0 : gmap string RoadEdgeSnapshot) !! i = Some e ->
             m0 !! i = Some e \/ e ∈ es).
  { clear. induction es as [|e' es IH]; intros m0 H; [auto|]. simpl in H. apply IH in H as [H|]; [|right; by right].
    apply lookup_insert_Some in H as [[_ ->]|[_ ?]]; [right; left|auto]. }
  apply G in E as [|]; [by rewrite lookup_empty in *|done].
Qed.

Lemma find_none_inv s a b o vw ex x es :
  network_ok s -> has_node s a = true -> has_node s b = true ->
  find s a b o vw ex = Ok None -> Walk (arcs s vw ex) o a x es -> entry_node x <> b.
Proof.
  unfold find. intros Hok -> ->. simpl. destruct (String.eqb_spec a b); [done|]. intros H.
  exact (find_search_correct s o a b vw ex Hok None H x es).
Qed.

#[export] Instance DijkstraPathFinder_laws : PathFinderLaws.
Proof.
  split; unfold path_find, DijkstraPathFinder.
  - intros s a b o vw ex p (cur & es & _ & _ & -> & _)%find_walk. done.
  - intros s a b o vw ex p (cur & es & Hw & <- & _ & -> & _)%find_walk.
    by destruct (Walk_nodes _ _ _ _ _ Hw) as (? & ? & _).
  - intros s a b o vw ex p i (cur & es & Hw & _ & _ & _ & -> & _)%find_walk (e & -> & He)%list_elem_of_fmap.
    destruct (Walk_arcs _ _ _ _ _ Hw e He) as (n & v & Ha). apply arcs_edge in Ha as (? & ? & _). eauto.
  - intros s a b o vw ex p Hok (cur & es & Hw & _ & _ & _ & _ & -> & Hq & Hm)%find_walk.
    destruct (Walk_nonneg _ _ _ _ _ (fun n x H => proj2 (proj2 (arcs_edge_ok s vw ex n x Hok H))) Hw).
    split_and!; [by apply (display_minutes_nonneg s _ _ Hok Hm)|by apply (quantize_nonneg 2 (entry_distance cur))|done].
  - apply find_none_inv.
Qed.

(** ** Theorems *)

(** when the finder returns a path, that path follows available arcs from
    the start to the end, its totals are the ones the code accumulates along
    it, and no walk over the available arcs is cheaper for the objective. *)
Theorem find_cheapest s a b o vw ex p :
  network_ok s -> find s a b o vw ex = Ok (Some p) ->
  exists cur es,
    Walk (arcs s vw ex) o a cur es /\ entry_node cur = b /\
    path_node_ids p = node_path cur /\ path_edge_ids p = edge_id <$> es /\
    risk_cost p = entry_risk cur /\ quantize_distance (entry_distance cur) = Ok (path_distance_km p) /\
    forall x es', Walk (arcs s vw ex) o a x es' -> entry_node x = b -> (cost cur <= cost x)%Q.
Proof.
  intros Hok (_ & _ & [(-> & ->)|(_ & H)])%find_some_inv.
  - exists (start_entry b), []. split; [constructor|]. split_and!; try done.
    intros x es' Hx _. by apply (Walk_cost_nonneg s o vw ex b x es').
  - apply (find_search_correct s o a b vw ex Hok) in H as (cur & es & v & Hw & Hn & Hp & Hmin).
    exists cur, es. apply path_result_fields in Hp as (_ & E1 & E2 & E3 & E4 & _).
    rewrite (Walk_edge_ids _ _ _ _ _ Hw) in E2. by split_and!.
Qed.

(** when the finder returns no path between two nodes of the snapshot, no
    walk over the available arcs leads from one to the other. *)
Theorem find_unreachable s a b o vw ex x es :
  network_ok s -> has_node s a = true -> has_node s b = true ->
  find s a b o vw ex = Ok None -> Walk (arcs s vw ex) o a x es -> entry_node x <> b.
Proof. apply find_none_inv. Qed.

(** the search terminates within [2 |edges| + 2] pops.  It returns, or it
    raises for one of two reasons: an available edge has a risk level outside
    the catalogue, or the total distance does not fit the decimal context. *)
Theorem find_terminates s a b o vw ex :
  network_ok s ->
  match find s a b o vw ex with
  | Ok _ => True
  | Err e => expected_failure (arcs s vw ex) e
  end.
Proof.
  intros Hok. destruct (find s a b o vw ex) as [r|e] eqn:E; [done|]. unfold find in E.
  case_match; [done|]. case_match; [done|].
  eapply (search_failure s o a b vw ex (adjacency s vw ex)); [| | | | |exact E].
  - apply adjacency_neighbours.
  - by apply arcs_weight_nonneg.
  - apply initial_progress.
  - apply initial_walks.
  - apply initial_fuel.
Qed.

(** C5: The search decides: within [2 |edges| + 2] pops it returns a path that
    follows available arcs from the start to the end, with the totals the code
    accumulates along it, and that no walk over the available arcs beats for
    the objective; or it returns none, and then an end is not in the network or
    no walk joins them; or it raises, because an available edge has a risk level
    outside the catalogue or the total distance does not fit the decimal context. *)
Theorem find_decides s a b o vw ex :
  network_ok s ->
  match find s a b o vw ex with
  | Ok (Some p) => exists cur es,
      Walk (arcs s vw ex) o a cur es /\ entry_node cur = b /\
      path_node_ids p = node_path cur /\ path_edge_ids p = edge_id <$> es /\
      risk_cost p = entry_risk cur /\ quantize_distance (entry_distance cur) = Ok (path_distance_km p) /\
      forall x es', Walk (arcs s vw ex) o a x es' -> entry_node x = b -> (cost cur <= cost x)%Q
  | Ok None => has_node s a = false \/ has_node s b = false \/ forall x es, Walk (arcs s vw ex) o a x es -> entry_node x <> b
  | Err e => expected_failure (arcs s vw ex) e
  end.
Proof.
  intros Hok. pose proof (find_terminates s a b o vw ex Hok) as T. destruct (find s a b o vw ex) as [[p|]|e] eqn:E; [by apply find_cheapest| |done].
  destruct (has_node s a) eqn:A; [|by left]. destruct (has_node s b) eqn:B; [|by right; left]. right; right. intros x es. by apply find_unreachable.
Qed.

(** a returned path starts and ends where it was asked to, has one node more
    than edges, uses no excluded or blocked edge and none below the vehicle's
    weight, and its displayed minutes are the congested minutes of its edges,
    added up and rounded up. *)
Theorem find_path_valid s a b o vw ex p :
  NoDup (edge_id <$> edges s) -> find s a b o vw ex = Ok (Some p) ->
  exists es, path_edge_ids p = edge_id <$> es /\
    head (path_node_ids p) = Some a /\ last (path_node_ids p) = Some b /\
    length (path_node_ids p) = S (length es) /\
    (forall e, e ∈ es -> e ∈ edges s /\ is_available e vw ex = true) /\
    estimated_minutes p = ceil_int (dec_sum (edge_minutes <$> es)).
Proof.
  intros Hn (cur & es & Hw & <- & _ & Ep & Ee & _ & _ & Hm)%find_walk. exists es.
  destruct (Walk_nodes _ _ _ _ _ Hw) as (Hh & Hl & Hlen).
  assert (Hes : forall e, e ∈ es -> e ∈ edges s /\ is_available e vw ex = true).
  { intros e He. destruct (Walk_arcs _ _ _ _ _ Hw e He) as (n & v & Ha). by apply arcs_edge in Ha as (? & ? & _). }
  rewrite display_minutes_edges in Hm; [|done|intros e He; by apply Hes]. results. by rewrite Ep.
Qed.

(** ** Witnesses *)
Definition ex_node (i : string) : RoadNodeSnapshot :=
  {| node_id := i; node_name := i; x_km := 0; y_km := 0; node_type := "JUNCTION" |}.
Definition ex_edge (i f t : string) (km : Q) (m : Z) (risk status : string) (cong : Q) (bi : bool) : RoadEdgeSnapshot :=
  {| edge_id := i; edge_name := i; from_node_id := f; to_node_id := t; distance_km := km; base_minutes := m;
     road_level := "COUNTY"; risk_level := risk; edge_status := status; congestion_factor := cong;
     weight_limit_tons := 20; bidirectional := bi; edge_version := 3 |}.
(** A diamond with a slow short side, a fast long one and a blocked shortcut. *)
Definition ex_network : RoadNetworkSnapshot :=
  {| network_version := 3;
     nodes := [ex_node "A"; ex_node "B"; ex_node "C"; ex_node "D"; ex_node "E"];
     edges := [ex_edge "E1" "A" "B" 2 10 "HIGH" "OPEN" (15 # 10) true;
               ex_edge "E2" "B" "D" 3 10 "LOW" "OPEN" 1 false;
               ex_edge "E3" "C" "A" 5 7 "LOW" "OPEN" 1 true;
               ex_edge "E4" "C" "D" 6 8 "MEDIUM" "OPEN" (125 # 100) false;
               ex_edge "E5" "A" "D" 1 1 "LOW" "BLOCKED" 1 true] |}.

Definition ex_path : PathResult :=
  {| objective := FASTEST; path_node_ids := ["A"; "C"; "D"]; path_edge_ids := ["E3"; "E4"];
     path_distance_km := 11; estimated_minutes := 17; risk_cost := 4; visited_node_count := 4 |}.

Lemma ex_network_ok : network_ok ex_network.
Proof.
  unfold network_ok. cbn [edges ex_network].
  repeat (apply List.Forall_cons; [unfold edge_ok; cbn; split_and!; [lia|lra|lra]|]). constructor.
Qed.

Example find_cheapest_witness :
  find ex_network "A" "D" FASTEST 10 ∅ = Ok (Some ex_path) /\
  exists cur es, Walk (arcs ex_network 10 ∅) FASTEST "A" cur es /\ path_edge_ids ex_path = edge_id <$> es.
Proof.
  assert (E : find ex_network "A" "D" FASTEST 10 ∅ = Ok (Some ex_path)) by (vm_compute; reflexivity).
  split; [exact E|].
  destruct (find_cheapest ex_network "A" "D" FASTEST 10 ∅ ex_path ex_network_ok E) as (cur & es & H1 & _ & _ & H2 & _).
  exact (ex_intro _ cur (ex_intro _ es (conj H1 H2))).
Defined.

Lemma find_decides_witness :
  find ex_network "A" "D" FASTEST 10 ∅ = Ok (Some ex_path) /\
  exists cur es, Walk (arcs ex_network 10 ∅) FASTEST "A" cur es /\ entry_node cur = "D"%string /\
    path_node_ids ex_path = node_path cur /\ path_edge_ids ex_path = edge_id <$> es /\
    risk_cost ex_path = entry_risk cur /\ quantize_distance (entry_distance cur) = Ok (path_distance_km ex_path) /\
    forall x es', Walk (arcs ex_network 10 ∅) FASTEST "A" x es' -> entry_node x = "D"%string -> (cost cur <= cost x)%Q.
Proof.
  assert (E : find ex_network "A" "D" FASTEST 10 ∅ = Ok (Some ex_path)) by (vm_compute; reflexivity).
  split; [exact E|]. pose proof (find_decides ex_network "A" "D" FASTEST 10 ∅ ex_network_ok) as H. rewrite E in H. exact H.
Defined.

Example find_unreachable_witness : entry_node (start_entry "E") <> "A"%string.
Proof.
  refine (find_unreachable ex_network "E" "A" SHORTEST 10 ∅ (start_entry "E") [] ex_network_ok _ _ _ _).
  - reflexivity.
  - reflexivity.
  - vm_compute; reflexivity.
  - constructor.
Defined.

Example find_terminates_witness :
  match find ex_network "A" "D" SAFEST 10 {[ "E3"%string ]} with
  | Ok _ => True
  | Err e => expected_failure (arcs ex_network 10 {[ "E3"%string ]}) e
  end.
Proof. apply (find_terminates ex_network "A" "D" SAFEST 10 {[ "E3"%string ]} ex_network_ok). Defined.

Example find_path_valid_witness :
  exists es, path_edge_ids ex_path = edge_id <$> es /\
    estimated_minutes ex_path = ceil_int (dec_sum (edge_minutes <$> es)).
Proof.
  destruct (find_path_valid ex_network "A" "D" FASTEST 10 ∅ ex_path) as (es & H1 & _ & _ & _ & _ & H2).
  - apply (bool_decide_unpack _). vm_compute. exact I.
  - vm_compute; reflexivity.
  - exact (ex_intro _ es (conj H1 H2)).
Defined.
