(* ===== verification/Fleet.v ===== *)
(** * Fleet: choosing a replacement vehicle

    Models [app/fleet/models.py], [protocols.py], [service.py] and
    [sqlalchemy_repository.py].  A travel-time estimator is a record whose
    optional capabilities ([runtime_checkable] protocols in the code) are
    options; [_evaluate] scores one vehicle, [allocate] evaluates every vehicle
    of the provider and orders the candidates. *)

From S2P Require Import Prelude Decimal RoadNetwork.

Local Open Scope Z_scope.
Local Open Scope list_scope.

(** ** Data *)
Record FleetDriverSnapshot := {
  driver_id : string;
  driver_name : string;
  license_class : string;
  driver_status : string;
  driver_node_id : string;
}.

Record FleetVehicleSnapshot := {
  vehicle_id : string;
  plate_no : string;
  vehicle_type : string;
  max_load_kg : Q;
  current_load_kg : Q;
  cargo_capability : string;
  gross_weight_tons : Q;
  vehicle_status : string;
  current_node_id : string;
  driver : option FleetDriverSnapshot;
}.

Definition remaining_load_kg (v : FleetVehicleSnapshot) : result Q :=
  quantize 2 (dec_sub (max_load_kg v) (current_load_kg v)).

Definition current_load_ratio (v : FleetVehicleSnapshot) : result Q :=
  if Qeq_bool (max_load_kg v) 0 then Ok 0%Q else dec_div (current_load_kg v) (max_load_kg v).

Record FleetAllocationRequest := {
  original_vehicle_id : string;
  incident_node_id : string;
  cargo_weight_kg : Q;
  cargo_type : string;
  destination_node_id : option string;
}.

Record FleetScoreComponents := {
  eta_penalty : Q;
  distance_penalty : Q;
  load_penalty : Q;
  road_risk_penalty : Q;
  same_station_bonus : Q;
  cargo_exact_match_bonus : Q;
}.

Record VehicleCandidate := {
  cand_vehicle_id : string;
  cand_driver_id : option string;
  cand_vehicle_status : string;
  cand_remaining_load_kg : Q;
  pickup_route : option PathResult;
  pickup_distance_km : option Q;
  pickup_eta_minutes : option Z;
  score_components : option FleetScoreComponents;
  score : option Q;
  eligible : bool;
  exclusion_reasons : list string;
  cand_gross_weight_tons : Q;
  cand_cargo_capability : string;
  cand_driver_status : option string;
}.

Record FleetAllocationResult := {
  result_original_vehicle_id : string;
  candidates : list VehicleCandidate;
  selected_vehicle_id : option string;
  selected_driver_id : option string;
  result_pickup_route : option PathResult;
  vehicle_reassigned : bool;
  status : string;
  reason : option string;
}.

(** ** The repository *)
(** A row of [fleet_vehicles]; the driver is joined by [list_candidates]. *)
Record FleetVehicle := {
  row_vehicle : FleetVehicleSnapshot;   (* its [driver] field is not read *)
  assigned_driver_id : option string;
}.

Definition vehicle_snapshot (row : FleetVehicle) (d : option FleetDriverSnapshot) : result FleetVehicleSnapshot :=
  let v := row_vehicle row in
  m ← decimal_places (max_load_kg v);
  c ← decimal_places (current_load_kg v);
  g ← decimal_places (gross_weight_tons v);
  Ok {| vehicle_id := vehicle_id v; plate_no := plate_no v; vehicle_type := vehicle_type v;
        max_load_kg := m; current_load_kg := c; cargo_capability := cargo_capability v;
        gross_weight_tons := g; vehicle_status := vehicle_status v;
        current_node_id := current_node_id v; driver := d |}.

Definition drivers_by_id (drivers : list FleetDriverSnapshot) : gmap string FleetDriverSnapshot :=
  fold_left (fun m d => <[driver_id d := d]> m) drivers ∅.

(** The identifier passed by the service is not used to filter: the original
    vehicle is excluded by [_cheap_reasons]. *)
Definition list_candidates (vehicles : list FleetVehicle) (drivers : list FleetDriverSnapshot)
    (excluding_vehicle_id : string) : result (list FleetVehicleSnapshot) :=
  map_result (fun row => vehicle_snapshot row (assigned_driver_id row ≫= fun i => drivers_by_id drivers !! i))
             (sorted_key (fun row => vehicle_id (row_vehicle row)) vehicles).

(** [get_vehicle]: vehicle and driver identifiers are unique columns. *)
Definition get_vehicle (vehicles : list FleetVehicle) (drivers : list FleetDriverSnapshot) (i : string)
    : result (option FleetVehicleSnapshot) :=
  match List.find (fun row => String.eqb (vehicle_id (row_vehicle row)) i) vehicles with
  | None => Ok None
  | Some row =>
      let d := match assigned_driver_id row with
               | Some k => List.find (fun d => String.eqb (driver_id d) k) drivers
               | None => None
               end in
      v ← vehicle_snapshot row d; Ok (Some v)
  end.

(** ** Travel-time estimators *)
Record TravelTimeEstimator := {
  estimate : string -> string -> Q -> result (option PathResult);
  (* [_WeightRestrictionAware] *)
  is_weight_restricted : option (string -> string -> Q -> result bool);
}.

(** What the service is constructed with: an estimator that may also be
    [AllocationPreparable] and [SnapshotPreparable]. *)
Record EstimatorService := {
  base_estimator : TravelTimeEstimator;
  for_allocation : option (result TravelTimeEstimator);
  for_snapshot : option (RoadNetworkSnapshot -> TravelTimeEstimator);
}.

Section dijkstra_estimator.
Context `{PathFinder}.

Definition path_weight_restricted (s : RoadNetworkSnapshot) (from to : string) (w : Q) : result bool :=
  p ← path_find s from to FASTEST w ∅;
  match p with
  | Some _ => Ok false
  | None => p0 ← path_find s from to FASTEST 0%Q ∅; Ok (match p0 with Some _ => true | None => false end)
  end.

Definition prepared_estimator (s : RoadNetworkSnapshot) : TravelTimeEstimator :=
  {| estimate := fun from to w => path_find s from to FASTEST w ∅;
     is_weight_restricted := Some (path_weight_restricted s) |}.

(** [DijkstraTravelTimeEstimator]: [road_network] is what the provider's
    [snapshot()] gives. *)
Definition DijkstraTravelTimeEstimator (road_network : result RoadNetworkSnapshot) : EstimatorService :=
  {| base_estimator :=
       {| estimate := fun from to w => s ← road_network; path_find s from to FASTEST w ∅;
          is_weight_restricted := Some (fun from to w => s ← road_network; path_weight_restricted s from to w) |};
     for_allocation := Some (s ← road_network; Ok (prepared_estimator s));
     for_snapshot := Some prepared_estimator |}.
End dijkstra_estimator.

(** ** FleetAllocationService *)
Definition license_matches (v : FleetVehicleSnapshot) : bool :=
  match driver v with
  | None => false
  | Some d =>
      let light := one_of (vehicle_type v) ["VAN"; "REFRIGERATED_VAN"; "ELECTRIC_VAN"; "TRICYCLE"] in
      if light then one_of (license_class d) ["C1"; "B2"] else String.eqb (license_class d) "B2"
  end.

Definition when (b : bool) (r : string) : list string := if b then [r] else [].

Definition cheap_reasons (v : FleetVehicleSnapshot) (req : FleetAllocationRequest) : result (list string) :=
  remaining ← remaining_load_kg v;
  Ok (when (String.eqb (vehicle_id v) (original_vehicle_id req)) "ORIGINAL_VEHICLE_EXCLUDED"
      ++ when (negb (String.eqb (vehicle_status v) "AVAILABLE")) "VEHICLE_UNAVAILABLE"
      ++ match driver v with
         | None => ["DRIVER_UNAVAILABLE"]
         | Some d => when (negb (String.eqb (driver_status d) "ON_DUTY")) "DRIVER_UNAVAILABLE"
                     ++ when (negb (license_matches v)) "LICENSE_MISMATCH"
         end
      ++ when (py_lt remaining (cargo_weight_kg req)) "INSUFFICIENT_CAPACITY"
      ++ when (String.eqb (cargo_type req) "COLD_CHAIN" && negb (String.eqb (cargo_capability v) "COLD_CHAIN"))
              "CARGO_CAPABILITY_MISMATCH").

Definition risk_level_of (risk : Q) : string :=
  if Qle_bool 12 risk then "HIGH" else if py_lt 0%Q risk then "MEDIUM" else "LOW".

Definition risk_penalty_of (level : string) : result Q :=
  if String.eqb level "LOW" then Ok 0%Q
  else if String.eqb level "MEDIUM" then Ok 6%Q
  else if String.eqb level "HIGH" then Ok 15%Q
  else Err (Exn "KeyError" level).

Definition score_components_of (v : FleetVehicleSnapshot) (req : FleetAllocationRequest) (pickup : PathResult)
    : result FleetScoreComponents :=
  ratio ← current_load_ratio v;
  risk ← risk_penalty_of (risk_level_of (risk_cost pickup));
  Ok {| eta_penalty := dec_mul (inject_Z (estimated_minutes pickup)) (15 # 10);
        distance_penalty := dec_mul (path_distance_km pickup) 2;
        load_penalty := dec_mul ratio 20;
        road_risk_penalty := risk;
        same_station_bonus := if String.eqb (current_node_id v) (incident_node_id req) then 8%Q else 0%Q;
        cargo_exact_match_bonus := if String.eqb (cargo_capability v) (cargo_type req) then 10%Q else 0%Q |}.

Definition total_score (c : FleetScoreComponents) : result Q :=
  quantize 1
    (dec_add (dec_add
      (dec_sub (dec_sub (dec_sub (dec_sub 100 (eta_penalty c)) (distance_penalty c)) (load_penalty c))
               (road_risk_penalty c))
      (same_station_bonus c)) (cargo_exact_match_bonus c)).

(** [_rejected(vehicle, reasons)]; no caller passes a pickup. *)
Definition rejected (v : FleetVehicleSnapshot) (reasons : list string) : result VehicleCandidate :=
  remaining ← remaining_load_kg v;
  Ok {| cand_vehicle_id := vehicle_id v; cand_driver_id := driver_id <$> driver v;
        cand_vehicle_status := vehicle_status v; cand_remaining_load_kg := remaining;
        pickup_route := None; pickup_distance_km := None; pickup_eta_minutes := None;
        score_components := None; score := None; eligible := false; exclusion_reasons := reasons;
        cand_gross_weight_tons := gross_weight_tons v; cand_cargo_capability := cargo_capability v;
        cand_driver_status := driver_status <$> driver v |}.

Definition weight_restricted (est : TravelTimeEstimator) (v : FleetVehicleSnapshot) (from to : string) : result bool :=
  match is_weight_restricted est with
  | None => Ok false
  | Some f => f from to (gross_weight_tons v)
  end.

(** The reasons an unreachable leg adds. *)
Definition unreachable_reasons (est : TravelTimeEstimator) (v : FleetVehicleSnapshot) (from to leg : string)
    : result (list string) :=
  restricted ← weight_restricted est v from to;
  Ok (when restricted "ROAD_WEIGHT_RESTRICTION" ++ [leg]).

Definition delivery_reasons (est : TravelTimeEstimator) (v : FleetVehicleSnapshot) (req : FleetAllocationRequest)
    : result (list string) :=
  match destination_node_id req with
  | None => Ok []
  | Some dest =>
      delivery ← estimate est (incident_node_id req) dest (gross_weight_tons v);
      match delivery with
      | Some _ => Ok []
      | None => unreachable_reasons est v (incident_node_id req) dest "DELIVERY_UNREACHABLE"
      end
  end.

Definition evaluate (est : TravelTimeEstimator) (req : FleetAllocationRequest) (v : FleetVehicleSnapshot)
    : result VehicleCandidate :=
  reasons ← cheap_reasons v req;
  pickup ← estimate est (current_node_id v) (incident_node_id req) (gross_weight_tons v);
  match pickup with
  | None =>
      more ← unreachable_reasons est v (current_node_id v) (incident_node_id req) "PICKUP_UNREACHABLE";
      rejected v (reasons ++ more)
  | Some pickup =>
      more ← delivery_reasons est v req;
      let reasons := reasons ++ more in
      components ← score_components_of v req pickup;
      total ← total_score components;
      remaining ← remaining_load_kg v;
      Ok {| cand_vehicle_id := vehicle_id v; cand_driver_id := driver_id <$> driver v;
            cand_vehicle_status := vehicle_status v; cand_remaining_load_kg := remaining;
            pickup_route := Some pickup; pickup_distance_km := Some (path_distance_km pickup);
            pickup_eta_minutes := Some (estimated_minutes pickup);
            score_components := Some components; score := Some total;
            eligible := bool_decide (reasons = []); exclusion_reasons := reasons;
            cand_gross_weight_tons := gross_weight_tons v; cand_cargo_capability := cargo_capability v;
            cand_driver_status := driver_status <$> driver v |}
  end.

Definition prepare_estimator (svc : EstimatorService) (road : option RoadNetworkSnapshot) : result TravelTimeEstimator :=
  match road with
  | Some s =>
      match for_snapshot svc with
      | None => Err (Exn "TypeError" "Travel-time estimator does not accept an explicit road-network snapshot.")
      | Some f => Ok (f s)
      end
  | None => match for_allocation svc with Some r => r | None => Ok (base_estimator svc) end
  end.

(** The sort key of an eligible candidate, whose score and ETA are present
    (see [evaluate_eligible]). *)
Definition eligible_key (c : VehicleCandidate) : Q * (Z * string) :=
  (dec_neg (default 0%Q (score c)), (default 0 (pickup_eta_minutes c), cand_vehicle_id c)).

Definition eligible_sorted (cs : list VehicleCandidate) : list VehicleCandidate :=
  sorted_key eligible_key (filter (fun c => eligible c = true) cs).
Definition rejected_sorted (cs : list VehicleCandidate) : list VehicleCandidate :=
  sorted_key cand_vehicle_id (filter (fun c => eligible c = false) cs).

Definition allocate (svc : EstimatorService) (provider : string -> result (list FleetVehicleSnapshot))
    (req : FleetAllocationRequest) (road : option RoadNetworkSnapshot) : result FleetAllocationResult :=
  est ← prepare_estimator svc road;
  vehicles ← provider (original_vehicle_id req);
  cs ← map_result (evaluate est req) vehicles;
  let ordered := eligible_sorted cs ++ rejected_sorted cs in
  match eligible_sorted cs with
  | [] =>
      Ok {| result_original_vehicle_id := original_vehicle_id req; candidates := ordered;
            selected_vehicle_id := None; selected_driver_id := None; result_pickup_route := None;
            vehicle_reassigned := false; status := "UNAVAILABLE"; reason := Some "NO_REPLACEMENT_VEHICLE" |}
  | selected :: _ =>
      Ok {| result_original_vehicle_id := original_vehicle_id req; candidates := ordered;
            selected_vehicle_id := Some (cand_vehicle_id selected); selected_driver_id := cand_driver_id selected;
            result_pickup_route := pickup_route selected;
            vehicle_reassigned := true; status := "REASSIGNED"; reason := None |}
  end.

(** ** Specification *)

(** A vehicle may take over: the hard constraints of the allocation. *)
Record fit (est : TravelTimeEstimator) (req : FleetAllocationRequest) (v : FleetVehicleSnapshot) : Prop := {
  fit_other : vehicle_id v <> original_vehicle_id req;
  fit_available : vehicle_status v = "AVAILABLE"%string;
  fit_driver : exists d, driver v = Some d /\ driver_status d = "ON_DUTY"%string;
  fit_license : license_matches v = true;
  fit_load : exists r, remaining_load_kg v = Ok r /\ (cargo_weight_kg req <= r)%Q;
  fit_cold : cargo_type req = "COLD_CHAIN"%string -> cargo_capability v = "COLD_CHAIN"%string;
  fit_pickup : exists p, estimate est (current_node_id v) (incident_node_id req) (gross_weight_tons v) = Ok (Some p);
  fit_delivery : forall d, destination_node_id req = Some d ->
    exists p, estimate est (incident_node_id req) d (gross_weight_tons v) = Ok (Some p);
}.

(** ** Evaluation of one vehicle *)
Lemma when_nil b r : when b r = [] <-> b = false.
Proof. by destruct b. Qed.

Lemma q_not_lt (a b : Q) : py_lt a b = false <-> (b <= a)%Q.
Proof.
  unfold py_lt, pycmp, q_cmp. destruct (Qcompare_spec a b); split; intros; try done; lra.
Qed.

(** The reasons that do not need the road network are empty exactly when the
    vehicle, its driver and its load meet the request. *)
Lemma cheap_reasons_nil v req r :
  cheap_reasons v req = Ok r ->
  (r = [] <->
   vehicle_id v <> original_vehicle_id req /\ vehicle_status v = "AVAILABLE"%string /\
   (exists d, driver v = Some d /\ driver_status d = "ON_DUTY"%string) /\ license_matches v = true /\
   (exists m, remaining_load_kg v = Ok m /\ (cargo_weight_kg req <= m)%Q) /\
   (cargo_type req = "COLD_CHAIN"%string -> cargo_capability v = "COLD_CHAIN"%string)).
Proof.
  unfold cheap_reasons. intros H. apply result_bind_ok in H as (m & Hm & H). results.
  rewrite !app_nil, !when_nil, negb_false_iff, String.eqb_eq, String.eqb_neq, q_not_lt, andb_false_iff,
    negb_false_iff, String.eqb_eq, String.eqb_neq.
  assert (Hd : match driver v with
     | None => ["DRIVER_UNAVAILABLE"%string]
     | Some d => when (negb (driver_status d =? "ON_DUTY")%string) "DRIVER_UNAVAILABLE"
                 ++ when (negb (license_matches v)) "LICENSE_MISMATCH"
     end = [] <-> (exists d, driver v = Some d /\ driver_status d = "ON_DUTY"%string) /\ license_matches v = true).
  { destruct (driver v) as [d|]; [|naive_solver].
    rewrite app_nil, !when_nil, !negb_false_iff, String.eqb_eq. naive_solver. }
  assert (Hc : cargo_type req <> "COLD_CHAIN"%string \/ cargo_capability v = "COLD_CHAIN"%string <->
    (cargo_type req = "COLD_CHAIN"%string -> cargo_capability v = "COLD_CHAIN"%string)).
  { destruct (decide (cargo_type req = "COLD_CHAIN"%string)); tauto. }
  assert (Hl : (cargo_weight_kg req <= m)%Q <-> exists m, remaining_load_kg v = Ok m /\ (cargo_weight_kg req <= m)%Q).
  { rewrite Hm. split; [eauto|]. intros (m' & E & ?). by results. }
  rewrite Hd, Hc, Hl. tauto.
Qed.

Lemma unreachable_reasons_cons est v from to leg r : unreachable_reasons est v from to leg = Ok r -> r <> [].
Proof.
  unfold unreachable_reasons. intros H. apply result_bind_ok in H as (b & _ & H). results. by destruct b.
Qed.

Lemma delivery_reasons_nil est v req r :
  delivery_reasons est v req = Ok r ->
  (r = [] <-> forall d, destination_node_id req = Some d ->
    exists p, estimate est (incident_node_id req) d (gross_weight_tons v) = Ok (Some p)).
Proof.
  unfold delivery_reasons. destruct (destination_node_id req) as [d|]; [|intros; results; naive_solver].
  intros H. apply result_bind_ok in H as ([p|] & Hp & H).
  - results. naive_solver.
  - apply unreachable_reasons_cons in H. split; [done|]. intros Hall.
    destruct (Hall d eq_refl) as [p Hp']. congruence.
Qed.

Lemma cheap_none_inv est req v c :
  evaluate est req v = Ok c -> estimate est (current_node_id v) (incident_node_id req) (gross_weight_tons v) = Ok None ->
  eligible c = false /\ cand_vehicle_id c = vehicle_id v /\ cand_driver_id c = driver_id <$> driver v.
Proof.
  unfold evaluate. intros H E. apply result_bind_ok in H as (r & _ & H). rewrite E in H. cbn [mbind result_bind] in H.
  apply result_bind_ok in H as (m & _ & H). unfold rejected in H.
  apply result_bind_ok in H as (q & _ & H). by results.
Qed.

(** The outcome of [_evaluate] when the vehicle can reach the incident. *)
Lemma evaluate_some_inv est req v c p :
  evaluate est req v = Ok c ->
  estimate est (current_node_id v) (incident_node_id req) (gross_weight_tons v) = Ok (Some p) ->
  exists r1 r2 comps total, cheap_reasons v req = Ok r1 /\ delivery_reasons est v req = Ok r2 /\
    score_components_of v req p = Ok comps /\ total_score comps = Ok total /\
    cand_vehicle_id c = vehicle_id v /\ cand_driver_id c = driver_id <$> driver v /\
    score c = Some total /\ pickup_route c = Some p /\ pickup_eta_minutes c = Some (estimated_minutes p) /\
    eligible c = bool_decide (r1 ++ r2 = []).
Proof.
  unfold evaluate. intros H E. apply result_bind_ok in H as (r1 & H1 & H). rewrite E in H. cbn [mbind result_bind] in H.
  apply result_bind_ok in H as (r2 & H2 & H). apply result_bind_ok in H as (comps & H3 & H).
  apply result_bind_ok in H as (total & H4 & H). apply result_bind_ok in H as (q & _ & H).
  results. exists r1, r2, comps, total. by split_and!.
Qed.

Lemma evaluate_pickup est req v c :
  evaluate est req v = Ok c ->
  exists p, estimate est (current_node_id v) (incident_node_id req) (gross_weight_tons v) = Ok p.
Proof.
  unfold evaluate. intros H. apply result_bind_ok in H as (r & _ & H).
  apply result_bind_ok in H as (p & Hp & _). eauto.
Qed.

Lemma evaluate_eligible est req v c :
  evaluate est req v = Ok c -> (eligible c = true <-> fit est req v).
Proof.
  intros H. destruct (evaluate_pickup est req v c H) as [[p|] Hp].
  - destruct (evaluate_some_inv est req v c p H Hp) as (r1 & r2 & _ & _ & H1 & H2 & _ & _ & _ & _ & _ & _ & _ & ->).
    apply cheap_reasons_nil in H1. apply delivery_reasons_nil in H2.
    rewrite bool_decide_eq_true, app_nil, H1, H2.
    clear H1 H2. split; [intros ((?&?&?&?&?&?)&?); split; eauto|]. intros [f1 f2 f3 f4 f5 f6 f7 f8]. by split_and!.
  - destruct (cheap_none_inv est req v c H Hp) as [-> _]. split; [done|].
    intros [_ _ _ _ _ _ [p Hp'] _]. congruence.
Qed.

Lemma evaluate_id est req v c :
  evaluate est req v = Ok c -> cand_vehicle_id c = vehicle_id v /\ cand_driver_id c = driver_id <$> driver v.
Proof.
  intros H. destruct (evaluate_pickup est req v c H) as [[p|] Hp].
  - by destruct (evaluate_some_inv est req v c p H Hp) as (r1 & r2 & ? & ? & ? & ? & ? & ? & ? & ? & _).
  - by destruct (cheap_none_inv est req v c H Hp) as (_ & ? & ?).
Qed.

Lemma evaluate_score est req v c :
  evaluate est req v = Ok c -> eligible c = true -> exists s e, score c = Some s /\ is_dec s /\ pickup_eta_minutes c = Some e.
Proof.
  intros H He. destruct (evaluate_pickup est req v c H) as [[p|] Hp].
  - destruct (evaluate_some_inv est req v c p H Hp) as (r1 & r2 & comps & total & _ & _ & _ & Ht & _ & _ & Hs & _ & Heta & _).
    exists total, (estimated_minutes p). split_and!; try done. unfold total_score in Ht. by apply quantize_is_dec in Ht.
  - destruct (cheap_none_inv est req v c H Hp) as [E _]. congruence.
Qed.

(** ** Allocation *)
Lemma allocate_inv svc provider req road r :
  allocate svc provider req road = Ok r ->
  exists est vs cs, prepare_estimator svc road = Ok est /\ provider (original_vehicle_id req) = Ok vs /\
    map_result (evaluate est req) vs = Ok cs /\ candidates r = eligible_sorted cs ++ rejected_sorted cs /\
    match eligible_sorted cs with
    | [] => selected_vehicle_id r = None /\ selected_driver_id r = None /\ result_pickup_route r = None /\
            vehicle_reassigned r = false /\ status r = "UNAVAILABLE"%string /\ reason r = Some "NO_REPLACEMENT_VEHICLE"%string
    | c :: _ => selected_vehicle_id r = Some (cand_vehicle_id c) /\ selected_driver_id r = cand_driver_id c /\
            result_pickup_route r = pickup_route c /\ vehicle_reassigned r = true /\
            status r = "REASSIGNED"%string /\ reason r = None
    end.
Proof.
  unfold allocate. intros H. apply result_bind_ok in H as (est & He & H). apply result_bind_ok in H as (vs & Hv & H).
  apply result_bind_ok in H as (cs & Hc & H). exists est, vs, cs.
  destruct (eligible_sorted cs); results; by split_and!.
Qed.

Lemma eligible_sorted_elem cs c : c ∈ eligible_sorted cs <-> c ∈ cs /\ eligible c = true.
Proof. unfold eligible_sorted. rewrite sorted_key_perm, list_elem_of_filter. tauto. Qed.

Lemma rejected_sorted_elem cs c : c ∈ rejected_sorted cs <-> c ∈ cs /\ eligible c = false.
Proof. unfold rejected_sorted. rewrite sorted_key_perm, list_elem_of_filter. tauto. Qed.

Lemma ordered_perm cs : eligible_sorted cs ++ rejected_sorted cs ≡ₚ cs.
Proof.
  unfold eligible_sorted, rejected_sorted. rewrite !sorted_key_perm.
  induction cs as [|c cs IH]; [done|]. rewrite !filter_cons. destruct (eligible c); simpl.
  - by rewrite IH.
  - rewrite <- Permutation_middle. by rewrite IH.
Qed.

(** The order of eligible candidates: score first, then the shorter pickup. *)
Lemma eligible_key_le est req v1 c1 v2 c2 :
  evaluate est req v1 = Ok c1 -> eligible c1 = true -> evaluate est req v2 = Ok c2 -> eligible c2 = true ->
  py_le (eligible_key c1) (eligible_key c2) = true ->
  exists s1 s2 e1 e2, score c1 = Some s1 /\ score c2 = Some s2 /\ pickup_eta_minutes c1 = Some e1 /\
    pickup_eta_minutes c2 = Some e2 /\ (s2 <= s1)%Q /\ ((s1 == s2)%Q -> e1 <= e2).
Proof.
  intros H1 E1 H2 E2 Hle.
  destruct (evaluate_score _ _ _ _ H1 E1) as (s1 & e1 & Hs1 & Hd1 & He1).
  destruct (evaluate_score _ _ _ _ H2 E2) as (s2 & e2 & Hs2 & Hd2 & He2).
  exists s1, s2, e1, e2. split_and!; try done.
  - apply dec_neg_le; [done..|]. unfold py_le, eligible_key in Hle. rewrite pycmp_pair, Hs1, Hs2 in Hle. simpl in Hle.
    unfold pycmp at 1, q_cmp in Hle. destruct (Qcompare_spec (dec_neg s1) (dec_neg s2)); [lra|lra|done].
  - intros Es. unfold py_le, eligible_key in Hle. rewrite !pycmp_pair, Hs1, Hs2, He1, He2 in Hle. simpl in Hle.
    assert (En : (dec_neg s1 == dec_neg s2)%Q) by (unfold dec_neg; by rewrite Es).
    unfold pycmp at 1, q_cmp in Hle. apply Qeq_alt in En. rewrite En in Hle.
    unfold pycmp at 1, z_cmp in Hle. destruct (Z.compare_spec e1 e2); [lia|lia|done].
Qed.

(** ** Theorems *)

(** C6: a reassignment names a vehicle of the provider that meets every hard
    constraint, with its driver, and no other vehicle that meets them has a
    higher score, or an equal score and a shorter pickup. *)
Theorem allocate_selects_best svc provider req road r :
  allocate svc provider req road = Ok r -> status r = "REASSIGNED"%string ->
  exists est vs v c, prepare_estimator svc road = Ok est /\ provider (original_vehicle_id req) = Ok vs /\
    v ∈ vs /\ evaluate est req v = Ok c /\ fit est req v /\
    selected_vehicle_id r = Some (vehicle_id v) /\ selected_driver_id r = driver_id <$> driver v /\
    forall v' c', v' ∈ vs -> fit est req v' -> evaluate est req v' = Ok c' ->
      exists s s' e e', score c = Some s /\ score c' = Some s' /\ pickup_eta_minutes c = Some e /\
        pickup_eta_minutes c' = Some e' /\ (s' <= s)%Q /\ ((s == s')%Q -> e <= e').
Proof.
  intros (est & vs & cs & He & Hv & Hc & _ & Hsel)%allocate_inv Hst.
  destruct (eligible_sorted cs) as [|c l] eqn:Es; [destruct Hsel as (_ & _ & _ & _ & E & _); congruence|].
  assert (Hin : c ∈ cs /\ eligible c = true) by (apply eligible_sorted_elem; rewrite Es; left).
  destruct Hin as [Hin Hel]. destruct (map_result_elem _ _ _ _ Hc Hin) as (v & Hvin & Hev).
  exists est, vs, v, c. destruct (evaluate_id _ _ _ _ Hev) as [Ei Ed]. destruct Hsel as (-> & -> & _).
  rewrite Ei, Ed. split_and!; try done; [by apply (evaluate_eligible _ _ _ _ Hev)|].
  intros v' c' Hv' Hfit Hev'. apply (evaluate_eligible _ _ _ _ Hev') in Hfit.
  apply (eligible_key_le est req v c v' c' Hev Hel Hev' Hfit).
  destruct (map_result_elem_l _ _ _ _ Hc Hv') as (c2 & Hc2 & Hev2).
  assert (c2 = c') as -> by congruence.
  apply (sorted_key_head_le eligible_key (filter (fun c => eligible c = true) cs)).
  - unfold eligible_sorted in Es. by rewrite Es.
  - by apply list_elem_of_filter.
Qed.

(** the service reports [UNAVAILABLE] exactly when no vehicle of the provider
    meets the hard constraints, and then reassigns nothing. *)
Theorem allocate_unavailable_iff svc provider req road r est vs :
  allocate svc provider req road = Ok r -> prepare_estimator svc road = Ok est ->
  provider (original_vehicle_id req) = Ok vs ->
  (status r = "UNAVAILABLE"%string <-> forall v, v ∈ vs -> ~ fit est req v) /\
  (vehicle_reassigned r = true <-> status r = "REASSIGNED"%string) /\
  (status r = "UNAVAILABLE"%string -> selected_vehicle_id r = None /\ result_pickup_route r = None).
Proof.
  intros (est' & vs' & cs & He & Hv & Hc & _ & Hsel)%allocate_inv He' Hv'.
  assert (est' = est) as -> by congruence. assert (vs' = vs) as -> by congruence.
  destruct (eligible_sorted cs) as [|c l] eqn:Es.
  - destruct Hsel as (H1 & _ & H2 & -> & -> & _). split_and!; try done. split; [|done]. intros _ v Hvin Hfit.
    destruct (map_result_elem_l _ _ _ _ Hc Hvin) as (c & Hcin & Hev). apply (evaluate_eligible _ _ _ _ Hev) in Hfit.
    assert (C : c ∈ eligible_sorted cs) by (by apply eligible_sorted_elem). rewrite Es in C. by apply not_elem_of_nil in C.
  - destruct Hsel as (_ & _ & _ & -> & -> & _). split_and!; try done. split; [done|]. intros Hno.
    assert (Hin : c ∈ cs /\ eligible c = true) by (apply eligible_sorted_elem; rewrite Es; left).
    destruct Hin as [Hin Hel]. destruct (map_result_elem _ _ _ _ Hc Hin) as (v & Hvin & Hev).
    destruct (Hno v Hvin). by apply (evaluate_eligible _ _ _ _ Hev).
Qed.

(** the reported candidates are the evaluations of the provider's vehicles,
    each exactly once: first the eligible ones in the order of the sort key,
    then the rejected ones by vehicle identifier. *)
Theorem allocate_candidates svc provider req road r :
  allocate svc provider req road = Ok r ->
  exists est vs cs, prepare_estimator svc road = Ok est /\ provider (original_vehicle_id req) = Ok vs /\
    Forall2 (fun v c => evaluate est req v = Ok c) vs cs /\ candidates r ≡ₚ cs /\
    exists front back, candidates r = front ++ back /\
      (forall c, c ∈ front -> eligible c = true) /\ (forall c, c ∈ back -> eligible c = false) /\
      StronglySorted (fun x y => py_le (eligible_key x) (eligible_key y) = true) front /\
      StronglySorted (fun x y => py_le (cand_vehicle_id x) (cand_vehicle_id y) = true) back.
Proof.
  intros (est & vs & cs & He & Hv & Hc & Ec & _)%allocate_inv. exists est, vs, cs. split_and!; try done.
  - by apply map_result_Forall2.
  - rewrite Ec. apply ordered_perm.
  - exists (eligible_sorted cs), (rejected_sorted cs). split_and!; [done| | | |].
    + intros c Hcc. by apply eligible_sorted_elem in Hcc as [_ ?].
    + intros c Hcc. by apply rejected_sorted_elem in Hcc as [_ ?].
    + apply (sorted_key_sorted eligible_key).
    + apply (sorted_key_sorted cand_vehicle_id).
Qed.

(** ** Witnesses *)
Definition ex_driver (i lic st : string) : FleetDriverSnapshot :=
  {| driver_id := i; driver_name := i; license_class := lic; driver_status := st; driver_node_id := "A" |}.
Definition ex_vehicle (i ty st node : string) (d : option FleetDriverSnapshot) : FleetVehicleSnapshot :=
  {| vehicle_id := i; plate_no := i; vehicle_type := ty; max_load_kg := 1000; current_load_kg := 250;
     cargo_capability := "GENERAL"; gross_weight_tons := 3; vehicle_status := st; current_node_id := node; driver := d |}.
Definition ex_fleet : list FleetVehicleSnapshot :=
  [ex_vehicle "V1" "VAN" "BROKEN" "A" (Some (ex_driver "D1" "C1" "ON_DUTY"));
   ex_vehicle "V2" "TRUCK" "AVAILABLE" "A" (Some (ex_driver "D2" "C1" "ON_DUTY"));
   ex_vehicle "V3" "VAN" "AVAILABLE" "A" (Some (ex_driver "D3" "C1" "ON_DUTY"));
   ex_vehicle "V4" "VAN" "AVAILABLE" "C" (Some (ex_driver "D4" "B2" "ON_DUTY"));
   ex_vehicle "V5" "VAN" "AVAILABLE" "D" (Some (ex_driver "D5" "B2" "ON_DUTY"))].
Definition ex_request (dest : option string) : FleetAllocationRequest :=
  {| original_vehicle_id := "V1"; incident_node_id := "C"; cargo_weight_kg := 400; cargo_type := "GENERAL";
     destination_node_id := dest |}.
Definition ex_service : EstimatorService := DijkstraTravelTimeEstimator (Ok ex_network).
Definition ex_allocation (dest : option string) : result FleetAllocationResult :=
  allocate ex_service (fun _ => Ok ex_fleet) (ex_request dest) None.

(** The nearest eligible vehicle wins; nothing reaches the isolated node [E]. *)
Example ex_allocation_runs :
  (r ← ex_allocation (Some "D"%string); Ok (status r, selected_vehicle_id r, cand_vehicle_id <$> candidates r)) =
    Ok ("REASSIGNED", Some "V4", ["V4"; "V3"; "V1"; "V2"; "V5"])%string /\
  (r ← ex_allocation (Some "E"%string); Ok (status r, selected_vehicle_id r)) = Ok ("UNAVAILABLE", None)%string.
Proof. vm_compute. done. Qed.

Example allocate_selects_best_witness :
  exists r est v, ex_allocation (Some "D"%string) = Ok r /\ fit est (ex_request (Some "D"%string)) v /\
    selected_vehicle_id r = Some (vehicle_id v).
Proof.
  assert (H : exists r, ex_allocation (Some "D"%string) = Ok r /\ status r = "REASSIGNED"%string).
  { vm_compute. eexists. split; reflexivity. }
  destruct H as (r & E & S).
  destruct (allocate_selects_best ex_service (fun _ => Ok ex_fleet) (ex_request (Some "D"%string)) None r E S)
    as (est & vs & v & c & _ & _ & _ & _ & Hf & Hs & _).
  exists r, est, v. exact (conj E (conj Hf Hs)).
Defined.

Example allocate_unavailable_iff_witness :
  exists r, ex_allocation (Some "E"%string) = Ok r /\
    forall v, v ∈ ex_fleet -> ~ fit (prepared_estimator ex_network) (ex_request (Some "E"%string)) v.
Proof.
  assert (H : exists r, ex_allocation (Some "E"%string) = Ok r /\ status r = "UNAVAILABLE"%string).
  { vm_compute. eexists. split; reflexivity. }
  destruct H as (r & E & S). exists r. split; [exact E|].
  exact (proj1 (proj1 (allocate_unavailable_iff ex_service (fun _ => Ok ex_fleet) (ex_request (Some "E"%string)) None r
    (prepared_estimator ex_network) ex_fleet E eq_refl eq_refl)) S).
Defined.

Example allocate_candidates_witness :
  exists r cs, ex_allocation None = Ok r /\ candidates r ≡ₚ cs.
Proof.
  assert (H : exists r, ex_allocation None = Ok r). { vm_compute. eexists. reflexivity. }
  destruct H as (r & E).
  destruct (allocate_candidates ex_service (fun _ => Ok ex_fleet) (ex_request None) None r E)
    as (est & vs & cs & _ & _ & _ & Hp & _).
  exists r, cs. exact (conj E Hp).
Defined.
