(* ===== verification/Capacity.v ===== *)
(** * Capacity: can the assigned driver and vehicle take the order

    Models [app/capacity/models.py], [provider.py] and [service.py].  Ratios are
    Python floats: a finite double is its exact rational value, and
    [float(Decimal)] rounds to 53 significant bits, ties to even. *)

From S2P Require Import Prelude Decimal RoadNetwork Fleet.

Local Open Scope Z_scope.
Local Open Scope list_scope.

(** ** Data *)
Record CapacitySnapshot := {
  driver_available : bool;
  vehicle_available : bool;
  load_ratio : Q;
  station_load_ratio : option Q;
  provider_name : string;
  snap_remaining_load_kg : option Q;
  snap_cargo_capability : option string;
}.

Record CapacityResult := {
  res_driver_available : bool;
  res_vehicle_available : bool;
  res_load_ratio : Q;
  res_station_load_ratio : option Q;
  capacity_status : string;
  capacity_risk_level : string;
  capacity_reason : option string;
  res_provider_name : string;
}.

(** ** Floats *)
Definition binary_magnitude (q : Q) : Z :=
  let e := Z.log2 (Qnum q) - Z.log2 (Zpos (Qden q)) in
  if Qle_bool (inject_Z 2 ^ e) q then e else e - 1.

Definition float_pos (q : Q) : Q :=
  let e := binary_magnitude q in
  (inject_Z (half_even (q * inject_Z 2 ^ (52 - e))) * inject_Z 2 ^ (e - 52))%Q.

(** [float(d)] on a decimal in the normal range of doubles. *)
Definition float_of (q : Q) : Q :=
  match Qcompare q 0 with
  | Eq => 0%Q
  | Gt => Qred (float_pos q)
  | Lt => Qred (- float_pos (- q))%Q
  end.

(** ** Providers *)
Definition no_capacity (name : string) : CapacitySnapshot :=
  {| driver_available := false; vehicle_available := false; load_ratio := 0; station_load_ratio := None;
     provider_name := name; snap_remaining_load_kg := None; snap_cargo_capability := None |}.

(** [FleetCapacityProvider.get_capacity] over the fleet repository's [get_vehicle]. *)
Definition fleet_get_capacity (get_vehicle : string -> result (option FleetVehicleSnapshot))
    (driver_id_ : string) (vehicle_id_ : option string) (route_id : string) (order_id : Z) : result CapacitySnapshot :=
  match vehicle_id_ with
  | None => Ok (no_capacity "sqlalchemy_fleet")
  | Some vid =>
      vehicle ← get_vehicle vid;
      match vehicle with
      | None => Ok (no_capacity "sqlalchemy_fleet")
      | Some v =>
          ratio ← current_load_ratio v;
          remaining ← remaining_load_kg v;
          Ok {| driver_available := match driver v with
                                    | Some d => String.eqb (driver_id d) driver_id_ && String.eqb (driver_status d) "ON_DUTY"
                                    | None => false
                                    end;
                vehicle_available := one_of (vehicle_status v) ["AVAILABLE"; "IN_TRANSIT"];
                load_ratio := float_of ratio; station_load_ratio := None; provider_name := "sqlalchemy_fleet";
                snap_remaining_load_kg := Some remaining; snap_cargo_capability := Some (cargo_capability v) |}
      end
  end.

Definition in_memory_get_capacity (records : gmap (string * string) CapacitySnapshot)
    (driver_id_ : string) (vehicle_id_ : option string) (route_id : string) (order_id : Z) : result CapacitySnapshot :=
  match vehicle_id_ with
  | None => Ok (no_capacity "in_memory_capacity")
  | Some vid => Ok (default (no_capacity "in_memory_capacity") (records !! (driver_id_, vid)))
  end.

(** ** CapacityService *)
Definition capacity_result (s : CapacitySnapshot) (status_ risk : string) (why : option string) : CapacityResult :=
  {| res_driver_available := driver_available s; res_vehicle_available := vehicle_available s;
     res_load_ratio := load_ratio s; res_station_load_ratio := station_load_ratio s;
     capacity_status := status_; capacity_risk_level := risk; capacity_reason := why;
     res_provider_name := provider_name s |}.

Section service.
Context (get_capacity : string -> option string -> string -> Z -> result CapacitySnapshot).
Context (limited_threshold unavailable_threshold : Q).

Definition reaches (threshold : Q) (ratio : Q) (station : option Q) : bool :=
  Qle_bool threshold ratio || match station with Some r => Qle_bool threshold r | None => false end.
Definition is_unavailable : Q -> option Q -> bool := reaches unavailable_threshold.
Definition is_limited : Q -> option Q -> bool := reaches limited_threshold.

Definition set_vehicle_unavailable (s : CapacitySnapshot) : CapacitySnapshot :=
  {| driver_available := driver_available s; vehicle_available := false; load_ratio := load_ratio s;
     station_load_ratio := station_load_ratio s; provider_name := provider_name s;
     snap_remaining_load_kg := snap_remaining_load_kg s; snap_cargo_capability := snap_cargo_capability s |}.

Definition too_heavy (s : CapacitySnapshot) (cargo : option Q) : bool :=
  match cargo, snap_remaining_load_kg s with Some w, Some r => py_lt r w | _, _ => false end.
Definition wrong_cargo (s : CapacitySnapshot) (cargo_type_ : option string) : bool :=
  bool_decide (cargo_type_ = Some "COLD_CHAIN"%string) &&
  match snap_cargo_capability s with Some c => negb (String.eqb c "COLD_CHAIN") | None => false end.

Definition classify (s : CapacitySnapshot) (vehicle_status_ : string) (cargo : option Q) (cargo_type_ : option string)
    : CapacityResult :=
  if one_of vehicle_status_ ["BROKEN"; "UNAVAILABLE"; "MAINTENANCE"] then
    capacity_result (set_vehicle_unavailable s) "UNAVAILABLE" "high"
      (Some ("Vehicle runtime status is " +:+ vehicle_status_ +:+ "."))
  else if negb (driver_available s) then
    capacity_result s "UNAVAILABLE" "high" (Some "Assigned driver is unavailable.")
  else if negb (vehicle_available s) then
    capacity_result s "UNAVAILABLE" "high" (Some "Assigned vehicle is unavailable.")
  else if too_heavy s cargo then
    capacity_result s "UNAVAILABLE" "high" (Some "Assigned vehicle has insufficient remaining payload.")
  else if wrong_cargo s cargo_type_ then
    capacity_result s "UNAVAILABLE" "high" (Some "Assigned vehicle lacks the required cargo capability.")
  else if is_unavailable (load_ratio s) (station_load_ratio s) then
    capacity_result s "UNAVAILABLE" "high" (Some "Vehicle or station load exceeds capacity.")
  else if is_limited (load_ratio s) (station_load_ratio s) then
    capacity_result s "LIMITED" "medium" (Some "Vehicle load is approaching capacity.")
  else capacity_result s "AVAILABLE" "low" None.

(** The keyword defaults ([vehicle_status="NORMAL"], no cargo) are left to the caller. *)
Definition evaluate_capacity (driver_id_ : string) (vehicle_id_ : option string) (route_id : string) (order_id : Z)
    (vehicle_status_ : string) (cargo : option Q) (cargo_type_ : option string) : result CapacityResult :=
  match get_capacity driver_id_ vehicle_id_ route_id order_id with
  | Err e =>
      if String.eqb (exn_class e) "CapacityProviderError"
      then Err (Exn "CapacityEvaluationError" "Capacity evaluation is temporarily unavailable.")
      else Err e
  | Ok s => Ok (classify s vehicle_status_ cargo cargo_type_)
  end.
End service.

(** ** Specification *)

(** The order can be carried at all, leaving load thresholds aside. *)
Record serviceable (s : CapacitySnapshot) (vehicle_status_ : string) (cargo : option Q) (cargo_type_ : option string) : Prop := {
  sv_status : vehicle_status_ ∉ ["BROKEN"; "UNAVAILABLE"; "MAINTENANCE"]%string;
  sv_driver : driver_available s = true;
  sv_vehicle : vehicle_available s = true;
  sv_load : forall w r, cargo = Some w -> snap_remaining_load_kg s = Some r -> (w <= r)%Q;
  sv_cold : forall c, cargo_type_ = Some "COLD_CHAIN"%string -> snap_cargo_capability s = Some c -> c = "COLD_CHAIN"%string;
}.

(** Both ratios stay below a threshold. *)
Definition below (threshold ratio : Q) (station : option Q) : Prop :=
  (ratio < threshold)%Q /\ forall r, station = Some r -> (r < threshold)%Q.

Lemma reaches_below t ratio station : reaches t ratio station = false <-> below t ratio station.
Proof.
  unfold reaches, below. rewrite orb_false_iff.
  assert (H : forall q, Qle_bool t q = false <-> (q < t)%Q).
  { intros q. rewrite <- not_true_iff_false, Qle_bool_iff. split; [apply Qnot_le_lt|apply Qlt_not_le]. }
  rewrite H. destruct station as [r|]; [rewrite H; naive_solver|naive_solver].
Qed.

Lemma too_heavy_false s cargo :
  too_heavy s cargo = false <-> forall w r, cargo = Some w -> snap_remaining_load_kg s = Some r -> (w <= r)%Q.
Proof.
  unfold too_heavy. destruct cargo as [w|], (snap_remaining_load_kg s) as [r|]; try naive_solver.
  rewrite q_not_lt. naive_solver.
Qed.

Lemma wrong_cargo_false s ct :
  wrong_cargo s ct = false <->
  forall c, ct = Some "COLD_CHAIN"%string -> snap_cargo_capability s = Some c -> c = "COLD_CHAIN"%string.
Proof.
  unfold wrong_cargo. case_bool_decide as E; simpl; [|naive_solver].
  destruct (snap_cargo_capability s) as [c|]; [|naive_solver].
  rewrite negb_false_iff, String.eqb_eq. naive_solver.
Qed.

Lemma classify_serviceable lim un s vs cargo ct :
  serviceable s vs cargo ct ->
  classify lim un s vs cargo ct =
    if is_unavailable un (load_ratio s) (station_load_ratio s)
    then capacity_result s "UNAVAILABLE" "high" (Some "Vehicle or station load exceeds capacity.")
    else if is_limited lim (load_ratio s) (station_load_ratio s)
    then capacity_result s "LIMITED" "medium" (Some "Vehicle load is approaching capacity.")
    else capacity_result s "AVAILABLE" "low" None.
Proof.
  intros [H1 H2 H3 H4 H5]. unfold classify. apply one_of_false in H1. rewrite H1, H2, H3. cbn [negb].
  apply too_heavy_false in H4. apply wrong_cargo_false in H5. by rewrite H4, H5.
Qed.

Lemma classify_unserviceable lim un s vs cargo ct :
  capacity_status (classify lim un s vs cargo ct) <> "UNAVAILABLE"%string -> serviceable s vs cargo ct.
Proof.
  unfold classify. intros H. destruct (one_of _ _) eqn:E1; [done|].
  destruct (driver_available s) eqn:E2; [|done]. destruct (vehicle_available s) eqn:E3; [|done]. cbn [negb] in H.
  destruct (too_heavy s cargo) eqn:E4; [done|]. destruct (wrong_cargo s ct) eqn:E5; [done|].
  split; try done; [by apply one_of_false|by apply too_heavy_false|by apply wrong_cargo_false].
Qed.

(** ** Theorems *)

(** the capacity decision, for every snapshot: the order is refused unless it
    is serviceable and both load ratios are below the unavailable threshold;
    below it, the status is [AVAILABLE] when they are also below the limited
    threshold and [LIMITED] otherwise; the risk level follows the status and a
    reason is given unless the capacity is available. *)
Theorem capacity_decision get_capacity lim un d v route order vs cargo ct s :
  get_capacity d v route order = Ok s ->
  exists r, evaluate_capacity get_capacity lim un d v route order vs cargo ct = Ok r /\
    (capacity_status r = "AVAILABLE"%string <->
       serviceable s vs cargo ct /\ below un (load_ratio s) (station_load_ratio s) /\ below lim (load_ratio s) (station_load_ratio s)) /\
    (capacity_status r = "LIMITED"%string <->
       serviceable s vs cargo ct /\ below un (load_ratio s) (station_load_ratio s) /\ ~ below lim (load_ratio s) (station_load_ratio s)) /\
    (capacity_status r, capacity_risk_level r) ∈ [("AVAILABLE", "low"); ("LIMITED", "medium"); ("UNAVAILABLE", "high")]%string /\
    (capacity_reason r = None <-> capacity_status r = "AVAILABLE"%string).
Proof.
  intros E. unfold evaluate_capacity. rewrite E. exists (classify lim un s vs cargo ct). split; [done|].
  rewrite <- !reaches_below. change (reaches un) with (is_unavailable un). change (reaches lim) with (is_limited lim).
  rewrite not_false_iff_true.
  destruct (decide (capacity_status (classify lim un s vs cargo ct) = "UNAVAILABLE"%string)) as [U|U].
  - assert (Hs : serviceable s vs cargo ct -> is_unavailable un (load_ratio s) (station_load_ratio s) = true).
    { intros Hs. rewrite (classify_serviceable lim un s vs cargo ct Hs) in U. repeat case_match; done. }
    rewrite U. split_and!.
    + split; [done|]. intros (Hsv & Hu & _). by rewrite (Hs Hsv) in Hu.
    + split; [done|]. intros (Hsv & Hu & _). by rewrite (Hs Hsv) in Hu.
    + unfold classify in *. repeat case_match; try done; by do 2 right; left.
    + unfold classify in *. repeat case_match; done.
  - pose proof (classify_unserviceable _ _ _ _ _ _ U) as Hs.
    rewrite (classify_serviceable lim un s vs cargo ct Hs) in *.
    destruct (is_unavailable un (load_ratio s) (station_load_ratio s)); [done|].
    destruct (is_limited lim (load_ratio s) (station_load_ratio s)); split_and!; cbn [capacity_result capacity_status capacity_risk_level capacity_reason]; try done;
      try (by split; [|intros (_ & _ & ?)]); [by right; left|by left].
Qed.

Example capacity_decision_witness :
  exists r, evaluate_capacity (fleet_get_capacity (fun i => Ok (List.find (fun v => String.eqb (vehicle_id v) i) ex_fleet)))
    (8 # 10) (95 # 100) "D4" (Some "V4"%string) "R1" 7 "NORMAL" (Some 400%Q) None = Ok r /\
    (capacity_reason r = None <-> capacity_status r = "AVAILABLE"%string).
Proof.
  destruct (capacity_decision (fleet_get_capacity (fun i => Ok (List.find (fun v => String.eqb (vehicle_id v) i) ex_fleet)))
    (8 # 10) (95 # 100) "D4" (Some "V4"%string) "R1" 7 "NORMAL" (Some 400%Q) None
    {| driver_available := true; vehicle_available := true; load_ratio := 1 # 4; station_load_ratio := None;
       provider_name := "sqlalchemy_fleet"; snap_remaining_load_kg := Some 750%Q; snap_cargo_capability := Some "GENERAL"%string |})
    as (r & E & _ & _ & _ & H).
  - vm_compute. reflexivity.
  - exact (ex_intro _ r (conj E H)).
Defined.
