(* ===== verification/Routing.v ===== *)
(** * Routing: scoring a fixed catalogue and planning over the road network

    Models [app/routing/models.py], [provider.py] and [service.py].  [route]
    scores the candidates of a [RouteProvider]; [plan] asks a [PathFinder] for
    one path per objective, scores the distinct ones and recommends the best.
    The finder is used through its contract ([PathFinderLaws]); SHA-256 is a
    parameter.  Snapshots hold two-place decimals, which is how they print. *)

From S2P Require Import Prelude Decimal RoadNetwork.

Local Open Scope Z_scope.
Local Open Scope list_scope.

(** ** Data *)
Record RouteScoreComponents := {
  normalized_minutes : Q;
  normalized_distance : Q;
  normalized_risk : Q;
  time_penalty : Q;
  distance_penalty : Q;
  route_risk_penalty : Q;
}.

Record RouteCandidate := {
  route_id : string;
  route_name : string;
  rc_distance_km : Q;
  rc_estimated_minutes : Z;
  rc_risk_level : string;
  available : bool;
  rc_reason : option string;
  rc_score : Q;
  rc_node_ids : list string;
  rc_edge_ids : list string;
  rc_objective : option string;
  algorithm_version : option string;
  road_network_version : option Z;
  rc_visited_node_count : option Z;
  rc_risk_cost : option Q;
  scoring_formula : option string;
  rc_score_components : option RouteScoreComponents;
}.

Record RoutePlanningContext := {
  order_id : Z;
  order_no : string;
  cargo_weight_kg : Q;
  cargo_type : string;
  origin_node_id : string;
  destination_node_id : string;
  current_vehicle_id : string;
  current_driver_id : option string;
  incident_node_id : option string;
  affected_edge_ids : list string;
  context_network_version : Z;
  original_vehicle_weight_tons : Q;
  active_vehicle_weight_tons : Q;
}.

(** [SandtableTaskContext] differs in having a single vehicle weight. *)
Record SandtableTaskContext := {
  st_order_id : Z;
  st_order_no : string;
  st_cargo_weight_kg : Q;
  st_cargo_type : string;
  st_origin_node_id : string;
  st_destination_node_id : string;
  st_current_vehicle_id : string;
  st_current_driver_id : option string;
  st_incident_node_id : option string;
  st_affected_edge_ids : list string;
  st_network_version : Z;
  st_vehicle_weight_tons : Q;
}.

Definition planning_context : Type := RoutePlanningContext + SandtableTaskContext.

Record NodeState := {
  ns_node_id : string; ns_name : string; ns_x_km : string; ns_y_km : string; ns_node_type : string;
}.
Record EdgeState := {
  es_edge_id : string; es_name : string; es_from_node_id : string; es_to_node_id : string;
  es_distance_km : string; es_base_minutes : Z; es_road_level : string; es_risk_level : string;
  es_status : string; es_congestion_factor : string; es_weight_limit_tons : string;
  es_bidirectional : bool; es_version : Z;
}.

Record RoutingResult := {
  candidate_routes : list RouteCandidate;
  recommended_route : option string;
  decision : string;
  decision_reason : string;
  memory_adopted : bool;
  adopted_memory_id : option string;
  routing_status : string;
  requires_manual_review : bool;
  original_path : option PathResult;
  recommended_path : option PathResult;
  blocked_edge_ids : list string;
  result_network_version : option Z;
  road_network_nodes : list NodeState;
  road_network_edges : list EdgeState;
}.

(** The fields of a recalled memory the service reads. *)
Record MemoryRecall := {
  memory_id : string;
  similarity_score : Q;
  historical_resolution : string;
}.

(** ** Route providers *)
Record RouteProvider := {
  get_candidates : list RouteCandidate;
  resolve_route_reference : string -> option string;
}.

Definition catalog_route (i name : string) (km : Q) (minutes : Z) (risk : string) : RouteCandidate :=
  {| route_id := i; route_name := name; rc_distance_km := km; rc_estimated_minutes := minutes;
     rc_risk_level := risk; available := true; rc_reason := None; rc_score := 0;
     rc_node_ids := []; rc_edge_ids := []; rc_objective := None; algorithm_version := None;
     road_network_version := None; rc_visited_node_count := None; rc_risk_cost := None;
     scoring_formula := None; rc_score_components := None |}.

(** [InMemoryRouteProvider]: the first reference whose name occurs in the text. *)
Definition InMemoryRouteProvider (cs : list RouteCandidate) (references : list (string * string)) : RouteProvider :=
  {| get_candidates := cs;
     resolve_route_reference := fun reference =>
       snd <$> List.find (fun nr => contains nr.1 reference) references |}.

Definition default_catalog : RouteProvider :=
  InMemoryRouteProvider
    [catalog_route "xinping-road" "新平路" 10 20 "low";
     catalog_route "national-102" "102国道" 13 26 "low";
     catalog_route "county-308" "308县道" 15 30 "medium"]
    [("新平路", "xinping-road"); ("102国道", "national-102"); ("308县道", "county-308")]%string.

(** ** route: the fixed catalogue *)
Definition manual_review (cs : list RouteCandidate) (why routing : string) : RoutingResult :=
  {| candidate_routes := cs; recommended_route := None; decision := "MANUAL_REVIEW"; decision_reason := why;
     memory_adopted := false; adopted_memory_id := None; routing_status := routing; requires_manual_review := true;
     original_path := None; recommended_path := None; blocked_edge_ids := []; result_network_version := None;
     road_network_nodes := []; road_network_edges := [] |}.

(** [replace(candidate, ...)] of the fields scoring changes. *)
Definition rescored (c : RouteCandidate) (risk : string) (avail : bool) (why : option string) (s : Q) : RouteCandidate :=
  {| route_id := route_id c; route_name := route_name c; rc_distance_km := rc_distance_km c;
     rc_estimated_minutes := rc_estimated_minutes c; rc_risk_level := risk; available := avail;
     rc_reason := why; rc_score := s; rc_node_ids := rc_node_ids c; rc_edge_ids := rc_edge_ids c;
     rc_objective := rc_objective c; algorithm_version := algorithm_version c;
     road_network_version := road_network_version c; rc_visited_node_count := rc_visited_node_count c;
     rc_risk_cost := rc_risk_cost c; scoring_formula := scoring_formula c;
     rc_score_components := rc_score_components c |}.

Definition unsafe_current (c : RouteCandidate) (current_route_id road_condition : string) : bool :=
  String.eqb (route_id c) current_route_id && one_of road_condition ["slippery"; "closed"].

Definition score_route (current_route_id road_condition environment_risk : string) (memory_route : option string)
    (capacity_status : string) (c : RouteCandidate) : RouteCandidate :=
  if unsafe_current c current_route_id road_condition then
    rescored c (if String.eqb road_condition "slippery" then "high" else "critical") false
      (Some "Current route is unsafe for the reported road condition.") (-1000)
  else
    let s := dec_sub (dec_sub 100 (dec_mul (rc_distance_km c) 2))
                     (dec_mul (inject_Z (rc_estimated_minutes c)) (1 # 10)) in
    let s := if one_of environment_risk ["high"; "critical"] && one_of (rc_risk_level c) ["medium"; "high"]
             then dec_sub s 15 else s in
    let s := if bool_decide (memory_route = Some (route_id c)) then dec_add s 30 else s in
    let s := if String.eqb capacity_status "LIMITED" then dec_sub s 5 else s in
    rescored c (rc_risk_level c) (available c) (rc_reason c) s.

Definition memory_route_of (provider : RouteProvider) (threshold : Q) (memory : option MemoryRecall) : option string :=
  match memory with
  | None => None
  | Some m => if py_lt (similarity_score m) threshold then None
              else resolve_route_reference provider (historical_resolution m)
  end.

Definition route_reason (r : RouteCandidate) (road_condition environment_risk capacity_status : string)
    (memory : option MemoryRecall) : string :=
  let base := "Road condition is " +:+ road_condition +:+ " with " +:+ environment_risk
              +:+ " environmental risk; capacity status is " +:+ capacity_status +:+ "." in
  match memory with
  | None => base +:+ " Recommended " +:+ route_name r +:+ " by deterministic safety and distance score."
  | Some m =>
      base +:+ " Recalled historical memory " +:+ memory_id m +:+ " at similarity "
      +:+ format_fixed 2 (similarity_score m) +:+ "; " +:+ historical_resolution m
      +:+ ". Recommended " +:+ route_name r +:+ "."
  end.

Definition route (provider : option RouteProvider) (memory_adoption_threshold : Q)
    (current_route_id : string) (memory_results : list MemoryRecall)
    (weather road_condition environment_risk capacity_status : string) : RoutingResult :=
  if one_of capacity_status ["UNAVAILABLE"; "UNKNOWN"] then
    manual_review [] ("Capacity status is " +:+ capacity_status +:+ "; manual review is required.") "MANUAL_REVIEW"
  else match provider with
  | None => manual_review [] "No route provider is configured." "MANUAL_REVIEW"
  | Some p =>
      let memory := head memory_results in
      let memory_route := memory_route_of p memory_adoption_threshold memory in
      let cs := sorted_key_desc rc_score
        (map (score_route current_route_id road_condition environment_risk memory_route capacity_status) (get_candidates p)) in
      match List.find available cs with
      | None => manual_review cs "No safe route is currently available." "NO_SAFE_ROUTE"
      | Some recommended =>
          let adopted := match memory with
                         | Some _ => bool_decide (memory_route = Some (route_id recommended)) && available recommended
                         | None => false
                         end in
          {| candidate_routes := cs; recommended_route := Some (route_id recommended);
             decision := if String.eqb (route_id recommended) current_route_id then "KEEP_ROUTE" else "REROUTE";
             decision_reason := route_reason recommended road_condition environment_risk capacity_status
                                  (if adopted then memory else None);
             memory_adopted := adopted; adopted_memory_id := if adopted then memory_id <$> memory else None;
             routing_status := "ROUTED"; requires_manual_review := false;
             original_path := None; recommended_path := None; blocked_edge_ids := [];
             result_network_version := None; road_network_nodes := []; road_network_edges := [] |}
      end
  end.

(** ** plan: paths over the road network *)
Definition route_risk_level (risk : Q) : string :=
  if Qle_bool 12 risk then "high" else if py_lt 0%Q risk then "medium" else "low".

Definition nodes_to_state (s : RoadNetworkSnapshot) : list NodeState :=
  map (fun n => {| ns_node_id := node_id n; ns_name := node_name n; ns_x_km := format_fixed 2 (x_km n);
                   ns_y_km := format_fixed 2 (y_km n); ns_node_type := node_type n |}) (nodes s).

Definition edges_to_state (s : RoadNetworkSnapshot) : list EdgeState :=
  map (fun e => {| es_edge_id := edge_id e; es_name := edge_name e; es_from_node_id := from_node_id e;
                   es_to_node_id := to_node_id e; es_distance_km := format_fixed 2 (distance_km e);
                   es_base_minutes := base_minutes e; es_road_level := road_level e; es_risk_level := risk_level e;
                   es_status := edge_status e; es_congestion_factor := format_fixed 2 (congestion_factor e);
                   es_weight_limit_tons := format_fixed 2 (weight_limit_tons e);
                   es_bidirectional := bidirectional e; es_version := edge_version e |}) (edges s).

(** [replace(edge, status="OPEN")]. *)
Definition reopened (e : RoadEdgeSnapshot) : RoadEdgeSnapshot :=
  {| edge_id := edge_id e; edge_name := edge_name e; from_node_id := from_node_id e; to_node_id := to_node_id e;
     distance_km := distance_km e; base_minutes := base_minutes e; road_level := road_level e;
     risk_level := risk_level e; edge_status := "OPEN"; congestion_factor := congestion_factor e;
     weight_limit_tons := weight_limit_tons e; bidirectional := bidirectional e; edge_version := edge_version e |}.

Definition reopen_edges (blocked : list string) (s : RoadNetworkSnapshot) : RoadNetworkSnapshot :=
  {| network_version := network_version s; nodes := nodes s;
     edges := map (fun e => if one_of (edge_id e) blocked then reopened e else e) (edges s) |}.

(** [max] of a non-empty sequence; the empty one raises [ValueError]. *)
Definition max_of {A} (le : A -> A -> bool) (l : list A) : result A :=
  match l with
  | [] => Err (Exn "ValueError" "max() arg is an empty sequence")
  | x :: l' => Ok (fold_left (fun m y => if le y m then m else y) l' x)
  end.

(** [by_edges.setdefault(path.edge_ids, path)]: the first path of each edge list, in order. *)
Definition by_edges (paths : list PathResult) : list (list string * PathResult) :=
  fold_left (fun acc p => if existsb (fun kv => bool_decide (kv.1 = path_edge_ids p)) acc then acc
                          else acc ++ [(path_edge_ids p, p)]) paths [].

Section planning.
Context `{finder : PathFinder} (sha256_hex : string -> string).

(** [sha256(...).hexdigest()[:16].upper()]; hexadecimal digits are ASCII. *)
Definition planned_route_id (edge_ids : list string) : string :=
  "RTE-" +:+ upper (String.substring 0 16 (sha256_hex (join "|" edge_ids))).

Definition score_components_for (single : bool) (max_minutes : Z) (max_distance max_risk : Q) (p : PathResult)
    : result RouteScoreComponents :=
  m ← (if single then Ok 0%Q else dec_div (inject_Z (estimated_minutes p)) (inject_Z max_minutes));
  d ← (if single then Ok 0%Q else dec_div (path_distance_km p) max_distance);
  r ← (if single then Ok 0%Q else if Qeq_bool max_risk 0 then Ok 0%Q else dec_div (risk_cost p) max_risk);
  Ok {| normalized_minutes := m; normalized_distance := d; normalized_risk := r;
        time_penalty := dec_mul m 45; distance_penalty := dec_mul d 30; route_risk_penalty := dec_mul r 25 |}.

Definition path_score (c : RouteScoreComponents) : Q :=
  dec_sub (dec_sub (dec_sub 100 (time_penalty c)) (distance_penalty c)) (route_risk_penalty c).

Definition path_candidate (version : Z) (p : PathResult) (c : RouteScoreComponents) : RouteCandidate :=
  {| route_id := planned_route_id (path_edge_ids p); route_name := objective_value (objective p) +:+ " route";
     rc_distance_km := path_distance_km p; rc_estimated_minutes := estimated_minutes p;
     rc_risk_level := route_risk_level (risk_cost p); available := true; rc_reason := None;
     rc_score := path_score c; rc_node_ids := path_node_ids p; rc_edge_ids := path_edge_ids p;
     rc_objective := Some (objective_value (objective p)); algorithm_version := Some "DIJKSTRA_V1";
     road_network_version := Some version; rc_visited_node_count := Some (visited_node_count p);
     rc_risk_cost := Some (risk_cost p); scoring_formula := Some "ROUTE_SCORE_V1"; rc_score_components := Some c |}.

Definition score_paths (paths : list PathResult) (version : Z) : result (list RouteCandidate) :=
  max_minutes ← max_of Z.leb (map estimated_minutes paths);
  max_distance ← max_of Qle_bool (map path_distance_km paths);
  max_risk ← max_of Qle_bool (map risk_cost paths);
  map_result (fun p => c ← score_components_for (Nat.eqb (length paths) 1) max_minutes max_distance max_risk p;
                       Ok (path_candidate version p c)) paths.

Definition recommend_key (c : RouteCandidate) : Q * (Z * (Q * list string)) :=
  (dec_neg (rc_score c), (rc_estimated_minutes c, (rc_distance_km c, rc_edge_ids c))).

Definition context_origin (c : planning_context) : string :=
  match c with inl r => origin_node_id r | inr t => st_origin_node_id t end.
Definition context_destination (c : planning_context) : string :=
  match c with inl r => destination_node_id r | inr t => st_destination_node_id t end.
Definition context_incident (c : planning_context) : option string :=
  match c with inl r => incident_node_id r | inr t => st_incident_node_id t end.
Definition original_weight (c : planning_context) : Q :=
  match c with inl r => original_vehicle_weight_tons r | inr t => st_vehicle_weight_tons t end.
Definition active_weight (c : planning_context) : Q :=
  match c with inl r => active_vehicle_weight_tons r | inr t => st_vehicle_weight_tons t end.
Definition plan_start (c : planning_context) : string := or_else (context_incident c) (context_origin c).

(** [tuple(sorted(set(affected_edge_ids)))]. *)
Definition blocked_of (affected : list string) : list string := sorted_key (fun x : string => x) (remove_dups affected).

(** The paths found for the three objectives, in their order. *)
Definition objective_paths (s : RoadNetworkSnapshot) (c : planning_context) (blocked : list string) : result (list PathResult) :=
  found ← map_result (fun o => path_find s (plan_start c) (context_destination c) o (active_weight c) (list_to_set blocked))
            route_objectives;
  Ok (omap (M := list) (fun p : option PathResult => p) found).

Definition planned (cs : list RouteCandidate) (recommended : option RouteCandidate) (dec why status : string) (manual : bool)
    (original recommended_p : option PathResult) (blocked : list string) (s : RoadNetworkSnapshot) : RoutingResult :=
  {| candidate_routes := cs; recommended_route := route_id <$> recommended; decision := dec; decision_reason := why;
     memory_adopted := false; adopted_memory_id := None; routing_status := status; requires_manual_review := manual;
     original_path := original; recommended_path := recommended_p; blocked_edge_ids := blocked;
     result_network_version := Some (network_version s);
     road_network_nodes := nodes_to_state s; road_network_edges := edges_to_state s |}.

(** The part of [plan] after the configuration checks. *)
Definition plan_on (s : RoadNetworkSnapshot) (c : planning_context) (affected : list string) : result RoutingResult :=
  let blocked := blocked_of affected in
  original ← path_find (reopen_edges blocked s) (context_origin c) (context_destination c) FASTEST (original_weight c) ∅;
  paths ← objective_paths s c blocked;
  match by_edges paths with
  | [] =>
      Ok (planned [] None "MANUAL_REVIEW" "No reachable route remains after excluding affected roads."
            "NO_REACHABLE_ROUTE" true original None blocked s)
  | distinct =>
      cs ← score_paths (map snd distinct) (network_version s);
      match min_key recommend_key cs with
      | None => Err (Exn "ValueError" "min() arg is an empty sequence")
      | Some recommended =>
          match List.find (fun kv => bool_decide (kv.1 = rc_edge_ids recommended)) distinct with
          | None => Err (Exn "KeyError" (join "|" (rc_edge_ids recommended)))
          | Some (_, p) =>
              let changed := match original with
                             | Some o => negb (bool_decide (path_edge_ids o = path_edge_ids p))
                             | None => false
                             end in
              Ok (planned cs (Some recommended)
                    (if negb (bool_decide (blocked = [])) || changed then "REROUTE" else "KEEP_ROUTE")
                    "DIJKSTRA_V1 evaluated fastest, shortest, and safest paths using the fixed road-network snapshot."
                    "ROUTED" false original (Some p) blocked s)
          end
      end
  end.

(** [configured]: a path finder is present; [provider]: the road-network
    provider, absent or returning a snapshot. *)
Definition plan (configured : bool) (provider : option (result RoadNetworkSnapshot))
    (c : planning_context) (capacity_status : string) (affected : list string)
    (road_network_snapshot : option RoadNetworkSnapshot) : result RoutingResult :=
  if negb configured || match road_network_snapshot, provider with None, None => true | _, _ => false end then
    Ok (manual_review [] "Road network planning is not configured." "MANUAL_REVIEW")
  else if one_of capacity_status ["UNAVAILABLE"; "UNKNOWN"] then
    Ok (manual_review [] "No vehicle is available for route planning." "MANUAL_REVIEW")
  else
    match road_network_snapshot, provider with
    | Some s, _ => plan_on s c affected
    | None, Some p => s ← p; plan_on s c affected
    | None, None => Err (Exn "AssertionError" "")
    end.
End planning.

(** ** Maxima *)
Lemma max_of_ge {A} (le : A -> A -> bool) l m x :
  (forall a, le a a = true) -> (forall a b, le a b = false -> le b a = true) ->
  (forall a b c, le a b = true -> le b c = true -> le a c = true) ->
  max_of le l = Ok m -> x ∈ l -> le x m = true.
Proof.
  intros Hr Ht Htr. destruct l as [|y l]; [done|]. simpl. intros [= <-] Hx.
  assert (G : forall l acc, le acc (fold_left (fun m y => if le y m then m else y) l acc) = true /\
                (forall x, x ∈ l -> le x (fold_left (fun m y => if le y m then m else y) l acc) = true)).
  { clear x Hx y l. induction l as [|z l IH]; intros acc; simpl; [split; [done|by intros ? ?%not_elem_of_nil]|].
    destruct (IH (if le z acc then acc else z)) as [IH1 IH2]. destruct (le z acc) eqn:E.
    - split; [done|]. intros x [->|Hx]%elem_of_cons; [by apply Htr with acc|auto].
    - split; [by apply Htr with z; [by apply Ht|]|]. intros x [->|Hx]%elem_of_cons; auto. }
  apply elem_of_cons in Hx as [->|Hx]; [apply (proj1 (G l y))|by apply (proj2 (G l y))].
Qed.

Lemma max_of_Z l m x : max_of Z.leb l = Ok m -> x ∈ l -> x <= m.
Proof.
  intros H Hx. apply Z.leb_le. apply (max_of_ge Z.leb l); try done; intros; rewrite ?Z.leb_le, ?Z.leb_gt in *; lia.
Qed.

Lemma Qle_bool_false a b : Qle_bool a b = false -> (b < a)%Q.
Proof. intros H. apply Qnot_le_lt. rewrite <- Qle_bool_iff. congruence. Qed.

Lemma max_of_Q l m x : max_of Qle_bool l = Ok m -> x ∈ l -> (x <= m)%Q.
Proof.
  intros H Hx. apply Qle_bool_iff. apply (max_of_ge Qle_bool l); try done; intros.
  - apply Qle_bool_iff, Qle_refl.
  - apply Qle_bool_iff. apply Qle_bool_false in H0. lra.
  - apply Qle_bool_iff. rewrite Qle_bool_iff in *. lra.
Qed.

(** ** Distinct paths *)
Lemma by_edges_elem paths kv : kv ∈ by_edges paths -> kv.2 ∈ paths /\ kv.1 = path_edge_ids kv.2.
Proof.
  unfold by_edges. assert (G : forall acc, (forall kv, kv ∈ acc -> kv.1 = path_edge_ids kv.2) ->
    forall kv, kv ∈ fold_left (fun acc p => if existsb (fun kv => bool_decide (kv.1 = path_edge_ids p)) acc then acc
                          else acc ++ [(path_edge_ids p, p)]) paths acc ->
      (kv ∈ acc \/ kv.2 ∈ paths) /\ kv.1 = path_edge_ids kv.2).
  { clear kv. induction paths as [|p paths IH]; intros acc Hacc kv Hkv; simpl in Hkv; [auto|].
    apply IH in Hkv; clear IH.
    - destruct Hkv as [[Hk|Hk] E]; [|split; [right; by right|done]].
      destruct (existsb _ _) in Hk; [split; [by left|done]|].
      apply elem_of_app in Hk as [Hk|Hk%elem_of_one]; [split; [by left|done]|]. subst. split; [right; left|done].
    - destruct (existsb _ _); [done|]. intros kv' [H|H%elem_of_one]%elem_of_app; [auto|by subst]. }
  intros Hkv. apply G in Hkv as [[C|?] ?]; [by apply not_elem_of_nil in C|done|by intros ? ?%not_elem_of_nil].
Qed.

Lemma by_edges_nil paths : by_edges paths = [] -> paths = [].
Proof.
  destruct paths as [|p paths]; [done|]. unfold by_edges. simpl.
  assert (G : forall acc, acc <> [] -> fold_left (fun acc p => if existsb (fun kv : list string * PathResult => bool_decide (kv.1 = path_edge_ids p)) acc then acc
                          else acc ++ [(path_edge_ids p, p)]) paths acc <> []).
  { induction paths as [|q paths IH]; intros acc Hacc; simpl; [done|]. apply IH.
    destruct (existsb _ _); [done|]. by destruct acc. }
  intros E. exfalso. by apply (G [(path_edge_ids p, p)]).
Qed.

(** ** The plan, inverted *)

(** The snapshot [plan] works on: the explicit one, else the provider's. *)
Definition plan_snapshot (provider : option (result RoadNetworkSnapshot)) (given : option RoadNetworkSnapshot)
    (s : RoadNetworkSnapshot) : Prop :=
  given = Some s \/ (given = None /\ provider = Some (Ok s)).

Section plan_facts.
Context `{finder : PathFinder} (sha256_hex : string -> string).

Lemma plan_inv configured provider c cap affected given r :
  plan sha256_hex configured provider c cap affected given = Ok r -> routing_status r <> "MANUAL_REVIEW"%string ->
  exists s, plan_snapshot provider given s /\ plan_on sha256_hex s c affected = Ok r.
Proof.
  unfold plan. intros H Hst. destruct (negb configured || _) in H; [results; done|].
  destruct (one_of cap _); [results; done|].
  destruct given as [s|]; [exists s; split; [by left|done]|]. destruct provider as [p|]; [|done].
  apply result_bind_ok in H as (s & -> & H). exists s. split; [by right|done].
Qed.

Lemma objective_paths_elem s c blocked paths p :
  objective_paths s c blocked = Ok paths -> p ∈ paths ->
  exists o, path_find s (plan_start c) (context_destination c) o (active_weight c) (list_to_set blocked) = Ok (Some p).
Proof.
  unfold objective_paths. intros H Hp. apply result_bind_ok in H as (found & Hf & H). results.
  apply list_elem_of_omap in Hp as (x & Hx & ->).
  destruct (map_result_elem _ _ _ _ Hf Hx) as (o & _ & Ho). eauto.
Qed.

Lemma route_objectives_all o : o ∈ route_objectives.
Proof. destruct o; [left|right; left|do 2 right; left]. Qed.

Lemma objective_paths_nil s c blocked o :
  objective_paths s c blocked = Ok [] ->
  path_find s (plan_start c) (context_destination c) o (active_weight c) (list_to_set blocked) = Ok None.
Proof.
  unfold objective_paths. intros H. apply result_bind_ok in H as (found & Hf & H). results.
  destruct (map_result_elem_l _ _ _ _ Hf (route_objectives_all o)) as ([p|] & Hin & ->); [|done].
  assert (C : p ∈ omap (M := list) (fun p : option PathResult => p) found) by (apply list_elem_of_omap; eauto).
  rewrite H in C. by apply not_elem_of_nil in C.
Qed.

Lemma score_paths_inv paths v cs :
  score_paths sha256_hex paths v = Ok cs ->
  exists mm md mr, max_of Z.leb (map estimated_minutes paths) = Ok mm /\
    max_of Qle_bool (map path_distance_km paths) = Ok md /\ max_of Qle_bool (map risk_cost paths) = Ok mr /\
    Forall2 (fun p x => exists comps, score_components_for (Nat.eqb (length paths) 1) mm md mr p = Ok comps /\
                          x = path_candidate sha256_hex v p comps) paths cs.
Proof.
  unfold score_paths. intros H. apply result_bind_ok in H as (mm & H1 & H). apply result_bind_ok in H as (md & H2 & H).
  apply result_bind_ok in H as (mr & H3 & H). exists mm, md, mr. split_and!; try done.
  apply map_result_Forall2 in H. eapply Forall2_impl; [exact H|]. simpl. intros p x Hx.
  apply result_bind_ok in Hx as (comps & Hc & Hx). results. eauto.
Qed.

Lemma score_paths_elem paths v cs x :
  score_paths sha256_hex paths v = Ok cs -> x ∈ cs ->
  exists p comps, p ∈ paths /\ x = path_candidate sha256_hex v p comps.
Proof.
  intros (mm & md & mr & _ & _ & _ & H)%score_paths_inv Hx. apply list_elem_of_lookup in Hx as [i Hi].
  destruct (Forall2_lookup_r _ _ _ _ _ H Hi) as (p & Hp & comps & _ & ->).
  exists p, comps. split; [by eapply list_elem_of_lookup_2|done].
Qed.

(** What a [ROUTED] plan is made of. *)
Lemma plan_on_routed s c affected r :
  plan_on sha256_hex s c affected = Ok r -> routing_status r = "ROUTED"%string ->
  exists paths cs rec p, objective_paths s c (blocked_of affected) = Ok paths /\
    score_paths sha256_hex (map snd (by_edges paths)) (network_version s) = Ok cs /\
    min_key recommend_key cs = Some rec /\ p ∈ paths /\ path_edge_ids p = rc_edge_ids rec /\
    candidate_routes r = cs /\ recommended_route r = Some (route_id rec) /\ recommended_path r = Some p /\
    blocked_edge_ids r = blocked_of affected /\ requires_manual_review r = false.
Proof.
  unfold plan_on. intros H Hst. apply result_bind_ok in H as (orig & _ & H).
  apply result_bind_ok in H as (paths & Hp & H). destruct (by_edges paths) as [|kv l] eqn:Eb; [results; done|].
  apply result_bind_ok in H as (cs & Hc & H). destruct (min_key recommend_key cs) as [rec|] eqn:Em; [|done].
  destruct (List.find _ (kv :: l)) as [[k p]|] eqn:Ef; [|done]. results.
  apply List.find_some in Ef as [Hin Hk]. apply bool_decide_eq_true in Hk. simpl in Hk. subst k.
  apply list_elem_of_In in Hin. rewrite <- Eb in Hin. apply by_edges_elem in Hin as [Hin Ek]. simpl in Hin, Ek.
  exists paths, cs, rec, p. rewrite Eb. by split_and!.
Qed.

Lemma plan_on_unreachable s c affected r :
  plan_on sha256_hex s c affected = Ok r -> routing_status r = "NO_REACHABLE_ROUTE"%string ->
  objective_paths s c (blocked_of affected) = Ok [].
Proof.
  unfold plan_on. intros H Hst. apply result_bind_ok in H as (orig & _ & H).
  apply result_bind_ok in H as (paths & Hp & H). destruct (by_edges paths) as [|kv l] eqn:Eb.
  - by rewrite (by_edges_nil paths Eb) in Hp.
  - apply result_bind_ok in H as (cs & Hc & H). destruct (min_key recommend_key cs); [|done].
    destruct (List.find _ (kv :: l)) as [[k p]|]; [|done]. by results.
Qed.

Lemma blocked_of_elem affected i : i ∈ blocked_of affected <-> i ∈ affected.
Proof. unfold blocked_of. by rewrite sorted_key_perm, elem_of_remove_dups. Qed.

(** ** Scores *)
Lemma score_components_unit paths mm md mr p comps :
  (forall q, q ∈ paths -> 0 <= estimated_minutes q /\ (0 <= path_distance_km q)%Q /\ (0 <= risk_cost q)%Q) ->
  max_of Z.leb (map estimated_minutes paths) = Ok mm -> max_of Qle_bool (map path_distance_km paths) = Ok md ->
  max_of Qle_bool (map risk_cost paths) = Ok mr -> p ∈ paths ->
  score_components_for (Nat.eqb (length paths) 1) mm md mr p = Ok comps ->
  (0 <= time_penalty comps /\ time_penalty comps <= 45)%Q /\
  (0 <= distance_penalty comps /\ distance_penalty comps <= 30)%Q /\
  (0 <= route_risk_penalty comps /\ route_risk_penalty comps <= 25)%Q.
Proof.
  intros Hn Hm Hd Hr Hp H. destruct (Hn p Hp) as (P1 & P2 & P3).
  pose proof (max_of_Z _ _ _ Hm (list_elem_of_fmap_2 _ _ _ Hp)) as Bm.
  pose proof (max_of_Q _ _ _ Hd (list_elem_of_fmap_2 _ _ _ Hp)) as Bd.
  pose proof (max_of_Q _ _ _ Hr (list_elem_of_fmap_2 _ _ _ Hp)) as Br.
  unfold score_components_for in H. apply result_bind_ok in H as (m & H1 & H).
  apply result_bind_ok in H as (d & H2 & H). apply result_bind_ok in H as (k & H3 & H). results.
  cbn [time_penalty distance_penalty route_risk_penalty].
  assert (U0 : (0 <= 0 /\ 0 <= 1)%Q) by lra.
  assert (Um : (0 <= m /\ m <= 1)%Q).
  { destruct (Nat.eqb (length paths) 1); [by results|]. rewrite (Zle_Qle 0) in P1. rewrite Zle_Qle in Bm.
    exact (dec_div_unit _ _ _ P1 Bm H1). }
  assert (Ud : (0 <= d /\ d <= 1)%Q).
  { destruct (Nat.eqb (length paths) 1); [by results|]. exact (dec_div_unit _ _ _ P2 Bd H2). }
  assert (Uk : (0 <= k /\ k <= 1)%Q).
  { destruct (Nat.eqb (length paths) 1); [by results|]. destruct (Qeq_bool mr 0); [by results|].
    exact (dec_div_unit _ _ _ P3 Br H3). }
  split; [|split]; apply dec_mul_unit; try done; by apply is_dec_Z.
Qed.

Lemma path_score_bounds comps :
  (0 <= time_penalty comps /\ time_penalty comps <= 45)%Q ->
  (0 <= distance_penalty comps /\ distance_penalty comps <= 30)%Q ->
  (0 <= route_risk_penalty comps /\ route_risk_penalty comps <= 25)%Q ->
  (0 <= path_score comps /\ path_score comps <= 100)%Q.
Proof.
  intros T D R. unfold path_score.
  assert (T' : (55 <= dec_sub 100 (time_penalty comps) /\ dec_sub 100 (time_penalty comps) <= 100)%Q).
  { split; [apply dec_sub_ge; [by apply (is_dec_Z 55)|lra]|apply dec_sub_le; [by apply (is_dec_Z 100)|lra]]. }
  set (t := dec_sub 100 (time_penalty comps)) in *.
  assert (D' : (25 <= dec_sub t (distance_penalty comps) /\ dec_sub t (distance_penalty comps) <= 100)%Q).
  { split; [apply dec_sub_ge; [by apply (is_dec_Z 25)|lra]|apply dec_sub_le; [by apply (is_dec_Z 100)|lra]]. }
  set (d := dec_sub t (distance_penalty comps)) in *.
  split; [apply dec_sub_ge; [apply is_dec_0|lra]|apply dec_sub_le; [by apply (is_dec_Z 100)|lra]].
Qed.
End plan_facts.

(** ** The fixed catalogue *)
Lemma score_route_unsafe cur road env mem cap c :
  route_id (score_route cur road env mem cap c) = route_id c /\
  (available (score_route cur road env mem cap c) = true ->
   available c = true /\ ~ (route_id c = cur /\ road ∈ ["slippery"; "closed"]%string)).
Proof.
  unfold score_route. destruct (unsafe_current c cur road) eqn:U; [done|]. split; [done|]. intros Ha. split; [done|].
  intros [E Hin%one_of_true]. unfold unsafe_current in U. by rewrite E, String.eqb_refl, Hin in U.
Qed.

Lemma route_recommended_inv p thr cur mems weather road env cap i :
  recommended_route (route (Some p) thr cur mems weather road env cap) = Some i ->
  one_of cap ["UNAVAILABLE"; "UNKNOWN"] = false /\
  let cs := candidate_routes (route (Some p) thr cur mems weather road env cap) in
  exists c mem, List.find available cs = Some c /\ route_id c = i /\
    cs = sorted_key_desc rc_score (map (score_route cur road env mem cap) (get_candidates p)) /\
    requires_manual_review (route (Some p) thr cur mems weather road env cap) = false /\
    decision (route (Some p) thr cur mems weather road env cap) = (if String.eqb i cur then "KEEP_ROUTE" else "REROUTE")%string.
Proof.
  unfold route. destruct (one_of cap _); [done|]. intros H. split; [done|].
  set (mem := memory_route_of p thr (head mems)) in *.
  set (cs := sorted_key_desc rc_score (map (score_route cur road env mem cap) (get_candidates p))) in *.
  destruct (List.find available cs) as [c|] eqn:Ef; [|done]. cbn in H. results.
  exists c, mem. by split_and!.
Qed.

(** ** Theorems *)

(** C29: a routed plan recommends a path from the incident (or origin) to the
    destination that uses none of the affected edges and only edges of the
    snapshot that are open and strong enough for the active vehicle. *)
Theorem plan_recommended_path_safe `{PathFinderLaws} sha configured provider c cap affected given r :
  plan sha configured provider c cap affected given = Ok r -> routing_status r = "ROUTED"%string ->
  exists s p, plan_snapshot provider given s /\ recommended_path r = Some p /\
    head (path_node_ids p) = Some (plan_start c) /\ last (path_node_ids p) = Some (context_destination c) /\
    forall i, i ∈ path_edge_ids p -> (i ∉ affected) /\
      exists e, e ∈ edges s /\ edge_id e = i /\ edge_status e <> "BLOCKED"%string /\
        (active_weight c <= weight_limit_tons e)%Q.
Proof.
  intros H1 Hst. destruct (plan_inv _ _ _ _ _ _ _ _ H1) as (s & Hs & Hon); [congruence|].
  destruct (plan_on_routed _ _ _ _ _ Hon Hst) as (paths & cs & rec & p & Hp & _ & _ & Hin & _ & _ & _ & Hrp & _).
  destruct (objective_paths_elem _ _ _ _ _ Hp Hin) as (o & Ho).
  destruct (pf_ends _ _ _ _ _ _ _ Ho) as [Hh Hl]. exists s, p. split_and!; try done.
  intros i Hi. destruct (pf_available _ _ _ _ _ _ _ _ Ho Hi) as (e & He & Ei & Ha).
  unfold is_available in Ha. results. apply bool_decide_eq_false in H2.
  rewrite elem_of_list_to_set, blocked_of_elem, Ei in H2. split; [done|]. exists e.
  split_and!; [done|done|by apply String.eqb_neq|by apply Qle_bool_iff].
Qed.

(** the recommended route is the first candidate by (score descending,
    minutes, distance, edges): no candidate scores higher, and an equal score
    does not come with fewer minutes. *)
Theorem plan_recommends_best `{PathFinder} sha configured provider c cap affected given r :
  plan sha configured provider c cap affected given = Ok r -> routing_status r = "ROUTED"%string ->
  exists best, best ∈ candidate_routes r /\ recommended_route r = Some (route_id best) /\
    (path_edge_ids <$> recommended_path r) = Some (rc_edge_ids best) /\
    forall x, x ∈ candidate_routes r ->
      (rc_score x <= rc_score best)%Q /\
      ((rc_score x == rc_score best)%Q -> rc_estimated_minutes best <= rc_estimated_minutes x).
Proof.
  intros H1 Hst. destruct (plan_inv _ _ _ _ _ _ _ _ H1) as (s & Hs & Hon); [congruence|].
  destruct (plan_on_routed _ _ _ _ _ Hon Hst) as (paths & cs & best & p & _ & Hc & Hmin & _ & He & -> & -> & -> & _).
  exists best. split_and!; [by apply min_key_elem in Hmin|done|simpl; by rewrite He|].
  assert (Hdec : forall x, x ∈ cs -> is_dec (rc_score x)).
  { intros x Hx. destruct (score_paths_elem _ _ _ _ _ Hc Hx) as (q & comps & _ & ->). apply dec_ctx_is_dec. }
  intros x Hx. pose proof (Hdec x Hx) as Dx. pose proof (Hdec best (min_key_elem _ _ _ Hmin)) as Db.
  pose proof (min_key_le recommend_key cs best x Hmin Hx) as Hle.
  unfold py_le, recommend_key in Hle. rewrite !pycmp_pair in Hle. unfold pycmp at 1, q_cmp in Hle. split.
  - apply dec_neg_le; [done..|]. destruct (Qcompare_spec (dec_neg (rc_score best)) (dec_neg (rc_score x))); [lra|lra|done].
  - intros E. assert (En : (dec_neg (rc_score best) == dec_neg (rc_score x))%Q) by (unfold dec_neg; by rewrite E).
    apply Qeq_alt in En. rewrite En in Hle. unfold pycmp at 1, z_cmp in Hle.
    destruct (Z.compare_spec (rc_estimated_minutes best) (rc_estimated_minutes x)); [lia|lia|done].
Qed.

(** every planned score lies between 0 and 100. *)
Theorem plan_scores_bounded `{PathFinderLaws} sha configured provider c cap affected given r :
  (forall s, plan_snapshot provider given s -> network_ok s) ->
  plan sha configured provider c cap affected given = Ok r -> routing_status r = "ROUTED"%string ->
  forall x, x ∈ candidate_routes r -> (0 <= rc_score x /\ rc_score x <= 100)%Q.
Proof.
  intros Hok H1 Hst. destruct (plan_inv _ _ _ _ _ _ _ _ H1) as (s & Hs & Hon); [congruence|].
  destruct (plan_on_routed _ _ _ _ _ Hon Hst) as (paths & cs & best & p & Hp & Hc & _ & _ & _ & -> & _).
  intros x Hx. apply score_paths_inv in Hc as (mm & md & mr & Hm & Hd & Hr & Hall).
  apply list_elem_of_lookup in Hx as [i Hi].
  destruct (Forall2_lookup_r _ _ _ _ _ Hall Hi) as (q & Hq & comps & Hcomps & ->).
  apply list_elem_of_lookup_2 in Hq.
  destruct (score_components_unit (map snd (by_edges paths)) mm md mr q comps) as (T & D & R); try done.
  - intros q' (kv & -> & Hkv)%list_elem_of_fmap. apply by_edges_elem in Hkv as [Hin _].
    destruct (objective_paths_elem _ _ _ _ _ Hp Hin) as (o & Ho). by apply (pf_nonneg _ _ _ _ _ _ _ (Hok s Hs) Ho).
  - by apply path_score_bounds.
Qed.

(** when the plan finds no reachable route between two nodes of the snapshot,
    no walk exists over the roads left after excluding the affected ones, for
    any objective. *)
Theorem plan_unreachable `{PathFinderLaws} sha configured provider c cap affected given r s o x es :
  plan sha configured provider c cap affected given = Ok r -> routing_status r = "NO_REACHABLE_ROUTE"%string ->
  plan_snapshot provider given s -> network_ok s ->
  has_node s (plan_start c) = true -> has_node s (context_destination c) = true ->
  Walk (arcs s (active_weight c) (list_to_set affected)) o (plan_start c) x es ->
  entry_node x <> context_destination c.
Proof.
  intros H1 Hst Hs Hok Ha Hb Hw. destruct (plan_inv _ _ _ _ _ _ _ _ H1) as (s' & Hs' & Hon); [congruence|].
  assert (s' = s) as ->.
  { destruct Hs as [E|[E1 E2]], Hs' as [E'|[E1' E2']]; congruence. }
  apply plan_on_unreachable in Hon; [|done]. apply (objective_paths_nil _ _ _ o) in Hon.
  assert (Eset : list_to_set (C := gset string) (blocked_of affected) = list_to_set affected).
  { apply set_eq. intros i. by rewrite !elem_of_list_to_set, blocked_of_elem. }
  rewrite Eset in Hon. by apply (pf_none _ _ _ _ _ _ _ _ Hok Ha Hb Hon Hw).
Qed.

(** the catalogue recommends an available candidate of the highest score
    among the available ones, keeps or changes the route accordingly, and never
    recommends the current route on a slippery or closed road. *)
Theorem route_recommends_available p thr cur mems weather road env cap i :
  recommended_route (route (Some p) thr cur mems weather road env cap) = Some i ->
  let r := route (Some p) thr cur mems weather road env cap in
  (cap ∉ ["UNAVAILABLE"; "UNKNOWN"]%string) /\
  (exists c, c ∈ candidate_routes r /\ route_id c = i /\ available c = true /\
     forall c', c' ∈ candidate_routes r -> available c' = true -> (rc_score c' <= rc_score c)%Q) /\
  (exists c, c ∈ get_candidates p /\ route_id c = i /\ available c = true) /\
  ~ (i = cur /\ road ∈ ["slippery"; "closed"]%string) /\
  decision r = (if String.eqb i cur then "KEEP_ROUTE" else "REROUTE")%string /\ requires_manual_review r = false.
Proof.
  intros (Hcap & c & mem & Hf & Hi & Hcs & Hman & Hdec)%route_recommended_inv r. fold r in Hf, Hcs, Hman, Hdec.
  pose proof (List.find_some _ _ Hf) as [Hin Hav]. apply list_elem_of_In in Hin.
  assert (Horig : exists c0, c0 ∈ get_candidates p /\ c = score_route cur road env mem cap c0).
  { rewrite Hcs in Hin. rewrite sorted_key_desc_perm in Hin. apply list_elem_of_fmap in Hin as (c0 & -> & ?). eauto. }
  destruct Horig as (c0 & Hc0 & Ec). destruct (score_route_unsafe cur road env mem cap c0) as [Eid Hsafe].
  rewrite <- Ec in Eid, Hsafe. destruct (Hsafe Hav) as [Hav0 Hns].
  split_and!; try done.
  - by apply one_of_false.
  - exists c. split_and!; try done. intros c' Hc' Hav'.
    pose proof (sorted_find_first (fun x y => py_le (rc_score y) (rc_score x) = true) available (candidate_routes r) c c') as G.
    assert (Hle : py_le (rc_score c') (rc_score c) = true).
    { apply G; try done; [intros; apply py_le_refl|rewrite Hcs; apply sorted_key_desc_sorted]. }
    unfold py_le, pycmp, q_cmp in Hle. destruct (Qcompare_spec (rc_score c') (rc_score c)); [lra|lra|done].
  - exists c0. split_and!; [done|congruence|done].
  - rewrite <- Hi, Eid. done.
Qed.

(** ** Witnesses *)
Definition ex_context (incident : option string) (dest : string) : planning_context :=
  inr {| st_order_id := 7; st_order_no := "O-7"; st_cargo_weight_kg := 400; st_cargo_type := "GENERAL";
         st_origin_node_id := "A"; st_destination_node_id := dest; st_current_vehicle_id := "V1";
         st_current_driver_id := Some "D1"%string; st_incident_node_id := incident; st_affected_edge_ids := [];
         st_network_version := 3; st_vehicle_weight_tons := 10 |}.
Definition ex_digest (s : string) : string := "00ff00ff00ff00ff" +:+ s.
Definition ex_plan (dest : string) (affected : list string) : result RoutingResult :=
  plan ex_digest true (Some (Ok ex_network)) (ex_context None dest) "AVAILABLE" affected None.

Lemma ex_snapshot s : plan_snapshot (Some (Ok ex_network)) None s -> s = ex_network.
Proof. intros [C|[_ E]]; [discriminate C|by injection E]. Qed.

(** Both distinct paths are scored; closing one side forces the other. *)
Example ex_plan_runs :
  (r ← ex_plan "D" []; Ok (routing_status r, decision r, rc_edge_ids <$> candidate_routes r, path_edge_ids <$> recommended_path r))
    = Ok ("ROUTED", "KEEP_ROUTE", [["E3"; "E4"]; ["E1"; "E2"]], Some ["E3"; "E4"])%string /\
  (r ← ex_plan "D" ["E3"]; Ok (routing_status r, decision r, path_edge_ids <$> recommended_path r))
    = Ok ("ROUTED", "REROUTE", Some ["E1"; "E2"])%string /\
  (r ← ex_plan "E" ["E3"]; Ok (routing_status r)) = Ok "NO_REACHABLE_ROUTE"%string.
Proof. vm_compute. done. Qed.

Example plan_recommended_path_safe_witness :
  exists r p, ex_plan "D" ["E3"%string] = Ok r /\ recommended_path r = Some p /\
    forall i, i ∈ path_edge_ids p -> i ∉ ["E3"%string].
Proof.
  assert (H : exists r, ex_plan "D" ["E3"%string] = Ok r /\ routing_status r = "ROUTED"%string).
  { vm_compute. eexists. split; reflexivity. }
  destruct H as (r & E & S).
  destruct (plan_recommended_path_safe ex_digest true (Some (Ok ex_network)) (ex_context None "D") "AVAILABLE" ["E3"%string] None r E S)
    as (s & p & _ & Hp & _ & _ & Hi).
  exists r, p. exact (conj E (conj Hp (fun i Hin => proj1 (Hi i Hin)))).
Defined.

Example plan_recommends_best_witness :
  exists r best, ex_plan "D" [] = Ok r /\ recommended_route r = Some (route_id best) /\
    forall x, x ∈ candidate_routes r -> (rc_score x <= rc_score best)%Q.
Proof.
  assert (H : exists r, ex_plan "D" [] = Ok r /\ routing_status r = "ROUTED"%string).
  { vm_compute. eexists. split; reflexivity. }
  destruct H as (r & E & S).
  destruct (plan_recommends_best ex_digest true (Some (Ok ex_network)) (ex_context None "D") "AVAILABLE" [] None r E S)
    as (best & _ & Hr & _ & Hb).
  exists r, best. exact (conj E (conj Hr (fun x Hx => proj1 (Hb x Hx)))).
Defined.

Example plan_scores_bounded_witness :
  exists r, ex_plan "D" [] = Ok r /\ forall x, x ∈ candidate_routes r -> (0 <= rc_score x /\ rc_score x <= 100)%Q.
Proof.
  assert (H : exists r, ex_plan "D" [] = Ok r /\ routing_status r = "ROUTED"%string).
  { vm_compute. eexists. split; reflexivity. }
  destruct H as (r & E & S). exists r. split; [exact E|].
  apply (plan_scores_bounded ex_digest true (Some (Ok ex_network)) (ex_context None "D") "AVAILABLE" [] None r); [|exact E|exact S].
  intros s Hs. apply ex_snapshot in Hs as ->. exact ex_network_ok.
Defined.

Example plan_unreachable_witness : entry_node (start_entry "A") <> "E"%string.
Proof.
  assert (H : exists r, ex_plan "E" [] = Ok r /\ routing_status r = "NO_REACHABLE_ROUTE"%string).
  { vm_compute. eexists. split; reflexivity. }
  destruct H as (r & E & S).
  apply (plan_unreachable ex_digest true (Some (Ok ex_network)) (ex_context None "E") "AVAILABLE" [] None r ex_network
    FASTEST (start_entry "A") [] E S).
  - right. split; reflexivity.
  - exact ex_network_ok.
  - reflexivity.
  - reflexivity.
  - constructor.
Defined.

Example route_recommends_available_witness :
  let r := route (Some default_catalog) (8 # 10) "xinping-road" [] "rain" "slippery" "high" "LIMITED" in
  decision r = "REROUTE"%string /\ requires_manual_review r = false.
Proof.
  destruct (route_recommends_available default_catalog (8 # 10) "xinping-road" [] "rain" "slippery" "high" "LIMITED" "national-102")
    as (_ & _ & _ & _ & H1 & H2); [vm_compute; reflexivity|].
  exact (conj H1 H2).
Defined.
