(* ===== verification/Evidence.v ===== *)
(** * Evidence: compaction of the graph state stored with a dispatch

    Models the pure half of [app/dispatch/service.py] (lines 262-544): the
    graph state is untyped Python data, from which the [_compact_*] methods
    build the JSON payloads of [dispatch_evidence].  A [dict] with string keys
    is an association list in insertion order; a float or [Decimal] is carried
    as its [str]; [str] of a container or of bytes is a parameter. *)

From S2P Require Import Prelude.

Local Open Scope Z_scope.
Local Open Scope list_scope.

(** ** Python values *)
Inductive pyval :=
| PNone
| PBool (b : bool)
| PInt (z : Z)
| PFloat (text : string)
| PDecimal (text : string)
| PStr (s : string)
| PBytes (s : string)
| PList (l : list pyval)          (* list or tuple *)
| PDict (d : list (string * pyval)).

Definition pydict : Type := list (string * pyval).

Fixpoint dict_get (d : pydict) (key : string) : option pyval :=
  match d with
  | [] => None
  | (k, v) :: d' => if String.eqb k key then Some v else dict_get d' key
  end.

(** [d.get(key)]. *)
Definition get (d : pydict) (key : string) : pyval := default PNone (dict_get d key).

Definition is_mapping (v : pyval) : option pydict := match v with PDict d => Some d | _ => None end.
(** [isinstance(v, Sequence) and not isinstance(v, str)]; [bytes] is a sequence of integers. *)
Definition sequence_items (v : pyval) : option (list pyval) :=
  match v with
  | PList l => Some l
  | PBytes s => Some (map (fun c => PInt (Z.of_nat (Ascii.nat_of_ascii c))) (String.list_ascii_of_string s))
  | _ => None
  end.
Definition is_none (v : pyval) : bool := match v with PNone => true | _ => false end.

(** What [json.dumps] accepts: everything but [Decimal] and bytes. *)
Fixpoint json_serializable (v : pyval) : bool :=
  match v with
  | PNone | PBool _ | PInt _ | PFloat _ | PStr _ => true
  | PDecimal _ | PBytes _ => false
  | PList l => forallb json_serializable l
  | PDict d => forallb (fun kv => json_serializable kv.2) d
  end.

(** [==] on values.  Floats are compared by their text, and never equal an
    integer: the values compared have come the same way through JSON. *)
Fixpoint py_eq (v w : pyval) {struct v} : bool :=
  match v, w with
  | PNone, PNone => true
  | PBool a, PBool b => Bool.eqb a b
  | PBool a, PInt z | PInt z, PBool a => (if a then 1 else 0) =? z
  | PInt a, PInt b => a =? b
  | PFloat a, PFloat b | PDecimal a, PDecimal b | PStr a, PStr b | PBytes a, PBytes b => String.eqb a b
  | PList l, PList m =>
      (fix go (l m : list pyval) : bool :=
         match l, m with
         | [], [] => true
         | x :: l', y :: m' => py_eq x y && go l' m'
         | _, _ => false
         end) l m
  | PDict d, PDict e =>
      Nat.eqb (length d) (length e)
      && (fix go (d : list (string * pyval)) : bool :=
            match d with
            | [] => true
            | (k, x) :: d' => match dict_get e k with Some y => py_eq x y && go d' | None => false end
            end) d
  | _, _ => false
  end.

(** [v == z] for an integer [z]; booleans are the integers 0 and 1, and the
    counters compared this way are never floats. *)
Definition equals_int (v : pyval) (z : Z) : bool :=
  match v with
  | PInt n => n =? z
  | PBool b => (if b then 1 else 0) =? z
  | _ => false
  end.

(** Optional results as JSON values. *)
Definition opt_str (o : option string) : pyval := match o with Some s => PStr s | None => PNone end.
Definition opt_int (o : option Z) : pyval := match o with Some z => PInt z | None => PNone end.

(** ** Leaves *)
Definition text_of (v : pyval) : option string :=
  match v with PStr s => if String.eqb s "" then None else Some s | _ => None end.

Definition text (value : option pydict) (key : string) : option string :=
  match value with None => None | Some d => text_of (get d key) end.

Definition integer (v : pyval) : option Z := match v with PInt z => Some z | _ => None end.

Definition algorithm_version (evidence : option pydict) (dflt : string) : string :=
  default dflt (text evidence "algorithm_version").

Definition string_list (v : pyval) : list string :=
  match sequence_items v with
  | None => []
  | Some l => omap (fun x => match x with PStr s => Some s | _ => None end) l
  end.

Definition strs (l : list string) : pyval := PList (map PStr l).

Definition mappings (l : list pyval) : list pydict := omap is_mapping l.

Section compaction.
(** [str(v)] of a container or of bytes. *)
Context (repr : pyval -> string).

Definition number_text (v : pyval) : option string :=
  match v with
  | PNone => None
  | PStr s => Some s
  | PBool b => Some (if b then "True" else "False")
  | PInt z => Some (z_str z)
  | PFloat t | PDecimal t => Some t
  | PBytes _ | PList _ | PDict _ => Some (repr v)
  end.

(** ** Paths *)
Definition compact_path (v : pyval) : option pydict :=
  match is_mapping v with
  | None => None
  | Some d => Some
      [("objective", opt_str (text (Some d) "objective"));
       ("node_ids", strs (string_list (get d "node_ids")));
       ("edge_ids", strs (string_list (get d "edge_ids")));
       ("distance_km", opt_str (number_text (get d "distance_km")));
       ("estimated_minutes", opt_int (integer (get d "estimated_minutes")));
       ("risk_cost", opt_str (number_text (get d "risk_cost")));
       ("visited_node_count", opt_int (integer (get d "visited_node_count")));
       ("scoring_formula", opt_str (text (Some d) "scoring_formula"))]%string
  end.

Definition opt_dict (o : option pydict) : pyval := match o with Some d => PDict d | None => PNone end.

(** ** Vehicle candidates *)

(** [{key: number_text(components.get(key)) for key in keys if ... is not None}]. *)
Definition component_texts (components : pydict) (keys : list string) : pydict :=
  omap (fun k => if is_none (get components k) then None
                 else Some (k, opt_str (number_text (get components k)))) keys.

Definition components_of (v : pyval) : pydict := default [] (is_mapping v).

Definition candidate_component_keys : list string :=
  ["eta_penalty"; "distance_penalty"; "load_penalty"; "road_risk_penalty"; "same_station_bonus"; "cargo_exact_match_bonus"].

Definition compact_selected_candidate (c : pydict) : pydict :=
  let remaining := if is_none (get c "remaining_capacity_kg") then get c "remaining_load_kg" else get c "remaining_capacity_kg" in
  [("vehicle_id", opt_str (text (Some c) "vehicle_id"));
   ("driver_id", opt_str (text (Some c) "driver_id"));
   ("vehicle_status", opt_str (text (Some c) "vehicle_status"));
   ("driver_status", opt_str (text (Some c) "driver_status"));
   ("remaining_capacity_kg", opt_str (number_text remaining));
   ("cargo_capability", opt_str (text (Some c) "cargo_capability"));
   ("score", opt_str (number_text (get c "score")));
   ("score_components", PDict (component_texts (components_of (get c "score_components")) candidate_component_keys));
   ("eligible", PBool (match get c "eligible" with PBool true => true | _ => false end));
   ("exclusion_reasons", strs (string_list (get c "exclusion_reasons")))]%string.

(** The keys added by [compact.update] are new, so they are appended. *)
Definition compact_vehicle_candidate (c : pydict) : pydict :=
  compact_selected_candidate c ++
  [("gross_weight_tons", opt_str (number_text (get c "gross_weight_tons")));
   ("pickup_route", opt_dict (compact_path (get c "pickup_route")));
   ("pickup_distance_km", opt_str (number_text (get c "pickup_distance_km")));
   ("pickup_eta_minutes", opt_int (integer (get c "pickup_eta_minutes")));
   ("scoring_formula", opt_str (text (Some c) "scoring_formula"))]%string.

Definition compact_fleet_evidence (candidates : list pydict) (original_vehicle_id selected_vehicle_id : option string) : pydict :=
  let selected := List.find (fun c => bool_decide (text (Some c) "vehicle_id" = selected_vehicle_id)) candidates in
  [("original_vehicle_id", opt_str original_vehicle_id);
   ("target_vehicle_id", opt_str selected_vehicle_id);
   ("target_driver_id", opt_str (text selected "driver_id"));
   ("vehicle_reassigned", PBool (match selected_vehicle_id with
                                 | None => false
                                 | Some _ => negb (bool_decide (selected_vehicle_id = original_vehicle_id))
                                 end));
   ("pickup_route", opt_dict (match selected with None => None | Some s => compact_path (get s "pickup_route") end));
   ("selected_candidate", opt_dict (compact_selected_candidate <$> selected));
   ("candidates", PList (map (fun c => PDict (compact_vehicle_candidate c)) candidates))]%string.

(** ** Routes and the road network *)
Definition route_component_keys : list string :=
  ["normalized_minutes"; "normalized_distance"; "normalized_risk"; "time_penalty"; "distance_penalty"; "risk_penalty"].

Definition compact_route_candidate (r : pydict) : pydict :=
  [("route_id", opt_str (text (Some r) "route_id"));
   ("route_name", opt_str (text (Some r) "route_name"));
   ("objective", opt_str (text (Some r) "objective"));
   ("node_ids", strs (string_list (get r "node_ids")));
   ("edge_ids", strs (string_list (get r "edge_ids")));
   ("distance_km", opt_str (number_text (get r "distance_km")));
   ("estimated_minutes", opt_int (integer (get r "estimated_minutes")));
   ("risk_level", opt_str (text (Some r) "risk_level"));
   ("risk_cost", opt_str (number_text (get r "risk_cost")));
   ("visited_node_count", opt_int (integer (get r "visited_node_count")));
   ("available", match get r "available" with PBool b => PBool b | _ => PNone end);
   ("reason", opt_str (text (Some r) "reason"));
   ("score", opt_str (number_text (get r "score")));
   ("score_components", PDict (component_texts (components_of (get r "score_components")) route_component_keys));
   ("scoring_formula", opt_str (text (Some r) "scoring_formula"));
   ("algorithm_version", opt_str (text (Some r) "algorithm_version"));
   ("road_network_version", opt_int (integer (get r "road_network_version")))]%string.

Definition compact_geo_points (v : pyval) : pyval :=
  match v with
  | PList l => PList (map (fun p => PDict
      [("node_id", opt_str (text (Some p) "node_id")); ("longitude", opt_str (text (Some p) "longitude"));
       ("latitude", opt_str (text (Some p) "latitude"))]%string) (mappings l))
  | _ => PList []
  end.

Definition compact_real_road_route (v : pyval) : option pydict :=
  match is_mapping v with
  | None => None
  | Some d => Some
      [("provider", opt_str (text (Some d) "provider"));
       ("source", opt_str (text (Some d) "source"));
       ("status", opt_str (text (Some d) "status"));
       ("coordinate_system", opt_str (text (Some d) "coordinate_system"));
       ("mapping_version", opt_str (text (Some d) "mapping_version"));
       ("distance_meters", opt_int (integer (get d "distance_meters")));
       ("duration_seconds", opt_int (integer (get d "duration_seconds")));
       ("waypoints", compact_geo_points (get d "waypoints"));
       ("polyline", compact_geo_points (get d "polyline"));
       ("fallback_reason", opt_str (text (Some d) "fallback_reason"))]%string
  end.

Definition is_true (v : pyval) : bool := match v with PBool true => true | _ => false end.

Definition compact_network_nodes (v : pyval) : pyval :=
  PList (map (fun n => PDict
    [("node_id", opt_str (text (Some n) "node_id"));
     ("name", opt_str (text (Some n) "name"));
     ("x_km", opt_str (number_text (get n "x_km")));
     ("y_km", opt_str (number_text (get n "y_km")));
     ("node_type", opt_str (text (Some n) "node_type"))]%string)
    (mappings (default [] (sequence_items v)))).

Definition compact_network_edges (v : pyval) : pyval :=
  PList (map (fun e => PDict
    [("edge_id", opt_str (text (Some e) "edge_id"));
     ("name", opt_str (text (Some e) "name"));
     ("from_node_id", opt_str (text (Some e) "from_node_id"));
     ("to_node_id", opt_str (text (Some e) "to_node_id"));
     ("distance_km", opt_str (number_text (get e "distance_km")));
     ("base_minutes", opt_int (integer (get e "base_minutes")));
     ("road_level", opt_str (text (Some e) "road_level"));
     ("risk_level", opt_str (text (Some e) "risk_level"));
     ("status", opt_str (text (Some e) "status"));
     ("congestion_factor", opt_str (number_text (get e "congestion_factor")));
     ("weight_limit_tons", opt_str (number_text (get e "weight_limit_tons")));
     ("bidirectional", PBool (is_true (get e "bidirectional")));
     ("version", opt_int (integer (get e "version")))]%string)
    (mappings (default [] (sequence_items v)))).

Definition is_relevant (relevant : gset string) (e : pydict) : bool :=
  match text (Some e) "edge_id" with Some i => bool_decide (i ∈ relevant) | None => false end.

Definition compact_relevant_edges (v : pyval) (relevant : gset string) : pyval :=
  PList (map (fun e => PDict
    [("edge_id", opt_str (text (Some e) "edge_id"));
     ("from_node_id", opt_str (text (Some e) "from_node_id"));
     ("to_node_id", opt_str (text (Some e) "to_node_id"));
     ("status", opt_str (text (Some e) "status"));
     ("bidirectional", PBool (is_true (get e "bidirectional")))]%string)
    (List.filter (is_relevant relevant) (mappings (default [] (sequence_items v))))).

(** The edge identifiers of a compacted path. *)
Definition path_edges (p : option pydict) : list string :=
  match p with Some d => string_list (get d "edge_ids") | None => [] end.

Definition compact_route_evidence (evidence : option pydict) (original_route_id : string) (target_route_id : option string) : pydict :=
  let source := default [] evidence in
  let original_path := compact_path (get source "original_path") in
  let recommended_path := compact_path (get source "recommended_path") in
  let pickup_path := compact_path (if is_none (get source "pickup_path") then get source "pickup_route" else get source "pickup_path") in
  let blocked := string_list (get source "blocked_edge_ids") in
  let relevant : gset string :=
    list_to_set (blocked ++ path_edges original_path ++ path_edges recommended_path ++ path_edges pickup_path) in
  let routes := default [] (sequence_items (get source "candidate_routes")) in
  [("original_route_id", PStr original_route_id);
   ("target_route_id", opt_str target_route_id);
   ("original_path", opt_dict original_path);
   ("recommended_path", opt_dict recommended_path);
   ("pickup_path", opt_dict pickup_path);
   ("blocked_edge_ids", strs blocked);
   ("distance_delta_km", opt_str (number_text (get source "distance_delta_km")));
   ("eta_delta_minutes", opt_int (integer (get source "eta_delta_minutes")));
   ("visited_node_count", match recommended_path with None => PNone | Some d => get d "visited_node_count" end);
   ("routing_status", opt_str (text (Some source) "routing_status"));
   ("relevant_edges", compact_relevant_edges (get source "road_network_edges") relevant);
   ("network_nodes", compact_network_nodes (get source "road_network_nodes"));
   ("network_edges", compact_network_edges (get source "road_network_edges"));
   ("real_road_route", opt_dict (compact_real_road_route (get source "real_road_route")));
   ("candidate_routes", PList (map (fun r => PDict (compact_route_candidate r)) (mappings routes)))]%string.
End compaction.

(** ** Specification *)

(** Values a JSON column stores as they are: no [Decimal], float or bytes. *)
Fixpoint json_plain (v : pyval) : bool :=
  match v with
  | PNone | PBool _ | PInt _ | PStr _ => true
  | PFloat _ | PDecimal _ | PBytes _ => false
  | PList l => forallb json_plain l
  | PDict d => forallb (fun kv => json_plain kv.2) d
  end.

Definition plain_dict (d : pydict) : Prop := json_plain (PDict d) = true.

(** ** Leaves are plain and stable *)
Lemma plain_opt_str o : json_plain (opt_str o) = true.
Proof. by destruct o. Qed.
Lemma plain_opt_int o : json_plain (opt_int o) = true.
Proof. by destruct o. Qed.
Lemma plain_strs l : json_plain (strs l) = true.
Proof. simpl. induction l; done. Qed.
Lemma plain_map {A} (f : A -> pyval) l : (forall x, json_plain (f x) = true) -> json_plain (PList (map f l)) = true.
Proof. intros H. simpl. induction l as [|x l IH]; [done|]. simpl. by rewrite H. Qed.
Lemma component_texts_cons repr c k keys :
  component_texts repr c (k :: keys) =
    if is_none (get c k) then component_texts repr c keys
    else (k, opt_str (number_text repr (get c k))) :: component_texts repr c keys.
Proof. unfold component_texts. cbn. by destruct (is_none (get c k)). Qed.
Lemma plain_component_texts repr c keys : json_plain (PDict (component_texts repr c keys)) = true.
Proof.
  induction keys as [|k keys IH]; [done|]. rewrite component_texts_cons.
  destruct (is_none (get c k)); [done|]. cbn. rewrite plain_opt_str. exact IH.
Qed.

Lemma text_stable v : text_of (opt_str (text_of v)) = text_of v.
Proof. destruct v as [| | | | |s| | |]; try done. simpl. destruct (String.eqb_spec s ""); simpl; [done|]. by apply String.eqb_neq in n as ->. Qed.
Lemma number_text_stable repr v : number_text repr (opt_str (number_text repr v)) = number_text repr v.
Proof. by destruct v. Qed.
Lemma integer_stable v : integer (opt_int (integer v)) = integer v.
Proof. by destruct v. Qed.
Lemma string_list_strs l : string_list (strs l) = l.
Proof. unfold string_list, strs. simpl. induction l as [|s l IH]; [done|]. cbn. f_equal. exact IH. Qed.
Lemma number_text_none repr v : number_text repr v = None <-> v = PNone.
Proof. by destruct v. Qed.

Lemma get_cons k v d key : get ((k, v) :: d) key = if String.eqb k key then v else get d key.
Proof. unfold get. simpl. by destruct (String.eqb k key). Qed.

Lemma get_component_texts repr c keys k :
  NoDup keys -> get (component_texts repr c keys) k = if bool_decide (k ∈ keys) then opt_str (number_text repr (get c k)) else PNone.
Proof.
  intros Hn. induction keys as [|k' keys IH]; [done|]. apply NoDup_cons in Hn as [Hni Hn].
  specialize (IH Hn). rewrite component_texts_cons. destruct (is_none (get c k')) eqn:E.
  - rewrite IH. destruct (decide (k = k')) as [->|N].
    + rewrite bool_decide_eq_false_2, bool_decide_eq_true_2 by (done || left). by destruct (get c k').
    + rewrite (bool_decide_ext (k ∈ k' :: keys) (k ∈ keys)); [done|]. rewrite elem_of_cons. tauto.
  - rewrite get_cons. destruct (String.eqb_spec k' k) as [->|N].
    + by rewrite bool_decide_eq_true_2 by left.
    + rewrite IH. rewrite (bool_decide_ext (k ∈ k' :: keys) (k ∈ keys)); [done|].
      rewrite elem_of_cons. split; [intros [->|]; done|auto].
Qed.

Lemma component_texts_stable repr c keys :
  NoDup keys -> component_texts repr (component_texts repr c keys) keys = component_texts repr c keys.
Proof.
  intros Hn. pose proof (fun k => get_component_texts repr c keys k Hn) as H.
  assert (G : forall l, (forall k, k ∈ l -> k ∈ keys) ->
    component_texts repr (component_texts repr c keys) l = component_texts repr c l); [|by apply G].
  induction l as [|k l IH]; intros Hl; [done|]. rewrite !component_texts_cons.
  rewrite (H k), bool_decide_eq_true_2 by (apply Hl; left). rewrite IH by (intros; apply Hl; by right).
  rewrite number_text_stable. by destruct (get c k).
Qed.

Lemma candidate_keys_nodup : NoDup candidate_component_keys.
Proof. apply (bool_decide_unpack _). vm_compute. exact I. Qed.
Lemma route_keys_nodup : NoDup route_component_keys.
Proof. apply (bool_decide_unpack _). vm_compute. exact I. Qed.

(** ** Compaction is idempotent *)
(** Evaluate the lookups of literal keys in a compacted dictionary. *)
Ltac lookups :=
  unfold text; cbn [app]; rewrite ?get_cons; cbn [String.eqb Ascii.eqb Bool.eqb];
  rewrite ?text_stable, ?number_text_stable, ?integer_stable, ?string_list_strs.

Lemma compact_path_stable repr v : compact_path repr (opt_dict (compact_path repr v)) = compact_path repr v.
Proof.
  unfold compact_path at 2 3. destruct (is_mapping v) as [d|]; [|done]. simpl opt_dict. unfold compact_path. simpl is_mapping.
  by lookups.
Qed.


Lemma number_text_default repr v :
  number_text repr (if is_none (opt_str (number_text repr v)) then PNone else opt_str (number_text repr v)) = number_text repr v.
Proof. by destruct v. Qed.

Lemma is_true_pbool b : is_true (PBool b) = b.
Proof. by destruct b. Qed.

Lemma compact_vehicle_candidate_stable repr c :
  compact_vehicle_candidate repr (compact_vehicle_candidate repr c) = compact_vehicle_candidate repr c.
Proof.
  unfold compact_vehicle_candidate at 2 3. unfold compact_selected_candidate.
  set (rem := if is_none (get c "remaining_capacity_kg") then get c "remaining_load_kg" else get c "remaining_capacity_kg").
  set (comps := component_texts repr (components_of (get c "score_components")) candidate_component_keys).
  set (el := match get c "eligible" with PBool true => true | _ => false end).
  unfold compact_vehicle_candidate, compact_selected_candidate. lookups.
  rewrite compact_path_stable. change (get [] _) with PNone. rewrite number_text_default.
  change (components_of (PDict comps)) with comps. subst comps. rewrite component_texts_stable by apply candidate_keys_nodup. by destruct el.
Qed.

Lemma compact_route_candidate_stable repr c :
  compact_route_candidate repr (compact_route_candidate repr c) = compact_route_candidate repr c.
Proof.
  unfold compact_route_candidate at 2 3.
  set (comps := component_texts repr (components_of (get c "score_components")) route_component_keys).
  set (av := match get c "available" with PBool b => PBool b | _ => PNone end).
  unfold compact_route_candidate. lookups.
  assert (Hav : match av with PBool b => PBool b | _ => PNone end = av) by (subst av; by destruct (get c "available")).
  rewrite Hav. change (components_of (PDict comps)) with comps. subst comps. by rewrite component_texts_stable by apply route_keys_nodup.
Qed.

(** ** Payloads are plain JSON *)
Ltac plain := unfold plain_dict; cbn [json_plain forallb snd app]; rewrite ?plain_opt_str, ?plain_opt_int, ?plain_strs; cbn [andb].

Lemma plain_opt_path repr v : json_plain (opt_dict (compact_path repr v)) = true.
Proof. unfold compact_path. destruct (is_mapping v) as [d|]; [|done]. cbn [opt_dict]. by plain. Qed.

Lemma plain_components repr c keys : forallb (fun kv => json_plain kv.2) (component_texts repr c keys) = true.
Proof. exact (plain_component_texts repr c keys). Qed.

Lemma plain_selected repr c : plain_dict (compact_selected_candidate repr c).
Proof. unfold compact_selected_candidate. plain. by rewrite plain_components. Qed.

Lemma plain_vehicle repr c : plain_dict (compact_vehicle_candidate repr c).
Proof.
  pose proof (plain_selected repr c) as H. unfold compact_vehicle_candidate, plain_dict in *.
  cbn [json_plain] in *. rewrite forallb_app, H. plain. by rewrite plain_opt_path.
Qed.

Lemma plain_route_candidate repr r : plain_dict (compact_route_candidate repr r).
Proof. unfold compact_route_candidate. plain. rewrite plain_components. by destruct (get r "available"). Qed.

Lemma plain_opt_dict o : (forall d, o = Some d -> plain_dict d) -> json_plain (opt_dict o) = true.
Proof. destruct o as [d|]; [|done]. intros H. by apply (H d). Qed.

Lemma plain_geo v : json_plain (compact_geo_points v) = true.
Proof. destruct v; try done. apply plain_map. intros p. by plain. Qed.

Lemma plain_real_road v : json_plain (opt_dict (compact_real_road_route v)) = true.
Proof.
  unfold compact_real_road_route. destruct (is_mapping v) as [d|]; [|done]. cbn [opt_dict]. plain.
  by rewrite !plain_geo.
Qed.

Lemma plain_nodes repr v : json_plain (compact_network_nodes repr v) = true.
Proof. apply plain_map. intros n. by plain. Qed.

Lemma plain_edges repr v : json_plain (compact_network_edges repr v) = true.
Proof. apply plain_map. intros n. by plain. Qed.

Lemma plain_relevant v rel : json_plain (compact_relevant_edges v rel) = true.
Proof. apply plain_map. intros n. by plain. Qed.

Lemma plain_fleet_evidence repr cs orig sel : plain_dict (compact_fleet_evidence repr cs orig sel).
Proof.
  unfold compact_fleet_evidence. set (found := List.find _ cs).
  assert (Hp : json_plain (opt_dict match found with None => None | Some s => compact_path repr (get s "pickup_route") end) = true).
  { destruct found; [apply plain_opt_path|done]. }
  assert (Hs : json_plain (opt_dict (compact_selected_candidate repr <$> found)) = true).
  { apply plain_opt_dict. intros d (s & _ & ->)%fmap_Some. apply plain_selected. }
  assert (Hc : json_plain (PList (map (fun c => PDict (compact_vehicle_candidate repr c)) cs)) = true).
  { apply plain_map. intros c. apply plain_vehicle. }
  unfold plain_dict. cbn [json_plain forallb snd]. rewrite !plain_opt_str, Hp, Hs.
  cbn [json_plain] in Hc. by rewrite Hc.
Qed.

Lemma visited_plain repr v :
  json_plain (match compact_path repr v with None => PNone | Some d => get d "visited_node_count" end) = true.
Proof. unfold compact_path. destruct (is_mapping v) as [d|]; [|done]. lookups. apply plain_opt_int. Qed.

Lemma plain_route_evidence repr ev orig target : plain_dict (compact_route_evidence repr ev orig target).
Proof.
  unfold compact_route_evidence. cbv zeta.
  assert (Hc : json_plain (PList (map (fun r => PDict (compact_route_candidate repr r))
    (mappings (default [] (sequence_items (get (default [] ev) "candidate_routes")))))) = true).
  { apply plain_map. intros c. apply plain_route_candidate. }
  set (routes := PList (map (fun r => PDict (compact_route_candidate repr r)) _)) in *. unfold plain_dict. cbn [json_plain forallb snd]. rewrite !plain_opt_str, !plain_opt_int, !plain_strs, !plain_opt_path, !plain_relevant, !plain_nodes,
    !plain_edges, !plain_real_road, visited_plain, Hc. done.
Qed.

(** ** Which candidate a payload is about *)
Lemma fleet_evidence_fields repr cs orig sel :
  let e := compact_fleet_evidence repr cs orig sel in
  get e "target_vehicle_id" = opt_str sel /\
  get e "candidates" = PList (map (fun c => PDict (compact_vehicle_candidate repr c)) cs) /\
  forall c, List.find (fun c => bool_decide (text (Some c) "vehicle_id" = sel)) cs = Some c ->
    get e "target_driver_id" = opt_str (text (Some c) "driver_id") /\
    get e "selected_candidate" = PDict (compact_selected_candidate repr c).
Proof.
  unfold compact_fleet_evidence. cbv zeta. rewrite !get_cons. cbn [String.eqb Ascii.eqb Bool.eqb].
  split_and!; [done|done|]. intros c ->. done.
Qed.

(** ** Theorems *)

(** whatever the graph state holds, the two payloads written with a dispatch
    contain only values the JSON columns accept: no [Decimal], float or bytes
    survives the compaction. *)
Theorem evidence_json_safe repr candidates original selected evidence route_id target :
  plain_dict (compact_fleet_evidence repr candidates original selected) /\
  plain_dict (compact_route_evidence repr evidence route_id target).
Proof. split; [apply plain_fleet_evidence|apply plain_route_evidence]. Qed.

(** compaction is idempotent: compacting a stored candidate, route or path
    again changes nothing, so evidence can be rebuilt from evidence. *)
Theorem compaction_idempotent repr c r v :
  compact_vehicle_candidate repr (compact_vehicle_candidate repr c) = compact_vehicle_candidate repr c /\
  compact_route_candidate repr (compact_route_candidate repr r) = compact_route_candidate repr r /\
  compact_path repr (opt_dict (compact_path repr v)) = compact_path repr v.
Proof.
  split_and!; [apply compact_vehicle_candidate_stable|apply compact_route_candidate_stable|apply compact_path_stable].
Qed.
