(* ===== verification/Dispatch.v ===== *)
(** * Dispatch: reserving a vehicle and recording the dispatch of a task

    Models [DispatchService.execute] of [app/dispatch/service.py] (lines 29-283)
    over the tables it uses.  One attempt is split where other sessions can
    interleave: [read_phase] (the queries), [write_phase] (flush and commit,
    with the optimistic [version] check of the vehicle and the unique
    [task_id]) and [reread_phase] (the re-read after an integrity error).
    [execute] composes them without interleaving; [step] interleaves any
    number of requests with other writers of the vehicles. *)

From S2P Require Import Prelude Evidence.

Local Open Scope Z_scope.
Local Open Scope list_scope.

(** ** Data *)
Record DispatchResult := {
  r_dispatch_id : option Z;
  r_dispatch_no : option string;
  r_order_id : Z;
  r_task_id : string;
  r_status : string;
  r_original_route_id : string;
  r_target_route_id : option string;
  r_version : option Z;
  executed : bool;
  r_reason : string;
  r_requires_manual_review : bool;
  r_original_vehicle_id : option string;
  r_target_vehicle_id : option string;
  r_target_driver_id : option string;
}.

(** A row of [dispatches]. *)
Record Dispatch := {
  d_id : Z;
  dispatch_no : string;
  d_order_id : Z;
  d_task_id : Z;
  d_original_route_id : option string;
  d_target_route_id : option string;
  d_original_vehicle_id : option string;
  d_target_vehicle_id : option string;
  d_target_driver_id : option string;
  d_transfer_node_id : option string;
  d_decision_reason : option string;
  d_recommended_action : option string;
  d_analysis_mode : option string;
  d_issue_subtype : option string;
  d_fallback_used : bool;
  d_fallback_reason : option string;
  d_status : string;
  d_version : Z;
}.

Record DispatchEvidence := {
  ev_dispatch_id : Z;
  evidence_type : string;
  ev_algorithm_version : string;
  payload_json : pydict;
  ev_road_network_version : option Z;
}.

(** The columns of a [fleet_vehicles] row that the service reads or writes. *)
Record VehicleRow := { v_status : string; v_version : Z }.

Record db := {
  orders : gset Z;
  road_nodes : gset string;
  tasks : list (Z * string);                (* id, task_id *)
  vehicles : gmap string VehicleRow;
  dispatches : list Dispatch;
  evidences : list DispatchEvidence;
  next_id : Z;
}.

(** The arguments of [execute]. *)
Record request := {
  task_id : string;
  order_id : Z;
  original_route_id : string;
  target_route_id : option string;
  decision : string;
  decision_reason : string;
  fallback_used : bool;
  fallback_reason : option string;
  requires_manual_review : bool;
  recommended_action : option string;
  analysis_mode : option string;
  issue_subtype : option string;
  original_vehicle_id : option string;
  candidate_vehicles : list pydict;
  transfer_node_id : option string;
  fleet_evidence : option pydict;
  route_evidence : option pydict;
}.

Definition VehicleReservationConflict : exn :=
  Exn "VehicleReservationConflict" "No ranked replacement vehicle could be reserved.".
Definition IntegrityError : exn := Exn "IntegrityError" "".
Definition TaskMissing : exn := Exn "ValueError" "Dispatch task does not exist".

(** ** Queries *)
Definition find_task (d : db) (tid : string) : option Z :=
  fst <$> List.find (fun t => String.eqb t.2 tid) (tasks d).
(** [DispatchRepository.get_by_task_id]. *)
Definition get_by_task_id (d : db) (pk : Z) : option Dispatch :=
  List.find (fun x => d_task_id x =? pk) (dispatches d).

Definition ranked_eligible_candidates (cs : list pydict) : list pydict :=
  List.filter (fun c => is_true (get c "eligible")) cs.

(** [x or y] on an optional string. *)
Definition or_opt (x y : option string) : option string :=
  match x with Some s => if String.eqb s "" then y else x | None => y end.

(** [_result]: an existing dispatch as the answer to a request. *)
Definition existing_result (rq : request) (x : Dispatch) : DispatchResult :=
  let manual := String.eqb (d_status x) "REVIEW_REQUIRED" in
  {| r_dispatch_id := Some (d_id x); r_dispatch_no := Some (dispatch_no x); r_order_id := order_id rq;
     r_task_id := task_id rq; r_status := d_status x;
     r_original_route_id := or_else (d_original_route_id x) (original_route_id rq);
     r_target_route_id := d_target_route_id x; r_version := Some (d_version x); executed := negb manual;
     r_reason := or_else (d_decision_reason x) (decision_reason rq); r_requires_manual_review := manual;
     r_original_vehicle_id := d_original_vehicle_id x; r_target_vehicle_id := d_target_vehicle_id x;
     r_target_driver_id := d_target_driver_id x |}.

Definition manual_review (rq : request) : bool :=
  requires_manual_review rq || one_of (decision rq) ["MANUAL_REVIEW"; "NO_SAFE_ROUTE"].

Definition dispatch_status (rq : request) : string :=
  if manual_review rq then "REVIEW_REQUIRED"
  else if String.eqb (decision rq) "REROUTE" then "REROUTED" else "KEPT_ROUTE".

Definition stored_target_route (rq : request) : option string :=
  if manual_review rq then target_route_id rq else or_opt (target_route_id rq) (Some (original_route_id rq)).

(** ** One attempt *)

(** What a session holds between its queries and its flush: the task's key and,
    with a candidate, the vehicle it marked [RESERVED] with the version loaded. *)
Record pending := {
  p_task_pk : Z;
  p_vehicle : option (string * Z);
  p_target_vehicle : option string;
  p_target_driver : option string;
}.

Inductive read_outcome :=
| Finished (r : DispatchResult)
| Failed (e : exn)
| CandidateConflict
| Pending (p : pending).

Definition read_phase (d : db) (rq : request) (candidate : option pydict) : read_outcome :=
  match find_task d (task_id rq) with
  | None => Failed TaskMissing
  | Some pk =>
      match get_by_task_id d pk with
      | Some x => Finished (existing_result rq x)
      | None =>
          let vehicle_id := text candidate "vehicle_id" in
          let driver_id := text candidate "driver_id" in
          match candidate with
          | None => Pending {| p_task_pk := pk; p_vehicle := None; p_target_vehicle := vehicle_id; p_target_driver := driver_id |}
          | Some _ =>
              match vehicle_id, driver_id with
              | Some v, Some _ =>
                  match vehicles d !! v with
                  | Some row =>
                      if String.eqb (v_status row) "AVAILABLE"
                      then Pending {| p_task_pk := pk; p_vehicle := Some (v, v_version row);
                                      p_target_vehicle := vehicle_id; p_target_driver := driver_id |}
                      else CandidateConflict
                  | None => CandidateConflict
                  end
              | _, _ => CandidateConflict
              end
          end
      end
  end.

(** The flush of the vehicle: [UPDATE ... WHERE vehicle_id AND version]; no
    matched row is a [StaleDataError]. *)
Definition reserve_vehicle (d : db) (p : pending) : option (gmap string VehicleRow) :=
  match p_vehicle p with
  | None => Some (vehicles d)
  | Some (v, n) =>
      match vehicles d !! v with
      | Some row => if v_version row =? n
                    then Some (<[v := {| v_status := "RESERVED"; v_version := n + 1 |}]> (vehicles d))
                    else None
      | None => None
      end
  end.

(** The constraints of [dispatches]: unique [task_id] and [dispatch_no], and the
    foreign keys. *)
Definition dispatch_accepted (d : db) (x : Dispatch) : bool :=
  negb (existsb (fun y => (d_task_id y =? d_task_id x) || String.eqb (dispatch_no y) (dispatch_no x)) (dispatches d))
  && bool_decide (d_order_id x ∈ orders d) && existsb (fun t => t.1 =? d_task_id x) (tasks d)
  && match d_original_vehicle_id x with Some v => bool_decide (is_Some (vehicles d !! v)) | None => true end
  && match d_target_vehicle_id x with Some v => bool_decide (is_Some (vehicles d !! v)) | None => true end
  && match d_transfer_node_id x with Some n => bool_decide (n ∈ road_nodes d) | None => true end.

Definition new_dispatch (rq : request) (p : pending) (id : Z) (no : string) : Dispatch :=
  {| d_id := id; dispatch_no := no; d_order_id := order_id rq; d_task_id := p_task_pk p;
     d_original_route_id := Some (original_route_id rq); d_target_route_id := stored_target_route rq;
     d_original_vehicle_id := original_vehicle_id rq; d_target_vehicle_id := p_target_vehicle p;
     d_target_driver_id := p_target_driver p; d_transfer_node_id := transfer_node_id rq;
     d_decision_reason := Some (decision_reason rq);
     d_recommended_action := or_opt (recommended_action rq)
       (if manual_review rq then Some "保持任务暂停并等待人工复核。" else None)%string;
     d_analysis_mode := or_opt (analysis_mode rq) (if manual_review rq then Some "EIGHT_AGENT_RULE_ASSISTED" else None)%string;
     d_issue_subtype := or_opt (issue_subtype rq) (if manual_review rq then Some "GENERAL" else None)%string;
     d_fallback_used := fallback_used rq; d_fallback_reason := fallback_reason rq;
     d_status := dispatch_status rq; d_version := 1 |}.

Section attempts.
Context (repr : pyval -> string).

Definition new_evidence (rq : request) (p : pending) (id : Z) : list DispatchEvidence :=
  [{| ev_dispatch_id := id; evidence_type := "FLEET_ALLOCATION";
      ev_algorithm_version := algorithm_version (fleet_evidence rq) "FLEET_SCORE_V1";
      payload_json := compact_fleet_evidence repr (candidate_vehicles rq) (original_vehicle_id rq) (p_target_vehicle p);
      ev_road_network_version := None |};
   {| ev_dispatch_id := id; evidence_type := "ROUTE_CALCULATION";
      ev_algorithm_version := algorithm_version (route_evidence rq) "DIJKSTRA_V1";
      payload_json := compact_route_evidence repr (route_evidence rq) (original_route_id rq) (target_route_id rq);
      ev_road_network_version := match route_evidence rq with
                                 | Some e => integer (get e "road_network_version")
                                 | None => None
                                 end |}].

Definition committed_result (rq : request) (x : Dispatch) : DispatchResult :=
  {| r_dispatch_id := Some (d_id x); r_dispatch_no := Some (dispatch_no x); r_order_id := order_id rq;
     r_task_id := task_id rq; r_status := dispatch_status rq; r_original_route_id := original_route_id rq;
     r_target_route_id := d_target_route_id x; r_version := Some (d_version x); executed := negb (manual_review rq);
     r_reason := decision_reason rq; r_requires_manual_review := manual_review rq;
     r_original_vehicle_id := original_vehicle_id rq; r_target_vehicle_id := d_target_vehicle_id x;
     r_target_driver_id := d_target_driver_id x |}.

Inductive write_outcome :=
| Committed (r : DispatchResult) (d : db)
| Stale
| Integrity.

(** Flush and commit are one transaction.  The unit of work may emit the vehicle
    update and the insert in either order, which decides the exception when both
    would fail. *)
Definition write_phase (insert_first : bool) (d : db) (rq : request) (p : pending) (no : string) : write_outcome :=
  let x := new_dispatch rq p (next_id d) no in
  match reserve_vehicle d p, dispatch_accepted d x with
  | Some vs, true =>
      Committed (committed_result rq x)
        {| orders := orders d; road_nodes := road_nodes d; tasks := tasks d; vehicles := vs;
           dispatches := dispatches d ++ [x]; evidences := evidences d ++ new_evidence rq p (next_id d);
           next_id := next_id d + 1 |}
  | None, true => Stale
  | Some _, false => Integrity
  | None, false => if insert_first then Integrity else Stale
  end.

(** [_read_idempotent_result]. *)
Definition reread_phase (d : db) (rq : request) : option DispatchResult :=
  pk ← find_task d (task_id rq); x ← get_by_task_id d pk; Some (existing_result rq x).

(** [candidates[:2] if candidates else (None,)]. *)
Definition attempts (rq : request) : list (option pydict) :=
  match ranked_eligible_candidates (candidate_vehicles rq) with
  | [] => [None]
  | cs => map Some (take 2 cs)
  end.

(** ** Without interleaving *)
Definition execute_once (insert_first : bool) (d : db) (rq : request) (candidate : option pydict) (no : string)
    : option (result DispatchResult) * db :=
  match read_phase d rq candidate with
  | Finished r => (Some (Ok r), d)
  | Failed e => (Some (Err e), d)
  | CandidateConflict => (None, d)
  | Pending p =>
      match write_phase insert_first d rq p no with
      | Committed r d' => (Some (Ok r), d')
      | Stale => (None, d)
      | Integrity => match reread_phase d rq with Some r => (Some (Ok r), d) | None => (Some (Err IntegrityError), d) end
      end
  end.

(** The loop of [execute]; [None] is [_CandidateReservationConflict].  Each
    attempt draws a fresh [dispatch_no]. *)
Fixpoint try_candidates (insert_first : bool) (d : db) (rq : request) (cs : list (option pydict)) (nos : list string)
    : result DispatchResult * db :=
  match cs with
  | [] => (Err VehicleReservationConflict, d)
  | c :: cs' =>
      match execute_once insert_first d rq c (default "" (head nos)) with
      | (Some r, d') => (r, d')
      | (None, d') => try_candidates insert_first d' rq cs' (tail nos)
      end
  end.

Definition execute (insert_first : bool) (d : db) (rq : request) (nos : list string) : result DispatchResult * db :=
  try_candidates insert_first d rq (attempts rq) nos.

(** ** Interleaving *)

(** A request in progress. *)
Inductive session :=
| Trying (rq : request) (remaining : list (option pydict))
| Writing (rq : request) (p : pending) (remaining : list (option pydict))
| Rereading (rq : request)
| Returned (r : result DispatchResult).

Record system := {
  database : db;
  sessions : gmap nat session;
  (* ghost: vehicle, loaded version and dispatch of every reservation made *)
  reservations : list (string * Z);
}.

Definition set_session (s : system) (i : nat) (x : session) : system :=
  {| database := database s; sessions := <[i := x]> (sessions s); reservations := reservations s |}.

Definition after_read (rq : request) (remaining : list (option pydict)) (o : read_outcome) : session :=
  match o with
  | Finished r => Returned (Ok r)
  | Failed e => Returned (Err e)
  | CandidateConflict => Trying rq remaining
  | Pending p => Writing rq p remaining
  end.

Definition with_vehicles (d : db) (vs : gmap string VehicleRow) : db :=
  {| orders := orders d; road_nodes := road_nodes d; tasks := tasks d; vehicles := vs; dispatches := dispatches d;
     evidences := evidences d; next_id := next_id d |}.

Inductive step : system -> system -> Prop :=
| step_start s i rq :
    sessions s !! i = None -> step s (set_session s i (Trying rq (attempts rq)))
| step_exhausted s i rq :
    sessions s !! i = Some (Trying rq []) ->
    step s (set_session s i (Returned (Err VehicleReservationConflict)))
| step_read s i rq c cs :
    sessions s !! i = Some (Trying rq (c :: cs)) ->
    step s (set_session s i (after_read rq cs (read_phase (database s) rq c)))
| step_commit s i rq p cs first no r d' :
    sessions s !! i = Some (Writing rq p cs) ->
    write_phase first (database s) rq p no = Committed r d' ->
    step s {| database := d'; sessions := <[i := Returned (Ok r)]> (sessions s);
              reservations := match p_vehicle p with Some vn => vn :: reservations s | None => reservations s end |}
| step_stale s i rq p cs first no :
    sessions s !! i = Some (Writing rq p cs) ->
    write_phase first (database s) rq p no = Stale ->
    step s (set_session s i (Trying rq cs))
| step_integrity s i rq p cs first no :
    sessions s !! i = Some (Writing rq p cs) ->
    write_phase first (database s) rq p no = Integrity ->
    step s (set_session s i (Rereading rq))
| step_reread s i rq :
    sessions s !! i = Some (Rereading rq) ->
    step s (set_session s i (Returned (match reread_phase (database s) rq with
                                       | Some r => Ok r
                                       | None => Err IntegrityError
                                       end)))
(* any other writer of a vehicle goes through the same version counter *)
| step_vehicle s v row row' :
    vehicles (database s) !! v = Some row -> v_version row' = v_version row + 1 ->
    step s {| database := with_vehicles (database s) (<[v := row']> (vehicles (database s)));
              sessions := sessions s; reservations := reservations s |}
| step_new_vehicle s v row :
    vehicles (database s) !! v = None ->
    step s {| database := with_vehicles (database s) (<[v := row]> (vehicles (database s)));
              sessions := sessions s; reservations := reservations s |}.

Inductive reachable (d0 : db) : system -> Prop :=
| reach_init : reachable d0 {| database := d0; sessions := ∅; reservations := [] |}
| reach_step s s' : reachable d0 s -> step s s' -> reachable d0 s'.
End attempts.


(** ** Invariant of the interleaved system *)
Definition unique_tasks (d : db) : Prop := NoDup (d_task_id <$> dispatches d).

Record inv (s : system) : Prop := {
  inv_tasks : unique_tasks (database s);
  inv_pending : forall i rq p cs v n, sessions s !! i = Some (Writing rq p cs) -> p_vehicle p = Some (v, n) ->
    exists row, vehicles (database s) !! v = Some row /\ n <= v_version row /\
      (v_version row = n -> v_status row = "AVAILABLE"%string);
  inv_reserved : forall v n, (v, n) ∈ reservations s ->
    exists row, vehicles (database s) !! v = Some row /\ n < v_version row;
  inv_distinct : NoDup (reservations s);
}.

Lemma read_phase_pending d rq c p v n :
  read_phase d rq c = Pending p -> p_vehicle p = Some (v, n) ->
  exists row, vehicles d !! v = Some row /\ v_version row = n /\ v_status row = "AVAILABLE"%string.
Proof.
  unfold read_phase. intros H Hp. repeat case_match; try done; injection H as <-; simpl in Hp; try done.
  injection Hp as <- <-. eexists. split_and!; [done|done|by apply String.eqb_eq].
Qed.

(** What a successful flush did: the vehicle matched the loaded version. *)
Lemma write_phase_committed repr first d rq p no r d' :
  write_phase repr first d rq p no = Committed r d' ->
  let x := new_dispatch rq p (next_id d) no in
  dispatch_accepted d x = true /\ dispatches d' = dispatches d ++ [x] /\ r = committed_result rq x /\
  evidences d' = evidences d ++ new_evidence repr rq p (next_id d) /\
  orders d' = orders d /\ tasks d' = tasks d /\
  match p_vehicle p with
  | None => vehicles d' = vehicles d
  | Some (v, n) => exists row, vehicles d !! v = Some row /\ v_version row = n /\
      vehicles d' = <[v := {| v_status := "RESERVED"; v_version := n + 1 |}]> (vehicles d)
  end.
Proof.
  unfold write_phase. destruct (reserve_vehicle d p) as [vs|] eqn:Er; [|by repeat case_match].
  destruct (dispatch_accepted d _) eqn:Ea; [|done]. intros [= <- <-]. cbn [dispatches evidences orders tasks vehicles].
  split_and!; try done. unfold reserve_vehicle in Er. destruct (p_vehicle p) as [[v n]|]; [|by injection Er].
  destruct (vehicles d !! v) as [row|] eqn:Ev; [|done]. destruct (Z.eqb_spec (v_version row) n); [|done].
  injection Er as <-. eauto.
Qed.

Lemma dispatch_accepted_fresh d x :
  dispatch_accepted d x = true -> (d_task_id x ∉ d_task_id <$> dispatches d).
Proof.
  unfold dispatch_accepted. intros H. rewrite !andb_true_iff, negb_true_iff in H.
  destruct H as [[[[[H _] _] _] _] _]. intros (y & E & Hy)%list_elem_of_fmap.
  assert (C : existsb (fun y => (d_task_id y =? d_task_id x) || String.eqb (dispatch_no y) (dispatch_no x)) (dispatches d) = true).
  { apply existsb_exists. exists y. split; [by apply list_elem_of_In|]. by rewrite E, Z.eqb_refl. }
  congruence.
Qed.

Lemma inv_set_session s i x :
  inv s -> (forall rq p cs, x <> Writing rq p cs) -> inv (set_session s i x).
Proof.
  intros [H1 H2 H3 H4] Hx. split; try done. intros j rq p cs v n Hj. simpl in Hj.
  destruct (decide (i = j)) as [->|]; [rewrite lookup_insert_eq in Hj; injection Hj as ->; by destruct (Hx rq p cs)|].
  rewrite lookup_insert_ne in Hj by done. by apply (H2 j rq p cs).
Qed.

(** Rows keep existing and their versions never decrease: what the environment
    may do to the vehicles. *)
Lemma inv_vehicles s vs :
  inv s ->
  (forall v row, vehicles (database s) !! v = Some row ->
     exists row', vs !! v = Some row' /\ (row' = row \/ v_version row < v_version row')) ->
  inv {| database := with_vehicles (database s) vs; sessions := sessions s; reservations := reservations s |}.
Proof.
  intros [H1 H2 H3 H4] Hvs. split; try done; simpl.
  - intros i rq p cs v n Hi Hp. destruct (H2 i rq p cs v n Hi Hp) as (row & Hr & Hle & Hst).
    destruct (Hvs v row Hr) as (row' & Hr' & [E|Hlt]); exists row'; (split_and!; [done| |]); [by rewrite E|by rewrite E|lia|lia].
  - intros v n Hin. destruct (H3 v n Hin) as (row & Hr & Hlt).
    destruct (Hvs v row Hr) as (row' & Hr' & [E|Hlt']); exists row'; (split; [done|]); [by rewrite E|lia].
Qed.

Lemma inv_commit repr s i rq p cs first no r d' :
  inv s -> sessions s !! i = Some (Writing rq p cs) -> write_phase repr first (database s) rq p no = Committed r d' ->
  inv {| database := d'; sessions := <[i := Returned (Ok r)]> (sessions s);
         reservations := match p_vehicle p with Some vn => vn :: reservations s | None => reservations s end |}.
Proof.
  intros [H1 H2 H3 H4] Hi H. apply write_phase_committed in H as (Hacc & Hd & _ & _ & _ & _ & Hv).
  assert (Ht : unique_tasks d').
  { unfold unique_tasks. rewrite Hd, fmap_app. apply dispatch_accepted_fresh in Hacc.
    apply NoDup_app. split_and!; [done| |apply NoDup_singleton]. intros y Hy ->%elem_of_one. done. }
  assert (Hother : forall j rq' p' cs', <[i := Returned (Ok r)]> (sessions s) !! j = Some (Writing rq' p' cs') ->
    sessions s !! j = Some (Writing rq' p' cs')).
  { intros j rq' p' cs' Hj. destruct (decide (i = j)) as [->|]; [by rewrite lookup_insert_eq in Hj|].
    by rewrite lookup_insert_ne in Hj. }
  destruct (p_vehicle p) as [[v n]|] eqn:Ep.
  - destruct Hv as (row & Hr & Hn & Hv). split; simpl; [done| | |].
    + intros j rq' p' cs' v' n' Hj%Hother Hp'. destruct (H2 j rq' p' cs' v' n' Hj Hp') as (row' & Hr' & Hle & Hst).
      rewrite Hv. destruct (decide (v = v')) as [<-|].
      * rewrite lookup_insert_eq. assert (row' = row) as -> by congruence. eexists. split_and!; [done|simpl; lia|simpl; lia].
      * rewrite lookup_insert_ne by done. by exists row'.
    + intros v' n' Hin. rewrite Hv. apply elem_of_cons in Hin as [[= -> ->]|Hin].
      * rewrite lookup_insert_eq. eexists. split; [done|simpl; lia].
      * destruct (H3 v' n' Hin) as (row' & Hr' & Hlt). destruct (decide (v = v')) as [<-|].
        -- rewrite lookup_insert_eq. assert (row' = row) as -> by congruence. eexists. split; [done|simpl; lia].
        -- rewrite lookup_insert_ne by done. by exists row'.
    + constructor; [|done]. intros Hin. destruct (H3 v n Hin) as (row' & Hr' & Hlt).
      assert (row' = row) as -> by congruence. lia.
  - split; simpl; try done; rewrite Hv; [|done]. intros j rq' p' cs' v' n' Hj%Hother. by apply (H2 j rq' p' cs').
Qed.

Lemma step_inv repr s s' : inv s -> step repr s s' -> inv s'.
Proof.
  intros Hinv Hs. destruct Hs as [s i rq Hi|s i rq Hi|s i rq c cs Hi|s i rq p cs first no r d' Hi Hw|s i rq p cs first no Hi Hw
    |s i rq p cs first no Hi Hw|s i rq Hi|s v row row' Hr Hv|s v row Hr].
  - by apply inv_set_session.
  - by apply inv_set_session.
  - destruct (read_phase (database s) rq c) as [r|e| |p] eqn:E; try by apply inv_set_session.
    destruct Hinv as [H1 H2 H3 H4]. split; try done. intros j rq' p' cs' v n Hj Hp. simpl in *.
    destruct (decide (i = j)) as [->|]; [|rewrite lookup_insert_ne in Hj by done; by apply (H2 j rq' p' cs')].
    rewrite lookup_insert_eq in Hj. injection Hj as <- <- <-.
    destruct (read_phase_pending _ _ _ _ _ _ E Hp) as (row & Hr & <- & Hst). exists row. split_and!; [done|lia|done].
  - by apply (inv_commit repr s i rq p cs first no).
  - by apply inv_set_session.
  - by apply inv_set_session.
  - by apply inv_set_session.
  - apply inv_vehicles; [done|]. intros v' row0 Hr0. destruct (decide (v = v')) as [<-|].
    + rewrite lookup_insert_eq. assert (row0 = row) as -> by congruence. eexists. split; [done|right; lia].
    + rewrite lookup_insert_ne by done. eauto.
  - apply inv_vehicles; [done|]. intros v' row0 Hr0. rewrite lookup_insert_ne by congruence. eauto.
Qed.

Lemma reachable_inv repr d0 s : unique_tasks d0 -> reachable repr d0 s -> inv s.
Proof.
  intros H0. induction 1 as [|s s' _ IH Hs]; [|by apply (step_inv repr s)].
  split; simpl; [done| | |constructor].
  - intros i rq p cs v n Hi. by rewrite lookup_empty in Hi.
  - by intros v n Hin%not_elem_of_nil.
Qed.


(** ** One request without interleaving *)

(** What one execution that commits adds to the database. *)
Definition commits (repr : pyval -> string) (d : db) (rq : request) (r : DispatchResult) (d' : db) : Prop :=
  exists pk p no, find_task d (task_id rq) = Some pk /\ get_by_task_id d pk = None /\ p_task_pk p = pk /\
    let x := new_dispatch rq p (next_id d) no in
    dispatches d' = dispatches d ++ [x] /\ r = committed_result rq x /\
    evidences d' = evidences d ++ new_evidence repr rq p (next_id d) /\ tasks d' = tasks d /\
    match p_vehicle p with
    | None => p_target_vehicle p = None /\ vehicles d' = vehicles d /\ ranked_eligible_candidates (candidate_vehicles rq) = []
    | Some (v, n) => p_target_vehicle p = Some v /\ is_Some (p_target_driver p) /\
        (exists c, c ∈ take 2 (ranked_eligible_candidates (candidate_vehicles rq)) /\ text (Some c) "vehicle_id" = Some v) /\
        vehicles d !! v = Some {| v_status := "AVAILABLE"; v_version := n |} /\
        vehicles d' = <[v := {| v_status := "RESERVED"; v_version := n + 1 |}]> (vehicles d)
    end.

Lemma read_phase_pending_inv d rq c p :
  read_phase d rq c = Pending p ->
  find_task d (task_id rq) = Some (p_task_pk p) /\ get_by_task_id d (p_task_pk p) = None /\
  p_target_vehicle p = text c "vehicle_id" /\ p_target_driver p = text c "driver_id" /\
  match c with
  | None => p_vehicle p = None
  | Some _ => exists v n, p_vehicle p = Some (v, n) /\ text c "vehicle_id" = Some v /\ is_Some (text c "driver_id") /\
      vehicles d !! v = Some {| v_status := "AVAILABLE"; v_version := n |}
  end.
Proof.
  unfold read_phase. intros H. destruct (find_task d (task_id rq)) as [pk|]; [|done].
  destruct (get_by_task_id d pk) eqn:Ex; [done|]. destruct c as [c|]; [|injection H as <-; by split_and!].
  destruct (text (Some c) "vehicle_id") as [v|] eqn:Ev; [|done].
  destruct (text (Some c) "driver_id") as [dr|] eqn:Ed; [|done].
  destruct (vehicles d !! v) as [row|] eqn:Er; [|done].
  destruct (String.eqb_spec (v_status row) "AVAILABLE"); [|done]. injection H as <-. simpl. split_and!; try done.
  exists v, (v_version row). split_and!; [done|done|eauto|]. rewrite Er. destruct row; simpl in *. by subst.
Qed.

Lemma read_phase_finished d rq c r :
  read_phase d rq c = Finished r -> exists pk x, find_task d (task_id rq) = Some pk /\ get_by_task_id d pk = Some x /\ r = existing_result rq x.
Proof.
  unfold read_phase. intros H. destruct (find_task d (task_id rq)) as [pk|]; [|done].
  destruct (get_by_task_id d pk) as [x|] eqn:E; [injection H as <-; eauto|]. by repeat case_match.
Qed.

Definition attempt_of (rq : request) (c : option pydict) : Prop :=
  match c with
  | None => ranked_eligible_candidates (candidate_vehicles rq) = []
  | Some c => c ∈ take 2 (ranked_eligible_candidates (candidate_vehicles rq))
  end.

Lemma attempts_elem rq c : c ∈ attempts rq -> attempt_of rq c.
Proof.
  unfold attempts, attempt_of. destruct (ranked_eligible_candidates _) as [|c0 cs]; [by intros ->%elem_of_one|].
  intros (x & -> & Hx)%list_elem_of_fmap. done.
Qed.

(** The outcome of one attempt: an existing dispatch, a commit, a conflict with
    nothing changed, or an error with nothing changed. *)
Lemma execute_once_cases repr first d rq c no o d' :
  attempt_of rq c -> execute_once repr first d rq c no = (o, d') ->
  match o with
  | Some (Ok r) => (d' = d /\ exists pk x, find_task d (task_id rq) = Some pk /\ get_by_task_id d pk = Some x /\ r = existing_result rq x)
                   \/ commits repr d rq r d'
  | Some (Err e) => d' = d
  | None => d' = d
  end.
Proof.
  intros Hc. unfold execute_once. destruct (read_phase d rq c) as [r|e| |p] eqn:E; intros H.
  - injection H as <- <-. left. split; [done|]. by apply read_phase_finished in E.
  - by injection H as <- <-.
  - by injection H as <- <-.
  - destruct (write_phase repr first d rq p no) as [r d1| |] eqn:Ew.
    + injection H as <- <-. right. apply write_phase_committed in Ew as (_ & Hd & -> & He & _ & Ht & Hv).
      apply read_phase_pending_inv in E as (H1 & H2 & H3 & H4 & H5).
      exists (p_task_pk p), p, no. cbv zeta. do 7 (split; [done|]). destruct c as [c|].
      * destruct H5 as (v & n & Hpv & Hvid & Hdr & Hrow). rewrite Hpv in *. destruct Hv as (row & Hr & Hn & Hv).
        split_and!; try done; [by rewrite H3|by rewrite H4|by exists c].
      * rewrite H5 in *. split_and!; [by rewrite H3|done|done].
    + by injection H as <- <-.
    + destruct (reread_phase d rq) as [r|] eqn:Er; injection H as <- <-; [|done]. left. split; [done|].
      unfold reread_phase in Er. destruct (find_task d (task_id rq)) as [pk|] eqn:Ef; [|done]. simpl in Er.
      destruct (get_by_task_id d pk) as [x|] eqn:Ex; [|done]. simpl in Er. injection Er as <-. eauto.
Qed.

Lemma try_candidates_cases repr first d rq cs nos res d' :
  (forall c, c ∈ cs -> attempt_of rq c) -> try_candidates repr first d rq cs nos = (res, d') ->
  match res with
  | Ok r => (d' = d /\ exists pk x, find_task d (task_id rq) = Some pk /\ get_by_task_id d pk = Some x /\ r = existing_result rq x)
            \/ commits repr d rq r d'
  | Err e => d' = d
  end.
Proof.
  revert nos. induction cs as [|c cs IH]; intros nos Hcs H; simpl in H; [by injection H as <- <-|].
  destruct (execute_once repr first d rq c (default "" (head nos))) as [o d1] eqn:E.
  apply execute_once_cases in E; [|apply Hcs; left]. destruct o as [[r|e]|]; [by injection H as <- <-..|].
  subst d1. apply (IH (tail nos)); [intros; apply Hcs; by right|done].
Qed.

Lemma find_app_fresh {A} (f : A -> bool) l x : List.find f l = None -> f x = true -> List.find f (l ++ [x]) = Some x.
Proof. intros Hn Hx. induction l as [|y l IH]; simpl in *; [by rewrite Hx|]. destruct (f y); [done|auto]. Qed.

Lemma commits_existing repr d rq r d' :
  commits repr d rq r d' ->
  exists pk x, find_task d' (task_id rq) = Some pk /\ get_by_task_id d' pk = Some x /\ r = committed_result rq x /\
    d_status x = dispatch_status rq.
Proof.
  intros (pk & p & no & Hf & Hg & Hpk & Hd & Hr & _ & Ht & _). exists pk, (new_dispatch rq p (next_id d) no).
  split_and!; [unfold find_task in *; by rewrite Ht| |done|done].
  unfold get_by_task_id in *. rewrite Hd. apply find_app_fresh; [done|]. simpl. rewrite Hpk. apply Z.eqb_refl.
Qed.

Lemma dispatch_status_manual rq : String.eqb (dispatch_status rq) "REVIEW_REQUIRED" = manual_review rq.
Proof. unfold dispatch_status. destruct (manual_review rq); [done|]. by destruct (String.eqb (decision rq) "REROUTE"). Qed.

Lemma execute_existing repr first d rq nos pk x :
  find_task d (task_id rq) = Some pk -> get_by_task_id d pk = Some x ->
  execute repr first d rq nos = (Ok (existing_result rq x), d).
Proof.
  intros Hf Hg. unfold execute, attempts.
  assert (Hr : forall c, read_phase d rq c = Finished (existing_result rq x)) by (intros c; unfold read_phase; by rewrite Hf, Hg).
  destruct (ranked_eligible_candidates (candidate_vehicles rq)) as [|c cs]; simpl; unfold execute_once; by rewrite Hr.
Qed.

(** A candidate that can be reserved in [d]. *)
Definition reservable (d : db) (c : pydict) : Prop :=
  exists v n, text (Some c) "vehicle_id" = Some v /\ is_Some (text (Some c) "driver_id") /\
    vehicles d !! v = Some {| v_status := "AVAILABLE"; v_version := n |}.

Lemma read_phase_candidate d rq c pk :
  find_task d (task_id rq) = Some pk -> get_by_task_id d pk = None ->
  match read_phase d rq (Some c) with
  | Pending p => reservable d c /\ is_Some (reserve_vehicle d p)
  | CandidateConflict => ~ reservable d c
  | _ => False
  end.
Proof.
  intros Hf Hg. destruct (read_phase d rq (Some c)) as [r|e| |p] eqn:E.
  - apply read_phase_finished in E as (pk' & x & Hf' & Hg' & _). congruence.
  - unfold read_phase in E. rewrite Hf, Hg in E. by repeat case_match.
  - unfold read_phase in E. rewrite Hf, Hg in E. intros (v & n & Hv & [dr Hd] & Hrow).
    rewrite Hv, Hd, Hrow in E. done.
  - apply read_phase_pending_inv in E as (_ & _ & _ & _ & v & n & Hpv & Hvid & Hdr & Hrow). split; [by exists v, n|].
    unfold reserve_vehicle. rewrite Hpv, Hrow. simpl. rewrite Z.eqb_refl. eauto.
Qed.

Lemma write_phase_not_stale repr first d rq p no :
  is_Some (reserve_vehicle d p) -> write_phase repr first d rq p no <> Stale.
Proof. intros [vs H]. unfold write_phase. rewrite H. by destruct (dispatch_accepted d _). Qed.

Lemma execute_once_conflict repr first d rq c no pk o d' :
  find_task d (task_id rq) = Some pk -> get_by_task_id d pk = None ->
  execute_once repr first d rq (Some c) no = (o, d') ->
  (o = None <-> ~ reservable d c) /\ (forall e, o = Some (Err e) -> e <> VehicleReservationConflict).
Proof.
  intros Hf Hg. pose proof (read_phase_candidate d rq c pk Hf Hg) as H. unfold execute_once.
  destruct (read_phase d rq (Some c)) as [r|e| |p]; try done.
  - intros [= <- <-]. by split.
  - destruct H as [Hres Hrv]. pose proof (write_phase_not_stale repr first d rq p no Hrv) as Hns.
    destruct (write_phase repr first d rq p no) as [r d1| |]; [|done|].
    + intros [= <- <-]. split; [|by intros e [= ?]]. split; [done|intros C; by destruct (C Hres)].
    + destruct (reread_phase d rq); intros [= <- <-].
      * split; [|by intros e [= ?]]. split; [done|intros C; by destruct (C Hres)].
      * split; [split; [done|intros C; by destruct (C Hres)]|]. intros e [= <-]. done.
Qed.

Lemma try_candidates_conflict repr first d rq cs nos pk :
  find_task d (task_id rq) = Some pk -> get_by_task_id d pk = None ->
  (fst (try_candidates repr first d rq (map Some cs) nos) = Err VehicleReservationConflict <->
   forall c, c ∈ cs -> ~ reservable d c).
Proof.
  intros Hf Hg. revert nos. induction cs as [|c cs IH]; intros nos; simpl.
  { split; [intros _ c Hc; by apply not_elem_of_nil in Hc|done]. }
  destruct (execute_once repr first d rq (Some c) (default "" (head nos))) as [o d1] eqn:E.
  pose proof (execute_once_conflict _ _ _ _ _ _ _ _ _ Hf Hg E) as [Hn He].
  destruct o as [[r|e]|].
  - simpl. split; [done|]. intros Hall. discriminate (proj2 Hn (Hall c (list_elem_of_here c cs))).
  - simpl. split; [intros [= ->]; by destruct (He _ eq_refl)|].
    intros Hall. discriminate (proj2 Hn (Hall c (list_elem_of_here c cs))).
  - assert (d1 = d) as ->.
    { unfold execute_once in E. repeat case_match; by injection E. }
    rewrite IH. split.
    + intros Hall c' [->|Hc']%elem_of_cons; [by apply Hn|auto].
    + intros Hall c' Hc'. apply Hall. by right.
Qed.

(** ** Theorems *)

(** C3: under any interleaving of dispatch requests with each other and with
    other writers of the vehicles, a task has at most one dispatch and no
    version of a vehicle is reserved twice. *)
Theorem dispatch_never_double_books repr d0 s :
  unique_tasks d0 -> reachable repr d0 s -> unique_tasks (database s) /\ NoDup (reservations s).
Proof. intros H0 Hr. destruct (reachable_inv repr d0 s H0 Hr) as [H1 _ _ H4]. done. Qed.

(** under any interleaving, a commit that reserves a vehicle finds it
    [AVAILABLE] at the moment of the commit and leaves it [RESERVED] at the next
    version, together with exactly one new dispatch of that vehicle and its two
    evidence rows. *)
Theorem dispatch_reserves_available repr d0 s i rq p cs first no r d' v n :
  unique_tasks d0 -> reachable repr d0 s -> sessions s !! i = Some (Writing rq p cs) -> p_vehicle p = Some (v, n) ->
  write_phase repr first (database s) rq p no = Committed r d' ->
  vehicles (database s) !! v = Some {| v_status := "AVAILABLE"; v_version := n |} /\
  vehicles d' = <[v := {| v_status := "RESERVED"; v_version := n + 1 |}]> (vehicles (database s)) /\
  exists x, dispatches d' = dispatches (database s) ++ [x] /\ d_target_vehicle_id x = p_target_vehicle p /\
    evidences d' = evidences (database s) ++ new_evidence repr rq p (d_id x).
Proof.
  intros H0 Hr Hi Hp Hw. destruct (reachable_inv repr d0 s H0 Hr) as [_ Hpend _ _].
  destruct (Hpend _ _ _ _ _ _ Hi Hp) as (row & Hrow & Hle & Hst).
  apply write_phase_committed in Hw as (_ & Hd & _ & He & _ & _ & Hv). rewrite Hp in Hv.
  destruct Hv as (row' & Hrow' & Hn & Hv). assert (row' = row) as -> by congruence.
  split_and!; [|done|eexists; by split_and!]. rewrite Hrow. destruct row as [st ver]; simpl in *. subst ver. by rewrite Hst.
Qed.

(** one execution either answers with the task's existing dispatch and
    changes nothing, or commits one dispatch, its evidence and at most one
    reservation, or raises and changes nothing. *)
Theorem execute_atomic repr first d rq nos res d' :
  execute repr first d rq nos = (res, d') ->
  match res with
  | Ok r => (d' = d /\ exists pk x, find_task d (task_id rq) = Some pk /\ get_by_task_id d pk = Some x /\ r = existing_result rq x)
            \/ commits repr d rq r d'
  | Err e => d' = d
  end.
Proof. apply try_candidates_cases. apply attempts_elem. Qed.

(** executing a task again answers with the dispatch of the first execution
    and changes nothing, whatever the second request asks for. *)
Theorem execute_idempotent repr first d rq nos r d' first' rq' nos' :
  execute repr first d rq nos = (Ok r, d') -> task_id rq' = task_id rq ->
  exists r', execute repr first' d' rq' nos' = (Ok r', d') /\
    r_dispatch_id r' = r_dispatch_id r /\ r_dispatch_no r' = r_dispatch_no r /\ r_status r' = r_status r /\
    r_target_route_id r' = r_target_route_id r /\ r_target_vehicle_id r' = r_target_vehicle_id r /\
    r_target_driver_id r' = r_target_driver_id r /\ executed r' = executed r /\
    r_requires_manual_review r' = r_requires_manual_review r.
Proof.
  intros H Ht. pose proof (try_candidates_cases repr first d rq (attempts rq) nos (Ok r) d' (attempts_elem rq) H) as Hc. simpl in Hc.
  destruct Hc as [(-> & pk & x & Hf & Hg & ->)|Hc].
  - exists (existing_result rq' x). split; [by apply (execute_existing _ _ _ _ _ pk); [rewrite Ht|]|]. by split_and!.
  - apply commits_existing in Hc as (pk & x & Hf & Hg & -> & Hs).
    exists (existing_result rq' x). split; [by apply (execute_existing _ _ _ _ _ pk); [rewrite Ht|]|].
    simpl. rewrite Hs, dispatch_status_manual. by split_and!.
Qed.

(** a task without a dispatch ends in [VehicleReservationConflict] exactly
    when there are eligible candidates and neither of the first two can be
    reserved; later candidates are never tried. *)
Theorem execute_conflict_iff repr first d rq nos pk :
  find_task d (task_id rq) = Some pk -> get_by_task_id d pk = None ->
  (fst (execute repr first d rq nos) = Err VehicleReservationConflict <->
   ranked_eligible_candidates (candidate_vehicles rq) <> [] /\
   forall c, c ∈ take 2 (ranked_eligible_candidates (candidate_vehicles rq)) -> ~ reservable d c).
Proof.
  intros Hf Hg. unfold execute, attempts. destruct (ranked_eligible_candidates (candidate_vehicles rq)) as [|c0 cs] eqn:E.
  - split; [|intros [C _]; done]. simpl. unfold execute_once, read_phase. rewrite Hf, Hg. simpl.
    unfold write_phase, reserve_vehicle. simpl.
    destruct (dispatch_accepted d _); [done|]. by destruct (reread_phase d rq).
  - rewrite try_candidates_conflict by done. split; [intros H; by split|intros [_ H]; done].
Qed.

(** ** Witnesses *)
Definition ex_db : db :=
  {| orders := {[ 7 ]}; road_nodes := {[ "C"%string ]}; tasks := [(1, "task-1"%string)];
     vehicles := <["V1"%string := {| v_status := "BROKEN"; v_version := 5 |}]>
                   (<["V3"%string := {| v_status := "RESERVED"; v_version := 2 |}]>
                     {[ "V4"%string := {| v_status := "AVAILABLE"; v_version := 3 |} ]});
     dispatches := []; evidences := []; next_id := 1 |}.
Definition ex_candidate (v dr : string) : pydict :=
  [("vehicle_id", PStr v); ("driver_id", PStr dr); ("eligible", PBool true); ("score", PDecimal "91.5")]%string.
Definition ex_rq (cs : list pydict) : request :=
  {| task_id := "task-1"; order_id := 7; original_route_id := "R1"; target_route_id := Some "R2"%string;
     decision := "REROUTE"; decision_reason := "road closed"; fallback_used := false; fallback_reason := None;
     requires_manual_review := false; recommended_action := None; analysis_mode := None; issue_subtype := None;
     original_vehicle_id := Some "V1"%string; candidate_vehicles := cs; transfer_node_id := Some "C"%string;
     fleet_evidence := None; route_evidence := None |}.
Definition ex_repr (v : pyval) : string := "".
Definition ex_ranked : list pydict := [ex_candidate "V3" "D3"; ex_candidate "V4" "D4"].

(** The first candidate is taken, the second is reserved. *)
Example ex_execute_runs :
  let '(r, d') := execute ex_repr true ex_db (ex_rq ex_ranked) ["DSP-1"; "DSP-2"]%string in
  (x ← r; Ok (r_status x, r_target_vehicle_id x, r_dispatch_no x)) = Ok ("REROUTED", Some "V4", Some "DSP-2")%string /\
  vehicles d' !! "V4"%string = Some {| v_status := "RESERVED"; v_version := 4 |} /\ length (evidences d') = 2%nat.
Proof. vm_compute. done. Qed.

Lemma ex_unique : unique_tasks ex_db.
Proof. constructor. Qed.

Definition ex_p : pending :=
  {| p_task_pk := 1; p_vehicle := Some ("V4"%string, 3); p_target_vehicle := Some "V4"%string; p_target_driver := Some "D4"%string |}.
Definition ex_started : system :=
  set_session {| database := ex_db; sessions := ∅; reservations := [] |} 0%nat
    (Trying (ex_rq [ex_candidate "V4" "D4"]) (attempts (ex_rq [ex_candidate "V4" "D4"]))).
Definition ex_system : system :=
  set_session ex_started 0%nat
    (after_read (ex_rq [ex_candidate "V4" "D4"]) []
       (read_phase (database ex_started) (ex_rq [ex_candidate "V4" "D4"]) (Some (ex_candidate "V4" "D4")))).

Lemma ex_reachable : reachable ex_repr ex_db ex_system.
Proof.
  apply (reach_step ex_repr ex_db ex_started); [apply (reach_step ex_repr ex_db _ _ (reach_init ex_repr ex_db))|].
  - apply step_start. apply lookup_empty.
  - apply (step_read ex_repr ex_started). apply lookup_insert_eq.
Qed.

Lemma ex_writing : sessions ex_system !! 0%nat = Some (Writing (ex_rq [ex_candidate "V4" "D4"]) ex_p []).
Proof. unfold ex_system. simpl. rewrite lookup_insert_eq. vm_compute. reflexivity. Qed.

Example dispatch_never_double_books_witness : unique_tasks (database ex_system) /\ NoDup (reservations ex_system).
Proof. exact (dispatch_never_double_books ex_repr ex_db ex_system ex_unique ex_reachable). Defined.

Example dispatch_reserves_available_witness :
  exists r d', write_phase ex_repr true ex_db (ex_rq [ex_candidate "V4" "D4"]) ex_p "DSP-1" = Committed r d' /\
    vehicles d' = <["V4"%string := {| v_status := "RESERVED"; v_version := 4 |}]> (vehicles ex_db).
Proof.
  assert (H : exists r d', write_phase ex_repr true ex_db (ex_rq [ex_candidate "V4" "D4"]) ex_p "DSP-1" = Committed r d').
  { vm_compute. do 2 eexists. reflexivity. }
  destruct H as (r & d' & E). exists r, d'.
  destruct (dispatch_reserves_available ex_repr ex_db ex_system 0%nat (ex_rq [ex_candidate "V4" "D4"]) ex_p [] true "DSP-1" r d' "V4" 3
    ex_unique ex_reachable ex_writing eq_refl E) as (_ & Hv & _).
  exact (conj E Hv).
Defined.

Example execute_atomic_witness :
  exists r d', execute ex_repr true ex_db (ex_rq ex_ranked) ["DSP-1"; "DSP-2"]%string = (Ok r, d') /\
    ((d' = ex_db /\ exists pk x, find_task ex_db "task-1" = Some pk /\ get_by_task_id ex_db pk = Some x /\ r = existing_result (ex_rq ex_ranked) x)
     \/ commits ex_repr ex_db (ex_rq ex_ranked) r d').
Proof.
  assert (H : exists r d', execute ex_repr true ex_db (ex_rq ex_ranked) ["DSP-1"; "DSP-2"]%string = (Ok r, d')).
  { vm_compute. do 2 eexists. reflexivity. }
  destruct H as (r & d' & E). exists r, d'. exact (conj E (execute_atomic _ _ _ _ _ _ _ E)).
Defined.

Example execute_idempotent_witness :
  exists r d' r', execute ex_repr true ex_db (ex_rq ex_ranked) ["DSP-1"; "DSP-2"]%string = (Ok r, d') /\
    execute ex_repr false d' (ex_rq []) ["DSP-9"%string] = (Ok r', d') /\ r_dispatch_no r' = r_dispatch_no r.
Proof.
  assert (H : exists r d', execute ex_repr true ex_db (ex_rq ex_ranked) ["DSP-1"; "DSP-2"]%string = (Ok r, d')).
  { vm_compute. do 2 eexists. reflexivity. }
  destruct H as (r & d' & E).
  destruct (execute_idempotent _ _ _ _ _ _ _ false (ex_rq []) ["DSP-9"%string] E eq_refl) as (r' & E' & _ & Hno & _).
  exists r, d', r'. exact (conj E (conj E' Hno)).
Defined.

Example execute_conflict_iff_witness :
  fst (execute ex_repr true ex_db (ex_rq [ex_candidate "V3" "D3"]) ["DSP-1"%string]) = Err VehicleReservationConflict /\
  ~ reservable ex_db (ex_candidate "V3" "D3").
Proof.
  assert (E : fst (execute ex_repr true ex_db (ex_rq [ex_candidate "V3" "D3"]) ["DSP-1"%string]) = Err VehicleReservationConflict).
  { vm_compute. reflexivity. }
  split; [exact E|].
  exact (proj2 (proj1 (execute_conflict_iff ex_repr true ex_db (ex_rq [ex_candidate "V3" "D3"]) ["DSP-1"%string] 1 eq_refl eq_refl) E)
    (ex_candidate "V3" "D3") (list_elem_of_here _ _)).
Defined.
