(* ===== verification/RuntimeThreads.v ===== *)
(** * RuntimeThreads: the ledger of graph executions and their checkpoints

    Models [app/runtime_threads/models.py], [identity.py] and
    [sqlalchemy_repository.py].  A store holds the rows of [runtime_threads]
    and [runtime_thread_events].  Operations that read in Python and write at
    commit take the environment [env], what other sessions commit in between;
    the conditional [UPDATE]s are single steps.  Generated event ids and the
    created/updated timestamps are left out; [terminal_at] is the clock [now]. *)

From S2P Require Import Prelude.

Local Open Scope Z_scope.
Local Open Scope list_scope.

(** ** Data *)
Inductive RuntimeThreadStatus := RUNNING | STABLE | OVERRIDING | TERMINAL.
#[export] Instance RuntimeThreadStatus_eq_dec : EqDecision RuntimeThreadStatus.
Proof. solve_decision. Defined.

Inductive RuntimeThreadEventType :=
| THREAD_CREATED | CHECKPOINT_STAGED | CHECKPOINT_PROMOTED | THREAD_RESUMED | THREAD_TERMINAL
| RECONCILIATION | ERROR | RUNTIME_OVERRIDE_APPLIED.
#[export] Instance RuntimeThreadEventType_eq_dec : EqDecision RuntimeThreadEventType.
Proof. solve_decision. Defined.

(** A row of [runtime_threads], which is also its snapshot. *)
Record RuntimeThread := {
  thread_id : string;
  task_id : string;
  status : RuntimeThreadStatus;
  current_checkpoint_id : option string;
  state_version : Z;
  current_node : option string;
  next_node : option string;
  checkpoint_count : Z;
  checkpoint_size_bytes : option Z;
  last_event_sequence : option Z;
  worker_consumer : option string;
  resumed_count : Z;
  terminal_at : option Z;
  row_version : Z;
}.

Definition terminal (t : RuntimeThread) : bool := bool_decide (status t = TERMINAL).

Record RuntimeThreadEvent := {
  event_key : string;
  ev_thread_id : string;
  event_type : RuntimeThreadEventType;
  ev_checkpoint_id : option string;
  ev_parent_checkpoint_id : option string;
  ev_state_version : Z;
  ev_node : option string;
  ev_next_node : option string;
  ev_checkpoint_size_bytes : option Z;
  ev_worker_consumer : option string;
  ev_error_code : option string;
}.

Record PromoteCheckpoint := {
  cmd_thread_id : string;
  expected_checkpoint_id : option string;
  expected_state_version : Z;
  cmd_checkpoint_id : string;
  cmd_parent_checkpoint_id : option string;
  cmd_node : string;
  cmd_next_node : option string;
  cmd_checkpoint_size_bytes : Z;
  cmd_worker_consumer : string;
  cmd_event_key : string;
  cmd_event_type : RuntimeThreadEventType;
}.

Definition ThreadVersionConflict (m : string) : exn := Exn "ThreadVersionConflict" m.
Definition BoundaryClaimConflict (m : string) : exn := Exn "BoundaryClaimConflict" m.
Definition LookupError (m : string) : exn := Exn "LookupError" m.
Definition StaleDataError : exn := Exn "StaleDataError" "".
Definition IntegrityError : exn := Exn "IntegrityError" "".
Definition CasFailed : exn := ThreadVersionConflict "Runtime thread checkpoint compare-and-swap failed.".

(** ** Identity *)
Definition is_lower_hex (c : Ascii.ascii) : bool :=
  let n := Ascii.nat_of_ascii c in (Nat.leb 48 n && Nat.leb n 57) || (Nat.leb 97 n && Nat.leb n 102).

(** [^TASK-[0-9a-f]{31}$], full match. *)
Definition valid_task_id (s : string) : bool :=
  String.eqb (String.substring 0 5 s) "TASK-" && Nat.eqb (String.length s) 36
  && forallb is_lower_hex (String.list_ascii_of_string (String.substring 5 31 s)).

Definition InvalidTaskId : exn := Exn "ValueError" "Runtime thread task ID is invalid.".
Definition thread_id_for_task (t : string) : result string :=
  if valid_task_id t then Ok ("cf:dispatch:" +:+ t) else Err InvalidTaskId.
Definition thread_id_for_persisted_task (t : string) : result string :=
  if String.eqb t "" then Err InvalidTaskId else Ok ("cf:dispatch:" +:+ t).

(** ** The store *)
Record store := {
  known_tasks : gset string;                    (* task ids of [dispatch_tasks] *)
  threads : gmap string RuntimeThread;          (* by thread_id *)
  events : list RuntimeThreadEvent;             (* by ascending id *)
}.

Definition with_thread (s : store) (t : RuntimeThread) : store :=
  {| known_tasks := known_tasks s; threads := <[thread_id t := t]> (threads s); events := events s |}.
Definition add_event (s : store) (e : RuntimeThreadEvent) : store :=
  {| known_tasks := known_tasks s; threads := threads s; events := events s ++ [e] |}.

Definition thread_of_task (s : store) (task : string) : option RuntimeThread :=
  snd <$> List.find (fun kt => String.eqb (task_id kt.2) task) (map_to_list (threads s)).
Definition get_by_thread_id (s : store) (t : string) : option RuntimeThread := threads s !! t.
Definition event_by_key (s : store) (t key : string) : option RuntimeThreadEvent :=
  List.find (fun e => String.eqb (ev_thread_id e) t && String.eqb (event_key e) key) (events s).
Definition required_thread (s : store) (t : string) : result RuntimeThread :=
  of_option (LookupError ("Unknown runtime thread: " +:+ t)) (threads s !! t).

(** Flushing an event: its key is unique within its thread, and the thread exists. *)
Definition insert_event (s : store) (e : RuntimeThreadEvent) : result store :=
  match threads s !! ev_thread_id e, event_by_key s (ev_thread_id e) (event_key e) with
  | Some _, None => Ok (add_event s e)
  | _, _ => Err IntegrityError
  end.

(** The row as the flush writes it. *)
Definition bump (t : RuntimeThread) : RuntimeThread :=
  {| thread_id := thread_id t; task_id := task_id t; status := status t; current_checkpoint_id := current_checkpoint_id t;
     state_version := state_version t; current_node := current_node t; next_node := next_node t;
     checkpoint_count := checkpoint_count t; checkpoint_size_bytes := checkpoint_size_bytes t;
     last_event_sequence := last_event_sequence t; worker_consumer := worker_consumer t;
     resumed_count := resumed_count t; terminal_at := terminal_at t; row_version := row_version t + 1 |}.

(** Flushing a row loaded as [old]: the unit of work's version check
    ([UPDATE ... WHERE id AND row_version]). *)
Definition update_row (s : store) (old new : RuntimeThread) : result store :=
  match threads s !! thread_id old with
  | Some cur => if row_version cur =? row_version old then Ok (with_thread s (bump new)) else Err StaleDataError
  | None => Err StaleDataError
  end.

(** One transaction writing a row and its event; nothing is kept on failure. *)
Definition commit_both (s : store) (old new : RuntimeThread) (e : RuntimeThreadEvent) : result store :=
  s' ← update_row s old new; insert_event s' e.

Definition committed_row (s : store) (t : string) : result RuntimeThread := required_thread s t.

(** ** create_for_task *)
Definition new_thread (thread task : string) : RuntimeThread :=
  {| thread_id := thread; task_id := task; status := RUNNING; current_checkpoint_id := None; state_version := 0;
     current_node := None; next_node := Some "intake"%string; checkpoint_count := 0; checkpoint_size_bytes := None;
     last_event_sequence := None; worker_consumer := None; resumed_count := 0; terminal_at := None; row_version := 1 |}.

Definition created_event (thread : string) : RuntimeThreadEvent :=
  {| event_key := "thread:created"; ev_thread_id := thread; event_type := THREAD_CREATED; ev_checkpoint_id := None;
     ev_parent_checkpoint_id := None; ev_state_version := 0; ev_node := None; ev_next_node := None;
     ev_checkpoint_size_bytes := None; ev_worker_consumer := None; ev_error_code := None |}.

(** Unique [thread_id] and [task_id], and the task's foreign key. *)
Definition insert_thread (s : store) (t : RuntimeThread) : result store :=
  match threads s !! thread_id t, thread_of_task s (task_id t), bool_decide (task_id t ∈ known_tasks s) with
  | None, None, true => Ok (with_thread s t)
  | _, _, _ => Err IntegrityError
  end.

Definition create_for_task (env : store -> store) (task thread : string) : action store RuntimeThread := fun s =>
  match thread_of_task s task with
  | Some row =>
      if String.eqb (thread_id row) thread then (Ok row, s)
      else (Err (ThreadVersionConflict "Dispatch task is already assigned to another runtime thread."), s)
  | None =>
      if negb (bool_decide (task ∈ known_tasks s)) then (Err (LookupError ("Unknown dispatch task: " +:+ task)), s)
      else
        let s1 := env s in
        match s2 ← insert_thread s1 (new_thread thread task); insert_event s2 (created_event thread) with
        | Ok s3 => (Ok (new_thread thread task), s3)
        | Err e =>
            match thread_of_task s1 task with
            | Some row => if String.eqb (thread_id row) thread then (Ok row, s1) else (Err e, s1)
            | None => (Err e, s1)
            end
        end
  end.

(** ** Stable-boundary claims: one conditional [UPDATE] each *)
Definition set_status (t : RuntimeThread) (st : RuntimeThreadStatus) (worker : option string) : RuntimeThread :=
  {| thread_id := thread_id t; task_id := task_id t; status := st; current_checkpoint_id := current_checkpoint_id t;
     state_version := state_version t; current_node := current_node t; next_node := next_node t;
     checkpoint_count := checkpoint_count t; checkpoint_size_bytes := checkpoint_size_bytes t;
     last_event_sequence := last_event_sequence t;
     worker_consumer := match worker with Some w => Some w | None => worker_consumer t end;
     resumed_count := resumed_count t; terminal_at := terminal_at t; row_version := row_version t + 1 |}.

Definition boundary_matches (t : RuntimeThread) (st : RuntimeThreadStatus) (checkpoint : string) (version : Z) (next : string) : bool :=
  bool_decide (status t = st) && bool_decide (current_checkpoint_id t = Some checkpoint)
  && (state_version t =? version) && bool_decide (next_node t = Some next).

Definition update_boundary (from to : RuntimeThreadStatus) (worker : option string) (conflict : string)
    (thread checkpoint : string) (version : Z) (next : string) : action store RuntimeThread := fun s =>
  match threads s !! thread with
  | Some t =>
      if boundary_matches t from checkpoint version next
      then (Ok (set_status t to worker), with_thread s (set_status t to worker))
      else (Err (BoundaryClaimConflict conflict), s)
  | None => (Err (BoundaryClaimConflict conflict), s)
  end.

Definition claim_boundary (to : RuntimeThreadStatus) (worker : option string) :=
  update_boundary STABLE to worker "RUNTIME_BOUNDARY_CLAIM_CONFLICT".
Definition claim_override_boundary := claim_boundary OVERRIDING None.
Definition claim_next_node (thread checkpoint : string) (version : Z) (next worker : string) : action store RuntimeThread :=
  claim_boundary RUNNING (Some worker) thread checkpoint version next.
Definition release_override_boundary := update_boundary OVERRIDING STABLE None "RUNTIME_BOUNDARY_RELEASE_CONFLICT".

(** ** Checkpoints *)
Definition checkpoint_event (c : PromoteCheckpoint) (ty : RuntimeThreadEventType) (key : string) : RuntimeThreadEvent :=
  {| event_key := key; ev_thread_id := cmd_thread_id c; event_type := ty; ev_checkpoint_id := Some (cmd_checkpoint_id c);
     ev_parent_checkpoint_id := cmd_parent_checkpoint_id c; ev_state_version := expected_state_version c + 1;
     ev_node := Some (cmd_node c); ev_next_node := cmd_next_node c;
     ev_checkpoint_size_bytes := Some (cmd_checkpoint_size_bytes c);
     ev_worker_consumer := Some (cmd_worker_consumer c); ev_error_code := None |}.

Definition stage_checkpoint (env : store -> store) (c : PromoteCheckpoint) : action store RuntimeThreadEvent := fun s =>
  let key := "staged:" +:+ cmd_checkpoint_id c in
  match event_by_key s (cmd_thread_id c) key with
  | Some e => (Ok e, s)
  | None =>
      match threads s !! cmd_thread_id c with
      | None => (Err (LookupError ("Unknown runtime thread: " +:+ cmd_thread_id c)), s)
      | Some _ =>
          let e := checkpoint_event c CHECKPOINT_STAGED key in
          let s1 := env s in
          match insert_event s1 e with
          | Ok s2 => (Ok e, s2)
          | Err x => match event_by_key s1 (cmd_thread_id c) key with Some e' => (Ok e', s1) | None => (Err x, s1) end
          end
      end
  end.

Definition promoted (t : RuntimeThread) (c : PromoteCheckpoint) : RuntimeThread :=
  {| thread_id := thread_id t; task_id := task_id t; status := STABLE; current_checkpoint_id := Some (cmd_checkpoint_id c);
     state_version := state_version t + 1; current_node := Some (cmd_node c); next_node := cmd_next_node c;
     checkpoint_count := checkpoint_count t + 1; checkpoint_size_bytes := Some (cmd_checkpoint_size_bytes c);
     last_event_sequence := last_event_sequence t; worker_consumer := Some (cmd_worker_consumer c);
     resumed_count := resumed_count t; terminal_at := terminal_at t; row_version := row_version t |}.

Definition promote_checkpoint (env : store -> store) (c : PromoteCheckpoint) : action store RuntimeThread := fun s =>
  match required_thread s (cmd_thread_id c) with
  | Err e => (Err e, s)
  | Ok row =>
      if bool_decide (current_checkpoint_id row = Some (cmd_checkpoint_id c)) then (Ok row, s)
      else if terminal row then (Err (ThreadVersionConflict "Terminal runtime thread cannot advance."), s)
      else if negb (bool_decide (current_checkpoint_id row = expected_checkpoint_id c))
              || negb (state_version row =? expected_state_version c) then (Err CasFailed, s)
      else
        let s1 := env s in
        match commit_both s1 row (promoted row c) (checkpoint_event c (cmd_event_type c) (cmd_event_key c)) with
        | Ok s2 => (committed_row s2 (cmd_thread_id c), s2)
        | Err _ =>
            match required_thread s1 (cmd_thread_id c) with
            | Err e => (Err e, s1)
            | Ok cur => if bool_decide (current_checkpoint_id cur = Some (cmd_checkpoint_id c)) then (Ok cur, s1)
                        else (Err CasFailed, s1)
            end
        end
  end.

(** ** Resumption, termination, sequence *)
Definition resumed (t : RuntimeThread) (worker : string) : RuntimeThread :=
  {| thread_id := thread_id t; task_id := task_id t; status := status t; current_checkpoint_id := current_checkpoint_id t;
     state_version := state_version t; current_node := current_node t; next_node := next_node t;
     checkpoint_count := checkpoint_count t; checkpoint_size_bytes := checkpoint_size_bytes t;
     last_event_sequence := last_event_sequence t; worker_consumer := Some worker;
     resumed_count := resumed_count t + 1; terminal_at := terminal_at t; row_version := row_version t |}.

Definition resumed_event (t : RuntimeThread) (key worker : string) : RuntimeThreadEvent :=
  {| event_key := key; ev_thread_id := thread_id t; event_type := THREAD_RESUMED;
     ev_checkpoint_id := current_checkpoint_id t; ev_parent_checkpoint_id := None; ev_state_version := state_version t;
     ev_node := current_node t; ev_next_node := next_node t; ev_checkpoint_size_bytes := None;
     ev_worker_consumer := Some worker; ev_error_code := None |}.

Definition mark_resumed (env : store -> store) (thread key worker : string) : action store RuntimeThread := fun s =>
  match required_thread s thread with
  | Err e => (Err e, s)
  | Ok row =>
      if terminal row then (Ok row, s)
      else match event_by_key s thread key with
      | Some _ => (Ok row, s)
      | None =>
          let s1 := env s in
          match commit_both s1 row (resumed row worker) (resumed_event row key worker) with
          | Ok s2 => (committed_row s2 thread, s2)
          | Err e => (Err e, s1)
          end
      end
  end.

Definition terminated (t : RuntimeThread) (worker : string) (node : option string) (now : Z) : RuntimeThread :=
  {| thread_id := thread_id t; task_id := task_id t; status := TERMINAL; current_checkpoint_id := current_checkpoint_id t;
     state_version := state_version t; current_node := node; next_node := None;
     checkpoint_count := checkpoint_count t; checkpoint_size_bytes := checkpoint_size_bytes t;
     last_event_sequence := last_event_sequence t; worker_consumer := Some worker;
     resumed_count := resumed_count t; terminal_at := Some now; row_version := row_version t |}.

Definition terminal_event (t : RuntimeThread) (key worker : string) (node error_code : option string) : RuntimeThreadEvent :=
  {| event_key := key; ev_thread_id := thread_id t; event_type := THREAD_TERMINAL;
     ev_checkpoint_id := current_checkpoint_id t; ev_parent_checkpoint_id := None; ev_state_version := state_version t;
     ev_node := node; ev_next_node := None; ev_checkpoint_size_bytes := None;
     ev_worker_consumer := Some worker; ev_error_code := error_code |}.

Definition mark_terminal (env : store -> store) (now : Z) (thread key worker : string) (node error_code : option string)
    : action store RuntimeThread := fun s =>
  match required_thread s thread with
  | Err e => (Err e, s)
  | Ok row =>
      match event_by_key s thread key with
      | Some _ => (Ok row, s)
      | None =>
          let s1 := env s in
          match commit_both s1 row (terminated row worker node now) (terminal_event row key worker node error_code) with
          | Ok s2 => (committed_row s2 thread, s2)
          | Err e => (Err e, s1)
          end
      end
  end.

Definition sequenced (t : RuntimeThread) (n : Z) : RuntimeThread :=
  {| thread_id := thread_id t; task_id := task_id t; status := status t; current_checkpoint_id := current_checkpoint_id t;
     state_version := state_version t; current_node := current_node t; next_node := next_node t;
     checkpoint_count := checkpoint_count t; checkpoint_size_bytes := checkpoint_size_bytes t;
     last_event_sequence := Some n; worker_consumer := worker_consumer t;
     resumed_count := resumed_count t; terminal_at := terminal_at t; row_version := row_version t |}.

Definition update_last_event_sequence (env : store -> store) (thread : string) (n : Z) : action store RuntimeThread := fun s =>
  match required_thread s thread with
  | Err e => (Err e, s)
  | Ok row =>
      if match last_event_sequence row with None => true | Some m => m <? n end then
        let s1 := env s in
        match update_row s1 row (sequenced row n) with
        | Ok s2 => (committed_row s2 thread, s2)
        | Err e => (Err e, s1)
        end
      else (Ok row, s)
  end.

(** The latest [limit] events, oldest first. *)
Definition list_events (s : store) (thread : string) (limit : Z) : list RuntimeThreadEvent :=
  if limit <=? 0 then []
  else
    let rows := List.filter (fun e => String.eqb (ev_thread_id e) thread) (events s) in
    drop (length rows - Z.to_nat limit) rows.

(** ** The operations as one vocabulary *)
Inductive operation :=
| Create (task thread : string)
| ClaimOverride (thread checkpoint : string) (version : Z) (next : string)
| ClaimNext (thread checkpoint : string) (version : Z) (next worker : string)
| Release (thread checkpoint : string) (version : Z) (next : string)
| Stage (c : PromoteCheckpoint)
| Promote (c : PromoteCheckpoint)
| Resume (thread key worker : string)
| Terminate (now : Z) (thread key worker : string) (node error_code : option string)
| Sequence (thread : string) (n : Z).

(** What an operation leaves in the store, whatever it returns. *)
Definition perform (env : store -> store) (op : operation) (s : store) : store :=
  match op with
  | Create task thread => (create_for_task env task thread s).2
  | ClaimOverride t c v n => (claim_override_boundary t c v n s).2
  | ClaimNext t c v n w => (claim_next_node t c v n w s).2
  | Release t c v n => (release_override_boundary t c v n s).2
  | Stage c => (stage_checkpoint env c s).2
  | Promote c => (promote_checkpoint env c s).2
  | Resume t k w => (mark_resumed env t k w s).2
  | Terminate now t k w n e => (mark_terminal env now t k w n e s).2
  | Sequence t n => (update_last_event_sequence env t n s).2
  end.

(** Several workers and overrides competing for one thread's boundary, one
    after the other: each claim's outcome. *)
Fixpoint compete (thread : string) (claims : list (option string * (string * Z * string))) (s : store)
    : list (result RuntimeThread) * store :=
  match claims with
  | [] => ([], s)
  | (worker, (checkpoint, version, next)) :: rest =>
      let (r, s1) := match worker with
                     | Some w => claim_next_node thread checkpoint version next w s
                     | None => claim_override_boundary thread checkpoint version next s
                     end in
      let (rs, s2) := compete thread rest s1 in (r :: rs, s2)
  end.

Definition succeeded {A} (r : result A) : bool := match r with Ok _ => true | Err _ => false end.

(** ** Evolution and well-formedness *)
Definition opt_le (a b : option Z) : Prop :=
  match a, b with Some x, Some y => x <= y | Some _, None => False | None, _ => True end.

(** What every writer of a thread row respects: the version identifies the row,
    counters only grow, and TERMINAL is final. *)
Record row_evolves (t t' : RuntimeThread) : Prop := {
  re_version : row_version t <= row_version t';
  re_same : row_version t' = row_version t -> t' = t;
  re_task : task_id t' = task_id t;
  re_state : state_version t <= state_version t';
  re_resumed : resumed_count t <= resumed_count t';
  re_sequence : opt_le (last_event_sequence t) (last_event_sequence t');
  re_terminal : status t = TERMINAL -> status t' = TERMINAL;
}.

Record evolves (s s' : store) : Prop := {
  ev_tasks : known_tasks s ⊆ known_tasks s';
  ev_rows : forall k t, threads s !! k = Some t -> exists t', threads s' !! k = Some t' /\ row_evolves t t';
  ev_events : events s `prefix_of` events s';
}.

Record thread_ok (t : RuntimeThread) : Prop := {
  ok_count : state_version t = checkpoint_count t;
  ok_nonneg : 0 <= checkpoint_count t;
  ok_checkpoint : current_checkpoint_id t = None <-> checkpoint_count t = 0;
  ok_terminal : status t = TERMINAL <-> terminal_at t <> None;
  ok_final : status t = TERMINAL -> next_node t = None;
}.

Definition event_ids (s : store) : list (string * string) :=
  map (fun e => (ev_thread_id e, event_key e)) (events s).

Record wf (s : store) : Prop := {
  wf_key : forall k t, threads s !! k = Some t -> thread_id t = k;
  wf_rows : forall k t, threads s !! k = Some t -> thread_ok t;
  wf_task : forall k t, threads s !! k = Some t -> task_id t ∈ known_tasks s;
  wf_unique : forall k k' t t', threads s !! k = Some t -> threads s !! k' = Some t' -> task_id t = task_id t' -> k = k';
  wf_events : NoDup (event_ids s);
  wf_owner : forall e, e ∈ events s -> is_Some (threads s !! ev_thread_id e);
}.

(** Other sessions, seen from between a session's read and its commit: they run
    well-formed operations of this ledger, any number of them. *)
Record fair (env : store -> store) : Prop := {
  fair_evolves : forall s, wf s -> evolves s (env s);
  fair_wf : forall s, wf s -> wf (env s);
}.

(** ** Local steps: the effects one commit can have *)
Record row_step (t t' : RuntimeThread) : Prop := {
  rs_version : row_version t' = row_version t + 1;
  rs_thread : thread_id t' = thread_id t;
  rs_task : task_id t' = task_id t;
  rs_state : state_version t <= state_version t';
  rs_resumed : resumed_count t <= resumed_count t';
  rs_sequence : opt_le (last_event_sequence t) (last_event_sequence t');
  rs_terminal : status t = TERMINAL -> status t' = TERMINAL;
  rs_ok : thread_ok t -> thread_ok t';
}.

Definition fresh_event (s : store) (e : RuntimeThreadEvent) : Prop :=
  event_by_key s (ev_thread_id e) (event_key e) = None.

Inductive local_step (s : store) : store -> Prop :=
| ls_none : local_step s s
| ls_row t t' : threads s !! thread_id t' = Some t -> row_step t t' -> local_step s (with_thread s t')
| ls_row_event t t' e :
    threads s !! thread_id t' = Some t -> row_step t t' -> ev_thread_id e = thread_id t' -> fresh_event s e ->
    local_step s (add_event (with_thread s t') e)
| ls_event e : is_Some (threads s !! ev_thread_id e) -> fresh_event s e -> local_step s (add_event s e)
| ls_create t e :
    threads s !! thread_id t = None -> (forall k t', threads s !! k = Some t' -> task_id t' <> task_id t) ->
    task_id t ∈ known_tasks s -> thread_ok t -> ev_thread_id e = thread_id t -> fresh_event s e ->
    local_step s (add_event (with_thread s t) e).

Lemma opt_le_refl o : opt_le o o.
Proof. destruct o; simpl; [lia|done]. Qed.

Lemma opt_le_trans a b c : opt_le a b -> opt_le b c -> opt_le a c.
Proof. destruct a, b, c; simpl; try done; lia. Qed.

#[export] Hint Resolve opt_le_refl opt_le_trans Z.le_refl : countyflow.

Lemma row_evolves_refl t : row_evolves t t.
Proof. split; auto with countyflow. Qed.

Lemma row_evolves_trans t1 t2 t3 : row_evolves t1 t2 -> row_evolves t2 t3 -> row_evolves t1 t3.
Proof.
  intros H1 H2. destruct H1 as [V1 S1 T1 A1 R1 Q1 L1], H2 as [V2 S2 T2 A2 R2 Q2 L2]. split; try lia; try congruence; auto.
  - intros E. rewrite S2, S1 by lia. done.
  - eauto with countyflow.
Qed.

Lemma row_step_evolves t t' : row_step t t' -> row_evolves t t'.
Proof. intros [V ? ? ? ? ? ? ?]. split; auto; lia. Qed.

Lemma evolves_refl s : evolves s s.
Proof. split; [done| |done]. intros k t H. exists t. split; [done|apply row_evolves_refl]. Qed.

Lemma evolves_trans s1 s2 s3 : evolves s1 s2 -> evolves s2 s3 -> evolves s1 s3.
Proof.
  intros H1 H2. destruct H1 as [K1 R1 E1], H2 as [K2 R2 E2]. split; [by transitivity (known_tasks s2)| |by transitivity (events s2)].
  intros k t H. destruct (R1 k t H) as (t2 & H2 & E). destruct (R2 k t2 H2) as (t3 & H3 & E').
  exists t3. split; [done|]. by apply row_evolves_trans with t2.
Qed.

Lemma evolves_with_thread s t t' :
  threads s !! thread_id t' = Some t -> row_evolves t t' -> evolves s (with_thread s t').
Proof.
  intros H E. split; [done| |done]. intros k r Hr. simpl. destruct (decide (k = thread_id t')) as [->|N].
  - exists t'. rewrite lookup_insert_eq. split; [done|]. congruence.
  - exists r. rewrite lookup_insert_ne by done. split; [done|apply row_evolves_refl].
Qed.

Lemma evolves_add_event s e : evolves s (add_event s e).
Proof.
  split; [done| |by apply prefix_app_r]. intros k t H. exists t. split; [done|apply row_evolves_refl].
Qed.

Lemma evolves_new s t : threads s !! thread_id t = None -> evolves s (with_thread s t).
Proof.
  intros H. split; [done| |done]. intros k r Hr. exists r. simpl.
  rewrite lookup_insert_ne by (intros <-; congruence). split; [done|apply row_evolves_refl].
Qed.

Lemma local_step_evolves s s' : local_step s s' -> evolves s s'.
Proof.
  destruct 1 as [|t t' H S|t t' e H S _ _|e _ _|t e H _ _ _ _ _].
  - apply evolves_refl.
  - by apply (evolves_with_thread _ t), row_step_evolves.
  - eapply evolves_trans; [by apply (evolves_with_thread _ t), row_step_evolves|apply evolves_add_event].
  - apply evolves_add_event.
  - eapply evolves_trans; [by apply evolves_new|apply evolves_add_event].
Qed.

(** *** Local steps keep the store well-formed *)
Lemma event_by_key_none s e : fresh_event s e -> (ev_thread_id e, event_key e) ∉ event_ids s.
Proof.
  intros F H. unfold event_ids in H. apply list_elem_of_In, in_map_iff in H as (x & E & Hx).
  apply (List.find_none _ _ F) in Hx. injection E as E1 E2. rewrite E1, E2 in Hx. by rewrite !String.eqb_refl in Hx.
Qed.

Lemma event_by_key_some s t k e : event_by_key s t k = Some e -> e ∈ events s /\ ev_thread_id e = t /\ event_key e = k.
Proof.
  intros [Hin H]%List.find_some. apply andb_true_iff in H as [->%String.eqb_eq ->%String.eqb_eq].
  split; [by apply list_elem_of_In|done].
Qed.

Lemma wf_with_thread s t t' :
  wf s -> threads s !! thread_id t' = Some t -> row_step t t' -> wf (with_thread s t').
Proof.
  intros W H S. destruct W as [K R T U N O].
  assert (L : forall k r, <[thread_id t':=t']> (threads s) !! k = Some r ->
    exists r0, threads s !! k = Some r0 /\ task_id r = task_id r0 /\ (k = thread_id t' /\ r = t' \/ r = r0)).
  { intros k r. destruct (decide (k = thread_id t')) as [->|Nk].
    - rewrite lookup_insert_eq. intros [= <-]. exists t. split; [done|]. split; [apply S|auto].
    - rewrite lookup_insert_ne by done. intros Hr. exists r. auto. }
  split; simpl; try done.
  - intros k r Hr. destruct (L k r Hr) as (r0 & H0 & _ & [[-> ->]| ->]); [done|by apply K].
  - intros k r Hr. destruct (L k r Hr) as (r0 & H0 & _ & [[-> ->]| ->]); [|by apply (R k)].
    apply (rs_ok _ _ S), (R (thread_id t')). done.
  - intros k r Hr. destruct (L k r Hr) as (r0 & H0 & -> & _). by apply (T k).
  - intros k k' r r' Hr Hr' E. destruct (L k r Hr) as (r0 & H0 & E0 & _), (L k' r' Hr') as (r0' & H0' & E0' & _).
    apply (U k k' r0 r0'); congruence.
  - intros e He. destruct (O e He) as [r Hr]. destruct (decide (ev_thread_id e = thread_id t')) as [->|Nk].
    + rewrite lookup_insert_eq. by eexists.
    + rewrite lookup_insert_ne by done. by eexists.
Qed.

Lemma wf_add_event s e : wf s -> is_Some (threads s !! ev_thread_id e) -> fresh_event s e -> wf (add_event s e).
Proof.
  intros W H F. destruct W as [K R T U N O]. split; try done; unfold event_ids; simpl.
  - rewrite map_app. apply NoDup_app. split; [done|]. split.
    + intros x Hx Hx'. apply elem_of_one in Hx' as ->. by apply (event_by_key_none s e).
    + apply NoDup_singleton.
  - intros x Hx. apply elem_of_app in Hx as [Hx| ->%elem_of_one]; auto.
Qed.

Lemma wf_new s t :
  wf s -> threads s !! thread_id t = None -> (forall k t', threads s !! k = Some t' -> task_id t' <> task_id t) ->
  task_id t ∈ known_tasks s -> thread_ok t -> wf (with_thread s t).
Proof.
  intros W H X Kt Ot. destruct W as [K R T U N O].
  assert (L : forall k r, <[thread_id t:=t]> (threads s) !! k = Some r -> k = thread_id t /\ r = t \/ threads s !! k = Some r).
  { intros k r. destruct (decide (k = thread_id t)) as [->|Nk].
    - rewrite lookup_insert_eq. intros [= <-]. auto.
    - rewrite lookup_insert_ne by done. auto. }
  split; simpl; try done.
  - intros k r Hr. destruct (L k r Hr) as [[-> ->]|Hr']; [done|by apply K].
  - intros k r Hr. destruct (L k r Hr) as [[-> ->]|Hr']; [done|by apply (R k)].
  - intros k r Hr. destruct (L k r Hr) as [[-> ->]|Hr']; [done|by apply (T k)].
  - intros k k' r r' Hr Hr' E. destruct (L k r Hr) as [[-> ->]|H1], (L k' r' Hr') as [[-> ->]|H2]; try done.
    + by apply X in H2.
    + by apply X in H1.
    + by apply (U k k' r r').
  - intros e He. destruct (O e He) as [r Hr]. rewrite lookup_insert_ne by congruence. by eexists.
Qed.

Lemma local_step_wf s s' : wf s -> local_step s s' -> wf s'.
Proof.
  intros W. destruct 1 as [|t t' H S|t t' e H S E F|e H F|t e H X Kt Ot E F]; [done| | | |].
  - by apply (wf_with_thread s t).
  - apply wf_add_event; [by apply (wf_with_thread s t)| |done]. simpl. rewrite E, lookup_insert_eq. by eexists.
  - by apply wf_add_event.
  - apply wf_add_event; [by apply wf_new| |done]. simpl. rewrite E, lookup_insert_eq. by eexists.
Qed.

(** *** The writes are local steps *)
Lemma update_row_ok s old new s' :
  update_row s old new = Ok s' ->
  exists cur, threads s !! thread_id old = Some cur /\ row_version cur = row_version old /\ s' = with_thread s (bump new).
Proof.
  unfold update_row. intros H. destruct (threads s !! thread_id old) as [cur|] eqn:E; [|done].
  destruct (row_version cur =? row_version old) eqn:V; [|done]. results. exists cur. split; [done|]. split; [lia|done].
Qed.

Lemma insert_event_ok s e s' :
  insert_event s e = Ok s' -> is_Some (threads s !! ev_thread_id e) /\ fresh_event s e /\ s' = add_event s e.
Proof.
  unfold insert_event, fresh_event. intros H. destruct (threads s !! ev_thread_id e); [|done].
  destruct (event_by_key s _ _); [done|]. results. split; [by eexists|done].
Qed.

Lemma commit_both_ok s old new e s' :
  commit_both s old new e = Ok s' ->
  exists cur, threads s !! thread_id old = Some cur /\ row_version cur = row_version old /\
    fresh_event s e /\ s' = add_event (with_thread s (bump new)) e.
Proof.
  unfold commit_both. intros (s1 & (cur & H & V & ->)%update_row_ok & (_ & F & ->)%insert_event_ok)%result_bind_ok.
  exists cur. done.
Qed.

Lemma insert_thread_ok s t s' :
  insert_thread s t = Ok s' -> threads s !! thread_id t = None /\ thread_of_task s (task_id t) = None /\
    task_id t ∈ known_tasks s /\ s' = with_thread s t.
Proof.
  unfold insert_thread. intros H. destruct (threads s !! thread_id t) eqn:E1; [done|].
  destruct (thread_of_task s (task_id t)) eqn:E2; [done|]. case_bool_decide; [|done]. results. done.
Qed.

Lemma thread_of_task_none s task : thread_of_task s task = None -> forall k t, threads s !! k = Some t -> task_id t <> task.
Proof.
  unfold thread_of_task. intros H k t Hk <-. destruct (List.find _ _) eqn:F; [done|].
  apply List.find_none with (x := (k, t)) in F; [|by apply list_elem_of_In, elem_of_map_to_list].
  simpl in F. by rewrite String.eqb_refl in F.
Qed.

Lemma required_thread_ok s k t : required_thread s k = Ok t -> threads s !! k = Some t.
Proof. unfold required_thread. destruct (threads s !! k); simpl; intros; results; done. Qed.

(** The row a session loaded is still the one it writes: the version check,
    under any interleaving with fair sessions. *)
Lemma loaded_row s s1 k t cur :
  wf s -> evolves s s1 -> threads s !! k = Some t -> threads s1 !! thread_id t = Some cur ->
  row_version cur = row_version t -> cur = t.
Proof.
  intros W E H H1 V. rewrite (wf_key _ W _ _ H) in H1. destruct (ev_rows _ _ E _ _ H) as (t' & H' & R).
  assert (cur = t') as -> by congruence. by apply (re_same _ _ R).
Qed.

(** ** The row changes of each operation are row steps *)
Lemma promoted_step t c : terminal t = false -> row_step t (bump (promoted t c)).
Proof.
  intros T%bool_decide_eq_false. split; simpl; try lia; auto with countyflow; try done.
  intros [C N K Te F]. split; simpl; try lia; try done.
  - split; [done|lia].
  - split; [done|]. intros H. destruct T. by apply Te.
Qed.

Lemma resumed_step t w : row_step t (bump (resumed t w)).
Proof. split; simpl; try lia; auto with countyflow; try done. intros [C N K Te F]. by split. Qed.

Lemma terminated_step t w n now : row_step t (bump (terminated t w n now)).
Proof. split; simpl; try lia; auto with countyflow; try done. intros [C N K Te F]. by split. Qed.

Lemma sequenced_step t n :
  match last_event_sequence t with None => true | Some m => m <? n end = true -> row_step t (bump (sequenced t n)).
Proof.
  intros H. split; simpl; try lia; auto with countyflow; try done.
  - destruct (last_event_sequence t); simpl; [lia|done].
  - intros [C N K Te F]. by split.
Qed.

Lemma set_status_step t st w :
  status t <> TERMINAL -> st <> TERMINAL -> row_step t (set_status t st w).
Proof.
  intros T1 T2. split; simpl; try lia; auto with countyflow; try done.
  intros [C N K Te F]. split; simpl; try done. split; [done|]. intros H. destruct T1. by apply Te.
Qed.

Lemma update_boundary_local from to w m k cp v n s :
  wf s -> from <> TERMINAL -> to <> TERMINAL -> local_step s (update_boundary from to w m k cp v n s).2.
Proof.
  intros W F T. unfold update_boundary. destruct (threads s !! k) as [t|] eqn:E; [|constructor].
  destruct (boundary_matches t from cp v n) eqn:B; [|constructor].
  unfold boundary_matches in B. results. apply bool_decide_eq_true in H.
  apply (ls_row _ t); simpl; [by rewrite (wf_key _ W _ _ E)|]. apply set_status_step; congruence.
Qed.

Lemma row_event_local s s1 k row new e s2 :
  wf s -> evolves s s1 -> threads s !! k = Some row -> row_step row (bump new) -> thread_id new = thread_id row ->
  ev_thread_id e = k -> commit_both s1 row new e = Ok s2 -> local_step s1 s2.
Proof.
  intros W E H S T O C. apply commit_both_ok in C as (cur & H1 & V & F & ->).
  assert (cur = row) as -> by (by apply (loaded_row s s1 k)).
  apply (ls_row_event _ row); [by simpl; rewrite T|done| |done].
  simpl. by rewrite T, O, (wf_key _ W _ _ H).
Qed.

Lemma new_thread_ok thread task : thread_ok (new_thread thread task).
Proof. split; simpl; done. Qed.

Section local.
Context (env : store -> store) (Fair : fair env).

Lemma create_local task thread s : wf s -> exists s1, (s1 = s \/ s1 = env s) /\ local_step s1 (create_for_task env task thread s).2.
Proof.
  intros W. unfold create_for_task. destruct (thread_of_task s task) as [row|].
  - exists s. split; [auto|]. destruct (String.eqb _ _); constructor.
  - destruct (negb _); [exists s; split; [auto|constructor]|]. exists (env s). split; [auto|].
    destruct (insert_thread (env s) (new_thread thread task) ≫= _) as [s3|e] eqn:E.
    + apply result_bind_ok in E as (s2 & (H & X & K & ->)%insert_thread_ok & (_ & F & ->)%insert_event_ok).
      simpl. apply ls_create; [done| |done|apply new_thread_ok|done|done].
      intros k t' Ht. by apply (thread_of_task_none _ _ X k).
    + destruct (thread_of_task (env s) task); [destruct (String.eqb _ _)|]; constructor.
Qed.

Lemma stage_local c s : wf s -> exists s1, (s1 = s \/ s1 = env s) /\ local_step s1 (stage_checkpoint env c s).2.
Proof.
  intros W. unfold stage_checkpoint. destruct (event_by_key s _ _); [exists s; split; [auto|constructor]|].
  destruct (threads s !! cmd_thread_id c); [|exists s; split; [auto|constructor]].
  exists (env s). split; [auto|]. destruct (insert_event _ _) as [s2|x] eqn:E.
  - apply insert_event_ok in E as (O & F & ->). by apply ls_event.
  - destruct (event_by_key (env s) _ _); constructor.
Qed.

Lemma promote_local c s : wf s -> exists s1, (s1 = s \/ s1 = env s) /\ local_step s1 (promote_checkpoint env c s).2.
Proof.
  intros W. unfold promote_checkpoint. destruct (required_thread s _) as [row|e] eqn:R; [|exists s; split; [auto|constructor]].
  apply required_thread_ok in R. case_bool_decide; [exists s; split; [auto|constructor]|].
  destruct (terminal row) eqn:T; [exists s; split; [auto|constructor]|].
  destruct (_ || _); [exists s; split; [auto|constructor]|]. exists (env s). split; [auto|].
  destruct (commit_both _ _ _ _) as [s2|e] eqn:C.
  - eapply row_event_local; [exact W|by apply Fair|exact R|by apply promoted_step| | |exact C]; done.
  - destruct (required_thread (env s) _); [case_bool_decide|]; constructor.
Qed.

Lemma resume_local k key w s : wf s -> exists s1, (s1 = s \/ s1 = env s) /\ local_step s1 (mark_resumed env k key w s).2.
Proof.
  intros W. unfold mark_resumed. destruct (required_thread s k) as [row|e] eqn:R; [|exists s; split; [auto|constructor]].
  apply required_thread_ok in R. destruct (terminal row); [exists s; split; [auto|constructor]|].
  destruct (event_by_key s k key); [exists s; split; [auto|constructor]|]. exists (env s). split; [auto|].
  destruct (commit_both _ _ _ _) as [s2|e] eqn:C; [|constructor].
  eapply row_event_local; [exact W|by apply Fair|exact R|apply resumed_step|done| |exact C]. by apply (wf_key _ W).
Qed.

Lemma terminate_local now k key w n x s : wf s -> exists s1, (s1 = s \/ s1 = env s) /\ local_step s1 (mark_terminal env now k key w n x s).2.
Proof.
  intros W. unfold mark_terminal. destruct (required_thread s k) as [row|e] eqn:R; [|exists s; split; [auto|constructor]].
  apply required_thread_ok in R. destruct (event_by_key s k key); [exists s; split; [auto|constructor]|].
  exists (env s). split; [auto|]. destruct (commit_both _ _ _ _) as [s2|e] eqn:C; [|constructor].
  eapply row_event_local; [exact W|by apply Fair|exact R|apply terminated_step|done| |exact C]. by apply (wf_key _ W).
Qed.

Lemma sequence_local k n s : wf s -> exists s1, (s1 = s \/ s1 = env s) /\ local_step s1 (update_last_event_sequence env k n s).2.
Proof.
  intros W. unfold update_last_event_sequence.
  destruct (required_thread s k) as [row|e] eqn:R; [|exists s; split; [auto|constructor]]. apply required_thread_ok in R.
  destruct (match last_event_sequence row with None => true | Some m => m <? n end) eqn:G; [|exists s; split; [auto|constructor]].
  exists (env s). split; [auto|]. destruct (update_row _ _ _) as [s2|e] eqn:U; [|constructor].
  apply update_row_ok in U as (cur & H1 & V & ->).
  assert (cur = row) as -> by (apply (loaded_row s (env s) k); [done|by apply Fair|done|done|done]).
  apply (ls_row _ row); [done|by apply sequenced_step].
Qed.

Lemma perform_local op s : wf s -> exists s1, (s1 = s \/ s1 = env s) /\ local_step s1 (perform env op s).
Proof.
  intros W. destruct op; simpl.
  - by apply create_local.
  - exists s. split; [auto|]. by apply update_boundary_local.
  - exists s. split; [auto|]. by apply update_boundary_local.
  - exists s. split; [auto|]. by apply update_boundary_local.
  - by apply stage_local.
  - by apply promote_local.
  - by apply resume_local.
  - by apply terminate_local.
  - by apply sequence_local.
Qed.

Lemma perform_fair op s : wf s -> wf (perform env op s) /\ evolves s (perform env op s).
Proof.
  intros W. destruct (perform_local op s W) as (s1 & H1 & L).
  assert (wf s1 /\ evolves s s1) as [W1 E1].
  { destruct H1 as [->| ->]; [split; [done|apply evolves_refl]|]. split; by apply Fair. }
  split; [by apply (local_step_wf s1)|]. by apply evolves_trans with s1; [|apply local_step_evolves].
Qed.
End local.

(** Any history of operations, the later ones with other sessions at work in between. *)
Fixpoint interfere (ops : list operation) (s : store) : store :=
  match ops with [] => s | op :: ops' => interfere ops' (perform id op s) end.

Lemma fair_id : fair id.
Proof. split; [intros s _; apply evolves_refl|done]. Qed.

Lemma interfere_fair ops : fair (interfere ops).
Proof.
  assert (H : forall s, wf s -> wf (interfere ops s) /\ evolves s (interfere ops s)).
  { induction ops as [|op ops IH]; intros s W; simpl; [split; [done|apply evolves_refl]|].
    destruct (perform_fair id fair_id op s W) as [W1 E1]. destruct (IH _ W1) as [W2 E2].
    split; [done|]. by apply evolves_trans with (perform id op s). }
  split; intros s W; by apply H.
Qed.

(** *** Claims of one boundary *)
Definition claim_matches (t : RuntimeThread) (cl : option string * (string * Z * string)) : bool :=
  boundary_matches t STABLE cl.2.1.1 cl.2.1.2 cl.2.2.

Definition run_claim (thread : string) (cl : option string * (string * Z * string)) : action store RuntimeThread :=
  claim_boundary match cl.1 with Some _ => RUNNING | None => OVERRIDING end cl.1 thread cl.2.1.1 cl.2.1.2 cl.2.2.

Lemma compete_cons thread cl rest s :
  compete thread (cl :: rest) s =
  let (r, s1) := run_claim thread cl s in let (rs, s2) := compete thread rest s1 in (r :: rs, s2).
Proof. by destruct cl as [[w|] [[cp v] n]]. Qed.

Lemma run_claim_cases thread cl s t :
  threads s !! thread = Some t ->
  run_claim thread cl s =
  if claim_matches t cl
  then let t' := set_status t match cl.1 with Some _ => RUNNING | None => OVERRIDING end cl.1 in (Ok t', with_thread s t')
  else (Err (BoundaryClaimConflict "RUNTIME_BOUNDARY_CLAIM_CONFLICT"), s).
Proof. intros H. unfold run_claim, claim_boundary, update_boundary, claim_matches. by rewrite H. Qed.

Lemma compete_lost thread claims s t :
  threads s !! thread = Some t -> (forall cl, cl ∈ claims -> claim_matches t cl = false) ->
  (compete thread claims s).2 = s /\
  Forall (fun r => r = Err (BoundaryClaimConflict "RUNTIME_BOUNDARY_CLAIM_CONFLICT")) (compete thread claims s).1.
Proof.
  intros H. induction claims as [|cl rest IH]; intros N; [done|].
  rewrite compete_cons, (run_claim_cases _ _ _ t), N by (done || left). cbn.
  destruct IH as [IH1 IH2]; [intros; apply N; by right|].
  destruct (compete thread rest s) as [rs s2]. simpl in *. subst s2. split; [done|]. by constructor.
Qed.

Lemma owned_unmatched t w st cl : st <> STABLE -> claim_matches (set_status t st w) cl = false.
Proof. intros N. unfold claim_matches, boundary_matches. simpl. by rewrite bool_decide_eq_false_2. Qed.

Lemma compete_won thread claims s t :
  wf s -> threads s !! thread = Some t -> (exists cl, cl ∈ claims /\ claim_matches t cl = true) ->
  exists before r after s',
    compete thread claims s = (before ++ Ok r :: after, s') /\ threads s' !! thread = Some r /\ status r <> STABLE /\
    Forall (fun x => x = Err (BoundaryClaimConflict "RUNTIME_BOUNDARY_CLAIM_CONFLICT")) (before ++ after).
Proof.
  intros W H. induction claims as [|cl rest IH]; intros (cl0 & Hin & M); [by apply not_elem_of_nil in Hin|].
  rewrite compete_cons, (run_claim_cases _ _ _ t) by done. destruct (claim_matches t cl) eqn:E.
  - cbn zeta. set (t' := set_status t _ _). exists [], t'.
    assert (Ht' : threads (with_thread s t') !! thread = Some t').
    { simpl. by rewrite (wf_key _ W _ _ H), lookup_insert_eq. }
    destruct (compete_lost thread rest (with_thread s t') t' Ht') as [E1 E2].
    { intros cl' _. apply owned_unmatched. by destruct cl.1. }
    destruct (compete thread rest (with_thread s t')) as [rs s2]. simpl in E1, E2. subst s2.
    exists rs, (with_thread s t'). split; [done|]. split; [done|]. split; [|done]. subst t'. simpl. by destruct cl.1.
  - cbn zeta. apply elem_of_cons in Hin as [->|Hin]; [congruence|].
    destruct IH as (b & r & a & s' & -> & H1 & H2 & H3); [by exists cl0|].
    exists (Err (BoundaryClaimConflict "RUNTIME_BOUNDARY_CLAIM_CONFLICT") :: b), r, a, s'.
    split; [done|]. split; [done|]. split; [done|]. by constructor.
Qed.

(** *** A small ledger for the witnesses *)
Definition empty_store (tasks : gset string) : store := {| known_tasks := tasks; threads := ∅; events := [] |}.

Lemma wf_empty tasks : wf (empty_store tasks).
Proof. split; simpl; try done; [constructor|]. intros e H. by apply not_elem_of_nil in H. Qed.

Definition ex_command (expected : option string) (version : Z) (checkpoint : string) : PromoteCheckpoint :=
  {| cmd_thread_id := "th"; expected_checkpoint_id := expected; expected_state_version := version;
     cmd_checkpoint_id := checkpoint; cmd_parent_checkpoint_id := expected; cmd_node := "intake";
     cmd_next_node := Some "route"%string; cmd_checkpoint_size_bytes := 10; cmd_worker_consumer := "w1";
     cmd_event_key := "promoted:" +:+ checkpoint; cmd_event_type := CHECKPOINT_PROMOTED |}.

(** A created thread; then its first checkpoint. *)
Definition ex_created : store := perform id (Create "t" "th") (empty_store {["t"%string; "t2"%string]}).
Definition ex_stable : store := perform id (Promote (ex_command None 0 "c1")) ex_created.

Lemma ex_created_wf : wf ex_created.
Proof. apply perform_fair; [apply fair_id|apply wf_empty]. Qed.

Lemma ex_stable_wf : wf ex_stable.
Proof. apply perform_fair; [apply fair_id|apply ex_created_wf]. Qed.

(** ** Properties *)

(** C2: Whatever other sessions commit in between, promoting a checkpoint is a
    compare-and-swap.  It succeeds either because the checkpoint already is the
    canonical one, without writing anything, or because the thread was at the
    expected checkpoint and version, not TERMINAL, and untouched until the
    commit: then it is STABLE at the new checkpoint, one version and one
    checkpoint further, with exactly one new event.  A failure writes nothing. *)
Theorem promote_compare_and_swap (env : store -> store) (c : PromoteCheckpoint) (s s' : store) (r : result RuntimeThread) :
  fair env -> wf s -> promote_checkpoint env c s = (r, s') ->
  match r with
  | Ok row =>
      current_checkpoint_id row = Some (cmd_checkpoint_id c) /\
      ((s' = s \/ s' = env s) /\ threads s' !! cmd_thread_id c = Some row
       \/ exists t, threads s !! cmd_thread_id c = Some t /\ threads (env s) !! cmd_thread_id c = Some t /\
            status t <> TERMINAL /\ current_checkpoint_id t = expected_checkpoint_id c /\
            state_version t = expected_state_version c /\
            status row = STABLE /\ state_version row = state_version t + 1 /\ checkpoint_count row = checkpoint_count t + 1 /\
            row = bump (promoted t c) /\ event_by_key (env s) (cmd_thread_id c) (cmd_event_key c) = None /\
            s' = add_event (with_thread (env s) row) (checkpoint_event c (cmd_event_type c) (cmd_event_key c)))
  | Err _ => s' = s \/ s' = env s
  end.
Proof.
  intros Fe W. unfold promote_checkpoint.
  destruct (required_thread s _) as [t|e] eqn:R; [|intros; results; auto]. apply required_thread_ok in R.
  case_bool_decide as D1; [intros; results; auto|].
  destruct (terminal t) eqn:T; [intros; results; auto|]. apply bool_decide_eq_false in T.
  destruct (_ || _) eqn:G; [intros; results; auto|]. results. apply bool_decide_eq_true in H.
  destruct (commit_both _ _ _ _) as [s2|e] eqn:C.
  - apply commit_both_ok in C as (cur & H1 & V & F & ->).
    assert (cur = t) as -> by (apply (loaded_row s (env s) (cmd_thread_id c)); [done|by apply Fe|done|done|done]).
    rewrite (wf_key _ W _ _ R) in H1. unfold committed_row, required_thread. simpl.
    rewrite (wf_key _ W _ _ R), lookup_insert_eq. simpl. intros E. results. split; [done|]. right. exists t.
    repeat split; try done. lia.
  - destruct (required_thread (env s) _) as [cur|] eqn:R1; [|intros; results; auto].
    apply required_thread_ok in R1. case_bool_decide; intros; results; auto.
Qed.

Lemma promote_compare_and_swap_witness :
  exists r s', promote_checkpoint (interfere [Create "t2" "th2"]) (ex_command None 0 "c1") ex_created = (Ok r, s') /\
    (status r = STABLE /\ state_version r = 1) /\ current_checkpoint_id r = Some "c1"%string.
Proof.
  assert (H : exists r s', promote_checkpoint (interfere [Create "t2" "th2"]) (ex_command None 0 "c1") ex_created = (Ok r, s') /\
    (status r = STABLE /\ state_version r = 1)).
  { vm_compute. do 2 eexists. repeat split; reflexivity. }
  destruct H as (r & s' & E & S). exists r, s'. split; [exact E|]. split; [exact S|].
  exact (proj1 (promote_compare_and_swap _ _ _ _ _ (interfere_fair _) ex_created_wf E)).
Defined.

(** C23: Every operation of the ledger, succeeding or failing and with any other
    sessions in between, keeps it well-formed (one thread per task, one event
    per key, as many checkpoints as versions, TERMINAL exactly with a terminal
    time) and only moves it forward: no thread or event disappears, versions
    and counters never decrease, a row changes only with its version, and a
    TERMINAL thread stays TERMINAL. *)
Theorem operations_preserve_ledger (env : store -> store) (op : operation) (s : store) :
  fair env -> wf s ->
  wf (perform env op s) /\ evolves s (perform env op s) /\ fair (perform env op).
Proof.
  intros F W. destruct (perform_fair env F op s W) as [H1 H2]. split; [done|]. split; [done|].
  split; intros s0 W0; by apply perform_fair.
Qed.

Lemma operations_preserve_ledger_witness :
  event_ids (perform (interfere [Create "t2" "th2"]) (Terminate 5 "th" "end" "w1" None None) ex_stable) =
    [("th", "thread:created"); ("th", "promoted:c1"); ("th2", "thread:created"); ("th", "end")]%string /\
  wf (perform (interfere [Create "t2" "th2"]) (Terminate 5 "th" "end" "w1" None None) ex_stable).
Proof.
  split; [vm_compute; reflexivity|].
  exact (proj1 (operations_preserve_ledger (interfere [Create "t2" "th2"]) (Terminate 5 "th" "end" "w1" None None) ex_stable
    (interfere_fair _) ex_stable_wf)).
Defined.

(** Of any number of workers and overrides that compete for the stable
    boundary of a thread, exactly one wins if any of them names the boundary
    the thread is at, and none otherwise; the winner's row is the thread's, and
    all the others get a [BoundaryClaimConflict]. *)
Theorem boundary_has_one_owner (thread : string) (claims : list (option string * (string * Z * string))) (s s' : store)
    (rs : list (result RuntimeThread)) (t : RuntimeThread) :
  wf s -> threads s !! thread = Some t -> compete thread claims s = (rs, s') ->
  if existsb (claim_matches t) claims
  then exists before r after, rs = before ++ Ok r :: after /\ threads s' !! thread = Some r /\
         Forall (fun x => x = Err (BoundaryClaimConflict "RUNTIME_BOUNDARY_CLAIM_CONFLICT")) (before ++ after)
  else s' = s /\ Forall (fun x => x = Err (BoundaryClaimConflict "RUNTIME_BOUNDARY_CLAIM_CONFLICT")) rs.
Proof.
  intros W H E. destruct (existsb _ claims) eqn:X.
  - apply existsb_exists in X as (cl & Hin & M).
    destruct (compete_won thread claims s t W H) as (b & r & a & s2 & E2 & H2 & _ & H3).
    { exists cl. split; [by apply list_elem_of_In|done]. }
    rewrite E in E2. results. by exists b, r, a.
  - destruct (compete_lost thread claims s t H) as [E1 E2].
    { intros cl Hin. apply not_true_iff_false. intros M. apply not_true_iff_false in X. apply X.
      apply existsb_exists. exists cl. split; [by apply list_elem_of_In|done]. }
    rewrite E in E1, E2. done.
Qed.

Lemma boundary_has_one_owner_witness :
  exists rs s' before r after,
    compete "th" [(Some "w1", ("c0", 0, "route")); (None, ("c1", 1, "route")); (Some "w2", ("c1", 1, "route"))]%string ex_stable = (rs, s') /\
    rs = before ++ Ok r :: after /\ threads s' !! "th"%string = Some r /\
    Forall (fun x => x = Err (BoundaryClaimConflict "RUNTIME_BOUNDARY_CLAIM_CONFLICT")) (before ++ after).
Proof.
  destruct (compete "th" [(Some "w1", ("c0", 0, "route")); (None, ("c1", 1, "route")); (Some "w2", ("c1", 1, "route"))]%string ex_stable)
    as [rs s'] eqn:E.
  assert (T : exists t, threads ex_stable !! "th"%string = Some t /\
    existsb (claim_matches t) [(Some "w1", ("c0", 0, "route")); (None, ("c1", 1, "route")); (Some "w2", ("c1", 1, "route"))]%string = true).
  { vm_compute. eexists. split; reflexivity. }
  destruct T as (t & T & M). pose proof (boundary_has_one_owner _ _ _ _ _ t ex_stable_wf T E) as H.
  rewrite M in H. destruct H as (b & r & a & H). exists rs, s', b, r, a. split; [reflexivity|exact H].
Defined.
