(* ===== verification/ThreadRunner.v ===== *)
(** * ThreadRunner: running a graph from checkpoint to checkpoint

    Models [app/runtime_threads/runner.py], [reconciler.py] and [service.py].
    The graph engine and the checkpoint store are third-party: a run is given
    the stream of updates the graph yields, each node update with the listings
    the store answers while the runner polls for its boundary (one per poll,
    until the deadline).  The state of a run is the thread ledger together with
    what the event publisher was called with; metrics are left out. *)

From S2P Require Import Prelude Evidence RuntimeThreads.

Local Open Scope Z_scope.
Local Open Scope list_scope.

(** ** Data *)
Record CheckpointRecord := {
  rec_thread_id : string;
  rec_checkpoint_id : string;
  rec_parent_checkpoint_id : option string;
  checkpoint_namespace : string;
  rec_state : pydict;
  serialized_size_bytes : Z;
}.

Definition RuntimeThreadCheckpointError (code : string) : exn := Exn "RuntimeThreadCheckpointError" code.
Definition CheckpointPayloadTooLarge : exn := Exn "CheckpointPayloadTooLarge" "".
Definition RuntimeCheckpointStoreError : exn := Exn "RuntimeCheckpointStoreError" "RUNTIME_CHECKPOINT_UNAVAILABLE".

(** [{record.checkpoint_id: record for record in records}]: the last one wins. *)
Definition records_by_id (l : list CheckpointRecord) : gmap string CheckpointRecord :=
  foldl (fun m r => <[rec_checkpoint_id r := r]> m) ∅ l.

(** [value == s] for a string. *)
Definition equals_str (v : pyval) (s : string) : bool := match v with PStr t => String.eqb t s | _ => false end.

(** ** Ancestry

    Both loops walk the parent links and stop at a repeated checkpoint; [None]
    is "out of fuel".  Every turn but the last adds a listed checkpoint to
    [seen], so [size records + 1] turns are enough. *)
Fixpoint descends_loop (fuel : nat) (rs : gmap string CheckpointRecord) (target : string) (parent_id : option string) (seen : gset string) : option bool :=
  match fuel with
  | O => None
  | S fuel' =>
      match parent_id with
      | None => Some false
      | Some p =>
          if bool_decide (p ∈ seen) then Some false
          else if String.eqb p target then Some true
          else match rs !! p with
               | None => Some false
               | Some parent => descends_loop fuel' rs target (rec_parent_checkpoint_id parent) ({[p]} ∪ seen)
               end
      end
  end.

Definition checkpoint_descends_from (record : CheckpointRecord) (checkpoint_id : string) (rs : gmap string CheckpointRecord) : bool :=
  default false (descends_loop (S (S (size rs))) rs checkpoint_id (rec_parent_checkpoint_id record) ∅).

(** [value in (None, 0)]. *)
Definition none_or_zero (v : pyval) : bool := is_none v || equals_int v 0.

Definition initial_parent (thread : string) (parent : CheckpointRecord) : bool :=
  String.eqb (rec_thread_id parent) thread && String.eqb (checkpoint_namespace parent) ""
  && none_or_zero (get (rec_state parent) "completed_node_count").

Fixpoint initial_loop (fuel : nat) (rs : gmap string CheckpointRecord) (thread : string) (parent_id : option string) (seen : gset string) : option bool :=
  match fuel with
  | O => None
  | S fuel' =>
      match parent_id with
      | None => Some true
      | Some p =>
          if bool_decide (p ∈ seen) then Some false
          else match rs !! p with
               | None => Some false
               | Some parent =>
                   if initial_parent thread parent
                   then initial_loop fuel' rs thread (rec_parent_checkpoint_id parent) ({[p]} ∪ seen)
                   else Some false
               end
      end
  end.

Definition checkpoint_has_initial_ancestry (record : CheckpointRecord) (rs : gmap string CheckpointRecord) : bool :=
  default false (initial_loop (S (S (size rs))) rs (rec_thread_id record) (rec_parent_checkpoint_id record) ∅).

(** ** The runner *)
Record runner := { node_order : list string; max_checkpoint_bytes : Z; runner_worker_consumer : string }.

(** [tuple.index], then the node after it. *)
Fixpoint next_node_in (order : list string) (node : string) : result (option string) :=
  match order with
  | [] => Err (Exn "ValueError" "tuple.index(x): x not in tuple")
  | x :: rest => if String.eqb x node then Ok (head rest) else next_node_in rest node
  end.

Definition parent_is_continuous (t : RuntimeThread) (rs : gmap string CheckpointRecord) (r : CheckpointRecord) : bool :=
  match current_checkpoint_id t with
  | None => checkpoint_has_initial_ancestry r rs
  | Some c => checkpoint_descends_from r c rs
  end.

Definition is_boundary (t : RuntimeThread) (node : string) (rs : gmap string CheckpointRecord) (r : CheckpointRecord) : bool :=
  String.eqb (rec_thread_id r) (thread_id t)
  && equals_str (get (rec_state r) "last_completed_node") node
  && equals_int (get (rec_state r) "completed_node_count") (checkpoint_count t + 1)
  && bool_decide (next_node t = Some node)
  && parent_is_continuous t rs r.

(** One poll per element; the deadline has passed after the last one. *)
Definition polls : Type := list (result (list CheckpointRecord)).

Fixpoint latest_boundary (ps : polls) (t : RuntimeThread) (node : string) : result CheckpointRecord :=
  match ps with
  | [] => Err (RuntimeThreadCheckpointError "CHECKPOINT_BOUNDARY_MISSING")
  | p :: rest =>
      l ← p;
      match List.find (is_boundary t node (records_by_id l)) l with
      | Some r => Ok r
      | None => latest_boundary rest t node
      end
  end.

Definition promote_command (t : RuntimeThread) (r : CheckpointRecord) (node : string) (next : option string)
    (worker key : string) (ty : RuntimeThreadEventType) : PromoteCheckpoint :=
  {| cmd_thread_id := thread_id t; expected_checkpoint_id := current_checkpoint_id t;
     expected_state_version := state_version t; cmd_checkpoint_id := rec_checkpoint_id r;
     cmd_parent_checkpoint_id := rec_parent_checkpoint_id r; cmd_node := node; cmd_next_node := next;
     cmd_checkpoint_size_bytes := serialized_size_bytes r; cmd_worker_consumer := worker;
     cmd_event_key := key; cmd_event_type := ty |}.

Definition boundary_payload (max_bytes : Z) (too_large : exn) (r : CheckpointRecord) : result unit :=
  if negb (String.eqb (checkpoint_namespace r) "") then Err (RuntimeThreadCheckpointError "CHECKPOINT_NAMESPACE_MISMATCH")
  else if negb (json_serializable (PDict (rec_state r)))
  then Err (RuntimeThreadCheckpointError "CHECKPOINT_STATE_NOT_JSON_SERIALIZABLE")
  else if max_bytes <? serialized_size_bytes r then Err too_large else Ok tt.

Definition promote (env : store -> store) (cfg : runner) (t : RuntimeThread) (r : CheckpointRecord) (node : string)
    : action store RuntimeThread := fun s =>
  match boundary_payload (max_checkpoint_bytes cfg) CheckpointPayloadTooLarge r, next_node_in (node_order cfg) node with
  | Err e, _ | _, Err e => (Err e, s)
  | Ok _, Ok next =>
      promote_checkpoint env (promote_command t r node next (runner_worker_consumer cfg)
        ("checkpoint:" +:+ rec_checkpoint_id r) CHECKPOINT_PROMOTED) s
  end.

(** What the publisher was called with; what it raises is swallowed. *)
Inductive publication :=
| PublishedResume (t : RuntimeThread)
| PublishedNode (t : RuntimeThread) (node : string) (patch state : pydict).

(** An entry of an update: a node and its patch ([None]: not a mapping), what the
    store answers to the polls, and what others commit before and within the promotion. *)
Record node_update := {
  nu_node : string;
  nu_patch : option pydict;
  nu_polls : polls;
  nu_before : store -> store;
  nu_within : store -> store;
}.

Inductive stream_item :=
| Update (l : list node_update)
| NotAMapping
| StreamFails (e : exn).

(** [d.update(patch)]: known keys keep their place, new keys go to the end. *)
Fixpoint dict_set (d : pydict) (k : string) (v : pyval) : pydict :=
  match d with
  | [] => [(k, v)]
  | (k', v') :: d' => if String.eqb k' k then (k, v) :: d' else (k', v') :: dict_set d' k v
  end.
Definition dict_update (d patch : pydict) : pydict := foldl (fun d kv => dict_set d kv.1 kv.2) d patch.

Definition run_state : Type := store * list publication.
Definition on_store {A} (m : action store A) : action run_state A := fun '(s, ps) =>
  let (r, s') := m s in (r, (s', ps)).
Definition publish (p : publication) : action run_state unit := fun '(s, ps) => (Ok tt, (s, ps ++ [p])).
Definition others (env : store -> store) : action run_state unit := fun '(s, ps) => (Ok tt, (env s, ps)).
Definition of_result {S A} (r : result A) : action S A := fun s => (r, s).

Section run.
Context (cfg : runner).

(** The entries of an update that are nodes of the graph, with a patch. *)
Definition node_patch (u : node_update) : option pydict :=
  if one_of (nu_node u) (node_order cfg) then nu_patch u else None.

Fixpoint run_nodes (l : list node_update) (current : RuntimeThread) (res : pydict) : action run_state (RuntimeThread * pydict) :=
  match l with
  | [] => ret_action (current, res)
  | u :: rest =>
      match node_patch u with
      | None => run_nodes rest current res
      | Some patch =>
          (do _ <- others (nu_before u);
           do r <- of_result (latest_boundary (nu_polls u) current (nu_node u));
           do t <- on_store (promote (nu_within u) cfg current r (nu_node u));
           do _ <- publish (PublishedNode t (nu_node u) patch (rec_state r));
           run_nodes rest t (dict_update res patch))%action
      end
  end.

Definition resume_event_key (checkpoint_id resume_key : option string) : string :=
  "resume:" +:+ default "None"%string checkpoint_id +:+ ":" +:+ or_else resume_key (runner_worker_consumer cfg).

Fixpoint run_stream (resume : option (string * (store -> store))) (items : list stream_item) (current : RuntimeThread) (res : pydict)
    : action run_state pydict :=
  match items with
  | [] => ret_action res
  | StreamFails e :: _ => raise_action e
  | item :: rest =>
      (do current1 <-
         match resume with
         | Some (key, env) =>
             (do t <- on_store (mark_resumed env (thread_id current) key (runner_worker_consumer cfg));
              do _ <- publish (PublishedResume t);
              ret_action t)%action
         | None => ret_action current
         end;
       match item with
       | Update l => do (t, res') <- run_nodes l current1 res; run_stream None rest t res'
       | _ => run_stream None rest current1 res
       end)%action
  end.

(** The [except] clauses of [_run]. *)
Definition wrap_error (e : exn) : exn :=
  if String.eqb (exn_class e) "RuntimeThreadCheckpointError" then e
  else if String.eqb (exn_class e) "CheckpointPayloadTooLarge" then RuntimeThreadCheckpointError "CHECKPOINT_PAYLOAD_TOO_LARGE"
  else if String.eqb (exn_class e) "ThreadVersionConflict" then RuntimeThreadCheckpointError "CHECKPOINT_PROMOTION_CONFLICT"
  else RuntimeThreadCheckpointError "CHECKPOINT_RUNTIME_FAILURE".

Definition run (t : RuntimeThread) (graph_input : option pydict) (resume : option (string * (store -> store))) (items : list stream_item)
    : action run_state pydict :=
  catch_action (run_stream resume items t (default [] graph_input)) (fun e => raise_action (wrap_error e)).

Definition run_new (t : RuntimeThread) (state : pydict) (items : list stream_item) : action run_state pydict :=
  run t (Some state) None items.

Definition resume (t : RuntimeThread) (resume_key : option string) (env : store -> store) (items : list stream_item) : action run_state pydict :=
  if terminal t then raise_action (RuntimeThreadCheckpointError "RUNTIME_THREAD_TERMINAL")
  else match current_checkpoint_id t with
       | None => raise_action (RuntimeThreadCheckpointError "CANONICAL_CHECKPOINT_MISSING")
       | Some c => run t None (Some (resume_event_key (Some c) resume_key, env)) items
       end.

(** ** The reconciler *)
Definition is_continuous (t : RuntimeThread) (r : CheckpointRecord) : bool :=
  match next_node t with
  | Some n => equals_str (get (rec_state r) "last_completed_node") n && one_of n (node_order cfg)
              && equals_int (get (rec_state r) "completed_node_count") (checkpoint_count t + 1)
  | None => false
  end.

Definition direct_children (t : RuntimeThread) (l : list CheckpointRecord) : list CheckpointRecord :=
  List.filter (fun r => String.eqb (rec_thread_id r) (thread_id t)
                        && negb (bool_decide (Some (rec_checkpoint_id r) = current_checkpoint_id t))
                        && parent_is_continuous t (records_by_id l) r) l.

Definition reconcile (env : store -> store) (listing : result (list CheckpointRecord)) (t : RuntimeThread)
    : action store RuntimeThread := fun s =>
  match terminal t, next_node t with
  | true, _ | _, None => (Ok t, s)
  | false, Some node =>
      match listing with
      | Err e => (Err e, s)
      | Ok l =>
          match List.filter (is_continuous t) (direct_children t l) with
          | [] => (Ok t, s)
          | [r] =>
              match boundary_payload (max_checkpoint_bytes cfg) (RuntimeThreadCheckpointError "CHECKPOINT_PAYLOAD_TOO_LARGE") r,
                    next_node_in (node_order cfg) node with
              | Err e, _ | _, Err e => (Err e, s)
              | Ok _, Ok next =>
                  catch_action (promote_checkpoint env (promote_command t r node next (runner_worker_consumer cfg)
                    ("reconcile:" +:+ rec_checkpoint_id r) RECONCILIATION))
                    (fun _ => raise_action (RuntimeThreadCheckpointError "CHECKPOINT_RECONCILIATION_CONFLICT")) s
              end
          | _ => (Err (RuntimeThreadCheckpointError "DIVERGENT_ORPHAN_CHECKPOINTS"), s)
          end
      end
  end.
End run.

(** ** ThreadStateService *)
Record history_item := {
  h_event : RuntimeThreadEvent;
  h_state : option pydict;      (* [None]: the checkpoint is no longer available *)
}.

Definition AuthorizationError : exn := Exn "RuntimeThreadAuthorizationError" "".
Definition NotFoundError : exn := Exn "RuntimeThreadNotFoundError" "".
Definition StateUnavailableError : exn := Exn "RuntimeThreadStateUnavailableError" "".

(** The checkpoint store's exact read. *)
Definition exact_read : Type := string -> string -> result (option CheckpointRecord).

Definition exact (get_exact : exact_read) (thread checkpoint : string) : result (option CheckpointRecord) :=
  match get_exact thread checkpoint with
  | Ok r => Ok r
  | Err e => if String.eqb (exn_class e) "RuntimeCheckpointStoreError" then Err StateUnavailableError else Err e
  end.

Definition is_checkpoint_event (e : RuntimeThreadEvent) : bool :=
  (bool_decide (event_type e = CHECKPOINT_PROMOTED) || bool_decide (event_type e = RECONCILIATION))
  && negb (bool_decide (ev_checkpoint_id e = None)).

Definition bounded_limit (limit max_limit : Z) : Z := Z.min (Z.max limit 1) max_limit.

Definition checkpoint_events (s : store) (thread : string) (limit max_limit : Z) : list RuntimeThreadEvent :=
  take (Z.to_nat (bounded_limit limit max_limit))
    (sorted_key_desc ev_state_version (List.filter is_checkpoint_event (list_events s thread max_limit))).

Definition list_history (get_exact : exact_read) (max_limit : Z) (can_read : bool) (s : store) (thread : string) (limit : Z)
    : result (list history_item) :=
  if negb can_read then Err AuthorizationError
  else match get_by_thread_id s thread with
  | None => Err NotFoundError
  | Some t =>
      map_result (fun e =>
        r ← exact get_exact (thread_id t) (default ""%string (ev_checkpoint_id e));
        Ok {| h_event := e; h_state := rec_state <$> r |})
        (checkpoint_events s (thread_id t) limit max_limit)
  end.

Definition current_record (get_exact : exact_read) (t : RuntimeThread) : result (option CheckpointRecord) :=
  match current_checkpoint_id t with None => Ok None | Some c => exact get_exact (thread_id t) c end.

(** [_current]: the row and the state of its checkpoint, where that is available. *)
Definition current_view (get_exact : exact_read) (t : option RuntimeThread) : result (RuntimeThread * option pydict) :=
  match t with
  | None => Err NotFoundError
  | Some t =>
      match current_record get_exact t with
      | Ok r => Ok (t, option_map rec_state r)
      | Err e => Err e
      end
  end.
Definition get_current_by_thread (get_exact : exact_read) (can_read : bool) (s : store) (thread : string) :=
  if can_read then current_view get_exact (get_by_thread_id s thread) else Err AuthorizationError.
Definition get_current_by_task (get_exact : exact_read) (can_read : bool) (s : store) (task : string) :=
  if can_read then current_view get_exact (thread_of_task s task) else Err AuthorizationError.

(** ** Ancestry: the loops decide reachability *)

(** [target] is reached by following parent links from [p]. *)
Inductive ancestor (rs : gmap string CheckpointRecord) (target : string) : option string -> Prop :=
| anc_here : ancestor rs target (Some target)
| anc_up p r : rs !! p = Some r -> ancestor rs target (rec_parent_checkpoint_id r) -> ancestor rs target (Some p).

(** The parent links end, after [n] checkpoints that all belong to the thread's
    root namespace and have completed no node. *)
Inductive initial_chain (rs : gmap string CheckpointRecord) (thread : string) : option string -> nat -> Prop :=
| ini_end : initial_chain rs thread None 0
| ini_up p r n : rs !! p = Some r -> initial_parent thread r = true ->
    initial_chain rs thread (rec_parent_checkpoint_id r) n -> initial_chain rs thread (Some p) (S n).

Section ancestry.
Context (rs : gmap string CheckpointRecord).
Implicit Types seen : gset string.

Lemma unseen_shrinks p r seen :
  rs !! p = Some r -> p ∉ seen -> (size (dom rs ∖ ({[p]} ∪ seen)) < size (dom rs ∖ seen))%nat.
Proof.
  intros H N. apply subset_size. assert (D : p ∈ dom rs) by (apply elem_of_dom; by eexists). set_solver.
Qed.

Lemma descends_loop_total fuel target p seen :
  (size (dom rs ∖ seen) < fuel)%nat -> is_Some (descends_loop fuel rs target p seen).
Proof.
  revert p seen. induction fuel as [|fuel IH]; intros p seen H; [lia|]. simpl.
  destruct p as [p|]; [|by eexists]. case_bool_decide as N; [by eexists|].
  destruct (String.eqb p target); [by eexists|]. destruct (rs !! p) as [r|] eqn:E; [|by eexists].
  apply IH. pose proof (unseen_shrinks p r seen E N). lia.
Qed.

Lemma initial_loop_total fuel thread p seen :
  (size (dom rs ∖ seen) < fuel)%nat -> is_Some (initial_loop fuel rs thread p seen).
Proof.
  revert p seen. induction fuel as [|fuel IH]; intros p seen H; [lia|]. simpl.
  destruct p as [p|]; [|by eexists]. case_bool_decide as N; [by eexists|].
  destruct (rs !! p) as [r|] eqn:E; [|by eexists]. destruct (initial_parent thread r); [|by eexists].
  apply IH. pose proof (unseen_shrinks p r seen E N). lia.
Qed.

Lemma descends_loop_sound fuel target p seen : descends_loop fuel rs target p seen = Some true -> ancestor rs target p.
Proof.
  revert p seen. induction fuel as [|fuel IH]; intros p seen; [done|]. simpl.
  destruct p as [p|]; [|done]. case_bool_decide; [done|].
  destruct (String.eqb p target) eqn:E; [apply String.eqb_eq in E as ->; constructor|].
  destruct (rs !! p) as [r|] eqn:L; [|done]. intros D. apply (anc_up _ _ p r); eauto.
Qed.

(** The walk so far: no checkpoint seen is the target, and each leads to the
    current one or to another one seen. *)
Definition walked (target : string) (cur : option string) seen : Prop :=
  forall x, x ∈ seen -> x <> target /\
    exists r, rs !! x = Some r /\ (rec_parent_checkpoint_id r = cur \/ exists y, y ∈ seen /\ rec_parent_checkpoint_id r = Some y).

Lemma walked_cycle target x seen : x ∈ seen -> walked target (Some x) seen -> forall o, ancestor rs target o -> (exists y, y ∈ seen /\ o = Some y) -> False.
Proof.
  intros Hx W o A. induction A as [|p r E A IH]; intros (y & Hy & [= <-]).
  - by destruct (W target Hy).
  - apply IH. destruct (W p Hy) as (_ & r' & E' & D). assert (r' = r) as -> by congruence.
    destruct D as [->|D]; [by exists x|done].
Qed.

Lemma descends_loop_complete fuel target p seen b :
  walked target p seen -> ancestor rs target p -> descends_loop fuel rs target p seen = Some b -> b = true.
Proof.
  revert p seen. induction fuel as [|fuel IH]; intros p seen W A; [done|]. simpl.
  destruct p as [p|]; [|by inversion A]. case_bool_decide as N.
  { destruct (walked_cycle target p seen N W (Some p) A). by exists p. }
  destruct (String.eqb p target) eqn:E; [congruence|]. apply String.eqb_neq in E.
  inversion A as [|p' r L A' ]; subst; [done|]. rewrite L. apply IH; [|done].
  intros x Hx. apply elem_of_union in Hx as [->%elem_of_singleton|Hx].
  - split; [done|]. exists r. auto.
  - destruct (W x Hx) as (Nx & r' & L' & D). split; [done|]. exists r'. split; [done|]. right.
    destruct D as [->|(y & Hy & ->)]; [exists p|exists y]; set_solver.
Qed.

Lemma descends_iff record target :
  checkpoint_descends_from record target rs = true <-> ancestor rs target (rec_parent_checkpoint_id record).
Proof.
  unfold checkpoint_descends_from.
  destruct (descends_loop_total (S (S (size rs))) target (rec_parent_checkpoint_id record) ∅) as [b Hb].
  { rewrite difference_empty_L, size_dom. lia. }
  rewrite Hb. simpl. split.
  - intros ->. by eapply descends_loop_sound.
  - intros A. eapply descends_loop_complete; [|exact A|exact Hb]. intros x Hx. by apply not_elem_of_empty in Hx.
Qed.

Lemma initial_loop_sound fuel thread p seen : initial_loop fuel rs thread p seen = Some true -> exists n, initial_chain rs thread p n.
Proof.
  revert p seen. induction fuel as [|fuel IH]; intros p seen; [done|]. simpl.
  destruct p as [p|]; [|exists 0%nat; constructor]. case_bool_decide; [done|].
  destruct (rs !! p) as [r|] eqn:L; [|done]. destruct (initial_parent thread r) eqn:I; [|done].
  intros D. destruct (IH _ _ D) as [n C]. exists (S n). by apply (ini_up _ _ p r).
Qed.

Lemma initial_chain_det thread p n m : initial_chain rs thread p n -> initial_chain rs thread p m -> n = m.
Proof.
  intros C. revert m. induction C as [|p r n L I C IH]; intros m C'; inversion C' as [|p' r' m' L' I' C2]; subst; [done|].
  assert (r' = r) as -> by congruence. f_equal. auto.
Qed.

Lemma initial_loop_complete fuel thread p seen n b :
  (forall x, x ∈ seen -> exists m, initial_chain rs thread (Some x) m /\ (n < m)%nat) ->
  initial_chain rs thread p n -> initial_loop fuel rs thread p seen = Some b -> b = true.
Proof.
  revert p seen n. induction fuel as [|fuel IH]; intros p seen n W C; [done|]. simpl.
  destruct p as [p|]; [|congruence]. case_bool_decide as N.
  { destruct (W p N) as (m & C' & Lt). rewrite (initial_chain_det _ _ _ _ C C') in Lt. lia. }
  inversion C as [|p' r n' L I C']; subst. rewrite L, I. apply (IH _ _ n'); [|done].
  intros x Hx. apply elem_of_union in Hx as [->%elem_of_singleton|Hx].
  - exists (S n'). split; [done|lia].
  - destruct (W x Hx) as (m & Cm & Lt). exists m. split; [done|lia].
Qed.

Lemma initial_iff record :
  checkpoint_has_initial_ancestry record rs = true <->
  exists n, initial_chain rs (rec_thread_id record) (rec_parent_checkpoint_id record) n.
Proof.
  unfold checkpoint_has_initial_ancestry.
  destruct (initial_loop_total (S (S (size rs))) (rec_thread_id record) (rec_parent_checkpoint_id record) ∅) as [b Hb].
  { rewrite difference_empty_L, size_dom. lia. }
  rewrite Hb. simpl. split.
  - intros ->. by eapply initial_loop_sound.
  - intros [n C]. eapply initial_loop_complete; [|exact C|exact Hb]. intros x Hx. by apply not_elem_of_empty in Hx.
Qed.
End ancestry.

(** ** Boundaries and runs *)
Record valid_boundary (cfg : runner) (t : RuntimeThread) (node : string) (l : list CheckpointRecord) (r : CheckpointRecord) : Prop := {
  vb_listed : r ∈ l;
  vb_thread : rec_thread_id r = thread_id t;
  vb_next : next_node t = Some node;
  vb_order : node ∈ node_order cfg;
  vb_completed : get (rec_state r) "last_completed_node" = PStr node;
  vb_count : equals_int (get (rec_state r) "completed_node_count") (checkpoint_count t + 1) = true;
  vb_continuous : match current_checkpoint_id t with
                  | Some c => ancestor (records_by_id l) c (rec_parent_checkpoint_id r)
                  | None => exists n, initial_chain (records_by_id l) (thread_id t) (rec_parent_checkpoint_id r) n
                  end;
  vb_namespace : checkpoint_namespace r = ""%string;
  vb_json : json_serializable (PDict (rec_state r)) = true;
  vb_size : serialized_size_bytes r <= max_checkpoint_bytes cfg;
}.

(** What a run publishes, each node from the thread its predecessor left. *)
Inductive boundary_chain (cfg : runner) : RuntimeThread -> list publication -> Prop :=
| bc_end t : boundary_chain cfg t []
| bc_resume t t' ps : thread_id t' = thread_id t -> boundary_chain cfg t' ps -> boundary_chain cfg t (PublishedResume t' :: ps)
| bc_node t t' node patch l r ps :
    valid_boundary cfg t node l r -> thread_id t' = thread_id t ->
    current_checkpoint_id t' = Some (rec_checkpoint_id r) ->
    boundary_chain cfg t' ps -> boundary_chain cfg t (PublishedNode t' node patch (rec_state r) :: ps).

Definition published_patch (p : publication) : option (string * pydict) :=
  match p with PublishedNode _ n patch _ => Some (n, patch) | PublishedResume _ => None end.
Definition node_patches (cfg : runner) (l : list node_update) : list (string * pydict) :=
  omap (fun u => (fun patch => (nu_node u, patch)) <$> node_patch cfg u) l.
Definition stream_patches (cfg : runner) (items : list stream_item) : list (string * pydict) :=
  flat_map (fun i => match i with Update l => node_patches cfg l | _ => [] end) items.

Definition fair_update (u : node_update) : Prop := fair (nu_before u) /\ fair (nu_within u).
Definition fair_item (i : stream_item) : Prop := match i with Update l => Forall fair_update l | _ => True end.

Lemma equals_str_true v s : equals_str v s = true -> v = PStr s.
Proof. destruct v; simpl; try done. by intros ->%String.eqb_eq. Qed.

Lemma continuous_iff t l r :
  rec_thread_id r = thread_id t -> parent_is_continuous t (records_by_id l) r = true ->
  match current_checkpoint_id t with
  | Some c => ancestor (records_by_id l) c (rec_parent_checkpoint_id r)
  | None => exists n, initial_chain (records_by_id l) (thread_id t) (rec_parent_checkpoint_id r) n
  end.
Proof.
  intros <-. unfold parent_is_continuous. destruct (current_checkpoint_id t); [apply descends_iff|apply initial_iff].
Qed.

Lemma boundary_payload_ok max e r :
  boundary_payload max e r = Ok tt -> checkpoint_namespace r = ""%string /\ json_serializable (PDict (rec_state r)) = true /\
    serialized_size_bytes r <= max.
Proof.
  unfold boundary_payload. destruct (String.eqb _ _) eqn:E1; [|done]. destruct (json_serializable _); [|done].
  destruct (max <? serialized_size_bytes r) eqn:E2; [done|]. apply String.eqb_eq in E1. cbn. repeat split; [done|]. lia.
Qed.

Lemma latest_boundary_ok ps t node r : latest_boundary ps t node = Ok r -> exists l, r ∈ l /\ is_boundary t node (records_by_id l) r = true.
Proof.
  induction ps as [|p ps IH]; [done|]. cbn [latest_boundary]. intros (l & -> & H)%result_bind_ok.
  destruct (List.find _ l) as [r'|] eqn:F; [|auto]. results. apply List.find_some in F as [Hin B].
  exists l. split; [by apply list_elem_of_In|done].
Qed.

(** A successful promotion returns the thread at the checkpoint. *)
Lemma promote_checkpoint_ok env c s row s' :
  fair env -> wf s -> promote_checkpoint env c s = (Ok row, s') ->
  current_checkpoint_id row = Some (cmd_checkpoint_id c) /\ thread_id row = cmd_thread_id c.
Proof.
  intros Fe W. unfold promote_checkpoint.
  destruct (required_thread s _) as [t|e] eqn:R; [|done]. apply required_thread_ok in R.
  case_bool_decide as D1; [intros; results; split; [done|by apply (wf_key _ W)]|].
  destruct (terminal t); [done|]. destruct (_ || _); [done|].
  destruct (commit_both _ _ _ _) as [s2|e] eqn:C.
  - apply commit_both_ok in C as (cur & H1 & V & F & ->). unfold committed_row, required_thread. simpl.
    rewrite (wf_key _ W _ _ R), lookup_insert_eq. simpl. intros E. results. split; [done|]. exact (wf_key _ W _ _ R).
  - destruct (required_thread (env s) _) as [cur|] eqn:R1; [|done]. apply required_thread_ok in R1.
    case_bool_decide; [|done]. intros; results. split; [done|]. apply (wf_key (env s)); [by apply Fe|done].
Qed.

Lemma mark_resumed_ok env k key w s row s' :
  fair env -> wf s -> mark_resumed env k key w s = (Ok row, s') -> thread_id row = k.
Proof.
  intros Fe W. unfold mark_resumed. destruct (required_thread s k) as [t|e] eqn:R; [|done]. apply required_thread_ok in R.
  destruct (terminal t); [intros; results; by apply (wf_key _ W)|].
  destruct (event_by_key s k key); [intros; results; by apply (wf_key _ W)|].
  destruct (commit_both _ _ _ _) as [s2|e] eqn:C; [|done].
  apply commit_both_ok in C as (cur & H1 & V & F & ->). unfold committed_row, required_thread. simpl.
  rewrite (wf_key _ W _ _ R), lookup_insert_eq. simpl. intros E. results. exact (wf_key _ W _ _ R).
Qed.

Lemma promote_checkpoint_store env c s x s' :
  fair env -> wf s -> promote_checkpoint env c s = (x, s') -> wf s' /\ evolves s s'.
Proof. intros F W E. pose proof (perform_fair env F (Promote c) s W) as H. cbn [perform] in H. by rewrite E in H. Qed.

Lemma mark_resumed_store env k key w s x s' :
  fair env -> wf s -> mark_resumed env k key w s = (x, s') -> wf s' /\ evolves s s'.
Proof. intros F W E. pose proof (perform_fair env F (Resume k key w) s W) as H. cbn [perform] in H. by rewrite E in H. Qed.

Section run_proofs.
Context (cfg : runner).

Lemma promote_valid env t r node l s x s' :
  fair env -> wf s -> r ∈ l -> is_boundary t node (records_by_id l) r = true -> node ∈ node_order cfg ->
  promote env cfg t r node s = (x, s') ->
  wf s' /\ evolves s s' /\
  (forall t', x = Ok t' -> valid_boundary cfg t node l r /\ thread_id t' = thread_id t /\ current_checkpoint_id t' = Some (rec_checkpoint_id r)).
Proof.
  intros F W Hl B O. unfold promote.
  assert (Z : wf s /\ evolves s s) by (split; [done|apply evolves_refl]).
  destruct (boundary_payload _ _ r) as [[]|e] eqn:P; [|intros; results; destruct Z; split_and!; done].
  destruct (next_node_in (node_order cfg) node) as [next|e]; [|intros; results; destruct Z; split_and!; done].
  intros E. destruct (promote_checkpoint_store _ _ _ _ _ F W E) as [W' E']. split; [done|]. split; [done|].
  intros t' ->. destruct (promote_checkpoint_ok _ _ _ _ _ F W E) as [H1 H2]. split; [|done].
  apply boundary_payload_ok in P as (P1 & P2 & P3). unfold is_boundary in B. results.
  apply String.eqb_eq in H. apply equals_str_true in H5. apply bool_decide_eq_true in H3.
  split; try done. by apply continuous_iff.
Qed.

Lemma run_nodes_chain l cur res s ps r s' ps' :
  wf s -> Forall fair_update l -> run_nodes cfg l cur res (s, ps) = (r, (s', ps')) ->
  wf s' /\ evolves s s' /\
  exists new, ps' = ps ++ new /\ omap published_patch new `prefix_of` node_patches cfg l /\
    match r with
    | Ok (t, res') =>
        omap published_patch new = node_patches cfg l /\ res' = foldl dict_update res (map snd (node_patches cfg l)) /\
        forall rest, boundary_chain cfg t rest -> boundary_chain cfg cur (new ++ rest)
    | Err _ => boundary_chain cfg cur new
    end.
Proof.
  revert cur res s ps. induction l as [|u l IH]; intros cur res s ps W Fl.
  { intros [= <- <- <-]. split; [done|]. split; [apply evolves_refl|]. exists []. rewrite app_nil_r. split_and!; done. }
  apply Forall_cons in Fl as [[Fb Fw] Fl]. unfold node_patches. simpl.
  destruct (node_patch cfg u) as [patch|] eqn:Np; [|apply IH; done]. simpl. fold (node_patches cfg l).
  assert (O : nu_node u ∈ node_order cfg).
  { unfold node_patch in Np. destruct (one_of _ _) eqn:O; [|done]. by apply one_of_true. }
  unfold others. unfold bind_action at 1.
  assert (W1 : wf (nu_before u s)) by (by apply Fb). assert (E1 : evolves s (nu_before u s)) by (by apply Fb).
  intros [(rec & st & Eb & H)|(e & Eb & ->)]%bind_action_inv; unfold of_result in Eb; injection Eb as Lb Est; subst.
  2: { split; [done|]. split; [done|]. exists []. rewrite app_nil_r. simpl. split; [done|]. split; [apply prefix_nil|constructor]. }
  apply latest_boundary_ok in Lb as (listing & Hin & B).
  apply bind_action_inv in H as [(t & [s2 ps2] & Ep & H)|(e & Ep & ->)]; unfold on_store in Ep;
    destruct (promote _ _ _ _ _ _) as [x s3] eqn:P in Ep; results;
    destruct (promote_valid _ _ _ _ _ _ _ _ Fw W1 Hin B O P) as (W2 & E2 & V).
  2: { split; [done|]. split; [by apply evolves_trans with (nu_before u s)|]. exists []. rewrite app_nil_r.
       split; [done|]. split; [apply prefix_nil|constructor]. }
  unfold publish, bind_action at 1 in H. destruct (V t eq_refl) as (Vb & Vt & Vc).
  apply IH in H as (W3 & E3 & new & -> & Hp & Hr); [|done|done]. split; [done|].
  split; [apply evolves_trans with (nu_before u s); [done|by apply evolves_trans with s2]|].
  exists (PublishedNode t (nu_node u) patch (rec_state rec) :: new). rewrite <- app_assoc. split; [done|].
  simpl. split; [by apply prefix_cons|]. destruct r as [[t2 res2]|e].
  - destruct Hr as (Hn & -> & Hc). split; [exact (f_equal (cons _) Hn)|]. split; [done|]. intros rest Hrest.
    eapply bc_node; eauto.
  - eapply bc_node; eauto.
Qed.

Definition fair_resume (resume : option (string * (store -> store))) : Prop :=
  match resume with Some (_, env) => fair env | None => True end.

Lemma resume_chain resume cur s ps (f : RuntimeThread -> action run_state pydict) r s' ps' :
  wf s -> fair_resume resume ->
  bind_action match resume with
    | Some (key, env) =>
        (do t <- on_store (mark_resumed env (thread_id cur) key (runner_worker_consumer cfg));
         do _ <- publish (PublishedResume t);
         ret_action t)%action
    | None => ret_action cur
    end f (s, ps) = (r, (s', ps')) ->
  exists s1, wf s1 /\ evolves s s1 /\
    ((exists cur1 new, omap published_patch new = [] /\ f cur1 (s1, ps ++ new) = (r, (s', ps')) /\
        forall rest, boundary_chain cfg cur1 rest -> boundary_chain cfg cur (new ++ rest))
     \/ exists e, r = Err e /\ s' = s1 /\ ps' = ps).
Proof.
  intros W Fr. destruct resume as [[key env]|].
  - intros [(t & [s2 ps2] & E & H)|(e & E & ->)]%bind_action_inv;
      unfold bind_action, on_store, publish, ret_action in E;
      destruct (mark_resumed env (thread_id cur) key (runner_worker_consumer cfg) s) as [[t'|e'] s1] eqn:M; results;
      destruct (mark_resumed_store _ _ _ _ _ _ _ Fr W M) as [W1 E1].
    + eexists. split; [exact W1|]. split; [done|]. left. exists t, [PublishedResume t]. split; [done|]. split; [done|].
      intros rest Hc. constructor; [|done]. by apply (mark_resumed_ok _ _ _ _ _ _ _ Fr W M).
    + eexists. split; [exact W1|]. split; [done|]. right. by eexists.
  - intros H. unfold bind_action, ret_action in H. exists s. split; [done|]. split; [apply evolves_refl|].
    left. exists cur, []. rewrite app_nil_r. done.
Qed.

Lemma run_stream_chain items resume cur res s ps r s' ps' :
  wf s -> Forall fair_item items -> fair_resume resume -> run_stream cfg resume items cur res (s, ps) = (r, (s', ps')) ->
  wf s' /\ evolves s s' /\
  exists new, ps' = ps ++ new /\ boundary_chain cfg cur new /\ omap published_patch new `prefix_of` stream_patches cfg items /\
    match r with
    | Ok res' => omap published_patch new = stream_patches cfg items /\ res' = foldl dict_update res (map snd (stream_patches cfg items))
    | Err _ => True
    end.
Proof.
  revert resume cur res s ps. induction items as [|i items IH]; intros resume cur res s ps W Fi Fr.
  { intros [= <- <- <-]. split; [done|]. split; [apply evolves_refl|]. exists []. rewrite app_nil_r.
    split; [done|]. split; [constructor|]. done. }
  apply Forall_cons in Fi as [Fi Fis]. destruct i as [l| |e]; cbn [run_stream].
  3: { intros [= <- <- <-]. split; [done|]. split; [apply evolves_refl|]. exists []. rewrite app_nil_r.
       split; [done|]. split; [constructor|]. split; [apply prefix_nil|done]. }
  - intros (s1 & W1 & E1 & D)%resume_chain; [|done|done].
    destruct D as [(cur1 & new1 & N1 & H & C1)|(e & -> & -> & ->)].
    2: { split; [done|]. split; [done|]. exists []. rewrite app_nil_r. split; [done|]. split; [constructor|]. split; [apply prefix_nil|done]. }
    apply bind_action_inv in H as [([t res1] & [s2 ps2] & En & H)|(e & En & ->)];
      destruct (run_nodes_chain _ _ _ _ _ _ _ _ W1 Fi En) as (W2 & E2 & new2 & -> & P2 & R2).
    + destruct R2 as (Q2 & -> & C2). apply IH in H as (W3 & E3 & new3 & -> & C3 & P3 & R3); [|done..].
      split; [done|]. split; [apply evolves_trans with s1; [done|by apply evolves_trans with s2]|].
      exists (new1 ++ new2 ++ new3). rewrite !app_assoc. split; [done|]. rewrite <- !app_assoc. split; [by apply C1, C2|].
      rewrite !omap_app, N1, Q2. cbn [app stream_patches flat_map]. split; [by apply prefix_app|].
      destruct r as [res'|]; [|done]. destruct R3 as [Q3 ->]. unfold stream_patches in *.
      rewrite Q3, map_app, foldl_app. done.
    + split; [done|]. split; [by apply evolves_trans with s1|]. exists (new1 ++ new2). rewrite app_assoc. split; [done|].
      split; [by apply C1|]. rewrite omap_app, N1. cbn [app stream_patches flat_map]. split; [|done]. by apply prefix_app_r.
  - intros (s1 & W1 & E1 & D)%resume_chain; [|done|done].
    destruct D as [(cur1 & new1 & N1 & H & C1)|(e & -> & -> & ->)].
    2: { split; [done|]. split; [done|]. exists []. rewrite app_nil_r. split; [done|]. split; [constructor|]. split; [apply prefix_nil|done]. }
    apply IH in H as (W3 & E3 & new3 & -> & C3 & P3 & R3); [|done..].
    split; [done|]. split; [by apply evolves_trans with s1|]. exists (new1 ++ new3). rewrite app_assoc. split; [done|].
    split; [by apply C1|]. by rewrite omap_app, N1.
Qed.

Lemma wrap_error_class e : exn_class (wrap_error e) = "RuntimeThreadCheckpointError"%string.
Proof.
  unfold wrap_error. destruct (String.eqb (exn_class e) "RuntimeThreadCheckpointError") eqn:E; [by apply String.eqb_eq|].
  by repeat destruct (String.eqb _ _).
Qed.
End run_proofs.

Lemma next_node_in_total order node : node ∈ order -> exists next, next_node_in order node = Ok next.
Proof.
  induction order as [|x rest IH]; [by intros ?%not_elem_of_nil|]. simpl. intros Hn.
  destruct (String.eqb x node) eqn:E; [by eexists|]. apply String.eqb_neq in E.
  apply elem_of_cons in Hn as [->|Hn]; [done|auto].
Qed.

(** *** Orphans: checkpoints that continue the thread but were not promoted *)
Record orphan (cfg : runner) (t : RuntimeThread) (node : string) (l : list CheckpointRecord) (r : CheckpointRecord) : Prop := {
  or_listed : r ∈ l;
  or_thread : rec_thread_id r = thread_id t;
  or_new : Some (rec_checkpoint_id r) <> current_checkpoint_id t;
  or_order : node ∈ node_order cfg;
  or_completed : get (rec_state r) "last_completed_node" = PStr node;
  or_count : equals_int (get (rec_state r) "completed_node_count") (checkpoint_count t + 1) = true;
  or_continuous : match current_checkpoint_id t with
                  | Some c => ancestor (records_by_id l) c (rec_parent_checkpoint_id r)
                  | None => exists n, initial_chain (records_by_id l) (thread_id t) (rec_parent_checkpoint_id r) n
                  end;
}.

Lemma candidate_iff cfg t node l r :
  next_node t = Some node ->
  r ∈ List.filter (is_continuous cfg t) (direct_children t l) <-> orphan cfg t node l r.
Proof.
  intros N. unfold direct_children. rewrite !list_elem_of_In, !filter_In. unfold is_continuous. rewrite N.
  rewrite !andb_true_iff, negb_true_iff, bool_decide_eq_false, String.eqb_eq, one_of_true, <- list_elem_of_In. split.
  - intros [[Hl [[Ht Hn] Hc]] [[Hs Ho] Hk]]. split; try done; [by apply equals_str_true|by apply continuous_iff].
  - intros [Hl Ht Hn Ho Hs Hk Hc]. split; split; try done.
    + split; [done|]. revert Hc. rewrite <- Ht. unfold parent_is_continuous.
      destruct (current_checkpoint_id t); [apply descends_iff|apply initial_iff].
    + split; [|done]. rewrite Hs. apply String.eqb_refl.
Qed.

Lemma filter_two {A} (f : A -> bool) (l : list A) x y : x ∈ List.filter f l -> y ∈ List.filter f l -> x <> y ->
  exists a b rest, List.filter f l = a :: b :: rest.
Proof.
  destruct (List.filter f l) as [|a [|b rest]].
  - by intros ?%not_elem_of_nil.
  - intros ->%elem_of_one ->%elem_of_one. done.
  - intros _ _ _. by exists a, b, rest.
Qed.

(** *** History *)
Lemma checkpoint_events_sorted s thread limit max_limit :
  StronglySorted (fun x y => py_le (ev_state_version y) (ev_state_version x) = true) (checkpoint_events s thread limit max_limit).
Proof.
  unfold checkpoint_events. generalize (sorted_key_desc_sorted ev_state_version (List.filter is_checkpoint_event (list_events s thread max_limit))).
  generalize (sorted_key_desc ev_state_version (List.filter is_checkpoint_event (list_events s thread max_limit))).
  generalize (Z.to_nat (bounded_limit limit max_limit)). intros n l. revert n.
  induction l as [|x l IH]; intros [|n] H; simpl; try constructor.
  - apply IH. by inversion H.
  - inversion H as [|? ? _ Hall]; subst. rewrite List.Forall_forall in Hall. apply List.Forall_forall. intros y Hy.
    apply Hall. apply list_elem_of_In. apply list_elem_of_In in Hy. by apply elem_of_take in Hy as (? & ?%list_elem_of_lookup_2 & _).
Qed.

Lemma take_sorted_le {A} (R : A -> A -> Prop) (l : list A) n x y :
  StronglySorted R l -> x ∈ take n l -> y ∈ drop n l -> R x y.
Proof.
  intros H. revert n. induction H as [|z l H IH Hall]; intros [|n]; simpl; try (by intros ?%not_elem_of_nil).
  rewrite List.Forall_forall in Hall. intros [->|Hx]%elem_of_cons Hy; [|by apply (IH n)].
  apply Hall, list_elem_of_In. rewrite <- (take_drop n l). apply elem_of_app. by right.
Qed.

Lemma py_le_Z (x y : Z) : py_le x y = true <-> x <= y.
Proof. unfold py_le, pycmp, z_cmp. unfold Z.le. destruct (x ?= y); split; congruence. Qed.

Lemma history_events get_exact thread evs h :
  map_result (fun e => r ← exact get_exact thread (default ""%string (ev_checkpoint_id e)); Ok {| h_event := e; h_state := rec_state <$> r |}) evs = Ok h ->
  map h_event h = evs.
Proof.
  intros H%map_result_Forall2. induction H as [|e i evs h E H IH]; [done|]. simpl. f_equal; [|done].
  apply result_bind_ok in E as (r & _ & E). by results.
Qed.

Lemma list_events_elem s thread limit e : e ∈ list_events s thread limit -> e ∈ events s /\ ev_thread_id e = thread.
Proof.
  unfold list_events. destruct (limit <=? 0); [by intros ?%not_elem_of_nil|].
  set (rows := List.filter _ _). intros He. assert (Hr : e ∈ rows).
  { rewrite <- (take_drop (length rows - Z.to_nat limit) rows). apply elem_of_app. by right. }
  apply list_elem_of_In, filter_In in Hr as [Hin E%String.eqb_eq]. by rewrite list_elem_of_In.
Qed.

Lemma checkpoint_events_elem s thread limit max_limit e :
  e ∈ checkpoint_events s thread limit max_limit -> e ∈ list_events s thread max_limit /\ is_checkpoint_event e = true.
Proof.
  unfold checkpoint_events. intros (i & He%list_elem_of_lookup_2 & _)%elem_of_take. rewrite sorted_key_desc_perm in He.
  apply list_elem_of_In, filter_In in He as [Hin E]. by rewrite list_elem_of_In.
Qed.

(** *** A small graph for the witnesses: the created thread waits for its first node *)
Definition ex_runner : runner := {| node_order := ["intake"; "route"]%string; max_checkpoint_bytes := 1000; runner_worker_consumer := "w1" |}.
Definition ex_record (id : string) (parent : option string) (state : pydict) : CheckpointRecord :=
  {| rec_thread_id := "th"; rec_checkpoint_id := id; rec_parent_checkpoint_id := parent; checkpoint_namespace := "";
     rec_state := state; serialized_size_bytes := 10 |}.
Definition ex_listing : list CheckpointRecord :=
  [ex_record "c1" (Some "c0"%string) [("last_completed_node", PStr "intake"); ("completed_node_count", PInt 1)]%string;
   ex_record "c0" None []].
Definition ex_thread : RuntimeThread := new_thread "th" "t".
Definition ex_items : list stream_item :=
  [NotAMapping;
   Update [{| nu_node := "intake"; nu_patch := Some [("risk", PInt 3)]%string; nu_polls := [Ok []; Ok ex_listing];
              nu_before := id; nu_within := interfere [Create "t2" "th2"] |}]].

Lemma ex_items_fair : Forall fair_item ex_items.
Proof.
  constructor; [done|]. constructor; [|constructor]. constructor; [|constructor].
  split; [apply fair_id|apply interfere_fair].
Qed.

(** ** Properties *)

(** C31: Both ancestry loops decide reachability over the listed checkpoints, and
    always end, on cyclic parent links too: a record descends from a checkpoint
    exactly when its parent links lead there, and has initial ancestry exactly
    when they end after checkpoints of the same thread's root namespace that
    have completed no node. *)
Theorem ancestry_decided (r : CheckpointRecord) (target : string) (rs : gmap string CheckpointRecord) :
  (checkpoint_descends_from r target rs = true <-> ancestor rs target (rec_parent_checkpoint_id r)) /\
  (checkpoint_has_initial_ancestry r rs = true <-> exists n, initial_chain rs (rec_thread_id r) (rec_parent_checkpoint_id r) n) /\
  is_Some (descends_loop (S (S (size rs))) rs target (rec_parent_checkpoint_id r) ∅) /\
  is_Some (initial_loop (S (S (size rs))) rs (rec_thread_id r) (rec_parent_checkpoint_id r) ∅).
Proof.
  split; [apply descends_iff|]. split; [apply initial_iff|].
  split; [apply descends_loop_total|apply initial_loop_total]; rewrite difference_empty_L, size_dom; lia.
Qed.

(** A run goes from boundary to boundary, whatever other sessions commit
    meanwhile: every node it publishes is the node the thread was waiting for,
    and its checkpoint is listed, belongs to the thread, counts one node more,
    continues the canonical checkpoint, is serialisable and within the size
    limit, and is the thread's canonical checkpoint afterwards.  A run that
    returns has published every node update of the stream, in order, and returns the input
    updated with their patches; one that fails has published a prefix and raises
    a [RuntimeThreadCheckpointError]. *)
Theorem run_advances_by_boundaries (cfg : runner) (t : RuntimeThread) (graph_input : option pydict)
    (resume : option (string * (store -> store))) (items : list stream_item) (s s' : store) (ps : list publication) (r : result pydict) :
  wf s -> Forall fair_item items -> fair_resume resume -> run cfg t graph_input resume items (s, []) = (r, (s', ps)) ->
  wf s' /\ evolves s s' /\ boundary_chain cfg t ps /\ omap published_patch ps `prefix_of` stream_patches cfg items /\
  match r with
  | Ok res => omap published_patch ps = stream_patches cfg items /\
              res = foldl dict_update (default [] graph_input) (map snd (stream_patches cfg items))
  | Err e => exn_class e = "RuntimeThreadCheckpointError"%string
  end.
Proof.
  intros W Fi Fr. unfold run, catch_action. destruct (run_stream _ _ _ _ _ _) as [x [s1 ps1]] eqn:E.
  destruct (run_stream_chain _ _ _ _ _ _ _ _ _ _ W Fi Fr E) as (W1 & E1 & new & -> & C & P & R).
  destruct x as [res|e]; intros H; [|unfold raise_action in H]; results; simpl in *.
  - done.
  - split_and!; try done. apply wrap_error_class.
Qed.

Lemma run_advances_by_boundaries_witness :
  exists res s' ps, run ex_runner ex_thread (Some [("weight", PInt 7)]%string) None ex_items (ex_created, []) = (Ok res, (s', ps)) /\
    res = [("weight", PInt 7); ("risk", PInt 3)]%string /\ boundary_chain ex_runner ex_thread ps.
Proof.
  assert (H : exists res s' ps, run ex_runner ex_thread (Some [("weight", PInt 7)]%string) None ex_items (ex_created, []) = (Ok res, (s', ps)) /\
    res = [("weight", PInt 7); ("risk", PInt 3)]%string).
  { vm_compute. do 3 eexists. split; reflexivity. }
  destruct H as (res & s' & ps & E & S). exists res, s', ps. split; [exact E|]. split; [exact S|].
  apply (run_advances_by_boundaries ex_runner _ _ None ex_items _ _ _ _ ex_created_wf ex_items_fair I E).
Defined.

(** Reconciliation of a live thread promotes the one checkpoint that
    continues it, if there is exactly one and its payload is acceptable;
    without one the thread is returned unchanged, and with two different ones
    nothing is promoted and the divergence is reported. *)
Theorem reconcile_promotes_unique_orphan (cfg : runner) (env : store -> store) (l : list CheckpointRecord)
    (t : RuntimeThread) (node : string) (s s' : store) (x : result RuntimeThread) :
  fair env -> wf s -> terminal t = false -> next_node t = Some node -> reconcile cfg env (Ok l) t s = (x, s') ->
  wf s' /\ evolves s s' /\
  match x with
  | Ok t' =>
      t' = t /\ s' = s /\ (forall r, ~ orphan cfg t node l r)
      \/ exists r, valid_boundary cfg t node l r /\ (forall r', orphan cfg t node l r' <-> r' = r) /\
           thread_id t' = thread_id t /\ current_checkpoint_id t' = Some (rec_checkpoint_id r)
  | Err e => exn_class e = "RuntimeThreadCheckpointError"%string
  end /\
  (forall r1 r2, orphan cfg t node l r1 -> orphan cfg t node l r2 -> r1 <> r2 ->
     x = Err (RuntimeThreadCheckpointError "DIVERGENT_ORPHAN_CHECKPOINTS") /\ s' = s).
Proof.
  intros F W T N. unfold reconcile. rewrite T, N.
  pose proof (fun r => candidate_iff cfg t node l r N) as Cand.
  destruct (List.filter (is_continuous cfg t) (direct_children t l)) as [|r [|r2 rest]] eqn:Eq.
  - intros H. results. split; [done|]. split; [apply evolves_refl|]. split.
    + left. split; [done|]. split; [done|]. intros r H%Cand. by apply not_elem_of_nil in H.
    + intros r1 r2 H%Cand. by apply not_elem_of_nil in H.
  - assert (U : forall r', orphan cfg t node l r' <-> r' = r) by (intros r'; rewrite <- Cand, list_elem_of_singleton; done).
    assert (D : forall P : Prop, forall r1 r2, orphan cfg t node l r1 -> orphan cfg t node l r2 -> r1 <> r2 -> P)
      by (intros P r1 r2 ->%U ->%U; done).
    destruct (proj2 (U r) eq_refl) as [Hl Ht Hn Ho Hs Hk Hc].
    destruct (boundary_payload _ _ r) as [[]|e] eqn:P.
    2: { intros H. results. split; [done|]. split; [apply evolves_refl|]. split; [|intros r1 r2 ???; by apply (D _ r1 r2)].
         unfold boundary_payload in P. repeat (case_match_in P; results; try done). }
    destruct (next_node_in_total _ _ Ho) as [next ->]. unfold catch_action.
    destruct (promote_checkpoint _ _ _) as [[t'|e] s1] eqn:E; intros H; [|unfold raise_action in H]; results;
      destruct (promote_checkpoint_store _ _ _ _ _ F W E) as [W1 E1]; split; try done; split; try done;
      (split; [|intros r1 r2 ???; by apply (D _ r1 r2)]); [|done].
    right. exists r. apply boundary_payload_ok in P as (P1 & P2 & P3). split; [by split|]. split; [done|].
    destruct (promote_checkpoint_ok _ _ _ _ _ F W E) as [C1 C2]. done.
  - intros H. results. split; [done|]. split; [apply evolves_refl|]. by split.
Qed.

Lemma reconcile_promotes_unique_orphan_witness :
  exists t' s', reconcile ex_runner id (Ok ex_listing) ex_thread ex_created = (Ok t', s') /\
    current_checkpoint_id t' = Some "c1"%string /\ wf s'.
Proof.
  assert (H : exists t' s', reconcile ex_runner id (Ok ex_listing) ex_thread ex_created = (Ok t', s') /\
    current_checkpoint_id t' = Some "c1"%string).
  { vm_compute. do 2 eexists. split; reflexivity. }
  destruct H as (t' & s' & E & S). exists t', s'. split; [exact E|]. split; [exact S|].
  exact (proj1 (reconcile_promotes_unique_orphan ex_runner id ex_listing ex_thread "intake" _ _ _ fair_id ex_created_wf eq_refl eq_refl E)).
Defined.

(** The history of a thread holds at most the bounded limit of its promoted
    and reconciled checkpoints, the newest version first; a checkpoint event
    that was listed but left out is no newer than any that is shown. *)
Theorem list_history_newest_first (get_exact : exact_read) (max_limit limit : Z) (s : store) (thread : string) (h : list history_item) :
  wf s -> list_history get_exact max_limit true s thread limit = Ok h ->
  StronglySorted (fun a b => py_le (ev_state_version b) (ev_state_version a) = true) (map h_event h) /\
  Z.of_nat (length h) <= Z.max 0 (bounded_limit limit max_limit) /\
  (forall e, e ∈ map h_event h -> e ∈ events s /\ ev_thread_id e = thread /\ is_checkpoint_event e = true) /\
  (forall e e', e ∈ map h_event h -> e' ∈ list_events s thread max_limit -> is_checkpoint_event e' = true ->
     e' ∈ map h_event h \/ ev_state_version e' <= ev_state_version e).
Proof.
  intros W. unfold list_history. cbn [negb]. destruct (get_by_thread_id s thread) as [t|] eqn:G; [|done].
  unfold get_by_thread_id in G. rewrite (wf_key _ W _ _ G). intros H%history_events.
  rewrite <- (length_map h_event h), H. split; [apply checkpoint_events_sorted|]. split.
  { unfold checkpoint_events. rewrite length_take. lia. }
  split.
  - intros e [He E]%checkpoint_events_elem. apply list_events_elem in He as [He1 He2]. done.
  - intros e e' He He' E'. set (sorted := sorted_key_desc ev_state_version (List.filter is_checkpoint_event (list_events s thread max_limit))).
    assert (Hs : e' ∈ sorted).
    { subst sorted. rewrite sorted_key_desc_perm. apply list_elem_of_In, filter_In. by rewrite <- list_elem_of_In. }
    rewrite <- (take_drop (Z.to_nat (bounded_limit limit max_limit)) sorted) in Hs.
    apply elem_of_app in Hs as [Hs|Hs]; [by left|right]. apply py_le_Z.
    by apply (take_sorted_le (fun a b => py_le (ev_state_version b) (ev_state_version a) = true) sorted
      (Z.to_nat (bounded_limit limit max_limit)) e e' (sorted_key_desc_sorted _ _)).
Qed.

Lemma list_history_newest_first_witness :
  exists h, list_history (fun _ _ => Ok None) 100 true ex_stable "th" 5 = Ok h /\ length h = 1%nat /\
    (forall e, e ∈ map h_event h -> e ∈ events ex_stable /\ ev_thread_id e = "th"%string /\ is_checkpoint_event e = true).
Proof.
  assert (H : exists h, list_history (fun _ _ => Ok None) 100 true ex_stable "th" 5 = Ok h /\ length h = 1%nat).
  { vm_compute. eexists. split; reflexivity. }
  destruct H as (h & E & S). exists h. split; [exact E|]. split; [exact S|].
  apply (list_history_newest_first _ _ _ _ _ _ ex_stable_wf E).
Defined.
