(* ===== verification/RedisLock.v ===== *)
(** * RedisLock: the execution lock of a dispatch task

    Models [app/locks/redis_execution_lock.py].  Redis is a service: its client
    is the interface [LockClient], the class [LockClientLaws] states what the
    lock relies on (atomic [SET NX PX], an optimistic [WATCH] transaction that
    applies its commands only on the value its callable has read, expiry), and
    [redis] is a store that satisfies it.  The random token of an acquisition
    is an argument. *)

From S2P Require Import Prelude.

Local Open Scope Z_scope.
Local Open Scope list_scope.

(** ** The client *)

(** The command queued by a transaction's callable. *)
Inductive command := Pexpire (ms : Z) | Delete.

(** [transaction func key]: [func] maps the value read under [WATCH] to the
    command it queues and returns [True], or queues nothing and returns [False]. *)
Class LockClient (R : Type) := {
  client_set_nx : string -> string -> Z -> action R bool;
  client_transaction : (option string -> option command) -> string -> action R bool;
  client_get : R -> string -> option string;      (* live value, for the specification *)
}.

(** Two servers look the same, apart from one key. *)
Definition same_but {R} `{LockClient R} (key : string) (r r' : R) : Prop :=
  forall k, k <> key -> client_get r' k = client_get r k.

Definition command_effect (c : command) (v : option string) : option string :=
  match c with Pexpire _ => v | Delete => None end.

(** A failing call may have been executed or not. *)
Class LockClientLaws (R : Type) `{LockClient R} := {
  set_nx_law : forall key token ms r x r', client_set_nx key token ms r = (x, r') ->
    same_but key r r' /\
    match x with
    | Ok b => b = (match client_get r key with None => true | Some _ => false end) /\
              client_get r' key = (match client_get r key with None => Some token | Some v => Some v end)
    | Err _ => client_get r' key = client_get r key \/ (client_get r key = None /\ client_get r' key = Some token)
    end;
  transaction_law : forall f key r x r', client_transaction f key r = (x, r') ->
    same_but key r r' /\
    match x with
    | Ok b => b = (match f (client_get r key) with Some _ => true | None => false end) /\
              client_get r' key = (match f (client_get r key) with Some c => command_effect c (client_get r key) | None => client_get r key end)
    | Err _ => client_get r' key = client_get r key \/
               exists c, f (client_get r key) = Some c /\ client_get r' key = command_effect c (client_get r key)
    end;
}.

(** ** The lock *)
Definition ExecutionLockError (m : string) : exn := Exn "ExecutionLockError" m.

Record LockHandle := { handle_key : string; handle_token : string; acquired : bool }.

Definition lock_key (idempotency_key : string) : string := "countyflow:lock:dispatch:" +:+ idempotency_key.

Definition is_redis_error (e : exn) : bool := String.eqb (exn_class e) "RedisError".
Definition lock_error {A} (m : string) (e : exn) : result A :=
  if is_redis_error e then Err (ExecutionLockError m) else Err e.

Section lock.
Context {R : Type} `{LockClient R} (ttl_ms : Z).

Definition acquire (idempotency_key token : string) : action R LockHandle := fun r =>
  match client_set_nx (lock_key idempotency_key) token ttl_ms r with
  | (Ok b, r') => (Ok {| handle_key := lock_key idempotency_key; handle_token := token; acquired := b |}, r')
  | (Err e, r') => (lock_error "Redis execution lock acquire failed." e, r')
  end.

Definition compare_and (token : string) (c : command) (value : option string) : option command :=
  if bool_decide (value = Some token) then Some c else None.

Definition renew (h : LockHandle) : action R bool := fun r =>
  if negb (acquired h) then (Ok false, r)
  else match client_transaction (compare_and (handle_token h) (Pexpire ttl_ms)) (handle_key h) r with
       | (Ok b, r') => (Ok b, r')
       | (Err e, r') => (lock_error "Redis execution lock renewal failed." e, r')
       end.

Definition release (h : LockHandle) : action R bool := fun r =>
  if negb (acquired h) then (Ok false, r)
  else match client_transaction (compare_and (handle_token h) Delete) (handle_key h) r with
       | (Ok b, r') => (Ok b, r')
       | (Err e, r') => (lock_error "Redis execution lock release failed." e, r')
       end.

(** [renewal_interval_seconds], in milliseconds: a third of the lifetime, at least one. *)
Definition renewal_interval_ms : Q := if Qle_bool (inject_Z ttl_ms / 3) 1 then 1 else (inject_Z ttl_ms / 3)%Q.

(** What any number of workers do with their handles. *)
Inductive lock_op := Acquire (idempotency_key token : string) | Renew (h : LockHandle) | Release (h : LockHandle).

Definition lock_perform (op : lock_op) (r : R) : option LockHandle * R :=
  match op with
  | Acquire k t => match acquire k t r with (Ok h, r') => (Some h, r') | (Err _, r') => (None, r') end
  | Renew h => (None, (renew h r).2)
  | Release h => (None, (release h r).2)
  end.

(** The handles of a sequence of operations, in order, and the server after it. *)
Fixpoint lock_run (ops : list lock_op) (r : R) : list LockHandle * R :=
  match ops with
  | [] => ([], r)
  | op :: ops' =>
      let (h, r1) := lock_perform op r in
      let (hs, r2) := lock_run ops' r1 in (match h with Some h => h :: hs | None => hs end, r2)
  end.

(** The token an operation presents for a key. *)
Definition presents (op : lock_op) (key token : string) : Prop :=
  match op with
  | Acquire k t => lock_key k = key /\ t = token
  | Renew h | Release h => handle_key h = key /\ handle_token h = token
  end.
End lock.

(** ** A server that satisfies the laws *)
Record redis := { clock : Z; keys : gmap string (string * Z) }.

Definition redis_get (r : redis) (k : string) : option string :=
  match keys r !! k with Some (v, deadline) => if clock r <? deadline then Some v else None | None => None end.
Definition redis_set (r : redis) (k : string) (v : option (string * Z)) : redis :=
  {| clock := clock r; keys := match v with Some x => <[k := x]> (keys r) | None => delete k (keys r) end |}.

Definition redis_set_nx (k v : string) (ms : Z) : action redis bool := fun r =>
  match redis_get r k with
  | Some _ => (Ok false, r)
  | None => (Ok true, redis_set r k (Some (v, clock r + Z.max ms 1)))
  end.
Definition redis_transaction (f : option string -> option command) (k : string) : action redis bool := fun r =>
  match f (redis_get r k) with
  | None => (Ok false, r)
  | Some Delete => (Ok true, redis_set r k None)
  | Some (Pexpire ms) =>
      (Ok true, match redis_get r k with Some v => redis_set r k (Some (v, clock r + Z.max ms 1)) | None => r end)
  end.

#[export] Instance redis_client : LockClient redis :=
  {| client_set_nx := redis_set_nx; client_transaction := redis_transaction; client_get := redis_get |}.

Lemma redis_set_get r k v k' :
  redis_get (redis_set r k v) k' =
  if decide (k' = k) then match v with Some (x, d) => if clock r <? d then Some x else None | None => None end else redis_get r k'.
Proof.
  unfold redis_get. destruct v as [[x d]|]; simpl; destruct (decide (k' = k)) as [->|N].
  - by rewrite lookup_insert_eq.
  - by rewrite lookup_insert_ne.
  - by rewrite lookup_delete_eq.
  - by rewrite lookup_delete_ne.
Qed.

#[export] Instance redis_laws : LockClientLaws redis.
Proof.
  split.
  - intros key token ms r x r'. unfold client_set_nx, client_get, same_but, client_get. simpl. unfold redis_set_nx.
    destruct (redis_get r key) as [v|] eqn:E; intros [= <- <-]; [by rewrite E|]. split.
    + intros k N. by rewrite redis_set_get, decide_False.
    + split; [done|]. rewrite redis_set_get, decide_True by done. by rewrite (proj2 (Z.ltb_lt _ _)) by lia.
  - intros f key r x r'. unfold client_transaction, client_get, same_but, client_get. simpl. unfold redis_transaction.
    destruct (f (redis_get r key)) as [[ms|]|] eqn:E; intros [= <- <-]; simpl; [| |done].
    + destruct (redis_get r key) as [v|] eqn:G; [|by rewrite G]. split.
      * intros k N. by rewrite redis_set_get, decide_False.
      * split; [done|]. rewrite redis_set_get, decide_True by done. by rewrite (proj2 (Z.ltb_lt _ _)) by lia.
    + split; [|by rewrite redis_set_get, decide_True]. intros k N. by rewrite redis_set_get, decide_False.
Qed.

(** ** Lemmas *)
Section proofs.
Context {R : Type} `{LockClientLaws R} (ttl_ms : Z).

Lemma acquire_spec k t r x r' :
  acquire ttl_ms k t r = (x, r') ->
  same_but (lock_key k) r r' /\
  match x with
  | Ok h => handle_key h = lock_key k /\ handle_token h = t /\
            acquired h = (match client_get r (lock_key k) with None => true | Some _ => false end) /\
            client_get r' (lock_key k) = (match client_get r (lock_key k) with None => Some t | Some v => Some v end)
  | Err _ => client_get r' (lock_key k) = client_get r (lock_key k) \/
             (client_get r (lock_key k) = None /\ client_get r' (lock_key k) = Some t)
  end.
Proof.
  unfold acquire. destruct (client_set_nx (lock_key k) t ttl_ms r) as [[b|e] r1] eqn:E; intros X; injection X as <- <-;
    destruct (set_nx_law _ _ _ _ _ _ E) as [S L]; (split; [done|]).
  - simpl. by destruct L as [-> ->].
  - unfold lock_error. by destruct (is_redis_error e).
Qed.

(** Renewing and releasing change a key only when it holds the handle's token. *)
Lemma compare_spec (h : LockHandle) c m (op : LockHandle -> action R bool) r x r' :
  (forall s, op h s = if negb (acquired h) then (Ok false, s)
     else match client_transaction (compare_and (handle_token h) c) (handle_key h) s with
          | (Ok b, s') => (Ok b, s') | (Err e, s') => (lock_error m e, s') end) ->
  op h r = (x, r') ->
  same_but (handle_key h) r r' /\
  (client_get r (handle_key h) <> Some (handle_token h) -> client_get r' (handle_key h) = client_get r (handle_key h)) /\
  (forall b, x = Ok b -> acquired h = true ->
     b = bool_decide (client_get r (handle_key h) = Some (handle_token h)) /\
     (b = true -> client_get r' (handle_key h) = command_effect c (Some (handle_token h)))).
Proof.
  intros D. rewrite D. destruct (acquired h) eqn:A; simpl; [|intros X; injection X as <- <-; done].
  destruct (client_transaction _ _ r) as [[b|e] r1] eqn:E; intros X; injection X as <- <-;
    destruct (transaction_law _ _ _ _ _ E) as [S L]; (split; [done|]).
  - unfold compare_and in L. case_bool_decide as Q; destruct L as [-> L]; split; try done.
    + intros b' [= <-] _. split; [done|]. intros _. by rewrite L, Q.
    + intros b' [= <-] _. done.
  - split; [|unfold lock_error; intros b'; by destruct (is_redis_error e)].
    intros N. destruct L as [L|(c' & L & _)]; [done|]. unfold compare_and in L. by rewrite bool_decide_eq_false_2 in L.
Qed.

Lemma lock_perform_keeps op r key token :
  client_get r key = Some token -> ~ presents op key token -> client_get (lock_perform ttl_ms op r).2 key = Some token.
Proof.
  intros G N. destruct op as [k t|h|h]; simpl in *.
  - destruct (acquire ttl_ms k t r) as [x r'] eqn:E. apply acquire_spec in E as [S L].
    assert (X : client_get r' key = Some token).
    { destruct (decide (key = lock_key k)) as [->|D]; [|by rewrite S].
      rewrite G in L. destruct x; [by destruct L as (_ & _ & _ & ->)|]. destruct L as [->|[? _]]; [done|congruence]. }
    by destruct x.
  - destruct (renew ttl_ms h r) as [x r'] eqn:E. apply (compare_spec h _ _ (renew ttl_ms) r x r' (fun s => eq_refl)) in E as (S & K & _).
    simpl. destruct (decide (key = handle_key h)) as [->|D]; [|by rewrite S]. rewrite K; [done|]. rewrite G. intros [= ->]. by apply N.
  - destruct (release h r) as [x r'] eqn:E. apply (compare_spec h _ _ release r x r' (fun s => eq_refl)) in E as (S & K & _).
    simpl. destruct (decide (key = handle_key h)) as [->|D]; [|by rewrite S]. rewrite K; [done|]. rewrite G. intros [= ->]. by apply N.
Qed.
End proofs.

Lemma lock_run_keeps {R} `{LockClientLaws R} ttl_ms ops (r : R) key token :
  client_get r key = Some token -> (forall op, op ∈ ops -> ~ presents op key token) ->
  client_get (lock_run ttl_ms ops r).2 key = Some token /\
  (forall h, h ∈ (lock_run ttl_ms ops r).1 -> handle_key h = key -> acquired h = false).
Proof.
  revert r. induction ops as [|op ops IH]; intros r G N; simpl; [split; [done|]; by intros h Hh%not_elem_of_nil|].
  pose proof (lock_perform_keeps ttl_ms op r key token G (N op (list_elem_of_here _ _))) as G1.
  destruct (lock_perform ttl_ms op r) as [o r1] eqn:E. simpl in G1.
  destruct (IH r1 G1) as [G2 F]; [intros op' Hop; apply N; by right|].
  destruct (lock_run ttl_ms ops r1) as [hs r2]. simpl in *. split; [done|].
  destruct o as [h|]; [|done]. intros h' [->|Hh']%elem_of_cons K; [|by apply F].
  destruct op as [k t|?|?]; simpl in E; [|done|done]. destruct (acquire ttl_ms k t r) as [x r'] eqn:A.
  apply acquire_spec in A as [_ L]. destruct x; simplify_eq. destruct L as (Hk & _ & -> & _). by rewrite <- Hk, G.
Qed.

(** ** Properties *)

(** C22: Mutual exclusion.  While a worker's token is stored under the key, and
    as long as nobody else presents that token (it does not expire in
    between), no sequence of acquisitions, renewals and releases by others -
    failing calls that may or may not have been executed included - obtains the
    lock or removes it. *)
Theorem lock_mutual_exclusion {R : Type} `{LockClientLaws R} (ttl_ms : Z) (k token : string) (r r1 r2 : R)
    (h : LockHandle) (ops : list lock_op) (hs : list LockHandle) :
  acquire ttl_ms k token r = (Ok h, r1) -> acquired h = true ->
  (forall op, op ∈ ops -> ~ presents op (lock_key k) token) -> lock_run ttl_ms ops r1 = (hs, r2) ->
  client_get r (lock_key k) = None /\
  client_get r2 (lock_key k) = Some token /\ (forall h', h' ∈ hs -> handle_key h' = lock_key k -> acquired h' = false).
Proof.
  intros A Ah N E. apply acquire_spec in A as (_ & _ & _ & Ha & G). rewrite Ah in Ha.
  destruct (client_get r (lock_key k)); [done|]. split; [done|].
  destruct (lock_run_keeps ttl_ms ops r1 (lock_key k) token G N) as [H1 H2]. by rewrite E in H1, H2.
Qed.

Definition ex_server : redis := {| clock := 0; keys := ∅ |}.
Definition ex_handle (token : string) : LockHandle := {| handle_key := lock_key "k1"; handle_token := token; acquired := true |}.

Lemma lock_mutual_exclusion_witness :
  exists h r1 hs r2, acquire 30000 "k1" "a" ex_server = (Ok h, r1) /\
    lock_run 30000 [Acquire "k1" "b"; Release (ex_handle "b"); Acquire "k2" "b"] r1 = (hs, r2) /\ map acquired hs = [false; true] /\
    client_get r2 (lock_key "k1") = Some "a"%string.
Proof.
  destruct (acquire 30000 "k1" "a" ex_server) as [[h|e] r1] eqn:E; [|vm_compute in E; discriminate E].
  destruct (lock_run 30000 [Acquire "k1" "b"; Release (ex_handle "b"); Acquire "k2" "b"] r1) as [hs r2] eqn:L.
  pose proof E as E'. vm_compute in E'. injection E' as Eh Er. pose proof L as L'. rewrite <- Er in L'. vm_compute in L'. injection L' as Ehs _.
  assert (A : acquired h = true) by (rewrite <- Eh; reflexivity).
  exists h, r1, hs, r2. split; [reflexivity|]. split; [exact L|]. split; [rewrite <- Ehs; reflexivity|].
  refine (proj1 (proj2 (lock_mutual_exclusion 30000 "k1" "a" ex_server r1 r2 h _ hs E A _ L))).
  intros op [->|[->|[->|[]%not_elem_of_nil]%elem_of_cons]%elem_of_cons]%elem_of_cons [H1 H2]; discriminate.
Defined.

(** A handle only ever touches its own lock: releasing it frees the key
    exactly when the key still holds its token, renewing it reports success
    exactly then, and after an expiry and a takeover both leave the new
    holder's lock as it is; a handle that was not acquired does nothing. *)
Theorem lock_owner_only {R : Type} `{LockClientLaws R} (ttl_ms : Z) (h : LockHandle) (r r1 r2 : R) (x y : result bool) :
  renew ttl_ms h r = (x, r1) -> release h r = (y, r2) ->
  same_but (handle_key h) r r1 /\ same_but (handle_key h) r r2 /\
  if acquired h && bool_decide (client_get r (handle_key h) = Some (handle_token h))
  then (forall b, x = Ok b -> b = true /\ client_get r1 (handle_key h) = Some (handle_token h)) /\
       (forall b, y = Ok b -> b = true /\ client_get r2 (handle_key h) = None)
  else (forall b, x = Ok b -> b = false) /\ (forall b, y = Ok b -> b = false) /\
       client_get r1 (handle_key h) = client_get r (handle_key h) /\ client_get r2 (handle_key h) = client_get r (handle_key h).
Proof.
  intros E1 E2.
  destruct (compare_spec h _ _ (renew ttl_ms) r x r1 (fun s => eq_refl) E1) as (S1 & K1 & B1).
  destruct (compare_spec h _ _ release r y r2 (fun s => eq_refl) E2) as (S2 & K2 & B2).
  split; [done|]. split; [done|]. destruct (acquired h) eqn:A; simpl.
  - case_bool_decide as Q.
    + split; intros b Hb; [destruct (B1 b Hb eq_refl) as [-> D]|destruct (B2 b Hb eq_refl) as [-> D]];
        (split; [done|]); exact (D eq_refl).
    + split; [intros b Hb; by destruct (B1 b Hb eq_refl)|].
      split; [intros b Hb; by destruct (B2 b Hb eq_refl)|]. auto.
  - unfold renew in E1. unfold release in E2. rewrite A in E1, E2. simpl in E1, E2. injection E1 as <- <-. injection E2 as <- <-.
    split; [by intros b [= <-]|]. split; [by intros b [= <-]|done].
Qed.

Lemma lock_owner_only_witness :
  client_get (lock_run 30000 [Acquire "k1" "b"; Renew (ex_handle "a"); Release (ex_handle "a")] ex_server).2 (lock_key "k1") = Some "b"%string /\
  client_get (release (ex_handle "a") (lock_run 30000 [Acquire "k1" "b"] ex_server).2).2 (lock_key "k1") =
    client_get (lock_run 30000 [Acquire "k1" "b"] ex_server).2 (lock_key "k1").
Proof.
  split; [vm_compute; reflexivity|].
  destruct (renew 30000 (ex_handle "a") (lock_run 30000 [Acquire "k1" "b"] ex_server).2) as [x r1] eqn:E1.
  destruct (release (ex_handle "a") (lock_run 30000 [Acquire "k1" "b"] ex_server).2) as [y r2] eqn:E2.
  exact (proj2 (proj2 (proj2 (proj2 (proj2 (lock_owner_only 30000 _ _ _ _ _ _ E1 E2)))))).
Defined.
