(* ===== verification/Idempotency.v ===== *)
(** * Idempotency: the task ledger that makes a message execute once

    Models [app/idempotency/service.py] over the tables it uses: the rows of
    [dispatch_tasks], the runtime-thread tables of RuntimeThreads, and the
    dispatch and audit rows it reconciles against.  [begin] reads, then writes
    three rows in one transaction: [env] is what other sessions commit in
    between.  [step] interleaves the transactions of any number of requests.  Timestamps are left out but for whether they are set. *)

From S2P Require Import Prelude.
From S2P Require RuntimeThreads.

Local Open Scope Z_scope.
Local Open Scope list_scope.

(** ** Data *)
Record DispatchTask := {
  t_id : Z;
  t_task_id : string;
  t_order_id : Z;
  t_anomaly_id : option Z;
  t_status : string;
  t_idempotency_key : string;
  t_assignee_subject_id : option string;
  t_started : bool;      (* started_at is set *)
  t_completed : bool;    (* completed_at is set *)
}.

Record AuditRow := { a_id : Z; a_task : Z; a_dispatch : Z; a_result : string }.

Record ledger := {
  tasks : list DispatchTask;
  runtime : RuntimeThreads.store;
  dispatch_rows : list (Z * Z);        (* dispatch id, task *)
  audit_rows : list AuditRow;
  known_orders : gset Z;
  known_anomalies : gset Z;
  next_task : Z;
}.

Inductive IdempotencyState := NEW | IN_PROGRESS | TERMINAL.
#[export] Instance IdempotencyState_eq_dec : EqDecision IdempotencyState.
Proof. solve_decision. Defined.

Definition TERMINAL_STATUSES : list string := ["APPROVED"; "COMPLETED"; "DLQ"; "FAILED"; "REVIEW_REQUIRED"]%string.
Definition is_terminal_status (s : string) : bool := one_of s TERMINAL_STATUSES.

Record IdempotencyDecision := {
  state : IdempotencyState;
  dec_task_id : string;
  dec_idempotency_key : string;
  existing_status : option string;
  should_execute : bool;
}.

Record ExecutionReconciliation := { rc_dispatch_id : option Z; rc_audit_id : option Z; rc_terminal_status : option string }.
Definition rc_is_terminal (r : ExecutionReconciliation) : bool :=
  match rc_terminal_status r with Some s => one_of s ["APPROVED"; "REVIEW_REQUIRED"]%string | None => false end.

Definition IdempotencyConflictError : exn :=
  Exn "IdempotencyConflictError" "Idempotency key is already assigned to a different task.".
Definition TaskMissing : exn := Exn "ValueError" "Dispatch task does not exist.".

(** ** Reading *)
Definition by_task (l : ledger) (tid : string) : option DispatchTask := List.find (fun t => String.eqb (t_task_id t) tid) (tasks l).
Definition by_key (l : ledger) (key : string) : option DispatchTask := List.find (fun t => String.eqb (t_idempotency_key t) key) (tasks l).

Definition existing (l : ledger) (tid key : string) : result (option DispatchTask) :=
  if match by_task l tid with Some t => negb (String.eqb (t_idempotency_key t) key) | None => false end then Err IdempotencyConflictError
  else if match by_key l key with Some t => negb (String.eqb (t_task_id t) tid) | None => false end then Err IdempotencyConflictError
  else Ok (match by_task l tid with Some t => Some t | None => by_key l key end).

Definition decision (t : DispatchTask) : IdempotencyDecision :=
  {| state := if is_terminal_status (t_status t) then TERMINAL else IN_PROGRESS; dec_task_id := t_task_id t;
     dec_idempotency_key := t_idempotency_key t; existing_status := Some (t_status t); should_execute := false |}.

Definition get (l : ledger) (tid key : string) : result (option IdempotencyDecision) :=
  match existing l tid key with Ok o => Ok (decision <$> o) | Err e => Err e end.

(** ** begin *)
Record begin_request := {
  b_task_id : string;
  b_order_id : Z;
  b_key : string;
  b_anomaly_id : option Z;
  b_assignee : option string;
}.

Definition new_task (l : ledger) (rq : begin_request) : DispatchTask :=
  {| t_id := next_task l; t_task_id := b_task_id rq; t_order_id := b_order_id rq; t_anomaly_id := b_anomaly_id rq;
     t_status := "PENDING"; t_idempotency_key := b_key rq; t_assignee_subject_id := b_assignee rq;
     t_started := false; t_completed := false |}.

(** Unique task id and key, and the foreign keys. *)
Definition task_accepted (l : ledger) (t : DispatchTask) : bool :=
  match by_task l (t_task_id t), by_key l (t_idempotency_key t) with None, None => true | _, _ => false end
  && bool_decide (t_order_id t ∈ known_orders l)
  && match t_anomaly_id t with Some a => bool_decide (a ∈ known_anomalies l) | None => true end.

Definition with_runtime (l : ledger) (ts : list DispatchTask) (rt : RuntimeThreads.store) (n : Z) : ledger :=
  {| tasks := ts; runtime := rt; dispatch_rows := dispatch_rows l; audit_rows := audit_rows l;
     known_orders := known_orders l; known_anomalies := known_anomalies l; next_task := n |}.

Definition know_task (rt : RuntimeThreads.store) (tid : string) : RuntimeThreads.store :=
  {| RuntimeThreads.known_tasks := {[tid]} ∪ RuntimeThreads.known_tasks rt;
     RuntimeThreads.threads := RuntimeThreads.threads rt; RuntimeThreads.events := RuntimeThreads.events rt |}.

(** The transaction: task, thread, creation event. *)
Definition insert_ledger (l : ledger) (rq : begin_request) (thread : string) : result ledger :=
  if task_accepted l (new_task l rq) then
    rt1 ← RuntimeThreads.insert_thread (know_task (runtime l) (b_task_id rq)) (RuntimeThreads.new_thread thread (b_task_id rq));
    rt2 ← RuntimeThreads.insert_event rt1 (RuntimeThreads.created_event thread);
    Ok (with_runtime l (tasks l ++ [new_task l rq]) rt2 (next_task l + 1))
  else Err RuntimeThreads.IntegrityError.

Definition begin (env : ledger -> ledger) (rq : begin_request) : action ledger IdempotencyDecision := fun l =>
  match existing l (b_task_id rq) (b_key rq) with
  | Err e => (Err e, l)
  | Ok (Some t) => (Ok (decision t), l)
  | Ok None =>
      match RuntimeThreads.thread_id_for_persisted_task (b_task_id rq) with
      | Err e => (Err e, l)
      | Ok thread =>
          let l1 := env l in
          match insert_ledger l1 rq thread with
          | Ok l2 => (Ok {| state := NEW; dec_task_id := b_task_id rq; dec_idempotency_key := b_key rq;
                            existing_status := None; should_execute := true |}, l2)
          | Err e =>
              match existing l1 (b_task_id rq) (b_key rq) with
              | Err e' => (Err e', l1)
              | Ok (Some t) => (Ok (decision t), l1)
              | Ok None => (Err e, l1)
              end
          end
      end
  end.

(** ** Status changes *)
Definition set_status (st : string) (started completed : bool) (t : DispatchTask) : DispatchTask :=
  {| t_id := t_id t; t_task_id := t_task_id t; t_order_id := t_order_id t; t_anomaly_id := t_anomaly_id t;
     t_status := st; t_idempotency_key := t_idempotency_key t; t_assignee_subject_id := t_assignee_subject_id t;
     t_started := t_started t || started; t_completed := t_completed t || completed |}.

Definition mark (tid st : string) (started completed : bool) : action ledger unit := fun l =>
  match by_task l tid with
  | None => (Err TaskMissing, l)
  | Some _ =>
      (Ok tt, with_runtime l (map (fun t => if String.eqb (t_task_id t) tid then set_status st started completed t else t) (tasks l))
                (runtime l) (next_task l))
  end.
Definition mark_processing (tid : string) : action ledger unit := mark tid "PROCESSING" true false.
Definition mark_terminal (tid st : string) : action ledger unit := mark tid st false true.

(** ** Reconciliation with what an earlier execution persisted *)
Definition no_execution : ExecutionReconciliation := {| rc_dispatch_id := None; rc_audit_id := None; rc_terminal_status := None |}.

Definition reconcile_existing_execution (l : ledger) (tid : string) : ExecutionReconciliation :=
  match by_task l tid with
  | None => no_execution
  | Some t =>
      match List.find (fun d => d.2 =? t_id t) (dispatch_rows l) with
      | None => no_execution
      | Some d =>
          let audit := List.find (fun a => (a_task a =? t_id t) && (a_dispatch a =? d.1)) (audit_rows l) in
          {| rc_dispatch_id := Some d.1; rc_audit_id := a_id <$> audit; rc_terminal_status := a_result <$> audit |}
      end
  end.

(** ** Concurrent requests

    A request between its transactions: arrived; gone past its read, which found
    no row; refused by its insertion, which was rolled back; answered. *)
Inductive session :=
| Arrived (rq : begin_request)
| Absent (rq : begin_request) (thread : string)
| Refused (rq : begin_request) (e : exn)
| Answered (rq : begin_request) (d : result IdempotencyDecision).
(** The next transaction of a request.  Two insertions of one task or key wait
    for each other at the unique indexes, so each is one step. *)
Definition advance (x : session) (l : ledger) : session * ledger :=
  match x with
  | Arrived rq =>
      (match existing l (b_task_id rq) (b_key rq) with
       | Err e => Answered rq (Err e)
       | Ok (Some t) => Answered rq (Ok (decision t))
       | Ok None => match RuntimeThreads.thread_id_for_persisted_task (b_task_id rq) with Err e => Answered rq (Err e) | Ok thread => Absent rq thread end
       end, l)
  | Absent rq thread =>
      match insert_ledger l rq thread with
      | Ok l' => (Answered rq (Ok {| state := NEW; dec_task_id := b_task_id rq; dec_idempotency_key := b_key rq; existing_status := None; should_execute := true |}), l')
      | Err e => (Refused rq e, l)
      end
  | Refused rq e =>
      (Answered rq (match existing l (b_task_id rq) (b_key rq) with Err e' => Err e' | Ok (Some t) => Ok (decision t) | Ok None => Err e end), l)
  | Answered rq d => (x, l)
  end.

Definition request_of (x : session) : begin_request := match x with Arrived rq | Absent rq _ | Refused rq _ | Answered rq _ => rq end.

Definition is_new (d : result IdempotencyDecision) : bool :=
  match d with Ok d => bool_decide (state d = NEW) | Err _ => false end.

(** ** Well-formedness and evolution *)
Record lwf (l : ledger) : Prop := {
  lwf_task_ids : NoDup (map t_task_id (tasks l));
  lwf_keys : NoDup (map t_idempotency_key (tasks l));
  lwf_known : RuntimeThreads.known_tasks (runtime l) = list_to_set (map t_task_id (tasks l));
  lwf_runtime : RuntimeThreads.wf (runtime l);
}.

(** Rows stay, with their identity; threads only evolve. *)
Record levolves (l l' : ledger) : Prop := {
  le_rows : forall t, t ∈ tasks l -> exists t', t' ∈ tasks l' /\ t_task_id t' = t_task_id t /\ t_idempotency_key t' = t_idempotency_key t;
  le_runtime : RuntimeThreads.evolves (runtime l) (runtime l');
}.

Record fair (env : ledger -> ledger) : Prop := {
  fair_lwf : forall l, lwf l -> lwf (env l);
  fair_evolves : forall l, lwf l -> levolves l (env l);
}.

Lemma levolves_refl l : levolves l l.
Proof. split; [|apply RuntimeThreads.evolves_refl]. intros t H. by exists t. Qed.

Lemma levolves_trans l1 l2 l3 : levolves l1 l2 -> levolves l2 l3 -> levolves l1 l3.
Proof.
  intros [R1 T1] [R2 T2]. split; [|by apply RuntimeThreads.evolves_trans with (runtime l2)].
  intros t (t2 & H2 & E1 & E2)%R1. destruct (R2 t2 H2) as (t3 & H3 & E3 & E4). exists t3. repeat split; congruence.
Qed.

Lemma ledger_fair_id : fair id.
Proof. split; [done|intros; apply levolves_refl]. Qed.

(** Any number of requests on one ledger: in any order, one of them makes its
    next transaction, or anyone else commits something. *)
Inductive step : ledger * list session -> ledger * list session -> Prop :=
| step_session l ss i x y l' : ss !! i = Some x -> advance x l = (y, l') -> step (l, ss) (l', <[i := y]> ss)
| step_others l ss l' : lwf l' -> levolves l l' -> step (l, ss) (l', ss).

(** *** Lookups *)
Lemma by_task_some l tid t : by_task l tid = Some t -> t ∈ tasks l /\ t_task_id t = tid.
Proof. intros [H E%String.eqb_eq]%List.find_some. by rewrite list_elem_of_In. Qed.

Lemma by_key_some l key t : by_key l key = Some t -> t ∈ tasks l /\ t_idempotency_key t = key.
Proof. intros [H E%String.eqb_eq]%List.find_some. by rewrite list_elem_of_In. Qed.

Lemma by_task_none l tid : by_task l tid = None <-> tid ∉ map t_task_id (tasks l).
Proof.
  split.
  - intros F H. apply list_elem_of_In, in_map_iff in H as (t & <- & Ht). apply (List.find_none _ _ F) in Ht.
    by rewrite String.eqb_refl in Ht.
  - intros N. destruct (by_task l tid) as [t|] eqn:E; [|done]. apply by_task_some in E as [H <-].
    destruct N. apply list_elem_of_In, in_map, list_elem_of_In. done.
Qed.

Lemma by_key_none l key : by_key l key = None <-> key ∉ map t_idempotency_key (tasks l).
Proof.
  split.
  - intros F H. apply list_elem_of_In, in_map_iff in H as (t & <- & Ht). apply (List.find_none _ _ F) in Ht.
    by rewrite String.eqb_refl in Ht.
  - intros N. destruct (by_key l key) as [t|] eqn:E; [|done]. apply by_key_some in E as [H <-].
    destruct N. apply list_elem_of_In, in_map, list_elem_of_In. done.
Qed.

Lemma elem_map {A B} (f : A -> B) l x : x ∈ l -> f x ∈ map f l.
Proof. rewrite !list_elem_of_In. apply in_map. Qed.

Lemma elem_map_inv {A B} (f : A -> B) l y : y ∈ map f l -> exists x, x ∈ l /\ y = f x.
Proof. intros H%list_elem_of_In. apply in_map_iff in H as (x & <- & H). exists x. by rewrite list_elem_of_In. Qed.

Lemma evolves_task l l' tid : levolves l l' -> tid ∈ map t_task_id (tasks l) -> tid ∈ map t_task_id (tasks l').
Proof. intros E (t & H & ->)%elem_map_inv. destruct (le_rows _ _ E t H) as (t' & H' & <- & _). by apply elem_map. Qed.

Lemma evolves_key l l' key : levolves l l' -> key ∈ map t_idempotency_key (tasks l) -> key ∈ map t_idempotency_key (tasks l').
Proof. intros E (t & H & ->)%elem_map_inv. destruct (le_rows _ _ E t H) as (t' & H' & _ & <-). by apply elem_map. Qed.

(** *** The transaction *)
Lemma know_task_wf rt tid : RuntimeThreads.wf rt -> RuntimeThreads.wf (know_task rt tid) /\ RuntimeThreads.evolves rt (know_task rt tid).
Proof.
  intros W. pose proof W as [K R T U N O]. split.
  - split; try done. intros k t H. simpl. apply elem_of_union_r. by apply (T k).
  - split; simpl; [set_solver| |done]. intros k t H. exists t. split; [done|apply RuntimeThreads.row_evolves_refl].
Qed.

Lemma insert_ledger_ok l rq thread l' :
  lwf l -> insert_ledger l rq thread = Ok l' ->
  lwf l' /\ levolves l l' /\ (b_task_id rq ∉ map t_task_id (tasks l)) /\ (b_key rq ∉ map t_idempotency_key (tasks l)) /\
  tasks l' = tasks l ++ [new_task l rq] /\
  RuntimeThreads.threads (runtime l) !! thread = None /\
  RuntimeThreads.threads (runtime l') = <[thread := RuntimeThreads.new_thread thread (b_task_id rq)]> (RuntimeThreads.threads (runtime l)) /\
  RuntimeThreads.events (runtime l') = RuntimeThreads.events (runtime l) ++ [RuntimeThreads.created_event thread] /\
  dispatch_rows l' = dispatch_rows l /\ audit_rows l' = audit_rows l.
Proof.
  intros W. unfold insert_ledger. destruct (task_accepted l (new_task l rq)) eqn:A; [|done].
  unfold task_accepted in A. results. simpl in *.
  destruct (by_task l (b_task_id rq)) eqn:B1; [done|]. destruct (by_key l (b_key rq)) eqn:B2; [done|].
  apply by_task_none in B1. apply by_key_none in B2.
  intros HX. apply result_bind_ok in HX as (rt1 & I1 & HX). apply result_bind_ok in HX as (rt2 & I2 & X). injection X as <-.
  apply RuntimeThreads.insert_thread_ok in I1 as (K1 & K2 & K3 & ->).
  apply RuntimeThreads.insert_event_ok in I2 as (_ & F & ->). simpl in *.
  destruct (know_task_wf (runtime l) (b_task_id rq) (lwf_runtime _ W)) as [Wk Ek].
  assert (S : RuntimeThreads.local_step (know_task (runtime l) (b_task_id rq))
    (RuntimeThreads.add_event (RuntimeThreads.with_thread (know_task (runtime l) (b_task_id rq))
       (RuntimeThreads.new_thread thread (b_task_id rq))) (RuntimeThreads.created_event thread))).
  { apply RuntimeThreads.ls_create; [done|by apply RuntimeThreads.thread_of_task_none|done|apply RuntimeThreads.new_thread_ok|done|done]. }
  split; [split; simpl|split; [split; simpl|done]].
  - rewrite map_app. apply NoDup_app. split; [apply W|]. split; [|apply NoDup_singleton]. by intros x Hx ->%elem_of_one.
  - rewrite map_app. apply NoDup_app. split; [apply W|]. split; [|apply NoDup_singleton]. by intros x Hx ->%elem_of_one.
  - rewrite (lwf_known _ W), map_app, list_to_set_app_L. simpl. set_solver.
  - exact (RuntimeThreads.local_step_wf _ _ Wk S).
  - intros t Ht. exists t. split; [|done]. apply elem_of_app. by left.
  - eapply RuntimeThreads.evolves_trans; [exact Ek|]. exact (RuntimeThreads.local_step_evolves _ _ S).
Qed.

Lemma existing_none l tid key : existing l tid key = Ok None -> (tid ∉ map t_task_id (tasks l)) /\ key ∉ map t_idempotency_key (tasks l).
Proof.
  unfold existing. destruct (by_task l tid) as [t|] eqn:E1; [case_match; [done|]; case_match; done|].
  destruct (by_key l key) as [t|] eqn:E2; [case_match; done|]. intros _. by rewrite <- by_task_none, <- by_key_none.
Qed.

Lemma existing_some l tid key t : existing l tid key = Ok (Some t) -> t ∈ tasks l /\ t_task_id t = tid /\ t_idempotency_key t = key.
Proof.
  unfold existing. destruct (by_task l tid) as [u|] eqn:E1.
  - destruct (String.eqb (t_idempotency_key u) key) eqn:Q; [|done]. cbn [negb].
    case_match; [done|]. intros [= <-]. apply by_task_some in E1 as [? ?]. apply String.eqb_eq in Q. done.
  - destruct (by_key l key) as [u|] eqn:E2; [|done]. destruct (String.eqb (t_task_id u) tid) eqn:Q; [|done]. cbn [negb].
    intros [= <-]. apply by_key_some in E2 as [? ?]. apply String.eqb_eq in Q. done.
Qed.

Lemma decision_not_new t : state (decision t) <> NEW.
Proof. simpl. by destruct (is_terminal_status _). Qed.

(** What one [begin] can do: either it is NEW and has inserted the task, its
    thread and the creation event at once, or it has written nothing. *)
Lemma begin_cases env rq l d l' :
  lwf l -> fair env -> begin env rq l = (d, l') ->
  lwf l' /\ levolves l l' /\
  (is_new d = false /\ (l' = l \/ l' = env l)
   \/ is_new d = true /\ existing l (b_task_id rq) (b_key rq) = Ok None /\
      exists thread, RuntimeThreads.thread_id_for_persisted_task (b_task_id rq) = Ok thread /\ insert_ledger (env l) rq thread = Ok l').
Proof.
  intros W F. assert (W1 : lwf (env l)) by (by apply F). assert (E1 : levolves l (env l)) by (by apply F).
  assert (Z : lwf l /\ levolves l l) by (split; [done|apply levolves_refl]).
  assert (Q : forall t, is_new (Ok (decision t)) = false) by (intros t; apply bool_decide_eq_false_2, decision_not_new).
  unfold begin. destruct (existing l _ _) as [[t|]|e] eqn:X.
  - intros [= <- <-]. destruct Z. split; [done|]. split; [done|]. left. auto.
  - destruct (RuntimeThreads.thread_id_for_persisted_task _) as [thread|e] eqn:T.
    2: { intros [= <- <-]. destruct Z. split; [done|]. split; [done|]. left. auto. }
    destruct (insert_ledger (env l) rq thread) as [l2|e] eqn:I.
    + intros [= <- <-]. destruct (insert_ledger_ok _ _ _ _ W1 I) as (W2 & E2 & _).
      split; [done|]. split; [by apply levolves_trans with (env l)|]. right. split; [done|]. split; [done|]. by exists thread.
    + destruct (existing (env l) _ _) as [[t|]|e'] eqn:X1; intros [= <- <-]; split; try done; split; try done; left; auto.
  - intros [= <- <-]. destruct Z. split; [done|]. split; [done|]. left. auto.
Qed.

(** A [begin] is the transactions of its request, with the others in between. *)
Lemma begin_advances env rq l : begin env rq l =
  match advance (Arrived rq) l with
  | (Absent _ thread, _) =>
      match advance (Absent rq thread) (env l) with
      | (Refused _ e, l1) => match advance (Refused rq e) l1 with (Answered _ d, l2) => (d, l2) | (_, l2) => (Err e, l2) end
      | (Answered _ d, l1) => (d, l1)
      | (_, l1) => (Err RuntimeThreads.IntegrityError, l1)
      end
  | (Answered _ d, l1) => (d, l1)
  | (_, l1) => (Err RuntimeThreads.IntegrityError, l1)
  end.
Proof.
  unfold begin. cbn [advance]. destruct (existing l _ _) as [[t|]|e]; [done| |done]. destruct (RuntimeThreads.thread_id_for_persisted_task _) as [thread|e]; [|done].
  cbn [advance]. destruct (insert_ledger (env l) rq thread) as [l2|e]; [done|]. by destruct (existing (env l) _ _) as [[t|]|e'].
Qed.

(** *** Every interleaving *)
Definition told_to_execute (x : session) : bool := match x with Answered _ d => is_new d | _ => false end.
(** What an execution from [l0] has established. *)
Record started (l0 : ledger) (l : ledger) (ss : list session) : Prop := {
  started_wf : lwf l;
  started_evolves : levolves l0 l;
  started_known i x : ss !! i = Some x -> told_to_execute x = true ->
    (b_task_id (request_of x) ∈ map t_task_id (tasks l)) /\ (b_key (request_of x) ∈ map t_idempotency_key (tasks l));
  started_new i x : ss !! i = Some x -> told_to_execute x = true ->
    (b_task_id (request_of x) ∉ map t_task_id (tasks l0)) /\ (b_key (request_of x) ∉ map t_idempotency_key (tasks l0));
  started_apart i j x y : i <> j -> ss !! i = Some x -> ss !! j = Some y -> told_to_execute x = true -> told_to_execute y = true ->
    b_task_id (request_of x) <> b_task_id (request_of y) /\ b_key (request_of x) <> b_key (request_of y);
}.
(** A transaction tells a request to execute, and then inserted its row, or it
    leaves the ledger and tells nobody anything new. *)
Lemma advance_cases x l y l' : advance x l = (y, l') -> request_of y = request_of x /\
  ((l' = l /\ (told_to_execute y = true -> y = x)) \/
   (told_to_execute x = false /\ told_to_execute y = true /\ exists thread, insert_ledger l (request_of x) thread = Ok l')).
Proof.
  assert (Q : forall t, is_new (Ok (decision t)) = false) by (intros t; apply bool_decide_eq_false_2, decision_not_new).
  destruct x as [rq|rq thread|rq e|rq d]; cbn [advance].
  - intros [= <- <-]. destruct (existing l _ _) as [[t|]|e]; [|destruct (RuntimeThreads.thread_id_for_persisted_task _)|];
      (split; [done|left; split; [done|]]; cbn [told_to_execute]; rewrite ?Q; done).
  - destruct (insert_ledger l rq thread) as [l2|e] eqn:I; intros [= <- <-]; (split; [done|]); [right|left; done]. split; [done|]. split; [done|]. by exists thread.
  - intros [= <- <-]. split; [done|left; split; [done|]]. destruct (existing l _ _) as [[t|]|e']; cbn [told_to_execute]; rewrite ?Q; done.
  - intros [= <- <-]. split; [done|left; done].
Qed.
Lemma step_started l0 l ss l' ss' : started l0 l ss -> step (l, ss) (l', ss') -> started l0 l' ss'.
Proof.
  intros [W E K N A] S. inversion S as [l1 ss1 i x y l2 X Ad|l1 ss1 l2 W2 E2]; subst; clear S.
  2: { split; [done|by eapply levolves_trans| |done|done]. intros i x X T. destruct (K i x X T) as [K1 K2]. split; [by apply (evolves_task l)|by apply (evolves_key l)]. }
  destruct (advance_cases x l y l' Ad) as [R [[-> Q]|(F & T & thread & I)]].
  - assert (H : forall j z, <[i := y]> ss !! j = Some z -> told_to_execute z = true -> ss !! j = Some z).
    { intros j z J T. destruct (decide (j = i)) as [->|]; [|by rewrite list_lookup_insert_ne in J].
      rewrite list_lookup_insert_eq in J by (by eapply lookup_lt_Some). injection J as <-. by rewrite (Q T). }
    split; [done|done| | |].
    + intros j z J T. by apply (K j z); [apply H|].
    + intros j z J T. by apply (N j z); [apply H|].
    + intros j k z u D J1 J2 T1 T2. apply (A j k); [done|by apply H..|done|done].
  - destruct (insert_ledger_ok l _ thread l' W I) as (W' & E' & N1 & N2 & R' & _).
    assert (H : forall j z, <[i := y]> ss !! j = Some z -> (j = i /\ z = y) \/ (j <> i /\ ss !! j = Some z)).
    { intros j z J. destruct (decide (j = i)) as [->|D]; [left|right; by rewrite list_lookup_insert_ne in J].
      rewrite list_lookup_insert_eq in J by (by eapply lookup_lt_Some). by injection J as <-. }
    split; [done|by eapply levolves_trans| | |].
    + intros j z [[-> ->]|[D J]]%H T'.
      * rewrite R, R', !map_app. split; apply elem_of_app; right; by left.
      * destruct (K j z J T') as [K1 K2]. split; [by apply (evolves_task l)|by apply (evolves_key l)].
    + intros j z [[-> ->]|[D J]]%H T'; [|by apply (N j z)]. rewrite R. split; intros B; [apply N1; by apply (evolves_task l0)|apply N2; by apply (evolves_key l0)].
    + intros j k z u D [[-> ->]|[D1 J1]]%H [[-> ->]|[D2 J2]]%H T1 T2; [done| | |by apply (A j k)].
      * rewrite R. destruct (K k u J2 T2) as [K1 K2]. split; intros B; [apply N1|apply N2]; by rewrite B.
      * rewrite R. destruct (K j z J1 T1) as [K1 K2]. split; intros B; [apply N1|apply N2]; by rewrite <- B.
Qed.
Lemma reached_started l0 l ss s : started l0 l ss -> rtc step (l, ss) s -> started l0 s.1 s.2.
Proof.
  intros H R. remember (l, ss) as s0 eqn:E. revert l ss E H. induction R as [s|s s1 s2 S _ IH]; intros l ss -> H; [done|].
  destruct s1 as [l1 ss1]. by apply (IH l1 ss1); [|eapply step_started].
Qed.
Lemma arrived_started l rqs : lwf l -> started l l (map Arrived rqs).
Proof.
  intros W. assert (H : forall i x, map Arrived rqs !! i = Some x -> told_to_execute x = true -> False).
  { intros i x X. change (map Arrived rqs) with (Arrived <$> rqs) in X. rewrite list_lookup_fmap in X. destruct (rqs !! i); simplify_eq/=. by intros. }
  split; [done|apply levolves_refl| | |]; intros; exfalso; by eapply H.
Qed.

(** *** Status changes *)
Lemma mark_ok tid st started completed l l' :
  mark tid st started completed l = (Ok tt, l') ->
  let f t := if String.eqb (t_task_id t) tid then set_status st started completed t else t in
  by_task l tid <> None /\ l' = with_runtime l (map f (tasks l)) (runtime l) (next_task l) /\
  (forall tid', by_task l' tid' = f <$> by_task l tid') /\ (forall key, by_key l' key = f <$> by_key l key).
Proof.
  unfold mark. destruct (by_task l tid) as [t0|] eqn:E; [|done]. intros [= <-]. split; [done|]. split; [done|].
  split; intros x; apply find_map; intros t; by destruct (String.eqb (t_task_id t) tid).
Qed.

Lemma existing_by_task l tid key t : existing l tid key = Ok (Some t) -> by_task l tid = Some t.
Proof.
  intros E. pose proof (existing_some _ _ _ _ E) as (H & T & _). unfold existing in E.
  destruct (by_task l tid) as [u|] eqn:B; [case_match; [done|]; case_match; [done|congruence]|].
  apply by_task_none in B. destruct B. rewrite <- T. by apply elem_map.
Qed.

Lemma existing_after_mark tid st l l' key t :
  existing l tid key = Ok (Some t) -> mark_terminal tid st l = (Ok tt, l') ->
  existing l' tid key = Ok (Some (set_status st false true t)).
Proof.
  intros E M. destruct (mark_ok _ _ _ _ _ _ M) as (_ & _ & Ht & Hk). pose proof (existing_by_task _ _ _ _ E) as B.
  pose proof (existing_some _ _ _ _ E) as (_ & T & K). unfold existing in *. rewrite Ht, Hk, B in *. simpl.
  rewrite T, String.eqb_refl. simpl. rewrite K, String.eqb_refl in *. simpl in *.
  destruct (by_key l key) as [u|]; simpl; [|done]. destruct (String.eqb (t_task_id u) tid) eqn:Q; [|done].
  simpl. by rewrite Q.
Qed.

(** *** A small ledger for the witnesses *)
Definition ex_ledger : ledger :=
  {| tasks := []; runtime := RuntimeThreads.empty_store ∅; dispatch_rows := []; audit_rows := [];
     known_orders := {[1]}; known_anomalies := ∅; next_task := 1 |}.
Definition ex_request (task key : string) : begin_request :=
  {| b_task_id := task; b_order_id := 1; b_key := key; b_anomaly_id := None; b_assignee := None |}.

Lemma ex_ledger_wf : lwf ex_ledger.
Proof. split; simpl; [constructor|constructor|done|apply RuntimeThreads.wf_empty]. Qed.

(** Another session's request as the environment of a session. *)
Lemma begin_fair env rq : fair env -> fair (fun l => (begin env rq l).2).
Proof. intros F. split; intros l W; simpl; destruct (begin env rq l) as [d l'] eqn:B; destruct (begin_cases _ _ _ _ _ W F B) as (? & ? & _); done. Qed.

(** Two requests for one task and one for another key race: all of them read
    before any of them inserts. *)
Definition ex_race : list begin_request := [ex_request "t1" "k1"; ex_request "t1" "k1"; ex_request "t3" "k3"].
Definition turn (i : nat) (s : ledger * list session) : ledger * list session :=
  match s.2 !! i with Some x => let (y, l) := advance x s.1 in (l, <[i := y]> s.2) | None => s end.
Lemma turn_step i s : rtc step s (turn i s).
Proof. destruct s as [l ss]. unfold turn. cbn. destruct (ss !! i) as [x|] eqn:X; [|done]. destruct (advance x l) as [y l'] eqn:A. apply rtc_once. by eapply step_session. Qed.
Definition ex_raced : ledger * list session := fold_left (fun s i => turn i s) [0; 1; 2; 1; 0; 2; 0]%nat (ex_ledger, map Arrived ex_race).
Lemma turns_steps order s : rtc step s (fold_left (fun s i => turn i s) order s).
Proof. revert s. induction order as [|i order IH]; intros s; [done|]. cbn. etransitivity; [apply turn_step|apply IH]. Qed.

(** ** Properties *)

(** C8: However many requests arrive and however their transactions interleave,
    with each other and with what anyone else commits, a task and an idempotency
    key are started at most once: two requests that are both told to execute are
    for different tasks and different keys, and no request is told to execute a
    task or a key that the ledger knew before; what was told to execute is in the
    ledger. *)
Theorem begin_executes_once (rqs : list begin_request) (l l' : ledger) (ss : list session) :
  lwf l -> rtc step (l, map Arrived rqs) (l', ss) ->
  (forall i rq d, ss !! i = Some (Answered rq d) -> is_new d = true ->
     (b_task_id rq ∉ map t_task_id (tasks l)) /\ (b_key rq ∉ map t_idempotency_key (tasks l)) /\
     (b_task_id rq ∈ map t_task_id (tasks l')) /\ (b_key rq ∈ map t_idempotency_key (tasks l'))) /\
  (forall i j rq rq' d d', i <> j -> ss !! i = Some (Answered rq d) -> ss !! j = Some (Answered rq' d') -> is_new d = true -> is_new d' = true ->
     b_task_id rq <> b_task_id rq' /\ b_key rq <> b_key rq').
Proof.
  intros W R. pose proof (reached_started l l _ (l', ss) (arrived_started l rqs W) R) as [_ _ K N A]. split.
  - intros i rq d X T. destruct (K i _ X T), (N i _ X T). done.
  - intros i j rq rq' d d' D X Y T T'. exact (A i j _ _ D X Y T T').
Qed.

Lemma begin_executes_once_witness :
  map told_to_execute ex_raced.2 = [false; true; true] /\ rtc step (ex_ledger, map Arrived ex_race) (ex_raced.1, ex_raced.2) /\
  forall i j rq rq' d d', i <> j -> ex_raced.2 !! i = Some (Answered rq d) -> ex_raced.2 !! j = Some (Answered rq' d') -> is_new d = true -> is_new d' = true ->
    b_task_id rq <> b_task_id rq' /\ b_key rq <> b_key rq'.
Proof.
  assert (R : rtc step (ex_ledger, map Arrived ex_race) (ex_raced.1, ex_raced.2)) by (rewrite <- surjective_pairing; apply turns_steps).
  split; [vm_compute; reflexivity|]. split; [exact R|]. exact (proj2 (begin_executes_once ex_race ex_ledger ex_raced.1 ex_raced.2 ex_ledger_wf R)).
Defined.

(** One [begin] is atomic.  A request told to execute has inserted its
    PENDING task, its thread, RUNNING at version 0 before the first node, and the creation event,
    none of which existed; any other answer has written nothing, reports the
    row with this task and this key, and is TERMINAL exactly when that row's
    status is terminal; no failure writes anything. *)
Theorem begin_atomic (env : ledger -> ledger) (rq : begin_request) (l l' : ledger) (r : result IdempotencyDecision) :
  lwf l -> fair env -> begin env rq l = (r, l') ->
  lwf l' /\ levolves l l' /\
  match r with
  | Ok d =>
      dec_task_id d = b_task_id rq /\ dec_idempotency_key d = b_key rq /\
      if should_execute d
      then state d = NEW /\ tasks l' = tasks (env l) ++ [new_task (env l) rq] /\
           exists thread, thread = ("cf:dispatch:" +:+ b_task_id rq)%string /\
             RuntimeThreads.threads (runtime (env l)) !! thread = None /\
             RuntimeThreads.threads (runtime l') !! thread = Some (RuntimeThreads.new_thread thread (b_task_id rq)) /\
             RuntimeThreads.events (runtime l') = RuntimeThreads.events (runtime (env l)) ++ [RuntimeThreads.created_event thread]
      else (l' = l \/ l' = env l) /\
           exists t, t ∈ tasks l' /\ t_task_id t = b_task_id rq /\ t_idempotency_key t = b_key rq /\
             existing_status d = Some (t_status t) /\ state d = (if is_terminal_status (t_status t) then TERMINAL else IN_PROGRESS)
  | Err _ => l' = l \/ l' = env l
  end.
Proof.
  intros W F B. destruct (begin_cases _ _ _ _ _ W F B) as (W' & E' & _). split; [done|]. split; [done|].
  assert (D : forall x t, existing x (b_task_id rq) (b_key rq) = Ok (Some t) -> (x = l \/ x = env l) ->
    dec_task_id (decision t) = b_task_id rq /\ dec_idempotency_key (decision t) = b_key rq /\
    (x = l \/ x = env l) /\ exists t0, t0 ∈ tasks x /\ t_task_id t0 = b_task_id rq /\ t_idempotency_key t0 = b_key rq /\
      existing_status (decision t) = Some (t_status t0) /\ state (decision t) = (if is_terminal_status (t_status t0) then TERMINAL else IN_PROGRESS)).
  { intros x t (H1 & H2 & H3)%existing_some Hx. split; [done|]. split; [done|]. split; [done|]. exists t. done. }
  unfold begin in B. destruct (existing l _ _) as [[t|]|e] eqn:X; [injection B as <- <-; apply (D l t); auto| |injection B as <- <-; auto].
  destruct (RuntimeThreads.thread_id_for_persisted_task _) as [thread|e] eqn:T; [|injection B as <- <-; auto].
  destruct (insert_ledger (env l) rq thread) as [l2|e] eqn:I.
  - injection B as <- <-. destruct (insert_ledger_ok _ _ _ _ (fair_lwf _ F l W) I) as (_ & _ & _ & _ & Ht & Hn & Hr & He & _).
    simpl. split; [done|]. split; [done|]. split; [done|]. split; [done|]. exists thread.
    unfold RuntimeThreads.thread_id_for_persisted_task in T. destruct (String.eqb _ _); [done|]. injection T as <-.
    split; [done|]. split; [done|]. split; [by rewrite Hr, lookup_insert_eq|done].
  - destruct (existing (env l) _ _) as [[t|]|e'] eqn:X1; injection B as <- <-; [apply (D (env l) t); auto|auto|auto].
Qed.

Lemma begin_atomic_witness :
  exists r l', begin (fun l => (begin id (ex_request "t2" "k2") l).2) (ex_request "t2" "k2") ex_ledger = (r, l') /\ lwf l' /\
    match r with Ok d => state d = IN_PROGRESS | Err _ => False end.
Proof.
  assert (M : match (begin (fun l => (begin id (ex_request "t2" "k2") l).2) (ex_request "t2" "k2") ex_ledger).1 with
              | Ok d => state d = IN_PROGRESS | Err _ => False end) by (vm_compute; reflexivity).
  destruct (begin _ _ ex_ledger) as [r l'] eqn:E. exists r, l'. split; [reflexivity|]. split; [|exact M].
  exact (proj1 (begin_atomic _ _ _ _ _ ex_ledger_wf (begin_fair _ _ ledger_fair_id) E)).
Defined.

(** Once a task has been given a terminal status, every later delivery of it
    is told so: [begin] and [get] answer TERMINAL with that status, nothing is
    executed and nothing is written, whatever the status before was. *)
Theorem terminal_status_replayed (tid st : string) (rq : begin_request) (l l1 : ledger) (t : DispatchTask) (env : ledger -> ledger) :
  existing l tid (b_key rq) = Ok (Some t) -> b_task_id rq = tid -> is_terminal_status st = true ->
  mark_terminal tid st l = (Ok tt, l1) ->
  exists d, begin env rq l1 = (Ok d, l1) /\ get l1 tid (b_key rq) = Ok (Some d) /\
    state d = TERMINAL /\ existing_status d = Some st /\ should_execute d = false.
Proof.
  intros E <- Ts M. pose proof (existing_after_mark _ _ _ _ _ _ E M) as E1.
  exists (decision (set_status st false true t)). unfold begin, get. rewrite E1. simpl. rewrite Ts. done.
Qed.

Definition ex_started : ledger := (begin id (ex_request "t1" "k1") ex_ledger).2.

Lemma terminal_status_replayed_witness :
  exists l1 d, mark_terminal "t1" "APPROVED" ex_started = (Ok tt, l1) /\
    begin id (ex_request "t1" "k1") l1 = (Ok d, l1) /\ get l1 "t1" "k1" = Ok (Some d) /\
    state d = TERMINAL /\ existing_status d = Some "APPROVED"%string /\ should_execute d = false.
Proof.
  assert (H : exists t, existing ex_started "t1" "k1" = Ok (Some t)) by (vm_compute; eexists; reflexivity).
  destruct H as (t & E). destruct (mark_terminal "t1" "APPROVED" ex_started) as [r l1] eqn:M.
  assert (R : (mark_terminal "t1" "APPROVED" ex_started).1 = Ok tt) by (vm_compute; reflexivity).
  rewrite M in R. simpl in R. subst r.
  destruct (terminal_status_replayed "t1" "APPROVED" (ex_request "t1" "k1") ex_started l1 t id E eq_refl eq_refl M) as (d & H).
  exists l1, d. split; [reflexivity|exact H].
Defined.
