(* ===== verification/Streams.v ===== *)
(** * Streams: task messages, dead letters and the Redis stream queue

    Models [app/streams/models.py], [redis_queue.py] and [retry.py].  The
    messages are records; decoding validates an untyped JSON value.  The JSON
    text layer, UTF-8 validity, ISO-8601 timestamps and the Redis client are
    parameters: [StreamClient] is the client's interface, [StreamClientLaws]
    what the queue relies on, [stream_server] a server that satisfies them. *)

From S2P Require Import Prelude Evidence.

Local Open Scope Z_scope.
Local Open Scope list_scope.

(** ** Data *)

(** [NotRequired] keys: absent, or present with the value. *)
Record DispatchTaskPayload := {
  driver_id : string;
  vehicle_id : string;
  route_id : string;
  anomaly_type : string;
  anomaly_description : string;
  vehicle_status : option string;
  incident_node_id : option (option string);
  affected_edge_id : option (option string);
}.

Record DispatchTaskMessage := {
  schema_version : string;
  task_id : string;
  order_id : Z;
  anomaly_id : option Z;
  idempotency_key : string;
  created_at : string;
  payload : DispatchTaskPayload;
  correlation_id : option string;
}.

Record StreamMessage := {
  message_id : string;
  task : DispatchTaskMessage;
  delivery_count : option Z;
  metadata : list (string * string);
}.

Record PendingSummary := {
  pending_total : Z;
  min_message_id : option string;
  max_message_id : option string;
  consumers : list (string * Z);
}.

Record StreamOperationalState := { pending_by_consumer : list (string * Z); stream_lag : Z; dlq_messages : Z }.

Record DeadLetterMessage := {
  dl_schema_version : string;
  original_message_id : string;
  dl_task_id : string;
  dl_order_id : Z;
  dl_idempotency_key : string;
  original_stream : string;
  failure_reason : string;
  dl_error_code : string;
  dl_delivery_count : Z;
  failed_at : string;
  dl_payload : DispatchTaskPayload;
}.

Definition QueueMessageError (m : string) : exn := Exn "QueueMessageError" m.
Definition QueueConnectionError (m : string) : exn := Exn "QueueConnectionError" m.

(** ** Retry policy *)
Record RetryPolicy := { max_delivery_attempts : Z; base_delay_ms : Z; max_delay_ms : Z }.
Definition should_retry (p : RetryPolicy) (delivery_count : Z) : bool := delivery_count <? max_delivery_attempts p.
(** [2 ** (n - 1)] is an integer for [n >= 1], the delivery counts Redis reports. *)
Definition backoff_ms (p : RetryPolicy) (delivery_count : Z) : Z :=
  Z.min (base_delay_ms p * 2 ^ (delivery_count - 1)) (max_delay_ms p).

(** ** Encoding: the values handed to [json.dumps], keys in sorted order *)
Definition key_if {A} (k : string) (f : A -> pyval) (o : option A) : pydict := match o with Some a => [(k, f a)] | None => [] end.

Definition payload_value (p : DispatchTaskPayload) : pyval :=
  PDict (key_if "affected_edge_id" opt_str (affected_edge_id p)
    ++ [("anomaly_description", PStr (anomaly_description p)); ("anomaly_type", PStr (anomaly_type p));
        ("driver_id", PStr (driver_id p))]%string
    ++ key_if "incident_node_id" opt_str (incident_node_id p)
    ++ [("route_id", PStr (route_id p)); ("vehicle_id", PStr (vehicle_id p))]%string
    ++ key_if "vehicle_status" PStr (vehicle_status p)).

Definition message_value (m : DispatchTaskMessage) : pyval :=
  PDict [("anomaly_id", opt_int (anomaly_id m)); ("correlation_id", opt_str (correlation_id m));
         ("created_at", PStr (created_at m)); ("idempotency_key", PStr (idempotency_key m));
         ("order_id", PInt (order_id m)); ("payload", payload_value (payload m));
         ("schema_version", PStr (schema_version m)); ("task_id", PStr (task_id m))]%string.

Definition dead_letter_value (d : DeadLetterMessage) : pyval :=
  PDict [("delivery_count", PInt (dl_delivery_count d)); ("error_code", PStr (dl_error_code d));
         ("failed_at", PStr (failed_at d)); ("failure_reason", PStr (failure_reason d));
         ("idempotency_key", PStr (dl_idempotency_key d)); ("order_id", PInt (dl_order_id d));
         ("original_message_id", PStr (original_message_id d)); ("original_stream", PStr (original_stream d));
         ("payload", payload_value (dl_payload d)); ("schema_version", PStr (dl_schema_version d));
         ("task_id", PStr (dl_task_id d))]%string.

(** ** Decoding *)
Definition required_text (m : string) (v : pyval) : result string :=
  match v with PStr s => if String.eqb s "" then Err (QueueMessageError m) else Ok s | _ => Err (QueueMessageError m) end.
Definition message_field (d : pydict) (field : string) : result string :=
  required_text ("Stream message field " +:+ field +:+ " is required.") (get d field).
Definition as_integer (m : string) (v : pyval) : result Z := match v with PInt z => Ok z | _ => Err (QueueMessageError m) end.
Definition integer_field (v : pyval) (field : string) : result Z :=
  as_integer ("Stream message field " +:+ field +:+ " must be an integer.") v.

Definition optional_text (d : pydict) (field : string) : result (option string) :=
  match get d field with
  | PNone => Ok None
  | v => s ← required_text ("Stream message field " +:+ field +:+ " is invalid.") v; Ok (Some s)
  end.

Definition optional_integer (v : pyval) (field : string) : result (option Z) :=
  match v with PNone => Ok None | _ => z ← integer_field v field; Ok (Some z) end.
Definition optional_correlation (v : pyval) : result (option string) :=
  match v with
  | PNone => Ok None
  | _ => s ← required_text "Stream message field correlation_id is invalid." v; Ok (Some s)
  end.

(** [if field in value: ...]. *)
Definition optional_key (d : pydict) (field : string) : result (option (option string)) :=
  match dict_get d field with
  | None => Ok None
  | Some _ => o ← optional_text d field; Ok (Some o)
  end.

Definition decode_payload (v : pyval) : result DispatchTaskPayload :=
  match v with
  | PDict d =>
      vs ← required_text "Stream message field vehicle_status is invalid." (default (PStr "NORMAL") (dict_get d "vehicle_status"));
      dr ← message_field d "driver_id";
      ve ← message_field d "vehicle_id";
      ro ← message_field d "route_id";
      ty ← message_field d "anomaly_type";
      de ← message_field d "anomaly_description";
      inc ← optional_key d "incident_node_id";
      ed ← optional_key d "affected_edge_id";
      Ok {| driver_id := dr; vehicle_id := ve; route_id := ro; anomaly_type := ty; anomaly_description := de;
            vehicle_status := Some vs; incident_node_id := inc; affected_edge_id := ed |}
  | _ => Err (QueueMessageError "Stream message payload is required.")
  end.

(** A delivery of the Redis client: mappings with bytes or string keys. *)
Definition raw_map : Type := list (pyval * pyval).
Fixpoint raw_get (m : raw_map) (key : pyval) : option pyval :=
  match m with
  | [] => None
  | (k, v) :: m' =>
      match k, key with
      | PStr a, PStr b | PBytes a, PBytes b => if String.eqb a b then Some v else raw_get m' key
      | _, _ => raw_get m' key
      end
  end.
(** [m.get(name, m.get(b"name"))] and [m.get(b"name", m.get(name))]. *)
Definition str_then_bytes (m : raw_map) (name : string) : pyval :=
  default PNone (match raw_get m (PStr name) with Some v => Some v | None => raw_get m (PBytes name) end).
Definition bytes_then_str (m : raw_map) (name : string) : pyval :=
  default PNone (match raw_get m (PBytes name) with Some v => Some v | None => raw_get m (PStr name) end).

Section codec.
Context (loads : string -> option pyval) (dumps : pyval -> string).   (* [json] *)
Context (utf8 : string -> bool).                                      (* [bytes.decode("utf-8")] succeeds *)
Context (iso_utc : string -> bool).                                   (* [fromisoformat] with UTC offset zero *)

Definition utc_timestamp (who : string) (v : pyval) : result string :=
  match v with
  | PStr s => if iso_utc s then Ok s else Err (QueueMessageError (who +:+ " must be ISO-8601 UTC."))
  | _ => Err (QueueMessageError (who +:+ " is required."))
  end.

Definition decode_message (v : pyval) : result DispatchTaskMessage :=
  match v with
  | PDict d =>
      if negb match get d "schema_version" with PStr s => String.eqb s "1" | _ => false end
      then Err (QueueMessageError "Stream message schema version is unsupported.")
      else
        t ← message_field d "task_id";
        k ← message_field d "idempotency_key";
        o ← integer_field (get d "order_id") "order_id";
        a ← optional_integer (get d "anomaly_id") "anomaly_id";
        c ← utc_timestamp "Stream message created_at" (get d "created_at");
        p ← decode_payload (get d "payload");
        r ← optional_correlation (get d "correlation_id");
        Ok {| schema_version := "1"; task_id := t; order_id := o; anomaly_id := a; idempotency_key := k;
              created_at := c; payload := p; correlation_id := r |}
  | _ => Err (QueueMessageError "Stream message must be a JSON object.")
  end.

(** The argument is [str] or [bytes]. *)
Definition parse (m : string) (v : pyval) : result pyval :=
  match v with
  | PBytes s => if utf8 s then of_option (QueueMessageError m) (loads s) else Err (QueueMessageError m)
  | PStr s => of_option (QueueMessageError m) (loads s)
  | _ => Err (QueueMessageError m)
  end.

Definition from_json (v : pyval) : result DispatchTaskMessage :=
  raw ← parse "Stream message is not valid JSON." v; decode_message raw.
Definition to_json (m : DispatchTaskMessage) : string := dumps (message_value m).

Definition dead_letter_field (v : pyval) (field : string) : result string :=
  required_text ("Dead-letter message field " +:+ field +:+ " is required.") v.
Definition positive_integer (v : pyval) (field : string) : result Z :=
  z ← as_integer ("Dead-letter message field " +:+ field +:+ " must be an integer.") v;
  if z <? 1 then Err (QueueMessageError ("Dead-letter message field " +:+ field +:+ " must be positive.")) else Ok z.

Definition decode_dead_letter (v : pyval) : result DeadLetterMessage :=
  match v with
  | PDict d =>
      if negb match get d "schema_version" with PStr s => String.eqb s "1" | _ => false end
      then Err (QueueMessageError "Dead-letter message schema version is unsupported.")
      else
        om ← dead_letter_field (get d "original_message_id") "original_message_id";
        t ← dead_letter_field (get d "task_id") "task_id";
        o ← as_integer "Dead-letter message field order_id must be an integer." (get d "order_id");
        k ← dead_letter_field (get d "idempotency_key") "idempotency_key";
        os ← dead_letter_field (get d "original_stream") "original_stream";
        fr ← dead_letter_field (get d "failure_reason") "failure_reason";
        ec ← dead_letter_field (get d "error_code") "error_code";
        dc ← positive_integer (get d "delivery_count") "delivery_count";
        fa ← utc_timestamp "Dead-letter message failed_at" (get d "failed_at");
        p ← decode_payload (get d "payload");
        Ok {| dl_schema_version := "1"; original_message_id := om; dl_task_id := t; dl_order_id := o;
              dl_idempotency_key := k; original_stream := os; failure_reason := fr; dl_error_code := ec;
              dl_delivery_count := dc; failed_at := fa; dl_payload := p |}
  | _ => Err (QueueMessageError "Dead-letter message schema version is unsupported.")
  end.

Definition dead_letter_from_json (v : pyval) : result DeadLetterMessage :=
  raw ← parse "Dead-letter message is not valid JSON." v; decode_dead_letter raw.
Definition dead_letter_to_json (d : DeadLetterMessage) : string := dumps (dead_letter_value d).

(** [from_stream_message], at time [now]. *)
Definition from_stream_message (now : string) (m : StreamMessage) (stream reason code : string) (count : Z) : result DeadLetterMessage :=
  om ← dead_letter_field (PStr (message_id m)) "original_message_id";
  os ← dead_letter_field (PStr stream) "original_stream";
  fr ← dead_letter_field (PStr reason) "failure_reason";
  ec ← dead_letter_field (PStr code) "error_code";
  dc ← positive_integer (PInt count) "delivery_count";
  p ← decode_payload (payload_value (payload (task m)));
  Ok {| dl_schema_version := "1"; original_message_id := om; dl_task_id := task_id (task m); dl_order_id := order_id (task m);
        dl_idempotency_key := idempotency_key (task m); original_stream := os; failure_reason := fr; dl_error_code := ec;
        dl_delivery_count := dc; failed_at := now; dl_payload := p |}.
End codec.

(** ** The Redis stream queue *)

(** The client's calls, with the replies the queue looks at. *)
Class StreamClient (Q : Type) := {
  xgroup_create : action Q unit;
  xadd : string -> string -> action Q pyval;                    (* stream, data *)
  xreadgroup : Z -> Z -> action Q (list (pyval * pyval));       (* count, block: (stream, entries) *)
  xack : string -> action Q Z;
  xpending : action Q pyval;
  xpending_range : option string -> Z -> action Q (option (list (option raw_map)));
  xautoclaim : string -> Z -> string -> Z -> action Q (option (list pyval));
  xinfo_groups : action Q (option (list (option raw_map)));
  xlen : action Q pyval;
  pending : Q -> gset string;        (* delivered and not acknowledged, for the specification *)
  contents : Q -> string -> list string;   (* the data added to a stream *)
}.

(** Acknowledging removes exactly one delivery; adding appends to its stream and
    touches no delivery; a failing call may have been executed or not. *)
Class StreamClientLaws (Q : Type) `{StreamClient Q} := {
  xack_law : forall i q r q', xack i q = (r, q') ->
    (forall s, contents q' s = contents q s) /\
    match r with
    | Ok n => n = (if bool_decide (i ∈ pending q) then 1 else 0) /\ pending q' = pending q ∖ {[i]}
    | Err _ => pending q' = pending q \/ pending q' = pending q ∖ {[i]}
    end;
  xadd_law : forall s d q r q', xadd s d q = (r, q') ->
    pending q' = pending q /\ (forall s', s' <> s -> contents q' s' = contents q s') /\
    match r with
    | Ok _ => contents q' s = contents q s ++ [d]
    | Err _ => contents q' s = contents q s \/ contents q' s = contents q s ++ [d]
    end;
}.

Definition is_client_error (e : exn) : bool := one_of (exn_class e) ["RedisError"; "ResponseError"]%string.

Section queue.
Context {Q : Type} `{StreamClient Q}.
Context (loads : string -> option pyval) (dumps : pyval -> string) (utf8 iso_utc : string -> bool).
Context (stream_name dlq_stream_name consumer_name : string).
(** [entries]: how a reply lists (id, fields) pairs; a reply of another shape is [None]. *)
Context (entries : pyval -> option (list (option (pyval * option raw_map)))).
(** [raw_dict]: a reply that is a mapping. *)
Context (raw_dict : pyval -> option raw_map) (raw_consumers : pyval -> option (list (option raw_map))).

(** [except RedisError as error: raise QueueConnectionError]. *)
Definition connect {A} (m : string) (op : action Q A) : action Q A :=
  catch_action op (fun e => raise_action (if is_client_error e then QueueConnectionError m else e)).
(** [except (RedisError, ResponseError): return default]. *)
Definition or_default {A} (d : A) (op : action Q A) : action Q A :=
  catch_action op (fun e => if is_client_error e then ret_action d else raise_action e).

Definition text (v : pyval) (field : string) : result string :=
  match v with
  | PBytes s => if utf8 s then Ok s else Err (QueueMessageError ("Redis " +:+ field +:+ " is not UTF-8."))
  | PStr s => if String.eqb s "" then Err (QueueMessageError ("Redis " +:+ field +:+ " is invalid.")) else Ok s
  | _ => Err (QueueMessageError ("Redis " +:+ field +:+ " is invalid."))
  end.
Definition optional (v : pyval) (field : string) : result (option string) :=
  match v with PNone => Ok None | _ => s ← text v field; Ok (Some s) end.

Definition ensure_consumer_group : action Q bool :=
  catch_action (do _ <- xgroup_create; ret_action true)%action
    (fun e => if String.eqb (exn_class e) "ResponseError" && contains "BUSYGROUP" (exn_arg e) then ret_action false
              else raise_action (if is_client_error e then QueueConnectionError "Redis consumer group initialization failed." else e)).

Definition lift {A} (r : result A) : action Q A := fun q => (r, q).

Definition publish (m : DispatchTaskMessage) : action Q string :=
  (do i <- connect "Redis stream publish failed." (xadd stream_name (to_json dumps m)); lift (text i "message ID"))%action.

Definition entry_message (stream : string) (e : option (pyval * option raw_map)) : result StreamMessage :=
  match e with
  | None => Err (QueueMessageError "Redis stream entry is invalid.")
  | Some (_, None) => Err (QueueMessageError "Redis stream fields are invalid.")
  | Some (i, Some fields) =>
      match bytes_then_str fields "data" with
      | PStr _ | PBytes _ =>
          mid ← text i "message ID";
          t ← from_json loads utf8 iso_utc (bytes_then_str fields "data");
          Ok {| message_id := mid; task := t; delivery_count := None; metadata := [("stream"%string, stream)] |}
      | _ => Err (QueueMessageError "Redis stream message data is required.")
      end
  end.

Definition messages (stream reply : pyval) : result (list StreamMessage) :=
  match entries reply with
  | None => Err (QueueMessageError "Redis stream entries are invalid.")
  | Some es => s ← text stream "stream name"; map_result (entry_message s) es
  end.

Definition read_group (count block : Z) : action Q (list StreamMessage) :=
  (do streams <- connect "Redis stream read failed." (xreadgroup count block);
   lift (ls ← map_result (fun p => messages p.1 p.2) streams; Ok (concat ls)))%action.

Definition ack (mid : string) : action Q Z := connect "Redis stream acknowledgement failed." (xack mid).

Definition publish_dead_letter (d : DeadLetterMessage) : action Q string :=
  (do i <- connect "Redis dead-letter publish failed." (xadd dlq_stream_name (dead_letter_to_json dumps d));
   lift (text i "dead-letter message ID"))%action.

Definition move_to_dlq (now : string) (m : StreamMessage) (reason code : string) (count : Z) : action Q string :=
  (do d <- lift (from_stream_message now m stream_name reason code count);
   do i <- publish_dead_letter d;
   do _ <- ack (message_id m);
   ret_action i)%action.

(** Delivery counts and idle times: unreadable items are skipped. *)
Definition counted (field : string) (item : option raw_map) : option (string * Z) :=
  match item with
  | Some m =>
      match str_then_bytes m field, text (str_then_bytes m "message_id") "pending message ID" with
      | PInt n, Ok i => Some (i, n)
      | _, _ => None
      end
  | None => None
  end.
Definition last_count (l : list (string * Z)) (i : string) : option Z :=
  snd <$> List.find (fun p => String.eqb p.1 i) (rev l).
Definition reply_counts (field : string) (reply : option (list (option raw_map))) : list (string * Z) :=
  omap (counted field) (default [] reply).

Definition delivery_counts (ms : list StreamMessage) (consumer : string) : action Q (list (string * Z)) :=
  match ms with
  | [] => ret_action []
  | _ => (do r <- or_default None (xpending_range (Some consumer) (Z.of_nat (length ms))); ret_action (reply_counts "times_delivered" r))%action
  end.
Definition pending_idle_times (count : Z) : action Q (list (string * Z)) :=
  (do r <- or_default None (xpending_range None count); ret_action (reply_counts "time_since_delivered" r))%action.

Definition claimed (counts idle : list (string * Z)) (m : StreamMessage) : StreamMessage :=
  {| message_id := message_id m; task := task m; delivery_count := last_count counts (message_id m);
     metadata := metadata m ++ [("pending_idle_ms_at_claim"%string, z_str (default 0 (last_count idle (message_id m))))] |}.

Definition claim_pending (consumer : option string) (min_idle : Z) (start : string) (count : Z) : action Q (list StreamMessage) :=
  let recovery := or_else consumer consumer_name in
  (do idle <- pending_idle_times count;
   do raw <- connect "Redis pending message recovery failed." (xautoclaim recovery min_idle start count);
   do ms <- lift match raw with
                 | Some (_ :: es :: _) => messages (PStr stream_name) es
                 | _ => Err (QueueMessageError "Redis pending recovery response is invalid.")
                 end;
   do counts <- delivery_counts ms recovery;
   ret_action (map (claimed counts idle) ms))%action.

Definition pending_consumer (c : option raw_map) : result (string * Z) :=
  match c with
  | None => Err (QueueMessageError "Redis pending consumer is invalid.")
  | Some m =>
      match str_then_bytes m "pending" with
      | PInt n => i ← text (str_then_bytes m "name") "pending consumer name"; Ok (i, n)
      | _ => Err (QueueMessageError "Redis pending consumer count is invalid.")
      end
  end.

Definition get_pending_summary : action Q PendingSummary :=
  (do raw <- connect "Redis pending summary read failed." xpending;
   lift match raw_dict raw with
        | None => Err (QueueMessageError "Redis pending summary is invalid.")
        | Some m =>
            match str_then_bytes m "pending", raw_consumers (str_then_bytes m "consumers") with
            | PInt n, Some cs =>
                lo ← optional (str_then_bytes m "min") "pending minimum message ID";
                hi ← optional (str_then_bytes m "max") "pending maximum message ID";
                l ← map_result pending_consumer cs;
                Ok {| pending_total := n; min_message_id := lo; max_message_id := hi; consumers := l |}
            | PInt _, None => Err (QueueMessageError "Redis pending consumers are invalid.")
            | _, _ => Err (QueueMessageError "Redis pending count is invalid.")
            end
        end)%action.

(** The lag of the first group of this name that reports an integer. *)
Fixpoint group_lag (consumer_group : string) (groups : list (option raw_map)) : result (option Z) :=
  match groups with
  | [] => Ok None
  | None :: rest => group_lag consumer_group rest
  | Some g :: rest =>
      n ← optional (str_then_bytes g "name") "consumer group";
      match bool_decide (n = Some consumer_group), str_then_bytes g "lag" with
      | true, PInt z => Ok (Some z)
      | _, _ => group_lag consumer_group rest
      end
  end.

Definition get_operational_state (consumer_group : string) : action Q StreamOperationalState :=
  (do p <- get_pending_summary;
   do groups <- connect "Redis stream operational state read failed." xinfo_groups;
   do n <- connect "Redis stream operational state read failed." xlen;
   lift match groups, n with
        | Some gs, PInt dlq =>
            lag ← group_lag consumer_group gs;
            match lag with
            | Some z => Ok {| pending_by_consumer := consumers p; stream_lag := z; dlq_messages := dlq |}
            | None => Err (QueueMessageError "Redis consumer group lag is unavailable.")
            end
        | _, _ => Err (QueueMessageError "Redis stream operational state is invalid.")
        end)%action.
End queue.

(** ** A server that satisfies the laws *)
Record stream_server := { sv_pending : gset string; sv_streams : gmap string (list string) }.
Definition sv_contents (q : stream_server) (s : string) : list string := default [] (sv_streams q !! s).

#[export] Instance server_client : StreamClient stream_server :=
  {| xgroup_create := ret_action tt;
     xadd := fun s d q => (Ok (PStr "1-0"), {| sv_pending := sv_pending q; sv_streams := <[s := sv_contents q s ++ [d]]> (sv_streams q) |});
     xreadgroup := fun _ _ => ret_action [];
     xack := fun i q => (Ok (if bool_decide (i ∈ sv_pending q) then 1 else 0),
                         {| sv_pending := sv_pending q ∖ {[i]}; sv_streams := sv_streams q |});
     xpending := ret_action PNone;
     xpending_range := fun _ _ => ret_action (Some []);
     xautoclaim := fun _ _ _ _ => ret_action None;
     xinfo_groups := ret_action None;
     xlen := ret_action (PInt 0);
     pending := sv_pending;
     contents := sv_contents |}.

#[export] Instance server_laws : StreamClientLaws stream_server.
Proof.
  split.
  - intros i q r q' [= <- <-]. done.
  - intros s d q r q' [= <- <-]. split; [done|]. simpl. unfold sv_contents. simpl. split.
    + intros s' N. by rewrite lookup_insert_ne.
    + by rewrite lookup_insert_eq.
Qed.

(** ** Codec lemmas *)
Record valid_payload (p : DispatchTaskPayload) : Prop := {
  vp_texts : Forall (fun s => s <> ""%string) [driver_id p; vehicle_id p; route_id p; anomaly_type p; anomaly_description p];
  vp_status : vehicle_status p <> Some ""%string;
  vp_node : incident_node_id p <> Some (Some ""%string);
  vp_edge : affected_edge_id p <> Some (Some ""%string);
}.

(** Decoding makes the default vehicle status explicit. *)
Definition normal_payload (p : DispatchTaskPayload) : DispatchTaskPayload :=
  {| driver_id := driver_id p; vehicle_id := vehicle_id p; route_id := route_id p; anomaly_type := anomaly_type p;
     anomaly_description := anomaly_description p; vehicle_status := Some (default "NORMAL"%string (vehicle_status p));
     incident_node_id := incident_node_id p; affected_edge_id := affected_edge_id p |}.

Lemma required_text_ok m v s : required_text m v = Ok s <-> v = PStr s /\ s <> ""%string.
Proof.
  unfold required_text. split.
  - destruct v; try done. destruct (String.eqb s0 "") eqn:E; [done|]. apply String.eqb_neq in E. intros [= <-]. done.
  - intros [-> N]. by destruct (String.eqb_spec s "").
Qed.

Lemma required_text_str m s : s <> ""%string -> required_text m (PStr s) = Ok s.
Proof. intros N. by apply required_text_ok. Qed.

Lemma optional_str_ok d field (o : option string) :
  get d field = opt_str o -> o <> Some ""%string -> optional_text d field = Ok o.
Proof.
  unfold optional_text. intros -> N. destruct o as [s|]; [|done]. cbn [opt_str].
  rewrite required_text_str; [done|]. intros ->. done.
Qed.

Lemma optional_key_ok d field (o : option (option string)) :
  dict_get d field = opt_str <$> o -> o <> Some (Some ""%string) -> optional_key d field = Ok o.
Proof.
  intros E N. unfold optional_key. rewrite E. destruct o as [o|]; simpl; [|done].
  rewrite (optional_str_ok d field o); [done| |congruence]. unfold get. by rewrite E.
Qed.

Lemma payload_roundtrip p : valid_payload p -> decode_payload (payload_value p) = Ok (normal_payload p).
Proof.
  intros [T S N E]. rewrite !Forall_cons in T. destruct T as (T1 & T2 & T3 & T4 & T5 & _).
  unfold payload_value, decode_payload. set (d := key_if _ _ _ ++ _).
  assert (G : dict_get d "vehicle_status" = PStr <$> vehicle_status p /\
    dict_get d "incident_node_id" = opt_str <$> incident_node_id p /\ dict_get d "affected_edge_id" = opt_str <$> affected_edge_id p /\
    get d "driver_id" = PStr (driver_id p) /\ get d "vehicle_id" = PStr (vehicle_id p) /\ get d "route_id" = PStr (route_id p) /\
    get d "anomaly_type" = PStr (anomaly_type p) /\ get d "anomaly_description" = PStr (anomaly_description p)).
  { subst d. unfold get. by destruct (vehicle_status p), (incident_node_id p), (affected_edge_id p). }
  destruct G as (G1 & G2 & G3 & G4 & G5 & G6 & G7 & G8). unfold message_field. rewrite G1, G4, G5, G6, G7, G8.
  assert (V : required_text "Stream message field vehicle_status is invalid." (default (PStr "NORMAL") (PStr <$> vehicle_status p)) =
              Ok (default "NORMAL"%string (vehicle_status p))).
  { destruct (vehicle_status p) as [vs|]; [|done]. simpl. apply required_text_str. intros ->. by apply S. }
  rewrite V. cbn [mbind result_bind]. rewrite !required_text_str by done. cbn [mbind result_bind].
  rewrite (optional_key_ok d "incident_node_id" (incident_node_id p)), (optional_key_ok d "affected_edge_id" (affected_edge_id p)) by done.
  done.
Qed.

Lemma optional_text_valid d field o : optional_text d field = Ok o -> o <> Some ""%string.
Proof.
  unfold optional_text. destruct (get d field); try (by intros [= <-]);
    intros (s' & [_ N]%required_text_ok & [= <-])%result_bind_ok; congruence.
Qed.

Lemma optional_key_valid d field o : optional_key d field = Ok o -> o <> Some (Some ""%string).
Proof.
  unfold optional_key. destruct (dict_get d field); [|by intros [= <-]].
  intros (o' & N%optional_text_valid & [= <-])%result_bind_ok. congruence.
Qed.

Lemma decode_payload_valid v p : decode_payload v = Ok p -> valid_payload p /\ normal_payload p = p.
Proof.
  destruct v as [| | | | | | | |d]; try done. cbn [decode_payload].
  intros (vs & [_ N0]%required_text_ok & H)%result_bind_ok.
  apply result_bind_ok in H as (dr & [_ N1]%required_text_ok & H). apply result_bind_ok in H as (ve & [_ N2]%required_text_ok & H).
  apply result_bind_ok in H as (ro & [_ N3]%required_text_ok & H). apply result_bind_ok in H as (ty & [_ N4]%required_text_ok & H).
  apply result_bind_ok in H as (de & [_ N5]%required_text_ok & H).
  apply result_bind_ok in H as (inc & N6%optional_key_valid & H). apply result_bind_ok in H as (ed & N7%optional_key_valid & H).
  injection H as <-. split; [|done]. split; simpl; [by repeat constructor|congruence|done|done].
Qed.

Section codec_proofs.
Context (loads : string -> option pyval) (dumps : pyval -> string) (utf8 iso_utc : string -> bool).

Record valid_message (m : DispatchTaskMessage) : Prop := {
  vm_version : schema_version m = "1"%string;
  vm_task : task_id m <> ""%string;
  vm_key : idempotency_key m <> ""%string;
  vm_created : iso_utc (created_at m) = true;
  vm_payload : valid_payload (payload m);
  vm_correlation : correlation_id m <> Some ""%string;
}.

Definition normal_message (m : DispatchTaskMessage) : DispatchTaskMessage :=
  {| schema_version := schema_version m; task_id := task_id m; order_id := order_id m; anomaly_id := anomaly_id m;
     idempotency_key := idempotency_key m; created_at := created_at m; payload := normal_payload (payload m);
     correlation_id := correlation_id m |}.

Lemma decode_message_value m : valid_message m -> decode_message iso_utc (message_value m) = Ok (normal_message m).
Proof.
  intros [V T K C P R]. unfold message_value, decode_message. set (d := _ :: _).
  assert (G : get d "schema_version" = PStr (schema_version m) /\ get d "task_id" = PStr (task_id m) /\
    get d "idempotency_key" = PStr (idempotency_key m) /\ get d "order_id" = PInt (order_id m) /\
    get d "anomaly_id" = opt_int (anomaly_id m) /\ get d "created_at" = PStr (created_at m) /\
    get d "payload" = payload_value (payload m) /\ get d "correlation_id" = opt_str (correlation_id m)) by done.
  destruct G as (G1 & G2 & G3 & G4 & G5 & G6 & G7 & G8). unfold message_field.
  rewrite G1, G2, G3, G4, G5, G6, G7, G8, V. cbn [String.eqb Ascii.eqb Bool.eqb negb].
  rewrite !required_text_str by done. cbn [mbind result_bind integer_field as_integer].
  assert (A : optional_integer (opt_int (anomaly_id m)) "anomaly_id" = Ok (anomaly_id m)) by (by destruct (anomaly_id m)).
  rewrite A. cbn [mbind result_bind utc_timestamp]. rewrite C. cbn [mbind result_bind]. rewrite (payload_roundtrip _ P). cbn [mbind result_bind].
  assert (B : optional_correlation (opt_str (correlation_id m)) = Ok (correlation_id m)).
  { destruct (correlation_id m) as [c|]; [|done]. cbn [opt_str optional_correlation]. rewrite required_text_str; [done|congruence]. }
  rewrite B. unfold normal_message. by rewrite V.
Qed.

Lemma utc_timestamp_ok who v s : utc_timestamp iso_utc who v = Ok s -> v = PStr s /\ iso_utc s = true.
Proof. unfold utc_timestamp. destruct v; try done. destruct (iso_utc s0) eqn:E; [|done]. by intros [= <-]. Qed.

Lemma decode_message_valid v m : decode_message iso_utc v = Ok m -> valid_message m /\ normal_message m = m.
Proof.
  destruct v as [| | | | | | | |d]; try done. cbn [decode_message]. destruct (negb _); [done|].
  intros (t & [_ N1]%required_text_ok & H)%result_bind_ok. apply result_bind_ok in H as (k & [_ N2]%required_text_ok & H).
  apply result_bind_ok in H as (o & _ & H). apply result_bind_ok in H as (a & _ & H).
  apply result_bind_ok in H as (c & [_ N3]%utc_timestamp_ok & H). apply result_bind_ok in H as (p & [N4 N5]%decode_payload_valid & H).
  apply result_bind_ok in H as (r & N6 & H). injection H as <-.
  assert (R : r <> Some ""%string).
  { unfold optional_correlation in N6. destruct (get d "correlation_id"); try (injection N6 as <-; done);
      apply result_bind_ok in N6 as (s' & [_ N]%required_text_ok & [= <-]); congruence. }
  split; [by split|]. unfold normal_message. simpl. by rewrite N5.
Qed.

Lemma payload_json p : json_serializable (payload_value p) = true.
Proof.
  destruct p as [? ? ? ? ? vs inc ed]; destruct vs, inc as [[?|]|], ed as [[?|]|]; reflexivity.
Qed.

Lemma message_json m : json_serializable (message_value m) = true.
Proof.
  unfold message_value. cbn [json_serializable forallb snd]. rewrite payload_json.
  by destruct (anomaly_id m), (correlation_id m).
Qed.

Record valid_dead_letter (d : DeadLetterMessage) : Prop := {
  vd_version : dl_schema_version d = "1"%string;
  vd_texts : Forall (fun s => s <> ""%string)
    [original_message_id d; dl_task_id d; dl_idempotency_key d; original_stream d; failure_reason d; dl_error_code d];
  vd_count : 1 <= dl_delivery_count d;
  vd_failed : iso_utc (failed_at d) = true;
  vd_payload : valid_payload (dl_payload d);
  vd_normal : normal_payload (dl_payload d) = dl_payload d;
}.

Lemma positive_integer_ok v field z : positive_integer v field = Ok z <-> v = PInt z /\ 1 <= z.
Proof.
  unfold positive_integer. split.
  - destruct v; try done. cbn. destruct (z0 <? 1) eqn:E; [done|]. intros [= <-]. split; [done|lia].
  - intros [-> H]. cbn. destruct (z <? 1) eqn:E; [lia|done].
Qed.

Lemma decode_dead_letter_value d : valid_dead_letter d -> decode_dead_letter iso_utc (dead_letter_value d) = Ok d.
Proof.
  intros [V T C F P N]. rewrite !Forall_cons in T. destruct T as (T1 & T2 & T3 & T4 & T5 & T6 & _).
  unfold dead_letter_value, decode_dead_letter. set (x := _ :: _).
  assert (G : get x "schema_version" = PStr (dl_schema_version d) /\ get x "original_message_id" = PStr (original_message_id d) /\
    get x "task_id" = PStr (dl_task_id d) /\ get x "order_id" = PInt (dl_order_id d) /\
    get x "idempotency_key" = PStr (dl_idempotency_key d) /\ get x "original_stream" = PStr (original_stream d) /\
    get x "failure_reason" = PStr (failure_reason d) /\ get x "error_code" = PStr (dl_error_code d) /\
    get x "delivery_count" = PInt (dl_delivery_count d) /\ get x "failed_at" = PStr (failed_at d) /\
    get x "payload" = payload_value (dl_payload d)) by done.
  destruct G as (G1 & G2 & G3 & G4 & G5 & G6 & G7 & G8 & G9 & G10 & G11). unfold dead_letter_field.
  rewrite G1, G2, G3, G4, G5, G6, G7, G8, G9, G10, G11, V. cbn [String.eqb Ascii.eqb Bool.eqb negb].
  rewrite !required_text_str by done. cbn [mbind result_bind as_integer].
  rewrite (proj2 (positive_integer_ok _ _ _) (conj eq_refl C)). cbn [mbind result_bind utc_timestamp]. rewrite F.
  cbn [mbind result_bind]. rewrite (payload_roundtrip _ P), N. cbn [mbind result_bind]. destruct d; simpl in *. by rewrite V.
Qed.

Lemma dead_letter_json d : json_serializable (dead_letter_value d) = true.
Proof. unfold dead_letter_value. cbn [json_serializable forallb snd]. by rewrite payload_json. Qed.

(** The dead letter made of a decoded message is valid. *)
Lemma from_stream_message_valid now m stream reason code count d :
  valid_message (task m) -> iso_utc now = true -> from_stream_message now m stream reason code count = Ok d ->
  valid_dead_letter d /\ original_message_id d = message_id m /\ dl_task_id d = task_id (task m) /\
  dl_payload d = normal_payload (payload (task m)) /\ dl_delivery_count d = count /\ dl_error_code d = code.
Proof.
  intros [V T K C P R] Hn. unfold from_stream_message, dead_letter_field.
  intros (om & [[= <-] N1]%required_text_ok & H)%result_bind_ok. apply result_bind_ok in H as (os & [[= <-] N2]%required_text_ok & H).
  apply result_bind_ok in H as (fr & [[= <-] N3]%required_text_ok & H). apply result_bind_ok in H as (ec & [[= <-] N4]%required_text_ok & H).
  apply result_bind_ok in H as (dc & [[= <-] N5]%positive_integer_ok & H).
  rewrite (payload_roundtrip _ P) in H. cbn [mbind result_bind] in H. injection H as <-.
  destruct (decode_payload_valid _ _ (payload_roundtrip _ P)) as [Pv Pn].
  split; [|done]. split; simpl; try done. by repeat constructor.
Qed.
End codec_proofs.

(** ** Queue lemmas *)
Lemma connect_inv {Q A} m (op : action Q A) q r q' :
  connect m op q = (r, q') ->
  exists x, op q = (x, q') /\ match x with Ok a => r = Ok a | Err _ => exists e, r = Err e end.
Proof.
  unfold connect, catch_action. destruct (op q) as [[a|e] q1]; [|unfold raise_action]; intros [= <- <-]; eexists; (split; [reflexivity|]); [done|by eexists].
Qed.

(** One undecodable entry fails the whole reply, whatever the other entries are. *)
Lemma map_result_err {A B} (f : A -> result B) l x e : x ∈ l -> f x = Err e -> exists e', map_result f l = Err e'.
Proof.
  intros Hx E. destruct (map_result f l) as [l'|e'] eqn:M; [|by exists e'].
  destruct (map_result_elem_l _ _ _ _ M Hx) as (y & _ & Y). congruence.
Qed.

(** *** A message for the witnesses *)
Definition ex_payload : DispatchTaskPayload :=
  {| driver_id := "D-1"; vehicle_id := "V-1"; route_id := "R-1"; anomaly_type := "ROAD_BLOCKED"; anomaly_description := "landslide";
     vehicle_status := None; incident_node_id := Some (Some "N-7"%string); affected_edge_id := Some None |}.
Definition ex_message : DispatchTaskMessage :=
  {| schema_version := "1"; task_id := "t1"; order_id := 1; anomaly_id := None; idempotency_key := "k1";
     created_at := "2026-01-01T00:00:00+00:00"; payload := ex_payload; correlation_id := Some "c-1"%string |}.
Definition ex_delivery : StreamMessage :=
  {| message_id := "1-0"; task := ex_message; delivery_count := Some 3; metadata := [] |}.
Definition ex_stream : stream_server := {| sv_pending := {["1-0"; "2-0"]}%string; sv_streams := ∅ |}.

Lemma ex_message_valid : valid_message (fun _ => true) ex_message.
Proof. split; try done. split; try done. by repeat constructor. Qed.

(** ** Properties *)

(** A well-formed task message survives the queue: encoded and decoded it is the
    same message, with the default vehicle status made explicit; and whatever
    is accepted from the queue is well-formed and already in that form. *)
Theorem message_roundtrip (loads : string -> option pyval) (dumps : pyval -> string) (utf8 iso_utc : string -> bool) (m : DispatchTaskMessage) :
  valid_message iso_utc m -> loads (dumps (message_value m)) = Some (message_value m) ->
  from_json loads utf8 iso_utc (PStr (to_json dumps m)) = Ok (normal_message m) /\
  (forall v m', from_json loads utf8 iso_utc v = Ok m' -> valid_message iso_utc m' /\ normal_message m' = m').
Proof.
  intros V L. split.
  - unfold from_json, to_json, parse. rewrite L. cbn [of_option mbind result_bind]. by apply decode_message_value.
  - intros v m' H. apply result_bind_ok in H as (raw & _ & H). by apply (decode_message_valid iso_utc raw).
Qed.

Lemma message_roundtrip_witness :
  json_serializable (message_value ex_message) = true /\
  from_json (fun _ => Some (message_value ex_message)) (fun _ => true) (fun _ => true) (PStr (to_json (fun _ => "{}"%string) ex_message))
    = Ok (normal_message ex_message).
Proof.
  split; [reflexivity|].
  exact (proj1 (message_roundtrip (fun _ => Some (message_value ex_message)) (fun _ => "{}"%string) (fun _ => true) (fun _ => true)
    ex_message ex_message_valid eq_refl)).
Defined.

(** Moving a message to the dead-letter stream never loses it, whichever call
    fails: it stays pending or its dead letter, which names it and decodes to
    its task, is in the stream; no other delivery is touched, and on success it is
    acknowledged and its dead letter is the last entry. *)
Theorem dead_letter_never_lost {Q : Type} `{StreamClientLaws Q} (dumps : pyval -> string) (utf8 iso_utc : string -> bool)
    (stream dlq now reason code : string) (m : StreamMessage) (count : Z) (q q' : Q) (r : result string) :
  valid_message iso_utc (task m) -> iso_utc now = true ->
  move_to_dlq dumps utf8 stream dlq now m reason code count q = (r, q') ->
  (forall i, i <> message_id m -> i ∈ pending q' <-> i ∈ pending q) /\
  (message_id m ∈ pending q -> (message_id m ∈ pending q') \/ exists d,
     original_message_id d = message_id m /\ dl_task_id d = task_id (task m) /\ dl_delivery_count d = count /\
     contents q' dlq = contents q dlq ++ [dead_letter_to_json dumps d] /\
     forall loads, loads (dumps (dead_letter_value d)) = Some (dead_letter_value d) ->
       dead_letter_from_json loads utf8 iso_utc (PStr (dead_letter_to_json dumps d)) = Ok d) /\
  (forall i, r = Ok i -> (message_id m ∉ pending q') /\ exists d, original_message_id d = message_id m /\
     contents q' dlq = contents q dlq ++ [dead_letter_to_json dumps d]).
Proof.
  intros V N. unfold move_to_dlq, lift.
  intros [(d & q1 & X & E)|(e & X & ->)]%bind_action_inv; injection X as X Hq; subst q1 || subst q'.
  2: { split; [done|]. split; [by left|done]. }
  destruct (from_stream_message_valid _ _ _ _ _ _ _ _ V N X) as (Vd & D1 & D2 & _ & D3 & _).
  assert (J : forall loads, loads (dumps (dead_letter_value d)) = Some (dead_letter_value d) ->
    dead_letter_from_json loads utf8 iso_utc (PStr (dead_letter_to_json dumps d)) = Ok d).
  { intros loads L. unfold dead_letter_from_json, dead_letter_to_json, parse. rewrite L. cbn [of_option mbind result_bind].
    by apply decode_dead_letter_value. }
  unfold publish_dead_letter, lift in E.
  apply bind_action_inv in E as [(i & q1 & P & E)|(e & P & ->)].
  - apply bind_action_inv in P as [(v & q2 & (x & A & Hx)%connect_inv & P)|(e & _ & [=])].
    destruct x as [v'|e]; [|by destruct Hx]. injection Hx as ->. injection P as P ->.
    destruct (xadd_law _ _ _ _ _ A) as (A1 & _ & A2).
    assert (R : forall q2, pending q2 = pending q1 \/ pending q2 = pending q1 ∖ {[message_id m]} ->
      forall i, i <> message_id m -> i ∈ pending q2 <-> i ∈ pending q).
    { intros q2 [->| ->] j Nj; rewrite A1; set_solver. }
    unfold ack in E. apply bind_action_inv in E as [(n & q2 & (y & K & Hy)%connect_inv & E)|(e & (y & K & Hy)%connect_inv & ->)];
      destruct (xack_law _ _ _ _ K) as (K1 & K2); destruct y as [n'|e']; try discriminate Hy; try (by destruct Hy).
    + unfold ret_action in E. injection E as <- <-. destruct K2 as [_ K2].
      split; [apply R; by right|]. split.
      * intros _. right. exists d. rewrite K1, A2. done.
      * intros i' _. split; [rewrite K2; set_solver|]. exists d. rewrite K1, A2. done.
    + split; [by apply R|]. split; [|done]. intros _. right. exists d. rewrite K1, A2. done.
  - assert (Hp : pending q' = pending q).
    { apply bind_action_inv in P as [(v & q2 & (x & A & _)%connect_inv & P)|(e' & (x & A & _)%connect_inv & _)].
      - injection P as _ ->. by apply xadd_law in A as [? _].
      - by apply xadd_law in A as [? _]. }
    rewrite Hp. split; [done|]. split; [by left|done].
Qed.

Lemma dead_letter_never_lost_witness :
  exists r q', move_to_dlq (fun _ => "{}"%string) (fun _ => true) "tasks" "dlq" "2026-01-01T00:00:00+00:00" ex_delivery
    "Maximum delivery attempts exceeded." "MAX_DELIVERY_ATTEMPTS_EXCEEDED" 3 ex_stream = (Ok r, q') /\
    "2-0"%string ∈ pending q' /\ "1-0"%string ∉ pending q'.
Proof.
  destruct (move_to_dlq (fun _ => "{}"%string) (fun _ => true) "tasks" "dlq" "2026-01-01T00:00:00+00:00" ex_delivery
    "Maximum delivery attempts exceeded." "MAX_DELIVERY_ATTEMPTS_EXCEEDED" 3 ex_stream) as [[r|e] q'] eqn:E; [|vm_compute in E; discriminate E].
  exists r, q'. split; [reflexivity|].
  destruct (dead_letter_never_lost (fun _ => "{}"%string) (fun _ => true) (fun _ => true) "tasks" "dlq" "2026-01-01T00:00:00+00:00" _ _
    ex_delivery 3 ex_stream q' (Ok r) ex_message_valid eq_refl E) as (H1 & _ & H2).
  split; [apply H1; [discriminate|apply elem_of_union_r, elem_of_singleton_2; reflexivity]|exact (proj1 (H2 r eq_refl))].
Defined.

(** One malformed entry of a recovery reply makes the whole claim fail: no
    message of the reply is returned, though all of them were claimed. *)
Theorem bad_entry_fails_claim {Q : Type} `{StreamClient Q} (loads : string -> option pyval) (utf8 iso_utc : string -> bool)
    (stream consumer : string) (entries : pyval -> option (list (option (pyval * option raw_map)))) (es : list (option (pyval * option raw_map)))
    (reply : pyval) (bad : option (pyval * option raw_map)) (e : exn) :
  entries reply = Some es -> bad ∈ es -> entry_message loads utf8 iso_utc stream bad = Err e -> stream <> ""%string ->
  exists e', messages loads utf8 iso_utc entries (PStr stream) reply = Err e'.
Proof.
  intros E Hb B N. unfold messages. rewrite E. unfold text. destruct (String.eqb_spec stream ""); [done|].
  cbn [mbind result_bind]. by apply (map_result_err _ _ bad e).
Qed.
