(* ===== verification/Worker.v ===== *)
(** * Worker: what happens to a delivered task message

    Models [app/workers/dispatch_worker.py] on top of the execution lock
    (RedisLock), the task ledger (Idempotency), the runtime threads
    (RuntimeThreads) and the stream queue (Streams).  The collaborators the
    worker is constructed with are the fields of [worker]: the graph engine,
    the checkpoint runner, the reconciler, the publication service and the
    breakdown handler are actions on the ledger.  [trace] records, in order,
    the calls that leave the worker's own state; logging and metrics are left
    out.  Awaits do not interleave with other tasks of this message: the lock
    excludes them; what other sessions do to the ledger is [env]. *)

From S2P Require Import Prelude Evidence.
From S2P Require RuntimeThreads Idempotency RedisLock Streams.
Import RedisLock(LockClient, LockHandle, acquired, handle_key, handle_token).
Import Streams(StreamClient, StreamMessage, DispatchTaskMessage, message_id, task, delivery_count, task_id, order_id, idempotency_key, payload, correlation_id).

#[local] Existing Instances RuntimeThreads.RuntimeThreadStatus_eq_dec Idempotency.IdempotencyState_eq_dec.

Local Open Scope Z_scope.
Local Open Scope list_scope.

(** ** Data *)
Record WorkerProcessResult := {
  res_message_id : string;
  res_task_id : string;
  acknowledged : bool;
  terminal_status : option string;
  requires_manual_review : bool;
  error_code : option string;
  res_delivery_count : option Z;
  retried : bool;
  moved_to_dlq : bool;
  res_backoff_ms : option Z;
  idempotency_state : option Idempotency.IdempotencyState;
  duplicate_skipped : bool;
  lock_acquired : option bool;
  reconciled : bool;
}.

(** The constructor with its defaults. *)
Definition process_result (m : StreamMessage) (acked : bool) (status : option string) (manual : bool) (code : option string) : WorkerProcessResult :=
  {| res_message_id := message_id m; res_task_id := task_id (task m); acknowledged := acked; terminal_status := status;
     requires_manual_review := manual; error_code := code; res_delivery_count := None; retried := false; moved_to_dlq := false;
     res_backoff_ms := None; idempotency_state := None; duplicate_skipped := false; lock_acquired := None; reconciled := false |}.

(** The [replace] calls of the worker. *)
Definition with_ack (r : WorkerProcessResult) (acked : bool) (code : option string) : WorkerProcessResult :=
  {| res_message_id := res_message_id r; res_task_id := res_task_id r; acknowledged := acked; terminal_status := terminal_status r;
     requires_manual_review := requires_manual_review r; error_code := code; res_delivery_count := res_delivery_count r;
     retried := retried r; moved_to_dlq := moved_to_dlq r; res_backoff_ms := res_backoff_ms r;
     idempotency_state := idempotency_state r; duplicate_skipped := duplicate_skipped r; lock_acquired := lock_acquired r;
     reconciled := reconciled r |}.
Definition with_lock (r : WorkerProcessResult) (st : option Idempotency.IdempotencyState) (locked : bool) : WorkerProcessResult :=
  {| res_message_id := res_message_id r; res_task_id := res_task_id r; acknowledged := acknowledged r; terminal_status := terminal_status r;
     requires_manual_review := requires_manual_review r; error_code := error_code r; res_delivery_count := res_delivery_count r;
     retried := retried r; moved_to_dlq := moved_to_dlq r; res_backoff_ms := res_backoff_ms r;
     idempotency_state := st; duplicate_skipped := duplicate_skipped r; lock_acquired := Some locked; reconciled := reconciled r |}.
Definition with_replay (r : WorkerProcessResult) (skipped recon : bool) : WorkerProcessResult :=
  {| res_message_id := res_message_id r; res_task_id := res_task_id r; acknowledged := acknowledged r; terminal_status := terminal_status r;
     requires_manual_review := requires_manual_review r; error_code := error_code r; res_delivery_count := res_delivery_count r;
     retried := retried r; moved_to_dlq := moved_to_dlq r; res_backoff_ms := res_backoff_ms r;
     idempotency_state := idempotency_state r; duplicate_skipped := skipped; lock_acquired := lock_acquired r; reconciled := recon |}.
Definition with_delivery (r : WorkerProcessResult) (count : Z) (retry dlq : bool) (backoff : option Z) : WorkerProcessResult :=
  {| res_message_id := res_message_id r; res_task_id := res_task_id r; acknowledged := acknowledged r; terminal_status := terminal_status r;
     requires_manual_review := requires_manual_review r; error_code := error_code r; res_delivery_count := Some count;
     retried := retry; moved_to_dlq := dlq; res_backoff_ms := backoff;
     idempotency_state := idempotency_state r; duplicate_skipped := duplicate_skipped r; lock_acquired := lock_acquired r;
     reconciled := reconciled r |}.

(** The task events the worker publishes, by type and status. *)
Inductive effect :=
| Event (task ty status : string)
| Decided (d : Idempotency.IdempotencyDecision)
| StatusSet (task status : string)
| GraphStarted (task : string)
| AutoPublished (task : string)
| BreakdownHandled (task : string)
| TerminalPublished (thread : string)
| AckCalled (message : string) (r : result Z)
| DeadLettered (message : string) (r : result string).

(** ** Pure helpers *)

(** [payload[key]] and [payload.get(key)], as the JSON values the graph gets. *)
Definition key_or {A} (d : pyval) (f : A -> pyval) (o : option A) : pyval := match o with Some a => f a | None => d end.

Definition task_message_to_graph_input (t : DispatchTaskMessage) : pydict :=
  let p := payload t in
  let edge := key_or PNone opt_str (Streams.affected_edge_id p) in
  [("task_id", PStr (task_id t)); ("order_id", PInt (order_id t)); ("driver_id", PStr (Streams.driver_id p));
   ("vehicle_id", PStr (Streams.vehicle_id p)); ("route_id", PStr (Streams.route_id p));
   ("anomaly_type", PStr (Streams.anomaly_type p)); ("anomaly_description", PStr (Streams.anomaly_description p));
   ("vehicle_status", key_or (PStr "NORMAL") PStr (Streams.vehicle_status p));
   ("incident_node_id", key_or PNone opt_str (Streams.incident_node_id p));
   ("affected_edge_ids", PList (if is_none edge then [] else [edge]))]%string
  ++ match correlation_id t with Some c => [("correlation_id"%string, PStr c)] | None => [] end.

(** [_terminal_state]: status, manual review, error code. *)
Definition terminal_state (final : pydict) : option string * bool * option string :=
  let code := match get final "error_code" with PStr s => Some s | _ => None end in
  let manual := is_true (get final "requires_manual_review") in
  if bool_decide (code = Some "AUDIT_PERSISTENCE_ERROR"%string) then (None, manual, code)
  else match get final "audit_result" with
  | PDict audit =>
      match get audit "audit_status" with
      | PStr s =>
          if String.eqb s "APPROVED" then (Some s, manual, code)
          else if String.eqb s "REVIEW_REQUIRED" && manual then (Some s, true, code)
          else (None, manual, code)
      | _ => (None, manual, code)
      end
  | _ => (None, manual, code)
  end.

Definition is_approved_or_review (s : option string) : bool :=
  match s with Some s => one_of s ["APPROVED"; "REVIEW_REQUIRED"]%string | None => false end.

(** ** The worker and its world *)
Record graph_runner := {
  runner_setup : result unit;
  run_new : RuntimeThreads.RuntimeThread -> pydict -> action Idempotency.ledger pydict;
  resume : RuntimeThreads.RuntimeThread -> string -> action Idempotency.ledger pydict;
}.

(** What the worker is constructed with; an absent collaborator is [None]. *)
Record worker := {
  consumer_name : string;
  retry_policy : Streams.RetryPolicy;
  idempotency_service : bool;
  execution_lock : option Z;                        (* the lifetime of the lock *)
  event_broker : bool;
  runtime_thread_repository : bool;
  runtime_thread_reconciler : option (RuntimeThreads.RuntimeThread -> action Idempotency.ledger RuntimeThreads.RuntimeThread);
  ainvoke : pydict -> action Idempotency.ledger pydict;
  event_adapter : option (pydict -> action Idempotency.ledger pydict);   (* a graph with [astream], through the broker *)
  runtime_runner : option graph_runner;
  publish_automatically : option (string -> action Idempotency.ledger unit);
  handle_approved_breakdown : option (DispatchTaskMessage -> action Idempotency.ledger unit);
  env : Idempotency.ledger -> Idempotency.ledger;         (* other sessions, within [begin] *)
  store_env : RuntimeThreads.store -> RuntimeThreads.store;  (* other sessions, within a thread update *)
  now : Z;
}.

Record world (R Q : Type) := {
  ledger : Idempotency.ledger;
  redis : R;
  queue : Q;
  trace : list effect;
}.
Arguments ledger {R Q}. Arguments redis {R Q}. Arguments queue {R Q}. Arguments trace {R Q}.

(** The answers of [_mark_runtime_terminal]: [True], [None], [False], a snapshot. *)
Inductive terminal_outcome :=
| RepositoryMissing
| ThreadMissing
| PersistenceFailed
| Persisted (t : RuntimeThreads.RuntimeThread).

Definition with_threads (l : Idempotency.ledger) (rt : RuntimeThreads.store) : Idempotency.ledger :=
  Idempotency.with_runtime l (Idempotency.tasks l) rt (Idempotency.next_task l).

(** An operation of the thread repository on the ledger. *)
Definition on_threads {A} (m : action RuntimeThreads.store A) : action Idempotency.ledger A := fun l =>
  let (r, rt) := m (Idempotency.runtime l) in (r, with_threads l rt).

Section worker.
Context {R Q : Type} `{LockClient R, StreamClient Q}.
Context (w : worker).
(** The queue's parameters, the random tokens, and what happens on the lock
    server before each renewal while a message is processed. *)
Context (dumps : pyval -> string) (utf8 : string -> bool) (stream dlq timestamp : string).
Context (token : string) (ticks : list (R -> R)).

Definition Act (A : Type) : Type := action (world R Q) A.

Definition on_ledger {A} (m : action Idempotency.ledger A) : Act A := fun s =>
  let (r, l) := m (ledger s) in (r, {| ledger := l; redis := redis s; queue := queue s; trace := trace s |}).
Definition on_lock {A} (m : action R A) : Act A := fun s =>
  let (r, x) := m (redis s) in (r, {| ledger := ledger s; redis := x; queue := queue s; trace := trace s |}).
Definition on_queue {A} (m : action Q A) : Act A := fun s =>
  let (r, x) := m (queue s) in (r, {| ledger := ledger s; redis := redis s; queue := x; trace := trace s |}).
Definition emit (e : effect) : Act unit := fun s =>
  (Ok tt, {| ledger := ledger s; redis := redis s; queue := queue s; trace := trace s ++ [e] |}).
Definition read {A} (f : Idempotency.ledger -> A) : Act A := fun s => (Ok (f (ledger s)), s).

(** [try: m  except Exception: h]. *)
Definition guarded {A} (m : Act A) (h : Act A) : Act A :=
  catch_action m (fun e => if is_exception e then h else raise_action e).

(** ** Collaborators *)
Definition publish (tid ty status : string) : Act unit :=
  if event_broker w then emit (Event tid ty status) else ret_action tt.

Definition publish_terminal (tid : string) (r : WorkerProcessResult) : Act unit :=
  match terminal_status r with
  | Some s =>
      if String.eqb s "APPROVED" then publish tid "TASK_COMPLETED" "COMPLETED"
      else if String.eqb s "REVIEW_REQUIRED" then publish tid "TASK_REVIEW_REQUIRED" "REVIEW_REQUIRED"
      else ret_action tt
  | None => ret_action tt
  end.

Definition publish_runtime_terminal (o : terminal_outcome) : Act unit :=
  match o, runtime_runner w with
  | Persisted t, Some _ => emit (TerminalPublished (RuntimeThreads.thread_id t))
  | _, _ => ret_action tt
  end.

Definition mark_runtime_terminal (tid status : string) (code : option string) : Act terminal_outcome :=
  if negb (runtime_thread_repository w) then ret_action RepositoryMissing
  else (do thread <- read (fun l => RuntimeThreads.thread_of_task (Idempotency.runtime l) tid);
        match thread with
        | None => ret_action ThreadMissing
        | Some t =>
            guarded
              (do t' <- on_ledger (on_threads (RuntimeThreads.mark_terminal (store_env w) (now w) (RuntimeThreads.thread_id t)
                   ("terminal:" +:+ status) (consumer_name w) (RuntimeThreads.current_node t) code));
               ret_action (Persisted t'))
              (ret_action PersistenceFailed)
        end)%action.

Definition set_terminal (tid status : string) : Act unit :=
  (do _ <- on_ledger (Idempotency.mark_terminal tid status); emit (StatusSet tid status))%action.

Definition ack (mid : string) : Act bool := fun s =>
  let (r, q) := Streams.ack mid (queue s) in
  (match r with Ok n => Ok (n =? 1) | Err e => Err e end,
   {| ledger := ledger s; redis := redis s; queue := q; trace := trace s ++ [AckCalled mid r] |}).

Definition auto_publish (tid : string) (status : option string) : Act (option string) :=
  match publish_automatically w with
  | Some p =>
      if bool_decide (status = Some "APPROVED"%string)
      then guarded (do _ <- on_ledger (p tid); do _ <- emit (AutoPublished tid); ret_action None)%action
                   (ret_action (Some "AUTO_PUBLICATION_ERROR"%string))
      else ret_action None
  | None => ret_action None
  end.

Definition handle_vehicle_breakdown (t : DispatchTaskMessage) (status : option string) : Act (option string) :=
  match handle_approved_breakdown w with
  | Some h =>
      if bool_decide (status = Some "APPROVED"%string) && String.eqb (upper (Streams.anomaly_type (payload t))) "VEHICLE_BREAKDOWN"
      then guarded (do _ <- on_ledger (h t); do _ <- emit (BreakdownHandled (task_id t)); ret_action None)%action
                   (ret_action (Some "VEHICLE_RESCUE_ORCHESTRATION_ERROR"%string))
      else ret_action None
  | None => ret_action None
  end.

(** ** Running the graph *)
Definition BoundaryClaimConflict : exn := RuntimeThreads.BoundaryClaimConflict "RUNTIME_BOUNDARY_CLAIM_CONFLICT".

(** A STABLE thread is claimed for its next node before it is resumed. *)
Definition claim_for_resume (t : RuntimeThreads.RuntimeThread) (checkpoint : string) : action Idempotency.ledger RuntimeThreads.RuntimeThread :=
  if bool_decide (RuntimeThreads.status t = RuntimeThreads.STABLE) then
    match runtime_thread_repository w, RuntimeThreads.next_node t with
    | true, Some next =>
        on_threads (RuntimeThreads.claim_next_node (RuntimeThreads.thread_id t) checkpoint (RuntimeThreads.state_version t) next (consumer_name w))
    | _, _ => raise_action BoundaryClaimConflict
    end
  else ret_action t.

Definition resume_key (m : StreamMessage) : string :=
  let n := match delivery_count m with Some n => if n =? 0 then 1 else n | None => 1 end in
  message_id m +:+ ":" +:+ z_str n +:+ ":" +:+ consumer_name w.

Definition execute_graph (m : StreamMessage) (thread : option RuntimeThreads.RuntimeThread) : action Idempotency.ledger pydict :=
  let input := task_message_to_graph_input (task m) in
  match runtime_runner w, thread with
  | Some r, Some t =>
      (do _ <- (fun l => (runner_setup r, l));
       match RuntimeThreads.current_checkpoint_id t with
       | None => run_new r t input
       | Some c => do t' <- claim_for_resume t c; resume r t' (resume_key m)
       end)%action
  | _, _ => match event_broker w, event_adapter w with
            | true, Some invoke => invoke input
            | _, _ => ainvoke w input
            end
  end.

Definition process_graph (m : StreamMessage) (acknowledge_terminal : bool) (thread : option RuntimeThreads.RuntimeThread) : Act WorkerProcessResult :=
  let tid := task_id (task m) in
  (do _ <- publish tid "WORKER_STARTED" "PROCESSING";
   do _ <- emit (GraphStarted tid);
   do final <- guarded (do f <- on_ledger (execute_graph m thread); ret_action (Some f)) (ret_action None);
   match final with
   | None =>
       do _ <- publish tid "TASK_FAILED" "FAILED";
       ret_action (process_result m false (Some "FAILED"%string) false (Some "GRAPH_EXECUTION_ERROR"%string))
   | Some f =>
       let '(status, manual, code) := terminal_state f in
       match status with
       | Some _ =>
           do acked <- (if acknowledge_terminal then ack (message_id m) else ret_action false);
           ret_action (process_result m acked status manual code)
       | None =>
           do paused <- read (fun l =>
             runtime_thread_repository w &&
             match RuntimeThreads.thread_of_task (Idempotency.runtime l) tid with
             | Some t => bool_decide (RuntimeThreads.status t = RuntimeThreads.STABLE) && negb (bool_decide (RuntimeThreads.next_node t = None))
             | None => false
             end);
           if paused then ret_action (process_result m false None false (Some "RUNTIME_THREAD_PAUSED"%string))
           else do _ <- publish tid "TASK_FAILED" "FAILED";
                ret_action (process_result m false None manual code)
       end
   end)%action.

Definition runtime_thread (tid : string) : Act (option RuntimeThreads.RuntimeThread) :=
  if negb (runtime_thread_repository w) then ret_action None
  else (do thread <- read (fun l => RuntimeThreads.thread_of_task (Idempotency.runtime l) tid);
        match thread, runtime_thread_reconciler w with
        | Some t, Some reconcile => do t' <- on_ledger (reconcile t); ret_action (Some t')
        | _, _ => ret_action thread
        end)%action.

(** ** Processing a message *)
Definition runtime_terminal_failure (m : StreamMessage) (st : Idempotency.IdempotencyState) : WorkerProcessResult :=
  with_lock (process_result m false None false (Some "RUNTIME_THREAD_TERMINAL_ERROR"%string)) (Some st) true.

Definition ack_terminal_replay (m : StreamMessage) (status : option string) (recon : bool) : Act WorkerProcessResult :=
  let tid := task_id (task m) in
  let answer manual code skipped := with_replay (with_lock (process_result m false status manual code) (Some Idempotency.TERMINAL) true) skipped recon in
  (do publication_error <- auto_publish tid status;
   match publication_error with
   | Some e => ret_action (answer false (Some e) false)
   | None =>
       do vehicle_error <- handle_vehicle_breakdown (task m) status;
       match vehicle_error with
       | Some e => ret_action (answer false (Some e) false)
       | None =>
           let r := answer (bool_decide (status = Some "REVIEW_REQUIRED"%string)) None true in
           do _ <- publish_terminal tid r;
           do acked <- ack (message_id m);
           ret_action (with_ack r acked (error_code r))
       end
   end)%action.

(** After the graph: a result that is not terminal is returned as it is; a
    terminal one is persisted, published and acknowledged. *)
Definition complete_task (m : StreamMessage) (st : Idempotency.IdempotencyState) (r : WorkerProcessResult) : Act WorkerProcessResult :=
  let tid := task_id (task m) in
  let locked r := with_lock r (Some st) true in
  match terminal_status r with
  | Some status =>
      if negb (is_approved_or_review (Some status)) then (do _ <- publish_terminal tid r; ret_action (locked r))%action
      else
        (do outcome <- mark_runtime_terminal tid status None;
         match outcome with
         | ThreadMissing => ret_action (runtime_terminal_failure m st)
         | _ =>
             do _ <- set_terminal tid status;
             do publication_error <- auto_publish tid (Some status);
             match publication_error with
             | Some e => ret_action (locked (with_ack r false (Some e)))
             | None =>
                 do vehicle_error <- handle_vehicle_breakdown (task m) (Some status);
                 match vehicle_error with
                 | Some e => ret_action (locked (with_ack r false (Some e)))
                 | None =>
                     do _ <- publish_runtime_terminal outcome;
                     do _ <- publish_terminal tid r;
                     do acked <- ack (message_id m);
                     ret_action (locked (with_ack r acked (error_code r)))
                 end
             end
         end)%action
  | None => (do _ <- publish_terminal tid r; ret_action (locked r))%action
  end.

(** The path of a task that has not reached a terminal status. *)
Definition execute_task (m : StreamMessage) (st : Idempotency.IdempotencyState) : Act WorkerProcessResult :=
  (do thread <- guarded (do t <- runtime_thread (task_id (task m)); ret_action (Some t)) (ret_action None);
   match thread with
   | None => ret_action (with_lock (process_result m false None false (Some "RUNTIME_THREAD_RECONCILIATION_ERROR"%string)) (Some st) true)
   | Some thread => do r <- process_graph m false thread; complete_task m st r
   end)%action.

Definition begin_request (t : DispatchTaskMessage) : Idempotency.begin_request :=
  {| Idempotency.b_task_id := task_id t; Idempotency.b_order_id := order_id t; Idempotency.b_key := idempotency_key t;
     Idempotency.b_anomaly_id := None; Idempotency.b_assignee := None |}.

(** What is done while the lock is held. *)
Definition process_locked (m : StreamMessage) : Act WorkerProcessResult :=
  let tid := task_id (task m) in
  (do d <- on_ledger (Idempotency.begin (env w) (begin_request (task m)));
   do _ <- emit (Decided d);
   match Idempotency.state d with
   | Idempotency.TERMINAL =>
       do outcome <- mark_runtime_terminal tid (or_else (Idempotency.existing_status d) "COMPLETED") None;
       match outcome with
       | ThreadMissing => ret_action (runtime_terminal_failure m Idempotency.TERMINAL)
       | _ => do _ <- publish_runtime_terminal outcome; ack_terminal_replay m (Idempotency.existing_status d) false
       end
   | Idempotency.IN_PROGRESS =>
       do rc <- read (fun l => Idempotency.reconcile_existing_execution l tid);
       if Idempotency.rc_is_terminal rc then
         let status := or_else (Idempotency.rc_terminal_status rc) "COMPLETED" in
         do outcome <- mark_runtime_terminal tid status None;
         match outcome with
         | ThreadMissing => ret_action (runtime_terminal_failure m Idempotency.IN_PROGRESS)
         | _ =>
             do _ <- set_terminal tid status;
             do _ <- publish_runtime_terminal outcome;
             ack_terminal_replay m (Idempotency.rc_terminal_status rc) true
         end
       else execute_task m Idempotency.IN_PROGRESS
   | Idempotency.NEW =>
       do _ <- on_ledger (Idempotency.mark_processing tid);
       do _ <- emit (StatusSet tid "PROCESSING");
       execute_task m Idempotency.NEW
   end)%action.

(** [_maintain_execution_lock], until it stops or is cancelled. *)
Fixpoint maintain_execution_lock (ttl : Z) (h : LockHandle) (ts : list (R -> R)) (r : R) : R :=
  match ts with
  | [] => r
  | tick :: rest =>
      match RedisLock.renew ttl h (tick r) with
      | (Ok true, r') => maintain_execution_lock ttl h rest r'
      | (_, r') => r'
      end
  end.

(** The [finally] block: the renewal ends and the lock is released; a failing
    release replaces the outcome. *)
Definition releasing {A} (ttl : Z) (h : LockHandle) (m : Act A) : Act A := fun s =>
  let (r, s1) := m s in
  let s2 := {| ledger := ledger s1; redis := maintain_execution_lock ttl h ticks (redis s1); queue := queue s1; trace := trace s1 |} in
  match on_lock (RedisLock.release h) s2 with
  | (Ok _, s3) => (r, s3)
  | (Err e, s3) => (Err e, s3)
  end.

(** Without a ledger or a lock: acknowledged once the post-processing succeeded. *)
Definition process_unlocked (m : StreamMessage) : Act WorkerProcessResult :=
  let tid := task_id (task m) in
  let post := negb (bool_decide (is_Some (publish_automatically w)) || bool_decide (is_Some (handle_approved_breakdown w))) in
  (do r <- process_graph m post None;
   if negb post && is_approved_or_review (terminal_status r) then
     do publication_error <- auto_publish tid (terminal_status r);
     match publication_error with
     | Some e => ret_action (with_ack r false (Some e))
     | None =>
         do vehicle_error <- handle_vehicle_breakdown (task m) (terminal_status r);
         match vehicle_error with
         | Some e => ret_action (with_ack r false (Some e))
         | None =>
             do acked <- ack (message_id m);
             let r' := with_ack r acked (error_code r) in
             do _ <- publish_terminal tid r'; ret_action r'
         end
     end
   else do _ <- publish_terminal tid r; ret_action r)%action.

Definition process_message (m : StreamMessage) : Act WorkerProcessResult :=
  match idempotency_service w, execution_lock w with
  | true, Some ttl =>
      (do h <- on_lock (RedisLock.acquire ttl (idempotency_key (task m)) token);
       if negb (acquired h) then ret_action (with_lock (process_result m false (Some "LOCKED"%string) false None) None false)
       else releasing ttl h (process_locked m))%action
  | _, _ => process_unlocked m
  end.

(** ** Recovery of a pending message *)
Definition execution_is_active (m : StreamMessage) : Act bool :=
  match execution_lock w with
  | None => ret_action false
  | Some ttl =>
      (do probe <- on_lock (RedisLock.acquire ttl (idempotency_key (task m)) token);
       if negb (acquired probe) then ret_action true
       else do _ <- on_lock (RedisLock.release probe); ret_action false)%action
  end.

Definition move_to_dlq (m : StreamMessage) (count : Z) : Act unit := fun s =>
  let (r, q) := Streams.move_to_dlq dumps utf8 stream dlq timestamp m "Maximum delivery attempts exceeded." "MAX_DELIVERY_ATTEMPTS_EXCEEDED" count (queue s) in
  (match r with Ok _ => Ok tt | Err e => Err e end,
   {| ledger := ledger s; redis := redis s; queue := q; trace := trace s ++ [DeadLettered (message_id m) r] |}).

Definition dead_letter (m : StreamMessage) (count : Z) : Act WorkerProcessResult :=
  let tid := task_id (task m) in
  (do outcome <- mark_runtime_terminal tid "DLQ" (Some "MAX_DELIVERY_ATTEMPTS_EXCEEDED"%string);
   match outcome with
   | ThreadMissing =>
       ret_action (with_delivery (process_result m false None false (Some "RUNTIME_THREAD_TERMINAL_ERROR"%string)) count false false None)
   | _ =>
       do _ <- (if idempotency_service w then set_terminal tid "DLQ" else ret_action tt);
       do _ <- publish_runtime_terminal outcome;
       do _ <- publish tid "TASK_FAILED" "DLQ";
       do _ <- move_to_dlq m count;
       ret_action (with_delivery (process_result m true (Some "DLQ"%string) false (Some "MAX_DELIVERY_ATTEMPTS_EXCEEDED"%string)) count false true None)
   end)%action.

Definition recover_message (m : StreamMessage) : Act WorkerProcessResult :=
  match delivery_count m with
  | None => ret_action (process_result m false None false (Some "DELIVERY_COUNT_UNAVAILABLE"%string))
  | Some count =>
      if negb (Streams.should_retry (retry_policy w) count) then
        (do active <- execution_is_active m;
         if active then
           let r := with_lock (process_result m false (Some "LOCKED"%string) false None) None false in
           ret_action (with_delivery r count false false None)
         else dead_letter m count)%action
      else
        (do r <- process_message m;
         ret_action (with_delivery r count true (moved_to_dlq r) (Some (Streams.backoff_ms (retry_policy w) count))))%action
  end.

(** A batch: the messages one after the other; an exception ends it. *)
Fixpoint process_batch (process : StreamMessage -> Act WorkerProcessResult) (ms : list StreamMessage) : Act (list WorkerProcessResult) :=
  match ms with
  | [] => ret_action []
  | m :: rest => (do r <- process m; do rs <- process_batch process rest; ret_action (r :: rs))%action
  end.
End worker.

(** ** The polling loops

    Gauges, counters and the sampling of the queue for them are left out. *)
Section loops.
Context {R Q : Type} `{LockClient R, StreamClient Q} (w : worker).
Context (loads : string -> option pyval) (dumps : pyval -> string) (utf8 iso_utc : string -> bool) (stream dlq timestamp : string).
Context (entries : pyval -> option (list (option (pyval * option Streams.raw_map)))).
Context (token : string) (ticks : list (R -> R)).

(** [except QueueMessageError: return []] around reading; other failures propagate. *)
Definition polled (read_messages : action Q (list StreamMessage)) (process : StreamMessage -> Act (R := R) (Q := Q) WorkerProcessResult) : Act (list WorkerProcessResult) :=
  (do _ <- on_queue Streams.ensure_consumer_group;
   do ms <- catch_action (on_queue read_messages)
              (fun e => if String.eqb (exn_class e) "QueueMessageError" then ret_action [] else raise_action e);
   process_batch process ms)%action.

Definition run_once (read_count block_ms : Z) : Act (list WorkerProcessResult) :=
  polled (Streams.read_group loads utf8 iso_utc entries read_count block_ms) (process_message w token ticks).

Definition recover_once (pending_min_idle_ms recovery_count : Z) : Act (list WorkerProcessResult) :=
  polled (Streams.claim_pending loads utf8 iso_utc stream (consumer_name w) entries
            (Some (consumer_name w)) pending_min_idle_ms "0-0" recovery_count)
    (recover_message w dumps utf8 stream dlq timestamp token ticks).

(** [run_forever], stopped before the round after [rounds]. *)
Fixpoint run_forever (rounds : nat) (read_count block_ms : Z) : Act (R := R) (Q := Q) unit :=
  match rounds with
  | O => ret_action tt
  | S n => (do _ <- run_once read_count block_ms; run_forever n read_count block_ms)%action
  end.
End loops.

(** ** Reasoning about traces

    [does m P]: whatever happens, [m] only extends the trace, by effects that
    with the outcome satisfy [P]. *)
Section traces.
Context {R Q : Type}.

Definition does {A} (m : Act (R := R) (Q := Q) A) (P : result A -> list effect -> Prop) : Prop :=
  forall s r s', m s = (r, s') -> exists new, trace s' = trace s ++ new /\ P r new.

(** Predicates on traces alone that hold of the empty trace and of concatenations. *)
Record additive (P : list effect -> Prop) : Prop := {
  additive_nil : P [];
  additive_app : forall x y, P x -> P y -> P (x ++ y);
}.

Definition emits {A} (m : Act (R := R) (Q := Q) A) (P : list effect -> Prop) : Prop := does m (fun _ => P).

Lemma does_impl {A} (m : Act A) (P P' : result A -> list effect -> Prop) :
  does m P -> (forall r x, P r x -> P' r x) -> does m P'.
Proof. intros D I s r s' E. destruct (D s r s' E) as (new & T & X). exists new. auto. Qed.

Lemma does_bind {A B} (m : Act A) (f : A -> Act B) (P : result A -> list effect -> Prop)
    (F : A -> result B -> list effect -> Prop) (G : result B -> list effect -> Prop) :
  does m P -> (forall a, does (f a) (F a)) ->
  (forall a x r y, P (Ok a) x -> F a r y -> G r (x ++ y)) -> (forall e x, P (Err e) x -> G (Err e) x) ->
  does (bind_action m f) G.
Proof.
  intros Dm Df Gok Gerr s r s' [(a & s1 & E1 & E2)|(e & E1 & ->)]%bind_action_inv.
  - destruct (Dm _ _ _ E1) as (x & T1 & X). destruct (Df a _ _ _ E2) as (y & T2 & Y).
    exists (x ++ y). rewrite T2, T1, app_assoc. eauto.
  - destruct (Dm _ _ _ E1) as (x & T1 & X). exists x. auto.
Qed.

Lemma does_ret {A} (a : A) (P : result A -> list effect -> Prop) : P (Ok a) [] -> does (ret_action a) P.
Proof. intros H s r s' [= <- <-]. exists []. by rewrite app_nil_r. Qed.

Lemma does_raise {A} (e : exn) (P : result A -> list effect -> Prop) : P (Err e) [] -> does (raise_action e) P.
Proof. intros H s r s' [= <- <-]. exists []. by rewrite app_nil_r. Qed.

Lemma does_emit e (P : result unit -> list effect -> Prop) : P (Ok tt) [e] -> does (emit e) P.
Proof. intros H s r s' [= <- <-]. by exists [e]. Qed.

Lemma does_guarded {A} (m h : Act A) (P F G : result A -> list effect -> Prop) :
  does m P -> does h F ->
  (forall a x, P (Ok a) x -> G (Ok a) x) -> (forall e x, P (Err e) x -> G (Err e) x) ->
  (forall e x r y, P (Err e) x -> F r y -> G r (x ++ y)) -> does (guarded m h) G.
Proof.
  intros Dm Dh G1 G2 G3 s r s'. unfold guarded, catch_action. destruct (m s) as [[a|e] s1] eqn:E.
  - intros [= <- <-]. destruct (Dm _ _ _ E) as (x & T & X). exists x. auto.
  - destruct (Dm _ _ _ E) as (x & T & X). destruct (is_exception e).
    + intros E2. destruct (Dh _ _ _ E2) as (y & T2 & Y). exists (x ++ y). rewrite T2, T, app_assoc. eauto.
    + intros [= <- <-]. exists x. auto.
Qed.

Lemma does_silent {A} (m : Act A) (P : result A -> list effect -> Prop) :
  (forall s r s', m s = (r, s') -> trace s' = trace s /\ P r []) -> does m P.
Proof. intros H s r s' E. destruct (H _ _ _ E) as [-> X]. exists []. by rewrite app_nil_r. Qed.

(** The trace-only rules, for any additive predicate. *)
Section additive_rules.
Context (P : list effect -> Prop) (HP : additive P).

Lemma emits_bind {A B} (m : Act A) (f : A -> Act B) : emits m P -> (forall a, emits (f a) P) -> emits (bind_action m f) P.
Proof. intros D F. apply (does_bind m f (fun _ => P) (fun _ _ => P)); auto. intros; by apply HP. Qed.

Lemma emits_ret {A} (a : A) : emits (ret_action a) P.
Proof. apply does_ret, HP. Qed.

Lemma emits_raise {A} (e : exn) : emits (A := A) (raise_action e) P.
Proof. apply does_raise, HP. Qed.

Lemma emits_emit e : P [e] -> emits (emit e) P.
Proof. intros H. by apply does_emit. Qed.

Lemma emits_guarded {A} (m h : Act A) : emits m P -> emits h P -> emits (guarded m h) P.
Proof. intros D F. apply (does_guarded m h (fun _ => P) (fun _ => P)); auto. intros; by apply HP. Qed.

Lemma emits_on_ledger {A} (m : action Idempotency.ledger A) : emits (on_ledger m) P.
Proof. apply does_silent. intros s r s'. unfold on_ledger. destruct (m (ledger s)). intros [= <- <-]. split; [done|apply HP]. Qed.

Lemma emits_read {A} (f : Idempotency.ledger -> A) : emits (read f) P.
Proof. apply does_silent. intros s r s' [= <- <-]. split; [done|apply HP]. Qed.

Lemma emits_on_lock {A} (m : action R A) : emits (on_lock m) P.
Proof. apply does_silent. intros s r s'. unfold on_lock. destruct (m (redis s)). intros [= <- <-]. split; [done|apply HP]. Qed.
End additive_rules.

Lemma only_additive (A : effect -> Prop) : additive (Forall A).
Proof. split; [constructor|]. intros x y. apply Forall_app_2. Qed.

Lemma any_additive : additive (fun _ => True).
Proof. by split. Qed.
End traces.

Ltac emits_step HP :=
  match goal with
  | |- emits (bind_action _ _) _ => apply (emits_bind _ HP); [|intros ?]
  | |- emits (ret_action _) _ => apply (emits_ret _ HP)
  | |- emits (raise_action _) _ => apply (emits_raise _ HP)
  | |- emits (guarded _ _) _ => apply (emits_guarded _ HP)
  | |- emits (on_ledger _) _ => apply (emits_on_ledger _ HP)
  | |- emits (on_lock _) _ => apply (emits_on_lock _ HP)
  | |- emits (read _) _ => apply (emits_read _ HP)
  | |- emits (emit _) _ => apply emits_emit
  | |- emits (match ?x with _ => _ end) _ => destruct x eqn:?
  | |- emits (let '_ := ?x in _) _ => destruct x eqn:?
  end.
(** Walk through an action; what is left are the effects it emits and unknown calls. *)
Ltac emits HP := repeat (emits_step HP).

Inductive effect_kind := KEvent | KDecided | KStatus | KGraph | KPublished | KBreakdown | KTerminal | KAck | KDead.
#[export] Instance effect_kind_eq_dec : EqDecision effect_kind.
Proof. solve_decision. Defined.

Definition kind_of (e : effect) : effect_kind :=
  match e with
  | Event _ _ _ => KEvent | Decided _ => KDecided | StatusSet _ _ => KStatus | GraphStarted _ => KGraph
  | AutoPublished _ => KPublished | BreakdownHandled _ => KBreakdown | TerminalPublished _ => KTerminal
  | AckCalled _ _ => KAck | DeadLettered _ _ => KDead
  end.

(** Only effects of the allowed kinds. *)
Definition within (allow : effect_kind -> bool) : list effect -> Prop := Forall (fun e => allow (kind_of e) = true).

Lemma within_additive allow : additive (within allow).
Proof. apply only_additive. Qed.

Lemma within_one allow e : allow (kind_of e) = true -> within allow [e].
Proof. by repeat constructor. Qed.

Section worker_traces.
Context {R Q : Type} `{LockClient R, StreamClient Q} (w : worker) (allow : effect_kind -> bool).
Let HP := within_additive allow.

Lemma publish_emits tid ty st : allow KEvent = true -> emits (R := R) (Q := Q) (publish w tid ty st) (within allow).
Proof. intros A. unfold publish. emits HP. by apply within_one. Qed.

Lemma publish_terminal_emits tid r : allow KEvent = true -> emits (R := R) (Q := Q) (publish_terminal w tid r) (within allow).
Proof. intros A. unfold publish_terminal. emits HP; by apply publish_emits. Qed.

Lemma publish_runtime_terminal_emits o : allow KTerminal = true -> emits (R := R) (Q := Q) (publish_runtime_terminal w o) (within allow).
Proof. intros A. unfold publish_runtime_terminal. emits HP. by apply within_one. Qed.

Lemma mark_runtime_terminal_emits tid st code : emits (R := R) (Q := Q) (mark_runtime_terminal w tid st code) (within allow).
Proof. unfold mark_runtime_terminal. emits HP. Qed.

Lemma auto_publish_emits tid st : allow KPublished = true -> emits (R := R) (Q := Q) (auto_publish w tid st) (within allow).
Proof. intros A. unfold auto_publish. emits HP. by apply within_one. Qed.

Lemma handle_vehicle_breakdown_emits t st : allow KBreakdown = true -> emits (R := R) (Q := Q) (handle_vehicle_breakdown w t st) (within allow).
Proof. intros A. unfold handle_vehicle_breakdown. emits HP. by apply within_one. Qed.

Lemma set_terminal_emits tid st : allow KStatus = true -> emits (R := R) (Q := Q) (set_terminal tid st) (within allow).
Proof. intros A. unfold set_terminal. emits HP. by apply within_one. Qed.

Lemma ack_emits mid : allow KAck = true -> emits (R := R) (Q := Q) (ack mid) (within allow).
Proof.
  intros A s r s'. unfold ack. destruct (Streams.ack mid (queue s)) as [x q]. intros [= <- <-].
  exists [AckCalled mid x]. split; [done|]. by apply within_one.
Qed.

Lemma runtime_thread_emits tid : emits (R := R) (Q := Q) (runtime_thread w tid) (within allow).
Proof. unfold runtime_thread. emits HP. Qed.

Lemma process_graph_emits m a t :
  allow KEvent = true -> allow KGraph = true -> (a = true -> allow KAck = true) -> emits (R := R) (Q := Q) (process_graph w m a t) (within allow).
Proof.
  intros A1 A2 A3. unfold process_graph. emits HP; try (by apply publish_emits); try (by apply within_one).
  by apply ack_emits, A3.
Qed.

Lemma ack_terminal_replay_emits m st rc :
  allow KEvent = true -> allow KPublished = true -> allow KBreakdown = true -> allow KAck = true ->
  emits (R := R) (Q := Q) (ack_terminal_replay w m st rc) (within allow).
Proof.
  intros A1 A2 A3 A4. unfold ack_terminal_replay.
  emits HP; auto using auto_publish_emits, handle_vehicle_breakdown_emits, publish_terminal_emits, ack_emits.
Qed.

Lemma complete_task_emits m st r :
  allow KEvent = true -> allow KPublished = true -> allow KBreakdown = true -> allow KAck = true ->
  allow KStatus = true -> allow KTerminal = true -> emits (R := R) (Q := Q) (complete_task w m st r) (within allow).
Proof.
  intros A1 A2 A3 A4 A5 A6. unfold complete_task.
  emits HP; auto using auto_publish_emits, handle_vehicle_breakdown_emits, publish_terminal_emits, ack_emits,
    mark_runtime_terminal_emits, set_terminal_emits, publish_runtime_terminal_emits.
Qed.

Lemma execute_task_emits m st :
  allow KEvent = true -> allow KGraph = true -> allow KPublished = true -> allow KBreakdown = true -> allow KAck = true ->
  allow KStatus = true -> allow KTerminal = true -> emits (R := R) (Q := Q) (execute_task w m st) (within allow).
Proof.
  intros A1 A2 A3 A4 A5 A6 A7. unfold execute_task.
  emits HP; auto using runtime_thread_emits, process_graph_emits, complete_task_emits.
Qed.
End worker_traces.

(** *** Every acknowledgement is licensed by a terminal status *)
Definition licenses (tid : string) (e : effect) : Prop :=
  match e with
  | StatusSet t st => t = tid /\ Idempotency.is_terminal_status st = true
  | Decided d => Idempotency.dec_task_id d = tid /\ Idempotency.state d = Idempotency.TERMINAL /\
      exists st, Idempotency.existing_status d = Some st /\ Idempotency.is_terminal_status st = true
  | _ => False
  end.

(** Each effect of kind [k] comes after one with [lic]. *)
Definition preceded (lic : effect -> Prop) (k : effect_kind) (new : list effect) : Prop :=
  forall a e b, new = a ++ e :: b -> kind_of e = k -> exists l, l ∈ a /\ lic l.
Definition justified (tid : string) : list effect -> Prop := preceded (licenses tid) KAck.

Definition without (k : effect_kind) (k' : effect_kind) : bool := negb (bool_decide (k' = k)).
Definition any_kind (k : effect_kind) : bool := true.

Lemma app_split {A} (x y a b : list A) e : x ++ y = a ++ e :: b ->
  (exists b', x = a ++ e :: b' /\ b = b' ++ y) \/ (exists a', a = x ++ a' /\ y = a' ++ e :: b).
Proof.
  revert a. induction x as [|c x IH]; intros a E; simpl in *; [right; by exists a|].
  destruct a as [|c' a]; simpl in *.
  - injection E as -> <-. left. by exists x.
  - injection E as -> E. destruct (IH a E) as [(b' & -> & ->)|(a' & -> & ->)]; [left; by exists b'|right; by exists a'].
Qed.

Lemma preceded_licensed lic k x y : (exists l, l ∈ x /\ lic l) -> preceded lic k x -> preceded lic k (x ++ y).
Proof.
  intros (l & Hl & L) J a e b [(b' & -> & _)|(a' & -> & _)]%app_split K; [by eapply J|].
  exists l. split; [apply elem_of_app; by left|done].
Qed.

Lemma preceded_additive lic k : additive (preceded lic k).
Proof.
  split; [intros [|??] ??; discriminate|]. intros x y Jx Jy a e b [(b' & -> & _)|(a' & -> & E)]%app_split K; [by eapply Jx|].
  destruct (Jy _ _ _ E K) as (l & Hl & L). exists l. split; [apply elem_of_app; by right|done].
Qed.

Lemma without_preceded lic k new : within (without k) new -> preceded lic k new.
Proof.
  intros W a e b -> K. apply Forall_app in W as [_ W]. apply Forall_cons in W as [W _]. unfold without in W.
  rewrite bool_decide_eq_true_2 in W; done.
Qed.

(** A positive answer goes with a successful acknowledgement of this message. *)
Definition acks (m : StreamMessage) (r : result WorkerProcessResult) (new : list effect) : Prop :=
  forall res, r = Ok res -> acknowledged res = true -> AckCalled (message_id m) (Ok 1) ∈ new.

Section acknowledgement.
Context {R Q : Type} `{LockClient R, StreamClient Q} (w : worker).
Implicit Types m : StreamMessage.

Lemma does_both {A} (a : Act (R := R) (Q := Q) A) (P P' : result A -> list effect -> Prop) :
  does a P -> does a P' -> does a (fun r x => P r x /\ P' r x).
Proof.
  intros D D' s r s' E. destruct (D _ _ _ E) as (x & T & X), (D' _ _ _ E) as (x' & T' & X').
  assert (x = x') as -> by (apply (app_inv_head (trace s)); congruence). by exists x'.
Qed.

Lemma acks_bind {A} m (a : Act (R := R) (Q := Q) A) f :
  emits a (within any_kind) -> (forall x, does (f x) (acks m)) -> does (bind_action a f) (acks m).
Proof.
  intros E F. apply (does_bind _ _ _ (fun _ => acks m) _ E F).
  - intros x n r y _ Y res -> T. apply elem_of_app. right. by apply (Y res).
  - intros e n _ res [=].
Qed.

Lemma acks_ret m res : acknowledged res = false -> does (R := R) (Q := Q) (ret_action res) (acks m).
Proof. intros F. apply does_ret. intros res' [= <-]. congruence. Qed.

Lemma acks_final m (g : bool -> WorkerProcessResult) :
  (forall b, acknowledged (g b) = b) ->
  does (R := R) (Q := Q) (bind_action (ack (message_id m)) (fun acked => ret_action (g acked))) (acks m).
Proof.
  intros G s x s'. unfold bind_action, ack. destruct (Streams.ack (message_id m) (queue s)) as [[n|e] q]; intros [= <- <-].
  - exists [AckCalled (message_id m) (Ok n)]. split; [done|]. intros res [= <-] T. rewrite G in T. apply Z.eqb_eq in T as ->. left.
  - exists [AckCalled (message_id m) (Err e)]. split; [done|]. intros res [=].
Qed.

(** What an action returns, whatever it does. *)
Definition returns {A} (a : Act (R := R) (Q := Q) A) (P : A -> Prop) : Prop := forall s x s', a s = (Ok x, s') -> P x.

Lemma returns_bind {A B} (a : Act (R := R) (Q := Q) A) (f : A -> Act B) P : (forall x, returns (f x) P) -> returns (bind_action a f) P.
Proof. intros F s x s' [(y & s1 & _ & E)|(e & _ & [=])]%bind_action_inv. by apply (F y _ _ _ E). Qed.

Lemma returns_bind_value {A B} (a : Act (R := R) (Q := Q) A) (f : A -> Act B) P P' :
  returns a P -> (forall x, P x -> returns (f x) P') -> returns (bind_action a f) P'.
Proof. intros D F s x s' [(y & s1 & E1 & E)|(e & _ & [=])]%bind_action_inv. apply (F y (D _ _ _ E1) _ _ _ E). Qed.

Lemma returns_ret {A} (x : A) (P : A -> Prop) : P x -> returns (ret_action x) P.
Proof. intros Hx s y s' [= <- <-]. done. Qed.

Lemma process_graph_unacked m t : returns (process_graph w m false t) (fun res => acknowledged res = false).
Proof.
  unfold process_graph. apply returns_bind; intros _. apply returns_bind; intros _. apply returns_bind; intros [f|]; [|apply returns_bind; intros _; by apply returns_ret].
  destruct (terminal_state f) as [[[st|] manual] code].
  - apply returns_bind_value with (P := fun b => b = false); [by apply returns_ret|]. intros b ->. by apply returns_ret.
  - apply returns_bind; intros []; [by apply returns_ret|]. apply returns_bind; intros _. by apply returns_ret.
Qed.

Lemma does_value {A} (a : Act (R := R) (Q := Q) A) P P' : emits a P -> returns a P' -> does a (fun r x => P x /\ forall v, r = Ok v -> P' v).
Proof. intros E V s r s' X. destruct (E _ _ _ X) as (x & T & Y). exists x. split; [done|]. split; [done|]. intros v ->. by apply (V _ _ _ X). Qed.

Lemma ack_terminal_replay_acks m st rc : does (ack_terminal_replay (R := R) (Q := Q) w m st rc) (acks m).
Proof.
  unfold ack_terminal_replay. apply acks_bind; [by apply auto_publish_emits|intros [e|]; [by apply acks_ret|]].
  apply acks_bind; [by apply handle_vehicle_breakdown_emits|intros [e|]; [by apply acks_ret|]].
  apply acks_bind; [by apply publish_terminal_emits|intros _]. by apply acks_final.
Qed.

Lemma acks_bind_value {A} m (a : Act (R := R) (Q := Q) A) f P :
  emits a (within any_kind) -> returns a P -> (forall x, P x -> does (f x) (acks m)) -> does (bind_action a f) (acks m).
Proof.
  intros E V F s r s' [(x & s1 & E1 & E2)|(e & E1 & ->)]%bind_action_inv.
  - destruct (E _ _ _ E1) as (n1 & T1 & _). destruct (F x (V _ _ _ E1) _ _ _ E2) as (n2 & T2 & Y).
    exists (n1 ++ n2). rewrite T2, T1, app_assoc. split; [done|]. intros res -> T. apply elem_of_app. right. by apply (Y res).
  - destruct (E _ _ _ E1) as (n1 & T1 & _). exists n1. split; [done|]. intros res [=].
Qed.

Lemma complete_task_acks m st r : acknowledged r = false -> does (complete_task (R := R) (Q := Q) w m st r) (acks m).
Proof.
  intros U. unfold complete_task. destruct (terminal_status r) as [status|].
  2: { apply acks_bind; [by apply publish_terminal_emits|intros _]. by apply acks_ret. }
  destruct (negb _); [apply acks_bind; [by apply publish_terminal_emits|intros _]; by apply acks_ret|].
  apply acks_bind; [by apply mark_runtime_terminal_emits|intros outcome].
  destruct outcome; try (by apply acks_ret);
    (apply acks_bind; [by apply set_terminal_emits|intros _]);
    (apply acks_bind; [by apply auto_publish_emits|intros [e|]; [by apply acks_ret|]]);
    (apply acks_bind; [by apply handle_vehicle_breakdown_emits|intros [e|]; [by apply acks_ret|]]);
    (apply acks_bind; [by apply publish_runtime_terminal_emits|intros _]);
    (apply acks_bind; [by apply publish_terminal_emits|intros _]); by apply acks_final.
Qed.

Lemma execute_task_acks m st : does (execute_task (R := R) (Q := Q) w m st) (acks m).
Proof.
  unfold execute_task. apply acks_bind.
  { emits (within_additive any_kind); auto using runtime_thread_emits. }
  intros [thread|]; [|by apply acks_ret].
  eapply acks_bind_value; [by apply process_graph_emits|apply process_graph_unacked|]. intros r U. by apply complete_task_acks.
Qed.

Lemma process_locked_acks m : does (process_locked (R := R) (Q := Q) w m) (acks m).
Proof.
  unfold process_locked. apply acks_bind; [apply emits_on_ledger, within_additive|intros d].
  apply acks_bind; [by apply emits_emit, within_one|intros _].
  destruct (Idempotency.state d).
  - apply acks_bind; [apply emits_on_ledger, within_additive|intros _].
    apply acks_bind; [by apply emits_emit, within_one|intros _]. apply execute_task_acks.
  - apply acks_bind; [apply emits_read, within_additive|intros rc]. destruct (Idempotency.rc_is_terminal rc); [|apply execute_task_acks].
    apply acks_bind; [by apply mark_runtime_terminal_emits|intros o].
    destruct o; try (by apply acks_ret); (apply acks_bind; [by apply set_terminal_emits|intros _]);
      (apply acks_bind; [by apply publish_runtime_terminal_emits|intros _]); apply ack_terminal_replay_acks.
  - apply acks_bind; [by apply mark_runtime_terminal_emits|intros o].
    destruct o; try (by apply acks_ret); (apply acks_bind; [by apply publish_runtime_terminal_emits|intros _]); apply ack_terminal_replay_acks.
Qed.
End acknowledgement.

Section licensing.
Context {R Q : Type} `{LockClient R, StreamClient Q} (w : worker).

Section preceded.
Context (lic : effect -> Prop) (k : effect_kind).

Lemma preceded_bind {A B} (a : Act (R := R) (Q := Q) A) (f : A -> Act B) :
  emits a (within (without k)) -> (forall x, emits (f x) (preceded lic k)) -> emits (bind_action a f) (preceded lic k).
Proof.
  intros E F. apply (emits_bind _ (preceded_additive lic k)); [|done].
  apply (does_impl _ _ _ E). intros r x. apply without_preceded.
Qed.

Lemma preceded_bind_value {A B} (a : Act (R := R) (Q := Q) A) (f : A -> Act B) P :
  emits a (within (without k)) -> returns a P -> (forall x, P x -> emits (f x) (preceded lic k)) -> emits (bind_action a f) (preceded lic k).
Proof.
  intros E V F s r s' [(x & s1 & E1 & E2)|(e & E1 & ->)]%bind_action_inv; destruct (E _ _ _ E1) as (n1 & T1 & N1).
  - destruct (F x (V _ _ _ E1) _ _ _ E2) as (n2 & T2 & Y). exists (n1 ++ n2). rewrite T2, T1, app_assoc. split; [done|].
    apply preceded_additive; [by apply without_preceded|done].
  - exists n1. split; [done|by apply without_preceded].
Qed.

(** Once a license is in the trace, anything may follow. *)
Lemma licensed_bind {A B} (a : Act (R := R) (Q := Q) A) (f : A -> Act B) :
  does a (fun r new => within (without k) new /\ forall v, r = Ok v -> exists e, e ∈ new /\ lic e) ->
  (forall x, emits (f x) (within any_kind)) -> emits (bind_action a f) (preceded lic k).
Proof.
  intros D F. apply (does_bind _ _ _ (fun _ _ => within any_kind) _ D F).
  - intros v x r y [N L] _. apply preceded_licensed; [exact (L v eq_refl)|by apply without_preceded].
  - intros e x [N _]. by apply without_preceded.
Qed.

Lemma preceded_ret {A} (x : A) : emits (R := R) (Q := Q) (ret_action x) (preceded lic k).
Proof. apply emits_ret, preceded_additive. Qed.
End preceded.

Lemma set_terminal_licenses (lic : effect -> Prop) k tid st :
  without k KStatus = true -> lic (StatusSet tid st) ->
  does (set_terminal (R := R) (Q := Q) tid st) (fun r new => within (without k) new /\ forall v, r = Ok v -> exists e, e ∈ new /\ lic e).
Proof.
  intros K T s r s'. unfold set_terminal, bind_action, on_ledger. destruct (Idempotency.mark_terminal tid st (ledger s)) as [[u|e] l]; intros [= <- <-].
  - exists [StatusSet tid st]. split; [done|]. split; [by apply within_one|]. intros v _. exists (StatusSet tid st). split; [left|done].
  - exists []. rewrite app_nil_r. split; [done|]. split; [constructor|by intros v [=]].
Qed.

Lemma approved_or_review_terminal st : is_approved_or_review (Some st) = true -> Idempotency.is_terminal_status st = true.
Proof.
  unfold is_approved_or_review, Idempotency.is_terminal_status. rewrite !one_of_true.
  intros [->|[->|[]%not_elem_of_nil]%elem_of_cons]%elem_of_cons; unfold Idempotency.TERMINAL_STATUSES; set_solver.
Qed.

Lemma complete_task_justified m st r : emits (complete_task (R := R) (Q := Q) w m st r) (justified (task_id (task m))).
Proof.
  unfold justified, complete_task. destruct (terminal_status r) as [status|].
  2: { apply preceded_bind; [by apply publish_terminal_emits|intros _; apply preceded_ret]. }
  destruct (is_approved_or_review (Some status)) eqn:T; cbn [negb].
  2: { apply preceded_bind; [by apply publish_terminal_emits|intros _; apply preceded_ret]. }
  apply preceded_bind; [by apply mark_runtime_terminal_emits|intros o].
  destruct o; [|apply preceded_ret| |];
    (apply licensed_bind; [apply set_terminal_licenses; [done|split; [done|by apply approved_or_review_terminal]]|]; intros _; emits (within_additive any_kind);
     auto using auto_publish_emits, handle_vehicle_breakdown_emits, publish_terminal_emits, ack_emits, publish_runtime_terminal_emits).
Qed.

Lemma execute_task_justified m st : emits (execute_task (R := R) (Q := Q) w m st) (justified (task_id (task m))).
Proof.
  unfold justified, execute_task. apply preceded_bind; [emits (within_additive (without KAck)); auto using runtime_thread_emits|].
  intros [thread|]; [|apply preceded_ret].
  apply preceded_bind; [by apply process_graph_emits|intros r; apply complete_task_justified].
Qed.

Lemma begin_licenses m :
  returns (on_ledger (Idempotency.begin (env w) (begin_request (task m)))) (fun d : Idempotency.IdempotencyDecision =>
    Idempotency.state d = Idempotency.TERMINAL -> licenses (task_id (task m)) (Decided d)) (R := R) (Q := Q).
Proof.
  intros s d s'. unfold on_ledger. destruct (Idempotency.begin _ _ (ledger s)) as [r l] eqn:B. intros [= -> _].
  assert (D : forall x t, Idempotency.existing x (task_id (task m)) (idempotency_key (task m)) = Ok (Some t) ->
    Idempotency.state (Idempotency.decision t) = Idempotency.TERMINAL -> licenses (task_id (task m)) (Decided (Idempotency.decision t))).
  { intros x t (_ & T & _)%Idempotency.existing_some. simpl. destruct (Idempotency.is_terminal_status (Idempotency.t_status t)) eqn:St; [|done].
    intros _. split; [done|]. split; [done|]. by exists (Idempotency.t_status t). }
  unfold Idempotency.begin in B. simpl in B.
  destruct (Idempotency.existing (ledger s) _ _) as [[t|]|e] eqn:X; [injection B as <- <-; by apply (D (ledger s))| |done].
  destruct (RuntimeThreads.thread_id_for_persisted_task _); [|done].
  destruct (Idempotency.insert_ledger _ _ _); [injection B as <- <-; intros [=]|].
  destruct (Idempotency.existing (env w (ledger s)) _ _) as [[t|]|e'] eqn:X1; [|done|done]. injection B as <- <-. by apply (D (env w (ledger s))).
Qed.

Lemma licensed_emit {B} tid d (f : unit -> Act (R := R) (Q := Q) B) :
  licenses tid (Decided d) -> (forall x, emits (f x) (within any_kind)) -> emits (bind_action (emit (Decided d)) f) (justified tid).
Proof.
  intros L F. apply licensed_bind; [|done]. apply does_emit. split; [by apply within_one|]. intros v _. exists (Decided d). split; [left|done].
Qed.

Lemma process_locked_justified m : emits (process_locked (R := R) (Q := Q) w m) (justified (task_id (task m))).
Proof.
  unfold justified, process_locked. apply preceded_bind_value with (1 := emits_on_ledger _ (within_additive (without KAck)) _) (2 := begin_licenses m). intros d L.
  destruct (Idempotency.state d).
  - apply preceded_bind; [by apply emits_emit, within_one|intros _].
    apply preceded_bind; [apply emits_on_ledger, within_additive|intros _].
    apply preceded_bind; [by apply emits_emit, within_one|intros _]. apply execute_task_justified.
  - apply preceded_bind; [by apply emits_emit, within_one|intros _].
    apply preceded_bind; [apply emits_read, within_additive|intros rc].
    destruct (Idempotency.rc_is_terminal rc) eqn:T; [|apply execute_task_justified].
    assert (St : Idempotency.is_terminal_status (or_else (Idempotency.rc_terminal_status rc) "COMPLETED") = true).
    { unfold Idempotency.rc_is_terminal in T. destruct (Idempotency.rc_terminal_status rc) as [st|]; [|done].
      simpl. destruct (String.eqb st ""); [done|]. by apply approved_or_review_terminal. }
    apply preceded_bind; [by apply mark_runtime_terminal_emits|intros o].
    destruct o; [|apply preceded_ret| |]; (apply licensed_bind; [by apply set_terminal_licenses|intros _]);
      emits (within_additive any_kind); auto using ack_terminal_replay_emits, publish_runtime_terminal_emits.
  - apply licensed_emit; [by apply L|intros _]. emits (within_additive any_kind);
      auto using ack_terminal_replay_emits, publish_runtime_terminal_emits, mark_runtime_terminal_emits.
Qed.
End licensing.

(** ** Messages under the lock *)
Section locked.
Context {R Q : Type} `{LockClient R, StreamClient Q} (w : worker) (token : string) (ticks : list (R -> R)).

Lemma releasing_does {A} ttl h (a : Act (R := R) (Q := Q) A) (P : result A -> list effect -> Prop) :
  does a P -> (forall r e x, P r x -> P (Err e) x) -> does (releasing ticks ttl h a) P.
Proof.
  intros D I s r s'. unfold releasing. destruct (a s) as [x s1] eqn:E. destruct (D _ _ _ E) as (new & T & X).
  unfold on_lock. cbn [ledger redis queue trace]. destruct (RedisLock.release h _) as [[b|e] z]; intros [= <- <-]; exists new; split; eauto.
Qed.

Lemma process_message_does m ttl (P : result WorkerProcessResult -> list effect -> Prop) :
  idempotency_service w = true -> execution_lock w = Some ttl ->
  does (process_locked (R := R) (Q := Q) w m) P -> (forall r e x, P r x -> P (Err e) x) -> (forall e, P (Err e) []) ->
  (forall res, acknowledged res = false -> P (Ok res) []) ->
  does (process_message (R := R) (Q := Q) w token ticks m) P.
Proof.
  intros S L D I Pe Pr. unfold process_message. rewrite S, L. intros s r s' E.
  apply bind_action_inv in E as [(h & s1 & E1 & E2)|(e & E1 & ->)]; unfold on_lock in E1;
    destruct (RedisLock.acquire _ _ _ (redis s)) as [x z] eqn:A in E1; injection E1 as -> <-.
  - destruct (negb (acquired h)).
    + injection E2 as <- <-. exists []. rewrite app_nil_r. split; [done|]. by apply Pr.
    + by apply (releasing_does ttl h _ P D I) in E2.
  - exists []. rewrite app_nil_r. split; [done|apply Pe].
Qed.

Lemma process_message_justified m ttl :
  idempotency_service w = true -> execution_lock w = Some ttl ->
  does (process_message (R := R) (Q := Q) w token ticks m) (fun r new => justified (task_id (task m)) new /\ acks m r new).
Proof.
  intros S L. apply (process_message_does m ttl); [done|done| | | |].
  - apply does_both; [apply process_locked_justified|apply process_locked_acks].
  - intros r e x [J _]. split; [done|]. intros res [=].
  - intros e. split; [apply preceded_additive|]. intros res [=].
  - intros res F. split; [apply preceded_additive|]. intros res' [= <-]. congruence.
Qed.

(** A ledger that knows the task as terminal answers so. *)
Lemma begin_terminal l t env m :
  Idempotency.existing l (task_id (task m)) (idempotency_key (task m)) = Ok (Some t) ->
  Idempotency.is_terminal_status (Idempotency.t_status t) = true ->
  exists d, Idempotency.begin env (begin_request (task m)) l = (Ok d, l) /\ Idempotency.state d = Idempotency.TERMINAL.
Proof.
  intros E T. exists (Idempotency.decision t). unfold Idempotency.begin. simpl. rewrite E. simpl. by rewrite T.
Qed.

Definition no_work (k : effect_kind) : bool := negb (bool_decide (k = KGraph)) && negb (bool_decide (k = KStatus)).

Lemma process_locked_no_work m s t r s' :
  Idempotency.existing (ledger s) (task_id (task m)) (idempotency_key (task m)) = Ok (Some t) ->
  Idempotency.is_terminal_status (Idempotency.t_status t) = true ->
  process_locked (R := R) (Q := Q) w m s = (r, s') -> exists new, trace s' = trace s ++ new /\ within no_work new.
Proof.
  intros E T. destruct (begin_terminal _ _ (env w) m E T) as (d & B & D). unfold process_locked, bind_action at 1, on_ledger at 1.
  rewrite B, D. intros X.
  assert (Em : emits (R := R) (Q := Q) (do _ <- emit (Decided d);
     do outcome <- mark_runtime_terminal w (task_id (task m)) (or_else (Idempotency.existing_status d) "COMPLETED") None;
     match outcome with
     | ThreadMissing => ret_action (runtime_terminal_failure m Idempotency.TERMINAL)
     | _ => do _ <- publish_runtime_terminal w outcome; ack_terminal_replay w m (Idempotency.existing_status d) false
     end)%action (within no_work)).
  { emits (within_additive no_work); auto using within_one, mark_runtime_terminal_emits, publish_runtime_terminal_emits, ack_terminal_replay_emits. }
  exact (Em _ _ _ X).
Qed.
End locked.

(** ** Recovery *)
Section recovery.
Context {R Q : Type} `{LockClient R, StreamClient Q} (w : worker).
Context (dumps : pyval -> string) (utf8 : string -> bool) (stream dlq timestamp token : string) (ticks : list (R -> R)).

Lemma move_to_dlq_emits allow m count : allow KDead = true -> emits (move_to_dlq (R := R) (Q := Q) dumps utf8 stream dlq timestamp m count) (within allow).
Proof.
  intros A s r s'. unfold move_to_dlq. destruct (Streams.move_to_dlq _ _ _ _ _ _ _ _ _ (queue s)) as [x q]. intros [= <- <-].
  exists [DeadLettered (message_id m) x]. split; [done|]. by apply within_one.
Qed.

(** With a ledger, the dead letter comes after the status is set. *)
Lemma dead_letter_preceded m count :
  idempotency_service w = true ->
  emits (dead_letter (R := R) (Q := Q) w dumps utf8 stream dlq timestamp m count) (preceded (eq (StatusSet (task_id (task m)) "DLQ")) KDead).
Proof.
  intros S. unfold dead_letter. apply preceded_bind; [by apply mark_runtime_terminal_emits|intros o].
  rewrite S. destruct o; [|apply preceded_ret| |]; (apply licensed_bind; [by apply set_terminal_licenses|intros _]);
    emits (within_additive any_kind); auto using publish_runtime_terminal_emits, publish_emits, move_to_dlq_emits.
Qed.

Definition no_execution (k : effect_kind) : bool :=
  negb (bool_decide (k = KGraph)) && negb (bool_decide (k = KDecided)) && negb (bool_decide (k = KAck)).

Lemma dead_letter_no_execution m count :
  emits (dead_letter (R := R) (Q := Q) w dumps utf8 stream dlq timestamp m count) (within no_execution).
Proof.
  unfold dead_letter. emits (within_additive no_execution);
    auto using publish_runtime_terminal_emits, publish_emits, move_to_dlq_emits, mark_runtime_terminal_emits, set_terminal_emits.
Qed.

(** The answer "moved to the dead-letter stream" goes with the dead letter. *)
Definition moved (m : StreamMessage) (r : result WorkerProcessResult) (new : list effect) : Prop :=
  forall res, r = Ok res -> moved_to_dlq res = true ->
    acknowledged res = true /\ terminal_status res = Some "DLQ"%string /\ exists i, DeadLettered (message_id m) (Ok i) ∈ new.

Lemma moved_bind {A} m (a : Act (R := R) (Q := Q) A) f :
  emits a (within any_kind) -> (forall x, does (f x) (moved m)) -> does (bind_action a f) (moved m).
Proof.
  intros E F. apply (does_bind _ _ _ (fun _ => moved m) _ E F).
  - intros v x r y _ Y res -> T. destruct (Y res eq_refl T) as (H1 & H2 & i & Hi). split; [done|]. split; [done|].
    exists i. apply elem_of_app. by right.
  - intros e x _ res [=].
Qed.

Lemma moved_ret m res : moved_to_dlq res = false -> does (R := R) (Q := Q) (ret_action res) (moved m).
Proof. intros F. apply does_ret. intros res' [= <-]. congruence. Qed.

Lemma moved_final m count res :
  acknowledged res = true -> terminal_status res = Some "DLQ"%string ->
  does (R := R) (Q := Q) (bind_action (move_to_dlq dumps utf8 stream dlq timestamp m count) (fun _ => ret_action res)) (moved m).
Proof.
  intros A T s r s'. unfold bind_action, move_to_dlq. destruct (Streams.move_to_dlq _ _ _ _ _ _ _ _ _ (queue s)) as [[i|e] q]; intros [= <- <-].
  - eexists. split; [reflexivity|]. intros res' [= <-] _. split; [done|]. split; [done|]. exists i. left.
  - eexists. split; [reflexivity|]. intros res' [=].
Qed.

Lemma dead_letter_moved m count : does (dead_letter (R := R) (Q := Q) w dumps utf8 stream dlq timestamp m count) (moved m).
Proof.
  unfold dead_letter. apply moved_bind; [by apply mark_runtime_terminal_emits|intros o].
  destruct o; [|by apply moved_ret| |]; (apply moved_bind; [destruct (idempotency_service w); [by apply set_terminal_emits|apply emits_ret, within_additive]|intros _]);
    (apply moved_bind; [by apply publish_runtime_terminal_emits|intros _]);
    (apply moved_bind; [by apply publish_emits|intros _]); by apply moved_final.
Qed.

Lemma execution_is_active_emits m allow : emits (execution_is_active (R := R) (Q := Q) w token m) (within allow).
Proof. unfold execution_is_active. emits (within_additive allow). Qed.
End recovery.

(** ** The lock around a message *)
Lemma release_frees {R} `{RedisLock.LockClientLaws R} h (r r' : R) b :
  acquired h = true -> RedisLock.release h r = (Ok b, r') ->
  RedisLock.client_get r' (handle_key h) <> Some (handle_token h).
Proof.
  intros A E. destruct (RedisLock.compare_spec h _ _ RedisLock.release r (Ok b) r' (fun s => eq_refl) E) as (_ & K & C).
  destruct (C b eq_refl A) as [-> D]. destruct (decide (RedisLock.client_get r (handle_key h) = Some (handle_token h))) as [G|G].
  - rewrite D by (by apply bool_decide_eq_true_2). done.
  - by rewrite (K G).
Qed.

(** ** Refinement: the life cycle of a task

    The specification of what the worker may do to a task: create it PENDING,
    start it, give it a terminal status. *)
Inductive life_step : option string -> option string -> Prop :=
| life_create : life_step None (Some "PENDING"%string)
| life_start : life_step (Some "PENDING"%string) (Some "PROCESSING"%string)
| life_finish st st' : Idempotency.is_terminal_status st' = true -> life_step (Some st) (Some st').

Definition status_of (l : Idempotency.ledger) (tid : string) : option string := Idempotency.t_status <$> Idempotency.by_task l tid.

(** Every task's status is moved by steps of its life cycle, or not at all. *)
Definition refines (l l' : Idempotency.ledger) : Prop := forall tid, rtc life_step (status_of l tid) (status_of l' tid).

Definition ledger_refines {A} (m : action Idempotency.ledger A) : Prop := forall l r l', m l = (r, l') -> refines l l'.

(** The collaborators keep to the life cycle of the tasks. *)
Record lawful (w : worker) : Prop := {
  lawful_env : forall l, refines l (env w l);
  lawful_reconciler : forall f t, runtime_thread_reconciler w = Some f -> ledger_refines (f t);
  lawful_graph : forall i, ledger_refines (ainvoke w i);
  lawful_adapter : forall f i, event_adapter w = Some f -> ledger_refines (f i);
  lawful_new : forall g t i, runtime_runner w = Some g -> ledger_refines (run_new g t i);
  lawful_resume : forall g t k, runtime_runner w = Some g -> ledger_refines (resume g t k);
  lawful_publication : forall f tid, publish_automatically w = Some f -> ledger_refines (f tid);
  lawful_breakdown : forall f t, handle_approved_breakdown w = Some f -> ledger_refines (f t);
}.

#[export] Instance refines_preorder : PreOrder refines.
Proof. split; [intros l tid; reflexivity|intros l1 l2 l3 H1 H2 tid; by transitivity (status_of l2 tid)]. Qed.

(** Terminal statuses are final up to other terminal statuses. *)
Lemma life_terminal st o : rtc life_step (Some st) o -> Idempotency.is_terminal_status st = true ->
  exists st', o = Some st' /\ Idempotency.is_terminal_status st' = true.
Proof.
  intros R. remember (Some st) as x eqn:E. revert st E. induction R as [x|x y z S R IH]; intros st -> T; [by exists st|].
  inversion S; subst; [discriminate T|by apply (IH st')].
Qed.

Lemma mark_status tid st a b l l' : Idempotency.mark tid st a b l = (Ok tt, l') ->
  is_Some (status_of l tid) /\ status_of l' tid = Some st /\ forall tid', tid' <> tid -> status_of l' tid' = status_of l tid'.
Proof.
  intros (N & _ & Ht & _)%Idempotency.mark_ok. unfold status_of. destruct (Idempotency.by_task l tid) as [t|] eqn:E; [|done].
  split; [by eexists|]. rewrite Ht, E. simpl. pose proof (Idempotency.by_task_some _ _ _ E) as [_ ->]. rewrite String.eqb_refl. split; [done|].
  intros tid' Nt. rewrite Ht. destruct (Idempotency.by_task l tid') as [t'|] eqn:E'; [|done]. simpl.
  pose proof (Idempotency.by_task_some _ _ _ E') as [_ ->]. by destruct (String.eqb_spec tid' tid).
Qed.

Lemma mark_terminal_refines tid st : Idempotency.is_terminal_status st = true -> ledger_refines (Idempotency.mark_terminal tid st).
Proof.
  intros T l r l' E. destruct r as [[]|e].
  - apply mark_status in E as ((st0 & S0) & S & O). intros tid'. destruct (decide (tid' = tid)) as [->|N]; [|by rewrite O].
    rewrite S0, S. by apply rtc_once, life_finish.
  - unfold Idempotency.mark_terminal, Idempotency.mark in E. destruct (Idempotency.by_task l tid); [done|]. injection E as _ <-. reflexivity.
Qed.

Lemma insert_refines l rq thread l' : Idempotency.insert_ledger l rq thread = Ok l' ->
  status_of l' (Idempotency.b_task_id rq) = Some "PENDING"%string /\ refines l l'.
Proof.
  unfold Idempotency.insert_ledger. destruct (Idempotency.task_accepted l (Idempotency.new_task l rq)) eqn:A; [|done].
  intros (rt1 & _ & H)%result_bind_ok. apply result_bind_ok in H as (rt2 & _ & [= <-]).
  unfold Idempotency.task_accepted in A. results. simpl in *. destruct (Idempotency.by_task l (Idempotency.b_task_id rq)) eqn:B; [done|].
  assert (F : forall ts tid, List.find (fun t => String.eqb (Idempotency.t_task_id t) tid) (ts ++ [Idempotency.new_task l rq]) =
    match List.find (fun t => String.eqb (Idempotency.t_task_id t) tid) ts with
    | Some t => Some t
    | None => if String.eqb (Idempotency.b_task_id rq) tid then Some (Idempotency.new_task l rq) else None
    end).
  { induction ts as [|t ts IH]; intros tid; simpl; [done|]. by destruct (String.eqb _ tid). }
  assert (S : forall tid, status_of (Idempotency.with_runtime l (Idempotency.tasks l ++ [Idempotency.new_task l rq]) rt2 (Idempotency.next_task l + 1)) tid =
    match status_of l tid with Some st => Some st | None => if String.eqb (Idempotency.b_task_id rq) tid then Some "PENDING"%string else None end).
  { intros tid. unfold status_of, Idempotency.by_task. cbn [Idempotency.tasks Idempotency.with_runtime]. rewrite F.
    by destruct (List.find _ (Idempotency.tasks l)); [|destruct (String.eqb _ tid)]. }
  split; [rewrite S; unfold status_of; by rewrite B, String.eqb_refl|].
  intros tid. rewrite S. destruct (status_of l tid); [done|]. destruct (String.eqb _ tid); [|done]. apply rtc_once, life_create.
Qed.

Lemma begin_refines e rq l d l' : (forall l, refines l (e l)) -> Idempotency.begin e rq l = (d, l') ->
  refines l l' /\ (forall x, d = Ok x -> Idempotency.state x = Idempotency.NEW -> status_of l' (Idempotency.b_task_id rq) = Some "PENDING"%string).
Proof.
  intros Le. unfold Idempotency.begin.
  assert (D : forall t x, Ok (Idempotency.decision t) = Ok x -> Idempotency.state x = Idempotency.NEW -> False)
    by (intros t x [= <-]; apply Idempotency.decision_not_new).
  destruct (Idempotency.existing l _ _) as [[t|]|e0]; [intros [= <- <-]; split; [done|]; intros x X N; by destruct (D t x X N)| |by intros [= <- <-]].
  destruct (RuntimeThreads.thread_id_for_persisted_task _) as [thread|e0]; [|by intros [= <- <-]].
  destruct (Idempotency.insert_ledger (e l) rq thread) as [l2|e0] eqn:I.
  - intros [= <- <-]. apply insert_refines in I as [P I]. split; [by transitivity (e l)|]. by intros x _ _.
  - destruct (Idempotency.existing (e l) _ _) as [[t|]|e1]; intros [= <- <-]; split; try done. intros x X N. by destruct (D t x X N).
Qed.

Section refinement.
Context {R Q : Type} `{LockClient R, StreamClient Q} (w : worker) (L : lawful w).

Definition keeps {A} (a : Act (R := R) (Q := Q) A) : Prop := forall s r s', a s = (r, s') -> refines (ledger s) (ledger s').

Lemma keeps_bind {A B} (a : Act (R := R) (Q := Q) A) (f : A -> Act B) : keeps a -> (forall x, keeps (f x)) -> keeps (bind_action a f).
Proof.
  intros K F s r s' [(x & s1 & E1 & E2)|(e & E1 & _)]%bind_action_inv; [|by apply (K _ _ _ E1)].
  transitivity (ledger s1); [by apply (K _ _ _ E1)|by apply (F x _ _ _ E2)].
Qed.

Lemma keeps_ret {A} (x : A) : keeps (ret_action x).
Proof. intros s r s' [= <- <-]. reflexivity. Qed.

Lemma keeps_guarded {A} (a h : Act (R := R) (Q := Q) A) : keeps a -> keeps h -> keeps (guarded a h).
Proof.
  intros K F s r s'. unfold guarded, catch_action. destruct (a s) as [[x|e] s1] eqn:E; [intros [= <- <-]; by apply (K _ _ _ E)|].
  destruct (is_exception e); [intros E2|intros [= <- <-]; by apply (K _ _ _ E)].
  transitivity (ledger s1); [by apply (K _ _ _ E)|by apply (F _ _ _ E2)].
Qed.

Lemma keeps_on_ledger {A} (m : action Idempotency.ledger A) : ledger_refines m -> keeps (on_ledger m).
Proof. intros M s r s'. unfold on_ledger. destruct (m (ledger s)) as [x l] eqn:E. intros [= <- <-]. by apply (M _ _ _ E). Qed.

(** Whatever leaves the ledger alone. *)
Lemma keeps_still {A} (a : Act (R := R) (Q := Q) A) : (forall s, ledger (a s).2 = ledger s) -> keeps a.
Proof. intros F s r s' E. specialize (F s). rewrite E in F. simpl in F. rewrite F. reflexivity. Qed.

Lemma keeps_emit e : keeps (emit e).
Proof. by apply keeps_still. Qed.
Lemma keeps_read {A} (f : Idempotency.ledger -> A) : keeps (read f).
Proof. by apply keeps_still. Qed.
Lemma keeps_ack mid : keeps (ack mid).
Proof. apply keeps_still. intros s. unfold ack. by destruct (Streams.ack mid (queue s)). Qed.
Lemma keeps_on_lock {A} (m : action R A) : keeps (on_lock m).
Proof. apply keeps_still. intros s. unfold on_lock. by destruct (m (redis s)). Qed.
Lemma keeps_move_to_dlq a b c d e m n : keeps (move_to_dlq a b c d e m n).
Proof. apply keeps_still. intros s. unfold move_to_dlq. by destruct (Streams.move_to_dlq _ _ _ _ _ _ _ _ _ (queue s)). Qed.

Lemma on_threads_refines {A} (m : action RuntimeThreads.store A) : ledger_refines (on_threads m).
Proof. intros l r l'. unfold on_threads. destruct (m (Idempotency.runtime l)). intros [= _ <-] tid. reflexivity. Qed.

Lemma ledger_refines_bind {A B} (m : action Idempotency.ledger A) (f : A -> action Idempotency.ledger B) :
  ledger_refines m -> (forall a, ledger_refines (f a)) -> ledger_refines (bind_action m f).
Proof.
  intros M F l r l' [(a & l1 & E1 & E2)|(e & E1 & _)]%bind_action_inv; [|by apply (M _ _ _ E1)].
  transitivity l1; [by apply (M _ _ _ E1)|by apply (F a _ _ _ E2)].
Qed.

Lemma ledger_refines_ret {A} (a : A) : ledger_refines (ret_action a).
Proof. intros l r l' [= <- <-]. reflexivity. Qed.
Lemma ledger_refines_raise {A} (e : exn) : ledger_refines (A := A) (raise_action e).
Proof. intros l r l' [= <- <-]. reflexivity. Qed.

Lemma execute_graph_refines m t : ledger_refines (execute_graph w m t).
Proof.
  unfold execute_graph. destruct (runtime_runner w) as [g|] eqn:G.
  2: { destruct (event_broker w); [|apply L]. destruct (event_adapter w) eqn:A; [by apply (lawful_adapter _ L)|apply L]. }
  destruct t as [t|].
  2: { destruct (event_broker w); [|apply L]. destruct (event_adapter w) eqn:A; [by apply (lawful_adapter _ L)|apply L]. }
  apply ledger_refines_bind; [intros l r l' [= <- <-]; reflexivity|intros _].
  destruct (RuntimeThreads.current_checkpoint_id t) as [c|]; [|by apply (lawful_new _ L)].
  apply ledger_refines_bind; [|intros t'; by apply (lawful_resume _ L)].
  unfold claim_for_resume. destruct (bool_decide _); [|apply ledger_refines_ret].
  destruct (runtime_thread_repository w), (RuntimeThreads.next_node t); try apply ledger_refines_raise. apply on_threads_refines.
Qed.
End refinement.

Ltac keeps_step :=
  match goal with
  | |- keeps (bind_action _ _) => apply keeps_bind; [|intros ?]
  | |- keeps (ret_action _) => apply keeps_ret
  | |- keeps (guarded _ _) => apply keeps_guarded
  | |- keeps (emit _) => apply keeps_emit
  | |- keeps (read _) => apply keeps_read
  | |- keeps (ack _) => apply keeps_ack
  | |- keeps (on_lock _) => apply keeps_on_lock
  | |- keeps (on_ledger _) => apply keeps_on_ledger
  | |- keeps (match ?x with _ => _ end) => destruct x eqn:?
  | |- keeps (let '_ := ?x in _) => destruct x eqn:?
  end.
(** Walk through an action; what is left are unknown calls. *)
Ltac keeps := repeat keeps_step.

Section life_cycle.
Context {R Q : Type} `{LockClient R, StreamClient Q} (w : worker) (L : lawful w).

Lemma keeps_publish tid ty st : keeps (R := R) (Q := Q) (publish w tid ty st).
Proof. unfold publish. keeps. Qed.
Lemma keeps_publish_terminal tid r : keeps (R := R) (Q := Q) (publish_terminal w tid r).
Proof. unfold publish_terminal. keeps; apply keeps_publish. Qed.
Lemma keeps_publish_runtime_terminal o : keeps (R := R) (Q := Q) (publish_runtime_terminal w o).
Proof. unfold publish_runtime_terminal. keeps. Qed.
Lemma keeps_mark_runtime_terminal tid st code : keeps (R := R) (Q := Q) (mark_runtime_terminal w tid st code).
Proof. unfold mark_runtime_terminal. keeps. apply on_threads_refines. Qed.
Lemma keeps_set_terminal tid st : Idempotency.is_terminal_status st = true -> keeps (R := R) (Q := Q) (set_terminal tid st).
Proof. intros T. unfold set_terminal. keeps. by apply mark_terminal_refines. Qed.
Lemma keeps_auto_publish tid st : keeps (R := R) (Q := Q) (auto_publish w tid st).
Proof. unfold auto_publish. keeps. by apply (lawful_publication w L). Qed.
Lemma keeps_handle_vehicle_breakdown t st : keeps (R := R) (Q := Q) (handle_vehicle_breakdown w t st).
Proof. unfold handle_vehicle_breakdown. keeps. by apply (lawful_breakdown w L). Qed.

Create HintDb life.
#[local] Hint Resolve keeps_publish keeps_publish_terminal keeps_publish_runtime_terminal keeps_mark_runtime_terminal : life.
#[local] Hint Resolve keeps_set_terminal keeps_auto_publish keeps_handle_vehicle_breakdown execute_graph_refines : life.

Lemma keeps_process_graph m a t : keeps (R := R) (Q := Q) (process_graph w m a t).
Proof. unfold process_graph. keeps; auto with life. Qed.
Lemma keeps_runtime_thread tid : keeps (R := R) (Q := Q) (runtime_thread w tid).
Proof. unfold runtime_thread. keeps. by apply (lawful_reconciler w L). Qed.
Lemma keeps_ack_terminal_replay m st rc : keeps (R := R) (Q := Q) (ack_terminal_replay w m st rc).
Proof. unfold ack_terminal_replay. keeps; auto with life. Qed.

Lemma keeps_complete_task m st r : keeps (R := R) (Q := Q) (complete_task w m st r).
Proof.
  unfold complete_task. destruct (terminal_status r) as [status|]; [|keeps; auto with life].
  destruct (is_approved_or_review (Some status)) eqn:T; cbn [negb]; [|keeps; auto with life].
  apply approved_or_review_terminal in T. keeps; auto with life.
Qed.

#[local] Hint Resolve keeps_process_graph keeps_runtime_thread keeps_ack_terminal_replay keeps_complete_task : life.

Lemma keeps_execute_task m st : keeps (R := R) (Q := Q) (execute_task w m st).
Proof. unfold execute_task. keeps; auto with life. Qed.

#[local] Hint Resolve keeps_execute_task : life.

Lemma reconciled_terminal rc : Idempotency.rc_is_terminal rc = true ->
  Idempotency.is_terminal_status (or_else (Idempotency.rc_terminal_status rc) "COMPLETED") = true.
Proof.
  unfold Idempotency.rc_is_terminal. destruct (Idempotency.rc_terminal_status rc) as [st|]; [|done].
  simpl. destruct (String.eqb st ""); [done|]. by apply approved_or_review_terminal.
Qed.

(** The one step that is only right because of the decision: a NEW task is PENDING. *)
Lemma keeps_started tid (s s' : world R Q) r : status_of (ledger s) tid = Some "PENDING"%string ->
  on_ledger (Idempotency.mark_processing tid) s = (r, s') -> refines (ledger s) (ledger s').
Proof.
  intros P. unfold on_ledger. destruct (Idempotency.mark_processing tid (ledger s)) as [x l] eqn:E. intros [= _ <-]. cbn [ledger].
  unfold Idempotency.mark_processing in E. destruct x as [[]|e].
  - apply mark_status in E as (_ & S & O). intros tid'. destruct (decide (tid' = tid)) as [->|N]; [|by rewrite O].
    rewrite P, S. apply rtc_once, life_start.
  - unfold Idempotency.mark in E. destruct (Idempotency.by_task (ledger s) tid); [done|]. injection E as _ <-. reflexivity.
Qed.

Lemma keeps_process_locked m : keeps (R := R) (Q := Q) (process_locked w m).
Proof.
  intros s r s' E. unfold process_locked in E. apply bind_action_inv in E as [(d & s1 & E1 & E2)|(e & E1 & ->)].
  2: { unfold on_ledger in E1. destruct (Idempotency.begin _ _ (ledger s)) as [x l] eqn:B. injection E1 as -> <-.
       by apply (begin_refines _ _ _ _ _ (lawful_env w L)) in B as [B _]. }
  unfold on_ledger in E1. destruct (Idempotency.begin _ _ (ledger s)) as [x l] eqn:B. injection E1 as -> <-.
  apply (begin_refines _ _ _ _ _ (lawful_env w L)) in B as [B P]. transitivity l; [done|].
  unfold bind_action at 1, emit at 1 in E2. set (s1 := {| ledger := l |}) in E2. cbn [ledger redis queue trace] in E2.
  destruct (Idempotency.state d) eqn:D.
  - apply bind_action_inv in E2 as [(u & s2 & E2 & E3)|(e & E2 & ->)].
    + apply keeps_started in E2; [|exact (P d eq_refl D)]. transitivity (ledger s2); [exact E2|].
      revert E3. apply keeps_bind; [apply keeps_emit|intros _; auto with life].
    + apply keeps_started in E2; [exact E2|exact (P d eq_refl D)].
  - revert E2. apply keeps_bind; [apply keeps_read|intros rc]. destruct (Idempotency.rc_is_terminal rc) eqn:T; [|auto with life].
    apply reconciled_terminal in T. apply keeps_bind; [auto with life|intros o]. keeps; auto with life.
  - revert E2. apply keeps_bind; [auto with life|intros o]. keeps; auto with life.
Qed.

Lemma keeps_process_message token ticks m : keeps (R := R) (Q := Q) (process_message w token ticks m).
Proof.
  assert (U : keeps (R := R) (Q := Q) (process_unlocked w m)) by (unfold process_unlocked; keeps; auto with life).
  unfold process_message. destruct (idempotency_service w); [|done]. destruct (execution_lock w) as [ttl|]; [|done].
  apply keeps_bind; [apply keeps_on_lock|intros h]. destruct (negb (acquired h)); [apply keeps_ret|].
  intros s r s'. unfold releasing. destruct (process_locked w m s) as [x s1] eqn:E. apply keeps_process_locked in E. revert E.
  unfold on_lock. cbn [ledger redis queue trace]. destruct (RedisLock.release h _) as [[b|e] z]; by intros E [= _ <-].
Qed.

Lemma keeps_recover_message dumps utf8 stream dlq timestamp token ticks m :
  keeps (R := R) (Q := Q) (recover_message w dumps utf8 stream dlq timestamp token ticks m).
Proof.
  unfold recover_message, execution_is_active, dead_letter. keeps; auto using keeps_move_to_dlq, keeps_process_message with life.
Qed.

Lemma keeps_batch process (ms : list StreamMessage) : (forall m, keeps (R := R) (Q := Q) (process m)) -> keeps (process_batch process ms).
Proof. intros K. induction ms as [|m ms IH]; simpl; keeps; auto. Qed.

Lemma keeps_on_queue {A} (a : action Q A) : keeps (R := R) (on_queue a).
Proof. apply keeps_still. intros s. unfold on_queue. by destruct (a (queue s)). Qed.

Lemma keeps_polled reading process : (forall m, keeps (R := R) (Q := Q) (process m)) -> keeps (polled reading process).
Proof.
  intros K. unfold polled. apply keeps_bind; [apply keeps_on_queue|intros _]. apply keeps_bind; [|intros ms; by apply keeps_batch].
  intros s r s' E. unfold catch_action in E. destruct (on_queue reading s) as [[ms|e] s1] eqn:P; apply keeps_on_queue in P; [by injection E as _ <-|].
  destruct (String.eqb (exn_class e) "QueueMessageError"); by injection E as _ <-.
Qed.
End life_cycle.

#[local] Existing Instances RedisLock.redis_client RedisLock.redis_laws Streams.server_client Streams.server_laws.

(** *** A worker for the witnesses

    It shares a lock server and a stream with others; its graph approves every task. *)
Definition ex_approved : pydict := [("audit_result", PDict [("audit_status", PStr "APPROVED")])]%string.
Definition ex_worker : worker :=
  {| consumer_name := "worker-1";
     retry_policy := {| Streams.max_delivery_attempts := 3; Streams.base_delay_ms := 1000; Streams.max_delay_ms := 60000 |};
     idempotency_service := true; execution_lock := Some 30000; event_broker := true; runtime_thread_repository := true;
     runtime_thread_reconciler := None; ainvoke := fun _ => ret_action ex_approved; event_adapter := None; runtime_runner := None;
     publish_automatically := Some (fun _ => ret_action tt); handle_approved_breakdown := None; env := id; store_env := id; now := 100 |}.
Definition ex_world (l : Idempotency.ledger) : world RedisLock.redis Streams.stream_server :=
  {| ledger := l; redis := RedisLock.ex_server; queue := Streams.ex_stream; trace := [] |}.
Definition ex_process := process_message (R := RedisLock.redis) (Q := Streams.stream_server) ex_worker "token" [id; id] Streams.ex_delivery.
Definition ex_recover := recover_message (R := RedisLock.redis) (Q := Streams.stream_server) ex_worker (fun _ => "{}"%string) (fun _ => true)
  "tasks" "dlq" "2026-01-01T00:00:00+00:00" "token" [id; id] Streams.ex_delivery.
(** The world after the message was processed once. *)
Definition ex_done : world RedisLock.redis Streams.stream_server := (ex_process (ex_world Idempotency.ex_ledger)).2.

Lemma ex_worker_lawful : lawful ex_worker.
Proof.
  split; simpl; try discriminate; [reflexivity|intros; apply ledger_refines_ret|].
  intros f tid [= <-]. apply ledger_refines_ret.
Qed.

(** ** Properties *)

(** C7: A delivered message is acknowledged only once its outcome is durable:
    every acknowledgement follows a terminal status of its task, written in
    this very processing or found in the ledger, whatever the graph, the
    publication and the queue do and wherever processing fails; and an answer
    that claims the message was acknowledged goes with a successful
    acknowledgement of it. *)
Theorem worker_acks_durable_outcomes {R Q : Type} `{LockClient R, StreamClient Q} (w : worker) (ttl : Z) (token : string)
    (ticks : list (R -> R)) (m : StreamMessage) (s s' : world R Q) (r : result WorkerProcessResult) :
  idempotency_service w = true -> execution_lock w = Some ttl -> process_message w token ticks m s = (r, s') ->
  exists new, trace s' = trace s ++ new /\
    (forall before mid x after, new = before ++ AckCalled mid x :: after -> exists l, l ∈ before /\ licenses (task_id (task m)) l) /\
    (forall res, r = Ok res -> acknowledged res = true -> AckCalled (message_id m) (Ok 1) ∈ new).
Proof.
  intros S L E. destruct (process_message_justified w token ticks m ttl S L _ _ _ E) as (new & T & J & A).
  exists new. split; [done|]. split; [|exact A]. intros before mid x after ->. by apply (J before (AckCalled mid x) after).
Qed.

Lemma worker_acks_durable_outcomes_witness :
  exists res s', ex_process (ex_world Idempotency.ex_ledger) = (Ok res, s') /\ terminal_status res = Some "APPROVED"%string /\
    AckCalled "1-0" (Ok 1) ∈ trace s'.
Proof.
  assert (V : match ex_process (ex_world Idempotency.ex_ledger) with
    | (Ok res, _) => terminal_status res = Some "APPROVED"%string /\ acknowledged res = true | _ => False end) by (vm_compute; split; reflexivity).
  destruct (ex_process (ex_world Idempotency.ex_ledger)) as [[res|e] s'] eqn:E; [|destruct V]. destruct V as [V1 V2].
  exists res, s'. split; [reflexivity|]. split; [exact V1|].
  destruct (worker_acks_durable_outcomes ex_worker 30000 "token" [id; id] Streams.ex_delivery _ _ _ eq_refl eq_refl E) as (new & T & _ & A).
  rewrite T. exact (A res eq_refl V2).
Defined.

(** A task with a terminal status is never executed again: a redelivery of
    its message starts no graph and sets no status, whatever happens. *)
Theorem worker_never_reexecutes {R Q : Type} `{LockClient R, StreamClient Q} (w : worker) (ttl : Z) (token : string)
    (ticks : list (R -> R)) (m : StreamMessage) (s s' : world R Q) (r : result WorkerProcessResult) (t : Idempotency.DispatchTask) :
  idempotency_service w = true -> execution_lock w = Some ttl ->
  Idempotency.existing (ledger s) (task_id (task m)) (idempotency_key (task m)) = Ok (Some t) ->
  Idempotency.is_terminal_status (Idempotency.t_status t) = true ->
  process_message w token ticks m s = (r, s') ->
  exists new, trace s' = trace s ++ new /\
    (forall tid, GraphStarted tid ∉ new) /\ (forall tid st, StatusSet tid st ∉ new).
Proof.
  intros S L X T E. unfold process_message in E. rewrite S, L in E.
  assert (N : exists new, trace s' = trace s ++ new /\ within no_work new).
  { apply bind_action_inv in E as [(h & s1 & E1 & E2)|(e & E1 & ->)]; unfold on_lock in E1;
      destruct (RedisLock.acquire _ _ _ (redis s)) as [x z] in E1; injection E1 as -> <-.
    2: { exists []. rewrite app_nil_r. split; [done|constructor]. }
    destruct (negb (acquired h)); [injection E2 as <- <-; exists []; rewrite app_nil_r; split; [done|constructor]|].
    unfold releasing in E2. destruct (process_locked w m _) as [y s2] eqn:P.
    apply (process_locked_no_work w m _ t) in P as (new & Tn & Wn); [|done|done]. exists new. split; [|done].
    unfold on_lock in E2. cbn [ledger redis queue trace] in E2. destruct (RedisLock.release h _) as [[b|e] z'] in E2; by injection E2 as <- <-. }
  destruct N as (new & Tn & Wn). exists new. split; [done|]. unfold within in Wn. rewrite Forall_forall in Wn.
  split; [intros tid Hin|intros tid st Hin]; by apply Wn in Hin.
Qed.

Lemma worker_never_reexecutes_witness :
  exists r s' new, ex_process ex_done = (r, s') /\ trace s' = trace ex_done ++ new /\ GraphStarted "t1" ∈ trace ex_done /\ (forall tid, GraphStarted tid ∉ new).
Proof.
  assert (X : match Idempotency.existing (ledger ex_done) "t1" "k1" with
    | Ok (Some t) => Idempotency.is_terminal_status (Idempotency.t_status t) = true | _ => False end) by (vm_compute; reflexivity).
  assert (G : existsb (fun e => match e with GraphStarted t => String.eqb t "t1" | _ => false end) (trace ex_done) = true) by (vm_compute; reflexivity).
  destruct (Idempotency.existing (ledger ex_done) "t1" "k1") as [[t|]|] eqn:Ex; [|destruct X|destruct X].
  destruct (ex_process ex_done) as [r s'] eqn:E.
  destruct (worker_never_reexecutes ex_worker 30000 "token" [id; id] Streams.ex_delivery _ _ _ t eq_refl eq_refl Ex X E) as (new & T & N & _).
  exists r, s', new. split; [reflexivity|]. split; [exact T|]. split; [|exact N].
  apply existsb_exists in G as (e & He & Ge). destruct e; try discriminate Ge. apply String.eqb_eq in Ge. subst. by apply list_elem_of_In.
Defined.

(** A message whose delivery attempts are exhausted is never executed:
    unless a worker holds its lock, its task is set to DLQ before
    the dead letter is written, no graph runs and it is not acknowledged by any
    other way; the answer "moved" goes with a written dead letter. *)
Theorem recovery_exhausted_dead_letters {R Q : Type} `{LockClient R, StreamClient Q} (w : worker)
    (dumps : pyval -> string) (utf8 : string -> bool) (stream dlq timestamp token : string) (ticks : list (R -> R))
    (m : StreamMessage) (count : Z) (s s' : world R Q) (r : result WorkerProcessResult) :
  idempotency_service w = true -> delivery_count m = Some count -> Streams.max_delivery_attempts (retry_policy w) <= count ->
  recover_message w dumps utf8 stream dlq timestamp token ticks m s = (r, s') ->
  exists new, trace s' = trace s ++ new /\
    (forall tid, GraphStarted tid ∉ new) /\ (forall mid x, AckCalled mid x ∉ new) /\
    (forall before mid x after, new = before ++ DeadLettered mid x :: after -> StatusSet (task_id (task m)) "DLQ" ∈ before) /\
    (forall res, r = Ok res -> moved_to_dlq res = true ->
       acknowledged res = true /\ terminal_status res = Some "DLQ"%string /\ exists i, DeadLettered (message_id m) (Ok i) ∈ new).
Proof.
  intros S C M E. unfold recover_message in E. rewrite C in E. unfold Streams.should_retry in E.
  rewrite (proj2 (Z.ltb_ge _ _)) in E by done. cbn [negb] in E.
  set (a := bind_action (execution_is_active w token m) _) in E.
  assert (D1 : emits a (within no_execution)).
  { subst a. emits (within_additive no_execution); auto using execution_is_active_emits, dead_letter_no_execution. }
  assert (D2 : emits a (preceded (eq (StatusSet (task_id (task m)) "DLQ")) KDead)).
  { subst a. apply preceded_bind; [apply execution_is_active_emits|intros []; [apply preceded_ret|by apply dead_letter_preceded]]. }
  assert (D3 : does a (moved m)).
  { subst a. apply moved_bind; [apply execution_is_active_emits|intros []; [by apply moved_ret|apply dead_letter_moved]]. }
  destruct (does_both _ _ _ (does_both _ _ _ D1 D2) D3 _ _ _ E) as (new & T & [W P] & V).
  exists new. split; [done|]. unfold within in W. rewrite Forall_forall in W.
  split; [intros tid Hin; by apply W in Hin|]. split; [intros mid x Hin; by apply W in Hin|]. split; [|exact V].
  intros before mid x after ->. destruct (P before (DeadLettered mid x) after eq_refl eq_refl) as (l & Hl & <-). done.
Qed.

Lemma recovery_exhausted_dead_letters_witness :
  exists r s', ex_recover (ex_world Idempotency.ex_started) = (r, s') /\ (forall tid, GraphStarted tid ∉ trace s') /\
    exists i, DeadLettered "1-0" (Ok i) ∈ trace s'.
Proof.
  assert (V : match ex_recover (ex_world Idempotency.ex_started) with (Ok res, _) => moved_to_dlq res = true | _ => False end) by (vm_compute; reflexivity).
  destruct (ex_recover (ex_world Idempotency.ex_started)) as [[res|e] s'] eqn:E; [|destruct V]. exists (Ok res), s'. split; [reflexivity|].
  destruct (recovery_exhausted_dead_letters ex_worker (fun _ => "{}"%string) (fun _ => true) "tasks" "dlq" "2026-01-01T00:00:00+00:00" "token" [id; id]
    Streams.ex_delivery 3 _ _ _ eq_refl eq_refl (Z.le_refl 3) E) as (new & T & N & _ & _ & M).
  simpl in T. rewrite T. split; [exact N|]. destruct (M res eq_refl V) as (_ & _ & D). exact D.
Defined.

(** One worker at a time.  While the lock of a message is held, processing
    it touches neither the ledger nor the queue nor anyone else, and the answer
    is LOCKED; and when processing answers, it no longer holds the
    lock - it was released on every path, failures of the graph, of the
    persistence and of the publication included. *)
Theorem worker_lock_discipline {R Q : Type} `{RedisLock.LockClientLaws R} `{StreamClient Q} (w : worker) (ttl : Z) (token : string)
    (ticks : list (R -> R)) (m : StreamMessage) (s s' : world R Q) (res : WorkerProcessResult) :
  idempotency_service w = true -> execution_lock w = Some ttl -> process_message w token ticks m s = (Ok res, s') ->
  RedisLock.client_get (redis s) (RedisLock.lock_key (idempotency_key (task m))) <> Some token ->
  RedisLock.client_get (redis s') (RedisLock.lock_key (idempotency_key (task m))) <> Some token /\
  (forall v, RedisLock.client_get (redis s) (RedisLock.lock_key (idempotency_key (task m))) = Some v ->
     ledger s' = ledger s /\ queue s' = queue s /\ trace s' = trace s /\
     res = with_lock (process_result m false (Some "LOCKED"%string) false None) None false).
Proof.
  intros S L E N. unfold process_message in E. rewrite S, L in E.
  apply bind_action_inv in E as [(h & s1 & E1 & E2)|(e & _ & [=])]. unfold on_lock in E1.
  destruct (RedisLock.acquire ttl _ token (redis s)) as [x z] eqn:A. injection E1 as -> <-.
  apply RedisLock.acquire_spec in A as (_ & Hk & Ht & Ha & Hg).
  destruct (acquired h) eqn:Ac; cbn [negb] in E2.
  - destruct (RedisLock.client_get (redis s) _) as [v|]; [done|]. split; [|done].
    unfold releasing in E2. destruct (process_locked w m _) as [y s2]. unfold on_lock in E2. cbn [ledger redis queue trace] in E2.
    destruct (RedisLock.release h _) as [[b|e] z'] eqn:Re in E2; [|done]. injection E2 as _ <-. cbn [redis].
    rewrite <- Hk, <- Ht. by apply (release_frees h _ _ b Ac Re).
  - injection E2 as <- <-. cbn [redis ledger queue trace]. destruct (RedisLock.client_get (redis s) _) as [v|] eqn:G; [|done].
    rewrite Hg. split; [done|]. intros v' _. done.
Qed.

Lemma worker_lock_discipline_witness :
  exists res s', ex_process (ex_world Idempotency.ex_ledger) = (Ok res, s') /\ acknowledged res = true /\
    RedisLock.client_get (redis s') (RedisLock.lock_key "k1") <> Some "token"%string.
Proof.
  assert (V : match ex_process (ex_world Idempotency.ex_ledger) with (Ok res, _) => acknowledged res = true | _ => False end) by (vm_compute; reflexivity).
  destruct (ex_process (ex_world Idempotency.ex_ledger)) as [[res|e] s'] eqn:E; [|destruct V]. exists res, s'. split; [reflexivity|]. split; [exact V|].
  refine (proj1 (worker_lock_discipline ex_worker 30000 "token" [id; id] Streams.ex_delivery _ _ _ eq_refl eq_refl E _)).
  vm_compute. discriminate.
Defined.

(** C1: The worker refines the life cycle of its tasks.  Whatever one polling
    round, of new messages or of pending ones, does - failures anywhere
    included - the status of every task moves by life-cycle steps only: created
    PENDING, started from PENDING, given a terminal status; so a terminal task
    stays terminal and is never processing again.  The collaborators are only
    assumed to keep to the same life cycle. *)
Theorem worker_refines_life_cycle {R Q : Type} `{LockClient R, StreamClient Q} (w : worker)
    (loads : string -> option pyval) (dumps : pyval -> string) (utf8 iso_utc : string -> bool) (stream dlq timestamp : string)
    (entries : pyval -> option (list (option (pyval * option Streams.raw_map)))) (token : string) (ticks : list (R -> R))
    (count wait idle : Z) (s s' : world R Q) (r : result (list WorkerProcessResult)) :
  lawful w ->
  run_once w loads utf8 iso_utc entries token ticks count wait s = (r, s') \/
  recover_once w loads dumps utf8 iso_utc stream dlq timestamp entries token ticks idle count s = (r, s') ->
  forall tid, rtc life_step (status_of (ledger s) tid) (status_of (ledger s') tid) /\
    (forall st, status_of (ledger s) tid = Some st -> Idempotency.is_terminal_status st = true ->
       exists st', status_of (ledger s') tid = Some st' /\ Idempotency.is_terminal_status st' = true).
Proof.
  intros L E. assert (K : refines (ledger s) (ledger s')).
  { destruct E as [E|E]; revert E; apply keeps_polled; intros m; [by apply keeps_process_message|by apply keeps_recover_message]. }
  intros tid. split; [apply K|]. intros st S T. specialize (K tid). rewrite S in K. by apply (life_terminal st).
Qed.

Lemma worker_refines_life_cycle_witness :
  exists r s', recover_once ex_worker (fun _ => None) (fun _ => "{}"%string) (fun _ => true) (fun _ => true) "tasks" "dlq" "2026-01-01T00:00:00+00:00"
      (fun _ => Some []) "token" [id] 5000 10 ex_done = (r, s') /\
    exists st, status_of (ledger s') "t1" = Some st /\ Idempotency.is_terminal_status st = true.
Proof.
  assert (S : status_of (ledger ex_done) "t1" = Some "APPROVED"%string) by (vm_compute; reflexivity).
  destruct (recover_once ex_worker (fun _ => None) (fun _ => "{}"%string) (fun _ => true) (fun _ => true) "tasks" "dlq" "2026-01-01T00:00:00+00:00"
      (fun _ => Some []) "token" [id] 5000 10 ex_done) as [r s'] eqn:E. exists r, s'. split; [reflexivity|].
  exact (proj2 (worker_refines_life_cycle ex_worker _ _ _ _ _ _ _ _ _ _ 10 0 _ _ _ _ ex_worker_lawful (or_intror E) "t1") "APPROVED"%string S eq_refl).
Defined.

(** A runtime thread can stay open for ever behind an acknowledged message:
    when persisting its terminal status fails - here another session moved the
    row in between - the failure is taken for success, the task is APPROVED,
    the message acknowledged without an error code, and the thread is still
    RUNNING; no redelivery will repair it. *)
Theorem terminal_persistence_failure_acknowledged :
  exists (e : RuntimeThreads.store -> RuntimeThreads.store) res s',
    RuntimeThreads.fair e /\
    process_message {| consumer_name := "worker-1"; retry_policy := retry_policy ex_worker; idempotency_service := true; execution_lock := Some 30000;
        event_broker := true; runtime_thread_repository := true; runtime_thread_reconciler := None; ainvoke := ainvoke ex_worker; event_adapter := None;
        runtime_runner := None; publish_automatically := None; handle_approved_breakdown := None; env := id; store_env := e; now := 100 |}
      "token" [] Streams.ex_delivery (ex_world Idempotency.ex_ledger) = (Ok res, s') /\
    acknowledged res = true /\ error_code res = None /\ status_of (ledger s') "t1" = Some "APPROVED"%string /\
    ("1-0"%string ∉ Streams.pending (queue s')) /\
    (RuntimeThreads.status <$> RuntimeThreads.thread_of_task (Idempotency.runtime (ledger s')) "t1") = Some RuntimeThreads.RUNNING.
Proof.
  exists (RuntimeThreads.interfere [RuntimeThreads.Sequence "cf:dispatch:t1" 7]).
  set (x := process_message _ _ _ _ _).
  assert (V : match x with
    | (Ok res, s') => acknowledged res = true /\ error_code res = None /\ status_of (ledger s') "t1" = Some "APPROVED"%string /\
        bool_decide ("1-0"%string ∉ Streams.pending (queue s')) = true /\
        (RuntimeThreads.status <$> RuntimeThreads.thread_of_task (Idempotency.runtime (ledger s')) "t1") = Some RuntimeThreads.RUNNING
    | _ => False end) by (vm_compute; split_and!; reflexivity).
  destruct x as [[res|?] s'] eqn:E; [|destruct V]. destruct V as (V1 & V2 & V3 & V4%bool_decide_eq_true & V5).
  exists res, s'. split; [apply RuntimeThreads.interfere_fair|]. split; [reflexivity|]. clear E. split_and!; assumption.
Qed.
