(* ===== verification/Security.v ===== *)
(** * Security: roles, permissions and principals

    Models [app/security/permissions.py] and the permission check of
    [app/security/models.py]: a fixed matrix from roles to permissions, and the
    principals the services ask [can]. *)

From S2P Require Import Prelude.

Local Open Scope list_scope.

(** ** Data *)
Inductive Role := EMPLOYEE | DISPATCHER | SUPERVISOR | OPERATOR | AUDITOR | ADMIN.
#[export] Instance Role_eq_dec : EqDecision Role.
Proof. solve_decision. Defined.

Inductive Permission :=
| DISPATCH_READ | DISPATCH_CREATE | DISPATCH_REVIEW | ORDERS_READ | ANOMALIES_READ | ANOMALIES_REPORT | AGENTS_READ
| MEMORY_READ | MEMORY_MUTATE | RUNTIME_READ | RUNTIME_OVERRIDE | AUDIT_READ | MONITOR_READ | SYSTEM_ADMIN.
#[export] Instance Permission_eq_dec : EqDecision Permission.
Proof. solve_decision. Defined.

Definition role_value (r : Role) : string :=
  match r with
  | EMPLOYEE => "EMPLOYEE" | DISPATCHER => "DISPATCHER" | SUPERVISOR => "SUPERVISOR"
  | OPERATOR => "OPERATOR" | AUDITOR => "AUDITOR" | ADMIN => "ADMIN"
  end%string.
Definition all_roles : list Role := [EMPLOYEE; DISPATCHER; SUPERVISOR; OPERATOR; AUDITOR; ADMIN].

(** [Role(value)]; a [ValueError] is [None]. *)
Definition role_of (value : string) : option Role := List.find (fun r => String.eqb (role_value r) value) all_roles.

Definition ALL_PERMISSIONS : list Permission :=
  [DISPATCH_READ; DISPATCH_CREATE; DISPATCH_REVIEW; ORDERS_READ; ANOMALIES_READ; ANOMALIES_REPORT; AGENTS_READ;
   MEMORY_READ; MEMORY_MUTATE; RUNTIME_READ; RUNTIME_OVERRIDE; AUDIT_READ; MONITOR_READ; SYSTEM_ADMIN].

(** ** The matrix *)
Definition dispatcher_permissions : list Permission :=
  [DISPATCH_READ; DISPATCH_CREATE; ORDERS_READ; ANOMALIES_READ; AGENTS_READ; MEMORY_READ].

Definition ROLE_PERMISSION_MATRIX (r : Role) : list Permission :=
  match r with
  | EMPLOYEE => [DISPATCH_READ; ANOMALIES_REPORT]
  | DISPATCHER => dispatcher_permissions
  | SUPERVISOR => dispatcher_permissions ++ [DISPATCH_REVIEW; MEMORY_MUTATE; RUNTIME_READ; RUNTIME_OVERRIDE; AUDIT_READ; MONITOR_READ]
  | OPERATOR => [AGENTS_READ; RUNTIME_READ; AUDIT_READ; MONITOR_READ]
  | AUDITOR => [MEMORY_READ; RUNTIME_READ; AUDIT_READ; MONITOR_READ]
  | ADMIN => ALL_PERMISSIONS
  end.

(** The permissions of the known roles, and the unknown values in order. *)
Fixpoint permissions_for_roles (values : list string) : list Permission * list string :=
  match values with
  | [] => ([], [])
  | v :: rest =>
      let (ps, unknown) := permissions_for_roles rest in
      match role_of v with
      | Some r => (ROLE_PERMISSION_MATRIX r ++ ps, unknown)
      | None => (ps, v :: unknown)
      end
  end.

Record AuthenticatedPrincipal := {
  subject_id : string;
  roles : list Role;
  permissions : list Permission;
}.

Definition can (p : AuthenticatedPrincipal) (perm : Permission) : bool := bool_decide (perm ∈ permissions p).

(** ** Lemmas *)
Lemma can_true p perm : can p perm = true <-> perm ∈ permissions p.
Proof. unfold can. by rewrite bool_decide_eq_true. Qed.

Lemma role_of_value r : role_of (role_value r) = Some r.
Proof. by destruct r. Qed.

Lemma role_of_some v r : role_of v = Some r -> v = role_value r.
Proof. intros [_ E]%find_some. by apply String.eqb_eq in E. Qed.

(** The permissions granted are those of the roles named, and of no other. *)
Lemma permissions_for_roles_spec values perm :
  perm ∈ (permissions_for_roles values).1 <-> exists r, role_value r ∈ values /\ perm ∈ ROLE_PERMISSION_MATRIX r.
Proof.
  induction values as [|v rest IH]; simpl.
  - split; [by intros ?%not_elem_of_nil|]. by intros (r & ?%not_elem_of_nil & _).
  - destruct (permissions_for_roles rest) as [ps unknown]. simpl in IH. destruct (role_of v) as [r|] eqn:E; simpl.
    + apply role_of_some in E as ->. rewrite elem_of_app, IH. split.
      * intros [P|(r' & M & P)]; [by exists r; split; [left|]|]. exists r'. split; [by right|done].
      * intros (r' & [M|M]%elem_of_cons & P); [|by right; exists r']. left. apply (f_equal role_of) in M. rewrite !role_of_value in M.
        by injection M as ->.
    + rewrite IH. split; intros (r & M & P); exists r; (split; [|done]); [by right|].
      apply elem_of_cons in M as [M|M]; [|done]. rewrite <- M, role_of_value in E. done.
Qed.
