(* ===== verification/Overrides.v ===== *)
(** * Overrides: human intervention on a paused graph execution

    Models [app/runtime_overrides]: the durable ledger of override requests
    ([sqlalchemy_repository.py]), the policy, the checkpoint updater, the
    service that applies a request under the boundary lock, the reconciler and
    the eligibility query.  It works on the runtime threads of RuntimeThreads
    and on the lock client of RedisLock.

    The graph engine and the checkpoint saver are third-party: they are the
    interface [CheckpointStore].  The immutable columns of a row are those of
    the command that created it.  Other sessions act on the override ledger
    within [begin_or_replay] and on the threads before a boundary is claimed
    and within a promotion; the rows of one override are written by one
    session at a time.  Generated identifiers and the clock are arguments;
    metrics and the metadata of the thread event are left out. *)

From S2P Require Import Prelude Evidence Security.
From S2P Require RuntimeThreads ThreadRunner RedisLock.
Import RedisLock(LockClient, LockHandle, acquired, handle_key, handle_token).
Import ThreadRunner(CheckpointRecord, rec_thread_id, rec_checkpoint_id, rec_parent_checkpoint_id, checkpoint_namespace, rec_state, serialized_size_bytes).

#[local] Existing Instances RuntimeThreads.RuntimeThreadStatus_eq_dec RedisLock.redis_client.

Local Open Scope Z_scope.
Local Open Scope list_scope.

(** ** Data *)
Inductive RuntimeOverrideStatus := PENDING | APPLYING | APPLIED | REJECTED | CONFLICT | PARTIAL | FAILED.
#[export] Instance RuntimeOverrideStatus_eq_dec : EqDecision RuntimeOverrideStatus.
Proof. solve_decision. Defined.

Inductive RuntimeOverrideDecision := ALLOWED | Decision_REJECTED | NEEDS_DIFFERENT_BOUNDARY.
#[export] Instance RuntimeOverrideDecision_eq_dec : EqDecision RuntimeOverrideDecision.
Proof. solve_decision. Defined.

Inductive EventStatus := EV_PENDING | EV_PUBLISHED | EV_FAILED.

Record RuntimeOverrideRequest := {
  req_idempotency_key : string;
  req_entity_type : string;
  req_entity_id : string;
  req_field : string;
  req_old_value : string;
  req_new_value : string;
  req_reason : string;
  req_expected_version : Z;
  req_expected_next_node : option string;
}.

Record RuntimeOverrideCommand := {
  override_id : string;
  idempotency_key : string;
  thread_id : string;
  entity_type : string;
  entity_id : string;
  field : string;
  old_value : string;
  new_value : string;
  reason : string;
  expected_version : Z;
  expected_next_node : option string;
  operator_id : string;
  operator_role : string;
  requested_at : Z;
}.

Definition ValueError (m : string) : exn := Exn "ValueError" m.

(** [__post_init__]: the bounds in the order of the code. *)
Definition bounded_text (c : RuntimeOverrideCommand) : list (string * string * Z) :=
  [("override_id", override_id c, 36); ("idempotency_key", idempotency_key c, 128); ("thread_id", thread_id c, 96);
   ("entity_type", entity_type c, 32); ("entity_id", entity_id c, 128); ("field", field c, 64); ("reason", reason c, 512);
   ("operator_id", operator_id c, 128); ("operator_role", operator_role c, 64)]%string.

Definition within_bounds (v : string) (limit : Z) : bool := negb (String.eqb v "") && (py_len v <=? limit).

Definition validated (c : RuntimeOverrideCommand) : result RuntimeOverrideCommand :=
  match List.find (fun x => negb (within_bounds x.1.2 x.2)) (bounded_text c) with
  | Some (name, _, limit) => Err (ValueError (name +:+ " must contain between 1 and " +:+ z_str limit +:+ " characters"))
  | None =>
      if expected_version c <? 0 then Err (ValueError "expected_version must not be negative")
      else if bool_decide (expected_next_node c = Some ""%string) then Err (ValueError "expected_next_node must be non-empty when provided")
      else Ok c
  end.

Definition fingerprint_value (c : RuntimeOverrideCommand) : pyval :=
  PDict [("thread_id", PStr (thread_id c)); ("entity_type", PStr (entity_type c)); ("entity_id", PStr (entity_id c));
         ("field", PStr (field c)); ("old_value", PStr (old_value c)); ("new_value", PStr (new_value c)); ("reason", PStr (reason c));
         ("expected_version", PInt (expected_version c)); ("expected_next_node", opt_str (expected_next_node c))]%string.

(** A row of [runtime_overrides]; its snapshot adds [replayed]. *)
Record RuntimeOverride := {
  command : RuntimeOverrideCommand;
  task_id : string;
  payload_fingerprint : string;
  intent_expires_at : Z;
  decision : option RuntimeOverrideDecision;
  status : RuntimeOverrideStatus;
  before_state_version : option Z;
  after_state_version : option Z;
  source_checkpoint_id : option string;
  result_checkpoint_id : option string;
  event_status : EventStatus;
  error_code : option string;
  error_summary : option string;
  started_at : option Z;
  completed_at : option Z;
}.

Record StoredRuntimeOverride := { item : RuntimeOverride; replayed : bool }.

Record RuntimeOverrideAttempt := {
  at_override_id : string;
  attempt_no : Z;
  operation : string;
  at_status : RuntimeOverrideStatus;
  observed_state_version : option Z;
  at_source_checkpoint_id : option string;
  at_result_checkpoint_id : option string;
  at_error_code : option string;
  at_error_summary : option string;
  timings : list (string * Q);
  at_started_at : Z;
  at_completed_at : option Z;
}.

(** The tables, rows by ascending id, with the thread ledger. *)
Record store := {
  overrides : list RuntimeOverride;
  attempts : list RuntimeOverrideAttempt;
  threads : RuntimeThreads.store;
}.

Definition IdempotencyConflict : exn := Exn "RuntimeOverrideIdempotencyConflict" "RUNTIME_OVERRIDE_IDEMPOTENCY_CONFLICT".
Definition InvalidTransition : exn := Exn "RuntimeError" "RUNTIME_OVERRIDE_INVALID_TRANSITION".
Definition ResultConflict : exn := Exn "RuntimeError" "RUNTIME_OVERRIDE_RESULT_CONFLICT".
Definition PromotionFailed : exn := RuntimeThreads.ThreadVersionConflict "Runtime override canonical promotion compare-and-swap failed.".
Definition ServiceError (code : string) : exn := Exn "RuntimeOverrideServiceError" code.

(** ** The repository *)
Definition row_id (r : RuntimeOverride) : string := override_id (command r).
Definition by_id (s : store) (oid : string) : option RuntimeOverride := List.find (fun r => String.eqb (row_id r) oid) (overrides s).
Definition by_key (s : store) (key : string) : option RuntimeOverride :=
  List.find (fun r => String.eqb (idempotency_key (command r)) key) (overrides s).
Definition required (s : store) (oid : string) : result RuntimeOverride := of_option (RuntimeThreads.LookupError oid) (by_id s oid).
Definition snapshot (r : RuntimeOverride) (replay : bool) : StoredRuntimeOverride := {| item := r; replayed := replay |}.

Definition replay (r : RuntimeOverride) (c : RuntimeOverrideCommand) (fingerprint : string) : result StoredRuntimeOverride :=
  if negb (String.eqb (operator_id (command r)) (operator_id c)) || negb (String.eqb (payload_fingerprint r) fingerprint)
  then Err IdempotencyConflict else Ok (snapshot r true).

Definition new_row (c : RuntimeOverrideCommand) (task fingerprint : string) (expires : Z) : RuntimeOverride :=
  {| command := c; task_id := task; payload_fingerprint := fingerprint; intent_expires_at := expires; decision := None;
     status := PENDING; before_state_version := None; after_state_version := None; source_checkpoint_id := None;
     result_checkpoint_id := None; event_status := EV_PENDING; error_code := None; error_summary := None;
     started_at := None; completed_at := None |}.

(** Unique [override_id] and [idempotency_key], and the thread's foreign key. *)
Definition insert_row (s : store) (r : RuntimeOverride) : result store :=
  match by_id s (row_id r), by_key s (idempotency_key (command r)), RuntimeThreads.get_by_thread_id (threads s) (thread_id (command r)) with
  | None, None, Some _ => Ok {| overrides := overrides s ++ [r]; attempts := attempts s; threads := threads s |}
  | _, _, _ => Err RuntimeThreads.IntegrityError
  end.

Definition begin_or_replay (env : store -> store) (c : RuntimeOverrideCommand) (fingerprint : string) (expires : Z)
    : action store StoredRuntimeOverride := fun s =>
  match by_key s (idempotency_key c) with
  | Some r => (replay r c fingerprint, s)
  | None =>
      match RuntimeThreads.get_by_thread_id (threads s) (thread_id c) with
      | None => (Err (RuntimeThreads.LookupError (thread_id c)), s)
      | Some t =>
          let row := new_row c (RuntimeThreads.task_id t) fingerprint expires in
          let s1 := env s in
          match insert_row s1 row with
          | Ok s2 => (Ok (snapshot row false), s2)
          | Err e => match by_key s1 (idempotency_key c) with
                     | None => (Err e, s1)
                     | Some r => (replay r c fingerprint, s1)
                     end
          end
      end
  end.

(** [max(attempt_no)], 0 when there is none. *)
Definition attempts_of (s : store) (oid : string) : list RuntimeOverrideAttempt :=
  List.filter (fun a => String.eqb (at_override_id a) oid) (attempts s).
Definition last_attempt_no (s : store) (oid : string) : Z := foldr Z.max 0 (map attempt_no (attempts_of s oid)).

(** Unique attempt number, and the override's foreign key. *)
Definition insert_attempt (s : store) (a : RuntimeOverrideAttempt) : result store :=
  match by_id s (at_override_id a), List.find (fun b => attempt_no b =? attempt_no a) (attempts_of s (at_override_id a)) with
  | Some _, None => Ok {| overrides := overrides s; attempts := attempts s ++ [a]; threads := threads s |}
  | _, _ => Err RuntimeThreads.IntegrityError
  end.

Definition new_attempt (oid : string) (n : Z) (op : string) (st : RuntimeOverrideStatus) (version : option Z) (source : option string) (started : Z)
    : RuntimeOverrideAttempt :=
  {| at_override_id := oid; attempt_no := n; operation := op; at_status := st; observed_state_version := version;
     at_source_checkpoint_id := source; at_result_checkpoint_id := None; at_error_code := None; at_error_summary := None;
     timings := []; at_started_at := started; at_completed_at := None |}.

Definition append_attempt (oid op : string) (st : RuntimeOverrideStatus) (started : Z) : action store Z := fun s =>
  match by_id s oid with
  | None => (Err (RuntimeThreads.LookupError oid), s)
  | Some _ =>
      let n := last_attempt_no s oid + 1 in
      match insert_attempt s (new_attempt oid n op st None None started) with
      | Ok s' => (Ok n, s')
      | Err e => (Err e, s)
      end
  end.

(** Writing the row of an override. *)
Definition set_row (s : store) (oid : string) (f : RuntimeOverride -> RuntimeOverride) : store :=
  {| overrides := map (fun r => if String.eqb (row_id r) oid then f r else r) (overrides s); attempts := attempts s; threads := threads s |}.
(** Writing its latest attempt, if it has one. *)
Definition set_latest_attempt (s : store) (oid : string) (f : RuntimeOverrideAttempt -> RuntimeOverrideAttempt) : store :=
  {| overrides := overrides s;
     attempts := map (fun a => if String.eqb (at_override_id a) oid && (attempt_no a =? last_attempt_no s oid) then f a else a) (attempts s);
     threads := threads s |}.

Definition row_applying (before : Z) (source : string) (started : Z) (r : RuntimeOverride) : RuntimeOverride :=
  {| command := command r; task_id := task_id r; payload_fingerprint := payload_fingerprint r; intent_expires_at := intent_expires_at r;
     decision := Some ALLOWED; status := APPLYING; before_state_version := Some before; after_state_version := after_state_version r;
     source_checkpoint_id := Some source; result_checkpoint_id := result_checkpoint_id r; event_status := event_status r;
     error_code := error_code r; error_summary := error_summary r; started_at := Some started; completed_at := completed_at r |}.
Definition row_result (c : string) (r : RuntimeOverride) : RuntimeOverride :=
  {| command := command r; task_id := task_id r; payload_fingerprint := payload_fingerprint r; intent_expires_at := intent_expires_at r;
     decision := decision r; status := status r; before_state_version := before_state_version r; after_state_version := after_state_version r;
     source_checkpoint_id := source_checkpoint_id r; result_checkpoint_id := Some c; event_status := event_status r;
     error_code := error_code r; error_summary := error_summary r; started_at := started_at r; completed_at := completed_at r |}.
Definition row_closed (st : RuntimeOverrideStatus) (d : option RuntimeOverrideDecision) (code : string) (now : Z) (r : RuntimeOverride) : RuntimeOverride :=
  {| command := command r; task_id := task_id r; payload_fingerprint := payload_fingerprint r; intent_expires_at := intent_expires_at r;
     decision := match d with Some x => Some x | None => decision r end; status := st; before_state_version := before_state_version r;
     after_state_version := after_state_version r; source_checkpoint_id := source_checkpoint_id r;
     result_checkpoint_id := result_checkpoint_id r; event_status := event_status r; error_code := Some code; error_summary := Some code;
     started_at := started_at r; completed_at := Some now |}.
Definition row_event (e : EventStatus) (r : RuntimeOverride) : RuntimeOverride :=
  {| command := command r; task_id := task_id r; payload_fingerprint := payload_fingerprint r; intent_expires_at := intent_expires_at r;
     decision := decision r; status := status r; before_state_version := before_state_version r; after_state_version := after_state_version r;
     source_checkpoint_id := source_checkpoint_id r; result_checkpoint_id := result_checkpoint_id r; event_status := e;
     error_code := error_code r; error_summary := error_summary r; started_at := started_at r; completed_at := completed_at r |}.
Definition row_applied (after now : Z) (r : RuntimeOverride) : RuntimeOverride :=
  {| command := command r; task_id := task_id r; payload_fingerprint := payload_fingerprint r; intent_expires_at := intent_expires_at r;
     decision := decision r; status := APPLIED; before_state_version := before_state_version r; after_state_version := Some after;
     source_checkpoint_id := source_checkpoint_id r; result_checkpoint_id := result_checkpoint_id r; event_status := event_status r;
     error_code := None; error_summary := None; started_at := started_at r; completed_at := Some now |}.

Definition attempt_result (c : string) (a : RuntimeOverrideAttempt) : RuntimeOverrideAttempt :=
  {| at_override_id := at_override_id a; attempt_no := attempt_no a; operation := operation a; at_status := at_status a;
     observed_state_version := observed_state_version a; at_source_checkpoint_id := at_source_checkpoint_id a;
     at_result_checkpoint_id := Some c; at_error_code := at_error_code a; at_error_summary := at_error_summary a;
     timings := timings a; at_started_at := at_started_at a; at_completed_at := at_completed_at a |}.
Definition attempt_closed (st : RuntimeOverrideStatus) (code : string) (now : Z) (a : RuntimeOverrideAttempt) : RuntimeOverrideAttempt :=
  {| at_override_id := at_override_id a; attempt_no := attempt_no a; operation := operation a; at_status := st;
     observed_state_version := observed_state_version a; at_source_checkpoint_id := at_source_checkpoint_id a;
     at_result_checkpoint_id := at_result_checkpoint_id a; at_error_code := Some code; at_error_summary := Some code;
     timings := timings a; at_started_at := at_started_at a; at_completed_at := Some now |}.
Definition attempt_applied (c : string) (now : Z) (a : RuntimeOverrideAttempt) : RuntimeOverrideAttempt :=
  {| at_override_id := at_override_id a; attempt_no := attempt_no a; operation := operation a; at_status := APPLIED;
     observed_state_version := observed_state_version a; at_source_checkpoint_id := at_source_checkpoint_id a;
     at_result_checkpoint_id := Some c; at_error_code := at_error_code a; at_error_summary := at_error_summary a;
     timings := timings a; at_started_at := at_started_at a; at_completed_at := Some now |}.
Definition attempt_timed (ts : list (string * Q)) (a : RuntimeOverrideAttempt) : RuntimeOverrideAttempt :=
  {| at_override_id := at_override_id a; attempt_no := attempt_no a; operation := operation a; at_status := at_status a;
     observed_state_version := observed_state_version a; at_source_checkpoint_id := at_source_checkpoint_id a;
     at_result_checkpoint_id := at_result_checkpoint_id a; at_error_code := at_error_code a; at_error_summary := at_error_summary a;
     timings := ts ++ List.filter (fun kv => negb (one_of kv.1 (map fst ts))) (timings a);
     at_started_at := at_started_at a; at_completed_at := at_completed_at a |}.

(** The committed row of an operation. *)
Definition written (s : store) (oid : string) : result StoredRuntimeOverride := r ← required s oid; Ok (snapshot r false).

Definition mark_applying (oid : string) (before : Z) (source : string) (started : Z) : action store StoredRuntimeOverride := fun s =>
  match required s oid with
  | Err e => (Err e, s)
  | Ok r =>
      match status r with
      | APPLYING => (Ok (snapshot r false), s)
      | PENDING =>
          match insert_attempt (set_row s oid (row_applying before source started))
                  (new_attempt oid 1 "APPLY" APPLYING (Some before) (Some source) started) with
          | Ok s' => (written s' oid, s')
          | Err e => (Err e, s)
          end
      | _ => (Err InvalidTransition, s)
      end
  end.

Definition attach_result_checkpoint (oid checkpoint : string) : action store StoredRuntimeOverride := fun s =>
  match required s oid with
  | Err e => (Err e, s)
  | Ok r =>
      if negb (bool_decide (status r = APPLYING)) then (Err InvalidTransition, s)
      else if match result_checkpoint_id r with Some c => negb (String.eqb c checkpoint) | None => false end then (Err ResultConflict, s)
      else let s' := set_latest_attempt (set_row s oid (row_result checkpoint)) oid (attempt_result checkpoint) in (written s' oid, s')
  end.

(** The common part of [finish] and [mark_partial]: an applied override is left alone. *)
Definition close (oid : string) (st : RuntimeOverrideStatus) (d : option RuntimeOverrideDecision) (code : string) (now : Z)
    : action store StoredRuntimeOverride := fun s =>
  match required s oid with
  | Err e => (Err e, s)
  | Ok r =>
      if bool_decide (status r = APPLIED) then (Ok (snapshot r false), s)
      else let s' := set_latest_attempt (set_row s oid (row_closed st d code now)) oid (attempt_closed st code now) in (written s' oid, s')
  end.

Definition finish (oid : string) (st : RuntimeOverrideStatus) (d : RuntimeOverrideDecision) (code : string) (now : Z)
    : action store StoredRuntimeOverride :=
  match st with
  | REJECTED | CONFLICT | FAILED => close oid st (Some d) code now
  | _ => raise_action (ValueError "invalid final override status")
  end.

Definition mark_partial (oid code : string) (now : Z) : action store StoredRuntimeOverride := close oid PARTIAL None code now.

Definition mark_event_status (oid : string) (e : EventStatus) : action store StoredRuntimeOverride := fun s =>
  match required s oid with
  | Err x => (Err x, s)
  | Ok _ => let s' := set_row s oid (row_event e) in (written s' oid, s')
  end.

Definition timing_names : list string :=
  ["authorization_ms"; "lock_ms"; "checkpoint_read_ms"; "state_update_ms"; "promotion_ms"; "total_ms"]%string.

Definition record_timings (oid : string) (ts : list (string * Q)) : action store unit := fun s =>
  if negb (forallb (fun kv => one_of kv.1 timing_names) ts) then (Err (ValueError "unknown runtime override timing"), s)
  else (Ok tt, set_latest_attempt s oid (attempt_timed ts)).

Definition override_promoted (t : RuntimeThreads.RuntimeThread) (checkpoint : string) (size : Z) : RuntimeThreads.RuntimeThread :=
  {| RuntimeThreads.thread_id := RuntimeThreads.thread_id t; RuntimeThreads.task_id := RuntimeThreads.task_id t;
     RuntimeThreads.status := RuntimeThreads.STABLE; RuntimeThreads.current_checkpoint_id := Some checkpoint;
     RuntimeThreads.state_version := RuntimeThreads.state_version t + 1; RuntimeThreads.current_node := RuntimeThreads.current_node t;
     RuntimeThreads.next_node := RuntimeThreads.next_node t; RuntimeThreads.checkpoint_count := RuntimeThreads.checkpoint_count t;
     RuntimeThreads.checkpoint_size_bytes := Some size; RuntimeThreads.last_event_sequence := RuntimeThreads.last_event_sequence t;
     RuntimeThreads.worker_consumer := RuntimeThreads.worker_consumer t; RuntimeThreads.resumed_count := RuntimeThreads.resumed_count t;
     RuntimeThreads.terminal_at := RuntimeThreads.terminal_at t; RuntimeThreads.row_version := RuntimeThreads.row_version t |}.

Definition applied_event (r : RuntimeOverride) (t : RuntimeThreads.RuntimeThread) (checkpoint : string) (size : Z) : RuntimeThreads.RuntimeThreadEvent :=
  {| RuntimeThreads.event_key := "override:" +:+ row_id r +:+ ":applied"; RuntimeThreads.ev_thread_id := thread_id (command r);
     RuntimeThreads.event_type := RuntimeThreads.RUNTIME_OVERRIDE_APPLIED; RuntimeThreads.ev_checkpoint_id := Some checkpoint;
     RuntimeThreads.ev_parent_checkpoint_id := source_checkpoint_id r; RuntimeThreads.ev_state_version := RuntimeThreads.state_version t + 1;
     RuntimeThreads.ev_node := RuntimeThreads.current_node t; RuntimeThreads.ev_next_node := RuntimeThreads.next_node t;
     RuntimeThreads.ev_checkpoint_size_bytes := Some size; RuntimeThreads.ev_worker_consumer := RuntimeThreads.worker_consumer t;
     RuntimeThreads.ev_error_code := None |}.

(** The compare-and-set of a promotion, on the rows as they were read. *)
Definition promotable (r : RuntimeOverride) (t : RuntimeThreads.RuntimeThread) (checkpoint : string) : bool :=
  match status r with APPLYING | PARTIAL => true | _ => false end
  && bool_decide (result_checkpoint_id r = Some checkpoint)
  && bool_decide (RuntimeThreads.status t = RuntimeThreads.OVERRIDING)
  && bool_decide (RuntimeThreads.current_checkpoint_id t = source_checkpoint_id r)
  && (RuntimeThreads.state_version t =? expected_version (command r))
  && bool_decide (RuntimeThreads.next_node t = expected_next_node (command r)).

Definition with_threads (s : store) (rt : RuntimeThreads.store) : store :=
  {| overrides := overrides s; attempts := attempts s; threads := rt |}.

(** The thread row and, unless it is there, its event: one transaction. *)
Definition commit_promotion (rt : RuntimeThreads.store) (t : RuntimeThreads.RuntimeThread) (new : RuntimeThreads.RuntimeThread)
    (existing : option RuntimeThreads.RuntimeThreadEvent) (e : RuntimeThreads.RuntimeThreadEvent) : result RuntimeThreads.store :=
  match existing with
  | Some _ => RuntimeThreads.update_row rt t new
  | None => RuntimeThreads.commit_both rt t new e
  end.

Definition promote_applied (env : RuntimeThreads.store -> RuntimeThreads.store) (oid checkpoint : string) (size now : Z)
    : action store StoredRuntimeOverride := fun s =>
  match required s oid with
  | Err e => (Err e, s)
  | Ok r =>
      if bool_decide (status r = APPLIED) then (Ok (snapshot r false), s)
      else match RuntimeThreads.get_by_thread_id (threads s) (thread_id (command r)) with
      | None => (Err (RuntimeThreads.LookupError (thread_id (command r))), s)
      | Some t =>
          if negb (promotable r t checkpoint) then (Err PromotionFailed, s)
          else
            let e := applied_event r t checkpoint size in
            let existing := RuntimeThreads.event_by_key (threads s) (thread_id (command r)) (RuntimeThreads.event_key e) in
            let rt := env (threads s) in
            match commit_promotion rt t (override_promoted t checkpoint size) existing e with
            | Ok rt' =>
                let s' := set_latest_attempt (set_row (with_threads s rt') oid (row_applied (RuntimeThreads.state_version t + 1) now))
                            oid (attempt_applied checkpoint now) in
                (written s' oid, s')
            | Err _ => (Err PromotionFailed, with_threads s rt)
            end
      end
  end.

Definition get (s : store) (oid : string) : option StoredRuntimeOverride := (fun r => snapshot r false) <$> by_id s oid.

(** Newest request first, at most 100. *)
Definition list_by_thread (s : store) (thread : string) (limit : Z) : list StoredRuntimeOverride :=
  map (fun r => snapshot r false)
    (firstn (Z.to_nat (Z.min (Z.max limit 1) 100))
       (sorted_key_desc (fun r => requested_at (command r))
          (rev (List.filter (fun r => String.eqb (thread_id (command r)) thread) (overrides s))))).

(** ** The policy *)
Definition ALLOWED_TARGET : string * string := ("Vehicle", "status")%string.
Definition ALLOWED_BOUNDARY : option string * option string := (Some "environment", Some "capacity")%string.
Definition ALLOWED_TRANSITIONS : list (string * string) :=
  [("NORMAL", "BROKEN"); ("NORMAL", "UNAVAILABLE"); ("NORMAL", "MAINTENANCE")]%string.

Record OverridePolicyResult := { verdict : RuntimeOverrideDecision; verdict_code : option string }.
Definition allowed (p : OverridePolicyResult) : bool := bool_decide (verdict p = ALLOWED).

Definition evaluate (c : RuntimeOverrideCommand) (t : RuntimeThreads.RuntimeThread) (state : pydict) : OverridePolicyResult :=
  let answer d code := {| verdict := d; verdict_code := Some code |} in
  if bool_decide (RuntimeThreads.status t = RuntimeThreads.TERMINAL) then answer Decision_REJECTED "THREAD_TERMINAL"%string
  else if negb (bool_decide (RuntimeThreads.status t = RuntimeThreads.STABLE)) then answer NEEDS_DIFFERENT_BOUNDARY "THREAD_NOT_STABLE"%string
  else if negb (bool_decide ((entity_type c, field c) = ALLOWED_TARGET)) then answer Decision_REJECTED "OVERRIDE_FIELD_NOT_ALLOWED"%string
  else if negb (bool_decide ((RuntimeThreads.current_node t, RuntimeThreads.next_node t) = ALLOWED_BOUNDARY))
    then answer NEEDS_DIFFERENT_BOUNDARY "THREAD_NOT_STABLE"%string
  else if match expected_next_node c with Some n => negb (bool_decide (RuntimeThreads.next_node t = Some n)) | None => false end
    then answer NEEDS_DIFFERENT_BOUNDARY "RUNTIME_NEXT_NODE_CONFLICT"%string
  else if negb (bool_decide ((old_value c, new_value c) ∈ ALLOWED_TRANSITIONS)) then answer Decision_REJECTED "OVERRIDE_VALUE_INVALID"%string
  else if negb (ThreadRunner.equals_str (Evidence.get state "vehicle_id") (entity_id c)) then answer Decision_REJECTED "RUNTIME_STATE_PRECONDITION_FAILED"%string
  else if negb (ThreadRunner.equals_str (Evidence.get state "vehicle_status") (old_value c)) then answer Decision_REJECTED "RUNTIME_STATE_PRECONDITION_FAILED"%string
  else {| verdict := ALLOWED; verdict_code := None |}.

(** ** Checkpoints *)

(** The graph engine over its checkpoint saver; the saver's tuple is given as the
    record [_to_record] makes of it. *)
Class CheckpointStore (C : Type) := {
  aget_tuple : C -> string -> string -> result (option CheckpointRecord);
  (** source, patch, node, task id; the answer's [configurable.get("checkpoint_id")] *)
  aupdate_state : CheckpointRecord -> pydict -> string -> string -> action C pyval;
  (** the next nodes at a configuration *)
  aget_state : pyval -> action C (list string);
}.

(** [RedisRuntimeCheckpointStore.get_exact]: whatever the saver raises is one
    error, and another checkpoint than the one asked for is none. *)
Definition get_exact {C} `{CheckpointStore C} (c : C) (thread checkpoint : string) : result (option CheckpointRecord) :=
  match aget_tuple c thread checkpoint with
  | Err _ => Err ThreadRunner.RuntimeCheckpointStoreError
  | Ok None => Ok None
  | Ok (Some r) => Ok (if String.eqb (rec_checkpoint_id r) checkpoint then Some r else None)
  end.

Definition changed_keys (a b : pydict) : gset string :=
  list_to_set (List.filter (fun k => negb (py_eq (Evidence.get a k) (Evidence.get b k))) (map fst a ++ map fst b)).

Definition same_value (a b : pydict) (k : string) : bool := py_eq (Evidence.get b k) (Evidence.get a k).

Record UpdatedCheckpoint := { record : CheckpointRecord; next_nodes : list string }.

(** [_validate]: the first failing check, in the order of the code. *)
Definition validate (max_bytes : Z) (source res : CheckpointRecord) (nodes : list string) (patch : pydict) (next : string) : result unit :=
  if negb (String.eqb (rec_thread_id res) (rec_thread_id source)) then Err (ValueError "CHECKPOINT_THREAD_MISMATCH")
  else if negb (String.eqb (checkpoint_namespace res) (checkpoint_namespace source)) || negb (String.eqb (checkpoint_namespace res) "")
    then Err (ValueError "CHECKPOINT_NAMESPACE_MISMATCH")
  else if negb (bool_decide (rec_parent_checkpoint_id res = Some (rec_checkpoint_id source))) then Err (ValueError "CHECKPOINT_ANCESTRY_MISMATCH")
  else if negb (bool_decide (nodes = [next])) then Err (ValueError "RUNTIME_NEXT_NODE_CONFLICT")
  else if negb (same_value (rec_state source) (rec_state res) "last_completed_node") then Err (ValueError "CHECKPOINT_NODE_MISMATCH")
  else if negb (same_value (rec_state source) (rec_state res) "completed_node_count") then Err (ValueError "CHECKPOINT_COUNT_MISMATCH")
  else if negb (bool_decide (changed_keys (rec_state source) (rec_state res) = list_to_set (map fst patch))) then Err (ValueError "STATE_DIFF_NOT_ALLOWED")
  else if negb (forallb (fun kv => py_eq (Evidence.get (rec_state res) kv.1) kv.2) patch) then Err (ValueError "STATE_DIFF_NOT_ALLOWED")
  else if negb (json_serializable (PDict (rec_state res))) then Err (ValueError "CHECKPOINT_STATE_NOT_JSON_SERIALIZABLE")
  else if max_bytes <? serialized_size_bytes res then Err (ValueError "CHECKPOINT_PAYLOAD_TOO_LARGE")
  else Ok tt.

Section service.
Context {R C : Type} `{LockClient R, CheckpointStore C}.

Definition read_checkpoint (thread checkpoint : string) : action C (option CheckpointRecord) := fun c => (get_exact c thread checkpoint, c).

(** [LangGraphStateUpdater.update]. *)
Definition update (max_bytes : Z) (source : CheckpointRecord) (patch : pydict) (as_node next oid : string) : action C UpdatedCheckpoint :=
  if negb (bool_decide (list_to_set (map fst patch) =@{gset string} {["vehicle_status"%string]})) then raise_action (ValueError "STATE_DIFF_NOT_ALLOWED")
  else
    (do cid <- aupdate_state source patch as_node oid;
     match text_of cid with
     | None => raise_action (ValueError "RESULT_CHECKPOINT_ID_MISSING")
     | Some c =>
         do r <- read_checkpoint (rec_thread_id source) c;
         match r with
         | None => raise_action (ValueError "RESULT_CHECKPOINT_MISSING")
         | Some r =>
             do nodes <- aget_state cid;
             match validate max_bytes source r nodes patch next with
             | Err e => raise_action e
             | Ok _ => ret_action {| record := r; next_nodes := nodes |}
             end
         end
     end)%action.

(** ** The service *)

(** What the service is constructed with. *)
Record service := {
  max_checkpoint_bytes : Z;
  lock_ttl : Z;
  intent_ttl : Z;
  event_publisher : option (string -> string -> result unit);   (* the broker's answer, by override and type *)
}.

(** What other sessions do: within [begin_or_replay], before the claim, within the promotion. *)
Record others := {
  within_begin : store -> store;
  before_claim : RuntimeThreads.store -> RuntimeThreads.store;
  within_promotion : RuntimeThreads.store -> RuntimeThreads.store;
}.

(** The state of a call: the tables, the lock server, the saver, the events the
    publisher has sent, and the two flags of [_apply]. *)
Record world := {
  db : store;
  redis : R;
  saver : C;
  published : list (string * string);
  claimed : bool;
  candidate_created : bool;
}.

Definition Act (A : Type) : Type := action world A.

Definition on_db {A} (m : action store A) : Act A := fun w =>
  let (r, x) := m (db w) in
  (r, {| db := x; redis := redis w; saver := saver w; published := published w; claimed := claimed w; candidate_created := candidate_created w |}).
Definition on_threads {A} (m : action RuntimeThreads.store A) : Act A :=
  on_db (fun s => let (r, rt) := m (threads s) in (r, with_threads s rt)).
Definition on_lock {A} (m : action R A) : Act A := fun w =>
  let (r, x) := m (redis w) in
  (r, {| db := db w; redis := x; saver := saver w; published := published w; claimed := claimed w; candidate_created := candidate_created w |}).
Definition on_saver {A} (m : action C A) : Act A := fun w =>
  let (r, x) := m (saver w) in
  (r, {| db := db w; redis := redis w; saver := x; published := published w; claimed := claimed w; candidate_created := candidate_created w |}).
Definition read {A} (f : store -> A) : Act A := fun w => (Ok (f (db w)), w).
Definition set_claimed (b : bool) : Act unit := fun w =>
  (Ok tt, {| db := db w; redis := redis w; saver := saver w; published := published w; claimed := b; candidate_created := candidate_created w |}).
Definition set_candidate (b : bool) : Act unit := fun w =>
  (Ok tt, {| db := db w; redis := redis w; saver := saver w; published := published w; claimed := claimed w; candidate_created := b |}).
Definition sent (identity : string * string) : Act unit := fun w =>
  (Ok tt, {| db := db w; redis := redis w; saver := saver w; published := published w ++ [identity]; claimed := claimed w; candidate_created := candidate_created w |}).

(** [RuntimeOverrideEventPublisher._publish]: once per override and type. *)
Definition publish (broker : string -> string -> result unit) (oid ty : string) : Act unit := fun w =>
  if bool_decide ((oid, ty) ∈ published w) then (Ok tt, w)
  else match broker oid ty with
       | Ok _ => sent (oid, ty) w
       | Err e => (Err e, w)
       end.

(** ** The boundary lock: [redis_lock.py] *)
Definition boundary_key (thread : string) : string := "countyflow:lock:thread:" +:+ thread.
Definition boundary_error {A} (m : string) (e : exn) : result A :=
  if RedisLock.is_redis_error e then Err (Exn "RuntimeBoundaryLockError" m) else Err e.

Definition boundary_acquire (ttl : Z) (thread token : string) : action R LockHandle := fun r =>
  match RedisLock.client_set_nx (boundary_key thread) token ttl r with
  | (Ok b, r') => (Ok {| handle_key := boundary_key thread; handle_token := token; acquired := b |}, r')
  | (Err e, r') => (boundary_error "Redis runtime boundary lock acquire failed" e, r')
  end.
Definition boundary_release (h : LockHandle) : action R bool := fun r =>
  if negb (acquired h) then (Ok false, r)
  else match RedisLock.client_transaction (RedisLock.compare_and (handle_token h) RedisLock.Delete) (handle_key h) r with
       | (Ok b, r') => (Ok b, r')
       | (Err e, r') => (boundary_error "Redis runtime boundary lock release failed" e, r')
       end.

Section apply.
Context (v : service) (o : others) (now : Z) (token fresh_id : string) (digest : pyval -> string) (measured : list (string * Q)).

Definition conclude (oid code : string) (st : RuntimeOverrideStatus) : Act StoredRuntimeOverride :=
  on_db (finish oid st (match st with CONFLICT => NEEDS_DIFFERENT_BOUNDARY | _ => Decision_REJECTED end) code now).

Definition release_boundary (thread : string) (t : RuntimeThreads.RuntimeThread) : Act RuntimeThreads.RuntimeThread :=
  on_threads (RuntimeThreads.release_override_boundary thread (or_else (RuntimeThreads.current_checkpoint_id t) "")
    (RuntimeThreads.state_version t) (or_else (RuntimeThreads.next_node t) "")).

(** The command of a request; an empty role set has no first element. *)
Definition make_command (thread : string) (rq : RuntimeOverrideRequest) (p : AuthenticatedPrincipal) : result RuntimeOverrideCommand :=
  match head (sort_by py_le (map role_value (roles p))) with
  | None => Err (Exn "IndexError" "list index out of range")
  | Some role =>
      validated {| override_id := fresh_id; idempotency_key := req_idempotency_key rq; thread_id := thread;
        entity_type := req_entity_type rq; entity_id := req_entity_id rq; field := req_field rq; old_value := req_old_value rq;
        new_value := req_new_value rq; reason := req_reason rq; expected_version := req_expected_version rq;
        expected_next_node := req_expected_next_node rq; operator_id := subject_id p; operator_role := role; requested_at := now |}
  end.

(** A replayed request whose override is still APPLYING: its session is taken for dead. *)
Definition recover_applying (thread : string) (stored : RuntimeOverride) : Act StoredRuntimeOverride :=
  match result_checkpoint_id stored with
  | Some _ => on_db (mark_partial (row_id stored) "RUNTIME_OVERRIDE_RECONCILIATION_REQUIRED" now)
  | None =>
      (do current <- read (fun s => RuntimeThreads.get_by_thread_id (threads s) thread);
       do _ <- match current with
               | Some t =>
                   if bool_decide (RuntimeThreads.status t = RuntimeThreads.OVERRIDING)
                      && bool_decide (RuntimeThreads.current_checkpoint_id t = source_checkpoint_id stored)
                      && (RuntimeThreads.state_version t =? expected_version (command stored))
                      && bool_decide (RuntimeThreads.next_node t = expected_next_node (command stored))
                   then except_as ["BoundaryClaimConflict"%string]
                          (do _ <- on_threads (RuntimeThreads.release_override_boundary thread (or_else (source_checkpoint_id stored) "")
                             (expected_version (command stored)) (or_else (expected_next_node (command stored)) "")); ret_action tt)
                          (ret_action tt)
                   else ret_action tt
               | None => ret_action tt
               end;
       conclude (row_id stored) "RUNTIME_OVERRIDE_INTERRUPTED" FAILED)%action
  end.

(** From the claimed boundary to the promotion. *)
Definition apply_claimed (oid tid : string) (rq : RuntimeOverrideRequest) (thread : RuntimeThreads.RuntimeThread) (source : CheckpointRecord)
    : Act StoredRuntimeOverride :=
  let next := or_else (RuntimeThreads.next_node thread) "" in
  (do _ <- set_claimed true;
   do _ <- on_db (mark_applying oid (RuntimeThreads.state_version thread) (rec_checkpoint_id source) now);
   do updated <- except_as ["RuntimeCheckpointStoreError"; "ValueError"]%string
     (do u <- on_saver (update (max_checkpoint_bytes v) source [("vehicle_status"%string, PStr (req_new_value rq))] "environment" next oid); ret_action (Some u))
     (ret_action None);
   match updated with
   | None =>
       do _ <- on_threads (RuntimeThreads.release_override_boundary tid (rec_checkpoint_id source)
                 (RuntimeThreads.state_version thread) next);
       do _ <- set_claimed false;
       conclude oid "CHECKPOINT_UPDATE_FAILED" FAILED
   | Some u =>
       do _ <- set_candidate true;
       do _ <- on_db (attach_result_checkpoint oid (rec_checkpoint_id (record u)));
       do applied <- except_as ["ThreadVersionConflict"%string]
         (do x <- on_db (promote_applied (within_promotion o) oid (rec_checkpoint_id (record u)) (serialized_size_bytes (record u)) now); ret_action (Some x))
         (ret_action None);
       match applied with
       | None => on_db (mark_partial oid "CHECKPOINT_PROMOTION_CONFLICT" now)
       | Some x =>
           do _ <- set_claimed false;
           match event_publisher v with
           | None => on_db (mark_event_status oid EV_PUBLISHED)
           | Some broker =>
               do ok <- catch_action (do _ <- publish broker oid "RUNTIME_OVERRIDE_APPLIED"; ret_action true)
                          (fun e => if is_exception e then ret_action false else raise_action e);
               on_db (mark_event_status oid (if ok then EV_PUBLISHED else EV_FAILED))
           end
       end
   end)%action.

(** Under the lock, up to the claim. *)
Definition apply_locked (oid thread : string) (rq : RuntimeOverrideRequest) (c : RuntimeOverrideCommand) : Act StoredRuntimeOverride :=
  (do t <- read (fun s => RuntimeThreads.get_by_thread_id (threads s) thread);
   match t with
   | None => conclude oid "THREAD_NOT_FOUND" REJECTED
   | Some t =>
       if bool_decide (RuntimeThreads.status t = RuntimeThreads.TERMINAL) then conclude oid "THREAD_TERMINAL" REJECTED
       else if negb (bool_decide (RuntimeThreads.status t = RuntimeThreads.STABLE)) then conclude oid "THREAD_NOT_STABLE" CONFLICT
       else if negb (RuntimeThreads.state_version t =? req_expected_version rq) then conclude oid "RUNTIME_STATE_VERSION_CONFLICT" CONFLICT
       else match RuntimeThreads.current_checkpoint_id t with
       | None => conclude oid "CANONICAL_CHECKPOINT_MISSING" REJECTED
       | Some checkpoint =>
           do found <- except_as ["RuntimeCheckpointStoreError"%string]
             (do r <- on_saver (read_checkpoint thread checkpoint); ret_action (Some r)) (ret_action None);
           match found with
           | None => conclude oid "CHECKPOINT_STORE_UNAVAILABLE" FAILED
           | Some None => conclude oid "CANONICAL_CHECKPOINT_MISSING" FAILED
           | Some (Some source) =>
               let policy := evaluate c t (rec_state source) in
               if negb (allowed policy) then
                 on_db (finish oid (match verdict policy with Decision_REJECTED => REJECTED | _ => CONFLICT end) (verdict policy)
                          (or_else (verdict_code policy) "RUNTIME_STATE_PRECONDITION_FAILED") now)
               else
                 do claim <- except_as ["BoundaryClaimConflict"%string]
                   (do _ <- on_threads (fun rt => RuntimeThreads.claim_override_boundary thread (rec_checkpoint_id source)
                                (RuntimeThreads.state_version t) (or_else (RuntimeThreads.next_node t) "") (before_claim o rt));
                    ret_action true) (ret_action false);
                 if claim then apply_claimed oid thread rq t source else conclude oid "THREAD_NOT_STABLE" CONFLICT
           end
       end
   end)%action.

(** The [finally] block: each step runs only if the one before it did not raise. *)
Definition cleanup (thread oid : string) (h : LockHandle) : Act unit :=
  (do _ <- on_lock (boundary_release h);
   do fenced <- (fun w => (Ok (claimed w && negb (candidate_created w)), w));
   do _ <- (if fenced : bool then
              do current <- read (fun s => RuntimeThreads.get_by_thread_id (threads s) thread);
              match current with
              | Some t => if bool_decide (RuntimeThreads.status t = RuntimeThreads.OVERRIDING)
                          then do _ <- release_boundary thread t; ret_action tt else ret_action tt
              | None => ret_action tt
              end
            else ret_action tt);
   on_db (record_timings oid measured))%action.

Definition with_cleanup {A} (thread oid : string) (h : LockHandle) (m : Act A) : Act A := fun w =>
  let (r, w1) := m w in
  match cleanup thread oid h w1 with
  | (Ok _, w2) => (r, w2)
  | (Err e, w2) => (Err e, w2)
  end.

(** [_apply]; [apply] adds metrics. *)
Definition apply (thread : string) (rq : RuntimeOverrideRequest) (p : AuthenticatedPrincipal) : Act StoredRuntimeOverride :=
  (do t <- read (fun s => RuntimeThreads.get_by_thread_id (threads s) thread);
   match t with
   | None => raise_action (ServiceError "THREAD_NOT_FOUND")
   | Some _ =>
       if negb (can p RUNTIME_OVERRIDE) then raise_action (ServiceError "RUNTIME_OVERRIDE_FORBIDDEN")
       else match make_command thread rq p with
       | Err e => raise_action e
       | Ok c =>
           do stored <- on_db (begin_or_replay (within_begin o) c (digest (fingerprint_value c)) (now + intent_ttl v));
           let row := item stored in
           let oid := row_id row in
           if replayed stored && negb (bool_decide (status row = PENDING)) then
             if bool_decide (status row = APPLYING) then recover_applying thread row else ret_action stored
           else
             do _ <- match event_publisher v with
                     | Some broker => catch_action (publish broker oid "RUNTIME_OVERRIDE_REQUESTED")
                                        (fun e => if is_exception e then ret_action tt else raise_action e)
                     | None => ret_action tt
                     end;
             do h <- on_lock (boundary_acquire (lock_ttl v) thread token);
             if negb (acquired h) then conclude oid "RUNTIME_OVERRIDE_BUSY" CONFLICT
             else do _ <- set_claimed false; do _ <- set_candidate false; with_cleanup thread oid h (apply_locked oid thread rq c)
       end
   end)%action.
End apply.

(** ** The reconciler *)
Definition candidate_valid (max_bytes : Z) (c : RuntimeOverrideCommand) (source res : CheckpointRecord) : bool :=
  String.eqb (rec_thread_id res) (rec_thread_id source)
  && String.eqb (checkpoint_namespace res) (checkpoint_namespace source)
  && String.eqb (checkpoint_namespace res) ""
  && bool_decide (rec_parent_checkpoint_id res = Some (rec_checkpoint_id source))
  && (serialized_size_bytes res <=? max_bytes)
  && ThreadRunner.equals_str (Evidence.get (rec_state source) "vehicle_id") (entity_id c)
  && ThreadRunner.equals_str (Evidence.get (rec_state source) "vehicle_status") (old_value c)
  && ThreadRunner.equals_str (Evidence.get (rec_state res) "vehicle_status") (new_value c)
  && same_value (rec_state source) (rec_state res) "last_completed_node"
  && same_value (rec_state source) (rec_state res) "completed_node_count"
  && bool_decide (changed_keys (rec_state source) (rec_state res) = {["vehicle_status"%string]})
  && json_serializable (PDict (rec_state res)).

Definition reconcile (env : RuntimeThreads.store -> RuntimeThreads.store) (max_bytes now : Z) (oid : string) : Act StoredRuntimeOverride :=
  let invalid code := on_db (mark_partial oid code now) in
  let conflict := on_db (finish oid CONFLICT NEEDS_DIFFERENT_BOUNDARY "RUNTIME_STATE_VERSION_CONFLICT" now) in
  (do found <- read (fun s => by_id s oid);
   match found with
   | None => raise_action (RuntimeThreads.LookupError oid)
   | Some r =>
       if negb (bool_decide (status r = PARTIAL)) then ret_action (snapshot r false)
       else
         do thread <- read (fun s => RuntimeThreads.get_by_thread_id (threads s) (thread_id (command r)));
         match thread with
         | None => conflict
         | Some t =>
             if negb (bool_decide (RuntimeThreads.status t = RuntimeThreads.OVERRIDING))
                || negb (bool_decide (RuntimeThreads.current_checkpoint_id t = source_checkpoint_id r))
                || negb (RuntimeThreads.state_version t =? expected_version (command r)) then conflict
             else match source_checkpoint_id r, result_checkpoint_id r with
             | Some a, Some b =>
                 do source <- on_saver (read_checkpoint (thread_id (command r)) a);
                 do res <- on_saver (read_checkpoint (thread_id (command r)) b);
                 match source, res with
                 | Some source, Some res =>
                     if negb (candidate_valid max_bytes (command r) source res) then invalid "RUNTIME_OVERRIDE_RESULT_INVALID"%string
                     else except_as ["ThreadVersionConflict"%string]
                            (on_db (promote_applied env oid (rec_checkpoint_id res) (serialized_size_bytes res) now)) conflict
                 | _, _ => invalid "RUNTIME_OVERRIDE_RESULT_MISSING"%string
                 end
             | _, _ => invalid "RUNTIME_OVERRIDE_RESULT_MISSING"%string
             end
         end
   end)%action.
End service.

(** ** The eligibility query *)
Inductive RuntimeInterventionEligibility := ELIGIBLE | NO_PERMISSION | INTERVENTION_TERMINAL | BUSY | NOT_STABLE | WRONG_BOUNDARY.

Record RuntimeInterventionTarget := {
  target_entity_type : string;
  target_entity_id : string;
  target_display_name : string;
  target_field : string;
  current_value : string;
  allowed_new_values : list string;
}.

Definition ALLOWED_NEW_VALUES : list string := ["BROKEN"; "UNAVAILABLE"; "MAINTENANCE"]%string.

Definition intervention_target (state : pydict) : option RuntimeInterventionTarget :=
  match Evidence.get state "vehicle_id", Evidence.get state "vehicle_status" with
  | PStr e, PStr current => Some
      {| target_entity_type := "Vehicle"; target_entity_id := e;
         target_display_name := default e (text_of (Evidence.get state "vehicle_display_name"));
         target_field := "status"; current_value := current;
         allowed_new_values := if String.eqb current "NORMAL" then ALLOWED_NEW_VALUES else [] |}
  | _, _ => None
  end.

Definition eligibility (t : RuntimeThreads.RuntimeThread) (can_override checkpoint_available : bool) (target : option RuntimeInterventionTarget)
    : RuntimeInterventionEligibility * option string :=
  if negb can_override then (NO_PERMISSION, Some "RUNTIME_OVERRIDE_FORBIDDEN"%string)
  else match RuntimeThreads.status t with
  | RuntimeThreads.TERMINAL => (INTERVENTION_TERMINAL, Some "THREAD_TERMINAL"%string)
  | RuntimeThreads.OVERRIDING => (BUSY, Some "RUNTIME_OVERRIDE_BUSY"%string)
  | RuntimeThreads.RUNNING => (NOT_STABLE, Some "THREAD_NOT_STABLE"%string)
  | RuntimeThreads.STABLE =>
      if negb (bool_decide ((RuntimeThreads.current_node t, RuntimeThreads.next_node t) = ALLOWED_BOUNDARY))
      then (WRONG_BOUNDARY, Some "RUNTIME_OVERRIDE_WRONG_BOUNDARY"%string)
      else if negb checkpoint_available then (WRONG_BOUNDARY, Some "CANONICAL_CHECKPOINT_MISSING"%string)
      else match target with
      | None => (WRONG_BOUNDARY, Some "RUNTIME_STATE_PRECONDITION_FAILED"%string)
      | Some x => if negb (String.eqb (current_value x) "NORMAL") then (WRONG_BOUNDARY, Some "OVERRIDE_VALUE_INVALID"%string) else (ELIGIBLE, None)
      end
  end.

Definition QueryError (code : string) : exn := Exn "RuntimeOverrideQueryError" code.

Record RuntimeInterventionContext := {
  ctx_thread : RuntimeThreads.RuntimeThread;
  ctx_checkpoint_available : bool;
  ctx_eligibility : RuntimeInterventionEligibility;
  ctx_reason : option string;
  ctx_can_override : bool;
  ctx_target : option RuntimeInterventionTarget;
}.

Definition get_intervention_context {C} `{CheckpointStore C} (s : store) (c : C) (thread : string) (p : AuthenticatedPrincipal)
    : result RuntimeInterventionContext :=
  if negb (can p RUNTIME_READ) then Err (QueryError "RUNTIME_THREAD_FORBIDDEN")
  else match RuntimeThreads.get_by_thread_id (threads s) thread with
  | None => Err (QueryError "THREAD_NOT_FOUND")
  | Some t =>
      r ← match RuntimeThreads.current_checkpoint_id t with
          | None => Ok None
          | Some checkpoint => match get_exact c (RuntimeThreads.thread_id t) checkpoint with
                               | Err _ => Err (QueryError "CHECKPOINT_STORE_UNAVAILABLE")
                               | Ok r => Ok r
                               end
          end;
      let state := match r with Some r => rec_state r | None => [] end in
      let target := intervention_target state in
      let available := bool_decide (is_Some r) in
      let verdict := eligibility t (can p RUNTIME_OVERRIDE) available target in
      Ok {| ctx_thread := t; ctx_checkpoint_available := available; ctx_eligibility := verdict.1; ctx_reason := verdict.2;
            ctx_can_override := can p RUNTIME_OVERRIDE; ctx_target := target |}
  end.

Definition query_get (s : store) (oid : string) (p : AuthenticatedPrincipal) : result StoredRuntimeOverride :=
  if negb (can p RUNTIME_READ) then Err (QueryError "RUNTIME_THREAD_FORBIDDEN")
  else of_option (QueryError "RUNTIME_OVERRIDE_NOT_FOUND") (get s oid).

Definition query_list (s : store) (thread : string) (p : AuthenticatedPrincipal) (limit : Z) : result (list StoredRuntimeOverride) :=
  if negb (can p RUNTIME_READ) then Err (QueryError "RUNTIME_THREAD_FORBIDDEN")
  else match RuntimeThreads.get_by_thread_id (threads s) thread with
  | None => Err (QueryError "THREAD_NOT_FOUND")
  | Some t => Ok (list_by_thread s (RuntimeThreads.thread_id t) (Z.min (Z.max limit 1) 100))
  end.

(** ** The rows of one override *)
Section rows.
Implicit Types (s : store) (oid : string) (r : RuntimeOverride).

Lemma by_id_set_row s oid f : (forall r, row_id (f r) = row_id r) -> by_id (set_row s oid f) oid = f <$> by_id s oid.
Proof. intros F. unfold by_id, set_row. cbn [overrides]. apply (find_map_where (fun r => String.eqb (row_id r) oid)). intros r. by rewrite F. Qed.

Lemma by_id_set_attempt s oid oid' f : by_id (set_latest_attempt s oid' f) oid = by_id s oid.
Proof. reflexivity. Qed.

Lemma by_id_with_threads s rt oid : by_id (with_threads s rt) oid = by_id s oid.
Proof. reflexivity. Qed.

Lemma insert_attempt_ok s a s' : insert_attempt s a = Ok s' -> overrides s' = overrides s /\ threads s' = threads s.
Proof. unfold insert_attempt. destruct (by_id s _); [|discriminate]. destruct (List.find _ (attempts_of _ _)); [discriminate|]. by intros [= <-]. Qed.

Lemma insert_row_ok s r s' : insert_row s r = Ok s' ->
  by_id s' (row_id r) = Some r /\ threads s' = threads s /\ by_id s (row_id r) = None /\ overrides s' = overrides s ++ [r].
Proof.
  unfold insert_row. destruct (by_id s (row_id r)) eqn:B; [discriminate|]. destruct (by_key s (idempotency_key (command r))); [discriminate|].
  destruct (RuntimeThreads.get_by_thread_id (threads s) _); [|discriminate].
  intros [= <-]. split; [|done]. unfold by_id. cbn [overrides]. rewrite find_app. unfold by_id in B. rewrite B. simpl. by rewrite String.eqb_refl.
Qed.

Lemma written_eq s oid r : by_id s oid = Some r -> written s oid = Ok (snapshot r false).
Proof. intros E. unfold written, required. by rewrite E. Qed.

(** Closing an override that was not applied. *)
Lemma close_spec s oid r st d code now : by_id s oid = Some r -> status r <> APPLIED ->
  exists s', close oid st d code now s = (Ok (snapshot (row_closed st d code now r) false), s') /\
    by_id s' oid = Some (row_closed st d code now r) /\ threads s' = threads s.
Proof.
  intros E N. unfold close, required. rewrite E. cbn [of_option]. rewrite bool_decide_eq_false_2 by done.
  eexists. split; [|split; [by rewrite by_id_set_attempt, by_id_set_row, E|done]].
  f_equal. apply written_eq. by rewrite by_id_set_attempt, by_id_set_row, E.
Qed.

Lemma finish_spec s oid r st d code now : by_id s oid = Some r -> status r <> APPLIED -> st ∈ [REJECTED; CONFLICT; FAILED] ->
  exists s', finish oid st d code now s = (Ok (snapshot (row_closed st (Some d) code now r) false), s') /\
    by_id s' oid = Some (row_closed st (Some d) code now r) /\ threads s' = threads s.
Proof.
  intros E N St. destruct (close_spec s oid r st (Some d) code now E N) as (s' & C & B).
  exists s'. split; [|done]. unfold finish. destruct st; try exact C; set_solver.
Qed.

Lemma mark_applying_spec s oid r before source started : by_id s oid = Some r -> status r = PENDING ->
  match mark_applying oid before source started s with
  | (Ok x, s') => by_id s' oid = Some (row_applying before source started r) /\ threads s' = threads s
  | (Err e, s') => s' = s
  end.
Proof.
  intros E P. unfold mark_applying, required. rewrite E. cbn [of_option]. rewrite P.
  destruct (insert_attempt _ _) as [s'|e] eqn:I; [|done]. apply insert_attempt_ok in I as [O T].
  assert (B : by_id s' oid = Some (row_applying before source started r)).
  { unfold by_id. rewrite O. change (by_id (set_row s oid (row_applying before source started)) oid = Some (row_applying before source started r)).
    by rewrite by_id_set_row, E. }
  rewrite (written_eq _ _ _ B). by rewrite T.
Qed.

Lemma attach_spec s oid r c : by_id s oid = Some r -> status r = APPLYING -> result_checkpoint_id r = None ->
  exists s', attach_result_checkpoint oid c s = (Ok (snapshot (row_result c r) false), s') /\
    by_id s' oid = Some (row_result c r) /\ threads s' = threads s.
Proof.
  intros E A N. unfold attach_result_checkpoint, required. rewrite E. cbn [of_option]. rewrite bool_decide_eq_true_2, N by done. cbn [negb].
  eexists. split; [|split; [by rewrite by_id_set_attempt, by_id_set_row, E|done]].
  f_equal. apply written_eq. by rewrite by_id_set_attempt, by_id_set_row, E.
Qed.

Lemma mark_event_spec s oid r e : by_id s oid = Some r ->
  exists s', mark_event_status oid e s = (Ok (snapshot (row_event e r) false), s') /\ by_id s' oid = Some (row_event e r) /\ threads s' = threads s.
Proof.
  intros E. unfold mark_event_status, required. rewrite E. cbn [of_option].
  eexists. split; [|split; [by rewrite by_id_set_row, E|done]]. f_equal. apply written_eq. by rewrite by_id_set_row, E.
Qed.

(** A promotion either commits row, thread and event together, or reports the
    conflict and leaves what the other sessions made of the threads. *)
Lemma promote_applied_spec env s oid r c size now x s' : by_id s oid = Some r -> status r <> APPLIED ->
  promote_applied env oid c size now s = (x, s') ->
  (exists e, x = Err e /\ by_id s' oid = Some r /\
     ((e = RuntimeThreads.LookupError (thread_id (command r)) /\ RuntimeThreads.threads (threads s) !! thread_id (command r) = None /\ s' = s) \/
      (e = PromotionFailed /\ (s' = s \/ s' = with_threads s (env (threads s)))))) \/
  (exists t rt', RuntimeThreads.threads (threads s) !! thread_id (command r) = Some t /\ promotable r t c = true /\
     commit_promotion (env (threads s)) t (override_promoted t c size)
       (RuntimeThreads.event_by_key (threads s) (thread_id (command r)) ("override:" +:+ oid +:+ ":applied")) (applied_event r t c size) = Ok rt' /\
     threads s' = rt' /\ x = Ok (snapshot (row_applied (RuntimeThreads.state_version t + 1) now r) false) /\
     by_id s' oid = Some (row_applied (RuntimeThreads.state_version t + 1) now r)).
Proof.
  intros E N. unfold promote_applied, required. rewrite E. cbn [of_option]. rewrite bool_decide_eq_false_2 by done.
  assert (I : row_id r = oid) by (apply find_some in E as [_ E]; by apply String.eqb_eq).
  unfold RuntimeThreads.get_by_thread_id. destruct (RuntimeThreads.threads (threads s) !! thread_id (command r)) as [t|] eqn:T.
  2: { intros [= <- <-]. left. eexists. split; [done|]. split; [done|]. by left. }
  destruct (promotable r t c) eqn:P; cbn [negb].
  2: { intros [= <- <-]. left. eexists. split; [done|]. split; [done|]. right. auto. }
  cbn [RuntimeThreads.event_key applied_event]. rewrite I. destruct (commit_promotion _ _ _ _ _) as [rt'|e] eqn:K.
  - intros [= <- <-]. right. exists t, rt'.
    assert (B : by_id (set_latest_attempt (set_row (with_threads s rt') oid (row_applied (RuntimeThreads.state_version t + 1) now)) oid (attempt_applied c now)) oid
      = Some (row_applied (RuntimeThreads.state_version t + 1) now r)) by (by rewrite by_id_set_attempt, by_id_set_row, by_id_with_threads, E).
    rewrite (written_eq _ _ _ B). done.
  - intros [= <- <-]. left. eexists. split; [done|]. split; [done|]. right. auto.
Qed.

Lemma commit_promotion_row rt t new existing e rt' : commit_promotion rt t new existing e = Ok rt' ->
  RuntimeThreads.threads rt' !! RuntimeThreads.thread_id new = Some (RuntimeThreads.bump new) /\
  (exists cur, RuntimeThreads.threads rt !! RuntimeThreads.thread_id t = Some cur /\ RuntimeThreads.row_version cur = RuntimeThreads.row_version t) /\
  (forall k, k <> RuntimeThreads.thread_id new -> RuntimeThreads.threads rt' !! k = RuntimeThreads.threads rt !! k) /\
  RuntimeThreads.events rt' = RuntimeThreads.events rt ++ match existing with Some _ => [] | None => [e] end.
Proof.
  assert (U : forall rt', RuntimeThreads.update_row rt t new = Ok rt' ->
    RuntimeThreads.threads rt' !! RuntimeThreads.thread_id new = Some (RuntimeThreads.bump new) /\
    (exists cur, RuntimeThreads.threads rt !! RuntimeThreads.thread_id t = Some cur /\ RuntimeThreads.row_version cur = RuntimeThreads.row_version t) /\
    (forall k, k <> RuntimeThreads.thread_id new -> RuntimeThreads.threads rt' !! k = RuntimeThreads.threads rt !! k) /\
    RuntimeThreads.events rt' = RuntimeThreads.events rt).
  { intros x (cur & H1 & V & ->)%RuntimeThreads.update_row_ok. split; [by simpl; rewrite lookup_insert_eq|].
    split; [by exists cur|]. split; [|done]. intros k Nk. simpl. by rewrite lookup_insert_ne. }
  unfold commit_promotion. destruct existing as [ev|].
  - intros H%U. by rewrite app_nil_r.
  - unfold RuntimeThreads.commit_both. intros (x & (H1 & H2 & H3 & H4)%U & (_ & _ & ->)%RuntimeThreads.insert_event_ok)%result_bind_ok. simpl. by rewrite H4.
Qed.
End rows.

(** ** What applying an override does to the threads *)
Definition fenced_row (t : RuntimeThreads.RuntimeThread) : RuntimeThreads.RuntimeThread :=
  RuntimeThreads.set_status t RuntimeThreads.OVERRIDING None.
Definition fenced (rt : RuntimeThreads.store) (t : RuntimeThreads.RuntimeThread) : RuntimeThreads.store :=
  RuntimeThreads.with_thread rt (fenced_row t).
Definition released (rt : RuntimeThreads.store) (t : RuntimeThreads.RuntimeThread) : RuntimeThreads.store :=
  RuntimeThreads.with_thread (fenced rt t) (RuntimeThreads.set_status (fenced_row t) RuntimeThreads.STABLE None).

(** A boundary, and that it is the one the request asked for. *)
Definition at_boundary (t : RuntimeThreads.RuntimeThread) (checkpoint : string) (version : Z) (next : string) : Prop :=
  RuntimeThreads.status t = RuntimeThreads.STABLE /\ RuntimeThreads.current_checkpoint_id t = Some checkpoint /\
  RuntimeThreads.state_version t = version /\ RuntimeThreads.next_node t = Some next.

Lemma boundary_matches_spec t st c n next :
  RuntimeThreads.boundary_matches t st c n next = true <->
  RuntimeThreads.status t = st /\ RuntimeThreads.current_checkpoint_id t = Some c /\ RuntimeThreads.state_version t = n /\ RuntimeThreads.next_node t = Some next.
Proof.
  unfold RuntimeThreads.boundary_matches. rewrite !andb_true_iff, !bool_decide_eq_true, Z.eqb_eq. tauto.
Qed.

(** What the validated candidate of a request is. *)
Record candidate (max_bytes : Z) (source u : CheckpointRecord) (value : string) : Prop := {
  cand_thread : rec_thread_id u = rec_thread_id source;
  cand_namespace : checkpoint_namespace u = ""%string;
  cand_parent : rec_parent_checkpoint_id u = Some (rec_checkpoint_id source);
  cand_changed : changed_keys (rec_state source) (rec_state u) = {["vehicle_status"%string]};
  cand_value : ThreadRunner.equals_str (Evidence.get (rec_state u) "vehicle_status") value = true;
  cand_json : json_serializable (PDict (rec_state u)) = true;
  cand_size : serialized_size_bytes u <= max_bytes;
}.

Lemma py_eq_str v s : py_eq v (PStr s) = true -> ThreadRunner.equals_str v s = true.
Proof. by destruct v. Qed.

Lemma validate_candidate max source u nodes value next :
  validate max source u nodes [("vehicle_status"%string, PStr value)] next = Ok tt -> candidate max source u value.
Proof.
  unfold validate. intros V. repeat match type of V with (if ?b then _ else _) = _ => destruct b eqn:?; [discriminate|] end.
  results. cbn [forallb snd fst map] in *.
  repeat match goal with
  | H : String.eqb _ _ = true |- _ => apply String.eqb_eq in H
  | H : bool_decide _ = true |- _ => apply bool_decide_eq_true in H
  | H : (_ <? _) = false |- _ => apply Z.ltb_ge in H
  | H : _ && true = true |- _ => rewrite andb_true_r in H
  end.
  split; try done; try congruence. by apply py_eq_str.
Qed.

Section effects.
Context {R C : Type} `{LockClient R, CheckpointStore C} (v : service) (o : others).
Context (thread : string) (rq : RuntimeOverrideRequest).
Implicit Types (w : world (R := R) (C := C)) (rt base : RuntimeThreads.store) (t : RuntimeThreads.RuntimeThread).

(** Three things can have happened to the threads when a call ends. *)
Inductive effect_kind := Untouched | Fenced | Promoted.

Inductive effect (w : world (R := R) (C := C)) (base : RuntimeThreads.store) : effect_kind -> RuntimeThreads.store -> Prop :=
| effect_none : effect w base Untouched base
| effect_released t : RuntimeThreads.threads base !! thread = Some t -> effect w base Untouched (released base t)
| effect_fenced t rt : RuntimeThreads.threads base !! thread = Some t -> RuntimeThreads.status t = RuntimeThreads.STABLE ->
    rt = fenced base t \/ rt = within_promotion o (fenced base t) -> effect w base Fenced rt
| effect_promoted t0 t source u rt :
    RuntimeThreads.threads (threads (db w)) !! thread = Some t0 ->
    at_boundary t0 (rec_checkpoint_id source) (req_expected_version rq) "capacity" ->
    RuntimeThreads.current_node t0 = Some "environment"%string ->
    (req_entity_type rq, req_field rq) = ALLOWED_TARGET -> (req_old_value rq, req_new_value rq) ∈ ALLOWED_TRANSITIONS ->
    req_expected_next_node rq = Some "capacity"%string ->
    get_exact (saver w) thread (rec_checkpoint_id source) = Ok (Some source) ->
    ThreadRunner.equals_str (Evidence.get (rec_state source) "vehicle_id") (req_entity_id rq) = true ->
    ThreadRunner.equals_str (Evidence.get (rec_state source) "vehicle_status") (req_old_value rq) = true ->
    candidate (max_checkpoint_bytes v) source u (req_new_value rq) ->
    RuntimeThreads.threads base !! thread = Some t -> at_boundary t (rec_checkpoint_id source) (req_expected_version rq) "capacity" ->
    RuntimeThreads.threads rt !! thread = Some (RuntimeThreads.bump (override_promoted (fenced_row t) (rec_checkpoint_id u) (serialized_size_bytes u))) ->
    (forall k, k <> thread -> RuntimeThreads.threads rt !! k = RuntimeThreads.threads (within_promotion o (fenced base t)) !! k) ->
    effect w base Promoted rt.

(** The kind of effect an answer announces. *)
Definition announces (st : RuntimeOverrideStatus) (k : effect_kind) : Prop :=
  match st with
  | REJECTED | CONFLICT | FAILED => k = Untouched
  | PARTIAL => k = Fenced
  | APPLIED => k = Promoted
  | PENDING | APPLYING => False
  end.

(** *** What each primitive leaves alone *)
Definition same_but_db (w w' : world (R := R) (C := C)) : Prop :=
  saver w' = saver w /\ claimed w' = claimed w /\ candidate_created w' = candidate_created w.

Lemma on_db_inv {A} (m : action store A) w x w' : on_db m w = (x, w') -> m (db w) = (x, db w') /\ same_but_db w w'.
Proof. unfold on_db. destruct (m (db w)) as [y s]. by intros [= <- <-]. Qed.

Lemma on_threads_inv {A} (m : action RuntimeThreads.store A) w x w' : on_threads m w = (x, w') ->
  m (threads (db w)) = (x, threads (db w')) /\ (forall oid, by_id (db w') oid = by_id (db w) oid) /\ same_but_db w w'.
Proof. unfold on_threads. intros [E S]%on_db_inv. destruct (m (threads (db w))) as [y rt]. injection E as -> E. rewrite <- E. done. Qed.

Lemma on_saver_inv {A} (m : action C A) w x w' : on_saver m w = (x, w') ->
  m (saver w) = (x, saver w') /\ db w' = db w /\ claimed w' = claimed w /\ candidate_created w' = candidate_created w.
Proof. unfold on_saver. destruct (m (saver w)) as [y s]. by intros [= <- <-]. Qed.

Lemma fenced_lookup base t : RuntimeThreads.thread_id t = thread -> RuntimeThreads.threads (fenced base t) !! thread = Some (fenced_row t).
Proof. intros E. unfold fenced, RuntimeThreads.with_thread. cbn [RuntimeThreads.threads RuntimeThreads.thread_id fenced_row RuntimeThreads.set_status]. by rewrite E, lookup_insert_eq. Qed.

Lemma release_fenced base t c n next : RuntimeThreads.thread_id t = thread -> at_boundary t c n next ->
  RuntimeThreads.release_override_boundary thread c n next (fenced base t) = (Ok (RuntimeThreads.set_status (fenced_row t) RuntimeThreads.STABLE None), released base t).
Proof.
  intros I (_ & Hc & Hn & Hx). unfold RuntimeThreads.release_override_boundary, RuntimeThreads.update_boundary.
  rewrite (fenced_lookup base t I). assert (M : RuntimeThreads.boundary_matches (fenced_row t) RuntimeThreads.OVERRIDING c n next = true)
    by (by apply boundary_matches_spec). by rewrite M.
Qed.

Lemma claim_inv rt c n next x rt' : RuntimeThreads.wf rt -> RuntimeThreads.claim_override_boundary thread c n next rt = (x, rt') ->
  (exists t, RuntimeThreads.threads rt !! thread = Some t /\ RuntimeThreads.thread_id t = thread /\ at_boundary t c n next /\ rt' = fenced rt t /\ x = Ok (fenced_row t)) \/
  (x = Err (RuntimeThreads.BoundaryClaimConflict "RUNTIME_BOUNDARY_CLAIM_CONFLICT") /\ rt' = rt).
Proof.
  intros Wf. unfold RuntimeThreads.claim_override_boundary, RuntimeThreads.claim_boundary, RuntimeThreads.update_boundary.
  destruct (RuntimeThreads.threads rt !! thread) as [t|] eqn:E; [|intros [= <- <-]; by right].
  destruct (RuntimeThreads.boundary_matches t _ c n next) eqn:M; intros [= <- <-]; [|by right].
  left. exists t. apply boundary_matches_spec in M. split; [done|]. split; [by apply (RuntimeThreads.wf_key _ Wf)|]. done.
Qed.

Lemma update_inv max source patch node next oid c x c' : update max source patch node next oid c = (Ok x, c') ->
  exists nodes, validate max source (record x) nodes patch next = Ok tt.
Proof.
  unfold update. destruct (negb _); [done|].
  intros [(cid & c1 & _ & E)|(e & _ & [=])]%bind_action_inv. destruct (text_of cid); [|done].
  apply bind_action_inv in E as [(r & c2 & _ & E)|(e & _ & [=])]. destruct r as [r|]; [|done].
  apply bind_action_inv in E as [(nodes & c3 & _ & E)|(e & _ & [=])]. destruct (validate _ _ _ _ _ _) as [[]|] eqn:V; [|done].
  injection E as <- _. by exists nodes.
Qed.

(** *** From the claim to the answer *)
Context (now : Z).

(** What the promotion needs of the row of this request. *)
Definition row_of_request (r : RuntimeOverride) : Prop :=
  thread_id (command r) = thread /\ expected_version (command r) = req_expected_version rq /\ expected_next_node (command r) = req_expected_next_node rq.

Definition needs_release w : bool := claimed w && negb (candidate_created w).

Definition promoted_threads base t (u : CheckpointRecord) rt : Prop :=
  RuntimeThreads.threads rt !! thread = Some (RuntimeThreads.bump (override_promoted (fenced_row t) (rec_checkpoint_id u) (serialized_size_bytes u))) /\
  (forall k, k <> thread -> RuntimeThreads.threads rt !! k = RuntimeThreads.threads (within_promotion o (fenced base t)) !! k).

(** The ways [apply_claimed] ends, before the cleanup. *)
Inductive claimed_end base t (source : CheckpointRecord) (oid : string) : result StoredRuntimeOverride -> world (R := R) (C := C) -> Prop :=
| end_raised e w' : needs_release w' = true -> threads (db w') = fenced base t ->
    (forall r, by_id (db w') oid = Some r -> status r <> APPLIED) -> claimed_end base t source oid (Err e) w'
| end_update_failed y w' : needs_release w' = false -> threads (db w') = released base t -> status (item y) = FAILED ->
    by_id (db w') oid = Some (item y) -> claimed_end base t source oid (Ok y) w'
| end_partial y w' : needs_release w' = false -> threads (db w') = fenced base t \/ threads (db w') = within_promotion o (fenced base t) ->
    status (item y) = PARTIAL -> by_id (db w') oid = Some (item y) -> claimed_end base t source oid (Ok y) w'
| end_promoted x w' u : needs_release w' = false -> candidate (max_checkpoint_bytes v) source u (req_new_value rq) ->
    promoted_threads base t u (threads (db w')) -> req_expected_next_node rq = RuntimeThreads.next_node t ->
    (exists r, by_id (db w') oid = Some r /\ status r = APPLIED /\ forall y, x = Ok y -> item y = r) -> claimed_end base t source oid x w'.

(** The events after a promotion change the row's event status only. *)
Lemma published_end oid r w x w' : by_id (db w) oid = Some r ->
  match event_publisher v with
  | None => on_db (mark_event_status oid EV_PUBLISHED)
  | Some broker =>
      (do ok <- catch_action (do _ <- publish broker oid "RUNTIME_OVERRIDE_APPLIED"; ret_action true)
                  (fun e => if is_exception e then ret_action false else raise_action e);
       on_db (mark_event_status oid (if ok then EV_PUBLISHED else EV_FAILED)))%action
  end w = (x, w') ->
  threads (db w') = threads (db w) /\ claimed w' = claimed w /\ candidate_created w' = candidate_created w /\
  exists r', by_id (db w') oid = Some r' /\ status r' = status r /\ forall y, x = Ok y -> item y = r'.
Proof.
  intros B.
  assert (M : forall ev w1, db w1 = db w -> on_db (mark_event_status oid ev) w1 = (x, w') ->
    threads (db w') = threads (db w) /\ claimed w' = claimed w1 /\ candidate_created w' = candidate_created w1 /\
    exists r', by_id (db w') oid = Some r' /\ status r' = status r /\ forall y, x = Ok y -> item y = r').
  { intros ev w1 D [E (_ & S1 & S2)]%on_db_inv. rewrite D in E. destruct (mark_event_spec (db w) oid r ev B) as (s' & E' & B' & T').
    rewrite E' in E. injection E as <- <-. split; [done|]. split; [done|]. split; [done|]. exists (row_event ev r). split; [done|]. split; [done|]. by intros y [= <-]. }
  destruct (event_publisher v) as [broker|]; [|by apply M].
  assert (P : forall a w1, catch_action (do _ <- publish broker oid "RUNTIME_OVERRIDE_APPLIED"; ret_action true)%action
      (fun e => if is_exception e then ret_action false else raise_action e) w = (a, w1) -> db w1 = db w /\ claimed w1 = claimed w /\ candidate_created w1 = candidate_created w).
  { intros a w1 E. unfold catch_action, bind_action, publish, sent in E. case_bool_decide; [by injection E as _ <-|].
    destruct (broker _ _) as [?|e]; [by injection E as _ <-|]. destruct (is_exception e); by injection E as _ <-. }
  intros [(ok & w1 & E1 & E)|(e & E1 & ->)]%bind_action_inv; destruct (P _ _ E1) as (D & S1 & S2).
  - apply (M _ _ D) in E as (E & F1 & F2 & G). split; [done|]. rewrite <- S1, <- S2. done.
  - rewrite D. split; [done|]. split; [done|]. split; [done|]. exists r. split; [done|]. split; [done|]. by intros y [=].
Qed.

Section from_claim.
Context (base : RuntimeThreads.store) (t t0 : RuntimeThreads.RuntimeThread) (source : CheckpointRecord) (oid next : string).
Context (It : RuntimeThreads.thread_id t = thread).
Context (Bt : at_boundary t (rec_checkpoint_id source) (req_expected_version rq) next).
Context (V0 : RuntimeThreads.state_version t0 = req_expected_version rq) (N0 : or_else (RuntimeThreads.next_node t0) "" = next).

Lemma update_failed_end w x w' r : threads (db w) = fenced base t -> by_id (db w) oid = Some r -> status r <> APPLIED ->
  (do _ <- on_threads (RuntimeThreads.release_override_boundary thread (rec_checkpoint_id source) (RuntimeThreads.state_version t0) next);
   do _ <- set_claimed false; conclude now oid "CHECKPOINT_UPDATE_FAILED" FAILED)%action w = (x, w') ->
  claimed_end base t source oid x w'.
Proof.
  intros T B N E. rewrite V0 in E.
  apply bind_action_inv in E as [(a & w1 & E1 & E)|(e & E1 & ->)]; apply on_threads_inv in E1 as (E1 & B1 & S1);
    rewrite T, (release_fenced base t _ _ _ It Bt) in E1; [|done].
  injection E1 as _ T1. unfold bind_action, set_claimed in E.
  apply on_db_inv in E as [E (_ & S2 & _)]. cbn [db claimed] in E, S2.
  destruct (finish_spec (db w1) oid r FAILED Decision_REJECTED "CHECKPOINT_UPDATE_FAILED" now) as (s' & F & B' & T'); [by rewrite B1|done|set_solver|].
  rewrite F in E. injection E as <- E. apply end_update_failed; try done; [unfold needs_release; by rewrite S2|by rewrite <- E, T'|by rewrite <- E].
Qed.

Lemma promotion_end w x w' r u : threads (db w) = fenced base t -> by_id (db w) oid = Some r -> status r = APPLYING ->
  result_checkpoint_id r = None -> source_checkpoint_id r = Some (rec_checkpoint_id source) -> row_of_request r ->
  candidate (max_checkpoint_bytes v) source u (req_new_value rq) ->
  (do _ <- set_candidate true;
   do _ <- on_db (attach_result_checkpoint oid (rec_checkpoint_id u));
   do applied <- except_as ["ThreadVersionConflict"%string]
     (do y <- on_db (promote_applied (within_promotion o) oid (rec_checkpoint_id u) (serialized_size_bytes u) now); ret_action (Some y)) (ret_action None);
   match applied with
   | None => on_db (mark_partial oid "CHECKPOINT_PROMOTION_CONFLICT" now)
   | Some y =>
       do _ <- set_claimed false;
       match event_publisher v with
       | None => on_db (mark_event_status oid EV_PUBLISHED)
       | Some broker =>
           do ok <- catch_action (do _ <- publish broker oid "RUNTIME_OVERRIDE_APPLIED"; ret_action true)
                      (fun e => if is_exception e then ret_action false else raise_action e);
           on_db (mark_event_status oid (if ok then EV_PUBLISHED else EV_FAILED))
       end
   end)%action w = (x, w') ->
  claimed_end base t source oid x w'.
Proof.
  intros T B A Rn Src (Rt & Rv & Rx) Cand E. unfold bind_action at 1, set_candidate in E.
  set (w0 := {| db := db w; redis := redis w; saver := saver w; published := published w; claimed := claimed w; candidate_created := true |}) in E.
  destruct (attach_spec (db w) oid r (rec_checkpoint_id u) B A Rn) as (s1 & At & B1 & T1).
  apply bind_action_inv in E as [(a & w1 & E1 & E)|(e & E1 & ->)]; apply on_db_inv in E1 as [E1 (_ & _ & S1)]; cbn [db w0] in E1; rewrite At in E1; [|done].
  injection E1 as _ D1. cbn [candidate_created w0] in S1. set (r1 := row_result (rec_checkpoint_id u) r) in B1.
  assert (B' : by_id (db w1) oid = Some r1) by (by rewrite <- D1). assert (T' : threads (db w1) = fenced base t) by (by rewrite <- D1, T1).
  assert (Lt : RuntimeThreads.threads (threads (db w1)) !! thread = Some (fenced_row t)) by (rewrite T'; by apply fenced_lookup).
  assert (Nap : status r1 <> APPLIED) by (simpl; congruence).
  (* the promotion *)
  assert (Part : forall w2 y, candidate_created w2 = true -> by_id (db w2) oid = Some r1 ->
    threads (db w2) = fenced base t \/ threads (db w2) = within_promotion o (fenced base t) ->
    on_db (mark_partial oid "CHECKPOINT_PROMOTION_CONFLICT" now) w2 = (y, w') -> claimed_end base t source oid y w').
  { intros w2 y C2 B2 T2 [E2 (_ & _ & S2)]%on_db_inv.
    destruct (close_spec (db w2) oid r1 PARTIAL None "CHECKPOINT_PROMOTION_CONFLICT" now B2 Nap) as (s' & F & Bf & Tf).
    unfold mark_partial in E2. rewrite F in E2. injection E2 as <- E2. apply end_partial; try done.
    - unfold needs_release. rewrite S2, C2. by rewrite andb_false_r.
    - by rewrite <- E2, Tf.
    - by rewrite <- E2. }
  assert (Pr : forall y w2, on_db (promote_applied (within_promotion o) oid (rec_checkpoint_id u) (serialized_size_bytes u) now) w1 = (y, w2) ->
    candidate_created w2 = true /\
    ((y = Err PromotionFailed /\ by_id (db w2) oid = Some r1 /\ (threads (db w2) = fenced base t \/ threads (db w2) = within_promotion o (fenced base t))) \/
     (exists z, y = Ok z /\ promoted_threads base t u (threads (db w2)) /\ req_expected_next_node rq = RuntimeThreads.next_node t /\
        by_id (db w2) oid = Some (item z) /\ status (item z) = APPLIED))).
  { intros y w2 [E2 (_ & _ & S2)]%on_db_inv. split; [by rewrite S2|].
    destruct (promote_applied_spec _ _ _ _ _ _ _ _ _ B' Nap E2) as [(e & -> & Be & [(-> & K & _)|(-> & K)])|(t1 & rt & Lt1 & P & K & Tr & -> & Be)].
    - simpl in K. rewrite Rt in K. congruence.
    - left. split; [done|]. split; [done|]. destruct K as [K|K]; rewrite K; [left|right]; unfold with_threads; cbn [threads]; by rewrite T'.
    - right. eexists. split; [reflexivity|]. simpl in Lt1. rewrite Rt, Lt in Lt1. injection Lt1 as <-.
      apply commit_promotion_row in K as (K1 & _ & K2 & _). cbn [override_promoted RuntimeThreads.thread_id fenced_row RuntimeThreads.set_status] in K1, K2. rewrite It in K1, K2.
      rewrite Tr. split; [split; [done|]; intros k Nk; rewrite K2 by done; by rewrite T'|].
      unfold promotable in P. rewrite !andb_true_iff, !bool_decide_eq_true in P. destruct P as [_ P]. simpl in P. by rewrite Rx in P. }
  apply bind_action_inv in E as [(ap & w2 & E2 & E)|(e & E2 & ->)];
    apply except_as_inv in E2 as [(a' & E2 & Ha)|[(e' & w3 & E2 & Cls & E3)|(e' & E2 & Cls & Ha)]]; try discriminate Ha; try (by injection E3);
    apply bind_action_inv in E2 as [(z & w4 & E4 & E5)|(e4 & E4 & He)]; try discriminate; try (by injection E5).
  all: destruct (Pr _ _ E4) as (Cc & [(Q1 & Q2 & Q3)|(z' & Q1 & Q2 & Q3 & Q4 & Q5)]); try discriminate Q1.
  - injection E5 as <- <-. injection Ha as ->. injection Q1 as ->. unfold bind_action at 1, set_claimed in E.
    set (w5 := {| db := db w4 |}) in E. destruct (published_end oid (item z') w5 x w' Q4 E) as (T5 & S5 & _ & r5 & B5 & St5 & F5).
    apply (end_promoted _ _ _ _ _ _ u); try done; [unfold needs_release; by rewrite S5|by rewrite T5|]. exists r5. split; [done|]. split; [congruence|done].
  - injection E3 as <- <-. injection He as ->. by apply (Part w3 x).
  - injection He as ->. injection Q1 as ->. discriminate Cls.
Qed.

Lemma apply_claimed_end w x w' r : threads (db w) = fenced base t -> by_id (db w) oid = Some r -> status r = PENDING ->
  result_checkpoint_id r = None -> row_of_request r -> candidate_created w = false ->
  apply_claimed v o now oid thread rq t0 source w = (x, w') -> claimed_end base t source oid x w'.
Proof.
  intros T B P Rn Rr Cc E. unfold apply_claimed in E. rewrite N0 in E. unfold bind_action at 1, set_claimed at 1 in E.
  set (w0 := {| db := db w; claimed := true |}) in E.
  apply bind_action_inv in E as [(a & w1 & E1 & E)|(e & E1 & ->)]; apply on_db_inv in E1 as [E1 (_ & C1 & K1)]; cbn [db claimed candidate_created w0] in E1, C1, K1;
    pose proof (mark_applying_spec (db w) oid r (RuntimeThreads.state_version t0) (rec_checkpoint_id source) now B P) as M; rewrite E1 in M.
  2: { apply end_raised; [unfold needs_release; by rewrite C1, K1, Cc|by rewrite M|]. intros r' Br. rewrite M, B in Br. injection Br as <-. by rewrite P. }
  destruct M as [B1 T1]. rewrite T in T1.
  apply bind_action_inv in E as [(up & w2 & E2 & E)|(e & E2 & ->)];
    apply except_as_inv in E2 as [(a' & E2 & Ha)|[(e' & w3 & E2 & Cls & E3)|(e' & E2 & Cls & Ha)]]; try discriminate Ha; try (by injection E3);
    apply bind_action_inv in E2 as [(z & w4 & E4 & E5)|(e4 & E4 & He)]; try discriminate; try (by injection E5);
    apply on_saver_inv in E4 as (E4 & D4 & C4 & K4).
  - injection E5 as <- <-. injection Ha as ->. apply update_inv in E4 as (nodes & V).
    apply (promotion_end w4 x w' (row_applying (RuntimeThreads.state_version t0) (rec_checkpoint_id source) now r) (record z)); try done; try (by rewrite D4).
    by apply validate_candidate in V.
  - injection E3 as <- <-. apply (update_failed_end w3 x w' (row_applying (RuntimeThreads.state_version t0) (rec_checkpoint_id source) now r)); try done; by rewrite D4.
  - apply end_raised; [unfold needs_release; by rewrite C4, K4, C1, K1, Cc|by rewrite D4|].
    intros r' Br. rewrite D4, B1 in Br. by injection Br as <-.
Qed.
End from_claim.

(** *** From the lock to the answer *)
Lemma evaluate_allowed c t state : allowed (evaluate c t state) = true <->
  RuntimeThreads.status t = RuntimeThreads.STABLE /\ (entity_type c, field c) = ALLOWED_TARGET /\
  (RuntimeThreads.current_node t, RuntimeThreads.next_node t) = ALLOWED_BOUNDARY /\
  (expected_next_node c = None \/ expected_next_node c = Some "capacity"%string) /\
  (old_value c, new_value c) ∈ ALLOWED_TRANSITIONS /\
  ThreadRunner.equals_str (Evidence.get state "vehicle_id") (entity_id c) = true /\
  ThreadRunner.equals_str (Evidence.get state "vehicle_status") (old_value c) = true.
Proof.
  unfold allowed. rewrite bool_decide_eq_true. unfold evaluate.
  assert (Bad : forall p d code, d <> ALLOWED -> (p -> False) -> verdict {| verdict := d; verdict_code := Some code |} = ALLOWED <-> p).
  { intros p d code N F. simpl. tauto. }
  case_bool_decide as B1; [apply Bad; [done|]; intros (A1 & _); congruence|].
  case_bool_decide as B2; cbn [negb]; [|apply Bad; [done|]; by intros (A1 & _)].
  case_bool_decide as B3; cbn [negb]; [|apply Bad; [done|]; by intros (_ & A2 & _)].
  case_bool_decide as B4; cbn [negb]; [|apply Bad; [done|]; by intros (_ & _ & A3 & _)].
  injection B4 as B4 B4'.
  destruct (match expected_next_node c with Some n => negb (bool_decide (RuntimeThreads.next_node t = Some n)) | None => false end) eqn:X.
  { apply Bad; [done|]. intros (_ & _ & _ & [A4|A4] & _); rewrite A4 in X; [done|]. by rewrite bool_decide_eq_true_2 in X. }
  assert (X' : expected_next_node c = None \/ expected_next_node c = Some "capacity"%string).
  { destruct (expected_next_node c) as [n|]; [right|by left]. apply negb_false_iff, bool_decide_eq_true in X. congruence. }
  case_bool_decide as B5; cbn [negb]; [|apply Bad; [done|]; by intros (_ & _ & _ & _ & A5 & _)].
  destruct (ThreadRunner.equals_str (Evidence.get state "vehicle_id") (entity_id c)); cbn [negb]; [|apply Bad; [done|]; by intros (_ & _ & _ & _ & _ & A6 & _)].
  destruct (ThreadRunner.equals_str (Evidence.get state "vehicle_status") (old_value c)); cbn [negb]; [|apply Bad; [done|]; by intros (_ & _ & _ & _ & _ & _ & A7)].
  split; [intros _|done]. split_and!; try done. unfold ALLOWED_BOUNDARY. congruence.
Qed.

Record command_of_request (c : RuntimeOverrideCommand) : Prop := {
  cr_type : entity_type c = req_entity_type rq;
  cr_entity : entity_id c = req_entity_id rq;
  cr_field : field c = req_field rq;
  cr_old : old_value c = req_old_value rq;
  cr_new : new_value c = req_new_value rq;
  cr_row : thread_id c = thread /\ expected_version c = req_expected_version rq /\ expected_next_node c = req_expected_next_node rq;
}.

(** The boundary read under the lock, approved by the policy. *)
Record approved_boundary w t0 (source : CheckpointRecord) : Prop := {
  ab_thread : RuntimeThreads.threads (threads (db w)) !! thread = Some t0;
  ab_boundary : at_boundary t0 (rec_checkpoint_id source) (req_expected_version rq) "capacity";
  ab_node : RuntimeThreads.current_node t0 = Some "environment"%string;
  ab_target : (req_entity_type rq, req_field rq) = ALLOWED_TARGET;
  ab_transition : (req_old_value rq, req_new_value rq) ∈ ALLOWED_TRANSITIONS;
  ab_source : get_exact (saver w) thread (rec_checkpoint_id source) = Ok (Some source);
  ab_vehicle : ThreadRunner.equals_str (Evidence.get (rec_state source) "vehicle_id") (req_entity_id rq) = true;
  ab_status : ThreadRunner.equals_str (Evidence.get (rec_state source) "vehicle_status") (req_old_value rq) = true;
}.

Inductive locked_end w (oid : string) : result StoredRuntimeOverride -> world (R := R) (C := C) -> Prop :=
| locked_refused y w' : needs_release w' = false -> threads (db w') = threads (db w) \/ threads (db w') = before_claim o (threads (db w)) ->
    by_id (db w') oid = Some (item y) -> status (item y) ∈ [REJECTED; CONFLICT; FAILED] -> locked_end w oid (Ok y) w'
| locked_claimed t0 source t x w' : approved_boundary w t0 source ->
    RuntimeThreads.threads (before_claim o (threads (db w))) !! thread = Some t -> RuntimeThreads.thread_id t = thread ->
    at_boundary t (rec_checkpoint_id source) (req_expected_version rq) "capacity" ->
    claimed_end (before_claim o (threads (db w))) t source oid x w' -> locked_end w oid x w'.

Lemma conclude_refused w1 oid r code st x w' w : by_id (db w1) oid = Some r -> status r <> APPLIED -> st ∈ [REJECTED; CONFLICT; FAILED] ->
  needs_release w1 = false -> threads (db w1) = threads (db w) \/ threads (db w1) = before_claim o (threads (db w)) ->
  (exists d, on_db (finish oid st d code now) w1 = (x, w')) -> locked_end w oid x w'.
Proof.
  intros B N St Rl T (d & [E (_ & C1 & K1)]%on_db_inv). destruct (finish_spec (db w1) oid r st d code now B N St) as (s' & F & B' & T').
  rewrite F in E. injection E as <- E. apply locked_refused; [unfold needs_release; by rewrite C1, K1|by rewrite <- E, T'|by rewrite <- E|done].
Qed.

Lemma get_exact_id {D} `{CheckpointStore D} (d : D) k c r : get_exact d k c = Ok (Some r) -> rec_checkpoint_id r = c.
Proof. unfold get_exact. destruct (aget_tuple d k c) as [[x|]|]; try done. destruct (String.eqb_spec (rec_checkpoint_id x) c); [|done]. by intros [= <-]. Qed.

Lemma apply_locked_end w oid c r x w' : RuntimeThreads.wf (before_claim o (threads (db w))) ->
  by_id (db w) oid = Some r -> status r = PENDING -> result_checkpoint_id r = None -> command_of_request c -> row_of_request r ->
  claimed w = false -> candidate_created w = false -> apply_locked v o now oid thread rq c w = (x, w') -> locked_end w oid x w'.
Proof.
  intros Wf B P Rn [Q1 Q2 Q3 Q4 Q5 (Q6 & Q7 & Q8)] Rr Cf Cc E.
  assert (Ref : forall w1 code st d, db w1 = db w -> claimed w1 = false -> st ∈ [REJECTED; CONFLICT; FAILED] ->
    on_db (finish oid st d code now) w1 = (x, w') -> locked_end w oid x w').
  { intros w1 code st d D C1 St E1. apply (conclude_refused w1 oid r code st); [by rewrite D|congruence|done|by unfold needs_release; rewrite C1|left; by rewrite D|by exists d]. }
  assert (Con : forall w1 code st, db w1 = db w -> claimed w1 = false -> st ∈ [REJECTED; CONFLICT; FAILED] ->
    conclude now oid code st w1 = (x, w') -> locked_end w oid x w') by (intros w1 code st D C1 St E1; by apply (Ref w1 code st _ D C1 St E1)).
  unfold apply_locked, bind_action at 1, read in E. unfold RuntimeThreads.get_by_thread_id in E.
  destruct (RuntimeThreads.threads (threads (db w)) !! thread) as [t0|] eqn:L0; [|apply (Con w) in E; [done|done|done|set_solver]].
  case_bool_decide as D1; [apply (Con w) in E; [done|done|done|set_solver]|].
  case_bool_decide as D2; cbn [negb] in E; [|apply (Con w) in E; [done|done|done|set_solver]].
  destruct (RuntimeThreads.state_version t0 =? req_expected_version rq) eqn:Vn; cbn [negb] in E; [|apply (Con w) in E; [done|done|done|set_solver]].
  apply Z.eqb_eq in Vn. destruct (RuntimeThreads.current_checkpoint_id t0) as [cp|] eqn:Cp; [|apply (Con w) in E; [done|done|done|set_solver]].
  (* reading the checkpoint *)
  apply bind_action_inv in E as [(found & w1 & E1 & E)|(e & E1 & ->)];
    apply except_as_inv in E1 as [(a' & E1 & Ha)|[(e' & w2 & E1 & Cls & E3)|(e' & E1 & Cls & Ha)]]; try discriminate Ha; try (by injection E3);
    apply bind_action_inv in E1 as [(z & w3 & E4 & E5)|(e4 & E4 & He)]; try discriminate; try (by injection E5);
    apply on_saver_inv in E4 as (E4 & D4 & C4 & K4); unfold read_checkpoint in E4.
  2: { injection E3 as <- <-. apply (Con w2) in E; [done|done|congruence|set_solver]. }
  2: { injection E4 as E4 _. unfold get_exact in E4. destruct (aget_tuple _ _ _) as [[?|]|]; try discriminate E4. injection E4 as <-. injection He as ->. discriminate Cls. }
  injection E5 as <- <-. injection Ha as ->. injection E4 as E4 _. destruct z as [source|]; [|apply (Con w3) in E; [done|done|congruence|set_solver]].
  pose proof (get_exact_id _ _ _ _ E4) as Ids. cbn zeta in E. destruct (allowed (evaluate c t0 (rec_state source))) eqn:Al; cbn [negb] in E.
  2: { apply (Ref w3) in E; [done|done|congruence|]. destruct (verdict _); set_solver. }
  apply evaluate_allowed in Al as (_ & A2 & A3 & A4 & A5 & A6 & A7). injection A3 as A3 A3'.
  assert (Ab : approved_boundary w t0 source).
  { split; try done; rewrite ?Ids, <- ?Q1, <- ?Q2, <- ?Q3, <- ?Q4, <- ?Q5; try done. }
  (* the claim *)
  rewrite A3' in E. cbn [or_else String.eqb] in E.
  apply bind_action_inv in E as [(cl & w4 & E6 & E)|(e & E6 & ->)];
    apply except_as_inv in E6 as [(a' & E6 & Ha)|[(e' & w5 & E6 & Cls & E7)|(e' & E6 & Cls & Ha)]]; try discriminate Ha; try (by injection E7);
    apply bind_action_inv in E6 as [(z & w6 & E8 & E9)|(e8 & E8 & He)]; try discriminate; try (by injection E9);
    apply on_threads_inv in E8 as (E8 & B8 & _ & C8 & K8); rewrite D4 in E8; apply claim_inv in E8 as [(t & Lt & It & Bt & T8 & X8)|[X8 T8]]; try done.
  - injection E9 as <- <-. injection Ha as ->. apply (locked_claimed w oid t0 source t); try done; [by rewrite Vn in Bt|].
    apply (apply_claimed_end _ t t0 source oid "capacity") with (w := w6) (r := r); try done; [by rewrite Vn in Bt|by rewrite A3'|by rewrite B8, D4|by rewrite K8, K4].
  - injection E7 as <- <-. apply (conclude_refused w5 oid r "THREAD_NOT_STABLE" CONFLICT);
      [by rewrite B8, D4|congruence|set_solver|unfold needs_release; by rewrite C8, C4, Cf|right; exact T8|by exists NEEDS_DIFFERENT_BOUNDARY].
  - injection X8 as X8. injection He as He. rewrite He, X8 in Cls. discriminate Cls.
Qed.

(** *** The cleanup *)
Lemma on_lock_inv {A} (m : action R A) w x w' : on_lock m w = (x, w') -> db w' = db w /\ saver w' = saver w /\ claimed w' = claimed w /\ candidate_created w' = candidate_created w.
Proof. unfold on_lock. destruct (m (redis w)). by intros [= _ <-]. Qed.

Lemma record_timings_keeps oid ts w x w' : on_db (record_timings oid ts) w = (x, w') ->
  threads (db w') = threads (db w) /\ forall i, by_id (db w') i = by_id (db w) i.
Proof. intros [E _]%on_db_inv. unfold record_timings in E. destruct (negb _); by injection E as _ <-. Qed.

Lemma cleanup_idle measured oid h w y w' : needs_release w = false -> cleanup measured thread oid h w = (y, w') ->
  threads (db w') = threads (db w) /\ forall i, by_id (db w') i = by_id (db w) i.
Proof.
  intros N E. unfold cleanup in E. apply bind_action_inv in E as [(b & w1 & E1 & E)|(e & E1 & ->)]; apply on_lock_inv in E1 as (D1 & _ & C1 & K1); [|by rewrite D1].
  unfold bind_action at 1 in E. rewrite C1, K1 in E. unfold needs_release in N. rewrite N in E.
  unfold bind_action, ret_action in E. apply record_timings_keeps in E as [T B]. rewrite T, D1. split; [done|]. intros i. by rewrite B, D1.
Qed.

Lemma or_else_some (x : string) : or_else (Some x) "" = x.
Proof. simpl. by destruct (String.eqb_spec x "") as [->|]. Qed.

Lemma release_boundary_fenced base t c n next w z w' : RuntimeThreads.thread_id t = thread -> at_boundary t c n next ->
  threads (db w) = fenced base t -> release_boundary thread (fenced_row t) w = (z, w') ->
  threads (db w') = released base t /\ (forall i, by_id (db w') i = by_id (db w) i) /\ exists q, z = Ok q.
Proof.
  intros It Bt T [E (B & _)]%on_threads_inv. rewrite T in E.
  cbn [RuntimeThreads.current_checkpoint_id RuntimeThreads.next_node RuntimeThreads.state_version fenced_row RuntimeThreads.set_status] in E.
  destruct Bt as (Bs & Bc & Bn & Bx). rewrite Bc, Bx, !or_else_some, (release_fenced base t c (RuntimeThreads.state_version t) next) in E by done.
  injection E as <- E. split; [done|]. split; [done|eauto].
Qed.

Lemma cleanup_release measured oid h base t c n next w y w' : RuntimeThreads.thread_id t = thread -> at_boundary t c n next ->
  needs_release w = true -> threads (db w) = fenced base t -> cleanup measured thread oid h w = (y, w') ->
  (forall i, by_id (db w') i = by_id (db w) i) /\ (threads (db w') = released base t \/ threads (db w') = fenced base t).
Proof.
  intros It Bt N T E. unfold cleanup in E. apply bind_action_inv in E as [(b & w1 & E1 & E)|(e & E1 & ->)]; apply on_lock_inv in E1 as (D1 & _ & C1 & K1).
  2: { rewrite D1. auto. }
  unfold bind_action at 1 in E. rewrite C1, K1 in E. unfold needs_release in N. rewrite N in E.
  apply bind_action_inv in E as [(u & w2 & E2 & E)|(e & E2 & ->)]; unfold bind_action at 1, read, RuntimeThreads.get_by_thread_id in E2;
    rewrite D1, T, (fenced_lookup base t It) in E2; cbn [fenced_row RuntimeThreads.set_status RuntimeThreads.status] in E2; rewrite bool_decide_eq_true_2 in E2 by done;
    apply bind_action_inv in E2 as [(q & w3 & E2 & E3)|(e' & E2 & Q)]; try discriminate;
    destruct (release_boundary_fenced base t c n next _ _ _ It Bt (eq_trans (f_equal threads D1) T) E2) as (T3 & B3 & q' & Hq); try discriminate Hq.
  injection E3 as _ <-. apply record_timings_keeps in E as [T4 B4].
  split; [intros i; by rewrite B4, B3, D1|left; by rewrite T4].
Qed.

(** *** The whole call *)
Lemma make_command_ok fresh p c : make_command now fresh thread rq p = Ok c ->
  command_of_request c /\ override_id c = fresh /\ idempotency_key c = req_idempotency_key rq /\ operator_id c = subject_id p.
Proof.
  unfold make_command. destruct (head _) as [role|]; [|done]. unfold validated.
  destruct (List.find _ _) as [[[? ?] ?]|]; [done|]. destruct (_ <? 0); [done|]. case_bool_decide; [done|]. by intros [= <-].
Qed.

(** A new request: the row is inserted and nothing else has happened. *)
Lemma begin_new env c fp exp s x s' : env s = s -> by_key s (idempotency_key c) = None ->
  begin_or_replay env c fp exp s = (x, s') ->
  (exists e, x = Err e /\ s' = s) \/
  (exists r, x = Ok (snapshot r false) /\ command r = c /\ status r = PENDING /\ result_checkpoint_id r = None /\
     by_id s' (override_id c) = Some r /\ threads s' = threads s).
Proof.
  intros Es K. unfold begin_or_replay. rewrite K, Es, K.
  destruct (RuntimeThreads.get_by_thread_id _ _) as [t|]; [|intros [= <- <-]; left; eauto].
  destruct (insert_row s _) as [s2|e] eqn:I; intros [= <- <-]; [right|left; eauto].
  apply insert_row_ok in I as (B & T & _ & _). eexists. split; [reflexivity|]. done.
Qed.

Definition effect_of w x w' (fresh : string) (p : AuthenticatedPrincipal) : Prop :=
  exists base k, (base = threads (db w) \/ base = before_claim o (threads (db w))) /\
    effect w base k (threads (db w')) /\ (k = Promoted -> can p RUNTIME_OVERRIDE = true) /\
    (forall y, x = Ok y -> announces (status (item y)) k /\ by_id (db w') fresh = Some (item y)) /\
    (k = Promoted <-> exists r, by_id (db w') fresh = Some r /\ status r = APPLIED).

Lemma effect_untouched w x w' fresh p : threads (db w') = threads (db w) \/ threads (db w') = before_claim o (threads (db w)) ->
  (forall r, by_id (db w') fresh = Some r -> status r <> APPLIED) ->
  (forall y, x = Ok y -> status (item y) ∈ [REJECTED; CONFLICT; FAILED] /\ by_id (db w') fresh = Some (item y)) -> effect_of w x w' fresh p.
Proof.
  intros T B S. exists (threads (db w')), Untouched. split; [done|]. split; [apply effect_none|]. split; [done|]. split.
  - intros y Y. destruct (S y Y) as [S1 S2]. split; [|done]. unfold announces. destruct (status (item y)); try done; set_solver.
  - split; [done|]. intros (r & Br & Sr). by destruct (B r Br).
Qed.

Lemma claimed_end_effect w w1 w2 t0 t source x w' fresh p measured h y :
  threads (db w1) = threads (db w) -> saver w1 = saver w -> approved_boundary w1 t0 source -> can p RUNTIME_OVERRIDE = true ->
  RuntimeThreads.threads (before_claim o (threads (db w))) !! thread = Some t -> RuntimeThreads.thread_id t = thread ->
  at_boundary t (rec_checkpoint_id source) (req_expected_version rq) "capacity" ->
  claimed_end (before_claim o (threads (db w))) t source fresh x w2 ->
  cleanup measured thread fresh h w2 = (y, w') -> effect_of w (match y with Ok _ => x | Err e => Err e end) w' fresh p.
Proof.
  intros T1 S1 [Q1 Q2 Q3 Q4 Q5 Q6 Q7 Q8] Cn Lt It Bt E K. rewrite T1 in Q1. rewrite S1 in Q6.
  set (base := before_claim o (threads (db w))) in *.
  assert (U : forall k, effect w base k (threads (db w')) -> k <> Promoted -> (forall r, by_id (db w') fresh = Some r -> status r <> APPLIED) ->
    (forall z, match y with Ok _ => x | Err e => Err e end = Ok z -> announces (status (item z)) k /\ by_id (db w') fresh = Some (item z)) -> effect_of w (match y with Ok _ => x | Err e => Err e end) w' fresh p).
  { intros k Ef Nk Nr An. exists base, k. split; [by right|]. split; [done|]. split; [done|]. split; [done|]. split; [done|].
    intros (r' & Br & Sr). by destruct (Nr r' Br). }
  destruct E as [e w2 N T B|z w2 N T St B|z w2 N T St B|x w2 u N Cand [P1 P2] Nx (r & B & St & F)].
  - destruct (cleanup_release _ _ _ _ _ _ _ _ _ _ _ It Bt N T K) as [B' [T'|T']].
    + apply (U Untouched); [rewrite T'; by apply effect_released|done|intros r; rewrite B'; apply B|by destruct y].
    + apply (U Fenced); [apply (effect_fenced _ _ t); [done|apply Bt|by left]|done|intros r; rewrite B'; apply B|by destruct y].
  - destruct (cleanup_idle _ _ _ _ _ _ N K) as [T' B']. apply (U Untouched); [rewrite T', T; by apply effect_released|done| |].
    + intros r. rewrite B', B. intros [= <-]. by rewrite St.
    + destruct y; [|done]. intros z' [= <-]. by rewrite St, B'.
  - destruct (cleanup_idle _ _ _ _ _ _ N K) as [T' B']. apply (U Fenced); [apply (effect_fenced _ _ t); [done|apply Bt|by rewrite T']|done| |].
    + intros r. rewrite B', B. intros [= <-]. by rewrite St.
    + destruct y; [|done]. intros z' [= <-]. by rewrite St, B'.
  - destruct (cleanup_idle _ _ _ _ _ _ N K) as [T' B']. exists base, Promoted. split; [by right|]. split; [|split; [done|split]].
    + destruct Bt as (Bs & Bc & Bn & Bx). apply (effect_promoted w base t0 t source u); try done; [congruence|by rewrite T'|intros k Nk; rewrite T'; by apply P2].
    + destruct y; [|done]. intros z Hz. rewrite (F z Hz). by rewrite St, B'.
    + split; [intros _|done]. exists r. by rewrite B'.
Qed.

Lemma apply_effect token fresh digest measured p w x w' :
  RuntimeThreads.wf (before_claim o (threads (db w))) -> within_begin o (db w) = db w ->
  by_key (db w) (req_idempotency_key rq) = None -> by_id (db w) fresh = None ->
  apply v o now token fresh digest measured thread rq p w = (x, w') -> effect_of w x w' fresh p.
Proof.
  intros Wf Wb Nk Ni E. unfold apply in E.
  assert (Q : forall e w1, threads (db w1) = threads (db w) -> (forall r, by_id (db w1) fresh = Some r -> status r <> APPLIED) -> effect_of w (Err e) w1 fresh p).
  { intros e w1 T B. apply effect_untouched; [by left|done|done]. }
  assert (Q0 : forall e, effect_of w (Err e) w fresh p) by (intros e; apply Q; [done|by rewrite Ni]).
  unfold bind_action at 1, read in E. destruct (RuntimeThreads.get_by_thread_id _ _); [|injection E as <- <-; apply Q0].
  destruct (can p RUNTIME_OVERRIDE) eqn:Cn; cbn [negb] in E; [|injection E as <- <-; apply Q0].
  destruct (make_command now fresh thread rq p) as [c|e] eqn:Mc; [|injection E as <- <-; apply Q0].
  apply make_command_ok in Mc as (Cr & Cf & Ck & Co).
  apply bind_action_inv in E as [(st & w1 & E1 & E)|(e & E1 & ->)]; apply on_db_inv in E1 as [E1 (S1 & _)];
    apply begin_new in E1 as [(e' & X & D)|(row & X & Rc & Rs & Rr & Br & T1)]; try done; try (by rewrite Ck); try discriminate X.
  2: { apply Q; [by rewrite D|by rewrite D, Ni]. }
  injection X as ->. cbn [replayed snapshot item andb] in E.
  assert (Id : row_id row = fresh) by (unfold row_id; by rewrite Rc). rewrite Cf in Br. rewrite Id in E.
  assert (Na : forall w2, db w2 = db w1 -> forall e, effect_of w (Err e) w2 fresh p).
  { intros w2 D e. apply Q; [by rewrite D|]. intros r' B. rewrite D, Br in B. injection B as <-. by rewrite Rs. }
  (* the request event *)
  apply bind_action_inv in E as [(u & w2 & E2 & E)|(e & E2 & ->)].
  all: assert (P2 : db w2 = db w1 /\ saver w2 = saver w1) || assert (P2 : db w' = db w1 /\ saver w' = saver w1).
  all: try (destruct (event_publisher v) as [broker|]; [|by injection E2 as _ <-];
    unfold catch_action, publish, sent in E2; case_bool_decide; [by injection E2 as _ <-|];
    destruct (broker _ _) as [?|e2]; [by injection E2 as _ <-|]; destruct (is_exception e2); by injection E2 as _ <-).
  all: destruct P2 as [D2 S2]. 2: { by apply Na. }
  (* the lock *)
  apply bind_action_inv in E as [(h & w3 & E3 & E)|(e & E3 & ->)]; apply on_lock_inv in E3 as (D3 & S3 & _). 2: { apply Na. congruence. }
  destruct (acquired h); cbn [negb] in E.
  2: { apply on_db_inv in E as [E _]. destruct (finish_spec (db w3) fresh row CONFLICT NEEDS_DIFFERENT_BOUNDARY "RUNTIME_OVERRIDE_BUSY" now) as (s' & F & B' & T'); [by rewrite D3, D2|congruence|set_solver|].
       rewrite F in E. injection E as <- E. apply effect_untouched; [left; rewrite <- E, T', D3, D2; exact T1| |].
       - intros r'. rewrite <- E, B'. by intros [= <-].
       - intros z [= <-]. rewrite <- E. split; [simpl; set_solver|done]. }
  unfold bind_action, set_claimed, set_candidate, with_cleanup in E. cbn [db redis saver published claimed candidate_created] in E.
  set (w4 := {| db := db w3 |}) in E. destruct (apply_locked v o now fresh thread rq c w4) as [y w5] eqn:L.
  destruct (cleanup measured thread fresh h w5) as [z w6] eqn:K.
  assert (Hx : x = match z with Ok _ => y | Err e => Err e end /\ w' = w6) by (by destruct z; injection E as <- <-). destruct Hx as [-> ->].
  assert (T4 : threads (db w4) = threads (db w)) by (subst w4; cbn [db]; by rewrite D3, D2).
  apply (apply_locked_end w4 fresh c row) in L; [|by rewrite T4|subst w4; cbn [db]; by rewrite D3, D2|done|done|done|unfold row_of_request; rewrite Rc; apply Cr|done|done].
  destruct L as [y w5 N T B S|t0 source t y w5 Ab Lt It Bt Ce].
  - destruct (cleanup_idle _ _ _ _ _ _ N K) as [T' B']. apply effect_untouched.
    + by rewrite T', <- T4.
    + intros r'. rewrite B', B. intros [= <-] Ap. rewrite Ap in S. set_solver.
    + destruct z; [|done]. intros q [= <-]. by rewrite B'.
  - rewrite T4 in Lt, Ce. apply (claimed_end_effect w w4 w5 t0 t source y w6 fresh p measured h z); try done. subst w4. cbn [saver]. congruence.
Qed.
End effects.

(** ** The commands on file

    No operation but [begin_or_replay] changes which commands are on file. *)
Definition on_file (s : store) : list (RuntimeOverrideCommand * string) := map (fun r => (command r, payload_fingerprint r)) (overrides s).

Lemma set_row_on_file s oid f : (forall r, command (f r) = command r /\ payload_fingerprint (f r) = payload_fingerprint r) -> on_file (set_row s oid f) = on_file s.
Proof. intros F. unfold on_file, set_row. cbn [overrides]. rewrite map_map. apply map_ext. intros r. destruct (String.eqb _ _); [|done]. by destruct (F r) as [-> ->]. Qed.

Definition db_steady {A} (m : action store A) : Prop := forall s x s', m s = (x, s') -> on_file s' = on_file s.

Lemma close_steady oid st d code now : db_steady (close oid st d code now).
Proof.
  intros s x s'. unfold close. destruct (required s oid); [|by intros [= _ <-]]. case_bool_decide; intros [= _ <-]; [done|].
  by apply set_row_on_file.
Qed.
Lemma finish_steady oid st d code now : db_steady (finish oid st d code now).
Proof. unfold finish. destruct st; try apply close_steady; by intros s x s' [= _ <-]. Qed.
Lemma mark_partial_steady oid code now : db_steady (mark_partial oid code now).
Proof. apply close_steady. Qed.
Lemma mark_event_steady oid e : db_steady (mark_event_status oid e).
Proof. intros s x s'. unfold mark_event_status. destruct (required s oid); intros [= _ <-]; [by apply set_row_on_file|done]. Qed.
Lemma record_timings_steady oid ts : db_steady (record_timings oid ts).
Proof. intros s x s'. unfold record_timings. destruct (negb _); by intros [= _ <-]. Qed.
Lemma attach_steady oid c : db_steady (attach_result_checkpoint oid c).
Proof.
  intros s x s'. unfold attach_result_checkpoint. destruct (required s oid) as [r|]; [|by intros [= _ <-]]. destruct (negb _); [by intros [= _ <-]|].
  destruct (match result_checkpoint_id r with Some d => _ | None => _ end); intros [= _ <-]; [done|by apply set_row_on_file].
Qed.
Lemma mark_applying_steady oid b c t : db_steady (mark_applying oid b c t).
Proof.
  intros s x s'. unfold mark_applying. destruct (required s oid) as [r|]; [|by intros [= _ <-]]. destruct (status r); try by intros [= _ <-].
  destruct (insert_attempt _ _) as [s1|e] eqn:I; intros [= _ <-]; [|done]. apply insert_attempt_ok in I as [O _].
  unfold on_file. rewrite O. by apply set_row_on_file.
Qed.
Lemma promote_steady env oid c n now : db_steady (promote_applied env oid c n now).
Proof.
  intros s x s'. unfold promote_applied. destruct (required s oid) as [r|]; [|by intros [= _ <-]]. case_bool_decide; [by intros [= _ <-]|].
  destruct (RuntimeThreads.get_by_thread_id _ _) as [t|]; [|by intros [= _ <-]]. destruct (negb _); [by intros [= _ <-]|].
  destruct (commit_promotion _ _ _ _ _); intros [= _ <-]; [|done]. by apply (set_row_on_file (with_threads s a)).
Qed.

Section steady.
Context {R C : Type} `{LockClient R, CheckpointStore C}.

Definition steady {A} (m : Act (R := R) (C := C) A) : Prop := forall w x w', m w = (x, w') -> on_file (db w') = on_file (db w).

Lemma steady_bind {A B} (m : Act (R := R) (C := C) A) (f : A -> Act B) : steady m -> (forall a, steady (f a)) -> steady (bind_action m f).
Proof.
  intros M F w x w' [(a & w1 & E1 & E2)|(e & E1 & _)]%bind_action_inv; [|by apply (M _ _ _ E1)].
  by rewrite (F _ _ _ _ E2), (M _ _ _ E1).
Qed.
Lemma steady_except {A} cls (m h : Act (R := R) (C := C) A) : steady m -> steady h -> steady (except_as cls m h).
Proof.
  intros M F w x w' [(a & E & _)|[(e & w1 & E & _ & E2)|(e & E & _)]]%except_as_inv; [by apply (M _ _ _ E)| |by apply (M _ _ _ E)].
  by rewrite (F _ _ _ E2), (M _ _ _ E).
Qed.
Lemma steady_catch {A} (m : Act (R := R) (C := C) A) h : steady m -> (forall e, steady (h e)) -> steady (catch_action m h).
Proof.
  intros M F w x w'. unfold catch_action. destruct (m w) as [[a|e] w1] eqn:E; [intros [= _ <-]; by apply (M _ _ _ E)|].
  intros E2. by rewrite (F _ _ _ _ E2), (M _ _ _ E).
Qed.
Lemma steady_still {A} (m : Act (R := R) (C := C) A) : (forall w, db (m w).2 = db w) -> steady m.
Proof. intros F w x w' E. specialize (F w). rewrite E in F. simpl in F. by rewrite F. Qed.
Lemma steady_db {A} (m : action store A) : db_steady m -> steady (on_db m).
Proof. intros M w x w' [E _]%on_db_inv. by apply (M _ _ _ E). Qed.
Lemma steady_threads {A} (m : action RuntimeThreads.store A) : steady (on_threads m).
Proof. apply steady_db. intros s x s'. destruct (m (threads s)). by intros [= _ <-]. Qed.
Lemma steady_ret {A} (a : A) : steady (ret_action a).
Proof. by apply steady_still. Qed.
Lemma steady_raise {A} e : steady (A := A) (raise_action e).
Proof. by apply steady_still. Qed.
Lemma steady_read {A} (f : store -> A) : steady (read f).
Proof. by apply steady_still. Qed.
Lemma steady_flags b : steady (set_claimed b) /\ steady (set_candidate b).
Proof. split; by apply steady_still. Qed.
Lemma steady_lock {A} (m : action R A) : steady (on_lock m).
Proof. apply steady_still. intros w. unfold on_lock. by destruct (m (redis w)). Qed.
Lemma steady_saver {A} (m : action C A) : steady (on_saver m).
Proof. apply steady_still. intros w. unfold on_saver. by destruct (m (saver w)). Qed.
Lemma steady_publish b i t : steady (publish b i t).
Proof. apply steady_still. intros w. unfold publish. case_bool_decide; [done|]. by destruct (b i t). Qed.
End steady.

Create HintDb steady.
#[export] Hint Resolve close_steady finish_steady mark_partial_steady mark_event_steady record_timings_steady attach_steady mark_applying_steady promote_steady : steady.
#[export] Hint Resolve steady_threads steady_ret steady_raise steady_read steady_lock steady_saver steady_publish : steady.
Ltac steady :=
  repeat match goal with
  | |- steady (bind_action _ _) => apply steady_bind; [|intros ?]
  | |- steady (except_as _ _ _) => apply steady_except
  | |- steady (catch_action _ _) => apply steady_catch; [|intros ?]
  | |- steady (set_claimed _) => apply steady_flags
  | |- steady (set_candidate _) => apply steady_flags
  | |- steady (match ?x with _ => _ end) => destruct x eqn:?
  | |- steady (let '_ := ?x in _) => destruct x eqn:?
  | |- steady (on_db _) => apply steady_db
  end; eauto with steady.

Section calls.
Context {R C : Type} `{LockClient R, CheckpointStore C} (v : service) (o : others) (now : Z).

Lemma apply_locked_steady oid thread rq c : steady (R := R) (C := C) (apply_locked v o now oid thread rq c).
Proof. unfold apply_locked, apply_claimed, conclude. cbn zeta. steady. Qed.

Lemma cleanup_steady measured thread oid h : steady (R := R) (C := C) (cleanup measured thread oid h).
Proof. unfold cleanup, release_boundary. steady. by apply steady_still. Qed.

Lemma reconcile_steady env max oid : steady (R := R) (C := C) (reconcile env max now oid).
Proof. unfold reconcile. cbn zeta. steady. Qed.
End calls.

(** A command on file under a new identifier and a new key is found by both. *)
Lemma on_file_last s cmds c fp r : on_file s = cmds ++ [(c, fp)] ->
  (forall x, x ∈ cmds -> override_id x.1 <> override_id c /\ idempotency_key x.1 <> idempotency_key c) ->
  by_id s (override_id c) = Some r -> by_key s (idempotency_key c) = Some r /\ command r = c /\ payload_fingerprint r = fp.
Proof.
  intros E N B. unfold on_file in E. apply map_eq_app in E as (rows & tl & E & Er & Et). apply map_eq_cons in Et as (l & tl' & -> & El & Etl).
  destruct tl'; [|done]. injection El as Ec Ef.
  assert (F : forall p, (forall x, x ∈ cmds -> p x.1 = false) -> p c = true -> List.find (fun x => p (command x)) (overrides s) = Some l).
  { intros p P Pc. rewrite E. clear E B. revert cmds Er N P. induction rows as [|x rows IH]; intros cmds Er N P; simpl; [by rewrite Ec, Pc|].
    simpl in Er. subst cmds. specialize (P (command x, payload_fingerprint x) (list_elem_of_here _ _)) as P0. simpl in P0. rewrite P0.
    apply (IH _ eq_refl); intros y Hy; [apply N; by right|apply P; by right]. }
  unfold by_id, by_key in *. unfold row_id in B. rewrite (F (fun d => String.eqb (override_id d) (override_id c))) in B; [| |by apply String.eqb_refl].
  2: { intros x Hx. destruct (N x Hx). by apply String.eqb_neq. }
  injection B as <-. split; [|done]. apply (F (fun d => String.eqb (idempotency_key d) (idempotency_key c))); [|by apply String.eqb_refl].
  intros x Hx. destruct (N x Hx). by apply String.eqb_neq.
Qed.

Section retry.
Context {R C : Type} `{LockClient R, CheckpointStore C} (v : service) (o : others) (now : Z) (thread : string) (rq : RuntimeOverrideRequest).

(** A call for a new request that answers has put its command on file. *)
Lemma apply_on_file token fresh digest measured p (w w' : world (R := R) (C := C)) y :
  within_begin o (db w) = db w -> by_key (db w) (req_idempotency_key rq) = None ->
  apply v o now token fresh digest measured thread rq p w = (Ok y, w') ->
  exists c, make_command now fresh thread rq p = Ok c /\ can p RUNTIME_OVERRIDE = true /\
    on_file (db w') = on_file (db w) ++ [(c, digest (fingerprint_value c))].
Proof.
  intros Wb Nk E. unfold apply in E. unfold bind_action at 1, read in E. destruct (RuntimeThreads.get_by_thread_id _ _); [|done].
  destruct (can p RUNTIME_OVERRIDE) eqn:Cn; cbn [negb] in E; [|done].
  destruct (make_command now fresh thread rq p) as [c|e] eqn:Mc; [|done]. exists c. split; [done|]. split; [done|].
  apply make_command_ok in Mc as (_ & _ & Ck & _).
  apply bind_action_inv in E as [(st & w1 & E1 & E)|(e & E1 & [=])]. apply on_db_inv in E1 as [E1 _].
  assert (F : on_file (db w1) = on_file (db w) ++ [(c, digest (fingerprint_value c))] /\ replayed st = false).
  { unfold begin_or_replay in E1. rewrite Ck, Nk, Wb, Nk in E1. destruct (RuntimeThreads.get_by_thread_id _ _); [|done].
    destruct (insert_row (db w) _) as [s2|e] eqn:I; [|done]. injection E1 as <- <-.
    apply insert_row_ok in I as (_ & _ & _ & O). split; [|done]. unfold on_file. by rewrite O, map_app. }
  destruct F as [<- Rp]. rewrite Rp in E. cbn [andb] in E.
  match type of E with ?m w1 = _ => enough (S : steady (R := R) (C := C) m) by exact (S _ _ _ E) end. clear E.
  steady; [apply steady_db, finish_steady|].
  intros w2 x w3. unfold with_cleanup. destruct (apply_locked _ _ _ _ _ _ _ w2) as [z w4] eqn:L. apply apply_locked_steady in L.
  destruct (cleanup _ _ _ _ w4) as [[u|e] w5] eqn:K; apply cleanup_steady in K; intros [= _ <-]; congruence.
Qed.
End retry.

(** ** Reconciliation *)
Section reconciliation.
Context {R C : Type} `{LockClient R, CheckpointStore C} (env : RuntimeThreads.store -> RuntimeThreads.store) (max_bytes now : Z) (oid : string).

Lemma candidate_valid_spec c source res : candidate_valid max_bytes c source res = true ->
  candidate max_bytes source res (new_value c) /\ ThreadRunner.equals_str (Evidence.get (rec_state source) "vehicle_id") (entity_id c) = true /\
  ThreadRunner.equals_str (Evidence.get (rec_state source) "vehicle_status") (old_value c) = true.
Proof.
  unfold candidate_valid. rewrite !andb_true_iff, !bool_decide_eq_true, !String.eqb_eq, Z.leb_le.
  intros (((((((((((? & ?) & ?) & ?) & ?) & ?) & ?) & ?) & ?) & ?) & ?) & ?). by split.
Qed.

(** The recorded candidate of a fenced thread, and the threads after its promotion. *)
Record reconciled (w w' : world (R := R) (C := C)) : Prop := {
  rec_facts : exists r t source res,
    by_id (db w) oid = Some r /\ status r = PARTIAL /\
    RuntimeThreads.threads (threads (db w)) !! thread_id (command r) = Some t /\
    RuntimeThreads.status t = RuntimeThreads.OVERRIDING /\ RuntimeThreads.current_checkpoint_id t = Some (rec_checkpoint_id source) /\
    RuntimeThreads.state_version t = expected_version (command r) /\ RuntimeThreads.next_node t = expected_next_node (command r) /\
    source_checkpoint_id r = Some (rec_checkpoint_id source) /\ result_checkpoint_id r = Some (rec_checkpoint_id res) /\
    get_exact (saver w) (thread_id (command r)) (rec_checkpoint_id source) = Ok (Some source) /\
    get_exact (saver w) (thread_id (command r)) (rec_checkpoint_id res) = Ok (Some res) /\
    candidate max_bytes source res (new_value (command r)) /\
    ThreadRunner.equals_str (Evidence.get (rec_state source) "vehicle_id") (entity_id (command r)) = true /\
    ThreadRunner.equals_str (Evidence.get (rec_state source) "vehicle_status") (old_value (command r)) = true /\
    RuntimeThreads.threads (threads (db w')) !! RuntimeThreads.thread_id t = Some (RuntimeThreads.bump (override_promoted t (rec_checkpoint_id res) (serialized_size_bytes res))) /\
    (forall k, k <> RuntimeThreads.thread_id t -> RuntimeThreads.threads (threads (db w')) !! k = RuntimeThreads.threads (env (threads (db w))) !! k);
  rec_row : exists r', by_id (db w') oid = Some r' /\ status r' = APPLIED;
}.

Lemma read_inv {A} (f : store -> A) (w : world (R := R) (C := C)) x w' : read f w = (x, w') -> x = Ok (f (db w)) /\ w' = w.
Proof. by intros [= <- <-]. Qed.

Lemma reconcile_cases (w : world (R := R) (C := C)) x w' : reconcile env max_bytes now oid w = (x, w') ->
  reconciled w w' \/
  ((threads (db w') = threads (db w) \/ threads (db w') = env (threads (db w))) /\
   (forall y, x = Ok y -> status (item y) = APPLIED -> w' = w /\ by_id (db w) oid = Some (item y))).
Proof.
  intros E. unfold reconcile in E. cbn zeta in E. unfold bind_action at 1, read at 1 in E.
  destruct (by_id (db w) oid) as [r|] eqn:B; [|injection E as <- <-; right; split; [by left|done]].
  case_bool_decide as Sp; cbn [negb] in E; [|injection E as <- <-; right; split; [by left|]; by intros y [= <-]].
  assert (Fin : forall w1 d st code, db w1 = db w \/ (exists rt, db w1 = with_threads (db w) rt /\ rt = env (threads (db w))) -> st ∈ [REJECTED; CONFLICT; FAILED] ->
    on_db (finish oid st d code now) w1 = (x, w') ->
    (threads (db w') = threads (db w) \/ threads (db w') = env (threads (db w))) /\ (forall y, x = Ok y -> status (item y) = APPLIED -> w' = w /\ Some r = Some (item y))).
  { intros w1 d st code D St [E1 _]%on_db_inv. destruct (finish_spec (db w1) oid r st d code now) as (s' & F & _ & T);
      [destruct D as [->|(rt & -> & _)]; done|congruence|done|]. rewrite F in E1. injection E1 as <- <-. rewrite T.
    split; [destruct D as [->|(rt & -> & ->)]; [by left|by right]|]. intros y [= <-] Ay. simpl in Ay. subst st. set_solver. }
  assert (Inv : forall w1 code, db w1 = db w -> on_db (mark_partial oid code now) w1 = (x, w') ->
    (threads (db w') = threads (db w) \/ threads (db w') = env (threads (db w))) /\ (forall y, x = Ok y -> status (item y) = APPLIED -> w' = w /\ Some r = Some (item y))).
  { intros w1 code D [E1 _]%on_db_inv. destruct (close_spec (db w1) oid r PARTIAL None code now) as (s' & F & _ & T); [by rewrite D|congruence|].
    unfold mark_partial in E1. rewrite F in E1. injection E1 as <- <-. rewrite T, D. split; [by left|]. by intros y [= <-]. }
  unfold bind_action at 1, read at 1, RuntimeThreads.get_by_thread_id in E.
  destruct (RuntimeThreads.threads (threads (db w)) !! thread_id (command r)) as [t|] eqn:Lt; [|right; apply (Fin w) in E; [done|by left|set_solver]].
  case_bool_decide as S1; cbn [negb orb] in E; [|right; apply (Fin w) in E; [done|by left|set_solver]].
  case_bool_decide as S2; cbn [negb orb] in E; [|right; apply (Fin w) in E; [done|by left|set_solver]].
  destruct (RuntimeThreads.state_version t =? _) eqn:S3; cbn [negb orb] in E; [|right; apply (Fin w) in E; [done|by left|set_solver]].
  destruct (source_checkpoint_id r) as [a|] eqn:Sa; [|right; by apply (Inv w) in E]. destruct (result_checkpoint_id r) as [b|] eqn:Sb; [|right; by apply (Inv w) in E].
  apply bind_action_inv in E as [(source & w1 & E1 & E)|(e & E1 & ->)]; apply on_saver_inv in E1 as (E1 & D1 & _);
    [|rewrite D1; right; split; [by left|done]]. injection E1 as E1 V1.
  apply bind_action_inv in E as [(res & w2 & E2 & E)|(e & E2 & ->)]; apply on_saver_inv in E2 as (E2 & D2 & _);
    [|rewrite D2, D1; right; split; [by left|done]]. injection E2 as E2 V2.
  assert (D : db w2 = db w) by congruence. rewrite <- V1 in E2.
  destruct source as [source|]; [|right; by apply (Inv w2) in E]. destruct res as [res|]; [|right; by apply (Inv w2) in E].
  destruct (candidate_valid _ _ _ _) eqn:Cv; cbn [negb] in E; [|right; by apply (Inv w2) in E].
  pose proof (get_exact_id _ _ _ _ E1) as Ia. pose proof (get_exact_id _ _ _ _ E2) as Ib.
  apply except_as_inv in E as [(y & E & ->)|[(e & w3 & E & Cls & E3)|(e & E & Cls & ->)]]; apply on_db_inv in E as [E _]; rewrite D in E;
    destruct (promote_applied_spec _ _ _ r _ _ _ _ _ B ltac:(congruence) E) as [(e' & X & Be & [(-> & K & _)|(-> & K)])|(t1 & rt & Lt1 & P & K & Tr & X & Be)];
    try discriminate X; try congruence.
  - left. rewrite Lt in Lt1. injection Lt1 as <-. unfold promotable in P. rewrite !andb_true_iff, !bool_decide_eq_true, Z.eqb_eq in P.
    apply commit_promotion_row in K as (K1 & _ & K2 & _). cbn [override_promoted RuntimeThreads.thread_id] in K1, K2.
    apply candidate_valid_spec in Cv as (Cv1 & Cv2 & Cv3).
    split; [|eexists; split; [exact Be|done]]. exists r, t, source, res. rewrite Ia, Ib, Tr. apply Z.eqb_eq in S3. split_and!; try done; try congruence. by destruct P.
  - right. apply (Fin w3) in E3; [done| |set_solver]. destruct K as [K|K]; [by left|right]. eexists. split; [exact K|done].
  - injection X as ->. discriminate Cls.
Qed.

(** Without an expected next node the compare-and-set never succeeds. *)
Lemma reconcile_without_next_node (w : world (R := R) (C := C)) x w' r t :
  by_id (db w) oid = Some r -> expected_next_node (command r) = None ->
  RuntimeThreads.threads (threads (db w)) !! thread_id (command r) = Some t -> RuntimeThreads.next_node t <> None ->
  status r <> APPLIED -> reconcile env max_bytes now oid w = (x, w') ->
  (threads (db w') = threads (db w) \/ threads (db w') = env (threads (db w))) /\ (forall y, x = Ok y -> status (item y) <> APPLIED).
Proof.
  intros B N L Nn Na E. apply reconcile_cases in E as [[(r' & t' & a & b & B' & _ & L' & _ & _ & _ & Nx & _) _]|[T F]].
  - rewrite B in B'. injection B' as <-. rewrite L in L'. injection L' as <-. congruence.
  - split; [done|]. intros y Hy Ay. destruct (F y Hy Ay) as [_ By]. congruence.
Qed.
End reconciliation.

(** ** Lemmas on new requests *)
Lemma fresh_commands s fresh key : by_id s fresh = None -> by_key s key = None ->
  forall x, x ∈ on_file s -> override_id x.1 <> fresh /\ idempotency_key x.1 <> key.
Proof.
  intros I K x (r & -> & Hr%list_elem_of_In)%list_elem_of_fmap. unfold by_id, by_key in *.
  split; intros E; [pose proof (find_none _ _ I r Hr) as F|pose proof (find_none _ _ K r Hr) as F];
    simpl in *; unfold row_id in *; by rewrite E, String.eqb_refl in F.
Qed.

(** A second command of the same request differs only where the ledger does not look. *)
Lemma make_command_retry now now' fresh fresh' thread rq p c c' :
  make_command now fresh thread rq p = Ok c -> make_command now' fresh' thread rq p = Ok c' ->
  idempotency_key c' = idempotency_key c /\ operator_id c' = operator_id c /\ fingerprint_value c' = fingerprint_value c.
Proof.
  assert (V : forall x y, validated x = Ok y -> y = x).
  { intros x y. unfold validated. destruct (List.find _ _) as [[[? ?] ?]|]; [done|]. destruct (_ <? 0); [done|]. case_bool_decide; [done|]. by intros [= <-]. }
  unfold make_command. destruct (head _) as [role|]; [|done]. by intros ->%V ->%V.
Qed.

(** The row a call leaves for its new request. *)
Lemma apply_row {R C : Type} `{LockClient R, CheckpointStore C} v o now thread rq token fresh digest measured p (w w' : world (R := R) (C := C)) y :
  within_begin o (db w) = db w -> by_key (db w) (req_idempotency_key rq) = None -> by_id (db w) fresh = None ->
  apply v o now token fresh digest measured thread rq p w = (Ok y, w') -> by_id (db w') fresh = Some (item y) ->
  exists c, make_command now fresh thread rq p = Ok c /\ by_key (db w') (req_idempotency_key rq) = Some (item y) /\
    command (item y) = c /\ payload_fingerprint (item y) = digest (fingerprint_value c).
Proof.
  intros Wb K I E B. destruct (apply_on_file v o now thread rq token fresh digest measured p w w' y Wb K E) as (c & Mc & _ & F).
  pose proof Mc as (_ & Ic & Kc & _)%make_command_ok.
  exists c. split; [done|]. rewrite <- Kc. rewrite <- Ic in B. apply (on_file_last _ _ _ _ _ F); [|done].
  rewrite Ic, Kc. by apply fresh_commands.
Qed.

(** ** Lemmas on eligibility *)
Lemma transitions_spec a b : (a, b) ∈ ALLOWED_TRANSITIONS <-> a = "NORMAL"%string /\ b ∈ ALLOWED_NEW_VALUES.
Proof. unfold ALLOWED_TRANSITIONS, ALLOWED_NEW_VALUES. rewrite !elem_of_cons, !elem_of_nil, !pair_equal_spec. tauto. Qed.

Lemma eligibility_eligible t b available target : (eligibility t b available target).1 = ELIGIBLE <->
  b = true /\ RuntimeThreads.status t = RuntimeThreads.STABLE /\ (RuntimeThreads.current_node t, RuntimeThreads.next_node t) = ALLOWED_BOUNDARY /\
  available = true /\ exists x, target = Some x /\ current_value x = "NORMAL"%string.
Proof.
  assert (Bad : forall (P : Prop) e code, (P -> False) -> e <> ELIGIBLE -> (e, Some code : option string).1 = ELIGIBLE <-> P) by (simpl; tauto).
  unfold eligibility. destruct b; cbn [negb]; [|by apply Bad; [intros []|]].
  destruct (RuntimeThreads.status t); try (by apply Bad; [intros (_ & ? & _)|]).
  case_bool_decide; cbn [negb]; [|by apply Bad; [intros (_ & _ & ? & _)|]].
  destruct available; cbn [negb]; [|by apply Bad; [intros (_ & _ & _ & ? & _)|]].
  destruct target as [x|]; [|by apply Bad; [intros (_ & _ & _ & _ & ? & ? & _)|]].
  destruct (String.eqb_spec (current_value x) "NORMAL") as [E|N]; cbn [negb]; [split; [|done]; intros _; eauto 10|].
  apply Bad; [|done]. by intros (_ & _ & _ & _ & ? & [= <-] & ?).
Qed.

(** On a stable boundary, the commands the policy allows are those on the target of the state. *)
Lemma policy_on_target cmd t state : RuntimeThreads.status t = RuntimeThreads.STABLE ->
  (RuntimeThreads.current_node t, RuntimeThreads.next_node t) = ALLOWED_BOUNDARY ->
  allowed (evaluate cmd t state) = true <->
  exists x, intervention_target state = Some x /\ current_value x = "NORMAL"%string /\
    entity_type cmd = target_entity_type x /\ field cmd = target_field x /\ entity_id cmd = target_entity_id x /\
    old_value cmd = current_value x /\ new_value cmd ∈ allowed_new_values x /\
    (expected_next_node cmd = None \/ expected_next_node cmd = Some "capacity"%string).
Proof.
  intros S B. rewrite evaluate_allowed, transitions_spec. unfold intervention_target, ALLOWED_TARGET, ThreadRunner.equals_str.
  split.
  - intros (_ & T & _ & N & [O V] & I & C). injection T as T F.
    destruct (Evidence.get state "vehicle_id"); try done. destruct (Evidence.get state "vehicle_status"); try done.
    apply String.eqb_eq in I as ->, C as ->. rewrite O. eexists. split; [done|]. by cbn.
  - intros (x & T & C & E1 & E2 & E3 & E4 & E5 & N).
    destruct (Evidence.get state "vehicle_id"); try done. destruct (Evidence.get state "vehicle_status"); try done.
    injection T as <-. cbn in *. rewrite E1, E2, E3, E4, !String.eqb_refl. rewrite C in *. by split_and!.
Qed.

(** ** A saver, a thread and requests for the witnesses *)
Definition ex_saver_state : Type := gmap (string * string) CheckpointRecord.

Definition ex_result (source : CheckpointRecord) (patch : pydict) : CheckpointRecord :=
  {| rec_thread_id := rec_thread_id source; rec_checkpoint_id := "c2"; rec_parent_checkpoint_id := Some (rec_checkpoint_id source);
     checkpoint_namespace := checkpoint_namespace source;
     rec_state := patch ++ List.filter (fun kv => negb (one_of kv.1 (map fst patch))) (rec_state source);
     serialized_size_bytes := serialized_size_bytes source + 1 |}.

#[local] Instance ex_saver : CheckpointStore ex_saver_state := {|
  aget_tuple m t c := Ok (m !! (t, c));
  aupdate_state source patch _ _ := fun m =>
    let r := ex_result source patch in (Ok (PStr (rec_checkpoint_id r)), <[(rec_thread_id r, rec_checkpoint_id r) := r]> m);
  aget_state _ := fun m => (Ok ["capacity"%string], m) |}.

Definition ex_source : CheckpointRecord :=
  {| rec_thread_id := "th"; rec_checkpoint_id := "c1"; rec_parent_checkpoint_id := None; checkpoint_namespace := "";
     rec_state := [("vehicle_id", PStr "V1"); ("vehicle_status", PStr "NORMAL"); ("last_completed_node", PStr "environment"); ("completed_node_count", PInt 1)]%string;
     serialized_size_bytes := 10 |}.

Definition ex_promotion : RuntimeThreads.PromoteCheckpoint :=
  {| RuntimeThreads.cmd_thread_id := "th"; RuntimeThreads.expected_checkpoint_id := None; RuntimeThreads.expected_state_version := 0;
     RuntimeThreads.cmd_checkpoint_id := "c1"; RuntimeThreads.cmd_parent_checkpoint_id := None; RuntimeThreads.cmd_node := "environment";
     RuntimeThreads.cmd_next_node := Some "capacity"%string; RuntimeThreads.cmd_checkpoint_size_bytes := 10; RuntimeThreads.cmd_worker_consumer := "w1";
     RuntimeThreads.cmd_event_key := "promoted:c1"; RuntimeThreads.cmd_event_type := RuntimeThreads.CHECKPOINT_PROMOTED |}.
Definition ex_threads : RuntimeThreads.store := RuntimeThreads.perform id (RuntimeThreads.Promote ex_promotion) RuntimeThreads.ex_created.

Lemma ex_threads_wf : RuntimeThreads.wf ex_threads.
Proof. apply RuntimeThreads.perform_fair; [apply RuntimeThreads.fair_id|apply RuntimeThreads.ex_created_wf]. Qed.

Definition ex_request (next : option string) : RuntimeOverrideRequest :=
  {| req_idempotency_key := "k1"; req_entity_type := "Vehicle"; req_entity_id := "V1"; req_field := "status"; req_old_value := "NORMAL";
     req_new_value := "BROKEN"; req_reason := "engine failure"; req_expected_version := 1; req_expected_next_node := next |}.
Definition ex_supervisor : AuthenticatedPrincipal :=
  {| subject_id := "u1"; roles := [SUPERVISOR]; permissions := (permissions_for_roles ["SUPERVISOR"%string]).1 |}.
Definition ex_service : service := {| max_checkpoint_bytes := 1000; lock_ttl := 30000; intent_ttl := 60; event_publisher := Some (fun _ _ => Ok tt) |}.
Definition ex_others : others := {| within_begin := id; before_claim := id; within_promotion := id |}.
Definition ex_world : world (R := RedisLock.redis) (C := ex_saver_state) :=
  {| db := {| overrides := []; attempts := []; threads := ex_threads |}; redis := {| RedisLock.clock := 0; RedisLock.keys := ∅ |};
     saver := {[("th", "c1")%string := ex_source]}; published := []; claimed := false; candidate_created := false |}.
Definition ex_call (next : option string) : result StoredRuntimeOverride * world :=
  apply ex_service ex_others 0 "token" "ov1" (fun _ => "fp"%string) [] "th" (ex_request next) ex_supervisor ex_world.

(** A PARTIAL override, as a session leaves it whose promotion failed: another
    session has moved the thread's row in between and put it back. *)
Definition ex_lost_race : others := {| within_begin := id; before_claim := id;
  within_promotion rt := match RuntimeThreads.threads rt !! "th"%string with Some t => RuntimeThreads.with_thread rt (RuntimeThreads.bump t) | None => rt end |}.
Definition ex_partial : world (R := RedisLock.redis) (C := ex_saver_state) :=
  (apply ex_service ex_lost_race 0 "token" "ov1" (fun _ => "fp"%string) [] "th" (ex_request (Some "capacity"%string)) ex_supervisor ex_world).2.

(** The status an answer has. *)
Definition answered (x : result StoredRuntimeOverride) : option RuntimeOverrideStatus := match x with Ok y => Some (status (item y)) | Err _ => None end.

(** ** Properties *)

(** C17: Whatever other sessions do before a boundary is claimed and within a
    promotion, a call for a new request leaves the thread in one of three
    ways, and the answer says in which.  Refused (REJECTED, CONFLICT, FAILED):
    the thread is as it was, or fenced and released again.  PARTIAL: it is
    still fenced off as OVERRIDING.  APPLIED: the operator had the permission,
    the thread was stable at the "environment" boundary the request named, at
    its version and with the old value in its canonical checkpoint, and it now
    is at the validated candidate, one version further, every other thread
    untouched.  The override is on file as APPLIED in this case only, even
    when the call raises after the promotion. *)
Theorem override_outcomes {R C : Type} `{LockClient R, CheckpointStore C} (v : service) (o : others) (now : Z) (thread : string)
    (rq : RuntimeOverrideRequest) (token fresh : string) (digest : pyval -> string) (measured : list (string * Q))
    (p : AuthenticatedPrincipal) (w w' : world (R := R) (C := C)) (x : result StoredRuntimeOverride) :
  RuntimeThreads.wf (before_claim o (threads (db w))) -> within_begin o (db w) = db w ->
  by_key (db w) (req_idempotency_key rq) = None -> by_id (db w) fresh = None ->
  apply v o now token fresh digest measured thread rq p w = (x, w') ->
  exists base kind,
    (base = threads (db w) \/ base = before_claim o (threads (db w))) /\
    effect v o thread rq w base kind (threads (db w')) /\
    (kind = Promoted -> can p RUNTIME_OVERRIDE = true) /\
    (forall y, x = Ok y -> announces (status (item y)) kind /\ by_id (db w') fresh = Some (item y)) /\
    (kind = Promoted <-> exists r, by_id (db w') fresh = Some r /\ status r = APPLIED).
Proof. apply apply_effect. Qed.

Lemma override_outcomes_witness : exists x w',
  ex_call (Some "capacity"%string) = (x, w') /\ answered x = Some APPLIED /\ published w' = [("ov1", "RUNTIME_OVERRIDE_REQUESTED"); ("ov1", "RUNTIME_OVERRIDE_APPLIED")]%string /\
  effect ex_service ex_others "th" (ex_request (Some "capacity"%string)) ex_world ex_threads Promoted (threads (db w')).
Proof.
  assert (S : answered (ex_call (Some "capacity"%string)).1 = Some APPLIED) by (vm_compute; reflexivity).
  assert (Pb : published (ex_call (Some "capacity"%string)).2 = [("ov1", "RUNTIME_OVERRIDE_REQUESTED"); ("ov1", "RUNTIME_OVERRIDE_APPLIED")]%string) by (vm_compute; reflexivity).
  destruct (ex_call (Some "capacity"%string)) as [x w'] eqn:E. exists x, w'. split; [reflexivity|]. split; [exact S|]. split; [exact Pb|].
  destruct (override_outcomes ex_service ex_others 0 "th" (ex_request (Some "capacity"%string)) "token" "ov1" (fun _ => "fp"%string) [] ex_supervisor ex_world w' x
    ex_threads_wf eq_refl eq_refl eq_refl E) as (base & k & B & Ef & _ & A & _).
  destruct x as [y|e]; [|discriminate S]. injection S as S. destruct (A y eq_refl) as [A' _]. rewrite S in A'. simpl in A'. subst k.
  destruct B as [-> | ->]; exact Ef.
Defined.

(** A request may leave out its expected next node, and the policy and the
    boundary claim accept it so, but the compare-and-set of the promotion takes
    the absent node for a value the thread never has: such an override is never
    applied.  If it ends PARTIAL, with the thread fenced off, the reconciler
    does not apply it either and leaves the threads as other sessions left
    them. *)
Theorem override_without_next_node_never_applied {R C : Type} `{LockClient R, CheckpointStore C} (v : service) (o : others) (now : Z)
    (thread : string) (rq : RuntimeOverrideRequest) (token fresh : string) (digest : pyval -> string) (measured : list (string * Q))
    (p : AuthenticatedPrincipal) (w w' : world (R := R) (C := C)) (y : StoredRuntimeOverride) :
  req_expected_next_node rq = None ->
  RuntimeThreads.wf (before_claim o (threads (db w))) -> within_begin o (db w) = db w ->
  by_key (db w) (req_idempotency_key rq) = None -> by_id (db w) fresh = None ->
  apply v o now token fresh digest measured thread rq p w = (Ok y, w') ->
  status (item y) ∈ [REJECTED; CONFLICT; FAILED; PARTIAL] /\
  (forall t, RuntimeThreads.threads (threads (db w')) !! thread = Some t -> RuntimeThreads.next_node t <> None ->
   forall env max_bytes now' z w2, reconcile env max_bytes now' fresh w' = (z, w2) ->
     (threads (db w2) = threads (db w') \/ threads (db w2) = env (threads (db w'))) /\
     (forall u, z = Ok u -> status (item u) <> APPLIED)).
Proof.
  intros N W Wb K I E. destruct (apply_effect v o thread rq now token fresh digest measured p w (Ok y) w' W Wb K I E) as (base & k & _ & Ef & _ & An & _).
  destruct (An y eq_refl) as [A B]. assert (Nk : k <> Promoted) by (intros ->; inversion Ef; congruence).
  split; [destruct (status (item y)); simpl in A; try done; set_solver|].
  intros t Lt Nt env max_bytes now' z w2 E2.
  destruct (apply_row v o now thread rq token fresh digest measured p w w' y Wb K I E B) as (c & Mc & _ & Cy & _).
  apply make_command_ok in Mc as ([_ _ _ _ _ (Tc & _ & Nc)] & _).
  apply (reconcile_without_next_node env max_bytes now' fresh w' z w2 (item y) t B); try congruence.
  intros S. rewrite S in A. simpl in A. congruence.
Qed.

Lemma override_without_next_node_never_applied_witness : exists y w' t z w2,
  ex_call None = (Ok y, w') /\ status (item y) = PARTIAL /\ result_checkpoint_id (item y) = Some "c2"%string /\
  RuntimeThreads.threads (threads (db w')) !! "th"%string = Some t /\ RuntimeThreads.status t = RuntimeThreads.OVERRIDING /\
  reconcile id 1000 1 "ov1" w' = (z, w2) /\ answered z = Some CONFLICT /\ threads (db w2) = threads (db w') /\
  (forall u, z = Ok u -> status (item u) <> APPLIED).
Proof.
  assert (V : match ex_call None with
    | (Ok y, w') => status (item y) = PARTIAL /\ result_checkpoint_id (item y) = Some "c2"%string /\
        (match RuntimeThreads.threads (threads (db w')) !! "th"%string with Some t => RuntimeThreads.status t = RuntimeThreads.OVERRIDING /\ RuntimeThreads.next_node t <> None | None => False end) /\
        answered (reconcile id 1000 1 "ov1" w').1 = Some CONFLICT
    | _ => False end) by (vm_compute; repeat split; discriminate).
  destruct (ex_call None) as [[y|e] w'] eqn:E; [|destruct V]. destruct V as (V1 & V2 & V3 & V4).
  destruct (RuntimeThreads.threads (threads (db w')) !! "th"%string) as [t|] eqn:Lt; [|destruct V3]. destruct V3 as [V3 V5].
  destruct (reconcile id 1000 1 "ov1" w') as [z w2] eqn:Z.
  destruct (override_without_next_node_never_applied ex_service ex_others 0 "th" (ex_request None) "token" "ov1" (fun _ => "fp"%string) [] ex_supervisor ex_world w' y
    eq_refl ex_threads_wf eq_refl eq_refl eq_refl E) as [_ H].
  destruct (H t Lt V5 id 1000 1 z w2 Z) as [T N]. exists y, w', t, z, w2.
  split; [reflexivity|]. split; [exact V1|]. split; [exact V2|]. split; [exact Lt|]. split; [exact V3|]. split; [exact Z|]. split; [exact V4|].
  split; [destruct T as [T|T]; exact T|exact N].
Defined.

(** Once a call has answered, calling again with the same request answers
    with the same row, marked as a replay, whoever else has moved the thread in
    the meantime: nothing is claimed, updated, promoted or announced again. *)
Theorem override_retry_replays_answer {R C : Type} `{LockClient R, CheckpointStore C} (v : service) (o o' : others) (now now' : Z)
    (thread : string) (rq : RuntimeOverrideRequest) (token token' fresh fresh' : string) (digest : pyval -> string)
    (measured measured' : list (string * Q)) (p : AuthenticatedPrincipal) (w w' : world (R := R) (C := C)) (y : StoredRuntimeOverride)
    (rt : RuntimeThreads.store) (c : RuntimeOverrideCommand) :
  RuntimeThreads.wf (before_claim o (threads (db w))) -> within_begin o (db w) = db w ->
  by_key (db w) (req_idempotency_key rq) = None -> by_id (db w) fresh = None ->
  apply v o now token fresh digest measured thread rq p w = (Ok y, w') ->
  RuntimeThreads.threads rt !! thread <> None -> make_command now' fresh' thread rq p = Ok c ->
  let w1 := {| db := with_threads (db w') rt; redis := redis w'; saver := saver w'; published := published w'; claimed := claimed w'; candidate_created := candidate_created w' |} in
  apply v o' now' token' fresh' digest measured' thread rq p w1 = (Ok {| item := item y; replayed := true |}, w1).
Proof.
  intros W Wb K I E Lt Mc w1. destruct (apply_effect v o thread rq now token fresh digest measured p w (Ok y) w' W Wb K I E) as (base & k & _ & _ & _ & An & _).
  destruct (An y eq_refl) as [A B].
  destruct (apply_row v o now thread rq token fresh digest measured p w w' y Wb K I E B) as (c0 & M0 & Bk & Cy & Fy).
  destruct (apply_on_file v o now thread rq token fresh digest measured p w w' y Wb K E) as (_ & _ & Cn & _).
  destruct (make_command_retry _ _ _ _ _ _ _ _ _ M0 Mc) as (Kc & Oc & Fc). apply make_command_ok in M0 as (_ & _ & K0 & _).
  unfold apply, bind_action at 1, read. cbn [db w1 with_threads threads]. unfold RuntimeThreads.get_by_thread_id.
  destruct (RuntimeThreads.threads rt !! thread); [|done]. rewrite Cn, Mc. cbn [negb].
  assert (Rp : begin_or_replay (within_begin o') c (digest (fingerprint_value c)) (now' + intent_ttl v) (with_threads (db w') rt) = (Ok (snapshot (item y) true), with_threads (db w') rt)).
  { unfold begin_or_replay, by_key. cbn [with_threads overrides]. change (List.find _ (overrides (db w'))) with (by_key (db w') (idempotency_key c)).
    rewrite Kc, K0, Bk. unfold replay. by rewrite Cy, Fy, Oc, Fc, !String.eqb_refl. }
  unfold bind_action at 1, on_db at 1. cbn [db w1]. rewrite Rp. cbn [item replayed snapshot].
  destruct (status (item y)); simpl in A; done.
Qed.

Lemma override_retry_replays_answer_witness : exists y w' w1,
  ex_call (Some "capacity"%string) = (Ok y, w') /\ status (item y) = APPLIED /\
  apply ex_service ex_others 5 "token2" "ov2" (fun _ => "fp"%string) [] "th" (ex_request (Some "capacity"%string)) ex_supervisor w1 =
    (Ok {| item := item y; replayed := true |}, w1).
Proof.
  assert (V : match ex_call (Some "capacity"%string) with (Ok y, w') => status (item y) = APPLIED | _ => False end) by (vm_compute; reflexivity).
  destruct (ex_call (Some "capacity"%string)) as [[y|e] w'] eqn:E; [|destruct V].
  assert (T : RuntimeThreads.threads ex_threads !! "th"%string <> None) by (vm_compute; discriminate).
  destruct (make_command 5 "ov2" "th" (ex_request (Some "capacity"%string)) ex_supervisor) as [c|e] eqn:Mc; [|vm_compute in Mc; discriminate Mc].
  eexists y, w', _. split; [reflexivity|]. split; [exact V|].
  exact (override_retry_replays_answer ex_service ex_others ex_others 0 5 "th" (ex_request (Some "capacity"%string)) "token" "token2" "ov1" "ov2" (fun _ => "fp"%string) [] []
    ex_supervisor ex_world w' y ex_threads c ex_threads_wf eq_refl eq_refl eq_refl E T Mc).
Defined.

(** Reconciling never promotes anything but what a PARTIAL override has
    recorded.  Either its thread is still fenced off at the source checkpoint,
    version and next node of the override, and both checkpoints are in the
    store and pass the checks: then the thread is STABLE at the recorded result
    and the override APPLIED.  Or the threads are left as other sessions left
    them, and an APPLIED answer only repeats a row that was APPLIED already. *)
Theorem reconcile_promotes_recorded_candidate {R C : Type} `{LockClient R, CheckpointStore C} (env : RuntimeThreads.store -> RuntimeThreads.store)
    (max_bytes now : Z) (oid : string) (w w' : world (R := R) (C := C)) (x : result StoredRuntimeOverride) :
  reconcile env max_bytes now oid w = (x, w') ->
  reconciled env max_bytes oid w w' \/
  ((threads (db w') = threads (db w) \/ threads (db w') = env (threads (db w))) /\
   (forall y, x = Ok y -> status (item y) = APPLIED -> w' = w /\ by_id (db w) oid = Some (item y))).
Proof. apply reconcile_cases. Qed.

Lemma reconcile_promotes_recorded_candidate_witness : exists x w',
  reconcile id 1000 1 "ov1" ex_partial = (x, w') /\ answered x = Some APPLIED /\ reconciled id 1000 "ov1" ex_partial w'.
Proof.
  assert (V : answered (reconcile id 1000 1 "ov1" ex_partial).1 = Some APPLIED) by (vm_compute; reflexivity).
  assert (N : forall y, by_id (db ex_partial) "ov1" = Some y -> status y = PARTIAL).
  { vm_compute. intros y Hy. injection Hy as <-. reflexivity. }
  destruct (reconcile id 1000 1 "ov1" ex_partial) as [x w'] eqn:E. exists x, w'. split; [reflexivity|]. split; [exact V|].
  destruct (reconcile_promotes_recorded_candidate id 1000 1 "ov1" ex_partial w' x E) as [H|[_ H]]; [exact H|].
  destruct x as [y|e]; [|discriminate V]. injection V as V. destruct (H y eq_refl V) as [_ B]. pose proof (N _ B) as P. rewrite P in V. discriminate V.
Defined.

(** What the query offers is what the policy allows.  A context says
    ELIGIBLE exactly if the principal may override and the policy allows some
    command on the thread and its canonical checkpoint; it then names a target,
    and the commands the policy allows are exactly those on this target, from
    its current value to one of the values offered. *)
Theorem eligibility_agrees_with_policy {C : Type} `{CheckpointStore C} (s : store) (c : C) (thread : string) (p : AuthenticatedPrincipal)
    (ctx : RuntimeInterventionContext) :
  get_intervention_context s c thread p = Ok ctx ->
  (ctx_eligibility ctx = ELIGIBLE <->
   can p RUNTIME_OVERRIDE = true /\ exists checkpoint r cmd,
     RuntimeThreads.current_checkpoint_id (ctx_thread ctx) = Some checkpoint /\
     get_exact c (RuntimeThreads.thread_id (ctx_thread ctx)) checkpoint = Ok (Some r) /\
     allowed (evaluate cmd (ctx_thread ctx) (rec_state r)) = true) /\
  (ctx_eligibility ctx = ELIGIBLE -> exists target, ctx_target ctx = Some target /\
     forall checkpoint r cmd, RuntimeThreads.current_checkpoint_id (ctx_thread ctx) = Some checkpoint ->
       get_exact c (RuntimeThreads.thread_id (ctx_thread ctx)) checkpoint = Ok (Some r) ->
       allowed (evaluate cmd (ctx_thread ctx) (rec_state r)) = true <->
       entity_type cmd = target_entity_type target /\ field cmd = target_field target /\ entity_id cmd = target_entity_id target /\
       old_value cmd = current_value target /\ new_value cmd ∈ allowed_new_values target /\
       (expected_next_node cmd = None \/ expected_next_node cmd = Some "capacity"%string)).
Proof.
  unfold get_intervention_context. destruct (can p RUNTIME_READ); cbn [negb]; [|done].
  destruct (RuntimeThreads.get_by_thread_id (threads s) thread) as [t|]; [|done].
  destruct (RuntimeThreads.current_checkpoint_id t) as [k|] eqn:K.
  2: { intros E. apply result_bind_ok in E as (r & [= <-] & [= <-]). cbn. rewrite K.
       split; [|by intros (_ & _ & _ & ? & _)%eligibility_eligible]. rewrite eligibility_eligible. split; [by intros (_ & _ & _ & ? & _)|].
       by intros (_ & ? & ? & ? & ? & _). }
  intros E. apply result_bind_ok in E as (r & G & [= <-]). cbn. rewrite K.
  assert (G' : get_exact c (RuntimeThreads.thread_id t) k = Ok r) by (destruct (get_exact _ _ _); congruence).
  destruct r as [r|]; [|split; [|by intros (_ & _ & _ & ? & _)%eligibility_eligible];
    rewrite eligibility_eligible; split; [by intros (_ & _ & _ & ? & _)|intros (_ & a & r & cmd & [= <-] & ? & _); congruence]].
  rewrite eligibility_eligible. split; [split|].
  - intros (Cn & S & B & _ & x & T & N). split; [done|]. exists k, r.
    exists {| override_id := ""; idempotency_key := ""; thread_id := thread; entity_type := target_entity_type x; entity_id := target_entity_id x;
      field := target_field x; old_value := current_value x; new_value := "BROKEN"; reason := ""; expected_version := 0; expected_next_node := None;
      operator_id := ""; operator_role := ""; requested_at := 0 |}.
    split; [done|]. split; [done|]. apply policy_on_target; [done|done|]. exists x. cbn. split_and!; try done; [|by left].
    unfold intervention_target in T. destruct (Evidence.get _ "vehicle_id"); try done. destruct (Evidence.get _ "vehicle_status"); try done.
    injection T as <-. cbn in *. rewrite N. cbn. set_solver.
  - intros (Cn & a & r' & cmd & [= <-] & Gr & A). rewrite G' in Gr. injection Gr as <-.
    pose proof A as (S & _ & B & _)%evaluate_allowed. apply policy_on_target in A as (x & T & N & _); [|done|done].
    split_and!; try done. eauto.
  - intros (_ & S & B & _ & x & T & N). exists x. split; [done|]. intros a r' cmd [= <-] Gr. rewrite G' in Gr. injection Gr as <-.
    rewrite policy_on_target by done. split; [intros (x' & T' & A); rewrite T in T'; injection T' as <-; tauto|]. eauto 10.
Qed.

Lemma eligibility_agrees_with_policy_witness : exists ctx,
  get_intervention_context (db ex_world) (saver ex_world) "th" ex_supervisor = Ok ctx /\ ctx_eligibility ctx = ELIGIBLE /\
  exists target, ctx_target ctx = Some target /\ allowed_new_values target = ALLOWED_NEW_VALUES.
Proof.
  assert (V : match get_intervention_context (db ex_world) (saver ex_world) "th" ex_supervisor with
    | Ok ctx => ctx_eligibility ctx = ELIGIBLE /\ match ctx_target ctx with Some x => allowed_new_values x = ALLOWED_NEW_VALUES | None => False end
    | Err _ => False end) by (vm_compute; split; reflexivity).
  destruct (get_intervention_context (db ex_world) (saver ex_world) "th" ex_supervisor) as [ctx|e] eqn:E; [|destruct V]. destruct V as [V1 V2].
  destruct (eligibility_agrees_with_policy (db ex_world) (saver ex_world) "th" ex_supervisor ctx E) as [_ H].
  destruct (H V1) as (x & X & _). exists ctx. split; [reflexivity|]. split; [exact V1|]. exists x. split; [exact X|]. rewrite X in V2. exact V2.
Defined.
