(* ===== verification/MemoryPolicy.v ===== *)
(** * MemoryPolicy: mutation commands of the shared memory, and the policy

    Models [app/shared_memory/models.py], [identity.py] and [policy.py]: the
    validated command, the JSON values its identity and fingerprints are taken
    of, and the decision the policy takes on a command and the current fact.

    Arguments are: the canonical JSON text and its digest ([json.dumps],
    [sha256]), ISO dates, and the two text filters of [security.py] (regular
    expressions and the URL parser).  Instants are integers; that they carry a
    time zone is not modelled, nor is the representation of an unsupported
    value at the end of an error message. *)

From S2P Require Import Prelude Texts Decimal Evidence.

Local Open Scope Z_scope.
Local Open Scope list_scope.

(** ** Enumerations *)
Inductive MemoryCategory := CHAT | LLM_WIKI | CODE_GRAPH | DISPATCH.
Inductive MemoryFactKind := ATTRIBUTE | RELATIONSHIP | EXPERIENCE | HYBRID.
Inductive MemoryTarget := VECTOR | GRAPH.
Inductive MemoryFactStatus := ACTIVE | EXPIRED | PENDING_REVIEW | CONFLICT.
Inductive MutationDecision := CREATE | MERGE | REPLACE | REJECT | CONFLICT_REVIEW | NOOP.
Inductive MutationStatus := M_PENDING | M_APPLYING | M_FINALIZING | M_APPLIED | M_PARTIAL | M_REJECTED | M_CONFLICT | M_FAILED.
Inductive ProjectionStatus := P_NOT_REQUIRED | P_PENDING | P_STAGED | P_ACTIVE | P_RETIRED | P_FAILED.

#[export] Instance MemoryFactKind_eq_dec : EqDecision MemoryFactKind.
Proof. solve_decision. Defined.
#[export] Instance MemoryCategory_eq_dec : EqDecision MemoryCategory.
Proof. solve_decision. Defined.
#[export] Instance MemoryTarget_eq_dec : EqDecision MemoryTarget.
Proof. solve_decision. Defined.
#[export] Instance MemoryFactStatus_eq_dec : EqDecision MemoryFactStatus.
Proof. solve_decision. Defined.
#[export] Instance MutationDecision_eq_dec : EqDecision MutationDecision.
Proof. solve_decision. Defined.
#[export] Instance MutationStatus_eq_dec : EqDecision MutationStatus.
Proof. solve_decision. Defined.
#[export] Instance ProjectionStatus_eq_dec : EqDecision ProjectionStatus.
Proof. solve_decision. Defined.

#[export] Instance MemoryCategory_enum : PyEnum MemoryCategory :=
  {| members := [CHAT; LLM_WIKI; CODE_GRAPH; DISPATCH];
     value c := match c with CHAT => "ChatMemory" | LLM_WIKI => "LLMWiki" | CODE_GRAPH => "CodeGraph" | DISPATCH => "DispatchMemory" end%string |}.
#[export] Instance MemoryFactKind_enum : PyEnum MemoryFactKind :=
  {| members := [ATTRIBUTE; RELATIONSHIP; EXPERIENCE; HYBRID];
     value k := match k with ATTRIBUTE => "ATTRIBUTE" | RELATIONSHIP => "RELATIONSHIP" | EXPERIENCE => "EXPERIENCE" | HYBRID => "HYBRID" end%string |}.
#[export] Instance MemoryTarget_enum : PyEnum MemoryTarget :=
  {| members := [VECTOR; GRAPH]; value t := match t with VECTOR => "VECTOR" | GRAPH => "GRAPH" end%string |}.
#[export] Instance ProjectionStatus_enum : PyEnum ProjectionStatus :=
  {| members := [P_NOT_REQUIRED; P_PENDING; P_STAGED; P_ACTIVE; P_RETIRED; P_FAILED];
     value p := match p with P_NOT_REQUIRED => "NOT_REQUIRED" | P_PENDING => "PENDING" | P_STAGED => "STAGED" | P_ACTIVE => "ACTIVE"
                | P_RETIRED => "RETIRED" | P_FAILED => "FAILED" end%string |}.
#[export] Instance MemoryCategory_laws : PyEnumLaws MemoryCategory.
Proof. by intros []. Qed.
#[export] Instance MemoryFactKind_laws : PyEnumLaws MemoryFactKind.
Proof. by intros []. Qed.
#[export] Instance MemoryTarget_laws : PyEnumLaws MemoryTarget.
Proof. by intros []. Qed.
#[export] Instance ProjectionStatus_laws : PyEnumLaws ProjectionStatus.
Proof. by intros []. Qed.

(** ** Data *)

(** A finite [Decimal]: sign, digits, exponent; [None] is an infinity or a NaN. *)
Record decimal := { negative : bool; coefficient : N; exponent : Z }.
Definition dec_value (d : decimal) : Q :=
  ((if negative d then -1 else 1) * inject_Z (Z.of_N (coefficient d)) * pow10 (exponent d))%Q.

Fixpoint zeros (n : nat) : string := match n with O => "" | S n' => "0" +:+ zeros n' end.
(** [format(d, "f")]. *)
Definition format_f (d : decimal) : string :=
  let text := pretty (coefficient d) in
  let len := Z.of_nat (String.length text) in
  let places := - exponent d in
  (if negative d then "-" else "") +:+
  (if exponent d >=? 0 then if (coefficient d =? 0)%N then "0" else text +:+ zeros (Z.to_nat (exponent d))
   else if len <=? places then "0." +:+ zeros (Z.to_nat (places - len)) +:+ text
   else String.substring 0 (Z.to_nat (len - places)) text +:+ "." +:+ String.substring (Z.to_nat (len - places)) (Z.to_nat places) text).

(** A [frozenset] of targets. *)
Record Targets := { to_vector : bool; to_graph : bool }.
#[export] Instance Targets_eq_dec : EqDecision Targets.
Proof. solve_decision. Defined.
Definition in_targets (t : MemoryTarget) (s : Targets) : bool := match t with VECTOR => to_vector s | GRAPH => to_graph s end.
Definition target_set (l : list MemoryTarget) : Targets :=
  {| to_vector := bool_decide (VECTOR ∈ l); to_graph := bool_decide (GRAPH ∈ l) |}.
Definition sorted_targets (s : Targets) : list string :=
  (if to_graph s then ["GRAPH"%string] else []) ++ (if to_vector s then ["VECTOR"%string] else []).

(** The keyword arguments a command is made of. *)
Record MutationFields := {
  in_idempotency_key : string;
  in_category : string;
  in_fact_kind : string;
  in_subject_type : string;
  in_subject_id : string;
  in_predicate : string;
  in_value_json : pydict;
  in_confidence : option decimal;
  in_incoming_at : Z;
  in_source_type : string;
  in_source_id : string;
  in_operator_id : string;
  in_human_confirmed : bool;
  in_reason : string;
  in_targets_values : list string;
  in_object_type : option string;
  in_object_id : option string;
  in_expected_version : option Z;
  in_expires_at : option Z;
  in_evidence_text : option string;
  in_evidence_ref : option string;
  in_evidence_observed_at : option Z;
  in_vector_memory_id : option string;
  in_graph_fact_key : option string;
}.

Record SharedMemoryMutationCommand := {
  idempotency_key : string;
  category : MemoryCategory;
  fact_kind : MemoryFactKind;
  subject_type : string;
  subject_id : string;
  predicate : string;
  value_json : pydict;
  confidence : decimal;
  incoming_at : Z;
  source_type : string;
  source_id : string;
  operator_id : string;
  human_confirmed : bool;
  reason : string;
  targets : Targets;
  object_type : option string;
  object_id : option string;
  expected_version : option Z;
  expires_at : option Z;
  evidence_text : option string;
  evidence_ref : option string;
  evidence_observed_at : option Z;
  vector_memory_id : option string;
  graph_fact_key : option string;
}.

Definition ValueError (m : string) : exn := Exn "ValueError" m.

Definition enum {A} `{PyEnum A} (field_name v : string) : result A := of_option (ValueError ("Unsupported " +:+ field_name)) (enum_of v).

Definition exceeds (field_name : string) (maximum : Z) : exn := ValueError (field_name +:+ " exceeds " +:+ z_str maximum +:+ " characters").
Definition required_text (field_name : string) (maximum : Z) (v : string) : result string :=
  let normalized := strip v in
  if String.eqb normalized "" then Err (ValueError (field_name +:+ " must not be empty"))
  else if maximum <? py_len normalized then Err (exceeds field_name maximum)
  else Ok normalized.
Definition optional_text (field_name : string) (maximum : Z) (v : option string) : result (option string) :=
  match v with
  | None => Ok None
  | Some v =>
      let normalized := strip v in
      if String.eqb normalized "" then Ok None
      else if maximum <? py_len normalized then Err (exceeds field_name maximum)
      else Ok (Some normalized)
  end.

(** A falsy optional text: absent or empty. *)
Definition no_text (v : option string) : bool := match v with None => true | Some s => String.eqb s "" end.
Definition check (b : bool) (m : string) : result unit := if b then Ok tt else Err (ValueError m).
Definition relates (k : MemoryFactKind) : bool := match k with RELATIONSHIP | HYBRID => true | _ => false end.

Section command.
Context (canonical_json : pyval -> result string) (isoformat : Z -> string) (sanitize : string -> string) (reference_ok : string -> result unit).

Definition canonical_size (v : pyval) : result Z :=
  match canonical_json v with
  | Ok t => Ok (Z.of_nat (String.length t))
  | Err _ => Err (ValueError "value_json must be JSON serializable with finite numbers")
  end.

Definition opt_iso (t : option Z) : pyval := match t with Some t => PStr (isoformat t) | None => PNone end.

Definition to_dict (c : SharedMemoryMutationCommand) : pydict :=
  [("idempotency_key", PStr (idempotency_key c)); ("category", PStr (value (category c))); ("fact_kind", PStr (value (fact_kind c)));
   ("subject_type", PStr (subject_type c)); ("subject_id", PStr (subject_id c)); ("predicate", PStr (predicate c));
   ("object_type", opt_str (object_type c)); ("object_id", opt_str (object_id c)); ("value_json", PDict (value_json c));
   ("expected_version", opt_int (expected_version c)); ("confidence", PStr (format_f (confidence c)));
   ("incoming_at", PStr (isoformat (incoming_at c))); ("expires_at", opt_iso (expires_at c));
   ("source_type", PStr (source_type c)); ("source_id", PStr (source_id c)); ("operator_id", PStr (operator_id c));
   ("human_confirmed", PBool (human_confirmed c)); ("reason", PStr (reason c)); ("evidence_text", opt_str (evidence_text c));
   ("evidence_ref", opt_str (evidence_ref c)); ("evidence_observed_at", opt_iso (evidence_observed_at c));
   ("vector_memory_id", opt_str (vector_memory_id c)); ("graph_fact_key", opt_str (graph_fact_key c));
   ("targets", strs (sorted_targets (targets c)))]%string.

(** [__post_init__], check by check.  The copy of [value_json] through JSON
    gives back what [canonical_json] accepts. *)
Definition construct (f : MutationFields) : result SharedMemoryMutationCommand :=
  category ← enum "memory category" (in_category f);
  fact_kind ← enum "memory fact kind" (in_fact_kind f);
  l ← map_result (enum "memory target") (in_targets_values f);
  _ ← check (negb (bool_decide (l = []))) "targets must not be empty";
  idempotency_key ← required_text "idempotency_key" 128 (in_idempotency_key f);
  subject_type ← required_text "subject_type" 64 (in_subject_type f);
  subject_id ← required_text "subject_id" 128 (in_subject_id f);
  predicate ← required_text "predicate" 64 (in_predicate f);
  source_type ← required_text "source_type" 64 (in_source_type f);
  source_id ← required_text "source_id" 128 (in_source_id f);
  operator_id ← required_text "operator_id" 128 (in_operator_id f);
  reason ← required_text "reason" 512 (in_reason f);
  object_type ← optional_text "object_type" 64 (in_object_type f);
  object_id ← optional_text "object_id" 128 (in_object_id f);
  text ← optional_text "evidence_text" 2000 (in_evidence_text f);
  ref ← optional_text "evidence_ref" 512 (in_evidence_ref f);
  vector_memory_id ← optional_text "vector_memory_id" 128 (in_vector_memory_id f);
  graph_fact_key ← optional_text "graph_fact_key" 255 (in_graph_fact_key f);
  let evidence_text := sanitize <$> text in
  _ ← match ref with Some r => reference_ok r | None => Ok tt end;
  confidence ← of_option (ValueError "confidence must be finite and between 0 and 1") (in_confidence f);
  _ ← check (Qle_bool 0 (dec_value confidence) && Qle_bool (dec_value confidence) 1) "confidence must be finite and between 0 and 1";
  _ ← check (match in_expected_version f with Some v => negb (v <? 1) | None => true end) "expected_version must be positive";
  _ ← check (negb (no_text evidence_text && no_text ref)) "evidence_text or evidence_ref is required";
  _ ← check (negb (relates fact_kind && (no_text object_type || no_text object_id))) "object_type and object_id are required for relationship facts";
  size ← canonical_size (PDict (in_value_json f));
  _ ← check (size <=? 16 * 1024) "value_json exceeds 16 KiB";
  let c := {| idempotency_key := idempotency_key; category := category; fact_kind := fact_kind; subject_type := subject_type; subject_id := subject_id;
     predicate := predicate; value_json := in_value_json f; confidence := confidence; incoming_at := in_incoming_at f; source_type := source_type;
     source_id := source_id; operator_id := operator_id; human_confirmed := in_human_confirmed f; reason := sanitize reason;
     targets := target_set l; object_type := object_type; object_id := object_id; expected_version := in_expected_version f;
     expires_at := in_expires_at f; evidence_text := evidence_text; evidence_ref := ref; evidence_observed_at := in_evidence_observed_at f;
     vector_memory_id := vector_memory_id; graph_fact_key := graph_fact_key |} in
  proposed ← canonical_json (PDict (to_dict c));
  _ ← check (Z.of_nat (String.length proposed) <=? 32 * 1024) "proposed_fact_json exceeds 32 KiB";
  Ok c.

(** What [from_dict] takes an optional text for. *)
Definition present (v : option string) : option string := if no_text v then None else v.

(** The arguments [from_dict] finds in the JSON column that holds [to_dict]: the
    dates and the decimal are read back as they were written. *)
Definition stored_fields (c : SharedMemoryMutationCommand) : MutationFields :=
  {| in_idempotency_key := idempotency_key c; in_category := value (category c); in_fact_kind := value (fact_kind c);
     in_subject_type := subject_type c; in_subject_id := subject_id c; in_predicate := predicate c; in_value_json := value_json c;
     in_confidence := Some (confidence c); in_incoming_at := incoming_at c; in_source_type := source_type c; in_source_id := source_id c;
     in_operator_id := operator_id c; in_human_confirmed := human_confirmed c; in_reason := reason c;
     in_targets_values := sorted_targets (targets c); in_object_type := present (object_type c); in_object_id := present (object_id c);
     in_expected_version := expected_version c; in_expires_at := expires_at c; in_evidence_text := present (evidence_text c);
     in_evidence_ref := present (evidence_ref c); in_evidence_observed_at := evidence_observed_at c;
     in_vector_memory_id := present (vector_memory_id c); in_graph_fact_key := present (graph_fact_key c) |}.
Definition from_dict (c : SharedMemoryMutationCommand) : result SharedMemoryMutationCommand := construct (stored_fields c).

(** ** Identity *)
Definition fact_identity (c : SharedMemoryMutationCommand) : pydict :=
  [("category", PStr (value (category c))); ("fact_kind", PStr (value (fact_kind c))); ("subject_type", PStr (subject_type c));
   ("subject_id", PStr (subject_id c)); ("predicate", PStr (predicate c))]%string
  ++ match fact_kind c with
     | RELATIONSHIP | HYBRID | EXPERIENCE => [("object_type", opt_str (object_type c)); ("object_id", opt_str (object_id c))]%string
     | ATTRIBUTE => []
     end.

Definition content_value (c : SharedMemoryMutationCommand) : pydict :=
  [("subject_type", PStr (subject_type c)); ("subject_id", PStr (subject_id c)); ("predicate", PStr (predicate c));
   ("object_type", opt_str (object_type c)); ("object_id", opt_str (object_id c)); ("value_json", PDict (value_json c))]%string.
Definition payload_value (c : SharedMemoryMutationCommand) : pydict :=
  List.filter (fun kv => negb (String.eqb kv.1 "idempotency_key")) (to_dict c).
Definition evidence_value (c : SharedMemoryMutationCommand) : pydict :=
  [("source_type", PStr (source_type c)); ("source_id", PStr (source_id c)); ("evidence_text", opt_str (evidence_text c));
   ("evidence_ref", opt_str (evidence_ref c)); ("observed_at", opt_iso (evidence_observed_at c));
   ("confidence", PStr (format_f (confidence c)))]%string.
End command.

Section identity.
Context (digest : pyval -> string) (isoformat : Z -> string).
Definition build_fact_key (c : SharedMemoryMutationCommand) : string := "smf_" +:+ digest (PDict (fact_identity c)).
Definition content_fingerprint (c : SharedMemoryMutationCommand) : string := digest (PDict (content_value c)).
Definition payload_fingerprint (c : SharedMemoryMutationCommand) : string := digest (PDict (payload_value isoformat c)).
Definition evidence_fingerprint (c : SharedMemoryMutationCommand) : string := digest (PDict (evidence_value isoformat c)).

(** ** The policy *)
Record MemoryPolicySettings := { auto_apply_min_confidence : Q; lower_confidence_reject_delta : Q }.

Record SharedMemoryFactSnapshot := {
  sn_fact_key : string;
  sn_version : Z;
  sn_content_fingerprint : string;
  sn_confidence : Q;
  sn_status : MemoryFactStatus;
  sn_updated_at : Z;
  sn_expires_at : option Z;
  sn_evidence_fingerprints : list string;
}.

Definition is_expired (f : SharedMemoryFactSnapshot) (now : Z) : bool :=
  bool_decide (sn_status f = EXPIRED) || match sn_expires_at f with Some t => t <=? now | None => false end.

Record MemoryDecision := {
  decision : MutationDecision;
  reason_code : string;
  before_version : option Z;
  after_version : option Z;
  proposed_status : MemoryFactStatus;
  requires_projection : bool;
}.

Definition decide_as (d : MutationDecision) (code : string) (current : option SharedMemoryFactSnapshot) (status : MemoryFactStatus)
    (increments projects : bool) : MemoryDecision :=
  {| decision := d; reason_code := code; before_version := sn_version <$> current;
     after_version := match current with
                      | None => if increments then Some 1 else None
                      | Some f => Some (if increments then sn_version f + 1 else sn_version f)
                      end;
     proposed_status := status; requires_projection := projects |}.

Definition MemoryVersionConflict (fact_key : string) : exn := Exn "MemoryVersionConflict" fact_key.

Definition evaluate_mutation (current : option SharedMemoryFactSnapshot) (c : SharedMemoryMutationCommand) (s : MemoryPolicySettings) (now : Z)
    : result MemoryDecision :=
  if negb (bool_decide (expected_version c = sn_version <$> current))
  then Err (MemoryVersionConflict match current with Some f => sn_fact_key f | None => build_fact_key c end)
  else if negb (Qle_bool (auto_apply_min_confidence s) (dec_value (confidence c))) && negb (human_confirmed c)
  then Ok (decide_as CONFLICT_REVIEW "LOW_CONFIDENCE_REVIEW" current (match current with Some _ => CONFLICT | None => PENDING_REVIEW end) false false)
  else match current with
  | None => Ok (decide_as CREATE "NEW_FACT" None ACTIVE true true)
  | Some f =>
      if is_expired f now then Ok (decide_as REPLACE "EXPIRED_FACT" current ACTIVE true true)
      else if String.eqb (content_fingerprint c) (sn_content_fingerprint f) then
        if one_of (evidence_fingerprint c) (sn_evidence_fingerprints f)
           && (Qeq_bool (dec_value (confidence c)) (sn_confidence f) && bool_decide (expires_at c = sn_expires_at f))
        then Ok (decide_as NOOP "DUPLICATE_FACT_AND_EVIDENCE" current (sn_status f) false false)
        else Ok (decide_as MERGE "NEW_EVIDENCE_OR_METADATA" current ACTIVE true true)
      else if human_confirmed c then Ok (decide_as REPLACE "HUMAN_CONFIRMED" current ACTIVE true true)
      else if incoming_at c <? sn_updated_at f then Ok (decide_as REJECT "STALE_EVIDENCE" current (sn_status f) false false)
      else if Qle_bool (lower_confidence_reject_delta s) (dec_sub (sn_confidence f) (dec_value (confidence c)))
      then Ok (decide_as REJECT "LOWER_CONFIDENCE" current (sn_status f) false false)
      else Ok (decide_as CONFLICT_REVIEW "CONTENT_CONFLICT_REVIEW" current CONFLICT false false)
  end.
End identity.

(** ** Texts of a command *)
Lemma required_text_inv name maximum v r : required_text name maximum v = Ok r -> strip r = r /\ r <> ""%string /\ py_len r <= maximum.
Proof.
  unfold required_text. cbn zeta. destruct (String.eqb_spec (strip v) ""); [done|]. destruct (Z.ltb_spec maximum (py_len (strip v))); [done|].
  intros [= <-]. by rewrite strip_idempotent.
Qed.

Lemma required_text_fixed name maximum r : strip r = r -> r <> ""%string ->
  required_text name maximum r = if maximum <? py_len r then Err (exceeds name maximum) else Ok r.
Proof. unfold required_text. cbn zeta. intros -> N. by destruct (String.eqb_spec r ""). Qed.

Lemma required_text_again name maximum v r : required_text name maximum v = Ok r -> required_text name maximum r = Ok r.
Proof. intros (S & N & L)%required_text_inv. rewrite required_text_fixed by done. by rewrite (proj2 (Z.ltb_ge _ _)). Qed.

Lemma optional_text_inv name maximum v r : optional_text name maximum v = Ok r ->
  match r with None => True | Some s => strip s = s /\ s <> ""%string /\ py_len s <= maximum end.
Proof.
  unfold optional_text. destruct v as [v|]; [|by intros [= <-]]. cbn zeta. destruct (String.eqb_spec (strip v) ""); [by intros [= <-]|].
  destruct (Z.ltb_spec maximum (py_len (strip v))); [done|]. intros [= <-]. by rewrite strip_idempotent.
Qed.

Lemma optional_text_fixed name maximum r : match r with None => True | Some s => strip s = s /\ s <> ""%string end ->
  optional_text name maximum (present r) = if match r with Some s => maximum <? py_len s | None => false end then Err (exceeds name maximum) else Ok r.
Proof.
  destruct r as [s|]; [|done]. intros [S N]. unfold present, no_text. destruct (String.eqb_spec s ""); [done|]. unfold optional_text. cbn zeta.
  rewrite S. destruct (String.eqb_spec s ""); [done|]. by destruct (_ <? _).
Qed.

Lemma optional_text_again name maximum v r : optional_text name maximum v = Ok r -> optional_text name maximum (present r) = Ok r.
Proof.
  intros H%optional_text_inv. rewrite optional_text_fixed by (destruct r; [tauto|done]).
  destruct r as [s|]; [|done]. destruct H as (_ & _ & L). by rewrite (proj2 (Z.ltb_ge _ _)).
Qed.

Lemma enum_value {A} `{PyEnumLaws A} name (a : A) : enum name (value a) = Ok a.
Proof. unfold enum. by rewrite enum_of_value. Qed.

Lemma sorted_targets_again l : l <> [] ->
  exists l', map_result (enum "memory target") (sorted_targets (target_set l)) = Ok l' /\ l' <> [] /\ target_set l' = target_set l.
Proof.
  intros N. set (s := target_set l). assert (S : to_vector s || to_graph s = true).
  { destruct l as [|t l]; [done|]. unfold s, target_set. cbn [to_vector to_graph]. apply orb_true_iff. rewrite !bool_decide_eq_true. destruct t; [left|right]; left. }
  destruct s as [[] []]; try done; (eexists; split; [reflexivity|]); split; done.
Qed.

Section stored.
Context (canonical_json : pyval -> result string) (isoformat : Z -> string) (sanitize : string -> string) (reference_ok : string -> result unit).
Hypothesis sanitize_stable : forall s, strip s = s -> s <> ""%string ->
  strip (sanitize s) = sanitize s /\ sanitize s <> ""%string /\ sanitize (sanitize s) = sanitize s.

Definition over (maximum : Z) (v : option string) : bool := match v with Some s => maximum <? py_len s | None => false end.

Lemma construct_again f c : construct canonical_json isoformat sanitize reference_ok f = Ok c ->
  from_dict canonical_json isoformat sanitize reference_ok c =
  if 512 <? py_len (reason c) then Err (exceeds "reason" 512)
  else if over 2000 (evidence_text c) then Err (exceeds "evidence_text" 2000) else Ok c.
Proof.
  unfold construct. cbn zeta. intros E. repeat (apply result_bind_ok in E as (? & ? & E)). injection E as <-.
  unfold from_dict, construct, stored_fields. cbn -[value strip map_result target_set sorted_targets check required_text optional_text present canonical_size to_dict enum py_len over].
  rewrite !enum_value. cbn [mbind result_bind].
  match goal with |- context [map_result _ (sorted_targets (target_set ?l))] =>
    destruct (sorted_targets_again l) as (l' & -> & Nl & El); [intros ->; discriminate|] end.
  cbn [mbind result_bind]. rewrite (bool_decide_eq_false_2 _ Nl). cbn [negb check]. rewrite El.
  repeat match goal with
  | H : required_text "reason" _ _ = Ok ?r |- _ => apply required_text_inv in H as (Sr & Nr & _)
  | H : required_text _ _ _ = Ok _ |- _ => apply required_text_again in H; cbn [mbind result_bind]; rewrite H; clear H
  end. cbn [mbind result_bind].
  destruct (sanitize_stable _ Sr Nr) as (S1 & S2 & S3). rewrite required_text_fixed by done.
  destruct (512 <? _); [done|]. cbn [mbind result_bind]. rewrite S3.
  match goal with H : optional_text "evidence_text" _ _ = Ok ?r |- _ => rename r into ev; apply optional_text_inv in H as Hev; clear H end.
  assert (Ev : sanitize <$> (sanitize <$> ev) = sanitize <$> ev /\ match sanitize <$> ev with None => True | Some s => strip s = s /\ s <> ""%string end).
  { destruct ev as [e|]; [|done]. destruct Hev as (A & B & _). destruct (sanitize_stable e A B) as (? & ? & ?). cbn. split; [by f_equal|done]. }
  destruct Ev as [Ev Fx].
  repeat match goal with
  | H : optional_text _ _ _ = Ok _ |- _ => apply optional_text_again in H; cbn [mbind result_bind]; rewrite H; clear H
  end. cbn [mbind result_bind]. rewrite optional_text_fixed by done. unfold over. destruct (match sanitize <$> ev with Some s => _ | None => _ end); [done|].
  cbn [mbind result_bind]. rewrite Ev. clear Ev Fx.
  repeat match goal with H : ?m = Ok _ |- context [?m] => rewrite H; clear H; cbn [mbind result_bind] end. done.
Qed.
End stored.

(** ** Decisions *)
Lemma evaluate_decides_spec digest isoformat current c s now d : evaluate_mutation digest isoformat current c s now = Ok d ->
  expected_version c = sn_version <$> current /\ before_version d = sn_version <$> current /\
  if requires_projection d
  then decision d ∈ [CREATE; MERGE; REPLACE] /\ after_version d = Some (default 0 (sn_version <$> current) + 1) /\ proposed_status d = ACTIVE
  else decision d ∈ [NOOP; REJECT; CONFLICT_REVIEW] /\ after_version d = before_version d.
Proof.
  unfold evaluate_mutation. case_bool_decide as V; cbn [negb]; [|done]. intros E. split; [done|].
  destruct (_ && _); [injection E as <-; cbn; split; [done|]; split; [set_solver|by destruct current]|].
  destruct current as [f|]; [|injection E as <-; cbn; split; [done|]; split; [set_solver|done]].
  repeat match type of E with (if ?b then _ else _) = _ => destruct b end; injection E as <-; cbn; (split; [done|]); (split; [set_solver|done]).
Qed.

(** ** Examples for the witnesses *)
Definition ex_decimal (n : N) : decimal := {| negative := false; coefficient := n; exponent := -2 |}.
Definition ex_fields (reason : string) (confidence : N) (expected : option Z) : MutationFields :=
  {| in_idempotency_key := " k1 "; in_category := "DispatchMemory"; in_fact_kind := "EXPERIENCE"; in_subject_type := "Driver"; in_subject_id := "D1";
     in_predicate := "LATE"; in_value_json := [("resolution", PStr "wait")]%string; in_confidence := Some (ex_decimal confidence); in_incoming_at := 10;
     in_source_type := "report"; in_source_id := "r1"; in_operator_id := "u1"; in_human_confirmed := false; in_reason := reason;
     in_targets_values := ["VECTOR"%string]; in_object_type := None; in_object_id := Some "R1"%string; in_expected_version := expected; in_expires_at := None;
     in_evidence_text := Some "late twice"%string; in_evidence_ref := None; in_evidence_observed_at := None; in_vector_memory_id := None;
     in_graph_fact_key := None |}.

(** Texts that stand for the JSON text, the digest, a date and the text filter. *)
Definition ex_json (v : pyval) : result string := if json_serializable v then Ok "{}"%string else Err (ValueError "nan").
Definition ex_digest (v : pyval) : string :=
  match v with PDict d => String.concat "," (map (fun kv => match kv.2 with PStr s => s | PDict ((_, PStr s) :: _) => s | _ => "" end) d) | _ => "" end%string.
Definition ex_iso (t : Z) : string := z_str t.
(** One of the patterns, for one text: "token=a" becomes "[REDACTED]". *)
Fixpoint ex_sanitize_fuel (n : nat) (s : string) : string :=
  match n, s with
  | S n', String c rest =>
      if String.prefix "token=a" s then "[REDACTED]" +:+ ex_sanitize_fuel n' (String.substring 7 (String.length s - 7) s)
      else String c (ex_sanitize_fuel n' rest)
  | _, _ => ""%string
  end.
Definition ex_sanitize (s : string) : string := ex_sanitize_fuel (String.length s) s.
Definition ex_command (reason : string) (confidence : N) (expected : option Z) : result SharedMemoryMutationCommand :=
  construct ex_json ex_iso id (fun _ => Ok tt) (ex_fields reason confidence expected).
Definition ex_settings : MemoryPolicySettings := {| auto_apply_min_confidence := 3 # 4; lower_confidence_reject_delta := 3 # 20 |}.

(** The two kinds of leaves of the policy. *)
Ltac yes := left; do 2 eexists; split; [|split; [|reflexivity]]; [set_solver|].
Ltac no := right; do 3 eexists; split; [|split; [|reflexivity]]; [set_solver|].

(** ** Properties *)

(** C33: The policy, branch by branch.  A command is only evaluated at the
    version it expects.  It is projected exactly if it is confident enough or
    confirmed by a human, and either there is no fact yet, or the fact has
    expired, or the content is the same with new evidence or metadata, or the
    content differs and a human has confirmed it: an unconfirmed command never
    replaces the content of a live fact.  A projected command moves the fact
    one version forward, to ACTIVE; any other one leaves the version alone. *)
Theorem evaluate_decides (digest : pyval -> string) (isoformat : Z -> string) (current : option SharedMemoryFactSnapshot)
    (c : SharedMemoryMutationCommand) (s : MemoryPolicySettings) (now : Z) (d : MemoryDecision) :
  evaluate_mutation digest isoformat current c s now = Ok d ->
  expected_version c = sn_version <$> current /\ before_version d = sn_version <$> current /\
  (requires_projection d = true <->
     ((auto_apply_min_confidence s <= dec_value (confidence c))%Q \/ human_confirmed c = true) /\
     match current with
     | None => True
     | Some f =>
         is_expired f now = true \/
         (content_fingerprint digest c = sn_content_fingerprint f /\
            ~ (evidence_fingerprint digest isoformat c ∈ sn_evidence_fingerprints f /\ (dec_value (confidence c) == sn_confidence f)%Q /\ expires_at c = sn_expires_at f)) \/
         (content_fingerprint digest c <> sn_content_fingerprint f /\ human_confirmed c = true)
     end) /\
  if requires_projection d
  then decision d ∈ [CREATE; MERGE; REPLACE] /\ after_version d = Some (default 0 (sn_version <$> current) + 1) /\ proposed_status d = ACTIVE
  else decision d ∈ [NOOP; REJECT; CONFLICT_REVIEW] /\ after_version d = before_version d.
Proof.
  intros E. match goal with |- _ /\ _ /\ (_ <-> ?G) /\ _ => set (P := G) end.
  enough (D : expected_version c = sn_version <$> current /\
    ((exists code k, k ∈ [CREATE; MERGE; REPLACE] /\ P /\ d = decide_as k code current ACTIVE true true) \/
     (exists code k st, k ∈ [NOOP; REJECT; CONFLICT_REVIEW] /\ ~ P /\ d = decide_as k code current st false false))).
  { destruct D as [V [(code & k & K & Y & ->)|(code & k & st & K & N & ->)]]; (split; [done|]); (split; [done|]); cbn;
      (split; [by split|]); by destruct current. }
  unfold evaluate_mutation in E. case_bool_decide as V; cbn [negb] in E; [|done]. split; [done|]. unfold P. clear P V.
  pose proof (Qle_bool_iff (auto_apply_min_confidence s) (dec_value (confidence c))) as L.
  destruct (Qle_bool (auto_apply_min_confidence s) _) eqn:Q1; [pose proof (proj1 L eq_refl) as A|].
  2: destruct (human_confirmed c) eqn:Hc; [|cbn in E; injection E as <-; right; do 3 eexists; split; [|split; [|done]]; [set_solver|]; intros [[A|A] _]; [by apply L in A|done]].
  all: cbn [negb andb] in E.
  all: destruct current as [f|]; [|injection E as <-; left; do 2 eexists; split; [|split; [|done]]; [set_solver|tauto]].
  all: destruct (is_expired f now) eqn:X; [injection E as <-; left; do 2 eexists; split; [|split; [|done]]; [set_solver|tauto]|].
  all: destruct (String.eqb_spec (content_fingerprint digest c) (sn_content_fingerprint f)) as [Same|Diff].
  1,3: match type of E with (if ?b then _ else _) = _ =>
         assert (Dup : b = true <-> evidence_fingerprint digest isoformat c ∈ sn_evidence_fingerprints f /\ (dec_value (confidence c) == sn_confidence f)%Q /\
           expires_at c = sn_expires_at f) by (by rewrite !andb_true_iff, one_of_true, Qeq_bool_iff, bool_decide_eq_true);
         destruct b; injection E as <-; [pose proof (proj1 Dup eq_refl) as D; no; intros (_ & [?|[[_ N]|[N _]]]); [done|by destruct N|done]
           |yes; split; [tauto|]; right; left; split; [done|]; intros D; by apply Dup in D] end.
  - destruct (human_confirmed c) eqn:Hc; [injection E as <-; yes; tauto|].
    assert (N : ~ (((auto_apply_min_confidence s <= dec_value (confidence c))%Q \/ false = true) /\
      (false = true \/ (content_fingerprint digest c = sn_content_fingerprint f /\ ~ (evidence_fingerprint digest isoformat c ∈ sn_evidence_fingerprints f /\
        (dec_value (confidence c) == sn_confidence f)%Q /\ expires_at c = sn_expires_at f)) \/ (content_fingerprint digest c <> sn_content_fingerprint f /\ false = true)))).
    { intros (_ & [?|[[? _]|[_ ?]]]); done. }
    destruct (_ <? _); [injection E as <-; by no|]. destruct (Qle_bool (lower_confidence_reject_delta s) _); injection E as <-; by no.
  - injection E as <-. yes. tauto.
Qed.

Lemma evaluate_decides_witness : exists c d,
  ex_command "late" 80 None = Ok c /\ evaluate_mutation ex_digest ex_iso None c ex_settings 20 = Ok d /\ decision d = CREATE /\ after_version d = Some 1.
Proof.
  destruct (ex_command "late" 80 None) as [c|e] eqn:E; [|vm_compute in E; discriminate E].
  destruct (evaluate_mutation ex_digest ex_iso None c ex_settings 20) as [d|e] eqn:F; [|vm_compute in E; injection E as <-; vm_compute in F; discriminate F].
  assert (V : decision d = CREATE /\ requires_projection d = true).
  { vm_compute in E. injection E as <-. vm_compute in F. injection F as <-. split; reflexivity. }
  destruct V as [V1 V2]. destruct (evaluate_decides ex_digest ex_iso None c ex_settings 20 d F) as (_ & _ & _ & H). rewrite V2 in H.
  destruct H as (_ & A & _). exists c, d. split; [reflexivity|]. split; [exact F|]. split; [exact V1|exact A].
Defined.

(** A command read back from the mutation row it is stored in is the same
    command, except where the text filter has made a text longer than its own
    bound, which is only checked before filtering: such a command is stored,
    but can not be read back. *)
Theorem stored_command_roundtrip (canonical_json : pyval -> result string) (isoformat : Z -> string) (sanitize : string -> string)
    (reference_ok : string -> result unit) (f : MutationFields) (c : SharedMemoryMutationCommand) :
  (forall s, strip s = s -> s <> ""%string -> strip (sanitize s) = sanitize s /\ sanitize s <> ""%string /\ sanitize (sanitize s) = sanitize s) ->
  construct canonical_json isoformat sanitize reference_ok f = Ok c ->
  from_dict canonical_json isoformat sanitize reference_ok c =
  if 512 <? py_len (reason c) then Err (exceeds "reason" 512)
  else if over 2000 (evidence_text c) then Err (exceeds "evidence_text" 2000) else Ok c.
Proof. intros S. by apply construct_again. Qed.

Lemma stored_command_roundtrip_witness : exists c, ex_command "late" 80 None = Ok c /\ from_dict ex_json ex_iso id (fun _ => Ok tt) c = Ok c.
Proof.
  destruct (ex_command "late" 80 None) as [c|e] eqn:E; [|vm_compute in E; discriminate E].
  assert (V : py_len (reason c) = 4 /\ evidence_text c = Some "late twice"%string) by (vm_compute in E; injection E as <-; split; reflexivity).
  exists c. split; [reflexivity|]. destruct V as [V1 V2].
  pose proof (stored_command_roundtrip ex_json ex_iso id (fun _ => Ok tt) (ex_fields "late" 80 None) c (fun s S N => conj S (conj N eq_refl)) E) as H.
  rewrite V1, V2 in H. exact H.
Defined.

(** A reason of 496 characters, 62 times "token=a", has 682 after filtering: it
    is accepted, and rejected when the mutation is read back. *)
Definition ex_long_reason : string := String.concat " " (repeat "token=a"%string 62).
Lemma filtered_reason_outgrows_bound :
  match construct ex_json ex_iso ex_sanitize (fun _ => Ok tt) (ex_fields ex_long_reason 80 None) with
  | Ok c => from_dict ex_json ex_iso ex_sanitize (fun _ => Ok tt) c = Err (exceeds "reason" 512)
  | Err _ => False
  end.
Proof. vm_compute. reflexivity. Qed.
