(* ===== verification/SharedMemory.v ===== *)
(** * SharedMemory: facts changed by staged, recorded mutations

    Models [app/shared_memory]: the control tables
    ([sqlalchemy_repository.py]), the lock of a fact ([redis_lock.py]) and the
    service that decides, stages, finalizes and activates a mutation, or
    resumes it ([service.py], [reconciler.py]).  Commands, identity and policy
    are those of MemoryPolicy.

    The two projections and their builder are what the service is constructed
    with: the ports are the interface [ProjectionPort], the builder two
    functions.  Other sessions act within [begin_or_replay], within
    [create_pending_review] and [finalize_canonical] between reading the fact
    and writing it, and while a resumption waits for its lock.  Generated
    identifiers and the clock are arguments; metrics and the payload of the
    events are left out, and so is [SQLAlchemy]'s conversion of a failed commit,
    which a flush right before it leaves nothing to do. *)

From S2P Require Import Prelude Texts Decimal Evidence MemoryPolicy.
From S2P Require RedisLock.
Import RedisLock(LockClient, LockHandle, acquired, handle_key, handle_token).

Local Open Scope Z_scope.
Local Open Scope list_scope.

(** ** Rows *)
Record MemoryFingerprints := { fact_key : string; content : string; payload : string; evidence : string }.

(** What changes of a mutation row; the rest is the command it was asked with. *)
Record Progress := {
  mu_decision : option MutationDecision;
  mu_reason_code : option string;
  mu_before : option Z;
  mu_after : option Z;
  mu_status : MutationStatus;
  vector_status : ProjectionStatus;
  graph_status : ProjectionStatus;
  error_code : option string;
  error_summary : option string;
  completed_at : option Z;
}.
Record MemoryMutation := {
  mutation_id : string;
  mu_payload : string;
  mu_fact_key : string;
  proposed : SharedMemoryMutationCommand;
  requested_at : Z;
  progress : Progress;
}.

(** The columns a mutation writes to its fact. *)
Record FactContent := {
  f_command : SharedMemoryMutationCommand;    (* category ... value_json, expires_at, vector_memory_id, graph_fact_key *)
  f_content_fingerprint : string;
  f_confidence : Q;
  f_status : MemoryFactStatus;
  f_last_mutation_id : string;
  f_updated_at : Z;
}.
Record SharedMemoryFact := { fact_id : string; f_version : Z; f_created_at : Z; f_content : FactContent }.

Record MemoryEvidence := {
  ev_mutation_id : string;
  ev_fingerprint : string;
  ev_fact_id : option string;
  ev_source_type : string;
  ev_source_id : string;
  ev_text : option string;
  ev_ref : option string;
  ev_observed_at : Z;
  ev_confidence : Q;
  safe_summary : string;
  ev_created_at : Z;
}.

Record MemoryMutationAttempt := {
  at_mutation_id : string;
  attempt_no : Z;
  at_time : Z;
  vector_before : ProjectionStatus;
  vector_after : ProjectionStatus;
  graph_before : ProjectionStatus;
  graph_after : ProjectionStatus;
  at_result : MutationStatus;
  at_error_code : option string;
  at_error_summary : option string;
}.

(** The tables, rows by ascending id; facts by their unique key. *)
Record store := {
  mutations : list MemoryMutation;
  facts : gmap string SharedMemoryFact;
  evidences : list MemoryEvidence;
  attempts : list MemoryMutationAttempt;
}.

Definition IdempotencyConflict (key : string) : exn := Exn "MemoryIdempotencyConflict" key.
Definition ProjectionIncomplete (mid : string) : exn := Exn "MemoryProjectionIncomplete" mid.
Definition MutationBusy (key : string) : exn := Exn "MemoryMutationBusy" key.
Definition ValidationError (m : string) : exn := Exn "MemoryMutationValidationError" m.
Definition LookupError (m : string) : exn := Exn "LookupError" m.
Definition IntegrityError : exn := Exn "IntegrityError" "".
Definition StaleDataError : exn := Exn "StaleDataError" "".

(** ** Writing rows *)
Definition with_mutations (s : store) (l : list MemoryMutation) : store :=
  {| mutations := l; facts := facts s; evidences := evidences s; attempts := attempts s |}.
Definition with_facts (s : store) (m : gmap string SharedMemoryFact) : store :=
  {| mutations := mutations s; facts := m; evidences := evidences s; attempts := attempts s |}.
Definition with_evidences (s : store) (l : list MemoryEvidence) : store :=
  {| mutations := mutations s; facts := facts s; evidences := l; attempts := attempts s |}.
Definition with_attempts (s : store) (l : list MemoryMutationAttempt) : store :=
  {| mutations := mutations s; facts := facts s; evidences := evidences s; attempts := l |}.

Definition with_progress (m : MemoryMutation) (p : Progress) : MemoryMutation :=
  {| mutation_id := mutation_id m; mu_payload := mu_payload m; mu_fact_key := mu_fact_key m; proposed := proposed m;
     requested_at := requested_at m; progress := p |}.

Definition by_id (s : store) (mid : string) : option MemoryMutation := List.find (fun m => String.eqb (mutation_id m) mid) (mutations s).
Definition by_key (s : store) (key : string) : option MemoryMutation := List.find (fun m => String.eqb (idempotency_key (proposed m)) key) (mutations s).
Definition required_mutation (s : store) (mid : string) : result MemoryMutation :=
  of_option (LookupError ("Unknown memory mutation: " +:+ mid)) (by_id s mid).
Definition set_progress (s : store) (mid : string) (f : Progress -> Progress) : store :=
  with_mutations s (map (fun m => if String.eqb (mutation_id m) mid then with_progress m (f (progress m)) else m) (mutations s)).

(** [_set_mutation_fields], and the other updates of one row: the row as written. *)
Definition set_mutation_fields (mid : string) (f : Progress -> Progress) : action store MemoryMutation := fun s =>
  match required_mutation s mid with
  | Err e => (Err e, s)
  | Ok _ => let s' := set_progress s mid f in (required_mutation s' mid, s')
  end.

(** *** The changes of a row *)
Definition progress_decided (d : MemoryDecision) (now : Z) (p : Progress) : Progress :=
  let status := match decision d with NOOP => Some M_APPLIED | REJECT => Some M_REJECTED | CONFLICT_REVIEW => Some M_CONFLICT | _ => None end in
  let projection q := if requires_projection d then q else P_NOT_REQUIRED in
  {| mu_decision := Some (decision d); mu_reason_code := Some (reason_code d); mu_before := before_version d; mu_after := after_version d;
     mu_status := default (mu_status p) status; vector_status := projection (vector_status p); graph_status := projection (graph_status p);
     error_code := error_code p; error_summary := error_summary p;
     completed_at := match status with Some _ => Some now | None => completed_at p end |}.
Definition progress_status (st : MutationStatus) (p : Progress) : Progress :=
  {| mu_decision := mu_decision p; mu_reason_code := mu_reason_code p; mu_before := mu_before p; mu_after := mu_after p; mu_status := st;
     vector_status := vector_status p; graph_status := graph_status p; error_code := error_code p; error_summary := error_summary p;
     completed_at := completed_at p |}.
Definition progress_projection (t : MemoryTarget) (st : ProjectionStatus) (p : Progress) : Progress :=
  {| mu_decision := mu_decision p; mu_reason_code := mu_reason_code p; mu_before := mu_before p; mu_after := mu_after p; mu_status := mu_status p;
     vector_status := match t with VECTOR => st | GRAPH => vector_status p end;
     graph_status := match t with VECTOR => graph_status p | GRAPH => st end; error_code := error_code p; error_summary := error_summary p;
     completed_at := completed_at p |}.
Definition progress_errors (st : MutationStatus) (code summary : option string) (done : option Z) (p : Progress) : Progress :=
  {| mu_decision := mu_decision p; mu_reason_code := mu_reason_code p; mu_before := mu_before p; mu_after := mu_after p; mu_status := st;
     vector_status := vector_status p; graph_status := graph_status p; error_code := code; error_summary := summary; completed_at := done |}.

(** ** The repository *)

Section repository.
Context (numeric : Q -> Q).   (* a decimal as the column [Numeric(5, 4)] holds it *)

Definition replay (m : MemoryMutation) (fps : MemoryFingerprints) : result (string * bool) :=
  if negb (String.eqb (mu_payload m) (payload fps)) then Err (IdempotencyConflict (idempotency_key (proposed m))) else Ok (mutation_id m, true).

Definition new_mutation (mid : string) (c : SharedMemoryMutationCommand) (fps : MemoryFingerprints) (now : Z) : MemoryMutation :=
  {| mutation_id := mid; mu_payload := payload fps; mu_fact_key := fact_key fps; proposed := c; requested_at := now;
     progress := {| mu_decision := None; mu_reason_code := None; mu_before := None; mu_after := None; mu_status := M_PENDING;
       vector_status := if to_vector (targets c) then P_PENDING else P_NOT_REQUIRED;
       graph_status := if to_graph (targets c) then P_PENDING else P_NOT_REQUIRED;
       error_code := None; error_summary := None; completed_at := None |} |}.

(** Unique mutation ids and idempotency keys. *)
Definition insert_mutation (s : store) (m : MemoryMutation) : result store :=
  match by_id s (mutation_id m), by_key s (idempotency_key (proposed m)) with
  | None, None => Ok (with_mutations s (mutations s ++ [m]))
  | _, _ => Err IntegrityError
  end.

Definition begin_or_replay (env : store -> store) (mid : string) (c : SharedMemoryMutationCommand) (fps : MemoryFingerprints) (now : Z)
    : action store (string * bool) := fun s =>
  match by_key s (idempotency_key c) with
  | Some m => (replay m fps, s)
  | None =>
      let s1 := env s in
      match insert_mutation s1 (new_mutation mid c fps now) with
      | Ok s2 => (Ok (mid, false), s2)
      | Err e => match by_key s1 (idempotency_key c) with
                 | None => (Err e, s1)
                 | Some m => (replay m fps, s1)
                 end
      end
  end.

Definition new_evidence (mid : string) (c : SharedMemoryMutationCommand) (fps : MemoryFingerprints) (now : Z) : MemoryEvidence :=
  {| ev_mutation_id := mid; ev_fingerprint := evidence fps; ev_fact_id := None; ev_source_type := source_type c; ev_source_id := source_id c;
     ev_text := evidence_text c; ev_ref := evidence_ref c; ev_observed_at := default (incoming_at c) (evidence_observed_at c);
     ev_confidence := numeric (dec_value (confidence c));
     safe_summary := py_take 512 (match present (evidence_text c) with Some t => t | None => or_else (evidence_ref c) "" end);
     ev_created_at := now |}.

(** The foreign key of an evidence is the mutation that has just been recorded. *)
Definition append_evidence (mid : string) (c : SharedMemoryMutationCommand) (fps : MemoryFingerprints) (now : Z) : action store bool := fun s =>
  if existsb (fun e => String.eqb (ev_mutation_id e) mid && String.eqb (ev_fingerprint e) (evidence fps)) (evidences s) then (Ok false, s)
  else (Ok true, with_evidences s (evidences s ++ [new_evidence mid c fps now])).

Definition append_attempt (mid : string) (result : MutationStatus) (vb va gb ga : ProjectionStatus) (code summary : option string) (now : Z)
    : action store Z := fun s =>
  let n := foldr Z.max 0 (map attempt_no (List.filter (fun a => String.eqb (at_mutation_id a) mid) (attempts s))) + 1 in
  (Ok n, with_attempts s (attempts s ++ [{| at_mutation_id := mid; attempt_no := n; at_time := now; vector_before := vb; vector_after := va;
     graph_before := gb; graph_after := ga; at_result := result; at_error_code := code; at_error_summary := summary |}])).

Definition record_decision (mid : string) (d : MemoryDecision) (now : Z) : action store MemoryMutation := set_mutation_fields mid (progress_decided d now).
Definition mark_applying (mid : string) : action store MemoryMutation := set_mutation_fields mid (progress_status M_APPLYING).
Definition update_projection_status (mid : string) (t : MemoryTarget) (st : ProjectionStatus) : action store MemoryMutation :=
  set_mutation_fields mid (progress_projection t st).
Definition mark_partial (mid code summary : string) : action store MemoryMutation :=
  set_mutation_fields mid (fun p => progress_errors M_PARTIAL (Some code) (Some summary) (completed_at p) p).

Definition link_evidence (s : store) (mid fid : string) : store :=
  with_evidences s (map (fun e => if String.eqb (ev_mutation_id e) mid && bool_decide (ev_fact_id e = None)
    then {| ev_mutation_id := ev_mutation_id e; ev_fingerprint := ev_fingerprint e; ev_fact_id := Some fid; ev_source_type := ev_source_type e;
            ev_source_id := ev_source_id e; ev_text := ev_text e; ev_ref := ev_ref e; ev_observed_at := ev_observed_at e;
            ev_confidence := ev_confidence e; safe_summary := safe_summary e; ev_created_at := ev_created_at e |}
    else e) (evidences s)).

Definition fact_content (mid : string) (c : SharedMemoryMutationCommand) (fps : MemoryFingerprints) (st : MemoryFactStatus) (now : Z) : FactContent :=
  {| f_command := c; f_content_fingerprint := content fps; f_confidence := numeric (dec_value (confidence c)); f_status := st;
     f_last_mutation_id := mid; f_updated_at := now |}.

(** Whether flushing writes nothing: every column keeps its value. *)
Definition unchanged (x y : FactContent) : bool :=
  let a := f_command x in let b := f_command y in
  bool_decide (category a = category b) && bool_decide (fact_kind a = fact_kind b) && String.eqb (subject_type a) (subject_type b)
  && String.eqb (subject_id a) (subject_id b) && String.eqb (predicate a) (predicate b) && bool_decide (object_type a = object_type b)
  && bool_decide (object_id a = object_id b) && py_eq (PDict (value_json a)) (PDict (value_json b))
  && bool_decide (expires_at a = expires_at b) && bool_decide (vector_memory_id a = vector_memory_id b)
  && bool_decide (graph_fact_key a = graph_fact_key b)
  && String.eqb (f_content_fingerprint x) (f_content_fingerprint y) && Qeq_bool (f_confidence x) (f_confidence y)
  && bool_decide (f_status x = f_status y) && String.eqb (f_last_mutation_id x) (f_last_mutation_id y) && (f_updated_at x =? f_updated_at y).

(** Flushing a fact loaded as [old]: [UPDATE ... WHERE id AND version]. *)
Definition flush_update (s : store) (key : string) (old : SharedMemoryFact) (new : FactContent) : result (SharedMemoryFact * store) :=
  if unchanged (f_content old) new then Ok (old, s)
  else match facts s !! key with
       | Some cur =>
           if String.eqb (fact_id cur) (fact_id old) && (f_version cur =? f_version old)
           then let f := {| fact_id := fact_id old; f_version := f_version old + 1; f_created_at := f_created_at old; f_content := new |} in
                Ok (f, with_facts s (<[key := f]> (facts s)))
           else Err StaleDataError
       | None => Err StaleDataError
       end.
Definition flush_insert (s : store) (key : string) (f : SharedMemoryFact) : result (SharedMemoryFact * store) :=
  match facts s !! key with None => Ok (f, with_facts s (<[key := f]> (facts s))) | Some _ => Err IntegrityError end.

Definition finalize_canonical (env : store -> store) (fid mid : string) (c : SharedMemoryMutationCommand) (fps : MemoryFingerprints) (d : MemoryDecision) (now : Z)
    : action store SharedMemoryFact := fun s =>
  match required_mutation s mid with
  | Err e => (Err e, s)
  | Ok _ =>
      let fact := facts s !! fact_key fps in
      match match fact with Some f => if String.eqb (f_last_mutation_id (f_content f)) mid && bool_decide (Some (f_version f) = after_version d) then fact else None | None => None end with
      | Some f => (Ok f, set_progress s mid (progress_status M_FINALIZING))
      | None =>
          if negb (bool_decide (f_version <$> fact = before_version d)) then (Err (MemoryVersionConflict (fact_key fps)), s)
          else
            let s1 := env s in
            let new := fact_content mid c fps (proposed_status d) now in
            match match fact with
                  | None => flush_insert s1 (fact_key fps) {| fact_id := fid; f_version := match after_version d with Some v => if v =? 0 then 1 else v | None => 1 end;
                                                               f_created_at := now; f_content := new |}
                  | Some f => flush_update s1 (fact_key fps) f new
                  end with
            | Err e => (Err e, s1)
            | Ok (f, s2) =>
                (Ok f, link_evidence (set_progress s2 mid (fun p => progress_errors M_FINALIZING None None (completed_at p) p)) mid (fact_id f))
            end
      end
  end.

Definition create_pending_review (env : store -> store) (fid mid : string) (c : SharedMemoryMutationCommand) (fps : MemoryFingerprints) (now : Z)
    : action store SharedMemoryFact := fun s =>
  match facts s !! fact_key fps with
  | Some f => (Ok f, s)
  | None =>
      let s1 := env s in
      match flush_insert s1 (fact_key fps) {| fact_id := fid; f_version := 1; f_created_at := now; f_content := fact_content mid c fps PENDING_REVIEW now |} with
      | Err e => (Err e, s1)
      | Ok (f, s2) => (Ok f, link_evidence s2 mid (fact_id f))
      end
  end.

Definition projected (p : ProjectionStatus) : bool := match p with P_NOT_REQUIRED | P_ACTIVE => true | _ => false end.

Definition mark_applied (mid : string) (now : Z) : action store MemoryMutation := fun s =>
  match required_mutation s mid with
  | Err e => (Err e, s)
  | Ok m =>
      if negb (projected (vector_status (progress m))) || negb (projected (graph_status (progress m))) then (Err (ProjectionIncomplete mid), s)
      else match facts s !! mu_fact_key m with
           | None => (Err (ProjectionIncomplete mid), s)
           | Some f =>
               if negb (bool_decide (Some (f_version f) = mu_after (progress m))) then (Err (ProjectionIncomplete mid), s)
               else set_mutation_fields mid (progress_errors M_APPLIED None None (Some now)) s
           end
  end.

Definition get_mutation (mid : string) : action store MemoryMutation := fun s => (required_mutation s mid, s).

Definition fact_snapshot (s : store) (key : string) (f : SharedMemoryFact) : SharedMemoryFactSnapshot :=
  {| sn_fact_key := key; sn_version := f_version f; sn_content_fingerprint := f_content_fingerprint (f_content f);
     sn_confidence := f_confidence (f_content f); sn_status := f_status (f_content f); sn_updated_at := f_updated_at (f_content f);
     sn_expires_at := expires_at (f_command (f_content f));
     sn_evidence_fingerprints := map ev_fingerprint (List.filter (fun e => bool_decide (ev_fact_id e = Some (fact_id f))) (evidences s)) |}.

Definition load_fact (s : store) (key : string) : option SharedMemoryFactSnapshot := fact_snapshot s key <$> facts s !! key.

Definition get_active_fact (s : store) (key : string) (now : Z) : option SharedMemoryFactSnapshot :=
  match facts s !! key with
  | Some f =>
      if bool_decide (f_status (f_content f) = ACTIVE) && match expires_at (f_command (f_content f)) with None => true | Some t => now <? t end
      then Some (fact_snapshot s key f) else None
  | None => None
  end.

(** A fact with its newest mutations and evidence, newest first. *)
Record FactDetail := { detail_fact : SharedMemoryFact; incomplete : bool; detail_mutations : list MemoryMutation; detail_evidence : list MemoryEvidence }.
Definition get_fact_detail (s : store) (key : string) (limit : Z) : result FactDetail :=
  if negb ((1 <=? limit) && (limit <=? 100)) then Err (ValueError "history_limit must be between 1 and 100")
  else match facts s !! key with
  | None => Err (LookupError key)
  | Some f =>
      let ms := firstn (Z.to_nat limit) (sorted_key_desc requested_at (List.filter (fun m => String.eqb (mu_fact_key m) key) (mutations s))) in
      let es := firstn (Z.to_nat limit) (sorted_key_desc ev_created_at (List.filter (fun e => bool_decide (ev_fact_id e = Some (fact_id f))) (evidences s))) in
      Ok {| detail_fact := f; incomplete := existsb (fun m => match mu_status (progress m) with M_PARTIAL | M_FINALIZING => true | _ => false end) ms;
            detail_mutations := ms; detail_evidence := es |}
  end.
End repository.

(** ** The service *)

(** What the service needs of a projection of facts [S] into a store [P]. *)
Class ProjectionPort (P S : Type) := {
  stage : S -> action P unit;
  probe : string -> Z -> action P (option string);
  activate : S -> action P unit;
  retire_previous : S -> action P unit;
}.

Record MemoryMutationResult := {
  r_mutation_id : string;
  r_fact_key : string;
  r_decision : MutationDecision;
  r_status : MutationStatus;
  r_before : option Z;
  r_after : option Z;
  r_vector : ProjectionStatus;
  r_graph : ProjectionStatus;
  projection_incomplete : bool;
  r_error_code : option string;
  r_error_summary : option string;
}.

(** [_result]: a mutation without a decision has no result. *)
Definition result_of (m : MemoryMutation) : result MemoryMutationResult :=
  let p := progress m in
  match mu_decision p with
  | None => Err (ValueError "None is not a valid MutationDecision")
  | Some d => Ok {| r_mutation_id := mutation_id m; r_fact_key := mu_fact_key m; r_decision := d; r_status := mu_status p; r_before := mu_before p;
      r_after := mu_after p; r_vector := vector_status p; r_graph := graph_status p;
      projection_incomplete := match mu_status p with M_PARTIAL | M_FINALIZING => true | _ => false end;
      r_error_code := error_code p; r_error_summary := error_summary p |}
  end.

(** [_safe_error_code], for ASCII texts. *)
Definition is_code_char (c : Ascii.ascii) : bool :=
  let n := Ascii.nat_of_ascii c in (Nat.leb 65 n && Nat.leb n 90) || (Nat.leb 48 n && Nat.leb n 57) || Nat.eqb n 95.
Definition safe_error_code (e : exn) : string :=
  let v := exn_arg e in
  if negb (String.eqb v "") && (py_len v <=? 64) && forallb is_code_char (String.list_ascii_of_string v) then v else "PROJECTION_OPERATION_FAILED".

Section service.
Context {R V G VS GS : Type} `{LockClient R, ProjectionPort V VS, ProjectionPort G GS}.

(** What the service is constructed with; the functions its commands are read and fingerprinted with. *)
Record service := {
  policy_settings : MemoryPolicySettings;
  lock_ttl : Z;
  build_vector : SharedMemoryMutationCommand -> string -> string -> Z -> result VS;
  build_graph : SharedMemoryMutationCommand -> string -> string -> Z -> result GS;
  broker : string -> string -> result unit;        (* the answer to an event type and mutation *)
  column : Q -> Q;
  digest : pyval -> string;
  isoformat : Z -> string;
  read_command : SharedMemoryMutationCommand -> result SharedMemoryMutationCommand;   (* MemoryPolicy.from_dict *)
}.

Record others := {
  within_begin : store -> store;
  while_waiting : store -> store;
  within_review : store -> store;
  within_finalize : store -> store;
}.

(** The tables, the lock server, the projections, and the events published. *)
Record world := { db : store; redis : R; vectors : V; graphs : G; published : list (string * string) }.

Definition Act (A : Type) : Type := action world A.
Definition on_db {A} (m : action store A) : Act A := fun w =>
  let (r, x) := m (db w) in (r, {| db := x; redis := redis w; vectors := vectors w; graphs := graphs w; published := published w |}).
Definition on_lock {A} (m : action R A) : Act A := fun w =>
  let (r, x) := m (redis w) in (r, {| db := db w; redis := x; vectors := vectors w; graphs := graphs w; published := published w |}).
Definition on_vectors {A} (m : action V A) : Act A := fun w =>
  let (r, x) := m (vectors w) in (r, {| db := db w; redis := redis w; vectors := x; graphs := graphs w; published := published w |}).
Definition on_graphs {A} (m : action G A) : Act A := fun w =>
  let (r, x) := m (graphs w) in (r, {| db := db w; redis := redis w; vectors := vectors w; graphs := x; published := published w |}).
Definition read {A} (f : store -> A) : Act A := fun w => (Ok (f (db w)), w).
Definition lift {A} (r : result A) : Act A := fun w => (r, w).

(** *** The lock of a fact *)
Definition memory_key (key : string) : string := "countyflow:lock:memory:" +:+ key.
Definition memory_lock_error {A} (m : string) (e : exn) : result A :=
  if RedisLock.is_redis_error e then Err (Exn "MemoryMutationLockError" m) else Err e.
Definition memory_acquire (ttl : Z) (key token : string) : action R LockHandle := fun r =>
  match RedisLock.client_set_nx (memory_key key) token ttl r with
  | (Ok b, r') => (Ok {| handle_key := memory_key key; handle_token := token; acquired := b |}, r')
  | (Err e, r') => (memory_lock_error "Redis memory mutation lock acquire failed" e, r')
  end.
Definition memory_release (h : LockHandle) : action R bool := fun r =>
  if negb (acquired h) then (Ok false, r)
  else match RedisLock.client_transaction (RedisLock.compare_and (handle_token h) RedisLock.Delete) (handle_key h) r with
       | (Ok b, r') => (Ok b, r')
       | (Err e, r') => (memory_lock_error "Redis memory mutation lock release failed" e, r')
       end.

(** The [finally] that releases the lock; a failing release replaces the answer. *)
Definition with_release {A} (h : LockHandle) (m : Act A) : Act A := fun w =>
  let (r, w1) := m w in
  match on_lock (memory_release h) w1 with
  | (Ok _, w2) => (r, w2)
  | (Err e, w2) => (Err e, w2)
  end.

(** [asyncio.timeout]: the deadline cancels whatever the call is waiting for. *)
Definition TimeoutError : exn := Exn "TimeoutError" "".
Definition timed {A} (m : Act A) : Act A :=
  catch_action m (fun e => raise_action (if is_exception e then e else TimeoutError)).

(** *** Events *)
Definition publish (v : service) (ty mid : string) : Act unit := fun w =>
  match broker v ty mid with
  | Ok _ => (Ok tt, {| db := db w; redis := redis w; vectors := vectors w; graphs := graphs w; published := published w ++ [(ty, mid)] |})
  | Err e => (Err e, w)
  end.
Definition terminal_event (st : MutationStatus) : result string :=
  match st with
  | M_APPLIED => Ok "MEMORY_MUTATION_APPLIED"%string | M_REJECTED => Ok "MEMORY_MUTATION_REJECTED"%string
  | M_CONFLICT => Ok "MEMORY_MUTATION_CONFLICT"%string | M_PARTIAL => Ok "MEMORY_MUTATION_PARTIAL"%string
  | _ => Err (Exn "KeyError" "")
  end.
Definition publish_terminal (v : service) (r : MemoryMutationResult) : Act unit :=
  (do ty <- lift (terminal_event (r_status r)); publish v ty (r_mutation_id r))%action.

(** *** Projections *)
Definition projection_error (e : exn) : Act (option string) :=
  if String.eqb (exn_class e) "TimeoutError" then ret_action (Some "PROJECTION_TIMEOUT"%string)
  else if is_exception e then ret_action (Some (safe_error_code e)) else raise_action e.

Definition stage_projection (mid : string) (t : MemoryTarget) (staging : Act unit) : Act (option string) :=
  (do failed <- catch_action (do _ <- staging; ret_action None) projection_error;
   match failed with
   | Some code => do _ <- on_db (update_projection_status mid t P_FAILED); ret_action (Some code)
   | None => do _ <- on_db (update_projection_status mid t P_STAGED); ret_action None
   end)%action.

Definition activate_projection (mid : string) (t : MemoryTarget) (activating retiring : Act unit) : Act (option string) :=
  (do failed <- catch_action (do _ <- activating; do _ <- retiring; ret_action None) projection_error;
   match failed with
   | Some code => ret_action (Some code)
   | None => do _ <- on_db (update_projection_status mid t P_ACTIVE); ret_action None
   end)%action.

(** The specification of a target, built if it is one. *)
Definition built {S} (wanted : bool) (b : result S) : Act (option S) :=
  if wanted then (do s <- lift b; ret_action (Some s))%action else ret_action None.
Definition staged_unless {S} (spec : option S) (m : S -> Act (option string)) : Act (option string) :=
  match spec with Some s => m s | None => ret_action None end.

Definition first_error (a b : option string) : option string := match a with Some c => Some c | None => b end.

Definition stage_vector (mid : string) (s : VS) : Act (option string) := stage_projection mid VECTOR (on_vectors (stage s)).
Definition stage_graph (mid : string) (s : GS) : Act (option string) := stage_projection mid GRAPH (on_graphs (stage s)).
Definition activate_vector (mid : string) (s : VS) : Act (option string) :=
  activate_projection mid VECTOR (on_vectors (activate s)) (on_vectors (retire_previous s)).
Definition activate_graph (mid : string) (s : GS) : Act (option string) :=
  activate_projection mid GRAPH (on_graphs (activate s)) (on_graphs (retire_previous s)).

Section mutate.
Context (v : service) (o : others) (now : Z) (token mid fid : string).

Definition fingerprints (c : SharedMemoryMutationCommand) : MemoryFingerprints :=
  {| fact_key := build_fact_key (digest v) c; content := content_fingerprint (digest v) c;
     payload := payload_fingerprint (digest v) (isoformat v) c; evidence := evidence_fingerprint (digest v) (isoformat v) c |}.

Definition allowed_targets (k : MemoryFactKind) : Targets :=
  match k with
  | ATTRIBUTE | RELATIONSHIP => {| to_vector := false; to_graph := true |}
  | EXPERIENCE => {| to_vector := true; to_graph := false |}
  | HYBRID => {| to_vector := true; to_graph := true |}
  end.
Definition validate_command (c : SharedMemoryMutationCommand) : result unit :=
  if negb (bool_decide (category c = DISPATCH)) then Err (ValidationError "V2-B accepts DispatchMemory only")
  else if negb (bool_decide (targets c = allowed_targets (fact_kind c))) then Err (ValidationError "Memory targets do not match the fact-kind registry")
  else Ok tt.

Definition finish_partial (m : string) (code : string) : Act MemoryMutationResult :=
  (do stored <- on_db (mark_partial m code "A required memory projection is incomplete");
   do _ <- on_db (append_attempt m M_PARTIAL P_PENDING (vector_status (progress stored)) P_PENDING (graph_status (progress stored))
             (Some code) (Some "A required memory projection is incomplete"%string) now);
   do r <- lift (result_of stored);
   do _ <- publish_terminal v r;
   ret_action r)%action.

(** The last steps of a mutation whose projections are active. *)
Definition finish_applied (m : string) (vb gb : ProjectionStatus) : Act MemoryMutationResult :=
  (do stored <- on_db (mark_applied m now);
   do _ <- on_db (append_attempt m M_APPLIED vb (vector_status (progress stored)) gb (graph_status (progress stored)) None None now);
   do r <- lift (result_of stored);
   do _ <- publish_terminal v r;
   ret_action r)%action.

(** Without a projection: a first low-confidence fact is filed for review. *)
Definition decide_only (c : SharedMemoryMutationCommand) (fps : MemoryFingerprints) (current : option SharedMemoryFactSnapshot) (d : MemoryDecision)
    : Act MemoryMutationResult :=
  (do _ <- (if bool_decide (decision d = CONFLICT_REVIEW) && bool_decide (current = None)
            then do _ <- on_db (create_pending_review (column v) (within_review o) fid mid c fps now); ret_action tt else ret_action tt);
   do stored <- on_db (get_mutation mid);
   do r <- lift (result_of stored);
   do _ <- publish_terminal v r;
   ret_action r)%action.

(** Staged, finalized, activated. *)
Definition project (c : SharedMemoryMutationCommand) (fps : MemoryFingerprints) (d : MemoryDecision) : Act MemoryMutationResult :=
  (do _ <- on_db (mark_applying mid);
   match after_version d with
   | None => raise_action (Exn "RuntimeError" "Projection decision requires an after_version")
   | Some version =>
       do vspec <- built (to_vector (targets c)) (build_vector v c mid (fact_key fps) version);
       do verr <- staged_unless vspec (stage_vector mid);
       do gspec <- built (to_graph (targets c)) (build_graph v c mid (fact_key fps) version);
       do gerr <- staged_unless gspec (stage_graph mid);
       match first_error verr gerr with
       | Some code => finish_partial mid code
       | None =>
           do _ <- on_db (finalize_canonical (column v) (within_finalize o) fid mid c fps d now);
           do verr <- staged_unless vspec (activate_vector mid);
           do gerr <- staged_unless gspec (activate_graph mid);
           match first_error verr gerr with
           | Some code => finish_partial mid code
           | None => finish_applied mid P_PENDING P_PENDING
           end
       end
   end)%action.

Definition mutate_locked (c : SharedMemoryMutationCommand) (fps : MemoryFingerprints) : Act MemoryMutationResult :=
  (do begun <- on_db (begin_or_replay (within_begin o) mid c fps now);
   if snd begun then do stored <- on_db (get_mutation (fst begun)); lift (result_of stored)
   else
     do _ <- publish v "MEMORY_MUTATION_REQUESTED" mid;
     do current <- read (fun s => load_fact s (fact_key fps));
     do d <- lift (evaluate_mutation (digest v) (isoformat v) current c (policy_settings v) now);
     do _ <- on_db (record_decision mid d now);
     do _ <- on_db (append_evidence (column v) mid c fps now);
     if requires_projection d then project c fps d else decide_only c fps current d)%action.

Definition mutate (c : SharedMemoryMutationCommand) : Act MemoryMutationResult :=
  (do _ <- lift (validate_command c);
   let fps := fingerprints c in
   do h <- on_lock (memory_acquire (lock_ttl v) (fact_key fps) token);
   if negb (acquired h) then raise_action (MutationBusy (fact_key fps))
   else with_release h (timed (mutate_locked c fps)))%action.

(** *** Resumption *)
Definition resume_stage (m : string) (t : MemoryTarget) (probing : Act (option string)) (staging : Act (option string)) : Act (option string) :=
  (do state <- probing;
   match state with
   | Some "STAGED"%string => do _ <- on_db (update_projection_status m t P_STAGED); ret_action None
   | Some "ACTIVE"%string => do _ <- on_db (update_projection_status m t P_ACTIVE); ret_action None
   | _ => staging
   end)%action.
Definition resume_activate (probing : Act (option string)) (activating : Act (option string)) : Act (option string) :=
  (do state <- probing;
   match state with Some "ACTIVE"%string => ret_action None | _ => activating end)%action.

Definition resume_locked (stored : MemoryMutation) : Act MemoryMutationResult :=
  (do c <- lift (read_command v (proposed stored));
   let fps := fingerprints c in
   let m := mutation_id stored in
   if negb (String.eqb (fact_key fps) (mu_fact_key stored)) then raise_action (ValidationError "Stored memory mutation identity is invalid")
   else match mu_decision (progress stored), mu_after (progress stored) with
   | Some k, Some version =>
       let d := {| decision := k; reason_code := or_else (mu_reason_code (progress stored)) "RESUME"; before_version := mu_before (progress stored);
                   after_version := Some version; proposed_status := ACTIVE; requires_projection := true |} in
       do _ <- on_db (mark_applying m);
       do vspec <- built (to_vector (targets c)) (build_vector v c m (mu_fact_key stored) version);
       do verr <- staged_unless vspec (fun s => resume_stage m VECTOR (on_vectors (probe m version)) (stage_vector m s));
       do gspec <- built (to_graph (targets c)) (build_graph v c m (mu_fact_key stored) version);
       do gerr <- staged_unless gspec (fun s => resume_stage m GRAPH (on_graphs (probe m version)) (stage_graph m s));
       match first_error verr gerr with
       | Some code => finish_partial m code
       | None =>
           do _ <- on_db (finalize_canonical (column v) (within_finalize o) fid m c fps d now);
           do verr <- staged_unless vspec (fun s => resume_activate (on_vectors (probe m version)) (activate_vector m s));
           do gerr <- staged_unless gspec (fun s => resume_activate (on_graphs (probe m version)) (activate_graph m s));
           match first_error verr gerr with
           | Some code => finish_partial m code
           | None => finish_applied m (vector_status (progress stored)) (graph_status (progress stored))
           end
       end
   | _, _ => raise_action (ValidationError "Stored memory mutation decision is incomplete")
   end)%action.

Definition others_act (env : store -> store) : Act unit := on_db (fun s => (Ok tt, env s)).

Definition resume_mutation (m : string) : Act MemoryMutationResult :=
  (do stored <- on_db (get_mutation m);
   match mu_status (progress stored) with
   | M_APPLIED | M_REJECTED | M_CONFLICT | M_FAILED => lift (result_of stored)
   | _ =>
       do h <- on_lock (memory_acquire (lock_ttl v) (mu_fact_key stored) token);
       do _ <- others_act (while_waiting o);
       if negb (acquired h) then raise_action (MutationBusy (mu_fact_key stored))
       else with_release h (timed (resume_locked stored))
   end)%action.

Definition get_mutation_result (m : string) : Act MemoryMutationResult := (do stored <- on_db (get_mutation m); lift (result_of stored))%action.
End mutate.
End service.

Create HintDb memory.

(** ** The rows of one mutation *)
Section rows.
Implicit Types (s : store) (m : MemoryMutation).

Lemma by_id_set_progress s mid f : by_id (set_progress s mid f) mid = (fun m => with_progress m (f (progress m))) <$> by_id s mid.
Proof. unfold by_id, set_progress. cbn [mutations with_mutations]. by apply (find_map_where (fun m => String.eqb (mutation_id m) mid)). Qed.

Lemma by_id_other s l F : mutations s = mutations l -> by_id s F = by_id l F.
Proof. unfold by_id. by intros ->. Qed.

Lemma required_ok s mid m : required_mutation s mid = Ok m <-> by_id s mid = Some m.
Proof. unfold required_mutation. destruct (by_id s mid); simpl; split; congruence. Qed.

Lemma set_fields_spec s mid f m : by_id s mid = Some m ->
  set_mutation_fields mid f s = (Ok (with_progress m (f (progress m))), set_progress s mid f) /\
  by_id (set_progress s mid f) mid = Some (with_progress m (f (progress m))).
Proof.
  intros B. assert (B' : by_id (set_progress s mid f) mid = Some (with_progress m (f (progress m)))) by (by rewrite by_id_set_progress, B).
  split; [|done]. unfold set_mutation_fields. rewrite (proj2 (required_ok _ _ _) B). cbv zeta. by rewrite (proj2 (required_ok _ _ _) B').
Qed.

Lemma insert_mutation_ok s m s' : insert_mutation s m = Ok s' ->
  by_id s (mutation_id m) = None /\ by_key s (idempotency_key (proposed m)) = None /\ s' = with_mutations s (mutations s ++ [m]) /\
  by_id s' (mutation_id m) = Some m.
Proof.
  unfold insert_mutation. destruct (by_id s _) eqn:B; [done|]. destruct (by_key s _) eqn:K; [done|]. intros [= <-].
  split; [done|]. split; [done|]. split; [done|]. unfold by_id in *. cbn [mutations with_mutations].
  rewrite find_app, B. simpl. by rewrite String.eqb_refl.
Qed.

Lemma link_evidence_rows s mid fid : mutations (link_evidence s mid fid) = mutations s /\ facts (link_evidence s mid fid) = facts s.
Proof. done. Qed.
End rows.

(** ** What a mutation does to the facts *)
Section effects.
Context {R V G VS GS : Type} `{LockClient R, ProjectionPort V VS, ProjectionPort G GS}.
Context (v : service (VS := VS) (GS := GS)) (o : others) (now : Z) (c : SharedMemoryMutationCommand).
Implicit Types (w : world (R := R) (V := V) (G := G)) (F : gmap string SharedMemoryFact) (d : MemoryDecision).

Definition key_of : string := fact_key (fingerprints v c).

(** The content a mutation writes, and a map with the fact finalized by it. *)
Definition written (mid : string) : FactContent := fact_content (column v) mid c (fingerprints v c) ACTIVE now.
Definition finalized (mid : string) d F F' : Prop :=
  exists f, F' = <[key_of := f]> F /\ f_content f = written mid /\ Some (f_version f) = after_version d.
Definition reviewed (mid fid : string) F : gmap string SharedMemoryFact :=
  <[key_of := {| fact_id := fid; f_version := 1; f_created_at := now;
                 f_content := fact_content (column v) mid c (fingerprints v c) PENDING_REVIEW now |}]> F.

(** The row of a mutation, at a point of its life. *)
Record stands (mid : string) w d (st : MutationStatus) (vs gs : ProjectionStatus) F : Prop := {
  st_row : exists m, by_id (db w) mid = Some m /\ mu_fact_key m = key_of /\ mu_decision (progress m) = Some (decision d) /\
    mu_before (progress m) = before_version d /\ mu_after (progress m) = after_version d /\ mu_status (progress m) = st /\
    vector_status (progress m) = vs /\ graph_status (progress m) = gs;
  st_facts : facts (db w) = F;
}.

Lemma tables_inv {A} (m : action store A) w x w' : on_db m w = (x, w') -> m (db w) = (x, db w') /\ redis w' = redis w /\ vectors w' = vectors w /\
  graphs w' = graphs w /\ published w' = published w.
Proof. unfold on_db. destruct (m (db w)) as [y s]. by intros [= <- <-]. Qed.

(** One update of the row. *)
Lemma stands_set mid w d st vs gs F f st' vs' gs' x w' : stands mid w d st vs gs F ->
  (forall p, mu_decision p = Some (decision d) -> mu_before p = before_version d -> mu_after p = after_version d -> mu_status p = st ->
     vector_status p = vs -> graph_status p = gs ->
     mu_decision (f p) = Some (decision d) /\ mu_before (f p) = before_version d /\ mu_after (f p) = after_version d /\ mu_status (f p) = st' /\
     vector_status (f p) = vs' /\ graph_status (f p) = gs') ->
  on_db (set_mutation_fields mid f) w = (x, w') ->
  stands mid w' d st' vs' gs' F /\ exists m, x = Ok m /\ by_id (db w') mid = Some m.
Proof.
  intros [(m & B & K & P1 & P2 & P3 & P4 & P5 & P6) Fs] Hf [E _]%tables_inv.
  destruct (set_fields_spec (db w) mid f m B) as [S B']. rewrite S in E. injection E as <- Ed. rewrite Ed in B'.
  destruct (Hf _ P1 P2 P3 P4 P5 P6) as (Q1 & Q2 & Q3 & Q4 & Q5 & Q6). split; [|by eexists].
  split; [|by rewrite <- Ed]. exists (with_progress m (f (progress m))). by split_and!.
Qed.

Definition set_target (t : MemoryTarget) (q : ProjectionStatus) (vs gs : ProjectionStatus) : ProjectionStatus * ProjectionStatus :=
  match t with VECTOR => (q, gs) | GRAPH => (vs, q) end.

Lemma stands_projection mid w d st vs gs F t q x w' : stands mid w d st vs gs F -> on_db (update_projection_status mid t q) w = (x, w') ->
  stands mid w' d st (set_target t q vs gs).1 (set_target t q vs gs).2 F /\ exists m, x = Ok m.
Proof.
  intros S E. eapply (stands_set _ _ _ _ _ _ _ _ st (set_target t q vs gs).1 (set_target t q vs gs).2) in E as [S' (m & -> & _)]; [by eauto|exact S|].
  intros p ? ? ? ? ? ?. by destruct t.
Qed.

(** Calls that leave the tables alone. *)
Definition still {A} (m : Act (R := R) (V := V) (G := G) A) : Prop := forall w x w', m w = (x, w') -> db w' = db w.

Lemma still_stands {A} mid w d st vs gs F (m : Act A) x w' : still m -> stands mid w d st vs gs F -> m w = (x, w') -> stands mid w' d st vs gs F.
Proof. intros N [S1 S2] E. split; by rewrite (N _ _ _ E). Qed.

Lemma still_vectors {A} (m : action V A) : still (on_vectors m).
Proof. intros w x w'. unfold on_vectors. destruct (m (vectors w)). by intros [= _ <-]. Qed.
Lemma still_graphs {A} (m : action G A) : still (on_graphs m).
Proof. intros w x w'. unfold on_graphs. destruct (m (graphs w)). by intros [= _ <-]. Qed.
Lemma still_lock {A} (m : action R A) : still (on_lock m).
Proof. intros w x w'. unfold on_lock. destruct (m (redis w)). by intros [= _ <-]. Qed.
Lemma still_lift {A} (r : result A) : still (lift r).
Proof. by intros w x w' [= _ <-]. Qed.
Lemma still_ret {A} (a : A) : still (ret_action a).
Proof. by intros w x w' [= _ <-]. Qed.
Lemma still_raise {A} e : still (raise_action (A := A) e).
Proof. by intros w x w' [= _ <-]. Qed.
Lemma still_publish ty mid : still (publish v ty mid).
Proof. intros w x w'. unfold publish. destruct (broker v ty mid); by intros [= _ <-]. Qed.
Lemma still_bind {A B} (m : Act A) (f : A -> Act B) : still m -> (forall a, still (f a)) -> still (bind_action m f).
Proof. intros M Fm w x w' [(a & w1 & E & E')|(e & E & _)]%bind_action_inv; [|by apply M in E]. apply M in E. apply Fm in E'. congruence. Qed.
Lemma still_catch {A} (m : Act A) h : still m -> (forall e, still (h e)) -> still (catch_action m h).
Proof. intros M Hh w x w'. unfold catch_action. destruct (m w) as [[a|e] w1] eqn:E; apply M in E; [by intros [= _ <-]|]. intros E'. apply Hh in E'. congruence. Qed.
Lemma still_built {S} b (r : result S) : still (built b r).
Proof. unfold built. destruct b; [|apply still_ret]. apply still_bind; [apply still_lift|intros; apply still_ret]. Qed.
Lemma still_projection_error e : still (projection_error e).
Proof. unfold projection_error. destruct (String.eqb _ _); [apply still_ret|]. destruct (is_exception e); [apply still_ret|apply still_raise]. Qed.
Lemma still_terminal r : still (publish_terminal v r).
Proof. apply still_bind; [apply still_lift|intros; apply still_publish]. Qed.
#[local] Hint Resolve still_vectors still_graphs still_lock still_lift still_ret still_raise still_publish still_bind still_catch still_built
  still_projection_error still_terminal : memory.

(** The answer for a row. *)
Record answers (mid : string) w (r : MemoryMutationResult) d (st : MutationStatus) (vs gs : ProjectionStatus) : Prop := {
  an_ids : r_mutation_id r = mid /\ r_fact_key r = key_of;
  an_decision : r_decision r = decision d /\ r_before r = before_version d /\ r_after r = after_version d;
  an_status : r_status r = st /\ r_vector r = vs /\ r_graph r = gs;
  an_row : exists m, by_id (db w) mid = Some m /\ result_of m = Ok r;
}.

Lemma stands_answers mid w d st vs gs F m r : stands mid w d st vs gs F -> by_id (db w) mid = Some m -> result_of m = Ok r -> answers mid w r d st vs gs.
Proof.
  intros [(m' & B & K & P1 & P2 & P3 & P4 & P5 & P6) _] B' E. rewrite B in B'. injection B' as ->.
  assert (Row : exists m, by_id (db w) mid = Some m /\ result_of m = Ok r) by eauto. unfold result_of in E. cbv zeta in E.
  rewrite P1 in E. injection E as Er. apply find_some in B as [_ B]. apply String.eqb_eq in B. by split; try done; rewrite <- Er.
Qed.

Lemma append_attempt_stands mid w d st vs gs F st' a b e g code sm x w' : stands mid w d st vs gs F ->
  on_db (append_attempt mid st' a b e g code sm now) w = (x, w') -> stands mid w' d st vs gs F /\ by_id (db w') mid = by_id (db w) mid.
Proof.
  intros [(m & B & Rest) Fs] [E _]%tables_inv. unfold append_attempt in E. cbv zeta in E. injection E as _ E.
  rewrite <- E. split; [|done]. split; [exists m|]; by rewrite <- E.
Qed.

(** Answering with the stored row: what follows leaves the tables alone. *)
Lemma answer_end mid w d st vs gs F (m : MemoryMutation) x w' : stands mid w d st vs gs F -> by_id (db w) mid = Some m ->
  (do r <- lift (result_of m); do _ <- publish_terminal v r; ret_action r)%action w = (x, w') ->
  stands mid w' d st vs gs F /\ forall r, x = Ok r -> answers mid w' r d st vs gs.
Proof.
  intros S B E. assert (N : still (do r <- lift (result_of m); do _ <- publish_terminal v r; ret_action r)%action) by eauto 8 with memory.
  split; [by eapply still_stands|]. intros r ->. pose proof (N _ _ _ E) as Db.
  apply bind_action_inv in E as [(r1 & w1 & E1 & E)|(e & _ & [=])]. injection E1 as E1 <-.
  apply bind_action_inv in E as [(u & w2 & _ & E)|(e & _ & [=])]. injection E as <- _. pose proof (stands_answers _ _ _ _ _ _ _ _ _ S B E1) as [A1 A2 A3 A4]. by split; rewrite ?Db.
Qed.

Lemma finish_partial_end mid w d st vs gs F code x w' : stands mid w d st vs gs F -> finish_partial v now mid code w = (x, w') ->
  stands mid w' d M_PARTIAL vs gs F /\ forall r, x = Ok r -> answers mid w' r d M_PARTIAL vs gs.
Proof.
  intros S E. apply bind_action_inv in E as [(m & w1 & E1 & E)|(e & E1 & ->)].
  2: { eapply (stands_set _ _ _ _ _ _ _ _ M_PARTIAL vs gs) in E1 as [_ (m & [=] & _)]; [exact S|]. intros p; by intros. }
  eapply (stands_set _ _ _ _ _ _ _ _ M_PARTIAL vs gs) in E1 as [S1 (m' & [= <-] & B1)]; [|exact S|intros p; by intros].
  apply bind_action_inv in E as [(n & w2 & E2 & E)|(e & E2 & ->)]; [|discriminate (proj1 (tables_inv _ _ _ _ E2))].
  eapply append_attempt_stands in E2 as [S2 B2]; [|exact S1]. rewrite B1 in B2. by eapply answer_end.
Qed.

Lemma finish_applied_end mid w d st vs gs F a b x w' : stands mid w d st vs gs F -> finish_applied v now mid a b w = (x, w') ->
  facts (db w') = F /\ forall r, x = Ok r -> stands mid w' d M_APPLIED vs gs F /\ answers mid w' r d M_APPLIED vs gs /\ projected vs = true /\ projected gs = true.
Proof.
  intros S E. pose proof S as [(m0 & B0 & K & P1 & P2 & P3 & P4 & P5 & P6) Fs].
  assert (Er : forall e w1, on_db (mark_applied mid now) w = (Err e, w1) -> facts (db w1) = F).
  { intros e w1 [E1 _]%tables_inv. unfold mark_applied in E1. destruct (required_mutation _ _) as [m|]; [|by injection E1 as _ <-].
    destruct (_ || _); [by injection E1 as _ <-|]. destruct (_ !! _); [|by injection E1 as _ <-]. destruct (negb _); [by injection E1 as _ <-|].
    destruct (set_fields_spec (db w) mid (progress_errors M_APPLIED None None (Some now)) m0 B0) as [Q _]. rewrite Q in E1. discriminate E1. }
  apply bind_action_inv in E as [(m & w1 & E1 & E)|(e & E1 & ->)]; [|by split; [apply Er in E1|]]. clear Er.
  assert (Ps : projected vs = true /\ projected gs = true /\ on_db (set_mutation_fields mid (progress_errors M_APPLIED None None (Some now))) w = (Ok m, w1)).
  { unfold on_db in *. unfold mark_applied in E1. rewrite (proj2 (required_ok _ _ _) B0), P5, P6 in E1.
    destruct (projected vs), (projected gs); cbn [negb orb] in E1; try done. destruct (_ !! _); [|done]. by destruct (negb _). }
  destruct Ps as (Ps1 & Ps2 & E2). eapply (stands_set _ _ _ _ _ _ _ _ M_APPLIED vs gs) in E2 as [S1 (m' & [= <-] & B1)]; [|exact S|intros p; by intros].
  apply bind_action_inv in E as [(n & w2 & E2 & E)|(e & E2 & ->)]; [|discriminate (proj1 (tables_inv _ _ _ _ E2))].
  eapply append_attempt_stands in E2 as [S2 B2]; [|exact S1]. rewrite B1 in B2.
  eapply answer_end in E as [S3 A]; [|exact S2|exact B2]. split; [apply S3|]. intros r Hr. by split_and!; [|apply A| |].
Qed.

(** Staging and activating a target. *)
Lemma stage_stands mid w d st vs gs F t (staging : Act unit) x w' : still staging -> stands mid w d st vs gs F -> stage_projection mid t staging w = (x, w') ->
  match x with
  | Ok None => stands mid w' d st (set_target t P_STAGED vs gs).1 (set_target t P_STAGED vs gs).2 F
  | Ok (Some _) => stands mid w' d st (set_target t P_FAILED vs gs).1 (set_target t P_FAILED vs gs).2 F
  | Err _ => stands mid w' d st vs gs F
  end.
Proof.
  intros N S E. apply bind_action_inv in E as [(f & w1 & E1 & E)|(e & E1 & ->)].
  2: { eapply still_stands; [|exact S|exact E1]. eauto 8 with memory. }
  eapply still_stands in E1; [|eauto 8 with memory|exact S].
  destruct f as [code|]; apply bind_action_inv in E as [(m & w2 & E2 & E)|(e & E2 & ->)];
    (eapply stands_projection in E2 as [S2 (m' & Hm)]; [|exact E1]); try discriminate Hm; by injection E as <- <-.
Qed.

Lemma activate_stands mid w d st vs gs F t (activating retiring : Act unit) x w' : still activating -> still retiring -> stands mid w d st vs gs F ->
  activate_projection mid t activating retiring w = (x, w') ->
  match x with
  | Ok None => stands mid w' d st (set_target t P_ACTIVE vs gs).1 (set_target t P_ACTIVE vs gs).2 F
  | _ => stands mid w' d st vs gs F
  end.
Proof.
  intros N1 N2 S E. apply bind_action_inv in E as [(f & w1 & E1 & E)|(e & E1 & ->)].
  2: { eapply still_stands; [|exact S|exact E1]. eauto 10 with memory. }
  eapply still_stands in E1; [|eauto 10 with memory|exact S].
  destruct f as [code|]; [by injection E as <- <-|]. apply bind_action_inv in E as [(m & w2 & E2 & E)|(e & E2 & ->)];
    (eapply stands_projection in E2 as [S2 (m' & Hm)]; [|exact E1]); try discriminate Hm; by injection E as <- <-.
Qed.

(** The facts as others may have left them within the finalization. *)
Definition moved F F' : Prop := F' = F \/ exists s, facts s = F /\ F' = facts (within_finalize o s).

Lemma unchanged_last x y : unchanged x y = true -> f_last_mutation_id x = f_last_mutation_id y.
Proof. unfold unchanged. cbv zeta. rewrite !andb_true_iff, !String.eqb_eq. tauto. Qed.

Lemma flush_update_ok s key old new f s' : flush_update s key old new = Ok (f, s') -> unchanged (f_content old) new = false ->
  s' = with_facts s (<[key := f]> (facts s)) /\ f_version f = f_version old + 1 /\ f_content f = new.
Proof.
  unfold flush_update. intros E U. rewrite U in E. destruct (facts s !! key); [|done]. destruct (_ && _); [|done]. by injection E as <- <-.
Qed.

Lemma finalize_end mid fid w d st vs gs F x w' : stands mid w d st vs gs F ->
  (forall s, by_id (within_finalize o s) mid = by_id s mid) ->
  after_version d = Some (default 0 (before_version d) + 1) -> proposed_status d = ACTIVE ->
  (forall f, F !! key_of = Some f -> f_last_mutation_id (f_content f) <> mid) ->
  on_db (finalize_canonical (column v) (within_finalize o) fid mid c (fingerprints v c) d now) w = (x, w') ->
  match x with
  | Err _ => moved F (facts (db w'))
  | Ok _ => exists base, moved F base /\ f_version <$> F !! key_of = before_version d /\ finalized mid d base (facts (db w')) /\
      stands mid w' d M_FINALIZING vs gs (facts (db w'))
  end.
Proof.
  intros S Env Af Pr Fr E. pose proof S as [(m & B & K & P1 & P2 & P3 & P4 & P5 & P6) Fs]. apply tables_inv in E as [E _].
  unfold finalize_canonical in E. rewrite (proj2 (required_ok _ _ _) B) in E. change (fact_key (fingerprints v c)) with key_of in E.
  cbv zeta in E. rewrite Fs in E.
  assert (Nf : match F !! key_of with Some f => if String.eqb (f_last_mutation_id (f_content f)) mid && bool_decide (Some (f_version f) = after_version d) then F !! key_of else None | None => None end = None).
  { destruct (F !! key_of) as [f|] eqn:L; [|done]. specialize (Fr f eq_refl). destruct (String.eqb_spec (f_last_mutation_id (f_content f)) mid); [done|]. done. }
  rewrite Nf in E. clear Nf. case_bool_decide as Vb; cbn [negb] in E; [|injection E as <- <-; by left].
  assert (Mv : moved F (facts (within_finalize o (db w)))) by (right; by exists (db w)). rewrite Pr in E.
  assert (Ok' : forall f s2, s2 = with_facts (within_finalize o (db w)) (<[key_of := f]> (facts (within_finalize o (db w)))) ->
    f_content f = written mid -> Some (f_version f) = after_version d ->
    (Ok f, link_evidence (set_progress s2 mid (fun p => progress_errors M_FINALIZING None None (completed_at p) p)) mid (fact_id f)) = (x, db w') ->
    match x with Err _ => moved F (facts (db w'))
    | Ok _ => exists base, moved F base /\ f_version <$> F !! key_of = before_version d /\ finalized mid d base (facts (db w')) /\
      stands mid w' d M_FINALIZING vs gs (facts (db w')) end).
  { intros f s2 -> Fc Fv [= <- Ed]. exists (facts (within_finalize o (db w))). split; [done|]. split; [done|]. split.
    - exists f. rewrite <- Ed. done.
    - split; [|done]. exists (with_progress m (progress_errors M_FINALIZING None None (completed_at (progress m)) (progress m))).
      split; [|by split_and!]. rewrite <- Ed, (by_id_other _ (set_progress (with_facts (within_finalize o (db w)) (<[key_of := f]> (facts (within_finalize o (db w))))) mid
        (fun p => progress_errors M_FINALIZING None None (completed_at p) p))) by done.
      rewrite by_id_set_progress, (by_id_other _ (within_finalize o (db w))), Env, B by done. done. }
  destruct (F !! key_of) as [f|] eqn:L.
  - destruct (flush_update _ _ _ _) as [[f' s2]|e] eqn:Fl; [|injection E as <- <-; done].
    apply flush_update_ok in Fl as (-> & Fv & Fc); [|apply not_true_iff_false; intros U%unchanged_last; by apply (Fr f eq_refl)].
    apply (Ok' f' _ eq_refl Fc); [|exact E]. rewrite Fv, Af, <- Vb. done.
  - unfold flush_insert in E. destruct (facts (within_finalize o (db w)) !! key_of) eqn:L2; [injection E as <- <-; done|].
    refine (Ok' _ _ _ _ _ E); [reflexivity|reflexivity|]. cbn. by rewrite Af, <- Vb.
Qed.

(** What a target that is wanted has reached. *)
Definition wanted (b : bool) (q : ProjectionStatus) : ProjectionStatus := if b then q else P_NOT_REQUIRED.
Definition spec_for {S} (b : bool) (spec : option S) : Prop := match spec with Some _ => b = true | None => b = false end.

Lemma built_inv {S} b (r : result S) w spec w' : built b r w = (Ok spec, w') -> w' = w /\ spec_for b spec.
Proof.
  unfold built. destruct b; [|by intros [= <- <-]]. intros [(a & w1 & E & E2)|(e & _ & [=])]%bind_action_inv.
  injection E as _ <-. by injection E2 as <- <-.
Qed.

Lemma stage_vector_end mid w d st q gs F spec x w' : stands mid w d st (wanted (to_vector (targets c)) q) gs F -> spec_for (to_vector (targets c)) spec ->
  staged_unless spec (stage_vector mid) w = (x, w') ->
  match x with
  | Ok None => stands mid w' d st (wanted (to_vector (targets c)) P_STAGED) gs F
  | _ => exists vs, stands mid w' d st vs gs F
  end.
Proof.
  intros S Sp E. destruct spec as [s|]; simpl in Sp; [|injection E as <- <-; by rewrite Sp in *]. rewrite Sp in *.
  apply (stage_stands _ _ _ _ _ _ _ _ _ _ _ (still_vectors _) S) in E. destruct x as [[code|]|e]; eauto.
Qed.

Lemma stage_graph_end mid w d st vs q F spec x w' : stands mid w d st vs (wanted (to_graph (targets c)) q) F -> spec_for (to_graph (targets c)) spec ->
  staged_unless spec (stage_graph mid) w = (x, w') ->
  match x with
  | Ok None => stands mid w' d st vs (wanted (to_graph (targets c)) P_STAGED) F
  | _ => exists gs, stands mid w' d st vs gs F
  end.
Proof.
  intros S Sp E. destruct spec as [s|]; simpl in Sp; [|injection E as <- <-; by rewrite Sp in *]. rewrite Sp in *.
  apply (stage_stands _ _ _ _ _ _ _ _ _ _ _ (still_graphs _) S) in E. destruct x as [[code|]|e]; eauto.
Qed.

Lemma activate_vector_end mid w d st q gs F spec x w' : stands mid w d st (wanted (to_vector (targets c)) q) gs F -> spec_for (to_vector (targets c)) spec ->
  staged_unless spec (activate_vector mid) w = (x, w') ->
  match x with
  | Ok None => stands mid w' d st (wanted (to_vector (targets c)) P_ACTIVE) gs F
  | _ => exists vs, stands mid w' d st vs gs F
  end.
Proof.
  intros S Sp E. destruct spec as [s|]; simpl in Sp; [|injection E as <- <-; by rewrite Sp in *]. rewrite Sp in *.
  apply (activate_stands _ _ _ _ _ _ _ _ _ _ _ _ (still_vectors _) (still_vectors _) S) in E. destruct x as [[code|]|e]; eauto.
Qed.

Lemma activate_graph_end mid w d st vs q F spec x w' : stands mid w d st vs (wanted (to_graph (targets c)) q) F -> spec_for (to_graph (targets c)) spec ->
  staged_unless spec (activate_graph mid) w = (x, w') ->
  match x with
  | Ok None => stands mid w' d st vs (wanted (to_graph (targets c)) P_ACTIVE) F
  | _ => exists gs, stands mid w' d st vs gs F
  end.
Proof.
  intros S Sp E. destruct spec as [s|]; simpl in Sp; [|injection E as <- <-; by rewrite Sp in *]. rewrite Sp in *.
  apply (activate_stands _ _ _ _ _ _ _ _ _ _ _ _ (still_graphs _) (still_graphs _) S) in E. destruct x as [[code|]|e]; eauto.
Qed.

(** The fact has been finalized, at the version the decision was taken on. *)
Definition advanced mid d F F' : Prop := exists base, moved F base /\ f_version <$> F !! key_of = before_version d /\ finalized mid d base F'.

(** A projected mutation: nothing happened to the facts but what others did, or it is finalized;
    the answer says which. *)
Definition projected_end mid d F (x : result MemoryMutationResult) w' : Prop :=
  (moved F (facts (db w')) \/ advanced mid d F (facts (db w'))) /\
  forall r, x = Ok r ->
    (exists vs gs, answers mid w' r d M_PARTIAL vs gs /\ stands mid w' d M_PARTIAL vs gs (facts (db w')) /\
       (facts (db w') = F \/ advanced mid d F (facts (db w')))) \/
    (answers mid w' r d M_APPLIED (wanted (to_vector (targets c)) P_ACTIVE) (wanted (to_graph (targets c)) P_ACTIVE) /\
     stands mid w' d M_APPLIED (wanted (to_vector (targets c)) P_ACTIVE) (wanted (to_graph (targets c)) P_ACTIVE) (facts (db w')) /\
     advanced mid d F (facts (db w'))).

Lemma projected_err mid d F e w' : moved F (facts (db w')) \/ advanced mid d F (facts (db w')) -> projected_end mid d F (Err e) w'.
Proof. by split. Qed.

Lemma projected_partial mid d st vs gs F F1 code w x w' : stands mid w d st vs gs F1 -> F1 = F \/ advanced mid d F F1 ->
  finish_partial v now mid code w = (x, w') -> projected_end mid d F x w'.
Proof.
  intros S Ad E. eapply finish_partial_end in E as [S' A]; [|exact S]. pose proof (st_facts _ _ _ _ _ _ _ S') as Fs.
  split; [rewrite Fs; destruct Ad as [->|Ad]; [left; by left|by right]|]. intros r Hr. left. exists vs, gs. rewrite Fs. split; [by apply A|]. by split.
Qed.

Lemma project_end mid fid w d st F x w' : stands mid w d st (wanted (to_vector (targets c)) P_PENDING) (wanted (to_graph (targets c)) P_PENDING) F ->
  (forall s, by_id (within_finalize o s) mid = by_id s mid) ->
  after_version d = Some (default 0 (before_version d) + 1) -> proposed_status d = ACTIVE ->
  (forall f, F !! key_of = Some f -> f_last_mutation_id (f_content f) <> mid) ->
  project v o now mid fid c (fingerprints v c) d w = (x, w') -> projected_end mid d F x w'.
Proof.
  intros S Env Af Pr Fr E. assert (Same : forall w1 st1 vs1 gs1, stands mid w1 d st1 vs1 gs1 F -> moved F (facts (db w1)) \/ advanced mid d F (facts (db w1))).
  { intros ? ? ? ? [_ ->]. left. by left. }
  apply bind_action_inv in E as [(m & w1 & E1 & E)|(e & E1 & ->)];
    (eapply (stands_set _ _ _ _ _ _ _ _ M_APPLYING) in E1 as [S1 (m' & Hm & _)]; [|exact S|intros p; by intros]); [clear m' Hm|discriminate Hm].
  rewrite Af in E.
  apply bind_action_inv in E as [(vspec & w2 & E2 & E)|(e & E2 & ->)];
    [apply built_inv in E2 as [-> Sv]|apply projected_err; eapply still_stands in E2; [eapply Same, E2|apply still_built|exact S1]].
  apply bind_action_inv in E as [(verr & w3 & E3 & E)|(e & E3 & ->)]; (eapply stage_vector_end in E3; [|exact S1|exact Sv]);
    [|apply projected_err; destruct E3 as [vs S3]; eapply Same, S3].
  assert (S3 : exists vs, stands mid w3 d M_APPLYING vs (wanted (to_graph (targets c)) P_PENDING) F /\ (verr = None -> vs = wanted (to_vector (targets c)) P_STAGED)).
  { destruct verr as [code|]; [destruct E3 as [vs E3]|]; eexists; by split. }
  clear E3. destruct S3 as (vs & S3 & Vs).
  apply bind_action_inv in E as [(gspec & w4 & E4 & E)|(e & E4 & ->)];
    [apply built_inv in E4 as [-> Sg]|apply projected_err; eapply still_stands in E4; [eapply Same, E4|apply still_built|exact S3]].
  apply bind_action_inv in E as [(gerr & w5 & E5 & E)|(e & E5 & ->)]; (eapply stage_graph_end in E5; [|exact S3|exact Sg]);
    [|apply projected_err; destruct E5 as [gs S5]; eapply Same, S5].
  destruct (first_error verr gerr) as [code|] eqn:Fe.
  { assert (S5 : exists gs, stands mid w5 d M_APPLYING vs gs F) by (destruct gerr; eauto). destruct S5 as [gs S5].
    eapply projected_partial; [exact S5|by left|exact E]. }
  destruct verr, gerr; try discriminate Fe. rewrite (Vs eq_refl) in E5. clear Vs Fe S3 S1 S.
  apply bind_action_inv in E as [(f & w6 & E6 & E)|(e & E6 & ->)]; (eapply finalize_end in E6; [|exact E5|done..]);
    [destruct E6 as (base & Mb & Vb & Fb & S6)|apply projected_err; by left].
  assert (Ad : advanced mid d F (facts (db w6))) by (by exists base). clear Mb Vb Fb E5. set (F6 := facts (db w6)) in *.
  assert (Same' : forall w1 st1 vs1 gs1, stands mid w1 d st1 vs1 gs1 F6 -> moved F (facts (db w1)) \/ advanced mid d F (facts (db w1))).
  { intros ? ? ? ? [_ ->]. by right. }
  apply bind_action_inv in E as [(verr & w7 & E7 & E)|(e & E7 & ->)]; (eapply activate_vector_end in E7; [|exact S6|exact Sv]);
    [|apply projected_err; destruct E7 as [vs7 S7]; eapply Same', S7].
  assert (S7 : exists vs, stands mid w7 d M_FINALIZING vs (wanted (to_graph (targets c)) P_STAGED) F6 /\ (verr = None -> vs = wanted (to_vector (targets c)) P_ACTIVE)).
  { destruct verr as [code|]; [destruct E7 as [vs7 E7]|]; eexists; by split. }
  clear E7. destruct S7 as (vs7 & S7 & Vs7).
  apply bind_action_inv in E as [(gerr & w8 & E8 & E)|(e & E8 & ->)]; (eapply activate_graph_end in E8; [|exact S7|exact Sg]);
    [|apply projected_err; destruct E8 as [gs8 S8]; eapply Same', S8].
  destruct (first_error verr gerr) as [code|] eqn:Fe.
  { assert (S8 : exists gs, stands mid w8 d M_FINALIZING vs7 gs F6) by (destruct gerr; eauto). destruct S8 as [gs8 S8].
    eapply projected_partial; [exact S8|by right|exact E]. }
  destruct verr, gerr; try discriminate Fe. rewrite (Vs7 eq_refl) in E8.
  eapply finish_applied_end in E as [Fs A]; [|exact E8]. split; [rewrite Fs; by right|]. intros r Hr. right. destruct (A r Hr) as (S9 & A9 & _).
  rewrite Fs. by split_and!.
Qed.

(** *** The whole call *)
Inductive effect_kind := Kept | Reviewed | Advanced.

Inductive fact_effect (mid fid : string) d F : effect_kind -> gmap string SharedMemoryFact -> Prop :=
| effect_kept F' : moved F F' -> fact_effect mid fid d F Kept F'
| effect_kept_review s : facts s = F -> decision d = CONFLICT_REVIEW -> fact_effect mid fid d F Kept (facts (within_review o s))
| effect_reviewed s : facts s = F -> F !! key_of = None -> decision d = CONFLICT_REVIEW ->
    fact_effect mid fid d F Reviewed (reviewed mid fid (facts (within_review o s)))
| effect_advanced F' : requires_projection d = true -> advanced mid d F F' -> fact_effect mid fid d F Advanced F'.

(** What an answer announces. *)
Definition announced (r : MemoryMutationResult) d (k : effect_kind) : Prop :=
  r_decision r = decision d /\
  match r_status r with
  | M_APPLIED =>
      if requires_projection d
      then k = Advanced /\ r_vector r = wanted (to_vector (targets c)) P_ACTIVE /\ r_graph r = wanted (to_graph (targets c)) P_ACTIVE
      else decision d = NOOP /\ k = Kept
  | M_REJECTED => decision d = REJECT /\ k = Kept
  | M_CONFLICT => decision d = CONFLICT_REVIEW /\ k <> Advanced
  | M_PARTIAL => requires_projection d = true
  | _ => False
  end.

Definition outcome (mid fid : string) w (x : result MemoryMutationResult) w' : Prop :=
  facts (db w') = facts (db w) /\ (exists e, x = Err e) \/
  exists d k, evaluate_mutation (digest v) (isoformat v) (load_fact (db w) key_of) c (policy_settings v) now = Ok d /\
    fact_effect mid fid d (facts (db w)) k (facts (db w')) /\
    forall r, x = Ok r -> announced r d k /\ exists m, by_id (db w') mid = Some m /\ result_of m = Ok r.

Lemma outcome_err mid fid w e w' : facts (db w') = facts (db w) -> outcome mid fid w (Err e) w'.
Proof. intros E. left. split; [done|]. by exists e. Qed.

(** Without a projection. *)
Lemma decide_only_end mid fid w0 w d st F x w' : facts (db w0) = F ->
  evaluate_mutation (digest v) (isoformat v) (load_fact (db w0) key_of) c (policy_settings v) now = Ok d -> requires_projection d = false ->
  st = match decision d with NOOP => M_APPLIED | REJECT => M_REJECTED | _ => M_CONFLICT end ->
  decision d ∈ [NOOP; REJECT; CONFLICT_REVIEW] ->
  stands mid w d st P_NOT_REQUIRED P_NOT_REQUIRED F -> (forall s, by_id (within_review o s) mid = by_id s mid) ->
  decide_only v o now mid fid c (fingerprints v c) (load_fact (db w0) key_of) d w = (x, w') -> outcome mid fid w0 x w'.
Proof.
  intros F0 Ev Rq St Dc S Env E.
  assert (Fin : forall w1 k, stands mid w1 d st P_NOT_REQUIRED P_NOT_REQUIRED (facts (db w1)) -> fact_effect mid fid d F k (facts (db w1)) ->
    (k <> Kept -> decision d = CONFLICT_REVIEW /\ k = Reviewed) ->
    (do stored <- on_db (get_mutation mid); do r <- lift (result_of stored); do _ <- publish_terminal v r; ret_action r)%action w1 = (x, w') -> outcome mid fid w0 x w').
  { intros w1 k S1 Ef Hk E1. right. exists d, k. split; [done|].
    apply bind_action_inv in E1 as [(m & w2 & E1 & E2)|(e & E1 & _)]; apply tables_inv in E1 as [E1 _]; unfold get_mutation in E1; injection E1 as E1 D.
    2: { apply st_row in S1 as (m & B & _). rewrite (proj2 (required_ok _ _ _) B) in E1. discriminate E1. }
    apply required_ok in E1. rewrite D in E1. assert (S2 : stands mid w2 d st P_NOT_REQUIRED P_NOT_REQUIRED (facts (db w1))) by (destruct S1 as [S1 _]; split; by rewrite <- D).
    eapply answer_end in E2 as [S3 A]; [|exact S2|exact E1]. rewrite (st_facts _ _ _ _ _ _ _ S3), F0. split; [done|].
    intros r Hr. destruct (A r Hr) as [_ (A1 & _) (A2 & _) A3]. split; [|done]. split; [done|]. rewrite A2, St. clear -Dc Rq Hk.
    destruct (decision d) eqn:Dd; try (exfalso; set_solver); [| |rewrite Rq]; (split; [done|]); destruct k; try done; try (by destruct Hk as [? ?]). }
  unfold decide_only in E. case_bool_decide as D1.
  2: { apply bind_action_inv in E as [(u & w1 & [= _ <-] & E)|(e & [=] & _)]. eapply (Fin w Kept); [by rewrite (st_facts _ _ _ _ _ _ _ S)| |done|exact E].
       rewrite (st_facts _ _ _ _ _ _ _ S). constructor. by left. }
  case_bool_decide as D2; cbn [andb] in E.
  2: { apply bind_action_inv in E as [(u & w1 & [= _ <-] & E)|(e & [=] & _)]. eapply (Fin w Kept); [by rewrite (st_facts _ _ _ _ _ _ _ S)| |done|exact E].
       rewrite (st_facts _ _ _ _ _ _ _ S). constructor. by left. }
  assert (N : F !! key_of = None). { unfold load_fact in D2. rewrite F0 in D2. by destruct (F !! key_of). }
  assert (Rv : forall y w1, on_db (create_pending_review (column v) (within_review o) fid mid c (fingerprints v c) now) w = (y, w1) ->
    (exists k, fact_effect mid fid d F k (facts (db w1)) /\ (k <> Kept -> k = Reviewed)) /\ by_id (db w1) mid = by_id (db w) mid).
  { intros y w1 [E1 _]%tables_inv. unfold create_pending_review in E1. change (fact_key (fingerprints v c)) with key_of in E1.
    rewrite (st_facts _ _ _ _ _ _ _ S), N in E1. cbv zeta in E1. pose proof (st_facts _ _ _ _ _ _ _ S) as Fs. unfold flush_insert in E1.
    destruct (facts (within_review o (db w)) !! key_of) eqn:L; injection E1 as _ <-.
    - split; [|by apply Env]. exists Kept. split; [by apply effect_kept_review|done].
    - split; [|by rewrite <- (Env (db w))]. exists Reviewed. split; [|done]. by apply (effect_reviewed mid fid d F (db w)). }
  apply bind_action_inv in E as [(u & w1 & E1 & E)|(e & E1 & ->)].
  - apply bind_action_inv in E1 as [(f & w2 & E1 & [= _ <-])|(e & _ & [=])]. apply Rv in E1 as [(k & Ef & Hk) B].
    eapply (Fin w2 k); [|exact Ef| |exact E]; [|intros Nk; split; [done|by apply Hk]].
    destruct S as [(m & Bm & Rest) _]. split; [|done]. exists m. by rewrite B.
  - apply bind_action_inv in E1 as [(f & w2 & E1 & [=])|(e2 & E1 & _)]. apply Rv in E1 as [(k & Ef & Hk) _].
    right. exists d, k. rewrite F0. by split_and!.
Qed.

(** The first steps of a new mutation: the row, the decision and the evidence. *)
Definition fresh_mutation (mid : string) w : Prop :=
  within_begin o (db w) = db w /\ by_key (db w) (idempotency_key c) = None /\ by_id (db w) mid = None /\
  forall k f, facts (db w) !! k = Some f -> f_last_mutation_id (f_content f) <> mid.

Lemma begin_mutation_fresh mid w : fresh_mutation mid w ->
  begin_or_replay (within_begin o) mid c (fingerprints v c) now (db w) =
    (Ok (mid, false), with_mutations (db w) (mutations (db w) ++ [new_mutation mid c (fingerprints v c) now])) /\
  by_id (with_mutations (db w) (mutations (db w) ++ [new_mutation mid c (fingerprints v c) now])) mid = Some (new_mutation mid c (fingerprints v c) now).
Proof.
  intros (Wb & K & I & _). unfold begin_or_replay. rewrite K, Wb. cbv zeta. unfold insert_mutation. cbn [mutation_id new_mutation proposed]. rewrite I, K.
  split; [done|]. unfold by_id in *. cbn [mutations with_mutations]. rewrite find_app, I. simpl. by rewrite String.eqb_refl.
Qed.

Lemma record_stands mid w m d x w' : by_id (db w) mid = Some m -> mu_fact_key m = key_of -> mu_status (progress m) = M_PENDING ->
  on_db (record_decision mid d now) w = (x, w') ->
  (exists m', x = Ok m') /\
  stands mid w' d (match decision d with NOOP => M_APPLIED | REJECT => M_REJECTED | CONFLICT_REVIEW => M_CONFLICT | _ => M_PENDING end)
    (if requires_projection d then vector_status (progress m) else P_NOT_REQUIRED) (if requires_projection d then graph_status (progress m) else P_NOT_REQUIRED) (facts (db w)) /\
  evidences (db w') = evidences (db w).
Proof.
  intros B K P [E _]%tables_inv. unfold record_decision in E. destruct (set_fields_spec (db w) mid (progress_decided d now) m B) as [S B'].
  rewrite S in E. injection E as <- Ed. split; [by eexists|]. rewrite Ed in B'. split; [|by rewrite <- Ed].
  split; [|by rewrite <- Ed]. exists (with_progress m (progress_decided d now (progress m))). split; [done|]. cbn. by destruct (decision d).
Qed.

Lemma append_evidence_stands mid w d st vs gs F fps x w' : stands mid w d st vs gs F -> on_db (append_evidence (column v) mid c fps now) w = (x, w') ->
  (exists b, x = Ok b) /\ stands mid w' d st vs gs F.
Proof.
  intros [(m & B & Rest) Fs] [E _]%tables_inv. unfold append_evidence in E. destruct (existsb _ _); injection E as <- Ed;
    (split; [by eexists|]; split; [exists m|]; by rewrite <- Ed).
Qed.

Lemma mutate_locked_end mid fid w x w' : fresh_mutation mid w ->
  (forall s, by_id (within_finalize o s) mid = by_id s mid) -> (forall s, by_id (within_review o s) mid = by_id s mid) ->
  mutate_locked v o now mid fid c (fingerprints v c) w = (x, w') -> outcome mid fid w x w'.
Proof.
  intros Fr Ef Er E. destruct (begin_mutation_fresh mid w Fr) as [Bg Bi].
  apply bind_action_inv in E as [(b & w1 & E1 & E)|(e & E1 & ->)]; apply tables_inv in E1 as [E1 _]; rewrite Bg in E1; [|discriminate E1].
  injection E1 as <- D1. cbn [fst snd] in E.
  assert (Fs1 : facts (db w1) = facts (db w) /\ load_fact (db w1) key_of = load_fact (db w) key_of) by (by rewrite <- D1). destruct Fs1 as [Fs1 Ld].
  rewrite D1 in Bi.
  apply bind_action_inv in E as [(u & w2 & E2 & E)|(e & E2 & ->)]; apply still_publish in E2; [|apply outcome_err; by rewrite E2].
  apply bind_action_inv in E as [(current & w3 & Ec & E)|(e & [=] & _)].
  assert (Cu : current = load_fact (db w) key_of /\ w3 = w2) by (injection Ec as <- <-; split; [by rewrite E2|done]). destruct Cu as [-> ->]. clear Ec.
  apply bind_action_inv in E as [(d & w4 & [= Ev <-] & E)|(e & [= _ <-] & ->)]; [|apply outcome_err; by rewrite E2].
  pose proof (evaluate_decides_spec _ _ _ _ _ _ _ Ev) as (_ & Bf & Af).
  apply bind_action_inv in E as [(m & w5 & E5 & E)|(e & E5 & ->)]; (eapply record_stands in E5 as [(m' & Hm) [S5 Evi]]; [|rewrite E2; exact Bi|done|done]);
    [|discriminate Hm]. rewrite E2, Fs1 in S5.
  apply bind_action_inv in E as [(b & w6 & E6 & E)|(e & E6 & ->)]; (eapply append_evidence_stands in E6 as [(b' & Hb) S6]; [|exact S5]); [|discriminate Hb].
  destruct (requires_projection d) eqn:Rq.
  - destruct Af as (Dc & Af & Pr). assert (Ab : after_version d = Some (default 0 (before_version d) + 1)) by (by rewrite Bf).
    eapply project_end in E; [|exact S6|done|done|done|by apply Fr]. destruct E as [Mv An].
    right. destruct x as [r|e].
    + destruct (An r eq_refl) as [(vs & gs & [_ (A1 & _) (A2 & _) A3] & _ & Ad)|([_ (A1 & _) (A2 & A4 & A5) A3] & _ & Ad)].
      * destruct Ad as [->|Ad]; [exists d, Kept; split; [done|]; split; [constructor; by left|]|exists d, Advanced; split; [done|]; split; [by constructor|]];
          intros r' [= <-]; (split; [|done]); (split; [done|]); by rewrite A2.
      * exists d, Advanced. split; [done|]. split; [by constructor|]. intros r' [= <-]. split; [|done]. split; [done|]. by rewrite A2, Rq.
    + destruct Mv as [Mv|Ad]; [exists d, Kept|exists d, Advanced]; (split; [done|]); (split; [by constructor|done]).
  - destruct Af as (Dc & _). eapply decide_only_end in E; [exact E|reflexivity|exact Ev|done|reflexivity|done| |done].
    replace (match decision d with NOOP => M_APPLIED | REJECT => M_REJECTED | _ => M_CONFLICT end) with
      (match decision d with NOOP => M_APPLIED | REJECT => M_REJECTED | CONFLICT_REVIEW => M_CONFLICT | _ => M_PENDING end); [exact S6|].
    destruct (decision d); try done; set_solver.
Qed.

Lemma mutate_end token mid fid w x w' : fresh_mutation mid w ->
  (forall s, by_id (within_finalize o s) mid = by_id s mid) -> (forall s, by_id (within_review o s) mid = by_id s mid) ->
  mutate v o now token mid fid c w = (x, w') -> outcome mid fid w x w'.
Proof.
  intros Fr Ef Er E. apply bind_action_inv in E as [(u & w1 & E1 & E)|(e & E1 & ->)]; apply still_lift in E1; [|by apply outcome_err; rewrite E1].
  cbv zeta in E.
  apply bind_action_inv in E as [(h & w2 & E2 & E)|(e & E2 & ->)]; apply still_lock in E2; rewrite E1 in E2; [|by apply outcome_err; rewrite E2].
  destruct (acquired h); cbn [negb] in E; [|injection E as <- <-; apply outcome_err; by rewrite E2].
  unfold with_release in E. destruct (timed _ _) as [y w3] eqn:Et.
  assert (Ot : outcome mid fid w2 y w3).
  { unfold timed, catch_action in Et. destruct (mutate_locked _ _ _ _ _ _ _ w2) as [z w4] eqn:M.
    apply mutate_locked_end in M; [|unfold fresh_mutation; by rewrite E2|done|done].
    destruct z as [a|e]; [by injection Et as <- <-|]. injection Et as <- <-. destruct M as [[F _]|(d & k & Ev & Ef' & _)]; [by apply outcome_err|].
    right. exists d, k. by split_and!. }
  destruct (on_lock _ w3) as [[b|e] w5] eqn:Rl; apply still_lock in Rl; injection E as <- <-.
  - destruct Ot as [[F Ex]|(d & k & Ev & Ef' & An)]; [left; by rewrite Rl, F, E2|]. right. exists d, k. by rewrite Rl, <- E2.
  - destruct Ot as [[F Ex]|(d & k & Ev & Ef' & An)]; [apply outcome_err; by rewrite Rl, F, E2|]. right. exists d, k. rewrite Rl, <- E2. by split_and!.
Qed.
End effects.
#[export] Hint Resolve still_vectors still_graphs still_lock still_lift still_ret still_raise still_publish still_bind still_catch still_built
  still_projection_error still_terminal : memory.

(** ** Known keys, and resumption *)
Section known.
Context {R V G VS GS : Type} `{LockClient R, ProjectionPort V VS, ProjectionPort G GS}.
Context (v : service (VS := VS) (GS := GS)).
Implicit Types (w : world (R := R) (V := V) (G := G)) (c : SharedMemoryMutationCommand).

(** The lock server grants a token the lock of a fact, and answers its release. *)
Definition grants (key token : string) w : Prop :=
  exists h r1, memory_acquire (lock_ttl v) key token (redis w) = (Ok h, r1) /\ acquired h = true /\ forall r, exists b r', memory_release h r = (Ok b, r').

Definition same_but_lock w w' : Prop := db w' = db w /\ vectors w' = vectors w /\ graphs w' = graphs w /\ published w' = published w.

(** Under a granted lock, what the locked part does, once timed, is what happens. *)
Lemma granted key token w : grants key token w ->
  exists h w1, on_lock (memory_acquire (lock_ttl v) key token) w = (Ok h, w1) /\ acquired h = true /\ same_but_lock w w1 /\
    forall A (a : Act (R := R) (V := V) (G := G) A) w2, exists w3, with_release h a w2 = ((a w2).1, w3) /\ same_but_lock (a w2).2 w3.
Proof.
  intros (h & r1 & E & A1 & Rl). exists h, {| db := db w; redis := r1; vectors := vectors w; graphs := graphs w; published := published w |}.
  split; [unfold on_lock; by rewrite E|]. split; [done|]. split; [done|]. intros A a w0. unfold with_release.
  destruct (a w0) as [x w2]. destruct (Rl (redis w2)) as (b & r' & E2). unfold on_lock. rewrite E2. by eexists.
Qed.

Lemma timed_ok {A} (m : Act (R := R) (V := V) (G := G) A) w x w' : m w = (x, w') -> (forall e, x = Err e -> is_exception e = true) -> timed m w = (x, w').
Proof. unfold timed, catch_action. intros -> X. destruct x as [a|e]; [done|]. by rewrite (X e eq_refl). Qed.

Lemma mutate_known o now token mid fid c w m : validate_command c = Ok tt -> grants (key_of v c) token w ->
  by_key (db w) (idempotency_key c) = Some m -> by_id (db w) (mutation_id m) = Some m ->
  exists w', mutate v o now token mid fid c w =
    (if String.eqb (mu_payload m) (payload (fingerprints v c)) then result_of m else Err (IdempotencyConflict (idempotency_key (proposed m))), w') /\
    same_but_lock w w'.
Proof.
  intros Vd Gr K I. destruct (granted _ _ _ Gr) as (h & w1 & E1 & A1 & (D1 & D2 & D3 & D4) & Rl).
  unfold mutate, lift, bind_action at 1. rewrite Vd. cbv zeta. erewrite bind_action_ok by exact E1. rewrite A1. cbn [negb].
  destruct (Rl _ (timed (mutate_locked v o now mid fid c (fingerprints v c))) w1) as (w3 & E3 & S3). exists w3. rewrite E3. clear E3 Rl.
  set (x := if String.eqb _ _ then _ else _).
  assert (L : mutate_locked v o now mid fid c (fingerprints v c) w1 = (x, w1)).
  { unfold mutate_locked, bind_action at 1, on_db at 1, begin_or_replay. rewrite D1, K. unfold replay. subst x.
    destruct (String.eqb _ _); cbn [negb]; [|by destruct w1; simpl in *; subst]. cbn [fst snd].
    unfold bind_action, on_db, get_mutation. cbn [db]. rewrite (proj2 (required_ok _ _ _) I). by destruct w1; simpl in *; subst. }
  assert (T : timed (mutate_locked v o now mid fid c (fingerprints v c)) w1 = (x, w1)).
  { apply timed_ok; [done|]. subst x. destruct (String.eqb _ _); [|by intros e [= <-]]. unfold result_of. cbv zeta.
    destruct (mu_decision _); [done|by intros e [= <-]]. }
  rewrite T in S3 |- *. split; [done|]. destruct S3 as (Q1 & Q2 & Q3 & Q4). cbn [snd] in *. unfold same_but_lock. split_and!; congruence.
Qed.
End known.

(** ** A version conflict after the row is recorded *)
Section conflict.
Context {R V G VS GS : Type} `{LockClient R, ProjectionPort V VS, ProjectionPort G GS}.
Context (v : service (VS := VS) (GS := GS)) (o : others) (now : Z) (c : SharedMemoryMutationCommand).
Implicit Types (w : world (R := R) (V := V) (G := G)).

Lemma evaluate_conflict current : expected_version c <> sn_version <$> current -> exists k, evaluate_mutation (digest v) (isoformat v) current c (policy_settings v) now = Err (MemoryVersionConflict k).
Proof. intros N. unfold evaluate_mutation. rewrite bool_decide_eq_false_2 by done. by eexists. Qed.

Lemma mutate_conflict token mid fid w : validate_command c = Ok tt -> grants v (key_of v c) token w -> fresh_mutation o c mid w ->
  broker v "MEMORY_MUTATION_REQUESTED" mid = Ok tt -> expected_version c <> f_version <$> facts (db w) !! key_of v c ->
  exists k w', mutate v o now token mid fid c w = (Err (MemoryVersionConflict k), w') /\
    db w' = with_mutations (db w) (mutations (db w) ++ [new_mutation mid c (fingerprints v c) now]).
Proof.
  intros Vd Gr Fr Br N. destruct (granted v _ _ _ Gr) as (h & w1 & E1 & A1 & (D1 & D2 & D3 & D4) & Rl).
  assert (N' : expected_version c <> sn_version <$> load_fact (db w) (key_of v c)) by (unfold load_fact; by destruct (facts (db w) !! _)).
  destruct (evaluate_conflict _ N') as [k Ev].
  unfold mutate, lift, bind_action at 1. rewrite Vd. cbv zeta. erewrite bind_action_ok by exact E1. rewrite A1. cbn [negb].
  destruct (Rl _ (timed (mutate_locked v o now mid fid c (fingerprints v c))) w1) as (w3 & E3 & S3). exists k, w3. rewrite E3. clear E3 Rl.
  destruct (begin_mutation_fresh v o now c mid w Fr) as [Bg _].
  assert (L : exists w2, mutate_locked v o now mid fid c (fingerprints v c) w1 = (Err (MemoryVersionConflict k), w2) /\
    db w2 = with_mutations (db w) (mutations (db w) ++ [new_mutation mid c (fingerprints v c) now])).
  { unfold mutate_locked. erewrite bind_action_ok by (unfold on_db; rewrite D1, Bg; reflexivity). cbn [fst snd].
    erewrite bind_action_ok by (unfold publish; rewrite Br; reflexivity). erewrite bind_action_ok by reflexivity. cbn [db].
    change (load_fact (with_mutations (db w) _) (fact_key (fingerprints v c))) with (load_fact (db w) (key_of v c)).
    eexists. split; [eapply bind_action_err; unfold lift; by rewrite Ev|done]. }
  destruct L as (w2 & L & D). rewrite (timed_ok _ _ _ _ L) in S3 |- * by (by intros e [= <-]). split; [done|]. by destruct S3 as (-> & _).
Qed.

(** Resuming needs a decision. *)
Lemma resume_undecided token fid mid w m : grants v (mu_fact_key m) token w -> by_id (db w) mid = Some m -> mu_status (progress m) = M_PENDING ->
  mu_decision (progress m) = None -> read_command v (proposed m) = Ok c -> key_of v c = mu_fact_key m ->
  (resume_mutation v o now token fid mid w).1 = Err (ValidationError "Stored memory mutation decision is incomplete").
Proof.
  intros Gr B St Dn Rd K. destruct (granted v _ _ _ Gr) as (h & w1 & E1 & A1 & (D1 & _) & Rl).
  unfold resume_mutation. erewrite bind_action_ok by (unfold on_db, get_mutation; rewrite (proj2 (required_ok _ _ _) B); reflexivity).
  rewrite St. replace {| db := db w; redis := redis w; vectors := vectors w; graphs := graphs w; published := published w |} with w by (by destruct w).
  erewrite bind_action_ok by exact E1. erewrite bind_action_ok by reflexivity. rewrite A1. cbn [negb].
  match goal with |- (with_release h _ ?w2).1 = _ => set (w' := w2) end.
  assert (L : timed (resume_locked v o now fid m) w' = (Err (ValidationError "Stored memory mutation decision is incomplete"), w')).
  { apply timed_ok; [|by intros e [= <-]]. unfold resume_locked. erewrite bind_action_ok by (unfold lift; rewrite Rd; reflexivity). cbv zeta.
    change (fact_key (fingerprints v c)) with (key_of v c). rewrite K, String.eqb_refl. cbn [negb]. by rewrite Dn. }
  destruct (Rl _ (timed (resume_locked v o now fid m)) w') as (w3 & E3 & _). by rewrite E3, L.
Qed.
End conflict.

(** ** Resumption completes *)

(** A projection that works for one mutation: every call is answered, probing
    changes nothing, and what has only been staged is not active. *)
Record port_live {P S} `{ProjectionPort P S} (s : S) (mid : string) (version : Z) : Prop := {
  pl_stage : forall p, exists p', stage s p = (Ok tt, p') /\ (probe mid version p').1 <> Ok (Some "ACTIVE"%string);
  pl_probe : forall p, exists st, probe mid version p = (Ok st, p);
  pl_activate : forall p, exists p', activate s p = (Ok tt, p');
  pl_retire : forall p, exists p', retire_previous s p = (Ok tt, p');
}.

Section live.
Context {R V G VS GS : Type} `{LockClient R, ProjectionPort V VS, ProjectionPort G GS}.
Context (v : service (VS := VS) (GS := GS)) (o : others) (now : Z) (c : SharedMemoryMutationCommand) (mid : string) (d : MemoryDecision) (version : Z).
Implicit Types (w : world (R := R) (V := V) (G := G)) (F : gmap string SharedMemoryFact).

(** The row never lags behind an active projection. *)
Definition consistent {P S} `{ProjectionPort P S} (q : ProjectionStatus) (p : P) : Prop := (probe mid version p).1 = Ok (Some "ACTIVE"%string) -> q = P_ACTIVE.

Lemma set_live w st vs gs F f st' vs' gs' : stands v c mid w d st vs gs F ->
  (forall p, mu_decision p = Some (decision d) -> mu_before p = before_version d -> mu_after p = after_version d -> mu_status p = st ->
     vector_status p = vs -> graph_status p = gs ->
     mu_decision (f p) = Some (decision d) /\ mu_before (f p) = before_version d /\ mu_after (f p) = after_version d /\ mu_status (f p) = st' /\
     vector_status (f p) = vs' /\ graph_status (f p) = gs') ->
  exists m w', on_db (set_mutation_fields mid f) w = (Ok m, w') /\ stands v c mid w' d st' vs' gs' F /\ by_id (db w') mid = Some m /\
    vectors w' = vectors w /\ graphs w' = graphs w.
Proof.
  intros S Hf. destruct (on_db _ w) as [x w'] eqn:E. pose proof (tables_inv _ _ _ _ E) as (_ & _ & Ev & Eg & _).
  destruct (stands_set v c _ _ _ _ _ _ _ _ _ _ _ _ _ S Hf E) as [S' (m & -> & B)]. by exists m, w'.
Qed.

Lemma projection_live w st vs gs F t q : stands v c mid w d st vs gs F ->
  exists m w', on_db (update_projection_status mid t q) w = (Ok m, w') /\ stands v c mid w' d st (set_target t q vs gs).1 (set_target t q vs gs).2 F /\
    vectors w' = vectors w /\ graphs w' = graphs w.
Proof.
  intros S. destruct (set_live w st vs gs F (progress_projection t q) st (set_target t q vs gs).1 (set_target t q vs gs).2 S) as (m & w' & E & S' & _ & Ev & Eg);
    [intros p ? ? ? ? ? ?; by destruct t|]. by exists m, w'.
Qed.

(** One target, whose port is seen through [run]. *)
Section target.
Context {P S : Type} `{ProjectionPort P S} (t : MemoryTarget) (seen : world (R := R) (V := V) (G := G) -> P)
  (run : forall A, action P A -> Act (R := R) (V := V) (G := G) A).
(** What [run] does: the call on the port, and nothing else. *)
Definition runs (other : world (R := R) (V := V) (G := G) -> V + G) : Prop :=
  (forall A (m : action P A) w, exists w', run A m w = ((m (seen w)).1, w') /\ seen w' = (m (seen w)).2 /\ db w' = db w /\ other w' = other w) /\
  (forall w w', vectors w' = vectors w -> graphs w' = graphs w -> seen w' = seen w /\ other w' = other w).
Context (other : world (R := R) (V := V) (G := G) -> V + G).
Hypothesis Run : runs other.

Lemma stands_db w w' st vs gs F : db w' = db w -> stands v c mid w d st vs gs F -> stands v c mid w' d st vs gs F.
Proof. intros E [S1 S2]. split; by rewrite E. Qed.

Lemma stage_live s w st vs gs F : port_live s mid version -> stands v c mid w d st vs gs F ->
  exists w', stage_projection mid t (run _ (stage s)) w = (Ok None, w') /\ stands v c mid w' d st (set_target t P_STAGED vs gs).1 (set_target t P_STAGED vs gs).2 F /\
    (probe mid version (seen w')).1 <> Ok (Some "ACTIVE"%string) /\ other w' = other w.
Proof.
  intros L St. destruct Run as [Rn Rw]. destruct (pl_stage _ _ _ L (seen w)) as (p' & E & Na).
  destruct (Rn _ (stage s) w) as (w1 & E1 & Sn & Db & Ot). rewrite E in E1, Sn. cbn [fst snd] in *.
  destruct (projection_live w1 st vs gs F t P_STAGED (stands_db _ _ _ _ _ _ Db St)) as (m & w2 & E2 & S2 & Ev & Eg). destruct (Rw w1 w2 Ev Eg) as [Sn2 Ot2].
  exists w2. unfold stage_projection.
  rewrite (bind_action_ok (catch_action _ projection_error) _ w None w1) by (unfold catch_action; by rewrite (bind_action_ok _ _ _ _ _ E1)).
  rewrite (bind_action_ok _ _ _ _ _ E2). split; [done|]. split; [done|]. rewrite Sn2, Sn, Ot2, Ot. by split.
Qed.

Lemma resume_stage_live s w st vs gs F : port_live s mid version -> stands v c mid w d st vs gs F ->
  exists w' q, resume_stage mid t (run _ (probe mid version)) (stage_projection mid t (run _ (stage s))) w = (Ok None, w') /\
    stands v c mid w' d st (set_target t q vs gs).1 (set_target t q vs gs).2 F /\ consistent q (seen w') /\ other w' = other w.
Proof.
  intros L St. destruct Run as [Rn Rw]. destruct (pl_probe _ _ _ L (seen w)) as (state & E).
  destruct (Rn _ (probe mid version) w) as (w1 & E1 & Sn & Db & Ot). rewrite E in E1, Sn. cbn [fst snd] in *.
  pose proof (stands_db _ _ _ _ _ _ Db St) as S1. unfold resume_stage. rewrite (bind_action_ok _ _ _ _ _ E1).
  assert (Up : forall q, (state = Some "ACTIVE"%string -> q = P_ACTIVE) -> exists w', (do _ <- on_db (update_projection_status mid t q); ret_action (@None string))%action w1 = (Ok None, w') /\
    stands v c mid w' d st (set_target t q vs gs).1 (set_target t q vs gs).2 F /\ consistent q (seen w') /\ other w' = other w).
  { intros q Hq. destruct (projection_live w1 st vs gs F t q S1) as (m & w2 & E2 & S2 & Ev & Eg). destruct (Rw w1 w2 Ev Eg) as [Sn2 Ot2]. exists w2.
    rewrite (bind_action_ok _ _ _ _ _ E2). split; [done|]. split; [done|]. rewrite Ot2, Ot. split; [|done]. unfold consistent. rewrite Sn2, Sn, E. cbn. intros [= ->]. by apply Hq. }
  assert (Sg : exists w' q, stage_projection mid t (run _ (stage s)) w1 = (Ok None, w') /\ stands v c mid w' d st (set_target t q vs gs).1 (set_target t q vs gs).2 F /\
    consistent q (seen w') /\ other w' = other w).
  { destruct (stage_live s w1 st vs gs F L S1) as (w2 & E2 & S2 & Na & Ot2). exists w2, P_STAGED. rewrite Ot2, Ot. split; [done|]. split; [done|]. split; [|done]. by intros A. }
  destruct state as [state|]; [|exact Sg].
  destruct (String.eqb_spec state "STAGED") as [->|N1]; [destruct (Up P_STAGED) as (w' & ?); [done|by exists w', P_STAGED]|].
  destruct (String.eqb_spec state "ACTIVE") as [->|N2]; [destruct (Up P_ACTIVE) as (w' & ?); [done|by exists w', P_ACTIVE]|].
  assert (Df : forall A (a b e : A), match Some state with Some "STAGED"%string => a | Some "ACTIVE"%string => b | _ => e end = e).
  { intros A a b e. clear -N1 N2. repeat (destruct state as [|[[] [] [] [] [] [] [] []] state]; try done). }
  rewrite Df. exact Sg.
Qed.
Definition status_of (vs gs : ProjectionStatus) : ProjectionStatus := match t with VECTOR => vs | GRAPH => gs end.

Lemma resume_activate_live s w st vs gs F : port_live s mid version -> stands v c mid w d st vs gs F -> consistent (status_of vs gs) (seen w) ->
  exists w', resume_activate (run _ (probe mid version)) (activate_projection mid t (run _ (activate s)) (run _ (retire_previous s))) w = (Ok None, w') /\
    stands v c mid w' d st (set_target t P_ACTIVE vs gs).1 (set_target t P_ACTIVE vs gs).2 F /\ other w' = other w.
Proof.
  intros L St Co. destruct Run as [Rn Rw]. destruct (pl_probe _ _ _ L (seen w)) as (state & E).
  destruct (Rn _ (probe mid version) w) as (w1 & E1 & Sn & Db & Ot). rewrite E in E1, Sn. cbn [fst snd] in *.
  pose proof (stands_db _ _ _ _ _ _ Db St) as S1. unfold resume_activate. rewrite (bind_action_ok _ _ _ _ _ E1).
  assert (Ac : state <> Some "ACTIVE"%string -> exists w', activate_projection mid t (run _ (activate s)) (run _ (retire_previous s)) w1 = (Ok None, w') /\
    stands v c mid w' d st (set_target t P_ACTIVE vs gs).1 (set_target t P_ACTIVE vs gs).2 F /\ other w' = other w).
  { intros _. destruct (pl_activate _ _ _ L (seen w1)) as (p2 & A2). destruct (Rn _ (activate s) w1) as (w2 & E2 & Sn2 & Db2 & Ot2). rewrite A2 in E2, Sn2. cbn [fst snd] in *.
    destruct (pl_retire _ _ _ L (seen w2)) as (p3 & A3). destruct (Rn _ (retire_previous s) w2) as (w3 & E3 & Sn3 & Db3 & Ot3). rewrite A3 in E3, Sn3. cbn [fst snd] in *.
    destruct (projection_live w3 st vs gs F t P_ACTIVE (stands_db _ _ _ _ _ _ Db3 (stands_db _ _ _ _ _ _ Db2 S1))) as (m & w4 & E4 & S4 & Ev & Eg).
    destruct (Rw w3 w4 Ev Eg) as [_ Ot4]. exists w4. unfold activate_projection.
    rewrite (bind_action_ok (catch_action _ projection_error) _ w1 None w3)
      by (unfold catch_action; rewrite (bind_action_ok _ _ _ _ _ E2); by rewrite (bind_action_ok _ _ _ _ _ E3)).
    rewrite (bind_action_ok _ _ _ _ _ E4). split; [done|]. split; [done|]. congruence. }
  destruct state as [state|]; [|by apply Ac]. destruct (String.eqb_spec state "ACTIVE") as [->|N]; [|].
  - exists w1. split; [done|]. split; [|done]. unfold consistent in Co. rewrite E in Co. specialize (Co eq_refl). unfold status_of in Co. by destruct t; subst.
  - replace (match Some state with Some "ACTIVE"%string => ret_action None | _ => activate_projection mid t (run _ (activate s)) (run _ (retire_previous s)) end)
      with (activate_projection mid t (run _ (activate s)) (run _ (retire_previous s))); [by apply Ac; intros [= ->]|].
    clear -N. repeat (destruct state as [|[[] [] [] [] [] [] [] []] state]; try done).
Qed.
End target.
Lemma runs_vectors : runs vectors (fun A => on_vectors) (fun w => inr (graphs w)).
Proof. split; [|by intros w w' -> ->]. intros A m w. unfold on_vectors. destruct (m (vectors w)) as [x p]. by eexists. Qed.
Lemma runs_graphs : runs graphs (fun A => on_graphs) (fun w => inl (vectors w)).
Proof. split; [|by intros w w' -> ->]. intros A m w. unfold on_graphs. destruct (m (graphs w)) as [x p]. by eexists. Qed.

(** The specification of a target, and its port. *)
Definition live_spec {P S} `{ProjectionPort P S} (b : bool) (r : result S) : Prop := b = true -> exists s, r = Ok s /\ port_live s mid version.
Definition spec_of {S} (b : bool) (r : result S) (spec : option S) : Prop := if b then exists s, r = Ok s /\ spec = Some s else spec = None.

Lemma built_live {S} b (r : result S) w : (b = true -> exists s, r = Ok s) -> exists spec, built b r w = (Ok spec, w) /\ spec_of b r spec.
Proof. intros Hr. destruct b; [destruct (Hr eq_refl) as [s ->]; exists (Some s); split; [done|by exists s]|by exists None]. Qed.

Lemma vector_staged b spec w st q gs F : live_spec b (build_vector v c mid (key_of v c) version) -> spec_of b (build_vector v c mid (key_of v c) version) spec ->
  stands v c mid w d st (wanted b q) gs F ->
  exists w' q', staged_unless spec (fun s => resume_stage mid VECTOR (on_vectors (probe mid version)) (stage_vector mid s)) w = (Ok None, w') /\
    stands v c mid w' d st (wanted b q') gs F /\ (b = true -> consistent q' (vectors w')) /\ graphs w' = graphs w.
Proof.
  intros L Sp S. destruct b; [|rewrite Sp; by exists w, q]. destruct Sp as (s & E & ->). destruct (L eq_refl) as (s' & E' & P1). rewrite E in E'. injection E' as <-.
  destruct (resume_stage_live VECTOR _ _ _ runs_vectors s w st q gs F P1 S) as (w' & q' & Es & S' & Co & [= O]). by exists w', q'.
Qed.

Lemma graph_staged b spec w st vs q F : live_spec b (build_graph v c mid (key_of v c) version) -> spec_of b (build_graph v c mid (key_of v c) version) spec ->
  stands v c mid w d st vs (wanted b q) F ->
  exists w' q', staged_unless spec (fun s => resume_stage mid GRAPH (on_graphs (probe mid version)) (stage_graph mid s)) w = (Ok None, w') /\
    stands v c mid w' d st vs (wanted b q') F /\ (b = true -> consistent q' (graphs w')) /\ vectors w' = vectors w.
Proof.
  intros L Sp S. destruct b; [|rewrite Sp; by exists w, q]. destruct Sp as (s & E & ->). destruct (L eq_refl) as (s' & E' & P1). rewrite E in E'. injection E' as <-.
  destruct (resume_stage_live GRAPH _ _ _ runs_graphs s w st vs q F P1 S) as (w' & q' & Es & S' & Co & [= O]). by exists w', q'.
Qed.

Lemma vector_activated b spec w st q gs F : live_spec b (build_vector v c mid (key_of v c) version) -> spec_of b (build_vector v c mid (key_of v c) version) spec ->
  stands v c mid w d st (wanted b q) gs F -> (b = true -> consistent q (vectors w)) ->
  exists w', staged_unless spec (fun s => resume_activate (on_vectors (probe mid version)) (activate_vector mid s)) w = (Ok None, w') /\
    stands v c mid w' d st (wanted b P_ACTIVE) gs F /\ graphs w' = graphs w.
Proof.
  intros L Sp S Co. destruct b; [|rewrite Sp; by exists w]. destruct Sp as (s & E & ->). destruct (L eq_refl) as (s' & E' & P1). rewrite E in E'. injection E' as <-.
  destruct (resume_activate_live VECTOR _ _ _ runs_vectors s w st q gs F P1 S (Co eq_refl)) as (w' & Es & S' & [= O]). by exists w'.
Qed.

Lemma graph_activated b spec w st vs q F : live_spec b (build_graph v c mid (key_of v c) version) -> spec_of b (build_graph v c mid (key_of v c) version) spec ->
  stands v c mid w d st vs (wanted b q) F -> (b = true -> consistent q (graphs w)) ->
  exists w', staged_unless spec (fun s => resume_activate (on_graphs (probe mid version)) (activate_graph mid s)) w = (Ok None, w') /\
    stands v c mid w' d st vs (wanted b P_ACTIVE) F.
Proof.
  intros L Sp S Co. destruct b; [|rewrite Sp; by exists w]. destruct Sp as (s & E & ->). destruct (L eq_refl) as (s' & E' & P1). rewrite E in E'. injection E' as <-.
  destruct (resume_activate_live GRAPH _ _ _ runs_graphs s w st vs q F P1 S (Co eq_refl)) as (w' & Es & S' & _). by exists w'.
Qed.

(** The fact a resumed mutation finds: still at the version it was decided on, or
    already finalized by the mutation. *)
Definition resumable F : Prop :=
  match F !! key_of v c with
  | Some f => if String.eqb (f_last_mutation_id (f_content f)) mid then f_version f = version else before_version d = Some (f_version f)
  | None => before_version d = None
  end.
Definition finalized_by F : Prop := exists f, F !! key_of v c = Some f /\ f_last_mutation_id (f_content f) = mid /\ f_version f = version.

Lemma finalize_succeeds fid w st vs gs F : stands v c mid w d st vs gs F -> (forall s, within_finalize o s = s) ->
  f_version <$> F !! key_of v c = before_version d -> (forall f, F !! key_of v c = Some f -> f_last_mutation_id (f_content f) <> mid) ->
  exists f w', on_db (finalize_canonical (column v) (within_finalize o) fid mid c (fingerprints v c) d now) w = (Ok f, w').
Proof.
  intros [(m & B & _) Fs] Env Vb Fr. unfold on_db, finalize_canonical. rewrite (proj2 (required_ok _ _ _) B).
  change (fact_key (fingerprints v c)) with (key_of v c). cbv zeta. rewrite Fs, Env. destruct (F !! key_of v c) as [f|] eqn:L.
  - destruct (String.eqb_spec (f_last_mutation_id (f_content f)) mid) as [Lm|Lm]; [by destruct (Fr f eq_refl)|]. cbn [andb].
    rewrite bool_decide_eq_true_2 by done. cbn [negb]. unfold flush_update. rewrite Fs, L.
    destruct (unchanged _ _) eqn:U; [by apply unchanged_last in U|]. rewrite String.eqb_refl, Z.eqb_refl. cbn [andb]. by eexists _, _.
  - rewrite bool_decide_eq_true_2 by done. cbn [negb]. unfold flush_insert. rewrite Fs, L. by eexists _, _.
Qed.

Lemma finalize_live fid w st vs gs F : stands v c mid w d st vs gs F -> (forall s, within_finalize o s = s) ->
  after_version d = Some version -> version = default 0 (before_version d) + 1 -> proposed_status d = ACTIVE -> resumable F ->
  exists f w' F', on_db (finalize_canonical (column v) (within_finalize o) fid mid c (fingerprints v c) d now) w = (Ok f, w') /\
    stands v c mid w' d M_FINALIZING vs gs F' /\ finalized_by F' /\ vectors w' = vectors w /\ graphs w' = graphs w.
Proof.
  intros S Env Af Ve Pr Rs.
  assert (Fin : f_version <$> F !! key_of v c = before_version d -> (forall f, F !! key_of v c = Some f -> f_last_mutation_id (f_content f) <> mid) ->
    exists f w' F', on_db (finalize_canonical (column v) (within_finalize o) fid mid c (fingerprints v c) d now) w = (Ok f, w') /\
      stands v c mid w' d M_FINALIZING vs gs F' /\ finalized_by F' /\ vectors w' = vectors w /\ graphs w' = graphs w).
  { intros Vb Fr. destruct (finalize_succeeds fid _ _ _ _ _ S Env Vb Fr) as (f & w' & E). pose proof (tables_inv _ _ _ _ E) as (_ & _ & Ev & Eg & _).
    pose proof (finalize_end v o now c mid fid _ _ _ _ _ _ _ _ S ltac:(by intros; rewrite Env) ltac:(by rewrite Af, Ve) Pr Fr E) as (base & _ & _ & (f2 & F2 & Fc & Fv) & S').
    exists f, w', (facts (db w')). split; [done|]. split; [done|]. split; [|done]. exists f2. rewrite F2. split; [by rewrite lookup_insert_eq|].
    rewrite Fc. split; [done|]. rewrite Af in Fv. by injection Fv. }
  unfold resumable in Rs. destruct (F !! key_of v c) as [f|] eqn:L; [|apply Fin; [by rewrite Rs|done]].
  destruct (String.eqb_spec (f_last_mutation_id (f_content f)) mid) as [Lm|Lm]; [|apply Fin; [by rewrite Rs|by intros ? [= <-]]]. clear Fin.
  destruct (on_db _ w) as [x w'] eqn:E. pose proof E as Ev. apply tables_inv in Ev as (E1 & _ & Ev & Eg & _).
  pose proof S as [(m & B & K & P1 & P2 & P3 & P4 & P5 & P6) Fs]. unfold finalize_canonical in E1. rewrite (proj2 (required_ok _ _ _) B) in E1.
  change (fact_key (fingerprints v c)) with (key_of v c) in E1. cbv zeta in E1. rewrite Fs, L, Lm, String.eqb_refl, Af, Rs, bool_decide_eq_true_2 in E1 by done.
  cbn [andb] in E1. injection E1 as <- Ed. exists f, w', F. split; [done|]. split; [|split; [by exists f|done]].
  split; [|by rewrite <- Ed]. exists (with_progress m (progress_status M_FINALIZING (progress m))). rewrite <- Ed, by_id_set_progress, B. by split_and!.
Qed.

Lemma finish_live w b1 b2 a1 a2 F : stands v c mid w d M_FINALIZING (wanted b1 P_ACTIVE) (wanted b2 P_ACTIVE) F -> finalized_by F ->
  after_version d = Some version -> (forall ty, broker v ty mid = Ok tt) ->
  exists r w', finish_applied v now mid a1 a2 w = (Ok r, w') /\ r_status r = M_APPLIED /\ facts (db w') = F.
Proof.
  intros S (f & L & _ & Fv) Af Br. pose proof S as [(m & B & K & P1 & P2 & P3 & P4 & P5 & P6) Fs].
  assert (Pj : forall b, projected (wanted b P_ACTIVE) = true) by by intros [].
  assert (E1 : on_db (mark_applied mid now) w = on_db (set_mutation_fields mid (progress_errors M_APPLIED None None (Some now))) w).
  { unfold on_db, mark_applied. rewrite (proj2 (required_ok _ _ _) B), P5, P6, !Pj. cbn [negb orb]. rewrite Fs, K, L.
    by rewrite P3, Af, Fv, bool_decide_eq_true_2. }
  destruct (set_live w _ _ _ _ (progress_errors M_APPLIED None None (Some now)) M_APPLIED (wanted b1 P_ACTIVE) (wanted b2 P_ACTIVE) S) as (m1 & w1 & E2 & S1 & B1 & _ & _);
    [intros p; by intros|].
  unfold finish_applied. rewrite (bind_action_ok _ _ _ _ _ (eq_trans E1 E2)).
  match goal with |- context [bind_action (on_db (append_attempt ?a1 ?a2 ?a3 ?a4 ?a5 ?a6 ?a7 ?a8 ?a9)) _ w1] => destruct (on_db (append_attempt a1 a2 a3 a4 a5 a6 a7 a8 a9) w1) as [x w2] eqn:E3 end. assert (Hx : exists n, x = Ok n) by (apply tables_inv in E3 as [[= <- _] _]; by eexists).
  destruct Hx as [n ->]. rewrite (bind_action_ok _ _ _ _ _ E3).
  destruct (append_attempt_stands v now c _ _ _ _ _ _ _ _ _ _ _ _ _ _ _ _ S1 E3) as [S2 B2]. rewrite B1 in B2.
  pose proof S2 as [(m2 & B2' & _ & Q1 & _ & _ & Q4 & _) Fs2]. rewrite B2 in B2'. injection B2' as <-.
  unfold result_of. cbv zeta. rewrite Q1. unfold bind_action at 1, lift at 1. unfold publish_terminal. cbn [r_status]. rewrite Q4. unfold bind_action, lift, publish. cbn [terminal_event].
  cbn [r_mutation_id]. apply find_some in B2 as [_ Bi]. apply String.eqb_eq in Bi. rewrite Bi, Br. by eexists _, _.
Qed.
(** Everything the resumption of this mutation depends on, answering. *)
Record ready (m : MemoryMutation) (s : store) : Prop := {
  rd_row : by_id s mid = Some m;
  rd_open : mu_status (progress m) ∈ [M_PENDING; M_APPLYING; M_FINALIZING; M_PARTIAL];
  rd_command : read_command v (proposed m) = Ok c;
  rd_key : mu_fact_key m = key_of v c;
  rd_decided : mu_decision (progress m) = Some (decision d) /\ mu_before (progress m) = before_version d /\ mu_after (progress m) = Some version;
  rd_version : version = default 0 (before_version d) + 1;
  rd_targets : (to_vector (targets c) = false -> vector_status (progress m) = P_NOT_REQUIRED) /\ (to_graph (targets c) = false -> graph_status (progress m) = P_NOT_REQUIRED);
  rd_fact : resumable (facts s);
  rd_alone : (forall s, within_finalize o s = s) /\ (forall s, while_waiting o s = s);
  rd_broker : forall ty, broker v ty mid = Ok tt;
  rd_ports : live_spec (to_vector (targets c)) (build_vector v c mid (key_of v c) version) /\ live_spec (to_graph (targets c)) (build_graph v c mid (key_of v c) version);
}.

Lemma resume_locked_live fid m w : ready m (db w) ->
  (* the decision the resumption rebuilds *)
  d = {| decision := decision d; reason_code := or_else (mu_reason_code (progress m)) "RESUME"; before_version := before_version d;
         after_version := Some version; proposed_status := ACTIVE; requires_projection := true |} ->
  exists r w', resume_locked v o now fid m w = (Ok r, w') /\ r_status r = M_APPLIED /\ finalized_by (facts (db w')).
Proof.
  intros Rd Ed. destruct Rd as [B Op Rc K (D1 & D2 & D3) Ve (T1 & T2) Rs (O1 & _) Br (Lv & Lg)].
  assert (Af : after_version d = Some version) by (by rewrite Ed). assert (Pr : proposed_status d = ACTIVE) by (by rewrite Ed).
  assert (Im : mutation_id m = mid) by (apply find_some in B as [_ Bi]; by apply String.eqb_eq).
  unfold resume_locked. rewrite (bind_action_ok (lift (read_command v (proposed m))) _ w c w) by (by unfold lift; rewrite Rc). cbv zeta.
  change (fact_key (fingerprints v c)) with (key_of v c). rewrite K, String.eqb_refl. cbn [negb]. rewrite D1, D2, D3, Im, <- Ed.
  assert (S : stands v c mid w d (mu_status (progress m)) (wanted (to_vector (targets c)) (vector_status (progress m))) (wanted (to_graph (targets c)) (graph_status (progress m))) (facts (db w))).
  { split; [|done]. exists m. rewrite Af. split_and!; try done; [destruct (to_vector _)|destruct (to_graph _)]; simpl; auto. }
  destruct (set_live w _ _ _ _ (progress_status M_APPLYING) M_APPLYING (wanted (to_vector (targets c)) (vector_status (progress m))) (wanted (to_graph (targets c)) (graph_status (progress m))) S)
    as (m1 & w1 & E1 & S1 & _ & _ & _); [intros p; by intros|]. rewrite (bind_action_ok _ _ _ _ _ E1).
  destruct (built_live (to_vector (targets c)) (build_vector v c mid (key_of v c) version) w1) as (vspec & E2 & Sv); [intros T; destruct (Lv T) as (s & -> & _); by exists s|].
  rewrite (bind_action_ok _ _ _ _ _ E2). destruct (vector_staged _ vspec w1 _ _ _ _ Lv Sv S1) as (w2 & q & E3 & S3 & Cv & _). rewrite (bind_action_ok _ _ _ _ _ E3).
  destruct (built_live (to_graph (targets c)) (build_graph v c mid (key_of v c) version) w2) as (gspec & E4 & Sg); [intros T; destruct (Lg T) as (s & -> & _); by exists s|].
  rewrite (bind_action_ok _ _ _ _ _ E4). destruct (graph_staged _ gspec w2 _ _ _ _ Lg Sg S3) as (w3 & q' & E5 & S5 & Cg & V5). rewrite (bind_action_ok _ _ _ _ _ E5). cbn [first_error].
  destruct (finalize_live fid _ _ _ _ _ S5 O1 Af Ve Pr Rs) as (f & w4 & F' & E6 & S6 & Fin & V6 & G6). rewrite (bind_action_ok _ _ _ _ _ E6).
  destruct (vector_activated _ vspec w4 _ _ _ _ Lv Sv S6) as (w5 & E7 & S7 & G7); [intros T; rewrite V6, V5; by apply Cv|]. rewrite (bind_action_ok _ _ _ _ _ E7).
  destruct (graph_activated _ gspec w5 _ _ _ _ Lg Sg S7) as (w6 & E8 & S8); [intros T; rewrite G7, G6; by apply Cg|]. rewrite (bind_action_ok _ _ _ _ _ E8). cbn [first_error].
  destruct (finish_live w6 _ _ (vector_status (progress m)) (graph_status (progress m)) F' S8 Fin Af Br) as (r & w7 & E9 & Rr & Fs). exists r, w7. by rewrite Fs.
Qed.

Lemma resume_live token fid m w : ready m (db w) -> grants v (key_of v c) token w ->
  d = {| decision := decision d; reason_code := or_else (mu_reason_code (progress m)) "RESUME"; before_version := before_version d;
         after_version := Some version; proposed_status := ACTIVE; requires_projection := true |} ->
  exists r w', resume_mutation v o now token fid mid w = (Ok r, w') /\ r_status r = M_APPLIED /\ finalized_by (facts (db w')).
Proof.
  intros Rd Gr Ed. destruct (granted v _ _ _ Gr) as (h & w1 & E1 & A1 & (D1 & D2 & D3 & _) & Rl).
  pose proof (rd_row _ _ Rd) as B. pose proof (rd_key _ _ Rd) as K.
  unfold resume_mutation. rewrite (bind_action_ok (on_db (get_mutation mid)) _ w m w) by (unfold on_db, get_mutation; rewrite (proj2 (required_ok _ _ _) B); by destruct w).
  assert (W1 : (do _ <- others_act (while_waiting o); if negb (acquired h) then raise_action (MutationBusy (mu_fact_key m)) else with_release h (timed (resume_locked v o now fid m)))%action w1 =
    with_release h (timed (resume_locked v o now fid m)) w1).
  { rewrite A1. unfold bind_action, others_act, on_db. rewrite (proj2 (rd_alone _ _ Rd)). by destruct w1. }
  assert (Go : (do h <- on_lock (memory_acquire (lock_ttl v) (mu_fact_key m) token); do _ <- others_act (while_waiting o);
    if negb (acquired h) then raise_action (MutationBusy (mu_fact_key m)) else with_release h (timed (resume_locked v o now fid m)))%action w =
    with_release h (timed (resume_locked v o now fid m)) w1).
  { rewrite K, (bind_action_ok _ _ _ _ _ E1), <- K. exact W1. }
  destruct (resume_locked_live fid m w1 ltac:(by rewrite D1) Ed) as (r & w2 & E2 & Rs & Fin).
  destruct (Rl _ (timed (resume_locked v o now fid m)) w1) as (w3 & E3 & (Q & _)). rewrite (timed_ok _ _ _ _ E2) in E3, Q by done. cbn [fst snd] in *.
  exists r, w3. rewrite Q. split; [|done]. pose proof (rd_open _ _ Rd) as Op.
  destruct (mu_status (progress m)); try (by rewrite Go); exfalso; set_solver.
Qed.
End live.

(** ** Properties *)
Section properties.
Context {R V G VS GS : Type} `{LockClient R, ProjectionPort V VS, ProjectionPort G GS}.
Context (v : service (VS := VS) (GS := GS)) (o : others) (now : Z) (token mid fid : string).
Implicit Types (w : world (R := R) (V := V) (G := G)) (c : SharedMemoryMutationCommand).

(** C18: A new mutation does to the facts exactly what its answer announces.
    Whatever other sessions do between a read and its write: either it fails
    with the facts as they were, or the policy took a decision on the fact as
    it was, and the facts are changed by nobody but other sessions, or the
    fact is filed for review, or it is replaced by the command one version
    further on; it is answered APPLIED only when every projection the command
    asks for is active and the fact is replaced (or nothing was to be done),
    and the answer is the one its row gives from then on. *)
Theorem mutate_outcomes c w x w' :
  fresh_mutation o c mid w -> (forall s, by_id (within_finalize o s) mid = by_id s mid) -> (forall s, by_id (within_review o s) mid = by_id s mid) ->
  mutate v o now token mid fid c w = (x, w') -> outcome v o now c mid fid w x w'.
Proof. intros Fr Ef Er E. by eapply mutate_end. Qed.

(** Asking again with a known idempotency key under the lock: the same
    command is answered with the recorded mutation, another one is refused,
    and neither changes the tables, the projections or the events. *)
Theorem known_key_replays_answer c w m :
  validate_command c = Ok tt -> grants v (key_of v c) token w ->
  by_key (db w) (idempotency_key c) = Some m -> by_id (db w) (mutation_id m) = Some m ->
  exists w', mutate v o now token mid fid c w =
    (if String.eqb (mu_payload m) (payload (fingerprints v c)) then result_of m else Err (IdempotencyConflict (idempotency_key (proposed m))), w') /\
    same_but_lock w w'.
Proof. intros Vd Gr K I. by apply mutate_known. Qed.

(** A command with an outdated version is refused only after its row is
    recorded, so its key is used up: asking again fails with an error of the
    conversion of the missing decision, not with the version conflict, and
    so does resuming it. *)
Theorem version_conflict_has_no_answer c w :
  validate_command c = Ok tt -> grants v (key_of v c) token w -> fresh_mutation o c mid w ->
  broker v "MEMORY_MUTATION_REQUESTED" mid = Ok tt -> read_command v c = Ok c ->
  expected_version c <> f_version <$> facts (db w) !! key_of v c ->
  exists k w1, mutate v o now token mid fid c w = (Err (MemoryVersionConflict k), w1) /\
    forall w2 token' mid' fid' o' now', db w2 = db w1 -> grants v (key_of v c) token' w2 ->
      (mutate v o' now' token' mid' fid' c w2).1 = Err (ValueError "None is not a valid MutationDecision") /\
      (resume_mutation v o' now' token' fid' mid w2).1 = Err (ValidationError "Stored memory mutation decision is incomplete").
Proof.
  intros Vd Gr Fr Br Rc N. destruct (mutate_conflict v o now c token mid fid w Vd Gr Fr Br N) as (k & w1 & E & D). exists k, w1. split; [done|].
  intros w2 token' mid' fid' o' now' D2 Gr2. set (m := new_mutation mid c (fingerprints v c) now) in *.
  destruct (begin_mutation_fresh v o now c mid w Fr) as [_ B]. fold m in B. rewrite <- D, <- D2 in B. split.
  - assert (K : by_key (db w2) (idempotency_key c) = Some m).
    { rewrite D2, D. unfold by_key. cbn [mutations with_mutations]. rewrite find_app. destruct Fr as (_ & K & _). unfold by_key in K. rewrite K. simpl. by rewrite String.eqb_refl. }
    destruct (mutate_known v o' now' token' mid' fid' c w2 m Vd Gr2 K B) as (w3 & E3 & _). rewrite E3. cbn [fst]. cbn. by rewrite String.eqb_refl.
  - by apply (resume_undecided v o' now' c token' fid' mid w2 m).
Qed.

(** C25: Resuming an unfinished mutation completes it.  When the lock is
    granted, nobody else is at work, the broker and the projections it asks
    for answer, and the fact is still at the version the mutation was decided
    on or was already finalized by it, then wherever the mutation was
    interrupted its resumption is answered APPLIED, and the fact is the one
    it writes, at its version. *)
Theorem resume_completes c w m k version :
  mu_decision (progress m) = Some k -> mu_after (progress m) = Some version ->
  let d := {| decision := k; reason_code := or_else (mu_reason_code (progress m)) "RESUME"; before_version := mu_before (progress m);
              after_version := Some version; proposed_status := ACTIVE; requires_projection := true |} in
  ready v o c mid d version m (db w) -> grants v (key_of v c) token w ->
  exists r w' f, resume_mutation v o now token fid mid w = (Ok r, w') /\ r_status r = M_APPLIED /\
    facts (db w') !! key_of v c = Some f /\ f_last_mutation_id (f_content f) = mid /\ f_version f = version.
Proof.
  intros Dk Da d Rd Gr. destruct (resume_live v o now c mid d version token fid m w Rd Gr eq_refl) as (r & w' & E & S & f & F1 & F2 & F3).
  by exists r, w', f.
Qed.
End properties.

(** *** Witnesses *)
#[local] Existing Instances RedisLock.redis_client.

(** A projection: the state of each mutation's facts, a specification being the mutation's. *)
#[local] Instance ex_port : ProjectionPort (gmap string string) string := {|
  stage s p := (Ok tt, <[s := "STAGED"%string]> p);
  probe mid _ p := (Ok (p !! mid), p);
  activate s p := (Ok tt, <[s := "ACTIVE"%string]> p);
  retire_previous s p := (Ok tt, p);
|}.
Definition ex_service : service := {| policy_settings := ex_settings; lock_ttl := 30000; build_vector c mid _ _ := Ok mid; build_graph c mid _ _ := Ok mid;
  broker _ _ := Ok tt; column q := q; digest := ex_digest; isoformat := ex_iso; read_command := from_dict ex_json ex_iso id (fun _ => Ok tt) |}.
Definition ex_others : others := {| within_begin s := s; while_waiting s := s; within_review s := s; within_finalize s := s |}.
Definition ex_world (ms : list MemoryMutation) : world (R := RedisLock.redis) (V := gmap string string) (G := gmap string string) :=
  {| db := {| mutations := ms; facts := ∅; evidences := []; attempts := [] |}; redis := RedisLock.ex_server; vectors := ∅; graphs := ∅; published := [] |}.

Lemma ex_grants key token (w : world (R := RedisLock.redis) (V := gmap string string) (G := gmap string string)) :
  redis w = RedisLock.ex_server -> grants ex_service key token w.
Proof.
  intros E. unfold grants. rewrite E. eexists _, _. split; [reflexivity|]. split; [reflexivity|]. intros r. unfold memory_release. cbn [acquired negb].
  change RedisLock.client_transaction with RedisLock.redis_transaction. unfold RedisLock.redis_transaction, RedisLock.compare_and.
  case_bool_decide; by eexists _, _.
Qed.

Lemma mutate_outcomes_witness : exists c r w', ex_command "late" 80 None = Ok c /\
  mutate ex_service ex_others 20 "t" "m1" "f1" c (ex_world []) = (Ok r, w') /\ r_status r = M_APPLIED /\
  outcome ex_service ex_others 20 c "m1" "f1" (ex_world []) (Ok r) w'.
Proof.
  destruct (ex_command "late" 80 None) as [c|e] eqn:E; [|vm_compute in E; discriminate E].
  destruct (mutate ex_service ex_others 20 "t" "m1" "f1" c (ex_world [])) as [x w'] eqn:F.
  assert (V : match x with Ok r => r_status r = M_APPLIED | Err _ => False end).
  { vm_compute in E. injection E as <-. vm_compute in F. injection F as <- _. reflexivity. }
  destruct x as [r|e]; [|destruct V]. exists c, r, w'. split; [reflexivity|]. split; [exact F|]. split; [exact V|].
  apply (mutate_outcomes ex_service ex_others 20 "t" "m1" "f1" c (ex_world []) (Ok r) w'); [|reflexivity|reflexivity|exact F].
  split; [reflexivity|]. split; [reflexivity|]. split; [reflexivity|]. intros k f L. discriminate L.
Defined.

Definition ex_after (w : world (R := RedisLock.redis) (V := gmap string string) (G := gmap string string)) : world :=
  {| db := db w; redis := RedisLock.ex_server; vectors := vectors w; graphs := graphs w; published := published w |}.

Lemma known_key_replays_answer_witness : exists c m w', ex_command "late" 80 None = Ok c /\
  by_id (db (mutate ex_service ex_others 20 "t" "m1" "f1" c (ex_world [])).2) "m1" = Some m /\ mu_status (progress m) = M_APPLIED /\
  mutate ex_service ex_others 30 "t" "m2" "f2" c (ex_after (mutate ex_service ex_others 20 "t" "m1" "f1" c (ex_world [])).2) = (result_of m, w').
Proof.
  destruct (ex_command "late" 80 None) as [c|e] eqn:E; [|vm_compute in E; discriminate E].
  destruct (by_id (db (mutate ex_service ex_others 20 "t" "m1" "f1" c (ex_world [])).2) "m1") as [m|] eqn:B;
    [|vm_compute in E; injection E as <-; vm_compute in B; discriminate B].
  assert (V : validate_command c = Ok tt /\ mu_status (progress m) = M_APPLIED /\ mutation_id m = "m1"%string /\
    String.eqb (mu_payload m) (payload (fingerprints ex_service c)) = true /\
    by_key (db (mutate ex_service ex_others 20 "t" "m1" "f1" c (ex_world [])).2) (idempotency_key c) =
      by_id (db (mutate ex_service ex_others 20 "t" "m1" "f1" c (ex_world [])).2) "m1").
  { vm_compute in E. injection E as <-. vm_compute in B. injection B as <-. repeat split. }
  destruct V as (V1 & V2 & V3 & V4 & V5). rewrite B in V5.
  destruct (known_key_replays_answer ex_service ex_others 30 "t" "m2" "f2" c
    (ex_after (mutate ex_service ex_others 20 "t" "m1" "f1" c (ex_world [])).2) m V1) as (w' & R & _).
  - by apply ex_grants.
  - exact V5.
  - rewrite V3. exact B.
  - rewrite V4 in R. exists c, m, w'. split; [reflexivity|]. split; [exact B|]. split; [exact V2|exact R].
Defined.

Lemma version_conflict_has_no_answer_witness : exists c w1, ex_command "late" 80 (Some 5) = Ok c /\
  (exists k, mutate ex_service ex_others 20 "t" "m1" "f1" c (ex_world []) = (Err (MemoryVersionConflict k), w1)) /\
  (mutate ex_service ex_others 30 "t" "m2" "f2" c (ex_after w1)).1 = Err (ValueError "None is not a valid MutationDecision").
Proof.
  destruct (ex_command "late" 80 (Some 5)) as [c|e] eqn:E; [|vm_compute in E; discriminate E].
  assert (V : validate_command c = Ok tt /\ expected_version c = Some 5 /\ read_command ex_service c = Ok c).
  { vm_compute in E. injection E as <-. split; [reflexivity|]. split; [reflexivity|]. vm_compute. reflexivity. }
  destruct V as (V1 & V2 & V3).
  destruct (version_conflict_has_no_answer ex_service ex_others 20 "t" "m1" "f1" c (ex_world []) V1) as (k & w1 & M & Rest).
  - by apply ex_grants.
  - split; [reflexivity|]. split; [reflexivity|]. split; [reflexivity|]. intros k f L. discriminate L.
  - reflexivity.
  - exact V3.
  - rewrite V2. discriminate.
  - exists c, w1. split; [reflexivity|]. split; [exists k; exact M|].
    exact (proj1 (Rest (ex_after w1) "t"%string "m2"%string "f2"%string ex_others 30 eq_refl (ex_grants _ _ (ex_after w1) eq_refl))).
Defined.

(** A mutation that was interrupted after its decision. *)
Definition ex_interrupted (c : SharedMemoryMutationCommand) : MemoryMutation :=
  let m := new_mutation "m1" c (fingerprints ex_service c) 20 in
  with_progress m (progress_status M_PARTIAL (progress_decided (decide_as CREATE "NEW" None ACTIVE true true) 20 (progress m))).

Lemma resume_completes_witness : exists c r w' f, ex_command "late" 80 None = Ok c /\
  resume_mutation ex_service ex_others 30 "t" "f1" "m1" (ex_world [ex_interrupted c]) = (Ok r, w') /\ r_status r = M_APPLIED /\
  facts (db w') !! key_of ex_service c = Some f /\ f_version f = 1.
Proof.
  destruct (ex_command "late" 80 None) as [c|e] eqn:E; [|vm_compute in E; discriminate E].
  assert (V : read_command ex_service c = Ok c /\ to_vector (targets c) = true /\ to_graph (targets c) = false).
  { vm_compute in E. injection E as <-. vm_compute. repeat split. }
  destruct V as (V1 & V2 & V3).
  destruct (resume_completes ex_service ex_others 30 "t" "m1" "f1" c (ex_world [ex_interrupted c]) (ex_interrupted c) CREATE 1 eq_refl eq_refl)
    as (r & w' & f & M & S & F1 & _ & F2).
  - split; try reflexivity.
    + change (mu_status (progress (ex_interrupted c))) with M_PARTIAL. set_solver+.
    + exact V1.
    + repeat split.
    + split; [by rewrite V2|intros _]. cbn. by rewrite V3.
    + repeat split.
    + split; [|by rewrite V3]. intros _. exists "m1"%string. split; [reflexivity|]. split.
      * intros p. eexists. split; [reflexivity|]. cbn. by rewrite lookup_insert_eq.
      * intros p. by eexists.
      * intros p. by eexists.
      * intros p. by eexists.
  - by apply ex_grants.
  - exists c, r, w', f. split; [reflexivity|]. split; [exact M|]. split; [exact S|]. split; [exact F1|exact F2].
Defined.
