(* ===== verification/VehicleOperations.v ===== *)
(** * VehicleOperations: rescuing, repairing and releasing a broken vehicle

    Models [app/vehicle_operations]: the state machines of [models.py], the
    transactions of [sqlalchemy_repository.py] and the progressor.  What opens a
    breakdown case, and what is shown of it, are in Breakdown and VehicleViews.

    A transaction locks each row before it changes it, so it is one step on
    the tables; only between the first query of [create_breakdown_case] and
    its locks can another session come in, which is its argument [env].  A
    raised exception rolls the tables back.  Tables with a unique text key are
    maps by that key, missions and orders by their unique task.  Times are
    microseconds since 1970 in UTC; the columns of the rows are [DATETIME]s of
    MySQL, which hold the nearest second.  Event ids and the versions of the rows are
    left out: no other session changes a row that is locked, so the version
    check of an update never fails.  Foreign keys to road nodes and tasks are
    taken to hold. *)

From stdpp Require Import sorting.
From S2P Require Import Prelude.

Local Open Scope Z_scope.
Local Open Scope list_scope.

(** ** State machines *)
Inductive VehicleOperationalStatus :=
  AVAILABLE | RESERVED | IN_TRANSIT | DISPATCHING | BROKEN | WAITING_RESCUE | IN_RESCUE | MAINTENANCE | V_QA_PENDING | OUT_OF_SERVICE.
Inductive RescueStatus := R_CREATED | DISPATCHED | ARRIVED | LOADED | DELIVERED | R_FAILED | R_CANCELLED.
Inductive MaintenanceStatus := SCHEDULED | WAITING_BAY | DIAGNOSING | REPAIRING | QA_PENDING | COMPLETED | FAILED | CANCELLED.

#[export] Instance VehicleOperationalStatus_eq_dec : EqDecision VehicleOperationalStatus.
Proof. solve_decision. Defined.
#[export] Instance RescueStatus_eq_dec : EqDecision RescueStatus.
Proof. solve_decision. Defined.
#[export] Instance MaintenanceStatus_eq_dec : EqDecision MaintenanceStatus.
Proof. solve_decision. Defined.

#[export] Instance VehicleOperationalStatus_enum : PyEnum VehicleOperationalStatus :=
  {| members := [AVAILABLE; RESERVED; IN_TRANSIT; DISPATCHING; BROKEN; WAITING_RESCUE; IN_RESCUE; MAINTENANCE; V_QA_PENDING; OUT_OF_SERVICE];
     value s := match s with AVAILABLE => "AVAILABLE" | RESERVED => "RESERVED" | IN_TRANSIT => "IN_TRANSIT" | DISPATCHING => "DISPATCHING"
       | BROKEN => "BROKEN" | WAITING_RESCUE => "WAITING_RESCUE" | IN_RESCUE => "IN_RESCUE" | MAINTENANCE => "MAINTENANCE"
       | V_QA_PENDING => "QA_PENDING" | OUT_OF_SERVICE => "OUT_OF_SERVICE" end%string |}.
#[export] Instance RescueStatus_enum : PyEnum RescueStatus :=
  {| members := [R_CREATED; DISPATCHED; ARRIVED; LOADED; DELIVERED; R_FAILED; R_CANCELLED];
     value s := match s with R_CREATED => "CREATED" | DISPATCHED => "DISPATCHED" | ARRIVED => "ARRIVED" | LOADED => "LOADED"
       | DELIVERED => "DELIVERED" | R_FAILED => "FAILED" | R_CANCELLED => "CANCELLED" end%string |}.
#[export] Instance MaintenanceStatus_enum : PyEnum MaintenanceStatus :=
  {| members := [SCHEDULED; WAITING_BAY; DIAGNOSING; REPAIRING; QA_PENDING; COMPLETED; FAILED; CANCELLED];
     value s := match s with SCHEDULED => "SCHEDULED" | WAITING_BAY => "WAITING_BAY" | DIAGNOSING => "DIAGNOSING" | REPAIRING => "REPAIRING"
       | QA_PENDING => "QA_PENDING" | COMPLETED => "COMPLETED" | FAILED => "FAILED" | CANCELLED => "CANCELLED" end%string |}.
#[export] Instance VehicleOperationalStatus_laws : PyEnumLaws VehicleOperationalStatus.
Proof. by intros []. Qed.

Definition VEHICLE_TRANSITIONS (s : VehicleOperationalStatus) : list VehicleOperationalStatus :=
  match s with
  | AVAILABLE => [RESERVED; DISPATCHING; BROKEN]
  | RESERVED => [DISPATCHING]
  | DISPATCHING => [IN_TRANSIT]
  | IN_TRANSIT => [BROKEN]
  | BROKEN => [WAITING_RESCUE]
  | WAITING_RESCUE => [IN_RESCUE]
  | IN_RESCUE => [MAINTENANCE]
  | MAINTENANCE => [V_QA_PENDING]
  | V_QA_PENDING => [AVAILABLE; OUT_OF_SERVICE]
  | OUT_OF_SERVICE => []
  end.
Definition RESCUE_TRANSITIONS (s : RescueStatus) : list RescueStatus :=
  match s with
  | R_CREATED => [DISPATCHED; R_CANCELLED]
  | DISPATCHED => [ARRIVED; R_FAILED; R_CANCELLED]
  | ARRIVED => [LOADED; R_FAILED; R_CANCELLED]
  | LOADED => [DELIVERED; R_FAILED; R_CANCELLED]
  | _ => []
  end.
Definition MAINTENANCE_TRANSITIONS (s : MaintenanceStatus) : list MaintenanceStatus :=
  match s with
  | SCHEDULED => [WAITING_BAY; CANCELLED]
  | WAITING_BAY => [DIAGNOSING; CANCELLED]
  | DIAGNOSING => [REPAIRING; FAILED]
  | REPAIRING => [QA_PENDING; FAILED]
  | QA_PENDING => [COMPLETED; FAILED]
  | _ => []
  end.

Definition InvalidStateTransition (m : string) : exn := Exn "InvalidStateTransition" m.
Definition require_transition {A} `{EqDecision A, PyEnum A} (transitions : A -> list A) (current target : A) : result unit :=
  if bool_decide (target ∈ transitions current) then Ok tt
  else Err (InvalidStateTransition ("Invalid transition: " +:+ value current +:+ " -> " +:+ value target)).
Definition require_vehicle_transition := require_transition VEHICLE_TRANSITIONS.
Definition require_rescue_transition := require_transition RESCUE_TRANSITIONS.
Definition require_maintenance_transition := require_transition MAINTENANCE_TRANSITIONS.

(** ** Rows *)
Record FleetVehicle := {
  v_status : string;
  status_reason : option string;
  status_changed_at : option Z;
  fault_code : option string;
  available_after : option Z;
  maintenance_order_no : option string;
  current_node_id : string;
}.
Record RescueUnit := { unit_status : string; unit_node_id : string }.
Record MaintenanceBay := { bay_status : string; current_order_no : option string }.
Record RescueMission := {
  m_id : Z;
  mission_no : string;
  m_vehicle_id : string;
  rescue_unit_id : string;
  m_status : RescueStatus;
  incident_node_id : string;
  station_node_id : string;
  outbound_edge_ids : list string;
  tow_edge_ids : list string;
  m_next_transition_at : option Z;
  attempt_count : Z;
  failure_reason : option string;
}.
Record MaintenanceOrder := {
  o_id : Z;
  order_no : string;
  o_vehicle_id : string;
  bay_code : option string;
  o_status : MaintenanceStatus;
  o_fault_code : string;
  diagnosis : option string;
  repair_minutes : Z;
  manual_inspection_required : bool;
  inspection_result : option string;
  o_next_transition_at : option Z;
  o_available_after : option Z;
}.
Record VehicleStatusHistory := { h_vehicle_id : string; h_task_id : string; from_status : string; to_status : string; h_reason : string; changed_at : Z }.

(** The events of the outbox, with what their payloads hold. *)
Inductive Event :=
| VEHICLE_STOPPED (vehicle_id : string)
| REPLACEMENT_DISPATCHED (vehicle_id : string) (edge_ids : list string)
| RESCUE_DISPATCHED (mission_no : string)
| MAINTENANCE_SCHEDULED (order_no : string)
| RESCUE_MOVED (status : RescueStatus)
| MAINTENANCE_MOVED (status : MaintenanceStatus)
| RESCUE_RETRIED (attempts : Z)
| INSPECTION_DECIDED (passed : bool) (decided_by : string)
| VEHICLE_RELEASED (passed : bool).
Record DomainOutbox := { e_task_id : string; aggregate_type : string; aggregate_id : string; event : Event }.

(** [event_type]. *)
Definition event_type (e : Event) : string :=
  match e with
  | VEHICLE_STOPPED _ => "VEHICLE_STOPPED" | REPLACEMENT_DISPATCHED _ _ => "REPLACEMENT_DISPATCHED" | RESCUE_DISPATCHED _ => "RESCUE_DISPATCHED"
  | MAINTENANCE_SCHEDULED _ => "MAINTENANCE_SCHEDULED"
  | RESCUE_MOVED ARRIVED => "RESCUE_ARRIVED" | RESCUE_MOVED LOADED => "VEHICLE_LOADED" | RESCUE_MOVED _ => "TOW_DELIVERED"
  | MAINTENANCE_MOVED s => "MAINTENANCE_" +:+ value s
  | RESCUE_RETRIED _ => "RESCUE_RETRIED" | INSPECTION_DECIDED _ _ => "INSPECTION_DECIDED"
  | VEHICLE_RELEASED p => if p then "VEHICLE_AVAILABLE" else "VEHICLE_OUT_OF_SERVICE"
  end%string.

(** What a [DATETIME] column holds of a time. *)
Definition column_time (t : Z) : Z := (t + 500000) / 1000000 * 1000000.

Record store := {
  vehicles : gmap string FleetVehicle;
  units : gmap string RescueUnit;
  bays : gmap string MaintenanceBay;
  missions : gmap string RescueMission;      (* by task *)
  orders : gmap string MaintenanceOrder;     (* by task *)
  history : list VehicleStatusHistory;
  outbox : list DomainOutbox;
}.
Definition with_vehicles (s : store) x := {| vehicles := x; units := units s; bays := bays s; missions := missions s; orders := orders s; history := history s; outbox := outbox s |}.
Definition with_units (s : store) x := {| vehicles := vehicles s; units := x; bays := bays s; missions := missions s; orders := orders s; history := history s; outbox := outbox s |}.
Definition with_bays (s : store) x := {| vehicles := vehicles s; units := units s; bays := x; missions := missions s; orders := orders s; history := history s; outbox := outbox s |}.
Definition with_missions (s : store) x := {| vehicles := vehicles s; units := units s; bays := bays s; missions := x; orders := orders s; history := history s; outbox := outbox s |}.
Definition with_orders (s : store) x := {| vehicles := vehicles s; units := units s; bays := bays s; missions := missions s; orders := x; history := history s; outbox := outbox s |}.
Definition with_history (s : store) x := {| vehicles := vehicles s; units := units s; bays := bays s; missions := missions s; orders := orders s; history := x; outbox := outbox s |}.
Definition with_outbox (s : store) x := {| vehicles := vehicles s; units := units s; bays := bays s; missions := missions s; orders := orders s; history := history s; outbox := x |}.

Definition set_vehicle (id : string) (v : FleetVehicle) (s : store) : store := with_vehicles s (<[id := v]> (vehicles s)).
Definition set_unit (id : string) (u : RescueUnit) (s : store) : store := with_units s (<[id := u]> (units s)).
Definition set_bay (code : string) (b : MaintenanceBay) (s : store) : store := with_bays s (<[code := b]> (bays s)).
Definition set_mission (t : string) (m : RescueMission) (s : store) : store := with_missions s (<[t := m]> (missions s)).
Definition set_order (t : string) (r : MaintenanceOrder) (s : store) : store := with_orders s (<[t := r]> (orders s)).
(** [_event]. *)
Definition add_event (t ty id : string) (e : Event) (s : store) : store :=
  with_outbox s (outbox s ++ [{| e_task_id := t; aggregate_type := ty; aggregate_id := id; event := e |}]).

(** *** Updates of a row *)
Definition vehicle_moved (st reason : string) (now : Z) (v : FleetVehicle) : FleetVehicle :=
  {| v_status := st; status_reason := Some reason; status_changed_at := Some (column_time now); fault_code := fault_code v; available_after := available_after v;
     maintenance_order_no := maintenance_order_no v; current_node_id := current_node_id v |}.
Definition vehicle_fault (f : option string) (v : FleetVehicle) : FleetVehicle :=
  {| v_status := v_status v; status_reason := status_reason v; status_changed_at := status_changed_at v; fault_code := f; available_after := available_after v;
     maintenance_order_no := maintenance_order_no v; current_node_id := current_node_id v |}.
Definition vehicle_order (no : option string) (after : option Z) (v : FleetVehicle) : FleetVehicle :=
  {| v_status := v_status v; status_reason := status_reason v; status_changed_at := status_changed_at v; fault_code := fault_code v; available_after := after;
     maintenance_order_no := no; current_node_id := current_node_id v |}.
Definition vehicle_at (node : string) (v : FleetVehicle) : FleetVehicle :=
  {| v_status := v_status v; status_reason := status_reason v; status_changed_at := status_changed_at v; fault_code := fault_code v;
     available_after := available_after v; maintenance_order_no := maintenance_order_no v; current_node_id := node |}.
Definition vehicle_released (v : FleetVehicle) : FleetVehicle :=
  {| v_status := v_status v; status_reason := Some "安全质检通过，车辆已恢复可调度"%string; status_changed_at := status_changed_at v; fault_code := None;
     available_after := None; maintenance_order_no := None; current_node_id := current_node_id v |}.

Definition mission_moved (st : RescueStatus) (next : option Z) (reason : option string) (m : RescueMission) : RescueMission :=
  {| m_id := m_id m; mission_no := mission_no m; m_vehicle_id := m_vehicle_id m; rescue_unit_id := rescue_unit_id m; m_status := st;
     incident_node_id := incident_node_id m; station_node_id := station_node_id m; outbound_edge_ids := outbound_edge_ids m; tow_edge_ids := tow_edge_ids m;
     m_next_transition_at := next; attempt_count := attempt_count m + 1; failure_reason := reason |}.
Definition order_moved (st : MaintenanceStatus) (next after : option Z) (inspection : option string) (r : MaintenanceOrder) : MaintenanceOrder :=
  {| o_id := o_id r; order_no := order_no r; o_vehicle_id := o_vehicle_id r; bay_code := bay_code r; o_status := st; o_fault_code := o_fault_code r;
     diagnosis := diagnosis r; repair_minutes := repair_minutes r; manual_inspection_required := manual_inspection_required r;
     inspection_result := inspection; o_next_transition_at := next; o_available_after := after |}.

(** ** Snapshots *)
Record RescueMissionSnapshot := { ms_row : RescueMission; ms_task_id : string }.
Record MaintenanceOrderSnapshot := { os_row : MaintenanceOrder; os_task_id : string }.
Record OperationCaseSnapshot := {
  c_task_id : string;
  c_vehicle_id : string;
  c_vehicle_status : string;
  replacement_vehicle_id : option string;
  replacement_vehicle_status : option string;
  mission : RescueMissionSnapshot;
  maintenance : MaintenanceOrderSnapshot;
  replacement_edge_ids : list string;
}.
Definition rescue_progress_percent (st : RescueStatus) : Z :=
  match st with R_CREATED => 0 | DISPATCHED => 25 | ARRIVED => 50 | LOADED => 75 | DELIVERED | R_FAILED | R_CANCELLED => 100 end.
Definition maintenance_progress_percent (st : MaintenanceStatus) : Z :=
  match st with
  | SCHEDULED => 0 | WAITING_BAY => 15 | DIAGNOSING => 35 | REPAIRING => 68 | QA_PENDING => 90 | COMPLETED | FAILED | CANCELLED => 100
  end.
Definition seconds (n : Z) : Z := n * 1000000.
Definition minutes (n : Z) : Z := seconds (n * 60).
(** [int] of the seconds rounds towards zero. *)
Definition seconds_remaining (r : MaintenanceOrder) (now : Z) : option Z :=
  match o_available_after r with None => None | Some t => Some (Z.max 0 (Z.quot (t - now) (seconds 1))) end.

(** ** The repository *)
Definition NotFound (what : string) : exn := Exn "VehicleOperationNotFound" what.
Definition OperationsConflict (m : string) : exn := Exn "VehicleOperationsConflict" m.
Definition IntegrityError : exn := Exn "IntegrityError" "".
(** [VehicleOperationalStatus(status)]. *)
Definition operational_status (s : string) : result VehicleOperationalStatus :=
  of_option (Exn "ValueError" (s +:+ " is not a valid VehicleOperationalStatus")) (enum_of s).

(** [with session.begin()]: an exception undoes the changes. *)
Definition transaction {A} (f : store -> result (A * store)) : action store A := fun s =>
  match f s with Ok (a, s') => (Ok a, s') | Err e => (Err e, s) end.

Definition vehicle_for_update (id : string) (s : store) : result FleetVehicle := of_option (NotFound id) (vehicles s !! id).

(** [_transition_vehicle], and another update of a vehicle that was loaded. *)
Definition transition_vehicle (id : string) (target : VehicleOperationalStatus) (reason task : string) (now : Z) (s : store) : result store :=
  v ← vehicle_for_update id s;
  current ← operational_status (v_status v);
  _ ← require_vehicle_transition current target;
  Ok (with_history (set_vehicle id (vehicle_moved (value target) reason now v) s)
        (history s ++ [{| h_vehicle_id := id; h_task_id := task; from_status := value current; to_status := value target; h_reason := reason; changed_at := column_time now |}])).
Definition update_vehicle (id : string) (f : FleetVehicle -> FleetVehicle) (s : store) : result store :=
  v ← vehicle_for_update id s; Ok (set_vehicle id (f v) s).

(** The first REPLACEMENT_DISPATCHED event of a task. *)
Fixpoint replacement_event (t : string) (es : list DomainOutbox) : option (string * list string) :=
  match es with
  | [] => None
  | e :: es' => match event e with
                | REPLACEMENT_DISPATCHED v l => if String.eqb (e_task_id e) t then Some (v, l) else replacement_event t es'
                | _ => replacement_event t es'
                end
  end.

(** [_case]; without a mission it is given [None]. *)
Definition case_of (s : store) (t : string) : result OperationCaseSnapshot :=
  m ← of_option (Exn "AttributeError" "task_id") (missions s !! t);
  r ← of_option (NotFound t) (orders s !! t);
  v ← of_option (NotFound (m_vehicle_id m)) (vehicles s !! m_vehicle_id m);
  let replacement := replacement_event t (outbox s) in
  let id := fst <$> replacement in
  Ok {| c_task_id := t; c_vehicle_id := m_vehicle_id m; c_vehicle_status := v_status v; replacement_vehicle_id := id;
        replacement_vehicle_status := match id with Some i => if String.eqb i "" then None else v_status <$> vehicles s !! i | None => None end;
        mission := {| ms_row := m; ms_task_id := t |}; maintenance := {| os_row := r; os_task_id := t |};
        replacement_edge_ids := match replacement with Some (_, l) => l | None => [] end |}.
Definition with_case (t : string) (s : store) : result (OperationCaseSnapshot * store) := c ← case_of s t; Ok (c, s).

Definition vehicle_node (id : string) (s : store) : result string := v ← vehicle_for_update id s; Ok (current_node_id v).
Definition get_case (t : string) (s : store) : result (option OperationCaseSnapshot) :=
  match missions s !! t with None => Ok None | Some _ => c ← case_of s t; Ok (Some c) end.

Fixpoint set_replacement_edges (t : string) (l : list string) (es : list DomainOutbox) : list DomainOutbox :=
  match es with
  | [] => []
  | e :: es' => match event e with
                | REPLACEMENT_DISPATCHED v _ =>
                    if String.eqb (e_task_id e) t
                    then {| e_task_id := e_task_id e; aggregate_type := aggregate_type e; aggregate_id := aggregate_id e; event := REPLACEMENT_DISPATCHED v l |} :: es'
                    else e :: set_replacement_edges t l es'
                | _ => e :: set_replacement_edges t l es'
                end
  end.
Definition update_replacement_route (t : string) (edge_ids : list string) : action store OperationCaseSnapshot := transaction (fun s =>
  match replacement_event t (outbox s), missions s !! t with
  | Some _, Some _ => with_case t (with_outbox s (set_replacement_edges t edge_ids (outbox s)))
  | _, _ => Err (NotFound t)
  end).

(** *** Numbers of missions and orders *)

(** [%Y%m%d] of a date: days since 1970 to the proleptic Gregorian calendar. *)
Definition civil (day : Z) : Z * Z * Z :=
  let z := day + 719468 in
  let era := z / 146097 in
  let doe := z - era * 146097 in
  let yoe := (doe - doe / 1460 + doe / 36524 - doe / 146096) / 365 in
  let doy := doe - (365 * yoe + yoe / 4 - yoe / 100) in
  let mp := (5 * doy + 2) / 153 in
  let d := doy - (153 * mp + 2) / 5 + 1 in
  let m := if mp <? 10 then mp + 3 else mp - 9 in
  (yoe + era * 400 + (if m <=? 2 then 1 else 0), m, d).
Definition zero_padded (width : nat) (n : Z) : string :=
  let s := z_str n in String.string_of_list_ascii (repeat (Ascii.ascii_of_nat 48) (width - String.length s)) +:+ s.
Definition yyyymmdd (t : Z) : string :=
  match civil (t / seconds 86400) with (y, m, d) => z_str y +:+ zero_padded 2 m +:+ zero_padded 2 d end.

(** [_suffix]: the decimal digits a task id ends in (ASCII, before one final
    line break), as a number of at least three digits. *)
Definition is_digit (c : Ascii.ascii) : bool := let n := Ascii.nat_of_ascii c in Nat.leb 48 n && Nat.leb n 57.
Fixpoint take_digits (l : list Ascii.ascii) : list Ascii.ascii :=
  match l with c :: l' => if is_digit c then c :: take_digits l' else [] | [] => [] end.
Definition final_digits (s : string) : list Ascii.ascii :=
  let l := rev (String.list_ascii_of_string s) in
  rev (take_digits (match l with c :: l' => if Nat.eqb (Ascii.nat_of_ascii c) 10 then l' else l | [] => [] end)).
Definition digits_value (l : list Ascii.ascii) : Z := fold_left (fun n c => n * 10 + (Z.of_nat (Ascii.nat_of_ascii c) - 48)) l 0.
Definition suffix (t : string) : string := match final_digits t with [] => "001" | l => zero_padded 3 (digits_value l) end.

(** *** Opening a case *)
Record BreakdownCaseRequest := {
  q_task_id : string;
  q_vehicle_id : string;
  q_replacement_vehicle_id : option string;
  q_rescue_unit_id : string;
  q_incident_node_id : string;
  q_station_node_id : string;
  q_outbound_edge_ids : list string;
  q_tow_edge_ids : list string;
  q_fault_code : string;
  q_diagnosis : string;
  q_repair_minutes : Z;
  q_manual_inspection_required : bool;
  occurred_at : Z;
  q_replacement_edge_ids : list string;
}.

(** The first free bay by its code. *)
Definition free_bay (s : store) : option (string * MaintenanceBay) :=
  head (sorted_key fst (List.filter (fun kb => String.eqb (bay_status kb.2) "AVAILABLE") (map_to_list (bays s)))).

Definition next_id (ids : list Z) : Z := foldr Z.max 0 ids + 1.
(** Unique numbers; the task is unique too. *)
Definition insert_mission (t : string) (m : RescueMission) (s : store) : result store :=
  if existsb (fun x => String.eqb (mission_no x.2) (mission_no m)) (map_to_list (missions s)) || bool_decide (is_Some (missions s !! t)) then Err IntegrityError
  else Ok (set_mission t m s).
Definition insert_order (t : string) (r : MaintenanceOrder) (s : store) : result store :=
  if existsb (fun x => String.eqb (order_no x.2) (order_no r)) (map_to_list (orders s)) || bool_decide (is_Some (orders s !! t)) then Err IntegrityError
  else Ok (set_order t r s).

Definition new_mission (rq : BreakdownCaseRequest) (id : Z) : RescueMission :=
  {| m_id := id; mission_no := "JY-" +:+ yyyymmdd (occurred_at rq) +:+ "-" +:+ suffix (q_task_id rq); m_vehicle_id := q_vehicle_id rq;
     rescue_unit_id := q_rescue_unit_id rq; m_status := DISPATCHED; incident_node_id := q_incident_node_id rq; station_node_id := q_station_node_id rq;
     outbound_edge_ids := q_outbound_edge_ids rq; tow_edge_ids := q_tow_edge_ids rq; m_next_transition_at := Some (column_time (occurred_at rq + seconds 8));
     attempt_count := 0; failure_reason := None |}.
Definition new_order (rq : BreakdownCaseRequest) (bay : string) (id : Z) : MaintenanceOrder :=
  {| o_id := id; order_no := "WX-" +:+ yyyymmdd (occurred_at rq) +:+ "-" +:+ suffix (q_task_id rq); o_vehicle_id := q_vehicle_id rq; bay_code := Some bay;
     o_status := SCHEDULED; o_fault_code := q_fault_code rq; diagnosis := Some (q_diagnosis rq); repair_minutes := q_repair_minutes rq;
     manual_inspection_required := q_manual_inspection_required rq; inspection_result := None; o_next_transition_at := None; o_available_after := None |}.

(** The replacement takes the cargo over. *)
Definition dispatch_replacement (rq : BreakdownCaseRequest) (s : store) : result store :=
  match q_replacement_vehicle_id rq with
  | None => Ok s
  | Some id =>
      s ← transition_vehicle id DISPATCHING "接替故障车辆配送任务" (q_task_id rq) (occurred_at rq) s;
      transition_vehicle id IN_TRANSIT "货物责任已转移并继续配送" (q_task_id rq) (occurred_at rq) s
  end.

Definition open_case (rq : BreakdownCaseRequest) (s : store) : result (OperationCaseSnapshot * store) :=
  let t := q_task_id rq in
  _ ← vehicle_for_update (q_vehicle_id rq) s;
  unit ← of_option (OperationsConflict "No available rescue unit for this breakdown.")
           (match units s !! q_rescue_unit_id rq with Some u => if String.eqb (unit_status u) "AVAILABLE" then Some u else None | None => None end);
  bay ← of_option (OperationsConflict "No maintenance bay is available.") (free_bay s);
  s ← transition_vehicle (q_vehicle_id rq) BROKEN "员工上报车辆故障并安全停车" t (occurred_at rq) s;
  s ← transition_vehicle (q_vehicle_id rq) WAITING_RESCUE "救援与拖车任务已创建" t (occurred_at rq) s;
  s ← update_vehicle (q_vehicle_id rq) (vehicle_fault (Some (q_fault_code rq))) s;
  s ← dispatch_replacement rq s;
  let m := new_mission rq (next_id (map (fun x => m_id x.2) (map_to_list (missions s)))) in
  let r := new_order rq bay.1 (next_id (map (fun x => o_id x.2) (map_to_list (orders s)))) in
  s ← insert_mission t m s;
  s ← insert_order t r s;
  let s := set_unit (q_rescue_unit_id rq) {| unit_status := "DISPATCHED"; unit_node_id := unit_node_id unit |} s in
  let s := set_bay bay.1 {| bay_status := "RESERVED"; current_order_no := Some (order_no r) |} s in
  s ← update_vehicle (q_vehicle_id rq) (vehicle_order (Some (order_no r)) (o_available_after r)) s;
  let s := add_event t "vehicle" (q_vehicle_id rq) (VEHICLE_STOPPED (q_vehicle_id rq)) s in
  let s := match q_replacement_vehicle_id rq with
           | Some id => if String.eqb id "" then s else add_event t "vehicle" id (REPLACEMENT_DISPATCHED id (q_replacement_edge_ids rq)) s
           | None => s
           end in
  let s := add_event t "rescue" (mission_no m) (RESCUE_DISPATCHED (mission_no m)) s in
  with_case t (add_event t "maintenance" (order_no r) (MAINTENANCE_SCHEDULED (order_no r)) s).

Definition create_breakdown_case (env : store -> store) (rq : BreakdownCaseRequest) : action store OperationCaseSnapshot := fun s =>
  match missions s !! q_task_id rq with
  | Some _ => (case_of s (q_task_id rq), s)
  | None => transaction (open_case rq) (env s)
  end.

(** *** Advancing what is due *)

(** The due row that is due first, by its identifier among equals. *)
Definition first_due {A} (next : A -> option Z) (id : A -> Z) (active : A -> bool) (now : Z) (rows : gmap string A) : option (string * A) :=
  head (sorted_key (fun x => (default 0 (next x.2), id x.2))
    (List.filter (fun x => active x.2 && match next x.2 with Some t => t <=? now | None => false end) (map_to_list rows))).

Definition rescue_active (m : RescueMission) : bool := match m_status m with DISPATCHED | ARRIVED | LOADED => true | _ => false end.
Definition rescue_target (st : RescueStatus) : RescueStatus := match st with DISPATCHED => ARRIVED | ARRIVED => LOADED | _ => DELIVERED end.
Definition rescue_delay (st : RescueStatus) : option Z := match st with ARRIVED => Some 6 | LOADED => Some 4 | _ => None end.

Definition deliver_order (t : string) (now : Z) (s : store) : result store :=
  match orders s !! t with
  | None => Ok s
  | Some r => _ ← require_maintenance_transition (o_status r) WAITING_BAY;
              Ok (set_order t (order_moved WAITING_BAY (Some (column_time (now + seconds 1))) (o_available_after r) (inspection_result r) r) s)
  end.
Definition deliver_unit (m : RescueMission) (s : store) : store :=
  match units s !! rescue_unit_id m with
  | None => s
  | Some _ => set_unit (rescue_unit_id m) {| unit_status := "AVAILABLE"; unit_node_id := station_node_id m |} s
  end.

Definition advance_rescue (now : Z) (t : string) (m : RescueMission) (s : store) : result (OperationCaseSnapshot * store) :=
  let target := rescue_target (m_status m) in
  _ ← require_rescue_transition (m_status m) target;
  let s := set_mission t (mission_moved target ((fun n => column_time (now + seconds n)) <$> rescue_delay target) (failure_reason m) m) s in
  let s := add_event t "rescue" (mission_no m) (RESCUE_MOVED target) s in
  s ← match target with
      | LOADED => transition_vehicle (m_vehicle_id m) IN_RESCUE "故障车辆已装载拖运" t now s
      | DELIVERED =>
          s ← transition_vehicle (m_vehicle_id m) MAINTENANCE "车辆已送达县域维修站" t now s;
          s ← update_vehicle (m_vehicle_id m) (vehicle_at (station_node_id m)) s;
          deliver_order t now (deliver_unit m s)
      | _ => Ok s
      end;
  with_case t s.
Definition some_case (r : result (OperationCaseSnapshot * store)) : result (option OperationCaseSnapshot * store) :=
  x ← r; Ok (Some x.1, x.2).
Definition advance_one_due_rescue (now : Z) : action store (option OperationCaseSnapshot) := transaction (fun s =>
  match first_due m_next_transition_at m_id rescue_active now (missions s) with
  | None => Ok (None, s)
  | Some (t, m) => some_case (advance_rescue now t m s)
  end).

Definition maintenance_active (r : MaintenanceOrder) : bool := match o_status r with WAITING_BAY | DIAGNOSING | REPAIRING | QA_PENDING => true | _ => false end.
Definition maintenance_target (st : MaintenanceStatus) : MaintenanceStatus :=
  match st with WAITING_BAY => DIAGNOSING | DIAGNOSING => REPAIRING | REPAIRING => QA_PENDING | _ => COMPLETED end.
Definition awaits_inspection (r : MaintenanceOrder) : bool :=
  bool_decide (o_status r = QA_PENDING) && manual_inspection_required r && bool_decide (inspection_result r = None).

(** [_release_vehicle_and_bay]. *)
Definition release_vehicle_and_bay (t : string) (r : MaintenanceOrder) (passed : bool) (now : Z) (s : store) : result store :=
  let id := o_vehicle_id r in
  let target := if passed then AVAILABLE else OUT_OF_SERVICE in
  s ← transition_vehicle id target (if passed then "安全质检通过，自动恢复可调度" else "安全质检未通过，停止运营")%string t now s;
  s ← (if passed then update_vehicle id vehicle_released s else Ok s);
  let s := match bay_code r with
           | Some code => match bays s !! code with
                          | Some _ => set_bay code {| bay_status := "AVAILABLE"; current_order_no := None |} s
                          | None => s
                          end
           | None => s
           end in
  Ok (add_event t "vehicle" id (VEHICLE_RELEASED passed) s).

Definition maintenance_times (target : MaintenanceStatus) (now : Z) (r : MaintenanceOrder) : option Z * option Z :=
  match target with
  | DIAGNOSING => (Some (column_time (now + seconds 5)), o_available_after r)
  | REPAIRING => let next := now + minutes (repair_minutes r) in (Some (column_time next), Some (column_time (next + seconds 6)))
  | QA_PENDING => (Some (column_time (now + seconds 6)), o_available_after r)
  | _ => (None, o_available_after r)
  end.
Definition advance_maintenance (now : Z) (t : string) (r : MaintenanceOrder) (s : store) : result (OperationCaseSnapshot * store) :=
  if awaits_inspection r
  then with_case t (set_order t (order_moved (o_status r) None (o_available_after r) (inspection_result r) r) s)
  else
    let target := maintenance_target (o_status r) in
    let times := maintenance_times target now r in
    _ ← require_maintenance_transition (o_status r) target;
    let inspection := match target with COMPLETED => Some "PASSED"%string | _ => inspection_result r end in
    let r' := order_moved target times.1 times.2 inspection r in
    let s := set_order t r' s in
    let s := add_event t "maintenance" (order_no r) (MAINTENANCE_MOVED target) s in
    _ ← vehicle_for_update (o_vehicle_id r) s;
    s ← match target with
        | REPAIRING => update_vehicle (o_vehicle_id r) (fun v => vehicle_order (maintenance_order_no v) (o_available_after r') v) s
        | QA_PENDING => transition_vehicle (o_vehicle_id r) V_QA_PENDING "维修完成，进入安全质检" t now s
        | COMPLETED => release_vehicle_and_bay t r' true now s
        | _ => Ok s
        end;
    with_case t s.
Definition advance_one_due_maintenance (now : Z) : action store (option OperationCaseSnapshot) := transaction (fun s =>
  match first_due o_next_transition_at o_id maintenance_active now (orders s) with
  | None => Ok (None, s)
  | Some (t, r) => some_case (advance_maintenance now t r s)
  end).

(** *** By hand *)
Definition by_mission_no (no : string) (s : store) : option (string * RescueMission) :=
  List.find (fun x => String.eqb (mission_no x.2) no) (map_to_list (missions s)).
Definition by_order_no (no : string) (s : store) : option (string * MaintenanceOrder) :=
  List.find (fun x => String.eqb (order_no x.2) no) (map_to_list (orders s)).

Definition retry_rescue (no : string) (now : Z) : action store OperationCaseSnapshot := transaction (fun s =>
  tm ← of_option (NotFound no) (by_mission_no no s);
  let (t, m) := (tm : string * RescueMission) in
  _ ← (if bool_decide (m_status m = R_FAILED) then Ok tt else Err (InvalidStateTransition ("Retry requires FAILED, got " +:+ value (m_status m))));
  unit ← of_option (OperationsConflict "Rescue unit is not available for retry.")
           (match units s !! rescue_unit_id m with Some u => if String.eqb (unit_status u) "AVAILABLE" then Some u else None | None => None end);
  let m' := mission_moved DISPATCHED (Some (column_time (now + seconds 8))) None m in
  let s := set_mission t m' s in
  let s := set_unit (rescue_unit_id m) {| unit_status := "DISPATCHED"; unit_node_id := unit_node_id unit |} s in
  with_case t (add_event t "rescue" (mission_no m) (RESCUE_RETRIED (attempt_count m')) s)).

Definition record_inspection (no : string) (passed : bool) (decided_at : Z) (decided_by : string) : action store OperationCaseSnapshot := transaction (fun s =>
  tr ← of_option (NotFound no) (by_order_no no s);
  let (t, r) := (tr : string * MaintenanceOrder) in
  _ ← (if bool_decide (o_status r = QA_PENDING) then Ok tt else Err (InvalidStateTransition ("Inspection requires QA_PENDING, got " +:+ value (o_status r))));
  let target := if passed then COMPLETED else FAILED in
  _ ← require_maintenance_transition (o_status r) target;
  let r' := order_moved target None (o_available_after r) (Some (if passed then "PASSED" else "FAILED")%string) r in
  let s := set_order t r' s in
  _ ← vehicle_for_update (o_vehicle_id r) s;
  s ← release_vehicle_and_bay t r' passed decided_at s;
  with_case t (add_event t "maintenance" (order_no r) (INSPECTION_DECIDED passed decided_by) s)).

(** ** The progressor *)
Definition run_once (now : Z) : action store unit :=
  (do _ <- advance_one_due_rescue now; do _ <- advance_one_due_maintenance now; ret_action tt)%action.
(** [run_forever]: a run at each tick of the clock, until one raises. *)
Fixpoint run_ticks (ticks : list Z) : action store unit :=
  match ticks with [] => ret_action tt | now :: ticks' => (do _ <- run_once now; run_ticks ticks')%action end.

(** ** What can happen to the tables *)

(** Other writers never touch a vehicle that is being rescued or repaired. *)
Definition in_operation (st : string) : bool := one_of st (map value [BROKEN; WAITING_RESCUE; IN_RESCUE; MAINTENANCE; V_QA_PENDING]).

Inductive step (s : store) : store -> Prop :=
| step_open rq : step s (transaction (open_case rq) s).2
| step_route t l : step s (update_replacement_route t l s).2
| step_rescue now : step s (advance_one_due_rescue now s).2
| step_maintenance now : step s (advance_one_due_maintenance now s).2
| step_retry no now : step s (retry_rescue no now s).2
| step_inspection no passed now who : step s (record_inspection no passed now who s).2
| step_other vs : (forall id v, vehicles s !! id = Some v -> exists v', vs !! id = Some v' /\ (in_operation (v_status v) = true -> v' = v)) ->
    step s (with_vehicles s vs).

(** ** The invariant *)

(** The status of the vehicle of a case; none once it is closed. *)
Definition vehicle_phase (m : RescueStatus) (r : MaintenanceStatus) : option (option VehicleOperationalStatus) :=
  match m, r with
  | (DISPATCHED | ARRIVED | R_FAILED), SCHEDULED => Some (Some WAITING_RESCUE)
  | LOADED, SCHEDULED => Some (Some IN_RESCUE)
  | DELIVERED, (WAITING_BAY | DIAGNOSING | REPAIRING) => Some (Some MAINTENANCE)
  | DELIVERED, QA_PENDING => Some (Some V_QA_PENDING)
  | DELIVERED, (COMPLETED | FAILED) => Some None
  | _, _ => None
  end.
Definition is_open (r : MaintenanceOrder) : bool := match o_status r with COMPLETED | FAILED | CANCELLED => false | _ => true end.

Record consistent (s : store) (m : RescueMission) (r : MaintenanceOrder) : Prop := {
  co_vehicle : o_vehicle_id r = m_vehicle_id m;
  co_present : is_Some (vehicles s !! m_vehicle_id m);
  co_phase : exists p, vehicle_phase (m_status m) (o_status r) = Some p /\
    forall st, p = Some st -> exists v, vehicles s !! m_vehicle_id m = Some v /\ v_status v = value st /\ maintenance_order_no v = Some (order_no r);
  co_unit : rescue_active m = true -> exists u, units s !! rescue_unit_id m = Some u /\ unit_status u = "DISPATCHED"%string;
  co_bay : is_open r = true -> exists code b, bay_code r = Some code /\ bays s !! code = Some b /\
    bay_status b = "RESERVED"%string /\ current_order_no b = Some (order_no r);
  co_due : (rescue_active m = true -> is_Some (m_next_transition_at m)) /\
    (maintenance_active r = true -> is_Some (o_next_transition_at r) \/ awaits_inspection r = true);
  co_inspected : is_open r = true -> inspection_result r = None;
}.

Record wf (s : store) : Prop := {
  wf_cases : forall t m, missions s !! t = Some m -> exists r, orders s !! t = Some r /\ consistent s m r;
  wf_orders : forall t r, orders s !! t = Some r -> is_Some (missions s !! t);
  wf_numbers : forall t1 t2 r1 r2, orders s !! t1 = Some r1 -> orders s !! t2 = Some r2 -> order_no r1 = order_no r2 -> t1 = t2;
  wf_units : forall t1 t2 m1 m2, missions s !! t1 = Some m1 -> missions s !! t2 = Some m2 -> rescue_active m1 = true -> rescue_active m2 = true ->
    rescue_unit_id m1 = rescue_unit_id m2 -> t1 = t2;
}.

Create HintDb operations.

(** *** Transitions of a vehicle *)
Lemma operational_status_value st : operational_status (value st) = Ok st.
Proof. unfold operational_status. by rewrite enum_of_value. Qed.

Lemma operational_status_inv x st : operational_status x = Ok st -> x = value st.
Proof.
  unfold operational_status, of_option, enum_of. destruct (List.find _ _) as [a|] eqn:F; [|done]. intros [= <-].
  by apply find_some in F as [_ F%String.eqb_eq].
Qed.

Lemma require_ok {A} `{EqDecision A, PyEnum A} (ts : A -> list A) cur target : require_transition ts cur target = Ok tt <-> target ∈ ts cur.
Proof. unfold require_transition. case_bool_decide; split; done. Qed.

Definition moved_vehicle (id : string) (target cur : VehicleOperationalStatus) (reason task : string) (now : Z) (v : FleetVehicle) (s : store) : store :=
  with_history (set_vehicle id (vehicle_moved (value target) reason now v) s)
    (history s ++ [{| h_vehicle_id := id; h_task_id := task; from_status := value cur; to_status := value target; h_reason := reason; changed_at := column_time now |}]).

Lemma transition_run id target cur reason t now s v : vehicles s !! id = Some v -> v_status v = value cur -> target ∈ VEHICLE_TRANSITIONS cur ->
  transition_vehicle id target reason t now s = Ok (moved_vehicle id target cur reason t now v s).
Proof.
  intros L V T. unfold transition_vehicle, vehicle_for_update. rewrite L. cbn. rewrite V, operational_status_value. cbn.
  unfold require_vehicle_transition. rewrite (proj2 (require_ok _ _ _) T). done.
Qed.

Lemma transition_inv id target reason t now s s' : transition_vehicle id target reason t now s = Ok s' ->
  exists v cur, vehicles s !! id = Some v /\ v_status v = value cur /\ target ∈ VEHICLE_TRANSITIONS cur /\ s' = moved_vehicle id target cur reason t now v s.
Proof.
  unfold transition_vehicle, vehicle_for_update. destruct (vehicles s !! id) as [v|] eqn:L; [cbn|done].
  destruct (operational_status _) as [cur|] eqn:O; [cbn|done]. apply operational_status_inv in O.
  destruct (require_vehicle_transition _ _) as [[]|] eqn:Q; [cbn|done]. apply require_ok in Q. intros [= <-]. by exists v, cur.
Qed.

Lemma update_vehicle_run id f s v : vehicles s !! id = Some v -> update_vehicle id f s = Ok (set_vehicle id (f v) s).
Proof. intros L. unfold update_vehicle, vehicle_for_update. by rewrite L. Qed.

Lemma update_vehicle_inv id f s s' : update_vehicle id f s = Ok s' -> exists v, vehicles s !! id = Some v /\ s' = set_vehicle id (f v) s.
Proof. unfold update_vehicle, vehicle_for_update. destruct (vehicles s !! id) as [v|]; [|done]. intros [= <-]. by exists v. Qed.

Lemma case_run s t m r : missions s !! t = Some m -> orders s !! t = Some r -> is_Some (vehicles s !! m_vehicle_id m) -> exists c, with_case t s = Ok (c, s).
Proof. intros M O [v V]. unfold with_case, case_of. rewrite M. cbn. rewrite O. cbn. rewrite V. cbn. by eexists. Qed.

Lemma with_case_inv t s c s' : with_case t s = Ok (c, s') -> s' = s.
Proof. unfold with_case. destruct (case_of s t); [by intros [= _ <-]|done]. Qed.

Lemma transaction_inv {A} (f : store -> result (A * store)) s x s' : transaction f s = (x, s') ->
  (exists a, x = Ok a /\ f s = Ok (a, s')) \/ (exists e, x = Err e /\ f s = Err e /\ s' = s).
Proof. unfold transaction. destruct (f s) as [[a s1]|e]; intros [= <- <-]; [left|right]; by eexists. Qed.

(** *** Frames *)
Lemma phase_open m r st : vehicle_phase (m_status m) (o_status r) = Some (Some st) -> is_open r = true.
Proof. unfold is_open. by destruct (m_status m), (o_status r). Qed.

Lemma open_phase m r p : is_open r = true -> vehicle_phase (m_status m) (o_status r) = Some p -> exists st, p = Some st.
Proof. unfold is_open. destruct (m_status m), (o_status r); try done; intros _ [= <-]; by eexists. Qed.

Lemma phase_in_operation m r st : vehicle_phase m r = Some (Some st) -> in_operation (value st) = true.
Proof. destruct m, r; intros [= <-]; reflexivity. Qed.

Lemma consistent_frame s s' m r : consistent s m r ->
  (is_open r = true -> vehicles s' !! m_vehicle_id m = vehicles s !! m_vehicle_id m) -> is_Some (vehicles s' !! m_vehicle_id m) ->
  (rescue_active m = true -> units s' !! rescue_unit_id m = units s !! rescue_unit_id m) ->
  (forall code, is_open r = true -> bay_code r = Some code -> bays s' !! code = bays s !! code) -> consistent s' m r.
Proof.
  intros [C1 C2 (p & C3 & C3') C4 C5 C6 C7] Fv Pv Fu Fb. split; try done.
  - exists p. split; [done|]. intros st ->. rewrite Fv by (by eapply phase_open). by apply C3'.
  - intros A. rewrite Fu by done. by apply C4.
  - intros O. destruct (C5 O) as (code & b & B & L & Rest). exists code, b. by rewrite (Fb _ O B).
Qed.

(** The vehicle and the bay of an open case name its order. *)
Lemma owns_vehicle s t1 t2 m1 m2 r1 r2 : wf s -> orders s !! t1 = Some r1 -> orders s !! t2 = Some r2 -> consistent s m1 r1 -> consistent s m2 r2 ->
  is_open r1 = true -> is_open r2 = true -> m_vehicle_id m1 = m_vehicle_id m2 -> t1 = t2.
Proof.
  intros W O1 O2 [_ _ (p1 & P1 & Q1) _ _ _ _] [_ _ (p2 & P2 & Q2) _ _ _ _] Op1 Op2 E.
  destruct (open_phase _ _ _ Op1 P1) as [st1 ->], (open_phase _ _ _ Op2 P2) as [st2 ->]. destruct (Q1 _ eq_refl) as (v1 & V1 & _ & N1), (Q2 _ eq_refl) as (v2 & V2 & _ & N2).
  rewrite E, V2 in V1. injection V1 as <-. eapply wf_numbers; [done|done|done|congruence].
Qed.

Lemma owns_bay s t1 t2 m1 m2 r1 r2 code : wf s -> orders s !! t1 = Some r1 -> orders s !! t2 = Some r2 -> consistent s m1 r1 -> consistent s m2 r2 ->
  is_open r1 = true -> is_open r2 = true -> bay_code r1 = Some code -> bay_code r2 = Some code -> t1 = t2.
Proof.
  intros W O1 O2 C1 C2 Op1 Op2 B1 B2. destruct (co_bay _ _ _ C1 Op1) as (c1 & b1 & E1 & L1 & _ & N1), (co_bay _ _ _ C2 Op2) as (c2 & b2 & E2 & L2 & _ & N2).
  simplify_eq. eapply wf_numbers; [done|done|done|congruence].
Qed.

(** An open case moves on: nothing but what it owns changes. *)
Lemma wf_changed s s' t m r m' r' : wf s -> missions s !! t = Some m -> orders s !! t = Some r ->
  missions s' = <[t := m']> (missions s) -> orders s' = <[t := r']> (orders s) ->
  is_open r = true -> order_no r' = order_no r -> rescue_unit_id m' = rescue_unit_id m ->
  (forall x, x <> m_vehicle_id m -> vehicles s' !! x = vehicles s !! x) -> is_Some (vehicles s' !! m_vehicle_id m) ->
  (forall x, x <> rescue_unit_id m -> units s' !! x = units s !! x) ->
  (rescue_active m = false -> units s' = units s /\ rescue_active m' = false \/
     exists u, units s !! rescue_unit_id m = Some u /\ unit_status u = "AVAILABLE"%string) ->
  (forall x, bay_code r <> Some x -> bays s' !! x = bays s !! x) ->
  consistent s' m' r' -> wf s'.
Proof.
  intros W M O Em Eo Op No Un Fv Pv Fu Eu Fb C'. destruct (wf_cases s W t m M) as (r0 & O0 & C). rewrite O in O0. injection O0 as <-.
  (* no other active mission uses the unit while this one may change it *)
  assert (Xu : forall t2 m2, t2 <> t -> missions s !! t2 = Some m2 -> rescue_active m2 = true -> rescue_unit_id m2 = rescue_unit_id m ->
    units s' = units s /\ rescue_active m' = false).
  { intros t2 m2 N M2 A2 E. destruct (rescue_active m) eqn:A; [by destruct N; eapply wf_units|]. destruct (Eu eq_refl) as [?|(u & U & S)]; [done|].
    destruct (wf_cases s W t2 m2 M2) as (r2 & _ & C2). destruct (co_unit _ _ _ C2 A2) as (u2 & U2 & S2). rewrite E, U in U2. congruence. }
  split.
  - intros t2 m2. rewrite Em, Eo. destruct (decide (t2 = t)) as [->|N].
    + rewrite !lookup_insert_eq. intros [= <-]. by exists r'.
    + rewrite !lookup_insert_ne by done. intros M2. destruct (wf_cases s W t2 m2 M2) as (r2 & O2 & C2). exists r2. split; [done|].
      apply (consistent_frame s); [done| | | |].
      * intros Op2. apply Fv. intros E. by apply N; eapply owns_vehicle.
      * destruct (decide (m_vehicle_id m2 = m_vehicle_id m)) as [->|Nv]; [done|]. rewrite Fv by done. apply (co_present _ _ _ C2).
      * intros A2. destruct (decide (rescue_unit_id m2 = rescue_unit_id m)) as [E|Nu]; [by destruct (Xu t2 m2 N M2 A2 E) as [-> _]|by apply Fu].
      * intros code Op2 B2. apply Fb. intros B. by apply N; eapply owns_bay.
  - intros t2 r2. rewrite Em, Eo. destruct (decide (t2 = t)) as [->|N]; [rewrite !lookup_insert_eq; by eexists|].
    rewrite !lookup_insert_ne by done. apply (wf_orders s W).
  - intros t1 t2 r1 r2. rewrite Eo.
    assert (K : forall x y, <[t := r']> (orders s) !! x = Some y -> exists z, orders s !! x = Some z /\ order_no z = order_no y).
    { intros x y. destruct (decide (x = t)) as [->|N]; [rewrite lookup_insert_eq; intros [= <-]; by exists r|rewrite lookup_insert_ne by done; by exists y]. }
    intros (z1 & Z1 & N1)%K (z2 & Z2 & N2)%K E. eapply (wf_numbers s W); [done|done|congruence].
  - intros t1 t2 m1 m2. rewrite Em. destruct (decide (t1 = t)) as [->|N1], (decide (t2 = t)) as [->|N2];
      rewrite ?lookup_insert_eq, ?lookup_insert_ne by done; [done| | |apply (wf_units s W)].
    + intros [= <-] M2 A1 A2 E. destruct (Xu t2 m2 N2 M2 A2 ltac:(congruence)) as [_ ?]. congruence.
    + intros M1 [= <-] A1 A2 E. destruct (Xu t1 m1 N1 M1 A1 ltac:(congruence)) as [_ ?]. congruence.
Qed.

(** *** Progress of a rescue *)
Lemma first_due_some {A} (next : A -> option Z) (id : A -> Z) active now (rows : gmap string A) t x : first_due next id active now rows = Some (t, x) ->
  rows !! t = Some x /\ active x = true /\ exists n, next x = Some n /\ n <= now.
Proof.
  unfold first_due. intros E. assert (M : (t, x) ∈ List.filter (fun x => active x.2 && match next x.2 with Some t => t <=? now | None => false end) (map_to_list rows)).
  { rewrite <- (sorted_key_perm (fun x => (default 0 (next x.2), id x.2))). destruct (sorted_key _ _) as [|y l]; [done|]. injection E as ->. by left. }
  apply list_elem_of_In, filter_In in M as [M F]. apply list_elem_of_In, elem_of_map_to_list in M. apply andb_true_iff in F as [F1 F2]. cbn in *.
  split; [done|]. split; [done|]. destruct (next x) as [n|]; [|done]. exists n. split; [done|]. by apply Z.leb_le.
Qed.

Lemma first_due_none {A} (next : A -> option Z) (id : A -> Z) active now (rows : gmap string A) : first_due next id active now rows = None ->
  forall t x, rows !! t = Some x -> active x = true -> forall n, next x = Some n -> now < n.
Proof.
  unfold first_due. intros E t x L Ac n N. destruct (Z.ltb_spec now n) as [|Le]; [done|]. exfalso.
  assert (M : (t, x) ∈ sorted_key (fun x => (default 0 (next x.2), id x.2)) (List.filter (fun x => active x.2 && match next x.2 with Some t => t <=? now | None => false end) (map_to_list rows))).
  { rewrite sorted_key_perm. apply list_elem_of_In, filter_In. split; [by apply list_elem_of_In, elem_of_map_to_list|]. cbn. rewrite Ac, N. by apply Z.leb_le. }
  destruct (sorted_key _ _); [by apply not_elem_of_nil in M|done].
Qed.

Lemma rescue_allowed m : rescue_active m = true -> rescue_target (m_status m) ∈ RESCUE_TRANSITIONS (m_status m).
Proof. unfold rescue_active. destruct (m_status m); try done; intros _; set_solver. Qed.

Lemma insert_same {A} (x : gmap string A) k v : x !! k = Some v -> x = <[k := v]> x.
Proof. intros L. by rewrite insert_id. Qed.

(** A rescue that moves takes its vehicle along, and hands it over at the end. *)
Lemma rescue_step now t m s : wf s -> missions s !! t = Some m -> rescue_active m = true ->
  exists c s', advance_rescue now t m s = Ok (c, s') /\ wf s' /\
    missions s' = <[t := mission_moved (rescue_target (m_status m)) ((fun n => column_time (now + seconds n)) <$> rescue_delay (rescue_target (m_status m))) (failure_reason m) m]> (missions s) /\
    exists r r', orders s !! t = Some r /\ orders s' = <[t := r']> (orders s) /\
      (m_status m = LOADED /\ o_status r = SCHEDULED /\ r' = order_moved WAITING_BAY (Some (column_time (now + seconds 1))) (o_available_after r) (inspection_result r) r \/
       m_status m <> LOADED /\ r' = r).
Proof.
  intros W M A. destruct (wf_cases s W t m M) as (r & O & C). pose proof C as [C1 C2 (p & C3 & C3') C4 C5 C6 C7].
  unfold advance_rescue, require_rescue_transition. rewrite (proj2 (require_ok _ _ _) (rescue_allowed m A)). cbn [mbind result_bind].
  set (m' := mission_moved _ _ _ m). pose proof (C4 A) as (u & U & Us).
  assert (St : o_status r = SCHEDULED /\ exists st, p = Some st). { unfold rescue_active in A. destruct (m_status m), (o_status r); try done; injection C3 as <-; eauto. }
  destruct St as [St (st & ->)]. destruct (C3' st eq_refl) as (v & V & Vs & Vn).
  assert (Op : is_open r = true) by (unfold is_open; by rewrite St). destruct (C5 Op) as (code & b & B & Lb & Bs & Bn).
  set (s1 := add_event _ _ _ _ _).
  assert (E1 : vehicles s1 = vehicles s /\ units s1 = units s /\ bays s1 = bays s /\ missions s1 = <[t := m']> (missions s) /\ orders s1 = orders s) by done.
  destruct E1 as (Ev & Eu & Eb & Em & Eo).
  assert (Fin : forall s2 r', orders s2 = <[t := r']> (orders s) -> missions s2 = <[t := m']> (missions s) -> consistent s2 m' r' -> wf s2 ->
    (m_status m = LOADED /\ o_status r = SCHEDULED /\ r' = order_moved WAITING_BAY (Some (column_time (now + seconds 1))) (o_available_after r) (inspection_result r) r \/
       m_status m <> LOADED /\ r' = r) ->
    exists c s', with_case t s2 = Ok (c, s') /\ wf s' /\ missions s' = <[t := m']> (missions s) /\
      exists r r', orders s !! t = Some r /\ orders s' = <[t := r']> (orders s) /\
      (m_status m = LOADED /\ o_status r = SCHEDULED /\ r' = order_moved WAITING_BAY (Some (column_time (now + seconds 1))) (o_available_after r) (inspection_result r) r \/
       m_status m <> LOADED /\ r' = r)).
  { intros s2 r' Eo2 Em2 C' W' D. destruct (case_run s2 t m' r') as [c E]; [by rewrite Em2, lookup_insert_eq|by rewrite Eo2, lookup_insert_eq|apply (co_present _ _ _ C')|].
    exists c, s2. split_and!; try done. by exists r, r'. }
  destruct (m_status m) eqn:Ms; try (unfold rescue_active in A; by rewrite Ms in A); cbn [rescue_target] in *.
  - (* ARRIVED *)
    rewrite St in C3. injection C3 as <-. assert (C' : consistent s1 m' r).
    { split; try done; [exists (Some WAITING_RESCUE); split; [by rewrite St|by intros ? [= <-]; exists v]|by intros _; exists u|].
      split; [by eexists|]. unfold maintenance_active. by rewrite St. }
    apply (Fin s1 r); [by apply insert_same|done|done| |by right].
    apply (wf_changed s s1 t m r m' r); try done; [by apply insert_same|by intros; congruence].
  - (* LOADED *)
    rewrite St in C3. injection C3 as <-. rewrite (transition_run _ _ WAITING_RESCUE _ _ _ _ v) by (by (rewrite Ev) || done || set_solver). cbn [mbind result_bind].
    set (s2 := moved_vehicle _ _ _ _ _ _ _ _).
    assert (Lv : exists v2, vehicles s2 !! m_vehicle_id m = Some v2 /\ v_status v2 = value IN_RESCUE /\ maintenance_order_no v2 = Some (order_no r))
      by (eexists; split; [apply lookup_insert_eq|by split]).
    assert (C' : consistent s2 m' r).
    { split; try done; [by destruct Lv as (? & ? & _); eexists|exists (Some IN_RESCUE); split; [by rewrite St|by intros ? [= <-]]|by intros _; exists u|].
      split; [by eexists|]. unfold maintenance_active. by rewrite St. }
    apply (Fin s2 r); [by apply insert_same|done|done| |by right].
    apply (wf_changed s s2 t m r m' r); try done; [by apply insert_same|by intros; apply lookup_insert_ne|apply (co_present _ _ _ C')|by intros; congruence].
  - (* DELIVERED *)
    rewrite St in C3. injection C3 as <-. rewrite (transition_run _ _ IN_RESCUE _ _ _ _ v) by (by (rewrite Ev) || done || set_solver). cbn [mbind result_bind].
    set (s2 := moved_vehicle _ _ _ _ _ _ _ _).
    erewrite (update_vehicle_run _ _ s2) by apply lookup_insert_eq. cbn [mbind result_bind]. set (s3 := set_vehicle _ _ s2).
    unfold deliver_unit. change (units s3) with (units s). rewrite U. set (s4 := set_unit _ _ s3).
    set (r' := order_moved WAITING_BAY (Some (column_time (now + seconds 1))) (o_available_after r) (inspection_result r) r). set (s5 := set_order t r' s4).
    assert (Dl : deliver_order t now s4 = Ok s5).
    { unfold deliver_order. change (orders s4) with (orders s). rewrite O, St. unfold require_maintenance_transition. by rewrite (proj2 (require_ok _ _ _)) by (cbn; set_solver). }
    rewrite Dl. cbn [mbind result_bind]. clear Dl.
    assert (Lv : exists v2, vehicles s5 !! m_vehicle_id m = Some v2 /\ v_status v2 = value MAINTENANCE /\ maintenance_order_no v2 = Some (order_no r)).
    { eexists. split; [apply lookup_insert_eq|by split]. }
    assert (C' : consistent s5 m' r').
    { split; try done; [by destruct Lv as (? & ? & _); eexists|exists (Some MAINTENANCE); split; [done|by intros ? [= <-]]|by exists code, b|by split; [|left; eexists]|].
      intros _. by apply C7. }
    apply (Fin s5 r'); try done; [|by left].
    apply (wf_changed s s5 t m r m' r'); try done; [intros x Nx; cbn; rewrite !lookup_insert_ne by done; done|apply (co_present _ _ _ C')| |by intros; congruence].
    intros x Nx. by apply lookup_insert_ne.
Qed.

(** *** Progress of a repair *)
Lemma release_run t r (passed : bool) now s v : vehicles s !! o_vehicle_id r = Some v -> v_status v = value V_QA_PENDING ->
  exists s' v', release_vehicle_and_bay t r passed now s = Ok s' /\ missions s' = missions s /\ orders s' = orders s /\ units s' = units s /\
    (forall x, x <> o_vehicle_id r -> vehicles s' !! x = vehicles s !! x) /\
    vehicles s' !! o_vehicle_id r = Some v' /\ v_status v' = value (if passed then AVAILABLE else OUT_OF_SERVICE) /\
    (forall x, bay_code r <> Some x -> bays s' !! x = bays s !! x) /\
    (forall code, bay_code r = Some code -> is_Some (bays s !! code) -> exists b, bays s' !! code = Some b /\ bay_status b = "AVAILABLE"%string).
Proof.
  intros L V. unfold release_vehicle_and_bay.
  rewrite (transition_run _ _ V_QA_PENDING _ _ _ _ v) by (done || by destruct passed; set_solver). cbn [mbind result_bind].
  set (s1 := moved_vehicle _ _ _ _ _ _ _ _).
  assert (E : exists s2 v2, (if passed then update_vehicle (o_vehicle_id r) vehicle_released s1 else Ok s1) = Ok s2 /\ missions s2 = missions s /\ orders s2 = orders s /\ units s2 = units s /\
    bays s2 = bays s /\ (forall x, x <> o_vehicle_id r -> vehicles s2 !! x = vehicles s !! x) /\ vehicles s2 !! o_vehicle_id r = Some v2 /\ v_status v2 = value (if passed then AVAILABLE else OUT_OF_SERVICE)).
  { destruct passed.
    - erewrite (update_vehicle_run _ _ s1) by apply lookup_insert_eq. eexists _, _. split_and!; try done; [intros x N; cbn; by rewrite !lookup_insert_ne|apply lookup_insert_eq|done].
    - eexists s1, _. split_and!; try done; [intros x N; by apply lookup_insert_ne|apply lookup_insert_eq|done]. }
  destruct E as (s2 & v2 & -> & Em & Eo & Eu & Eb & Fv & Lv & Vs). cbn [mbind result_bind]. rewrite Eb.
  destruct (bay_code r) as [code|] eqn:B; [destruct (bays s !! code) as [b|] eqn:Lb|]; eexists _, v2; (split; [reflexivity|]); split_and!; try done.
  - intros x N. cbn. rewrite Eb. apply lookup_insert_ne. congruence.
  - intros code' [= <-] _. eexists. split; [apply lookup_insert_eq|done].
  - intros x N. cbn. by rewrite Eb.
  - intros code' [= <-] [b ?]. congruence.
  - intros x N. cbn. by rewrite Eb.
Qed.

Lemma maintenance_allowed r : maintenance_active r = true -> maintenance_target (o_status r) ∈ MAINTENANCE_TRANSITIONS (o_status r).
Proof. unfold maintenance_active. destruct (o_status r); try done; intros _; set_solver. Qed.

(** An order in repair belongs to a delivered vehicle. *)
Lemma in_repair s m r : consistent s m r -> maintenance_active r = true ->
  m_status m = DELIVERED /\ is_open r = true /\ exists v, vehicles s !! m_vehicle_id m = Some v /\ maintenance_order_no v = Some (order_no r) /\
    v_status v = value (match o_status r with QA_PENDING => V_QA_PENDING | _ => MAINTENANCE end).
Proof.
  intros [C1 C2 (p & C3 & C3') C4 C5 C6 C7] A. unfold maintenance_active, is_open in *.
  destruct (m_status m), (o_status r); try done; (split; [done|]); (split; [done|]); injection C3 as <-; destruct (C3' _ eq_refl) as (v & V & Vs & Vn); by exists v.
Qed.

(** What a step of an order makes of it. *)
Definition repaired (now : Z) (r : MaintenanceOrder) : MaintenanceOrder :=
  if awaits_inspection r then order_moved (o_status r) None (o_available_after r) (inspection_result r) r
  else let target := maintenance_target (o_status r) in
       order_moved target (maintenance_times target now r).1 (maintenance_times target now r).2
         (match target with COMPLETED => Some "PASSED"%string | _ => inspection_result r end) r.

(** The end of a step that has changed an order. *)
Lemma order_changed s s' t m r r' : wf s -> missions s !! t = Some m -> orders s !! t = Some r -> maintenance_active r = true ->
  missions s' = missions s -> orders s' = <[t := r']> (orders s) -> units s' = units s -> order_no r' = order_no r ->
  (forall x, x <> m_vehicle_id m -> vehicles s' !! x = vehicles s !! x) -> (forall x, bay_code r <> Some x -> bays s' !! x = bays s !! x) ->
  consistent s' m r' -> wf s' /\ exists c, with_case t s' = Ok (c, s').
Proof.
  intros W M O A Em Eo Eu No Fv Fb C'. destruct (wf_cases s W t m M) as (r0 & O0 & C). rewrite O in O0. injection O0 as <-.
  destruct (in_repair _ _ _ C A) as (Ms & Op & _). assert (Na : rescue_active m = false) by (unfold rescue_active; by rewrite Ms). split.
  - apply (wf_changed s s' t m r m r'); try done; [rewrite Em; by apply insert_same|apply (co_present _ _ _ C')|by intros; rewrite Eu|by left].
  - apply (case_run s' t m r'); [by rewrite Em|by rewrite Eo, lookup_insert_eq|apply (co_present _ _ _ C')].
Qed.

Lemma maintenance_step now t r s : wf s -> orders s !! t = Some r -> maintenance_active r = true ->
  exists c s', advance_maintenance now t r s = Ok (c, s') /\ wf s' /\ missions s' = missions s /\ orders s' = <[t := repaired now r]> (orders s).
Proof.
  intros W O A. destruct (wf_orders s W t r O) as [m M]. destruct (wf_cases s W t m M) as (r0 & O0 & C). rewrite O in O0. injection O0 as <-.
  destruct (in_repair _ _ _ C A) as (Ms & Op & v & V & Vn & Vs). pose proof C as [C1 C2 _ C4 C5 C6 C7]. destruct (C5 Op) as (code & b & B & Lb & Bs & Bn).
  assert (Na : rescue_active m = false) by (unfold rescue_active; by rewrite Ms). unfold advance_maintenance, repaired.
  assert (Fin : forall s1 r', missions s1 = missions s -> orders s1 = <[t := r']> (orders s) -> units s1 = units s -> order_no r' = order_no r ->
    (forall x, x <> m_vehicle_id m -> vehicles s1 !! x = vehicles s !! x) -> (forall x, bay_code r <> Some x -> bays s1 !! x = bays s !! x) -> consistent s1 m r' ->
    exists c s', with_case t s1 = Ok (c, s') /\ wf s' /\ missions s' = missions s /\ orders s' = <[t := r']> (orders s)).
  { intros s1 r' Em Eo Eu No Fv Fb C'. destruct (order_changed s s1 t m r r') as [W1 [c E]]; try done. by exists c, s1. }
  destruct (awaits_inspection r) eqn:Aw.
  { pose proof Aw as Aw'. unfold awaits_inspection in Aw'. apply andb_true_iff in Aw' as [[Q Mi]%andb_true_iff In]. apply bool_decide_eq_true in Q, In.
    apply Fin; try done. split; try done.
    - exists (Some V_QA_PENDING). split; [cbn; by rewrite Ms, Q|]. intros ? [= <-]. exists v. by rewrite Q in Vs.
    - split; [by intros; congruence|]. intros _. by right. }
  set (target := maintenance_target (o_status r)). set (times := maintenance_times target now r). set (r' := order_moved target times.1 times.2 _ r).
  unfold require_maintenance_transition. rewrite (proj2 (require_ok _ _ _) (maintenance_allowed r A)). cbn [mbind result_bind].
  set (s1 := add_event _ _ _ _ _). unfold vehicle_for_update at 1. change (vehicles s1) with (vehicles s). rewrite C1, V. cbn [of_option mbind result_bind].
  (* the vehicle's row, the rest of the case and the bay of an order that stays open *)
  assert (Still : forall s2, missions s2 = missions s -> orders s2 = <[t := r']> (orders s) -> units s2 = units s -> bays s2 = bays s ->
    (forall x, x <> m_vehicle_id m -> vehicles s2 !! x = vehicles s !! x) -> target <> COMPLETED ->
    (exists v2, vehicles s2 !! m_vehicle_id m = Some v2 /\ v_status v2 = value (match target with QA_PENDING => V_QA_PENDING | _ => MAINTENANCE end) /\ maintenance_order_no v2 = Some (order_no r)) ->
    exists c s', with_case t s2 = Ok (c, s') /\ wf s' /\ missions s' = missions s /\ orders s' = <[t := r']> (orders s)).
  { intros s2 Em Eo Eu Eb Fv Nt Lv. apply Fin; try done; [by intros; rewrite Eb|]. split; try done.
    - by destruct Lv as (? & ? & _); eexists.
    - unfold target, maintenance_active in *. exists (Some (match maintenance_target (o_status r) with QA_PENDING => V_QA_PENDING | _ => MAINTENANCE end)).
      split; [|by intros ? [= <-]]. cbn. rewrite Ms. by destruct (o_status r).
    - intros; congruence.
    - intros _. rewrite Eb. by exists code, b.
    - split; [by intros; congruence|]. intros _. left. unfold maintenance_active in A. cbn. unfold times, target in *. destruct (o_status r); try done; by eexists.
    - intros _. cbn. unfold target in *. unfold maintenance_active in A. destruct (o_status r); try done; by apply C7. }
  unfold maintenance_active in A. destruct (o_status r) eqn:Os; try done; cbn [maintenance_target] in target; subst target; cbn iota.
  - apply Still; try done. by exists v.
  - rewrite (update_vehicle_run _ _ s1 v) by done. cbn [mbind result_bind]. apply Still; try done; [by intros; apply lookup_insert_ne|].
    eexists. split; [apply lookup_insert_eq|by split].
  - rewrite (transition_run _ _ MAINTENANCE _ _ _ s1 v) by (done || set_solver). cbn [mbind result_bind]. apply Still; try done; [by intros; apply lookup_insert_ne|].
    eexists. split; [apply lookup_insert_eq|by split].
  - destruct (release_run t r' true now s1 v) as (s2 & v2 & E & Em & Eo & Eu & Fv & Lv & _ & Fb & _); [cbn; by rewrite C1|done|].
    rewrite E. cbn [mbind result_bind]. cbn in Fv, Lv, Fb. rewrite C1 in *. apply Fin; try done. split; try done.
    + exists None. split; [cbn; by rewrite Ms|done].
    + intros; congruence.
    + split; [by intros; congruence|done].
Qed.

(** *** Inspections, retries and new cases *)
Lemma by_order_no_some no s t r : by_order_no no s = Some (t, r) -> orders s !! t = Some r /\ order_no r = no.
Proof.
  intros [M F]%find_some. apply list_elem_of_In, elem_of_map_to_list in M. split; [done|]. by apply String.eqb_eq in F.
Qed.
Lemma by_mission_no_some no s t m : by_mission_no no s = Some (t, m) -> missions s !! t = Some m /\ mission_no m = no.
Proof.
  intros [M F]%find_some. apply list_elem_of_In, elem_of_map_to_list in M. split; [done|]. by apply String.eqb_eq in F.
Qed.

Definition inspected (passed : bool) (r : MaintenanceOrder) : MaintenanceOrder :=
  order_moved (if passed then COMPLETED else FAILED) None (o_available_after r) (Some (if passed then "PASSED" else "FAILED")%string) r.

(** An inspection of an order that awaits one always succeeds. *)
Lemma inspection_run no passed now who s t r : wf s -> by_order_no no s = Some (t, r) -> o_status r = QA_PENDING ->
  exists c s', record_inspection no passed now who s = (Ok c, s') /\ wf s' /\ missions s' = missions s /\ orders s' = <[t := inspected passed r]> (orders s) /\
    exists v, vehicles s' !! o_vehicle_id r = Some v /\ v_status v = value (if passed then AVAILABLE else OUT_OF_SERVICE).
Proof.
  intros W By Q. destruct (by_order_no_some _ _ _ _ By) as [O No]. destruct (wf_orders s W t r O) as [m M]. destruct (wf_cases s W t m M) as (r0 & O0 & C).
  rewrite O in O0. injection O0 as <-. assert (A : maintenance_active r = true) by (unfold maintenance_active; by rewrite Q).
  destruct (in_repair _ _ _ C A) as (Ms & Op & v & V & Vn & Vs). rewrite Q in Vs. pose proof C as [C1 C2 _ C4 C5 C6 C7]. destruct (C5 Op) as (code & b & B & Lb & Bs & Bn).
  unfold record_inspection, transaction. rewrite By. cbn [of_option mbind result_bind]. rewrite (bool_decide_eq_true_2 _ Q). cbn [mbind result_bind].
  unfold require_maintenance_transition. rewrite (proj2 (require_ok _ _ _)) by (rewrite Q; destruct passed; cbn; set_solver). cbn [mbind result_bind].
  change (order_moved (if passed then COMPLETED else FAILED) None (o_available_after r) (Some (if passed then "PASSED" else "FAILED")%string) r) with (inspected passed r).
  set (r' := inspected passed r). set (s1 := set_order t r' s). unfold vehicle_for_update at 1. change (vehicles s1) with (vehicles s). rewrite C1, V. cbn [of_option mbind result_bind].
  destruct (release_run t r' passed now s1 v) as (s2 & v2 & E & Em & Eo & Eu & Fv & Lv & Vs2 & Fb & _); [cbn; by rewrite C1|done|]. rewrite E. cbn [mbind result_bind].
  set (s3 := add_event _ _ _ _ s2). cbn in Fv, Lv, Fb. rewrite C1 in *. assert (Na : rescue_active m = false) by (unfold rescue_active; by rewrite Ms).
  destruct (order_changed s s3 t m r r') as [W3 [c Ec]]; try done.
  - split; try done; [exists None; split; [cbn; rewrite Ms; by destruct passed|done]|by intros; congruence|by destruct passed| |by destruct passed].
    split; [by intros; congruence|by destruct passed].
  - exists c, s3. rewrite Ec. split_and!; try done. by exists v2.
Qed.

Lemma inspection_inv no passed now who s x s' : record_inspection no passed now who s = (x, s') ->
  (exists t r, by_order_no no s = Some (t, r) /\ o_status r = QA_PENDING) \/ (exists e, x = Err e /\ s' = s).
Proof.
  unfold record_inspection. intros [(c & -> & E)|(e & -> & _ & ->)]%transaction_inv; [left|right; by exists e]. destruct (by_order_no no s) as [[t r]|]; [|done].
  cbn [of_option mbind result_bind] in E. case_bool_decide as Q; [|done]. by exists t, r.
Qed.

Lemma retry_inv no now s x s' : retry_rescue no now s = (x, s') ->
  (exists e, x = Err e /\ s' = s) \/
  exists c t m u, x = Ok c /\ missions s !! t = Some m /\ m_status m = R_FAILED /\ units s !! rescue_unit_id m = Some u /\ unit_status u = "AVAILABLE"%string /\
    s' = add_event t "rescue" (mission_no m) (RESCUE_RETRIED (attempt_count m + 1))
           (set_unit (rescue_unit_id m) {| unit_status := "DISPATCHED"; unit_node_id := unit_node_id u |} (set_mission t (mission_moved DISPATCHED (Some (column_time (now + seconds 8))) None m) s)).
Proof.
  unfold retry_rescue. intros [(c & -> & E)|(e & -> & _ & ->)]%transaction_inv; [right|left; by exists e]. destruct (by_mission_no no s) as [[t m]|] eqn:By; [|done].
  apply by_mission_no_some in By as [M _]. cbn [of_option mbind result_bind] in E. case_bool_decide as F; [cbn [mbind result_bind] in E|done].
  destruct (units s !! rescue_unit_id m) as [u|] eqn:U; [|done]. destruct (String.eqb_spec (unit_status u) "AVAILABLE") as [Us|]; [cbn [of_option mbind result_bind] in E|done].
  apply with_case_inv in E. by exists c, t, m, u.
Qed.

Lemma retry_wf no now s : wf s -> wf (retry_rescue no now s).2.
Proof.
  intros W. destruct (retry_rescue no now s) as [x s'] eqn:E. cbn. apply retry_inv in E as [(e & _ & ->)|(c & t & m & u & _ & M & F & U & Us & Es)]; [done|].
  destruct (wf_cases s W t m M) as (r & O & C). pose proof C as [C1 C2 (p & C3 & C3') C4 C5 C6 C7].
  assert (St : o_status r = SCHEDULED /\ p = Some WAITING_RESCUE) by (rewrite F in C3; destruct (o_status r); try done; by injection C3 as <-).
  destruct St as [St ->]. assert (Op : is_open r = true) by (unfold is_open; by rewrite St).
  apply (wf_changed s s' t m r (mission_moved DISPATCHED (Some (column_time (now + seconds 8))) None m) r); try (rewrite Es; done); try done.
  - rewrite Es. by apply insert_same.
  - intros y N. rewrite Es. by apply lookup_insert_ne.
  - intros _. right. by exists u.
  - rewrite Es. split; try done.
    + exists (Some WAITING_RESCUE). split; [by rewrite St|]. intros ? [= <-]. by apply C3'.
    + intros _. eexists. split; [apply lookup_insert_eq|done].
    + split; [by eexists|]. unfold maintenance_active. by rewrite St.
Qed.

Lemma leaves_operation cur target : target ∈ VEHICLE_TRANSITIONS cur -> target = BROKEN \/ target = DISPATCHING -> in_operation (value cur) = false.
Proof. intros T [->| ->]; destruct cur; try reflexivity; exfalso; cbn in T; set_solver. Qed.

Lemma insert_mission_inv t m s s' : insert_mission t m s = Ok s' -> missions s !! t = None /\ s' = set_mission t m s /\
  forall t2 m2, missions s !! t2 = Some m2 -> mission_no m2 <> mission_no m.
Proof.
  unfold insert_mission. destruct (existsb _ _) eqn:X; [done|]. case_bool_decide as P; [done|]. intros [= <-]. split; [by apply eq_None_not_Some|]. split; [done|].
  intros t2 m2 L E. rewrite <- not_true_iff_false, existsb_exists in X. apply X. exists (t2, m2). split; [by apply list_elem_of_In, elem_of_map_to_list|].
  by apply String.eqb_eq.
Qed.
Lemma insert_order_inv t r s s' : insert_order t r s = Ok s' -> orders s !! t = None /\ s' = set_order t r s /\
  forall t2 r2, orders s !! t2 = Some r2 -> order_no r2 <> order_no r.
Proof.
  unfold insert_order. destruct (existsb _ _) eqn:X; [done|]. case_bool_decide as P; [done|]. intros [= <-]. split; [by apply eq_None_not_Some|]. split; [done|].
  intros t2 r2 L E. rewrite <- not_true_iff_false, existsb_exists in X. apply X. exists (t2, r2). split; [by apply list_elem_of_In, elem_of_map_to_list|].
  by apply String.eqb_eq.
Qed.

Lemma free_bay_some s code b : free_bay s = Some (code, b) -> bays s !! code = Some b /\ bay_status b = "AVAILABLE"%string.
Proof.
  unfold free_bay. intros E. assert (M : (code, b) ∈ List.filter (fun kb => String.eqb (bay_status kb.2) "AVAILABLE") (map_to_list (bays s))).
  { rewrite <- (sorted_key_perm fst). destruct (sorted_key _ _); [done|]. injection E as ->. by left. }
  apply list_elem_of_In, filter_In in M as [M F]. apply list_elem_of_In, elem_of_map_to_list in M. split; [done|]. by apply String.eqb_eq in F.
Qed.

(** The vehicles after a replacement took over. *)
Lemma dispatch_replacement_inv rq s s' : dispatch_replacement rq s = Ok s' ->
  missions s' = missions s /\ orders s' = orders s /\ units s' = units s /\ bays s' = bays s /\
  match q_replacement_vehicle_id rq with
  | None => vehicles s' = vehicles s
  | Some id => (exists v, vehicles s !! id = Some v /\ in_operation (v_status v) = false) /\
               (exists v', vehicles s' !! id = Some v' /\ v_status v' = value IN_TRANSIT) /\ forall x, x <> id -> vehicles s' !! x = vehicles s !! x
  end.
Proof.
  unfold dispatch_replacement. destruct (q_replacement_vehicle_id rq) as [id|]; [|by intros [= <-]].
  intros (s1 & (v & cur & L & V & T & ->)%transition_inv & (v2 & cur2 & L2 & V2 & T2 & ->)%transition_inv)%result_bind_ok. do 4 (split; [done|]).
  split; [|split].
  - exists v. split; [done|]. rewrite V. eapply leaves_operation; [exact T|by right].
  - eexists. split; [apply lookup_insert_eq|done].
  - intros x N. cbn. by rewrite !lookup_insert_ne.
Qed.

(** What opening a case changes. *)
Record opened (rq : BreakdownCaseRequest) (s s' : store) : Prop := {
  op_rows : exists i j code b u, let t := q_task_id rq in let m := new_mission rq i in let r := new_order rq code j in
    missions s !! t = None /\ orders s !! t = None /\ missions s' = <[t := m]> (missions s) /\ orders s' = <[t := r]> (orders s) /\
    (forall t2 r2, orders s !! t2 = Some r2 -> order_no r2 <> order_no r) /\
    units s !! q_rescue_unit_id rq = Some u /\ unit_status u = "AVAILABLE"%string /\
    units s' = <[q_rescue_unit_id rq := {| unit_status := "DISPATCHED"; unit_node_id := unit_node_id u |}]> (units s) /\
    bays s !! code = Some b /\ bay_status b = "AVAILABLE"%string /\
    bays s' = <[code := {| bay_status := "RESERVED"; current_order_no := Some (order_no r) |}]> (bays s) /\
    exists v', vehicles s' !! q_vehicle_id rq = Some v' /\ v_status v' = value WAITING_RESCUE /\ maintenance_order_no v' = Some (order_no r);
  op_vehicle : exists v, vehicles s !! q_vehicle_id rq = Some v /\ in_operation (v_status v) = false;
  op_replacement : forall id, q_replacement_vehicle_id rq = Some id -> id <> q_vehicle_id rq /\
    (exists v, vehicles s !! id = Some v /\ in_operation (v_status v) = false) /\ exists v', vehicles s' !! id = Some v' /\ v_status v' = value IN_TRANSIT;
  op_others : forall x, x <> q_vehicle_id rq -> q_replacement_vehicle_id rq <> Some x -> vehicles s' !! x = vehicles s !! x;
}.

Lemma open_inv rq s c s' : open_case rq s = Ok (c, s') -> opened rq s s'.
Proof.
  unfold open_case. cbv zeta. intros (v0 & Hv & E)%result_bind_ok.
  destruct (units s !! q_rescue_unit_id rq) as [u|] eqn:U; [|done]. destruct (String.eqb_spec (unit_status u) "AVAILABLE") as [Us|]; [cbn [of_option mbind result_bind] in E|done].
  destruct (free_bay s) as [[code b]|] eqn:Fb; [cbn [of_option mbind result_bind fst] in E|done]. apply free_bay_some in Fb as [Lb Bs].
  apply result_bind_ok in E as (s1 & E1 & E). apply transition_inv in E1 as (v & cur & L & V & T & ->).
  apply result_bind_ok in E as (s2 & E2 & E). apply transition_inv in E2 as (v1 & cur1 & L1 & V1 & T1 & ->). cbn [moved_vehicle vehicles with_history set_vehicle with_vehicles] in L1.
  rewrite lookup_insert_eq in L1. injection L1 as <-.
  apply result_bind_ok in E as (s3 & E3 & E). apply update_vehicle_inv in E3 as (v2 & L2 & ->). cbn [moved_vehicle vehicles with_history set_vehicle with_vehicles] in L2.
  rewrite lookup_insert_eq in L2. injection L2 as <-.
  apply result_bind_ok in E as (s4 & E4 & E). apply dispatch_replacement_inv in E4 as (Em & Eo & Eu & Eb & Ev). cbn in Em, Eo, Eu, Eb.
  apply result_bind_ok in E as (s5 & E5 & E). apply insert_mission_inv in E5 as (Nm & -> & _).
  apply result_bind_ok in E as (s6 & E6 & E). apply insert_order_inv in E6 as (No & -> & Fr).
  apply result_bind_ok in E as (s7 & E7 & E). apply update_vehicle_inv in E7 as (v5 & L5 & ->). apply with_case_inv in E. cbn in L5, No, Fr, Nm. rewrite Em, Eo in *.
  assert (Rep : forall id, q_replacement_vehicle_id rq = Some id -> id <> q_vehicle_id rq).
  { intros id Q ->. rewrite Q in Ev. destruct Ev as ((v6 & L6 & I6) & _). cbn in L6. rewrite lookup_insert_eq in L6. injection L6 as <-. cbn in I6. done. }
  assert (St : exists v', vehicles s4 !! q_vehicle_id rq = Some v' /\ v_status v' = value WAITING_RESCUE).
  { destruct (q_replacement_vehicle_id rq) as [id|] eqn:Q; [destruct Ev as (_ & _ & Ev); rewrite (Ev (q_vehicle_id rq)) by (intros E8; by apply (Rep _ eq_refl))|rewrite Ev];
      cbn; eexists; (split; [apply lookup_insert_eq|done]). }
  destruct St as (v' & Lv' & Vs'). rewrite Lv' in L5. injection L5 as <-.
  assert (Evs : vehicles s' = <[q_vehicle_id rq := vehicle_order (Some (order_no (new_order rq code (next_id (map (fun x => o_id x.2) (map_to_list (orders s))))))) None v']> (vehicles s4)).
  { subst s'. cbn. destruct (q_replacement_vehicle_id rq) as [id|]; [destruct (String.eqb id "")|]; reflexivity. }
  assert (Sm : missions s' = <[q_task_id rq := new_mission rq (next_id (map (fun x => m_id x.2) (map_to_list (missions s))))]> (missions s) /\
    orders s' = <[q_task_id rq := new_order rq code (next_id (map (fun x => o_id x.2) (map_to_list (orders s))))]> (orders s) /\
    units s' = <[q_rescue_unit_id rq := {| unit_status := "DISPATCHED"; unit_node_id := unit_node_id u |}]> (units s) /\
    bays s' = <[code := {| bay_status := "RESERVED"; current_order_no := Some (order_no (new_order rq code (next_id (map (fun x => o_id x.2) (map_to_list (orders s)))))) |}]> (bays s)).
  { subst s'. rewrite <- Em, <- Eo, <- Eu, <- Eb. destruct (q_replacement_vehicle_id rq) as [id|]; [destruct (String.eqb id "")|]; by split_and!. }
  destruct Sm as (Sm & So & Su & Sb). split.
  - eexists _, _, code, b, u. cbv zeta. split_and!; try done. eexists. rewrite Evs. split; [apply lookup_insert_eq|]. by split.
  - exists v. split; [done|]. rewrite V. eapply leaves_operation; [exact T|by left].
  - intros id Q. pose proof (Rep id Q) as N. rewrite Q in Ev. destruct Ev as ((v6 & L6 & I6) & (v7 & L7 & I7) & _). cbn in L6. rewrite !lookup_insert_ne in L6 by done.
    split; [done|]. split; [by exists v6|]. exists v7. by rewrite Evs, lookup_insert_ne.
  - intros x N Q. rewrite Evs, lookup_insert_ne by done. destruct (q_replacement_vehicle_id rq) as [id|] eqn:Qr.
    + destruct Ev as (_ & _ & Ev). rewrite Ev by congruence. cbn. by rewrite !lookup_insert_ne.
    + rewrite Ev. cbn. by rewrite !lookup_insert_ne.
Qed.

Lemma opened_wf rq s s' : wf s -> opened rq s s' -> wf s'.
Proof.
  intros W [(i & j & code & b & u & Nm & No & Em & Eo & Fr & U & Us & Eu & B & Bs & Eb & v' & V' & Vs' & Vn') (v & V & Vi) Rp Ot]. cbv zeta in *.
  set (t := q_task_id rq) in *. set (m := new_mission rq i) in *. set (r := new_order rq code j) in *.
  assert (Pres : forall x, is_Some (vehicles s !! x) -> is_Some (vehicles s' !! x)).
  { intros x P. destruct (decide (x = q_vehicle_id rq)) as [->|N]; [by exists v'|]. destruct (decide (q_replacement_vehicle_id rq = Some x)) as [Q|Nq].
    - destruct (Rp x Q) as (_ & _ & v2 & L & _). by exists v2.
    - by rewrite Ot. }
  (* an open case does not use the vehicles, the unit or the bay of the new one *)
  assert (Old : forall t2 m2 r2, missions s !! t2 = Some m2 -> orders s !! t2 = Some r2 -> consistent s m2 r2 -> consistent s' m2 r2).
  { intros t2 m2 r2 M2 O2 C2. apply (consistent_frame s); [done| | | |].
    - intros Op. destruct (co_phase _ _ _ C2) as (p & P1 & P2). destruct (open_phase _ _ _ Op P1) as [st ->]. destruct (P2 st eq_refl) as (v2 & L2 & S2 & _).
      pose proof (phase_in_operation _ _ _ P1) as In. apply Ot.
      + intros E. rewrite E, V in L2. injection L2 as <-. by rewrite S2, In in Vi.
      + intros Q. destruct (Rp _ Q) as (_ & (v3 & L3 & I3) & _). rewrite L2 in L3. injection L3 as <-. by rewrite S2, In in I3.
    - apply Pres, (co_present _ _ _ C2).
    - intros A. destruct (co_unit _ _ _ C2 A) as (u2 & L2 & S2). rewrite Eu. apply lookup_insert_ne. intros E. rewrite <- E, U in L2. congruence.
    - intros c2 Op Q. destruct (co_bay _ _ _ C2 Op) as (c3 & b3 & B3 & L3 & S3 & _). rewrite Eb. apply lookup_insert_ne. intros E. simplify_eq. congruence. }
  assert (New : consistent s' m r).
  { split; try done.
    - exists (Some WAITING_RESCUE). split; [done|]. intros ? [= <-]. by exists v'.
    - intros _. eexists. rewrite Eu. split; [apply lookup_insert_eq|done].
    - intros _. exists code. eexists. split; [done|]. rewrite Eb. split; [apply lookup_insert_eq|]. by split. }
  split.
  - intros t2 m2. rewrite Em, Eo. destruct (decide (t2 = t)) as [->|N]; [rewrite !lookup_insert_eq; intros [= <-]; by exists r|].
    rewrite !lookup_insert_ne by done. intros M2. destruct (wf_cases s W t2 m2 M2) as (r2 & O2 & C2). exists r2. split; [done|]. by eapply Old.
  - intros t2 r2. rewrite Em, Eo. destruct (decide (t2 = t)) as [->|N]; [rewrite !lookup_insert_eq; by eexists|]. rewrite !lookup_insert_ne by done. apply (wf_orders s W).
  - intros t1 t2 r1 r2. rewrite Eo. destruct (decide (t1 = t)) as [->|N1], (decide (t2 = t)) as [->|N2]; rewrite ?lookup_insert_eq, ?lookup_insert_ne by done;
      [done|intros [= <-] O2 E; by destruct (Fr t2 r2 O2)|intros O1 [= <-] E; by destruct (Fr t1 r1 O1)|apply (wf_numbers s W)].
  - assert (X : forall t2 m2, missions s !! t2 = Some m2 -> rescue_active m2 = true -> rescue_unit_id m2 <> q_rescue_unit_id rq).
    { intros t2 m2 M2 A2 E. destruct (wf_cases s W t2 m2 M2) as (r2 & _ & C2). destruct (co_unit _ _ _ C2 A2) as (u2 & L2 & S2). rewrite E, U in L2. congruence. }
    intros t1 t2 m1 m2. rewrite Em. destruct (decide (t1 = t)) as [->|N1], (decide (t2 = t)) as [->|N2]; rewrite ?lookup_insert_eq, ?lookup_insert_ne by done;
      [done|intros [= <-] M2 _ A2 E; by destruct (X t2 m2 M2 A2)|intros M1 [= <-] A1 _ E; by destruct (X t1 m1 M1 A1)|apply (wf_units s W)].
Qed.

Lemma wf_same s s' : wf s -> missions s' = missions s -> orders s' = orders s -> units s' = units s -> bays s' = bays s ->
  (forall x v, vehicles s !! x = Some v -> exists v', vehicles s' !! x = Some v' /\ (in_operation (v_status v) = true -> v' = v)) -> wf s'.
Proof.
  intros W Em Eo Eu Eb Ev. split; rewrite ?Em, ?Eo; [|apply (wf_orders s W)|apply (wf_numbers s W)|apply (wf_units s W)].
  intros t m M. destruct (wf_cases s W t m M) as (r & O & C). exists r. split; [done|]. pose proof (co_present _ _ _ C) as [v V].
  destruct (Ev _ _ V) as (v' & V' & Same). apply (consistent_frame s); [done| |by exists v'|by rewrite Eu|by rewrite Eb].
  intros Op. destruct (co_phase _ _ _ C) as (p & P1 & P2). destruct (open_phase _ _ _ Op P1) as [st ->]. destruct (P2 st eq_refl) as (v2 & V2 & S2 & _).
  rewrite V in V2. injection V2 as <-. rewrite V', V, Same; [done|]. rewrite S2. by eapply phase_in_operation.
Qed.

(** *** One run of the progressor *)
Lemma rescue_run now s : wf s -> exists c s', advance_one_due_rescue now s = (Ok c, s') /\ wf s' /\
  ((forall t m, missions s !! t = Some m -> rescue_active m = true -> forall n, m_next_transition_at m = Some n -> now < n) /\ c = None /\ s' = s \/
   exists t m r r', first_due m_next_transition_at m_id rescue_active now (missions s) = Some (t, m) /\ missions s !! t = Some m /\ rescue_active m = true /\
     missions s' = <[t := mission_moved (rescue_target (m_status m)) ((fun n => column_time (now + seconds n)) <$> rescue_delay (rescue_target (m_status m))) (failure_reason m) m]> (missions s) /\
     orders s !! t = Some r /\ orders s' = <[t := r']> (orders s) /\
     (m_status m = LOADED /\ o_status r = SCHEDULED /\ r' = order_moved WAITING_BAY (Some (column_time (now + seconds 1))) (o_available_after r) (inspection_result r) r \/
      m_status m <> LOADED /\ r' = r)).
Proof.
  intros W. unfold advance_one_due_rescue, transaction. destruct (first_due _ _ _ _ (missions s)) as [[t m]|] eqn:F.
  - pose proof F as (M & A & _)%first_due_some. destruct (rescue_step now t m s W M A) as (c & s' & E & W' & Em & r & r' & O & Eo & D).
    rewrite E. unfold some_case. cbn [mbind result_bind fst snd]. eexists _, s'. split; [done|]. split; [done|]. right. exists t, m, r, r'. by split_and!.
  - exists None, s. split; [done|]. split; [done|]. left. split; [|done]. by apply (first_due_none _ _ _ _ _ F).
Qed.

Lemma maintenance_run now s : wf s -> exists c s', advance_one_due_maintenance now s = (Ok c, s') /\ wf s' /\ missions s' = missions s /\
  ((forall t r, orders s !! t = Some r -> maintenance_active r = true -> forall n, o_next_transition_at r = Some n -> now < n) /\ c = None /\ s' = s \/
   exists t r, orders s !! t = Some r /\ maintenance_active r = true /\ is_Some (o_next_transition_at r) /\ orders s' = <[t := repaired now r]> (orders s)).
Proof.
  intros W. unfold advance_one_due_maintenance, transaction. destruct (first_due _ _ _ _ (orders s)) as [[t r]|] eqn:F.
  - apply first_due_some in F as (O & A & n & N & _). destruct (maintenance_step now t r s W O A) as (c & s' & E & W' & Em & Eo).
    rewrite E. unfold some_case. cbn [mbind result_bind fst snd]. eexists _, s'. split; [done|]. split; [done|]. split; [done|]. right. exists t, r. by split_and!.
  - exists None, s. split; [done|]. split; [done|]. split; [done|]. left. split; [|done]. by apply (first_due_none _ _ _ _ _ F).
Qed.

Lemma open_case_wf rq s : wf s -> wf (transaction (open_case rq) s).2.
Proof. intros W. unfold transaction. destruct (open_case rq s) as [[c s']|e] eqn:E; [|done]. apply open_inv in E. by eapply opened_wf. Qed.

Lemma step_wf s s' : wf s -> step s s' -> wf s'.
Proof.
  intros W [rq|t l|now|now|no now|no passed now who|vs Ev].
  - by apply open_case_wf.
  - unfold update_replacement_route, transaction. destruct (replacement_event t (outbox s)), (missions s !! t); try done.
    destruct (with_case t _) as [[c s1]|e] eqn:E; [|done]. apply with_case_inv in E as ->. apply (wf_same s); try done. intros x v V. by exists v.
  - destruct (rescue_run now s W) as (c & s1 & E & W1 & _). by rewrite E.
  - destruct (maintenance_run now s W) as (c & s1 & E & W1 & _). by rewrite E.
  - by apply retry_wf.
  - destruct (record_inspection no passed now who s) as [x s1] eqn:E. pose proof E as [(t & r & By & Q)|(e & _ & ->)]%inspection_inv; [|done].
    destruct (inspection_run no passed now who s t r W By Q) as (c & s2 & E2 & W2 & _). rewrite E in E2. by injection E2 as -> ->.
  - by apply (wf_same s).
Qed.

(** ** How much is left to do *)
Definition rescue_left (m : RescueMission) : nat := match m_status m with DISPATCHED => 7 | ARRIVED => 6 | LOADED => 5 | _ => 0 end.
Definition order_left (r : MaintenanceOrder) : nat :=
  match o_status r with
  | WAITING_BAY => 4 | DIAGNOSING => 3 | REPAIRING => 2
  | QA_PENDING => match o_next_transition_at r with Some _ => 1 | None => 0 end
  | _ => 0
  end.
Definition weight {A} (f : A -> nat) (rows : gmap string A) : nat := list_sum (map (fun x => f x.2) (map_to_list rows)).
Definition work_left (s : store) : nat := (weight rescue_left (missions s) + weight order_left (orders s))%nat.

Lemma weight_delete {A} (f : A -> nat) (rows : gmap string A) k x : rows !! k = Some x -> weight f rows = (f x + weight f (delete k rows))%nat.
Proof.
  intros L. unfold weight. rewrite <- (insert_delete_id rows k x L) at 1.
  transitivity (list_sum (map (fun x => f x.2) ((k, x) :: map_to_list (delete k rows)))); [|done].
  apply Permutation_list_sum, Permutation_map, map_to_list_insert, lookup_delete_eq.
Qed.

Lemma weight_insert {A} (f : A -> nat) (rows : gmap string A) k x y : rows !! k = Some x -> (weight f (<[k := y]> rows) + f x = weight f rows + f y)%nat.
Proof.
  intros L. rewrite (weight_delete f rows k x L), (weight_delete f (<[k := y]> rows) k y) by apply lookup_insert_eq. rewrite delete_insert_eq. lia.
Qed.

Lemma weight_zero {A} (f : A -> nat) (rows : gmap string A) : (forall k x, rows !! k = Some x -> f x = 0%nat) -> weight f rows = 0%nat.
Proof.
  intros Z. unfold weight. assert (Zl : forall kx, kx ∈ map_to_list rows -> f kx.2 = 0%nat) by (intros [k x] M; by apply (Z k), elem_of_map_to_list).
  induction (map_to_list rows) as [|kx l IH]; [done|]. cbn. rewrite (Zl kx) by left. apply IH. intros y Hy. apply Zl. by right.
Qed.

Lemma weight_zero_inv {A} (f : A -> nat) (rows : gmap string A) k x : weight f rows = 0%nat -> rows !! k = Some x -> f x = 0%nat.
Proof. intros Z L. rewrite (weight_delete f rows k x L) in Z. lia. Qed.

Lemma rescue_left_target m next reason : rescue_active m = true -> (rescue_left (mission_moved (rescue_target (m_status m)) next reason m) < rescue_left m)%nat /\
  (m_status m = LOADED -> (rescue_left (mission_moved (rescue_target (m_status m)) next reason m) + 5 = rescue_left m)%nat).
Proof. unfold rescue_active, rescue_left. destruct (m_status m) eqn:E; try done; intros _; cbn; split; try done; try lia. Qed.

Lemma order_left_repaired now r : maintenance_active r = true -> is_Some (o_next_transition_at r) -> (order_left (repaired now r) < order_left r)%nat.
Proof.
  intros A [n N]. unfold repaired. destruct (awaits_inspection r) eqn:Aw.
  - unfold awaits_inspection in Aw. apply andb_true_iff in Aw as [[Q _]%andb_true_iff _]. apply bool_decide_eq_true in Q. unfold order_left. cbn. rewrite Q, N. lia.
  - unfold maintenance_active in A. unfold order_left at 2. rewrite N. destruct (o_status r); try done; cbn; lia.
Qed.

(** Every time a row is due at, and the length of a repair. *)
Record due_by (b gap : Z) (s : store) : Prop := {
  db_missions : forall t m n, missions s !! t = Some m -> rescue_active m = true -> m_next_transition_at m = Some n -> n <= b;
  db_orders : forall t r, orders s !! t = Some r -> minutes (repair_minutes r) + seconds 1 <= gap /\ forall n, maintenance_active r = true -> o_next_transition_at r = Some n -> n <= b;
}.
Lemma due_later b b' gap s : b <= b' -> due_by b gap s -> due_by b' gap s.
Proof.
  intros L [M O]. split; [intros t m n H1 H2 H3; specialize (M t m n H1 H2 H3); lia|]. intros t r H. destruct (O t r H) as [G D]. split; [done|].
  intros n H1 H2. specialize (D n H1 H2). lia.
Qed.
Lemma column_time_near t : column_time t <= t + 500000.
Proof. unfold column_time. pose proof (Z.mul_div_le (t + 500000) 1000000). lia. Qed.

Lemma repaired_due now r gap n : maintenance_active r = true -> seconds 7 <= gap -> minutes (repair_minutes r) + seconds 1 <= gap -> maintenance_active (repaired now r) = true ->
  o_next_transition_at (repaired now r) = Some n -> n <= now + gap.
Proof.
  unfold repaired, seconds. intros A G M. destruct (awaits_inspection r); [by cbn; intros _ [=]|]. unfold maintenance_active in A.
  destruct (o_status r); try done; cbn; intros _ [= <-]; unfold minutes, seconds in *;
    match goal with |- column_time ?t <= _ => pose proof (column_time_near t) end; lia.
Qed.

(** A run does something or changes nothing, and it does something when it is
    late and there is something to do; what it makes due comes in time. *)
Lemma run_once_works now b gap s : wf s -> due_by b gap s -> seconds 7 <= gap ->
  exists s', run_once now s = (Ok tt, s') /\ wf s' /\ dom (missions s') = dom (missions s) /\
    ((s' = s /\ (b <= now -> work_left s = 0%nat)) \/ ((work_left s' < work_left s)%nat /\ due_by (Z.max b (now + gap)) gap s')).
Proof.
  intros W D Lg. destruct (rescue_run now s W) as (c & s1 & E1 & W1 & D1). destruct (maintenance_run now s1 W1) as (c2 & s2 & E2 & W2 & Em2 & D2).
  exists s2. unfold run_once. rewrite (bind_action_ok _ _ _ _ _ E1), (bind_action_ok _ _ _ _ _ E2). split; [done|]. split; [done|].
  set (b' := Z.max b (now + gap)). pose proof (due_later b b' gap s ltac:(lia) D) as [Dm Do]. destruct D as [Dm0 Do0].
  (* what the rescues did *)
  assert (S1 : due_by b' gap s1 /\ dom (missions s1) = dom (missions s) /\
    ((work_left s1 < work_left s)%nat \/ s1 = s /\ (b <= now -> weight rescue_left (missions s) = 0%nat))).
  { destruct D1 as [(No & _ & ->)|(t & m & r & r' & _ & M & A & Em & O & Eo & Rr)].
    - split; [by split|split; [done|right; split; [done|]]]. intros Lb.
      apply weight_zero. intros t m M. unfold rescue_left. destruct (wf_cases s W t m M) as (r & _ & C).
      destruct (rescue_active m) eqn:A; [|by unfold rescue_active in A; destruct (m_status m)].
      destruct (proj1 (co_due _ _ _ C) A) as [n N]. specialize (No t m M A n N). specialize (Dm0 t m n M A N). lia.
    - split; [|split; [rewrite Em; apply dom_insert_lookup_L; by exists m|left]].
      + split.
        * intros t2 m2 n. rewrite Em. destruct (decide (t2 = t)) as [->|N2]; [|rewrite lookup_insert_ne by done; apply Dm].
          rewrite lookup_insert_eq. intros [= <-] _. cbn. unfold rescue_active in A. destruct (m_status m); try done; cbn; intros [= <-]; unfold seconds in *;
            match goal with |- column_time ?t <= _ => pose proof (column_time_near t) end; lia.
        * intros t2 r2. rewrite Eo.
          destruct (decide (t2 = t)) as [->|N2]; [rewrite lookup_insert_eq; intros [= <-]|rewrite lookup_insert_ne by done; apply Do].
          destruct Rr as [(_ & _ & ->)|(_ & ->)]; [|by apply (Do t r O)]. cbn. split; [by apply (Do t r O)|]. intros n _ [= <-]. pose proof (column_time_near (now + seconds 1)). unfold seconds in *. lia.
      + unfold work_left. rewrite Em, Eo. set (m' := mission_moved _ _ _ m). pose proof (weight_insert rescue_left _ _ _ m' M).
        pose proof (weight_insert order_left _ _ _ r' O). destruct (rescue_left_target m ((fun n => column_time (now + seconds n)) <$> rescue_delay (rescue_target (m_status m))) (failure_reason m) A) as [Lt Eq].
        fold m' in Lt, Eq. destruct Rr as [(Ld & Os & ->)|(_ & ->)]; [specialize (Eq Ld); unfold order_left at 2 4 in H0; rewrite Os in H0; cbn in H0; lia|lia]. }
  destruct S1 as ([Dm1 Do1] & Dom1 & Wk1). split; [by rewrite Em2|].
  destruct D2 as [(No & _ & ->)|(t & r & O & A & [n N] & Eo)].
  - destruct Wk1 as [?|[-> Z]]; [by right|left]. split; [done|]. intros Lb. unfold work_left. rewrite (Z Lb). cbn. apply weight_zero. intros t r O. unfold order_left.
    destruct (o_next_transition_at r) as [n|] eqn:N.
    + destruct (maintenance_active r) eqn:A; [|by unfold maintenance_active in A; destruct (o_status r)]. specialize (No t r O A n N). destruct (Do0 t r O) as [_ D]. specialize (D n A N). lia.
    + destruct (wf_orders s W t r O) as [m M]. destruct (wf_cases s W t m M) as (r0 & O0 & C). rewrite O in O0. injection O0 as <-.
      destruct (maintenance_active r) eqn:A; [|by unfold maintenance_active in A; destruct (o_status r)].
      destruct (proj2 (co_due _ _ _ C) A) as [[? ?]|Aw]; [congruence|]. unfold awaits_inspection in Aw. apply andb_true_iff in Aw as [[Q _]%andb_true_iff _].
      apply bool_decide_eq_true in Q. by rewrite Q.
  - right. split; [|split].
    + assert (work_left s2 < work_left s1)%nat by (unfold work_left; rewrite Em2, Eo; pose proof (weight_insert order_left _ _ _ (repaired now r) O); pose proof (order_left_repaired now r A ltac:(by exists n)); lia).
      destruct Wk1 as [?|[-> _]]; lia.
    + intros t2 m2 n2. rewrite Em2. apply Dm1.
    + intros t2 r2. rewrite Eo. destruct (decide (t2 = t)) as [->|N2]; [rewrite lookup_insert_eq; intros [= <-]|rewrite lookup_insert_ne by done; apply Do1].
      destruct (Do1 t r O) as [Mg _]. split; [unfold repaired; by destruct (awaits_inspection r)|]. intros n2 A2 X. pose proof (repaired_due now r gap n2 A Lg Mg A2 X). lia.
Qed.

Lemma run_once_wf now s : wf s -> exists s', run_once now s = (Ok tt, s') /\ wf s'.
Proof.
  intros W. destruct (rescue_run now s W) as (c & s1 & E1 & W1 & _). destruct (maintenance_run now s1 W1) as (c2 & s2 & E2 & W2 & _).
  exists s2. unfold run_once. by rewrite (bind_action_ok _ _ _ _ _ E1), (bind_action_ok _ _ _ _ _ E2).
Qed.

(** Ticks that come in [n] rounds: each round ends with a tick so late that all
    that was due at its start, or became due since, has become due. *)
Inductive rounds (gap : Z) : Z -> list Z -> nat -> Prop :=
| rounds_over b ticks : rounds gap b ticks 0
| rounds_next b early now ticks n : (forall t, t ∈ early -> t <= now) -> b <= now -> rounds gap (now + gap) ticks n -> rounds gap b (early ++ now :: ticks) (S n).

Lemma run_ticks_app l l' s s1 : run_ticks l s = (Ok tt, s1) -> run_ticks (l ++ l') s = run_ticks l' s1.
Proof.
  revert s. induction l as [|now l IH]; intros s; [by intros [= ->]|]. cbn [run_ticks app]. intros E. apply bind_action_inv in E as [(u & s2 & E1 & E2)|(e & _ & [=])].
  rewrite (bind_action_ok _ _ _ _ _ E1). by apply IH.
Qed.
Lemma foldr_max_spec l : forall t, t ∈ l -> t <= foldr Z.max 0 l.
Proof. induction l as [|x l IH]; intros t; [by intros ?%elem_of_nil|]. cbn. intros [->|I]%elem_of_cons; [lia|]. specialize (IH t I). lia. Qed.
(** Ticks of any kind up to a time: nothing is lost. *)
Lemma run_ticks_any gap x ticks : forall b s, wf s -> due_by b gap s -> seconds 7 <= gap -> (forall t, t ∈ ticks -> t <= x) ->
  exists s', run_ticks ticks s = (Ok tt, s') /\ wf s' /\ dom (missions s') = dom (missions s) /\ (work_left s' <= work_left s)%nat /\ due_by (Z.max b (x + gap)) gap s' /\
    (s' = s \/ (work_left s' < work_left s)%nat).
Proof.
  induction ticks as [|now ticks IH]; intros b s W D Lg T.
  { exists s. split_and!; [done..| |by left]. apply (due_later b); [lia|done]. }
  assert (T0 := T now ltac:(by left)). destruct (run_once_works now b gap s W D Lg) as (s1 & E & W1 & Dm1 & Wk).
  assert (D1 : due_by (Z.max b (x + gap)) gap s1).
  { destruct Wk as [[-> _]|[_ Dx]]; [apply (due_later b); [lia|done]|]. eapply due_later; [|exact Dx]. lia. }
  destruct (IH _ s1 W1 D1 Lg) as (s2 & E2 & W2 & Dm2 & Le & D2 & Wk2); [intros t I; apply T; by right|].
  exists s2. cbn [run_ticks]. rewrite (bind_action_ok _ _ _ _ _ E). split_and!; [done|done|congruence| | |].
  - destruct Wk as [[-> _]|[? _]]; lia.
  - by rewrite Z.max_l in D2 by lia.
  - destruct Wk as [[-> _]|[? _]]; [done|right; lia].
Qed.
Lemma run_rounds gap b ticks n : rounds gap b ticks n -> forall s, wf s -> due_by b gap s -> seconds 7 <= gap ->
  exists s', run_ticks ticks s = (Ok tt, s') /\ wf s' /\ dom (missions s') = dom (missions s) /\ (work_left s' <= work_left s - n)%nat.
Proof.
  induction 1 as [b ticks|b early now ticks n T Lb R IH]; intros s W D Lg.
  - destruct (run_ticks_any gap (foldr Z.max 0 ticks) ticks b s W D Lg (foldr_max_spec ticks)) as (s' & E & W' & Dm & Le & _). exists s'. split_and!; [done..|lia].
  - destruct (run_ticks_any gap now early b s W D Lg T) as (s1 & E1 & W1 & Dm1 & Le1 & D1 & Wk1).
    assert (S2 : exists s2, run_once now s1 = (Ok tt, s2) /\ wf s2 /\ dom (missions s2) = dom (missions s1) /\ (work_left s2 <= work_left s - 1)%nat /\ due_by (now + gap) gap s2).
    { destruct Wk1 as [->|Lt].
      - destruct (run_once_works now b gap s W D Lg) as (s2 & E & W2 & Dm2 & Wk). exists s2. split_and!; [done..| |].
        + destruct Wk as [[-> Z]|[? _]]; [rewrite Z by done|]; lia.
        + destruct Wk as [[-> _]|[_ Dx]]; [apply (due_later b); [unfold seconds in Lg; lia|done]|]. eapply due_later; [|exact Dx]. unfold seconds in Lg. lia.
      - assert (D1' : due_by (now + gap) gap s1) by (eapply due_later; [|exact D1]; unfold seconds in Lg; lia).
        destruct (run_once_works now (now + gap) gap s1 W1 D1' Lg) as (s2 & E & W2 & Dm2 & Wk). exists s2. split_and!; [done..| |].
        + destruct Wk as [[-> _]|[? _]]; lia.
        + destruct Wk as [[-> _]|[_ Dx]]; [done|]. eapply due_later; [|exact Dx]. lia. }
    destruct S2 as (s2 & E2 & W2 & Dm2 & Le2 & D2). destruct (IH s2 W2 D2 Lg) as (s3 & E3 & W3 & Dm3 & Le3).
    exists s3. rewrite (run_ticks_app _ _ _ _ E1). cbn [run_ticks]. rewrite (bind_action_ok _ _ _ _ _ E2). split_and!; [done|done|congruence|lia].
Qed.

(** A loop that polls: its ticks are in order, and from every instant it is at
    most [poll] until the next one, up to some time. *)
Definition polls (poll b until : Z) (ticks : list Z) : Prop :=
  StronglySorted Z.le ticks /\ forall x, b <= x <= until -> exists now, now ∈ ticks /\ x <= now <= x + poll.
Lemma polls_rounds gap poll n : 0 < gap -> 0 <= poll -> forall b ticks, polls poll b (b + Z.of_nat n * (gap + poll)) ticks -> rounds gap b ticks n.
Proof.
  intros G P. induction n as [|n IH]; intros b ticks [S H]; [constructor|]. destruct (H b ltac:(lia)) as (now & I & L).
  apply list_elem_of_split in I as (early & later & ->). apply StronglySorted_app in S as (A & _ & S). inversion S as [|? ? S' F]; subst.
  constructor; [intros t I; apply A; [done|by left]|lia|]. apply IH. split; [done|]. intros x X.
  destruct (H x) as (y & Y & L2); [nia|]. exists y. split; [|done]. apply elem_of_app in Y as [Y|[->|Y]%elem_of_cons]; [|lia|done].
  specialize (A y now Y ltac:(by left)). lia.
Qed.

(** An order that needs an inspection by hand, under a run. *)
Lemma repaired_keeps_manual now r : manual_inspection_required r = true -> maintenance_active r = true -> inspection_result r = None ->
  is_open (repaired now r) = true /\ manual_inspection_required (repaired now r) = true.
Proof.
  intros M A I. unfold repaired. destruct (awaits_inspection r) eqn:Aw.
  - unfold maintenance_active in A. unfold is_open. cbn. by destruct (o_status r).
  - unfold awaits_inspection in Aw. rewrite M, I, (bool_decide_eq_true_2 (None = None)) in Aw by done. rewrite !andb_true_r in Aw. apply bool_decide_eq_false in Aw.
    unfold maintenance_active, is_open in *. by destruct (o_status r).
Qed.

Lemma run_once_manual now s s' t r : wf s -> run_once now s = (Ok tt, s') -> orders s !! t = Some r -> manual_inspection_required r = true -> is_open r = true ->
  exists r', orders s' !! t = Some r' /\ manual_inspection_required r' = true /\ is_open r' = true.
Proof.
  intros W E O M Op. destruct (rescue_run now s W) as (c & s1 & E1 & W1 & D1). destruct (maintenance_run now s1 W1) as (c2 & s2 & E2 & W2 & _ & D2).
  unfold run_once in E. rewrite (bind_action_ok _ _ _ _ _ E1), (bind_action_ok _ _ _ _ _ E2) in E. injection E as <-.
  assert (S1 : exists r1, orders s1 !! t = Some r1 /\ manual_inspection_required r1 = true /\ is_open r1 = true).
  { destruct D1 as [(_ & _ & ->)|(t2 & m & r2 & r' & _ & _ & _ & _ & O2 & Eo & Rr)]; [by exists r|]. rewrite Eo.
    destruct (decide (t = t2)) as [->|N]; [|rewrite lookup_insert_ne by done; by exists r]. rewrite O in O2. injection O2 as <-. rewrite lookup_insert_eq. exists r'. split; [done|].
    by destruct Rr as [(_ & _ & ->)|(_ & ->)]. }
  destruct S1 as (r1 & O1 & M1 & Op1). destruct D2 as [(_ & _ & ->)|(t2 & r2 & O2 & A2 & _ & Eo)]; [by exists r1|]. rewrite Eo.
  destruct (decide (t = t2)) as [->|N]; [|rewrite lookup_insert_ne by done; by exists r1]. rewrite O1 in O2. injection O2 as <-. rewrite lookup_insert_eq.
  destruct (wf_orders s1 W1 t2 r1 O1) as [m Mm]. destruct (wf_cases s1 W1 t2 m Mm) as (r0 & O0 & C). rewrite O1 in O0. injection O0 as <-.
  exists (repaired now r1). split; [done|]. destruct (repaired_keeps_manual now r1 M1 A2 (co_inspected _ _ _ C Op1)). by split.
Qed.

Lemma run_ticks_manual ticks : forall s x s' t r, wf s -> run_ticks ticks s = (x, s') -> orders s !! t = Some r -> manual_inspection_required r = true -> is_open r = true ->
  wf s' /\ exists r', orders s' !! t = Some r' /\ is_open r' = true.
Proof.
  induction ticks as [|now ticks IH]; intros s x s' t r W E O M Op; [injection E as _ <-; split; [done|by exists r]|].
  destruct (run_once_wf now s W) as (s1 & E1 & W1). cbn [run_ticks] in E. rewrite (bind_action_ok _ _ _ _ _ E1) in E.
  destruct (run_once_manual now s s1 t r W E1 O M Op) as (r1 & O1 & M1 & Op1). by eapply IH.
Qed.

Lemma steps_wf s s' : rtc step s s' -> wf s -> wf s'.
Proof. induction 1; [done|]. intros W. by apply IHrtc, (step_wf x). Qed.

(** ** Properties *)

(** C19: Whatever breakdowns, rescues, repairs, inspections and retries are
    performed, and whatever other writers do to vehicles that are not being
    rescued or repaired, every rescue mission keeps its repair order and the
    status of the vehicle agrees with both; two rescues under way never use
    the same rescue unit, and two open orders never the same vehicle or bay. *)
Theorem operations_keep_cases_consistent s s' : wf s -> rtc step s s' ->
  (forall t m, missions s' !! t = Some m -> exists r, orders s' !! t = Some r /\ consistent s' m r) /\
  (forall t1 t2 m1 m2 r1 r2, t1 <> t2 -> missions s' !! t1 = Some m1 -> missions s' !! t2 = Some m2 -> orders s' !! t1 = Some r1 -> orders s' !! t2 = Some r2 ->
     (rescue_active m1 = true -> rescue_active m2 = true -> rescue_unit_id m1 <> rescue_unit_id m2) /\
     (is_open r1 = true -> is_open r2 = true -> o_vehicle_id r1 <> o_vehicle_id r2 /\ bay_code r1 <> bay_code r2)).
Proof.
  intros W St. pose proof (steps_wf _ _ St W) as W'. split; [apply (wf_cases s' W')|]. intros t1 t2 m1 m2 r1 r2 N M1 M2 O1 O2.
  destruct (wf_cases s' W' t1 m1 M1) as (x1 & X1 & C1), (wf_cases s' W' t2 m2 M2) as (x2 & X2 & C2). rewrite O1 in X1. rewrite O2 in X2. injection X1 as <-. injection X2 as <-.
  split; [intros A1 A2 E; by apply N; eapply wf_units|]. intros Op1 Op2. split.
  - intros E. rewrite (co_vehicle _ _ _ C1), (co_vehicle _ _ _ C2) in E. by apply N; eapply owns_vehicle.
  - intros E. destruct (co_bay _ _ _ C1 Op1) as (code & b & B & _). by apply N; eapply owns_bay; [| | | | | | | |rewrite <- E].
Qed.

(** C32: The progressor completes every case.  Whenever it runs - every second,
    or less or more often - no run ever raises; and once it has polled, at most
    [poll] apart, for as many times the longest repair and a second (at least
    seven seconds), and [poll] more, as there is work left (at most seven per rescue,
    at most four per repair), no rescue is under way, and every vehicle that was
    towed has its order closed or waits for an inspection by hand. *)
Theorem progressor_completes_cases s b gap poll ticks :
  wf s -> due_by b gap s -> seconds 7 <= gap -> 0 <= poll -> polls poll b (b + Z.of_nat (work_left s) * (gap + poll)) ticks ->
  exists s', run_ticks ticks s = (Ok tt, s') /\ dom (missions s') = dom (missions s) /\
    forall t m, missions s' !! t = Some m -> rescue_active m = false /\
      (m_status m = DELIVERED -> exists r, orders s' !! t = Some r /\ (is_open r = false \/ awaits_inspection r = true)).
Proof.
  intros W D Lg Po Pl. apply polls_rounds in Pl; [|unfold seconds in Lg; lia|done]. destruct (run_rounds gap b ticks _ Pl s W D Lg) as (s' & E & W' & Dm & Wk). exists s'. split; [done|]. split; [done|].
  assert (Z : work_left s' = 0%nat) by lia. unfold work_left in Z. intros t m M. destruct (wf_cases s' W' t m M) as (r & O & C).
  pose proof (weight_zero_inv rescue_left (missions s') t m ltac:(lia) M) as Zm. pose proof (weight_zero_inv order_left (orders s') t r ltac:(lia) O) as Zr.
  split; [unfold rescue_left, rescue_active in *; by destruct (m_status m)|]. intros Ms. exists r. split; [done|].
  destruct (co_phase _ _ _ C) as (p & P & _). rewrite Ms in P. unfold order_left in Zr. unfold is_open. destruct (o_status r) eqn:Os; try done; auto.
  right. destruct (proj2 (co_due _ _ _ C)) as [[n N]|?]; [unfold maintenance_active; by rewrite Os|rewrite N in Zr; done|done].
Qed.

(** A vehicle whose order requires an inspection by hand is never released
    by the progressor, however long it runs. *)
Theorem manual_inspection_is_never_skipped s ticks x s' t m r :
  wf s -> run_ticks ticks s = (x, s') -> missions s !! t = Some m -> orders s !! t = Some r -> manual_inspection_required r = true -> is_open r = true ->
  x = Ok tt /\ exists m' r' v, missions s' !! t = Some m' /\ orders s' !! t = Some r' /\ is_open r' = true /\
    vehicles s' !! m_vehicle_id m' = Some v /\ in_operation (v_status v) = true.
Proof.
  intros W E M O Mi Op. destruct (run_ticks_manual ticks s x s' t r W E O Mi Op) as (W' & r' & O' & Op'). split.
  - clear -W E. revert s W E. induction ticks as [|now ticks IH]; intros s W E; [by injection E as <- _|].
    destruct (run_once_wf now s W) as (s1 & E1 & W1). cbn [run_ticks] in E. rewrite (bind_action_ok _ _ _ _ _ E1) in E. by apply (IH s1).
  - destruct (wf_orders s' W' t r' O') as [m' M']. destruct (wf_cases s' W' t m' M') as (r0 & O0 & C). rewrite O' in O0. injection O0 as <-.
    destruct (co_phase _ _ _ C) as (p & P & Q). destruct (open_phase _ _ _ Op' P) as [st ->]. destruct (Q st eq_refl) as (v & V & S & _).
    exists m', r', v. split_and!; try done. rewrite S. by eapply phase_in_operation.
Qed.

(** The numbers of a mission and its order are made of the date and the
    decimal digits the task id ends in, so two tasks of one day can have the
    same: the later breakdown is then never recorded, whatever is free. *)
Theorem case_number_collision_rejected env rq s t1 m1 :
  missions (env s) !! t1 = Some m1 -> mission_no m1 = mission_no (new_mission rq 0) -> missions s !! q_task_id rq = None ->
  exists e, create_breakdown_case env rq s = (Err e, env s).
Proof.
  intros M1 No N. unfold create_breakdown_case. rewrite N. unfold transaction. destruct (open_case rq (env s)) as [[c s']|e] eqn:E; [|by exists e]. exfalso.
  unfold open_case in E. cbv zeta in E. apply result_bind_ok in E as (v0 & _ & E). apply result_bind_ok in E as (u & _ & E). apply result_bind_ok in E as (bay & _ & E).
  apply result_bind_ok in E as (s1 & E1 & E). apply transition_inv in E1 as (? & ? & _ & _ & _ & ->).
  apply result_bind_ok in E as (s2 & E2 & E). apply transition_inv in E2 as (? & ? & _ & _ & _ & ->).
  apply result_bind_ok in E as (s3 & E3 & E). apply update_vehicle_inv in E3 as (? & _ & ->).
  apply result_bind_ok in E as (s4 & E4 & E). apply dispatch_replacement_inv in E4 as (Em & _). cbn in Em.
  apply result_bind_ok in E as (s5 & E5 & E). apply insert_mission_inv in E5 as (_ & _ & Fr). rewrite Em in Fr. by apply (Fr t1 m1 M1).
Qed.

(** *** Witnesses *)
Definition ex_vehicle (st : string) : FleetVehicle :=
  {| v_status := st; status_reason := None; status_changed_at := None; fault_code := None; available_after := None; maintenance_order_no := None; current_node_id := "N01" |}.
Definition ex_store : store :=
  {| vehicles := <["V1"%string := ex_vehicle "IN_TRANSIT"]> (<["V2"%string := ex_vehicle "AVAILABLE"]> ∅);
     units := <["RU-001"%string := {| unit_status := "AVAILABLE"; unit_node_id := "N15" |}]> (<["RU-002"%string := {| unit_status := "AVAILABLE"; unit_node_id := "N15" |}]> ∅);
     bays := <["A-01"%string := {| bay_status := "AVAILABLE"; current_order_no := None |}]> (<["A-02"%string := {| bay_status := "AVAILABLE"; current_order_no := None |}]> ∅);
     missions := ∅; orders := ∅; history := []; outbox := [] |}.
Definition ex_request (task vehicle unit : string) (manual : bool) : BreakdownCaseRequest :=
  {| q_task_id := task; q_vehicle_id := vehicle; q_replacement_vehicle_id := None; q_rescue_unit_id := unit; q_incident_node_id := "N04"; q_station_node_id := "N15";
     q_outbound_edge_ids := ["E01"%string]; q_tow_edge_ids := ["E02"%string]; q_fault_code := "BRAKE_FAILURE"; q_diagnosis := "?"; q_repair_minutes := 120;
     q_manual_inspection_required := manual; occurred_at := seconds 1753000000; q_replacement_edge_ids := [] |}.
Definition ex_opened (manual : bool) : store := (transaction (open_case (ex_request "TASK-4fa" "V1" "RU-001" manual)) ex_store).2.
Definition ex_ticks : list Z := map (fun n => seconds (1753000000 + 10000 * Z.of_nat n)) (seq 1 7).

Lemma ex_store_wf : wf ex_store.
Proof. split; intros *; cbn; rewrite lookup_empty; done. Qed.

Lemma ex_opened_wf manual : wf (ex_opened manual).
Proof. apply open_case_wf, ex_store_wf. Qed.

Lemma ex_opened_rows manual : exists m r, missions (ex_opened manual) = <["TASK-4fa"%string := m]> ∅ /\ orders (ex_opened manual) = <["TASK-4fa"%string := r]> ∅ /\
  m_next_transition_at m = Some (seconds 1753000008) /\ repair_minutes r = 120 /\ o_next_transition_at r = None /\ o_status r = SCHEDULED /\
  manual_inspection_required r = manual.
Proof. destruct manual; (eexists _, _; split_and!; [vm_compute; reflexivity|vm_compute; reflexivity|reflexivity|reflexivity|reflexivity|reflexivity|reflexivity]). Qed.

Lemma ex_single {A} (rows : gmap string A) k x k' y : rows = <[k := x]> ∅ -> rows !! k' = Some y -> k' = k /\ y = x.
Proof. intros ->. destruct (decide (k' = k)) as [->|N]; [rewrite lookup_insert_eq; by intros [= <-]|by rewrite lookup_insert_ne, lookup_empty]. Qed.

Lemma operations_keep_cases_consistent_witness : exists m r, missions (ex_opened true) !! "TASK-4fa"%string = Some m /\
  orders (ex_opened true) !! "TASK-4fa"%string = Some r /\ consistent (ex_opened true) m r.
Proof.
  assert (St : rtc step ex_store (ex_opened true)) by apply rtc_once, step_open.
  destruct (operations_keep_cases_consistent ex_store (ex_opened true) ex_store_wf St) as [C _].
  destruct (ex_opened_rows true) as (m & r & Em & _). assert (M : missions (ex_opened true) !! "TASK-4fa"%string = Some m) by (rewrite Em; apply lookup_insert_eq).
  destruct (C _ _ M) as (r' & O & Cs). exists m, r'. split; [exact M|]. split; [exact O|exact Cs].
Defined.

(** The loop as it is shipped: a run every second, for fifteen hours. *)
Definition ex_seconds : list Z := map (fun n => seconds (1753000008 + Z.of_nat n)) (seq 0 (Z.to_nat 54000)).
Lemma every_second start n b : seconds start <= b -> polls (seconds 1) b (seconds (start + Z.of_nat n - 2)) (map (fun k => seconds (start + Z.of_nat k)) (seq 0 n)).
Proof.
  intros B. unfold seconds in *. split.
  - generalize 0%nat. clear. induction n as [|n IH]; intros k; [constructor|]. cbn [seq map]. constructor; [apply IH|].
    apply List.Forall_forall. intros x (j & <- & I%in_seq)%in_map_iff. lia.
  - intros x X. set (k := (x + 999999) / 1000000 - start). pose proof (Z.div_mod (x + 999999) 1000000). pose proof (Z.mod_pos_bound (x + 999999) 1000000).
    exists ((start + Z.of_nat (Z.to_nat k)) * 1000000). split; [|lia]. apply list_elem_of_In, in_map_iff. exists (Z.to_nat k). split; [done|]. apply in_seq. lia.
Qed.
Lemma progressor_completes_cases_witness : exists s', run_ticks ex_seconds (ex_opened false) = (Ok tt, s') /\
  exists m, missions s' !! "TASK-4fa"%string = Some m /\ rescue_active m = false.
Proof.
  destruct (ex_opened_rows false) as (m & r & Em & Eo & Nm & Rm & No & _).
  destruct (progressor_completes_cases (ex_opened false) (seconds 1753000008) (minutes 120 + seconds 1) (seconds 1) ex_seconds) as (s' & E & D & C).
  - apply ex_opened_wf.
  - split.
    + intros t m' n M _ N. destruct (ex_single _ _ _ _ _ Em M) as [_ ->]. rewrite Nm in N. injection N as <-. lia.
    + intros t r' O. destruct (ex_single _ _ _ _ _ Eo O) as [_ ->]. rewrite Rm. split; [lia|]. intros n _ N. rewrite No in N. discriminate N.
  - vm_compute. discriminate.
  - vm_compute. discriminate.
  - destruct (every_second 1753000008 (Z.to_nat 54000) (seconds 1753000008) ltac:(lia)) as [S P]. split; [exact S|]. intros x [X1 X2]. apply P. split; [exact X1|].
    replace (work_left (ex_opened false)) with 7%nat in X2 by (vm_compute; reflexivity). rewrite Z2Nat.id by lia. unfold seconds, minutes in *. unfold seconds in *. lia.
  - exists s'. split; [exact E|]. assert (In : "TASK-4fa"%string ∈ dom (missions s')) by (rewrite D, Em; set_solver). apply elem_of_dom in In as [m' M'].
    exists m'. split; [exact M'|]. apply (C _ _ M').
Defined.

Lemma manual_inspection_is_never_skipped_witness : exists s' m' v, run_ticks ex_ticks (ex_opened true) = (Ok tt, s') /\
  vehicles s' !! m_vehicle_id m' = Some v /\ in_operation (v_status v) = true.
Proof.
  destruct (ex_opened_rows true) as (m & r & Em & Eo & _ & _ & _ & St & Mi). destruct (run_ticks ex_ticks (ex_opened true)) as [x s'] eqn:E.
  destruct (manual_inspection_is_never_skipped (ex_opened true) ex_ticks x s' "TASK-4fa" m r (ex_opened_wf true) E) as (-> & m' & r' & v & _ & _ & _ & V & I).
  - rewrite Em. apply lookup_insert_eq.
  - rewrite Eo. apply lookup_insert_eq.
  - exact Mi.
  - unfold is_open. rewrite St. reflexivity.
  - exists s', m', v. split; [reflexivity|]. split; [exact V|exact I].
Defined.

(** The second task of the day whose id ends in a letter: with a free unit, a
    free bay and a vehicle on the road, the number is taken. *)
Lemma case_number_collision_rejected_witness :
  (exists e, create_breakdown_case id (ex_request "TASK-9bc" "V2" "RU-002" false) (ex_opened false) = (Err e, ex_opened false)) /\
  (create_breakdown_case id (ex_request "TASK-9bc" "V2" "RU-002" false) (ex_opened false)).1 = Err IntegrityError.
Proof.
  split; [|vm_compute; reflexivity]. destruct (ex_opened_rows false) as (m & r & Em & _).
  apply (case_number_collision_rejected id _ (ex_opened false) "TASK-4fa"%string m).
  - cbn [id]. rewrite Em. apply lookup_insert_eq.
  - assert (L : missions (ex_opened false) !! "TASK-4fa"%string = Some m) by (rewrite Em; apply lookup_insert_eq).
    vm_compute in L. injection L as <-. vm_compute. reflexivity.
  - rewrite Em. vm_compute. reflexivity.
Defined.
