(* ===== verification/Breakdown.v ===== *)
(** * Breakdown: opening a rescue case, and showing it

    Models the application side of [app/vehicle_operations]: the inspection
    policy ([inspection.py]), the orchestration of a breakdown over a path
    finder ([service.py]), the mapping of an approved dispatch to it
    ([dispatch_bridge.py]), and of the query service ([query_service.py]) the
    routes, stages and details shown for a case.  The tables are those of
    VehicleOperations, the road network and its path finder those of
    RoadNetwork.  Texts are compared in upper case as ASCII. *)

From S2P Require Import Prelude RoadNetwork VehicleOperations.
From S2P Require Streams.

Local Open Scope Z_scope.
Local Open Scope list_scope.

(** ** The inspection policy *)
Definition manual_fault_codes : list string := ["BRAKE_FAILURE"; "STEERING_FAILURE"; "ACCIDENT"; "INJURY"]%string.
Definition normalized (s : string) : string := upper (strip s).
Definition requires_manual (cargo_type severity fault : string) : bool :=
  one_of (normalized fault) manual_fault_codes
  || (String.eqb (normalized cargo_type) "COLD_CHAIN" && String.eqb (normalized severity) "CRITICAL").

(** ** Orchestration *)
Record BreakdownOrchestrationInput := {
  b_task_id : string;
  b_vehicle_id : string;
  b_replacement_vehicle_id : option string;
  b_incident_node_id : string;
  b_cargo_type : string;
  b_severity : string;
  b_fault_code : string;
}.
(** What the service is constructed with, and the answer of the road network. *)
Record orchestrator := {
  o_rescue_unit_id : string;
  rescue_node_id : string;
  maintenance_node_id : string;
  road_snapshot : result RoadNetworkSnapshot;
}.
Definition RescueRouteUnavailable (m : string) : exn := Exn "RescueRouteUnavailable" m.
Definition no_rescue_route : exn := RescueRouteUnavailable "Persisted road topology has no safe rescue/tow route.".
Definition no_pickup_route : exn := RescueRouteUnavailable "Persisted road topology has no safe replacement pickup route.".
Definition rescue_weight_tons : Q := 9 # 2.
Definition diagnosis_of (fault : string) : string :=
  if String.eqb fault "ENGINE_COOLING" then "发动机冷却系统故障"
  else if String.eqb fault "BRAKE_FAILURE" then "制动系统故障，必须人工安全复核"
  else if String.eqb fault "STEERING_FAILURE" then "转向系统故障，必须人工安全复核"
  else "动力系统故障，等待维修诊断".

Definition lift {A} (r : result A) : action store A := fun s => (r, s).
Definition query {A} (f : store -> result A) : action store A := fun s => (f s, s).

Section orchestrate.
Context `{PathFinder} (o : orchestrator) (env : store -> store) (now : Z).

Definition fastest (s : RoadNetworkSnapshot) (a b : string) : result (option PathResult) := path_find s a b FASTEST rescue_weight_tons ∅.

Definition required_path (e : exn) (p : result (option PathResult)) : result PathResult := x ← p; of_option e x.

(** The request a new case is opened with. *)
Definition breakdown_request (c : BreakdownOrchestrationInput) (outbound tow replacement : list string) : BreakdownCaseRequest :=
  let fault := normalized (b_fault_code c) in
  {| q_task_id := b_task_id c; q_vehicle_id := b_vehicle_id c; q_replacement_vehicle_id := b_replacement_vehicle_id c; q_rescue_unit_id := o_rescue_unit_id o;
     q_incident_node_id := b_incident_node_id c; q_station_node_id := maintenance_node_id o; q_outbound_edge_ids := outbound; q_tow_edge_ids := tow;
     q_fault_code := fault; q_diagnosis := diagnosis_of fault; q_repair_minutes := 120;
     q_manual_inspection_required := requires_manual (b_cargo_type c) (b_severity c) fault; occurred_at := now; q_replacement_edge_ids := replacement |}.

Definition orchestrate (c : BreakdownOrchestrationInput) : action store OperationCaseSnapshot :=
  (do existing <- query (get_case (b_task_id c));
   match existing with
   | Some k =>
       match replacement_vehicle_id k, replacement_edge_ids k with
       | Some vehicle, [] =>
           do s <- lift (road_snapshot o);
           do origin <- query (vehicle_node vehicle);
           do p <- lift (required_path no_pickup_route (fastest s origin (incident_node_id (ms_row (mission k)))));
           update_replacement_route (b_task_id c) (path_edge_ids p)
       | _, _ => ret_action k
       end
   | None =>
       do s <- lift (road_snapshot o);
       do outbound <- lift (fastest s (rescue_node_id o) (b_incident_node_id c));
       do tow <- lift (fastest s (b_incident_node_id c) (maintenance_node_id o));
       match outbound, tow with
       | Some out, Some tow =>
           do replacement <-
             match b_replacement_vehicle_id c with
             | None => ret_action []
             | Some vehicle =>
                 do origin <- query (vehicle_node vehicle);
                 do p <- lift (required_path no_pickup_route (fastest s origin (b_incident_node_id c)));
                 ret_action (path_edge_ids p)
             end;
           create_breakdown_case env (breakdown_request c (path_edge_ids out) (path_edge_ids tow) replacement)
       | _, _ => raise_action no_rescue_route
       end
   end)%action.
End orchestrate.

(** ** The bridge from an approved dispatch *)

(** [_fault_code]: the Chinese words are searched as they are. *)
Definition fault_code_of (description : string) : string :=
  let up := upper description in
  if contains "制动" description || contains "刹车" description || contains "BRAKE" up then "BRAKE_FAILURE"
  else if contains "转向" description || contains "方向" description || contains "STEERING" up then "STEERING_FAILURE"
  else if contains "冷却" description || contains "水温" description || contains "COOLING" up then "ENGINE_COOLING"
  else "POWERTRAIN_FAILURE".

(** The columns read of the rows of a task. *)
Record AnomalyRow := { a_incident_node_id : option string; description : string; severity : string }.
Record DispatchRow := { original_vehicle_id : option string; target_vehicle_id : option string; transfer_node_id : option string }.
Record TaskContext := {
  task_order_id : Z;
  order_cargo_type : option (option string);   (* the order, if it exists *)
  anomaly : option AnomalyRow;
  dispatch : option DispatchRow;
}.
Definition ContextMissing (what : string) : exn := Exn "VehicleBreakdownContextMissing" what.

Definition some_text (x : option string) : option string := match x with Some s => if String.eqb s "" then None else Some s | None => None end.

Definition breakdown_input (task : option TaskContext) (m : Streams.DispatchTaskMessage) : result BreakdownOrchestrationInput :=
  t ← of_option (ContextMissing (Streams.task_id m)) task;
  cargo ← of_option (ContextMissing ("order:" +:+ z_str (task_order_id t))) (order_cargo_type t);
  let original := match dispatch t ≫= (fun d => some_text (original_vehicle_id d)) with Some v => v | None => Streams.vehicle_id (Streams.payload m) end in
  let target := dispatch t ≫= target_vehicle_id in
  let node := match anomaly t ≫= (fun a => some_text (a_incident_node_id a)) with
              | Some n => n
              | None => match dispatch t ≫= (fun d => some_text (transfer_node_id d)) with Some n => n | None => "N04"%string end
              end in
  let text := match anomaly t with Some a => description a | None => Streams.anomaly_description (Streams.payload m) end in
  Ok {| b_task_id := Streams.task_id m; b_vehicle_id := original;
        b_replacement_vehicle_id := if bool_decide (target = Some original) then None else target; b_incident_node_id := node;
        b_cargo_type := or_else cargo "GENERAL"; b_severity := match anomaly t with Some a => severity a | None => "HIGH"%string end;
        b_fault_code := fault_code_of text |}.

Definition handle_approved_breakdown `{PathFinder} (o : orchestrator) (env : store -> store) (now : Z) (task : option TaskContext) (m : Streams.DispatchTaskMessage)
    : action store unit :=
  (do c <- lift (breakdown_input task m); do _ <- orchestrate o env now c; ret_action tt)%action.

(** ** What is shown of a case *)

(** [_ordered_route_nodes], over the ends of each edge. *)
Section routes.
Context (edge_by_id : gmap string (string * string)).

Fixpoint follow (current : string) (ids : list string) : option (list string) :=
  match ids with
  | [] => Some []
  | i :: ids' =>
      match edge_by_id !! i with
      | None => None
      | Some (a, b) =>
          if String.eqb a current then cons b <$> follow b ids'
          else if String.eqb b current then cons a <$> follow a ids'
          else None
      end
  end.
Definition nodes_from (start : string) (ids : list string) : list string := match follow start ids with Some l => start :: l | None => [] end.

Definition ordered_route_nodes (ids : list string) (start finish : option string) : list string :=
  match ids with
  | [] => []
  | _ =>
      let backwards := match start, finish with None, Some _ => true | _, _ => false end in
      let ordered := if backwards then rev ids else ids in
      match ordered with
      | [] => []
      | i :: _ =>
          match edge_by_id !! i with
          | None => []
          | Some (from, _) =>
              let current := default from (if backwards then finish else start) in
              let l := nodes_from current ordered in
              if backwards then rev l else l
          end
      end
  end.

Record RouteView := { kind : string; edge_ids : list string; node_ids : list string; route_status : string }.
Definition route_views (c : OperationCaseSnapshot) : list RouteView :=
  let m := ms_row (mission c) in
  let view kind ids status start finish := {| kind := kind; edge_ids := ids; node_ids := ordered_route_nodes ids start finish; route_status := status |} in
  let interrupted := match edge_by_id !! "E03"%string with Some _ => ["E03"%string] | None => [] end in
  [view "REPLACEMENT"%string (replacement_edge_ids c) "ACTIVE"%string None (Some (incident_node_id m));
   view "RESCUE"%string (outbound_edge_ids m) (value (m_status m)) None (Some (incident_node_id m));
   view "TOW"%string (tow_edge_ids m) (value (m_status m)) (Some (incident_node_id m)) None;
   view "INTERRUPTED"%string interrupted "INTERRUPTED"%string None None].
End routes.

(** [_stages]: the titles are left out. *)
Definition stages (c : OperationCaseSnapshot) : list (string * string) :=
  let rescue := m_status (ms_row (mission c)) in
  let repair := o_status (os_row (maintenance c)) in
  [("SAFE_STOP", "COMPLETED");
   ("REPLACEMENT", match some_text (replacement_vehicle_id c) with Some _ => "COMPLETED" | None => "SKIPPED" end);
   ("RESCUE", match rescue with DELIVERED => "COMPLETED" | R_FAILED => "FAILED" | R_CANCELLED => "CANCELLED" | R_CREATED => "WAITING" | _ => "ACTIVE" end);
   ("MAINTENANCE", match repair with COMPLETED => "COMPLETED" | FAILED => "FAILED" | CANCELLED => "CANCELLED"
                   | _ => if bool_decide (rescue = DELIVERED) then "ACTIVE" else "WAITING" end)]%string.

Definition incident_status (c : OperationCaseSnapshot) : string :=
  if bool_decide (o_status (os_row (maintenance c)) = COMPLETED) then "RECOVERED" else "AUTO_PROCESSING".

Definition event_label (e : string) : string :=
  match List.find (fun kv => String.eqb kv.1 e)
    [("VEHICLE_STOPPED", "发现故障，车辆已安全停车"); ("REPLACEMENT_DISPATCHED", "系统分配替代车辆接管配送"); ("RESCUE_DISPATCHED", "道路救援车辆已出发");
     ("MAINTENANCE_SCHEDULED", "维修工位已预留"); ("RESCUE_ARRIVED", "救援车辆已抵达故障点"); ("VEHICLE_LOADED", "故障车辆已装载拖运");
     ("TOW_DELIVERED", "故障车辆已送达维修站"); ("MAINTENANCE_DIAGNOSING", "维修人员开始故障诊断"); ("MAINTENANCE_REPAIRING", "车辆开始维修");
     ("MAINTENANCE_QA_PENDING", "维修完成，等待安全质检"); ("MAINTENANCE_COMPLETED", "安全质检通过，维修工单完成");
     ("MAINTENANCE_FAILED", "维修或安全质检未通过"); ("MAINTENANCE_CANCELLED", "维修工单已取消"); ("RESCUE_RETRIED", "道路救援任务已重新派发");
     ("VEHICLE_AVAILABLE", "质检通过，车辆自动恢复可调度"); ("VEHICLE_OUT_OF_SERVICE", "质检未通过，车辆停止运营"); ("INSPECTION_DECIDED", "安全质检结果已确认")]%string
  with
  | Some kv => kv.2
  | None => String.string_of_list_ascii (map (fun c => if Nat.eqb (Ascii.nat_of_ascii c) 95 then Ascii.ascii_of_nat 32 else c) (String.list_ascii_of_string e))
  end.

(** [_rescue] and [_maintenance]. *)
Record RescueView := { rv_mission : RescueMission; rv_progress : Z }.
Record MaintenanceView := { mv_order : MaintenanceOrder; mv_progress : Z; countdown_seconds : option Z }.
Definition rescue_view (c : OperationCaseSnapshot) : RescueView :=
  {| rv_mission := ms_row (mission c); rv_progress := rescue_progress_percent (m_status (ms_row (mission c))) |}.
Definition maintenance_view (c : OperationCaseSnapshot) (now : Z) : MaintenanceView :=
  {| mv_order := os_row (maintenance c); mv_progress := maintenance_progress_percent (o_status (os_row (maintenance c)));
     countdown_seconds := seconds_remaining (os_row (maintenance c)) now |}.

Definition get_rescue_mission (no : string) (s : store) : result RescueView :=
  tm ← of_option (NotFound no) (by_mission_no no s);
  k ← get_case tm.1 s;
  c ← of_option (Exn "AssertionError" "") k; Ok (rescue_view c).
Definition get_maintenance_order (no : string) (now : Z) (s : store) : result MaintenanceView :=
  tr ← of_option (NotFound no) (by_order_no no s);
  k ← get_case tr.1 s;
  c ← of_option (Exn "AssertionError" "") k; Ok (maintenance_view c now).
Definition list_maintenance_orders (now : Z) (s : store) : result (list MaintenanceView) :=
  map_result (fun no => get_maintenance_order no now s) (map (fun x => order_no x.2) (sorted_key_desc (fun x => o_id x.2) (map_to_list (orders s)))).
Definition query_record_inspection (no : string) (passed : bool) (subject_id : string) (decided shown : Z) : action store MaintenanceView :=
  (do c <- record_inspection no passed decided subject_id; ret_action (maintenance_view c shown))%action.
(** Only the assignee of a task sees its map. *)
Definition driver_sees (assignee : option (option string)) (subject_id task : string) : result unit :=
  match assignee with Some (Some a) => if String.eqb a subject_id then Ok tt else Err (NotFound task) | _ => Err (NotFound task) end.

(** ** Opening a case over the road network *)
Section orchestration.
Context `{PathFinderLaws} (o : orchestrator) (env : store -> store) (now : Z).

(** The edges of a route that was found can all be driven. *)
Definition drivable (s : RoadNetworkSnapshot) (ids : list string) : Prop :=
  forall i, i ∈ ids -> exists e, e ∈ edges s /\ edge_id e = i /\ is_available e rescue_weight_tons ∅ = true.

Lemma fastest_drivable s a b p : fastest s a b = Ok (Some p) -> drivable s (path_edge_ids p).
Proof. intros E i I. by eapply pf_available. Qed.

Lemma required_path_ok e s a b p : required_path e (fastest s a b) = Ok p -> fastest s a b = Ok (Some p).
Proof. unfold required_path. intros (x & -> & E)%result_bind_ok. destruct x; simpl in E; [by injection E as ->|done]. Qed.

Lemma lift_inv {A} (r : result A) s x s' : lift r s = (x, s') -> x = r /\ s' = s.
Proof. by intros [= <- <-]. Qed.
Lemma query_inv {A} (f : store -> result A) s x s' : query f s = (x, s') -> x = f s /\ s' = s.
Proof. by intros [= <- <-]. Qed.

Lemma create_new_inv rq s c s' : missions s !! q_task_id rq = None -> create_breakdown_case env rq s = (Ok c, s') -> opened rq (env s) s'.
Proof.
  unfold create_breakdown_case. intros ->. unfold transaction. destruct (open_case rq (env s)) as [[k s1]|e] eqn:E; [|done]. intros [= _ <-]. by eapply open_inv.
Qed.

Lemma orchestrate_new c s k s' : missions s !! b_task_id c = None -> orchestrate o env now c s = (Ok k, s') ->
  exists net out tow replacement, road_snapshot o = Ok net /\
    fastest net (rescue_node_id o) (b_incident_node_id c) = Ok (Some out) /\ fastest net (b_incident_node_id c) (maintenance_node_id o) = Ok (Some tow) /\
    match b_replacement_vehicle_id c with
    | None => replacement = []
    | Some v => exists node p, vehicle_node v s = Ok node /\ fastest net node (b_incident_node_id c) = Ok (Some p) /\ replacement = path_edge_ids p
    end /\
    opened (breakdown_request o now c (path_edge_ids out) (path_edge_ids tow) replacement) (env s) s'.
Proof.
  intros N E. unfold orchestrate in E.
  apply bind_action_inv in E as [(x & s1 & E1 & E)|(e & _ & [=])]; apply query_inv in E1 as [E1 ->]; unfold get_case in E1; rewrite N in E1; injection E1 as ->.
  apply bind_action_inv in E as [(net & s1 & E1 & E)|(e & _ & [=])]; apply lift_inv in E1 as [E1 ->].
  apply bind_action_inv in E as [(out & s1 & E2 & E)|(e & _ & [=])]; apply lift_inv in E2 as [E2 ->].
  apply bind_action_inv in E as [(tow & s1 & E3 & E)|(e & _ & [=])]; apply lift_inv in E3 as [E3 ->].
  destruct out as [out|]; [|done]. destruct tow as [tow|]; [|done].
  apply bind_action_inv in E as [(rep & s1 & E4 & E)|(e & _ & [=])].
  assert (Rp : s1 = s /\ match b_replacement_vehicle_id c with None => rep = []
    | Some v => exists node p, vehicle_node v s = Ok node /\ fastest net node (b_incident_node_id c) = Ok (Some p) /\ rep = path_edge_ids p end).
  { destruct (b_replacement_vehicle_id c) as [v|]; [|by injection E4 as <- <-].
    apply bind_action_inv in E4 as [(node & s2 & E5 & E4)|(e & _ & [=])]; apply query_inv in E5 as [E5 ->].
    apply bind_action_inv in E4 as [(p & s2 & E6 & E4)|(e & _ & [=])]; apply lift_inv in E6 as [E6 ->].
    injection E4 as <- <-. split; [done|]. exists node, p. split; [done|]. split; [by eapply required_path_ok|done]. }
  destruct Rp as [-> Rp]. apply create_new_inv in E; [|done]. by exists net, out, tow, rep.
Qed.
End orchestration.

(** ** Drawing a route *)
Section drawing.
Context (edge_by_id : gmap string (string * string)).

(** [joined u ids ns]: the edges [ids] lead from [u] through the nodes [ns]. *)
Definition joins (i u v : string) : Prop := exists a b, edge_by_id !! i = Some (a, b) /\ ((a = u /\ b = v) \/ (a = v /\ b = u)).
Inductive joined : string -> list string -> list string -> Prop :=
| joined_nil u : joined u [] []
| joined_cons u v i ids ns : joins i u v -> joined v ids ns -> joined u (i :: ids) (v :: ns).

Lemma follow_joined u ids ns : follow edge_by_id u ids = Some ns <-> joined u ids ns.
Proof.
  split.
  - revert u ns. induction ids as [|i ids IH]; intros u ns; simpl; [intros [= <-]; constructor|].
    destruct (edge_by_id !! i) as [[a b]|] eqn:L; [|done]. destruct (String.eqb_spec a u) as [->|N].
    + intros (ns' & F & ->)%fmap_Some. constructor; [exists u, b; auto|by apply IH].
    + destruct (String.eqb_spec b u) as [->|]; [|done]. intros (ns' & F & ->)%fmap_Some. constructor; [exists a, u; auto|by apply IH].
  - induction 1 as [|u v i ids ns (a & b & L & J) _ IH]; [done|]. simpl. rewrite L. destruct J as [[-> ->]|[-> ->]].
    + by rewrite String.eqb_refl, IH.
    + destruct (String.eqb_spec v u) as [->|]; [by rewrite IH|]. by rewrite String.eqb_refl, IH.
Qed.

Lemma last_default {A} (x : A) l d d' : List.last (x :: l) d = List.last (x :: l) d'.
Proof. revert x. induction l as [|y l IH]; intros x; [done|]. apply (IH y). Qed.

Lemma joined_snoc u ids ns i v : joined u ids ns -> joins i (List.last (u :: ns) u) v -> joined u (ids ++ [i]) (ns ++ [v]).
Proof.
  induction 1 as [u|u w j ids ns J Jd IH]; intros K; [by repeat constructor|]. simpl. constructor; [done|]. apply IH.
  change (List.last (u :: w :: ns) u) with (List.last (w :: ns) u) in K. by rewrite (last_default w ns w u).
Qed.

Lemma joins_sym i u v : joins i u v -> joins i v u.
Proof. intros (a & b & L & J). exists a, b. tauto. Qed.

(** Walked the other way. *)
Lemma joined_rev u ids ns : joined u ids ns -> exists ms, rev (u :: ns) = List.last (u :: ns) u :: ms /\ joined (List.last (u :: ns) u) (rev ids) ms.
Proof.
  induction 1 as [u|u v i ids ns J Jd (ms & R & Jr)]; [exists []; by split; [|constructor]|].
  assert (El : List.last (u :: v :: ns) u = List.last (v :: ns) v) by (change (List.last (v :: ns) u = List.last (v :: ns) v); apply last_default).
  exists (ms ++ [u]). rewrite El. split; [change (rev (u :: v :: ns)) with (rev (v :: ns) ++ [u]); by rewrite R|].
  change (rev (i :: ids)) with (rev ids ++ [i]). apply joined_snoc; [done|].
  assert (Lv : List.last (List.last (v :: ns) v :: ms) (List.last (v :: ns) v) = v).
  { rewrite <- R. change (rev (v :: ns)) with (rev ns ++ [v]). apply last_last. }
  rewrite Lv. by apply joins_sym.
Qed.
End drawing.

(** ** Properties *)

(** A case that is opened for a breakdown is opened along routes that can
    be driven: from the rescue unit to the incident and from there to the
    maintenance station, and from the replacement to the incident, every edge
    recorded is an edge of the road network that is open and carries the
    rescue vehicle; the replacement is another vehicle and was not in
    operation, and the order needs an inspection by hand exactly when the
    policy says so. *)
Theorem breakdown_routes_are_drivable `{PathFinderLaws} o env now c s k s' :
  missions s !! b_task_id c = None -> orchestrate o env now c s = (Ok k, s') ->
  exists net m r, road_snapshot o = Ok net /\ missions s' !! b_task_id c = Some m /\ orders s' !! b_task_id c = Some r /\
    drivable net (outbound_edge_ids m) /\ drivable net (tow_edge_ids m) /\
    (exists out tow, path_edge_ids out = outbound_edge_ids m /\ head (path_node_ids out) = Some (rescue_node_id o) /\ last (path_node_ids out) = Some (b_incident_node_id c) /\
       path_edge_ids tow = tow_edge_ids m /\ head (path_node_ids tow) = Some (b_incident_node_id c) /\ last (path_node_ids tow) = Some (maintenance_node_id o)) /\
    manual_inspection_required r = requires_manual (b_cargo_type c) (b_severity c) (normalized (b_fault_code c)) /\
    forall v, b_replacement_vehicle_id c = Some v -> v <> b_vehicle_id c /\
      exists row, vehicles (env s) !! v = Some row /\ in_operation (v_status row) = false.
Proof.
  intros N E. destruct (orchestrate_new o env now c s k s' N E) as (net & out & tow & rep & Net & P1 & P2 & P3 & Op).
  pose proof Op as [(i & j & code & b & u & _ & _ & Em & Eo & _) _ Rp _]. cbv zeta in Em, Eo. eexists net, _, _. split; [done|].
  rewrite Em, Eo. cbn [q_task_id breakdown_request]. rewrite !lookup_insert_eq. split; [done|]. split; [done|].
  split; [by eapply fastest_drivable|]. split; [by eapply fastest_drivable|]. split.
  - exists out, tow. split; [done|]. destruct (pf_ends _ _ _ _ _ _ _ P1) as [A1 A2], (pf_ends _ _ _ _ _ _ _ P2) as [B1 B2]. by split_and!.
  - split; [done|]. intros v Q. destruct (Rp v Q) as (D & Old & _). by split.
Qed.

(** A brake or steering failure is never repaired and released without an
    inspection by hand: when the description of an approved breakdown names
    one, the vehicle is not back in service however long the progressor runs. *)
Theorem brake_failures_wait_for_inspection `{PathFinderLaws} o env now task msg c s s' ticks x s'' :
  wf (env s) -> missions s !! Streams.task_id msg = None -> breakdown_input task msg = Ok c ->
  b_fault_code c = "BRAKE_FAILURE"%string \/ b_fault_code c = "STEERING_FAILURE"%string ->
  handle_approved_breakdown o env now task msg s = (Ok tt, s') -> run_ticks ticks s' = (x, s'') ->
  exists m v, missions s'' !! Streams.task_id msg = Some m /\ vehicles s'' !! m_vehicle_id m = Some v /\ in_operation (v_status v) = true.
Proof.
  intros W N Bi Fc E R. unfold handle_approved_breakdown in E.
  apply bind_action_inv in E as [(c' & s1 & E1 & E)|(e & _ & [=])]; apply lift_inv in E1 as [E1 ->]. rewrite Bi in E1. injection E1 as ->.
  apply bind_action_inv in E as [(k & s1 & E2 & [= ->])|(e & _ & [=])].
  assert (Tk : b_task_id c = Streams.task_id msg).
  { unfold breakdown_input in Bi. apply result_bind_ok in Bi as (t & _ & Bi). apply result_bind_ok in Bi as (cg & _ & Bi). by injection Bi as <-. }
  rewrite <- Tk in *. destruct (orchestrate_new o env now c s k s' N E2) as (net & out & tow & rep & _ & _ & _ & _ & Op).
  assert (Wf : wf s') by (by eapply opened_wf). pose proof Op as [(i & j & code & b & u & _ & _ & Em & Eo & _) _ _ _]. cbv zeta in Em, Eo. cbn [q_task_id breakdown_request] in Em, Eo.
  destruct (run_ticks_manual ticks s' x s'' (b_task_id c) (new_order (breakdown_request o now c (path_edge_ids out) (path_edge_ids tow) rep) code j) Wf R) as (W2 & r' & O' & Op').
  - rewrite Eo. apply lookup_insert_eq.
  - cbn. unfold requires_manual. by destruct Fc as [-> | ->].
  - done.
  - destruct (wf_orders s'' W2 _ r' O') as [m' M']. destruct (wf_cases s'' W2 _ m' M') as (r0 & O0 & C). rewrite O' in O0. injection O0 as <-.
    destruct (co_phase _ _ _ C) as (p & P & Q). destruct (open_phase _ _ _ Op' P) as [st ->]. destruct (Q st eq_refl) as (v & V & S & _).
    exists m', v. split_and!; try done. rewrite S. by eapply phase_in_operation.
Qed.

(** A route is drawn as it is travelled: for edges that lead from [u]
    through the nodes [ns], the nodes drawn are these, whether they are
    ordered from the start or backwards from the end. *)
Theorem drawn_route_is_the_walk (edge_by_id : gmap string (string * string)) u ids ns : joined edge_by_id u ids ns -> ids <> [] ->
  ordered_route_nodes edge_by_id ids (Some u) None = u :: ns /\
  ordered_route_nodes edge_by_id ids None (Some (List.last (u :: ns) u)) = u :: ns.
Proof.
  intros J Ne. destruct (joined_rev edge_by_id u ids ns J) as (ms & R & Jr). apply follow_joined in J as F, Jr as Fr. unfold ordered_route_nodes, nodes_from. split.
  - destruct ids as [|i ids]; [done|]. inversion J as [|? v ? ? ns' (a & b & L & _) _]; subst. rewrite L. change (default a (Some u)) with u. by rewrite F.
  - destruct ids as [|i0 ids0]; [done|]. destruct (rev (i0 :: ids0)) as [|i ids] eqn:Er; [by apply (f_equal (rev (A:=string))) in Er; rewrite rev_involutive in Er|].
    inversion Jr as [|? v ? ? ns' (a & b & L & _) _]; subst. rewrite L. change (default a (Some (List.last (u :: ns) u))) with (List.last (u :: ns) u). rewrite Fr, <- R. apply rev_involutive.
Qed.

(** *** Witnesses *)
Definition ex_orchestrator : orchestrator :=
  {| o_rescue_unit_id := "RU-001"; rescue_node_id := "A"; maintenance_node_id := "D"; road_snapshot := Ok ex_network |}.
Definition ex_context : TaskContext :=
  {| task_order_id := 1; order_cargo_type := Some None; anomaly := Some {| a_incident_node_id := Some "C"%string; description := "Brake pedal soft"; severity := "HIGH" |};
     dispatch := Some {| original_vehicle_id := Some "V1"%string; target_vehicle_id := None; transfer_node_id := None |} |}.
Definition ex_input : BreakdownOrchestrationInput :=
  {| b_task_id := "t1"; b_vehicle_id := "V1"; b_replacement_vehicle_id := None; b_incident_node_id := "C"; b_cargo_type := "GENERAL"; b_severity := "HIGH";
     b_fault_code := "BRAKE_FAILURE" |}.

Lemma breakdown_routes_are_drivable_witness : exists k s' m, orchestrate ex_orchestrator id (seconds 1753000000) ex_input ex_store = (Ok k, s') /\
  missions s' !! "t1"%string = Some m /\ drivable ex_network (outbound_edge_ids m) /\ drivable ex_network (tow_edge_ids m).
Proof.
  destruct (orchestrate ex_orchestrator id (seconds 1753000000) ex_input ex_store) as [[k|e] s'] eqn:E; [|vm_compute in E; discriminate E].
  destruct (breakdown_routes_are_drivable ex_orchestrator id (seconds 1753000000) ex_input ex_store k s' eq_refl E) as (net & m & r & [= <-] & M & _ & D1 & D2 & _).
  exists k, s', m. split; [reflexivity|]. split; [exact M|]. split; [exact D1|exact D2].
Defined.

Lemma brake_failures_wait_for_inspection_witness : exists s' s'' m v,
  handle_approved_breakdown ex_orchestrator id (seconds 1753000000) (Some ex_context) Streams.ex_message ex_store = (Ok tt, s') /\
  run_ticks ex_ticks s' = (Ok tt, s'') /\ vehicles s'' !! m_vehicle_id m = Some v /\ in_operation (v_status v) = true.
Proof.
  destruct (handle_approved_breakdown ex_orchestrator id (seconds 1753000000) (Some ex_context) Streams.ex_message ex_store) as [[[]|e] s'] eqn:E;
    [|vm_compute in E; discriminate E].
  assert (R : (run_ticks ex_ticks s').1 = Ok tt) by (vm_compute in E; injection E as <-; vm_compute; reflexivity).
  destruct (run_ticks ex_ticks s') as [x s''] eqn:T. cbn in R. subst x.
  destruct (brake_failures_wait_for_inspection ex_orchestrator id (seconds 1753000000) (Some ex_context) Streams.ex_message ex_input ex_store s' ex_ticks (Ok tt) s'' ex_store_wf eq_refl)
    as (m & v & _ & V & I); [vm_compute; reflexivity|left; reflexivity|exact E|exact T|].
  exists s', s'', m, v. split; [reflexivity|]. split; [exact T|]. split; [exact V|exact I].
Defined.

Definition ex_ends : gmap string (string * string) := <["E1"%string := ("A", "B")%string]> (<["E2"%string := ("C", "B")%string]> ∅).
Lemma drawn_route_is_the_walk_witness : joined ex_ends "A" ["E1"; "E2"]%string ["B"; "C"]%string /\
  ordered_route_nodes ex_ends ["E1"; "E2"]%string None (Some "C"%string) = ["A"; "B"; "C"]%string.
Proof.
  assert (J : joined ex_ends "A" ["E1"; "E2"]%string ["B"; "C"]%string) by (apply follow_joined; vm_compute; reflexivity).
  split; [exact J|]. exact (proj2 (drawn_route_is_the_walk ex_ends "A" ["E1"; "E2"]%string ["B"; "C"]%string J ltac:(discriminate))).
Defined.
