(* ===== verification/DecimalText.v ===== *)
(** * DecimalText: decimals read from text

    Models [Decimal(str)] of the standard library for the finite numbers,
    infinities and NaNs that JSON documents and graph states carry as text, and
    the ordering of such values; a number written with a fixed number of digits
    after the point reads back.  ASCII digits are read; exponents beyond the
    module's limits are left out. *)

From S2P Require Import Prelude Texts Decimal.

Local Open Scope Z_scope.
Local Open Scope list_scope.

Inductive decimal :=
| Finite (q : Q)
| Infinite (negative : bool)
| NaN.

Definition chars : string -> list Ascii.ascii := String.list_ascii_of_string.

Definition is_char (code : nat) (c : Ascii.ascii) : bool := Nat.eqb (Ascii.nat_of_ascii c) code.
Definition digit_value (c : Ascii.ascii) : option Z :=
  let n := Z.of_nat (Ascii.nat_of_ascii c) in if (48 <=? n) && (n <=? 57) then Some (n - 48) else None.

(** The digits a text starts with: their value, their number, and the rest. *)
Fixpoint read_digits (acc : Z) (count : nat) (l : list Ascii.ascii) : Z * nat * list Ascii.ascii :=
  match l with
  | c :: l' => match digit_value c with Some d => read_digits (10 * acc + d) (S count) l' | None => (acc, count, l) end
  | [] => (acc, count, [])
  end.

Definition read_sign (l : list Ascii.ascii) : bool * list Ascii.ascii :=
  match l with
  | c :: l' => if is_char 45 c then (true, l') else if is_char 43 c then (false, l') else (false, l)
  | [] => (false, [])
  end.

(** The exponent after the digits. *)
Definition read_exponent (l : list Ascii.ascii) : option Z :=
  match l with
  | [] => Some 0
  | c :: l' =>
      if is_char 101 c || is_char 69 c then
        let (neg, l1) := read_sign l' in
        match read_digits 0 0 l1 with
        | (n, S _, []) => Some (if neg : bool then - n else n)
        | _ => None
        end
      else None
  end.

Definition signed (neg : bool) (q : Q) : Q := if neg then (- q)%Q else q.

Definition read_number (l : list Ascii.ascii) : option Q :=
  match read_digits 0 0 l with
  | (n, k, rest) =>
      match rest with
      | c :: rest' =>
          if is_char 46 c then
            match read_digits n 0 rest' with
            | (m, j, rest2) =>
                if Nat.eqb (k + j) 0 then None
                else (fun e => (inject_Z m * pow10 (e - Z.of_nat j))%Q) <$> read_exponent rest2
            end
          else if Nat.eqb k 0 then None else (fun e => (inject_Z n * pow10 e)%Q) <$> read_exponent rest
      | [] => if Nat.eqb k 0 then None else Some (inject_Z n)
      end
  end.

(** A text without the digits it starts with. *)
Fixpoint drop_digits (l : list Ascii.ascii) : list Ascii.ascii :=
  match l with c :: l' => match digit_value c with Some _ => drop_digits l' | None => l end | [] => [] end.

(** [Decimal(text)], which leaves underscores out and lets digits follow a NaN; [None] is the [InvalidOperation] of a text that is no number. *)
Definition decimal_of_text (s : string) : option decimal :=
  let (neg, l) := read_sign (List.filter (fun c => negb (is_char 95 c)) (chars (strip s))) in
  let name := upper (String.string_of_list_ascii l) in
  if one_of name ["INF"; "INFINITY"]%string then Some (Infinite neg)
  else if one_of (upper (String.string_of_list_ascii (drop_digits (rev l)))) ["NAN"; "NANS"]%string then Some NaN
  else (fun q => Finite (signed neg q)) <$> read_number l.

(** [a >= b]; a NaN cannot be ordered. *)
Definition decimal_ge (a b : decimal) : result bool :=
  match a, b with
  | NaN, _ | _, NaN => Err InvalidOperation
  | Infinite n, Infinite m => Ok (negb n || m)
  | Infinite n, Finite _ => Ok (negb n)
  | Finite _, Infinite m => Ok m
  | Finite x, Finite y => Ok (Qle_bool y x)
  end.

(** ** A fixed-point text reads back *)
Lemma read_pretty_char x acc k l : (x < 10)%N -> read_digits acc k (pretty_N_char x :: l) = read_digits (10 * acc + Z.of_N x) (S k) l.
Proof. intros H. assert (x = 0 \/ x = 1 \/ x = 2 \/ x = 3 \/ x = 4 \/ x = 5 \/ x = 6 \/ x = 7 \/ x = 8 \/ x = 9)%N as D by lia. by repeat destruct D as [->|D]; subst. Qed.

Definition is_digit (c : Ascii.ascii) : bool := bool_decide (is_Some (digit_value c)).

(** The digits of a positive number, before [s]. *)
Lemma pretty_go_digits x s : exists ds, chars (pretty_N_go x s) = ds ++ chars s /\ forallb is_digit ds = true /\
  (forall acc k l, read_digits acc k (ds ++ l) = read_digits (acc * 10 ^ Z.of_nat (length ds) + Z.of_N x) (k + length ds)%nat l) /\
  (forall w, (0 < w)%nat -> Z.of_N x < 10 ^ Z.of_nat w -> (length ds <= w)%nat) /\ ((0 < x)%N -> ds <> []).
Proof.
  revert s. induction (N.lt_wf_0 x) as [x _ IH]; intros s. destruct (decide (x = 0%N)) as [->|X].
  - exists []. rewrite pretty_N_go_0. split; [done|]. split; [done|]. split; [intros acc k l; f_equal; simpl; lia|]. split; [simpl; lia|lia].
  - rewrite pretty_N_go_step by lia. destruct (IH (x / 10)%N ltac:(apply N.div_lt; lia) (String (pretty_N_char (x mod 10)) s)) as (ds & E & D & R & L & _).
    pose proof (N.div_mod x 10 ltac:(done)) as DM. pose proof (N.mod_lt x 10 ltac:(done)) as M.
    exists (ds ++ [pretty_N_char (x mod 10)]). split; [|split; [|split; [|split]]].
    + rewrite E. unfold chars. cbn. by rewrite <- app_assoc.
    + rewrite forallb_app, D. simpl. assert (Y : forall y, (y < 10)%N -> is_digit (pretty_N_char y) = true).
      { intros y H. assert (y = 0 \/ y = 1 \/ y = 2 \/ y = 3 \/ y = 4 \/ y = 5 \/ y = 6 \/ y = 7 \/ y = 8 \/ y = 9)%N as Z by lia. by repeat destruct Z as [->|Z]; subst. }
      by rewrite Y.
    + intros acc k l. rewrite <- app_assoc. simpl. rewrite R, read_pretty_char by done. rewrite length_app. simpl. f_equal; [|lia].
      rewrite Nat2Z.inj_add, Z.pow_add_r by lia. assert (Z.of_N x = 10 * Z.of_N (x / 10) + Z.of_N (x mod 10)) by lia. lia.
    + intros w W H. rewrite length_app. simpl. destruct (decide (w = 1%nat)) as [->|W1].
      * change (10 ^ Z.of_nat 1) with 10 in H. assert (x / 10 = 0)%N as Z by (apply N.div_small; lia). rewrite Z in L. destruct ds; [simpl; lia|].
        exfalso. specialize (R 0 0%nat []). rewrite Z in E. rewrite pretty_N_go_0 in E. apply (f_equal length) in E. unfold chars in E. simpl in E. rewrite length_app in E. simpl in E. lia.
      * assert (length ds <= w - 1)%nat; [|lia]. apply L; [lia|]. replace (Z.of_nat w) with (Z.of_nat (w - 1) + 1) in H by lia. rewrite Z.pow_add_r, Z.pow_1_r in H by lia. clear - DM M H. revert DM M H. generalize (x / 10)%N (x mod 10)%N (10 ^ Z.of_nat (w - 1)). intros; lia.
    + destruct ds; done.
Qed.

Lemma z_str_digits z : 0 <= z -> exists ds, chars (z_str z) = ds /\ forallb is_digit ds = true /\ ds <> [] /\
  (forall acc k l, read_digits acc k (ds ++ l) = read_digits (acc * 10 ^ Z.of_nat (length ds) + z) (k + length ds)%nat l) /\
  (forall w, (0 < w)%nat -> z < 10 ^ Z.of_nat w -> (length ds <= w)%nat).
Proof.
  intros H. destruct z as [|p|p]; [| |lia].
  - exists (chars "0"). split_and!; [done..| |simpl; lia]. intros acc k l. change (10 ^ Z.of_nat (length (chars "0"))) with 10. replace (acc * 10 + 0) with (10 * acc + Z.of_N 0) by lia. rewrite Nat.add_comm. exact (read_pretty_char 0 acc k l eq_refl).
  - destruct (pretty_go_digits (Npos p) "") as (ds & E & D & R & L & N). exists ds. split; [|split; [done|split; [by apply N|split; [exact R|exact L]]]].
    change (z_str (Zpos p)) with (pretty (Npos p)). unfold pretty, pretty_N. destruct (decide (Npos p = 0%N)); [done|]. rewrite E. unfold chars. simpl. by rewrite app_nil_r.
Qed.

(** Digits, with a sign and a point. *)
Definition numeral (c : Ascii.ascii) : bool := is_digit c || is_char 45 c || is_char 46 c.

Lemma numeral_no_prefix spaces s : forallb (fun w => match chars w with c :: _ => negb (numeral c) | [] => false end) spaces = true ->
  match chars s with c :: _ => numeral c = true | [] => True end -> no_prefix spaces s.
Proof.
  intros W S. unfold no_prefix. destruct (List.find _ spaces) as [w|] eqn:F; [|done]. exfalso. apply find_some in F as [Hw P]. apply string_prefix_app in P as (t & ->).
  rewrite forallb_forall in W. apply W in Hw. destruct w as [|c w]; [done|]. cbn in Hw, S. by rewrite S in Hw.
Qed.

Lemma numeral_strip s : forallb numeral (chars s) = true -> strip s = s.
Proof.
  intros H. unfold strip. cbn zeta. rewrite (strip_prefix_fixed _ _ s), (strip_prefix_fixed _ _ (reversed s)).
  - apply reversed_involutive.
  - apply numeral_no_prefix; [vm_compute; reflexivity|]. unfold chars, reversed. rewrite String.list_ascii_of_string_of_list_ascii.
    fold (chars s). destruct (rev (chars s)) as [|c l] eqn:E; [done|]. rewrite forallb_forall in H. apply H. apply in_rev. rewrite E. by left.
  - apply numeral_no_prefix; [vm_compute; reflexivity|]. destruct (chars s) as [|c l]; [done|]. simpl in H. by apply andb_true_iff in H as [H _].
Qed.

Lemma chars_app s t : chars (s +:+ t) = chars s ++ chars t.
Proof. apply list_of_app. Qed.
Lemma chars_length s : length (chars s) = String.length s.
Proof. induction s; simpl; congruence. Qed.

Lemma read_zeros n acc k l : read_digits acc k (chars (String.concat "" (repeat "0"%string n)) ++ l) = read_digits (acc * 10 ^ Z.of_nat n) (k + n)%nat l.
Proof.
  revert acc k. induction n as [|n IH]; intros acc k; [cbn; f_equal; lia|]. replace (chars (String.concat "" (repeat "0"%string (S n)))) with (chars "0" ++ chars (String.concat "" (repeat "0"%string n))) by (destruct n; done).
  change (chars "0") with [pretty_N_char 0]. cbn [app]. rewrite read_pretty_char, IH by done. f_equal; [|lia]. replace (Z.of_nat (S n)) with (1 + Z.of_nat n) by lia. rewrite Z.pow_add_r by lia. lia.
Qed.
Lemma zeros_digits n : forallb is_digit (chars (String.concat "" (repeat "0"%string n))) = true /\ length (chars (String.concat "" (repeat "0"%string n))) = n.
Proof.
  induction n as [|n [IH L]]; [done|]. replace (chars (String.concat "" (repeat "0"%string (S n)))) with (chars "0" ++ chars (String.concat "" (repeat "0"%string n))) by (destruct n; done).
  split; [by rewrite forallb_app, IH|]. rewrite length_app, L. done.
Qed.

(** The digits after the point. *)
Lemma zero_pad_digits w z : (0 < w)%nat -> 0 <= z < 10 ^ Z.of_nat w ->
  forallb is_digit (chars (zero_pad w (z_str z))) = true /\
  forall acc k l, read_digits acc k (chars (zero_pad w (z_str z)) ++ l) = read_digits (acc * 10 ^ Z.of_nat w + z) (k + w)%nat l.
Proof.
  intros W [Z0 Z1]. destruct (z_str_digits z Z0) as (ds & E & D & _ & R & L). specialize (L w W Z1). unfold zero_pad. rewrite chars_app, <- chars_length, E.
  destruct (zeros_digits (w - length ds)) as [A B]. split; [by rewrite forallb_app, A, D|]. intros acc k l. rewrite <- app_assoc, read_zeros, R. f_equal; [|lia].
  rewrite <- Z.mul_assoc, <- Z.pow_add_r by lia. do 3 f_equal. lia.
Qed.

Lemma half_even_of x m : (x == inject_Z m)%Q -> half_even x = m.
Proof. intros E. apply Z.le_antisymm; [apply half_even_le_Z|apply half_even_ge_Z]; rewrite E; apply Qle_refl. Qed.

Lemma read_digits_stop acc k c l : is_digit c = false -> read_digits acc k (c :: l) = (acc, k, c :: l).
Proof. unfold is_digit. intros H. simpl. destruct (digit_value c); [done|done]. Qed.
Lemma drop_digits_app l m : forallb is_digit l = true -> drop_digits (l ++ m) = drop_digits m.
Proof.
  induction l as [|c l IH]; [done|]. simpl. unfold is_digit at 1. intros [H1 H2]%andb_true_iff. destruct (digit_value c); [by apply IH|done].
Qed.
Lemma digit_numeral c : is_digit c = true -> numeral c = true.
Proof. unfold numeral. by intros ->. Qed.
Lemma forallb_weaken {A} (p q : A -> bool) l : (forall x, p x = true -> q x = true) -> forallb p l = true -> forallb q l = true.
Proof. intros H. rewrite !forallb_forall. auto. Qed.
Lemma numeral_not_underscore c : numeral c = true -> is_char 95 c = false.
Proof. intros H. destruct (is_char 95 c) eqn:E; [|done]. apply Nat.eqb_eq in E. rewrite <- (Ascii.ascii_nat_embedding c), E in H. by vm_compute in H. Qed.
Lemma digit_code c : is_digit c = true -> (48 <= Ascii.nat_of_ascii c <= 57)%nat.
Proof. unfold is_digit, digit_value. cbn zeta. destruct (_ && _) eqn:E; [|done]. intros _. lia. Qed.


(** The text of a number with a point has no special name in it. *)
Lemma decimal_of_numeral t neg ds fs : chars t = (if neg : bool then chars "-" else []) ++ ds ++ chars "." ++ fs ->
  forallb is_digit ds = true -> ds <> [] -> forallb is_digit fs = true ->
  decimal_of_text t = (fun q => Finite (signed neg q)) <$> read_number (ds ++ chars "." ++ fs).
Proof.
  intros C DD DN FD. set (l := ds ++ chars "." ++ fs) in *.
  assert (NU : forallb numeral (chars t) = true).
  { rewrite C. unfold l. rewrite !forallb_app, (forallb_weaken _ numeral ds digit_numeral DD), (forallb_weaken _ numeral fs digit_numeral FD). by destruct neg. }
  unfold decimal_of_text. rewrite (numeral_strip _ NU).
  assert (F : List.filter (fun c => negb (is_char 95 c)) (chars t) = (if neg then chars "-" else []) ++ l).
  { rewrite <- C. clear -NU. induction (chars t) as [|c l IH]; [done|]. simpl in *. apply andb_true_iff in NU as [N1 N2]. rewrite (numeral_not_underscore c N1). simpl. by rewrite IH. }
  rewrite F. clear F.
  destruct ds as [|d ds]; [done|]. assert (Dd : is_digit d = true) by (simpl in DD; by apply andb_true_iff in DD as [DD _]). pose proof (digit_code d Dd) as B.
  assert (SG : read_sign ((if neg then chars "-" else []) ++ l) = (neg, l)).
  { destruct neg; [done|]. simpl. unfold is_char. destruct (Nat.eqb_spec (Ascii.nat_of_ascii d) 45); [lia|]. destruct (Nat.eqb_spec (Ascii.nat_of_ascii d) 43); [lia|done]. }
  rewrite SG. cbn zeta.
  assert (U : forall x, upper_ascii d = x -> (65 <= Ascii.nat_of_ascii x)%nat -> False).
  { intros x <-. unfold upper_ascii. cbn zeta. destruct (_ && _) eqn:Y; [apply andb_true_iff in Y as [Y _]; apply Nat.leb_le in Y; lia|lia]. }
  destruct (one_of (upper (String.string_of_list_ascii l)) ["INF"; "INFINITY"]%string) eqn:I.
  { exfalso. apply one_of_true in I. unfold upper, l in I. rewrite String.list_ascii_of_string_of_list_ascii in I. cbn in I.
    rewrite !elem_of_cons in I. destruct I as [I|[I|I]]; [| |by apply not_elem_of_nil in I];
      injection I as I _; apply (U _ I); apply Nat.leb_le; reflexivity. }
  assert (DR : exists r, drop_digits (rev l) = Ascii.ascii_of_nat 46 :: r).
  { unfold l. rewrite !rev_app_distr, <- app_assoc. rewrite drop_digits_app; [by eexists|]. rewrite forallb_forall in *. intros x Hx%in_rev. by apply FD. }
  destruct DR as (r & ->). by rewrite String.list_ascii_of_string_of_list_ascii || idtac.
Qed.

(** A number written with [places] digits after the point reads back. *)
Lemma fixed_text places q m : 0 < places -> (q * pow10 places == inject_Z m)%Q ->
  exists r, decimal_of_text (format_fixed places q) = Some (Finite r) /\ (r == q)%Q.
Proof.
  intros P E. set (a := Z.abs m). pose proof (pow10_pos places) as PP.
  assert (S : ((if Qle_bool 0 q then q else - q) * pow10 places == inject_Z a)%Q).
  { unfold a. destruct (Qle_bool 0 q) eqn:S.
    - apply Qle_bool_iff in S. rewrite E. rewrite Z.abs_eq; [done|]. rewrite Zle_Qle, <- E. apply Qmult_le_0_compat; [done|by apply Qlt_le_weak].
    - assert (q < 0)%Q as S' by (apply Qnot_le_lt; rewrite <- Qle_bool_iff; congruence). rewrite Z.abs_neq; [rewrite inject_Z_opp, <- E; ring|].
      rewrite Zle_Qle, <- E. eapply Qle_trans; [apply (Qmult_le_compat_r _ 0); by apply Qlt_le_weak|]. rewrite Qmult_0_l. apply Qle_refl. }
  unfold format_fixed. rewrite (half_even_of _ _ S). cbn zeta.
  assert (A : 0 <= a) by apply Z.abs_nonneg. assert (T : 0 < 10 ^ places) by (apply Z.pow_pos_nonneg; lia).
  destruct (z_str_digits (a / 10 ^ places) ltac:(by apply Z.div_pos)) as (ds & D & DD & DN & R & _).
  destruct (zero_pad_digits (Z.to_nat places) (a mod 10 ^ places)) as [FD FR]; [lia|rewrite Z2Nat.id by lia; by apply Z.mod_pos_bound|].
  rewrite Z2Nat.id in FR by lia. set (fs := chars (zero_pad (Z.to_nat places) (z_str (a mod 10 ^ places)))) in *.
  rewrite (decimal_of_numeral _ (negb (Qle_bool 0 q)) ds fs); [|by rewrite !chars_app, D; destruct (Qle_bool 0 q)|done..].
  assert (RN : read_number (ds ++ chars "." ++ fs) = Some (inject_Z a * pow10 (- places))%Q).
  { unfold read_number. rewrite R. change (chars "." ++ fs) with (Ascii.ascii_of_nat 46 :: fs). rewrite read_digits_stop by done. cbv iota.
    change (is_char 46 (Ascii.ascii_of_nat 46)) with true. cbv iota. rewrite <- (app_nil_r fs) at 1. rewrite FR. cbn [read_digits].
    destruct (Nat.eqb_spec (0 + length ds + (0 + Z.to_nat places)) 0); [lia|]. cbn [read_exponent fmap option_fmap option_map]. f_equal.
    rewrite Z.mul_0_l, Z.add_0_l. f_equal; [f_equal; rewrite (Z.mul_comm (a / _)); symmetry; apply Z.div_mod; lia|]. f_equal. lia. }
  rewrite RN. eexists. split; [done|]. unfold signed. pose proof (pow10_scale q places) as V. destruct (Qle_bool 0 q); cbn [negb]; rewrite <- S; (transitivity (q * pow10 places * pow10 (- places))%Q; [ring|exact V]).
Qed.

(** ** Names that end in a version *)
Lemma chars_inj s t : chars s = chars t -> s = t.
Proof. intros E. rewrite <- (String.string_of_list_ascii_of_string s), <- (String.string_of_list_ascii_of_string t). unfold chars in E. by rewrite E. Qed.
Lemma no_v z : Ascii.ascii_of_nat 118 ∉ chars (z_str z).
Proof.
  assert (P : forall z, 0 <= z -> Ascii.ascii_of_nat 118 ∉ chars (z_str z)).
  { intros y Y. destruct (z_str_digits y Y) as (ds & -> & D & _). intros I%list_elem_of_In. rewrite forallb_forall in D. by specialize (D _ I). }
  destruct z as [|p|p]; [by apply P|by apply P|]. change (chars (z_str (Zneg p))) with (Ascii.ascii_of_nat 45 :: chars (z_str (Zpos p))).
  intros [E|I]%elem_of_cons; [discriminate E|]. by apply (P (Zpos p)) in I.
Qed.
Lemma cut_at {A} (x : A) a b d e : a ++ x :: d = b ++ x :: e -> x ∉ d -> x ∉ e -> a = b /\ d = e.
Proof.
  revert b. induction a as [|y a IH]; intros [|z b]; cbn; intros [=] D E; subst; [done| | |].
  - destruct D. rewrite elem_of_app. right. by left.
  - destruct E. rewrite elem_of_app. right. by left.
  - destruct (IH b) as [-> ->]; done.
Qed.
Definition versioned (prefix name : string) (n : Z) : string := prefix +:+ name +:+ ":v" +:+ z_str n.
Lemma versioned_chars prefix name n :
  chars (versioned prefix name n) = (chars prefix ++ chars name ++ [Ascii.ascii_of_nat 58]) ++ Ascii.ascii_of_nat 118 :: chars (z_str n).
Proof. unfold versioned. rewrite !chars_app, <- !app_assoc. done. Qed.
Lemma versioned_inj prefix s n t m : versioned prefix s n = versioned prefix t m -> s = t /\ n = m.
Proof.
  intros E%(f_equal chars). rewrite !versioned_chars in E. apply cut_at in E as [E1 E2]; [|apply no_v..].
  apply app_inv_head, app_inj_tail in E1 as [E1%chars_inj _]. by apply chars_inj, pretty_Z_inj in E2.
Qed.
