(* ===== verification/Records.v ===== *)
(** * Records: the rows a dispatch leaves behind

    The tables shared by the audit, the manual review, the publication and the
    task API: tasks (the rows of Idempotency), dispatches (the rows of
    Dispatch), audit records ([models/audit.py]), publications
    ([models/dispatch_publication.py]) and the columns read of orders,
    accounts, vehicles and drivers.  A list is in the order of the primary
    key, which is how a query without an order reads it. *)

From S2P Require Import Prelude.
From S2P Require Idempotency Dispatch.

Local Open Scope Z_scope.
Local Open Scope list_scope.

(** ** Rows *)
Record AuditRecord := {
  a_id : Z;
  a_task_id : Z;
  a_dispatch_id : Z;
  a_result : string;
  a_reason : string;
  a_evidence_json : string;
}.
Record DispatchPublication := {
  p_id : Z;
  p_task_id : Z;
  p_dispatch_id : Z;
  p_status : string;
  p_route_id : option string;
  p_route_instruction : option string;
  published_by_subject_id : string;
  published_by_display_name : string;
  published_at : Z;
}.
Record DemoEmployeeAccount := { display_name : string; role : string; is_active : bool }.
Record Order := { origin : string; destination : string }.

Record store := {
  tasks : list Idempotency.DispatchTask;
  dispatches : list Dispatch.Dispatch;
  audits : list AuditRecord;
  publications : list DispatchPublication;
  orders : gmap Z Order;
  accounts : gmap string DemoEmployeeAccount;
  plates : gmap string string;          (* plate_no of a vehicle *)
  driver_names : gmap string string;
}.
Definition with_tasks (s : store) x : store :=
  {| tasks := x; dispatches := dispatches s; audits := audits s; publications := publications s; orders := orders s; accounts := accounts s; plates := plates s; driver_names := driver_names s |}.
Definition with_dispatches (s : store) x : store :=
  {| tasks := tasks s; dispatches := x; audits := audits s; publications := publications s; orders := orders s; accounts := accounts s; plates := plates s; driver_names := driver_names s |}.
Definition with_audits (s : store) x : store :=
  {| tasks := tasks s; dispatches := dispatches s; audits := x; publications := publications s; orders := orders s; accounts := accounts s; plates := plates s; driver_names := driver_names s |}.
Definition with_publications (s : store) x : store :=
  {| tasks := tasks s; dispatches := dispatches s; audits := audits s; publications := x; orders := orders s; accounts := accounts s; plates := plates s; driver_names := driver_names s |}.

Definition IntegrityError : exn := Exn "IntegrityError" "".

(** ** Reading *)
Definition task_by_id (s : store) (tid : string) : option Idempotency.DispatchTask :=
  List.find (fun t => String.eqb (Idempotency.t_task_id t) tid) (tasks s).
(** [.order_by(id.desc()).limit(1)]. *)
Definition latest {A} (p : A -> bool) (l : list A) : option A := List.find p (rev l).
Definition of_task (pk : Z) (d : Dispatch.Dispatch) : bool := Dispatch.d_task_id d =? pk.
Definition dispatch_of_task (s : store) (pk : Z) : option Dispatch.Dispatch := latest (of_task pk) (dispatches s).
Definition about (pk did : Z) (a : AuditRecord) : bool := (a_task_id a =? pk) && (a_dispatch_id a =? did).
Definition publication_of_task (s : store) (pk : Z) : option DispatchPublication := List.find (fun p => p_task_id p =? pk) (publications s).

Definition next_id {A} (id : A -> Z) (l : list A) : Z := foldr Z.max 0 (map id l) + 1.

(** The foreign keys of an audit record. *)
Definition insert_audit (pk did : Z) (result why evidence : string) (s : store) : option (AuditRecord * store) :=
  if existsb (fun t => Idempotency.t_id t =? pk) (tasks s) && existsb (fun d => Dispatch.d_id d =? did) (dispatches s) then
    let a := {| a_id := next_id a_id (audits s); a_task_id := pk; a_dispatch_id := did; a_result := result; a_reason := why; a_evidence_json := evidence |} in
    Some (a, with_audits s (audits s ++ [a]))
  else None.

(** ** Lemmas *)
Lemma task_by_id_some s tid t : task_by_id s tid = Some t -> t ∈ tasks s /\ Idempotency.t_task_id t = tid.
Proof. intros [H E%String.eqb_eq]%List.find_some. by rewrite list_elem_of_In. Qed.

Lemma latest_some {A} (p : A -> bool) l x : latest p l = Some x -> x ∈ l /\ p x = true.
Proof. intros [H E]%List.find_some. apply in_rev in H. by rewrite list_elem_of_In. Qed.

Lemma latest_snoc {A} (p : A -> bool) l x : latest p (l ++ [x]) = if p x then Some x else latest p l.
Proof. unfold latest. by rewrite rev_app_distr. Qed.

Lemma latest_none {A} (p : A -> bool) l : latest p l = None <-> forall x, x ∈ l -> p x = false.
Proof.
  unfold latest. split.
  - intros F x H%list_elem_of_In. apply (List.find_none _ _ F), in_rev. by rewrite rev_involutive.
  - intros F. destruct (List.find p (rev l)) as [x|] eqn:E; [|done]. apply List.find_some in E as [H E]. apply in_rev, list_elem_of_In in H. by rewrite F in E.
Qed.

Lemma insert_audit_inv pk did r why ev s a s' : insert_audit pk did r why ev s = Some (a, s') ->
  s' = with_audits s (audits s ++ [a]) /\ about pk did a = true /\ a_result a = r.
Proof. unfold insert_audit. destruct (_ && _); [|done]. intros [= <- <-]. unfold about. simpl. by rewrite !Z.eqb_refl. Qed.

(** *** A store with one dispatched task *)
Definition ex_task (status : string) : Idempotency.DispatchTask :=
  {| Idempotency.t_id := 1; Idempotency.t_task_id := "TASK-1"; Idempotency.t_order_id := 7; Idempotency.t_anomaly_id := None; Idempotency.t_status := status;
     Idempotency.t_idempotency_key := "K1"; Idempotency.t_assignee_subject_id := Some "EMP-1"%string; Idempotency.t_started := true; Idempotency.t_completed := false |}.
Definition ex_dispatch : Dispatch.Dispatch :=
  {| Dispatch.d_id := 5; Dispatch.dispatch_no := "D-5"; Dispatch.d_order_id := 7; Dispatch.d_task_id := 1; Dispatch.d_original_route_id := Some "R1"%string;
     Dispatch.d_target_route_id := Some "R2"%string; Dispatch.d_original_vehicle_id := Some "V1"%string; Dispatch.d_target_vehicle_id := Some "V2"%string;
     Dispatch.d_target_driver_id := Some "D2"%string; Dispatch.d_transfer_node_id := Some "N4"%string; Dispatch.d_decision_reason := None;
     Dispatch.d_recommended_action := None; Dispatch.d_analysis_mode := None; Dispatch.d_issue_subtype := None; Dispatch.d_fallback_used := false;
     Dispatch.d_fallback_reason := None; Dispatch.d_status := "EXECUTED"; Dispatch.d_version := 1 |}.
Definition ex_store (status : string) : store :=
  {| tasks := [ex_task status]; dispatches := [ex_dispatch]; audits := []; publications := []; orders := {[7 := {| origin := "A"; destination := "B" |}]};
     accounts := ∅; plates := ∅; driver_names := ∅ |}.
