(* ===== verification/AuditReview.v ===== *)
(** * AuditReview: the independent check of a dispatch

    Models [app/audit/service.py] and the evidence [app/agents/audit.py] hands
    to it.  The graph state is untyped Python data, as in Evidence; a failed
    hash of a list or a comparison with a NaN raises, and so does the encoding
    of a record whose dispatch result is not JSON. *)

From S2P Require Import Prelude Decimal DecimalText Evidence Records.
From S2P Require Idempotency.

Local Open Scope Z_scope.
Local Open Scope list_scope.

(** ** Verdicts *)
Record AuditChecks := {
  route_consistency : bool;
  memory_consistency : bool;
  fallback_consistency : bool;
  dispatch_execution : bool;
  vehicle_assignment : bool;
  capacity_constraint : bool;
  route_connectivity : bool;
  blocked_edge_exclusion : bool;
}.
Record verdict := { v_status : string; v_reason : string; v_manual : bool; v_checks : AuditChecks }.
Record AuditResult := {
  audit_status : string;
  passed : bool;
  reason : string;
  checks : AuditChecks;
  dispatch_id : option Z;
  requires_manual_review : bool;
  audit_record_id : option Z;
}.

Definition initial_checks (executed : bool) : AuditChecks :=
  {| route_consistency := true; memory_consistency := true; fallback_consistency := true; dispatch_execution := executed; vehicle_assignment := true;
     capacity_constraint := true; route_connectivity := true; blocked_edge_exclusion := true |}.
Definition with_route (b : bool) (c : AuditChecks) : AuditChecks :=
  {| route_consistency := b; memory_consistency := memory_consistency c; fallback_consistency := fallback_consistency c;
     dispatch_execution := dispatch_execution c; vehicle_assignment := vehicle_assignment c; capacity_constraint := capacity_constraint c;
     route_connectivity := route_connectivity c; blocked_edge_exclusion := blocked_edge_exclusion c |}.
Definition with_memory (b : bool) (c : AuditChecks) : AuditChecks :=
  {| route_consistency := route_consistency c; memory_consistency := b; fallback_consistency := fallback_consistency c;
     dispatch_execution := dispatch_execution c; vehicle_assignment := vehicle_assignment c; capacity_constraint := capacity_constraint c;
     route_connectivity := route_connectivity c; blocked_edge_exclusion := blocked_edge_exclusion c |}.
Definition with_fallback (b : bool) (c : AuditChecks) : AuditChecks :=
  {| route_consistency := route_consistency c; memory_consistency := memory_consistency c; fallback_consistency := b;
     dispatch_execution := dispatch_execution c; vehicle_assignment := vehicle_assignment c; capacity_constraint := capacity_constraint c;
     route_connectivity := route_connectivity c; blocked_edge_exclusion := blocked_edge_exclusion c |}.
Definition with_vehicle (assigned fits : bool) (c : AuditChecks) : AuditChecks :=
  {| route_consistency := route_consistency c; memory_consistency := memory_consistency c; fallback_consistency := fallback_consistency c;
     dispatch_execution := dispatch_execution c; vehicle_assignment := assigned; capacity_constraint := fits;
     route_connectivity := route_connectivity c; blocked_edge_exclusion := blocked_edge_exclusion c |}.
Definition with_path (connected unblocked : bool) (c : AuditChecks) : AuditChecks :=
  {| route_consistency := route_consistency c; memory_consistency := memory_consistency c; fallback_consistency := fallback_consistency c;
     dispatch_execution := dispatch_execution c; vehicle_assignment := vehicle_assignment c; capacity_constraint := capacity_constraint c;
     route_connectivity := connected; blocked_edge_exclusion := unblocked |}.

(** ** Reading untyped values *)
Definition mapping (v : pyval) : pydict := default [] (is_mapping v).
Definition field (d : pydict) (key : string) : option string := text_of (get d key).
Definition py_or (x y : option string) : option string := match x with Some _ => x | None => y end.
Definition equals_text (v : pyval) (s : string) : bool := py_eq v (PStr s).
Definition unhashable : exn := Exn "TypeError" "unhashable type".
(** [value in {..}] for a set of texts. *)
Definition in_texts (v : pyval) (l : list string) : result bool :=
  match v with PList _ | PDict _ => Err unhashable | PStr s => Ok (one_of s l) | _ => Ok false end.
Definition sequence (v : pyval) : list pyval := default [] (sequence_items v).

(** [all(... for x in l)] and [a and b], where a test may raise. *)
Fixpoint all_result {A} (f : A -> result bool) (l : list A) : result bool :=
  match l with [] => Ok true | x :: l' => b ← f x; if b : bool then all_result f l' else Ok false end.
Definition and_then (a : bool) (b : result bool) : result bool := if a then b else Ok false.

Section audit.
(** [str] of a container or of bytes. *)
Context (repr : pyval -> string).

Definition decimal_of (v : pyval) : option decimal := match number_text repr v with Some s => decimal_of_text s | None => None end.

(** The first listed vehicle with the identifier. *)
Definition candidate (v : pyval) (vehicle_id : option string) : pydict :=
  match vehicle_id with
  | None => []
  | Some i => default [] (List.find (fun c => bool_decide (field c "vehicle_id" = Some i)) (mappings (sequence v)))
  end.

(** A later edge with the same identifier replaces an earlier one. *)
Definition road_edges_by_id (v : pyval) : gmap string pydict :=
  fold_left (fun m d => match field d "edge_id" with Some i => <[i := d]> m | None => m end) (mappings (sequence v)) ∅.

Definition joins (edge : pydict) (a b : string) : bool :=
  let ends := (field edge "from_node_id", field edge "to_node_id") in
  bool_decide (ends = (Some a, Some b)) || (is_true (get edge "bidirectional") && bool_decide (ends = (Some b, Some a))).

Fixpoint connects (edges : gmap string pydict) (node_ids edge_ids : list string) : bool :=
  match edge_ids, node_ids with
  | [], _ => true
  | i :: edge_ids', a :: (b :: _) as rest =>
      match edges !! i with Some e => joins e a b && connects edges (tail node_ids) edge_ids' | None => false end
  | _, _ => false
  end.
Definition path_connects (node_ids edge_ids : list string) (road_edges : pyval) : bool :=
  match edge_ids with
  | [] => false
  | _ => Nat.eqb (length node_ids) (length edge_ids + 1) && connects (road_edges_by_id road_edges) node_ids edge_ids
  end.

Definition open_statuses : list string := ["OPEN"; "CONGESTED"; "RESTRICTED"]%string.
Definition edge_is_open (edges : gmap string pydict) (i : string) : result bool :=
  match edges !! i with Some e => in_texts (get e "status") open_statuses | None => Ok false end.
Definition path_edges_are_open (edge_ids : list string) (road_edges : pyval) : result bool :=
  match edge_ids with [] => Ok false | _ => all_result (edge_is_open (road_edges_by_id road_edges)) edge_ids end.

Definition has_memory (v : pyval) (memory_id : string) : bool :=
  existsb (fun m => equals_text (get m "memory_id") memory_id) (mappings (sequence v)).

(** ** The checks, in the order of [_evaluate] *)
Definition conflict_codes : list string := ["DISPATCH_CONFLICT"; "DISPATCH_VERSION_CONFLICT"; "VEHICLE_RESERVATION_CONFLICT"]%string.

Section evaluate.
Context (e : pydict).
Definition the_dispatch : pydict := mapping (get e "dispatch_result").
Definition the_decision : option string := field e "decision".
Definition the_issue : option string := py_or (field e "identified_issue") (field e "anomaly_type").
Definition was_executed : bool := is_true (get the_dispatch "executed").
Definition target_route : option string := field the_dispatch "target_route_id".

Definition needs_review : bool :=
  bool_decide (the_decision = Some "MANUAL_REVIEW"%string) || is_true (get e "requires_manual_review")
  || match field e "error_code" with Some c => one_of c conflict_codes | None => false end.

Definition target_vehicle : option string := field the_dispatch "target_vehicle_id".
Definition target_driver : option string := field the_dispatch "target_driver_id".
Definition incident_vehicle : option string := py_or (field the_dispatch "original_vehicle_id") (field e "vehicle_id").
Definition replacement : pydict := candidate (get e "candidate_vehicles") target_vehicle.

Definition no_exclusions : bool := match sequence_items (get replacement "exclusion_reasons") with Some [] => true | _ => false end.
Definition assigned : result bool :=
  and_then (bool_decide (is_Some incident_vehicle) && bool_decide (is_Some target_vehicle) && negb (bool_decide (target_vehicle = incident_vehicle))
            && bool_decide (field replacement "vehicle_id" = field e "selected_vehicle_id") && bool_decide (field e "selected_vehicle_id" = target_vehicle)
            && bool_decide (field replacement "driver_id" = field e "selected_driver_id") && bool_decide (field e "selected_driver_id" = target_driver)
            && equals_text (get replacement "vehicle_status") "AVAILABLE")
    (b ← in_texts (get replacement "driver_status") ["ON_DUTY"; "AVAILABLE"]%string;
     Ok (b && is_true (get replacement "eligible") && no_exclusions)).

Definition remaining : pyval :=
  if is_none (get replacement "remaining_capacity_kg") then get replacement "remaining_load_kg" else get replacement "remaining_capacity_kg".
Definition fits : result bool :=
  match decimal_of (get e "cargo_weight_kg"), decimal_of remaining with
  | Some cargo, Some free =>
      b ← decimal_ge free cargo;
      Ok (b && (negb (bool_decide (field e "cargo_type" = Some "COLD_CHAIN"%string)) || bool_decide (field replacement "cargo_capability" = Some "COLD_CHAIN"%string)))
  | _, _ => Ok false
  end.

(** A check goes on with the updated checks, or rejects. *)
Definition check : Type := AuditChecks -> result (AuditChecks * option string).
Definition reject_unless (b : bool) (c : AuditChecks) (why : string) : result (AuditChecks * option string) :=
  Ok (c, if b then None else Some why).
Definition then_check (a b : check) : check := fun c => x ← a c; match x.2 with Some _ => Ok x | None => b x.1 end.

Definition check_vehicle : check := fun c =>
  if negb (bool_decide (the_issue = Some "VEHICLE_BREAKDOWN"%string)) then Ok (c, None)
  else
    a ← assigned;
    f ← fits;
    let c := with_vehicle a f c in
    if a then reject_unless f c "Replacement vehicle capacity or cargo capability is invalid."
    else reject_unless false c "Replacement vehicle assignment is inconsistent.".

Definition blocked_edge_ids : list string := string_list (get e "blocked_edge_ids").
Definition path_edge_ids : list string := string_list (get (mapping (get e "recommended_path")) "edge_ids").
Definition path_node_ids : list string := string_list (get (mapping (get e "recommended_path")) "node_ids").
Definition avoids_blocked : bool := forallb (fun i => negb (one_of i blocked_edge_ids)) path_edge_ids.
Definition checks_path : bool :=
  bool_decide (the_issue = Some "ROAD_BLOCKED"%string) || match blocked_edge_ids with [] => false | _ => true end.

Definition check_path : check := fun c =>
  if negb checks_path then Ok (c, None)
  else
    let connected := path_connects path_node_ids path_edge_ids (get e "road_network_edges") in
    unblocked ← and_then avoids_blocked (path_edges_are_open path_edge_ids (get e "road_network_edges"));
    let c := with_path connected unblocked c in
    if connected then reject_unless unblocked c "Recommended path includes a blocked edge."
    else reject_unless false c "Recommended path is not connected in the road network.".

Definition check_route : check := fun c =>
  if bool_decide (the_decision = Some "NO_SAFE_ROUTE"%string) && was_executed
  then reject_unless false (with_route false c) "No-safe-route decision cannot execute a dispatch."
  else if bool_decide (the_decision = Some "REROUTE"%string) then
    let r := field e "recommended_route" in
    let b := bool_decide (is_Some r) && was_executed && bool_decide (target_route = r) in
    reject_unless b (with_route b c) "Recommended route and dispatch target do not match."
  else if bool_decide (the_decision = Some "KEEP_ROUTE"%string) then
    let b := was_executed && bool_decide (target_route = field e "route_id") in
    reject_unless b (with_route b c) "Keep-route dispatch target does not match the original route."
  else Ok (c, None).

Definition check_memory : check := fun c =>
  if negb (is_true (get e "memory_adopted")) then Ok (c, None)
  else
    let b := match field e "adopted_memory_id" with Some i => has_memory (get e "memory_results") i | None => false end in
    reject_unless b (with_memory b c) "Adopted memory is absent from recalled memory results.".

Definition check_fallback : check := fun c =>
  if negb (is_true (get e "fallback_used")) then Ok (c, None)
  else
    let b := bool_decide (is_Some (field e "fallback_reason")) in
    reject_unless b (with_fallback b c) "Fallback dispatch requires a fallback reason.".

Definition evaluate : result verdict :=
  let c := initial_checks was_executed in
  if needs_review then Ok {| v_status := "REVIEW_REQUIRED"; v_reason := "Dispatch requires manual review."; v_manual := true; v_checks := c |}
  else
    x ← then_check check_vehicle (then_check check_path (then_check check_route (then_check check_memory check_fallback))) c;
    Ok match x with
       | (c, Some why) => {| v_status := "REJECTED"; v_reason := why; v_manual := true; v_checks := c |}
       | (c, None) => {| v_status := "APPROVED"; v_reason := "Audit checks passed."; v_manual := false; v_checks := c |}
       end.
End evaluate.
End audit.

(** ** What is stored with the verdict *)
Section compact.
Context (repr : pyval -> string) (e : pydict).

Definition entity_id (v : pyval) : option string :=
  match is_mapping v with Some d => match get d "entity_id" with PStr s => Some s | _ => None end | None => None end.
(** [if value:] for an optional text. *)
Definition present (o : option string) : option string := match o with Some s => if String.eqb s "" then None else Some s | None => None end.

Definition fact_text (f : pydict) : option string :=
  match present (entity_id (get f "source")), field f "relation_type", present (entity_id (get f "target")) with
  | Some source, Some relation, Some target => Some (source +:+ "|" +:+ relation +:+ "|" +:+ target)
  | _, _, _ => None
  end.
Definition facts : list string := omap fact_text (mappings (take 10 (sequence (get e "graph_memory_facts")))).

Definition path_text (p : pydict) : option string :=
  match sequence_items (get p "entities") with
  | Some items => match omap (fun i => present (entity_id i)) items with [] => None | ids => Some (join ">" ids) end
  | None => None
  end.
Definition paths : list string := omap path_text (mappings (take 5 (sequence (get e "graph_memory_paths")))).

Definition memory_hit_count : Z := Z.min (Z.of_nat (length (sequence (get e "memory_results")))) 10.

Definition candidates : list pydict := mappings (take 20 (sequence (get e "candidate_vehicles"))).
Definition candidate_line (c : pydict) : pydict :=
  [("vehicle_id", opt_str (field c "vehicle_id")); ("score", opt_str (number_text repr (get c "score"))); ("eligible", PBool (is_true (get c "eligible")));
   ("exclusion_reasons", strs (string_list (get c "exclusion_reasons")))]%string.

(** [key in evidence]. *)
Definition has (d : pydict) (key : string) : bool := match dict_get d key with Some _ => true | None => false end.
Definition key_when (b : bool) (key : string) (v : pyval) : pydict := if b then [(key, v)] else [].

Definition basics : pydict :=
  [("graph_memory_used", PBool (is_true (get e "graph_memory_used"))); ("graph_memory_error", opt_str (field e "graph_memory_error"));
   ("facts", strs facts); ("paths", strs paths); ("analysis_mode", opt_str (field e "analysis_mode"));
   ("identified_issue", opt_str (field e "identified_issue")); ("issue_subtype", opt_str (field e "issue_subtype"));
   ("environment_risk", opt_str (field e "environment_risk")); ("capacity_status", opt_str (field (mapping (get e "capacity_state")) "capacity_status"));
   ("memory_hit_count", PInt memory_hit_count)]%string.

Definition extended_keys : list string := ["candidate_vehicles"; "cargo_weight_kg"; "cargo_type"; "road_network_edges"; "original_path"; "pickup_route"]%string.
Definition result_keys : list string :=
  ["dispatch_id"; "target_route_id"; "executed"; "original_vehicle_id"; "target_vehicle_id"; "target_driver_id"]%string.
Definition dispatch_facts : pydict := omap (fun k => (fun v => (k, v)) <$> dict_get (the_dispatch e) k) result_keys.

Definition selected_id : option string := py_or (target_vehicle e) (field e "selected_vehicle_id").
Definition compact_selected : pydict -> pydict := compact_selected_candidate repr.
Definition relevant_lines : pyval -> gset string -> pyval := compact_relevant_edges.
Definition selected : option pydict := List.find (fun c => bool_decide (field c "vehicle_id" = selected_id)) candidates.

Definition extended : pydict :=
  [("task_id", opt_str (field e "task_id")); ("decision", opt_str (field e "decision")); ("route_id", opt_str (field e "route_id"));
   ("recommended_route", opt_str (field e "recommended_route")); ("anomaly_type", opt_str (field e "anomaly_type")); ("vehicle_id", opt_str (field e "vehicle_id"));
   ("selected_vehicle_id", opt_str (field e "selected_vehicle_id")); ("selected_driver_id", opt_str (field e "selected_driver_id"));
   ("cargo_weight_kg", opt_str (number_text repr (get e "cargo_weight_kg"))); ("cargo_type", opt_str (field e "cargo_type"));
   ("fallback_used", PBool (is_true (get e "fallback_used"))); ("fallback_reason", opt_str (field e "fallback_reason"));
   ("memory_adopted", PBool (is_true (get e "memory_adopted"))); ("adopted_memory_id", opt_str (field e "adopted_memory_id"));
   ("requires_manual_review", PBool (is_true (get e "requires_manual_review"))); ("error_code", opt_str (field e "error_code"));
   ("dispatch_result", PDict dispatch_facts); ("selected_candidate", opt_dict (compact_selected <$> selected))]%string.

Definition audit_path (v : pyval) : pydict :=
  [("node_ids", strs (string_list (get (mapping v) "node_ids"))); ("edge_ids", strs (string_list (get (mapping v) "edge_ids")))]%string.
Definition path_sources : list (string * pyval) :=
  [("original_path", get e "original_path"); ("recommended_path", get e "recommended_path");
   ("pickup_path", if is_none (get e "pickup_path") then get e "pickup_route" else get e "pickup_path")]%string.
Definition kept_paths : list (string * pyval) := List.filter (fun kv => negb (is_none kv.2) || has e kv.1) path_sources.
Definition relevant_edges : gset string :=
  list_to_set (concat (map (fun kv => string_list (get (mapping kv.2) "edge_ids")) kept_paths) ++ (if has e "blocked_edge_ids" then blocked_edge_ids e else [])).

(** [safe_correlation_id]. *)
Definition correlation_char (c : Ascii.ascii) : bool :=
  let n := Ascii.nat_of_ascii c in
  (Nat.leb 48 n && Nat.leb n 57) || (Nat.leb 65 n && Nat.leb n 90) || (Nat.leb 97 n && Nat.leb n 122) || existsb (Nat.eqb n) [46; 95; 45]%nat.
Definition safe_correlation_id (v : pyval) : option string :=
  match v with
  | PStr s => let l := chars s in if forallb correlation_char l && Nat.leb 1 (length l) && Nat.leb (length l) 64 then Some s else None
  | _ => None
  end.

(** [_graph_evidence]: every key is written once. *)
Definition graph_evidence : pydict :=
  basics
  ++ key_when (has e "candidate_vehicles") "candidate_vehicles" (PList (map (fun c => PDict (candidate_line c)) candidates))
  ++ (if existsb (has e) extended_keys then extended else [])
  ++ map (fun kv => (kv.1, PDict (audit_path kv.2))) kept_paths
  ++ key_when (has e "blocked_edge_ids") "blocked_edge_ids" (strs (blocked_edge_ids e))
  ++ key_when (has e "road_network_edges") "road_network_edges" (relevant_lines (get e "road_network_edges") relevant_edges)
  ++ match safe_correlation_id (get e "correlation_id") with Some c => [("correlation_id"%string, PStr c)] | None => [] end.
End compact.

(** ** The audit service *)
Definition AuditPersistenceError (m : string) : exn := Exn "AuditPersistenceError" m.

Section service.
Context (repr : pyval -> string) (dumps : pyval -> string).   (* [json.dumps], sorted keys *)

(** [_persist_if_possible]: [env] is what other sessions commit in between. *)
Definition persist_if_possible (env : store -> store) (task_id : option string) (did : option Z) (status why evidence : string) : action store (option Z) := fun s =>
  match task_id, did with
  | Some tid, Some d =>
      match task_by_id s tid with
      | None => (Err (AuditPersistenceError "Audit task was not found."), s)
      | Some t =>
          match List.find (about (Idempotency.t_id t) d) (audits s) with
          | Some a => (Ok (Some (a_id a)), s)
          | None =>
              match insert_audit (Idempotency.t_id t) d status why evidence (env s) with
              | Some (a, s') => (Ok (Some (a_id a)), s')
              | None => (Err (AuditPersistenceError "Audit record persistence failed."), env s)
              end
          end
      end
  | _, _ => (Ok None, s)
  end.

Definition encode (d : pydict) : result string :=
  if json_serializable (PDict d) then Ok (dumps (PDict d)) else Err (Exn "TypeError" "Object is not JSON serializable").

Definition audit (env : store -> store) (e : pydict) : action store AuditResult := fun s =>
  match (v ← evaluate repr e; text ← encode (graph_evidence repr e); Ok (v, text)) with
  | Err x => (Err x, s)
  | Ok (v, text) =>
      let did := integer (get (the_dispatch e) "dispatch_id") in
      match persist_if_possible env (field e "task_id") did (v_status v) (v_reason v) text s with
      | (Err x, s') => (Err x, s')
      | (Ok rid, s') =>
          (Ok {| audit_status := v_status v; passed := String.eqb (v_status v) "APPROVED"; reason := v_reason v; checks := v_checks v; dispatch_id := did;
                 requires_manual_review := v_manual v; audit_record_id := rid |}, s')
      end
  end.

(** ** The audit node of the graph *)
Definition or_default (d : pyval) (state : pydict) (key : string) : pyval := default d (dict_get state key).

(** [state["task_id"]] and [state["route_id"]] are required. *)
Definition node_evidence (state : pydict) : result pydict :=
  tid ← of_option (Exn "KeyError" "task_id") (dict_get state "task_id");
  rid ← of_option (Exn "KeyError" "route_id") (dict_get state "route_id");
  let plain key := (key, get state key) in
  let listed key := (key, or_default (PList []) state key) in
  let flag key := (key, or_default (PBool false) state key) in
  Ok [("task_id", tid); ("route_id", rid); plain "anomaly_type"; plain "vehicle_id"; plain "selected_vehicle_id"; plain "selected_driver_id";
      listed "candidate_vehicles"; plain "cargo_weight_kg"; plain "cargo_type"; listed "blocked_edge_ids"; plain "original_path"; plain "recommended_path";
      plain "pickup_route"; listed "road_network_edges"; listed "memory_results"; flag "memory_adopted"; plain "adopted_memory_id"; flag "graph_memory_used";
      plain "graph_memory_error"; listed "graph_memory_facts"; listed "graph_memory_paths"; flag "fallback_used"; plain "fallback_reason";
      plain "recommended_route"; plain "analysis_mode"; plain "identified_issue"; plain "issue_subtype"; plain "environment_risk";
      ("capacity_state", or_default (PDict []) state "capacity_state"); plain "decision"; plain "decision_reason";
      ("dispatch_result", or_default (PDict []) state "dispatch_result"); flag "requires_manual_review"; plain "error_code"]%string.

Definition checks_value (c : AuditChecks) : pyval :=
  PDict [("route_consistency", PBool (route_consistency c)); ("memory_consistency", PBool (memory_consistency c));
         ("fallback_consistency", PBool (fallback_consistency c)); ("dispatch_execution", PBool (dispatch_execution c));
         ("vehicle_assignment", PBool (vehicle_assignment c)); ("capacity_constraint", PBool (capacity_constraint c));
         ("route_connectivity", PBool (route_connectivity c)); ("blocked_edge_exclusion", PBool (blocked_edge_exclusion c))]%string.
Definition audit_result_to_state (r : AuditResult) : pyval :=
  PDict [("audit_status", PStr (audit_status r)); ("passed", PBool (passed r)); ("reason", PStr (reason r)); ("checks", checks_value (checks r));
         ("dispatch_id", opt_int (dispatch_id r)); ("requires_manual_review", PBool (requires_manual_review r)); ("audit_record_id", opt_int (audit_record_id r))]%string.

Definition persistence_failed : pydict :=
  [("requires_manual_review", PBool true); ("error_code", PStr "AUDIT_PERSISTENCE_ERROR"); ("error_message", PStr "Audit result could not be persisted.");
   ("audit_result", PNone)]%string.
Definition audit_node (env : store -> store) (state : pydict) : action store pydict := fun s =>
  match node_evidence state with
  | Err x => (Err x, s)
  | Ok e =>
      except_as ["AuditPersistenceError"%string]
        (do r <- audit env e;
         ret_action [("audit_result", audit_result_to_state r); ("requires_manual_review", PBool (requires_manual_review r))]%string)%action
        (ret_action persistence_failed) s
  end.
End service.

(** ** What an approval means *)
Section specification.
Context (repr : pyval -> string) (e : pydict).

(** Nodes joined by edges of the network, each taken along its direction or
    against it where that is allowed. *)
Inductive walk (edges : gmap string pydict) : list string -> list string -> Prop :=
| walk_end a : walk edges [a] []
| walk_edge a b nodes i ids d : edges !! i = Some d -> joins d a b = true -> walk edges (b :: nodes) ids -> walk edges (a :: b :: nodes) (i :: ids).

Definition open_edge (edges : gmap string pydict) (i : string) : Prop :=
  exists d s, edges !! i = Some d /\ get d "status" = PStr s /\ s ∈ open_statuses.

(** A vehicle that may take over: listed, free, with its driver on duty, able
    to carry the cargo, and not the one that broke down. *)
Record may_replace (c : pydict) : Prop := {
  mr_listed : exists i, target_vehicle e = Some i /\ field c "vehicle_id" = Some i /\ field e "selected_vehicle_id" = Some i /\ c ∈ mappings (sequence (get e "candidate_vehicles"));
  mr_other : exists i, incident_vehicle e = Some i /\ target_vehicle e <> Some i;
  mr_driver : field c "driver_id" = target_driver e /\ field e "selected_driver_id" = target_driver e;
  mr_free : get c "vehicle_status" = PStr "AVAILABLE" /\ (get c "driver_status" = PStr "ON_DUTY" \/ get c "driver_status" = PStr "AVAILABLE") /\
    get c "eligible" = PBool true /\ sequence_items (get c "exclusion_reasons") = Some [];
  mr_load : exists cargo free, decimal_of repr (get e "cargo_weight_kg") = Some cargo /\
    decimal_of repr (if is_none (get c "remaining_capacity_kg") then get c "remaining_load_kg" else get c "remaining_capacity_kg") = Some free /\ decimal_ge free cargo = Ok true;
  mr_cold : field e "cargo_type" = Some "COLD_CHAIN"%string -> field c "cargo_capability" = Some "COLD_CHAIN"%string;
}.

Record approvable : Prop := {
  ap_review : needs_review e = false;
  ap_vehicle : the_issue e = Some "VEHICLE_BREAKDOWN"%string -> may_replace (replacement e);
  ap_path : checks_path e = true ->
    path_edge_ids e <> [] /\ walk (road_edges_by_id (get e "road_network_edges")) (path_node_ids e) (path_edge_ids e) /\
    forall i, i ∈ path_edge_ids e -> (i ∉ blocked_edge_ids e) /\ open_edge (road_edges_by_id (get e "road_network_edges")) i;
  ap_stopped : the_decision e = Some "NO_SAFE_ROUTE"%string -> was_executed e = false;
  ap_reroute : the_decision e = Some "REROUTE"%string -> was_executed e = true /\ exists r, field e "recommended_route" = Some r /\ target_route e = Some r;
  ap_keep : the_decision e = Some "KEEP_ROUTE"%string -> was_executed e = true /\ target_route e = field e "route_id";
  ap_memory : get e "memory_adopted" = PBool true -> exists i m, field e "adopted_memory_id" = Some i /\
    m ∈ mappings (sequence (get e "memory_results")) /\ get m "memory_id" = PStr i;
  ap_fallback : get e "fallback_used" = PBool true -> exists why, field e "fallback_reason" = Some why;
}.
End specification.

(** *** Tests and what they mean *)
Lemma equals_text_true v s : equals_text v s = true <-> v = PStr s.
Proof. unfold equals_text. destruct v; cbn [py_eq]; try done. rewrite String.eqb_eq. split; [by intros ->|by intros [= ->]]. Qed.

Lemma in_texts_true v l : in_texts v l = Ok true <-> exists s, v = PStr s /\ s ∈ l.
Proof.
  destruct v as [|b|z|t|t|s|t|m|d]; cbn [in_texts]; split; try done; try by (intros (? & ? & _)).
  - intros [= H]. exists s. by rewrite <- one_of_true.
  - intros (x & [= <-] & H%one_of_true). by rewrite H.
Qed.

Lemma is_true_iff v : is_true v = true <-> v = PBool true.
Proof. destruct v as [|[]| | | | | | |]; split; done. Qed.

Lemma all_result_true {A} (f : A -> result bool) l : all_result f l = Ok true <-> forall x, x ∈ l -> f x = Ok true.
Proof.
  induction l as [|x l IH]; simpl; [split; [intros _ x H; by apply not_elem_of_nil in H|done]|]. split.
  - intros H. apply result_bind_ok in H as ([] & E & H); [|done]. intros y [->|Hy]%elem_of_cons; [done|]. by apply IH.
  - intros H. rewrite (H x) by left. simpl. apply IH. intros y Hy. apply H. by right.
Qed.

Lemma connects_walk edges nodes ids : length nodes = (length ids + 1)%nat -> connects edges nodes ids = true <-> walk edges nodes ids.
Proof.
  revert nodes. induction ids as [|i ids IH]; intros nodes L.
  - destruct nodes as [|a [|]]; simpl in L; try lia. split; [constructor|done].
  - destruct nodes as [|a [|b nodes]]; simpl in L; try lia. cbn [connects tail]. destruct (edges !! i) as [d|] eqn:E.
    + rewrite andb_true_iff, IH by (simpl; lia). split; [intros [J K]; by econstructor|]. inversion 1; subst. rewrite E in *. by simplify_eq.
    + split; [done|]. inversion 1; subst. congruence.
Qed.

Lemma walk_length edges nodes ids : walk edges nodes ids -> length nodes = (length ids + 1)%nat.
Proof. induction 1; simpl in *; lia. Qed.

Lemma path_connects_true nodes ids v : path_connects nodes ids v = true <-> ids <> [] /\ walk (road_edges_by_id v) nodes ids.
Proof.
  unfold path_connects. destruct ids as [|i ids]; [by split; [|intros []]|]. rewrite andb_true_iff, Nat.eqb_eq. split.
  - intros [L C]. split; [done|]. by apply connects_walk.
  - intros [_ W]. pose proof (walk_length _ _ _ W) as L. split; [done|]. by apply connects_walk.
Qed.

Lemma edges_open_true ids v : path_edges_are_open ids v = Ok true <-> ids <> [] /\ forall i, i ∈ ids -> open_edge (road_edges_by_id v) i.
Proof.
  unfold path_edges_are_open. destruct ids as [|i ids]; [split; [done|by intros []]|]. rewrite all_result_true. unfold edge_is_open, open_edge. split.
  - intros H. split; [done|]. intros j Hj. specialize (H j Hj). destruct (road_edges_by_id v !! j) as [d|]; [|done]. apply in_texts_true in H as (s & ? & ?). by exists d, s.
  - intros [_ H] j Hj. destruct (H j Hj) as (d & s & -> & E & M). apply in_texts_true. by exists s.
Qed.

Lemma and_then_true a b : and_then a b = Ok true <-> a = true /\ b = Ok true.
Proof. destruct a; simpl; split; [done|by intros [_ H]|done|by intros [? _]]. Qed.

Lemma then_check_none (a b : check) c x : then_check a b c = Ok x ->
  (exists y, a c = Ok y /\ ((y.2 = None /\ b y.1 = Ok x) \/ (is_Some y.2 /\ x = y))).
Proof.
  unfold then_check. intros H. apply result_bind_ok in H as (y & A & H). exists y. split; [done|].
  destruct (y.2) eqn:E; [right; injection H as <-; eauto|by left].
Qed.

Section checks.
Context (repr : pyval -> string) (e : pydict).

Lemma replacement_listed i : target_vehicle e = Some i -> field (replacement e) "vehicle_id" = Some i ->
  replacement e ∈ mappings (sequence (get e "candidate_vehicles")).
Proof.
  unfold replacement, candidate. intros ->. destruct (List.find _ _) as [c|] eqn:F; [|done]. intros _. apply List.find_some in F as [F _]. by apply list_elem_of_In.
Qed.

Lemma no_exclusions_true : no_exclusions e = true <-> sequence_items (get (replacement e) "exclusion_reasons") = Some [].
Proof. unfold no_exclusions. destruct (sequence_items _) as [[]|]; split; done. Qed.

Lemma assigned_true : assigned e = Ok true <->
  (exists i, target_vehicle e = Some i /\ field (replacement e) "vehicle_id" = Some i /\ field e "selected_vehicle_id" = Some i) /\
  (exists i, incident_vehicle e = Some i /\ target_vehicle e <> Some i) /\
  (field (replacement e) "driver_id" = target_driver e /\ field e "selected_driver_id" = target_driver e) /\
  get (replacement e) "vehicle_status" = PStr "AVAILABLE" /\
  (get (replacement e) "driver_status" = PStr "ON_DUTY" \/ get (replacement e) "driver_status" = PStr "AVAILABLE") /\
  get (replacement e) "eligible" = PBool true /\ sequence_items (get (replacement e) "exclusion_reasons") = Some [].
Proof.
  unfold assigned. rewrite and_then_true, !andb_true_iff, !bool_decide_eq_true, negb_true_iff, bool_decide_eq_false, equals_text_true. split.
  - intros [[[[[[[[[inc Inc] [i Ti]] Ne] Rv] Sv] Rd] Sd] Vs] H]. apply result_bind_ok in H as (b & D & [= H]). rewrite !andb_true_iff, is_true_iff, no_exclusions_true in H. destruct H as [[-> El] Ex].
    apply in_texts_true in D as (s & Ds & M). split_and!; try done.
    + exists i. split_and!; congruence.
    + exists inc. split; congruence.
    + congruence.
    + rewrite Ds. apply elem_of_cons in M as [->|M]; [auto|]. apply elem_of_one in M as ->. auto.
  - intros ((i & Ti & Rv & Sv) & (j & Inc & Ne) & [Rd Sd] & Vs & Ds & El & Ex). rewrite Ti, Inc, Sv, Rv, Rd, Sd in *. split; [by split_and!|].
    assert (D : in_texts (get (replacement e) "driver_status") ["ON_DUTY"; "AVAILABLE"]%string = Ok true).
    { apply in_texts_true. destruct Ds as [-> | ->]; eexists; (split; [done|]); rewrite !elem_of_cons; auto. }
    rewrite D. simpl. f_equal. by rewrite andb_true_iff, is_true_iff, no_exclusions_true.
Qed.

Lemma fits_true : fits repr e = Ok true <->
  (exists cargo free, decimal_of repr (get e "cargo_weight_kg") = Some cargo /\ decimal_of repr (remaining e) = Some free /\ decimal_ge free cargo = Ok true) /\
  (field e "cargo_type" = Some "COLD_CHAIN"%string -> field (replacement e) "cargo_capability" = Some "COLD_CHAIN"%string).
Proof.
  unfold fits. destruct (decimal_of repr (get e "cargo_weight_kg")) as [cargo|]; [|split; [done|by intros [(? & ? & ? & _) _]]].
  destruct (decimal_of repr (remaining e)) as [free|]; [|split; [done|by intros [(? & ? & _ & ? & _) _]]]. split.
  - intros H. apply result_bind_ok in H as (b & G & [= H]). apply andb_true_iff in H as [-> H]. split; [by exists cargo, free|].
    apply orb_true_iff in H as [N%negb_true_iff|C]; [by apply bool_decide_eq_false in N|by apply bool_decide_eq_true in C].
  - intros [(x & y & [= <-] & [= <-] & G) C]. rewrite G. simpl. f_equal. destruct (decide (field e "cargo_type" = Some "COLD_CHAIN"%string)) as [D|D].
    + rewrite (bool_decide_eq_true_2 _ (C D)). by rewrite orb_true_r.
    + by rewrite (bool_decide_eq_false_2 _ D).
Qed.

Lemma may_replace_iff : may_replace repr e (replacement e) <-> assigned e = Ok true /\ fits repr e = Ok true.
Proof.
  rewrite assigned_true, fits_true. split.
  - intros [(i & T & R & S & _) O [D1 D2] (V & D & E & X) L C]. split_and!; eauto.
  - intros [((i & T & R & S) & O & D & V & Ds & E & X) [L C]]. split; try done. exists i. split_and!; try done. by eapply replacement_listed.
Qed.

Lemma reject_unless_ok b c why x : reject_unless b c why = Ok x -> x.1 = c /\ (x.2 = None <-> b = true).
Proof. unfold reject_unless. intros [= <-]. by destruct b. Qed.

(** Each check accepts exactly when its part of the specification holds. *)
Lemma check_vehicle_ok c x : check_vehicle repr e c = Ok x ->
  x.2 = None <-> (the_issue e = Some "VEHICLE_BREAKDOWN"%string -> may_replace repr e (replacement e)).
Proof.
  unfold check_vehicle. case_bool_decide as I; cbn [negb]; [|by intros [= <-]; split; [intros _ ?|]].
  intros H. apply result_bind_ok in H as (a & A & H). apply result_bind_ok in H as (f & F & H). rewrite may_replace_iff, A, F.
  destruct a; apply reject_unless_ok in H as [_ ->]; split; [by intros ->|by intros [_ [= ->]]|done|by intros [[=] _]].
Qed.

Lemma avoids_blocked_true : avoids_blocked e = true <-> forall i, i ∈ path_edge_ids e -> i ∉ blocked_edge_ids e.
Proof.
  unfold avoids_blocked. rewrite forallb_forall. setoid_rewrite negb_true_iff. setoid_rewrite one_of_false. setoid_rewrite list_elem_of_In. done.
Qed.

Lemma check_path_ok c x : check_path e c = Ok x ->
  x.2 = None <-> (checks_path e = true ->
    path_edge_ids e <> [] /\ walk (road_edges_by_id (get e "road_network_edges")) (path_node_ids e) (path_edge_ids e) /\
    forall i, i ∈ path_edge_ids e -> (i ∉ blocked_edge_ids e) /\ open_edge (road_edges_by_id (get e "road_network_edges")) i).
Proof.
  unfold check_path. destruct (checks_path e) eqn:P; cbn [negb]; [|by intros [= <-]; split; [intros _ ?|]].
  intros H. apply result_bind_ok in H as (u & U & H). destruct (path_connects _ _ _) eqn:C; apply reject_unless_ok in H as [_ ->].
  - apply path_connects_true in C as [Ne W]. split.
    + intros ->. apply and_then_true in U as [A O]. apply edges_open_true in O as [_ O]. rewrite avoids_blocked_true in A. intros _. split_and!; auto.
    + intros H. destruct (H eq_refl) as (_ & _ & X). cut (Ok u = Ok true); [by intros [=]|]. rewrite <- U. apply and_then_true. rewrite avoids_blocked_true, edges_open_true.
      split; [intros i Hi; by apply X|]. split; [done|]. intros i Hi. by apply X.
  - split; [done|]. intros H. destruct (H eq_refl) as (Ne & W & _). cut (path_connects (path_node_ids e) (path_edge_ids e) (get e "road_network_edges") = true); [congruence|].
    by apply path_connects_true.
Qed.

Lemma check_route_ok c x : check_route e c = Ok x ->
  x.2 = None <->
    (the_decision e = Some "NO_SAFE_ROUTE"%string -> was_executed e = false) /\
    (the_decision e = Some "REROUTE"%string -> was_executed e = true /\ exists r, field e "recommended_route" = Some r /\ target_route e = Some r) /\
    (the_decision e = Some "KEEP_ROUTE"%string -> was_executed e = true /\ target_route e = field e "route_id").
Proof.
  unfold check_route. case_bool_decide as N; [|cbn [andb]].
  - rewrite N. destruct (was_executed e); cbn [andb]; [intros H; apply reject_unless_ok in H as [_ ->]; split; [done|intros [? _]; symmetry; auto]|].
    rewrite !bool_decide_eq_false_2 by done. intros [= <-]. split; [intros _|done]. split_and!; done.
  - case_bool_decide as R; [|case_bool_decide as K].
    + intros H. apply reject_unless_ok in H as [_ ->]. rewrite !andb_true_iff, !bool_decide_eq_true. rewrite R. split.
      * intros [[[r Q] X] T]. split_and!; try done. intros _. split; [done|]. exists r. split; congruence.
      * intros (_ & H & _). destruct (H eq_refl) as (X & r & Q & T). split_and!; [by exists r|done|congruence].
    + intros H. apply reject_unless_ok in H as [_ ->]. rewrite andb_true_iff, bool_decide_eq_true, K. split; [intros [X T]; split_and!; done|]. intros (_ & _ & H). auto.
    + intros [= <-]. split; [intros _; split_and!; done|done].
Qed.

Lemma has_memory_true v i : has_memory v i = true <-> exists m, m ∈ mappings (sequence v) /\ get m "memory_id" = PStr i.
Proof. unfold has_memory. rewrite existsb_exists. setoid_rewrite equals_text_true. setoid_rewrite list_elem_of_In. done. Qed.

Lemma check_memory_ok c x : check_memory e c = Ok x ->
  x.2 = None <-> (get e "memory_adopted" = PBool true -> exists i m, field e "adopted_memory_id" = Some i /\
    m ∈ mappings (sequence (get e "memory_results")) /\ get m "memory_id" = PStr i).
Proof.
  unfold check_memory. rewrite <- is_true_iff. destruct (is_true _); cbn [negb]; [|by intros [= <-]; split; [intros _ ?|]].
  intros H. apply reject_unless_ok in H as [_ ->]. destruct (field e "adopted_memory_id") as [i|]; [rewrite has_memory_true|]; split.
  - intros (m & M & G) _. by exists i, m.
  - intros H. destruct (H eq_refl) as (j & m & [= <-] & M & G). by exists m.
  - done.
  - intros H. by destruct (H eq_refl) as (j & m & ? & _).
Qed.

Lemma check_fallback_ok c x : check_fallback e c = Ok x ->
  x.2 = None <-> (get e "fallback_used" = PBool true -> exists why, field e "fallback_reason" = Some why).
Proof.
  unfold check_fallback. rewrite <- is_true_iff. destruct (is_true _); cbn [negb]; [|by intros [= <-]; split; [intros _ ?|]].
  intros H. apply reject_unless_ok in H as [_ ->]. rewrite bool_decide_eq_true. split; [by intros [w W] _; exists w|]. intros H. destruct (H eq_refl) as [w W]. by exists w.
Qed.
End checks.

Lemma approvable_iff repr e : approvable repr e <-> needs_review e = false /\
  (the_issue e = Some "VEHICLE_BREAKDOWN"%string -> may_replace repr e (replacement e)) /\
  (checks_path e = true ->
    path_edge_ids e <> [] /\ walk (road_edges_by_id (get e "road_network_edges")) (path_node_ids e) (path_edge_ids e) /\
    forall i, i ∈ path_edge_ids e -> (i ∉ blocked_edge_ids e) /\ open_edge (road_edges_by_id (get e "road_network_edges")) i) /\
  ((the_decision e = Some "NO_SAFE_ROUTE"%string -> was_executed e = false) /\
   (the_decision e = Some "REROUTE"%string -> was_executed e = true /\ exists r, field e "recommended_route" = Some r /\ target_route e = Some r) /\
   (the_decision e = Some "KEEP_ROUTE"%string -> was_executed e = true /\ target_route e = field e "route_id")) /\
  (get e "memory_adopted" = PBool true -> exists i m, field e "adopted_memory_id" = Some i /\
    m ∈ mappings (sequence (get e "memory_results")) /\ get m "memory_id" = PStr i) /\
  (get e "fallback_used" = PBool true -> exists why, field e "fallback_reason" = Some why).
Proof. split; [by intros []|]. intros (R & V & P & (S & Re & K) & M & F). by split. Qed.

(** The chain of checks accepts exactly what the specification accepts. *)
Lemma checks_accept repr e c x :
  then_check (check_vehicle repr e) (then_check (check_path e) (then_check (check_route e) (then_check (check_memory e) (check_fallback e)))) c = Ok x ->
  needs_review e = false -> x.2 = None <-> approvable repr e.
Proof.
  intros H N. rewrite approvable_iff.
  apply then_check_none in H as (y1 & H1 & [[N1 H]|[[w W] ->]]); apply check_vehicle_ok in H1.
  2: { rewrite W in *. split; [done|]. intros (_ & P & _). by apply H1 in P. }
  apply then_check_none in H as (y2 & H2 & [[N2 H]|[[w W] ->]]); apply check_path_ok in H2.
  2: { rewrite W in *. split; [done|]. intros (_ & _ & P & _). by apply H2 in P. }
  apply then_check_none in H as (y3 & H3 & [[N3 H]|[[w W] ->]]); apply check_route_ok in H3.
  2: { rewrite W in *. split; [done|]. intros (_ & _ & _ & P & _). by apply H3 in P. }
  apply then_check_none in H as (y4 & H4 & [[N4 H]|[[w W] ->]]); apply check_memory_ok in H4.
  2: { rewrite W in *. split; [done|]. intros (_ & _ & _ & _ & P & _). by apply H4 in P. }
  apply check_fallback_ok in H. pose proof (proj1 H1 N1) as P1. pose proof (proj1 H2 N2) as P2. pose proof (proj1 H3 N3) as P3. pose proof (proj1 H4 N4) as P4. split.
  - intros F. exact (conj N (conj P1 (conj P2 (conj P3 (conj P4 (proj1 H F)))))). 
  - intros (_ & _ & _ & _ & _ & F). by apply H.
Qed.

Lemma evaluate_cases repr e v : evaluate repr e = Ok v ->
  (needs_review e = true /\ v_status v = "REVIEW_REQUIRED"%string /\ v_manual v = true) \/
  (needs_review e = false /\ approvable repr e /\ v_status v = "APPROVED"%string /\ v_manual v = false) \/
  (needs_review e = false /\ ~ approvable repr e /\ v_status v = "REJECTED"%string /\ v_manual v = true).
Proof.
  unfold evaluate. destruct (needs_review e) eqn:N; [intros [= <-]; by left|]. intros H. apply result_bind_ok in H as ([c why] & H & [= <-]).
  apply checks_accept in H; [|done]. right. destruct why as [w|]; [right|left]; split_and!; try done.
  - intros A%H. done.
  - by apply H.
Qed.

(** *** What is stored can be encoded *)
Lemma json_of_plain v : json_plain v = true -> json_serializable v = true.
Proof.
  revert v. fix IH 1. intros [| | | | | | |l|d]; cbn [json_plain json_serializable]; try done.
  - induction l as [|x l IHl]; cbn [forallb]; [done|]. rewrite !andb_true_iff. intros [A B]. split; [apply IH, A|apply IHl, B].
  - induction d as [|[k x] d IHd]; cbn [forallb snd]; [done|]. rewrite !andb_true_iff. intros [A B]. split; [apply IH, A|apply IHd, B].
Qed.

(** Everything stored is plain but the fields copied from the dispatch result. *)
Definition json_dict (d : pydict) : bool := forallb (fun kv => json_serializable kv.2) d.
Lemma json_dict_plain d : plain_dict d -> json_dict d = true.
Proof. apply (json_of_plain (PDict d)). Qed.
Lemma json_dict_app d d' : json_dict (d ++ d') = json_dict d && json_dict d'.
Proof. apply forallb_app. Qed.

Lemma extended_json repr e : json_dict (dispatch_facts e) = true -> json_dict (extended repr e) = true.
Proof.
  intros H. assert (S : json_serializable (opt_dict (compact_selected repr <$> selected e)) = true).
  { apply json_of_plain, plain_opt_dict. intros d (c & _ & ->)%fmap_Some. apply plain_selected. }
  unfold extended. cbn [json_dict forallb snd]. change (json_serializable (PDict (dispatch_facts e))) with (json_dict (dispatch_facts e)). rewrite H, S.
  rewrite !(json_of_plain (opt_str _)) by apply plain_opt_str. done.
Qed.

Lemma graph_evidence_json repr e : json_dict (dispatch_facts e) = true -> json_serializable (PDict (graph_evidence repr e)) = true.
Proof.
  intros H. change (json_dict (graph_evidence repr e) = true). unfold graph_evidence. rewrite !json_dict_app, !andb_true_iff. split_and!.
  - apply json_dict_plain. unfold basics. by plain.
  - destruct (has e _); [|done]. cbn [key_when json_dict forallb snd]. rewrite json_of_plain; [done|]. apply plain_map. intros c. unfold candidate_line. by plain.
  - destruct (existsb _ _); [by apply extended_json|done].
  - induction (kept_paths e) as [|kv l IH]; [done|]. cbn [map json_dict forallb snd]. rewrite json_of_plain; [exact IH|]. unfold audit_path. by plain.
  - destruct (has e _); [|done]. cbn [key_when json_dict forallb snd]. by rewrite json_of_plain by apply plain_strs.
  - destruct (has e _); [|done]. cbn [key_when json_dict forallb snd]. by rewrite json_of_plain by apply plain_relevant.
  - by destruct (safe_correlation_id _).
Qed.

(** *** Evidence the audit can read *)
Definition hashable (v : pyval) : bool := match v with PList _ | PDict _ => false | _ => true end.
Definition comparable (o : option decimal) : bool := match o with Some NaN => false | _ => true end.
Record readable (repr : pyval -> string) (e : pydict) : Prop := {
  rd_driver : hashable (get (replacement e) "driver_status") = true;
  rd_edges : forall i d, road_edges_by_id (get e "road_network_edges") !! i = Some d -> hashable (get d "status") = true;
  rd_cargo : comparable (decimal_of repr (get e "cargo_weight_kg")) = true;
  rd_remaining : comparable (decimal_of repr (remaining e)) = true;
  rd_facts : json_dict (dispatch_facts e) = true;
}.

Lemma in_texts_total v l : hashable v = true -> exists b, in_texts v l = Ok b.
Proof. destruct v; cbn; eauto; done. Qed.
Lemma decimal_ge_total a b : comparable (Some a) = true -> comparable (Some b) = true -> exists r, decimal_ge a b = Ok r.
Proof. destruct a, b; cbn; eauto; done. Qed.
Lemma all_result_total {A} (f : A -> result bool) l : (forall x, exists b, f x = Ok b) -> exists b, all_result f l = Ok b.
Proof. intros H. induction l as [|x l IH]; cbn; [eauto|]. destruct (H x) as [[] ->]; cbn; eauto. Qed.
Lemma and_then_total a b : (exists r, b = Ok r) -> exists r, and_then a b = Ok r.
Proof. destruct a; cbn; eauto. Qed.
Lemma then_check_total (a b : check) : (forall c, exists x, a c = Ok x) -> (forall c, exists x, b c = Ok x) -> forall c, exists x, then_check a b c = Ok x.
Proof. intros A B c. unfold then_check. destruct (A c) as [y ->]. cbn. destruct y.2; [eauto|apply B]. Qed.

Lemma assigned_total repr e : readable repr e -> exists a, assigned e = Ok a.
Proof. intros R. apply and_then_total. destruct (in_texts_total (get (replacement e) "driver_status") ["ON_DUTY"; "AVAILABLE"]%string (rd_driver _ _ R)) as [b ->]. cbn. eauto. Qed.
Lemma fits_total repr e : readable repr e -> exists f, fits repr e = Ok f.
Proof.
  intros R. unfold fits. pose proof (rd_cargo _ _ R) as C. pose proof (rd_remaining _ _ R) as M.
  destruct (decimal_of repr (get e "cargo_weight_kg")) as [cargo|]; [|eauto]. destruct (decimal_of repr (remaining e)) as [free|]; [|eauto].
  destruct (decimal_ge_total free cargo M C) as [r ->]. cbn. eauto.
Qed.

Lemma evaluate_total repr e : readable repr e -> exists v, evaluate repr e = Ok v.
Proof.
  intros R. unfold evaluate. destruct (needs_review e); [eauto|].
  cut (forall c, exists x, then_check (check_vehicle repr e) (then_check (check_path e) (then_check (check_route e) (then_check (check_memory e) (check_fallback e)))) c = Ok x).
  { intros H. destruct (H (initial_checks (was_executed e))) as [x ->]. cbn. eauto. }
  repeat apply then_check_total; intros c.
  - unfold check_vehicle. destruct (negb _); [eauto|]. destruct (assigned_total repr e R) as [a ->], (fits_total repr e R) as [f ->]. cbn. destruct a; unfold reject_unless; eauto.
  - unfold check_path. destruct (negb _); [eauto|]. destruct (and_then_total (avoids_blocked e) (path_edges_are_open (path_edge_ids e) (get e "road_network_edges"))) as [u ->].
    { unfold path_edges_are_open. destruct (path_edge_ids e); [eauto|]. apply all_result_total. intros i. unfold edge_is_open.
      destruct (_ !! i) as [d|] eqn:D; [|eauto]. by apply in_texts_total, (rd_edges _ _ R i). }
    cbn. destruct (path_connects _ _ _); unfold reject_unless; eauto.
  - unfold check_route, reject_unless. repeat case_match; eauto.
  - unfold check_memory, reject_unless. case_match; eauto.
  - unfold check_fallback, reject_unless. case_match; eauto.
Qed.

(** *** The record *)
Lemma persist_inv env tid did st why ev s x s' : persist_if_possible env tid did st why ev s = (x, s') ->
  (exists m, x = Err (AuditPersistenceError m) /\ (s' = s \/ s' = env s)) \/
  (x = Ok None /\ s' = s /\ (tid = None \/ did = None)) \/
  (exists i d t a, tid = Some i /\ did = Some d /\ task_by_id s i = Some t /\ x = Ok (Some (a_id a)) /\
     ((s' = s /\ List.find (about (Idempotency.t_id t) d) (audits s) = Some a) \/
      (List.find (about (Idempotency.t_id t) d) (audits s) = None /\ insert_audit (Idempotency.t_id t) d st why ev (env s) = Some (a, s')))).
Proof.
  unfold persist_if_possible. destruct tid as [i|]; [|intros [= <- <-]; right; left; auto]. destruct did as [d|]; [|intros [= <- <-]; right; left; auto].
  destruct (task_by_id s i) as [t|] eqn:T; [|intros [= <- <-]; left; eauto]. destruct (List.find _ _) as [a|] eqn:F.
  - intros [= <- <-]. right. right. exists i, d, t, a. split_and!; try done. by left.
  - destruct (insert_audit _ _ _ _ _ _) as [[a s1]|] eqn:I; intros [= <- <-]; [|left; eauto]. right. right. exists i, d, t, a. split_and!; try done. by right.
Qed.

(** ** Properties *)

(** C16: The audit approves exactly the dispatches that may stand.  On evidence
    it can read it always answers, or reports that the record could not be
    written; it approves if and only if no one asked for a review, a
    replacement vehicle is listed, free, staffed and large enough, a detour is
    a walk of open and unblocked edges, the route dispatched is the one
    decided on, an adopted memory was recalled and a fallback has a reason;
    whatever is not approved asks for a human. *)
Theorem audit_approves_exactly repr dumps env e s x s' :
  readable repr e -> audit repr dumps env e s = (x, s') ->
  (exists m, x = Err (AuditPersistenceError m)) \/
  exists r, x = Ok r /\ (audit_status r = "APPROVED"%string <-> approvable repr e) /\ (audit_status r = "REVIEW_REQUIRED"%string <-> needs_review e = true) /\
    passed r = negb (requires_manual_review r) /\ (requires_manual_review r = true <-> ~ approvable repr e) /\
    audit_status r ∈ ["APPROVED"; "REVIEW_REQUIRED"; "REJECTED"]%string.
Proof.
  intros R. unfold audit. destruct (evaluate_total repr e R) as [v V]. rewrite V. cbn [mbind result_bind]. unfold encode.
  rewrite graph_evidence_json by apply R. cbn. destruct (persist_if_possible _ _ _ _ _ _ _) as [y s1] eqn:P.
  assert (D : needs_review e = true -> ~ approvable repr e) by (intros N A; pose proof (ap_review _ _ A); congruence).
  apply persist_inv in P as [(m & -> & _)|[(-> & _ & _)|(i & d & t & a & _ & _ & _ & -> & _)]]; intros [= <- <-]; [left; eauto|right..];
    eexists; (split; [done|]); cbn; destruct (evaluate_cases repr e v V) as [(N & -> & ->)|[(N & A & -> & ->)|(N & A & -> & ->)]]; rewrite N, !elem_of_cons;
    split_and!; auto; split; try done; auto; intros A'; by destruct (D N A').
Qed.

(** *** Witnesses *)
Definition ex_repr (v : pyval) : string := "".
Definition ex_edge (i a b st : string) : pyval :=
  PDict [("edge_id", PStr i); ("from_node_id", PStr a); ("to_node_id", PStr b); ("status", PStr st); ("bidirectional", PBool true)]%string.
Definition ex_evidence : pydict :=
  [("task_id", PStr "TASK-1"); ("route_id", PStr "R1"); ("anomaly_type", PStr "VEHICLE_BREAKDOWN"); ("vehicle_id", PStr "V1");
   ("selected_vehicle_id", PStr "V2"); ("selected_driver_id", PStr "D2");
   ("candidate_vehicles", PList [PDict [("vehicle_id", PStr "V2"); ("driver_id", PStr "D2"); ("vehicle_status", PStr "AVAILABLE"); ("driver_status", PStr "ON_DUTY");
      ("eligible", PBool true); ("exclusion_reasons", PList []); ("remaining_capacity_kg", PStr "900.50")]]);
   ("cargo_weight_kg", PDecimal "700"); ("blocked_edge_ids", PList [PStr "E9"]); ("recommended_path", PDict [("node_ids", PList [PStr "A"; PStr "B"; PStr "C"]); ("edge_ids", PList [PStr "E1"; PStr "E2"])]);
   ("road_network_edges", PList [ex_edge "E1" "A" "B" "OPEN"; ex_edge "E2" "C" "B" "CONGESTED"; ex_edge "E9" "A" "C" "CLOSED"]);
   ("decision", PStr "REROUTE"); ("recommended_route", PStr "R2");
   ("dispatch_result", PDict [("dispatch_id", PInt 5); ("executed", PBool true); ("target_route_id", PStr "R2"); ("target_vehicle_id", PStr "V2"); ("target_driver_id", PStr "D2")])]%string.

Lemma ex_readable : readable ex_repr ex_evidence.
Proof.
  split; try reflexivity. intros i d E. unfold road_edges_by_id in E. cbn in E. rewrite !lookup_insert_Some, lookup_empty in E.
  by repeat (destruct E as [[_ <-]|[_ E]]).
Qed.


Lemma audit_approves_exactly_witness : readable ex_repr ex_evidence /\ exists r,
  (audit ex_repr (fun _ => ""%string) id ex_evidence (ex_store "PROCESSING")).1 = Ok r /\ audit_status r = "APPROVED"%string /\ audit_record_id r = Some 1 /\
  approvable ex_repr ex_evidence.
Proof.
  split; [apply ex_readable|].
  pose proof (audit_approves_exactly ex_repr (fun _ => ""%string) id ex_evidence (ex_store "PROCESSING") _ _ ex_readable (surjective_pairing _)) as [(m & E)|(r & E & A & _)].
  - exfalso. revert E. vm_compute. done.
  - exists r. split; [exact E|]. assert (S : audit_status r = "APPROVED"%string /\ audit_record_id r = Some 1) by (revert E; vm_compute; intros [= <-]; split; reflexivity).
    destruct S as [S I]. split; [exact S|]. split; [exact I|]. by apply A.
Defined.
