(* ===== verification/Decisions.v ===== *)
(** * Decisions: manual review and publication of a dispatch

    Models [app/reviews/service.py] and [app/publications/service.py] over the
    rows of Records.  Both services read their rows for update and commit once:
    [env] is what other sessions manage to commit in between.  A clock that is
    not timezone-aware is [None]. *)

From S2P Require Import Prelude Evidence Records AuditReview.
From S2P Require Idempotency Dispatch Worker.

Local Open Scope Z_scope.
Local Open Scope list_scope.

(** ** Review *)
Inductive ReviewDecision := APPROVE | REJECT.
#[export] Instance ReviewDecision_eq_dec : EqDecision ReviewDecision.
Proof. solve_decision. Defined.
Definition decision_value (d : ReviewDecision) : string := match d with APPROVE => "APPROVE" | REJECT => "REJECT" end.
Definition terminal_status (d : ReviewDecision) : string := match d with APPROVE => "APPROVED" | REJECT => "REJECTED" end.

Record ReviewDecisionResult := {
  r_task_id : string;
  r_decision : ReviewDecision;
  r_status : string;
  reviewer : string;
  decided_at : Z;
  dispatch_version : Z;
}.

Definition ReviewNotFound : exn := Exn "ReviewNotFound" "".
Definition ReviewAlreadyDecided : exn := Exn "ReviewAlreadyDecided" "".
Definition ReviewDispatchMissing : exn := Exn "ReviewDispatchMissing" "".
Definition ReviewReasonRequired : exn := Exn "ReviewReasonRequired" "".
Definition ReviewVersionConflict : exn := Exn "ReviewVersionConflict" "".

(** [_reason]. *)
Definition review_reason (d : ReviewDecision) (reason : option string) : result string :=
  let normalized := match reason with Some r => strip r | None => ""%string end in
  if 500 <? py_len normalized then Err (Exn "ValueError" "review reason exceeds 500 characters")
  else if bool_decide (d = REJECT) && (py_len normalized <? 2) then Err ReviewReasonRequired
  else if bool_decide (d = APPROVE) && String.eqb normalized "" then Ok "人工复核已批准。"%string
  else Ok normalized.

(** Who decides: the subject and the display name of the principal. *)
Record principal := { subject_id : string; shown_name : string }.

Definition task_decided (st : string) (t : Idempotency.DispatchTask) : Idempotency.DispatchTask := Idempotency.set_status st false true t.
Definition dispatch_decided (st : string) (d : Dispatch.Dispatch) : Dispatch.Dispatch :=
  {| Dispatch.d_id := Dispatch.d_id d; Dispatch.dispatch_no := Dispatch.dispatch_no d; Dispatch.d_order_id := Dispatch.d_order_id d; Dispatch.d_task_id := Dispatch.d_task_id d;
     Dispatch.d_original_route_id := Dispatch.d_original_route_id d; Dispatch.d_target_route_id := Dispatch.d_target_route_id d;
     Dispatch.d_original_vehicle_id := Dispatch.d_original_vehicle_id d; Dispatch.d_target_vehicle_id := Dispatch.d_target_vehicle_id d;
     Dispatch.d_target_driver_id := Dispatch.d_target_driver_id d; Dispatch.d_transfer_node_id := Dispatch.d_transfer_node_id d;
     Dispatch.d_decision_reason := Dispatch.d_decision_reason d; Dispatch.d_recommended_action := Dispatch.d_recommended_action d;
     Dispatch.d_analysis_mode := Dispatch.d_analysis_mode d; Dispatch.d_issue_subtype := Dispatch.d_issue_subtype d; Dispatch.d_fallback_used := Dispatch.d_fallback_used d;
     Dispatch.d_fallback_reason := Dispatch.d_fallback_reason d; Dispatch.d_status := st; Dispatch.d_version := Dispatch.d_version d + 1 |}.

(** [UPDATE .. WHERE id = .. AND version = ..]: [None] is the [StaleDataError]
    of a row another session has changed. *)
Definition update_dispatch (d : Dispatch.Dispatch) (st : string) (s : store) : option store :=
  let same x := (Dispatch.d_id x =? Dispatch.d_id d) && (Dispatch.d_version x =? Dispatch.d_version d) in
  if existsb same (dispatches s)
  then Some (with_dispatches s (map (fun x => if same x then dispatch_decided st x else x) (dispatches s)))
  else None.
Definition update_task (pk : Z) (st : string) (s : store) : store :=
  with_tasks s (map (fun t => if Idempotency.t_id t =? pk then task_decided st t else t) (tasks s)).

Section decide.
Context (dumps : pyval -> string) (isoformat : Z -> string).

Definition review_evidence (d : ReviewDecision) (now : Z) (p : principal) : string :=
  dumps (PDict [("decided_at", PStr (isoformat now)); ("decision", PStr (decision_value d)); ("reviewer_display_name", PStr (shown_name p));
                ("reviewer_subject_id", PStr (subject_id p))]%string).

Definition decide (env : store -> store) (clock : option Z) (task_id : string) (d : ReviewDecision) (reason : option string) (p : principal) : action store ReviewDecisionResult := fun s =>
  match (why ← review_reason d reason;
         t ← of_option ReviewNotFound (task_by_id s task_id);
         _ ← (if String.eqb (Idempotency.t_status t) "REVIEW_REQUIRED" then Ok tt else Err ReviewAlreadyDecided);
         x ← of_option ReviewDispatchMissing (dispatch_of_task s (Idempotency.t_id t));
         now ← of_option (Exn "ValueError" "review decision clock must be timezone-aware") clock;
         Ok (why, t, x, now)) with
  | Err e => (Err e, s)
  | Ok (why, t, x, now) =>
      let st := terminal_status d in
      match update_dispatch x st (update_task (Idempotency.t_id t) st (env s)) with
      | None => (Err ReviewVersionConflict, env s)
      | Some s1 =>
          match insert_audit (Idempotency.t_id t) (Dispatch.d_id x) st why (review_evidence d now p) s1 with
          | None => (Err IntegrityError, env s)
          | Some (_, s2) =>
              (Ok {| r_task_id := task_id; r_decision := d; r_status := st; reviewer := shown_name p; decided_at := now; dispatch_version := Dispatch.d_version x + 1 |}, s2)
          end
      end
  end.
End decide.

(** ** Publication *)
Record PublicationResult := {
  pr_task_id : string;
  pr_publication : DispatchPublication;
  recipient_employee_id : string;
  recipient_display_name : string;
  duplicate : bool;
}.
Definition PublicationTaskNotFound : exn := Exn "PublicationTaskNotFound" "".
Definition PublicationDispatchMissing : exn := Exn "PublicationDispatchMissing" "".
Definition PublicationNotApproved : exn := Exn "PublicationNotApproved" "".
Definition PublicationRouteMissing : exn := Exn "PublicationRouteMissing" "".

(** [x or y] on optional texts. *)
Definition or_text (x y : option string) : option string := match present x with Some s => Some s | None => y end.

Definition route_instruction (s : store) (d : Dispatch.Dispatch) (o : Order) (route : string) : string :=
  match Dispatch.d_target_vehicle_id d with
  | Some v =>
      if bool_decide (Dispatch.d_original_vehicle_id d = Some v)
      then "从 " +:+ origin o +:+ " 出发，按 " +:+ route +:+ " 行驶，前往 " +:+ destination o +:+ "。途中注意现场路况并服从安全调度。"
      else
        let driver := match Dispatch.d_target_driver_id d with
                      | Some i => match driver_names s !! i with Some n => n +:+ "（" +:+ i +:+ "）" | None => or_else (Some i) "未指定司机" end
                      | None => "未指定司机"%string
                      end in
        "换用车牌 " +:+ default v (plates s !! v) +:+ "，由司机 " +:+ driver +:+ "前往接驳节点 " +:+ or_else (Dispatch.d_transfer_node_id d) "未指定接驳节点"
          +:+ "，随后按路线 " +:+ route +:+ " 行驶至 " +:+ destination o +:+ "。"
  | None => "从 " +:+ origin o +:+ " 出发，按 " +:+ route +:+ " 行驶，前往 " +:+ destination o +:+ "。途中注意现场路况并服从安全调度。"
  end.

Definition publication_result (s : store) (t : Idempotency.DispatchTask) (p : DispatchPublication) (dup : bool) : PublicationResult :=
  let assignee := Idempotency.t_assignee_subject_id t in
  {| pr_task_id := Idempotency.t_task_id t; pr_publication := p; recipient_employee_id := or_else assignee "UNASSIGNED";
     recipient_display_name := match assignee ≫= (fun a => accounts s !! a) with Some x => display_name x | None => or_else assignee "未指定接收员工" end;
     duplicate := dup |}.

(** One publication per task and per dispatch. *)
Definition insert_publication (p : DispatchPublication) (s : store) : option store :=
  if existsb (fun x => (p_task_id x =? p_task_id p) || (p_dispatch_id x =? p_dispatch_id p)) (publications s) then None
  else Some (with_publications s (publications s ++ [p])).

Definition publishable (t : Idempotency.DispatchTask) (a : option AuditRecord) : bool :=
  one_of (Idempotency.t_status t) ["APPROVED"; "COMPLETED"]%string && match a with Some a => String.eqb (a_result a) "APPROVED" | None => false end.

(** What is read before the publication is written. *)
Definition to_publish (s : store) (clock : option Z) (t : Idempotency.DispatchTask) (subject name : string) : result DispatchPublication :=
  let pk := Idempotency.t_id t in
  d ← of_option PublicationDispatchMissing (dispatch_of_task s pk);
  _ ← (if publishable t (latest (about pk (Dispatch.d_id d)) (audits s)) then Ok tt else Err PublicationNotApproved);
  route ← of_option PublicationRouteMissing (or_text (Dispatch.d_target_route_id d) (Dispatch.d_original_route_id d));
  o ← of_option PublicationTaskNotFound (orders s !! Idempotency.t_order_id t);
  now ← of_option (Exn "ValueError" "publication clock must be timezone-aware") clock;
  Ok {| p_id := next_id p_id (publications s); p_task_id := pk; p_dispatch_id := Dispatch.d_id d; p_status := "PUBLISHED"; p_route_id := Some route;
        p_route_instruction := Some (route_instruction s d o route); published_by_subject_id := subject; published_by_display_name := name; published_at := now |}.

(** [_publish]. *)
Definition publish_as (env : store -> store) (clock : option Z) (task_id subject name : string) : action store PublicationResult := fun s =>
  match task_by_id s task_id with
  | None => (Err PublicationTaskNotFound, s)
  | Some t =>
      match publication_of_task s (Idempotency.t_id t) with
      | Some p => (Ok (publication_result s t p true), s)
      | None =>
          match to_publish s clock t subject name with
          | Err e => (Err e, s)
          | Ok p =>
              match insert_publication p (env s) with
              | Some s' => (Ok (publication_result s' t p false), s')
              | None =>
                  match task_by_id (env s) task_id ≫= (fun t' => (fun p' => (t', p')) <$> publication_of_task (env s) (Idempotency.t_id t')) with
                  | Some (t', p') => (Ok (publication_result (env s) t' p' true), env s)
                  | None => (Err IntegrityError, env s)
                  end
              end
          end
      end
  end.
Definition publish (env : store -> store) (clock : option Z) (task_id : string) (p : principal) : action store PublicationResult :=
  publish_as env clock task_id (subject_id p) (shown_name p).
Definition publish_automatically (env : store -> store) (clock : option Z) (task_id : string) : action store PublicationResult :=
  publish_as env clock task_id "countyflow-ai" "CountyFlow AI 自动发布".

(** ** Lemmas *)
Lemma latest_map {A} (p : A -> bool) (f : A -> A) l : (forall x, p (f x) = p x) -> latest p (map f l) = f <$> latest p l.
Proof. intros H. unfold latest. rewrite <- map_rev. by apply find_map. Qed.

Lemma insert_publication_inv p s s' : insert_publication p s = Some s' ->
  s' = with_publications s (publications s ++ [p]) /\ forall x, x ∈ publications s -> p_task_id x <> p_task_id p /\ p_dispatch_id x <> p_dispatch_id p.
Proof.
  unfold insert_publication. destruct (existsb _ _) eqn:F; [done|]. intros [= <-]. split; [done|]. intros x Hx.
  rewrite <- not_true_iff_false, existsb_exists in F. split; intros E; apply F; exists x; rewrite <- list_elem_of_In, E, Z.eqb_refl; [done|by rewrite orb_true_r].
Qed.

Lemma update_dispatch_inv x st s s' : update_dispatch x st s = Some s' -> exists f, (forall y, Dispatch.d_task_id (f y) = Dispatch.d_task_id y /\ Dispatch.d_id (f y) = Dispatch.d_id y /\
    Dispatch.d_target_route_id (f y) = Dispatch.d_target_route_id y /\ Dispatch.d_original_route_id (f y) = Dispatch.d_original_route_id y) /\ s' = with_dispatches s (map f (dispatches s)).
Proof. unfold update_dispatch. destruct (existsb _ _); [|done]. intros [= <-]. eexists. split; [|reflexivity]. intros y. simpl. by destruct (_ && _). Qed.

Lemma decide_inv dumps iso env clock tid d reason p s x s' : decide dumps iso env clock tid d reason p s = (x, s') ->
  (exists e, x = Err e /\ (s' = s \/ s' = env s)) \/
  (exists r t y why s1 a, x = Ok r /\ task_by_id s tid = Some t /\ Idempotency.t_status t = "REVIEW_REQUIRED"%string /\
     dispatch_of_task s (Idempotency.t_id t) = Some y /\ review_reason d reason = Ok why /\
     update_dispatch y (terminal_status d) (update_task (Idempotency.t_id t) (terminal_status d) (env s)) = Some s1 /\
     s' = with_audits s1 (audits (env s) ++ [a]) /\ about (Idempotency.t_id t) (Dispatch.d_id y) a = true /\ a_result a = terminal_status d).
Proof.
  unfold decide. destruct (review_reason d reason) as [why|e] eqn:Rr; cbn; [|intros [= <- <-]; left; eauto].
  destruct (task_by_id s tid) as [t|] eqn:T; cbn; [|intros [= <- <-]; left; eauto].
  destruct (String.eqb_spec (Idempotency.t_status t) "REVIEW_REQUIRED"); cbn; [|intros [= <- <-]; left; eauto].
  destruct (dispatch_of_task s _) as [y|] eqn:D; cbn; [|intros [= <- <-]; left; eauto].
  destruct clock as [now|]; cbn; [|intros [= <- <-]; left; eauto].
  destruct (update_dispatch _ _ _) as [s1|] eqn:U; [|intros [= <- <-]; left; eauto].
  destruct (insert_audit _ _ _ _ _ _) as [[a s2]|] eqn:I; intros [= <- <-]; [|left; eauto]. right.
  apply insert_audit_inv in I as (-> & Ab & Ar). destruct (update_dispatch_inv _ _ _ _ U) as (f & _ & E1). eexists _, t, y, why, s1, a. split_and!; try done. by rewrite E1.
Qed.

Lemma to_publish_inv s clock t subject name p : to_publish s clock t subject name = Ok p -> exists d a route o,
  dispatch_of_task s (Idempotency.t_id t) = Some d /\ latest (about (Idempotency.t_id t) (Dispatch.d_id d)) (audits s) = Some a /\ a_result a = "APPROVED"%string /\
  Idempotency.t_status t ∈ ["APPROVED"; "COMPLETED"]%string /\ orders s !! Idempotency.t_order_id t = Some o /\
  or_text (Dispatch.d_target_route_id d) (Dispatch.d_original_route_id d) = Some route /\
  p_task_id p = Idempotency.t_id t /\ p_dispatch_id p = Dispatch.d_id d /\ p_route_id p = Some route /\ p_route_instruction p = Some (route_instruction s d o route).
Proof.
  unfold to_publish. intros H. apply result_bind_ok in H as (d & D & H). apply result_bind_ok in H as ([] & P & H).
  apply result_bind_ok in H as (route & R & H). apply result_bind_ok in H as (o & O & H). apply result_bind_ok in H as (now & _ & [= <-]).
  destruct (dispatch_of_task s _) as [d'|]; [|done]. injection D as ->. destruct (publishable t _) eqn:Q; [|done]. unfold publishable in Q. results.
  destruct (latest _ _) as [a|] eqn:L; [|done]. destruct (or_text _ _) as [r|] eqn:Or; [|done]. destruct (orders s !! _) as [o'|]; [|done]. injection R as ->. injection O as ->.
  exists d, a, route, o. split_and!; try done; [by apply String.eqb_eq|by apply one_of_true].
Qed.

Lemma publish_inv env clock tid subject name s x s' : publish_as env clock tid subject name s = (x, s') ->
  (s' = s \/ s' = env s) \/
  (exists t p, task_by_id s tid = Some t /\ publication_of_task s (Idempotency.t_id t) = None /\ to_publish s clock t subject name = Ok p /\
     insert_publication p (env s) = Some s' /\ x = Ok (publication_result s' t p false)).
Proof.
  unfold publish_as. destruct (task_by_id s tid) as [t|] eqn:T; [|intros [= <- <-]; auto]. destruct (publication_of_task s _) eqn:P; [intros [= <- <-]; auto|].
  destruct (to_publish s clock t subject name) as [p|e] eqn:Tp; [|intros [= <- <-]; auto]. destruct (insert_publication p (env s)) as [s1|] eqn:I.
  - intros [= <- <-]. right. exists t, p. by split_and!.
  - destruct (_ ≫= _) as [[t' p']|]; intros [= <- <-]; auto.
Qed.

Lemma audit_inv repr dumps env e s x s' : audit repr dumps env e s = (x, s') ->
  (s' = s \/ s' = env s) \/
  exists v d t a, evaluate repr e = Ok v /\ integer (get (the_dispatch e) "dispatch_id") = Some d /\ insert_audit (Idempotency.t_id t) d (v_status v) (v_reason v)
    (dumps (PDict (graph_evidence repr e))) (env s) = Some (a, s').
Proof.
  unfold audit. destruct (evaluate repr e) as [v|] eqn:V; cbn; [|intros [= <- <-]; auto]. unfold encode. destruct (json_serializable _); cbn; [|intros [= <- <-]; auto].
  destruct (persist_if_possible _ _ _ _ _ _ _) as [y s1] eqn:P. apply persist_inv in P as [(m & -> & Q)|[(-> & -> & _)|(i & d & t & a & _ & D & _ & -> & [[-> _]|[_ I]])]].
  1-3: intros [= <- <-]; auto. intros [= <- <-]. right. by exists v, d, t, a.
Qed.

(** ** Interleaved sessions

    What the sessions did, in order.  Each service reads in one state and
    commits in a later one, reached by the steps of the others; the worker and
    the dispatch service may change tasks and dispatches in any way, but write
    neither audits nor publications. *)
Inductive event :=
| Audited (e : pydict)
| Reviewed (task dispatch : Z) (d : ReviewDecision) (p : principal)
| Published (task_id : string) (subject : string).

Section history.
Context (repr : pyval -> string) (dumps : pyval -> string) (isoformat : Z -> string).

Inductive run : store -> list event -> store -> Prop :=
| run_start s : run s [] s
| run_work s tr s1 ts ds : run s tr s1 -> run s tr (with_dispatches (with_tasks s1 ts) ds)
| run_audit s tr1 s1 tr2 s2 e r s3 : run s tr1 s1 -> run s1 tr2 s2 -> audit repr dumps (fun _ => s2) e s1 = (Ok r, s3) -> run s (tr1 ++ tr2 ++ [Audited e]) s3
| run_review s tr1 s1 tr2 s2 clock tid d reason p t y r s3 : run s tr1 s1 -> run s1 tr2 s2 ->
    decide dumps isoformat (fun _ => s2) clock tid d reason p s1 = (Ok r, s3) -> task_by_id s1 tid = Some t -> dispatch_of_task s1 (Idempotency.t_id t) = Some y ->
    run s (tr1 ++ tr2 ++ [Reviewed (Idempotency.t_id t) (Dispatch.d_id y) d p]) s3
| run_publish s tr1 s1 tr2 s2 clock tid subject name r s3 : run s tr1 s1 -> run s1 tr2 s2 ->
    publish_as (fun _ => s2) clock tid subject name s1 = (Ok r, s3) -> run s (tr1 ++ tr2 ++ [Published tid subject]) s3.

(** An audit that approved the dispatch, or a reviewer who did. *)
Definition approved_by (tr : list event) (task dispatch : Z) : Prop :=
  (exists e, Audited e ∈ tr /\ approvable repr e /\ integer (get (the_dispatch e) "dispatch_id") = Some dispatch) \/
  (exists p, Reviewed task dispatch APPROVE p ∈ tr).

Lemma approved_by_mono tr tr' task did : (forall e, e ∈ tr -> e ∈ tr') -> approved_by tr task did -> approved_by tr' task did.
Proof. intros H [(e & M & R)|(p & M)]; [left; exists e; auto|right; exists p; auto]. Qed.

(** What a run leaves: the old records, and new ones that are accounted for. *)
Record accounted (s : store) (tr : list event) (s' : store) : Prop := {
  ac_kept : forall a, a ∈ audits s -> a ∈ audits s';
  ac_audits : forall a, a ∈ audits s' -> a ∈ audits s \/ (a_result a = "APPROVED"%string -> approved_by tr (a_task_id a) (a_dispatch_id a));
  ac_publications : forall p, p ∈ publications s' -> p ∈ publications s \/
    exists a, a ∈ audits s' /\ about (p_task_id p) (p_dispatch_id p) a = true /\ a_result a = "APPROVED"%string;
}.

Lemma accounted_trans s tr1 s1 tr2 s2 : accounted s tr1 s1 -> accounted s1 tr2 s2 -> accounted s (tr1 ++ tr2) s2.
Proof.
  intros [K1 A1 P1] [K2 A2 P2]. split.
  - auto.
  - intros a [H|H]%A2; [apply A1 in H as [?|J]; [by left|right]|right]; intros E; (eapply approved_by_mono; [|by first [apply J|apply H]]); intros ev; rewrite elem_of_app; auto.
  - intros p [H|H]%P2; [|by right]. apply P1 in H as [?|(a & M & R)]; [by left|]. right. exists a. auto.
Qed.

Lemma accounted_same s tr s' : audits s' = audits s -> publications s' = publications s -> accounted s tr s'.
Proof. intros A P. split; rewrite ?A, ?P; auto. Qed.

Lemma accounted_record s tr a s' : audits s' = audits s ++ [a] -> publications s' = publications s ->
  (a_result a = "APPROVED"%string -> approved_by tr (a_task_id a) (a_dispatch_id a)) -> accounted s tr s'.
Proof.
  intros A P J. split; rewrite ?A, ?P; auto.
  - intros b H. apply elem_of_app. by left.
  - intros b [H|<-%elem_of_one]%elem_of_app; auto.
Qed.

Lemma run_accounted s tr s' : run s tr s' -> accounted s tr s'.
Proof.
  induction 1 as [s|s tr s1 ts ds R IH|s tr1 s1 tr2 s2 e r s3 R1 IH1 R2 IH2 E|s tr1 s1 tr2 s2 clock tid d reason p t y r s3 R1 IH1 R2 IH2 E T Y|s tr1 s1 tr2 s2 clock tid subject name r s3 R1 IH1 R2 IH2 E].
  - by apply accounted_same.
  - rewrite <- (app_nil_r tr). eapply accounted_trans; [exact IH|]. by apply accounted_same.
  - eapply accounted_trans; [exact IH1|]. apply audit_inv in E as [[-> | ->]|(v & d & t & a & V & D & I)]; [by apply accounted_same|eapply accounted_trans; [exact IH2|by apply accounted_same]|].
    eapply accounted_trans; [exact IH2|]. pose proof I as I'. apply insert_audit_inv in I as (-> & Ab & Ar). eapply accounted_record; [done|done|]. intros Ap. left. exists e.
    split; [by left|]. apply andb_true_iff in Ab as [_ Ab%Z.eqb_eq]. rewrite Ab. split; [|done]. rewrite Ar in Ap.
    destruct (evaluate_cases repr e v V) as [(_ & X & _)|[(_ & A & _)|(_ & _ & X & _)]]; [by rewrite X in Ap|done|by rewrite X in Ap].
  - eapply accounted_trans; [exact IH1|]. apply decide_inv in E as [(e & [=] & _)|(r' & t' & y' & why & s4 & a & _ & T' & _ & Y' & _ & U & -> & Ab & Ar)].
    rewrite T in T'. injection T' as <-. rewrite Y in Y'. injection Y' as <-. eapply accounted_trans; [exact IH2|]. destruct (update_dispatch_inv _ _ _ _ U) as (f & _ & ->).
    eapply accounted_record; [done|done|]. rewrite Ar. intros Ap. right. exists p. apply andb_true_iff in Ab as [Ab1%Z.eqb_eq Ab2%Z.eqb_eq]. rewrite Ab1, Ab2. destruct d; [by left|done].
  - apply publish_inv in E as [[-> | ->]|(t & q & T & _ & Tp & I & _)].
    + eapply accounted_trans; [exact IH1|]. by apply accounted_same.
    + eapply accounted_trans; [exact IH1|]. eapply accounted_trans; [exact IH2|]. by apply accounted_same.
    + apply insert_publication_inv in I as [-> _]. apply to_publish_inv in Tp as (x & a & route & o & _ & L & Ra & _ & _ & _ & Pt & Pd & _). apply latest_some in L as [La Lb].
      pose proof (accounted_trans _ _ _ _ _ IH1 IH2) as IH. rewrite app_assoc. eapply accounted_trans; [exact IH|]. split; [auto|auto|]. cbn [publications with_publications audits].
      intros u [H|<-%elem_of_one]%elem_of_app; [by left|]. right. exists a. rewrite Pt, Pd. split_and!; try done. by apply (ac_kept _ _ _ IH2).
Qed.
End history.

Definition once (s : store) : Prop := NoDup (map p_task_id (publications s)) /\ NoDup (map p_dispatch_id (publications s)).

Lemma insert_once p s s' : insert_publication p s = Some s' -> once s -> once s'.
Proof.
  intros [-> F]%insert_publication_inv [N1 N2]. unfold once. cbn [publications with_publications]. rewrite !map_app.
  split; (apply NoDup_app; split; [done|]; split; [|apply NoDup_singleton]); intros z (x & Hx & ->)%Idempotency.elem_map_inv E%elem_of_one; by destruct (F x Hx).
Qed.

Lemma run_once_each repr dumps iso s tr s' : run repr dumps iso s tr s' -> once s -> once s'.
Proof.
  induction 1 as [s|s tr s1 ts ds R IH|s tr1 s1 tr2 s2 e r s3 R1 IH1 R2 IH2 E|s tr1 s1 tr2 s2 clock tid d reason p t y r s3 R1 IH1 R2 IH2 E T Y|s tr1 s1 tr2 s2 clock tid subject name r s3 R1 IH1 R2 IH2 E]; intros O.
  - done.
  - exact (IH O).
  - apply audit_inv in E as [[-> | ->]|(v & d & t & a & _ & _ & (-> & _)%insert_audit_inv)]; auto; exact (IH2 (IH1 O)).
  - apply decide_inv in E as [(e & [=] & _)|(r' & t' & y' & why & s4 & a & _ & _ & _ & _ & _ & U & -> & _)]. destruct (update_dispatch_inv _ _ _ _ U) as (f & _ & ->). exact (IH2 (IH1 O)).
  - apply publish_inv in E as [[-> | ->]|(t & q & _ & _ & _ & I & _)]; [auto|auto|]. eapply insert_once; [exact I|auto].
Qed.

(** *** After an undisturbed decision, the rows it is about *)
Lemma decided_rows dumps iso clock tid d reason p s r s' : decide dumps iso id clock tid d reason p s = (Ok r, s') ->
  exists t x a, task_by_id s tid = Some t /\ dispatch_of_task s (Idempotency.t_id t) = Some x /\
    task_by_id s' tid = Some (task_decided (terminal_status d) t) /\ dispatch_of_task s' (Idempotency.t_id t) = Some (dispatch_decided (terminal_status d) x) /\
    audits s' = audits s ++ [a] /\ about (Idempotency.t_id t) (Dispatch.d_id x) a = true /\ a_result a = terminal_status d /\
    publications s' = publications s /\ orders s' = orders s /\ plates s' = plates s /\ driver_names s' = driver_names s.
Proof.
  intros E. apply decide_inv in E as [(e & [=] & _)|(r' & t & x & why & s1 & a & _ & T & _ & D & _ & U & -> & Ab & Ar)].
  exists t, x, a. unfold update_dispatch in U. destruct (existsb _ _); [|done]. injection U as <-. cbn [audits with_audits publications orders with_dispatches update_task with_tasks plates driver_names].
  split_and!; try done.
  - unfold task_by_id. cbn [tasks with_audits with_dispatches update_task with_tasks]. rewrite find_map by (intros y; by case_match).
    fold (task_by_id s tid). change (id s) with s. unfold task_by_id in T |- *. rewrite T. cbn. by rewrite Z.eqb_refl.
  - unfold dispatch_of_task. cbn [dispatches with_audits with_dispatches update_task with_tasks]. rewrite latest_map by (intros y; unfold of_task; by case_match).
    change (id s) with s. unfold dispatch_of_task in D. rewrite D. cbn. by rewrite !Z.eqb_refl.
Qed.

(** A publication that nothing disturbs, once the rows allow it. *)
Lemma publish_succeeds now tid subject name s t x a route o :
  task_by_id s tid = Some t -> publication_of_task s (Idempotency.t_id t) = None -> dispatch_of_task s (Idempotency.t_id t) = Some x ->
  latest (about (Idempotency.t_id t) (Dispatch.d_id x)) (audits s) = Some a -> a_result a = "APPROVED"%string -> Idempotency.t_status t ∈ ["APPROVED"; "COMPLETED"]%string ->
  or_text (Dispatch.d_target_route_id x) (Dispatch.d_original_route_id x) = Some route -> orders s !! Idempotency.t_order_id t = Some o ->
  (forall p, p ∈ publications s -> p_task_id p <> Idempotency.t_id t /\ p_dispatch_id p <> Dispatch.d_id x) ->
  exists p, publish_as id (Some now) tid subject name s = (Ok (publication_result (with_publications s (publications s ++ [p])) t p false), with_publications s (publications s ++ [p])) /\
    p_task_id p = Idempotency.t_id t /\ p_dispatch_id p = Dispatch.d_id x /\ p_route_id p = Some route /\ p_route_instruction p = Some (route_instruction s x o route).
Proof.
  intros T N D L R St Ro Or Fr. unfold publish_as. rewrite T, N. unfold to_publish. rewrite D. cbn. unfold publishable. rewrite L, R. apply one_of_true in St. rewrite St. cbn.
  rewrite Ro. cbn. rewrite Or. cbn. unfold insert_publication. cbn [p_task_id p_dispatch_id]. destruct (existsb _ _) eqn:F.
  - exfalso. apply existsb_exists in F as (p & P%list_elem_of_In & F). apply orb_true_iff in F as [F%Z.eqb_eq|F%Z.eqb_eq]; by destruct (Fr p P).
  - eexists. split; [reflexivity|]. done.
Qed.

Lemma task_decided_status st t : Idempotency.t_status (task_decided st t) = st.
Proof. done. Qed.

Lemma publish_refused clock tid subject name s t x : task_by_id s tid = Some t -> publication_of_task s (Idempotency.t_id t) = None ->
  dispatch_of_task s (Idempotency.t_id t) = Some x -> publishable t (latest (about (Idempotency.t_id t) (Dispatch.d_id x)) (audits s)) = false ->
  publish_as id clock tid subject name s = (Err PublicationNotApproved, s).
Proof. intros T N D F. unfold publish_as. rewrite T, N. unfold to_publish. rewrite D. cbn. by rewrite F. Qed.

Lemma no_publication_of_task s pk : (forall q, q ∈ publications s -> p_task_id q <> pk) -> publication_of_task s pk = None.
Proof.
  intros H. unfold publication_of_task. destruct (List.find _ _) as [q|] eqn:F; [|done]. apply List.find_some in F as [Q%list_elem_of_In E%Z.eqb_eq]. by destruct (H q Q).
Qed.

(** ** Properties *)

(** C10: Nothing is published without approval.  However the audits, reviews and
    publications of several sessions interleave, and whatever the worker does
    to tasks and dispatches meanwhile, starting without records every
    publication is about a dispatch that an audit approved, because its
    evidence may stand, or that a reviewer approved; and no task and no
    dispatch is published twice. *)
Theorem published_only_after_approval repr dumps iso s tr s' : audits s = [] -> publications s = [] -> run repr dumps iso s tr s' ->
  (forall p, p ∈ publications s' -> approved_by repr tr (p_task_id p) (p_dispatch_id p)) /\ NoDup (map p_task_id (publications s')) /\ NoDup (map p_dispatch_id (publications s')).
Proof.
  intros A P R. pose proof (run_accounted _ _ _ _ _ _ R) as [_ Ja Jp]. split.
  - intros p [H|(a & M & Ab & Ra)]%Jp; [by rewrite P in H; apply not_elem_of_nil in H|]. apply Ja in M as [M|J]; [by rewrite A in M; apply not_elem_of_nil in M|].
    apply andb_true_iff in Ab as [E1%Z.eqb_eq E2%Z.eqb_eq]. rewrite <- E1, <- E2. auto.
  - eapply run_once_each; [exact R|]. unfold once. rewrite P. split; constructor.
Qed.

(** A reviewer's decision settles the task: it cannot be decided again, an
    approved dispatch can be published right away with its route and the
    instruction for the driver, and a rejected one cannot be published. *)
Theorem decision_settles_publication dumps iso clock tid d reason p s r s' : decide dumps iso id clock tid d reason p s = (Ok r, s') ->
  exists t x, task_by_id s tid = Some t /\ dispatch_of_task s (Idempotency.t_id t) = Some x /\
    (forall clock2 d2 reason2 p2, (exists why2, review_reason d2 reason2 = Ok why2) -> decide dumps iso id clock2 tid d2 reason2 p2 s' = (Err ReviewAlreadyDecided, s')) /\
    ((forall q, q ∈ publications s -> p_task_id q <> Idempotency.t_id t /\ p_dispatch_id q <> Dispatch.d_id x) ->
     forall now subject name, match d with
     | REJECT => publish_as id now tid subject name s' = (Err PublicationNotApproved, s')
     | APPROVE => forall instant route o, now = Some instant -> or_text (Dispatch.d_target_route_id x) (Dispatch.d_original_route_id x) = Some route ->
         orders s !! Idempotency.t_order_id t = Some o ->
         exists q res, publish_as id now tid subject name s' = (Ok res, with_publications s' (publications s' ++ [q])) /\ duplicate res = false /\ pr_publication res = q /\
           p_task_id q = Idempotency.t_id t /\ p_dispatch_id q = Dispatch.d_id x /\ p_route_id q = Some route /\ p_route_instruction q = Some (route_instruction s x o route)
     end).
Proof.
  intros E. destruct (decided_rows _ _ _ _ _ _ _ _ _ _ E) as (t & x & a & T & X & T' & X' & Au & Ab & Ar & Pu & Or & Pl & Dn). exists t, x. split_and!; try done.
  - intros clock2 d2 reason2 p2 [why2 Rr]. unfold decide. rewrite Rr. cbn. rewrite T'. cbn. by destruct d.
  - intros Fr now subject name.
    assert (N : publication_of_task s' (Idempotency.t_id t) = None) by (apply no_publication_of_task; intros q Q; rewrite Pu in Q; by apply Fr).
    assert (L : latest (about (Idempotency.t_id t) (Dispatch.d_id x)) (audits s') = Some a) by (by rewrite Au, latest_snoc, Ab).
    destruct d.
    + intros instant route o -> Ro Oo.
      destruct (publish_succeeds instant tid subject name s' _ _ a route o T' N X' L Ar) as (q & Q & Q1 & Q2 & Q3 & Q4); [by left|done|by rewrite Or|by rewrite Pu|].
      exists q. eexists. split_and!; [exact Q|done|done|done|done|done|]. rewrite Q4. f_equal. unfold route_instruction. by rewrite Pl, Dn.
    + eapply publish_refused; [exact T'|exact N|exact X'|]. unfold publishable. cbn [task_decided Idempotency.set_status Idempotency.t_id Dispatch.d_id dispatch_decided]. by rewrite L, Ar, andb_false_r.
Qed.

(** The record of an audit is written once: when a rejected dispatch is
    audited again and now passes, the answer approves it and the worker takes
    the task for approved, but the record still rejects it, and it cannot be
    published. *)
Theorem retried_audit_blocks_publication repr dumps env e s tid t x a r s' clock subject name :
  task_by_id s tid = Some t -> dispatch_of_task s (Idempotency.t_id t) = Some x -> audits s = [a] -> about (Idempotency.t_id t) (Dispatch.d_id x) a = true ->
  a_result a = "REJECTED"%string -> publications s = [] -> field e "task_id" = Some tid -> integer (get (the_dispatch e) "dispatch_id") = Some (Dispatch.d_id x) ->
  readable repr e -> approvable repr e -> audit repr dumps env e s = (r, s') ->
  s' = s /\ (exists res, r = Ok res /\ audit_status res = "APPROVED"%string /\ audit_record_id res = Some (a_id a) /\
    Worker.terminal_state [("audit_result"%string, audit_result_to_state res); ("requires_manual_review"%string, PBool (requires_manual_review res))] = (Some "APPROVED"%string, false, None)) /\
  publish_as id clock tid subject name (update_task (Idempotency.t_id t) "APPROVED" s) = (Err PublicationNotApproved, update_task (Idempotency.t_id t) "APPROVED" s).
Proof.
  intros T X Au Ab Ra Pu Ft Fd R A E. destruct (evaluate_total repr e R) as [v V].
  assert (V' : v_status v = "APPROVED"%string /\ v_manual v = false).
  { destruct (evaluate_cases repr e v V) as [(N & _)|[(_ & _ & Q)|(_ & N & _)]]; [|done|done]. pose proof (ap_review _ _ A). congruence. }
  destruct V' as [St Ma]. unfold audit in E. rewrite V in E. cbn [mbind result_bind] in E. unfold encode in E. rewrite graph_evidence_json in E by apply R. cbn in E.
  rewrite Fd, Ft in E. unfold persist_if_possible in E. rewrite T in E. rewrite Au in E. cbn [List.find] in E. rewrite Ab in E. injection E as <- <-.
  split; [done|]. split.
  - eexists. split; [reflexivity|]. cbn. by rewrite St, Ma.
  - apply publish_refused with (task_decided "APPROVED" t) x.
    + unfold task_by_id. cbn [tasks update_task with_tasks]. rewrite find_map by (intros y; by case_match). unfold task_by_id in T. rewrite T. cbn. by rewrite Z.eqb_refl.
    + unfold publication_of_task. cbn [publications update_task with_tasks]. by rewrite Pu.
    + exact X.
    + unfold publishable. cbn [audits update_task with_tasks]. rewrite Au. unfold latest. cbn [rev app List.find task_decided Idempotency.set_status Idempotency.t_id].
      rewrite Ab, Ra. by rewrite andb_false_r.
Qed.

(** *** Witnesses *)
Definition ex_principal : principal := {| subject_id := "SUP-1"; shown_name := "Supervisor" |}.
Definition ex_dumps (v : pyval) : string := "{}".
Definition ex_iso (t : Z) : string := "".
Definition ex_decide (d : ReviewDecision) := decide ex_dumps ex_iso id (Some 10) "TASK-1" d (Some "checked"%string) ex_principal (ex_store "REVIEW_REQUIRED").
Definition ex_publish := publish_as id (Some 11) "TASK-1" "SUP-1" "Supervisor" (ex_decide APPROVE).2.

Lemma published_only_after_approval_witness : exists p, publications ex_publish.2 = [p] /\
  approved_by ex_repr [Reviewed 1 5 APPROVE ex_principal; Published "TASK-1" "SUP-1"] (p_task_id p) (p_dispatch_id p).
Proof.
  assert (R : run ex_repr ex_dumps ex_iso (ex_store "REVIEW_REQUIRED") [Reviewed 1 5 APPROVE ex_principal; Published "TASK-1" "SUP-1"] ex_publish.2).
  { assert (E1 : exists r, ex_decide APPROVE = (Ok r, (ex_decide APPROVE).2)) by (eexists; vm_compute; reflexivity). destruct E1 as [r1 E1].
    assert (E2 : exists r, ex_publish = (Ok r, ex_publish.2)) by (eexists; vm_compute; reflexivity). destruct E2 as [r2 E2].
    apply (run_publish _ _ _ _ [Reviewed 1 5 APPROVE ex_principal] (ex_decide APPROVE).2 [] (ex_decide APPROVE).2 (Some 11) "TASK-1" "SUP-1" "Supervisor" r2); [|apply run_start|exact E2].
    apply (run_review _ _ _ _ [] (ex_store "REVIEW_REQUIRED") [] (ex_store "REVIEW_REQUIRED") (Some 10) "TASK-1" APPROVE (Some "checked"%string) ex_principal (ex_task "REVIEW_REQUIRED") ex_dispatch r1);
      [apply run_start|apply run_start|exact E1|reflexivity|reflexivity]. }
  pose proof (published_only_after_approval ex_repr ex_dumps ex_iso (ex_store "REVIEW_REQUIRED") _ _ eq_refl eq_refl R) as [H _].
  assert (P : exists p, publications ex_publish.2 = [p]) by (eexists; vm_compute; reflexivity). destruct P as [p P]. exists p. split; [exact P|].
  apply H. rewrite P. by left.
Defined.

Lemma decision_settles_publication_witness : exists q res, ex_publish = (Ok res, with_publications (ex_decide APPROVE).2 [q]) /\ p_route_id q = Some "R2"%string /\
  (publish_as id (Some 11) "TASK-1" "SUP-1" "Supervisor" (ex_decide REJECT).2).1 = Err PublicationNotApproved.
Proof.
  assert (E1 : exists r, ex_decide APPROVE = (Ok r, (ex_decide APPROVE).2)) by (eexists; vm_compute; reflexivity). destruct E1 as [r1 E1].
  assert (E2 : exists r, ex_decide REJECT = (Ok r, (ex_decide REJECT).2)) by (eexists; vm_compute; reflexivity). destruct E2 as [r2 E2].
  destruct (decision_settles_publication _ _ _ _ _ _ _ _ _ _ E1) as (t & x & T & X & _ & H). destruct (decision_settles_publication _ _ _ _ _ _ _ _ _ _ E2) as (t' & x' & T' & X' & _ & H').
  injection T as <-. injection X as <-. injection T' as <-. injection X' as <-.
  assert (Fr : forall q, q ∈ publications (ex_store "REVIEW_REQUIRED") -> p_task_id q <> 1 /\ p_dispatch_id q <> 5) by (intros q Q; apply elem_of_nil in Q; destruct Q).
  specialize (H Fr (Some 11) "SUP-1"%string "Supervisor"%string 11 "R2"%string {| origin := "A"; destination := "B" |} eq_refl eq_refl eq_refl).
  specialize (H' Fr (Some 11) "SUP-1"%string "Supervisor"%string). cbv iota in H'.
  destruct H as (q & res & E & _ & _ & _ & _ & R & _). exists q, res. split; [exact E|]. split; [exact R|]. exact (f_equal fst H').
Defined.

Definition ex_rejected : AuditRecord := {| a_id := 1; a_task_id := 1; a_dispatch_id := 5; a_result := "REJECTED"; a_reason := "Recommended path includes a blocked edge."; a_evidence_json := "{}" |}.
Definition ex_retried : store := with_audits (ex_store "PROCESSING") [ex_rejected].

Lemma ex_evidence_approvable : approvable ex_repr ex_evidence.
Proof.
  assert (E : exists v, evaluate ex_repr ex_evidence = Ok v /\ v_status v = "APPROVED"%string) by (eexists; split; [vm_compute; reflexivity|reflexivity]).
  destruct E as (v & V & S). destruct (evaluate_cases _ _ _ V) as [(_ & Q & _)|[(_ & A & _)|(_ & _ & Q & _)]]; [congruence|done|congruence].
Qed.

Lemma retried_audit_blocks_publication_witness : exists r, audit ex_repr ex_dumps id ex_evidence ex_retried = (r, ex_retried) /\
  (publish_automatically id (Some 11) "TASK-1" (update_task 1 "APPROVED" ex_retried)).1 = Err PublicationNotApproved.
Proof.
  destruct (audit ex_repr ex_dumps id ex_evidence ex_retried) as [r s'] eqn:E. exists r.
  destruct (retried_audit_blocks_publication ex_repr ex_dumps id ex_evidence ex_retried "TASK-1" (ex_task "PROCESSING") ex_dispatch ex_rejected r s' (Some 11) "countyflow-ai" "CountyFlow AI 自动发布"
    eq_refl eq_refl eq_refl eq_refl eq_refl eq_refl eq_refl eq_refl ex_readable ex_evidence_approvable E) as (-> & _ & P).
  split; [reflexivity|]. unfold publish_automatically. exact (f_equal fst P).
Defined.
