(* ===== verification/EventPayloads.v ===== *)
(** * EventPayloads: what the events of a task tell

    Models [app/events/graph_payloads.py], the projections of an untyped patch
    of the graph state to the data of an event, the choice among them and the
    encoding in [app/events/graph_adapter.py], and [app/events/visibility.py],
    which hides part of an event until its task is published.  A validator
    answers [None] for [_INVALID]; a Python sequence that is no text is a list. *)

From S2P Require Import Prelude Evidence Records.
From S2P Require Idempotency MemoryPolicy.

Local Open Scope Z_scope.
Local Open Scope list_scope.

(** ** Validators *)
Definition validator : Type := pyval -> option pyval.
Definition v_text : validator := fun v => match v with PStr _ => Some v | _ => None end.
Definition nullable (f : validator) : validator := fun v => match v with PNone => Some PNone | _ => f v end.
Definition nullable_text : validator := nullable v_text.
Definition v_boolean : validator := fun v => match v with PBool _ => Some v | _ => None end.
Definition v_integer : validator := fun v => match v with PInt _ => Some v | _ => None end.
Definition nullable_integer : validator := nullable v_integer.
Definition v_number : validator := fun v => match v with PStr _ | PInt _ | PFloat _ | PDecimal _ => Some v | _ => None end.
Definition nullable_number : validator := nullable v_number.
Definition is_text (v : pyval) : bool := match v with PStr _ => true | _ => false end.
Definition text_list : validator := fun v => match v with PList l => if forallb is_text l then Some v else None | _ => None end.
Definition is_boolean (v : pyval) : bool := match v with PBool _ => true | _ => false end.
Definition boolean_mapping : validator := fun v => match v with PDict d => Some (PDict (List.filter (fun kv => is_boolean kv.2) d)) | _ => None end.

(** [_put] for several keys. *)
Definition put (source : pydict) (keys : list string) (f : validator) : pydict :=
  omap (fun k => v ← dict_get source k; w ← f v; Some (k, w)) keys.
(** [if key not in source: None  else: _put]. *)
Definition put_or_null (source : pydict) (keys : list string) (f : validator) : pydict :=
  omap (fun k => match dict_get source k with Some v => w ← f v; Some (k, w) | None => Some (k, PNone) end) keys.

Definition projector : Type := pydict -> option pydict.
Definition project_sequence (p : projector) : validator := fun v =>
  match v with PList l => Some (PList (omap (fun d => PDict <$> p d) (mappings l))) | _ => None end.
(** An item is kept when its identifier is a text. *)
Definition identified (key : string) (rest : pydict -> pydict) : projector := fun d =>
  match v_text (get d key) with Some i => Some ((key, i) :: rest d) | None => None end.

(** ** Items *)
Definition path_fields (d : pydict) : pydict :=
  put d ["objective"; "scoring_formula"] nullable_text ++ put d ["node_ids"; "edge_ids"] text_list
  ++ put d ["distance_km"; "risk_cost"] nullable_number ++ put d ["estimated_minutes"; "visited_node_count"] nullable_integer.
Definition project_path : validator := fun v => match v with PNone => Some PNone | PDict d => Some (PDict (path_fields d)) | _ => None end.

Definition project_geo_point : projector := fun d =>
  match v_text (get d "longitude"), v_text (get d "latitude") with
  | Some lon, Some lat => Some (("longitude"%string, lon) :: ("latitude"%string, lat) :: put d ["node_id"%string] nullable_text)
  | _, _ => None
  end.
Definition project_real_road_route : validator := fun v =>
  match v with
  | PDict d => Some (PDict (put d ["provider"; "source"; "status"; "coordinate_system"; "mapping_version"; "fallback_reason"]%string nullable_text
      ++ put d ["distance_meters"; "duration_seconds"]%string nullable_integer ++ put d ["waypoints"; "polyline"]%string (project_sequence project_geo_point)))
  | _ => None
  end.

Definition numbers_of (keys : list string) : validator := fun v => match v with PNone => Some PNone | PDict d => Some (PDict (put d keys nullable_number)) | _ => None end.
Definition project_fleet_score_components : validator :=
  numbers_of ["eta_penalty"; "distance_penalty"; "load_penalty"; "road_risk_penalty"; "same_station_bonus"; "cargo_exact_match_bonus"].
Definition project_route_score_components : validator :=
  numbers_of ["normalized_minutes"; "normalized_distance"; "normalized_risk"; "time_penalty"; "distance_penalty"; "risk_penalty"].

Definition project_vehicle_candidate : projector := identified "vehicle_id" (fun d =>
  put d ["driver_id"; "vehicle_status"; "driver_status"; "cargo_capability"; "scoring_formula"]%string nullable_text
  ++ put d ["remaining_load_kg"; "remaining_capacity_kg"; "gross_weight_tons"; "pickup_distance_km"; "score"]%string nullable_number
  ++ put d ["pickup_eta_minutes"]%string nullable_integer ++ put d ["eligible"]%string v_boolean ++ put d ["exclusion_reasons"]%string text_list
  ++ put d ["pickup_route"]%string project_path ++ put d ["score_components"]%string project_fleet_score_components).
Definition project_route_candidate : projector := identified "route_id" (fun d =>
  put d ["route_name"; "objective"; "risk_level"; "reason"; "scoring_formula"; "algorithm_version"]%string nullable_text
  ++ put d ["distance_km"; "risk_cost"; "score"]%string nullable_number
  ++ put d ["estimated_minutes"; "visited_node_count"; "road_network_version"]%string nullable_integer
  ++ put d ["node_ids"; "edge_ids"]%string text_list ++ put d ["available"]%string v_boolean ++ put d ["score_components"]%string project_route_score_components).
Definition project_road_node : projector := identified "node_id" (fun d =>
  put d ["name"; "node_type"]%string v_text ++ put d ["x_km"; "y_km"]%string v_number).
Definition project_road_edge : projector := identified "edge_id" (fun d =>
  put d ["name"; "from_node_id"; "to_node_id"; "road_level"; "risk_level"; "status"]%string v_text
  ++ put d ["distance_km"; "congestion_factor"; "weight_limit_tons"]%string v_number ++ put d ["base_minutes"; "version"]%string v_integer
  ++ put d ["bidirectional"]%string v_boolean).
Definition project_memory_result : projector := identified "memory_id" (fun d =>
  put d ["route_id"; "historical_resolution"]%string nullable_text ++ put d ["similarity_score"]%string nullable_number).

(** ** Events of the nodes *)
Definition project_intake_event (patch : pydict) : pydict :=
  put patch ["normalized_anomaly"; "vehicle_id"; "origin_node_id"; "destination_node_id"]%string nullable_text
  ++ put patch ["sandtable_context_loaded"]%string v_boolean ++ put patch ["affected_edge_ids"]%string text_list.
Definition project_memory_event (patch : pydict) : pydict := put patch ["memory_results"]%string (project_sequence project_memory_result).
Definition project_environment_event (patch : pydict) : pydict :=
  put patch ["weather"; "road_condition"; "environment_risk"; "fallback_reason"; "environment_provider"]%string nullable_text
  ++ put patch ["fallback_used"]%string v_boolean ++ put patch ["environment_elapsed_ms"]%string nullable_number.
Definition project_audit_event (result : pyval) : pydict :=
  match result with
  | PDict d => put d ["audit_status"; "reason"]%string nullable_text ++ put d ["passed"; "requires_manual_review"]%string v_boolean
      ++ put d ["dispatch_id"; "audit_record_id"]%string nullable_integer ++ put d ["checks"]%string boolean_mapping
  | _ => []
  end.
Definition project_dispatch_event (result : pyval) : pydict :=
  match result with
  | PDict d => put d ["original_vehicle_id"; "target_vehicle_id"; "target_driver_id"; "target_route_id"; "status"]%string nullable_text
      ++ put d ["version"]%string nullable_integer ++ put d ["executed"]%string v_boolean
  | _ => []
  end.

(** The formula of the first candidate. *)
Definition candidates_formula (candidates : option pyval) : pydict :=
  match candidates with
  | Some (PList (PDict c :: _)) => match get c "scoring_formula" with PStr s => [("scoring_formula"%string, PStr s)] | _ => [] end
  | _ => []
  end.
Definition project_capacity_event (state : pydict) : pydict :=
  let capacity := match get state "capacity_state" with PDict d => d | _ => [] end in
  let candidates := v ← dict_get state "candidate_vehicles"; project_sequence project_vehicle_candidate v in
  put_or_null state ["vehicle_id"; "vehicle_status"]%string nullable_text
  ++ put_or_null capacity ["driver_available"; "vehicle_available"]%string v_boolean
  ++ put_or_null capacity ["capacity_status"; "risk_level"; "reason"]%string nullable_text
  ++ put state ["candidate_vehicles"]%string (project_sequence project_vehicle_candidate) ++ candidates_formula candidates
  ++ put state ["selected_vehicle_id"; "selected_driver_id"]%string nullable_text ++ put state ["vehicle_reassigned"]%string v_boolean
  ++ put state ["pickup_route"]%string project_path.

(** [target[new] = value] for a key with another name in the source. *)
Definition renamed (source : pydict) (key new : string) (f : validator) : pydict := match put source [key] f with (_, v) :: _ => [(new, v)] | [] => [] end.
Definition path_visited (path : option pyval) : pydict :=
  match path with Some (PDict d) => match dict_get d "visited_node_count" with Some n => [("visited_node_count"%string, n)] | None => [] end | _ => [] end.
Definition project_routing_event (patch : pydict) : pydict :=
  put_or_null patch ["recommended_route"; "decision"; "decision_reason"]%string nullable_text
  ++ put_or_null patch ["memory_adopted"; "requires_manual_review"]%string v_boolean
  ++ put_or_null patch ["candidate_routes"]%string (project_sequence project_route_candidate)
  ++ put patch ["adopted_memory_id"]%string nullable_text ++ put patch ["blocked_edge_ids"]%string text_list
  ++ put patch ["original_path"; "recommended_path"]%string project_path ++ put patch ["real_road_route"]%string project_real_road_route
  ++ put patch ["distance_delta_km"]%string nullable_number ++ put patch ["eta_delta_minutes"]%string nullable_integer
  ++ put patch ["routing_status"]%string nullable_text ++ renamed patch "routing_algorithm" "algorithm" nullable_text
  ++ put patch ["road_network_version"]%string nullable_integer
  ++ renamed patch "road_network_nodes" "network_nodes" (project_sequence project_road_node)
  ++ renamed patch "road_network_edges" "network_edges" (project_sequence project_road_edge)
  ++ path_visited (v ← dict_get patch "recommended_path"; project_path v).

Definition graph_memory_keys : list string :=
  ["graph_memory_used"; "graph_memory_error"; "graph_memory_elapsed_ms"; "graph_memory_facts"; "graph_memory_paths"]%string.
(** [_data_for]; an absent or empty state is replaced by the patch. *)
Definition data_for (node : string) (patch : pydict) (state : option pydict) : pydict :=
  if String.eqb node "intake" then project_intake_event patch
  else if String.eqb node "entity_memory" then project_memory_event patch
  else if String.eqb node "graph_memory" then map (fun k => (k, get patch k)) graph_memory_keys
  else if String.eqb node "environment" then project_environment_event patch
  else if String.eqb node "routing" then project_routing_event patch
  else if String.eqb node "capacity" then project_capacity_event (match state with Some (x :: d) => x :: d | _ => patch end)
  else if String.eqb node "dispatch" then project_dispatch_event (get patch "dispatch_result")
  else if String.eqb node "audit" then [("audit_result"%string, PDict (project_audit_event (get patch "audit_result")))]
  else [].

(** [_json_safe]; [fixed] is [format(value, "f")]. *)
Section json_safe.
Context (fixed : string -> string).
Fixpoint json_safe (v : pyval) : pyval :=
  match v with
  | PDecimal t => PStr (fixed t)
  | PBytes _ => PNone
  | PList l => PList (map json_safe l)
  | PDict d => PDict (map (fun kv => (kv.1, json_safe kv.2)) d)
  | PNone | PBool _ | PInt _ | PFloat _ | PStr _ => v
  end.
End json_safe.

(** ** Visibility *)
Definition SENSITIVE_EVENT_DATA_KEYS : list string :=
  ["adopted_memory_id"; "algorithm"; "blocked_edge_ids"; "candidate_routes"; "candidate_vehicles"; "decision_reason"; "distance_delta_km"; "driver_id";
   "eta_delta_minutes"; "network_edges"; "network_nodes"; "original_path"; "original_route_id"; "original_vehicle_id"; "pickup_route"; "recommended_path";
   "recommended_route"; "road_network_version"; "route_id"; "scoring_formula"; "selected_driver_id"; "selected_vehicle_id"; "target_driver_id"; "target_route_id";
   "target_vehicle_id"; "transfer_node_id"; "vehicle_id"; "vehicle_reassigned"; "visited_node_count"]%string.
Definition sensitive (k : string) : bool := one_of k SENSITIVE_EVENT_DATA_KEYS.

(** [_is_published]: a failing query counts as not published. *)
Definition is_published (db : result store) (task_id : string) : bool :=
  match db with
  | Err _ => false
  | Ok s => existsb (fun p => existsb (fun t => (Idempotency.t_id t =? p_task_id p) && String.eqb (Idempotency.t_task_id t) task_id) (tasks s)) (publications s)
  end.
(** [project], on the data of the event. *)
Definition visible_data (db : result store) (task_id : string) (can_review : bool) (data : pydict) : pydict :=
  if can_review || negb (existsb (fun kv => sensitive kv.1) data) then data
  else if is_published db task_id then data
  else List.filter (fun kv => negb (sensitive kv.1)) data.

(** ** The shapes of the events *)
Inductive schema :=
| SAny
| SNull (s : schema)
| SText
| SBool
| SInt
| SNumber
| STexts
| SFlags
| SEach (s : schema)
| SRecord (fields : list (string * schema)).

Fixpoint conforms (s : schema) (v : pyval) {struct s} : bool :=
  match s with
  | SAny => true
  | SNull s => match v with PNone => true | _ => conforms s v end
  | SText => is_text v
  | SBool => is_boolean v
  | SInt => match v with PInt _ => true | _ => false end
  | SNumber => match v with PStr _ | PInt _ | PFloat _ | PDecimal _ => true | _ => false end
  | STexts => match v with PList l => forallb is_text l | _ => false end
  | SFlags => match v with PDict d => forallb (fun kv => is_boolean kv.2) d | _ => false end
  | SEach s => match v with PList l => forallb (conforms s) l | _ => false end
  | SRecord fs => match v with PDict d => forallb (fun kv => existsb (fun f => String.eqb f.1 kv.1 && conforms f.2 kv.2) fs) d | _ => false end
  end.

Definition all_of (s : schema) (keys : list string) : list (string * schema) := map (fun k => (k, s)) keys.
Definition path_schema : schema := SRecord (all_of (SNull SText) ["objective"; "scoring_formula"]%string ++ all_of STexts ["node_ids"; "edge_ids"]%string
  ++ all_of (SNull SNumber) ["distance_km"; "risk_cost"]%string ++ all_of (SNull SInt) ["estimated_minutes"; "visited_node_count"]%string).
Definition geo_point_schema : schema := SRecord (all_of SText ["longitude"; "latitude"]%string ++ all_of (SNull SText) ["node_id"]%string).
Definition real_road_route_schema : schema := SRecord (
  all_of (SNull SText) ["provider"; "source"; "status"; "coordinate_system"; "mapping_version"; "fallback_reason"]%string
  ++ all_of (SNull SInt) ["distance_meters"; "duration_seconds"]%string ++ all_of (SEach geo_point_schema) ["waypoints"; "polyline"]%string).
Definition fleet_scores : list string := ["eta_penalty"; "distance_penalty"; "load_penalty"; "road_risk_penalty"; "same_station_bonus"; "cargo_exact_match_bonus"].
Definition route_scores : list string := ["normalized_minutes"; "normalized_distance"; "normalized_risk"; "time_penalty"; "distance_penalty"; "risk_penalty"].
Definition scores_schema (keys : list string) : schema := SNull (SRecord (all_of (SNull SNumber) keys)).
Definition vehicle_candidate_schema : schema := SRecord (
  all_of SText ["vehicle_id"]%string ++ all_of (SNull SText) ["driver_id"; "vehicle_status"; "driver_status"; "cargo_capability"; "scoring_formula"]%string
  ++ all_of (SNull SNumber) ["remaining_load_kg"; "remaining_capacity_kg"; "gross_weight_tons"; "pickup_distance_km"; "score"]%string
  ++ all_of (SNull SInt) ["pickup_eta_minutes"]%string ++ all_of SBool ["eligible"]%string ++ all_of STexts ["exclusion_reasons"]%string
  ++ all_of (SNull path_schema) ["pickup_route"]%string ++ all_of (scores_schema fleet_scores) ["score_components"]%string).
Definition route_candidate_schema : schema := SRecord (
  all_of SText ["route_id"]%string ++ all_of (SNull SText) ["route_name"; "objective"; "risk_level"; "reason"; "scoring_formula"; "algorithm_version"]%string
  ++ all_of (SNull SNumber) ["distance_km"; "risk_cost"; "score"]%string ++ all_of (SNull SInt) ["estimated_minutes"; "visited_node_count"; "road_network_version"]%string
  ++ all_of STexts ["node_ids"; "edge_ids"]%string ++ all_of SBool ["available"]%string ++ all_of (scores_schema route_scores) ["score_components"]%string).
Definition road_node_schema : schema := SRecord (all_of SText ["node_id"; "name"; "node_type"]%string ++ all_of SNumber ["x_km"; "y_km"]%string).
Definition road_edge_schema : schema := SRecord (
  all_of SText ["edge_id"; "name"; "from_node_id"; "to_node_id"; "road_level"; "risk_level"; "status"]%string
  ++ all_of SNumber ["distance_km"; "congestion_factor"; "weight_limit_tons"]%string ++ all_of SInt ["base_minutes"; "version"]%string ++ all_of SBool ["bidirectional"]%string).
Definition memory_schema : schema := SRecord (all_of SText ["memory_id"]%string
  ++ all_of (SNull SText) ["route_id"; "historical_resolution"]%string ++ all_of (SNull SNumber) ["similarity_score"]%string).

(** The data of the event a node publishes when it completes. *)
Definition data_schema (node : string) : schema :=
  SRecord (
  if String.eqb node "intake" then
    all_of (SNull SText) ["normalized_anomaly"; "vehicle_id"; "origin_node_id"; "destination_node_id"]%string
    ++ all_of SBool ["sandtable_context_loaded"]%string ++ all_of STexts ["affected_edge_ids"]%string
  else if String.eqb node "entity_memory" then all_of (SEach memory_schema) ["memory_results"]%string
  else if String.eqb node "graph_memory" then all_of SAny graph_memory_keys
  else if String.eqb node "environment" then
    all_of (SNull SText) ["weather"; "road_condition"; "environment_risk"; "fallback_reason"; "environment_provider"]%string
    ++ all_of SBool ["fallback_used"]%string ++ all_of (SNull SNumber) ["environment_elapsed_ms"]%string
  else if String.eqb node "routing" then
    all_of (SNull SText) ["recommended_route"; "decision"; "decision_reason"; "adopted_memory_id"; "routing_status"; "algorithm"]%string
    ++ all_of (SNull SBool) ["memory_adopted"; "requires_manual_review"]%string ++ all_of (SNull (SEach route_candidate_schema)) ["candidate_routes"]%string
    ++ all_of STexts ["blocked_edge_ids"]%string ++ all_of (SNull path_schema) ["original_path"; "recommended_path"]%string
    ++ all_of real_road_route_schema ["real_road_route"]%string ++ all_of (SNull SNumber) ["distance_delta_km"]%string
    ++ all_of (SNull SInt) ["eta_delta_minutes"; "road_network_version"; "visited_node_count"]%string
    ++ all_of (SEach road_node_schema) ["network_nodes"]%string ++ all_of (SEach road_edge_schema) ["network_edges"]%string
  else if String.eqb node "capacity" then
    all_of (SNull SText) ["vehicle_id"; "vehicle_status"; "capacity_status"; "risk_level"; "reason"; "scoring_formula"; "selected_vehicle_id"; "selected_driver_id"]%string
    ++ all_of (SNull SBool) ["driver_available"; "vehicle_available"]%string ++ all_of (SEach vehicle_candidate_schema) ["candidate_vehicles"]%string
    ++ all_of SBool ["vehicle_reassigned"]%string ++ all_of (SNull path_schema) ["pickup_route"]%string
  else if String.eqb node "dispatch" then
    all_of (SNull SText) ["original_vehicle_id"; "target_vehicle_id"; "target_driver_id"; "target_route_id"; "status"]%string
    ++ all_of (SNull SInt) ["version"]%string ++ all_of SBool ["executed"]%string
  else if String.eqb node "audit" then
    all_of (SRecord (all_of (SNull SText) ["audit_status"; "reason"]%string ++ all_of SBool ["passed"; "requires_manual_review"]%string
      ++ all_of (SNull SInt) ["dispatch_id"; "audit_record_id"]%string ++ all_of SFlags ["checks"]%string)) ["audit_result"]%string
  else []).

(** ** Validators respect their shapes *)
Definition valid (f : validator) (s : schema) : Prop := forall v w, f v = Some w -> conforms s w = true.
Definition projects (p : projector) (s : schema) : Prop := forall d d', p d = Some d' -> conforms s (PDict d') = true.
(** A dictionary keeps to the fields. *)
Definition keeps_to (fs : list (string * schema)) (d : pydict) : Prop := conforms (SRecord fs) (PDict d) = true.

Create HintDb payload discriminated.

Lemma valid_text : valid v_text SText. Proof. by intros [] w [= <-]. Qed.
Lemma valid_boolean : valid v_boolean SBool. Proof. by intros [] w [= <-]. Qed.
Lemma valid_integer : valid v_integer SInt. Proof. by intros [] w [= <-]. Qed.
Lemma valid_number : valid v_number SNumber. Proof. by intros [] w [= <-]. Qed.
Lemma valid_texts : valid text_list STexts.
Proof. intros [] w; cbn; try done. destruct (forallb is_text l) eqn:E; [|done]. by intros [= <-]. Qed.
Lemma valid_flags : valid boolean_mapping SFlags.
Proof. intros [] w; cbn; try done. intros [= <-]. cbn. apply forallb_forall. by intros x [_ H]%filter_In. Qed.
Lemma conforms_null s v : conforms s v = true -> conforms (SNull s) v = true.
Proof. by destruct v. Qed.
Lemma valid_weaken f s : valid f s -> valid f (SNull s).
Proof. intros H v w E. by apply conforms_null, (H v). Qed.
Lemma valid_nullable f s : valid f s -> valid (nullable f) (SNull s).
Proof. intros H v w E. destruct v; cbn in E; try (by apply conforms_null, (H _ _ E)). by injection E as <-. Qed.
Lemma valid_sequence p s : projects p s -> valid (project_sequence p) (SEach s).
Proof.
  intros H [] w; cbn; try done. intros [= <-]. cbn. apply forallb_forall. intros x X%list_elem_of_In.
  apply list_elem_of_omap in X as (d & _ & E). destruct (p d) as [d'|] eqn:P; [|done]. injection E as <-. by apply (H d).
Qed.
#[export] Hint Resolve valid_text valid_boolean valid_integer valid_number valid_texts valid_flags valid_nullable valid_weaken valid_sequence : payload.
#[export] Hint Extern 1 (valid nullable_text _) => apply valid_nullable : payload.
#[export] Hint Extern 1 (valid nullable_integer _) => apply valid_nullable : payload.
#[export] Hint Extern 1 (valid nullable_number _) => apply valid_nullable : payload.

Lemma keeps_to_nil fs : keeps_to fs []. Proof. done. Qed.
Lemma keeps_to_app fs d e : keeps_to fs d -> keeps_to fs e -> keeps_to fs (d ++ e).
Proof. unfold keeps_to. cbn. rewrite forallb_app. by intros -> ->. Qed.
Lemma keeps_to_cons fs k v d s : In (k, s) fs -> conforms s v = true -> keeps_to fs d -> keeps_to fs ((k, v) :: d).
Proof.
  intros I E H. unfold keeps_to in *. cbn in *. rewrite H, andb_true_r. apply existsb_exists. exists (k, s). split; [done|].
  cbn. by rewrite String.eqb_refl.
Qed.
Lemma keeps_to_omap fs s keys (g : string -> option (string * pyval)) : List.Forall (fun k => In (k, s) fs) keys ->
  (forall k e, g k = Some e -> e.1 = k /\ conforms s e.2 = true) -> keeps_to fs (omap g keys).
Proof.
  intros F H. induction F as [|k keys I F IH]; [done|]. cbn. destruct (g k) as [[k' v]|] eqn:E; [|done].
  destruct (H k _ E) as [<- C]. by apply (keeps_to_cons _ _ _ _ s).
Qed.
Lemma keeps_to_put fs s d keys f : valid f s -> List.Forall (fun k => In (k, s) fs) keys -> keeps_to fs (put d keys f).
Proof.
  intros V F. apply (keeps_to_omap _ s); [done|]. intros k e. destruct (dict_get d k) as [v|]; cbn; [|done].
  destruct (f v) as [w|] eqn:E; cbn; [|done]. intros [= <-]. split; [done|by apply (V v)].
Qed.
Lemma keeps_to_put_or_null fs s d keys f : valid f (SNull s) -> List.Forall (fun k => In (k, SNull s) fs) keys -> keeps_to fs (put_or_null d keys f).
Proof.
  intros V F. apply (keeps_to_omap _ (SNull s)); [done|]. intros k e. destruct (dict_get d k) as [v|]; cbn; [|by intros [= <-]].
  destruct (f v) as [w|] eqn:E; cbn; [|done]. intros [= <-]. split; [done|by apply (V v)].
Qed.
Lemma put_single s d key f : valid f s -> match put d [key] f with (_, v) :: _ => conforms s v = true | [] => True end.
Proof. intros V. unfold put. cbn. destruct (dict_get d key) as [v|]; cbn; [|done]. destruct (f v) as [w|] eqn:E; cbn; [by apply (V v)|done]. Qed.

Lemma keeps_to_renamed fs s d key new f : valid f s -> In (new, s) fs -> keeps_to fs (renamed d key new f).
Proof.
  intros V I. unfold renamed. pose proof (put_single s d key f V) as P. destruct (put d [key] f) as [|[k v] l]; [done|].
  by apply (keeps_to_cons _ _ _ _ s).
Qed.

(** Splits the fields of a projection and finds each among the fields of its shape. *)
Ltac among := cbn; tauto.
Ltac fields :=
  repeat match goal with
  | |- keeps_to _ (_ ++ _) => apply keeps_to_app
  | |- keeps_to _ (put _ _ _) => eapply keeps_to_put; [solve [eauto 4 with payload] | repeat (constructor; [among|]); constructor]
  | |- keeps_to _ (put_or_null _ _ _) => eapply keeps_to_put_or_null; [solve [eauto 4 with payload] | repeat (constructor; [among|]); constructor]
  | |- keeps_to _ (renamed _ _ _ _) => eapply keeps_to_renamed; [solve [eauto 4 with payload] | among]
  | |- keeps_to _ [] => apply keeps_to_nil
  end.

Lemma keeps_record fs d : keeps_to fs d -> conforms (SRecord fs) (PDict d) = true.
Proof. done. Qed.
Lemma valid_record (g : pydict -> pydict) fs f :
  (forall v, f v = match v with PNone => Some PNone | PDict d => Some (PDict (g d)) | _ => None end) -> (forall d, keeps_to fs (g d)) -> valid f (SNull (SRecord fs)).
Proof. intros F G v w. rewrite F. destruct v as [| | | | | | | |d]; try done; intros [= <-]; [done|apply conforms_null, keeps_record, G]. Qed.
Lemma projects_identified key rest fs : In (key, SText) fs -> (forall d, keeps_to fs (rest d)) -> projects (identified key rest) (SRecord fs).
Proof.
  intros I G d d'. unfold identified. destruct (v_text (get d key)) as [i|] eqn:E; [|done]. intros [= <-].
  apply keeps_record, (keeps_to_cons _ _ _ _ SText); [done|by apply (valid_text _ _ E)|apply G].
Qed.

Lemma valid_path : valid project_path (SNull path_schema).
Proof. apply (valid_record path_fields); [by intros []|intros d; unfold path_fields; fields]. Qed.
Lemma valid_fleet_scores : valid project_fleet_score_components (scores_schema fleet_scores).
Proof. apply (valid_record (fun d => put d fleet_scores nullable_number)); [by intros []|intros d; fields]. Qed.
Lemma valid_route_scores : valid project_route_score_components (scores_schema route_scores).
Proof. apply (valid_record (fun d => put d route_scores nullable_number)); [by intros []|intros d; fields]. Qed.
Lemma projects_geo_point : projects project_geo_point geo_point_schema.
Proof.
  intros d d'. unfold project_geo_point. destruct (v_text (get d "longitude")) as [x|] eqn:X, (v_text (get d "latitude")) as [y|] eqn:Y; try done. intros [= <-].
  apply keeps_record, (keeps_to_cons _ _ _ _ SText); [among|by apply (valid_text _ _ X)|].
  apply (keeps_to_cons _ _ _ _ SText); [among|by apply (valid_text _ _ Y)|].
  change (keeps_to (all_of SText ["longitude"; "latitude"]%string ++ all_of (SNull SText) ["node_id"]%string) (put d ["node_id"%string] nullable_text)). fields.
Qed.
#[export] Hint Resolve valid_path valid_fleet_scores valid_route_scores projects_geo_point : payload.
Lemma valid_real_road_route : valid project_real_road_route real_road_route_schema.
Proof. intros v w. destruct v as [| | | | | | | |d]; try done. unfold project_real_road_route. intros E. apply (inj Some) in E as <-. apply keeps_record. fields. Qed.
Lemma projects_vehicle_candidate : projects project_vehicle_candidate vehicle_candidate_schema.
Proof. apply projects_identified; [among|intros d; fields]. Qed.
Lemma projects_route_candidate : projects project_route_candidate route_candidate_schema.
Proof. apply projects_identified; [among|intros d; fields]. Qed.
Lemma projects_road_node : projects project_road_node road_node_schema.
Proof. apply projects_identified; [among|intros d; fields]. Qed.
Lemma projects_road_edge : projects project_road_edge road_edge_schema.
Proof. apply projects_identified; [among|intros d; fields]. Qed.
Lemma projects_memory_result : projects project_memory_result memory_schema.
Proof. apply projects_identified; [among|intros d; fields]. Qed.
#[export] Hint Resolve valid_real_road_route projects_vehicle_candidate projects_route_candidate projects_road_node projects_road_edge projects_memory_result : payload.

(** ** The events of the nodes respect their shapes *)
Lemma formula_text candidates : keeps_to (all_of (SNull SText) ["scoring_formula"]%string) (candidates_formula candidates).
Proof.
  unfold candidates_formula. destruct candidates as [[| | | | | | |[|[| | | | | | | |c] l]|]|]; try done.
  by destruct (get c "scoring_formula").
Qed.
Lemma keeps_to_weaken fs gs d : keeps_to fs d -> incl fs gs -> keeps_to gs d.
Proof.
  unfold keeps_to. cbn. rewrite !forallb_forall. intros H I kv K. specialize (H kv K). apply existsb_exists in H as (f & F & E).
  apply existsb_exists. exists f. split; [by apply I|done].
Qed.
Lemma path_visited_number v : keeps_to (all_of (SNull SInt) ["visited_node_count"]%string) (path_visited (x ← v; project_path x)).
Proof.
  destruct v as [v|]; [|done]. cbn [mbind option_bind]. destruct (project_path v) as [w|] eqn:E; [|done].
  destruct v as [| | | | | | | |d]; try done; injection E as <-; [done|]. cbn [path_visited].
  assert (H : forall n, dict_get (path_fields d) "visited_node_count" = Some n -> conforms (SNull SInt) n = true).
  { intros n. pose proof (valid_path (PDict d) _ eq_refl) as V. cbn -[path_fields] in V. rewrite forallb_forall in V. intros G.
    induction (path_fields d) as [|[k v] l IH]; [done|]. cbn in G. destruct (String.eqb_spec k "visited_node_count") as [->|].
    - injection G as <-. specialize (V ("visited_node_count"%string, v) (or_introl eq_refl)). cbn in V. by rewrite orb_false_r in V.
    - apply IH; [|done]. intros x X. apply V. by right. }
  destruct (dict_get (path_fields d) "visited_node_count") as [n|]; [|done].
  apply (keeps_to_cons _ _ _ _ (SNull SInt)); [among|by apply H|done].
Qed.

Lemma conforms_data node patch state : conforms (data_schema node) (PDict (data_for node patch state)) = true.
Proof.
  apply keeps_record. unfold data_for.
  destruct (String.eqb node "intake"); [unfold project_intake_event; fields|].
  destruct (String.eqb node "entity_memory"); [unfold project_memory_event; fields|].
  destruct (String.eqb node "graph_memory").
  { apply keeps_record. cbn. reflexivity. }
  destruct (String.eqb node "environment"); [unfold project_environment_event; fields|].
  destruct (String.eqb node "routing").
  { unfold project_routing_event. fields. eapply keeps_to_weaken; [apply path_visited_number|]. intros x [<-|[]]. among. }
  destruct (String.eqb node "capacity").
  { unfold project_capacity_event. fields. eapply keeps_to_weaken; [apply formula_text|]. intros x [<-|[]]. among. }
  destruct (String.eqb node "dispatch").
  { unfold project_dispatch_event. destruct (get patch "dispatch_result"); fields. }
  destruct (String.eqb node "audit"); [|done].
  eapply keeps_to_cons; [by left| |done]. apply keeps_record. unfold project_audit_event. destruct (get patch "audit_result"); fields.
Qed.

(** *** Encoding *)
Section encoding.
Context (fixed : string -> string).
Lemma json_safe_serializable v : json_serializable (json_safe fixed v) = true.
Proof.
  revert v. fix IH 1. intros [| | | | | | |l|d]; cbn; try done.
  - induction l as [|x l IHl]; cbn; [done|]. by rewrite IH, IHl.
  - induction d as [|[k x] d IHd]; cbn; [done|]. by rewrite IH, IHd.
Qed.
Lemma conforms_json_safe s v : conforms s v = true -> conforms s (json_safe fixed v) = true.
Proof.
  revert s v. fix IH 1. intros s. destruct s as [|s| | | | | | |s|fs]; intros v; cbn [conforms]; try done.
  - intros H. destruct v as [| | | | | | | |]; try done; by apply conforms_null, (IH s).
  - by destruct v.
  - by destruct v.
  - by destruct v.
  - by destruct v.
  - destruct v as [| | | | | | |l|]; try done. cbn. induction l as [|x l IHl]; [done|]. cbn. intros [X L]%andb_true_iff. apply andb_true_iff.
    split; [by destruct x|by apply IHl].
  - destruct v as [| | | | | | | |d]; try done. cbn. induction d as [|[k x] d IHd]; [done|]. cbn. intros [X L]%andb_true_iff. apply andb_true_iff.
    split; [by destruct x|by apply IHd].
  - destruct v as [| | | | | | |l|]; try done. cbn. induction l as [|x l IHl]; [done|]. cbn. intros [X L]%andb_true_iff. apply andb_true_iff.
    split; [by apply IH|by apply IHl].
  - destruct v as [| | | | | | | |d]; try done. cbn. induction d as [|[k x] d IHd]; [done|]. cbn. intros [X L]%andb_true_iff. apply andb_true_iff.
    split; [|by apply IHd]. clear L IHd. induction fs as [|[n s] fs IHf]; [done|]. cbn in *. apply orb_true_iff in X as [[E C]%andb_true_iff|X]; apply orb_true_iff.
    + left. apply andb_true_iff. split; [done|by apply IH].
    + right. by apply IHf.
Qed.

(** C39: Whatever a node leaves in the state, and whatever the state holds, the
    data of the event it publishes has only the documented fields of that node,
    each of its documented type, and can be written as JSON. *)
Theorem event_data_typed (node : string) (patch : pydict) (state : option pydict) :
  conforms (data_schema node) (json_safe fixed (PDict (data_for node patch state))) = true /\
  json_serializable (json_safe fixed (PDict (data_for node patch state))) = true.
Proof. split; [apply conforms_json_safe, conforms_data|apply json_safe_serializable]. Qed.
End encoding.

(** ** What an event tells before the publication *)
Lemma visible_unpublished db task_id data : is_published db task_id = false ->
  visible_data db task_id false data = List.filter (fun kv => negb (sensitive kv.1)) data.
Proof.
  intros P. unfold visible_data. rewrite P, orb_false_l. destruct (existsb _ data) eqn:S; [done|]. cbn.
  induction data as [|[k v] data IH]; [done|]. cbn in *. apply orb_false_iff in S as [K S]. rewrite K. cbn. f_equal. by apply IH.
Qed.

Definition routing_keys : list string :=
  ["recommended_route"; "decision"; "decision_reason"; "adopted_memory_id"; "routing_status"; "algorithm"; "memory_adopted"; "requires_manual_review"; "candidate_routes";
   "blocked_edge_ids"; "original_path"; "recommended_path"; "real_road_route"; "distance_delta_km"; "eta_delta_minutes"; "road_network_version"; "visited_node_count";
   "network_nodes"; "network_edges"]%string.
Lemma keeps_to_keys fs d k v : keeps_to fs d -> In (k, v) d -> In k (map fst fs).
Proof.
  unfold keeps_to. cbn -[In]. rewrite forallb_forall. intros H I. apply H in I. apply existsb_exists in I as (f & F & [E _]%andb_true_iff).
  apply String.eqb_eq in E. cbn in E. rewrite <- E. by apply in_map.
Qed.
Lemma routing_event_keys patch k v : In (k, v) (project_routing_event patch) -> In k routing_keys.
Proof. intros I. apply (keeps_to_keys _ _ _ _ (conforms_data "routing" patch None)) in I. cbn in *. tauto. Qed.

Lemma in_put source keys f k v w : In k keys -> dict_get source k = Some v -> f v = Some w -> In (k, w) (put source keys f).
Proof.
  intros I S F. unfold put. induction keys as [|k' keys IH]; [done|]. cbn. destruct I as [->|I].
  - rewrite S. cbn. rewrite F. by left.
  - destruct (dict_get source k') as [v'|]; cbn; [destruct (f v'); [right|]|]; by apply IH.
Qed.

Definition plain_routing_keys : list string := ["decision"; "memory_adopted"; "requires_manual_review"; "real_road_route"; "routing_status"]%string.

(** Before the publication of its task, whoever cannot review sees of a
    routing event its decision, whether a memory was adopted, whether a review
    is due and its status, no candidate and no path.  But the event still shows
    him the real road route, with every point of its polyline. *)
Theorem unpublished_routing_event (patch : pydict) (db : result store) (task_id : string) (NP : is_published db task_id = false) :
  (forall k v, In (k, v) (visible_data db task_id false (data_for "routing" patch None)) -> In k plain_routing_keys) /\
  (forall d points, dict_get patch "real_road_route" = Some (PDict d) -> dict_get d "polyline" = Some (PList points) ->
    exists route, In ("real_road_route"%string, PDict route) (visible_data db task_id false (data_for "routing" patch None)) /\
      In ("polyline"%string, PList (omap (fun p => PDict <$> project_geo_point p) (mappings points))) route).
Proof.
  rewrite (visible_unpublished _ _ _ NP). change (data_for "routing" patch None) with (project_routing_event patch). split.
  - intros k v [I S]%filter_In. pose proof (routing_event_keys _ _ _ I) as K. cbn -[String.eqb] in K.
    repeat (destruct K as [<-|K]; [vm_compute in S; first [discriminate S|cbn; tauto]|]). done.
  - intros d points R P. exists (match project_real_road_route (PDict d) with Some (PDict r) => r | _ => [] end). split.
    + apply filter_In. split; [|done]. unfold project_routing_event. rewrite !in_app_iff.
      enough (In ("real_road_route"%string, PDict (match project_real_road_route (PDict d) with Some (PDict r) => r | _ => [] end))
                 (put patch ["real_road_route"%string] project_real_road_route)) by tauto.
      apply (in_put _ _ _ _ (PDict d)); [by left|done|done].
    + cbn -[put]. rewrite !in_app_iff. right. right. apply (in_put _ _ _ _ (PList points)); [right; by left|done|done].
Qed.

Definition ex_patch : pydict :=
  [("decision", PStr "REROUTED"); ("recommended_route", PStr "R2");
   ("real_road_route", PDict [("provider", PStr "amap"); ("polyline", PList [PDict [("longitude", PStr "108.9"); ("latitude", PStr "34.2")]])])]%string.
Lemma unpublished_routing_event_witness :
  (forall k v, In (k, v) (visible_data (Ok (ex_store "PROCESSING")) "TASK-1" false (data_for "routing" ex_patch None)) -> In k plain_routing_keys) /\
  (exists route, In ("real_road_route"%string, PDict route) (visible_data (Ok (ex_store "PROCESSING")) "TASK-1" false (data_for "routing" ex_patch None)) /\
     In ("polyline"%string, PList [PDict [("longitude", PStr "108.9"); ("latitude", PStr "34.2")]]%string) route).
Proof.
  pose proof (unpublished_routing_event ex_patch (Ok (ex_store "PROCESSING")) "TASK-1" eq_refl) as [K R].
  split; [exact K|]. exact (R [("provider", PStr "amap"); ("polyline", PList [PDict [("longitude", PStr "108.9"); ("latitude", PStr "34.2")]])]%string
    [PDict [("longitude", PStr "108.9"); ("latitude", PStr "34.2")]]%string eq_refl eq_refl).
Defined.
