(* ===== verification/Events.v ===== *)
(** * Events: the events of a task and how they reach a browser

    Models [app/events/models.py], [app/events/broker.py] (the in-process
    broker and the one on Redis streams), [app/events/graph_adapter.py],
    [app/runtime_threads/events.py] and the WebSocket session of
    [app/api/v1/task_events.py].  [TaskEventBroker] is the protocol of the
    source; the session and the adapter are written against it.  The Redis
    client is the interface [EventStreams] with its laws; JSON text is a pair of
    functions [dumps], [loads].  A read of an empty queue, which waits, answers
    no event. *)

From S2P Require Import Prelude Evidence Records EventPayloads.
From S2P Require RuntimeThreads.

Local Open Scope Z_scope.
Local Open Scope list_scope.

Definition ValueError (m : string) : exn := Exn "ValueError" m.

(** ** Events *)
Inductive TaskEventType :=
| TASK_SNAPSHOT | TASK_ACCEPTED | WORKER_STARTED | INTAKE_STARTED | INTAKE_COMPLETED | MEMORY_STARTED | MEMORY_COMPLETED | GRAPH_MEMORY_STARTED
| GRAPH_MEMORY_COMPLETED | GRAPH_MEMORY_DEGRADED | ENVIRONMENT_STARTED | ENVIRONMENT_COMPLETED | ENVIRONMENT_FALLBACK | CAPACITY_STARTED | CAPACITY_COMPLETED
| ROUTING_STARTED | ROUTING_COMPLETED | DISPATCH_STARTED | DISPATCH_COMPLETED | AUDIT_STARTED | AUDIT_COMPLETED | TASK_COMPLETED | TASK_REVIEW_REQUIRED | TASK_FAILED
| MEMORY_MUTATION_REQUESTED | MEMORY_MUTATION_APPLIED | MEMORY_MUTATION_REJECTED | MEMORY_MUTATION_CONFLICT | MEMORY_MUTATION_PARTIAL | THREAD_CHECKPOINTED
| THREAD_RESUMED | THREAD_TERMINAL | RUNTIME_OVERRIDE_REQUESTED | RUNTIME_OVERRIDE_APPLIED | RUNTIME_OVERRIDE_REJECTED | RUNTIME_OVERRIDE_CONFLICT | RUNTIME_OVERRIDE_PARTIAL.
#[export] Instance TaskEventType_eq_dec : EqDecision TaskEventType.
Proof. solve_decision. Defined.
#[export] Instance TaskEventType_enum : PyEnum TaskEventType := {
  members := [TASK_SNAPSHOT; TASK_ACCEPTED; WORKER_STARTED; INTAKE_STARTED; INTAKE_COMPLETED; MEMORY_STARTED; MEMORY_COMPLETED; GRAPH_MEMORY_STARTED;
    GRAPH_MEMORY_COMPLETED; GRAPH_MEMORY_DEGRADED; ENVIRONMENT_STARTED; ENVIRONMENT_COMPLETED; ENVIRONMENT_FALLBACK; CAPACITY_STARTED; CAPACITY_COMPLETED;
    ROUTING_STARTED; ROUTING_COMPLETED; DISPATCH_STARTED; DISPATCH_COMPLETED; AUDIT_STARTED; AUDIT_COMPLETED; TASK_COMPLETED; TASK_REVIEW_REQUIRED; TASK_FAILED;
    MEMORY_MUTATION_REQUESTED; MEMORY_MUTATION_APPLIED; MEMORY_MUTATION_REJECTED; MEMORY_MUTATION_CONFLICT; MEMORY_MUTATION_PARTIAL; THREAD_CHECKPOINTED;
    THREAD_RESUMED; THREAD_TERMINAL; RUNTIME_OVERRIDE_REQUESTED; RUNTIME_OVERRIDE_APPLIED; RUNTIME_OVERRIDE_REJECTED; RUNTIME_OVERRIDE_CONFLICT; RUNTIME_OVERRIDE_PARTIAL];
  value t := match t with
    | TASK_SNAPSHOT => "TASK_SNAPSHOT" | TASK_ACCEPTED => "TASK_ACCEPTED" | WORKER_STARTED => "WORKER_STARTED" | INTAKE_STARTED => "INTAKE_STARTED"
    | INTAKE_COMPLETED => "INTAKE_COMPLETED" | MEMORY_STARTED => "MEMORY_STARTED" | MEMORY_COMPLETED => "MEMORY_COMPLETED"
    | GRAPH_MEMORY_STARTED => "GRAPH_MEMORY_STARTED" | GRAPH_MEMORY_COMPLETED => "GRAPH_MEMORY_COMPLETED" | GRAPH_MEMORY_DEGRADED => "GRAPH_MEMORY_DEGRADED"
    | ENVIRONMENT_STARTED => "ENVIRONMENT_STARTED" | ENVIRONMENT_COMPLETED => "ENVIRONMENT_COMPLETED" | ENVIRONMENT_FALLBACK => "ENVIRONMENT_FALLBACK"
    | CAPACITY_STARTED => "CAPACITY_STARTED" | CAPACITY_COMPLETED => "CAPACITY_COMPLETED" | ROUTING_STARTED => "ROUTING_STARTED"
    | ROUTING_COMPLETED => "ROUTING_COMPLETED" | DISPATCH_STARTED => "DISPATCH_STARTED" | DISPATCH_COMPLETED => "DISPATCH_COMPLETED"
    | AUDIT_STARTED => "AUDIT_STARTED" | AUDIT_COMPLETED => "AUDIT_COMPLETED" | TASK_COMPLETED => "TASK_COMPLETED"
    | TASK_REVIEW_REQUIRED => "TASK_REVIEW_REQUIRED" | TASK_FAILED => "TASK_FAILED" | MEMORY_MUTATION_REQUESTED => "MEMORY_MUTATION_REQUESTED"
    | MEMORY_MUTATION_APPLIED => "MEMORY_MUTATION_APPLIED" | MEMORY_MUTATION_REJECTED => "MEMORY_MUTATION_REJECTED"
    | MEMORY_MUTATION_CONFLICT => "MEMORY_MUTATION_CONFLICT" | MEMORY_MUTATION_PARTIAL => "MEMORY_MUTATION_PARTIAL"
    | THREAD_CHECKPOINTED => "THREAD_CHECKPOINTED" | THREAD_RESUMED => "THREAD_RESUMED" | THREAD_TERMINAL => "THREAD_TERMINAL"
    | RUNTIME_OVERRIDE_REQUESTED => "RUNTIME_OVERRIDE_REQUESTED" | RUNTIME_OVERRIDE_APPLIED => "RUNTIME_OVERRIDE_APPLIED"
    | RUNTIME_OVERRIDE_REJECTED => "RUNTIME_OVERRIDE_REJECTED" | RUNTIME_OVERRIDE_CONFLICT => "RUNTIME_OVERRIDE_CONFLICT"
    | RUNTIME_OVERRIDE_PARTIAL => "RUNTIME_OVERRIDE_PARTIAL" end%string }.
#[export] Instance TaskEventType_enum_laws : PyEnumLaws TaskEventType.
Proof. intros []; reflexivity. Qed.

Record TaskEvent := {
  event_id : string;
  e_task_id : string;
  event_type : TaskEventType;
  e_node : string;
  e_status : string;
  timestamp : string;
  sequence : Z;
  e_data : pydict;
  correlation_id : option string;
}.
Definition with_sequence (n : Z) (e : TaskEvent) : TaskEvent :=
  {| event_id := event_id e; e_task_id := e_task_id e; event_type := event_type e; e_node := e_node e; e_status := e_status e; timestamp := timestamp e;
     sequence := n; e_data := e_data e; correlation_id := correlation_id e |}.
Definition with_event_id (i : string) (e : TaskEvent) : TaskEvent :=
  {| event_id := i; e_task_id := e_task_id e; event_type := event_type e; e_node := e_node e; e_status := e_status e; timestamp := timestamp e;
     sequence := sequence e; e_data := e_data e; correlation_id := correlation_id e |}.
(** With a new id and the time; no correlation id, or an empty one, is the current one's. *)
Definition create (uuid now : string) (current : option string) (task_id : string) (t : TaskEventType) (node status : string) (data : pydict)
    (correlation : option string) : TaskEvent :=
  {| event_id := uuid; e_task_id := task_id; event_type := t; e_node := node; e_status := status; timestamp := now; sequence := 0; e_data := data;
     correlation_id := match correlation with Some c => if String.eqb c "" then current else Some c | None => current end |}.

Definition to_dict (e : TaskEvent) : pydict :=
  [("event_id", PStr (event_id e)); ("task_id", PStr (e_task_id e)); ("event_type", PStr (value (event_type e))); ("node", PStr (e_node e));
   ("status", PStr (e_status e)); ("timestamp", PStr (timestamp e)); ("sequence", PInt (sequence e)); ("data", PDict (e_data e));
   ("correlation_id", opt_str (correlation_id e))]%string.

(** [bool(v)]; a float is its text. *)
Definition truthy (v : pyval) : bool :=
  match v with
  | PNone => false | PBool b => b | PInt z => negb (z =? 0) | PFloat t => negb (one_of t ["0.0"; "-0.0"]%string) | PDecimal _ => true
  | PStr s | PBytes s => negb (String.eqb s "") | PList l => negb (Nat.eqb (length l) 0) | PDict d => negb (Nat.eqb (length d) 0)
  end.
(** [py_str]: the text of a value that is no text; it names no event type. *)
Definition from_dict (py_str : pyval -> string) (p : pydict) : result TaskEvent :=
  match get p "data" with
  | PDict data =>
      match get p "event_id", get p "task_id", get p "node", get p "status", get p "timestamp" with
      | PStr i, PStr t, PStr n, PStr s, PStr ts =>
          match get p "sequence" with
          | PInt q =>
              match (match get p "event_type" with PStr v => enum_of v | _ => None end) with
              | Some ty => Ok {| event_id := i; e_task_id := t; event_type := ty; e_node := n; e_status := s; timestamp := ts; sequence := q; e_data := data;
                  correlation_id := match get p "correlation_id" with PStr "" => None | PStr c => Some c | v => if truthy v then Some (py_str v) else None end |}
              | None => Err (ValueError "is not a valid TaskEventType")
              end
          | _ => Err (ValueError "Task event sequence is invalid.")
          end
      | _, _, _, _, _ => Err (ValueError "Task event fields are invalid.")
      end
  | _ => Err (ValueError "Task event data must be an object.")
  end.

(** ** The protocol *)
Definition EventBrokerConnectionError : exn := Exn "EventBrokerConnectionError" "Task event transport is temporarily unavailable.".
Definition EventBrokerMessageError (m : string) : exn := Exn "EventBrokerMessageError" m.

Class TaskEventBroker (B Sub : Type) := {
  broker_publish : TaskEvent -> action B TaskEvent;
  broker_history : string -> option string -> action B (list TaskEvent);
  broker_subscribe : string -> option string -> action B Sub;
  broker_read : Sub -> action B (list TaskEvent * Sub);
  broker_unsubscribe : Sub -> B -> B;
}.

(** ** The in-process broker *)
Module InMemory.
Record broker := {
  history_size : nat;
  subscriber_queue_size : nat;
  histories : gmap string (list TaskEvent);                    (* deques of at most [history_size] *)
  subscribers : gmap string (gmap nat (list TaskEvent));       (* by subscription id *)
  next_subscription : nat;                                     (* stands for [uuid4] *)
}.
Definition with_histories (b : broker) h : broker :=
  {| history_size := history_size b; subscriber_queue_size := subscriber_queue_size b; histories := h; subscribers := subscribers b; next_subscription := next_subscription b |}.
Definition with_subscribers (b : broker) s : broker :=
  {| history_size := history_size b; subscriber_queue_size := subscriber_queue_size b; histories := histories b; subscribers := s; next_subscription := next_subscription b |}.

Definition history_of (b : broker) (t : string) : list TaskEvent := default [] (histories b !! t).
Definition queues_of (b : broker) (t : string) : gmap nat (list TaskEvent) := default ∅ (subscribers b !! t).

(** [deque(maxlen=n).append]. *)
Definition append_bounded (n : nat) (l : list TaskEvent) (e : TaskEvent) : list TaskEvent := drop (length (l ++ [e]) - n) (l ++ [e]).
(** [_offer]: a full queue loses its oldest event; a size of 0 is unbounded. *)
Definition offer (n : nat) (q : list TaskEvent) (e : TaskEvent) : list TaskEvent :=
  if (0 <? n)%nat && (n <=? length q)%nat then match q with [] => q | _ :: q' => q' ++ [e] end else q ++ [e].

Definition last_sequence (l : list TaskEvent) : Z := match last l with Some e => sequence e | None => 0 end.

Definition publish (e : TaskEvent) : action broker TaskEvent := fun b =>
  let h := history_of b (e_task_id e) in
  let published := with_sequence (last_sequence h + 1) e in
  let b1 := with_histories b (<[e_task_id e := append_bounded (history_size b) h published]> (histories b)) in
  (Ok published, with_subscribers b1 (<[e_task_id e := (fun q => offer (subscriber_queue_size b) q published) <$> queues_of b (e_task_id e)]> (subscribers b1))).

(** The events after an id; all of them when it is not there. *)
Fixpoint find_after (l : list TaskEvent) (i : string) : option (list TaskEvent) :=
  match l with [] => None | e :: l' => if String.eqb (event_id e) i then Some l' else find_after l' i end.
Definition after (l : list TaskEvent) (last_event_id : option string) : list TaskEvent :=
  match last_event_id with None => l | Some i => default l (find_after l i) end.
Definition history (t : string) (last_event_id : option string) : action broker (list TaskEvent) := fun b =>
  (Ok (after (history_of b t) last_event_id), with_histories b (<[t := history_of b t]> (histories b))).

Definition subscribe (t : string) (last_event_id : option string) : action broker (string * nat) := fun b =>
  let sid := next_subscription b in
  let queue := fold_left (offer (subscriber_queue_size b)) (after (history_of b t) last_event_id) [] in
  (Ok (t, sid),
   {| history_size := history_size b; subscriber_queue_size := subscriber_queue_size b; histories := <[t := history_of b t]> (histories b);
      subscribers := <[t := <[sid := queue]> (queues_of b t)]> (subscribers b); next_subscription := S sid |}).

(** One event, the oldest of the queue. *)
Definition read (s : string * nat) : action broker (list TaskEvent * (string * nat)) := fun b =>
  match queues_of b s.1 !! s.2 with
  | Some (e :: q) => (Ok ([e], s), with_subscribers b (<[s.1 := <[s.2 := q]> (queues_of b s.1)]> (subscribers b)))
  | _ => (Ok ([], s), b)
  end.

Definition unsubscribe (s : string * nat) (b : broker) : broker :=
  match subscribers b !! s.1 with
  | None => b
  | Some m => with_subscribers b (let m' := delete s.2 m in if bool_decide (m' = ∅) then delete s.1 (subscribers b) else <[s.1 := m']> (subscribers b))
  end.

Definition subscriber_count (t : string) (b : broker) : nat := size (queues_of b t).
Definition latest_sequence (t : string) (b : broker) : Z := last_sequence (history_of b t).

#[export] Instance in_memory : TaskEventBroker broker (string * nat) :=
  {| broker_publish := publish; broker_history := history; broker_subscribe := subscribe; broker_read := read; broker_unsubscribe := unsubscribe |}.
End InMemory.

(** ** The broker on Redis streams *)

(** The client's calls: entries are an id and the text of the field [data]. *)
Class EventStreams (Q : Type) := {
  incr : string -> action Q Z;
  xadd : string -> string -> nat -> action Q string;                            (* key, data, maxlen *)
  xrange : string -> action Q (list (string * option string));
  xread : string -> string -> action Q (list (string * list (string * option string)));  (* key, after *)
  entries : Q -> string -> list (string * option string);                       (* for the specification *)
}.

Section redis.
Context {Q : Type} `{EventStreams Q}.
Context (dumps : pyval -> string) (loads : string -> option pyval) (py_str : pyval -> string).
Context (prefix : string) (history_maxlen : nat).

Definition stream_key (t : string) : string := prefix +:+ ":" +:+ t.
Definition sequence_key (t : string) : string := prefix +:+ ":seq:" +:+ t.

(** [except RedisError]; [ResponseError] is one. *)
Definition transport {A} (op : action Q A) : action Q A :=
  catch_action op (fun e => raise_action (if one_of (exn_class e) ["RedisError"; "ResponseError"]%string then EventBrokerConnectionError else e)).
Definition lift {A} (r : result A) : action Q A := fun q => (r, q).
Definition checked_text (s : string) : result string := if String.eqb s "" then Err (EventBrokerMessageError "Task event event ID is invalid.") else Ok s.

Definition serialize (e : TaskEvent) : result string :=
  if json_serializable (PDict (to_dict e)) then Ok (dumps (PDict (to_dict e))) else Err (Exn "TypeError" "Object is not JSON serializable").

Definition redis_publish (e : TaskEvent) : action Q TaskEvent :=
  (do n <- transport (incr (sequence_key (e_task_id e)));
   do text <- lift (serialize (with_sequence n e));
   do i <- transport (xadd (stream_key (e_task_id e)) text history_maxlen);
   do i' <- lift (checked_text i);
   ret_action (with_event_id i' (with_sequence n e)))%action.

Definition decode_entry (entry : string * option string) : result TaskEvent :=
  match entry.2 with
  | None => Err (EventBrokerMessageError "Task event data is invalid.")
  | Some s =>
      match loads s with
      | Some (PDict p) => match from_dict py_str p with
                          | Ok e => i ← checked_text entry.1; Ok (with_event_id i e)
                          | Err _ => Err (EventBrokerMessageError "Task event data is invalid.")
                          end
      | _ => Err (EventBrokerMessageError "Task event data is invalid.")
      end
  end.
Definition decode_events (l : list (string * option string)) : result (list TaskEvent) := map_result decode_entry l.

(** Ids are compared as texts. *)
Definition redis_history (t : string) (after_event_id : option string) : action Q (list TaskEvent) :=
  (do l <- transport (xrange (stream_key t));
   do es <- lift (decode_events l);
   ret_action (match after_event_id with None => es | Some i => List.filter (fun e => py_lt i (event_id e)) es end))%action.

Definition redis_subscribe (t : string) (last_event_id : option string) : action Q (string * string) := fun q => (Ok (t, or_else last_event_id "0-0"), q).

Definition redis_read (s : string * string) : action Q (list TaskEvent * (string * string)) :=
  (do streams <- transport (xread (stream_key s.1) s.2);
   do es <- lift (decode_events (flat_map snd streams));
   ret_action (es, (s.1, match last es with Some e => event_id e | None => s.2 end)))%action.

Definition redis_broker : TaskEventBroker Q (string * string) :=
  {| broker_publish := redis_publish; broker_history := redis_history; broker_subscribe := redis_subscribe; broker_read := redis_read;
     broker_unsubscribe := fun _ q => q |}.
End redis.

(** ** The events of a graph run *)
Definition NODES : list string := ["intake"; "entity_memory"; "graph_memory"; "environment"; "capacity"; "routing"; "dispatch"; "audit"]%string.
Definition event_names (node : string) : option (TaskEventType * TaskEventType) :=
  if String.eqb node "intake" then Some (INTAKE_STARTED, INTAKE_COMPLETED)
  else if String.eqb node "entity_memory" then Some (MEMORY_STARTED, MEMORY_COMPLETED)
  else if String.eqb node "graph_memory" then Some (GRAPH_MEMORY_STARTED, GRAPH_MEMORY_COMPLETED)
  else if String.eqb node "environment" then Some (ENVIRONMENT_STARTED, ENVIRONMENT_COMPLETED)
  else if String.eqb node "capacity" then Some (CAPACITY_STARTED, CAPACITY_COMPLETED)
  else if String.eqb node "routing" then Some (ROUTING_STARTED, ROUTING_COMPLETED)
  else if String.eqb node "dispatch" then Some (DISPATCH_STARTED, DISPATCH_COMPLETED)
  else if String.eqb node "audit" then Some (AUDIT_STARTED, AUDIT_COMPLETED)
  else None.

(** [d.update(e)]. *)
Definition dict_set (d : pydict) (k : string) (v : pyval) : pydict :=
  if existsb (fun kv => String.eqb kv.1 k) d then map (fun kv => if String.eqb kv.1 k then (k, v) else kv) d else d ++ [(k, v)].
Definition dict_update (d e : pydict) : pydict := fold_left (fun d kv => dict_set d kv.1 kv.2) e d.
Lemma get_set d k v k' : dict_get (dict_set d k v) k' = if String.eqb k k' then Some v else dict_get d k'.
Proof.
  unfold dict_set. destruct (existsb _ d) eqn:E.
  - induction d as [|[k1 v1] d IH]; [done|]. simpl in E |- *. destruct (String.eqb_spec k1 k) as [->|N]; simpl.
    + destruct (String.eqb k k') eqn:K; [done|]. clear IH E. induction d as [|[k2 v2] d IH]; [done|]. simpl.
      destruct (String.eqb_spec k2 k) as [->|]; simpl; [by rewrite K|]. by destruct (String.eqb k2 k').
    + destruct (String.eqb_spec k1 k') as [->|]; [|by apply IH]. by destruct (String.eqb_spec k k') as [->|].
  - induction d as [|[k1 v1] d IH]; [done|]. simpl in E |- *. apply orb_false_iff in E as [E1 E2].
    destruct (String.eqb_spec k1 k') as [->|]; [|by apply IH]. by rewrite String.eqb_sym, E1.
Qed.

Section adapter.
Context {B Sub : Type} `{TaskEventBroker B Sub}.
(** [uuid4], the clock and the correlation id of the context, read from the world. *)
Context (uuid now : B -> string) (current : B -> option string) (fixed : string -> string).

Definition emit (task_id node : string) (t : TaskEventType) (status : string) (data : pydict) : action B TaskEvent := fun b =>
  broker_publish (create (uuid b) (now b) (current b) task_id t node status
    (match json_safe fixed (PDict data) with PDict d => d | _ => [] end) None) b.

Definition publish_started (task_id node : string) : action B unit :=
  match event_names node with
  | None => ret_action tt
  | Some (started, _) => (do _ <- emit task_id node started "PROCESSING" []; ret_action tt)%action
  end.

Definition fallback_keys : list string := ["fallback_reason"; "environment_elapsed_ms"; "environment_risk"]%string.
Definition publish_completed (task_id node : string) (patch : pydict) (state : option pydict) : action B unit :=
  match event_names node with
  | None => ret_action tt
  | Some (_, completed) =>
      (do _ <- emit task_id node completed "PROCESSING" (data_for node patch state);
       do _ <- (if String.eqb node "environment" && match get patch "fallback_used" with PBool b => b | _ => false end
                then do _ <- emit task_id node ENVIRONMENT_FALLBACK "PROCESSING" (map (fun k => (k, get patch k)) fallback_keys); ret_action tt
                else ret_action tt);
       if String.eqb node "graph_memory" && truthy (get patch "graph_memory_error")
       then do _ <- emit task_id node GRAPH_MEMORY_DEGRADED "PROCESSING" (data_for node patch state); ret_action tt
       else ret_action tt)%action
  end.

(** The nodes of one update of the graph; a patch that is no mapping is [None].
    The index of the next node counts the known nodes seen. *)
Fixpoint invoke_nodes (task_id : string) (nodes : list (string * option pydict)) (final : pydict) (index : nat) : action B (pydict * nat) :=
  match nodes with
  | [] => ret_action (final, index)
  | (_, None) :: rest => invoke_nodes task_id rest final index
  | (node, Some patch) :: rest =>
      let final' := dict_update final patch in
      match event_names node with
      | None => invoke_nodes task_id rest final' index
      | Some _ =>
          (do _ <- publish_completed task_id node patch (Some final');
           do _ <- (match NODES !! S index with Some next => publish_started task_id next | None => ret_action tt end);
           invoke_nodes task_id rest final' (S index))%action
      end
  end.
Fixpoint invoke_updates (task_id : string) (updates : list (option (list (string * option pydict)))) (final : pydict) (index : nat) : action B pydict :=
  match updates with
  | [] => ret_action final
  | None :: rest => invoke_updates task_id rest final index
  | Some nodes :: rest => (do r <- invoke_nodes task_id nodes final index; invoke_updates task_id rest r.1 r.2)%action
  end.
(** [invoke], on what the graph yields; an empty list of nodes cannot be. *)
Definition invoke (task_id : string) (updates : list (option (list (string * option pydict)))) (state : pydict) : action B pydict :=
  (do _ <- publish_started task_id "intake"; invoke_updates task_id updates state 0)%action.

(** *** The publisher of a runtime thread *)
Definition checkpoint_data (t : RuntimeThreads.RuntimeThread) : pydict :=
  [("thread_id", PStr (RuntimeThreads.thread_id t)); ("checkpoint_id", opt_str (RuntimeThreads.current_checkpoint_id t)); ("state_version", PInt (RuntimeThreads.state_version t));
   ("node", opt_str (RuntimeThreads.current_node t)); ("next_node", opt_str (RuntimeThreads.next_node t)); ("checkpoint_size_bytes", opt_int (RuntimeThreads.checkpoint_size_bytes t))]%string.
(** [update_last_event_sequence] of the repository. *)
Context (update_last_event_sequence : string -> Z -> action B unit).
Definition thread_publish (t : RuntimeThreads.RuntimeThread) (ty : TaskEventType) (status : string) (data : pydict) : action B TaskEvent := fun b =>
  (do published <- broker_publish (create (uuid b) (now b) (current b) (RuntimeThreads.task_id t) ty "runtime_thread" status data None);
   do _ <- update_last_event_sequence (RuntimeThreads.thread_id t) (sequence published);
   ret_action published)%action b.
Definition publish_checkpoint (t : RuntimeThreads.RuntimeThread) : action B TaskEvent := thread_publish t THREAD_CHECKPOINTED "STABLE" (checkpoint_data t).
Definition publish_resumed (t : RuntimeThreads.RuntimeThread) : action B TaskEvent :=
  thread_publish t THREAD_RESUMED "PROCESSING" (checkpoint_data t ++ [("resume_count"%string, PInt (RuntimeThreads.resumed_count t))]).
Definition publish_terminal (t : RuntimeThreads.RuntimeThread) : action B TaskEvent := thread_publish t THREAD_TERMINAL "TERMINAL" (checkpoint_data t).
Definition start (t : RuntimeThreads.RuntimeThread) : action B unit := match RuntimeThreads.next_node t with Some n => publish_started (RuntimeThreads.task_id t) n | None => ret_action tt end.
(** [__call__]. *)
Definition announce (t : RuntimeThreads.RuntimeThread) (node : option string) (patch state : option pydict) : action B TaskEvent :=
  (do _ <- match node with Some n => publish_completed (RuntimeThreads.task_id t) n (default [] patch) state | None => ret_action tt end;
   do published <- publish_checkpoint t;
   do _ <- start t;
   ret_action published)%action.
End adapter.

(** ** The WebSocket session *)

(** [_close_with_visible_code] for what consuming the ticket gave; a consumed
    ticket tells whether its holder can review. *)
Definition WsTicketUnavailable : exn := Exn "WsTicketUnavailable" "".
Definition WsTicketRejected (code : string) : exn := Exn "WsTicketRejected" code.
Definition close_code (code : string) : Z :=
  if one_of code ["WS_TICKET_WRONG_SCOPE"; "WS_TICKET_PERMISSION_DENIED"]%string then 4403
  else if String.eqb code "WS_TICKET_REPLAYED_OR_EXPIRED" then 4408 else 4401.
Inductive ending := StillOpen | ClosedWith (code : Z) | Raised (e : exn).
(** [ticket]: absent, or what [consume] answers; [known]: the task exists. *)
Definition admit_session (ticket : option (result bool)) (known : bool) : ending + bool :=
  match ticket with
  | None => inl (ClosedWith 4401)
  | Some (Ok can_review) => if known then inr can_review else inl (ClosedWith 1008)
  | Some (Err e) =>
      if String.eqb (exn_class e) "WsTicketUnavailable" then inl (ClosedWith 1011)
      else if String.eqb (exn_class e) "WsTicketRejected" then inl (ClosedWith (close_code (exn_arg e))) else inl (Raised e)
  end.

(** [except EventBrokerConnectionError: close(1011)]. *)
Definition failure (e : exn) : ending := if String.eqb (exn_class e) "EventBrokerConnectionError" then ClosedWith 1011 else Raised e.

(** The event as its viewer gets it ([TaskEventVisibilityProjector.project]). *)
Definition project (db : result store) (can_review : bool) (e : TaskEvent) : pydict :=
  let data := e_data e in
  if can_review || negb (existsb (fun kv => sensitive kv.1) data) then to_dict e
  else if is_published db (e_task_id e) then to_dict e
  else map (fun kv => if String.eqb kv.1 "data" then ("data"%string, PDict (visible_data db (e_task_id e) can_review data)) else kv) (to_dict e).

(** What happens after the subscription: another session publishes, or this one reads. *)
Inductive session_step := Published (e : TaskEvent) | Deliver.

Section session.
Context {B Sub : Type} `{TaskEventBroker B Sub}.

Fixpoint serve (steps : list session_step) (s : Sub) (b : B) : list TaskEvent * ending * B :=
  match steps with
  | [] => ([], StillOpen, broker_unsubscribe s b)
  | Published e :: rest => serve rest s (broker_publish e b).2
  | Deliver :: rest =>
      match broker_read s b with
      | (Ok (es, s'), b') => let '(sent, fin, b'') := serve rest s' b' in (es ++ sent, fin, b'')
      | (Err e, b') => ([], failure e, broker_unsubscribe s b')
      end
  end.

Fixpoint publish_all (es : list TaskEvent) (b : B) : B := match es with [] => b | e :: es' => publish_all es' (broker_publish e b).2 end.

(** The session after the snapshot: replay, then what arrives; [between] is
    published between the replay's read and the subscription. *)
Definition session (task_id : string) (last_event_id : option string) (between : list TaskEvent) (steps : list session_step) (b : B)
    : list TaskEvent * ending * B :=
  match broker_history task_id last_event_id b with
  | (Err e, b1) => ([], failure e, b1)
  | (Ok replay, b1) =>
      let cursor := match last replay with Some e => Some (event_id e) | None => last_event_id end in
      match broker_subscribe task_id cursor (publish_all between b1) with
      | (Err e, b2) => ([], failure e, b2)
      | (Ok s, b2) => let '(sent, fin, b3) := serve steps s b2 in (replay ++ sent, fin, b3)
      end
  end.
End session.

(** ** The in-process broker: facts *)
Module InMemoryFacts.
Import InMemory.

Lemma history_publish e b t : history_of (publish e b).2 t =
  if String.eqb (e_task_id e) t then append_bounded (history_size b) (history_of b t) (with_sequence (last_sequence (history_of b t) + 1) e) else history_of b t.
Proof.
  unfold history_of at 1. cbn. destruct (String.eqb_spec (e_task_id e) t) as [->|N]; [by rewrite lookup_insert_eq|by rewrite lookup_insert_ne].
Qed.
Lemma queues_publish e b t : queues_of (publish e b).2 t =
  if String.eqb (e_task_id e) t then (fun q => offer (subscriber_queue_size b) q (with_sequence (last_sequence (history_of b t) + 1) e)) <$> queues_of b t else queues_of b t.
Proof.
  unfold queues_of at 1. cbn. destruct (String.eqb_spec (e_task_id e) t) as [->|N]; [by rewrite lookup_insert_eq|by rewrite lookup_insert_ne].
Qed.
Lemma history_history t i b t' : history_of (history t i b).2 t' = history_of b t'.
Proof. unfold history_of at 1. cbn. destruct (decide (t = t')) as [->|]; [by rewrite lookup_insert_eq|by rewrite lookup_insert_ne]. Qed.
Lemma history_subscribe t i b t' : history_of (subscribe t i b).2 t' = history_of b t'.
Proof. unfold history_of at 1. cbn. destruct (decide (t = t')) as [->|]; [by rewrite lookup_insert_eq|by rewrite lookup_insert_ne]. Qed.
Lemma history_read s b t : history_of (read s b).2 t = history_of b t.
Proof. unfold read. destruct (queues_of b s.1 !! s.2) as [[|e q]|]; done. Qed.
Lemma history_unsubscribe s b t : history_of (unsubscribe s b) t = history_of b t.
Proof. unfold unsubscribe. by destruct (subscribers b !! s.1). Qed.

Lemma length_append_bounded n l e : (length (append_bounded n l e) <= n)%nat.
Proof. unfold append_bounded. rewrite length_drop, length_app. simpl. lia. Qed.
Lemma last_append_bounded n l e : (1 <= n)%nat -> last (append_bounded n l e) = Some e.
Proof.
  intros N. unfold append_bounded. rewrite length_app. simpl. rewrite drop_app_le by lia. apply last_snoc.
Qed.
Lemma append_bounded_suffix n l e : exists k, append_bounded n l e = drop k (l ++ [e]).
Proof. by eexists. Qed.

Lemma length_offer n q e : (0 < n)%nat -> (length q <= n)%nat -> (length (offer n q e) <= n)%nat.
Proof.
  intros N L. unfold offer. destruct (Nat.ltb_spec 0 n), (Nat.leb_spec n (length q)); simpl; try lia; [|rewrite length_app; simpl; lia].
  destruct q; simpl in *; [lia|]. rewrite length_app. simpl. lia.
Qed.
Lemma offer_elem n q e x : x ∈ offer n q e -> x ∈ q \/ x = e.
Proof.
  unfold offer. destruct (_ && _); [destruct q as [|y q]; [by left|]|]; rewrite elem_of_app, list_elem_of_singleton; intros [H|H]; auto. left. by right.
Qed.
Lemma offer_room n q e : (n = 0 \/ length q < n)%nat -> offer n q e = q ++ [e].
Proof. intros R. unfold offer. destruct (Nat.ltb_spec 0 n), (Nat.leb_spec n (length q)); try done. lia. Qed.

(** *** Sequences *)
Definition ordered (l : list TaskEvent) : Prop := StronglySorted Z.lt (map sequence l).
Definition consecutive (l : list TaskEvent) : Prop := forall i x y, l !! i = Some x -> l !! S i = Some y -> sequence y = sequence x + 1.

Lemma ordered_snoc l e : ordered l -> (forall x, x ∈ l -> sequence x < sequence e) -> ordered (l ++ [e]).
Proof.
  intros O L. unfold ordered in *. rewrite map_app. induction l as [|x l IH]; simpl in *; [by repeat constructor|].
  inversion O as [|? ? O' F]; subst. constructor.
  - apply IH; [done|]. intros y Y. apply L. by right.
  - apply Forall_app. split; [done|]. constructor; [apply L; by left|done].
Qed.
Lemma ordered_tail x l : ordered (x :: l) -> ordered l /\ forall y, y ∈ l -> sequence x < sequence y.
Proof.
  intros O. inversion O as [|? ? O' F]; subst. split; [done|]. intros y Y. rewrite Forall_forall in F. apply F. apply list_elem_of_In.
  apply in_map. by apply list_elem_of_In.
Qed.
Lemma ordered_cons x l : ordered l -> (forall y, y ∈ l -> sequence x < sequence y) -> ordered (x :: l).
Proof.
  intros O L. constructor; [done|]. apply Forall_forall. intros z Z. apply list_elem_of_In, in_map_iff in Z as (y & <- & Y). apply L. by apply list_elem_of_In.
Qed.
Lemma ordered_offer n q e : ordered q -> (forall x, x ∈ q -> sequence x < sequence e) -> ordered (offer n q e).
Proof.
  intros O L. unfold offer. destruct (_ && _); [|by apply ordered_snoc]. destruct q as [|y q]; [done|].
  apply ordered_tail in O as [O _]. apply ordered_snoc; [done|]. intros x X. apply L. by right.
Qed.
Lemma consecutive_snoc l e : consecutive l -> (l = [] \/ sequence e = last_sequence l + 1) -> consecutive (l ++ [e]).
Proof.
  intros C L i x y X Y. assert (N : (S i < length (l ++ [e]))%nat) by (by apply lookup_lt_Some in Y). rewrite length_app in N. simpl in N.
  rewrite lookup_app_l in X by lia. destruct (decide (S i = length l)) as [E|E].
  - rewrite E, lookup_app_r, Nat.sub_diag in Y by lia. injection Y as <-. destruct L as [->|L]; [done|]. rewrite L. unfold last_sequence.
    rewrite last_lookup, <- E. simpl. by rewrite X.
  - rewrite lookup_app_l in Y by lia. by apply (C i).
Qed.
Lemma consecutive_drop k l : consecutive l -> consecutive (drop k l).
Proof. intros C i x y. rewrite !lookup_drop, Nat.add_succ_r. apply C. Qed.
Lemma consecutive_tail x l : consecutive (x :: l) -> consecutive l.
Proof. intros C i. apply (C (S i)). Qed.
Lemma consecutive_ordered l : consecutive l -> ordered l.
Proof.
  induction l as [|x l IH]; intros C; [constructor|]. pose proof (IH (consecutive_tail _ _ C)) as O. constructor; [done|].
  destruct l as [|y l]; [constructor|]. pose proof (C 0%nat x y eq_refl eq_refl) as E. constructor; [lia|].
  apply Forall_forall. intros z Z. inversion O as [|? ? _ F]; subst. rewrite Forall_forall in F. specialize (F _ Z). lia.
Qed.
Lemma consecutive_last l x : consecutive l -> x ∈ l -> sequence x <= last_sequence l.
Proof.
  intros C. destruct l as [|y l _] using rev_ind; [by intros ?%elem_of_nil|]. unfold last_sequence. rewrite last_snoc.
  intros [X|X]%elem_of_app; [|apply list_elem_of_singleton in X as ->; lia]. apply consecutive_ordered in C. unfold ordered in C. rewrite map_app in C. simpl in C.
  clear - C X. induction l as [|z l IH]; [by apply elem_of_nil in X|]. simpl in C. inversion C as [|? ? C' F]; subst. apply elem_of_cons in X as [->|X]; [|auto].
  rewrite Forall_app in F. destruct F as [_ F]. inversion F; subst. lia.
Qed.

(** *** Any number of sessions *)
Inductive operation := Publish (e : TaskEvent) | History (t : string) (i : option string) | Subscribe (t : string) (i : option string)
  | Read (s : string * nat) | Unsubscribe (s : string * nat).
Definition perform (o : operation) (b : broker) : broker :=
  match o with
  | Publish e => (publish e b).2 | History t i => (history t i b).2 | Subscribe t i => (subscribe t i b).2 | Read s => (read s b).2 | Unsubscribe s => unsubscribe s b
  end.
Fixpoint run (ops : list operation) (b : broker) : broker := match ops with [] => b | o :: ops' => run ops' (perform o b) end.
(** What a subscription reads along the way. *)
Definition reads (o : operation) (s : string * nat) (b : broker) : list TaskEvent :=
  match o with Read s' => if bool_decide (s' = s) then match (read s b).1 with Ok (es, _) => es | Err _ => [] end else [] | _ => [] end.
Fixpoint delivered (s : string * nat) (ops : list operation) (b : broker) : list TaskEvent :=
  match ops with [] => [] | o :: ops' => reads o s b ++ delivered s ops' (perform o b) end.
Definition empty_broker (hs qs : nat) : broker :=
  {| history_size := hs; subscriber_queue_size := qs; histories := ∅; subscribers := ∅; next_subscription := 0 |}.

(** A queue holds events of its task, in the order of their publication. *)
Record good_queue (b : broker) (t : string) (q : list TaskEvent) : Prop := {
  gq_bounded : (0 < subscriber_queue_size b)%nat -> (length q <= subscriber_queue_size b)%nat;
  gq_ordered : ordered q;
  gq_members : forall e, e ∈ q -> e_task_id e = t /\ sequence e <= last_sequence (history_of b t);
}.
Record good (b : broker) : Prop := {
  g_size : (1 <= history_size b)%nat;
  g_bounded : forall t, (length (history_of b t) <= history_size b)%nat;
  g_consecutive : forall t, consecutive (history_of b t);
  g_task : forall t e, e ∈ history_of b t -> e_task_id e = t;
  g_queues : forall t sid q, queues_of b t !! sid = Some q -> (sid < next_subscription b)%nat /\ good_queue b t q;
}.

Lemma good_empty hs qs : (1 <= hs)%nat -> good (empty_broker hs qs).
Proof.
  intros H. assert (E : forall t, history_of (empty_broker hs qs) t = []) by (intros t; unfold history_of; cbn; by rewrite lookup_empty).
  split; [done|intros t; rewrite E; cbn; lia|intros t i x y; by rewrite E|intros t e; rewrite E; by intros ?%elem_of_nil|].
  intros t sid q. unfold queues_of. cbn. rewrite lookup_empty. cbn. by rewrite lookup_empty.
Qed.

Lemma last_sequence_publish e b : (1 <= history_size b)%nat ->
  last_sequence (history_of (publish e b).2 (e_task_id e)) = last_sequence (history_of b (e_task_id e)) + 1.
Proof. intros S. rewrite history_publish, String.eqb_refl. unfold last_sequence at 1. by rewrite last_append_bounded. Qed.
Lemma history_mono o b t : good b -> last_sequence (history_of b t) <= last_sequence (history_of (perform o b) t).
Proof.
  intros G. destruct o as [e|t' i|t' i|s|s]; cbn [perform]; rewrite ?history_history, ?history_subscribe, ?history_read, ?history_unsubscribe; try lia.
  destruct (decide (e_task_id e = t)) as [<-|N]; [rewrite last_sequence_publish; [lia|apply (g_size _ G)]|].
  rewrite history_publish. destruct (String.eqb_spec (e_task_id e) t); [done|lia].
Qed.
Lemma after_suffix l i : exists k, after l i = drop k l.
Proof.
  destruct i as [i|]; [|by exists 0%nat]. cbn. induction l as [|x l [k IH]]; [by exists 0%nat|]. cbn. destruct (String.eqb (event_id x) i); [by exists 1%nat|].
  destruct (find_after l i) as [r|] eqn:E; cbn in *; [by exists (S k)|by exists 0%nat].
Qed.
Lemma offer_all n l : forall q, ordered (q ++ l) -> ((0 < n)%nat -> (length q <= n)%nat) ->
  let r := fold_left (offer n) l q in ordered r /\ ((0 < n)%nat -> (length r <= n)%nat) /\ (forall x, x ∈ r -> x ∈ q \/ x ∈ l).
Proof.
  induction l as [|e l IH]; intros q O L; cbn; [rewrite app_nil_r in O; auto|].
  assert (Q : ordered q /\ forall x, x ∈ q -> sequence x < sequence e).
  { unfold ordered in *. rewrite map_app in O. clear - O. induction q as [|x q IHq]; [split; [constructor|by intros ? ?%elem_of_nil]|].
    simpl in O. inversion O as [|? ? O' F]; subst. destruct (IHq O') as [Oq Lq]. rewrite Forall_app in F. destruct F as [F1 F2]. split; [by constructor|].
    intros y [->|Y]%elem_of_cons; [by inversion F2|auto]. }
  destruct Q as [Oq Lq]. destruct (IH (offer n q e)) as (A1 & A2 & A3).
  - unfold offer. destruct (_ && _); [destruct q as [|y q]|]; rewrite <- ?app_assoc; cbn; try done; [by apply ordered_tail in O as [O _]|].
    by apply ordered_tail in O as [O _].
  - intros N. apply length_offer; auto.
  - split_and!; [done|done|]. intros x [X|X]%A3; [|right; by right]. apply offer_elem in X as [X| ->]; [by left|right; by left].
Qed.

Lemma queues_insert m (t t' : string) (b : broker) : queues_of (with_subscribers b (<[t := m]> (subscribers b))) t' = if String.eqb t t' then m else queues_of b t'.
Proof. unfold queues_of at 1. cbn. destruct (String.eqb_spec t t') as [->|]; [by rewrite lookup_insert_eq|by rewrite lookup_insert_ne]. Qed.
Lemma queues_read s b t sid q : queues_of (read s b).2 t !! sid = Some q ->
  queues_of b t !! sid = Some q \/ s = (t, sid) /\ exists e, queues_of b t !! sid = Some (e :: q).
Proof.
  destruct s as [t' sid']. unfold read. cbn. destruct (queues_of b t' !! sid') as [[|e q']|] eqn:E; cbn; auto. rewrite queues_insert.
  destruct (String.eqb_spec t' t) as [->|]; [|auto]. destruct (decide (sid' = sid)) as [->|]; [|rewrite lookup_insert_ne; auto].
  rewrite lookup_insert_eq. intros [= ->]. right. split; [done|]. by exists e.
Qed.
Lemma queues_unsubscribe s b t sid q : queues_of (unsubscribe s b) t !! sid = Some q -> queues_of b t !! sid = Some q /\ s <> (t, sid).
Proof.
  destruct s as [t' sid']. unfold unsubscribe. cbn. destruct (subscribers b !! t') as [m|] eqn:E.
  - unfold queues_of. cbn. destruct (decide (t' = t)) as [->|N].
    + rewrite E. cbn. case_bool_decide as D; rewrite ?lookup_delete_eq, ?lookup_insert_eq; cbn; [by rewrite lookup_empty|].
      intros [L X]%lookup_delete_Some. split; [done|]. by intros [= ->].
    + case_bool_decide; rewrite ?lookup_delete_ne, ?lookup_insert_ne by done; intros ->; (split; [done|by intros [= ->]]).
  - intros H. split; [done|]. intros [= -> ->]. unfold queues_of in H. rewrite E in H. cbn in H. by rewrite lookup_empty in H.
Qed.
Lemma queues_subscribe t i b t' sid q : queues_of (subscribe t i b).2 t' !! sid = Some q ->
  queues_of b t' !! sid = Some q \/ t' = t /\ sid = next_subscription b /\ q = fold_left (offer (subscriber_queue_size b)) (after (history_of b t) i) [].
Proof.
  unfold queues_of at 1. cbn. destruct (decide (t = t')) as [->|]; [rewrite lookup_insert_eq; cbn|by rewrite lookup_insert_ne; auto].
  destruct (decide (next_subscription b = sid)) as [<-|]; [|rewrite lookup_insert_ne; auto]. rewrite lookup_insert_eq. intros [= <-]. auto.
Qed.
Lemma sizes_perform o b : subscriber_queue_size (perform o b) = subscriber_queue_size b /\ history_size (perform o b) = history_size b /\
  (next_subscription b <= next_subscription (perform o b))%nat.
Proof.
  destruct o as [e|t i|t i|[t sid]|[t sid]]; cbn; try (split_and!; (done || lia)).
  - unfold read. cbn. destruct (queues_of b t !! sid) as [[|e q]|]; cbn; auto.
  - unfold unsubscribe. cbn. destruct (subscribers b !! t); auto.
Qed.
Lemma queues_perform o b t sid q : queues_of (perform o b) t !! sid = Some q -> (forall t' i, o = Subscribe t' i -> sid <> next_subscription b) ->
  exists q0, queues_of b t !! sid = Some q0 /\
    (q = q0 \/ (exists e, o = Publish e /\ e_task_id e = t /\ q = offer (subscriber_queue_size b) q0 (with_sequence (last_sequence (history_of b t) + 1) e))
     \/ o = Read (t, sid) /\ exists e, q0 = e :: q).
Proof.
  destruct o as [e|t' i|t' i|s|s]; cbn [perform]; intros H N.
  - rewrite queues_publish in H. destruct (String.eqb_spec (e_task_id e) t); [|eauto].
    apply lookup_fmap_Some in H as (q0 & <- & H). exists q0. split; [done|]. right. left. eauto.
  - exists q. split; [exact H|by left].
  - apply queues_subscribe in H as [H|(-> & -> & _)]; [eauto|]. by destruct (N t' i).
  - apply queues_read in H as [H|[-> (e & H)]]; [eauto|]. eexists. split; [done|]. right. right. eauto.
  - apply queues_unsubscribe in H as [H _]. eauto.
Qed.

Lemma good_queue_mono o b t q : good b -> good_queue b t q -> good_queue (perform o b) t q.
Proof.
  intros G [L O M]. destruct (sizes_perform o b) as (Q & _ & _). split; rewrite ?Q; [done|done|].
  intros e E. destruct (M e E) as [T S]. split; [done|]. pose proof (history_mono o b t G). lia.
Qed.
Lemma good_queue_offer e b q : good b -> good_queue b (e_task_id e) q ->
  good_queue (publish e b).2 (e_task_id e) (offer (subscriber_queue_size b) q (with_sequence (last_sequence (history_of b (e_task_id e)) + 1) e)).
Proof.
  intros G [L O M]. split.
  - intros P. apply length_offer; [done|auto].
  - apply ordered_offer; [done|]. intros x X. apply M in X as [_ X]. cbn. lia.
  - intros x X. rewrite last_sequence_publish by apply (g_size _ G). apply offer_elem in X as [X| ->]; [apply M in X as [T X]; split; [done|lia]|].
    cbn. split; [done|lia].
Qed.
Lemma good_perform o b : good b -> good (perform o b).
Proof.
  intros G. destruct (sizes_perform o b) as (Q & H & N). split.
  - rewrite H. apply (g_size _ G).
  - rewrite H. intros t. destruct o as [e|t' i|t' i|s|s]; cbn [perform]; rewrite ?history_history, ?history_subscribe, ?history_read, ?history_unsubscribe; try apply (g_bounded _ G).
    rewrite history_publish. destruct (String.eqb (e_task_id e) t); [apply length_append_bounded|apply (g_bounded _ G)].
  - intros t. destruct o as [e|t' i|t' i|s|s]; cbn [perform]; rewrite ?history_history, ?history_subscribe, ?history_read, ?history_unsubscribe; try apply (g_consecutive _ G).
    rewrite history_publish. destruct (String.eqb (e_task_id e) t); [|apply (g_consecutive _ G)].
    apply consecutive_drop, consecutive_snoc; [apply (g_consecutive _ G)|by right].
  - intros t x. destruct o as [e|t' i|t' i|s|s]; cbn [perform]; rewrite ?history_history, ?history_subscribe, ?history_read, ?history_unsubscribe; try apply (g_task _ G).
    rewrite history_publish. destruct (String.eqb_spec (e_task_id e) t) as [<-|]; [|apply (g_task _ G)].
    intros X. apply (subseteq_drop) in X. apply elem_of_app in X as [X|X]; [by apply (g_task _ G)|]. apply list_elem_of_singleton in X as ->. done.
  - intros t sid q E. 
    assert (F : (exists t' i, o = Subscribe t' i /\ sid = next_subscription b) \/ forall t' i, o = Subscribe t' i -> sid <> next_subscription b).
    { destruct o as [|? ?|t' i| |]; try (right; done). destruct (decide (sid = next_subscription b)); [left; eauto|right; auto]. }
    destruct F as [(t' & i & -> & ->)|F].
    + cbn [perform] in *. apply queues_subscribe in E as [E|(-> & _ & ->)]; [destruct (g_queues _ G _ _ _ E); lia|]. split; [cbn; lia|].
      destruct (after_suffix (history_of b t') i) as [k K]. rewrite K.
      destruct (offer_all (subscriber_queue_size b) (drop k (history_of b t')) []) as (A1 & A2 & A3); [apply consecutive_ordered, consecutive_drop, (g_consecutive _ G)|cbn; lia|].
      split; [done|done|]. intros e X%A3. destruct X as [X|X]; [by apply elem_of_nil in X|]. apply subseteq_drop in X.
      rewrite history_subscribe. split; [by apply (g_task _ G)|apply consecutive_last; [apply (g_consecutive _ G)|done]].
    + apply queues_perform in E as (q0 & E & C); [|done]. destruct (g_queues _ G _ _ _ E) as [B0 Q0]. split; [lia|].
      destruct C as [->|[(e & -> & <- & ->)|(-> & e & ->)]]; [by apply good_queue_mono|by apply good_queue_offer|].
      apply good_queue_mono; [done|]. destruct Q0 as [L O M]. split; [intros P; specialize (L P); cbn in L; lia|by apply ordered_tail in O as [O _]|].
      intros x X. apply M. by right.
Qed.
Lemma good_run ops b : good b -> good (run ops b).
Proof. revert b. induction ops as [|o ops IH]; intros b G; [done|]. cbn. by apply IH, good_perform. Qed.

(** What a subscription will read is in its queue or yet to be published. *)
Lemma delivered_known t sid ops : forall b, good b -> (sid < next_subscription b)%nat -> forall x, x ∈ delivered (t, sid) ops b ->
  e_task_id x = t /\ exists q, queues_of b t !! sid = Some q /\ (x ∈ q \/ last_sequence (history_of b t) < sequence x).
Proof.
  induction ops as [|o ops IH]; intros b G N x X; [by apply elem_of_nil in X|]. cbn in X. apply elem_of_app in X as [X|X].
  - unfold reads in X. destruct o as [| | |s|]; try by apply elem_of_nil in X. case_bool_decide as D; [subst s|by apply elem_of_nil in X].
    unfold read in X. cbn in X. destruct (queues_of b t !! sid) as [[|e q]|] eqn:E; cbn in X; try by apply elem_of_nil in X.
    apply list_elem_of_singleton in X as ->. destruct (g_queues _ G _ _ _ E) as [_ Q]. split; [apply (gq_members _ _ _ Q); by left|].
    eexists. split; [done|]. left. by left.
  - destruct (sizes_perform o b) as (_ & _ & N'). apply IH in X as (T & q & E & C); [|by apply good_perform|lia]. split; [done|].
    apply queues_perform in E as (q0 & E & D); [|intros t' i ->; lia]. exists q0. split; [done|]. pose proof (history_mono o b t G) as M.
    destruct C as [X|X]; [|right; lia]. destruct D as [->|[(e & -> & <- & ->)|(-> & e & ->)]]; [by left| |by left; right].
    apply offer_elem in X as [X| ->]; [by left|]. right. cbn. lia.
Qed.
Lemma delivered_ordered t sid ops : forall b, good b -> (sid < next_subscription b)%nat -> ordered (delivered (t, sid) ops b).
Proof.
  induction ops as [|o ops IH]; intros b G N; [constructor|]. cbn. destruct (sizes_perform o b) as (_ & _ & N').
  assert (R : ordered (delivered (t, sid) ops (perform o b))) by (apply IH; [by apply good_perform|lia]).
  unfold reads. destruct o as [| | |s|]; try done. case_bool_decide as D; [subst s|done].
  unfold read at 1. cbn. destruct (queues_of b t !! sid) as [[|e q]|] eqn:E; cbn; try done. apply ordered_cons; [done|]. intros x X.
  destruct (g_queues _ G _ _ _ E) as [_ Q]. destruct (ordered_tail _ _ (gq_ordered _ _ _ Q)) as [_ L]. 
  apply delivered_known in X as (_ & q' & E' & C); [|by apply (good_perform (Read (t, sid)))|cbn in N'; lia].
  cbn [perform] in E'. destruct (gq_members _ _ _ Q e) as [_ M]; [by left|]. rewrite history_read in C.
  destruct C as [C|C]; [|cbn in *; lia]. unfold read in E'. cbn in E'. rewrite E in E'. cbn in E'.
  rewrite queues_insert, String.eqb_refl, lookup_insert_eq in E'. injection E' as <-. by apply L.
Qed.

(** Whatever sessions publish, subscribe, read and leave, the history of a
    task is bounded and numbered without a gap, and what a subscription delivers
    is about its task and strictly in the order of publication: no event twice,
    none after a later one. *)
Theorem in_memory_ordered (hs qs : nat) (ops more : list operation) (t : string) (last_event_id : option string) (HS : (1 <= hs)%nat) :
  let b := run ops (empty_broker hs qs) in
  let s := (t, next_subscription b) in
  (subscribe t last_event_id b).1 = Ok s /\
  ordered (delivered s more (subscribe t last_event_id b).2) /\
  (forall e, e ∈ delivered s more (subscribe t last_event_id b).2 -> e_task_id e = t) /\
  (forall t', let h := history_of (run more (subscribe t last_event_id b).2) t' in (length h <= hs)%nat /\ consecutive h).
Proof.
  intros b s. assert (G : good b) by (apply good_run, good_empty; done).
  assert (G' : good (subscribe t last_event_id b).2) by (apply (good_perform (Subscribe t last_event_id)); done).
  assert (N : (next_subscription b < next_subscription (subscribe t last_event_id b).2)%nat) by (cbn; lia).
  split_and!; [done|by apply delivered_ordered| |].
  - intros e E. by apply delivered_known in E as [? _].
  - intros t' h. pose proof (good_run more _ G') as R. split; [|apply (g_consecutive _ R)].
    assert (S : forall ops b, history_size (run ops b) = history_size b).
    { intros ops'. induction ops' as [|o ops' IH]; intros b'; [done|]. cbn. rewrite IH. apply sizes_perform. }
    assert (Z : history_size (run more (subscribe t last_event_id b).2) = hs) by (rewrite S; exact (S ops (empty_broker hs qs))).
    pose proof (g_bounded _ R t') as L. rewrite Z in L. exact L.
Qed.

Definition ex_event (i t : string) : TaskEvent :=
  {| event_id := i; e_task_id := t; event_type := ROUTING_STARTED; e_node := "routing"; e_status := "PROCESSING"; timestamp := "now"; sequence := 0; e_data := []; correlation_id := None |}.
Lemma in_memory_ordered_witness :
  let b := run [Publish (ex_event "a" "T"); Publish (ex_event "b" "T"); Publish (ex_event "c" "T")] (empty_broker 2 1) in
  ordered (delivered ("T"%string, 0%nat) [Publish (ex_event "d" "T"); Read ("T"%string, 0%nat)] (subscribe "T" (Some "b"%string) b).2) /\
  map sequence (delivered ("T"%string, 0%nat) [Publish (ex_event "d" "T"); Read ("T"%string, 0%nat)] (subscribe "T" (Some "b"%string) b).2) = [4].
Proof.
  pose proof (in_memory_ordered 2 1 [Publish (ex_event "a" "T"); Publish (ex_event "b" "T"); Publish (ex_event "c" "T")]
    [Publish (ex_event "d" "T"); Read ("T"%string, 0%nat)] "T" (Some "b"%string) ltac:(lia)) as (_ & O & _).
  split; [exact O|vm_compute; reflexivity].
Defined.

(** *** One session *)

(** The events of a task published along the steps, numbered from [n]. *)
Fixpoint published_in (t : string) (n : Z) (steps : list session_step) : list TaskEvent :=
  match steps with
  | [] => []
  | Published e :: rest => if String.eqb (e_task_id e) t then with_sequence (n + 1) e :: published_in t (n + 1) rest else published_in t n rest
  | Deliver :: rest => published_in t n rest
  end.

Lemma serve_in_memory t sid tail steps : forall b q, queues_of b t !! sid = Some q -> (1 <= history_size b)%nat ->
  (subscriber_queue_size b = 0 \/ length q + length (published_in t (last_sequence (history_of b t)) steps) <= subscriber_queue_size b)%nat ->
  exists b' q' sent, queues_of b' t !! sid = Some q' /\ sent ++ q' = q ++ published_in t (last_sequence (history_of b t)) steps /\
    serve (steps ++ tail) (t, sid) b = (sent ++ (serve tail (t, sid) b').1.1, (serve tail (t, sid) b').1.2, (serve tail (t, sid) b').2).
Proof.
  induction steps as [|[e|] steps IH]; intros b q E H R; cbn [published_in app serve] in *.
  - exists b, q, []. split_and!; [done|by rewrite app_nil_r|]. cbn. by destruct (serve tail (t, sid) b) as [[? ?] ?].
  - change (broker_publish e b).2 with (publish e b).2. pose proof (queues_publish e b t) as Q. pose proof (history_publish e b t) as P.
    destruct (String.eqb_spec (e_task_id e) t) as [<-|N].
    + assert (L : last_sequence (history_of (publish e b).2 (e_task_id e)) = last_sequence (history_of b (e_task_id e)) + 1) by by apply last_sequence_publish.
      destruct (IH (publish e b).2 (q ++ [with_sequence (last_sequence (history_of b (e_task_id e)) + 1) e])) as (b' & q' & sent & A & C & D).
      * rewrite Q, lookup_fmap, E. cbn. f_equal. apply offer_room. cbn in R. lia.
      * done.
      * rewrite L, length_app. cbn in R |- *. lia.
      * exists b', q', sent. split_and!; [done| |done]. rewrite C, L, <- app_assoc. done.
    + destruct (IH (publish e b).2 q) as (b' & q' & sent & A & C & D); [by rewrite Q|done|by rewrite P|]. exists b', q', sent. by rewrite C, P.
  - change (broker_read (t, sid) b) with (read (t, sid) b). unfold read. cbn [fst snd]. rewrite E. destruct q as [|e q].
    + destruct (IH b [] E H R) as (b' & q' & sent & A & C & D). exists b', q', sent. split_and!; [done|done|]. by rewrite D.
    + set (b1 := with_subscribers b _). assert (E1 : queues_of b1 t !! sid = Some q) by (unfold b1; by rewrite queues_insert, String.eqb_refl, lookup_insert_eq).
      destruct (IH b1 q E1 H) as (b' & q' & sent & A & C & D).
      * change (history_of b1 t) with (history_of b t). cbn in R |- *. lia.
      * exists b', q', (e :: sent). split_and!; [done|cbn; f_equal; exact C|]. by rewrite D.
Qed.
Lemma serve_drain t sid k : forall b q, queues_of b t !! sid = Some q -> (length q <= k)%nat ->
  exists b', serve (replicate k Deliver) (t, sid) b = (q, StillOpen, b').
Proof.
  induction k as [|k IH]; intros b q E L; cbn [replicate serve].
  - destruct q; [by eexists|cbn in L; lia].
  - change (broker_read (t, sid) b) with (read (t, sid) b). unfold read. cbn [fst snd]. rewrite E. destruct q as [|e q].
    + destruct (IH b [] E) as [b' D]; [cbn; lia|]. exists b'. by rewrite D.
    + set (b1 := with_subscribers b _). assert (E1 : queues_of b1 t !! sid = Some q) by (unfold b1; by rewrite queues_insert, String.eqb_refl, lookup_insert_eq).
      destruct (IH b1 q E1) as [b' D]; [cbn in L; lia|]. exists b'. by rewrite D.
Qed.

Lemma find_after_last h e : NoDup (map event_id (h ++ [e])) -> find_after (h ++ [e]) (event_id e) = Some [].
Proof.
  induction h as [|x h IH]; cbn [app find_after map]; intros N; [by rewrite String.eqb_refl|]. inversion N as [|? ? X N']; subst.
  destruct (String.eqb_spec (event_id x) (event_id e)) as [E|]; [|by apply IH]. destruct X. rewrite E. apply list_elem_of_In, in_map, in_or_app. right. by left.
Qed.
Lemma cursor_reaches_end h i : NoDup (map event_id h) ->
  after h (match last (after h i) with Some e => Some (event_id e) | None => i end) = [].
Proof.
  intros N. destruct (last (after h i)) as [e|] eqn:L; [|by apply last_None in L].
  destruct (after_suffix h i) as [k K]. rewrite K in L. destruct h as [|x h _] using rev_ind; [by destruct k|].
  assert (e = x) as ->.
  { destruct (decide (k <= length h)%nat); [|rewrite drop_ge in L by (rewrite length_app; simpl; lia); done]. rewrite drop_app_le, last_snoc in L by done. congruence. }
  cbn. by rewrite find_after_last.
Qed.

(** C12: A session that connects, or reconnects with the last id it saw, gets the
    events it missed and then every event published since, each once and in
    order, as long as its queue has room; reading as often as events were
    published gets them all. *)
Theorem session_delivers_once (b : broker) (t : string) (last_event_id : option string) (steps : list session_step) (k : nat)
  (H1 : (1 <= history_size b)%nat) (IDS : NoDup (map event_id (history_of b t)))
  (ROOM : (subscriber_queue_size b = 0 \/ length (published_in t (last_sequence (history_of b t)) steps) <= subscriber_queue_size b)%nat)
  (K : (length (published_in t (last_sequence (history_of b t)) steps) <= k)%nat) :
  let expected := after (history_of b t) last_event_id ++ published_in t (last_sequence (history_of b t)) steps in
  (session t last_event_id [] (steps ++ replicate k Deliver) b).1 = (expected, StillOpen) /\
  (session t last_event_id [] steps b).1.1 `prefix_of` expected.
Proof.
  intros expected. set (cursor := match last (after (history_of b t) last_event_id) with Some e => Some (event_id e) | None => last_event_id end).
  set (b1 := (history t last_event_id b).2). set (b2 := (subscribe t cursor b1).2).
  assert (S : forall more, session t last_event_id [] more b =
    (after (history_of b t) last_event_id ++ (serve more (t, next_subscription b) b2).1.1, (serve more (t, next_subscription b) b2).1.2, (serve more (t, next_subscription b) b2).2)).
  { intros more. unfold session. cbn [broker_history in_memory broker_subscribe publish_all]. unfold history. cbn. unfold b2, b1, subscribe, history. cbn.
    fold cursor. by destruct (serve more _ _) as [[? ?] ?]. }
  assert (HB : history_of b2 t = history_of b t) by (unfold b2, b1; by rewrite history_subscribe, history_history).
  assert (E : queues_of b2 t !! next_subscription b = Some []).
  { unfold b2, subscribe, queues_of. cbn [snd subscribers]. rewrite lookup_insert_eq. cbn. rewrite lookup_insert_eq. f_equal.
    rewrite (history_history t None b t : history_of (with_histories b (<[t := history_of b t]> (histories b))) t = _).
    assert (X : after (history_of b t) cursor = []) by (by apply cursor_reaches_end). by rewrite X. }
  split.
  - destruct (serve_in_memory t (next_subscription b) (replicate k Deliver) steps b2 [] E H1) as (b' & q' & sent & A & C & D); [by rewrite HB|].
    rewrite HB in C. cbn in C. destruct (serve_drain t (next_subscription b) k b' q' A) as [b3 X].
    { rewrite <- C, length_app in K. lia. }
    rewrite S, D, X. cbn. rewrite C. done.
  - destruct (serve_in_memory t (next_subscription b) [] steps b2 [] E H1) as (b' & q' & sent & A & C & D); [by rewrite HB|].
    rewrite HB in C. cbn in C. rewrite app_nil_r in D. rewrite S, D. cbn. rewrite app_nil_r. unfold expected. rewrite <- C, app_assoc. by apply prefix_app_r.
Qed.

Lemma session_delivers_once_witness :
  let b := run [Publish (ex_event "a" "T"); Publish (ex_event "b" "T"); Publish (ex_event "c" "T")] (empty_broker 3 2) in
  (session "T" (Some "b"%string) [] [Published (ex_event "d" "T"); Deliver; Published (ex_event "x" "U"); Published (ex_event "e" "T"); Deliver; Deliver] b).1
    = ([with_sequence 3 (ex_event "c" "T"); with_sequence 4 (ex_event "d" "T"); with_sequence 5 (ex_event "e" "T")], StillOpen).
Proof.
  set (b := run _ _).
  pose proof (session_delivers_once b "T" (Some "b"%string) [Published (ex_event "d" "T"); Deliver; Published (ex_event "x" "U"); Published (ex_event "e" "T")] 2) as [S _].
  - vm_compute. lia.
  - apply (bool_decide_unpack (NoDup (map event_id (history_of b "T")))). vm_compute. exact I.
  - right. vm_compute. lia.
  - vm_compute. lia.
  - exact S.
Defined.
End InMemoryFacts.

(** ** The Redis broker: facts *)

(** What the broker relies on: ids are unique and never ["0-0"] nor empty, an
    added entry goes to the end and drops old ones only beyond the length
    asked for, [XREAD] gives what follows an id it holds, and everything after
    ["0-0"].  A failing call may have been executed. *)
Class EventStreamsLaws (Q : Type) `{EventStreams Q} := {
  ids_law : forall q key, NoDup (map fst (entries q key)) /\ ("0-0"%string ∉ map fst (entries q key)) /\ (""%string ∉ map fst (entries q key));
  incr_law : forall key q r q', incr key q = (r, q') -> (forall k, entries q' k = entries q k) /\ (forall n, r = Ok n -> 0 < n);
  xadd_law : forall key d n q r q', xadd key d n q = (r, q') ->
    (forall k, k <> key -> entries q' k = entries q k) /\
    ((length (entries q key) < n)%nat ->
      (exists i, entries q' key = entries q key ++ [(i, Some d)] /\ (forall i', r = Ok i' -> i' = i)) \/ (exists e, r = Err e) /\ entries q' key = entries q key);
  xrange_law : forall key q r q', xrange key q = (r, q') -> (forall k, entries q' k = entries q k) /\ (forall l, r = Ok l -> l = entries q key);
  xread_law : forall key after q r q', xread key after q = (r, q') -> (forall k, entries q' k = entries q k) /\
    (forall l, r = Ok l -> (after = "0-0"%string -> flat_map snd l = entries q key) /\
       (forall pre d post, entries q key = pre ++ (after, d) :: post -> flat_map snd l = post));
}.

(** An event as it comes back: an empty correlation id is none. *)
Definition normal_event (e : TaskEvent) : TaskEvent :=
  {| event_id := event_id e; e_task_id := e_task_id e; event_type := event_type e; e_node := e_node e; e_status := e_status e; timestamp := timestamp e;
     sequence := sequence e; e_data := e_data e; correlation_id := match correlation_id e with Some "" => None | c => c end%string |}.
Lemma from_to_dict py_str e : from_dict py_str (to_dict e) = Ok (normal_event e).
Proof.
  destruct e as [i t ty n s ts q d c]. unfold from_dict. cbn -[enum_of value]. rewrite enum_of_value. unfold normal_event. cbn.
  destruct c as [[|a c]|]; done.
Qed.

Section redis_facts.
Context {Q : Type} `{EventStreamsLaws Q}.
Context (dumps : pyval -> string) (loads : string -> option pyval) (py_str : pyval -> string) (prefix : string) (maxlen : nat).
Abbreviation key t := (stream_key prefix t).
Abbreviation decoded := (Forall2 (fun en e => decode_entry loads py_str en = Ok e)).
Local Instance the_broker : TaskEventBroker Q (string * string) := redis_broker dumps loads py_str prefix maxlen.

(** An event whose text is read back as written. *)
Definition readable (e : TaskEvent) : Prop := forall n, 0 < n -> loads (dumps (PDict (to_dict (with_sequence n e)))) = Some (PDict (to_dict (with_sequence n e))).

Lemma stream_key_inj t t' : key t = key t' -> t = t'.
Proof. unfold stream_key. intros E. do 2 apply (inj (String.append _)) in E. exact E. Qed.
Lemma transport_ok {A} (op : action Q A) q a q' : transport op q = (Ok a, q') -> op q = (Ok a, q').
Proof. unfold transport, catch_action. destruct (op q) as [[b|e] q1]; [done|]. by intros [= ?]. Qed.
Lemma transport_state {A} (op : action Q A) q : (transport op q).2 = (op q).2.
Proof. unfold transport, catch_action. by destruct (op q) as [[b|e] q1]. Qed.
Lemma decode_events_ok l es : decode_events loads py_str l = Ok es <-> decoded l es.
Proof.
  split; [apply map_result_Forall2|]. intros F. unfold decode_events. induction F as [|x y l es E F IH]; [done|]. cbn. rewrite E. cbn. by rewrite IH.
Qed.
Lemma decoded_id en e : decode_entry loads py_str en = Ok e -> event_id e = en.1.
Proof.
  unfold decode_entry. destruct en.2 as [s|]; [|done]. destruct (loads s) as [[| | | | | | | |p]|]; try done. destruct (from_dict py_str p) as [x|]; [|done].
  unfold checked_text. destruct (String.eqb en.1 ""); cbn; [done|]. by intros [= <-].
Qed.
Lemma decoded_last l es : decoded l es -> event_id <$> last es = fst <$> last l.
Proof.
  intros F. destruct l as [|x l _] using rev_ind; [by inversion F|]. apply Forall2_app_inv_l in F as (es1 & es2 & F1 & F2 & ->).
  inversion F2 as [|? y ? ? E F3]; subst. inversion F3; subst. rewrite !last_snoc. cbn. f_equal. by apply decoded_id.
Qed.

(** Publishing adds one readable entry, or none. *)
Lemma publish_grows e q t : readable e -> (length (entries q (key t)) < maxlen)%nat ->
  exists l, entries (redis_publish dumps prefix maxlen e q).2 (key t) = entries q (key t) ++ l /\ (length l <= 1)%nat /\
    exists es, decoded l es.
Proof.
  intros R L. assert (NIL : exists l, entries q (key t) = entries q (key t) ++ l /\ (length l <= 1)%nat /\ exists es, decoded l es).
  { exists []. split_and!; [by rewrite app_nil_r|cbn; lia|by exists []]. }
  unfold redis_publish, bind_action. pose proof (transport_state (incr (sequence_key prefix (e_task_id e))) q) as T.
  destruct (transport (incr _) q) as [[n|x] q1] eqn:E.
  2:{ cbn in *. destruct (incr _ q) as [r q1'] eqn:E'. cbn in T. subst q1'. by rewrite (proj1 (incr_law _ _ _ _ E')). }
  apply transport_ok in E. destruct (incr_law _ _ _ _ E) as [I N]. specialize (N n eq_refl). clear T.
  unfold lift at 1, serialize. destruct (json_serializable (PDict (to_dict (with_sequence n e)))); [|cbn; by rewrite I].
  set (text := dumps _). pose proof (transport_state (xadd (key (e_task_id e)) text maxlen) q1) as T.
  assert (X : exists l, entries (xadd (key (e_task_id e)) text maxlen q1).2 (key t) = entries q (key t) ++ l /\ (length l <= 1)%nat /\ exists es, decoded l es).
  { destruct (xadd _ text maxlen q1) as [r q2] eqn:A. destruct (xadd_law _ _ _ _ _ _ A) as [O G]. cbn. destruct (decide (e_task_id e = t)) as [<-|D].
    - rewrite I in G. destruct (G L) as [(i & G1 & _)|[_ G1]]; rewrite G1; [|exact NIL]. exists [(i, Some text)]. split_and!; [done|cbn; lia|].
      eexists [_]. constructor; [|constructor]. unfold decode_entry. cbn. unfold text. rewrite (R n N), from_to_dict. cbn.
      unfold checked_text. destruct (String.eqb_spec i "") as [->|]; [|done]. destruct (ids_law q2 (key (e_task_id e))) as (_ & _ & B). destruct B.
      rewrite G1, map_app. apply elem_of_app. right. by left.
    - rewrite O, I; [exact NIL|]. intros K%stream_key_inj. done. }
  destruct (transport (xadd _ text maxlen) q1) as [[i|x] q2]; cbn in T; rewrite <- T in X; [|exact X].
  unfold lift. destruct (checked_text i); exact X.
Qed.
Lemma publish_all_grows es t : forall q, List.Forall readable es -> (length (entries q (key t)) + length es <= maxlen)%nat ->
  exists l, entries (publish_all es q) (key t) = entries q (key t) ++ l /\ (length l <= length es)%nat /\ exists xs, decoded l xs.
Proof.
  induction es as [|e es IH]; intros q R L; [exists []; split_and!; [by rewrite app_nil_r|done|by exists []]|]. inversion R; subst. cbn in L.
  destruct (publish_grows e q t) as (l1 & E1 & L1 & x1 & D1); [done|lia|]. cbn [publish_all]. change (broker_publish e q) with (redis_publish dumps prefix maxlen e q).
  destruct (IH (redis_publish dumps prefix maxlen e q).2) as (l2 & E2 & L2 & x2 & D2); [done|rewrite E1, length_app; lia|].
  exists (l1 ++ l2). split_and!; [by rewrite E2, E1, app_assoc|rewrite length_app; cbn; lia|]. exists (x1 ++ x2). by apply Forall2_app.
Qed.

(** The cursor is the id of the last entry read. *)
Definition at_cursor (pre : list (string * option string)) (cursor : string) : Prop := cursor = match last pre with Some en => en.1 | None => "0-0"%string end.

Lemma read_rest q t cursor pre post r q' : entries q (key t) = pre ++ post -> at_cursor pre cursor ->
  redis_read loads py_str prefix (t, cursor) q = (r, q') ->
  (forall k, entries q' k = entries q k) /\
  (forall es s', r = Ok (es, s') -> decoded post es /\ exists c, s' = (t, c) /\ at_cursor (pre ++ post) c).
Proof.
  intros E C. unfold redis_read, bind_action. cbn [fst snd]. destruct (transport (xread _ cursor) q) as [[l|x] q1] eqn:T.
  2:{ intros [= <- <-]. pose proof (transport_state (xread (key t) cursor) q) as S. rewrite T in S. cbn in S.
      destruct (xread (key t) cursor q) as [r1 q2] eqn:X. cbn in S. subst q2. destruct (xread_law _ _ _ _ _ X) as [K _]. split; [done|]. by intros es s' [=]. }
  apply transport_ok in T. destruct (xread_law _ _ _ _ _ T) as [K R]. destruct (R l eq_refl) as [R0 R1].
  assert (F : flat_map snd l = post).
  { unfold at_cursor in C. destruct pre as [|[i d] pre _] using rev_ind; cbn in C, E; [by rewrite R0|].
    rewrite last_snoc in C. cbn in C. subst i. apply (R1 pre d). rewrite E, <- app_assoc. done. }
  rewrite F. unfold lift. destruct (decode_events loads py_str post) as [es|x] eqn:D; [|intros [= <- <-]; split; [done|]; by intros ? ? [=]].
  apply decode_events_ok in D. intros [= <- <-]. split; [done|]. intros es' s' [= <- <-]. split; [done|]. eexists. split; [done|].
  pose proof (decoded_last _ _ D) as P. unfold at_cursor. destruct post as [|y post _] using rev_ind.
  - inversion D; subst. cbn. rewrite app_nil_r. exact C.
  - rewrite app_assoc, last_snoc. rewrite last_snoc in P. destruct (last es); [|done]. cbn in *. congruence.
Qed.

Lemma serve_redis t steps : forall q pre post cursor xs ys, entries q (key t) = pre ++ post -> at_cursor pre cursor -> decoded pre xs -> decoded post ys ->
  List.Forall (fun s => match s with Published e => readable e | Deliver => True end) steps ->
  (length (entries q (key t)) + length steps <= maxlen)%nat ->
  let '(sent, fin, q') := serve steps (t, cursor) q in
  exists es, decoded (entries q' (key t)) es /\ (xs ++ sent) `prefix_of` es /\ (fin = StillOpen -> (last steps = Some Deliver \/ steps = [] /\ post = []) -> es = xs ++ sent).
Proof.
  induction steps as [|[e|] steps IH]; intros q pre post cursor xs ys E C X Y R L; cbn [serve].
  - exists (xs ++ ys). cbn. rewrite E, app_nil_r. split_and!; [by apply Forall2_app|by apply prefix_app_r|]. intros _ [D|[_ ->]]; [done|].
    inversion Y; subst. by rewrite app_nil_r.
  - inversion R as [|? ? R1 R2]; subst. cbn [length] in L. change (broker_publish e q) with (redis_publish dumps prefix maxlen e q).
    destruct (publish_grows e q t) as (l & G & GL & zs & D); [done|lia|].
    specialize (IH (redis_publish dumps prefix maxlen e q).2 pre (post ++ l) cursor xs (ys ++ zs)).
    destruct (serve steps _ _) as [[sent fin] q']. destruct IH as (es & A1 & A2 & A3); [by rewrite G, E, app_assoc|done|done|by apply Forall2_app|done|rewrite G, length_app; lia|].
    exists es. split_and!; [done|done|]. intros F [K|[K _]]; [|done]. apply A3; [done|]. left. by destruct steps.
  - inversion R as [|? ? R1 R2]; subst. cbn [length] in L. change (broker_read (t, cursor) q) with (redis_read loads py_str prefix (t, cursor) q).
    destruct (redis_read loads py_str prefix (t, cursor) q) as [r q1] eqn:D. destruct (read_rest _ _ _ _ _ _ _ E C D) as [K P].
    destruct r as [[es s']|x].
    + destruct (P es s' eq_refl) as (P1 & c & -> & P2). specialize (IH q1 (pre ++ post) [] c (xs ++ es) []).
      destruct (serve steps (t, c) q1) as [[sent fin] q']. destruct IH as (fs & A1 & A2 & A3).
      * by rewrite K, E, app_nil_r.
      * done.
      * by apply Forall2_app.
      * constructor.
      * done.
      * rewrite K. lia.
      * exists fs. rewrite app_assoc. split_and!; [done|done|]. intros F Z. apply A3; [done|]. destruct Z as [Z|[Z _]]; [|done].
        destruct steps; [by right|by left].
    + exists (xs ++ ys). cbn [snd]. change (broker_unsubscribe (t, cursor) q1) with q1. rewrite K, E, app_nil_r. split_and!; [by apply Forall2_app|by apply prefix_app_r|].
      unfold failure. by destruct (String.eqb (exn_class x) "EventBrokerConnectionError").
Qed.

Lemma history_none q t r q' : redis_history loads py_str prefix t None q = (r, q') ->
  (forall k, entries q' k = entries q k) /\ (forall es, r = Ok es -> decoded (entries q (key t)) es).
Proof.
  unfold redis_history, bind_action. destruct (transport (xrange (key t)) q) as [[l|x] q1] eqn:T.
  - apply transport_ok in T. destruct (xrange_law _ _ _ _ T) as [K R]. rewrite (R l eq_refl). unfold lift.
    destruct (decode_events loads py_str (entries q (key t))) as [es|x] eqn:D; intros [= <- <-]; (split; [done|]); [|by intros ? [=]].
    intros es' [= <-]. by apply decode_events_ok.
  - intros [= <- <-]. pose proof (transport_state (xrange (key t)) q) as S. rewrite T in S. cbn in S. destruct (xrange (key t) q) as [r1 q2] eqn:X. cbn in S. subst q2.
    destruct (xrange_law _ _ _ _ X) as [K _]. split; [done|]. by intros ? [=].
Qed.

(** The cursor of a session that has replayed everything. *)
Lemma cursor_of_replay q t es : decoded (entries q (key t)) es -> at_cursor (entries q (key t)) (or_else (event_id <$> last es) "0-0").
Proof.
  intros R. pose proof (decoded_last _ _ R) as P. unfold at_cursor. rewrite P. destruct (last (entries q (key t))) as [en|] eqn:LE; [|done].
  cbn. destruct (String.eqb_spec en.1 "") as [B|]; [|done]. destruct (ids_law q (key t)) as (_ & _ & N). destruct N.
  rewrite <- B. apply list_elem_of_fmap. exists en. split; [done|]. apply last_Some in LE as [l' ->]. apply elem_of_app. right. by left.
Qed.

(** C26: A session that connects without a last id gets, whatever others publish
    meanwhile and whichever call fails, a prefix of the stream of its task, in
    order and each event once, none lost between the replay and the
    subscription; if the session lasts, its next read completes it. *)
Theorem redis_session_complete (q : Q) (t : string) (between : list TaskEvent) (steps : list session_step) (es0 : list TaskEvent)
  (D : decode_events loads py_str (entries q (key t)) = Ok es0)
  (READABLE : List.Forall readable between /\ List.Forall (fun s => match s with Published e => readable e | Deliver => True end) steps)
  (ROOM : (length (entries q (key t)) + length between + length steps <= maxlen)%nat) :
  let '(sent, fin, q') := session t None between steps q in
  exists es, decode_events loads py_str (entries q' (key t)) = Ok es /\ sent `prefix_of` es /\ (fin = StillOpen -> last steps = Some Deliver -> sent = es).
Proof.
  destruct READABLE as [RB RS]. unfold session. change (broker_history t None q) with (redis_history loads py_str prefix t None q).
  destruct (redis_history loads py_str prefix t None q) as [[replay|x] q1] eqn:Hi; destruct (history_none _ _ _ _ Hi) as [K R].
  2:{ exists es0. rewrite K. split_and!; [done|apply prefix_nil|]. unfold failure. by destruct (String.eqb (exn_class x) "EventBrokerConnectionError"). }
  specialize (R replay eq_refl). destruct (publish_all_grows between t q1 RB) as (l & G & GL & zs & Z); [rewrite K; lia|]. rewrite K in G.
  set (cursor := match last replay with Some e => Some (event_id e) | None => None end).
  change (broker_subscribe t cursor (publish_all between q1)) with (Ok (t, or_else cursor "0-0") : result (string * string), publish_all between q1). cbn [fst snd].
  assert (C : at_cursor (entries q (key t)) (or_else cursor "0-0")).
  { pose proof (cursor_of_replay _ _ _ R) as C. unfold cursor. by destruct (last replay). }
  pose proof (serve_redis t steps (publish_all between q1) (entries q (key t)) l (or_else cursor "0-0") replay zs G C R Z RS) as S.
  destruct (serve steps _ _) as [[sent fin] q']. destruct S as (es & A1 & A2 & A3); [rewrite G, length_app; lia|].
  exists es. split_and!; [by apply decode_events_ok|done|]. intros F O. symmetry. apply A3; [done|by left].
Qed.

(** *** Reconnection *)
Lemma text_order_drops p : @py_lt string _ (p +:+ "-9") (p +:+ "-10") = false.
Proof.
  induction p as [|a p IH]; [reflexivity|]. unfold py_lt, pycmp, string_cmp in *. change (String a p +:+ ?x) with (String a (p +:+ x)). cbn.
  unfold Ascii.compare. by rewrite N.compare_refl.
Qed.

Lemma history_some q t i r q' : redis_history loads py_str prefix t (Some i) q = (r, q') ->
  (forall k, entries q' k = entries q k) /\
  (forall es, r = Ok es -> exists es0, decoded (entries q (key t)) es0 /\ es = List.filter (fun e => py_lt i (event_id e)) es0).
Proof.
  pose proof (history_none q t) as N. unfold redis_history, bind_action in *. destruct (transport (xrange (key t)) q) as [[l|x] q1].
  - unfold lift in *. destruct (decode_events loads py_str l) as [es|x]; intros [= <- <-]; destruct (N _ _ eq_refl) as [K R]; (split; [done|]); [|by intros ? [=]].
    intros es' [= <-]. exists es. split; [by apply R|done].
  - intros [= <- <-]. destruct (N _ _ eq_refl) as [K _]. split; [done|]. by intros ? [=].
Qed.
Lemma decoded_ids l es : decoded l es -> map event_id es = map fst l.
Proof. intros F. induction F as [|x y l es E F IH]; [done|]. cbn. by rewrite IH, (decoded_id _ _ E). Qed.

(** A session that reconnects with the last id it saw can lose an event for
    good: ids are compared as texts, so after "m-9" the event "m-10" is not
    replayed, and when the stream ends with an event whose id is later as a
    text, the subscription starts behind it. *)
Theorem reconnect_loses_event (q : Q) (t m z : string) (pre post : list (string * option string)) (d1 d2 d3 : option string)
  (es0 : list TaskEvent) (between : list TaskEvent) (steps : list session_step)
  (E : entries q (key t) = pre ++ (m +:+ "-9", d1) :: (m +:+ "-10", d2) :: post ++ [(z, d3)]) (Z : py_lt (m +:+ "-9") z = true)
  (D : decode_events loads py_str (entries q (key t)) = Ok es0)
  (READABLE : List.Forall readable between /\ List.Forall (fun s => match s with Published e => readable e | Deliver => True end) steps)
  (ROOM : (length (entries q (key t)) + length between + length steps <= maxlen)%nat) :
  (exists e, e ∈ es0 /\ event_id e = m +:+ "-10") /\
  (forall e, e ∈ (session t (Some (m +:+ "-9")) between steps q).1.1 -> event_id e <> m +:+ "-10").
Proof.
  destruct READABLE as [RB RS]. apply decode_events_ok in D. pose proof (decoded_ids _ _ D) as I.
  assert (MISSED : exists e, e ∈ es0 /\ event_id e = m +:+ "-10").
  { assert (M : m +:+ "-10" ∈ map event_id es0) by (rewrite I, E, map_app; apply elem_of_app; right; right; by left).
    apply list_elem_of_In, in_map_iff in M as (e & M & L). exists e. by rewrite list_elem_of_In. }
  split; [done|]. unfold session. change (broker_history t (Some (m +:+ "-9")) q) with (redis_history loads py_str prefix t (Some (m +:+ "-9")) q).
  destruct (redis_history loads py_str prefix t _ q) as [[replay|x] q1] eqn:Hi; destruct (history_some _ _ _ _ _ Hi) as [K R]; [|by intros e ?%elem_of_nil].
  destruct (R replay eq_refl) as (es & D' & RP). assert (es = es0) as -> by (apply decode_events_ok in D, D'; congruence).
  assert (L : exists es1 last_event, es0 = es1 ++ [last_event] /\ event_id last_event = z).
  { rewrite E in D. change (?a ++ ?x :: ?y :: post ++ [(z, d3)]) with (a ++ (x :: y :: post) ++ [(z, d3)]) in D. rewrite app_assoc in D.
    apply Forall2_app_inv_l in D as (es1 & es2 & _ & F & ->). inversion F as [|? e ? ? E2 F2]; subst. inversion F2; subst. exists es1, e. split; [done|by apply decoded_id in E2]. }
  destruct L as (es1 & le & -> & LZ). assert (RL : exists r, replay = r ++ [le]).
  { rewrite RP, List.filter_app. cbn. rewrite LZ, Z. by eexists. }
  destruct RL as [r RL]. destruct (publish_all_grows between t q1 RB) as (l & G & GL & zs & Y); [rewrite K; lia|]. rewrite K in G.
  assert (LR : last replay = Some le) by (rewrite RL; apply last_snoc). rewrite LR.
  change (broker_subscribe t (Some (event_id le)) (publish_all between q1)) with (Ok (t, or_else (Some (event_id le)) "0-0") : result (string * string), publish_all between q1). cbn [fst snd].
  assert (C : at_cursor (entries q (key t)) (or_else (Some (event_id le)) "0-0")) by (pose proof (cursor_of_replay _ _ _ D) as C; by rewrite last_snoc in C).
  pose proof (serve_redis t steps (publish_all between q1) _ l _ _ zs G C D Y RS) as S.
  destruct (serve steps _ _) as [[sent fin] q']. destruct S as (es & A1 & [more A2] & _); [rewrite G, length_app; lia|].
  cbn [fst]. intros e [X|X]%elem_of_app Q0.
  - rewrite RP in X. apply list_elem_of_In, filter_In in X as [_ X]. rewrite Q0, text_order_drops in X. done.
  - destruct (ids_law q' (key t)) as (N & _). rewrite <- (decoded_ids _ _ A1), A2, !map_app in N.
    destruct MISSED as (e' & M1 & M2). rewrite <- app_assoc in N. apply NoDup_app in N as (_ & N & _). apply (N (event_id e')).
    + rewrite <- map_app. by apply list_elem_of_fmap_2.
    + apply elem_of_app. left. rewrite M2, <- Q0. by apply list_elem_of_fmap_2.
Qed.
End redis_facts.

(** *** A server that keeps everything *)
Module Server.
Record server := { streams : gmap string (list string); counters : gmap string nat }.
Definition the_id (n : nat) : string := "0-" +:+ pretty (S n).
Definition stream (s : server) (k : string) : list (string * option string) := imap (fun n d => (the_id n, Some d)) (default [] (streams s !! k)).
(** The entries after an id; all of them for an id that is not there. *)
Fixpoint follow (l : list (string * option string)) (i : string) : option (list (string * option string)) :=
  match l with [] => None | en :: l' => if String.eqb en.1 i then Some l' else follow l' i end.
#[export] Instance server_streams : EventStreams server := {|
  incr k s := let n := S (default 0%nat (counters s !! k)) in (Ok (Z.of_nat n), {| streams := streams s; counters := <[k := n]> (counters s) |});
  xadd k d _ s := let l := default [] (streams s !! k) in (Ok (the_id (length l)), {| streams := <[k := l ++ [d]]> (streams s); counters := counters s |});
  xrange k s := (Ok (stream s k), s);
  xread k i s := (Ok [(k, default (stream s k) (follow (stream s k) i))], s);
  entries := stream;
|}.

Lemma the_id_inj n m : the_id n = the_id m -> n = m.
Proof. unfold the_id. intros E. apply (inj (String.append _)) in E. apply (inj (pretty : nat -> string)) in E. lia. Qed.
Lemma stream_ids s k : map fst (stream s k) = map the_id (seq 0 (length (default [] (streams s !! k)))).
Proof.
  unfold stream. generalize (default [] (streams s !! k)). intros l. 
  enough (H : forall f : nat -> string, map fst (imap (fun n (d : string) => (f n, Some d)) l) = map f (seq 0 (length l))) by apply H.
  induction l as [|d l IH]; intros f; [done|]. cbn. f_equal. change (imap ((fun n (d : string) => (f n, Some d)) ∘ S) l) with (imap (fun n (d : string) => (f (S n), Some d)) l).
  rewrite IH. by rewrite <- seq_shift, map_map.
Qed.
Lemma follow_split l pre (i : string) (d : option string) post : NoDup (map fst l) -> l = pre ++ (i, d) :: post -> follow l i = Some post.
Proof.
  intros N ->. induction pre as [|[i' d'] pre IH]; cbn in *; [by rewrite String.eqb_refl|]. inversion N as [|? ? X N']; subst.
  destruct (String.eqb_spec i' i) as [->|]; [|by apply IH]. destruct X. rewrite map_app. apply elem_of_app. right. by left.
Qed.
Lemma follow_none l (i : string) : i ∉ map fst l -> follow l i = None.
Proof.
  induction l as [|[i' d] l IH]; cbn; [done|]. intros N. apply not_elem_of_cons in N as [N1 N2]. destruct (String.eqb_spec i' i) as [->|]; [done|by apply IH].
Qed.
#[export] Instance server_laws : EventStreamsLaws server.
Proof.
  assert (ID : forall s k, NoDup (map fst (stream s k)) /\ ("0-0"%string ∉ map fst (stream s k)) /\ (""%string ∉ map fst (stream s k))).
  { intros s k. rewrite stream_ids. split_and!.
    - apply NoDup_fmap_2; [intros n m; apply the_id_inj|apply NoDup_seq].
    - intros (n & E & _)%list_elem_of_fmap. unfold the_id in E. change "0-0"%string with ("0-" +:+ pretty 0%nat) in E.
      apply (inj (String.append _)) in E. by apply (inj (pretty : nat -> string)) in E.
    - intros (n & E & _)%list_elem_of_fmap. done. }
  split.
  - exact ID.
  - intros k s r s' [= <- <-]. split; [done|]. intros n [= <-]. lia.
  - intros k d n s r s' [= <- <-]. split.
    + intros k' N. cbn. unfold stream. cbn. by rewrite lookup_insert_ne.
    + intros _. left. exists (the_id (length (default [] (streams s !! k)))). split; [|by intros i' [= <-]]. cbn. unfold stream. cbn. rewrite lookup_insert_eq. cbn.
      rewrite imap_app. cbn. by rewrite Nat.add_0_r.
  - intros k s r s' [= <- <-]. split; [done|]. by intros l [= <-].
  - intros k i s r s' [= <- <-]. split; [done|]. intros l [= <-]. cbn [flat_map snd]. rewrite app_nil_r. destruct (ID s k) as (N & Z & _). split.
    + intros ->. by rewrite follow_none.
    + intros pre d post E. by rewrite (follow_split _ pre i d post N E).
Qed.

(** A text that keeps the sequence of [ex_event] in unary. *)
Fixpoint unary (n : nat) : string := match n with O => "" | S n => "a" +:+ unary n end.
Definition ex_dumps (v : pyval) : string := match v with PDict d => match get d "sequence" with PInt n => unary (Z.to_nat n) | _ => "" end | _ => "" end.
Definition ex_loads (s : string) : option pyval := Some (PDict (to_dict (with_sequence (Z.of_nat (String.length s)) (InMemoryFacts.ex_event "a" "T")))).
Lemma ex_event_readable : readable ex_dumps ex_loads (InMemoryFacts.ex_event "a" "T").
Proof.
  intros n N. assert (U : forall k, String.length (unary k) = k) by (induction k as [|k IH]; [done|]; exact (f_equal S IH)). unfold ex_loads. cbn. rewrite U, Z2Nat.id by lia. done.
Qed.
Lemma ex_all_readable n : List.Forall (readable ex_dumps ex_loads) (replicate n (InMemoryFacts.ex_event "a" "T")).
Proof. induction n as [|n IH]; [constructor|]. constructor; [apply ex_event_readable|done]. Qed.
Lemma ex_steps_readable : List.Forall (fun s => match s with Published e => readable ex_dumps ex_loads e | Deliver => True end)
  [Deliver; Published (InMemoryFacts.ex_event "a" "T"); Deliver].
Proof. repeat constructor. apply ex_event_readable. Qed.
Definition ex_server (n : nat) : server := {| streams := {["events:T"%string := replicate n "a"%string]}; counters := ∅ |}.

Lemma redis_session_complete_witness :
  (@session server (string * string) (redis_broker ex_dumps ex_loads (fun _ => ""%string) "events" 100) "T" None [InMemoryFacts.ex_event "a" "T"]
    [Deliver; Published (InMemoryFacts.ex_event "a" "T"); Deliver] (ex_server 2)).1.2 = StillOpen /\
  map event_id (@session server (string * string) (redis_broker ex_dumps ex_loads (fun _ => ""%string) "events" 100) "T" None [InMemoryFacts.ex_event "a" "T"]
    [Deliver; Published (InMemoryFacts.ex_event "a" "T"); Deliver] (ex_server 2)).1.1 = ["0-1"; "0-2"; "0-3"; "0-4"]%string.
Proof.
  pose proof (redis_session_complete ex_dumps ex_loads (fun _ => ""%string) "events" 100 (ex_server 2) "T" [InMemoryFacts.ex_event "a" "T"]
    [Deliver; Published (InMemoryFacts.ex_event "a" "T"); Deliver] _ eq_refl
    (conj (ex_all_readable 1) ex_steps_readable)
    ltac:(vm_compute; lia)) as S.
  split; [vm_compute; reflexivity|]. destruct (session _ _ _ _ _) as [[sent fin] q'] eqn:E. destruct S as (es & D & _ & C).
  vm_compute in E. injection E as <- <- <-. reflexivity.
Defined.
Lemma reconnect_loses_event_witness :
  forall e, e ∈ (@session server (string * string) (redis_broker ex_dumps ex_loads (fun _ => ""%string) "events" 1000) "T" (Some "0-9"%string) []
    [Deliver; Published (InMemoryFacts.ex_event "a" "T"); Deliver] (ex_server 90)).1.1 -> event_id e <> "0-10"%string.
Proof.
  pose proof (reconnect_loses_event ex_dumps ex_loads (fun _ => ""%string) "events" 1000 (ex_server 90) "T" "0" "0-90"
    (firstn 8 (stream (ex_server 90) "events:T")) (firstn 79 (skipn 10 (stream (ex_server 90) "events:T"))) (Some "a"%string) (Some "a"%string) (Some "a"%string)
    _ [] [Deliver; Published (InMemoryFacts.ex_event "a" "T"); Deliver] eq_refl eq_refl eq_refl
    (conj (ex_all_readable 0) ex_steps_readable) ltac:(vm_compute; lia)) as [_ S].
  exact S.
Defined.
End Server.

(** ** What a run announces *)

(** A broker that only records. *)
Definition recorder : TaskEventBroker (list TaskEvent) unit :=
  {| broker_publish := fun e l => (Ok e, l ++ [e]); broker_history := fun _ _ l => (Ok l, l); broker_subscribe := fun _ _ l => (Ok tt, l);
     broker_read := fun s l => (Ok ([], s), l); broker_unsubscribe := fun _ l => l |}.

Section announcements.
Context (uuid now : list TaskEvent -> string) (current : list TaskEvent -> option string) (fixed : string -> string) (task_id : string).
Local Existing Instance recorder.

Definition kind (e : TaskEvent) : TaskEventType * string := (event_type e, e_node e).
(** What the completion of a node tells. *)
Definition told_completed (node : string) (patch : pydict) : list (TaskEventType * string) :=
  match event_names node with
  | None => []
  | Some (_, completed) =>
      (completed, node)
      :: (if String.eqb node "environment" && match get patch "fallback_used" with PBool b => b | _ => false end then [(ENVIRONMENT_FALLBACK, node)] else [])
      ++ (if String.eqb node "graph_memory" && truthy (get patch "graph_memory_error") then [(GRAPH_MEMORY_DEGRADED, node)] else [])
  end.
Definition told_started (node : string) : list (TaskEventType * string) := match event_names node with None => [] | Some (started, _) => [(started, node)] end.

(** [m] answers [a] and records the events [ks] about the task. *)
Definition records {A} (m : action (list TaskEvent) A) (a : A) (ks : list (TaskEventType * string)) : Prop :=
  forall b, exists es, m b = (Ok a, b ++ es) /\ map kind es = ks /\ forall e, e ∈ es -> e_task_id e = task_id /\ e_status e = "PROCESSING"%string.

Lemma records_ret {A} (a : A) : records (ret_action a) a [].
Proof. intros b. exists []. split_and!; [by rewrite app_nil_r|done|by intros e ?%elem_of_nil]. Qed.
Lemma records_bind {A C} (m : action (list TaskEvent) A) (f : A -> action (list TaskEvent) C) a c ks ls :
  records m a ks -> records (f a) c ls -> records (do x <- m; f x)%action c (ks ++ ls).
Proof.
  intros M F b. destruct (M b) as (es & E & K & P). destruct (F (b ++ es)) as (fs & E' & K' & P'). exists (es ++ fs). split_and!.
  - unfold bind_action. by rewrite E, E', app_assoc.
  - by rewrite map_app, K, K'.
  - intros e [X|X]%elem_of_app; auto.
Qed.
Lemma records_emit node t data {C} (m : action (list TaskEvent) C) c ls : records m c ls ->
  records (do _ <- emit uuid now current fixed task_id node t "PROCESSING" data; m)%action c ((t, node) :: ls).
Proof.
  intros M b. destruct (M (b ++ [create (uuid b) (now b) (current b) task_id t node "PROCESSING" (match json_safe fixed (PDict data) with PDict d => d | _ => [] end) None]))
    as (es & E & K & P). eexists (_ :: es). split_and!.
  - unfold bind_action, emit. cbn [broker_publish recorder]. rewrite E, <- app_assoc. reflexivity.
  - cbn. by rewrite K.
  - intros e [->|X]%elem_of_cons; [done|auto].
Qed.
Lemma records_started node : records (publish_started uuid now current fixed task_id node) tt (told_started node).
Proof. unfold publish_started, told_started. destruct (event_names node) as [[s c]|]; [apply records_emit, records_ret|apply records_ret]. Qed.
Lemma records_completed node patch state : records (publish_completed uuid now current fixed task_id node patch state) tt (told_completed node patch).
Proof.
  unfold publish_completed, told_completed. destruct (event_names node) as [[s c]|]; [|apply records_ret]. apply records_emit.
  eapply (records_bind _ _ tt).
  - destruct (_ && _); [apply records_emit|]; apply records_ret.
  - destruct (_ && _); [apply records_emit|]; apply records_ret.
Qed.

(** One update per node, in the order the graph is built. *)
Definition updates_of (ps : list (string * pydict)) : list (option (list (string * option pydict))) := map (fun p => Some [(p.1, Some p.2)]) ps.
Definition next_started (i : nat) : list (TaskEventType * string) := match NODES !! i with Some n => told_started n | None => [] end.
Lemma records_updates : forall ps final i, map fst ps = take (length ps) (drop i NODES) ->
  records (invoke_updates uuid now current fixed task_id (updates_of ps) final i)
    (fold_left (fun s p => dict_update s p.2) ps final)
    (concat (imap (fun j p => told_completed p.1 p.2 ++ next_started (S (i + j))) ps)).
Proof.
  induction ps as [|[node patch] ps IH]; intros final i N; [apply records_ret|]. cbn [updates_of map invoke_updates fold_left imap concat].
  assert (L : NODES !! i = Some node).
  { destruct (drop i NODES) as [|n l] eqn:D; cbn in N; [done|]. injection N as -> _. rewrite <- (Nat.add_0_r i), <- lookup_drop, D. done. }
  assert (K : exists s c, event_names node = Some (s, c)).
  { do 8 (destruct i as [|i]; [injection L as <-; eexists _, _; reflexivity|]). done. }
  destruct K as (s & c & K). eapply (records_bind _ _ (dict_update final patch, S i)).
  - cbn [invoke_nodes fst snd]. rewrite K. eapply (records_bind _ _ tt); [apply records_completed|]. rewrite <- (app_nil_r (next_started _)). rewrite Nat.add_0_r.
    eapply (records_bind _ _ tt); [|apply records_ret]. unfold next_started. destruct (NODES !! S i); [apply records_started|apply records_ret].
  - cbn [fst snd]. specialize (IH (dict_update final patch) (S i)).
    assert (E : imap ((fun j p => told_completed p.1 p.2 ++ next_started (S (i + j))) ∘ S) ps = imap (fun j p => told_completed p.1 p.2 ++ next_started (S (S i + j))) ps).
    { apply imap_ext. intros j p _. cbn. do 3 f_equal. lia. }
    rewrite E. apply IH. cbn in N. destruct (drop i NODES) as [|n l] eqn:D; cbn in N; [done|]. injection N as -> N.
    change (S i) with (1 + i)%nat. rewrite Nat.add_comm, <- drop_drop, D. exact N.
Qed.

(** A run of the graph that yields its nodes in order announces each as
    started and then as completed, with the fallback of the environment and the
    degradation of the graph memory where they occur, and nothing else; a run
    that stops early has announced the node it stopped in.  The final state is
    the state updated by every patch. *)
Theorem graph_run_announced (ps : list (string * pydict)) (state : pydict) (N : map fst ps = take (length ps) NODES) :
  exists es, invoke uuid now current fixed task_id (updates_of ps) state [] = (Ok (fold_left (fun s p => dict_update s p.2) ps state), es) /\
    map kind es = flat_map (fun p => told_started p.1 ++ told_completed p.1 p.2) ps ++ next_started (length ps) /\
    (forall e, e ∈ es -> e_task_id e = task_id /\ e_status e = "PROCESSING"%string).
Proof.
  assert (R := records_bind _ (fun _ => invoke_updates uuid now current fixed task_id (updates_of ps) state 0) _ _ _ _ (records_started "intake") (records_updates ps state 0%nat N)).
  destruct (R []) as (es & E & K & P). exists es. split_and!; [exact E| |exact P]. rewrite K. clear - N.
  change (told_started "intake") with (next_started 0). 
  assert (G : forall ps i, map fst ps = take (length ps) (drop i NODES) ->
    next_started i ++ concat (imap (fun j p => told_completed p.1 p.2 ++ next_started (S (i + j))) ps)
    = flat_map (fun p => told_started p.1 ++ told_completed p.1 p.2) ps ++ next_started (i + length ps)).
  { clear. induction ps as [|[node patch] ps IH]; intros i N; [by rewrite Nat.add_0_r, app_nil_r|]. cbn [imap concat flat_map fst snd length].
    destruct (drop i NODES) as [|n l] eqn:D; cbn in N; [done|]. injection N as -> N.
    assert (L : next_started i = told_started n) by (unfold next_started; rewrite <- (Nat.add_0_r i), <- lookup_drop, D; done).
    assert (E : imap ((fun j p => told_completed p.1 p.2 ++ next_started (S (i + j))) ∘ S) ps = imap (fun j p => told_completed p.1 p.2 ++ next_started (S (S i + j))) ps).
    { apply imap_ext. intros j p _. cbn. do 3 f_equal. lia. }
    rewrite L, E, Nat.add_0_r, <- !app_assoc. do 2 f_equal. rewrite (IH (S i)); [do 2 f_equal; lia|].
    change (S i) with (1 + i)%nat. rewrite Nat.add_comm, <- drop_drop, D. exact N. }
  apply (G ps 0%nat N).
Qed.
End announcements.

Lemma graph_run_announced_witness :
  map kind (invoke (Sub := unit) (H := recorder) (fun _ => "u"%string) (fun _ => "n"%string) (fun _ => None) (fun s => s) "T"
    (updates_of [("intake", []); ("entity_memory", []); ("graph_memory", [("graph_memory_error", PStr "down")])]%string) [] []).2
  = [(INTAKE_STARTED, "intake"); (INTAKE_COMPLETED, "intake"); (MEMORY_STARTED, "entity_memory"); (MEMORY_COMPLETED, "entity_memory");
     (GRAPH_MEMORY_STARTED, "graph_memory"); (GRAPH_MEMORY_COMPLETED, "graph_memory"); (GRAPH_MEMORY_DEGRADED, "graph_memory"); (ENVIRONMENT_STARTED, "environment")]%string.
Proof.
  destruct (graph_run_announced (fun _ => "u"%string) (fun _ => "n"%string) (fun _ => None) (fun s => s) "T"
    [("intake", []); ("entity_memory", []); ("graph_memory", [("graph_memory_error", PStr "down")])]%string [] eq_refl) as (es & E & K & _).
  pose proof (f_equal snd E) as F. cbn [snd] in F. rewrite F. exact K.
Defined.
