(* ===== verification/Doubles.v ===== *)
(** * Doubles: the numbers of Lua and Python, and the text Lua writes them as

    The token bucket of [app/security/rate_limit.py] computes with binary64
    numbers and stores them as [tostring] prints them, with fourteen significant
    digits.  Both are rounding to a number of significant digits, in base 2 and in
    base 10, to nearest with ties to even.  A number is the rational it denotes;
    exponents are not bounded, which is exact between 2^-1022 and 2^1024. *)

From Stdlib Require Import QArith Qpower Qround Qabs Lqa.
From S2P Require Import Prelude.
From S2P Require Decimal.

Local Open Scope Q_scope.

#[local] Abbreviation half_even := Decimal.half_even.

(** ** Rounding to significant digits *)

(** The number of digits of [x] in base [b], less one. *)
Fixpoint ilog_fuel (n : nat) (b x : Z) : Z :=
  match n with O => 0 | S n => if x <? b then 0 else 1 + ilog_fuel n b (x / b) end%Z.
Definition ilog (b x : Z) : Z := ilog_fuel (S (Z.to_nat (Z.log2 x))) b x.
(** The exponent of the first digit. *)
Definition first_digit (b : Z) (q : Q) : Z :=
  if Qle_bool 1 q then ilog b (Qfloor q) else (- (ilog b (Qceiling (/ q) - 1) + 1))%Z.
Definition round_positive (b digits : Z) (q : Q) : Q :=
  let s := inject_Z b ^ (digits - 1 - first_digit b q) in Qred (inject_Z (half_even (q * s)) / s).
Definition round_digits (b digits : Z) (q : Q) : Q :=
  match q ?= 0 with Eq => 0 | Gt => round_positive b digits q | Lt => - round_positive b digits (- q) end.

(** What an arithmetic operation of Lua or Python returns of its exact result,
    and what is read back of the text of a number. *)
Definition double : Q -> Q := round_digits 2 53.
Definition text14 : Q -> Q := round_digits 10 14.

(** ** Facts *)
Lemma ilog_fuel_spec n b x : (2 <= b -> 1 <= x -> Z.log2 x < Z.of_nat n -> 0 <= ilog_fuel n b x /\ b ^ ilog_fuel n b x <= x < b ^ (ilog_fuel n b x + 1))%Z.
Proof.
  intros B. revert x. induction n as [|n IH]; intros x X L; [pose proof (Z.log2_nonneg x); lia|]. cbn [ilog_fuel].
  destruct (Z.ltb_spec x b) as [H|H]; [cbn; lia|].
  assert (X' : (1 <= x / b)%Z) by (apply Z.div_le_lower_bound; lia).
  assert (L' : (Z.log2 (x / b) < Z.of_nat n)%Z).
  { assert ((Z.log2 (x / b) <= Z.log2 (x / 2))%Z) by (apply Z.log2_le_mono, Z.div_le_compat_l; lia).
    rewrite <- Z.div2_div, Z.div2_spec, Z.log2_shiftr in H0 by lia. pose proof (Z.log2_le_mono 2 x ltac:(lia)). change (Z.log2 2) with 1%Z in *. lia. }
  destruct (IH _ X' L') as (K & L1 & L2). set (k := ilog_fuel n b (x / b)) in *. split; [lia|].
  rewrite <- (Z.add_assoc 1 k 1), !(Z.pow_add_r b 1) by lia. rewrite Z.pow_1_r.
  pose proof (Z.div_mod x b ltac:(lia)). pose proof (Z.mod_pos_bound x b ltac:(lia)). nia.
Qed.
Lemma ilog_spec b x : (2 <= b -> 1 <= x -> 0 <= ilog b x /\ b ^ ilog b x <= x < b ^ (ilog b x + 1))%Z.
Proof. intros B X. apply ilog_fuel_spec; [done|done|]. pose proof (Z.log2_nonneg x). lia. Qed.

Lemma base_pos b : (2 <= b)%Z -> 0 < inject_Z b.
Proof. intros B. change 0 with (inject_Z 0). rewrite <- Zlt_Qlt. lia. Qed.
Lemma power_pos b e : (2 <= b)%Z -> 0 < inject_Z b ^ e.
Proof. intros B. apply Qpower_0_lt. by apply base_pos. Qed.
Lemma power_plus b d e : (2 <= b)%Z -> inject_Z b ^ (d + e) == inject_Z b ^ d * inject_Z b ^ e.
Proof. intros B. apply Qpower_plus. intros E. pose proof (base_pos b B). lra. Qed.
Lemma power_opp b e : (2 <= b)%Z -> inject_Z b ^ (- e) * inject_Z b ^ e == 1.
Proof. intros B. rewrite <- power_plus by done. by rewrite Z.add_opp_diag_l. Qed.

Lemma first_digit_spec b q : (2 <= b)%Z -> 0 < q -> inject_Z b ^ first_digit b q <= q /\ q < inject_Z b ^ (first_digit b q + 1).
Proof.
  intros B P. unfold first_digit. destruct (Qle_bool 1 q) eqn:E.
  - apply Qle_bool_iff in E. assert (F : (1 <= Qfloor q)%Z) by (change 1%Z with (Qfloor 1); by apply Qfloor_resp_le).
    destruct (ilog_spec b _ B F) as (K & L1 & L2). rewrite <- !Zpower_Qpower by lia. pose proof (Qfloor_le q). pose proof (Qlt_floor q).
    rewrite Zle_Qle in L1. assert (L3 : (Qfloor q + 1 <= b ^ (ilog b (Qfloor q) + 1))%Z) by lia. rewrite Zle_Qle in L3. lra.
  - assert (E1 : q < 1). { apply Qnot_le_lt. intros H. apply Qle_bool_iff in H. congruence. }
    set (c := Qceiling (/ q)). assert (I : q * / q == 1) by (apply Qmult_inv_r; lra).
    assert (C1 : / q <= inject_Z c) by apply Qle_ceiling. assert (C2 : inject_Z (c - 1) < / q) by apply Qceiling_lt.
    assert (I1 : 1 < / q) by nra.
    assert (C3 : (1 < c)%Z) by (rewrite Zlt_Qlt; change (inject_Z 1) with 1; lra).
    destruct (ilog_spec b (c - 1) B ltac:(lia)) as (K & L1 & L2). set (k := ilog b (c - 1)) in *.
    replace (- (k + 1) + 1)%Z with (- k)%Z by lia.
    assert (G1 : inject_Z b ^ k < / q) by (rewrite <- Zpower_Qpower by lia; rewrite Zle_Qle in L1; lra).
    assert (G2 : / q <= inject_Z b ^ (k + 1)).
    { rewrite <- Zpower_Qpower by lia. assert (L3 : (c <= b ^ (k + 1))%Z) by lia. rewrite Zle_Qle in L3. lra. }
    pose proof (power_opp b k B). pose proof (power_opp b (k + 1) B). pose proof (power_pos b (- k) B). pose proof (power_pos b (- (k + 1)) B).
    set (x := inject_Z b ^ k) in *. set (y := inject_Z b ^ (k + 1)) in *. set (x' := inject_Z b ^ (- k)) in *. set (y' := inject_Z b ^ (- (k + 1))) in *.
    split; [|]; apply Qnot_lt_le || apply Qnot_le_lt; intros H'.
    + assert (q * y < 1) by nra. assert (q * / q <= q * y) by nra. lra.
    + assert (1 <= q * x) by nra. assert (q * x < q * / q) by nra. lra.
Qed.

Lemma half_even_near q : - (1 # 2) <= inject_Z (half_even q) - q /\ inject_Z (half_even q) - q <= 1 # 2.
Proof.
  unfold Decimal.half_even. pose proof (Qfloor_le q). pose proof (Qlt_floor q) as U. rewrite inject_Z_plus in U. change (inject_Z 1) with 1 in U.
  destruct (q - inject_Z (Qfloor q) ?= 1 # 2) eqn:E.
  - apply Qeq_alt in E. destruct (Z.even _); rewrite ?inject_Z_plus; change (inject_Z 1) with 1; lra.
  - apply Qlt_alt in E. lra.
  - apply Qgt_alt in E. rewrite inject_Z_plus. change (inject_Z 1) with 1. lra.
Qed.
Lemma half_even_integer q z : q == inject_Z z -> half_even q = z.
Proof.
  intros E. unfold Decimal.half_even. assert (F : Qfloor q = z) by (rewrite E; apply Qfloor_Z). rewrite F.
  destruct (q - inject_Z z ?= 1 # 2) eqn:C; [apply Qeq_alt in C|done|apply Qgt_alt in C]; lra.
Qed.

(** The relative error of rounding. *)
Definition relative_error (b digits : Z) : Q := (1 # 2) * inject_Z b ^ (1 - digits).
Lemma round_digits_error b d q : (2 <= b)%Z -> 0 <= q ->
  q - q * relative_error b d <= round_digits b d q /\ round_digits b d q <= q + q * relative_error b d.
Proof.
  intros B P. unfold round_digits. destruct (q ?= 0) eqn:C; [apply Qeq_alt in C|apply Qlt_alt in C; lra|apply Qgt_alt in C].
  { rewrite C. split; lra. }
  unfold round_positive. rewrite Qred_correct. set (s := _ ^ _). destruct (first_digit_spec b q B C) as [M _]. set (m := first_digit b q) in *.
  assert (S : 0 < s) by (by apply power_pos). pose proof (half_even_near (q * s)) as [N1 N2]. set (z := inject_Z (half_even _)) in *.
  assert (E : inject_Z b ^ m == s * inject_Z b ^ (1 - d) * inject_Z b ^ m * inject_Z b ^ m).
  { unfold s. rewrite <- (power_plus b _ (1 - d) B), <- (power_plus b _ m B), <- (power_plus b _ m B). replace (d - 1 - m + (1 - d) + m + m)%Z with m by lia. reflexivity. }
  unfold relative_error. set (e := inject_Z b ^ (1 - d)) in *. set (g := inject_Z b ^ m) in *.
  assert (G : 0 < g) by (by apply power_pos). assert (E' : 1 == s * e * g) by nra.
  assert (EP : 0 < e) by (by apply power_pos). set (r := z / s). assert (R : z == r * s) by (unfold r; field; lra).
  assert (Y : 1 <= s * e * q) by nra. split; apply Qnot_lt_le; intros H; nra.
Qed.

(** Integers of few enough digits are exact. *)
Lemma round_positive_integer b d q z : (2 <= b)%Z -> 0 < q -> q == inject_Z z -> (z < b ^ d)%Z -> (0 <= d)%Z -> round_positive b d q == inject_Z z.
Proof.
  intros B P E L D. unfold round_positive. rewrite Qred_correct. destruct (first_digit_spec b q B P) as [M _]. set (m := first_digit b q) in *.
  assert (MD : (m < d)%Z).
  { apply Z.lt_nge. intros H. assert (inject_Z b ^ d <= inject_Z b ^ m).
    { apply Qpower_le_compat_l; [done|]. change 1 with (inject_Z 1). rewrite <- Zle_Qle. lia. }
    rewrite <- Zpower_Qpower in H0 by lia. rewrite Zlt_Qlt in L. lra. }
  set (s := _ ^ _). assert (S : s == inject_Z (b ^ (d - 1 - m))) by (unfold s; rewrite Zpower_Qpower by lia; done).
  assert (SP : 0 < s) by (by apply power_pos).
  rewrite (half_even_integer (q * s) (z * b ^ (d - 1 - m))) by (rewrite inject_Z_mult, E, S; done).
  rewrite inject_Z_mult, <- S. field. lra.
Qed.
Lemma round_digits_integer b d q z : (2 <= b)%Z -> (0 <= d)%Z -> q == inject_Z z -> (Z.abs z < b ^ d)%Z -> round_digits b d q == inject_Z z.
Proof.
  intros B D E L. unfold round_digits. destruct (q ?= 0) eqn:C; [apply Qeq_alt in C; lra|apply Qlt_alt in C|apply Qgt_alt in C].
  - rewrite (round_positive_integer b d (- q) (- z)), inject_Z_opp by (try done; rewrite ?inject_Z_opp; lra || lia). lra.
  - by apply round_positive_integer; [..|lia|].
Qed.

(** Both roundings, with the bounds the bucket uses. *)
Lemma double_error q : 0 <= q -> q * (1 - (1 # 9007199254740992)) <= double q /\ double q <= q * (1 + (1 # 9007199254740992)).
Proof. intros P. destruct (round_digits_error 2 53 q) as [L U]; [done|done|]. change (relative_error 2 53) with (1 # 9007199254740992) in *. unfold double. split; lra. Qed.
Lemma text14_error q : 0 <= q -> q * (1 - (1 # 20000000000000)) <= text14 q /\ text14 q <= q * (1 + (1 # 20000000000000)).
Proof. intros P. destruct (round_digits_error 10 14 q) as [L U]; [done|done|]. change (relative_error 10 14) with (1 # 20000000000000) in *. unfold text14. split; lra. Qed.
Lemma double_integer q z : q == inject_Z z -> (Z.abs z < 2 ^ 53)%Z -> double q == inject_Z z.
Proof. intros E L. by apply round_digits_integer. Qed.
Lemma text14_integer q z : q == inject_Z z -> (Z.abs z < 10 ^ 14)%Z -> text14 q == inject_Z z.
Proof. intros E L. by apply round_digits_integer. Qed.
Lemma double_nonneg q : 0 <= q -> 0 <= double q.
Proof. intros P. destruct (double_error q P). lra. Qed.
Lemma text14_nonneg q : 0 <= q -> 0 <= text14 q.
Proof. intros P. destruct (text14_error q P). lra. Qed.

Example double_tenth : double (1 # 10) = 3602879701896397 # 36028797018963968.
Proof. vm_compute. reflexivity. Qed.
Example text14_third : text14 (double (1 # 3)) = 33333333333333 # 100000000000000.
Proof. vm_compute. reflexivity. Qed.
