(* ===== verification/RateLimit.v ===== *)
(** * RateLimit: admission of requests per subject and operation

    Models [app/security/rate_limit.py]: the policies, the token bucket the
    limiter runs as a script inside Redis, the process-local limiter that stands
    in for reads while Redis is away, and the admission that combines them.
    The script's numbers are those of Doubles: every operation rounds, and what it
    stores is rounded again to the fourteen digits that [tostring] prints.  The
    bucket of a key that has expired is absent.  The digest of a subject is a
    parameter; the monotonic clock counts nanoseconds. *)

From Stdlib Require Import QArith Qround Lqa.
From stdpp Require Import sorting.
From S2P Require Import Prelude Doubles.

Local Open Scope Z_scope.
Local Open Scope list_scope.

(** ** Data *)
Inductive OperationClass := DISPATCH_SUBMIT | RUNTIME_OVERRIDE | MEMORY_MUTATION | OBSERVABILITY_READ | WS_TICKET | AUTHENTICATION_INVALID.
#[export] Instance OperationClass_eq_dec : EqDecision OperationClass.
Proof. solve_decision. Defined.
#[export] Instance OperationClass_enum : PyEnum OperationClass := {
  members := [DISPATCH_SUBMIT; RUNTIME_OVERRIDE; MEMORY_MUTATION; OBSERVABILITY_READ; WS_TICKET; AUTHENTICATION_INVALID];
  value o := match o with
    | DISPATCH_SUBMIT => "dispatch_submit" | RUNTIME_OVERRIDE => "runtime_override" | MEMORY_MUTATION => "memory_mutation"
    | OBSERVABILITY_READ => "observability_read" | WS_TICKET => "ws_ticket" | AUTHENTICATION_INVALID => "authentication_invalid" end%string }.
#[export] Instance OperationClass_enum_laws : PyEnumLaws OperationClass.
Proof. intros []; reflexivity. Qed.

Record RateLimitPolicy := { capacity : Z; refill_per_minute : Z }.
(** [__post_init__]. *)
Definition make_policy (capacity refill : Z) : result RateLimitPolicy :=
  if capacity <=? 0 then Err (Exn "ValueError" "rate-limit capacity must be positive")
  else if refill <=? 0 then Err (Exn "ValueError" "rate-limit refill must be positive")
  else Ok {| capacity := capacity; refill_per_minute := refill |}.
(** What [__post_init__] lets through. *)
Definition valid_policy (p : RateLimitPolicy) : Prop := 0 < capacity p /\ 0 < refill_per_minute p.

Record RateLimitDecision := { allowed : bool; remaining : Z; retry_after_seconds : Z; reset_after_seconds : Z }.
Definition RateLimiterUnavailable : exn := Exn "RateLimiterUnavailable" "".

(** ** The token bucket *)

(** [math.max], [math.min] and [math.ceil]; Python's [math.ceil] too. *)
Definition math_max (a b : Q) : Q := if Qle_bool b a then a else b.
Definition math_min (a b : Q) : Q := if Qle_bool a b then a else b.

(** The texts under [tokens] and [updated_ms], by the number they show. *)
Record bucket := { tokens : Q; updated_ms : Q; expires_ms : Z }.

(** The argument [refill_per_ms] of the script. *)
Definition refill_per_ms (p : RateLimitPolicy) : Q := double (inject_Z (refill_per_minute p) / 60000)%Q.

(** The tokens when the script comes to compare them with the cost. *)
Definition filled (p : RateLimitPolicy) (now_ms : Z) (state : option bucket) : Q :=
  let capacity := double (inject_Z (capacity p)) in
  let tokens := match state with Some b => double (tokens b) | None => capacity end in
  let updated_ms := match state with Some b => double (updated_ms b) | None => inject_Z now_ms end in
  let elapsed_ms := math_max 0 (double (inject_Z now_ms - updated_ms)) in
  math_min capacity (double (tokens + double (elapsed_ms * refill_per_ms p))).

(** [TOKEN_BUCKET_LUA], for a cost of one token; the four numbers it returns. *)
Definition token_bucket (p : RateLimitPolicy) (ttl_ms now_ms : Z) (state : option bucket) : (Z * Z * Z * Z) * bucket :=
  let capacity := double (inject_Z (capacity p)) in
  let tokens := filled p now_ms state in
  let allowed := Qle_bool 1 tokens in
  let tokens := if allowed then double (tokens - 1) else tokens in
  let missing := math_max 0 (double (1 - tokens)) in
  let retry_seconds := if allowed then 0 else Z.max 1 (Qceiling (double (double (missing / refill_per_ms p) / 1000))) in
  let reset_seconds := Z.max 1 (Qceiling (double (double (double (capacity - tokens) / refill_per_ms p) / 1000))) in
  (((if allowed then 1 else 0), Qfloor tokens, retry_seconds, reset_seconds),
   {| tokens := text14 tokens; updated_ms := text14 (inject_Z now_ms); expires_ms := now_ms + ttl_ms |}).

Definition ttl_of (p : RateLimitPolicy) : Z :=
  Z.max 60000 (Qceiling (double (double (inject_Z (capacity p) / inject_Z (refill_per_minute p)) * 120000))).

(** The server: its buckets, and whether it answers. *)
Record server := { buckets : gmap string bucket; available : bool }.
Definition live (now_ms : Z) (b : bucket) : option bucket := if now_ms <=? expires_ms b then Some b else None.

Section limiter.
Context (digest : string -> string) (namespace : string) (policies : OperationClass -> RateLimitPolicy).

Definition rate_key (subject_id : string) (operation : OperationClass) : string :=
  namespace +:+ ":" +:+ digest subject_id +:+ ":" +:+ value operation.

Definition let_in (now_ms : Z) (subject_id : string) (operation : OperationClass) : action server RateLimitDecision := fun s =>
  if negb (available s) then (Err RateLimiterUnavailable, s)
  else
    let p := policies operation in
    let key := rate_key subject_id operation in
    let '((a, whole, retry, reset), b) := token_bucket p (ttl_of p) now_ms (b ← buckets s !! key; live now_ms b) in
    (Ok {| allowed := negb (a =? 0); remaining := Z.max 0 whole; retry_after_seconds := Z.max 0 retry; reset_after_seconds := Z.max 1 reset |},
     {| buckets := <[key := b]> (buckets s); available := true |}).

(** ** The emergency limiter *)
Definition second : Z := 1000000000.
Definition entries : Type := gmap string (Z * Z).     (* start of the window, count *)
Definition ceil_div (a b : Z) : Z := - ((- a) / b).
Definition emergency_admit (capacity window_seconds now : Z) (subject_id : string) (operation : OperationClass) (m : entries) : RateLimitDecision * entries :=
  let key := subject_id +:+ ":" +:+ value operation in
  let '(started, count) := default (now, 0) (m !! key) in
  let '(started, count) := if window_seconds * second <=? now - started then (now, 0) else (started, count) in
  let ok := count <? capacity in
  let count := if ok then count + 1 else count in
  let retry := Z.max 1 (ceil_div (window_seconds * second - (now - started)) second) in
  ({| allowed := ok; remaining := Z.max 0 (capacity - count); retry_after_seconds := if ok then 0 else retry; reset_after_seconds := retry |},
   <[key := (started, count)]> m).

(** ** Admission *)
Definition high_risk (o : OperationClass) : bool :=
  match o with DISPATCH_SUBMIT | RUNTIME_OVERRIDE | MEMORY_MUTATION | WS_TICKET => true | OBSERVABILITY_READ | AUTHENTICATION_INVALID => false end.
Record refusal := { status_code : Z; code : string; headers : list (string * string) }.
Definition unavailable_refusal : refusal := {| status_code := 503; code := "SECURITY_CONTROL_UNAVAILABLE"; headers := [] |}.
Definition exceeded (p : RateLimitPolicy) (d : RateLimitDecision) : refusal :=
  {| status_code := 429; code := "RATE_LIMIT_EXCEEDED";
     headers := [("Retry-After", z_str (Z.max 1 (retry_after_seconds d))); ("X-RateLimit-Limit", z_str (capacity p));
                 ("X-RateLimit-Remaining", z_str (remaining d)); ("X-RateLimit-Reset", z_str (reset_after_seconds d))]%string |}.

Record world := { redis : server; emergency : entries }.
Inductive outcome := Admitted_with (d : RateLimitDecision) | Refused (r : refusal).
Definition decide_on (operation : OperationClass) (d : RateLimitDecision) : outcome :=
  if allowed d then Admitted_with d else Refused (exceeded (policies operation) d).
(** [check], at server time [now_ms] and monotonic time [now]; the emergency
    limiter has its default values. *)
Definition check (now_ms now : Z) (subject_id : string) (operation : OperationClass) (w : world) : outcome * world :=
  match let_in now_ms subject_id operation (redis w) with
  | (Ok d, s) => (decide_on operation d, {| redis := s; emergency := emergency w |})
  | (Err _, s) =>
      if high_risk operation then (Refused unavailable_refusal, {| redis := s; emergency := emergency w |})
      else let (d, m) := emergency_admit 10 60 now subject_id operation (emergency w) in (decide_on operation d, {| redis := s; emergency := m |})
  end.

(** ** Runs of the limiter *)
Record request := { at_ms : Z; subject : string; operation_of : OperationClass }.
Fixpoint admissions (rs : list request) (s : server) : list (request * bool) :=
  match rs with
  | [] => []
  | r :: rs' => match let_in (at_ms r) (subject r) (operation_of r) s with
                | (Ok d, s') => (r, allowed d) :: admissions rs' s'
                | (Err _, s') => (r, false) :: admissions rs' s'
                end
  end.
End limiter.

(** The count of those admitted. *)
Definition count (l : list bool) : Z := Z.of_nat (length (List.filter (fun b => b) l)).
Lemma count_cons b l : count (b :: l) = (if b then 1 else 0) + count l.
Proof. unfold count. destruct b; cbn; lia. Qed.

(** ** The bucket of one key *)
Fixpoint bucket_log (p : RateLimitPolicy) (rs : list request) (o : option bucket) : list (request * bool) :=
  match rs with
  | [] => []
  | r :: rs' => let '((a, _, _, _), b) := token_bucket p (ttl_of p) (at_ms r) (b ← o; live (at_ms r) b) in
                (r, negb (a =? 0)) :: bucket_log p rs' (Some b)
  end.

(** ** Facts *)

(** Numbers that fourteen digits hold: every capacity in use, and every time in
    milliseconds until the year 5138. *)
Definition short (z : Z) : Prop := 0 <= z < 10 ^ 14.
(** Tokens in a millisecond, as the policy says. *)
Definition rate (p : RateLimitPolicy) : Q := (inject_Z (refill_per_minute p) / 60000)%Q.
(** What [n] requests can add up to by rounding. *)
Definition drift (p : RateLimitPolicy) (n : nat) : Q := (inject_Z (Z.of_nat n) * (inject_Z (capacity p) * (1 # 10000000000000)))%Q.
Lemma drift_S p n : (drift p (S n) == inject_Z (capacity p) * (1 # 10000000000000) + drift p n)%Q.
Proof. unfold drift. rewrite Nat2Z.inj_succ, <- Z.add_1_r, inject_Z_plus. change (inject_Z 1) with 1%Q. ring. Qed.
Lemma inject_sub a b : (inject_Z (a - b) == inject_Z a - inject_Z b)%Q.
Proof. unfold Z.sub. rewrite inject_Z_plus, inject_Z_opp. reflexivity. Qed.
Lemma inject_nonneg a : 0 <= a -> (0 <= inject_Z a)%Q.
Proof. intros H. change 0%Q with (inject_Z 0). by rewrite <- Zle_Qle. Qed.
Lemma inject_pos a : 0 < a -> (1 <= inject_Z a)%Q.
Proof. intros H. change 1%Q with (inject_Z 1). rewrite <- Zle_Qle. lia. Qed.

Lemma math_max_spec a b : (a <= math_max a b /\ b <= math_max a b /\ (math_max a b == a \/ math_max a b == b))%Q.
Proof.
  unfold math_max. destruct (Qle_bool b a) eqn:E; [apply Qle_bool_iff in E; split_and!; [lra|lra|left; lra]|].
  assert (a < b)%Q by (apply Qnot_le_lt; intros H%Qle_bool_iff; congruence). split_and!; [lra|lra|right; lra].
Qed.
Lemma math_min_spec a b : (math_min a b <= a /\ math_min a b <= b /\ (math_min a b == a \/ math_min a b == b))%Q.
Proof.
  unfold math_min. destruct (Qle_bool a b) eqn:E; [apply Qle_bool_iff in E; split_and!; [lra|lra|left; lra]|].
  assert (b < a)%Q by (apply Qnot_le_lt; intros H%Qle_bool_iff; congruence). split_and!; [lra|lra|right; lra].
Qed.
Lemma short_double z q : (q == inject_Z z)%Q -> Z.abs z < 10 ^ 14 -> (double q == inject_Z z)%Q.
Proof. intros E S. apply double_integer; [done|]. apply (Z.lt_le_trans _ (10 ^ 14)); [done|vm_compute; discriminate]. Qed.

Section bucket_facts.
Context (p : RateLimitPolicy).
Hypothesis valid : valid_policy p.
Hypothesis short_capacity : short (capacity p).
#[local] Abbreviation cap := (inject_Z (capacity p)).

Lemma cap_pos : (1 <= cap)%Q.
Proof. apply inject_pos, valid. Qed.
Lemma cap_double : (double cap == cap)%Q.
Proof. apply short_double; [reflexivity|]. destruct short_capacity. lia. Qed.
Lemma rate_pos : (1 # 60000 <= rate p)%Q.
Proof. unfold rate. pose proof (inject_pos _ (proj2 valid)). unfold Qdiv. change (/ 60000)%Q with (1 # 60000). lra. Qed.

(** What has refilled, and what there was, within the rounding of four operations. *)
Lemma sum_near tokens d : (0 <= tokens -> 0 <= d ->
  (tokens + d * rate p) * (1 - (1 # 1000000000000000)) <= double (double tokens + double (d * refill_per_ms p)) /\
  double (double tokens + double (d * refill_per_ms p)) <= (tokens + d * rate p) * (1 + (1 # 1000000000000000)))%Q.
Proof.
  intros T D. pose proof rate_pos as R. unfold refill_per_ms. fold (rate p). destruct (double_error tokens T) as [T1 T2]. destruct (double_error (rate p) ltac:(lra)) as [R1 R2].
  set (r := double (rate p)) in *. set (y := (d * rate p)%Q). assert (Y0 : (0 <= y)%Q) by (unfold y; nra).
  assert (Y1 : (y * (1 - (1 # 9007199254740992)) <= d * r)%Q) by (unfold y; nra). assert (Y2 : (d * r <= y * (1 + (1 # 9007199254740992)))%Q) by (unfold y; nra).
  set (y1 := (d * r)%Q) in *. destruct (double_error y1 ltac:(lra)) as [Z1 Z2]. destruct (double_error (double tokens + double y1)%Q ltac:(lra)) as [S1 S2]. split; lra.
Qed.

(** A bucket stored at [t]. *)
Record held (t : Z) (b : bucket) : Prop := {
  held_tokens : (0 <= tokens b)%Q;
  held_updated : (updated_ms b == inject_Z t)%Q;
  held_expires : expires_ms b = t + ttl_of p;
}.
Definition held_at (t : Z) (o : option bucket) : Prop := match o with Some b => held t b | None => True end.

(** The expiry of a key gives the bucket the time to fill. *)
Lemma ttl_fills d : ttl_of p < d -> (cap <= inject_Z d * rate p)%Q.
Proof.
  intros H. pose proof valid as [C R]. pose proof (inject_pos _ C) as C'. pose proof (inject_pos _ R) as R'. unfold ttl_of in H. set (x := (inject_Z (capacity p) / inject_Z (refill_per_minute p))%Q) in *.
  assert (X : (x * inject_Z (refill_per_minute p) == cap)%Q) by (unfold x; field; lra). assert (X0 : (0 <= x)%Q) by (unfold x; apply Qle_shift_div_l; lra).
  destruct (double_error x X0) as [D1 _]. destruct (double_error (double x * 120000)%Q ltac:(lra)) as [D2 _].
  pose proof (Qle_ceiling (double (double x * 120000))) as K. assert (H' : Qceiling (double (double x * 120000)) <= d) by lia. rewrite Zle_Qle in H'.
  unfold rate, Qdiv. change (/ 60000)%Q with (1 # 60000). assert (L : (x * 60000 <= inject_Z d)%Q) by lra. nra.
Qed.

Lemma filled_bounds t now o : held_at t o -> 0 <= t <= now -> now < 10 ^ 14 ->
  let f := filled p now (b ← o; live now b) in
  (0 <= f /\ f <= cap /\
   match o with
   | None => f == cap
   | Some b => let x := tokens b + inject_Z (now - t) * rate p in
               f <= x + cap * (1 # 100000000000000) /\ (f == cap \/ x - cap * (1 # 100000000000000) <= f)
   end)%Q.
Proof.
  intros H T N. pose proof cap_pos as C. pose proof cap_double as CD. pose proof rate_pos as R.
  assert (F : (filled p now None == cap)%Q).
  { unfold filled. assert (E : (double (inject_Z now - inject_Z now) == 0)%Q) by (apply (short_double 0); [change (inject_Z 0) with 0%Q; lra|lia]).
    destruct (math_max_spec 0 (double (inject_Z now - inject_Z now))) as (M1 & M2 & M3). set (e := math_max _ _) in *. assert (E0 : (e == 0)%Q) by (destruct M3; lra).
    assert (E1 : (double (e * refill_per_ms p) == 0)%Q) by (apply (short_double 0); [rewrite E0; change (inject_Z 0) with 0%Q; ring|lia]).
    assert (E2 : (double (double cap + double (e * refill_per_ms p)) == cap)%Q) by (apply short_double; [lra|destruct short_capacity; lia]).
    destruct (math_min_spec (double cap) (double (double cap + double (e * refill_per_ms p)))) as (M4 & M5 & [M6|M6]); lra. }
  destruct o as [b|]; cbn [mbind option_bind]; [|rewrite F; split_and!; lra].
  destruct H as [H1 H2 H3]. assert (I : (inject_Z (now - t) == inject_Z now - inject_Z t)%Q) by apply inject_sub. pose proof (inject_nonneg (now - t) ltac:(lia)) as I0.
  unfold live. destruct (Z.leb_spec now (expires_ms b)) as [L|L].
  - unfold filled. assert (U : (double (updated_ms b) == inject_Z t)%Q) by (apply short_double; [done|lia]).
    assert (E : (double (inject_Z now - double (updated_ms b)) == inject_Z (now - t))%Q) by (apply short_double; [lra|lia]).
    destruct (math_max_spec 0 (double (inject_Z now - double (updated_ms b)))) as (M1 & M2 & M3). set (e := math_max _ _) in *.
    assert (E0 : (e == inject_Z (now - t))%Q) by (destruct M3; lra).
    destruct (sum_near (tokens b) e H1 ltac:(lra)) as [S1 S2]. rewrite <- E0. assert (Y : (0 <= e * rate p)%Q) by nra.
    set (s := double (double (tokens b) + _)) in *. set (x := (tokens b + e * rate p)%Q) in *. assert (X : (0 <= x)%Q) by (unfold x; lra).
    destruct (math_min_spec (double cap) s) as (M4 & M5 & M6). destruct (Qlt_le_dec cap s) as [G|G]; split_and!; try lra;  destruct M6; lra || (left; lra) || (right; lra).
  - pose proof (ttl_fills (now - t) ltac:(lia)) as G. cbn zeta. rewrite F. split_and!; lra || (left; lra).
Qed.

(** One run of the script. *)
Lemma script_step t now o : held_at t o -> 0 <= t <= now -> now < 10 ^ 14 ->
  let f := filled p now (b ← o; live now b) in
  let '((a, _, _, _), b) := token_bucket p (ttl_of p) now (b ← o; live now b) in
  let left := (f - (if negb (a =? 0) then 1 else 0))%Q in
  held now b /\ (negb (a =? 0) = true <-> (1 <= f)%Q) /\ (left - cap * (9 # 100000000000000) <= tokens b /\ tokens b <= left + cap * (9 # 100000000000000))%Q.
Proof.
  intros H T N f. destruct (filled_bounds t now o H T N) as (F0 & F1 & _). fold f in F0, F1. pose proof cap_pos as C. unfold token_bucket. fold f.
  assert (U : (text14 (inject_Z now) == inject_Z now)%Q) by (apply text14_integer; [reflexivity|lia]).
  destruct (Qle_bool 1 f) eqn:E; cbn [Z.eqb negb tokens].
  - apply Qle_bool_iff in E. destruct (double_error (f - 1)%Q ltac:(lra)) as [D1 D2]. destruct (text14_error (double (f - 1)) ltac:(lra)) as [T1 T2].
    split_and!; [|done|lra|lra]. split; [apply text14_nonneg; lra|done|done].
  - assert (E' : (f < 1)%Q) by (apply Qnot_le_lt; intros X%Qle_bool_iff; congruence). destruct (text14_error f ltac:(lra)) as [T1 T2].
    split_and!; [|split; [done|lra]|lra|lra]. split; [by apply text14_nonneg|done|done].
Qed.

(** *** How much a bucket admits *)
Definition admitted_in (l : list (request * bool)) : Q := inject_Z (count (map snd l)).
Lemma admitted_in_cons r b l : (admitted_in ((r, b) :: l) == (if b then 1 else 0) + admitted_in l)%Q.
Proof. unfold admitted_in. cbn [map snd]. rewrite count_cons, inject_Z_plus. by destruct b. Qed.
Lemma admitted_in_app l l' : (admitted_in (l ++ l') == admitted_in l + admitted_in l')%Q.
Proof.
  induction l as [|[r b] l IH]; [change (admitted_in ([] ++ l')) with (admitted_in l'); change (admitted_in []) with 0%Q; lra|].
  rewrite <- app_comm_cons, !admitted_in_cons, IH. lra.
Qed.

Definition timed (t : Z) (rs : list request) : Prop := StronglySorted Z.le (map at_ms rs) /\ List.Forall (fun r => t <= at_ms r /\ at_ms r < 10 ^ 14) rs.
Lemma timed_cons t r rs : timed t (r :: rs) -> t <= at_ms r /\ at_ms r < 10 ^ 14 /\ timed (at_ms r) rs.
Proof.
  intros [S F]. inversion S as [|? ? S' F']; subst. inversion F as [|? ? [F1 F2] F3]; subst. split_and!; [done|done|]. split; [done|].
  rewrite List.Forall_forall in *. intros x X. split; [apply F'; by apply in_map|by apply F3].
Qed.

(** From a stored bucket, and from anything. *)
Lemma stored_upper rs : forall t b t1, held t b -> 0 <= t -> timed t rs -> List.Forall (fun r => at_ms r <= t1) rs -> t <= t1 ->
  (admitted_in (bucket_log p rs (Some b)) <= tokens b + inject_Z (t1 - t) * rate p + drift p (length rs))%Q.
Proof.
  pose proof rate_pos as R. pose proof cap_pos as C. induction rs as [|r rs IH]; intros t b t1 H T S F L.
  - change (admitted_in _) with 0%Q. change (drift p (length [])) with (0 * (cap * (1 # 10000000000000)))%Q. pose proof (held_tokens _ _ H). pose proof (inject_nonneg (t1 - t) ltac:(lia)). nra.
  - apply timed_cons in S as (S1 & S2 & S3). inversion F as [|? ? F1 F2]; subst. destruct (filled_bounds t (at_ms r) (Some b) H ltac:(lia) S2) as (B0 & B1 & B2 & _).
    pose proof (script_step t (at_ms r) (Some b) H ltac:(lia) S2) as X. cbn [bucket_log length]. set (f := filled _ _ _) in *. destruct (token_bucket _ _ _ _) as [[[[a x] y] z] b'].
    destruct X as (X1 & X2 & X3 & X4). pose proof (IH (at_ms r) b' t1 X1 ltac:(lia) S3 F2 F1) as G. rewrite admitted_in_cons, drift_S.
    rewrite !inject_sub in *. destruct (negb _); lra.
Qed.
Lemma window_upper rs o t t0 t1 : held_at t o -> 0 <= t -> timed t rs -> List.Forall (fun r => t0 <= at_ms r /\ at_ms r <= t1) rs -> t0 <= t1 ->
  (admitted_in (bucket_log p rs o) <= cap + inject_Z (t1 - t0) * rate p + drift p (length rs))%Q.
Proof.
  pose proof rate_pos as R. pose proof cap_pos as C. intros H T S F L. destruct rs as [|r rs].
  - change (admitted_in _) with 0%Q. change (drift p (length [])) with (0 * (cap * (1 # 10000000000000)))%Q. pose proof (inject_nonneg (t1 - t0) ltac:(lia)). nra.
  - apply timed_cons in S as (S1 & S2 & S3). inversion F as [|? ? [F1 F2] F3]; subst. destruct (filled_bounds t (at_ms r) o H ltac:(lia) S2) as (B0 & B1 & _).
    pose proof (script_step t (at_ms r) o H ltac:(lia) S2) as X. cbn [bucket_log length]. set (f := filled _ _ _) in *. destruct (token_bucket _ _ _ _) as [[[[a x] y] z] b'].
    destruct X as (X1 & X2 & X3 & X4). assert (F4 : List.Forall (fun r => at_ms r <= t1) rs) by (eapply List.Forall_impl; [|exact F3]; cbn; lia).
    pose proof (stored_upper rs (at_ms r) b' t1 X1 ltac:(lia) S3 F4 F2) as G. rewrite admitted_in_cons, drift_S.
    assert (K : (inject_Z (t1 - at_ms r) * rate p <= inject_Z (t1 - t0) * rate p)%Q).
    { assert (inject_Z (t1 - at_ms r) <= inject_Z (t1 - t0))%Q by (rewrite <- Zle_Qle; lia). nra. }
    destruct (negb _); lra.
Qed.

(** *** When a bucket refuses *)

(** The bucket was full when the first request of [during] came, and what that
    left has been used up as the policy says. *)
Definition used_up (t : Z) (level : Q) (n : nat) (during : list (request * bool)) : Prop :=
  exists r0, head (map fst during) = Some r0 /\
    (cap + inject_Z (t - at_ms r0) * rate p <= level + admitted_in during + drift p n)%Q.
Lemma refused_after rs : forall t b before during r rest, held t b -> 0 <= t -> timed t rs ->
  used_up t (tokens b) (length during) during -> bucket_log p rs (Some b) = rest ++ [(r, false)] ->
  exists before' during', before ++ during ++ rest = before' ++ during' /\ exists r0, head (map fst (during' ++ [(r, false)])) = Some r0 /\
    (cap + inject_Z (at_ms r - at_ms r0) * rate p < admitted_in during' + 1 + drift p (S (length during')))%Q.
Proof.
  pose proof rate_pos as R. pose proof cap_pos as C. induction rs as [|r1 rs IH]; intros t b before during r rest H T S (r0 & HD & U) E; [by destruct rest|].
  apply timed_cons in S as (S1 & S2 & S3). destruct (filled_bounds t (at_ms r1) (Some b) H ltac:(lia) S2) as (B0 & B1 & B2 & B3).
  pose proof (script_step t (at_ms r1) (Some b) H ltac:(lia) S2) as X. cbn [bucket_log] in E. set (f := filled _ _ _) in *. destruct (token_bucket _ _ _ _) as [[[[a x] y] z] b'].
  destruct X as (X1 & X2 & X3 & X4). set (ok := negb _) in *.
  assert (HD' : forall u, head (map fst (during ++ u)) = Some r0) by (intros u; destruct during; [done|exact HD]).
  assert (I : forall q, (inject_Z (at_ms r1 - q) == inject_Z (at_ms r1 - t) + inject_Z (t - q))%Q) by (intros q; rewrite <- inject_Z_plus; by replace (at_ms r1 - t + (t - q)) with (at_ms r1 - q) by lia).
  destruct rest as [|x1 rest].
  - injection E as <- E1 _. rewrite E1 in *. assert (Q1 : (f < 1)%Q) by (apply Qnot_le_lt; intros G%X2; done).
    destruct B3 as [B3|B3]; [lra|]. exists before, during. rewrite app_nil_r. split; [done|]. exists r0. split; [apply HD'|].
    rewrite I, drift_S. lra.
  - injection E as <- E1. destruct B3 as [B3|B3].
    + destruct (IH (at_ms r1) b' (before ++ during) [(r1, ok)] r rest X1 ltac:(lia) S3) as (b1 & d1 & E2 & G); [|done|exists b1, d1; split; [rewrite <- E2; by rewrite <- !app_assoc|exact G]].
      exists r1. split; [done|]. rewrite Z.sub_diag, admitted_in_cons. change (length [(r1, ok)]) with 1%nat. rewrite drift_S. change (admitted_in []) with 0%Q.
      change (drift p 0) with (0 * (cap * (1 # 10000000000000)))%Q. change (inject_Z 0) with 0%Q. destruct ok; lra.
    + destruct (IH (at_ms r1) b' before (during ++ [(r1, ok)]) r rest X1 ltac:(lia) S3) as (b1 & d1 & E2 & G); [|done|exists b1, d1; split; [rewrite <- E2; by rewrite <- !app_assoc|exact G]].
      exists r0. split; [apply HD'|]. rewrite I, admitted_in_app, admitted_in_cons, length_app, Nat.add_1_r, drift_S. change (admitted_in []) with 0%Q. destruct ok; lra.
Qed.
Lemma refused_lower rs r rest : timed 0 rs -> bucket_log p rs None = rest ++ [(r, false)] ->
  exists before during, rest = before ++ during /\ exists r0, head (map fst (during ++ [(r, false)])) = Some r0 /\
    (cap + inject_Z (at_ms r - at_ms r0) * rate p < admitted_in during + 1 + drift p (S (length during)))%Q.
Proof.
  pose proof cap_pos as C. destruct rs as [|r1 rs]; intros S E; [by destruct rest|]. apply timed_cons in S as (S1 & S2 & S3).
  destruct (filled_bounds 0 (at_ms r1) None I ltac:(lia) S2) as (B0 & B1 & B2). pose proof (script_step 0 (at_ms r1) None I ltac:(lia) S2) as X. cbn [bucket_log] in E.
  set (f := filled _ _ _) in *. destruct (token_bucket _ _ _ _) as [[[[a x] y] z] b']. destruct X as (X1 & X2 & X3 & X4). set (ok := negb _) in *.
  assert (O : ok = true) by (apply X2; lra). destruct rest as [|x1 rest]; [by rewrite O in E|]. injection E as <- E1.
  destruct (refused_after rs (at_ms r1) b' [] [(r1, ok)] r rest X1 S1 S3) as (b1 & d1 & E2 & G); [|done|exists b1, d1; split; [exact E2|exact G]].
  exists r1. split; [done|]. rewrite Z.sub_diag, admitted_in_cons. change (length [(r1, ok)]) with 1%nat. rewrite drift_S. change (admitted_in []) with 0%Q.
  change (drift p 0) with (0 * (cap * (1 # 10000000000000)))%Q. change (inject_Z 0) with 0%Q. rewrite O in *. lra.
Qed.
End bucket_facts.

Section run_facts.
Context (digest : string -> string) (namespace : string) (policies : OperationClass -> RateLimitPolicy).
Hypothesis digest_length : forall s, String.length (digest s) = 32%nat.
Abbreviation the_key := (rate_key digest namespace).

Lemma append_eq_length a b x y : String.length a = String.length b -> a +:+ x = b +:+ y -> x = y.
Proof. revert b. induction a as [|c a IH]; intros [|c' b] L E; try done. injection L as L. injection E as _ E. by apply (IH b). Qed.
Lemma rate_key_operation s s' o o' : the_key s o = the_key s' o' -> o = o'.
Proof.
  unfold rate_key. intros E. apply (inj (String.append _)), (inj (String.append _)) in E. apply append_eq_length in E; [|by rewrite !digest_length].
  apply (inj (String.append _)) in E. apply (f_equal enum_of) in E. rewrite !enum_of_value in E. congruence.
Qed.

(** The requests of one key, with what the limiter answers. *)
Definition same_key (k : string) (r : request) : bool := String.eqb (the_key (subject r) (operation_of r)) k.
Definition log_of (k : string) (l : list (request * bool)) : list (request * bool) := List.filter (fun rb => same_key k rb.1) l.
Definition in_time (rs : list request) : Prop := StronglySorted Z.le (map at_ms rs) /\ List.Forall (fun r => short (at_ms r)) rs.

(** A key has its bucket to itself. *)
Lemma log_of_bucket k o rs : forall s, available s = true -> (forall r, In r rs -> same_key k r = true -> operation_of r = o) ->
  log_of k (admissions digest namespace policies rs s) = bucket_log (policies o) (List.filter (same_key k) rs) (buckets s !! k).
Proof.
  unfold log_of. induction rs as [|r rs IH]; intros s A O; [done|]. cbn [admissions]. unfold let_in. rewrite A. cbn [negb List.filter]. destruct (same_key k r) eqn:K.
  - pose proof (O r ltac:(by left) K) as OO. rewrite OO. unfold same_key in K. apply String.eqb_eq in K. rewrite OO in K. rewrite K. cbn [bucket_log].
    destruct (token_bucket _ _ _ _) as [[[[a x] y] z] b]. cbn [List.filter fst]. unfold same_key at 1. cbn [fst]. rewrite OO, K, String.eqb_refl. cbn [allowed]. f_equal.
    rewrite IH; [cbn [buckets]; by rewrite lookup_insert_eq|done|intros y' Y; apply O; by right].
  - destruct (token_bucket _ _ _ _) as [[[[a x] y] z] b]. cbn [List.filter fst]. rewrite K. rewrite IH; [|done|intros y' Y; apply O; by right].
    cbn [buckets]. unfold same_key in K. apply String.eqb_neq in K. by rewrite lookup_insert_ne.
Qed.
Lemma log_from_empty rs subject_id o :
  log_of (the_key subject_id o) (admissions digest namespace policies rs {| buckets := ∅; available := true |})
  = bucket_log (policies o) (List.filter (same_key (the_key subject_id o)) rs) None.
Proof.
  rewrite (log_of_bucket _ o); [cbn [buckets]; by rewrite lookup_empty|done|]. intros x _ K. unfold same_key in K. apply String.eqb_eq in K. by apply rate_key_operation in K.
Qed.
Lemma in_time_timed k rs : in_time rs -> timed 0 (List.filter (same_key k) rs).
Proof.
  intros [S F]. split.
  - clear F. induction rs as [|r rs IH]; cbn; [constructor|]. inversion S as [|? ? S' F]; subst. destruct (same_key k r); [|by apply IH].
    cbn. constructor; [by apply IH|]. apply List.Forall_forall. intros x (y & <- & [I _]%filter_In)%in_map_iff. rewrite List.Forall_forall in F. apply F. by apply in_map.
  - rewrite List.Forall_forall in *. intros x [I _]%filter_In. destruct (F x I). done.
Qed.

(** *** Parts of a log *)
Fixpoint bucket_after (p : RateLimitPolicy) (rs : list request) (o : option bucket) : option bucket :=
  match rs with [] => o | r :: rs' => bucket_after p rs' (Some (token_bucket p (ttl_of p) (at_ms r) (b ← o; live (at_ms r) b)).2) end.
Lemma bucket_log_app p rs rs' o : bucket_log p (rs ++ rs') o = bucket_log p rs o ++ bucket_log p rs' (bucket_after p rs o).
Proof. revert o. induction rs as [|r rs IH]; intros o; [done|]. cbn [app bucket_log bucket_after]. destruct (token_bucket _ _ _ _) as [[[[a x] y] z] b]. cbn [app snd]. by rewrite IH. Qed.
Lemma bucket_log_requests p rs o : map fst (bucket_log p rs o) = rs.
Proof. revert o. induction rs as [|r rs IH]; intros o; [done|]. cbn [bucket_log]. destruct (token_bucket _ _ _ _) as [[[[a x] y] z] b]. cbn [map fst]. by rewrite IH. Qed.
Lemma bucket_log_split p rs o before after : bucket_log p rs o = before ++ after ->
  rs = map fst before ++ map fst after /\ bucket_log p (map fst before) o = before /\ bucket_log p (map fst after) (bucket_after p (map fst before) o) = after.
Proof.
  intros E. pose proof (bucket_log_requests p rs o) as R. rewrite E, map_app in R. split; [done|]. rewrite <- R, bucket_log_app in E.
  apply app_inj_1 in E as [E1 E2]; [done|]. apply (f_equal length) in R. pose proof (f_equal length (bucket_log_requests p (map fst before) o)) as L. by rewrite !length_map in L.
Qed.
Lemma timed_app t rs rs' : timed t (rs ++ rs') -> timed t rs /\ timed t rs'.
Proof.
  unfold timed. rewrite map_app. intros [S F]. apply StronglySorted_app in S as (_ & S1 & S2). by apply List.Forall_app in F as [F1 F2].
Qed.
Lemma after_held p rs : valid_policy p -> short (capacity p) -> forall o t rs', held_at p t o -> 0 <= t -> timed t (rs ++ rs') ->
  exists t', 0 <= t' /\ held_at p t' (bucket_after p rs o) /\ timed t' rs'.
Proof.
  intros V C. induction rs as [|r rs IH]; intros o t rs' H T S; [by exists t|]. cbn [app] in S. apply timed_cons in S as (S1 & S2 & S3). cbn [bucket_after].
  pose proof (script_step p V C t (at_ms r) o H ltac:(lia) S2) as X. destruct (token_bucket _ _ _ _) as [[[[a x] y] z] b]. destruct X as (X1 & _).
  apply (IH (Some b) (at_ms r)); [done|lia|done].
Qed.

(** C14: The limiter is a token bucket, up to the rounding of its numbers.
    Whatever requests of whatever subjects come to an empty server in the order of
    time, every request of a subject for an operation is answered, whoever else
    comes.  Between two instants at most the capacity is admitted, and what the
    policy refills in between, and a 10^13th of the capacity for every request.  And a request is refused only when, since some earlier
    request or its own, the admitted ones have used up the capacity and the refill
    but for less than one token, up to the same rounding. *)
Theorem limiter_is_token_bucket (rs : list request) (subject_id : string) (o : OperationClass)
  (V : valid_policy (policies o)) (C : short (capacity (policies o))) (T : in_time rs) :
  let p := policies o in
  let log := log_of (the_key subject_id o) (admissions digest namespace policies rs {| buckets := ∅; available := true |}) in
  map fst log = List.filter (same_key (the_key subject_id o)) rs /\
  (forall before during after t0 t1, log = before ++ during ++ after -> t0 <= t1 -> (forall rb, In rb during -> t0 <= at_ms rb.1 <= t1) ->
     (admitted_in during <= inject_Z (capacity p) + inject_Z (t1 - t0) * rate p + drift p (length during))%Q) /\
  (forall rest r after, log = rest ++ (r, false) :: after ->
     exists before during r0, rest = before ++ during /\ head (map fst (during ++ [(r, false)])) = Some r0 /\
       (inject_Z (capacity p) + inject_Z (at_ms r - at_ms r0) * rate p < admitted_in during + 1 + drift p (S (length during)))%Q).
Proof.
  intros p log. unfold log. rewrite log_from_empty. pose proof (in_time_timed (the_key subject_id o) rs T) as S. set (mine := List.filter _ rs) in *. fold p in V, C |- *.
  split; [apply bucket_log_requests|]. split.
  - intros before during after t0 t1 (E & _ & E2)%bucket_log_split W F. rewrite E in S. destruct (after_held p _ V C None 0 _ I ltac:(lia) S) as (t & T0 & H & S').
    apply bucket_log_split in E2 as (E3 & E4 & _). rewrite E3 in S'. apply timed_app in S' as [S' _]. rewrite <- E4.
    replace (length (bucket_log _ _ _)) with (length (map fst during)) by (by rewrite E4, length_map). apply (window_upper p V C _ _ t); try done.
    apply List.Forall_forall. intros x (rb & <- & I')%in_map_iff. by apply F.
  - intros rest r after E. change ((r, false) :: after) with ([(r, false)] ++ after) in E. rewrite app_assoc in E. apply bucket_log_split in E as (E & E1 & _).
    rewrite E in S. apply timed_app in S as [S _]. destruct (refused_lower p V C _ r rest S E1) as (before & during & E5 & r0 & G). by exists before, during, r0.
Qed.

(** *** The limiter away *)
Fixpoint checks (subject_id : string) (o : OperationClass) (ts : list (Z * Z)) (w : world) : list outcome :=
  match ts with [] => [] | t :: ts' => let (x, w') := check digest namespace policies t.1 t.2 subject_id o w in x :: checks subject_id o ts' w' end.
Definition admitted (x : outcome) : bool := match x with Admitted_with _ => true | Refused _ => false end.
Definition admitted_count (l : list outcome) : Z := count (map admitted l).
Lemma checks_away subject_id o t ts w : available (redis w) = false -> high_risk o = false ->
  exists d m, emergency_admit 10 60 t.2 subject_id o (emergency w) = (d, m) /\
    checks subject_id o (t :: ts) w = decide_on policies o d :: checks subject_id o ts {| redis := redis w; emergency := m |}.
Proof.
  intros A H. destruct (emergency_admit 10 60 t.2 subject_id o (emergency w)) as [d m] eqn:E. exists d, m. split; [done|].
  cbn [checks]. unfold check, let_in. rewrite A. cbn [negb]. by rewrite H, E.
Qed.
Lemma admitted_decide o d : admitted (decide_on policies o d) = allowed d.
Proof. unfold decide_on. by destruct (allowed d). Qed.
Lemma emergency_step t m subject_id o x c : m !! (subject_id +:+ ":" +:+ value o) = Some (x, c) ->
  let '(x', c') := if 60 * second <=? t - x then (t, 0) else (x, c) in
  allowed (emergency_admit 10 60 t subject_id o m).1 = (c' <? 10) /\
  (emergency_admit 10 60 t subject_id o m).2 !! (subject_id +:+ ":" +:+ value o) = Some (x', if c' <? 10 then c' + 1 else c').
Proof. intros E. unfold emergency_admit. rewrite E. change (default (t, 0) (Some (x, c))) with (x, c). cbv beta iota zeta. destruct (_ <=? t - x); (split; [reflexivity|apply lookup_insert_eq]). Qed.
Lemma emergency_first t m subject_id o : m !! (subject_id +:+ ":" +:+ value o) = None ->
  allowed (emergency_admit 10 60 t subject_id o m).1 = true /\ (emergency_admit 10 60 t subject_id o m).2 !! (subject_id +:+ ":" +:+ value o) = Some (t, 1).
Proof. intros E. unfold emergency_admit. rewrite E. change (default (t, 0) (None : option (Z * Z))) with (t, 0). cbv beta iota zeta. rewrite Z.sub_diag. split; [reflexivity|apply lookup_insert_eq]. Qed.

(** From a window that began at [x] with [c] admissions. *)
Lemma window_count subject_id o ts t0 : high_risk o = false -> (forall t, t ∈ ts -> t0 <= t.2 < t0 + 60 * second) -> forall w x c, available (redis w) = false ->
  emergency w !! (subject_id +:+ ":" +:+ value o) = Some (x, c) -> 0 <= c <= 10 ->
  admitted_count (checks subject_id o ts w) <= (if t0 <=? x then 10 else 20) - c.
Proof.
  intros H. induction ts as [|t ts IH]; intros T w x c A E C; [change (admitted_count _) with 0; destruct (_ <=? x); lia|].
  destruct (checks_away subject_id o t ts w A H) as (d & m & D & ->). pose proof (emergency_step t.2 (emergency w) subject_id o x c E) as S. rewrite D in S. cbn [fst snd] in S.
  assert (T' : forall t, t ∈ ts -> t0 <= t.2 < t0 + 60 * second) by (intros t' I; apply T; by right). assert (T0 := T t ltac:(by left)).
  unfold admitted_count. cbn [map]. rewrite count_cons, admitted_decide.
  destruct (Z.leb_spec (60 * second) (t.2 - x)) as [R|R]; destruct S as [S1 S2]; rewrite S1.
  - pose proof (IH T' {| redis := redis w; emergency := m |} t.2 1 A S2 ltac:(lia)) as G. unfold admitted_count in G.
    destruct (Z.leb_spec t0 t.2), (Z.leb_spec t0 x); cbn; lia.
  - pose proof (IH T' {| redis := redis w; emergency := m |} x (if c <? 10 then c + 1 else c) A S2) as G. unfold admitted_count in G.
    destruct (Z.ltb_spec c 10), (Z.leb_spec t0 x); lia.
Qed.

(** While Redis does not answer, no submission, override, memory mutation
    or ticket is admitted, whatever the policies say; of the other requests a
    subject makes for an operation, at most ten are admitted in a minute from
    the first one, and at most twenty in any minute. *)
Theorem admission_fails_closed (subject_id : string) (o : OperationClass) (ts : list (Z * Z)) (t0 : Z) (w : world)
  (AWAY : available (redis w) = false) (T : forall t, t ∈ ts -> t0 <= t.2 < t0 + 60 * second) :
  (high_risk o = true -> forall now_ms now, check digest namespace policies now_ms now subject_id o w = (Refused unavailable_refusal, w)) /\
  (high_risk o = false -> emergency w !! (subject_id +:+ ":" +:+ value o) = None -> admitted_count (checks subject_id o ts w) <= 10) /\
  (high_risk o = false -> (forall x c, emergency w !! (subject_id +:+ ":" +:+ value o) = Some (x, c) -> 0 <= c <= 10) -> admitted_count (checks subject_id o ts w) <= 20).
Proof.
  assert (F : high_risk o = false -> emergency w !! (subject_id +:+ ":" +:+ value o) = None -> admitted_count (checks subject_id o ts w) <= 10).
  { intros H E. destruct ts as [|t ts]; [change (admitted_count _) with 0; lia|].
    destruct (checks_away subject_id o t ts w AWAY H) as (d & m & D & ->). pose proof (emergency_first t.2 (emergency w) subject_id o E) as S. rewrite D in S. cbn [fst snd] in S.
    destruct S as [S1 S2]. assert (T0 := T t ltac:(by left)).
    assert (T' : forall t', t' ∈ ts -> t0 <= t'.2 < t0 + 60 * second) by (intros t' I; apply T; by right).
    pose proof (window_count subject_id o ts t0 H T' {| redis := redis w; emergency := m |} t.2 1 AWAY S2 ltac:(lia)) as G. unfold admitted_count in *.
    cbn [map]. rewrite count_cons, admitted_decide, S1. destruct (Z.leb_spec t0 t.2); lia. }
  split_and!; [|done|].
  - intros H now_ms now. unfold check, let_in. rewrite AWAY. cbn [negb]. rewrite H. by destruct w.
  - intros H C. destruct (emergency w !! (subject_id +:+ ":" +:+ value o)) as [[x c]|] eqn:E; [|specialize (F H eq_refl); lia].
    pose proof (window_count subject_id o ts t0 H T w x c AWAY E (C x c eq_refl)) as G. specialize (C x c eq_refl). destruct (t0 <=? x); lia.
Qed.
End run_facts.

(** *** Examples *)
Fixpoint pad (n : nat) (s : string) : string :=
  match n with O => ""%string | S n => match s with "" => "0" +:+ pad n "" | String c s' => String c (pad n s') end%string end.
Lemma pad_length n s : String.length (pad n s) = n.
Proof. revert s. induction n as [|n IH]; intros [|c s]; [done|done| |]; exact (f_equal S (IH _)). Qed.
(** Ten tokens, ten a minute: eleven requests at once, then at three, five and six
    seconds.  In the last six seconds a token has refilled, but what the steps in
    between have rounded off is missing. *)
Definition ex_policies (o : OperationClass) : RateLimitPolicy := {| capacity := 10; refill_per_minute := 10 |}.
Definition ex_request (t : Z) (s : string) : request := {| at_ms := t; subject := s; operation_of := WS_TICKET |}.
Definition ex_requests : list request := replicate 11 (ex_request 0 "a") ++ [ex_request 10 "b"; ex_request 3000 "a"; ex_request 5000 "a"; ex_request 6000 "a"; ex_request 6001 "a"].
Definition ex_log : list (request * bool) :=
  log_of (pad 32) "ns" (rate_key (pad 32) "ns" "a" WS_TICKET) (admissions (pad 32) "ns" ex_policies ex_requests {| buckets := ∅; available := true |}).
Example ex_rounding : map snd ex_log = replicate 10 true ++ [false; false; false; false; true].
Proof. vm_compute. reflexivity. Qed.

Lemma limiter_is_token_bucket_witness : (admitted_in ex_log <= 10 + 6001 * (10 / 60000) + drift (ex_policies WS_TICKET) 15)%Q /\
  exists before during r0, firstn 13 ex_log = before ++ during /\ head (map fst (during ++ [(ex_request 6000 "a", false)])) = Some r0 /\
    (10 + inject_Z (6000 - at_ms r0) * rate (ex_policies WS_TICKET) < admitted_in during + 1 + drift (ex_policies WS_TICKET) (S (length during)))%Q.
Proof.
  assert (V : valid_policy (ex_policies WS_TICKET)) by (split; reflexivity). assert (C : short 10) by (split; [discriminate|reflexivity]).
  assert (T : in_time ex_requests).
  { split; [repeat (constructor; [|repeat constructor; vm_compute; discriminate]); constructor|]. repeat (constructor; [split; [discriminate|reflexivity]|]). constructor. }
  destruct (limiter_is_token_bucket (pad 32) "ns" ex_policies (pad_length 32) ex_requests "a" WS_TICKET V C T) as (_ & U & L). split.
  - apply (U [] ex_log [] 0 6001); [by rewrite app_nil_r|discriminate|]. intros rb I. assert (M : List.forallb (fun rb => (0 <=? at_ms rb.1) && (at_ms rb.1 <=? 6001)) ex_log = true) by (vm_compute; reflexivity).
    apply (proj1 (List.forallb_forall _ _) M), andb_true_iff in I as [I1 I2]. split; [by apply Z.leb_le|by apply Z.leb_le].
  - apply (L (firstn 13 ex_log) (ex_request 6000 "a") (skipn 14 ex_log)). vm_compute. reflexivity.
Defined.
Lemma admission_fails_closed_witness :
  let w := {| redis := {| buckets := ∅; available := false |}; emergency := ∅ |} in
  check (pad 32) "ns" ex_policies 0 0 "a" DISPATCH_SUBMIT w = (Refused unavailable_refusal, w) /\
  admitted_count (checks (pad 32) "ns" ex_policies "a" OBSERVABILITY_READ (replicate 30 (0, 5)) w) <= 10.
Proof.
  intros w. split.
  - apply (admission_fails_closed (pad 32) "ns" ex_policies "a" DISPATCH_SUBMIT [] 0 w eq_refl); [by intros t ?%elem_of_nil|reflexivity].
  - apply (admission_fails_closed (pad 32) "ns" ex_policies "a" OBSERVABILITY_READ (replicate 30 (0, 5)) 0 w eq_refl); [|reflexivity|apply lookup_empty].
    intros t I. apply elem_of_replicate in I as [-> _]. split; vm_compute; congruence.
Defined.
