(* ===== verification/Auth.v ===== *)
(** * Auth: who is calling, and for how long

    Models [app/security/models.py], [jwt_provider.py], [revocation.py],
    [dependencies.py], [development_session.py], [demo_employee_accounts.py],
    [ws_ticket.py] and the routes [app/api/v1/auth.py] and [ws_tickets.py].
    Instants are microseconds.  The JWT library ([decode], [header_of],
    [key_of]), the key server ([fetch]), what [float] and [datetime] make of a
    claim ([timestamp]), digests and random tokens are parameters.  Redis keeps
    a value up to its expiry; a lost reply leaves the command executed or not. *)

From S2P Require Import Prelude Texts Evidence.
From S2P Require Security Records Events MemoryPolicy.

Local Open Scope Z_scope.
Local Open Scope list_scope.

#[local] Existing Instance Security.Permission_eq_dec.
#[local] Existing Instance Security.Role_eq_dec.

Definition micro : Z := 1000000.
Definition ceil_seconds (us : Z) : Z := - ((- us) / micro).

(** ** Principals *)
Inductive AuthMethod := OIDC_JWT | DEVELOPMENT_JWT.
Record AuthenticatedPrincipal := {
  who : Security.AuthenticatedPrincipal;      (* subject_id, roles, permissions *)
  display_name : string;
  auth_method : AuthMethod;
  issued_at : Z;
  expires_at : Z;
  jti : string;
}.
Definition ValueError (m : string) : exn := Exn "ValueError" m.
Definition required (v name : string) (maximum : Z) : result string :=
  let n := strip v in
  if String.eqb n "" then Err (ValueError (name +:+ " must not be empty"))
  else if maximum <? py_len n then Err (ValueError (name +:+ " exceeds its length")) else Ok n.
(** The constructor with [__post_init__]. *)
Definition make_principal (subject name : string) (roles : list Security.Role) (permissions : list Security.Permission) (method : AuthMethod)
    (iat exp : Z) (jti : string) : result AuthenticatedPrincipal :=
  s ← required subject "subject_id" 128;
  n ← required name "display_name" 256;
  j ← required jti "jti" 256;
  if exp <=? iat then Err (ValueError "expires_at must be later than issued_at")
  else Ok {| who := {| Security.subject_id := s; Security.roles := roles; Security.permissions := permissions |}; display_name := n; auth_method := method;
             issued_at := iat; expires_at := exp; jti := j |}.
Definition can (p : AuthenticatedPrincipal) (perm : Security.Permission) : bool := Security.can (who p) perm.

(** ** Errors *)
Inductive AuthenticationErrorCode := TOKEN_INVALID | TOKEN_EXPIRED | TOKEN_REVOKED | AUTHENTICATION_REQUIRED.
#[export] Instance AuthenticationErrorCode_enum : PyEnum AuthenticationErrorCode := {
  members := [TOKEN_INVALID; TOKEN_EXPIRED; TOKEN_REVOKED; AUTHENTICATION_REQUIRED];
  value c := match c with TOKEN_INVALID => "TOKEN_INVALID" | TOKEN_EXPIRED => "TOKEN_EXPIRED" | TOKEN_REVOKED => "TOKEN_REVOKED"
             | AUTHENTICATION_REQUIRED => "AUTHENTICATION_REQUIRED" end%string }.
Definition AuthenticationError (c : AuthenticationErrorCode) : exn := Exn "AuthenticationError" (value c).
Definition AuthenticationProviderUnavailable : exn := Exn "AuthenticationProviderUnavailable" "AUTHENTICATION_UNAVAILABLE".

(** ** Revocations *)
Record revocations := { revoked : gmap string Z; answers : bool }.     (* expiry by key *)
Section revocation.
Context (digest : string -> string) (namespace : string).
Definition revocation_key (jti : string) : string := namespace +:+ ":" +:+ digest jti.
Definition revoke (now : Z) (jti : string) (expires_at : Z) : action revocations Datatypes.unit := fun s =>
  let remaining := ceil_seconds (expires_at - now) in
  if remaining <=? 0 then (Ok tt, s)
  else if negb (answers s) then (Err AuthenticationProviderUnavailable, s)
  else (Ok tt, {| revoked := <[revocation_key jti := now + remaining * micro]> (revoked s); answers := true |}).
Definition is_revoked (now : Z) (s : revocations) (jti : string) : result bool :=
  if negb (answers s) then Err AuthenticationProviderUnavailable
  else Ok (match revoked s !! revocation_key jti with Some e => now <=? e | None => false end).
End revocation.

(** ** Tokens *)
Section providers.
Context (timestamp : pyval -> result Z) (py_str : pyval -> string).
Definition text_of_claim (v : pyval) : string := match v with PStr s => s | _ => py_str v end.
Definition claim (claims : pydict) (k : string) : result pyval := of_option (Exn "KeyError" k) (dict_get claims k).

(** [_principal]. *)
Definition principal_of (claims : pydict) (method : AuthMethod) : result AuthenticatedPrincipal :=
  match get claims "roles" with
  | PList l =>
      if negb (forallb (fun v => match v with PStr _ => true | _ => false end) l) then Err (AuthenticationError TOKEN_INVALID)
      else
        let values := string_list (PList l) in
        let roles := omap Security.role_of values in
        match roles with
        | [] => Err (AuthenticationError TOKEN_INVALID)
        | _ =>
            i ← claim claims "iat"; iat ← timestamp i;
            e ← claim claims "exp"; exp ← timestamp e;
            s ← claim claims "sub";
            let subject := text_of_claim s in
            let name := if Events.truthy (get claims "name") then text_of_claim (get claims "name") else subject in
            j ← claim claims "jti";
            make_principal subject name roles (Security.permissions_for_roles values).1 method iat exp (text_of_claim j)
        end
  | _ => Err (AuthenticationError TOKEN_INVALID)
  end.

(** [is_revoked] of the store, at the time of the call. *)
Context (is_revoked_now : string -> result bool).
Definition not_revoked (p : AuthenticatedPrincipal) : result AuthenticatedPrincipal :=
  r ← is_revoked_now (jti p); if r : bool then Err (AuthenticationError TOKEN_REVOKED) else Ok p.

(** The [except] clauses after the signature was checked. *)
Definition as_authentication_error {A} (r : result A) : result A :=
  match r with
  | Err e => if raised_as ["AuthenticationProviderUnavailable"; "AuthenticationError"]%string e then Err e
             else if raised_as ["ExpiredSignatureError"]%string e then Err (AuthenticationError TOKEN_EXPIRED)
             else if raised_as ["PyJWTError"; "TypeError"; "ValueError"; "KeyError"]%string e then Err (AuthenticationError TOKEN_INVALID) else Err e
  | Ok a => Ok a
  end.

(** [DevelopmentJwtProvider.authenticate]. *)
Definition authenticate_development (decode : string -> result pydict) (token : string) : result AuthenticatedPrincipal :=
  claims ← match decode token with
           | Err e => if raised_as ["ExpiredSignatureError"]%string e then Err (AuthenticationError TOKEN_EXPIRED)
                      else if raised_as ["PyJWTError"]%string e then Err (AuthenticationError TOKEN_INVALID) else Err e
           | Ok c => Ok c
           end;
  as_authentication_error (p ← principal_of claims DEVELOPMENT_JWT; not_revoked p).

(** [OidcJwtProvider.authenticate]; [header_of] is [(alg, kid)] of the header. *)
Context {K : Type}.
Definition oidc_claims (algorithms : list string) (header_of : string -> result (pyval * pyval)) (resolve : string -> string -> result K)
    (decode : string -> K -> result pydict) (token : string) : result AuthenticatedPrincipal :=
  h ← header_of token;
  match h.1, h.2 with
  | PStr alg, PStr kid =>
      if negb (one_of alg algorithms) || String.eqb (strip kid) "" then Err (AuthenticationError TOKEN_INVALID)
      else key ← resolve kid alg; claims ← decode token key; p ← principal_of claims OIDC_JWT; not_revoked p
  | _, _ => Err (AuthenticationError TOKEN_INVALID)
  end.
Definition authenticate_oidc algorithms header_of resolve decode (token : string) : result AuthenticatedPrincipal :=
  as_authentication_error (oidc_claims algorithms header_of resolve decode token).
End providers.

(** ** The key server's cache *)
Record jwks_cache (K : Type) := { keys : gmap (string * string) K; cache_expires_at : Z }.
Arguments keys {K}. Arguments cache_expires_at {K}.
Section jwks.
Context {K : Type} (key_of : pydict -> string -> result K) (cache_ttl : Z).
Definition usable (v : pyval) : option (pydict * string * string) :=
  match v with
  | PDict d => match get d "kid", get d "alg" with
               | PStr kid, PStr alg => if one_of alg ["RS256"; "ES256"]%string then Some (d, kid, alg) else None
               | _, _ => None
               end
  | _ => None
  end.
(** The keys of a document; later entries win, a bad one fails. *)
Fixpoint keys_of (values : list pyval) (m : gmap (string * string) K) : result (gmap (string * string) K) :=
  match values with
  | [] => Ok m
  | v :: rest => match usable v with
                 | None => keys_of rest m
                 | Some (d, kid, alg) => k ← key_of d alg; keys_of rest (<[(kid, alg) := k]> m)
                 end
  end.
(** The keys of what the request gave. *)
Definition document_keys (document : result pyval) : result (gmap (string * string) K) :=
  payload ← document;
  match payload with
  | PDict d => match get d "keys" with PList l => keys_of l ∅ | _ => Err (ValueError "invalid JWKS shape") end
  | _ => Err (ValueError "invalid JWKS shape")
  end.
(** [_refresh]. *)
Definition refresh (now : Z) (document : result pyval) (c : jwks_cache K) : result Datatypes.unit * jwks_cache K :=
  match document_keys document with
  | Ok m => (Ok tt, {| keys := m; cache_expires_at := now + cache_ttl |})
  | Err e => (Err (if raised_as ["HTTPError"; "ValueError"; "PyJWTError"]%string e then AuthenticationProviderUnavailable else e), c)
  end.
(** [resolve], when no other call holds the lock. *)
Definition resolve (now : Z) (document : result pyval) (kid alg : string) (c : jwks_cache K) : result K * jwks_cache K :=
  match (if now <? cache_expires_at c then keys c !! (kid, alg) else None) with
  | Some k => (Ok k, c)
  | None => match refresh now document c with
            | (Ok _, c') => (of_option (AuthenticationError TOKEN_INVALID) (keys c' !! (kid, alg)), c')
            | (Err e, c') => (Err e, c')
            end
  end.
End jwks.

(** ** Sessions *)
Record DevelopmentSession := { access_token : string; expires_in : Z; session_principal : AuthenticatedPrincipal }.
(** [encode] signs the claims; [uuid] is the new [jti]. *)
Definition session_claims (issuer audience : string) (now : Z) (p : AuthenticatedPrincipal) (r : Security.Role) : pydict :=
  [("iss", PStr issuer); ("aud", PStr audience); ("sub", PStr (Security.subject_id (who p))); ("name", PStr (display_name p));
   ("roles", PList [PStr (Security.role_value r)]); ("iat", PInt (now / micro)); ("nbf", PInt (now / micro)); ("exp", PInt (expires_at p / micro));
   ("jti", PStr (jti p))]%string.
Definition issue_identity (encode : pydict -> string) (issuer audience uuid : string) (ttl_seconds now : Z) (subject name : string) (r : Security.Role)
    : result DevelopmentSession :=
  p ← make_principal subject name [r] (Security.ROLE_PERMISSION_MATRIX r) DEVELOPMENT_JWT now (now + ttl_seconds * micro) uuid;
  Ok {| access_token := encode (session_claims issuer audience now p r); expires_in := ttl_seconds; session_principal := p |}.

(** Accounts: the rows of Records; a role no longer known fails the read. *)
Record DemoEmployee := { employee_id : string; employee_name : string; employee_role : Security.Role }.
Definition to_employee (row : string * Records.DemoEmployeeAccount) : result DemoEmployee :=
  r ← of_option (ValueError "is not a valid Role") (Security.role_of (Records.role row.2));
  Ok {| employee_id := row.1; employee_name := Records.display_name row.2; employee_role := r |}.
Definition list_active (rows : list (string * Records.DemoEmployeeAccount)) : result (list DemoEmployee) :=
  map_result to_employee (sorted_key fst (List.filter (fun r => Records.is_active r.2) rows)).
Definition get_active (rows : list (string * Records.DemoEmployeeAccount)) (i : string) : result (option DemoEmployee) :=
  match List.find (fun r => String.eqb r.1 i && Records.is_active r.2) rows with
  | None => Ok None
  | Some r => e ← to_employee r; Ok (Some e)
  end.
Definition DemoEmployeeNotFound : exn := Exn "DemoEmployeeNotFound" "".
(** [DemoEmployeeSessionService.issue]; [to_upper] is [str.upper]. *)
Definition issue_employee (to_upper : string -> string) (encode : pydict -> string) (issuer audience uuid : string) (ttl_seconds now : Z)
    (rows : list (string * Records.DemoEmployeeAccount)) (id : string) : result DevelopmentSession :=
  let normalized := to_upper (strip id) in
  e ← (if String.eqb normalized "" then Ok None else get_active rows normalized);
  match e with
  | None => Err DemoEmployeeNotFound
  | Some e => issue_identity encode issuer audience uuid ttl_seconds now (employee_id e) (employee_name e) (employee_role e)
  end.

(** ** Guarding a request *)
Record SecurityHttpError := { status : Z; code : string }.
Definition is_space (c : Ascii.ascii) : bool := Ascii.eqb c (Ascii.ascii_of_nat 32).
(** [s.partition(" ")]; [None] when there is no space. *)
Fixpoint partition_space (s : string) : option (string * string) :=
  match s with
  | EmptyString => None
  | String c s' => if is_space c then Some (EmptyString, s') else p ← partition_space s'; Some (String c p.1, p.2)
  end.
Definition has_space (s : string) : bool := existsb is_space (String.list_ascii_of_string s).
Definition bearer_token (authorization : string) : option string :=
  match partition_space authorization with
  | Some (scheme, token) =>
      let t := strip token in
      if negb (String.eqb (lower scheme) "bearer") || String.eqb t "" || has_space t then None else Some t
  | None => None
  end.
Definition get_current_principal (authenticate : string -> result AuthenticatedPrincipal) (authorization : option string) : result AuthenticatedPrincipal + SecurityHttpError :=
  match authorization with
  | None => inr {| status := 401; code := "AUTHENTICATION_REQUIRED" |}
  | Some a =>
      match bearer_token a with
      | None => inr {| status := 401; code := "TOKEN_INVALID" |}
      | Some t =>
          match authenticate t with
          | Ok p => inl (Ok p)
          | Err e => if raised_as ["AuthenticationError"]%string e then inr {| status := 401; code := exn_arg e |}
                     else if raised_as ["AuthenticationProviderUnavailable"]%string e then inr {| status := 503; code := "AUTHENTICATION_UNAVAILABLE" |}
                     else inl (Err e)
          end
      end
  end.

Definition HIGH_RISK_PERMISSIONS : list Security.Permission :=
  [Security.DISPATCH_CREATE; Security.MEMORY_MUTATE; Security.RUNTIME_OVERRIDE; Security.SYSTEM_ADMIN].
(** The security audit: its entries, and whether it can be written. *)
Record audit_trail := { trail : list (string * string * Security.Permission); writable : bool }.   (* subject, reason, permission *)
Definition record_entry (subject reason : string) (perm : Security.Permission) (t : audit_trail) : option audit_trail :=
  if writable t then Some {| trail := trail t ++ [(subject, reason, perm)]; writable := true |} else None.
(** [require_permission]; without a recorder the trail is [None]. *)
Definition require_permission (perm : Security.Permission) (p : AuthenticatedPrincipal) (t : option audit_trail)
    : option SecurityHttpError * option audit_trail :=
  let subject := Security.subject_id (who p) in
  if negb (can p perm) then
    (Some {| status := 403; code := "AUTHORIZATION_DENIED" |}, t ← t; Some (default t (record_entry subject "AUTHORIZATION_DENIED" perm t)))
  else if bool_decide (perm ∈ HIGH_RISK_PERMISSIONS) then
    match t with
    | None => (Some {| status := 503; code := "SECURITY_CONTROL_UNAVAILABLE" |}, t)
    | Some t => match record_entry subject "AUTHORIZATION_ALLOWED" perm t with
                | None => (Some {| status := 503; code := "SECURITY_CONTROL_UNAVAILABLE" |}, Some t)
                | Some t' => (None, Some t')
                end
    end
  else (None, t).

(** [logout]. *)
Definition logout (digest : string -> string) (namespace : string) (now : Z) (p : AuthenticatedPrincipal) : revocations -> option SecurityHttpError * revocations := fun s =>
  match revoke digest namespace now (jti p) (expires_at p) s with
  | (Ok _, s') => (None, s')
  | (Err _, s') => (Some {| status := 503; code := "AUTHENTICATION_UNAVAILABLE" |}, s')
  end.

(** ** Tickets *)
Definition ticket_char (c : Ascii.ascii) : bool :=
  let n := Ascii.nat_of_ascii c in
  ((48 <=? n) && (n <=? 57) || (65 <=? n) && (n <=? 90) || (97 <=? n) && (n <=? 122) || (n =? 95) || (n =? 45))%nat.
Definition TICKET_PATTERN (s : string) : bool := (String.length s =? 43)%nat && forallb ticket_char (String.list_ascii_of_string s).

Record IssuedWsTicket := { ticket : string; it_target_type : string; it_target_id : string; it_expires_at : Z }.
Record ConsumedWsTicket := {
  ct_subject_id : string; ct_target_type : string; ct_target_id : string; ct_required_permission : Security.Permission;
  ct_issued_at : Z; ct_expires_at : Z; can_review : bool;
}.
Definition WsTicketUnavailable : exn := Events.WsTicketUnavailable.
Definition WsTicketRejected (code : string) : exn := Events.WsTicketRejected code.

Definition permission_value (p : Security.Permission) : string :=
  match p with
  | Security.DISPATCH_READ => "dispatch:read" | Security.DISPATCH_CREATE => "dispatch:create" | Security.DISPATCH_REVIEW => "dispatch:review"
  | Security.ORDERS_READ => "orders:read" | Security.ANOMALIES_READ => "anomalies:read" | Security.ANOMALIES_REPORT => "anomalies:report"
  | Security.AGENTS_READ => "agents:read" | Security.MEMORY_READ => "memory:read" | Security.MEMORY_MUTATE => "memory:mutate"
  | Security.RUNTIME_READ => "runtime:read" | Security.RUNTIME_OVERRIDE => "runtime:override" | Security.AUDIT_READ => "audit:read"
  | Security.MONITOR_READ => "monitor:read" | Security.SYSTEM_ADMIN => "system:admin"
  end%string.
#[export] Instance Permission_enum : PyEnum Security.Permission := { members := Security.ALL_PERMISSIONS; value := permission_value }.
#[export] Instance Permission_enum_laws : PyEnumLaws Security.Permission.
Proof. intros []; reflexivity. Qed.

(** The Redis of the tickets: texts with their expiry. *)
Definition tickets : Type := gmap string (string * Z).
Inductive reply := Answered | LostBefore | LostAfter.

Section ticket_service.
Context (digest : string -> string) (namespace : string) (ttl_seconds : Z).
Context (dumps : pyval -> string) (loads : string -> option pyval) (iso : Z -> string) (from_iso : string -> option Z).

Definition ticket_key (t : string) : string := namespace +:+ ":" +:+ digest t.
Definition ticket_text (v : pyval) (name : string) (maximum : Z) : result string :=
  match v with
  | PStr s => if String.eqb (strip s) "" || (maximum <? py_len (strip s)) then Err (ValueError ("invalid WebSocket ticket " +:+ name)) else Ok (strip s)
  | _ => Err (ValueError ("invalid WebSocket ticket " +:+ name))
  end.
Definition ticket_payload (p : AuthenticatedPrincipal) (now : Z) (target_type target_id : string) (perm : Security.Permission) : pyval :=
  PDict [("can_review", PBool (can p Security.DISPATCH_REVIEW)); ("expires_at", PStr (iso (now + ttl_seconds * micro))); ("issued_at", PStr (iso now));
         ("required_permission", PStr (value perm)); ("subject_id", PStr (Security.subject_id (who p))); ("target_id", PStr target_id);
         ("target_type", PStr target_type)]%string.

Definition alive (now : Z) (m : tickets) (k : string) : option string :=
  match m !! k with Some (v, e) => if now <=? e then Some v else None | None => None end.
(** [SET key value EX ttl NX]. *)
Definition set_nx (now : Z) (k v : string) (r : reply) (m : tickets) : result bool * tickets :=
  let stored := match alive now m k with Some _ => (false, m) | None => (true, <[k := (v, now + ttl_seconds * micro)]> m) end in
  match r with
  | Answered => (Ok stored.1, stored.2)
  | LostBefore => (Err (Exn "RedisError" ""), m)
  | LostAfter => (Err (Exn "RedisError" ""), stored.2)
  end.
Definition getdel (now : Z) (k : string) (r : reply) (m : tickets) : result (option string) * tickets :=
  match r with
  | Answered => (Ok (alive now m k), delete k m)
  | LostBefore => (Err (Exn "RedisError" ""), m)
  | LostAfter => (Err (Exn "RedisError" ""), delete k m)
  end.

(** The three attempts, each with its random ticket. *)
Fixpoint attempts (now : Z) (v tt ti : string) (tries : list (string * reply)) (m : tickets) : result IssuedWsTicket * tickets :=
  match tries with
  | [] => (Err WsTicketUnavailable, m)
  | (t, r) :: rest =>
      match set_nx now (ticket_key t) v r m with
      | (Err _, m') => (Err WsTicketUnavailable, m')
      | (Ok true, m') => (Ok {| ticket := t; it_target_type := tt; it_target_id := ti; it_expires_at := now + ttl_seconds * micro |}, m')
      | (Ok false, m') => attempts now v tt ti rest m'
      end
  end.
Definition issue (now : Z) (p : AuthenticatedPrincipal) (target_type target_id : string) (perm : Security.Permission) (tries : list (string * reply)) (m : tickets)
    : result IssuedWsTicket * tickets :=
  if negb (can p perm) then (Err (WsTicketRejected "WS_TICKET_PERMISSION_DENIED"), m)
  else match (ty ← ticket_text (PStr target_type) "target_type" 32; ti ← ticket_text (PStr target_id) "target_id" 128; Ok (ty, ti)) with
       | Err e => (Err e, m)
       | Ok (ty, ti) => attempts now (dumps (ticket_payload p now ty ti perm)) ty ti (firstn 3 tries) m
       end.

Definition instant (v : pyval) : result Z := match v with PStr s => of_option (ValueError "Invalid isoformat string") (from_iso s) | _ => Err (Exn "TypeError" "fromisoformat: argument must be str") end.
Definition ticket_field (d : pydict) (k : string) : result pyval := of_option (Exn "KeyError" k) (dict_get d k).
Definition ticket_permission (v : pyval) : result Security.Permission :=
  match v with PStr s => of_option (ValueError "is not a valid Permission") (enum_of s) | _ => Err (ValueError "is not a valid Permission") end.
Definition decode_ticket (serialized : string) : result ConsumedWsTicket :=
  match loads serialized with
  | Some (PDict d) =>
      s ← ticket_field d "subject_id"; s ← ticket_text s "subject_id" 128;
      ty ← ticket_field d "target_type"; ty ← ticket_text ty "target_type" 32;
      ti ← ticket_field d "target_id"; ti ← ticket_text ti "target_id" 128;
      p ← ticket_field d "required_permission"; p ← ticket_permission p;
      i ← ticket_field d "issued_at"; i ← instant i;
      e ← ticket_field d "expires_at"; e ← instant e;
      match default (PBool false) (dict_get d "can_review") with
      | PBool b => Ok {| ct_subject_id := s; ct_target_type := ty; ct_target_id := ti; ct_required_permission := p; ct_issued_at := i; ct_expires_at := e; can_review := b |}
      | _ => Err (ValueError "invalid WebSocket ticket can_review")
      end
  | _ => Err (ValueError "invalid WebSocket ticket")
  end.
Definition consume (now : Z) (t target_type target_id : string) (perm : Security.Permission) (r : reply) (m : tickets) : result ConsumedWsTicket * tickets :=
  if negb (TICKET_PATTERN t) then (Err (WsTicketRejected "WS_TICKET_INVALID"), m)
  else match getdel now (ticket_key t) r m with
       | (Err _, m') => (Err WsTicketUnavailable, m')
       | (Ok None, m') => (Err (WsTicketRejected "WS_TICKET_REPLAYED_OR_EXPIRED"), m')
       | (Ok (Some s), m') =>
           (match decode_ticket s with
            | Err _ => Err (WsTicketRejected "WS_TICKET_INVALID")
            | Ok c =>
                if ct_expires_at c <=? now then Err (WsTicketRejected "WS_TICKET_REPLAYED_OR_EXPIRED")
                else if negb (String.eqb (ct_target_type c) target_type) || negb (String.eqb (ct_target_id c) target_id) then Err (WsTicketRejected "WS_TICKET_WRONG_SCOPE")
                else if negb (bool_decide (ct_required_permission c = perm)) then Err (WsTicketRejected "WS_TICKET_PERMISSION_DENIED")
                else Ok c
            end, m')
       end.

(** The opening of a task's WebSocket, at the ticket it presents. *)
Definition open_socket (now : Z) (t : option string) (task_id : string) (known : bool) (r : reply) (m : tickets) : (Events.ending + bool) * tickets :=
  match t with
  | None => (Events.admit_session None known, m)
  | Some t => let (c, m') := consume now t "task" task_id Security.DISPATCH_READ r m in (Events.admit_session (Some match c with Ok c => Ok (can_review c) | Err e => Err e end) known, m')
  end.
End ticket_service.

(** ** The route that issues tickets *)
Inductive task_access := Granted | Forbidden | NotFound.
(** [access]: what [require_read_access] and [status] of the task say. *)
Definition issue_ws_ticket (access : task_access) (issue : tickets -> result IssuedWsTicket * tickets) (now : Z) (m : tickets) : (IssuedWsTicket * Z + Z * string) * tickets :=
  match access with
  | Forbidden => (inr (403, "TASK_ACCESS_FORBIDDEN"%string), m)
  | NotFound => (inr (404, "TASK_NOT_FOUND"%string), m)
  | Granted =>
      match issue m with
      | (Ok i, m') => (inl (i, Z.max 1 (ceil_seconds (it_expires_at i - now))), m')
      | (Err e, m') => if String.eqb (exn_class e) "WsTicketRejected" then (inr (403, "AUTHORIZATION_DENIED"%string), m')
                       else if String.eqb (exn_class e) "WsTicketUnavailable" then (inr (503, "SECURITY_CONTROL_UNAVAILABLE"%string), m')
                       else (inr (500, "INTERNAL_ERROR"%string), m')
      end
  end.

(** ** Who is authenticated *)
Lemma as_authentication_error_ok {A} (r : result A) a : as_authentication_error r = Ok a -> r = Ok a.
Proof. unfold as_authentication_error. destruct r as [x|e]; [done|]. destruct (raised_as _ e); [done|]. destruct (raised_as _ e); [done|]. by destruct (raised_as _ e). Qed.

Lemma make_principal_ok s n rs ps m i e j p : make_principal s n rs ps m i e j = Ok p ->
  who p = {| Security.subject_id := strip s; Security.roles := rs; Security.permissions := ps |} /\ strip s <> ""%string /\ jti p = strip j /\ issued_at p = i /\ expires_at p = e /\ i < e /\ auth_method p = m.
Proof.
  assert (R : forall v name k x, required v name k = Ok x -> x = strip v /\ strip v <> ""%string).
  { intros v name k x. unfold required. destruct (String.eqb_spec (strip v) "") as [|S]; [done|]. destruct (_ <? _); [done|]. by intros [= <-]. }
  unfold make_principal. intros H. apply result_bind_ok in H as (s' & [-> S]%R & H). apply result_bind_ok in H as (n' & _ & H). apply result_bind_ok in H as (j' & [-> _]%R & H).
  destruct (Z.leb_spec e i); [done|]. by injection H as <-.
Qed.

Section authenticated.
Context (timestamp : pyval -> result Z) (py_str : pyval -> string).

(** What the claims of a principal say. *)
Record vouches (claims : pydict) (m : AuthMethod) (p : AuthenticatedPrincipal) : Prop := {
  v_roles : Security.roles (who p) <> [] /\ forall r, r ∈ Security.roles (who p) <-> exists l, get claims "roles" = PList l /\ PStr (Security.role_value r) ∈ l;
  v_permissions : forall perm, can p perm = true <-> exists r, r ∈ Security.roles (who p) /\ perm ∈ Security.ROLE_PERMISSION_MATRIX r;
  v_subject : exists s, dict_get claims "sub" = Some s /\ Security.subject_id (who p) = strip (text_of_claim py_str s) /\ Security.subject_id (who p) <> ""%string;
  v_expiry : exists e, dict_get claims "exp" = Some e /\ timestamp e = Ok (expires_at p) /\ issued_at p < expires_at p;
  v_method : auth_method p = m;
}.
Lemma principal_vouched claims m p : principal_of timestamp py_str claims m = Ok p -> vouches claims m p.
Proof.
  unfold principal_of. destruct (get claims "roles") as [| | | | | | |l|] eqn:R; try done.
  destruct (forallb _ l) eqn:F; [|done]. cbn [negb]. set (values := string_list (PList l)). destruct (omap Security.role_of values) as [|r0 rs0] eqn:O; [done|].
  intros H. unfold claim in H. apply result_bind_ok in H as (i & _ & H). apply result_bind_ok in H as (iat & _ & H).
  apply result_bind_ok in H as (e & Ee & H). apply result_bind_ok in H as (exp & Ex & H). apply result_bind_ok in H as (s & Es & H).
  apply result_bind_ok in H as (j & Ej & H). apply make_principal_ok in H as (W & S & J & I & X & L & M).
  assert (V : forall v, v ∈ values <-> PStr v ∈ l).
  { intros v. unfold values, string_list. cbn [sequence_items]. rewrite list_elem_of_omap. split; [intros (x & X1 & X2); destruct x; try done; by injection X2 as <-|].
    intros X1. by exists (PStr v). }
  assert (RO : forall r, r ∈ Security.roles (who p) <-> Security.role_value r ∈ values).
  { intros r. rewrite W. cbn [Security.roles]. rewrite <- O, list_elem_of_omap. split; [intros (v & V1 & V2%Security.role_of_some); by rewrite <- V2|].
    intros V1. exists (Security.role_value r). split; [done|apply Security.role_of_value]. }
  split.
  - split; [by rewrite W|]. intros r. rewrite RO, V, R. split; [intros X1; by exists l|]. intros (l' & E' & X1). by injection E' as <-.
  - intros perm. unfold can. rewrite Security.can_true, W. cbn [Security.permissions]. rewrite Security.permissions_for_roles_spec. split.
    + intros (r & X1 & X2). exists r. rewrite <- W, RO. done.
    + intros (r & X1 & X2). exists r. rewrite <- RO, W. done.
  - exists s. rewrite W. cbn [Security.subject_id]. split_and!; [|done|done]. unfold of_option in Es. destruct (dict_get claims "sub"); [by injection Es as <-|done].
  - exists e. rewrite X, I. split_and!; [|done|lia]. unfold of_option in Ee. destruct (dict_get claims "exp"); [by injection Ee as <-|done].
  - done.
Qed.
Lemma not_revoked_ok is_revoked_now p q : not_revoked is_revoked_now p = Ok q -> q = p /\ is_revoked_now (jti p) = Ok false.
Proof. unfold not_revoked. destruct (is_revoked_now (jti p)) as [[]|]; cbn; try done. by intros [= <-]. Qed.

(** C24: Whoever is authenticated by an OIDC token holds a token with an allowed
    algorithm and the signature of the key the key server names, not revoked,
    whose claims give the subject, the expiry and at least one known role; his
    permissions are exactly those of the roles. *)
Theorem oidc_principal_vouched {K} (is_revoked_now : string -> result bool) (algorithms : list string) (header_of : string -> result (pyval * pyval))
  (resolve : string -> string -> result K) (decode : string -> K -> result pydict) (token : string) (p : AuthenticatedPrincipal)
  (A : authenticate_oidc timestamp py_str is_revoked_now algorithms header_of resolve decode token = Ok p) :
  exists alg kid key claims, header_of token = Ok (PStr alg, PStr kid) /\ alg ∈ algorithms /\ resolve kid alg = Ok key /\ decode token key = Ok claims /\
    vouches claims OIDC_JWT p /\ is_revoked_now (jti p) = Ok false.
Proof.
  unfold authenticate_oidc in A. apply as_authentication_error_ok in A. unfold oidc_claims in A. apply result_bind_ok in A as ([a k] & Hh & A). cbn [fst snd] in A.
  destruct a as [| | | | |alg| | |]; try done. destruct k as [| | | | |kid| | |]; try done. destruct (one_of alg algorithms) eqn:O; [|done].
  destruct (String.eqb (strip kid) ""); [done|]. cbn [negb orb] in A. apply result_bind_ok in A as (key & R & A). apply result_bind_ok in A as (claims & D & A).
  apply result_bind_ok in A as (q & P & A). apply not_revoked_ok in A as [-> N]. exists alg, kid, key, claims. split_and!; try done; [by apply one_of_true|by apply principal_vouched].
Qed.
End authenticated.

(** ** Logging out *)
Lemma ceil_seconds_bounds us : us <= ceil_seconds us * micro < us + micro.
Proof. unfold ceil_seconds. pose proof (Z.div_mod (- us) micro) as D. pose proof (Z.mod_pos_bound (- us) micro eq_refl) as M. unfold micro in *. lia. Qed.

(** After a logout the token is refused until it expires, as long as Redis
    answers.  But the JWT library accepts a token for some seconds of leeway
    after its expiry, when the revocation is gone: from a second after the
    expiry, and at once when the logout comes after the expiry, the token of a
    session that was logged out authenticates again. *)
Theorem logout_ends_with_expiry (digest : string -> string) (namespace : string) (timestamp : pyval -> result Z) (py_str : pyval -> string)
  (decode : Z -> string -> result pydict) (leeway : Z) (token : string) (claims : pydict) (p : AuthenticatedPrincipal) (s s' : revocations) (now later : Z)
  (LEEWAY : forall t, t < expires_at p + leeway -> decode t token = Ok claims) (P : principal_of timestamp py_str claims DEVELOPMENT_JWT = Ok p)
  (UP : answers s = true) (NEW : revoked s !! revocation_key digest namespace (jti p) = None) (L : now <= later < expires_at p + leeway)
  (OUT : logout digest namespace now p s = (None, s')) :
  let again := authenticate_development timestamp py_str (is_revoked digest namespace later s') (decode later) token in
  (now < expires_at p -> later <= expires_at p -> again = Err (AuthenticationError TOKEN_REVOKED)) /\
  (expires_at p + micro <= later \/ expires_at p <= now -> again = Ok p).
Proof.
  intros again. unfold again, authenticate_development. rewrite (LEEWAY later) by lia. cbn [result_bind mbind]. rewrite P. cbn [result_bind mbind].
  unfold logout, revoke in OUT. pose proof (ceil_seconds_bounds (expires_at p - now)) as C. destruct (Z.leb_spec (ceil_seconds (expires_at p - now)) 0) as [Z0|Z0].
  - injection OUT as <-. unfold not_revoked, is_revoked. rewrite UP. cbn [negb]. rewrite NEW. split; [|done]. intros N _. unfold micro in *. lia.
  - rewrite UP in OUT. cbn [negb] in OUT. injection OUT as <-. unfold not_revoked, is_revoked. cbn [answers revoked negb]. rewrite lookup_insert_eq.
    destruct (Z.leb_spec later (now + ceil_seconds (expires_at p - now) * micro)) as [X|X]; (split; [|]); [done| |intros; lia|done]. intros [N|N]; unfold micro in *; lia.
Qed.

(** ** The keys of the key server *)
Record lookup_call := { call_at : Z; call_document : result pyval; call_kid : string; call_alg : string }.
Section jwks_facts.
Context {K : Type} (key_of : pydict -> string -> result K) (ttl : Z).
Fixpoint resolves (calls : list lookup_call) (c : jwks_cache K) : list (lookup_call * result K) :=
  match calls with
  | [] => []
  | x :: rest => let (r, c') := resolve key_of ttl (call_at x) (call_document x) (call_kid x) (call_alg x) c in (x, r) :: resolves rest c'
  end.
(** A document that names a key. *)
Definition names_key (document : result pyval) (kid alg : string) (k : K) : Prop :=
  exists d l m, document = Ok (PDict d) /\ get d "keys" = PList l /\ keys_of key_of l ∅ = Ok m /\ m !! (kid, alg) = Some k.
Definition cached_from (fetched : list lookup_call) (c : jwks_cache K) : Prop :=
  forall kid alg k, keys c !! (kid, alg) = Some k -> exists f, f ∈ fetched /\ cache_expires_at c = call_at f + ttl /\ names_key (call_document f) kid alg k.

Lemma refresh_cached now doc c f r c' : refresh key_of ttl now doc c = (r, c') -> call_at f = now -> call_document f = doc ->
  (exists e, r = Err e /\ c' = c) \/ (r = Ok tt /\ cached_from [f] c').
Proof.
  unfold refresh. intros H A D. destruct (document_keys key_of doc) as [m|e] eqn:E.
  - injection H as <- <-. right. split; [done|]. intros kid alg k L. exists f. split_and!; [by left|cbn; lia|].
    apply result_bind_ok in E as (v & V & E). destruct v as [| | | | | | | |d]; try done. destruct (get d "keys") as [| | | | | | |l|] eqn:G; try done.
    exists d, l, m. rewrite D. done.
  - left. injection H as <- <-. by eexists.
Qed.

(** A key is only ever answered from a document that names it for that
    algorithm, fetched at this call or less than the cache's lifetime before:
    a failing fetch neither extends nor empties the cache, and a key that was
    withdrawn is not served beyond it. *)
Theorem resolved_key_fresh (calls : list lookup_call) (x : lookup_call) (k : K)
  (R : (x, Ok k) ∈ resolves calls {| keys := ∅; cache_expires_at := 0 |}) :
  exists f, f ∈ calls /\ names_key (call_document f) (call_kid x) (call_alg x) k /\ (f = x \/ call_at x < call_at f + ttl).
Proof.
  enough (G : forall calls fetched c, cached_from fetched c -> (x, Ok k) ∈ resolves calls c ->
    exists f, f ∈ fetched ++ calls /\ names_key (call_document f) (call_kid x) (call_alg x) k /\ (f = x \/ call_at x < call_at f + ttl)).
  { apply (G calls [] {| keys := ∅; cache_expires_at := 0 |}); [|done]. intros kid alg k' L. cbn in L. by rewrite lookup_empty in L. }
  clear R calls. induction calls as [|y rest IH]; intros fetched c C R; [by apply elem_of_nil in R|]. cbn [resolves] in R.
  assert (MONO : forall c', cached_from fetched c' -> cached_from (fetched ++ [y]) c').
  { intros c' H kid alg k' L. destruct (H _ _ _ L) as (f & F & T). exists f. split; [|done]. apply elem_of_app. by left. }
  destruct (resolve key_of ttl _ _ _ _ c) as [r c'] eqn:E. apply elem_of_cons in R as [[= -> <-]|R].
  - unfold resolve in E. destruct (if call_at y <? cache_expires_at c then keys c !! (call_kid y, call_alg y) else None) as [k'|] eqn:H in E.
    + injection E as -> _. destruct (Z.ltb_spec (call_at y) (cache_expires_at c)) as [T|]; [|done]. destruct (C _ _ _ H) as (f & F & X & N).
      exists f. split_and!; [apply elem_of_app; by left|done|right; lia].
    + destruct (refresh key_of ttl _ _ c) as [r0 c0] eqn:F. destruct (refresh_cached _ _ _ y _ _ F eq_refl eq_refl) as [(e & -> & ->)|[-> X]]; [done|].
      injection E as E _. unfold of_option in E. destruct (keys c0 !! _) as [k'|] eqn:L; [|done]. injection E as ->.
      destruct (X _ _ _ L) as (f & ->%list_elem_of_singleton & _ & N). exists y. split_and!; [apply elem_of_app; right; by left|done|by left].
  - assert (C' : cached_from (fetched ++ [y]) c').
    { unfold resolve in E. destruct (if call_at y <? cache_expires_at c then keys c !! (call_kid y, call_alg y) else None); [injection E as _ <-; by apply MONO|].
      destruct (refresh key_of ttl _ _ c) as [r0 c0] eqn:F. destruct (refresh_cached _ _ _ y _ _ F eq_refl eq_refl) as [(e & -> & ->)|[-> X]]; injection E as _ <-; [by apply MONO|].
      intros kid alg k' L. destruct (X _ _ _ L) as (f & ->%list_elem_of_singleton & T). exists y. split; [|done]. apply elem_of_app. right. by left. }
    destruct (IH _ _ C' R) as (f & F & T). exists f. split; [|done]. by rewrite <- app_assoc in F.
Qed.
End jwks_facts.

(** ** Risky permissions *)

(** Whoever gets past the guard of a route holds its permission; for a
    risky one the security audit has a new entry that names him, so that none
    is exercised unrecorded, and without a working audit nobody passes. *)
Theorem risky_permission_recorded (authenticate : string -> result AuthenticatedPrincipal) (authorization : option string) (perm : Security.Permission)
  (p : AuthenticatedPrincipal) (t t' : option audit_trail)
  (A : get_current_principal authenticate authorization = inl (Ok p)) (G : require_permission perm p t = (None, t')) :
  (exists a token, authorization = Some a /\ bearer_token a = Some token /\ authenticate token = Ok p) /\ can p perm = true /\
  (perm ∈ HIGH_RISK_PERMISSIONS -> exists l, t = Some {| trail := l; writable := true |} /\
     t' = Some {| trail := l ++ [(Security.subject_id (who p), "AUTHORIZATION_ALLOWED"%string, perm)]; writable := true |}).
Proof.
  split; [|unfold require_permission in G; destruct (can p perm) eqn:C; [|done]; split; [done|]].
  - unfold get_current_principal in A. destruct authorization as [a|]; [|done]. destruct (bearer_token a) as [token|] eqn:B; [|done].
    exists a, token. split_and!; [done|done|]. destruct (authenticate token) as [q|e]; [by injection A as ->|].
    destruct (raised_as _ e); [done|]. by destruct (raised_as _ e).
  - intros R. cbn [negb] in G. rewrite (bool_decide_eq_true_2 _ R) in G. destruct t as [[l w]|]; [|done]. unfold record_entry in G. cbn [writable trail] in G.
    destruct w; [|done]. injection G as <-. by exists l.
Qed.

(** ** Tickets admit once *)
Section ticket_facts.
Context (digest : string -> string) (namespace : string) (ttl_seconds : Z).
Context (dumps : pyval -> string) (loads : string -> option pyval) (iso : Z -> string) (from_iso : string -> option Z).
Abbreviation tkey := (ticket_key digest namespace).
Abbreviation payload := (ticket_payload ttl_seconds iso).
Hypothesis iso_round_trip : forall t, from_iso (iso t) = Some t.

Inductive ticket_op :=
| IssueOp (p : AuthenticatedPrincipal) (target_type target_id : string) (perm : Security.Permission) (tries : list (string * reply))
| ConsumeOp (t target_type target_id : string) (perm : Security.Permission) (r : reply)
| Elapse (us : nat).
Definition ticket_step (o : ticket_op) (s : Z * tickets) : Z * tickets :=
  match o with
  | IssueOp p ty ti perm tries => (s.1, (issue digest namespace ttl_seconds dumps iso s.1 p ty ti perm tries s.2).2)
  | ConsumeOp t ty ti perm r => (s.1, (consume digest namespace loads from_iso s.1 t ty ti perm r s.2).2)
  | Elapse us => (s.1 + Z.of_nat us, s.2)
  end.
Definition ticket_run (ops : list ticket_op) (s : Z * tickets) : Z * tickets := fold_left (fun s o => ticket_step o s) ops s.
(** No attempt of an issue writes the key. *)
Definition leaves_alone (k : string) (o : ticket_op) : Prop := match o with IssueOp _ _ _ _ tries => forall t r, (t, r) ∈ tries -> tkey t <> k | _ => True end.

Lemma attempts_lookup now v ty ti tries : forall m k x, (attempts digest namespace ttl_seconds now v ty ti tries m).2 !! k = Some x ->
  m !! k = Some x \/ x = (v, now + ttl_seconds * micro) /\ exists t r, (t, r) ∈ tries /\ tkey t = k.
Proof.
  induction tries as [|[t r] tries IH]; intros m k x L; [by left|]. cbn [attempts] in L.
  assert (S : (set_nx ttl_seconds now (tkey t) v r m).2 !! k = Some x -> m !! k = Some x \/ x = (v, now + ttl_seconds * micro) /\ tkey t = k).
  { unfold set_nx. destruct (alive now m (tkey t)), r; cbn [fst snd]; try (by left).
    - intros [[-> <-]|[_ ?]]%lookup_insert_Some; auto.
    - intros [[-> <-]|[_ ?]]%lookup_insert_Some; auto. }
  assert (W : m !! k = Some x \/ x = (v, now + ttl_seconds * micro) /\ tkey t = k -> m !! k = Some x \/ x = (v, now + ttl_seconds * micro) /\ exists t' r', (t', r') ∈ (t, r) :: tries /\ tkey t' = k).
  { intros [?|[? ?]]; [by left|right]. split; [done|]. exists t, r. split; [by left|done]. }
  destruct (set_nx ttl_seconds now (tkey t) v r m) as [[[]|e] m'] eqn:E; cbn [fst snd] in *; [by apply W, S| |by apply W, S].
  apply IH in L as [L|(-> & t' & r' & I & K)]; [by apply W, S|]. right. split; [done|]. exists t', r'. split; [by right|done].
Qed.
Lemma consume_lookup now t ty ti perm r m k x : (consume digest namespace loads from_iso now t ty ti perm r m).2 !! k = Some x -> m !! k = Some x.
Proof.
  unfold consume. destruct (negb (TICKET_PATTERN t)); [done|].
  assert (G : (getdel now (tkey t) r m).2 !! k = Some x -> m !! k = Some x) by (unfold getdel; destruct r; cbn [snd]; try done; by intros [_ ?]%lookup_delete_Some).
  destruct (getdel now (tkey t) r m) as [[[s|]|e] m']; exact G.
Qed.

(** A stored ticket was written by an issue to somebody who may hold it. *)
Definition granted (ops : list ticket_op) (now : Z) (k : string) (x : string * Z) : Prop :=
  exists p ty ti perm tries at_, IssueOp p ty ti perm tries ∈ ops /\ can p perm = true /\ at_ <= now /\
    x = (dumps (payload p at_ (strip ty) (strip ti) perm), at_ + ttl_seconds * micro) /\ exists t r, (t, r) ∈ tries /\ tkey t = k.
Lemma issue_lookup now p ty ti perm tries m k x : (issue digest namespace ttl_seconds dumps iso now p ty ti perm tries m).2 !! k = Some x ->
  m !! k = Some x \/ can p perm = true /\ x = (dumps (payload p now (strip ty) (strip ti) perm), now + ttl_seconds * micro) /\ exists t r, (t, r) ∈ tries /\ tkey t = k.
Proof.
  unfold issue. destruct (can p perm) eqn:C; [|by left]. cbn [negb].
  assert (T : forall s n z y, ticket_text (PStr s) n z = Ok y -> y = strip s) by (intros s n z y; unfold ticket_text; destruct (_ || _); [done|by intros [= <-]]).
  destruct (ticket_text (PStr ty) "target_type" 32) as [ty'|e] eqn:E1; [|by left]. apply T in E1 as ->. cbn [mbind result_bind].
  destruct (ticket_text (PStr ti) "target_id" 128) as [ti'|e] eqn:E2; [|by left]. apply T in E2 as ->. cbn [mbind result_bind].
  intros [L|(-> & t & r & I & K)]%attempts_lookup; [by left|]. right. split_and!; [done|done|]. exists t, r. split; [|done]. by apply (subseteq_take 3) in I.
Qed.
Lemma run_granted ops : forall s log, (forall k x, s.2 !! k = Some x -> granted log s.1 k x) ->
  let s' := ticket_run ops s in s.1 <= s'.1 /\ forall k x, s'.2 !! k = Some x -> granted (log ++ ops) s'.1 k x.
Proof.
  induction ops as [|o ops IH]; intros s log G; [split; [cbn; lia|]; by rewrite app_nil_r|]. cbn [ticket_run fold_left]. fold (ticket_run ops (ticket_step o s)).
  assert (N : s.1 <= (ticket_step o s).1) by (destruct o; cbn; lia).
  destruct (IH (ticket_step o s) (log ++ [o])) as [N' G'].
  - intros k x L. assert (OLD : s.2 !! k = Some x -> granted (log ++ [o]) (ticket_step o s).1 k x).
    { intros L'. destruct (G k x L') as (p & ty & ti & perm & tries & a & I & C & A & X & T). exists p, ty, ti, perm, tries, a. split_and!; try done; try (apply elem_of_app; by left); lia. }
    destruct o as [p ty ti perm tries|t ty ti perm r|us]; cbn [ticket_step snd] in L; [|apply consume_lookup in L|]; try (by apply OLD).
    apply issue_lookup in L as [L|(C & X & T)]; [by apply OLD|]. exists p, ty, ti, perm, tries, s.1. split_and!; try done; try (apply elem_of_app; right; by left); cbn; lia.
  - rewrite <- app_assoc in G'. split; [cbn in *; lia|exact G'].
Qed.
Lemma run_leaves_alone k ops : forall s, List.Forall (leaves_alone k) ops -> s.2 !! k = None -> (ticket_run ops s).2 !! k = None.
Proof.
  induction ops as [|o ops IH]; intros s F N; [done|]. inversion F as [|? ? H F']; subst. cbn [ticket_run fold_left]. apply IH; [done|].
  destruct ((ticket_step o s).2 !! k) as [x|] eqn:L; [|done]. destruct o as [p ty ti perm tries|t ty ti perm r|us]; cbn [ticket_step snd] in L.
  - apply issue_lookup in L as [L|(_ & _ & t & r & I & K)]; [congruence|]. by destruct (H t r I).
  - apply consume_lookup in L. congruence.
  - congruence.
Qed.
Lemma consume_ok now t ty ti perm r m c m' : consume digest namespace loads from_iso now t ty ti perm r m = (Ok c, m') ->
  exists s e, m !! tkey t = Some (s, e) /\ now <= e /\ m' = delete (tkey t) m /\ decode_ticket loads from_iso s = Ok c /\ now < ct_expires_at c /\
    ct_target_type c = ty /\ ct_target_id c = ti /\ ct_required_permission c = perm.
Proof.
  unfold consume. destruct (negb (TICKET_PATTERN t)); [done|]. unfold getdel. destruct r; [|done|done]. unfold alive.
  destruct (m !! tkey t) as [[s e]|] eqn:L; [|done]. destruct (Z.leb_spec now e) as [A|A]; [|done].
  destruct (decode_ticket loads from_iso s) as [c'|] eqn:D; [|done]. destruct (Z.leb_spec (ct_expires_at c') now) as [X|X]; [done|].
  destruct (String.eqb_spec (ct_target_type c') ty) as [T|]; [|done]. destruct (String.eqb_spec (ct_target_id c') ti) as [I|]; [|done]. cbn [negb orb].
  case_bool_decide as P; [|done]. cbn [negb]. intros [= <- <-]. by exists s, e.
Qed.
Lemma decode_payload p at_ ty ti perm c : loads (dumps (payload p at_ (strip ty) (strip ti) perm)) = Some (payload p at_ (strip ty) (strip ti) perm) ->
  decode_ticket loads from_iso (dumps (payload p at_ (strip ty) (strip ti) perm)) = Ok c ->
  c = {| ct_subject_id := strip (Security.subject_id (who p)); ct_target_type := strip ty; ct_target_id := strip ti; ct_required_permission := perm;
         ct_issued_at := at_; ct_expires_at := at_ + ttl_seconds * micro; can_review := can p Security.DISPATCH_REVIEW |}.
Proof.
  assert (T : forall s n z y, ticket_text (PStr s) n z = Ok y -> y = strip s) by (intros s n z y; unfold ticket_text; destruct (_ || _); [done|by intros [= <-]]).
  intros json_round_trip. unfold decode_ticket. rewrite json_round_trip. unfold ticket_payload, ticket_field. cbn -[ticket_text strip ticket_permission instant].
  intros H. apply result_bind_ok in H as (s & S & H). apply T in S as ->.
  apply result_bind_ok in H as (s & S & H). apply T in S as ->. rewrite strip_idempotent in H.
  apply result_bind_ok in H as (s & S & H). apply T in S as ->. rewrite strip_idempotent in H.
  apply result_bind_ok in H as (q & Q & H).
  unfold ticket_permission in Q. pose proof (enum_of_value perm) as V. cbn [value Permission_enum] in V. rewrite V in Q. injection Q as <-.
  apply result_bind_ok in H as (i & I & H). unfold instant in I. rewrite iso_round_trip in I. injection I as <-.
  apply result_bind_ok in H as (x & X & H). unfold instant in X. rewrite iso_round_trip in X. injection X as <-.
  by injection H as <-.
Qed.

(** A consumed ticket was issued, no longer ago than its lifetime, for this
    very target and permission, to somebody who holds the permission; it tells
    whether he may review.  It is consumed once: as long as chance does not
    issue it again, no later attempt to consume it succeeds, whoever makes it
    and for whatever target. *)
Theorem ticket_admits_once (ops : list ticket_op) (t target_type target_id : string) (perm : Security.Permission) (r : reply) (c : ConsumedWsTicket) (m' : tickets)
  (JSON : forall p ty ti perm tries at_, IssueOp p ty ti perm tries ∈ ops ->
     loads (dumps (payload p at_ (strip ty) (strip ti) perm)) = Some (payload p at_ (strip ty) (strip ti) perm)) :
  let s := ticket_run ops (0, ∅) in
  consume digest namespace loads from_iso s.1 t target_type target_id perm r s.2 = (Ok c, m') ->
  (exists p ty ti tries t', IssueOp p ty ti perm tries ∈ ops /\ can p perm = true /\ strip ty = target_type /\ strip ti = target_id /\
     ct_subject_id c = strip (Security.subject_id (who p)) /\ can_review c = can p Security.DISPATCH_REVIEW /\
     s.1 < ct_expires_at c <= s.1 + ttl_seconds * micro /\ t' ∈ map fst tries /\ tkey t' = tkey t) /\
  (forall more ty ti perm' r', List.Forall (leaves_alone (tkey t)) more ->
     exists e, (consume digest namespace loads from_iso (ticket_run more (s.1, m')).1 t ty ti perm' r' (ticket_run more (s.1, m')).2).1 = Err e).
Proof.
  intros s H. apply consume_ok in H as (v & e & L & A & -> & D & X & T & I & P). split.
  - destruct (run_granted ops (0, ∅) []) as [_ G]; [intros k x K; exfalso; exact (lookup_empty_Some _ _ K)|]. cbn [app] in G. fold s in G.
    destruct (G _ _ L) as (p & ty & ti & perm0 & tries & a & O & C & AT & V & t' & r' & Q & K). injection V as -> ->. apply decode_payload in D as ->; [|by apply (JSON _ _ _ _ tries)]. cbn in *. subst perm0.
    exists p, ty, ti, tries, t'. split_and!; try done; [lia|]. apply list_elem_of_In, in_map_iff. exists (t', r'). split; [done|by apply list_elem_of_In].
  - intros more ty ti perm' r' F. set (s2 := ticket_run more _). assert (N : s2.2 !! tkey t = None) by (apply run_leaves_alone; [done|exact (lookup_delete_eq s.2 (tkey t))]).
    destruct (consume digest namespace loads from_iso s2.1 t ty ti perm' r' s2.2) as [[c'|x] m2] eqn:E; [|by exists x].
    apply consume_ok in E as (v' & e' & L' & _). congruence.
Qed.
End ticket_facts.

(** *** Examples *)
Definition ex_principal : AuthenticatedPrincipal :=
  {| who := {| Security.subject_id := "EMP-1"; Security.roles := [Security.EMPLOYEE]; Security.permissions := Security.ROLE_PERMISSION_MATRIX Security.EMPLOYEE |};
     display_name := "One"; auth_method := DEVELOPMENT_JWT; issued_at := 0; expires_at := 3600 * micro; jti := "j1" |}.
Fixpoint tally (n : nat) : string := match n with O => ""%string | S n => "a" +:+ tally n end.
(** Instants as binary digits. *)
Fixpoint digits (p : positive) : string := match p with xH => "e" | xO p => "0" +:+ digits p | xI p => "1" +:+ digits p end%string.
Fixpoint of_digits (s : string) : option positive :=
  match s with
  | EmptyString => None
  | String c s' => if Ascii.eqb c (Ascii.ascii_of_nat 101) then Some xH
                   else p ← of_digits s'; Some (if Ascii.eqb c (Ascii.ascii_of_nat 48) then xO p else xI p)
  end.
Lemma of_digits_digits p : of_digits (digits p) = Some p.
Proof.
  induction p as [p IH|p IH|]; [| |reflexivity].
  - change (digits (xI p)) with (String (Ascii.ascii_of_nat 49) (digits p)). cbn -[digits]. by rewrite IH.
  - change (digits (xO p)) with (String (Ascii.ascii_of_nat 48) (digits p)). cbn -[digits]. by rewrite IH.
Qed.
Definition ex_iso (t : Z) : string := match t with Z0 => "z" | Zpos p => "+" +:+ digits p | Zneg p => "-" +:+ digits p end%string.
Definition ex_from_iso (s : string) : option Z :=
  match s with
  | EmptyString => None
  | String c s' => if Ascii.eqb c (Ascii.ascii_of_nat 122) then Some 0 else p ← of_digits s'; Some (if Ascii.eqb c (Ascii.ascii_of_nat 43) then Zpos p else Zneg p)
  end.
Lemma ex_iso_round_trip t : ex_from_iso (ex_iso t) = Some t.
Proof.
  destruct t as [|p|p]; [reflexivity| |].
  - change (ex_iso (Zpos p)) with (String (Ascii.ascii_of_nat 43) (digits p)). cbn -[digits]. by rewrite of_digits_digits.
  - change (ex_iso (Zneg p)) with (String (Ascii.ascii_of_nat 45) (digits p)). cbn -[digits]. by rewrite of_digits_digits.
Qed.

Definition ex_dumps (v : pyval) : string := match v with PDict d => match get d "issued_at" with PStr s => s | _ => "" end | _ => "" end.
Definition ex_loads (s : string) : option pyval :=
  t ← ex_from_iso s; Some (ticket_payload 45 ex_iso ex_principal t (strip "task") (strip "TASK-1") Security.DISPATCH_READ).
Definition ex_ticket : string := tally 43.
Definition ex_ops : list ticket_op := [IssueOp ex_principal "task" "TASK-1" Security.DISPATCH_READ [(ex_ticket, Answered)]; Elapse 100].
Lemma ticket_admits_once_witness :
  let s := ticket_run (fun x => x) "ns" 45 ex_dumps ex_loads ex_iso ex_from_iso ex_ops (0, ∅) in
  exists c m', consume (fun x => x) "ns" ex_loads ex_from_iso s.1 ex_ticket "task" "TASK-1" Security.DISPATCH_READ Answered s.2 = (Ok c, m') /\
    can_review c = false /\
    exists e, (consume (fun x => x) "ns" ex_loads ex_from_iso s.1 ex_ticket "task" "TASK-1" Security.DISPATCH_READ Answered m').1 = Err e.
Proof.
  intros s. destruct (consume (fun x => x) "ns" ex_loads ex_from_iso s.1 ex_ticket "task" "TASK-1" Security.DISPATCH_READ Answered s.2) as [[c|e] m'] eqn:E.
  2:{ vm_compute in E. discriminate E. }
  assert (J : forall p ty ti perm tries at_, IssueOp p ty ti perm tries ∈ ex_ops ->
    ex_loads (ex_dumps (ticket_payload 45 ex_iso p at_ (strip ty) (strip ti) perm)) = Some (ticket_payload 45 ex_iso p at_ (strip ty) (strip ti) perm)).
  { intros p ty ti perm tries a I. unfold ex_ops in I. apply elem_of_cons in I as [I|I%list_elem_of_singleton]; [|discriminate I]. injection I as -> -> -> -> ->.
    unfold ex_loads. change (ex_dumps (ticket_payload 45 ex_iso ex_principal a (strip "task") (strip "TASK-1") Security.DISPATCH_READ)) with (ex_iso a).
    rewrite ex_iso_round_trip. reflexivity. }
  pose proof (ticket_admits_once (fun x => x) "ns" 45 ex_dumps ex_loads ex_iso ex_from_iso ex_iso_round_trip ex_ops ex_ticket "task" "TASK-1" Security.DISPATCH_READ Answered c m' J E) as [W O].
  exists c, m'. split; [reflexivity|]. split; [vm_compute in E; injection E as <- <-; reflexivity|].
  exact (O [] "task"%string "TASK-1"%string Security.DISPATCH_READ Answered (List.Forall_nil _)).
Defined.

(** A session that was logged out at half its life and is used ten seconds after its end. *)
Definition ex_claims : pydict :=
  [("roles", PList [PStr "EMPLOYEE"]); ("sub", PStr "EMP-1"); ("iat", PInt 0); ("exp", PInt 3600); ("jti", PStr "j1")]%string.
Definition ex_timestamp (v : pyval) : result Z := match v with PInt n => Ok (n * micro) | _ => Err (Exn "TypeError" "") end.
Definition ex_decode (now : Z) (token : string) : result pydict := if now <? 3630 * micro then Ok ex_claims else Err (Exn "ExpiredSignatureError" "").
Lemma logout_ends_with_expiry_witness : exists p s',
  logout (fun x => x) "ns" (1800 * micro) p {| revoked := ∅; answers := true |} = (None, s') /\
  authenticate_development ex_timestamp (fun _ => ""%string) (is_revoked (fun x => x) "ns" (3600 * micro) s') (ex_decode (3600 * micro)) "token" = Err (AuthenticationError TOKEN_REVOKED) /\
  authenticate_development ex_timestamp (fun _ => ""%string) (is_revoked (fun x => x) "ns" (3610 * micro) s') (ex_decode (3610 * micro)) "token" = Ok p.
Proof.
  destruct (principal_of ex_timestamp (fun _ => ""%string) ex_claims DEVELOPMENT_JWT) as [p|e] eqn:P; [|vm_compute in P; discriminate P].
  assert (X : expires_at p = 3600 * micro) by (vm_compute in P; injection P as <-; reflexivity).
  destruct (logout (fun x => x) "ns" (1800 * micro) p {| revoked := ∅; answers := true |}) as [o s'] eqn:O.
  assert (o = None) as -> by (unfold logout, revoke in O; rewrite X in O; vm_compute in O; injection O as <- _; reflexivity).
  assert (L : forall t, t < expires_at p + 30 * micro -> ex_decode t "token" = Ok ex_claims).
  { intros t T. rewrite X in T. unfold ex_decode. destruct (Z.ltb_spec t (3630 * micro)); [reflexivity|unfold micro in *; lia]. }
  assert (N : revoked {| revoked := ∅; answers := true |} !! revocation_key (fun x => x) "ns" (jti p) = None) by apply lookup_empty.
  exists p, s'. split; [exact O|split].
  - apply (logout_ends_with_expiry (fun x => x) "ns" ex_timestamp (fun _ => ""%string) ex_decode (30 * micro) "token" ex_claims p {| revoked := ∅; answers := true |} s' (1800 * micro) (3600 * micro) L P eq_refl N);
      rewrite ?X; [unfold micro; lia|exact O|unfold micro; lia|lia].
  - apply (logout_ends_with_expiry (fun x => x) "ns" ex_timestamp (fun _ => ""%string) ex_decode (30 * micro) "token" ex_claims p {| revoked := ∅; answers := true |} s' (1800 * micro) (3610 * micro) L P eq_refl N);
      rewrite ?X; [unfold micro; lia|exact O|left; unfold micro; lia].
Defined.

Lemma oidc_principal_vouched_witness : exists p,
  authenticate_oidc ex_timestamp (fun _ => ""%string) (fun _ => Ok false) ["RS256"%string] (fun _ => Ok (PStr "RS256", PStr "k1")) (fun kid _ => Ok kid) (fun _ _ => Ok ex_claims) "token" = Ok p /\
  vouches ex_timestamp (fun _ => ""%string) ex_claims OIDC_JWT p.
Proof.
  destruct (authenticate_oidc ex_timestamp (fun _ => ""%string) (fun _ => Ok false) ["RS256"%string] (fun _ => Ok (PStr "RS256", PStr "k1")) (fun kid _ => Ok kid) (fun _ _ => Ok ex_claims) "token")
    as [p|e] eqn:E; [|vm_compute in E; discriminate E].
  destruct (oidc_principal_vouched _ _ _ _ _ _ _ _ _ E) as (alg & kid & key & claims & _ & _ & _ & C & V & _). injection C as <-. exists p. split; [reflexivity|exact V].
Defined.
Definition ex_call (t : Z) (document : result pyval) : lookup_call := {| call_at := t; call_document := document; call_kid := "k1"; call_alg := "RS256" |}.
Definition ex_document : result pyval := Ok (PDict [("keys", PList [PDict [("kid", PStr "k1"); ("alg", PStr "RS256")]])]%string).
Lemma resolved_key_fresh_witness :
  exists f, f ∈ [ex_call 0 ex_document; ex_call 200 (Err (Exn "HTTPError" ""))] /\ names_key (fun _ _ => Ok 7) (call_document f) "k1" "RS256" 7 /\
    (f = ex_call 200 (Err (Exn "HTTPError" "")) \/ 200 < call_at f + 300).
Proof. apply (resolved_key_fresh (fun _ _ => Ok 7) 300 [ex_call 0 ex_document; ex_call 200 (Err (Exn "HTTPError" ""))] (ex_call 200 (Err (Exn "HTTPError" ""))) 7). vm_compute. right. left. Defined.
Lemma risky_permission_recorded_witness :
  let p := {| who := {| Security.subject_id := "S"; Security.roles := [Security.SUPERVISOR]; Security.permissions := [Security.RUNTIME_OVERRIDE] |};
              display_name := "S"; auth_method := OIDC_JWT; issued_at := 0; expires_at := 1; jti := "j" |} in
  exists l, Some {| trail := []; writable := true |} = Some {| trail := l; writable := true |} /\
    (require_permission Security.RUNTIME_OVERRIDE p (Some {| trail := []; writable := true |})).2
    = Some {| trail := l ++ [("S", "AUTHORIZATION_ALLOWED", Security.RUNTIME_OVERRIDE)]%string; writable := true |}.
Proof.
  intros p. pose proof (risky_permission_recorded (fun _ => Ok p) (Some "Bearer abc"%string) Security.RUNTIME_OVERRIDE p (Some {| trail := []; writable := true |})
    (require_permission Security.RUNTIME_OVERRIDE p (Some {| trail := []; writable := true |})).2 eq_refl eq_refl) as (_ & _ & R).
  apply R. right. right. left.
Defined.
