(* ===== verification/Submission.v ===== *)
(** * Submission: a dispatch task enters the system

    Models the write side of [app/services/dispatch_task_api_service.py]
    ([submit] and what it calls) and the route [create_dispatch_task] of
    [app/api/v1/dispatch_tasks.py], over the ledger of Idempotency, the queue
    of Streams and a broker of Events.  [others] are what other sessions commit
    to the ledger between the transactions of one call; the request is as
    pydantic validated it, and the identifier, the time and the correlation id
    of a call are parameters. *)

From S2P Require Import Prelude Evidence.
From S2P Require Idempotency Streams Events Records RuntimeThreads.

Local Open Scope Z_scope.
Local Open Scope list_scope.

(** ** Data *)
Record CreateDispatchTaskRequest := {
  order_id : Z;
  anomaly_id : option Z;
  driver_id : string;
  vehicle_id : string;
  route_id : string;
  anomaly_type : string;
  anomaly_description : string;
  idempotency_key : string;
  vehicle_status : string;
  assignee_employee_id : option string;
  incident_node_id : option string;
  affected_edge_id : option string;
}.

(** [app.services.dispatch_task_api_service.IdempotencyConflictError] is not the class of the same name in [app.idempotency.service]. *)
Definition IdempotencyConflictError : exn := Exn "dispatch_task_api_service.IdempotencyConflictError" "".
Definition TaskNotFoundError : exn := Exn "TaskNotFoundError" "".
Definition SubmissionQueueError : exn := Exn "SubmissionQueueError" "".
Definition AssigneeNotFoundError : exn := Exn "AssigneeNotFoundError" "".

Record world (Q B : Type) := World {
  ledger : Idempotency.ledger;
  queue : Q;
  broker : option B;                            (* [event_broker], when there is one *)
  accounts : gmap string Records.DemoEmployeeAccount;
}.
Arguments World {Q B} _ _ _ _.
Arguments ledger {Q B} _.
Arguments queue {Q B} _.
Arguments broker {Q B} _.
Arguments accounts {Q B} _.

(** What other sessions commit between the transactions of one call. *)
Record others := {
  before_begin : Idempotency.ledger -> Idempotency.ledger;
  within_begin : Idempotency.ledger -> Idempotency.ledger;
  while_publishing : Idempotency.ledger -> Idempotency.ledger;
  before_reading : Idempotency.ledger -> Idempotency.ledger;
}.
Definition nobody : others := {| before_begin := id; within_begin := id; while_publishing := id; before_reading := id |}.

(** ** Reading the ledger *)
Definition accepted (t : Idempotency.DispatchTask) (duplicate : bool) : pydict :=
  [("task_id", PStr (Idempotency.t_task_id t)); ("order_id", PInt (Idempotency.t_order_id t)); ("status", PStr (Idempotency.t_status t));
   ("accepted", PBool true); ("duplicate", PBool duplicate);
   ("message", PStr "Dispatch task accepted for asynchronous processing.")]%string.

Definition require_active_delivery_employee (accounts : gmap string Records.DemoEmployeeAccount) (employee_id : string) : result unit :=
  match accounts !! employee_id with
  | Some a => if Records.is_active a && String.eqb (Records.role a) "EMPLOYEE" then Ok tt else Err AssigneeNotFoundError
  | None => Err AssigneeNotFoundError
  end.

Definition the_task (tid : string) (l : Idempotency.ledger) : result Idempotency.DispatchTask := of_option TaskNotFoundError (Idempotency.by_task l tid).

(** ** Writing the ledger *)
Definition pending_again (t : Idempotency.DispatchTask) : Idempotency.DispatchTask :=
  {| Idempotency.t_id := Idempotency.t_id t; Idempotency.t_task_id := Idempotency.t_task_id t; Idempotency.t_order_id := Idempotency.t_order_id t;
     Idempotency.t_anomaly_id := Idempotency.t_anomaly_id t; Idempotency.t_status := "PENDING"; Idempotency.t_idempotency_key := Idempotency.t_idempotency_key t;
     Idempotency.t_assignee_subject_id := Idempotency.t_assignee_subject_id t; Idempotency.t_started := Idempotency.t_started t; Idempotency.t_completed := false |}.

Definition update_task (f : Idempotency.DispatchTask -> Idempotency.DispatchTask) (tid : string) (l : Idempotency.ledger) : Idempotency.ledger :=
  Idempotency.with_runtime l (map (fun t => if String.eqb (Idempotency.t_task_id t) tid then f t else t) (Idempotency.tasks l)) (Idempotency.runtime l) (Idempotency.next_task l).

Definition set_submission_pending (tid : string) : action Idempotency.ledger unit := fun l =>
  match the_task tid l with Ok _ => (Ok tt, update_task pending_again tid l) | Err e => (Err e, l) end.

Section submission.
Context {Q B Sub : Type} `{Streams.StreamClient Q} `{Events.TaskEventBroker B Sub}.
Context (dumps : pyval -> string) (utf8 : string -> bool) (stream_name : string).

Definition with_ledger (l : Idempotency.ledger) (w : world Q B) : world Q B := World l (queue w) (broker w) (accounts w).
Definition on_ledger {A} (m : action Idempotency.ledger A) : action (world Q B) A := fun w => let (r, l) := m (ledger w) in (r, with_ledger l w).
Definition on_queue {A} (m : action Q A) : action (world Q B) A := fun w => let (r, q) := m (queue w) in (r, World (ledger w) q (broker w) (accounts w)).
Definition read_task (tid : string) : action (world Q B) Idempotency.DispatchTask := fun w => (the_task tid (ledger w), w).
Definition commit (env : Idempotency.ledger -> Idempotency.ledger) : action (world Q B) unit := fun w => (Ok tt, with_ledger (env (ledger w)) w).
(** The outcome of [m] as a value. *)
Definition attempt {S A} (m : action S A) : action S (result A) := fun s => let (r, s') := m s in (Ok r, s').

(** What one call is given from outside. *)
Record call := { hex : string; now : string; correlation : option string; event_uuid : string }.

Definition message (c : call) (tid : string) (order : Z) (key : string) (rq : CreateDispatchTaskRequest) : Streams.DispatchTaskMessage :=
  {| Streams.schema_version := "1"; Streams.task_id := tid; Streams.order_id := order; Streams.anomaly_id := anomaly_id rq; Streams.idempotency_key := key;
     Streams.created_at := now c;
     Streams.payload := {| Streams.driver_id := driver_id rq; Streams.vehicle_id := vehicle_id rq; Streams.route_id := route_id rq;
       Streams.anomaly_type := anomaly_type rq; Streams.anomaly_description := anomaly_description rq; Streams.vehicle_status := Some (vehicle_status rq);
       Streams.incident_node_id := Some (incident_node_id rq); Streams.affected_edge_id := Some (affected_edge_id rq) |};
     Streams.correlation_id := correlation c |}.

(** [except Exception: return]. *)
Definition publish_accepted (c : call) (tid : string) : action (world Q B) unit := fun w =>
  match broker w with
  | None => (Ok tt, w)
  | Some b =>
      let (r, b') := Events.broker_publish (Events.create (event_uuid c) (now c) (correlation c) tid Events.TASK_ACCEPTED "api" "PENDING" [] None) b in
      (match r with Ok _ => Ok tt | Err e => if is_exception e then Ok tt else Err e end, World (ledger w) (queue w) (Some b') (accounts w))
  end.

(** [await self._queue.publish(message)]: others commit meanwhile; a lost connection runs [lost] and raises [SubmissionQueueError]. *)
Definition enqueue (o : others) (m : Streams.DispatchTaskMessage) (lost : action (world Q B) unit) : action (world Q B) unit :=
  (do r <- attempt (on_queue (Streams.publish dumps utf8 stream_name m));
   do _ <- commit (while_publishing o);
   match r with
   | Ok _ => ret_action tt
   | Err e => if raised_as ["QueueConnectionError"%string] e then do _ <- lost; raise_action SubmissionQueueError else raise_action e
   end)%action.

Definition publish_existing (o : others) (c : call) (t : Idempotency.DispatchTask) (rq : CreateDispatchTaskRequest) : action (world Q B) pydict :=
  (do _ <- enqueue o (message c (Idempotency.t_task_id t) (Idempotency.t_order_id t) (Idempotency.t_idempotency_key t) rq) (ret_action tt);
   do _ <- on_ledger (set_submission_pending (Idempotency.t_task_id t));
   do _ <- publish_accepted c (Idempotency.t_task_id t);
   do _ <- commit (before_reading o);
   do t' <- read_task (Idempotency.t_task_id t);
   ret_action (accepted t' true))%action.

Definition new_task_id (c : call) : string := "TASK-" +:+ String.substring 0 31 (hex c).
Definition begin_request (c : call) (rq : CreateDispatchTaskRequest) (assignee : string) : Idempotency.begin_request :=
  {| Idempotency.b_task_id := new_task_id c; Idempotency.b_order_id := order_id rq; Idempotency.b_key := idempotency_key rq;
     Idempotency.b_anomaly_id := anomaly_id rq; Idempotency.b_assignee := Some assignee |}.

Definition submit_new (o : others) (c : call) (rq : CreateDispatchTaskRequest) (assignee : string) : action (world Q B) pydict :=
  (do _ <- commit (before_begin o);
   do d <- on_ledger (Idempotency.begin (within_begin o) (begin_request c rq assignee));
   if negb (Idempotency.should_execute d) then do t <- read_task (Idempotency.dec_task_id d); ret_action (accepted t true)
   else
     do _ <- enqueue o (message c (new_task_id c) (order_id rq) (idempotency_key rq) rq) (on_ledger (Idempotency.mark_terminal (new_task_id c) "SUBMISSION_FAILED"));
     do _ <- publish_accepted c (new_task_id c);
     do _ <- commit (before_reading o);
     do t <- read_task (new_task_id c);
     ret_action (accepted t false))%action.

(** The same request, for this ledger row. *)
Definition same_request (t : Idempotency.DispatchTask) (rq : CreateDispatchTaskRequest) (assignee : string) : bool :=
  (Idempotency.t_order_id t =? order_id rq) && bool_decide (Idempotency.t_assignee_subject_id t = Some assignee).
Definition submission_failed (t : Idempotency.DispatchTask) : bool := String.eqb (Idempotency.t_status t) "SUBMISSION_FAILED".

Definition submit (o : others) (c : call) (rq : CreateDispatchTaskRequest) (assignee : string) : action (world Q B) pydict := fun w =>
  match (match assignee_employee_id rq with Some _ => require_active_delivery_employee (accounts w) assignee | None => Ok tt end) with
  | Err e => (Err e, w)
  | Ok _ =>
      match Idempotency.by_key (ledger w) (idempotency_key rq) with
      | Some t =>
          if negb (same_request t rq assignee) then (Err IdempotencyConflictError, w)
          else if submission_failed t then publish_existing o c t rq w
          else (Ok (accepted t true), w)
      | None => submit_new o c rq assignee w
      end
  end.

(** ** The route *)
Record response := { status_code : Z; content : pydict }.
Definition error_response (status : Z) (code message : string) : response :=
  {| status_code := status; content := [("code", PStr code); ("message", PStr message)]%string |}.

Definition handled (m : action (world Q B) response) (classes : list (string * response)) : action (world Q B) response :=
  catch_action m (fun e => match List.find (fun kr => String.eqb kr.1 (exn_class e)) classes with Some (_, r) => ret_action r | None => raise_action e end).

Definition create_dispatch_task (o : others) (c : call) (payload : CreateDispatchTaskRequest) (subject_id : string) : action (world Q B) response :=
  handled (do a <- submit o c payload (or_else (assignee_employee_id payload) subject_id); ret_action {| status_code := 202; content := a |})%action
    [(exn_class AssigneeNotFoundError, error_response 422 "ASSIGNEE_NOT_FOUND" "请选择一个已启用的配送员工作为接收员工。");
     (exn_class IdempotencyConflictError, error_response 409 "IDEMPOTENCY_CONFLICT" "The idempotency key is already associated with another task.");
     (exn_class SubmissionQueueError, error_response 503 "QUEUE_UNAVAILABLE" "Dispatch task could not be submitted. Please retry later.")].
End submission.

(** ** Rows keep their identity *)
Definition identity (t : Idempotency.DispatchTask) : string * Z * string * option string :=
  (Idempotency.t_task_id t, Idempotency.t_order_id t, Idempotency.t_idempotency_key t, Idempotency.t_assignee_subject_id t).
Definition has_row (l : Idempotency.ledger) (i : string * Z * string * option string) : Prop := exists t, t ∈ Idempotency.tasks l /\ identity t = i.

(** What other sessions may do: the tables stay well-formed and no task is deleted or given away. *)
Record respects (env : Idempotency.ledger -> Idempotency.ledger) : Prop := {
  r_fair : Idempotency.fair env;
  r_rows : forall l i, Idempotency.lwf l -> has_row l i -> has_row (env l) i;
}.
Record respectful (o : others) : Prop := {
  ro_before_begin : respects (before_begin o);
  ro_within_begin : respects (within_begin o);
  ro_while_publishing : respects (while_publishing o);
  ro_before_reading : respects (before_reading o);
}.

Lemma respects_id : respects id.
Proof. split; [apply Idempotency.ledger_fair_id|done]. Qed.
Lemma nobody_respectful : respectful nobody.
Proof. split; apply respects_id. Qed.

Lemma find_unique {A} (f : A -> string) (l : list A) x :
  NoDup (map f l) -> x ∈ l -> List.find (fun y => String.eqb (f y) (f x)) l = Some x.
Proof.
  induction l as [|y l IH]; intros N; [by intros ?%elem_of_nil|]. apply NoDup_cons in N as [Ny N].
  intros [->|H]%elem_of_cons; simpl; [by rewrite String.eqb_refl|].
  destruct (String.eqb_spec (f y) (f x)) as [E|]; [|by apply IH]. destruct Ny. rewrite E. by apply Idempotency.elem_map.
Qed.

Lemma row_found l i : Idempotency.lwf l -> has_row l i -> exists t,
  Idempotency.by_task l i.1.1.1 = Some t /\ Idempotency.by_key l i.1.2 = Some t /\ identity t = i.
Proof.
  intros W (t & H & <-). exists t. split; [|split; [|done]].
  - apply (find_unique Idempotency.t_task_id); [apply W|done].
  - apply (find_unique Idempotency.t_idempotency_key); [apply W|done].
Qed.

Lemma found_row l i t : Idempotency.by_key l i = Some t -> has_row l (identity t).
Proof. intros [H _]%Idempotency.by_key_some. by exists t. Qed.

Lemma update_task_wf f tid l : (forall t, identity (f t) = identity t) -> Idempotency.lwf l ->
  Idempotency.lwf (update_task f tid l) /\ (forall i, has_row l i -> has_row (update_task f tid l) i).
Proof.
  intros F W. pose proof W as [W1 W2 W3 W4].
  assert (M : forall {A} (g : Idempotency.DispatchTask -> A), (forall t, g (f t) = g t) ->
    map g (map (fun t => if String.eqb (Idempotency.t_task_id t) tid then f t else t) (Idempotency.tasks l)) = map g (Idempotency.tasks l)).
  { intros A g G. rewrite map_map. apply map_ext. intros t. by destruct (String.eqb _ _). }
  split; [split; simpl; try done|].
  - rewrite (M _ Idempotency.t_task_id); [done|]. intros t. by injection (F t).
  - rewrite (M _ Idempotency.t_idempotency_key); [done|]. intros t. by injection (F t).
  - rewrite (M _ Idempotency.t_task_id); [done|]. intros t. by injection (F t).
  - intros i (t & H & <-). exists (if String.eqb (Idempotency.t_task_id t) tid then f t else t).
    split; [by apply (Idempotency.elem_map (fun t => if String.eqb (Idempotency.t_task_id t) tid then f t else t))|by destruct (String.eqb _ _)].
Qed.

Lemma pending_again_wf tid l : Idempotency.lwf l -> Idempotency.lwf (update_task pending_again tid l) /\ (forall i, has_row l i -> has_row (update_task pending_again tid l) i).
Proof. by apply update_task_wf. Qed.

Lemma mark_terminal_is tid st l : Idempotency.by_task l tid <> None ->
  Idempotency.mark_terminal tid st l = (Ok tt, update_task (Idempotency.set_status st false true) tid l).
Proof. unfold Idempotency.mark_terminal, Idempotency.mark. by destruct (Idempotency.by_task l tid). Qed.

Lemma set_submission_pending_is tid l : Idempotency.by_task l tid <> None -> set_submission_pending tid l = (Ok tt, update_task pending_again tid l).
Proof. unfold set_submission_pending, the_task. by destruct (Idempotency.by_task l tid). Qed.

Lemma updated_by_key f tid l key t : (forall t, identity (f t) = identity t) -> Idempotency.by_key l key = Some t -> Idempotency.t_task_id t = tid ->
  Idempotency.by_key (update_task f tid l) key = Some (f t).
Proof.
  intros F E T. unfold Idempotency.by_key, update_task. simpl. rewrite find_map.
  - unfold Idempotency.by_key in E. rewrite E. simpl. by rewrite T, String.eqb_refl.
  - intros u. destruct (String.eqb (Idempotency.t_task_id u) tid); [|done]. by injection (F u) as _ _ -> _.
Qed.

(** *** A new row *)
Lemma begin_should_execute env rq l d l' : Idempotency.begin env rq l = (Ok d, l') ->
  Idempotency.should_execute d = Idempotency.is_new (Ok d) /\
  (Idempotency.should_execute d = false -> Idempotency.b_task_id rq ∈ map Idempotency.t_task_id (Idempotency.tasks l) \/
     Idempotency.b_task_id rq ∈ map Idempotency.t_task_id (Idempotency.tasks (env l))).
Proof.
  assert (K : forall m t, Idempotency.existing m (Idempotency.b_task_id rq) (Idempotency.b_key rq) = Ok (Some t) ->
    Idempotency.b_task_id rq ∈ map Idempotency.t_task_id (Idempotency.tasks m)).
  { intros m t (H & <- & _)%Idempotency.existing_some. by apply Idempotency.elem_map. }
  assert (D : forall t, Idempotency.is_new (Ok (Idempotency.decision t)) = false) by (intros t; apply bool_decide_eq_false_2, Idempotency.decision_not_new).
  unfold Idempotency.begin. destruct (Idempotency.existing l _ _) as [[t|]|e] eqn:X; [|destruct (RuntimeThreads.thread_id_for_persisted_task _); [|done]|done].
  - intros [= <- <-]. rewrite D. split; [done|]. intros _. left. by apply (K l t).
  - destruct (Idempotency.insert_ledger (env l) rq _) as [l2|e]; [by intros [= <- <-]|].
    destruct (Idempotency.existing (env l) _ _) as [[t|]|e'] eqn:X1; intros E; try done. injection E as <- <-. rewrite D.
    split; [done|]. intros _. right. by apply (K (env l) t).
Qed.

Lemma begin_fresh env rq l d l' :
  Idempotency.lwf l -> respects env -> Idempotency.b_task_id rq ∉ map Idempotency.t_task_id (Idempotency.tasks (env l)) ->
  Idempotency.begin env rq l = (Ok d, l') ->
  Idempotency.should_execute d = true /\ Idempotency.lwf l' /\
  has_row l' (Idempotency.b_task_id rq, Idempotency.b_order_id rq, Idempotency.b_key rq, Idempotency.b_assignee rq).
Proof.
  intros W [F R] N E. destruct (begin_should_execute _ _ _ _ _ E) as [S D].
  destruct (Idempotency.begin_cases _ _ _ _ _ W F E) as (W' & E' & [[I _]|(I & _ & thread & _ & Ins)]).
  - exfalso. rewrite <- S in I. destruct (D I) as [H|H]; [|done]. apply N. exact (Idempotency.evolves_task _ _ _ (Idempotency.fair_evolves _ F l W) H).
  - rewrite S. split; [done|]. split; [done|].
    destruct (Idempotency.insert_ledger_ok _ _ _ _ (Idempotency.fair_lwf _ F l W) Ins) as (_ & _ & _ & _ & T & _).
    exists (Idempotency.new_task (env l) rq). split; [|done]. rewrite T. apply elem_of_app. right. left.
Qed.

Section facts.
Context {Q B Sub : Type} `{Streams.StreamClientLaws Q} `{Events.TaskEventBroker B Sub}.
Context (dumps : pyval -> string) (utf8 : string -> bool) (stream_name : string).
#[local] Abbreviation contents q := (Streams.contents q stream_name).
#[local] Abbreviation submit := (submit dumps utf8 stream_name).

Lemma publish_ok m (q : Q) i q' : Streams.publish dumps utf8 stream_name m q = (Ok i, q') ->
  contents q' = contents q ++ [Streams.to_json dumps m].
Proof.
  unfold Streams.publish. intros [(v & q1 & (x & A & Hx)%Streams.connect_inv & P)|(e & _ & [=])]%bind_action_inv.
  destruct x as [v'|e]; [|by destruct Hx]. injection P as _ ->. by destruct (Streams.xadd_law _ _ _ _ _ A) as (_ & _ & ?).
Qed.

Lemma publish_accepted_inv c tid (w : world Q B) r w' : publish_accepted c tid w = (r, w') ->
  ledger w' = ledger w /\ queue w' = queue w /\ accounts w' = accounts w.
Proof. unfold publish_accepted. destruct (broker w); [destruct (Events.broker_publish _ _)|]; by intros [= <- <-]. Qed.

Definition published_in (o : others) (q : Q) (w : world Q B) : world Q B := World (while_publishing o (ledger w)) q (broker w) (accounts w).

Lemma enqueue_inv o m lost (w : world Q B) r w' : enqueue dumps utf8 stream_name o m lost w = (r, w') -> exists p q1,
  Streams.publish dumps utf8 stream_name m (queue w) = (p, q1) /\
  match p with
  | Ok _ => r = Ok tt /\ w' = published_in o q1 w
  | Err e => if raised_as ["QueueConnectionError"%string] e
             then exists x, lost (published_in o q1 w) = (x, w') /\ r = match x with Ok _ => Err SubmissionQueueError | Err e' => Err e' end
             else r = Err e /\ w' = published_in o q1 w
  end.
Proof.
  unfold enqueue, attempt, on_queue, commit, bind_action, ret_action, raise_action.
  destruct (Streams.publish dumps utf8 stream_name m (queue w)) as [p q1]. intros E. exists p, q1. split; [done|].
  unfold published_in. unfold with_ledger in E. cbn [ledger queue broker accounts] in E. destruct p as [i|e]; [by injection E as <- <-|].
  destruct (raised_as _ e); [|by injection E as <- <-]. destruct (lost _) as [[x|e'] w1]; injection E as <- <-; by eexists.
Qed.

(** The end of an accepted submission: tell, then read the row again. *)
Lemma answered o c i dup (w : world Q B) a w' :
  (do _ <- publish_accepted c i.1.1.1; do _ <- commit (before_reading o); do t <- read_task i.1.1.1; ret_action (accepted t dup))%action w = (Ok a, w') ->
  Idempotency.lwf (ledger w) -> respectful o -> has_row (ledger w) i ->
  Idempotency.lwf (ledger w') /\ queue w' = queue w /\ accounts w' = accounts w /\ ledger w' = before_reading o (ledger w) /\
  exists t, Idempotency.by_key (ledger w') i.1.2 = Some t /\ identity t = i /\ a = accepted t dup.
Proof.
  intros E W [_ _ _ [F R]] I. apply bind_action_inv in E as [([] & w1 & P & E)|(e & _ & [=])].
  apply publish_accepted_inv in P as (L & Q1 & A1). unfold commit, read_task, bind_action, ret_action, with_ledger in E. cbn [ledger] in E. rewrite L in E.
  assert (W1 : Idempotency.lwf (before_reading o (ledger w))) by by apply F.
  destruct (row_found _ _ W1 (R _ _ W I)) as (t & T1 & T2 & T3). unfold the_task in E. rewrite T1 in E. cbn [of_option] in E. injection E as <- <-.
  cbn [ledger queue accounts]. rewrite ?L. split; [done|]. split; [done|]. split; [done|]. split; [done|]. by exists t.
Qed.

Lemma identity_same t rq who : identity t = (Idempotency.t_task_id t, order_id rq, idempotency_key rq, Some who) -> same_request t rq who = true.
Proof. intros [= E1 E2 E3]. unfold same_request. rewrite E1, E3, Z.eqb_refl. by rewrite bool_decide_eq_true_2. Qed.

Lemma same_identity t rq who : same_request t rq who = true -> Idempotency.t_idempotency_key t = idempotency_key rq ->
  identity t = (Idempotency.t_task_id t, order_id rq, idempotency_key rq, Some who).
Proof. unfold same_request, identity. intros [->%Z.eqb_eq ->%bool_decide_eq_true_1]%andb_true_iff ->. done. Qed.

(** What a submission that is not refused at once does. *)
Lemma submit_inv o c rq who (w : world Q B) r w' : submit o c rq who w = (r, w') ->
  (w' = w /\ ((r = Err AssigneeNotFoundError) \/
     exists t, Idempotency.by_key (ledger w) (idempotency_key rq) = Some t /\
       (same_request t rq who = false /\ r = Err IdempotencyConflictError \/
        same_request t rq who = true /\ submission_failed t = false /\ r = Ok (accepted t true)))) \/
  (exists t, Idempotency.by_key (ledger w) (idempotency_key rq) = Some t /\ same_request t rq who = true /\ submission_failed t = true /\
     publish_existing dumps utf8 stream_name o c t rq w = (r, w')) \/
  (Idempotency.by_key (ledger w) (idempotency_key rq) = None /\ submit_new dumps utf8 stream_name o c rq who w = (r, w')).
Proof.
  unfold Submission.submit. destruct (match assignee_employee_id rq with Some _ => _ | None => _ end) as [u|e] eqn:A.
  - destruct (Idempotency.by_key (ledger w) (idempotency_key rq)) as [t|] eqn:K; [|intros; right; right; done].
    destruct (same_request t rq who) eqn:S; cbn [negb].
    + destruct (submission_failed t) eqn:F; [intros; right; left; by exists t|]. intros [= <- <-]. left. split; [done|]. right. exists t. auto.
    + intros [= <- <-]. left. split; [done|]. right. exists t. auto.
  - intros [= <- <-]. left. split; [done|]. left. destruct (assignee_employee_id rq); [|done]. unfold require_active_delivery_employee in A.
    destruct (accounts w !! who) as [x|]; [destruct (_ && _)|]; congruence.
Qed.

Definition fresh_id (o : others) (c : call) (w : world Q B) : Prop :=
  new_task_id c ∉ map Idempotency.t_task_id (Idempotency.tasks (within_begin o (before_begin o (ledger w)))).
Definition new_row (c : call) (rq : CreateDispatchTaskRequest) (who : string) : string * Z * string * option string :=
  (new_task_id c, order_id rq, idempotency_key rq, Some who).
Definition new_message (c : call) (rq : CreateDispatchTaskRequest) : string :=
  Streams.to_json dumps (message c (new_task_id c) (order_id rq) (idempotency_key rq) rq).

(** A new submission: the ledger refuses it, or its row is there and the message is sent or was lost. *)
Lemma submit_new_inv o c rq who (w : world Q B) r w' : Idempotency.lwf (ledger w) -> respectful o -> fresh_id o c w ->
  submit_new dumps utf8 stream_name o c rq who w = (r, w') ->
  (exists e, r = Err e /\ queue w' = queue w) \/
  exists (w1 : world Q B), Idempotency.lwf (ledger w1) /\ has_row (ledger w1) (new_row c rq who) /\ queue w1 = queue w /\ accounts w1 = accounts w /\
    (do _ <- enqueue dumps utf8 stream_name o (message c (new_task_id c) (order_id rq) (idempotency_key rq) rq)
       (on_ledger (Idempotency.mark_terminal (new_task_id c) "SUBMISSION_FAILED"));
     do _ <- publish_accepted c (new_task_id c); do _ <- commit (before_reading o); do t <- read_task (new_task_id c); ret_action (accepted t false))%action w1 = (r, w').
Proof.
  intros W O N E. unfold submit_new in E. apply bind_action_inv in E as [([] & w0 & [= <-] & E)|(e & [=] & _)].
  unfold on_ledger in E at 1. unfold bind_action at 1 in E. cbn [ledger with_ledger] in E.
  destruct (Idempotency.begin _ _ _) as [[d|e] l1] eqn:G; [|injection E as <- <-; left; by exists e].
  assert (W0 : Idempotency.lwf (before_begin o (ledger w))) by by apply O.
  destruct (begin_fresh _ (begin_request c rq who) _ _ _ W0 (ro_within_begin _ O) N G) as (D & W1 & I). rewrite D in E. cbn [negb] in E.
  right. exists (with_ledger l1 (with_ledger (before_begin o (ledger w)) w)). done.
Qed.

(** What an accepted submission has done, shared with the anomaly reports. *)
Lemma submit_accepted o c rq who (w : world Q B) a w' :
  Idempotency.lwf (ledger w) -> respectful o -> fresh_id o c w ->
  submit o c rq who w = (Ok a, w') ->
  Idempotency.lwf (ledger w') /\
  exists t dup, Idempotency.by_key (ledger w') (idempotency_key rq) = Some t /\ same_request t rq who = true /\ a = accepted t dup /\
    let sent := contents (queue w') = contents (queue w) ++ [Streams.to_json dumps (message c (Idempotency.t_task_id t) (order_id rq) (idempotency_key rq) rq)] in
    match Idempotency.by_key (ledger w) (idempotency_key rq) with
    | None => dup = false /\ Idempotency.t_task_id t = new_task_id c /\ sent
    | Some t0 => dup = true /\ Idempotency.t_task_id t = Idempotency.t_task_id t0 /\ if submission_failed t0 then sent else w' = w
    end.
Proof.
  intros W O N [(-> & [[=]|(t & K & [(_ & [=])|(S & F & [= ->])])])|[(t & K & S & F & E)|(K & E)]]%submit_inv.
  - split; [done|]. exists t, true. rewrite K, F. done.
  - rewrite K, F. apply Idempotency.by_key_some in K as K'. destruct K' as [M T]. pose proof (same_identity _ _ _ S T) as I.
    unfold publish_existing in E. apply bind_action_inv in E as [([] & w1 & (p & q1 & P & X)%enqueue_inv & E)|(e & _ & [=])].
    destruct p as [i|e]; [destruct X as [_ ->]|destruct (raised_as _ e); [by destruct X as ([] & _ & [=])|by destruct X as [[=] _]]].
    assert (W1 : Idempotency.lwf (while_publishing o (ledger w))) by by apply O.
    assert (R1 : has_row (while_publishing o (ledger w)) (identity t)) by (apply O; [done|by exists t]).
    unfold on_ledger, bind_action at 1 in E. cbn [published_in ledger] in E.
    rewrite set_submission_pending_is in E by (destruct (row_found _ _ W1 R1) as (u & U & _); rewrite I in U; cbn in U; by rewrite U).
    destruct (pending_again_wf (Idempotency.t_task_id t) _ W1) as [W2 R2]. specialize (R2 _ R1). rewrite I in R2.
    destruct (answered o c (Idempotency.t_task_id t, order_id rq, idempotency_key rq, Some who) true _ a w' E W2 O R2) as (W3 & Q3 & _ & _ & u & U1 & U2 & ->). split; [done|]. exists u, true. cbn in U1.
    split; [done|]. injection U2 as Ut Uo Uk Ua. split; [apply identity_same; unfold identity; congruence|]. split; [done|].
    split; [done|]. split; [done|]. rewrite Q3. cbn [with_ledger published_in queue]. rewrite (publish_ok _ _ _ _ P).
    unfold identity in I. injection I as Io Ik _. by rewrite Ut, Io, Ik.
  - rewrite K. destruct (submit_new_inv _ _ _ _ _ _ _ W O N E) as [(e & [=] & _)|(w1 & W1 & R1 & Q1 & _ & X)]. clear E.
    apply bind_action_inv in X as [([] & w2 & (p & q1 & P & X)%enqueue_inv & E)|(e & _ & [=])].
    destruct p as [i|e]; [destruct X as [_ ->]|destruct (raised_as _ e); [by destruct X as ([] & _ & [=])|by destruct X as [[=] _]]].
    assert (W2 : Idempotency.lwf (ledger (published_in o q1 w1))) by by apply O.
    assert (R2 : has_row (ledger (published_in o q1 w1)) (new_row c rq who)) by by apply O.
    destruct (answered o c (new_row c rq who) false _ a w' E W2 O R2) as (W3 & Q3 & _ & _ & u & U1 & U2 & ->). split; [done|]. exists u, false.
    injection U2 as Ut Uo Uk Ua. split; [done|]. split; [apply identity_same; unfold identity; congruence|]. split; [done|]. split; [done|].
    split; [done|]. rewrite Q3. cbn [published_in queue]. by rewrite (publish_ok _ _ _ _ P), Q1, Ut.
Qed.

(** C9: What an accepted submission has done, whatever other sessions commit
    meanwhile: the ledger has one row for its key, with the order and the
    assignee of the request, and the answer is that row.  A new key puts one
    message for the new task in the stream; a key that failed before puts one
    more message for its old task there; any other key changes nothing. *)
Theorem accepted_submission_enters_once o c rq who (w : world Q B) a w' :
  Idempotency.lwf (ledger w) -> respectful o -> fresh_id o c w ->
  submit o c rq who w = (Ok a, w') ->
  Idempotency.lwf (ledger w') /\
  exists t dup, Idempotency.by_key (ledger w') (idempotency_key rq) = Some t /\ same_request t rq who = true /\ a = accepted t dup /\
    let sent := contents (queue w') = contents (queue w) ++ [Streams.to_json dumps (message c (Idempotency.t_task_id t) (order_id rq) (idempotency_key rq) rq)] in
    match Idempotency.by_key (ledger w) (idempotency_key rq) with
    | None => dup = false /\ Idempotency.t_task_id t = new_task_id c /\ sent
    | Some t0 => dup = true /\ Idempotency.t_task_id t = Idempotency.t_task_id t0 /\ if submission_failed t0 then sent else w' = w
    end.
Proof. apply submit_accepted. Qed.

Definition may_submit (rq : CreateDispatchTaskRequest) (who : string) (w : world Q B) : Prop :=
  assignee_employee_id rq = None \/ require_active_delivery_employee (accounts w) who = Ok tt.

Lemma submit_allowed o c rq who (w : world Q B) : may_submit rq who w ->
  submit o c rq who w = match Idempotency.by_key (ledger w) (idempotency_key rq) with
    | Some t => if negb (same_request t rq who) then (Err IdempotencyConflictError, w)
                else if submission_failed t then publish_existing dumps utf8 stream_name o c t rq w else (Ok (accepted t true), w)
    | None => submit_new dumps utf8 stream_name o c rq who w
    end.
Proof. unfold Submission.submit. intros [->|M]; [done|]. destruct (assignee_employee_id rq); [by rewrite M|done]. Qed.

Lemma submit_new_begun o c rq who (w : world Q B) d l1 :
  Idempotency.begin (within_begin o) (begin_request c rq who) (before_begin o (ledger w)) = (Ok d, l1) -> Idempotency.should_execute d = true ->
  submit_new dumps utf8 stream_name o c rq who w =
    (do _ <- enqueue dumps utf8 stream_name o (message c (new_task_id c) (order_id rq) (idempotency_key rq) rq)
       (on_ledger (Idempotency.mark_terminal (new_task_id c) "SUBMISSION_FAILED"));
     do _ <- publish_accepted c (new_task_id c); do _ <- commit (before_reading o); do t <- read_task (new_task_id c); ret_action (accepted t false))%action
    (with_ledger l1 w).
Proof.
  intros G D. unfold submit_new, on_ledger at 1. unfold bind_action at 1 2. unfold commit at 1. cbn [ledger with_ledger]. rewrite G, D. cbn [negb].
  reflexivity.
Qed.

Lemma enqueue_ok o m lost (w : world Q B) i q1 : Streams.publish dumps utf8 stream_name m (queue w) = (Ok i, q1) ->
  enqueue dumps utf8 stream_name o m lost w = (Ok tt, published_in o q1 w).
Proof. intros P. unfold enqueue, attempt, on_queue, bind_action. by rewrite P. Qed.

Lemma enqueue_lost o m lost (w : world Q B) t q1 x w' : Streams.publish dumps utf8 stream_name m (queue w) = (Err (Streams.QueueConnectionError t), q1) ->
  lost (published_in o q1 w) = (Ok x, w') -> enqueue dumps utf8 stream_name o m lost w = (Err SubmissionQueueError, w').
Proof.
  intros P L. unfold enqueue, attempt, on_queue, bind_action. rewrite P. cbn. unfold published_in in L. unfold with_ledger. cbn. by rewrite L.
Qed.

(** A publication on the broker that fails raises an exception, not a cancellation. *)
Definition uncancelled : Prop := forall e b x, (Events.broker_publish e b).1 = Err x -> is_exception x = true.

Lemma publish_accepted_total c tid (w : world Q B) : uncancelled -> exists w', publish_accepted c tid w = (Ok tt, w').
Proof.
  intros U. unfold publish_accepted. destruct (broker w) as [b|]; [|by eexists].
  destruct (Events.broker_publish _ b) as [[e|x] b'] eqn:E; [by eexists|]. rewrite (U _ b x (f_equal fst E)). by eexists.
Qed.

(** A retry when nobody interferes and the queue answers. *)
Lemma retry_accepted c rq who (w : world Q B) t i q2 :
  uncancelled -> Idempotency.lwf (ledger w) -> may_submit rq who w ->
  Idempotency.by_key (ledger w) (idempotency_key rq) = Some t -> same_request t rq who = true -> submission_failed t = true ->
  Streams.publish dumps utf8 stream_name (message c (Idempotency.t_task_id t) (order_id rq) (idempotency_key rq) rq) (queue w) = (Ok i, q2) ->
  exists w2, submit nobody c rq who w = (Ok (accepted (pending_again t) true), w2) /\
    Idempotency.by_key (ledger w2) (idempotency_key rq) = Some (pending_again t) /\ queue w2 = q2.
Proof.
  intros U W M K S F P. rewrite (submit_allowed _ _ _ _ _ M), K, S, F. cbn [negb].
  apply Idempotency.by_key_some in K as K'. destruct K' as [In Tk]. pose proof (same_identity _ _ _ S Tk) as I. unfold identity in I. injection I as Io Ik _.
  assert (Bt : Idempotency.by_task (ledger w) (Idempotency.t_task_id t) = Some t) by (apply (find_unique Idempotency.t_task_id); [apply W|done]).
  set (l2 := update_task pending_again (Idempotency.t_task_id t) (ledger w)).
  assert (K2 : Idempotency.by_key l2 (idempotency_key rq) = Some (pending_again t)) by by apply updated_by_key.
  assert (B2 : Idempotency.by_task l2 (Idempotency.t_task_id t) = Some (pending_again t)).
  { destruct (pending_again_wf (Idempotency.t_task_id t) _ W) as [W2 _]. apply Idempotency.by_key_some in K2 as [K2 _].
    apply (find_unique Idempotency.t_task_id _ (pending_again t)); [apply W2|done]. }
  unfold publish_existing. rewrite Io, Ik. rewrite (bind_action_ok _ _ _ tt (published_in nobody q2 w)) by by apply enqueue_ok with i.
  rewrite (bind_action_ok _ _ _ tt (with_ledger l2 (published_in nobody q2 w)))
    by (unfold on_ledger; cbn [published_in ledger nobody while_publishing id]; by rewrite set_submission_pending_is by (rewrite Bt; done)).
  destruct (publish_accepted_total c (Idempotency.t_task_id t) (with_ledger l2 (published_in nobody q2 w)) U) as (w3 & P3).
  rewrite (bind_action_ok _ _ _ _ _ P3). destruct (publish_accepted_inv _ _ _ _ _ P3) as (L3 & Q3 & _). cbn [with_ledger ledger queue published_in] in L3, Q3.
  exists w3. split; [|by rewrite L3]. unfold commit, read_task, bind_action, ret_action, the_task. cbn [nobody before_reading id with_ledger ledger].
  rewrite L3, B2. cbn [of_option]. f_equal. destruct w3. cbn in L3. by subst.
Qed.

(** A submission whose message is lost is refused, but not forgotten: its row
    says [SUBMISSION_FAILED], and the same request, made again when the queue
    answers and nobody interferes, is accepted as a duplicate for the same
    task, which waits again with one more message in the stream. *)
Theorem lost_submission_can_be_retried o c rq who (w : world Q B) d l1 text q1 :
  uncancelled -> Idempotency.lwf (ledger w) -> respectful o -> fresh_id o c w ->
  may_submit rq who w -> Idempotency.by_key (ledger w) (idempotency_key rq) = None ->
  Idempotency.begin (within_begin o) (begin_request c rq who) (before_begin o (ledger w)) = (Ok d, l1) ->
  Streams.publish dumps utf8 stream_name (message c (new_task_id c) (order_id rq) (idempotency_key rq) rq) (queue w) = (Err (Streams.QueueConnectionError text), q1) ->
  exists w1 t, submit o c rq who w = (Err SubmissionQueueError, w1) /\
    Idempotency.by_key (ledger w1) (idempotency_key rq) = Some t /\ Idempotency.t_task_id t = new_task_id c /\ submission_failed t = true /\
    forall c' i q2,
      Streams.publish dumps utf8 stream_name (message c' (new_task_id c) (order_id rq) (idempotency_key rq) rq) (queue w1) = (Ok i, q2) ->
      exists w2 t', submit nobody c' rq who w1 = (Ok (accepted t' true), w2) /\
        Idempotency.by_key (ledger w2) (idempotency_key rq) = Some t' /\
        Idempotency.t_task_id t' = new_task_id c /\ Idempotency.t_status t' = "PENDING"%string /\
        contents (queue w2) = contents (queue w1) ++ [Streams.to_json dumps (message c' (new_task_id c) (order_id rq) (idempotency_key rq) rq)].
Proof.
  intros U W O N M K G P. assert (W0 : Idempotency.lwf (before_begin o (ledger w))) by by apply O.
  destruct (begin_fresh _ (begin_request c rq who) _ _ _ W0 (ro_within_begin _ O) N G) as (D & W1 & R1).
  assert (W2 : Idempotency.lwf (while_publishing o l1)) by by apply O.
  assert (R2 : has_row (while_publishing o l1) (new_row c rq who)) by by apply O.
  destruct (row_found _ _ W2 R2) as (t & Bt & Kt & I). cbn in Bt, Kt.
  set (f := Idempotency.set_status "SUBMISSION_FAILED" false true). set (l3 := update_task f (new_task_id c) (while_publishing o l1)).
  exists (World l3 q1 (broker w) (accounts w)), (f t). injection I as It Io Ik Ia.
  assert (K3 : Idempotency.by_key l3 (idempotency_key rq) = Some (f t)) by by apply updated_by_key.
  assert (W3 : Idempotency.lwf l3) by by apply update_task_wf.
  split; [|split; [exact K3|split; [exact It|split; [done|]]]].
  - rewrite (submit_allowed _ _ _ _ _ M), K, (submit_new_begun _ _ _ _ _ _ _ G D).
    erewrite bind_action_err; [done|]. eapply enqueue_lost; [exact P|]. unfold on_ledger. cbn [published_in with_ledger ledger].
    rewrite mark_terminal_is by by rewrite Bt. done.
  - intros c' i q2 P2. assert (S : same_request (f t) rq who = true) by (apply identity_same; unfold identity; cbn; congruence).
    destruct (retry_accepted c' rq who (World l3 q1 (broker w) (accounts w)) (f t) i q2 U W3 M K3 S) as (w2 & E & K2 & Q2); [done|by cbn; rewrite It|].
    exists w2, (pending_again (f t)). split; [done|]. split; [done|]. split; [exact It|]. split; [done|]. rewrite Q2. exact (publish_ok _ _ _ _ P2).
Qed.

(** Two submissions of one request can race: when the other one commits its row
    between the lookup of the key and [begin], [begin] is asked for a fresh
    task id with a key of another task, and raises the error class of the
    ledger, which the route does not handle: the client gets no answer
    although its request is being processed. *)
Theorem racing_submission_unanswered o c rq subject (w : world Q B) t :
  may_submit rq (or_else (assignee_employee_id rq) subject) w -> Idempotency.by_key (ledger w) (idempotency_key rq) = None ->
  Idempotency.by_key (before_begin o (ledger w)) (idempotency_key rq) = Some t -> Idempotency.t_task_id t <> new_task_id c ->
  create_dispatch_task dumps utf8 stream_name o c rq subject w = (Err Idempotency.IdempotencyConflictError, with_ledger (before_begin o (ledger w)) w).
Proof.
  intros M K K1 N. set (who := or_else (assignee_employee_id rq) subject) in *.
  assert (X : Idempotency.existing (before_begin o (ledger w)) (new_task_id c) (idempotency_key rq) = Err Idempotency.IdempotencyConflictError).
  { unfold Idempotency.existing. rewrite K1. destruct (match Idempotency.by_task _ _ with Some _ => _ | None => _ end); [done|].
    destruct (String.eqb_spec (Idempotency.t_task_id t) (new_task_id c)); done. }
  assert (S : submit_new dumps utf8 stream_name o c rq who w = (Err Idempotency.IdempotencyConflictError, with_ledger (before_begin o (ledger w)) w)).
  { unfold submit_new, commit at 1, on_ledger at 1. unfold bind_action at 1 2. cbn [with_ledger ledger]. unfold Idempotency.begin.
    cbn [begin_request Idempotency.b_task_id Idempotency.b_key]. rewrite X. done. }
  unfold create_dispatch_task, handled, catch_action. unfold bind_action at 1. fold who. by rewrite (submit_allowed _ _ _ _ _ M), K, S.
Qed.

(** A retry forgets the outcome of the task: whatever a worker recorded after
    the message was sent, the row of an accepted retry is set back to
    [PENDING] and is no longer completed. *)
Theorem retry_overwrites_outcome o c rq who (w : world Q B) t t1 i q1 a w' :
  Idempotency.lwf (ledger w) -> respectful o -> before_reading o = id ->
  Idempotency.by_key (ledger w) (idempotency_key rq) = Some t -> submission_failed t = true ->
  Streams.publish dumps utf8 stream_name (message c (Idempotency.t_task_id t) (Idempotency.t_order_id t) (Idempotency.t_idempotency_key t) rq) (queue w) = (Ok i, q1) ->
  Idempotency.by_key (while_publishing o (ledger w)) (idempotency_key rq) = Some t1 ->
  submit o c rq who w = (Ok a, w') ->
  Idempotency.by_key (ledger w') (idempotency_key rq) = Some (pending_again t1).
Proof.
  intros W O Id K F P K1 [(-> & [[=]|(u & Ku & [(_ & [=])|(_ & Fu & _)])])|[(u & Ku & S & Fu & E)|(Ku & E)]]%submit_inv; simplify_eq; [congruence|].
  unfold publish_existing in E. rewrite (bind_action_ok _ _ _ _ _ (enqueue_ok o _ (ret_action tt) w i q1 P)) in E.
  assert (W1 : Idempotency.lwf (while_publishing o (ledger w))) by by apply O.
  destruct (row_found _ _ W1 (r_rows _ (ro_while_publishing _ O) _ _ W (found_row _ _ _ K))) as (t1' & B1 & K1' & I1).
  apply Idempotency.by_key_some in K as [_ Tk]. cbn in B1, K1'. rewrite Tk, K1 in K1'. injection K1' as <-.
  unfold on_ledger, bind_action at 1 in E. cbn [published_in ledger] in E. rewrite set_submission_pending_is in E by by rewrite B1.
  apply bind_action_inv in E as [([] & w2 & (L2 & _)%publish_accepted_inv & E)|(e & _ & [=])]. unfold commit, read_task, bind_action, ret_action in E. rewrite Id in E.
  cbn [with_ledger ledger id] in E. destruct (the_task _ _); [|done]. injection E as _ <-. cbn [with_ledger ledger id]. rewrite L2.
  apply updated_by_key; [done|done|]. by injection I1.
Qed.
End facts.

(** ** Witnesses: a queue that loses its first messages *)
#[local] Existing Instance Streams.server_client.
#[local] Existing Instance Streams.server_laws.
#[local] Existing Instance Events.InMemory.in_memory.

Record flaky := { failures : nat; served : Streams.stream_server }.
Definition through {A} (op : action Streams.stream_server A) : action flaky A := fun q => let (r, s) := op (served q) in (r, {| failures := failures q; served := s |}).
#[export] Instance flaky_client : Streams.StreamClient flaky :=
  {| Streams.xgroup_create := through Streams.xgroup_create;
     Streams.xadd := fun s d q => match failures q with
       | O => through (Streams.xadd s d) q
       | S n => (Err (Exn "RedisError" "down"), {| failures := n; served := served q |}) end;
     Streams.xreadgroup := fun n b => through (Streams.xreadgroup n b);
     Streams.xack := fun i => through (Streams.xack i);
     Streams.xpending := through Streams.xpending;
     Streams.xpending_range := fun c n => through (Streams.xpending_range c n);
     Streams.xautoclaim := fun a n b m => through (Streams.xautoclaim a n b m);
     Streams.xinfo_groups := through Streams.xinfo_groups;
     Streams.xlen := through Streams.xlen;
     Streams.pending := fun q => Streams.pending (served q);
     Streams.contents := fun q => Streams.contents (served q) |}.
#[export] Instance flaky_laws : Streams.StreamClientLaws flaky.
Proof.
  split.
  - intros i q r q' [= <- <-]. done.
  - intros s d [[|n] q] r q' [= <- <-]; [|by auto]. apply (Streams.xadd_law s d q (Ok (PStr "1-0"))). reflexivity.
Qed.

Definition ex_rq : CreateDispatchTaskRequest :=
  {| order_id := 1; anomaly_id := None; driver_id := "D-1"; vehicle_id := "V-1"; route_id := "R-1"; anomaly_type := "VEHICLE"; anomaly_description := "stuck";
     idempotency_key := "k-1"; vehicle_status := "BROKEN"; assignee_employee_id := Some "E-1"%string; incident_node_id := None; affected_edge_id := None |}.
Definition ex_call (h : string) : call := {| hex := h; now := "2026-01-01T00:00:00+00:00"; correlation := None; event_uuid := "e" |}.
Definition ex_world (n : nat) : world flaky Events.InMemory.broker :=
  World Idempotency.ex_ledger {| failures := n; served := {| Streams.sv_pending := ∅; Streams.sv_streams := ∅ |} |} (Some (Events.InMemoryFacts.empty_broker 10 10))
    {["E-1"%string := {| Records.display_name := "Li"; Records.role := "EMPLOYEE"; Records.is_active := true |}]}.
Definition ex_dumps (v : pyval) : string := "{}".
Definition ex_utf8 (s : string) : bool := true.

Lemma ex_may_submit n : may_submit ex_rq "E-1" (ex_world n).
Proof. right. vm_compute. reflexivity. Qed.

Lemma in_memory_uncancelled : @uncancelled Events.InMemory.broker (string * nat) Events.InMemory.in_memory.
Proof. intros e b x E. discriminate E. Qed.

Lemma accepted_submission_enters_once_witness :
  exists a w', submit ex_dumps ex_utf8 "tasks" nobody (ex_call "a") ex_rq "E-1" (ex_world 0) = (Ok a, w') /\ Idempotency.lwf (ledger w') /\
    Streams.contents (queue w') "tasks" = ["{}"%string].
Proof.
  destruct (submit ex_dumps ex_utf8 "tasks" nobody (ex_call "a") ex_rq "E-1" (ex_world 0)) as [[a|e] w'] eqn:E; [|vm_compute in E; discriminate E].
  exists a, w'. split; [reflexivity|].
  destruct (accepted_submission_enters_once ex_dumps ex_utf8 "tasks" nobody (ex_call "a") ex_rq "E-1" (ex_world 0) a w' Idempotency.ex_ledger_wf nobody_respectful) as (W' & t & dup & _ & _ & _ & H);
    [vm_compute; intros X; inversion X|exact E|].
  split; [exact W'|]. exact (proj2 (proj2 H)).
Defined.

Definition ex_failed : world flaky Events.InMemory.broker :=
  (submit ex_dumps ex_utf8 "tasks" nobody (ex_call "a") ex_rq "E-1" (ex_world 1)).2.

Lemma lost_submission_can_be_retried_witness :
  exists w1 w2 a, submit ex_dumps ex_utf8 "tasks" nobody (ex_call "a") ex_rq "E-1" (ex_world 1) = (Err SubmissionQueueError, w1) /\
    submit ex_dumps ex_utf8 "tasks" nobody (ex_call "b") ex_rq "E-1" w1 = (Ok a, w2) /\ Streams.contents (queue w2) "tasks" = ["{}"%string].
Proof.
  destruct (Idempotency.begin id (begin_request (ex_call "a") ex_rq "E-1") Idempotency.ex_ledger) as [[d|e] l1] eqn:G; [|vm_compute in G; discriminate G].
  destruct (lost_submission_can_be_retried ex_dumps ex_utf8 "tasks" nobody (ex_call "a") ex_rq "E-1" (ex_world 1) d l1 "Redis stream publish failed."
    {| failures := 0; served := {| Streams.sv_pending := ∅; Streams.sv_streams := ∅ |} |} in_memory_uncancelled Idempotency.ex_ledger_wf nobody_respectful)
    as (w1 & t & E & K & T & F & R); [vm_compute; intros X; inversion X|apply ex_may_submit|reflexivity|exact G|reflexivity|].
  assert (Q1 : queue w1 = {| failures := 0; served := {| Streams.sv_pending := ∅; Streams.sv_streams := ∅ |} |}).
  { assert (X : queue (submit ex_dumps ex_utf8 "tasks" nobody (ex_call "a") ex_rq "E-1" (ex_world 1)).2 =
      {| failures := 0; served := {| Streams.sv_pending := ∅; Streams.sv_streams := ∅ |} |}) by (vm_compute; reflexivity). rewrite E in X. exact X. }
  destruct (R (ex_call "b") "1-0"%string {| failures := 0; served := {| Streams.sv_pending := ∅; Streams.sv_streams := {["tasks"%string := ["{}"%string]]} |} |}) as (w2 & t' & E2 & _ & _ & _ & C).
  { rewrite Q1. reflexivity. }
  exists w1, w2, (accepted t' true). split; [exact E|]. split; [exact E2|]. rewrite C, Q1. reflexivity.
Defined.

(** The same request, submitted at the same time under another task id. *)
Definition ex_race : others :=
  {| before_begin := fun l => (Idempotency.begin id (begin_request (ex_call "b") ex_rq "E-1") l).2; within_begin := id; while_publishing := id; before_reading := id |}.
Lemma racing_submission_unanswered_witness :
  exists w', create_dispatch_task ex_dumps ex_utf8 "tasks" ex_race (ex_call "a") ex_rq "E-1" (ex_world 0) = (Err Idempotency.IdempotencyConflictError, w').
Proof.
  destruct (Idempotency.by_key (before_begin ex_race (ledger (ex_world 0))) "k-1") as [t|] eqn:K; [|vm_compute in K; discriminate K].
  eexists. apply (racing_submission_unanswered ex_dumps ex_utf8 "tasks" ex_race (ex_call "a") ex_rq "E-1" (ex_world 0) t (ex_may_submit 0) eq_refl K).
  intros X. assert (Y : Idempotency.t_task_id <$> Idempotency.by_key (before_begin ex_race (ledger (ex_world 0))) "k-1" = Some "TASK-b"%string) by (vm_compute; reflexivity).
  rewrite K in Y. injection Y as Y. rewrite Y in X. discriminate X.
Defined.

(** A worker that finishes the task while the retry publishes it. *)
Definition ex_finish : others :=
  {| before_begin := id; within_begin := id; while_publishing := fun l => (Idempotency.mark_terminal "TASK-a" "COMPLETED" l).2; before_reading := id |}.

Lemma mark_terminal_respects tid st : respects (fun l => (Idempotency.mark_terminal tid st l).2).
Proof.
  assert (G : forall l, Idempotency.lwf l -> Idempotency.lwf (Idempotency.mark_terminal tid st l).2 /\
    Idempotency.levolves l (Idempotency.mark_terminal tid st l).2 /\ (forall i, has_row l i -> has_row (Idempotency.mark_terminal tid st l).2 i)).
  { intros l W. destruct (Idempotency.by_task l tid) as [t|] eqn:T.
    - rewrite mark_terminal_is by by rewrite T. destruct (update_task_wf (Idempotency.set_status st false true) tid l (fun _ => eq_refl) W) as [W1 R1].
      split; [done|]. split; [|exact R1]. split; [|apply RuntimeThreads.evolves_refl]. intros u Hu.
      destruct (R1 (identity u)) as (u' & Hu' & E'); [by exists u|]. exists u'. injection E' as ? ? ? ?. done.
    - unfold Idempotency.mark_terminal, Idempotency.mark. rewrite T. split; [done|]. split; [apply Idempotency.levolves_refl|done]. }
  split; [split; intros l W; apply (G l W)|]. intros l i W. apply (G l W).
Qed.

Lemma ex_finish_respectful : respectful ex_finish.
Proof. split; try apply respects_id. apply mark_terminal_respects. Qed.

Lemma ex_failed_wf : Idempotency.lwf (ledger ex_failed).
Proof.
  set (l1 := (Idempotency.begin id (begin_request (ex_call "a") ex_rq "E-1") Idempotency.ex_ledger).2).
  assert (W1 : Idempotency.lwf l1).
  { destruct (Idempotency.begin id (begin_request (ex_call "a") ex_rq "E-1") Idempotency.ex_ledger) as [d l2] eqn:G.
    exact (proj1 (Idempotency.begin_cases _ _ _ _ _ Idempotency.ex_ledger_wf Idempotency.ledger_fair_id G)). }
  assert (E : ledger ex_failed = (Idempotency.mark_terminal "TASK-a" "SUBMISSION_FAILED" l1).2) by (vm_compute; reflexivity).
  rewrite E. apply (mark_terminal_respects "TASK-a" "SUBMISSION_FAILED"). exact W1.
Qed.

Lemma retry_overwrites_outcome_witness :
  exists t1 a w', Idempotency.by_key (while_publishing ex_finish (ledger ex_failed)) "k-1" = Some t1 /\ Idempotency.t_status t1 = "COMPLETED"%string /\
    submit ex_dumps ex_utf8 "tasks" ex_finish (ex_call "b") ex_rq "E-1" ex_failed = (Ok a, w') /\
    Idempotency.by_key (ledger w') "k-1" = Some (pending_again t1).
Proof.
  destruct (Idempotency.by_key (ledger ex_failed) "k-1") as [t|] eqn:K; [|vm_compute in K; discriminate K].
  destruct (Idempotency.by_key (while_publishing ex_finish (ledger ex_failed)) "k-1") as [t1|] eqn:K1; [|vm_compute in K1; discriminate K1].
  destruct (submit ex_dumps ex_utf8 "tasks" ex_finish (ex_call "b") ex_rq "E-1" ex_failed) as [[a|e] w'] eqn:E; [|vm_compute in E; discriminate E].
  exists t1, a, w'. split; [reflexivity|]. split; [vm_compute in K1; injection K1 as <-; reflexivity|]. split; [reflexivity|].
  refine (retry_overwrites_outcome ex_dumps ex_utf8 "tasks" ex_finish (ex_call "b") ex_rq "E-1" ex_failed t t1 "1-0" _ a w'
    ex_failed_wf ex_finish_respectful eq_refl K _ _ K1 E).
  - vm_compute in K. injection K as <-. reflexivity.
  - vm_compute in K. injection K as <-. reflexivity.
Defined.
