(* ===== verification/TaskResult.v ===== *)
(** * TaskResult: what a client reads of a dispatch task

    Models the read side of [app/services/dispatch_task_api_service.py]
    ([status], [result] and the projections of the dispatch evidence,
    [require_read_access]) and the routes [get_dispatch_task] and
    [get_dispatch_result] of [app/api/v1/dispatch_tasks.py], over the rows of
    Records and the evidence of Dispatch.  [model_validate] is
    [X.model_validate(v).model_dump(mode="json")] for the response models of
    [app/api/v1/schemas.py], which pydantic interprets; timestamps are
    parameters.  A query without an order reads the primary-key order.  The
    payload of an evidence row is a JSON object; the sign of a zero and the
    signal of a NaN are not kept. *)

From S2P Require Import Prelude Evidence Decimal DecimalText.
From S2P Require Idempotency Records Dispatch Decisions Submission Security Auth Events.

Local Open Scope Z_scope.
Local Open Scope list_scope.

Inductive schema :=
| PathResponse | VehicleCandidateResponse | VehicleAllocationResponse | RoadNodeResponse | RoadEdgeResponse | RealRoadRouteResponse
| RouteCandidateResponse | RoutePlanResponse | DispatchImpactResponse | TaskStatusResponse | TaskResultResponse.

(** The tables [result] reads. *)
Record view := View { rows : Records.store; evidence : list Dispatch.DispatchEvidence; anomaly_types : gmap Z string }.

Definition TaskAccessForbiddenError : exn := Exn "TaskAccessForbiddenError" "".
Definition ValueError (m : string) : exn := Exn "ValueError" m.

Section results.
Context (model_validate : schema -> pyval -> result pydict) (repr : pyval -> string).
Context (task_time : string -> Idempotency.DispatchTask -> pyval) (audit_created_at : Records.AuditRecord -> pyval) (aware : Z -> pyval).

Definition validated (s : schema) (d : pydict) : result pyval := d' ← model_validate s (PDict d); Ok (PDict d').

(** ** Projections of the evidence *)
Definition pick (source : pydict) (keys : list string) : pydict := omap (fun k => (fun v => (k, v)) <$> dict_get source k) keys.
Definition is_object (v : pyval) : bool := match v with PDict _ => true | _ => false end.
Definition mapping_list (v : pyval) : result (list pydict) :=
  match v with
  | PList l => if forallb is_object l then Ok (mappings l) else Err (ValueError "Evidence list is invalid.")
  | _ => Err (ValueError "Evidence list is invalid.")
  end.
Definition is_string (v : pyval) : bool := match v with PStr _ => true | _ => false end.
Definition strings (v : pyval) : result pyval :=
  match v with
  | PList l => if forallb is_string l then Ok v else Err (ValueError "Evidence identifier list is invalid.")
  | _ => Err (ValueError "Evidence identifier list is invalid.")
  end.

Definition path_keys : list string :=
  ["objective"; "node_ids"; "edge_ids"; "distance_km"; "estimated_minutes"; "risk_cost"; "visited_node_count"; "scoring_formula"]%string.
Definition path (v : pyval) : result pyval :=
  match v with
  | PNone => Ok PNone
  | PDict d => validated PathResponse (pick d path_keys)
  | _ => Err (ValueError "Path evidence must be an object.")
  end.

Definition projected (s : schema) (keys : list string) (v : pyval) : result pyval :=
  l ← mapping_list v; r ← map_result (fun d => validated s (pick d keys)) l; Ok (PList r).
Definition route_candidate_keys : list string :=
  ["route_id"; "route_name"; "objective"; "node_ids"; "edge_ids"; "distance_km"; "estimated_minutes"; "risk_level"; "risk_cost"; "visited_node_count";
   "available"; "reason"; "score"; "score_components"; "scoring_formula"; "algorithm_version"; "road_network_version"]%string.
Definition route_candidates : pyval -> result pyval := projected RouteCandidateResponse route_candidate_keys.
Definition road_nodes : pyval -> result pyval := projected RoadNodeResponse ["node_id"; "name"; "x_km"; "y_km"; "node_type"]%string.
Definition road_edges : pyval -> result pyval := projected RoadEdgeResponse
  ["edge_id"; "name"; "from_node_id"; "to_node_id"; "distance_km"; "base_minutes"; "road_level"; "risk_level"; "status"; "congestion_factor";
   "weight_limit_tons"; "bidirectional"; "version"]%string.
Definition real_road_route (v : pyval) : result pyval :=
  match v with PNone => Ok PNone | _ => d ← model_validate RealRoadRouteResponse v; Ok (PDict d) end.

Definition vehicle_candidate_keys : list string :=
  ["vehicle_id"; "driver_id"; "vehicle_status"; "driver_status"; "remaining_capacity_kg"; "gross_weight_tons"; "cargo_capability"; "pickup_route";
   "pickup_distance_km"; "pickup_eta_minutes"; "score"; "score_components"; "scoring_formula"; "eligible"; "exclusion_reasons"]%string.

(** [key in d and d[key] != expected]. *)
Definition conflicts (d : pydict) (key : string) (expected : option string) : bool :=
  match dict_get d key with Some v => negb (py_eq v (opt_str expected)) | None => false end.
Definition is_target (target_vehicle_id : option string) (c : pydict) : bool := py_eq (get c "vehicle_id") (opt_str target_vehicle_id).

Definition candidate_source (selected_candidate : pydict) (target_vehicle_id target_driver_id : option string) (c : pydict) : result pydict :=
  if is_target target_vehicle_id c then
    if conflicts c "driver_id" target_driver_id then Err (ValueError "Candidate driver identity conflicts with dispatch facts.")
    else Ok (Events.dict_set (Events.dict_set
               (Events.dict_update c (List.filter (fun kv => negb (one_of kv.1 ["vehicle_id"; "driver_id"]%string)) selected_candidate))
               "vehicle_id" (opt_str target_vehicle_id)) "driver_id" (opt_str target_driver_id))
  else Ok c.

Definition vehicle_candidates (payload : pydict) (target_vehicle_id target_driver_id : option string) : result (list pyval) :=
  if conflicts payload "target_vehicle_id" target_vehicle_id || conflicts payload "target_driver_id" target_driver_id
  then Err (ValueError "Fleet evidence identity conflicts with dispatch facts.") else
  raw ← mapping_list (get payload "candidates");
  let selected_candidate := default [] (is_mapping (get payload "selected_candidate")) in
  if conflicts selected_candidate "vehicle_id" target_vehicle_id || conflicts selected_candidate "driver_id" target_driver_id
  then Err (ValueError "Selected candidate identity conflicts with dispatch facts.") else
  output ← map_result (fun c => source ← candidate_source selected_candidate target_vehicle_id target_driver_id c;
                                validated VehicleCandidateResponse (pick source vehicle_candidate_keys)) raw;
  if negb (bool_decide (target_vehicle_id = None)) && negb (Nat.eqb (length (List.filter (is_target target_vehicle_id) raw)) 1)
  then Err (ValueError "Fleet evidence must contain exactly one selected vehicle.")
  else Ok output.

Definition of_type (ty : string) (r : Dispatch.DispatchEvidence) : bool := String.eqb (Dispatch.evidence_type r) ty.

Definition allocation_response (d : Dispatch.Dispatch) (fleet route : Dispatch.DispatchEvidence) : result pydict :=
  let fp := Dispatch.payload_json fleet in let rp := Dispatch.payload_json route in
  candidates ← vehicle_candidates fp (Dispatch.d_target_vehicle_id d) (Dispatch.d_target_driver_id d);
  pickup ← path (if is_none (get fp "pickup_route") then get rp "pickup_path" else get fp "pickup_route");
  model_validate VehicleAllocationResponse (PDict
    [("original_vehicle_id", opt_str (Dispatch.d_original_vehicle_id d)); ("target_vehicle_id", opt_str (Dispatch.d_target_vehicle_id d));
     ("target_driver_id", opt_str (Dispatch.d_target_driver_id d));
     ("vehicle_reassigned", PBool (negb (bool_decide (Dispatch.d_target_vehicle_id d = None))
        && negb (bool_decide (Dispatch.d_target_vehicle_id d = Dispatch.d_original_vehicle_id d))));
     ("candidate_vehicles", PList candidates); ("pickup_route", pickup); ("scoring_formula", PStr (Dispatch.ev_algorithm_version fleet))]%string).

Definition plan_response (route : Dispatch.DispatchEvidence) : result pydict :=
  let rp := Dispatch.payload_json route in
  recommended ← path (get rp "recommended_path");
  original ← path (get rp "original_path");
  candidates ← route_candidates (get rp "candidate_routes");
  blocked ← strings (get rp "blocked_edge_ids");
  nodes ← road_nodes (get rp "network_nodes");
  edges ← road_edges (get rp "network_edges");
  real ← real_road_route (get rp "real_road_route");
  model_validate RoutePlanResponse (PDict
    [("original_path", original); ("recommended_path", recommended); ("candidate_routes", candidates); ("blocked_edge_ids", blocked);
     ("distance_delta_km", get rp "distance_delta_km"); ("eta_delta_minutes", get rp "eta_delta_minutes");
     ("visited_node_count", match dict_get rp "visited_node_count" with
                            | Some v => v
                            | None => match recommended with PDict r => get r "visited_node_count" | _ => PNone end
                            end);
     ("routing_status", get rp "routing_status"); ("algorithm", PStr (Dispatch.ev_algorithm_version route));
     ("road_network_version", opt_int (Dispatch.ev_road_network_version route)); ("network_nodes", nodes); ("network_edges", edges); ("real_road_route", real)]%string).

Definition evidence_responses (d : Dispatch.Dispatch) (evidence_rows : list Dispatch.DispatchEvidence) : result (pyval * pyval) :=
  match List.find (of_type "FLEET_ALLOCATION") evidence_rows, List.find (of_type "ROUTE_CALCULATION") evidence_rows with
  | Some fleet, Some route =>
      if negb (Nat.eqb (length evidence_rows) 2) then Ok (PNone, PNone) else
      match (a ← allocation_response d fleet route; p ← plan_response route; Ok (PDict a, PDict p)) with
      | Ok r => Ok r
      | Err e => if raised_as ["TypeError"; "ValueError"; "ValidationError"]%string e then Ok (PNone, PNone) else Err e
      end
  | _, _ => Ok (PNone, PNone)
  end.

(** ** The impact of a reassignment *)
Definition decimal_value (v : pyval) : option decimal :=
  match v with PNone | PBool _ => None | _ => match number_text repr v with Some s => decimal_of_text s | None => None end end.
(** [format(value.quantize(Decimal("0.01")), "f")], ties to even. *)
Definition decimal_text (d : decimal) : result string :=
  match d with
  | NaN => Ok "NaN"%string
  | Infinite _ => Err InvalidOperation
  | Finite q => if Z.abs (half_even (q * pow10 2)) <? 10 ^ prec then Ok (format_fixed 2 q) else Err InvalidOperation
  end.
Definition decimal_sum (a b : decimal) : result decimal :=
  match a, b with
  | NaN, _ | _, NaN => Ok NaN
  | Infinite n, Infinite m => if Bool.eqb n m then Ok (Infinite n) else Err InvalidOperation
  | Infinite n, _ | _, Infinite n => Ok (Infinite n)
  | Finite x, Finite y => Ok (Finite (dec_add x y))
  end.
Definition opt_text (o : option decimal) : result pyval := match o with None => Ok PNone | Some d => s ← decimal_text d; Ok (PStr s) end.

Definition dispatch_impact (allocation route_plan : pyval) : result pyval :=
  match allocation, route_plan with
  | PDict a, PDict r =>
      match get a "vehicle_reassigned", get a "original_vehicle_id", get a "target_vehicle_id" with
      | PBool true, PStr incident, PStr replacement =>
          let pickup := default [] (is_mapping (get a "pickup_route")) in
          let pickup_distance := decimal_value (get pickup "distance_km") in
          let route_distance := decimal_value (get r "distance_delta_km") in
          let pickup_minutes := integer (get pickup "estimated_minutes") in
          let route_minutes := integer (get r "eta_delta_minutes") in
          pd ← opt_text pickup_distance;
          rd ← opt_text route_distance;
          total ← match pickup_distance, route_distance, pickup_minutes, route_minutes with
                  | Some x, Some y, Some m, Some n => s ← decimal_sum x y; t ← decimal_text s; Ok (Some (PStr t, PInt (m + n)))
                  | _, _, _, _ => Ok None
                  end;
          validated DispatchImpactResponse
            [("incident_vehicle_id", PStr incident); ("replacement_vehicle_id", PStr replacement);
             ("replacement_driver_id", match get a "target_driver_id" with PStr s => PStr s | _ => PNone end);
             ("pickup_distance_km", pd); ("pickup_eta_minutes", opt_int pickup_minutes); ("route_distance_delta_km", rd);
             ("route_eta_delta_minutes", opt_int route_minutes); ("total_distance_delta_km", match total with Some t => t.1 | None => PNone end);
             ("total_delay_minutes", match total with Some t => t.2 | None => PNone end);
             ("calculation_status", PStr (match total with Some _ => "CALCULATED" | None => "PARTIAL" end))]%string
      | _, _, _ => Ok PNone
      end
  | _, _ => Ok PNone
  end.

(** ** Status and result *)
Definition api_status (status : string) : string := if String.eqb status "APPROVED" then "COMPLETED" else status.
Definition the_task (s : view) (tid : string) : result Idempotency.DispatchTask := of_option Submission.TaskNotFoundError (Records.task_by_id (rows s) tid).

Definition status (s : view) (tid : string) : result pydict :=
  t ← the_task s tid;
  let st := api_status (Idempotency.t_status t) in
  Ok [("task_id", PStr (Idempotency.t_task_id t)); ("order_id", PInt (Idempotency.t_order_id t)); ("status", PStr st);
      ("started_at", task_time "started_at" t); ("completed_at", task_time "completed_at" t); ("created_at", task_time "created_at" t);
      ("ready", PBool (one_of st ["COMPLETED"; "REVIEW_REQUIRED"]%string)); ("requires_manual_review", PBool (String.eqb st "REVIEW_REQUIRED"))]%string.

Definition dispatch_of (s : view) (t : Idempotency.DispatchTask) : option Dispatch.Dispatch :=
  List.find (Records.of_task (Idempotency.t_id t)) (Records.dispatches (rows s)).
Definition evidence_of (s : view) (d : Dispatch.Dispatch) : list Dispatch.DispatchEvidence :=
  List.filter (fun e => Dispatch.ev_dispatch_id e =? Dispatch.d_id d) (evidence s).
Definition audit_of (s : view) (t : Idempotency.DispatchTask) : option Records.AuditRecord :=
  List.find (fun a => Records.a_task_id a =? Idempotency.t_id t) (Records.audits (rows s)).
Definition executed_statuses : list string := ["EXECUTED"; "COMPLETED"; "KEPT_ROUTE"; "REROUTED"]%string.

Definition dispatch_facts (route_visible : bool) (d : Dispatch.Dispatch) : pyval :=
  PDict [("dispatch_id", PInt (Dispatch.d_id d)); ("dispatch_no", PStr (Dispatch.dispatch_no d)); ("original_route_id", opt_str (Dispatch.d_original_route_id d));
         ("target_route_id", if route_visible then opt_str (Dispatch.d_target_route_id d) else PNone);
         ("decision_reason", if route_visible then opt_str (Dispatch.d_decision_reason d) else PNone);
         ("fallback_used", PBool (Dispatch.d_fallback_used d)); ("fallback_reason", opt_str (Dispatch.d_fallback_reason d));
         ("version", PInt (Dispatch.d_version d)); ("status", PStr (Dispatch.d_status d)); ("executed", PBool (one_of (Dispatch.d_status d) executed_statuses))]%string.
Definition audit_facts (a : Records.AuditRecord) : pyval :=
  PDict [("result", PStr (Records.a_result a)); ("reason", PStr (Records.a_reason a)); ("dispatch_id", PInt (Records.a_dispatch_id a)); ("created_at", audit_created_at a)]%string.
Definition publication_facts (s : view) (t : Idempotency.DispatchTask) (p : option Records.DispatchPublication) : pyval :=
  let recipient := Idempotency.t_assignee_subject_id t in
  PDict [("status", PStr (match p with None => "PENDING" | Some p => Records.p_status p end));
         ("route_id", match p with None => PNone | Some p => opt_str (Records.p_route_id p) end);
         ("route_instruction", match p with None => PNone | Some p => opt_str (Records.p_route_instruction p) end);
         ("published_at", match p with None => PNone | Some p => aware (Records.published_at p) end);
         ("published_by", match p with None => PNone | Some p => PStr (Records.published_by_display_name p) end);
         ("recipient_employee_id", opt_str recipient);
         ("recipient_display_name", match recipient with
            | Some i => match Records.accounts (rows s) !! i with Some a => PStr (Records.display_name a) | None => PStr i end
            | None => PNone end)]%string.

Definition ready_statuses : list string := ["APPROVED"; "COMPLETED"; "REVIEW_REQUIRED"]%string.

Definition result_of (s : view) (tid : string) (include_unpublished : bool) : result pydict :=
  t ← the_task s tid;
  let st := api_status (Idempotency.t_status t) in
  if negb (one_of (Idempotency.t_status t) ready_statuses)
  then Ok [("task_id", PStr (Idempotency.t_task_id t)); ("order_id", PInt (Idempotency.t_order_id t)); ("ready", PBool false); ("status", PStr st)]%string
  else
    let dispatch := dispatch_of s t in
    let publication := Records.publication_of_task (rows s) (Idempotency.t_id t) in
    let route_visible := include_unpublished || match publication with Some _ => true | None => false end in
    shown ← match dispatch with
            | Some d => if route_visible then evidence_responses d (evidence_of s d) else Ok (PNone, PNone)
            | None => Ok (PNone, PNone)
            end;
    impact ← dispatch_impact shown.1 shown.2;
    Ok [("task_id", PStr (Idempotency.t_task_id t)); ("order_id", PInt (Idempotency.t_order_id t)); ("ready", PBool true); ("status", PStr st);
        ("anomaly_type", match Idempotency.t_anomaly_id t with Some a => opt_str (anomaly_types s !! a) | None => PNone end);
        ("dispatch", match dispatch with Some d => dispatch_facts route_visible d | None => PNone end);
        ("audit", match audit_of s t with Some a => audit_facts a | None => PNone end);
        ("publication", publication_facts s t publication);
        ("vehicle_allocation", shown.1); ("route_plan", shown.2); ("dispatch_impact", impact)]%string.

Definition require_read_access (s : view) (tid subject_id : string) (can_read_all : bool) : result unit :=
  t ← the_task s tid;
  if negb can_read_all && negb (bool_decide (Idempotency.t_assignee_subject_id t = Some subject_id)) then Err TaskAccessForbiddenError else Ok tt.

(** ** The routes *)
Definition HTTPException (code : string) : exn := Exn "HTTPException" code.
(** [except TaskAccessForbiddenError] and [except TaskNotFoundError]. *)
Definition answer (r : result Submission.response) : result Submission.response :=
  match r with
  | Ok x => Ok x
  | Err e => if raised_as ["TaskAccessForbiddenError"%string] e then Ok (Submission.error_response 403 "TASK_ACCESS_FORBIDDEN" "只能查看分配给本人的任务。")
             else if raised_as ["TaskNotFoundError"%string] e then Err (HTTPException "TASK_NOT_FOUND") else Err e
  end.

Definition get_dispatch_task (s : view) (tid : string) (p : Auth.AuthenticatedPrincipal) : result Submission.response :=
  answer (_ ← require_read_access s tid (Security.subject_id (Auth.who p)) (Auth.can p Security.DISPATCH_CREATE);
          d ← status s tid; r ← model_validate TaskStatusResponse (PDict d);
          Ok {| Submission.status_code := 200; Submission.content := r |}).

Definition get_dispatch_result (s : view) (tid : string) (p : Auth.AuthenticatedPrincipal) : result Submission.response :=
  d ← answer (_ ← require_read_access s tid (Security.subject_id (Auth.who p)) (Auth.can p Security.DISPATCH_CREATE);
              d ← result_of s tid (Auth.can p Security.DISPATCH_REVIEW); Ok {| Submission.status_code := 200; Submission.content := d |});
  if Submission.status_code d =? 200 then
    r ← model_validate TaskResultResponse (PDict (Submission.content d));
    Ok {| Submission.status_code := if is_true (get r "ready") then 200 else 202; Submission.content := r |}
  else Ok d.
End results.

(** ** What an unpublished result does not tell *)

(** Two stores that differ in what is to be hidden: the target, the reason and the vehicles of the dispatches, and all evidence. *)
Record same_public_facts (d d' : Dispatch.Dispatch) : Prop := {
  sp_id : Dispatch.d_id d' = Dispatch.d_id d; sp_no : Dispatch.dispatch_no d' = Dispatch.dispatch_no d; sp_task : Dispatch.d_task_id d' = Dispatch.d_task_id d;
  sp_original : Dispatch.d_original_route_id d' = Dispatch.d_original_route_id d; sp_fallback : Dispatch.d_fallback_used d' = Dispatch.d_fallback_used d;
  sp_fallback_reason : Dispatch.d_fallback_reason d' = Dispatch.d_fallback_reason d; sp_status : Dispatch.d_status d' = Dispatch.d_status d;
  sp_version : Dispatch.d_version d' = Dispatch.d_version d;
}.
Record hidden_variant (s s' : view) : Prop := {
  hv_tasks : Records.tasks (rows s') = Records.tasks (rows s); hv_audits : Records.audits (rows s') = Records.audits (rows s);
  hv_publications : Records.publications (rows s') = Records.publications (rows s); hv_accounts : Records.accounts (rows s') = Records.accounts (rows s);
  hv_anomalies : anomaly_types s' = anomaly_types s;
  hv_dispatches : Forall2 same_public_facts (Records.dispatches (rows s)) (Records.dispatches (rows s'));
}.

Lemma find_Forall2 {A} (R : A -> A -> Prop) (p : A -> bool) l l' : Forall2 R l l' -> (forall x y, R x y -> p y = p x) ->
  match List.find p l, List.find p l' with Some x, Some y => R x y | None, None => True | _, _ => False end.
Proof. intros F H. induction F as [|x y l l' Rxy F IH]; [done|]. simpl. rewrite (H _ _ Rxy). by destruct (p x). Qed.

Lemma variant_dispatch s s' t : hidden_variant s s' ->
  match dispatch_of s t, dispatch_of s' t with Some d, Some d' => same_public_facts d d' | None, None => True | _, _ => False end.
Proof. intros V. apply (find_Forall2 same_public_facts); [apply V|]. intros x y S. unfold Records.of_task. by rewrite (sp_task _ _ S). Qed.

Lemma hidden_facts d d' : same_public_facts d d' -> dispatch_facts false d' = dispatch_facts false d.
Proof. intros [E1 E2 E3 E4 E5 E6 E7 E8]. unfold dispatch_facts. by rewrite E1, E2, E4, E5, E6, E7, E8. Qed.

Lemma variant_result mv repr created aware s s' tid : hidden_variant s s' ->
  (forall t, Records.task_by_id (rows s) tid = Some t -> Records.publication_of_task (rows s) (Idempotency.t_id t) = None) ->
  result_of mv repr created aware s' tid false = result_of mv repr created aware s tid false.
Proof.
  intros V N. unfold result_of, the_task. assert (T : Records.task_by_id (rows s') tid = Records.task_by_id (rows s) tid) by (unfold Records.task_by_id; by rewrite (hv_tasks _ _ V)).
  rewrite T. destruct (Records.task_by_id (rows s) tid) as [t|]; [|done]. specialize (N t eq_refl). cbn [of_option mbind result_bind].
  destruct (negb _); [done|]. assert (P : Records.publication_of_task (rows s') (Idempotency.t_id t) = None) by (unfold Records.publication_of_task; by rewrite (hv_publications _ _ V)).
  rewrite N, P. cbn [orb]. pose proof (variant_dispatch _ _ t V) as D. unfold audit_of, publication_facts. rewrite (hv_audits _ _ V), (hv_anomalies _ _ V), (hv_accounts _ _ V).
  destruct (dispatch_of s t) as [d|], (dispatch_of s' t) as [d'|]; try done. by rewrite (hidden_facts _ _ D).
Qed.

Lemma variant_access s s' tid subject all : hidden_variant s s' -> require_read_access s' tid subject all = require_read_access s tid subject all.
Proof. intros V. unfold require_read_access, the_task, Records.task_by_id. by rewrite (hv_tasks _ _ V). Qed.

(** C11: Until a task is published its result tells a reader who may not review
    nothing about the chosen route: whatever target, reason, vehicles and
    evidence the dispatch has, the answer is the same. *)
Theorem unpublished_result_hides_route mv repr created aware (s s' : view) (tid : string) (p : Auth.AuthenticatedPrincipal) :
  hidden_variant s s' -> Auth.can p Security.DISPATCH_REVIEW = false ->
  (forall t, Records.task_by_id (rows s) tid = Some t -> Records.publication_of_task (rows s) (Idempotency.t_id t) = None) ->
  get_dispatch_result mv repr created aware s' tid p = get_dispatch_result mv repr created aware s tid p.
Proof.
  intros V C N. unfold get_dispatch_result. rewrite C, (variant_access _ _ _ _ _ V). by rewrite (variant_result mv repr created aware _ _ _ V N).
Qed.

(** ** The evidence a dispatch wrote *)
Lemma dict_set_same (d : pydict) k v : NoDup (map fst d) -> dict_get d k = Some v -> Events.dict_set d k v = d.
Proof.
  intros N G. unfold Events.dict_set. assert (E : existsb (fun kv => String.eqb kv.1 k) d = true).
  { clear N. induction d as [|[k' v'] d IH]; [done|]. simpl in *. destruct (String.eqb k' k); [done|by apply IH]. }
  rewrite E. clear E. induction d as [|[k' v'] d IH]; [done|]. simpl in *. apply NoDup_cons in N as [Nk N].
  destruct (String.eqb_spec k' k) as [->|Ne]; [|by rewrite IH]. injection G as ->. f_equal. clear IH.
  induction d as [|[k1 v1] d IH]; [done|]. simpl in *. apply not_elem_of_cons in Nk as [Nk1 Nk]. apply NoDup_cons in N as [_ N].
  destruct (String.eqb_spec k1 k) as [->|]; [done|]. by rewrite IH.
Qed.

Lemma dict_update_same (d e : pydict) : NoDup (map fst d) -> (forall kv, kv ∈ e -> dict_get d kv.1 = Some kv.2) -> Events.dict_update d e = d.
Proof.
  intros N. unfold Events.dict_update. induction e as [|kv e IH]; [done|]. intros H. simpl. rewrite dict_set_same; [|done|apply H; left].
  apply IH. intros x Hx. apply H. by right.
Qed.

Lemma opt_str_eq a b : py_eq (opt_str a) (opt_str b) = bool_decide (a = b).
Proof.
  destruct a as [a|], b as [b|]; try done. simpl. destruct (String.eqb_spec a b) as [->|N]; [by rewrite bool_decide_eq_true_2|].
  rewrite bool_decide_eq_false_2; congruence.
Qed.

Lemma no_conflict d key o : dict_get d key = Some (opt_str o) -> conflicts d key o = false.
Proof. intros E. unfold conflicts. by rewrite E, opt_str_eq, bool_decide_eq_true_2. Qed.

Definition vehicle_of (c : pydict) : option string := text (Some c) "vehicle_id".
Definition driver_of (c : pydict) : option string := text (Some c) "driver_id".

Section written.
Context (mv : schema -> pyval -> result pydict) (repr : pyval -> string).
#[local] Abbreviation compact := (compact_vehicle_candidate repr).

Lemma is_target_compact o c : is_target o (compact c) = bool_decide (vehicle_of c = o).
Proof. apply opt_str_eq. Qed.

Lemma count_one {A} `{EqDecision A} (f : pydict -> A) l c : NoDup (map f l) -> c ∈ l ->
  length (List.filter (fun x => bool_decide (f x = f c)) l) = 1%nat /\ List.find (fun x => bool_decide (f x = f c)) l = Some c.
Proof.
  induction l as [|x l IH]; intros N; [by intros ?%elem_of_nil|]. apply NoDup_cons in N as [Nx N]. intros H. simpl.
  destruct (bool_decide_reflect (f x = f c)) as [E|E].
  - assert (x = c) as ->. { apply elem_of_cons in H as [->|H]; [done|]. destruct Nx. rewrite E. by apply Idempotency.elem_map. }
    split; [|done]. simpl. f_equal. clear IH H. induction l as [|y l IH]; [done|]. simpl in *. apply not_elem_of_cons in Nx as [Ny Nx]. apply NoDup_cons in N as [_ N].
    rewrite bool_decide_eq_false_2 by congruence. by apply IH.
  - apply elem_of_cons in H as [->|H]; [done|]. by apply IH.
Qed.

(** The candidate that is the target is shown as it was written. *)
Lemma source_compact c : candidate_source (compact_selected_candidate repr c) (vehicle_of c) (driver_of c) (compact c) = Ok (compact c).
Proof.
  unfold candidate_source. rewrite is_target_compact, bool_decide_eq_true_2 by done.
  assert (N : NoDup (map fst (compact c))) by (refine (bool_decide_unpack (NoDup (map fst (compact c))) _); vm_compute; exact I).
  rewrite no_conflict by done. rewrite dict_update_same; [|done|].
  - by rewrite (dict_set_same (compact c) "vehicle_id"), (dict_set_same (compact c) "driver_id").
  - intros kv. cbn [compact_selected_candidate List.filter fst one_of existsb String.eqb Ascii.eqb Bool.eqb negb].
    intros H. repeat (apply elem_of_cons in H as [->|H]; [reflexivity|]). by apply elem_of_nil in H.
Qed.

Lemma source_other sel tv td c : vehicle_of c <> tv -> candidate_source sel tv td (compact c) = Ok (compact c).
Proof. intros N. unfold candidate_source. by rewrite is_target_compact, bool_decide_eq_false_2. Qed.

Lemma mapping_list_compact cs : mapping_list (PList (map (fun c => PDict (compact c)) cs)) = Ok (map compact cs).
Proof.
  unfold mapping_list. assert (E : forallb is_object (map (fun c => PDict (compact c)) cs) = true) by (induction cs; done). rewrite E. f_equal.
  induction cs as [|c cs IH]; [done|]. simpl. f_equal. by apply IH.
Qed.

Lemma map_result_ext {A C} (f g : A -> result C) l : (forall x, x ∈ l -> f x = g x) -> map_result f l = map_result g l.
Proof. induction l as [|x l IH]; [done|]. intros H. simpl. rewrite (H x) by left. destruct (g x); [|done]. rewrite IH; [done|]. intros y Hy. apply H. by right. Qed.

Lemma shown_as_written cs original tv c :
  NoDup (map vehicle_of cs) -> (tv = None /\ c = None /\ None ∉ map vehicle_of cs \/ exists x, c = Some x /\ x ∈ cs /\ tv = vehicle_of x /\ tv <> None) ->
  vehicle_candidates mv (compact_fleet_evidence repr cs original tv) tv (text c "driver_id") =
    map_result (fun x => validated mv VehicleCandidateResponse (pick (compact x) vehicle_candidate_keys)) cs.
Proof.
  intros N Cases. assert (F : List.find (fun x => bool_decide (vehicle_of x = tv)) cs = c).
  { destruct Cases as [(-> & -> & No)|(x & -> & In & -> & _)]; [|by apply count_one].
    destruct (List.find _ cs) as [x|] eqn:E; [|done]. apply List.find_some in E as [In E%bool_decide_eq_true_1]. destruct No. rewrite <- E. apply Idempotency.elem_map. by apply list_elem_of_In. }
  unfold vehicle_candidates, compact_fleet_evidence. change (fun c0 : pydict => bool_decide (text (Some c0) "vehicle_id" = tv)) with (fun x => bool_decide (vehicle_of x = tv)).
  rewrite F, !no_conflict by reflexivity. cbn [orb]. change (get _ "candidates") with (PList (map (fun c => PDict (compact c)) cs)). rewrite mapping_list_compact. cbn [mbind result_bind].
  change (get _ "selected_candidate") with (opt_dict (compact_selected_candidate repr <$> c)).
  set (sel := default [] (is_mapping (opt_dict (compact_selected_candidate repr <$> c)))).
  assert (K : conflicts sel "vehicle_id" tv = false /\ conflicts sel "driver_id" (text c "driver_id") = false).
  { unfold sel. destruct c as [x|]; [|done]. destruct Cases as [(_ & [=] & _)|(x' & [= <-] & _ & -> & _)]. split; by apply no_conflict. }
  destruct K as [-> ->]. cbn [orb]. rewrite map_result_map.
  rewrite (map_result_ext _ (fun x => validated mv VehicleCandidateResponse (pick (compact x) vehicle_candidate_keys))).
  - destruct (map_result _ cs) as [l|e]; [|done]. cbn [mbind result_bind].
    destruct Cases as [(-> & _)|(x & -> & In & -> & Some_)]; [done|]. rewrite bool_decide_eq_false_2 by done. cbn [negb andb].
    assert (L : length (List.filter (is_target (vehicle_of x)) (map compact cs)) = length (List.filter (fun y => bool_decide (vehicle_of y = vehicle_of x)) cs)).
    { clear. induction cs as [|y cs IH]; [done|]. cbn [map List.filter]. rewrite is_target_compact. destruct (bool_decide _); simpl; by rewrite IH. }
    rewrite L. destruct (count_one vehicle_of cs x N In) as [-> _]. done.
  - intros x Hx. destruct (decide (vehicle_of x = tv)) as [E|E]; [|by rewrite source_other].
    destruct Cases as [(-> & _ & No)|(y & -> & In & -> & _)]; [destruct No; rewrite <- E; by apply Idempotency.elem_map|].
    assert (x = y) as ->. { destruct (count_one vehicle_of cs y N In) as [_ F1]. destruct (count_one vehicle_of cs x N Hx) as [_ F2]. rewrite E in F2. congruence. }
    unfold sel. cbn. by rewrite source_compact.
Qed.
End written.

(** The fleet evidence a dispatch commits is the one its result shows: the
    reader's identity checks hold for the vehicle and driver of the dispatch,
    it finds the selected candidate once, and every candidate is shown as it
    was written. *)
Theorem written_fleet_evidence_is_shown mv repr (d : Dispatch.db) (rq : Dispatch.request) (candidate : option pydict) (p : Dispatch.pending) (id : Z) (no : string) :
  Dispatch.read_phase d rq candidate = Dispatch.Pending p ->
  (forall c, candidate = Some c -> c ∈ Dispatch.candidate_vehicles rq) ->
  NoDup (map vehicle_of (Dispatch.candidate_vehicles rq)) -> None ∉ map vehicle_of (Dispatch.candidate_vehicles rq) ->
  exists fleet route, Dispatch.new_evidence repr rq p id = [fleet; route] /\
    let x := Dispatch.new_dispatch rq p id no in
    vehicle_candidates mv (Dispatch.payload_json fleet) (Dispatch.d_target_vehicle_id x) (Dispatch.d_target_driver_id x) =
      map_result (fun c => validated mv VehicleCandidateResponse (pick (compact_vehicle_candidate repr c) vehicle_candidate_keys)) (Dispatch.candidate_vehicles rq).
Proof.
  intros R In N No. eexists _, _. split; [reflexivity|]. cbn [Dispatch.payload_json Dispatch.new_dispatch Dispatch.d_target_vehicle_id Dispatch.d_target_driver_id].
  assert (P : Dispatch.p_target_vehicle p = text candidate "vehicle_id" /\ Dispatch.p_target_driver p = text candidate "driver_id" /\
    (candidate = None \/ text candidate "vehicle_id" <> None)).
  { unfold Dispatch.read_phase in R. destruct (Dispatch.find_task _ _); [|done]. destruct (Dispatch.get_by_task_id _ _); [done|].
    destruct candidate as [c|]; [|injection R as <-; auto]. destruct (text (Some c) "vehicle_id") as [v|]; [|done]. destruct (text (Some c) "driver_id") as [dr|]; [|done].
    destruct (_ !! v) as [row|]; [|done]. destruct (String.eqb _ _); [|done]. injection R as <-. auto. }
  destruct P as (-> & -> & C). apply shown_as_written; [done|]. destruct candidate as [c|]; [|by left].
  right. exists c. split; [done|]. split; [by apply In|]. split; [done|]. by destruct C.
Qed.

(** A review does not reach the result of its task: the audit shown is the
    first one, which asked for the review, next to the status the review set. *)
Theorem result_shows_the_audit_before_the_review mv repr created aware dumps iso clock tid reason p (s : view) r s' t a res :
  Decisions.decide dumps iso id clock tid Decisions.APPROVE reason p (rows s) = (Ok r, s') ->
  Records.task_by_id (rows s) tid = Some t -> audit_of s t = Some a ->
  result_of mv repr created aware (View s' (evidence s) (anomaly_types s)) tid true = Ok res ->
  get res "audit" = audit_facts created a /\ get res "status" = PStr "COMPLETED".
Proof.
  intros D T A R. destruct (Decisions.decide_inv _ _ _ _ _ _ _ _ _ _ _ D) as [(e & [=] & _)|(r' & t' & y & why & s1 & a' & _ & T' & _ & _ & _ & U & -> & _)].
  rewrite T in T'. injection T' as <-. destruct (Decisions.update_dispatch_inv _ _ _ _ U) as (f & _ & ->). unfold id in R.
  set (g := fun u => if Idempotency.t_id u =? Idempotency.t_id t then Decisions.task_decided "APPROVED" u else u).
  assert (T1 : Records.task_by_id (Records.with_audits (Records.with_dispatches (Decisions.update_task (Idempotency.t_id t) (Decisions.terminal_status Decisions.APPROVE) (rows s))
      (map f (Records.dispatches (Decisions.update_task (Idempotency.t_id t) (Decisions.terminal_status Decisions.APPROVE) (rows s))))) (Records.audits (rows s) ++ [a'])) tid = Some (g t)).
  { unfold Records.task_by_id in *. cbn [Records.with_audits Records.with_dispatches Decisions.update_task Records.with_tasks Records.tasks].
    change (fun u => if Idempotency.t_id u =? Idempotency.t_id t then _ else u) with g. rewrite find_map; [by rewrite T|]. intros u. unfold g. by destruct (_ =? _). }
  unfold result_of, the_task in R. cbn [rows] in R. rewrite T1 in R. cbn [of_option mbind result_bind] in R.
  assert (G : g t = Decisions.task_decided "APPROVED" t) by (unfold g; by rewrite Z.eqb_refl). rewrite G in R.
  cbn [Decisions.task_decided Idempotency.set_status Idempotency.t_status one_of ready_statuses existsb String.eqb Ascii.eqb Bool.eqb negb orb] in R.
  apply result_bind_ok in R as (shown & _ & R). apply result_bind_ok in R as (impact & _ & R). injection R as <-.
  split; [|reflexivity]. assert (A2 : List.find (fun x => Records.a_task_id x =? Idempotency.t_id t) (Records.audits (rows s) ++ [a']) = Some a).
  { unfold audit_of in A. by rewrite find_app, A. }
  transitivity (match List.find (fun x => Records.a_task_id x =? Idempotency.t_id t) (Records.audits (rows s) ++ [a']) with Some x => audit_facts created x | None => PNone end);
    [reflexivity|by rewrite A2].
Qed.

(** ** Witnesses *)
Definition ex_validate (s : schema) (v : pyval) : result pydict := match v with PDict d => Ok d | _ => Err (ValueError "invalid") end.
Definition ex_repr (v : pyval) : string := "".
Definition ex_created (a : Records.AuditRecord) : pyval := PNone.
Definition ex_aware (t : Z) : pyval := PInt t.
Definition ex_employee : Auth.AuthenticatedPrincipal :=
  {| Auth.who := {| Security.subject_id := "EMP-1"; Security.roles := []; Security.permissions := [Security.DISPATCH_READ] |}; Auth.display_name := "Li";
     Auth.auth_method := Auth.DEVELOPMENT_JWT; Auth.issued_at := 0; Auth.expires_at := 1; Auth.jti := "j" |}.
Definition ex_hidden : Dispatch.Dispatch :=
  {| Dispatch.d_id := 5; Dispatch.dispatch_no := "D-5"; Dispatch.d_order_id := 7; Dispatch.d_task_id := 1; Dispatch.d_original_route_id := Some "R1"%string;
     Dispatch.d_target_route_id := Some "R9"%string; Dispatch.d_original_vehicle_id := None; Dispatch.d_target_vehicle_id := None;
     Dispatch.d_target_driver_id := None; Dispatch.d_transfer_node_id := None; Dispatch.d_decision_reason := Some "secret"%string;
     Dispatch.d_recommended_action := None; Dispatch.d_analysis_mode := None; Dispatch.d_issue_subtype := None; Dispatch.d_fallback_used := false;
     Dispatch.d_fallback_reason := None; Dispatch.d_status := "EXECUTED"; Dispatch.d_version := 1 |}.
Definition ex_view : view := View (Records.ex_store "APPROVED") [] ∅.
Definition ex_variant : view := View (Records.with_dispatches (Records.ex_store "APPROVED") [ex_hidden]) [] ∅.

Lemma unpublished_result_hides_route_witness : exists r,
  get_dispatch_result ex_validate ex_repr ex_created ex_aware ex_view "TASK-1" ex_employee = Ok r /\ Submission.status_code r = 200 /\
  get_dispatch_result ex_validate ex_repr ex_created ex_aware ex_variant "TASK-1" ex_employee = Ok r.
Proof.
  destruct (get_dispatch_result ex_validate ex_repr ex_created ex_aware ex_view "TASK-1" ex_employee) as [r|e] eqn:E; [|vm_compute in E; discriminate E].
  exists r. split; [reflexivity|]. split; [vm_compute in E; injection E as <-; reflexivity|]. rewrite <- E.
  apply (unpublished_result_hides_route ex_validate ex_repr ex_created ex_aware ex_view ex_variant "TASK-1" ex_employee).
  - split; try reflexivity. constructor; [|constructor]. split; reflexivity.
  - reflexivity.
  - intros t _. reflexivity.
Defined.

Lemma written_fleet_evidence_is_shown_witness : exists fleet route l,
  Dispatch.new_evidence ex_repr (Dispatch.ex_rq Dispatch.ex_ranked) Dispatch.ex_p 1 = [fleet; route] /\
  vehicle_candidates ex_validate (Dispatch.payload_json fleet) (Some "V4"%string) (Some "D4"%string) = Ok l /\ length l = 2%nat.
Proof.
  destruct (written_fleet_evidence_is_shown ex_validate ex_repr Dispatch.ex_db (Dispatch.ex_rq Dispatch.ex_ranked) (Some (Dispatch.ex_candidate "V4" "D4")) Dispatch.ex_p 1 "DSP-1")
    as (fleet & route & E & S).
  - vm_compute. reflexivity.
  - intros c [= <-]. right. left.
  - refine (bool_decide_unpack (NoDup (map vehicle_of (Dispatch.candidate_vehicles (Dispatch.ex_rq Dispatch.ex_ranked)))) _). vm_compute. exact I.
  - refine (bool_decide_unpack (None ∉ map vehicle_of (Dispatch.candidate_vehicles (Dispatch.ex_rq Dispatch.ex_ranked))) _). vm_compute. exact I.
  - exists fleet, route. eexists. split; [exact E|]. split; [exact S|]. reflexivity.
Defined.

Definition ex_first : Records.AuditRecord :=
  {| Records.a_id := 1; Records.a_task_id := 1; Records.a_dispatch_id := 5; Records.a_result := "REVIEW_REQUIRED"; Records.a_reason := "manual"; Records.a_evidence_json := "{}" |}.
Definition ex_reviewed : view := View (Records.with_audits (Records.ex_store "REVIEW_REQUIRED") [ex_first]) [] ∅.
Lemma result_shows_the_audit_before_the_review_witness : exists r s' res,
  Decisions.decide Decisions.ex_dumps Decisions.ex_iso id (Some 10) "TASK-1" Decisions.APPROVE (Some "checked"%string) Decisions.ex_principal (rows ex_reviewed) = (Ok r, s') /\
  result_of ex_validate ex_repr ex_created ex_aware (View s' [] ∅) "TASK-1" true = Ok res /\
  get res "audit" = audit_facts ex_created ex_first /\ get res "status" = PStr "COMPLETED".
Proof.
  destruct (Decisions.decide Decisions.ex_dumps Decisions.ex_iso id (Some 10) "TASK-1" Decisions.APPROVE (Some "checked"%string) Decisions.ex_principal (rows ex_reviewed)) as [[r|e] s'] eqn:D;
    [|vm_compute in D; discriminate D].
  destruct (result_of ex_validate ex_repr ex_created ex_aware (View s' [] ∅) "TASK-1" true) as [res|e] eqn:R; [|vm_compute in D; injection D as _ <-; vm_compute in R; discriminate R].
  exists r, s', res. split; [reflexivity|]. split; [exact R|].
  exact (result_shows_the_audit_before_the_review ex_validate ex_repr ex_created ex_aware Decisions.ex_dumps Decisions.ex_iso (Some 10) "TASK-1" (Some "checked"%string)
    Decisions.ex_principal ex_reviewed r s' (Records.ex_task "REVIEW_REQUIRED") ex_first res D eq_refl eq_refl R).
Defined.
