(* ===== verification/AnomalyReports.v ===== *)
(** * AnomalyReports: a delivery employee reports a problem

    Models [app/anomaly_reports/service.py] and its repository
    [app/anomaly_reports/sqlalchemy_repository.py], and the route
    [report_anomaly] of [app/api/v1/anomaly_reports.py] without its security
    audit: a report is recorded once for its key and starts a dispatch task
    through Submission.  [env] is what other sessions commit to the table of
    anomalies before the insert. *)

From S2P Require Import Prelude Evidence.
From S2P Require Idempotency Streams Events Records Submission.

Local Open Scope Z_scope.
Local Open Scope list_scope.

(** ** Data *)
Record AnomalyReportCommand := {
  source_task_id : string;
  anomaly_type : string;
  description : string;
  location_text : string;
  reported_vehicle_status : string;
  severity : string;
  idempotency_key : string;
  incident_node_id : option string;
  affected_edge_id : option string;
}.
Record SourceTaskContext := {
  s_task_id : string;
  task_group : option string;
  assignee_subject_id : option string;
  s_order_id : Z;
  driver_id : option string;
  vehicle_id : option string;
  route_id : option string;
  can_report_anomaly : bool;
}.
(** A row of [anomalies]; the columns of a report are empty for other anomalies. *)
Record Anomaly := {
  a_id : Z; anomaly_no : string; a_order_id : Z; a_type : string; a_severity : string; a_description : string; a_status : string;
  a_reported_by : option string; a_source_task : option string; a_location : option string; a_vehicle_status : option string;
  report_key : option string; a_node : option string; a_edge : option string;
}.
Record PersistedAnomalyReport := { p_anomaly_id : Z; p_anomaly_no : string; p_order_id : Z; p_command : AnomalyReportCommand; reported_by_subject_id : string }.
Record AnomalyReportResult := { r_anomaly_id : Z; r_anomaly_no : string; r_task_id : string; r_status : string; duplicate : bool }.
(** The columns read of an order. *)
Record OrderRow := { o_driver : option string; o_vehicle : option string; o_route : option string; o_origin_station : option string; o_destination_station : option string }.

Definition SourceTaskNotFound : exn := Exn "SourceTaskNotFound" "".
Definition ReportSourceForbidden : exn := Exn "ReportSourceForbidden" "".
Definition SourceTaskEnded : exn := Exn "SourceTaskEnded" "".
Definition SourceTaskNotReportable : exn := Exn "SourceTaskNotReportable" "".
Definition SourceContextIncomplete : exn := Exn "SourceContextIncomplete" "".
Definition ReportIdempotencyConflict : exn := Exn "ReportIdempotencyConflict" "".
Definition IntegrityError : exn := Exn "IntegrityError" "".

(** A report: accepted, or [ReportQueueUnavailable] with the identifiers it carries. *)
Inductive outcome := Reported (r : AnomalyReportResult) | QueueUnavailable (anomaly_id : Z) (anomaly_no task_id : string).

Record tables := {
  anomalies : list Anomaly;
  order_rows : gmap Z OrderRow;
  assigned_driver : gmap string (option string);     (* the vehicles *)
  nodes : gset string;
  edges : gset string;
}.
Record desk (Q B : Type) := Desk { world : Submission.world Q B; tabs : tables }.
Arguments Desk {Q B} _ _.
Arguments world {Q B} _.
Arguments tabs {Q B} _.

(** ** The repository *)
Definition MY_TASK_STATUS_GROUPS : list (string * list string) :=
  [("READY", ["APPROVED"; "ASSIGNED"]); ("WAITING", ["PENDING"; "QUEUED"; "REVIEW_REQUIRED"]); ("ACTIVE", ["RUNNING"; "PROCESSING"; "IN_PROGRESS"]);
   ("ENDED", ["COMPLETED"; "REJECTED"; "FAILED"; "CANCELLED"])]%string.
Definition group_of (status : string) : option string := fst <$> List.find (fun g => one_of status g.2) MY_TASK_STATUS_GROUPS.

(** [x or y] on optional texts. *)
Definition or_text (x y : option string) : option string := match x with Some s => if String.eqb s "" then y else x | None => y end.
Definition nonempty (o : option string) : bool := match o with Some s => negb (String.eqb s "") | None => false end.

Definition route_of (o : OrderRow) : option string :=
  match o_route o with
  | Some r => Some r
  | None =>
      match o_origin_station o, o_destination_station o with
      | Some a, Some b => if negb (String.eqb a "") && negb (String.eqb b "") then Some ("SANDTABLE-" +:+ a +:+ "-" +:+ b) else None
      | _, _ => None
      end
  end.
Definition get_source_task (l : Idempotency.ledger) (ts : tables) (task_id : string) : option SourceTaskContext :=
  t ← Idempotency.by_task l task_id;
  o ← order_rows ts !! Idempotency.t_order_id t;
  Some {| s_task_id := Idempotency.t_task_id t; task_group := group_of (Idempotency.t_status t); assignee_subject_id := Idempotency.t_assignee_subject_id t;
          s_order_id := Idempotency.t_order_id t;
          driver_id := or_text (o_driver o) (v ← o_vehicle o; default None (assigned_driver ts !! v));
          vehicle_id := o_vehicle o; route_id := route_of o;
          can_report_anomaly := match Idempotency.t_anomaly_id t with None => true | Some _ => false end |}.

Definition text_or_empty (o : option string) : string := default ""%string o.
Definition report_record (a : Anomaly) : PersistedAnomalyReport :=
  {| p_anomaly_id := a_id a; p_anomaly_no := anomaly_no a; p_order_id := a_order_id a;
     p_command := {| source_task_id := text_or_empty (a_source_task a); anomaly_type := a_type a; description := a_description a; location_text := text_or_empty (a_location a);
       reported_vehicle_status := text_or_empty (a_vehicle_status a); severity := a_severity a; idempotency_key := text_or_empty (report_key a);
       incident_node_id := a_node a; affected_edge_id := a_edge a |};
     reported_by_subject_id := text_or_empty (a_reported_by a) |}.

Definition row_by_key (key : string) (l : list Anomaly) : option Anomaly := List.find (fun a => bool_decide (report_key a = Some key)) l.
Definition get_report_by_key (ts : tables) (key : string) : option PersistedAnomalyReport := report_record <$> row_by_key key (anomalies ts).

Definition new_anomaly (id : Z) (no : string) (c : AnomalyReportCommand) (src : SourceTaskContext) (who : string) : Anomaly :=
  {| a_id := id; anomaly_no := no; a_order_id := s_order_id src; a_type := anomaly_type c; a_severity := severity c; a_description := description c; a_status := "REPORTED";
     a_reported_by := Some who; a_source_task := Some (s_task_id src); a_location := Some (location_text c); a_vehicle_status := Some (reported_vehicle_status c);
     report_key := Some (idempotency_key c); a_node := incident_node_id c; a_edge := affected_edge_id c |}.
Definition known (o : option string) (s : gset string) : bool := match o with Some x => bool_decide (x ∈ s) | None => true end.
(** The unique columns and the foreign keys of [anomalies]. *)
Definition anomaly_accepted (ts : tables) (a : Anomaly) : bool :=
  negb (existsb (fun b => bool_decide (report_key b = report_key a) || String.eqb (anomaly_no b) (anomaly_no a)) (anomalies ts))
  && bool_decide (is_Some (order_rows ts !! a_order_id a)) && known (a_node a) (nodes ts) && known (a_edge a) (edges ts).
Definition with_anomalies (ts : tables) (l : list Anomaly) : tables :=
  {| anomalies := l; order_rows := order_rows ts; assigned_driver := assigned_driver ts; nodes := nodes ts; edges := edges ts |}.
Definition anomaly_number (hex : string) : string := "ANOM-" +:+ upper (String.substring 0 24 hex).
(** The task table refers to the anomalies. *)
Definition know_anomaly (id : Z) (l : Idempotency.ledger) : Idempotency.ledger :=
  {| Idempotency.tasks := Idempotency.tasks l; Idempotency.runtime := Idempotency.runtime l; Idempotency.dispatch_rows := Idempotency.dispatch_rows l;
     Idempotency.audit_rows := Idempotency.audit_rows l; Idempotency.known_orders := Idempotency.known_orders l;
     Idempotency.known_anomalies := {[id]} ∪ Idempotency.known_anomalies l; Idempotency.next_task := Idempotency.next_task l |}.

Section reports.
Context {Q B Sub : Type} `{Streams.StreamClient Q} `{Events.TaskEventBroker B Sub}.
Context (dumps : pyval -> string) (utf8 : string -> bool) (stream_name : string) (sha256_hex : string -> string).

Definition create_report (env : list Anomaly -> list Anomaly) (hex : string) (c : AnomalyReportCommand) (src : SourceTaskContext) (who : string) : action (desk Q B) PersistedAnomalyReport := fun d =>
  let ts := with_anomalies (tabs d) (env (anomalies (tabs d))) in
  let a := new_anomaly (Records.next_id a_id (anomalies ts)) (anomaly_number hex) c src who in
  if anomaly_accepted ts a then
    (Ok (report_record a), Desk (Submission.with_ledger (know_anomaly (a_id a) (Submission.ledger (world d))) (world d)) (with_anomalies ts (anomalies ts ++ [a])))
  else
    (match row_by_key (idempotency_key c) (anomalies ts) with Some b => Ok (report_record b) | None => Err IntegrityError end, Desk (world d) ts).

(** ** The service *)
Definition REPORTABLE_GROUPS : list string := ["READY"; "WAITING"; "ACTIVE"]%string.
Definition dispatch_key (key : string) : string := "anomaly-report:" +:+ sha256_hex key.
Definition normalized (c : AnomalyReportCommand) : AnomalyReportCommand :=
  {| source_task_id := strip (source_task_id c); anomaly_type := upper (strip (anomaly_type c)); description := strip (description c); location_text := strip (location_text c);
     reported_vehicle_status := upper (strip (reported_vehicle_status c)); severity := upper (strip (severity c)); idempotency_key := strip (idempotency_key c);
     incident_node_id := strip <$> incident_node_id c; affected_edge_id := strip <$> affected_edge_id c |}.

Definition same_report (r : PersistedAnomalyReport) (c : AnomalyReportCommand) (who : string) : bool :=
  let p := p_command r in
  String.eqb (source_task_id p) (source_task_id c) && String.eqb (anomaly_type p) (anomaly_type c) && String.eqb (description p) (description c)
  && String.eqb (location_text p) (location_text c) && String.eqb (reported_vehicle_status p) (reported_vehicle_status c) && String.eqb (severity p) (severity c)
  && bool_decide (incident_node_id p = incident_node_id c) && bool_decide (affected_edge_id p = affected_edge_id c)
  && String.eqb (reported_by_subject_id r) who.

Definition reportable (src : option SourceTaskContext) (who : string) : result SourceTaskContext :=
  match src with
  | None => Err SourceTaskNotFound
  | Some s =>
      if negb (bool_decide (assignee_subject_id s = Some who)) then Err ReportSourceForbidden
      else if negb (can_report_anomaly s) then Err SourceTaskNotReportable
      else if negb (match task_group s with Some g => one_of g REPORTABLE_GROUPS | None => false end) then Err SourceTaskEnded
      else if negb (nonempty (driver_id s) && nonempty (vehicle_id s) && nonempty (route_id s)) then Err SourceContextIncomplete
      else Ok s
  end.

Definition on_world {A} (m : action (Submission.world Q B) A) : action (desk Q B) A := fun d => let (r, w) := m (world d) in (r, Desk w (tabs d)).

(** The stored report of this key, created when there is none. *)
Definition stored_report (env : list Anomaly -> list Anomaly) (hex : string) (c : AnomalyReportCommand) (src : SourceTaskContext) (who : string) : action (desk Q B) (PersistedAnomalyReport * bool) := fun d =>
  match get_report_by_key (tabs d) (idempotency_key c) with
  | Some r => if same_report r c who then (Ok (r, true), d) else (Err ReportIdempotencyConflict, d)
  | None =>
      (do r <- create_report env hex c src who;
       if same_report r c who then ret_action (r, false) else raise_action ReportIdempotencyConflict)%action d
  end.

Definition dispatch_request (c : AnomalyReportCommand) (src : SourceTaskContext) (r : PersistedAnomalyReport) (who : string) : Submission.CreateDispatchTaskRequest :=
  {| Submission.order_id := s_order_id src; Submission.anomaly_id := Some (p_anomaly_id r); Submission.driver_id := text_or_empty (driver_id src);
     Submission.vehicle_id := text_or_empty (vehicle_id src); Submission.route_id := text_or_empty (route_id src); Submission.anomaly_type := anomaly_type c;
     Submission.anomaly_description := description c; Submission.idempotency_key := dispatch_key (idempotency_key c);
     Submission.vehicle_status := reported_vehicle_status c; Submission.assignee_employee_id := Some who; Submission.incident_node_id := incident_node_id c;
     Submission.affected_edge_id := affected_edge_id c |}.

(** [str(accepted[key])]: the answers of [submit] are texts. *)
Definition answer_text (a : pydict) (key : string) : string := match get a key with PStr s => s | _ => ""%string end.

Definition submit (env : list Anomaly -> list Anomaly) (o : Submission.others) (hex : string) (cl : Submission.call) (command : AnomalyReportCommand) (who : string) : action (desk Q B) outcome := fun d =>
  let c := normalized command in
  match reportable (get_source_task (Submission.ledger (world d)) (tabs d) (source_task_id c)) who with
  | Err e => (Err e, d)
  | Ok src =>
      (do rd <- stored_report env hex c src who;
       catch_action
         (do a <- on_world (Submission.submit dumps utf8 stream_name o cl (dispatch_request c src rd.1 who) who);
          ret_action (Reported {| r_anomaly_id := p_anomaly_id rd.1; r_anomaly_no := p_anomaly_no rd.1; r_task_id := answer_text a "task_id"; r_status := answer_text a "status";
                                  duplicate := rd.2 || is_true (get a "duplicate") |}))
         (fun e => if raised_as [exn_class Submission.IdempotencyConflictError] e then raise_action ReportIdempotencyConflict
                   else if raised_as [exn_class Submission.SubmissionQueueError] e then
                     fun d' => (Ok (QueueUnavailable (p_anomaly_id rd.1) (p_anomaly_no rd.1)
                                  (match Idempotency.by_key (Submission.ledger (world d')) (dispatch_key (idempotency_key c)) with Some t => Idempotency.t_task_id t | None => ""%string end)), d')
                   else raise_action e))%action d
  end.

(** ** The route *)
Definition unavailable_response (i : Z) (no task : string) : Submission.response :=
  {| Submission.status_code := 503; Submission.content :=
       [("code", PStr "REPORT_QUEUE_UNAVAILABLE"); ("message", PStr "问题已保存，但 AI 调度暂未启动。请使用相同内容重试。"); ("anomaly_id", PInt i);
        ("anomaly_no", PStr no); ("task_id", PStr task); ("retryable", PBool true)]%string |}.
Definition accepted_response (r : AnomalyReportResult) : Submission.response :=
  {| Submission.status_code := 202; Submission.content :=
       [("anomaly_id", PInt (r_anomaly_id r)); ("anomaly_no", PStr (r_anomaly_no r)); ("task_id", PStr (r_task_id r)); ("status", PStr (r_status r));
        ("accepted", PBool true); ("duplicate", PBool (duplicate r)); ("message", PStr "问题已上报，AI 调度已启动。")]%string |}.
Definition refusals : list (string * Submission.response) :=
  [(exn_class ReportSourceForbidden, Submission.error_response 403 "REPORT_SOURCE_FORBIDDEN" "只能为分配给本人的任务上报问题。");
   (exn_class SourceTaskNotFound, Submission.error_response 404 "SOURCE_TASK_NOT_FOUND" "没有找到原配送任务。");
   (exn_class SourceTaskNotReportable, Submission.error_response 409 "SOURCE_TASK_NOT_REPORTABLE" "AI 调度任务不能再次作为配送问题来源。");
   (exn_class SourceTaskEnded, Submission.error_response 409 "SOURCE_TASK_ENDED" "该配送任务已经结束，不能继续上报问题。");
   (exn_class ReportIdempotencyConflict, Submission.error_response 409 "IDEMPOTENCY_CONFLICT" "该幂等键已经用于另一份问题内容。");
   (exn_class SourceContextIncomplete, Submission.error_response 422 "SOURCE_CONTEXT_INCOMPLETE" "原任务缺少司机、车辆或路线信息，请联系调度员。")].

Definition report_anomaly (env : list Anomaly -> list Anomaly) (o : Submission.others) (hex : string) (cl : Submission.call) (command : AnomalyReportCommand) (who : string) : action (desk Q B) Submission.response :=
  catch_action
    (do x <- submit env o hex cl command who;
     ret_action (match x with Reported r => accepted_response r | QueueUnavailable i no t => unavailable_response i no t end))%action
    (fun e => match List.find (fun kr => String.eqb kr.1 (exn_class e)) refusals with Some (_, r) => ret_action r | None => raise_action e end).
End reports.

(** ** One report for a key *)
Definition keys_unique (l : list Anomaly) : Prop := NoDup (omap report_key l).
(** Other sessions add rows, and the unique column holds. *)
Definition adds_reports (env : list Anomaly -> list Anomaly) : Prop := forall l, keys_unique l -> keys_unique (env l) /\ forall a, a ∈ l -> a ∈ env l.

Lemma row_by_key_some key l a : row_by_key key l = Some a -> a ∈ l /\ report_key a = Some key.
Proof. intros [H E%bool_decide_eq_true_1]%List.find_some. by rewrite list_elem_of_In. Qed.

Lemma row_by_key_none key l : row_by_key key l = None <-> forall a, a ∈ l -> report_key a <> Some key.
Proof.
  split.
  - intros F a H%list_elem_of_In E. apply (List.find_none _ _ F) in H. by rewrite bool_decide_eq_false in H.
  - intros F. destruct (row_by_key key l) as [a|] eqn:E; [|done]. apply row_by_key_some in E as [H E]. by destruct (F a H).
Qed.

Lemma accepted_is_new ts a : anomaly_accepted ts a = true -> forall b, b ∈ anomalies ts -> report_key b <> report_key a.
Proof.
  unfold anomaly_accepted. intros [[[N _]%andb_true_iff _]%andb_true_iff _]%andb_true_iff b H E. apply negb_true_iff, Bool.not_true_iff_false in N.
  destruct N. apply existsb_exists. exists b. split; [by apply list_elem_of_In|]. by rewrite bool_decide_eq_true_2.
Qed.

Lemma unique_snoc l a : keys_unique l -> (forall b, b ∈ l -> report_key b <> report_key a) -> keys_unique (l ++ [a]).
Proof.
  intros U N. unfold keys_unique. rewrite omap_app. apply NoDup_app. split; [done|]. simpl. destruct (report_key a) as [k|] eqn:K; [|split; [set_solver|constructor]].
  split; [|apply NoDup_singleton]. intros x (b & H & E)%list_elem_of_omap ->%elem_of_one. by destruct (N b H).
Qed.

Section facts.
Context {Q B Sub : Type} `{Streams.StreamClientLaws Q} `{Events.TaskEventBroker B Sub}.
Context (dumps : pyval -> string) (utf8 : string -> bool) (stream_name : string) (sha256_hex : string -> string).
#[local] Abbreviation submit := (submit dumps utf8 stream_name sha256_hex).
#[local] Abbreviation dispatch_key := (dispatch_key sha256_hex).

(** The world after a report is stored differs by the anomalies the tasks may refer to. *)
Definition same_world (w w' : Submission.world Q B) : Prop := w' = w \/ exists i, w' = Submission.with_ledger (know_anomaly i (Submission.ledger w)) w.

Lemma stored_report_inv env hex c src who (d d1 : desk Q B) r dup :
  keys_unique (anomalies (tabs d)) -> adds_reports env -> stored_report env hex c src who d = (Ok (r, dup), d1) ->
  same_report r c who = true /\ keys_unique (anomalies (tabs d1)) /\ same_world (world d) (world d1) /\
  exists a, row_by_key (idempotency_key c) (anomalies (tabs d1)) = Some a /\ report_record a = r /\
    match row_by_key (idempotency_key c) (anomalies (tabs d)) with Some a0 => a = a0 /\ d1 = d /\ dup = true | None => dup = false end.
Proof.
  intros U E. unfold stored_report, get_report_by_key. destruct (row_by_key _ (anomalies (tabs d))) as [a0|] eqn:K; cbn [fmap option_fmap option_map].
  - destruct (same_report _ _ _) eqn:S; [|done]. intros [= <- <- <-]. split; [done|]. split; [done|]. split; [by left|]. by exists a0.
  - intros [(r1 & d2 & C & X)|(e & _ & [=])]%bind_action_inv. destruct (same_report r1 c who) eqn:S; [|done]. injection X as <- <- <-.
    split; [done|]. destruct (E _ U) as [U1 _]. unfold create_report in C. destruct (anomaly_accepted _ _) eqn:A.
    + injection C as <- <-. cbn [tabs world anomalies with_anomalies]. pose proof (accepted_is_new _ _ A) as N.
      split; [by apply unique_snoc|]. split; [right; by eexists|]. eexists. split; [|by split].
      unfold row_by_key in *. rewrite find_app. match goal with |- match ?x with _ => _ end = _ => assert (x = None) as -> end.
      { apply row_by_key_none. intros b Hb. exact (N b Hb). }
      cbn [List.find]. by rewrite bool_decide_eq_true_2.
    + destruct (row_by_key _ _) as [b|] eqn:K1 in C; [|done]. injection C as <- <-. split; [done|]. split; [by left|]. exists b. done.
Qed.

Lemma same_world_facts (w w' : Submission.world Q B) : same_world w w' -> Idempotency.lwf (Submission.ledger w) ->
  Idempotency.lwf (Submission.ledger w') /\ Idempotency.tasks (Submission.ledger w') = Idempotency.tasks (Submission.ledger w) /\
  Submission.queue w' = Submission.queue w /\ Submission.accounts w' = Submission.accounts w.
Proof. intros [->|[i ->]] W; [done|]. split; [|done]. by destruct W. Qed.

Lemma reportable_ok src who x : reportable src who = Ok x -> src = Some x /\ assignee_subject_id x = Some who /\ can_report_anomaly x = true /\
  (exists g, task_group x = Some g /\ g ∈ REPORTABLE_GROUPS) /\ nonempty (driver_id x) && nonempty (vehicle_id x) && nonempty (route_id x) = true.
Proof.
  unfold reportable. destruct src as [s|]; [|done]. destruct (bool_decide_reflect (assignee_subject_id s = Some who)) as [A|]; [|done]. cbn [negb].
  destruct (can_report_anomaly s) eqn:C; [|done]. cbn [negb]. destruct (task_group s) as [g|] eqn:G; [|done]. destruct (one_of g REPORTABLE_GROUPS) eqn:O; [|done]. cbn [negb].
  destruct (_ && _) eqn:N; [|done]. intros [= <-]. split_and!; try done. exists g. by rewrite <- one_of_true.
Qed.

(** C20: An accepted report is recorded once: the table has one row for its key,
    which says what the employee reported of a task assigned to him, and the
    ledger has one dispatch task for it, on the order of that task and
    assigned to him, which the answer names.  A report made again is answered
    from its row; a new one puts exactly one message in the stream. *)
Theorem accepted_report_recorded_once env o hex cl cmd who (d : desk Q B) r d' :
  Idempotency.lwf (Submission.ledger (world d)) -> keys_unique (anomalies (tabs d)) -> adds_reports env -> Submission.respectful o ->
  (forall w, same_world (world d) w -> Submission.fresh_id o cl w) ->
  submit env o hex cl cmd who d = (Ok (Reported r), d') ->
  let key := idempotency_key (normalized cmd) in
  keys_unique (anomalies (tabs d')) /\
  exists src a t, get_source_task (Submission.ledger (world d)) (tabs d) (source_task_id (normalized cmd)) = Some src /\ assignee_subject_id src = Some who /\
    row_by_key key (anomalies (tabs d')) = Some a /\ same_report (report_record a) (normalized cmd) who = true /\ r_anomaly_id r = a_id a /\ r_anomaly_no r = anomaly_no a /\
    Idempotency.by_key (Submission.ledger (world d')) (dispatch_key key) = Some t /\ Idempotency.t_task_id t = r_task_id r /\
    Idempotency.t_order_id t = s_order_id src /\ Idempotency.t_assignee_subject_id t = Some who /\
    (forall a0, row_by_key key (anomalies (tabs d)) = Some a0 -> a = a0 /\ duplicate r = true) /\
    (Idempotency.by_key (Submission.ledger (world d)) (dispatch_key key) = None ->
       exists m, Streams.contents (Submission.queue (world d')) stream_name = Streams.contents (Submission.queue (world d)) stream_name ++ [m]).
Proof.
  intros W U E O N S key. unfold AnomalyReports.submit in S. destruct (reportable _ who) as [src|e] eqn:R; [|done]. apply reportable_ok in R as (G & A & _).
  apply bind_action_inv in S as [([rp dup] & d1 & St & S)|(e & _ & [=])]. destruct (stored_report_inv _ _ _ _ _ _ _ _ _ U E St) as (Sr & U1 & Sw & a & K & <- & First).
  destruct (same_world_facts _ _ Sw W) as (W1 & T1 & Q1 & _). specialize (N _ Sw). cbn [fst snd] in S.
  unfold catch_action, on_world in S. unfold bind_action at 1 in S.
  destruct (Submission.submit dumps utf8 stream_name o cl _ who (world d1)) as [[ans|e] w'] eqn:X.
  2: { destruct (raised_as _ e); [done|]. destruct (raised_as _ e); done. }
  injection S as <- <-. cbn [tabs world]. split; [done|].
  destruct (Submission.submit_accepted _ _ _ _ _ _ _ _ _ _ W1 O N X) as (W2 & t & dup' & Kt & Same & -> & Sent).
  exists src, a, t. cbn [r_anomaly_id r_anomaly_no r_task_id duplicate report_record p_anomaly_id p_anomaly_no].
  unfold Submission.same_request in Same. apply andb_true_iff in Same as [So%Z.eqb_eq Sa%bool_decide_eq_true_1].
  split; [done|]. split; [done|]. split; [exact K|]. split; [done|]. split; [done|]. split; [done|]. split; [exact Kt|]. split; [done|]. split; [exact So|]. split; [exact Sa|]. split.
  - intros a0 K0. fold key in First. rewrite K0 in First. destruct First as (-> & _ & ->). done.
  - intros K0. cbn [Submission.idempotency_key dispatch_request] in Sent. fold key in Sent.
    assert (K1 : Idempotency.by_key (Submission.ledger (world d1)) (dispatch_key key) = None) by (unfold Idempotency.by_key in *; by rewrite T1).
    rewrite K1 in Sent. destruct Sent as (_ & _ & ->). rewrite Q1. by eexists.
Qed.

(** A reporter without an active employee account (an OIDC user, or one who was
    deactivated) gets no answer: the dispatch service refuses the assignee,
    which neither the report service nor its route handles, after the report
    has been stored. *)
Theorem unlisted_reporter_gets_no_answer env o hex cl cmd who (d : desk Q B) src :
  let c := normalized cmd in
  let ts := with_anomalies (tabs d) (env (anomalies (tabs d))) in
  let a := new_anomaly (Records.next_id a_id (anomalies ts)) (anomaly_number hex) c src who in
  reportable (get_source_task (Submission.ledger (world d)) (tabs d) (source_task_id c)) who = Ok src ->
  row_by_key (idempotency_key c) (anomalies (tabs d)) = None -> anomaly_accepted ts a = true -> same_report (report_record a) c who = true ->
  Submission.accounts (world d) !! who = None ->
  exists d', report_anomaly dumps utf8 stream_name sha256_hex env o hex cl cmd who d = (Err Submission.AssigneeNotFoundError, d') /\
    anomalies (tabs d') = anomalies ts ++ [a].
Proof.
  intros c ts a R K A S N. assert (St : stored_report env hex c src who d =
    (Ok (report_record a, false), Desk (Submission.with_ledger (know_anomaly (a_id a) (Submission.ledger (world d))) (world d)) (with_anomalies ts (anomalies ts ++ [a])))).
  { unfold stored_report, get_report_by_key. rewrite K. cbn [fmap option_fmap option_map]. unfold create_report, bind_action. cbv zeta. fold ts. fold a. rewrite A. by rewrite S. }
  eexists. split.
  - unfold report_anomaly, catch_action, bind_action at 1. unfold AnomalyReports.submit. fold c. rewrite R. rewrite (bind_action_ok _ _ _ _ _ St).
    unfold catch_action, on_world, bind_action. cbn [fst snd world]. unfold Submission.submit. cbn [dispatch_request Submission.assignee_employee_id].
    unfold Submission.require_active_delivery_employee. cbn [Submission.with_ledger Submission.accounts]. rewrite N. reflexivity.
  - reflexivity.
Qed.
End facts.

(** ** Witnesses: an employee reports a breakdown of his delivery *)
#[local] Existing Instance Streams.server_client.
#[local] Existing Instance Streams.server_laws.
#[local] Existing Instance Events.InMemory.in_memory.

Definition ex_source : Idempotency.begin_request :=
  {| Idempotency.b_task_id := "T-1"; Idempotency.b_order_id := 1; Idempotency.b_key := "k0"; Idempotency.b_anomaly_id := None; Idempotency.b_assignee := Some "E-1"%string |}.
Definition ex_ledger : Idempotency.ledger := (Idempotency.begin id ex_source Idempotency.ex_ledger).2.
Definition ex_tables : tables :=
  {| anomalies := []; order_rows := {[1 := {| o_driver := Some "D-1"%string; o_vehicle := Some "V-1"%string; o_route := Some "R-1"%string;
       o_origin_station := None; o_destination_station := None |}]}; assigned_driver := ∅; nodes := ∅; edges := ∅ |}.
Definition ex_desk (accounts : gmap string Records.DemoEmployeeAccount) : desk Streams.stream_server Events.InMemory.broker :=
  Desk (Submission.World ex_ledger {| Streams.sv_pending := ∅; Streams.sv_streams := ∅ |} (Some (Events.InMemoryFacts.empty_broker 10 10)) accounts) ex_tables.
Definition ex_accounts : gmap string Records.DemoEmployeeAccount :=
  {["E-1"%string := {| Records.display_name := "Li"; Records.role := "EMPLOYEE"; Records.is_active := true |}]}.
Definition ex_command : AnomalyReportCommand :=
  {| source_task_id := "T-1"; anomaly_type := "VEHICLE_BREAKDOWN"; description := "engine stopped"; location_text := "km 3"; reported_vehicle_status := "BROKEN";
     severity := "HIGH"; idempotency_key := "r-1"; incident_node_id := None; affected_edge_id := None |}.
Definition ex_sha (s : string) : string := s.

Lemma ex_report_ledger_wf : Idempotency.lwf ex_ledger.
Proof.
  unfold ex_ledger. destruct (Idempotency.begin id ex_source Idempotency.ex_ledger) as [r l] eqn:E.
  exact (proj1 (Idempotency.begin_cases _ _ _ _ _ Idempotency.ex_ledger_wf Idempotency.ledger_fair_id E)).
Qed.

Lemma adds_nothing : adds_reports id.
Proof. by split. Qed.

Lemma accepted_report_recorded_once_witness : exists r d' a m,
  submit Submission.ex_dumps Submission.ex_utf8 "tasks" ex_sha id Submission.nobody "a" (Submission.ex_call "a") ex_command "E-1" (ex_desk ex_accounts) = (Ok (Reported r), d') /\
  row_by_key "r-1" (anomalies (tabs d')) = Some a /\ r_anomaly_id r = a_id a /\ Streams.contents (Submission.queue (world d')) "tasks" = [m].
Proof.
  destruct (submit Submission.ex_dumps Submission.ex_utf8 "tasks" ex_sha id Submission.nobody "a" (Submission.ex_call "a") ex_command "E-1" (ex_desk ex_accounts)) as [[[r|i no t]|e] d'] eqn:E;
    [|vm_compute in E; discriminate E|vm_compute in E; discriminate E].
  destruct (accepted_report_recorded_once Submission.ex_dumps Submission.ex_utf8 "tasks" ex_sha id Submission.nobody "a" (Submission.ex_call "a") ex_command "E-1" (ex_desk ex_accounts) r d'
    ex_report_ledger_wf (NoDup_nil_2) adds_nothing Submission.nobody_respectful) as (_ & src & a & t & _ & _ & K & _ & I & _ & _ & _ & _ & _ & _ & M).
  - intros w Sw. assert (T : Idempotency.tasks (Submission.ledger w) = Idempotency.tasks ex_ledger) by (destruct (same_world_facts _ _ Sw ex_report_ledger_wf) as (_ & T & _); exact T).
    unfold Submission.fresh_id. cbn [Submission.nobody Submission.within_begin Submission.before_begin id]. rewrite T.
    assert (Y : map Idempotency.t_task_id (Idempotency.tasks ex_ledger) = ["T-1"%string]) by (vm_compute; reflexivity). rewrite Y. intros X%elem_of_one. discriminate X.
  - exact E.
  - destruct (M eq_refl) as [m Hm]. exists r, d', a, m. split; [reflexivity|]. split; [exact K|]. split; [exact I|exact Hm].
Defined.

Lemma unlisted_reporter_gets_no_answer_witness : exists d',
  report_anomaly Submission.ex_dumps Submission.ex_utf8 "tasks" ex_sha id Submission.nobody "a" (Submission.ex_call "a") ex_command "E-1" (ex_desk ∅) = (Err Submission.AssigneeNotFoundError, d') /\
  length (anomalies (tabs d')) = 1%nat.
Proof.
  destruct (reportable (get_source_task (Submission.ledger (world (ex_desk ∅))) (tabs (ex_desk ∅)) (source_task_id (normalized ex_command))) "E-1") as [src|e] eqn:R;
    [|vm_compute in R; discriminate R].
  destruct (unlisted_reporter_gets_no_answer Submission.ex_dumps Submission.ex_utf8 "tasks" ex_sha id Submission.nobody "a" (Submission.ex_call "a") ex_command "E-1" (ex_desk ∅) src R)
    as (d' & E & L).
  - reflexivity.
  - vm_compute in R. injection R as <-. vm_compute. reflexivity.
  - vm_compute in R. injection R as <-. vm_compute. reflexivity.
  - reflexivity.
  - exists d'. split; [exact E|]. rewrite L. reflexivity.
Defined.
