(* ===== verification/RealRoutes.v ===== *)
(** * RealRoutes: a planned route on real roads, behind a circuit breaker

    Models [app/services/circuit_breaker.py], [app/real_routes/service.py],
    the coordinates of [demo_coordinates.py] and what [amap_provider.py] reads
    of a response (the HTTP request and its timeout are parameters: a reply is
    a JSON value or an exception).  Every operation of the breaker runs under
    its lock, so concurrent requests are interleaved operations; its clock
    counts ticks; an exception is named by the class the source catches it as. *)

From S2P Require Import Prelude Evidence Decimal DecimalText.

Local Open Scope Z_scope.
Local Open Scope list_scope.

(** ** The circuit breaker *)
Inductive CircuitState := CLOSED | OPEN | HALF_OPEN.
#[export] Instance CircuitState_eq_dec : EqDecision CircuitState.
Proof. solve_decision. Defined.

Record CircuitBreaker := {
  failure_threshold : Z;
  recovery : Z;
  state : CircuitState;
  failure_count : Z;
  opened_at : option Z;
  probe_in_flight : bool;
}.
Definition circuit_breaker (threshold recovery_ticks : Z) : CircuitBreaker :=
  {| failure_threshold := threshold; recovery := recovery_ticks; state := CLOSED; failure_count := 0; opened_at := None; probe_in_flight := false |}.

Definition probing (b : CircuitBreaker) : CircuitBreaker :=
  {| failure_threshold := failure_threshold b; recovery := recovery b; state := HALF_OPEN; failure_count := failure_count b; opened_at := opened_at b; probe_in_flight := true |}.

(** The answer, and the breaker after it. *)
Definition allow_request (clock : Z) (b : CircuitBreaker) : bool * CircuitBreaker :=
  match state b with
  | CLOSED => (true, b)
  | OPEN =>
      match opened_at b with
      | None => (false, b)
      | Some t => if clock - t <? recovery b then (false, b) else (true, probing b)
      end
  | HALF_OPEN => if probe_in_flight b then (false, b) else (true, probing b)
  end.

Definition record_success (b : CircuitBreaker) : CircuitBreaker :=
  {| failure_threshold := failure_threshold b; recovery := recovery b; state := CLOSED; failure_count := 0; opened_at := None; probe_in_flight := false |}.

Definition open_at (clock count : Z) (b : CircuitBreaker) : CircuitBreaker :=
  {| failure_threshold := failure_threshold b; recovery := recovery b; state := OPEN; failure_count := count; opened_at := Some clock; probe_in_flight := false |}.
Definition counted (count : Z) (b : CircuitBreaker) : CircuitBreaker :=
  {| failure_threshold := failure_threshold b; recovery := recovery b; state := state b; failure_count := count; opened_at := opened_at b; probe_in_flight := probe_in_flight b |}.

Definition record_failure (clock : Z) (b : CircuitBreaker) : CircuitBreaker :=
  match state b with
  | HALF_OPEN => open_at clock (failure_count b) b
  | _ => if failure_threshold b <=? failure_count b + 1 then open_at clock (failure_count b + 1) b else counted (failure_count b + 1) b
  end.

(** ** Points and routes *)
Record GeoPoint := { node_id : option string; longitude : decimal; latitude : decimal }.
Record DrivingRouteResult := { d_distance_meters : Z; d_duration_seconds : Z; d_polyline : list GeoPoint }.
Record RealRoadRoute := {
  provider : string; source : string; r_status : string; coordinate_system : string; mapping_version : string;
  distance_meters : option Z; duration_seconds : option Z; waypoints : list GeoPoint; polyline : list GeoPoint; fallback_reason : option string;
}.
Definition ValueError (m : string) : exn := Exn "ValueError" m.

(** *** The coordinates of the demonstration network *)
Definition MAPPING_VERSION : string := "DEMO_AMAP_V1".
Definition NODE_COORDINATES : list (string * (string * string)) :=
  [("N01", ("103.044800", "25.226500")); ("N02", ("103.032000", "25.232000")); ("N03", ("103.057000", "25.239000")); ("N04", ("103.079000", "25.246000"));
   ("N05", ("103.104000", "25.252000")); ("N06", ("103.135000", "25.261000")); ("N07", ("103.018000", "25.207000")); ("N08", ("103.062000", "25.198000"));
   ("N09", ("103.105000", "25.214000")); ("N10", ("103.025000", "25.267000")); ("N11", ("103.013000", "25.303000")); ("N12", ("102.973000", "25.247000"));
   ("N13", ("103.072000", "25.158000")); ("N14", ("102.991000", "25.217000")); ("N15", ("103.077000", "25.228000")); ("N16", ("102.997000", "25.279000"));
   ("N17", ("103.132000", "25.293000")); ("N18", ("103.151000", "25.204000")); ("N19", ("103.051000", "25.220000")); ("N20", ("103.092000", "25.235000"));
   ("N21", ("103.117000", "25.225000")); ("N22", ("103.069000", "25.231000"))]%string.
Definition decimal_text (s : string) : result decimal := of_option InvalidOperation (decimal_of_text s).
Definition demo_geo_point (n : string) : result GeoPoint :=
  match List.find (fun e => String.eqb e.1 n) NODE_COORDINATES with
  | Some (_, (x, y)) => lon ← decimal_text x; lat ← decimal_text y; Ok {| node_id := Some n; longitude := lon; latitude := lat |}
  | None => Err (ValueError ("虚拟路线节点没有高德坐标映射: " +:+ n))
  end.
Definition demo_geo_points (ns : list string) : result (list GeoPoint) := map_result demo_geo_point ns.

(** ** What is read of a response *)
Definition decimal_eq (a b : decimal) : bool :=
  match a, b with Finite x, Finite y => Qeq_bool x y | Infinite n, Infinite m => Bool.eqb n m | _, _ => false end.
Definition geo_eq (a b : GeoPoint) : bool := bool_decide (node_id a = node_id b) && decimal_eq (longitude a) (longitude b) && decimal_eq (latitude a) (latitude b).

(** [value.split(separator)]; with [maxsplit] pieces at most. *)
Fixpoint split_on (sep : Ascii.ascii) (s : string) : list string :=
  match s with
  | EmptyString => [""%string]
  | String c s' => if Ascii.eqb c sep then ""%string :: split_on sep s'
                   else match split_on sep s' with p :: ps => String c p :: ps | [] => [String c EmptyString] end
  end.
Fixpoint split_once (sep : Ascii.ascii) (s : string) : option (string * string) :=
  match s with
  | EmptyString => None
  | String c s' => if Ascii.eqb c sep then Some (""%string, s') else (fun p => (String c p.1, p.2)) <$> split_once sep s'
  end.
Definition semicolon : Ascii.ascii := Ascii.ascii_of_nat 59.
Definition comma : Ascii.ascii := Ascii.ascii_of_nat 44.

Definition polyline_point (v : string) : result GeoPoint :=
  match split_once comma v with
  | None => Err (ValueError "not enough values to unpack")
  | Some (x, y) => lon ← decimal_text x; lat ← decimal_text y; Ok {| node_id := None; longitude := lon; latitude := lat |}
  end.

(** [int(v)]: a decimal text with an optional sign and single underscores
    between its digits, a truncated float, an integer. *)
Fixpoint int_digits (acc : Z) (after_digit : bool) (l : list Ascii.ascii) : option Z :=
  match l with
  | [] => if after_digit then Some acc else None
  | c :: l' => match digit_value c with
               | Some d => int_digits (10 * acc + d) true l'
               | None => if is_char 95 c && after_digit then int_digits acc false l' else None
               end
  end.
Definition int_of_text (s : string) : option Z :=
  let (neg, l) := read_sign (chars (strip s)) in (fun n => if neg : bool then - n else n) <$> int_digits 0 false l.
Definition truncated (q : Q) : Z := Z.quot (Qnum q) (Zpos (Qden q)).
Definition int_of (v : pyval) : result Z :=
  match v with
  | PInt z => Ok z
  | PBool b => Ok (if b then 1 else 0)
  | PStr s | PBytes s => of_option (ValueError "invalid literal for int() with base 10") (int_of_text s)
  | PFloat t | PDecimal t =>
      match decimal_of_text t with
      | Some (Finite q) => Ok (truncated q)
      | Some (Infinite _) => Err (Exn "OverflowError" "cannot convert float infinity to integer")
      | _ => Err (ValueError "cannot convert float NaN to integer")
      end
  | PNone | PList _ | PDict _ => Err (Exn "TypeError" "int() argument must be a string, a bytes-like object or a real number")
  end.

(** The points of a step are appended, but none equal to the one before it. *)
Definition append_point (l : list GeoPoint) (p : GeoPoint) : list GeoPoint :=
  match last l with Some q => if geo_eq q p then l else l ++ [p] | None => [p] end.
Fixpoint append_coordinates (l : list GeoPoint) (cs : list string) : result (list GeoPoint) :=
  match cs with [] => Ok l | c :: cs' => p ← polyline_point c; append_coordinates (append_point l p) cs' end.
Fixpoint steps_polyline (l : list GeoPoint) (steps : list pyval) : result (list GeoPoint) :=
  match steps with
  | [] => Ok l
  | PDict step :: rest =>
      match get step "polyline" with
      | PStr s => l' ← append_coordinates l (split_on semicolon s); steps_polyline l' rest
      | _ => steps_polyline l rest
      end
  | _ :: rest => steps_polyline l rest
  end.

Definition candidate (v : pyval) : result (option DrivingRouteResult) :=
  match v with
  | PDict path =>
      let duration := match get path "cost" with PDict cost => get cost "duration" | _ => get path "duration" end in
      match get path "steps" with
      | PList steps =>
          l ← steps_polyline [] steps;
          distance ← of_option (Exn "KeyError" "distance") (dict_get path "distance");
          m ← int_of distance;
          s ← int_of duration;
          Ok (if (m <=? 0) || (s <=? 0) || Nat.ltb (length l) 2 then None else Some {| d_distance_meters := m; d_duration_seconds := s; d_polyline := l |})
      | _ => Ok None
      end
  | _ => Ok None
  end.

Definition candidates (payload : pyval) : result (list DrivingRouteResult) :=
  match payload with
  | PDict p =>
      if negb (py_eq (get p "status") (PStr "1")) then Err (ValueError "provider rejected request") else
      match get p "route" with
      | PDict route =>
          match get route "paths" with
          | PList paths => cs ← map_result candidate paths; Ok (omap (fun o => o) (cs : list (option DrivingRouteResult)))
          | _ => Err (ValueError "missing paths")
          end
      | _ => Err (ValueError "missing route")
      end
  | _ => Err (ValueError "provider rejected request")
  end.

Definition ProviderTimeout : exn := Exn "ProviderTimeout" "AMap route provider timed out".
Definition ProviderResponseError : exn := Exn "ProviderResponseError" "AMap route provider response invalid".
Definition route_key (r : DrivingRouteResult) : Z * Z := (d_duration_seconds r, d_distance_meters r).

(** [AmapDrivingRouteProvider.plan] on what the request gave. *)
Definition amap_plan (reply : result pyval) : result DrivingRouteResult :=
  match (payload ← reply;
         cs ← candidates payload;
         of_option (ValueError "missing route candidates") (min_key route_key cs)) with
  | Ok r => Ok r
  | Err e => if raised_as ["TimeoutError"; "TimeoutException"]%string e then Err ProviderTimeout
             else if raised_as ["HTTPError"; "KeyError"; "TypeError"; "ValueError"; "decimal.InvalidOperation"]%string e then Err ProviderResponseError
             else Err e
  end.

(** ** The service *)
Definition fallback (points : list GeoPoint) (reason : string) : RealRoadRoute :=
  {| provider := "AMAP"; source := "CLIENT_WAYPOINT_FALLBACK"; r_status := "CLIENT_MATCH_REQUIRED"; coordinate_system := "GCJ02"; mapping_version := MAPPING_VERSION;
     distance_meters := None; duration_seconds := None; waypoints := points; polyline := points; fallback_reason := Some reason |}.
Definition verified (points : list GeoPoint) (r : DrivingRouteResult) : RealRoadRoute :=
  {| provider := "AMAP"; source := "AMAP_WEB_SERVICE"; r_status := "VERIFIED"; coordinate_system := "GCJ02"; mapping_version := MAPPING_VERSION;
     distance_meters := Some (d_distance_meters r); duration_seconds := Some (d_duration_seconds r); waypoints := points; polyline := d_polyline r; fallback_reason := None |}.
Definition unavailable : string := "AMap Web Service is temporarily unavailable.".
Definition ProviderError : list string := ["ProviderError"; "ProviderTimeout"; "ProviderResponseError"]%string.

(** What one call meets: the clock when it asks and when it reports a failure,
    the operations of other requests meanwhile, and the provider's answer. *)
Record meeting := { asked_at : Z; others : CircuitBreaker -> CircuitBreaker; replied : result DrivingRouteResult; failed_at : Z }.

Definition on_breaker (f : CircuitBreaker -> CircuitBreaker) (b : option CircuitBreaker) : option CircuitBreaker := f <$> b.
Definition ask (clock : Z) (b : option CircuitBreaker) : bool * option CircuitBreaker :=
  match b with None => (true, None) | Some c => let (a, c') := allow_request clock c in (a, Some c') end.

Definition plan (has_provider : bool) (m : meeting) (node_ids : list string) : action (option CircuitBreaker) RealRoadRoute := fun b =>
  if Nat.ltb (length node_ids) 2 then (Err (ValueError "A real-road route requires at least two mapped nodes."), b) else
  match demo_geo_points node_ids with
  | Err e => (Err e, b)
  | Ok points =>
      if negb has_provider then (Ok (fallback points "AMap Web Service is not configured."), b) else
      let (allowed, b1) := ask (asked_at m) b in
      if negb allowed then (Ok (fallback points unavailable), b1) else
      let b2 := on_breaker (others m) b1 in
      match replied m with
      | Ok route => (Ok (verified points route), on_breaker record_success b2)
      | Err e => if raised_as ProviderError e then (Ok (fallback points unavailable), on_breaker (record_failure (failed_at m)) b2) else (Err e, b2)
      end
  end.

(** ** The breaker's specification *)
Inductive operation := Ask (clock : Z) | Succeed | FailAt (clock : Z).
Definition perform (o : operation) (b : CircuitBreaker) : CircuitBreaker :=
  match o with Ask t => (allow_request t b).2 | Succeed => record_success b | FailAt t => record_failure t b end.
Definition run (ops : list operation) (b : CircuitBreaker) : CircuitBreaker := fold_left (fun b o => perform o b) ops b.

(** The history that counts: the failures since the last success, when the last of them was, and whether a request was let through since. *)
Record history := { failures : Z; last_failure : Z; let_through : bool }.
Definition no_history : history := {| failures := 0; last_failure := 0; let_through := false |}.
Definition admits (threshold recovery_ticks clock : Z) (h : history) : bool :=
  (failures h <? threshold) || negb (clock - last_failure h <? recovery_ticks) && negb (let_through h).
Definition recorded (threshold recovery_ticks : Z) (h : history) (o : operation) : history :=
  match o with
  | Succeed => no_history
  | FailAt t => {| failures := failures h + 1; last_failure := t; let_through := false |}
  | Ask t => {| failures := failures h; last_failure := last_failure h; let_through := let_through h || admits threshold recovery_ticks t h |}
  end.
Definition history_of (threshold recovery_ticks : Z) (ops : list operation) : history := fold_left (recorded threshold recovery_ticks) ops no_history.

(** The state of the breaker stands for the history. *)
Record stands_for (th rec : Z) (b : CircuitBreaker) (h : history) : Prop := {
  sf_threshold : failure_threshold b = th;
  sf_recovery : recovery b = rec;
  sf_failures : 0 <= failures h;
  sf_closed : state b = CLOSED <-> failures h < th;
  sf_count : state b = CLOSED -> failure_count b = failures h;
  sf_counted : state b <> CLOSED -> th <= failure_count b;
  sf_opened : state b <> CLOSED -> opened_at b = Some (last_failure h);
  sf_probe : state b <> CLOSED -> (state b = HALF_OPEN <-> let_through h = true) /\ probe_in_flight b = let_through h;
}.

Lemma stands_initially th rec : 1 <= th -> stands_for th rec (circuit_breaker th rec) no_history.
Proof. intros. split; simpl; try done. split; [lia|done]. Qed.

Lemma allow_is_admits th rec b h t : stands_for th rec b h -> (allow_request t b).1 = admits th rec t h.
Proof.
  intros [T R F C N K O P]. unfold allow_request, admits. destruct (state b) eqn:S.
  - destruct (Z.ltb_spec (failures h) th); [done|]. assert (CLOSED = CLOSED) as X by done. apply C in X. lia.
  - assert (NC : OPEN <> CLOSED) by done. rewrite (O NC), R. destruct (Z.ltb_spec (failures h) th) as [L|]; [by apply C in L|]. destruct (P NC) as [P1 P2].
    destruct (let_through h); [by destruct P1 as [_ P1]; specialize (P1 eq_refl)|]. cbn [orb]. rewrite andb_true_r. by destruct (_ <? _).
  - assert (NC : HALF_OPEN <> CLOSED) by done. destruct (Z.ltb_spec (failures h) th) as [L|]; [by apply C in L|]. destruct (P NC) as [[P1 _] P2]. rewrite P2, (P1 eq_refl). cbn. by rewrite andb_false_r.
Qed.

Lemma ask_stands th rec b h t : stands_for th rec b h -> stands_for th rec (allow_request t b).2 (recorded th rec h (Ask t)).
Proof.
  intros S. pose proof (allow_is_admits _ _ _ _ t S) as A. destruct S as [T R F C N K O P]. unfold recorded. rewrite <- A. unfold allow_request. clear A.
  destruct (state b) eqn:St.
  - split; cbn [fst snd failures last_failure let_through]; try done; rewrite ?St; try done.
  - assert (NC : OPEN <> CLOSED) by done. rewrite (O NC). destruct (P NC) as [P1 P2].
    destruct (t - last_failure h <? recovery b); cbn [fst snd]; rewrite ?orb_false_r, ?orb_true_r.
    + split; cbn [failures last_failure let_through]; rewrite ?St; try done.
    + split; cbn [failures last_failure let_through probing failure_threshold recovery state failure_count opened_at probe_in_flight]; try done.
      * split; [done|]. intros L. by apply C in L.
      * intros _. by apply K.
      * intros _. by apply O.
  - assert (NC : HALF_OPEN <> CLOSED) by done. destruct (P NC) as [[P1 _] P2]. rewrite P2, (P1 eq_refl). cbn [fst snd orb].
    split; cbn [failures last_failure let_through]; rewrite ?St; try done. intros _. split; [done|]. by rewrite P2, P1.
Qed.

Lemma fail_stands th rec b h t : stands_for th rec b h -> stands_for th rec (record_failure t b) (recorded th rec h (FailAt t)).
Proof.
  intros [T R F C N K O P]. unfold record_failure, recorded.
  assert (Opened : forall n, th <= n -> th <= failures h + 1 -> stands_for th rec (open_at t n b) {| failures := failures h + 1; last_failure := t; let_through := false |}).
  { intros n Hn Hf. split; cbn [failures last_failure let_through open_at failure_threshold recovery state failure_count opened_at probe_in_flight]; try done; try lia.
    split; [done|lia]. }
  assert (Late : state b <> CLOSED -> th <= failures h) by (intros NC; destruct (Z.lt_ge_cases (failures h) th) as [L|]; [by apply C in L|done]).
  destruct (state b) eqn:St.
  - rewrite T, (N eq_refl). destruct (Z.leb_spec th (failures h + 1)); [by apply Opened|].
    split; cbn [failures last_failure let_through counted failure_threshold recovery state failure_count opened_at probe_in_flight]; rewrite ?St; try done; try lia.
  - assert (NC : OPEN <> CLOSED) by done. specialize (K NC). specialize (Late NC). rewrite T. destruct (Z.leb_spec th (failure_count b + 1)); [apply Opened; lia|lia].
  - assert (NC : HALF_OPEN <> CLOSED) by done. apply Opened; [by apply K|]. specialize (Late NC). lia.
Qed.

Lemma run_stands th rec ops : 1 <= th -> stands_for th rec (run ops (circuit_breaker th rec)) (history_of th rec ops).
Proof.
  intros H. unfold run, history_of. assert (G : forall b h, stands_for th rec b h ->
    stands_for th rec (fold_left (fun b o => perform o b) ops b) (fold_left (recorded th rec) ops h)); [|by apply G, stands_initially].
  induction ops as [|o ops IH]; [done|]. intros b h S. simpl. apply IH. destruct o as [t| |t].
  - by apply ask_stands.
  - destruct S as [T R _ _ _ _ _ _]. simpl. split; simpl; try done; split; [lia|done].
  - by apply fail_stands.
Qed.

(** C15: Whatever concurrent requests did before, the breaker lets a request through
    exactly when fewer than [threshold] failures were reported since the last
    success, or the last of them is at least the recovery time ago and no
    request was let through since. *)
Theorem breaker_admits_exactly (threshold recovery_ticks clock : Z) (ops : list operation) :
  1 <= threshold ->
  (allow_request clock (run ops (circuit_breaker threshold recovery_ticks))).1 = admits threshold recovery_ticks clock (history_of threshold recovery_ticks ops).
Proof. intros H. apply allow_is_admits. by apply run_stands. Qed.

Lemma breaker_admits_exactly_witness :
  (allow_request 130 (run [FailAt 10; FailAt 20; Ask 25; Ask 125] (circuit_breaker 2 100))).1 = false /\
  (allow_request 130 (run [FailAt 10; FailAt 20; Ask 25] (circuit_breaker 2 100))).1 = true.
Proof.
  split; [rewrite (breaker_admits_exactly 2 100 130 [FailAt 10; FailAt 20; Ask 25; Ask 125]); [reflexivity|lia]|].
  rewrite (breaker_admits_exactly 2 100 130 [FailAt 10; FailAt 20; Ask 25]); [reflexivity|lia].
Defined.

(** ** What a response must hold *)
Definition no_repeats (l : list GeoPoint) : Prop := forall i p q, l !! i = Some p -> l !! S i = Some q -> geo_eq p q = false.
Record drivable (r : DrivingRouteResult) : Prop := {
  dr_distance : 0 < d_distance_meters r;
  dr_duration : 0 < d_duration_seconds r;
  dr_points : (2 <= length (d_polyline r))%nat;
  dr_repeats : no_repeats (d_polyline r);
}.

Lemma append_point_no_repeats l p : no_repeats l -> no_repeats (append_point l p).
Proof.
  intros N. unfold append_point. destruct (last l) as [q|] eqn:E.
  - destruct (geo_eq q p) eqn:G; [done|]. rewrite last_lookup in E. intros i x y Hx Hy. destruct (decide (S i < length l)%nat) as [L|L].
    + rewrite lookup_app_l in Hx, Hy by lia. by apply (N i).
    + assert (i = Nat.pred (length l)) as ->.
      { apply lookup_lt_Some in Hy. rewrite length_app in Hy. simpl in Hy. lia. }
      assert (0 < length l)%nat by (destruct l; [done|simpl; lia]). rewrite lookup_app_l in Hx by lia. rewrite E in Hx. injection Hx as <-.
      rewrite lookup_app_r in Hy by lia. replace (S (Nat.pred (length l)) - length l)%nat with 0%nat in Hy by lia. simpl in Hy. by injection Hy as <-.
  - apply last_None in E as ->. intros [|i] x y Hx Hy; [done|]. simpl in Hx. by rewrite lookup_nil in Hx.
Qed.

Lemma append_coordinates_no_repeats cs l l' : no_repeats l -> append_coordinates l cs = Ok l' -> no_repeats l'.
Proof.
  revert l. induction cs as [|c cs IH]; intros l N; [by intros [= <-]|]. intros (p & _ & E)%result_bind_ok. apply IH in E; [done|]. by apply append_point_no_repeats.
Qed.

Lemma steps_no_repeats steps l l' : no_repeats l -> steps_polyline l steps = Ok l' -> no_repeats l'.
Proof.
  revert l. induction steps as [|v steps IH]; intros l N; [by intros [= <-]|]. cbn [steps_polyline]. destruct v as [| | | | |s|s|vs|d]; try by apply IH.
  destruct (get d "polyline"); try by apply IH. intros (l1 & E1 & E2)%result_bind_ok. apply IH in E2; [done|]. by apply append_coordinates_no_repeats in E1.
Qed.

Lemma candidate_drivable v c : candidate v = Ok (Some c) -> drivable c.
Proof.
  unfold candidate. destruct v as [| | | | | | | |path]; try done. destruct (get path "steps") as [| | | | | | |steps|]; try done.
  intros (l & L & X)%result_bind_ok. apply result_bind_ok in X as (dist & _ & X). apply result_bind_ok in X as (m & _ & X). apply result_bind_ok in X as (t & _ & X).
  destruct (Z.leb_spec m 0), (Z.leb_spec t 0), (Nat.ltb_spec (length l) 2); try done. injection X as <-. split; simpl; try done.
  apply (steps_no_repeats steps []); [|done]. by intros [|i].
Qed.

Lemma candidates_drivable payload cs c : candidates payload = Ok cs -> c ∈ cs -> drivable c.
Proof.
  unfold candidates. destruct payload as [| | | | | | | |p]; try done. destruct (negb _); [done|]. destruct (get p "route") as [| | | | | | | |r]; try done.
  destruct (get r "paths") as [| | | | | | |paths|]; try done. intros (os & M & [= <-])%result_bind_ok (o & Ho & ->)%list_elem_of_omap.
  destruct (map_result_elem _ _ _ _ M Ho) as (v & _ & E). by apply candidate_drivable in E.
Qed.

Lemma geo_points_named ns points : demo_geo_points ns = Ok points -> map node_id points = map Some ns.
Proof.
  unfold demo_geo_points. revert points. induction ns as [|n ns IH]; intros points; [by intros [= <-]|].
  cbn [map_result]. intros (p & P & X)%result_bind_ok. apply result_bind_ok in X as (ps & Ps & [= <-]). simpl. f_equal; [|by apply IH].
  unfold demo_geo_point in P. destruct (List.find _ _) as [[k [x y]]|]; [|done]. apply result_bind_ok in P as (lon & _ & P). by apply result_bind_ok in P as (lat & _ & [= <-]).
Qed.

Lemma amap_plan_ok reply c : amap_plan reply = Ok c -> exists payload cs, reply = Ok payload /\ candidates payload = Ok cs /\ min_key route_key cs = Some c.
Proof.
  unfold amap_plan. set (x := mbind _ reply). destruct x as [c'|e] eqn:X; [|by repeat case_match]. intros [= ->]. unfold x in X.
  apply result_bind_ok in X as (payload & -> & X). apply result_bind_ok in X as (cs & Cs & X). exists payload, cs. split; [done|]. split; [done|].
  by destruct (min_key route_key cs); [injection X as ->|].
Qed.

Ltac falls_back := eexists _, _; split; [reflexivity|]; split; [done|]; split; [done|]; left; by eexists.

(** Planning never fails for the sake of the map service: for two or more
    nodes with coordinates the answer is a route along them.  It is the
    fastest, then shortest, candidate of the response, with a positive
    distance and duration and a line that never repeats a point, or it is the
    line of the nodes themselves, marked for the client to match. *)
Theorem planning_always_answers (has_provider : bool) (clock failed : Z) (others : CircuitBreaker -> CircuitBreaker) (reply : result pyval) (nodes : list string)
    (points : list GeoPoint) (b : option CircuitBreaker) :
  (2 <= length nodes)%nat -> demo_geo_points nodes = Ok points ->
  (forall e, amap_plan reply = Err e -> raised_as ProviderError e = true) ->
  exists r b', plan has_provider {| asked_at := clock; others := others; replied := amap_plan reply; failed_at := failed |} nodes b = (Ok r, b') /\
    waypoints r = points /\ map node_id points = map Some nodes /\
    ((exists reason, r = fallback points reason) \/
     exists payload cs c, reply = Ok payload /\ candidates payload = Ok cs /\ r = verified points c /\ c ∈ cs /\ drivable c /\
       forall c', c' ∈ cs -> py_le (route_key c) (route_key c') = true).
Proof.
  intros L P H. pose proof (geo_points_named _ _ P) as Nm. unfold plan. destruct (Nat.ltb_spec (length nodes) 2); [lia|]. rewrite P.
  destruct has_provider; cbn [negb]; [|falls_back]. cbn [asked_at RealRoutes.others replied failed_at]. destruct (ask clock b) as [[] b1]; cbn [negb]; [|falls_back].
  destruct (amap_plan reply) as [c|e] eqn:A; [|rewrite (H e eq_refl); falls_back].
  eexists _, _. split; [reflexivity|]. split; [done|]. split; [done|]. right. destruct (amap_plan_ok _ _ A) as (payload & cs & -> & Cs & M). pose proof (min_key_elem _ _ _ M) as In.
  exists payload, cs, c. split_and!; try done; [by apply (candidates_drivable payload cs)|]. intros c' In'. exact (min_key_le _ _ _ _ M In').
Qed.

(** A probe that is cancelled is never reported: the breaker stays half open
    with its probe in flight, so that no later request ever reaches the
    provider. *)
Theorem cancelled_probe_blocks_for_ever (m : meeting) (nodes : list string) (points : list GeoPoint) (c : CircuitBreaker) (e : exn) :
  (2 <= length nodes)%nat -> demo_geo_points nodes = Ok points ->
  state c <> CLOSED -> (allow_request (asked_at m) c).1 = true -> others m = id -> replied m = Err e -> raised_as ProviderError e = false ->
  exists stuck, plan true m nodes (Some c) = (Err e, Some stuck) /\
    forall m' nodes' points', (2 <= length nodes')%nat -> demo_geo_points nodes' = Ok points' ->
      plan true m' nodes' (Some stuck) = (Ok (fallback points' unavailable), Some stuck).
Proof.
  intros L P NC A Q R F. exists (probing c). split.
  - unfold plan. destruct (Nat.ltb_spec (length nodes) 2); [lia|]. rewrite P. cbn [negb ask].
    assert (X : allow_request (asked_at m) c = (true, probing c)).
    { unfold allow_request in *. destruct (state c); [done|destruct (opened_at c); [destruct (_ <? _)|]; done|destruct (probe_in_flight c); done]. }
    rewrite X. cbn [negb]. by rewrite R, F, Q.
  - intros m' nodes' points' L' P'. unfold plan. destruct (Nat.ltb_spec (length nodes') 2); [lia|]. by rewrite P'.
Qed.

(** *** Witnesses *)
Definition ex_step (line : string) : pyval := PDict [("polyline", PStr line)]%string.
Definition ex_path (duration : string) : pyval :=
  PDict [("distance", PStr "1200"); ("cost", PDict [("duration", PStr duration)]); ("steps", PList [ex_step "103.1,25.2;103.2,25.2"; ex_step "103.2,25.2;103.2,25.3"])]%string.
Definition ex_payload : pyval := PDict [("status", PStr "1"); ("route", PDict [("paths", PList [ex_path "300"; ex_path "240"])])]%string.

Lemma planning_always_answers_witness : exists r b' c,
  plan true {| asked_at := 0; others := id; replied := amap_plan (Ok ex_payload); failed_at := 1 |} ["N01"; "N02"]%string (Some (circuit_breaker 3 30)) = (Ok r, b') /\
  r_status r = "VERIFIED"%string /\ duration_seconds r = Some 240 /\ drivable c /\ length (d_polyline c) = 3%nat.
Proof.
  destruct (demo_geo_points ["N01"; "N02"]%string) as [points|e] eqn:P; [|vm_compute in P; discriminate P].
  destruct (planning_always_answers true 0 1 id (Ok ex_payload) ["N01"; "N02"]%string points (Some (circuit_breaker 3 30)) ltac:(simpl; lia) P) as (r & b' & E & _ & _ & D).
  - intros e H. vm_compute in H. discriminate H.
  - assert (S : (fun x : result RealRoadRoute => match x with Ok r => (r_status r, duration_seconds r) | Err _ => (""%string, None) end)
      (plan true {| asked_at := 0; others := id; replied := amap_plan (Ok ex_payload); failed_at := 1 |} ["N01"; "N02"]%string (Some (circuit_breaker 3 30))).1 = ("VERIFIED"%string, Some 240))
      by (vm_compute; reflexivity).
    rewrite E in S. cbn in S. injection S as S1 S2. destruct D as [(reason & ->)|(payload & cs & c & [= <-] & Cs & -> & In & Dr & _)]; [discriminate S1|].
    exists (verified points c), b', c. split; [exact E|]. split; [exact S1|]. split; [exact S2|]. split; [exact Dr|].
    assert (K : forallb (fun x => Nat.eqb (length (d_polyline x)) 3) (match candidates ex_payload with Ok l => l | Err _ => [] end) = true) by (vm_compute; reflexivity).
    rewrite Cs in K. apply list_elem_of_In in In. apply Nat.eqb_eq. exact (proj1 (forallb_forall _ _) K c In).
Defined.

Definition ex_open : CircuitBreaker := run [FailAt 10; FailAt 20] (circuit_breaker 2 100).
Lemma cancelled_probe_blocks_for_ever_witness : exists stuck points,
  plan true {| asked_at := 500; others := id; replied := Err (Exn "CancelledError" ""); failed_at := 0 |} ["N01"; "N02"]%string (Some ex_open) = (Err (Exn "CancelledError" ""), Some stuck) /\
  plan true {| asked_at := 100000; others := id; replied := amap_plan (Ok ex_payload); failed_at := 0 |} ["N01"; "N02"]%string (Some stuck) = (Ok (fallback points unavailable), Some stuck).
Proof.
  destruct (demo_geo_points ["N01"; "N02"]%string) as [points|e] eqn:P; [|vm_compute in P; discriminate P].
  destruct (cancelled_probe_blocks_for_ever {| asked_at := 500; others := id; replied := Err (Exn "CancelledError" ""); failed_at := 0 |} ["N01"; "N02"]%string points ex_open (Exn "CancelledError" ""))
    as (stuck & E & Later); [simpl; lia|exact P|discriminate|reflexivity|reflexivity|reflexivity|reflexivity|].
  exists stuck, points. split; [exact E|]. apply Later; [simpl; lia|exact P].
Defined.
