(* ===== verification/Recommendations.v ===== *)
(** * Recommendations: what to do about a reported problem

    Models [app/recommendations/service.py] and its model: the rules that
    name the category and the subtype of a report, the advice to the driver and
    the check of the recommended route.  Keywords are looked up in UTF-8 texts. *)

From S2P Require Import Prelude Evidence.

Local Open Scope Z_scope.
Local Open Scope list_scope.

Definition KNOWN_CATEGORIES : list string := ["VEHICLE_BREAKDOWN"; "ROAD_BLOCKED"; "ROAD_HAZARD"; "WEATHER"; "CARGO"; "CAPACITY"; "OTHER"]%string.
Definition NON_ROUTE_CATEGORIES : list string := ["VEHICLE_BREAKDOWN"; "CARGO"; "CAPACITY"; "OTHER"]%string.

Record IssueRecommendation := {
  issue_category : string;
  issue_subtype : string;
  analysis_reason : string;
  recommended_action : string;
  recommended_route : option string;
  analysis_mode : string;
}.

Definition mentions (value : string) (keywords : list string) : bool := existsb (fun k => contains k value) keywords.

(** The first rule that matches, or [d]. *)
Fixpoint first_rule (rules : list (string * list string)) (description d : string) : string :=
  match rules with
  | [] => d
  | (name, keywords) :: rest => if mentions description keywords then name else first_rule rest description d
  end.

Definition aliases : list (string * string) :=
  [("ROAD", "ROAD_HAZARD"); ("VEHICLE", "VEHICLE_BREAKDOWN"); ("VEHICLE_FAULT", "VEHICLE_BREAKDOWN"); ("GOODS", "CARGO")]%string.
Definition alias_of (t : string) : string := match List.find (fun a => String.eqb a.1 t) aliases with Some (_, c) => c | None => t end.

Definition category_rules : list (string * list string) :=
  [("VEHICLE_BREAKDOWN", ["爆胎"; "轮胎"; "扎胎"; "刹车"; "制动"; "发动机"; "车辆故障"]); ("ROAD_BLOCKED", ["封路"; "道路封闭"; "塌方"]);
   ("ROAD_HAZARD", ["湿滑"; "坑洼"; "落石"; "道路损坏"]); ("WEATHER", ["暴雨"; "大雪"; "大雾"; "强风"; "天气"]);
   ("CARGO", ["货物"; "泄漏"; "温控"; "冷链"; "倾斜"]); ("CAPACITY", ["超载"; "司机不可用"; "车辆不可用"; "运力"])]%string.

Definition normalize_category (anomaly_type description : string) : string :=
  let category := alias_of (upper (strip anomaly_type)) in
  if one_of category KNOWN_CATEGORIES then category else first_rule category_rules description "OTHER".

Definition subtype_rules (category : string) : list (string * list string) :=
  default [] (snd <$> List.find (fun r => String.eqb r.1 category)
    [("VEHICLE_BREAKDOWN", [("TIRE", ["爆胎"; "轮胎"; "扎胎"]); ("BRAKE", ["刹车"; "制动"]); ("ENGINE", ["发动机"; "引擎"])]);
     ("ROAD_BLOCKED", [("LANDSLIDE", ["塌方"; "滑坡"]); ("FLOODING", ["积水"; "淹水"]); ("CONSTRUCTION", ["施工"]); ("CLOSURE", ["封路"; "封闭"])]);
     ("ROAD_HAZARD", [("SLIPPERY", ["湿滑"; "结冰"]); ("POTHOLE", ["坑洼"; "坑洞"]); ("ROCKFALL", ["落石"]); ("DAMAGE", ["道路损坏"; "路面破损"])]);
     ("WEATHER", [("HEAVY_RAIN", ["暴雨"; "强降雨"]); ("SNOW", ["大雪"; "暴雪"]); ("FOG", ["大雾"; "能见度低"]); ("STRONG_WIND", ["强风"; "大风"])]);
     ("CARGO", [("TEMPERATURE", ["温控"; "温度"; "冷链"]); ("LEAK", ["泄漏"; "渗漏"]); ("DAMAGE", ["破损"]); ("SHIFT", ["倾斜"; "移位"])]);
     ("CAPACITY", [("OVERLOAD", ["超载"]); ("DRIVER_UNAVAILABLE", ["司机不可用"]); ("VEHICLE_UNAVAILABLE", ["车辆不可用"])])])%string.
Definition identify_subtype (category description : string) : string := first_rule (subtype_rules category) description "GENERAL".

Definition offers (route : string) (c : pydict) : bool := py_eq (get c "route_id") (PStr route) && is_true (get c "available").
Definition verified_route (route : option string) (candidate_routes : list pydict) : option string :=
  match route with
  | None => None
  | Some r => if String.eqb r "" then None else if existsb (offers r) candidate_routes then Some r else None
  end.

(** [if x: facts.append(...)]. *)
Definition fact (label : string) (x : option string) : list string :=
  match x with Some s => if String.eqb s "" then [] else [label +:+ s] | None => [] end.
Definition reason (description : string) (vehicle_status environment_risk capacity_status : option string) : string :=
  join "；" (("员工上报“" +:+ description +:+ "”") :: fact "车辆状态为 " vehicle_status ++ fact "环境风险为 " environment_risk ++ fact "运力状态为 " capacity_status)
  +:+ "，8-Agent 协同分析后需要执行安全处置。".

Definition has_route (route : option string) : bool := match route with Some r => negb (String.eqb r "") | None => false end.
Definition advice (category subtype : string) (route : option string) : string :=
  if String.eqb category "VEHICLE_BREAKDOWN" then
    if String.eqb subtype "TIRE" then "立即安全停车并设置警示标志，检查备胎条件；可安全操作时更换轮胎，否则联系道路救援，必要时换车转运。"
    else if String.eqb subtype "BRAKE" then "立即停止继续行驶并设置警示标志，联系道路救援检修制动系统，必要时换车转运。"
    else if String.eqb subtype "ENGINE" then "立即安全停车并关闭车辆，联系道路救援检查发动机，确认修复前不得继续配送。"
    else "立即安全停车并设置警示标志，联系道路救援检查车辆，必要时换车转运。"
  else if String.eqb category "ROAD_BLOCKED" then
    if has_route route then "保持安全距离，按已核验的安全候选路线改道并服从调度指令。" else "停在安全位置并保持任务暂停，等待调度核实后配置替代路线。"
  else if String.eqb category "ROAD_HAZARD" then
    if has_route route then "降低车速并按已核验的安全候选路线绕行，持续关注现场路况。" else "立即降速并在必要时停止通行，上报准确位置，等待调度核实安全路线。"
  else if String.eqb category "WEATHER" then
    if has_route route then "暂缓当前路线通行，确认安全后按已核验候选路线改道。" else "暂缓通行并就近安全避险，等待环境风险下降或调度确认替代路线。"
  else if String.eqb category "CARGO" then "立即安全停车检查货物，隔离泄漏或温控风险，重新固定货物，必要时安排转运。"
  else if String.eqb category "CAPACITY" then "保持任务暂停并重新分配司机或车辆；存在超载时立即卸载分流，必要时拆单转运。"
  else "保持任务暂停，记录现场位置和现象，并立即联系调度员补充资源与处置方案。".

Definition recommend (anomaly_type anomaly_description : string) (vehicle_status environment_risk capacity_status : option string)
    (candidate_routes : list pydict) (route : option string) : IssueRecommendation :=
  let stripped := strip anomaly_description in
  let description := if String.eqb stripped "" then "现场异常描述缺失"%string else stripped in
  let category := normalize_category anomaly_type description in
  let subtype := identify_subtype category description in
  let verified := if one_of category NON_ROUTE_CATEGORIES then None else verified_route route candidate_routes in
  {| issue_category := category; issue_subtype := subtype; analysis_reason := reason description vehicle_status environment_risk capacity_status;
     recommended_action := advice category subtype verified; recommended_route := verified; analysis_mode := "EIGHT_AGENT_RULE_ASSISTED" |}.

(** ** Lemmas *)
Lemma first_rule_in rules description d : first_rule rules description d ∈ d :: map fst rules.
Proof.
  induction rules as [|[n k] rules IH]; [left|]. simpl. destruct (mentions description k); [right; left|].
  apply elem_of_cons in IH as [IH|IH]; [rewrite IH; left|right; by right].
Qed.

Lemma normalize_known anomaly_type description : normalize_category anomaly_type description ∈ KNOWN_CATEGORIES.
Proof.
  unfold normalize_category. destruct (one_of _ _) eqn:O; [by apply one_of_true|]. pose proof (first_rule_in category_rules description "OTHER") as H.
  assert (K : forallb (fun c => one_of c KNOWN_CATEGORIES) ("OTHER"%string :: map fst category_rules) = true) by reflexivity.
  apply list_elem_of_In in H. apply one_of_true. exact (proj1 (forallb_forall _ _) K _ H).
Qed.

Lemma verified_route_some route cs r : verified_route route cs = Some r -> route = Some r /\ exists c, c ∈ cs /\ get c "route_id" = PStr r /\ get c "available" = PBool true.
Proof.
  unfold verified_route. destruct route as [x|]; [|done]. destruct (String.eqb x ""); [done|]. destruct (existsb _ _) eqn:E; [|done]. intros [= <-]. split; [done|].
  apply existsb_exists in E as (c & H & O). exists c. rewrite list_elem_of_In. split; [done|]. unfold offers in O. apply andb_true_iff in O as [O1 O2].
  split.
  - destruct (get c "route_id"); try done. simpl in O1. by apply String.eqb_eq in O1 as ->.
  - destruct (get c "available"); try done. by destruct b.
Qed.

Lemma recommend_route anomaly_type description vs er cst cs route r :
  recommended_route (recommend anomaly_type description vs er cst cs route) = Some r ->
  (issue_category (recommend anomaly_type description vs er cst cs route) ∉ NON_ROUTE_CATEGORIES) /\ route = Some r /\
  exists c, c ∈ cs /\ get c "route_id" = PStr r /\ get c "available" = PBool true.
Proof.
  unfold recommend. cbn [recommended_route issue_category]. destruct (one_of _ NON_ROUTE_CATEGORIES) eqn:O; [done|]. intros V.
  split; [by apply one_of_false|]. by apply verified_route_some.
Qed.
