(* ===== verification/GraphMemory.v ===== *)
(** * GraphMemory: facts and paths around the entities of a report

    Models [app/graph_memory/models.py], [extractor.py], [service.py] and the
    in-memory [fake_repository.py]; the service is written against the interface
    of [protocols.py], so a graph database can take the repository's place.  Texts
    are UTF-8; the time of a relation, the text of a float and the duration of a
    recall are arguments. *)

From stdpp Require Import sorting.
From S2P Require Import Prelude Texts Evidence.

Local Open Scope Z_scope.
Local Open Scope list_scope.

(** ** Entities, relations and paths *)
Inductive EntityType :=
| DRIVER | VEHICLE | ROUTE | WEATHER | ROAD_CONDITION | STATION | ANOMALY | RESOLUTION | DISPATCH_ORDER | POLICY_RULE | USER_PREFERENCE.
#[export] Instance EntityType_eq_dec : EqDecision EntityType.
Proof. solve_decision. Defined.
#[export] Instance EntityType_enum : PyEnum EntityType := {
  members := [DRIVER; VEHICLE; ROUTE; WEATHER; ROAD_CONDITION; STATION; ANOMALY; RESOLUTION; DISPATCH_ORDER; POLICY_RULE; USER_PREFERENCE];
  value t := match t with
    | DRIVER => "Driver" | VEHICLE => "Vehicle" | ROUTE => "Route" | WEATHER => "Weather" | ROAD_CONDITION => "RoadCondition" | STATION => "Station"
    | ANOMALY => "Anomaly" | RESOLUTION => "Resolution" | DISPATCH_ORDER => "DispatchOrder" | POLICY_RULE => "PolicyRule"
    | USER_PREFERENCE => "UserPreference" end%string }.
#[export] Instance EntityType_enum_laws : PyEnumLaws EntityType.
Proof. intros []; reflexivity. Qed.

Inductive RelationType :=
| DRIVES | SERVES | HAS_RISK_ON | AFFECTED_BY | HIGH_RISK_WHEN | ALTERNATIVE_TO | RESOLVED_BY | CONFLICTS_WITH | DEPENDS_ON | STATUS.
#[export] Instance RelationType_eq_dec : EqDecision RelationType.
Proof. solve_decision. Defined.
#[export] Instance RelationType_enum : PyEnum RelationType := {
  members := [DRIVES; SERVES; HAS_RISK_ON; AFFECTED_BY; HIGH_RISK_WHEN; ALTERNATIVE_TO; RESOLVED_BY; CONFLICTS_WITH; DEPENDS_ON; STATUS];
  value t := match t with
    | DRIVES => "DRIVES" | SERVES => "SERVES" | HAS_RISK_ON => "HAS_RISK_ON" | AFFECTED_BY => "AFFECTED_BY" | HIGH_RISK_WHEN => "HIGH_RISK_WHEN"
    | ALTERNATIVE_TO => "ALTERNATIVE_TO" | RESOLVED_BY => "RESOLVED_BY" | CONFLICTS_WITH => "CONFLICTS_WITH" | DEPENDS_ON => "DEPENDS_ON"
    | STATUS => "STATUS" end%string }.
#[export] Instance RelationType_enum_laws : PyEnumLaws RelationType.
Proof. intros []; reflexivity. Qed.

Record GraphEntity := {
  entity_type : EntityType;
  entity_id : string;
  display_name : string;
  properties : pydict;
}.
Record GraphRelation := {
  source : GraphEntity;
  relation_type : RelationType;
  target : GraphEntity;
  confidence : Q;
  source_type : string;
  evidence : option string;
  version : Z;
  timestamp : string;
}.
Record GraphPath := { entities : list GraphEntity; relations : list GraphRelation }.

Definition ValueError (m : string) : exn := Exn "ValueError" m.
Definition blank (s : string) : bool := String.eqb (strip s) "".

(** [GraphEntity(...)]. *)
Definition graph_entity (ty : EntityType) (i name : string) (props : pydict) : result GraphEntity :=
  if blank i then Err (ValueError "Graph entity_id must not be empty")
  else if blank name then Err (ValueError "Graph display_name must not be empty")
  else if negb (json_serializable (PDict props)) then Err (ValueError "Graph entity properties must be JSON serializable")
  else Ok {| entity_type := ty; entity_id := i; display_name := name; properties := props |}.
Definition entity_key (e : GraphEntity) : string := value (entity_type e) +:+ ":" +:+ entity_id e.
Definition entity_to_dict (e : GraphEntity) : pydict :=
  [("entity_type", PStr (value (entity_type e))); ("entity_id", PStr (entity_id e)); ("display_name", PStr (display_name e)); ("properties", PDict (properties e))]%string.

(** [GraphRelation(...)]. *)
Definition graph_relation (s : GraphEntity) (ty : RelationType) (t : GraphEntity) (c : Q) (st : string) (ev : option string) (v : Z) (at_ : string) : result GraphRelation :=
  if negb (Qle_bool 0 c && Qle_bool c 1) then Err (ValueError "Graph relation confidence must be between 0 and 1")
  else if v <? 1 then Err (ValueError "Graph relation version must be positive")
  else Ok {| source := s; relation_type := ty; target := t; confidence := c; source_type := st; evidence := ev; version := v; timestamp := at_ |}.
Definition relation_key (r : GraphRelation) : string := entity_key (source r) +:+ "|" +:+ value (relation_type r) +:+ "|" +:+ entity_key (target r).
Definition relation_to_dict (float_str : Q -> string) (r : GraphRelation) : pydict :=
  [("source", PDict (entity_to_dict (source r))); ("relation_type", PStr (value (relation_type r))); ("target", PDict (entity_to_dict (target r)));
   ("confidence", PFloat (float_str (confidence r))); ("source_type", PStr (source_type r)); ("evidence", opt_str (evidence r)); ("version", PInt (version r));
   ("timestamp", PStr (timestamp r))]%string.

(** [GraphPath(...)]. *)
Definition graph_path (es : list GraphEntity) (rs : list GraphRelation) : result GraphPath :=
  if match rs with [] => true | _ => negb (Nat.eqb (length es) (length rs + 1)) end then Err (ValueError "Graph path must contain one more entity than relation")
  else Ok {| entities := es; relations := rs |}.
Definition path_to_dict (float_str : Q -> string) (p : GraphPath) : pydict :=
  [("entities", PList (map (fun e => PDict (entity_to_dict e)) (entities p))); ("relations", PList (map (fun r => PDict (relation_to_dict float_str r)) (relations p)))]%string.

Record GraphMemoryRecall := {
  query_entities : list GraphEntity;
  facts : list GraphRelation;
  paths : list GraphPath;
  elapsed_ms : string;
}.

(** ** The extractor *)
Record GraphMemoryContext := {
  driver_id : string;
  route_id : string;
  anomaly_type : string;
  text : string;
  vehicle_id : option string;
  weather : option string;
}.

Definition truthy (o : option string) : option string := match o with Some s => if String.eqb s "" then None else Some s | None => None end.
Definition name_in (text expected fallback : string) : string := if contains expected text then expected else fallback.
Definition dashes (s : string) : string :=
  String.string_of_list_ascii (map (fun c => if Nat.eqb (Ascii.nat_of_ascii c) 95 then Ascii.ascii_of_nat 45 else c) (String.list_ascii_of_string s)).
Definition weather_id (c : GraphMemoryContext) : option string :=
  if contains "雨" (text c) || one_of (lower (default "" (truthy (weather c)))) ["rain"; "heavy_rain"; "rainy"] then Some "rain"%string else weather c.

Section extraction.
Context (now : string) (c : GraphMemoryContext).

Definition extracted (s : GraphEntity) (ty : RelationType) (t : GraphEntity) : result GraphRelation :=
  graph_relation s ty t 1 "deterministic_extraction" (Some (text c)) 1 now.

Definition extract : result (list GraphEntity * list GraphRelation) :=
  driver ← graph_entity DRIVER (driver_id c) (name_in (text c) "李师傅" (driver_id c)) [];
  route ← graph_entity ROUTE (route_id c) (name_in (text c) "新平路" (route_id c)) [];
  anomaly ← graph_entity ANOMALY (dashes (anomaly_type c)) (if contains "湿滑" (text c) then "雨天湿滑"%string else anomaly_type c) [];
  serves ← extracted driver SERVES route;
  with_vehicle ← match truthy (vehicle_id c) with
                 | None => Ok ([], [])
                 | Some v =>
                     vehicle ← graph_entity VEHICLE v (name_in (text c) "冷链车A" v) [];
                     drives ← extracted driver DRIVES vehicle;
                     Ok ([vehicle], [drives])
                 end;
  with_weather ← match truthy (weather_id c) with
                 | None => Ok ([], [])
                 | Some w =>
                     it ← graph_entity WEATHER w (if String.eqb w "rain" then "雨天"%string else w) [];
                     on_route ← extracted route AFFECTED_BY it;
                     on_anomaly ← extracted anomaly AFFECTED_BY it;
                     Ok ([it], [on_route; on_anomaly])
                 end;
  Ok ([driver; route; anomaly] ++ with_vehicle.1 ++ with_weather.1, [serves] ++ with_vehicle.2 ++ with_weather.2).
End extraction.

(** ** The repository *)
Class GraphMemoryRepository (R : Type) := {
  upsert_entity : GraphEntity -> action R unit;
  upsert_relation : GraphRelation -> action R unit;
  find_related : list string -> Z -> action R (list GraphRelation);
  find_paths : string -> Z -> Z -> action R (list GraphPath);
}.

(** [l[:n]]. *)
Definition prefix_of {A} (n : Z) (l : list A) : list A := if n <? 0 then take (length l - Z.to_nat (- n)) l else take (Z.to_nat n) l.

Module Fake.

Record store := { known : gmap string GraphEntity; related : gmap string GraphRelation }.
Definition empty_store : store := {| known := ∅; related := ∅ |}.

Definition put_entity (e : GraphEntity) (s : store) : store := {| known := <[entity_key e := e]> (known s); related := related s |}.
Definition put_relation (r : GraphRelation) (s : store) : store :=
  {| known := <[entity_key (target r) := target r]> (<[entity_key (source r) := source r]> (known s)); related := <[relation_key r := r]> (related s) |}.
Definition seed (es : list GraphEntity) (rs : list GraphRelation) (s : store) : store :=
  fold_left (fun s r => put_relation r s) rs (fold_left (fun s e => put_entity e s) es s).
Definition get_entity (ty i : string) (s : store) : result (option GraphEntity) :=
  kind ← of_option (ValueError "") (enum_of (A := EntityType) ty); Ok (known s !! (value kind +:+ ":" +:+ i)).

(** [sorted(self._relations.values(), key=relation_key)]. *)
Definition sorted_relations (s : store) : list GraphRelation := sorted_key relation_key (map snd (map_to_list (related s))).

Definition touches (keys : list string) (r : GraphRelation) : bool := one_of (entity_key (source r)) keys || one_of (entity_key (target r)) keys.
Definition related_to (keys : list string) (limit : Z) (s : store) : list GraphRelation :=
  prefix_of limit (sorted_key relation_key (List.filter (touches keys) (map snd (map_to_list (related s))))).

(** An entry of the queue: where a path is, and what it went through. *)
Record entry := { current_key : string; so_far : list GraphEntity; through : list GraphRelation; visited : gset string }.

(** The other end of a relation at the entity with key [k]. *)
Definition other_end (k : string) (r : GraphRelation) : option GraphEntity :=
  if String.eqb (entity_key (source r)) k then Some (target r) else if String.eqb (entity_key (target r)) k then Some (source r) else None.
Definition extend (x : entry) (r : GraphRelation) : option entry :=
  e ← other_end (current_key x) r;
  if decide (entity_key e ∈ visited x) then None
  else Some {| current_key := entity_key e; so_far := so_far x ++ [e]; through := through x ++ [r]; visited := visited x ∪ {[entity_key e]} |}.
Definition extensions (s : store) (x : entry) : list entry := omap (extend x) (sorted_relations s).

Fixpoint search (fuel : nat) (s : store) (max_hops limit : Z) (queue : list entry) (paths : list GraphPath) : result (list GraphPath) :=
  match fuel, queue with
  | S fuel', x :: queue' =>
      if limit <=? Z.of_nat (length paths) then Ok paths else
      paths' ← match through x with [] => Ok paths | _ => p ← graph_path (so_far x) (through x); Ok (paths ++ [p]) end;
      search fuel' s max_hops limit (queue' ++ if Z.of_nat (length (through x)) =? max_hops then [] else extensions s x) paths'
  | _, _ => Ok paths
  end.

(** Entries a queue can still produce per entry with [hops] hops left. *)
Fixpoint room (n hops : nat) : nat := match hops with O => 1 | S h => S (n * room n h) end.

Definition starting (k : string) (e : GraphEntity) : entry := {| current_key := k; so_far := [e]; through := []; visited := {[k]} |}.
Definition paths_from (start_key : string) (max_hops limit : Z) (s : store) : result (list GraphPath) :=
  if negb ((1 <=? max_hops) && (max_hops <=? 3)) then Err (ValueError "max_hops must be between 1 and 3")
  else if limit <=? 0 then Err (ValueError "limit must be positive")
  else match known s !! start_key with
       | None => Ok []
       | Some e =>
           found ← search (room (size (related s)) (Z.to_nat max_hops)) s max_hops limit [starting start_key e] [];
           Ok (prefix_of limit found)
       end.

#[export] Instance fake_repository : GraphMemoryRepository store := {
  upsert_entity e := fun s => (Ok tt, put_entity e s);
  upsert_relation r := fun s => (Ok tt, seed [source r; target r] [r] s);
  find_related keys limit := fun s => (Ok (related_to keys limit s), s);
  find_paths k hops limit := fun s => (paths_from k hops limit s, s);
}.
End Fake.

(** [development_seed] of [seed.py]; no entity or relation of it is refused. *)
Definition the_entity (ty : EntityType) (i name : string) (props : pydict) : GraphEntity := {| entity_type := ty; entity_id := i; display_name := name; properties := props |}.
Definition development_entities : list GraphEntity :=
  [the_entity DRIVER "driver-li" "李师傅" []; the_entity VEHICLE "vehicle-cold-a" "冷链车A" [("status"%string, PStr "normal")];
   the_entity ROUTE "xinping-road" "新平路" []; the_entity ROUTE "national-102" "102国道" []; the_entity WEATHER "rain" "雨天" [];
   the_entity ANOMALY "rain-slippery" "雨天湿滑" []; the_entity RESOLUTION "reroute-national-102" "建议改走102国道" []]%string.
Definition development_relations (now : string) : list GraphRelation :=
  omap (fun x : nat * RelationType * nat => s ← development_entities !! x.1.1; t ← development_entities !! x.2;
          Some {| source := s; relation_type := x.1.2; target := t; confidence := 1; source_type := "development_seed"; evidence := None; version := 1; timestamp := now |})
    [(0, DRIVES, 1); (0, HAS_RISK_ON, 2); (2, HIGH_RISK_WHEN, 4); (3, ALTERNATIVE_TO, 2); (5, RESOLVED_BY, 6)]%nat.

(** ** The service *)
Section service.
Context {R : Type} `{GraphMemoryRepository R}.

Record GraphMemoryService := { max_hops : Z; result_limit : Z }.
Definition graph_memory_service (hops limit : Z) : result GraphMemoryService :=
  if negb ((1 <=? hops) && (hops <=? 3)) then Err (ValueError "max_hops must be between 1 and 3")
  else if limit <=? 0 then Err (ValueError "result_limit must be positive")
  else Ok {| max_hops := hops; result_limit := limit |}.

Fixpoint each {A} (f : A -> action R unit) (l : list A) : action R unit :=
  match l with [] => ret_action tt | x :: l' => (do _ <- f x; each f l')%action end.
(** [asyncio.gather]: the queries only read, and their answers keep the order of the keys. *)
Fixpoint gather {A B} (f : A -> action R B) (l : list A) : action R (list B) :=
  match l with [] => ret_action [] | x :: l' => (do b <- f x; do bs <- gather f l'; ret_action (b :: bs))%action end.

Definition identity (p : GraphPath) : list string := map entity_key (entities p).
Fixpoint distinct (seen : list (list string)) (ps : list GraphPath) : list GraphPath :=
  match ps with
  | [] => []
  | p :: ps' => if decide (identity p ∈ seen) then distinct seen ps' else p :: distinct (identity p :: seen) ps'
  end.

(** [d[k] = v] and a dict comprehension, as the values of the dict in order. *)
Fixpoint keep_last (f : GraphRelation) (fs : list GraphRelation) : list GraphRelation :=
  match fs with
  | [] => [f]
  | g :: fs' => if String.eqb (relation_key g) (relation_key f) then f :: fs' else g :: keep_last f fs'
  end.
Definition unique_facts (fs : list GraphRelation) : list GraphRelation := fold_left (fun acc f => keep_last f acc) fs [].

Definition recall (svc : GraphMemoryService) (now elapsed : string) (c : GraphMemoryContext) : action R GraphMemoryRecall := fun w =>
  match extract now c with
  | Err e => (Err e, w)
  | Ok (es, rs) =>
      let keys := map entity_key es in
      (do _ <- each upsert_entity es;
       do _ <- each upsert_relation rs;
       do found <- find_related keys (result_limit svc);
       do batches <- gather (fun k => find_paths k (max_hops svc) (result_limit svc)) keys;
       ret_action {| query_entities := es; facts := unique_facts found; paths := prefix_of (result_limit svc) (distinct [] (concat batches));
                     elapsed_ms := elapsed |})%action w
  end.
End service.

(** ** What [find_paths] finds *)
Module FakeFacts.
Import Fake.

(** [r] joins the entity with key [k] to [e], along its direction or against it. *)
Definition joins (r : GraphRelation) (k : string) (e : GraphEntity) : Prop :=
  (entity_key (source r) = k /\ e = target r) \/ (entity_key (target r) = k /\ e = source r).

(** A way from [start] that comes to no entity twice. *)
Inductive simple_trail (s : store) (start : GraphEntity) : list GraphEntity -> list GraphRelation -> Prop :=
| trail_start : simple_trail s start [start] []
| trail_step es rs here r e :
    simple_trail s start (es ++ [here]) rs -> (exists k, related s !! k = Some r) -> joins r (entity_key here) e ->
    (entity_key e ∉ map entity_key (es ++ [here])) -> simple_trail s start ((es ++ [here]) ++ [e]) (rs ++ [r]).

(** Entities are stored under their keys. *)
Definition keyed (s : store) : Prop := forall k e, known s !! k = Some e -> entity_key e = k.

Lemma keyed_put_entity e s : keyed s -> keyed (put_entity e s).
Proof. intros K k e'. cbn. rewrite lookup_insert_Some. intros [[<- <-]|[_ H]]; [done|by apply K]. Qed.
Lemma keyed_put_relation r s : keyed s -> keyed (put_relation r s).
Proof. intros K k e'. cbn. rewrite !lookup_insert_Some. intros [[<- <-]|[_ [[<- <-]|[_ H]]]]; [done|done|by apply K]. Qed.

Lemma sorted_relations_elem s r : r ∈ sorted_relations s <-> exists k, related s !! k = Some r.
Proof.
  unfold sorted_relations. rewrite (sorted_key_perm relation_key), list_elem_of_fmap. split.
  - intros ((k & r') & -> & H%elem_of_map_to_list). by exists k.
  - intros (k & H). exists (k, r). split; [done|]. by apply elem_of_map_to_list.
Qed.
Lemma sorted_relations_length s : length (sorted_relations s) = size (related s).
Proof. unfold sorted_relations. by rewrite (Permutation_length (sorted_key_perm _ _)), length_map, length_map_to_list. Qed.
Lemma extensions_length s x : (length (extensions s x) <= size (related s))%nat.
Proof.
  rewrite <- sorted_relations_length. unfold extensions. generalize (sorted_relations s). intros l. induction l as [|r l IH]; [done|].
  cbn [omap list_omap]. destruct (extend x r); cbn; [lia|]. etrans; [exact IH|lia].
Qed.

(** An entry of the queue that a trail gives. *)
Record entry_for (s : store) (start : GraphEntity) (x : entry) : Prop := {
  ef_trail : simple_trail s start (so_far x) (through x);
  ef_key : exists es here, so_far x = es ++ [here] /\ current_key x = entity_key here;
  ef_visited : forall k, k ∈ visited x <-> k ∈ map entity_key (so_far x);
}.

Lemma trail_length s start es rs : simple_trail s start es rs -> length es = (length rs + 1)%nat.
Proof. induction 1; [done|]. rewrite !length_app in *. simpl in *. lia. Qed.
Lemma trail_last s start es rs : simple_trail s start es rs -> exists es' here, es = es' ++ [here].
Proof. destruct 1; [by exists [], start|by eexists _, _]. Qed.

Lemma extend_entry s start x r y : entry_for s start x -> (exists k, related s !! k = Some r) -> extend x r = Some y ->
  entry_for s start y /\ exists e, so_far y = so_far x ++ [e] /\ through y = through x ++ [r].
Proof.
  intros [T (es & here & E & K) V] R. unfold extend. destruct (other_end _ r) as [e|] eqn:O; [|done]. cbn. destruct (decide _) as [|N]; [done|]. intros [= <-]. cbn.
  split; [|by exists e]. split; cbn.
  - rewrite E in *. eapply trail_step; [done..| |].
    + rewrite <- K. unfold other_end in O. destruct (String.eqb_spec (entity_key (source r)) (current_key x)); [injection O as <-; by left|].
      destruct (String.eqb_spec (entity_key (target r)) (current_key x)); [|done]. injection O as <-. by right.
    + intros H. apply N. by apply V.
  - by eexists _, _.
  - intros k. rewrite elem_of_union, V, elem_of_singleton, map_app, elem_of_app. cbn. rewrite list_elem_of_singleton. done.
Qed.

Lemma extensions_entry s start x y : entry_for s start x -> y ∈ extensions s x ->
  entry_for s start y /\ length (through y) = S (length (through x)).
Proof.
  intros X. unfold extensions. rewrite list_elem_of_omap. intros (r & R & E). apply sorted_relations_elem in R.
  destruct (extend_entry _ _ _ _ _ X R E) as [Y (e & _ & T)]. split; [done|]. rewrite T, length_app. simpl. lia.
Qed.

(** Every longer trail comes from an entry for the shorter one. *)
Lemma extensions_complete s start x es here r e :
  entry_for s start x -> so_far x = es ++ [here] -> (exists k, related s !! k = Some r) -> joins r (entity_key here) e ->
  (entity_key e ∉ map entity_key (es ++ [here])) ->
  exists y, y ∈ extensions s x /\ so_far y = so_far x ++ [e] /\ through y = through x ++ [r].
Proof.
  intros [T (es' & here' & E' & K) V] E R J N. rewrite E in E'. apply app_inj_tail in E' as [-> ->].
  assert (O : other_end (current_key x) r = Some e).
  { unfold other_end. rewrite K. destruct J as [[J ->]|[J ->]].
    - by rewrite J, String.eqb_refl.
    - destruct (String.eqb_spec (entity_key (source r)) (entity_key here')) as [Q|Q].
      + exfalso. apply N. rewrite Q, map_app, elem_of_app. right. by apply list_elem_of_singleton.
      + by rewrite J, String.eqb_refl. }
  eexists {| current_key := entity_key e; so_far := so_far x ++ [e]; through := through x ++ [r]; visited := visited x ∪ {[entity_key e]} |}.
  split; [|done]. apply list_elem_of_omap. exists r. split; [by apply sorted_relations_elem|]. unfold extend. rewrite O. cbn.
  rewrite decide_False; [done|]. rewrite V, E. done.
Qed.

Section searching.
Context (s : store) (start : GraphEntity) (hops : nat) (limit : Z).

Definition next (x : entry) : list entry := if Z.of_nat (length (through x)) =? Z.of_nat hops then [] else extensions s x.
Definition path_of (x : entry) : GraphPath := {| entities := so_far x; relations := through x |}.
Definition out (x : entry) : list GraphPath := match through x with [] => [] | _ => [path_of x] end.
Fixpoint rounds (n : nat) (queue : list entry) : list GraphPath :=
  match n with O => [] | S n' => flat_map out queue ++ rounds n' (flat_map next queue) end.

Definition weight (x : entry) : nat := room (size (related s)) (hops - length (through x)).
Definition total (queue : list entry) : nat := sum_list_with weight queue.

Lemma rounds_nil n : rounds n [] = [].
Proof. by induction n. Qed.
Lemma total_app a b : total (a ++ b) = (total a + total b)%nat.
Proof. apply sum_list_with_app. Qed.

Lemma next_total x : entry_for s start x -> (length (through x) <= hops)%nat -> (total (next x) < weight x)%nat.
Proof.
  intros X L. unfold next. destruct (Z.eqb_spec (Z.of_nat (length (through x))) (Z.of_nat hops)) as [E|N].
  - unfold weight. replace (hops - length (through x))%nat with 0%nat by lia. simpl. lia.
  - unfold weight. replace (hops - length (through x))%nat with (S (hops - S (length (through x)))) by lia. cbn [room].
    enough (total (extensions s x) <= size (related s) * room (size (related s)) (hops - S (length (through x))))%nat by lia.
    etrans; [|apply Nat.mul_le_mono_r, (extensions_length s x)]. assert (Y : forall y, y ∈ extensions s x -> length (through y) = S (length (through x))) by (intros y Hy; by apply (extensions_entry s start x y)).
    induction (extensions s x) as [|y l IH]; [cbn; lia|]. cbn. unfold weight at 1. rewrite (Y y) by left.
    assert (I := IH ltac:(intros z Hz; apply Y; by right)). unfold total in I. lia.
Qed.

Definition at_depth (d : nat) (queue : list entry) : Prop := forall x, x ∈ queue -> entry_for s start x /\ length (through x) = d.

Lemma next_depth d x : entry_for s start x -> length (through x) = d -> at_depth (S d) (next x).
Proof.
  intros X D y. unfold next. destruct (_ =? _); [by intros ?%not_elem_of_nil|]. intros Y. destruct (extensions_entry s start x y X Y) as [A B]. split; [done|lia].
Qed.
Lemma flat_next_depth d q : at_depth d q -> at_depth (S d) (flat_map next q).
Proof.
  intros Q y Y. apply list_elem_of_In, in_flat_map in Y as (x & X%list_elem_of_In & Y%list_elem_of_In). destruct (Q x X) as [A B]. exact (next_depth d x A B y Y).
Qed.
Lemma at_depth_app d a b : at_depth d (a ++ b) <-> at_depth d a /\ at_depth d b.
Proof.
  split; [intros H; split; intros x Hx; apply H; apply elem_of_app; auto|]. intros [A B] x Hx. apply elem_of_app in Hx as [Hx|Hx]; auto.
Qed.
(** An entry at full depth has no successors, so none goes beyond it. *)
Lemma flat_next_stop q : at_depth hops q -> flat_map next q = [].
Proof.
  intros Q. induction q as [|x q IH]; [done|]. cbn. destruct (Q x ltac:(left)) as [_ L]. unfold next at 1. rewrite L, Z.eqb_refl. cbn. apply IH. intros y Hy. apply Q. by right.
Qed.

Hypothesis limit_positive : 0 < limit.
Lemma prefix_enough {A} (l m : list A) : limit <= Z.of_nat (length l) -> prefix_of limit l = prefix_of limit (l ++ m).
Proof. intros H. unfold prefix_of. destruct (Z.ltb_spec limit 0); [lia|]. symmetry. apply take_app_le. lia. Qed.

(** The queue holds the rest of one round and the beginning of the next. *)
Lemma search_rounds fuel n d a b ps : (total (a ++ b) <= fuel)%nat -> at_depth d a -> at_depth (S d) b -> (d <= hops)%nat -> (b <> [] -> S d <= hops)%nat -> (hops <= n + d)%nat ->
  exists found, search fuel s (Z.of_nat hops) limit (a ++ b) ps = Ok found /\
    prefix_of limit found = prefix_of limit (ps ++ flat_map out a ++ rounds n (b ++ flat_map next a)).
Proof.
  revert n d a b ps. induction fuel as [|fuel IH]; intros n d a b ps W A B D DB N.
  - assert (E : a ++ b = []).
    { destruct (a ++ b) as [|x q] eqn:E; [done|]. exfalso. unfold total in W. cbn in W. unfold weight in W. destruct (hops - length (through x))%nat; cbn in W; lia. }
    rewrite E. apply app_eq_nil in E as [-> ->]. cbn. rewrite rounds_nil, !app_nil_r. by eexists.
  - assert (M : forall n d a b, (total (a ++ b) <= S fuel)%nat -> at_depth d a -> at_depth (S d) b -> (d <= hops)%nat -> (b <> [] -> S d <= hops)%nat -> (hops <= n + d)%nat -> a <> [] ->
      exists found, search (S fuel) s (Z.of_nat hops) limit (a ++ b) ps = Ok found /\ prefix_of limit found = prefix_of limit (ps ++ flat_map out a ++ rounds n (b ++ flat_map next a))).
    { clear n d a b W A B D DB N. intros n d a b W A B D DB N NE. destruct a as [|x a]; [done|]. clear NE. cbn [app search].
      destruct (Z.leb_spec limit (Z.of_nat (length ps))); [eexists; split; [done|by apply prefix_enough]|].
      destruct (A x ltac:(left)) as [X L].
      assert (P : match through x with [] => Ok ps | _ => p ← graph_path (so_far x) (through x); Ok (ps ++ [p]) end = Ok (ps ++ out x)).
      { unfold out. pose proof (trail_length _ _ _ _ (ef_trail _ _ _ X)) as TL. destruct (through x) as [|r rs] eqn:T; [by rewrite app_nil_r|].
        unfold graph_path. rewrite TL, Nat.eqb_refl. cbn. unfold path_of. by rewrite T. }
      rewrite P. cbn [mbind result_bind]. fold (next x). rewrite <- app_assoc.
      destruct (IH n d a (b ++ next x) (ps ++ out x)) as (found & S1 & S2).
      - pose proof (next_total x X ltac:(lia)) as NT. rewrite !total_app in *. cbn in W. unfold total in *. lia.
      - intros y Hy. apply A. by right.
      - apply at_depth_app. split; [done|by apply next_depth].
      - done.
      - intros NB. destruct (decide (b = [])) as [->|]; [|by apply DB]. cbn in NB. unfold next in NB. rewrite L in NB. destruct (Z.eqb_spec (Z.of_nat d) (Z.of_nat hops)); [done|lia].
      - done.
      - exists found. split; [done|]. rewrite S2. cbn [flat_map]. by rewrite !app_assoc. }
    destruct a as [|x a]; [|by eapply M].
    destruct b as [|x b]; [cbn; rewrite rounds_nil, !app_nil_r; by eexists|].
    destruct n as [|n]; [specialize (DB ltac:(done)); lia|]. cbn [app flat_map]. rewrite app_nil_r. cbn [rounds].
    destruct (M n (S d) (x :: b) []) as (found & S1 & S2); [by rewrite app_nil_r|done|by intros ? ?%not_elem_of_nil|by apply DB|done|lia|done|].
    rewrite app_nil_r in S1. exists found. split; [done|]. rewrite S2. done.
Qed.
End searching.

Definition nearer (p q : GraphPath) : Prop := (length (relations p) <= length (relations q))%nat.

Lemma out_elem x p : p ∈ out x <-> through x <> [] /\ p = path_of x.
Proof. unfold out. destruct (through x); [split; [by intros ?%not_elem_of_nil|by intros []]|]. rewrite list_elem_of_singleton. by split; [intros ->|intros []]. Qed.
Lemma outs_elem q p : p ∈ flat_map out q <-> exists x, x ∈ q /\ p ∈ out x.
Proof. rewrite list_elem_of_In, in_flat_map. by setoid_rewrite list_elem_of_In. Qed.

Lemma same_length_sorted d l : (forall p, p ∈ l -> length (relations p) = d) -> StronglySorted nearer l.
Proof.
  induction l as [|p l IH]; intros H; constructor; [apply IH; intros q Hq; apply H; by right|]. apply Forall_forall. intros q Hq. unfold nearer.
  rewrite (H p), (H q); [done|by right|by left].
Qed.

Section found.
Context (s : store) (start : GraphEntity) (hops : nat).

Lemma outs_depth d q p : at_depth s start d q -> p ∈ flat_map out q ->
  simple_trail s start (entities p) (relations p) /\ relations p <> [] /\ length (relations p) = d.
Proof. intros Q (x & X & [T ->]%out_elem)%outs_elem. destruct (Q x X) as [F L]. cbn. split_and!; [by destruct F|done|done]. Qed.

Lemma rounds_sound n d q p : at_depth s start d q -> p ∈ rounds s hops n q ->
  simple_trail s start (entities p) (relations p) /\ relations p <> [] /\ (d <= length (relations p) < d + n)%nat.
Proof.
  revert d q. induction n as [|n IH]; intros d q Q; [by intros ?%not_elem_of_nil|]. cbn [rounds]. intros [H|H]%elem_of_app.
  - destruct (outs_depth d q p Q H) as (A & B & C). split_and!; [done..|lia|lia].
  - apply (IH (S d)) in H as (A & B & C); [|by apply flat_next_depth]. split_and!; [done..|lia|lia].
Qed.

Lemma rounds_sorted n d q : at_depth s start d q -> StronglySorted nearer (rounds s hops n q).
Proof.
  revert d q. induction n as [|n IH]; intros d q Q; [constructor|]. cbn [rounds]. apply StronglySorted_app. split; [|split].
  - intros p p' H H'. unfold nearer. apply (outs_depth d q p Q) in H as (_ & _ & ->). apply (rounds_sound n (S d)) in H' as (_ & _ & L); [lia|by apply flat_next_depth].
  - apply (same_length_sorted d). intros p H. by apply (outs_depth d q p Q).
  - apply (IH (S d)). by apply flat_next_depth.
Qed.

(** The [n]-th round holds an entry for every trail of [n] relations. *)
Fixpoint level (n : nat) (q : list entry) : list entry := match n with O => q | S n' => level n' (flat_map (next s hops) q) end.
Lemma level_snoc n q : level (S n) q = flat_map (next s hops) (level n q).
Proof. revert q. induction n as [|n IH]; intros q; [done|]. exact (IH (flat_map (next s hops) q)). Qed.
Lemma level_out k n q p : (k < n)%nat -> p ∈ flat_map out (level k q) -> p ∈ rounds s hops n q.
Proof.
  revert k q. induction n as [|n IH]; intros k q L H; [lia|]. cbn [rounds]. apply elem_of_app. destruct k as [|k]; [by left|]. right. apply (IH k); [lia|done].
Qed.

Definition here_at : entry := starting (entity_key start) start.
Lemma starting_depth : at_depth s start 0 [here_at].
Proof.
  intros x ->%list_elem_of_singleton. split; [|done]. split; cbn; [constructor|by exists [], start|]. intros k. rewrite elem_of_singleton. cbn. by rewrite list_elem_of_singleton.
Qed.
Lemma level_depth n : at_depth s start n (level n [here_at]).
Proof. induction n as [|n IH]; [apply starting_depth|]. rewrite level_snoc. by apply flat_next_depth. Qed.

Lemma level_complete es rs : simple_trail s start es rs -> (length rs <= hops)%nat ->
  exists x, x ∈ level (length rs) [here_at] /\ so_far x = es /\ through x = rs.
Proof.
  induction 1 as [|es rs here r e T IH R J N]; intros L; [by exists here_at; split; [left|]|].
  rewrite length_app in *. cbn in L |- *. destruct IH as (x & X & E1 & E2); [lia|]. destruct (level_depth _ x X) as [F D].
  destruct (extensions_complete s start x es here r e F E1 R J N) as (y & Y & S1 & S2).
  exists y. rewrite S1, S2, E1, E2. split; [|done]. rewrite Nat.add_1_r, level_snoc. apply list_elem_of_In, in_flat_map. exists x. rewrite <- !list_elem_of_In. split; [done|].
  unfold next. destruct (Z.eqb_spec (Z.of_nat (length (through x))) (Z.of_nat hops)); [lia|done].
Qed.

Lemma rounds_complete es rs : simple_trail s start es rs -> rs <> [] -> (length rs <= hops)%nat -> {| entities := es; relations := rs |} ∈ rounds s hops (S hops) [here_at].
Proof.
  intros T N L. destruct (level_complete es rs T L) as (x & X & <- & E). apply (level_out (length rs)); [lia|]. apply outs_elem. exists x. split; [done|].
  apply out_elem. rewrite E. split; [done|]. unfold path_of. by rewrite E.
Qed.
End found.

Lemma prefix_take {A} n (l : list A) : 0 < n -> prefix_of n l = take (Z.to_nat n) l.
Proof. intros H. unfold prefix_of. destruct (Z.ltb_spec n 0); [lia|done]. Qed.

Lemma paths_from_rounds s k hops limit start : keyed s -> known s !! k = Some start -> 1 <= hops <= 3 -> 0 < limit ->
  k = entity_key start /\ paths_from k hops limit s = Ok (take (Z.to_nat limit) (rounds s (Z.to_nat hops) (S (Z.to_nat hops)) [here_at start])).
Proof.
  intros K E H L. assert (KE := K _ _ E). split; [done|]. unfold paths_from. rewrite (proj2 (Z.leb_le 1 hops)), (proj2 (Z.leb_le hops 3)) by lia. cbn [andb negb].
  destruct (Z.leb_spec limit 0); [lia|]. rewrite E. destruct (search_rounds s start (Z.to_nat hops) limit L (room (size (related s)) (Z.to_nat hops)) (Z.to_nat hops) 0 [here_at start] [] [])
    as (found & S1 & S2).
  - cbn. unfold weight. cbn. rewrite Nat.sub_0_r. lia.
  - apply starting_depth.
  - by intros ? ?%not_elem_of_nil.
  - lia.
  - done.
  - lia.
  - rewrite Z2Nat.id in S1 by lia. unfold here_at in S1. rewrite KE in S1. cbn [app] in S1. rewrite S1. cbn. rewrite S2, prefix_take by done. done.
Qed.

(** C34: [find_paths] answers with the simple ways around an entity, nearest
    first: every path is a way of the store from the entity that comes to no
    entity twice and takes one to [max_hops] relations; if one that fits is
    missing, the list is full, with paths that are no longer than it. *)
Theorem paths_are_the_simple_trails s k hops limit :
  keyed s -> 1 <= hops <= 3 -> 0 < limit ->
  exists ps, paths_from k hops limit s = Ok ps /\ Z.of_nat (length ps) <= limit /\
    match known s !! k with
    | None => ps = []
    | Some start =>
        (forall p, p ∈ ps -> simple_trail s start (entities p) (relations p) /\ 1 <= Z.of_nat (length (relations p)) <= hops) /\
        StronglySorted nearer ps /\
        (forall es rs, simple_trail s start es rs -> rs <> [] -> Z.of_nat (length rs) <= hops ->
           {| entities := es; relations := rs |} ∈ ps \/
           (Z.of_nat (length ps) = limit /\ forall p, p ∈ ps -> (length (relations p) <= length rs)%nat))
    end.
Proof.
  intros K H L. destruct (known s !! k) as [start|] eqn:E.
  - destruct (paths_from_rounds s k hops limit start K E H L) as [-> ->]. set (l := rounds s (Z.to_nat hops) (S (Z.to_nat hops)) [here_at start]).
    pose proof (rounds_sorted s start (Z.to_nat hops) (S (Z.to_nat hops)) 0 [here_at start] (starting_depth s start)) as SO. fold l in SO.
    rewrite <- (take_drop (Z.to_nat limit) l) in SO. eexists. split; [done|]. split; [rewrite length_take; lia|]. split; [|split].
    + intros p P. assert (P' : p ∈ l) by (rewrite <- (take_drop (Z.to_nat limit) l); apply elem_of_app; by left).
      destruct (rounds_sound s start _ _ 0 _ p (starting_depth s start) P') as (A & B & C). split; [done|]. destruct (relations p); [done|]. simpl in *. lia.
    + by apply StronglySorted_app in SO as (_ & SO & _).
    + intros es rs T N B. assert (P : {| entities := es; relations := rs |} ∈ l) by (apply rounds_complete; [done..|lia]).
      rewrite <- (take_drop (Z.to_nat limit) l) in P. apply elem_of_app in P as [P|P]; [by left|]. apply StronglySorted_app in SO as (SO & _ & _). right. split.
      * rewrite length_take. destruct (decide (length l <= Z.to_nat limit)%nat) as [D|D]; [|lia]. rewrite drop_ge in P by done. by apply not_elem_of_nil in P.
      * intros p Hp. exact (SO p _ Hp P).
  - unfold paths_from. rewrite (proj2 (Z.leb_le 1 hops)), (proj2 (Z.leb_le hops 3)) by lia. cbn [andb negb]. destruct (Z.leb_spec limit 0); [lia|]. rewrite E.
    exists []. split; [done|]. split; [simpl; lia|done].
Qed.

(** ** What a recall leaves and answers *)
Definition remembered (es : list GraphEntity) (rs : list GraphRelation) (s : store) : store :=
  fold_left (fun s r => seed [source r; target r] [r] s) rs (fold_left (fun s e => put_entity e s) es s).

Lemma each_upsert {A} (f : A -> store -> store) l s : each (R := store) (fun x s => (Ok tt, f x s)) l s = (Ok tt, fold_left (fun s x => f x s) l s).
Proof. revert s. induction l as [|x l IH]; intros s; [done|]. cbn. unfold bind_action. apply IH. Qed.
Lemma gather_reads {A B} (f : A -> store -> result B) l s : gather (R := store) (fun x s => (f x s, s)) l s = (map_result (fun x => f x s) l, s).
Proof.
  induction l as [|x l IH]; [done|]. cbn. unfold bind_action, ret_action. destruct (f x s) as [b|e]; [|done]. rewrite IH. by destruct (map_result _ l).
Qed.

Lemma keyed_remembered es rs s : keyed s -> keyed (remembered es rs s).
Proof.
  intros K. unfold remembered. assert (K' : keyed (fold_left (fun s e => put_entity e s) es s)).
  { revert s K. induction es as [|e es IH]; intros s K; [done|]. apply IH. by apply keyed_put_entity. }
  revert K'. generalize (fold_left (fun s e => put_entity e s) es s). clear s K. induction rs as [|r rs IH]; intros s K; [done|]. apply IH. unfold seed. cbn.
  by apply keyed_put_relation, keyed_put_entity, keyed_put_entity.
Qed.
Lemma remembered_relation es rs s r : r ∈ rs -> is_Some (related (remembered es rs s) !! relation_key r).
Proof.
  unfold remembered. generalize (fold_left (fun s e => put_entity e s) es s). clear s.
  assert (M : forall rs s k, is_Some (related s !! k) -> is_Some (related (fold_left (fun s r => seed [source r; target r] [r] s) rs s) !! k)).
  { clear rs. intros rs. induction rs as [|x rs IH]; intros s k H; [done|]. apply IH. change (is_Some (<[relation_key x := x]> (related s) !! k)). rewrite lookup_insert_is_Some'. by right. }
  induction rs as [|x rs IH]; intros s H; [by apply not_elem_of_nil in H|]. apply elem_of_cons in H as [->|H]; [|by apply IH].
  apply (M rs). change (is_Some (<[relation_key x := x]> (related s) !! relation_key x)). rewrite lookup_insert_is_Some'. by left.
Qed.

Lemma keep_last_elem f fs g : g ∈ keep_last f fs -> g = f \/ g ∈ fs.
Proof.
  induction fs as [|h fs IH]; cbn; [intros ->%list_elem_of_singleton; by left|]. destruct (String.eqb _ _).
  - intros [->|H]%elem_of_cons; [by left|by right; right].
  - intros [->|H]%elem_of_cons; [right; left|]. destruct (IH H) as [->|]; [by left|by right; right].
Qed.
Lemma keep_last_keys f fs : NoDup (map relation_key fs) -> NoDup (map relation_key (keep_last f fs)) /\ (length (keep_last f fs) <= S (length fs))%nat /\
  forall k, k ∈ map relation_key (keep_last f fs) -> k = relation_key f \/ k ∈ map relation_key fs.
Proof.
  induction fs as [|g fs IH]; cbn; [intros _; split; [apply NoDup_singleton|split; [lia|intros k ->%list_elem_of_singleton; by left]]|]. intros [N1 N2]%NoDup_cons.
  destruct (String.eqb_spec (relation_key g) (relation_key f)) as [E|E]; cbn.
  - split; [apply NoDup_cons; by rewrite <- E|]. split; [lia|]. intros k [->|H]%elem_of_cons; [by left|by right; right].
  - destruct (IH N2) as (I1 & I2 & I3). split; [|split; [lia|]].
    + apply NoDup_cons. split; [|done]. intros [H|H]%I3; [done|by apply N1].
    + intros k [->|H]%elem_of_cons; [right; left|]. destruct (I3 k H) as [->|]; [by left|by right; right].
Qed.
Lemma unique_facts_spec fs : NoDup (map relation_key (unique_facts fs)) /\ (length (unique_facts fs) <= length fs)%nat /\ forall f, f ∈ unique_facts fs -> f ∈ fs.
Proof.
  unfold unique_facts. assert (G : forall fs acc, NoDup (map relation_key acc) ->
    NoDup (map relation_key (fold_left (fun acc f => keep_last f acc) fs acc)) /\ (length (fold_left (fun acc f => keep_last f acc) fs acc) <= length acc + length fs)%nat /\
    forall f, f ∈ fold_left (fun acc f => keep_last f acc) fs acc -> f ∈ acc \/ f ∈ fs).
  { clear fs. intros fs. induction fs as [|g fs IH]; intros acc N; cbn; [split_and!; [done|lia|by left]|].
    destruct (keep_last_keys g acc N) as (A & B & _). destruct (IH _ A) as (I1 & I2 & I3). split_and!; [done|lia|].
    intros f H. apply I3 in H as [H|H]; [|by right; right]. apply keep_last_elem in H as [->|H]; [right; left|by left]. }
  destruct (G fs [] ltac:(constructor)) as (A & B & C). split_and!; [done|done|]. intros f H. by destruct (C f H) as [?%not_elem_of_nil|].
Qed.

Lemma distinct_spec seen ps : NoDup (map identity (distinct seen ps)) /\ (forall i, i ∈ map identity (distinct seen ps) -> i ∉ seen) /\ forall p, p ∈ distinct seen ps -> p ∈ ps.
Proof.
  revert seen. induction ps as [|p ps IH]; intros seen; cbn; [split_and!; [constructor|by intros i ?%not_elem_of_nil|done]|].
  destruct (decide (identity p ∈ seen)) as [H|H].
  - destruct (IH seen) as (A & B & C). split_and!; [done|done|]. intros q Hq. right. by apply C.
  - destruct (IH (identity p :: seen)) as (A & B & C). cbn. split_and!.
    + apply NoDup_cons. split; [|done]. intros X. apply B in X. apply X. left.
    + intros i [->|Hi]%elem_of_cons; [done|]. apply B in Hi. intros X. apply Hi. by right.
    + intros q [->|Hq]%elem_of_cons; [left|right; by apply C].
Qed.

Lemma related_to_spec keys limit s : 0 < limit -> Z.of_nat (length (related_to keys limit s)) <= limit /\
  forall f, f ∈ related_to keys limit s -> (exists k, related s !! k = Some f) /\ touches keys f = true.
Proof.
  intros L. unfold related_to. rewrite prefix_take by done. split; [rewrite length_take; lia|]. intros f H.
  assert (H' : f ∈ List.filter (touches keys) (map snd (map_to_list (related s)))).
  { rewrite <- (sorted_key_perm relation_key). rewrite <- (take_drop (Z.to_nat limit)). apply elem_of_app. by left. }
  apply list_elem_of_In, filter_In in H' as [H1 H2]. split; [|done]. apply list_elem_of_In, list_elem_of_fmap in H1 as ((k & f') & -> & H1%elem_of_map_to_list). by exists k.
Qed.

(** A recall first stores what it extracted from the report, then answers
    with at most [result_limit] facts and paths: distinct facts that touch an
    entity of the report, and simple ways of distinct entities that start there. *)
Theorem recall_answers_from_what_it_stored svc now elapsed c s es rs :
  keyed s -> graph_memory_service (max_hops svc) (result_limit svc) = Ok svc -> extract now c = Ok (es, rs) ->
  exists r, recall svc now elapsed c s = (Ok r, remembered es rs s) /\ query_entities r = es /\
    keyed (remembered es rs s) /\ (forall x, x ∈ rs -> is_Some (related (remembered es rs s) !! relation_key x)) /\
    NoDup (map relation_key (facts r)) /\ Z.of_nat (length (facts r)) <= result_limit svc /\
    (forall f, f ∈ facts r -> (exists k, related (remembered es rs s) !! k = Some f) /\ touches (map entity_key es) f = true) /\
    NoDup (map identity (paths r)) /\ Z.of_nat (length (paths r)) <= result_limit svc /\
    (forall p, p ∈ paths r -> exists start, entity_key start ∈ map entity_key es /\ known (remembered es rs s) !! entity_key start = Some start /\
       simple_trail (remembered es rs s) start (entities p) (relations p) /\ 1 <= Z.of_nat (length (relations p)) <= max_hops svc).
Proof.
  intros K V X. set (s' := remembered es rs s). assert (K' : keyed s') by by apply keyed_remembered.
  assert (B : 1 <= max_hops svc <= 3 /\ 0 < result_limit svc).
  { unfold graph_memory_service in V. destruct (Z.leb_spec 1 (max_hops svc)); [|done]. destruct (Z.leb_spec (max_hops svc) 3); [|done]. cbn in V.
    destruct (Z.leb_spec (result_limit svc) 0); [done|lia]. }
  destruct B as [H L]. set (keys := map entity_key es).
  destruct (map_result_total (fun k => paths_from k (max_hops svc) (result_limit svc) s') keys) as (batches & G).
  { intros k _. destruct (paths_are_the_simple_trails s' k _ _ K' H L) as (ps & P & _). by exists ps. }
  exists {| query_entities := es; facts := unique_facts (related_to keys (result_limit svc) s');
            paths := prefix_of (result_limit svc) (distinct [] (concat batches)); elapsed_ms := elapsed |}.
  cbn [query_entities facts paths]. destruct (related_to_spec keys (result_limit svc) s' L) as [R1 R2]. destruct (unique_facts_spec (related_to keys (result_limit svc) s')) as (U1 & U2 & U3).
  destruct (distinct_spec [] (concat batches)) as (D1 & _ & D3). rewrite prefix_take by done. split_and!.
  - unfold recall. rewrite X. unfold bind_action, ret_action. cbn [upsert_entity upsert_relation find_related find_paths fake_repository].
    rewrite (each_upsert put_entity), (each_upsert (fun r => seed [source r; target r] [r])). fold (remembered es rs s). fold s'. fold keys.
    rewrite (gather_reads (fun k => paths_from k (max_hops svc) (result_limit svc))), G. by rewrite prefix_take.
  - done.
  - done.
  - intros x. apply remembered_relation.
  - done.
  - lia.
  - intros f F. by apply R2, U3.
  - eapply NoDup_sublist; [|exact D1]. rewrite <- firstn_map. apply sublist_take.
  - rewrite length_take. lia.
  - intros p P. assert (P' : p ∈ concat batches) by (apply D3; rewrite <- (take_drop (Z.to_nat (result_limit svc)) (distinct [] (concat batches))); apply elem_of_app; by left).
    apply list_elem_of_In, in_concat in P' as (b & Hb%list_elem_of_In & Hp%list_elem_of_In). destruct (map_result_elem _ _ _ _ G Hb) as (k & Hk & E).
    destruct (paths_are_the_simple_trails s' k _ _ K' H L) as (ps & Q & _ & M). rewrite E in Q. injection Q as <-.
    destruct (known s' !! k) as [start|] eqn:S; [|rewrite M in Hp; by apply not_elem_of_nil in Hp]. destruct (proj1 M p Hp) as [T1 T2].
    exists start. rewrite (K' _ _ S). split_and!; try done; lia.
Qed.

(** ** Examples *)
Definition ex_store : store := remembered development_entities (development_relations "t0") empty_store.
Lemma ex_keyed : keyed ex_store.
Proof. apply keyed_remembered. by intros k e. Qed.

Lemma paths_are_the_simple_trails_witness :
  exists ps, paths_from "Driver:driver-li" 2 5 ex_store = Ok ps /\ map (fun p => length (relations p)) ps = [1; 1; 2; 2]%nat /\
    (forall es rs start, known ex_store !! "Driver:driver-li"%string = Some start -> simple_trail ex_store start es rs -> rs <> [] -> Z.of_nat (length rs) <= 2 ->
       {| entities := es; relations := rs |} ∈ ps).
Proof.
  destruct (paths_are_the_simple_trails ex_store "Driver:driver-li" 2 5 ex_keyed ltac:(lia) ltac:(lia)) as (ps & P & _ & F).
  assert (E : map (fun p => length (relations p)) ps = [1; 1; 2; 2]%nat).
  { assert (X : (match paths_from "Driver:driver-li" 2 5 ex_store with Ok ps => map (fun p => length (relations p)) ps | Err _ => [] end) = [1; 1; 2; 2]%nat) by (vm_compute; reflexivity).
    rewrite P in X. exact X. }
  exists ps. split; [exact P|]. split; [exact E|]. intros es rs start S T N L. rewrite S in F. destruct F as (_ & _ & F).
  destruct (F es rs T N L) as [H|[H _]]; [exact H|]. exfalso.
  apply (f_equal length) in E. rewrite length_map in E. rewrite E in H. discriminate H.
Defined.

Definition ex_context : GraphMemoryContext :=
  {| driver_id := "driver-li"; route_id := "xinping-road"; anomaly_type := "ROAD_HAZARD"; text := "新平路湿滑"; vehicle_id := Some "vehicle-cold-a"%string; weather := None |}.
Definition ex_service : GraphMemoryService := {| max_hops := 2; result_limit := 3 |}.

Lemma recall_answers_from_what_it_stored_witness : exists r s',
  recall ex_service "t1" "0.0" ex_context ex_store = (Ok r, s') /\ length (query_entities r) = 4%nat /\ Z.of_nat (length (paths r)) <= 3.
Proof.
  destruct (extract "t1" ex_context) as [[es rs]|e] eqn:X; [|vm_compute in X; discriminate X].
  destruct (recall_answers_from_what_it_stored ex_service "t1" "0.0" ex_context ex_store es rs ex_keyed eq_refl X) as (r & R & Q & _ & _ & _ & _ & _ & _ & L & _).
  exists r, (remembered es rs ex_store). split; [exact R|]. split; [|exact L]. rewrite Q. vm_compute in X. injection X as <- _. reflexivity.
Defined.
End FakeFacts.
