(* ===== verification/Snapshots.v ===== *)
(** * Snapshots: the road network in the state of the graph

    Models [app/road_network/service.py] and the road-network types of
    [app/graph/state.py]: a snapshot is captured once per task as plain data,
    with its decimals as texts, and restored at the border of a node. *)

From S2P Require Import Prelude Decimal DecimalText Evidence RoadNetwork.

Local Open Scope Z_scope.
Local Open Scope list_scope.

(** ** Reading a typed dictionary *)
Definition KeyError (key : string) : exn := Exn "KeyError" key.
(** A value of another type than its [TypedDict] declares; how such a value fails further on is not modelled. *)
Definition ill_typed : exn := Exn "TypeError" "".

Definition need (d : pydict) (key : string) : result pyval := of_option (KeyError key) (dict_get d key).
Definition as_text (v : pyval) : result string := match v with PStr s => Ok s | _ => Err ill_typed end.
Definition as_int (v : pyval) : result Z := match v with PInt z => Ok z | _ => Err ill_typed end.
Definition as_bool (v : pyval) : result bool := match v with PBool b => Ok b | _ => Err ill_typed end.
Definition as_items (v : pyval) : result (list pyval) := of_option ill_typed (sequence_items v).
Definition as_dict (v : pyval) : result pydict := of_option ill_typed (is_mapping v).
(** [Decimal(text)]; the infinities and NaNs are no values of the columns. *)
Definition finite_decimal (s : string) : result Q :=
  match decimal_of_text s with Some (Finite q) => Ok (Qred q) | Some _ => Err ill_typed | None => Err InvalidOperation end.

Definition need_text (d : pydict) (key : string) : result string := v ← need d key; as_text v.
Definition need_int (d : pydict) (key : string) : result Z := v ← need d key; as_int v.
Definition need_bool (d : pydict) (key : string) : result bool := v ← need d key; as_bool v.
Definition need_items (d : pydict) (key : string) : result (list pyval) := v ← need d key; as_items v.
Definition need_decimal (d : pydict) (key : string) : result Q := s ← need_text d key; finite_decimal s.

(** ** RoadNetworkSnapshotService *)
Definition format_f (q : Q) : string := format_fixed 2 q.

Definition node_to_state (n : RoadNodeSnapshot) : pyval :=
  PDict [("node_id", PStr (node_id n)); ("name", PStr (node_name n)); ("x_km", PStr (format_f (x_km n))); ("y_km", PStr (format_f (y_km n)));
         ("node_type", PStr (node_type n))]%string.
Definition edge_to_state (e : RoadEdgeSnapshot) : pyval :=
  PDict [("edge_id", PStr (edge_id e)); ("name", PStr (edge_name e)); ("from_node_id", PStr (from_node_id e)); ("to_node_id", PStr (to_node_id e));
         ("distance_km", PStr (format_f (distance_km e))); ("base_minutes", PInt (base_minutes e)); ("road_level", PStr (road_level e));
         ("risk_level", PStr (risk_level e)); ("status", PStr (edge_status e)); ("congestion_factor", PStr (format_f (congestion_factor e)));
         ("weight_limit_tons", PStr (format_f (weight_limit_tons e))); ("bidirectional", PBool (bidirectional e)); ("version", PInt (edge_version e))]%string.
Definition to_state (s : RoadNetworkSnapshot) : pydict :=
  [("version", PInt (network_version s)); ("nodes", PList (map node_to_state (nodes s))); ("edges", PList (map edge_to_state (edges s)))]%string.

(** [capture] over what the provider's [snapshot()] gives. *)
Definition capture (snapshot : result RoadNetworkSnapshot) : result pydict := s ← snapshot; Ok (to_state s).

Definition restore_node (v : pyval) : result RoadNodeSnapshot :=
  d ← as_dict v;
  i ← need_text d "node_id"; name ← need_text d "name"; x ← need_decimal d "x_km"; y ← need_decimal d "y_km"; ty ← need_text d "node_type";
  Ok {| node_id := i; node_name := name; x_km := x; y_km := y; node_type := ty |}.
Definition restore_edge (v : pyval) : result RoadEdgeSnapshot :=
  d ← as_dict v;
  i ← need_text d "edge_id"; name ← need_text d "name"; from ← need_text d "from_node_id"; to ← need_text d "to_node_id";
  km ← need_decimal d "distance_km"; minutes ← need_int d "base_minutes"; level ← need_text d "road_level"; risk ← need_text d "risk_level";
  st ← need_text d "status"; congestion ← need_decimal d "congestion_factor"; limit ← need_decimal d "weight_limit_tons";
  both ← need_bool d "bidirectional"; version ← need_int d "version";
  Ok {| edge_id := i; edge_name := name; from_node_id := from; to_node_id := to; distance_km := km; base_minutes := minutes; road_level := level;
        risk_level := risk; edge_status := st; congestion_factor := congestion; weight_limit_tons := limit; bidirectional := both; edge_version := version |}.
Definition restore (state : pydict) : result RoadNetworkSnapshot :=
  version ← need_int state "version";
  node_items ← need_items state "nodes"; ns ← map_result restore_node node_items;
  edge_items ← need_items state "edges"; es ← map_result restore_edge edge_items;
  Ok {| network_version := version; nodes := ns; edges := es |}.

(** ** What is captured is restored *)
Definition cents (q : Q) : Prop := Qred q = q /\ exists m, (q * pow10 2 == inject_Z m)%Q.

Lemma quantize_cents q r : quantize 2 q = Ok r -> cents r.
Proof.
  unfold quantize. destruct (_ <? _); [|done]. intros [= <-]. split; [apply Qred_complete, Qred_correct|].
  exists (half_up (q * pow10 2)). rewrite Qred_correct, <- Qmult_assoc. assert (U : (pow10 (- (2)) * pow10 2 == 1)%Q) by reflexivity. rewrite U. ring.
Qed.

Lemma format_f_reads q : cents q -> finite_decimal (format_f q) = Ok q.
Proof.
  intros [C (m & M)]. destruct (fixed_text 2 q m ltac:(lia) M) as (r & R & E). unfold finite_decimal, format_f. rewrite R. f_equal. rewrite <- C. by apply Qred_complete.
Qed.

Definition node_cents (n : RoadNodeSnapshot) : Prop := cents (x_km n) /\ cents (y_km n).
Definition edge_cents (e : RoadEdgeSnapshot) : Prop := cents (distance_km e) /\ cents (congestion_factor e) /\ cents (weight_limit_tons e).

Lemma node_snapshot_cents row n : node_snapshot row = Ok n -> node_cents n.
Proof.
  unfold node_snapshot, decimal_places. intros (x & X & H)%result_bind_ok. apply result_bind_ok in H as (y & Y & [= <-]).
  split; by eapply quantize_cents.
Qed.
Lemma edge_snapshot_cents row e : edge_snapshot row = Ok e -> edge_cents e.
Proof.
  unfold edge_snapshot, decimal_places. intros (x & X & H)%result_bind_ok. apply result_bind_ok in H as (y & Y & H). apply result_bind_ok in H as (z & Z & [= <-]).
  split_and!; by eapply quantize_cents.
Qed.

Lemma restore_node_to_state n : node_cents n -> restore_node (node_to_state n) = Ok n.
Proof.
  intros [X Y]. unfold restore_node, node_to_state, need_decimal, need_text, need. cbn. rewrite (format_f_reads _ X). cbn. rewrite (format_f_reads _ Y). by destruct n.
Qed.
Lemma restore_edge_to_state e : edge_cents e -> restore_edge (edge_to_state e) = Ok e.
Proof.
  intros (X & Y & Z). unfold restore_edge, edge_to_state, need_decimal, need_text, need_int, need_bool, need. cbn.
  rewrite (format_f_reads _ X). cbn. rewrite (format_f_reads _ Y). cbn. rewrite (format_f_reads _ Z). by destruct e.
Qed.

Lemma map_result_restored {A B} (f : A -> B) (g : B -> result A) (P : A -> Prop) l : (forall a, P a -> g (f a) = Ok a) -> (forall a, a ∈ l -> P a) ->
  map_result g (map f l) = Ok l.
Proof.
  intros H. induction l as [|a l IH]; intros K; [done|]. cbn [map map_result]. rewrite H by (apply K; left). cbn. rewrite IH by (intros b Hb; apply K; by right). done.
Qed.

(** C36: The network a task sees does not change under way: what [capture] put
    into the state from the rows of the road tables is restored, at the border
    of every node, to the snapshot that was captured, decimals included. *)
Theorem captured_network_restored node_rows edge_rows state :
  capture (snapshot node_rows edge_rows) = Ok state ->
  exists s, snapshot node_rows edge_rows = Ok s /\ restore state = Ok s /\ capture (restore state) = Ok state.
Proof.
  unfold capture at 1. intros (s & S & [= <-])%result_bind_ok. exists s. split; [done|].
  assert (R : restore (to_state s) = Ok s); [|by rewrite R].
  unfold snapshot in S. apply result_bind_ok in S as (ns & N & S). apply result_bind_ok in S as (es & E & [= <-]).
  unfold restore, to_state, need_int, need_items, need. cbn.
  rewrite (map_result_restored _ _ node_cents); [|exact restore_node_to_state|intros n Hn; destruct (map_result_elem _ _ _ _ N Hn) as (row & _ & Hr); by eapply node_snapshot_cents].
  cbn. rewrite (map_result_restored _ _ edge_cents); [done|exact restore_edge_to_state|intros e He; destruct (map_result_elem _ _ _ _ E He) as (row & _ & Hr); by eapply edge_snapshot_cents].
Qed.

Lemma captured_network_restored_witness : exists state s, capture (snapshot (nodes ex_network) (edges ex_network)) = Ok state /\ restore state = Ok s /\
  length (edges s) = length (edges ex_network).
Proof.
  destruct (capture (snapshot (nodes ex_network) (edges ex_network))) as [state|e] eqn:C; [|vm_compute in C; discriminate C].
  destruct (captured_network_restored _ _ _ C) as (s & S & R & _). exists state, s. split; [reflexivity|]. split; [exact R|].
  vm_compute in S. injection S as <-. reflexivity.
Defined.
