(* ===== verification/Sandtable.v ===== *)
(** * Sandtable: the context of an order, and roads reported as blocked

    Models [app/sandtable/service.py], its context record, and [load] and
    [set_edge_status] of [sqlalchemy_repository.py] over the tables they query.
    The version of a road is its optimistic lock: [env] is what other sessions
    commit between the query and the commit of [set_edge_status]. *)

From S2P Require Import Prelude Decimal RoadNetwork Fleet.
From S2P Require Routing.

Local Open Scope Z_scope.
Local Open Scope list_scope.

(** ** Tables *)
Record Order := {
  o_id : Z;
  o_order_no : string;
  o_vehicle_id : option string;
  o_origin : string;
  o_destination : string;
  o_cargo_weight_kg : option Q;
  o_cargo_type : option string;
  o_origin_station_id : option string;
  o_destination_station_id : option string;
}.
Record LogisticsStation := { station_id : string; road_node_id : string }.
Record tables := {
  orders : list Order;
  stations : list LogisticsStation;
  node_rows : list RoadNodeSnapshot;
  edge_rows : list RoadEdgeSnapshot;
  vehicle_rows : list FleetVehicle;
}.
Definition with_edges (es : list RoadEdgeSnapshot) (t : tables) : tables :=
  {| orders := orders t; stations := stations t; node_rows := node_rows t; edge_rows := es; vehicle_rows := vehicle_rows t |}.

Definition LookupError (m : string) : exn := Exn "LookupError" m.
Definition StaleDataError : exn := Exn "StaleDataError" "".

(** ** SqlAlchemySandtableRepository *)
Definition endpoint_node_id (t : tables) (station : option string) (endpoint_name : string) : option string :=
  match station ≫= fun i => List.find (fun x => String.eqb (station_id x) i) (stations t) with
  | Some x => Some (road_node_id x)
  | None => match List.filter (fun n => String.eqb (node_name n) endpoint_name) (node_rows t) with [n] => Some (node_id n) | _ => None end
  end.

Definition nonzero_or (x : option Q) (d : Q) : Q := match x with Some q => if Qeq_bool q 0 then d else q | None => d end.

Definition load (order_id : Z) (t : tables) : result Routing.SandtableTaskContext :=
  match List.find (fun o => o_id o =? order_id) (orders t) with
  | None => Err (LookupError ("订单不存在: " +:+ z_str order_id))
  | Some o =>
      match endpoint_node_id t (o_origin_station_id o) (o_origin o), endpoint_node_id t (o_destination_station_id o) (o_destination o),
            o_vehicle_id o ≫= fun i => List.find (fun r => String.eqb (vehicle_id (row_vehicle r)) i) (vehicle_rows t) with
      | Some origin, Some destination, Some r =>
          Ok {| Routing.st_order_id := o_id o; Routing.st_order_no := o_order_no o; Routing.st_cargo_weight_kg := nonzero_or (o_cargo_weight_kg o) 0;
                Routing.st_cargo_type := or_else (o_cargo_type o) "GENERAL"; Routing.st_origin_node_id := origin; Routing.st_destination_node_id := destination;
                Routing.st_current_vehicle_id := vehicle_id (row_vehicle r); Routing.st_current_driver_id := assigned_driver_id r;
                Routing.st_incident_node_id := None; Routing.st_affected_edge_ids := []; Routing.st_network_version := max_version (edge_rows t);
                Routing.st_vehicle_weight_tons := gross_weight_tons (row_vehicle r) |}
      | _, _, _ => Err (LookupError ("订单沙盘上下文不完整: " +:+ o_order_no o))
      end
  end.

Definition with_status (status : string) (e : RoadEdgeSnapshot) : RoadEdgeSnapshot :=
  {| edge_id := edge_id e; edge_name := edge_name e; from_node_id := from_node_id e; to_node_id := to_node_id e; distance_km := distance_km e;
     base_minutes := base_minutes e; road_level := road_level e; risk_level := risk_level e; edge_status := status;
     congestion_factor := congestion_factor e; weight_limit_tons := weight_limit_tons e; bidirectional := bidirectional e; edge_version := edge_version e + 1 |}.
Definition find_edge (i : string) (es : list RoadEdgeSnapshot) : option RoadEdgeSnapshot := List.find (fun e => String.eqb (edge_id e) i) es.
(** [UPDATE ... WHERE id AND version]; no matched row is a [StaleDataError]. *)
Definition commit_status (loaded : RoadEdgeSnapshot) (status : string) (t : tables) : result tables :=
  match find_edge (edge_id loaded) (edge_rows t) with
  | Some e => if edge_version e =? edge_version loaded
              then Ok (with_edges (map (fun e => if String.eqb (edge_id e) (edge_id loaded) then with_status status e else e) (edge_rows t)) t)
              else Err StaleDataError
  | None => Err StaleDataError
  end.
Definition set_edge_status (env : tables -> tables) (i status : string) : action tables Z := fun t =>
  match find_edge i (edge_rows t) with
  | None => (Err (LookupError ("道路不存在: " +:+ i)), t)
  | Some e =>
      if String.eqb (edge_status e) status then (Ok (edge_version e), t)
      else match commit_status e status (env t) with
           | Ok t' => (Ok (edge_version e + 1), t')
           | Err x => (Err x, env t)
           end
  end.

(** ** SandtableContextService *)
Definition VEHICLE_ALIASES : list (string * string) := [("新物冷链-01", "V-001")]%string.
Definition NODE_ALIASES : list (string * string) := [("新平路 K3.2", "N04")]%string.
Definition EDGE_ALIASES : list (string * string) := [("新平路东河桥段", "E04"); ("中心仓至 308 线", "E10")]%string.

Definition resolve_exact_alias (description : string) (aliases : list (string * string)) : option string :=
  match List.filter (fun a => contains a.1 description) aliases with [a] => Some a.2 | _ => None end.

Definition RoadLocationUnresolved : exn := Exn "RoadLocationUnresolved" "无法唯一定位道路".
(** The outcomes of [resolve]; [VehicleAssignmentMismatch] carries the context. *)
Inductive resolution :=
| Resolved (c : Routing.SandtableTaskContext)
| VehicleAssignmentMismatch (c : Routing.SandtableTaskContext).

Definition located (incident : option string) (affected : list string) (c : Routing.SandtableTaskContext) : Routing.SandtableTaskContext :=
  {| Routing.st_order_id := Routing.st_order_id c; Routing.st_order_no := Routing.st_order_no c; Routing.st_cargo_weight_kg := Routing.st_cargo_weight_kg c;
     Routing.st_cargo_type := Routing.st_cargo_type c; Routing.st_origin_node_id := Routing.st_origin_node_id c;
     Routing.st_destination_node_id := Routing.st_destination_node_id c; Routing.st_current_vehicle_id := Routing.st_current_vehicle_id c;
     Routing.st_current_driver_id := Routing.st_current_driver_id c; Routing.st_incident_node_id := incident; Routing.st_affected_edge_ids := affected;
     Routing.st_network_version := Routing.st_network_version c; Routing.st_vehicle_weight_tons := Routing.st_vehicle_weight_tons c |}.

Definition reported_vehicle (vehicle : option string) (description : string) : option string :=
  match vehicle with Some v => if String.eqb v "" then resolve_exact_alias description VEHICLE_ALIASES else Some v | None => resolve_exact_alias description VEHICLE_ALIASES end.

Section resolve.
Context (env : tables -> tables).

Definition loaded (order_id : Z) : action tables Routing.SandtableTaskContext := fun t => (load order_id t, t).

Definition resolve (order_id : Z) (anomaly_type description : string) (vehicle : option string) : action tables resolution :=
  (do c <- loaded order_id;
   if match reported_vehicle vehicle description with Some v => negb (String.eqb v (Routing.st_current_vehicle_id c)) | None => false end
   then ret_action (VehicleAssignmentMismatch c)
   else if String.eqb anomaly_type "ROAD_BLOCKED" then
     match resolve_exact_alias description EDGE_ALIASES with
     | None => raise_action RoadLocationUnresolved
     | Some i =>
         do _ <- set_edge_status env i "BLOCKED";
         do c' <- loaded order_id;
         ret_action (Resolved (located (Routing.st_incident_node_id c') [i] c'))
     end
   else ret_action (Resolved (located (resolve_exact_alias description NODE_ALIASES) (Routing.st_affected_edge_ids c) c)))%action.
End resolve.

(** ** What a report changes *)
Definition edge_of (i : string) (t : tables) : option RoadEdgeSnapshot := find_edge i (edge_rows t).

Lemma find_edge_id i es e : find_edge i es = Some e -> edge_id e = i.
Proof. intros H. apply find_some in H as [_ H]. by apply String.eqb_eq in H. Qed.

Lemma find_edge_map i j status es : find_edge i (map (fun e => if String.eqb (edge_id e) j then with_status status e else e) es) =
  (if String.eqb i j then with_status status <$> find_edge i es else find_edge i es).
Proof.
  unfold find_edge. rewrite find_map by (intros e; by destruct (String.eqb (edge_id e) j)). destruct (List.find (fun e => String.eqb (edge_id e) i) es) as [e|] eqn:F; cbn.
  - apply find_edge_id in F as ->. by destruct (String.eqb i j).
  - by destruct (String.eqb i j).
Qed.

Lemma set_edge_status_ok env i status t n t' : set_edge_status env i status t = (Ok n, t') ->
  exists e, edge_of i t = Some e /\
    ((edge_status e = status /\ n = edge_version e /\ t' = t) \/
     (edge_status e <> status /\ n = edge_version e + 1 /\ (exists e', edge_of i (env t) = Some e' /\ edge_version e' = edge_version e /\ edge_of i t' = Some (with_status status e')) /\
      (forall j, j <> i -> edge_of j t' = edge_of j (env t)) /\ orders t' = orders (env t) /\ stations t' = stations (env t) /\
      node_rows t' = node_rows (env t) /\ vehicle_rows t' = vehicle_rows (env t))).
Proof.
  unfold set_edge_status, edge_of. destruct (find_edge i (edge_rows t)) as [e|] eqn:F; [|done]. destruct (String.eqb_spec (edge_status e) status) as [S|S].
  - intros [= <- <-]. exists e. split; [done|]. by left.
  - unfold commit_status. pose proof (find_edge_id _ _ _ F) as I. rewrite I. destruct (find_edge i (edge_rows (env t))) as [e'|] eqn:F'; [|done].
    destruct (Z.eqb_spec (edge_version e') (edge_version e)) as [V|V]; [|done]. intros [= <- <-]. exists e. split; [done|]. right.
    split; [done|]. split; [done|]. split; [|split].
    + exists e'. split; [done|]. split; [done|]. cbn [with_edges edge_rows]. by rewrite find_edge_map, String.eqb_refl, F'.
    + intros j J. cbn [with_edges edge_rows]. rewrite find_edge_map. by destruct (String.eqb_spec j i).
    + by split_and!.
Qed.

(** A report blocks a road only when it names exactly one: a resolved
    [ROAD_BLOCKED] report of the order's own vehicle leaves exactly that road
    blocked, with a new version when it was open, and no other road changed;
    every other outcome, an error included, changes nothing.  (Alone: [env] is
    the identity.) *)
Theorem resolve_blocks_only_the_named_road order_id anomaly description vehicle t x t' :
  resolve id order_id anomaly description vehicle t = (x, t') ->
  (t' = t /\ (anomaly = "ROAD_BLOCKED"%string -> forall c, x = Ok (Resolved c) -> exists i e, edge_of i t = Some e /\ edge_status e = "BLOCKED"%string)) \/
  (anomaly = "ROAD_BLOCKED"%string /\ exists i e, resolve_exact_alias description EDGE_ALIASES = Some i /\ edge_of i t = Some e /\ edge_status e <> "BLOCKED"%string /\
     edge_of i t' = Some (with_status "BLOCKED" e) /\ (forall j, j <> i -> edge_of j t' = edge_of j t) /\
     orders t' = orders t /\ stations t' = stations t /\ node_rows t' = node_rows t /\ vehicle_rows t' = vehicle_rows t /\
     (forall v, reported_vehicle vehicle description = Some v -> exists c, load order_id t = Ok c /\ v = Routing.st_current_vehicle_id c) /\
     (forall c, x = Ok (Resolved c) -> Routing.st_affected_edge_ids c = [i])).
Proof.
  unfold resolve, loaded at 1. unfold bind_action at 1. destruct (load order_id t) as [c|e] eqn:L; [|intros [= <- <-]; by left].
  destruct (match reported_vehicle vehicle description with Some v => _ | None => _ end) eqn:M; [intros [= <- <-]; by left|].
  destruct (String.eqb_spec anomaly "ROAD_BLOCKED") as [->|N]; [|intros [= <- <-]; left; split; [done|by intros ->]].
  destruct (resolve_exact_alias description EDGE_ALIASES) as [i|] eqn:A; [|intros [= <- <-]; by left].
  unfold bind_action at 1. destruct (set_edge_status id i "BLOCKED" t) as [[n|e] t1] eqn:S.
  - apply set_edge_status_ok in S as (e & E & H). intros X.
    assert (T : t' = t1 /\ forall c', x = Ok (Resolved c') -> Routing.st_affected_edge_ids c' = [i]).
    { unfold bind_action, loaded, ret_action in X. destruct (load order_id t1) as [c1|y]; injection X as <- <-; split; try done. by intros c' [= <-]. }
    destruct T as [-> T]. destruct H as [(B & _ & ->)|(B & _ & (e' & E' & V & F) & O & R)].
    + left. split; [done|]. intros _ c' _. by exists i, e.
    + right. split; [done|]. exists i, e. cbn in E', O, R. rewrite E in E'. injection E' as <-. destruct R as (R1 & R2 & R3 & R4).
      split_and!; try done. intros v W. exists c. split; [done|]. rewrite W in M. by destruct (String.eqb_spec v (Routing.st_current_vehicle_id c)).
  - intros [= <- <-]. assert (t1 = t) as ->; [|by left]. unfold set_edge_status in S. destruct (find_edge i (edge_rows t)) as [e0|]; [|by injection S].
    destruct (String.eqb _ _); [done|]. destruct (commit_status e0 "BLOCKED" (id t)); [done|]. by injection S as _ <-.
Qed.

(** ** Example *)
Definition ex_order : Order :=
  {| o_id := 7; o_order_no := "ORD-7"; o_vehicle_id := Some "V1"%string; o_origin := "A"; o_destination := "D"; o_cargo_weight_kg := Some 800%Q; o_cargo_type := None;
     o_origin_station_id := None; o_destination_station_id := None |}.
Definition ex_rows : list RoadEdgeSnapshot := [ex_edge "E04" "A" "D" 5 10 "LOW" "OPEN" 1 true; ex_edge "E10" "A" "D" 7 10 "LOW" "OPEN" 1 true].
Definition ex_tables : tables :=
  {| orders := [ex_order]; stations := []; node_rows := [ex_node "A"; ex_node "D"]; edge_rows := ex_rows;
     vehicle_rows := map (fun v => {| row_vehicle := v; assigned_driver_id := Some "D1"%string |}) (take 1 ex_fleet) |}.

Lemma resolve_blocks_only_the_named_road_witness : exists c t',
  resolve id 7 "ROAD_BLOCKED" "新平路东河桥段封闭" None ex_tables = (Ok (Resolved c), t') /\ Routing.st_affected_edge_ids c = ["E04"%string] /\
  edge_status <$> edge_of "E04" t' = Some "BLOCKED"%string /\ edge_of "E10" t' = edge_of "E10" ex_tables.
Proof.
  destruct (resolve id 7 "ROAD_BLOCKED" "新平路东河桥段封闭" None ex_tables) as [[[c|c]|e] t'] eqn:E; [|vm_compute in E; discriminate E|vm_compute in E; discriminate E].
  exists c, t'. split; [reflexivity|].
  destruct (resolve_blocks_only_the_named_road 7 "ROAD_BLOCKED" "新平路东河桥段封闭" None ex_tables _ t' E) as [[X _]|(_ & i & e & A & _ & _ & B & O & _ & _ & _ & _ & _ & F)].
  - exfalso. assert (Y : edge_status <$> edge_of "E04" t' = Some "BLOCKED"%string) by (vm_compute in E; injection E as _ <-; reflexivity). rewrite X in Y. vm_compute in Y. discriminate Y.
  - vm_compute in A. injection A as <-. split; [exact (F c eq_refl)|]. split; [rewrite B; reflexivity|]. apply O. discriminate.
Defined.
