(* ===== verification/SandtableSeed.v ===== *)
(** * SandtableSeed: the demonstration county, and seeding it at start-up

    Models [seed_new_county_sandtable] of [app/sandtable/sqlalchemy_repository.py]
    with the rows of [seed_data.py], and
    [migrate_legacy_demo_business_case_orders] of [app/seed.py] with the orders of
    its old cases, which [seed_database] runs before it.  Tables are maps by their
    unique key; the rows of roads, vehicles and drivers are those of RoadNetwork
    and Fleet.  Seeding runs in one transaction, so an error leaves the tables as
    they were.  Row numbers and the versions of vehicles and drivers are left
    out; a column that holds two decimals prints them. *)

From S2P Require Import Prelude Decimal DecimalText RoadNetwork Fleet Snapshots.
From S2P Require Sandtable Routing.

Local Open Scope Z_scope.
Local Open Scope list_scope.

(** ** The rows of [seed_data.py] *)
Record StationRow := { s_station_id : string; s_name : string; s_type : string; s_road_node_id : string; s_handling_capacity_kg : string; s_status : string }.
Record NodeRow := { n_node_id : string; n_name : string; n_x_km : string; n_y_km : string; n_type : string }.
Record EdgeRow := {
  e_edge_id : string; e_name : string; e_from_node_id : string; e_to_node_id : string; e_distance_km : string; e_base_minutes : Z;
  e_road_level : string; e_risk_level : string; e_weight_limit_tons : string;
}.
Record DriverRow := { d_driver_id : string; d_name : string; d_license_class : string; d_status : string; d_current_vehicle_id : string; d_current_node_id : string }.
Record VehicleRow := {
  v_vehicle_id : string; v_plate_no : string; v_type : string; v_max_load_kg : string; v_current_load_kg : string; v_gross_weight_tons : string;
  v_cargo_capability : string; v_status : string; v_current_node_id : string; v_assigned_driver_id : option string;
}.
Record OrderRow := {
  r_order_no : string; r_cargo_type : string; r_cargo_weight_kg : string; r_origin_station_id : string; r_destination_station_id : string;
  r_vehicle_id : string; r_status : string;
}.
(** An old demonstration case of [seed.py]: an order and an anomaly. *)
Record LegacyCase := {
  c_order_no : string; c_legacy_order_no : string; c_status : string; c_driver_id : string; c_vehicle_id : string; c_route_id : string;
  c_origin : string; c_destination : string; c_anomaly_no : string; c_anomaly_type : string; c_severity : string; c_description : string;
}.

Definition STATIONS : list StationRow := [
  Build_StationRow "ST-001" "新平县中心仓" "HUB" "N01" "20000.00" "ACTIVE";
  Build_StationRow "ST-002" "城东配送站" "TOWN" "N06" "6000.00" "ACTIVE";
  Build_StationRow "ST-003" "北岭村驿站" "VILLAGE" "N11" "1200.00" "ACTIVE";
  Build_StationRow "ST-004" "河西乡服务站" "TOWN" "N12" "3500.00" "ACTIVE";
  Build_StationRow "ST-005" "南山村服务点" "VILLAGE" "N13" "1000.00" "ACTIVE";
  Build_StationRow "ST-006" "新平冷链中心" "COLD_CHAIN" "N14" "5000.00" "ACTIVE";
  Build_StationRow "ST-007" "县域车辆维修站" "MAINTENANCE" "N15" "2500.00" "ACTIVE";
  Build_StationRow "ST-008" "城东电商服务点" "TOWN" "N17" "2800.00" "ACTIVE";
  Build_StationRow "ST-009" "智慧物流调度中心" "HUB" "N19" "18000.00" "ACTIVE";
  Build_StationRow "ST-010" "快递集散站" "TOWN" "N20" "9000.00" "ACTIVE";
  Build_StationRow "ST-011" "新能源车辆充电站" "CHARGING" "N21" "1500.00" "ACTIVE";
  Build_StationRow "ST-012" "应急救援站" "RESCUE" "N22" "2000.00" "ACTIVE"]%string.
Definition ROAD_NODES : list NodeRow := [
  Build_NodeRow "N01" "新平县中心仓" "0.00" "0.00" "STATION";
  Build_NodeRow "N02" "西环路口" "2.00" "0.00" "JUNCTION";
  Build_NodeRow "N03" "新平路西口" "2.00" "2.00" "JUNCTION";
  Build_NodeRow "N04" "新平路 K3.2" "5.00" "2.00" "INCIDENT_POINT";
  Build_NodeRow "N05" "东河桥" "8.00" "2.00" "BRIDGE";
  Build_NodeRow "N06" "城东配送站" "10.00" "2.00" "STATION";
  Build_NodeRow "N07" "102 国道西口" "2.00" "-2.00" "JUNCTION";
  Build_NodeRow "N08" "102 国道中段" "6.00" "-2.00" "JUNCTION";
  Build_NodeRow "N09" "102 国道东口" "9.00" "-1.00" "JUNCTION";
  Build_NodeRow "N10" "308 县道口" "0.00" "3.00" "JUNCTION";
  Build_NodeRow "N11" "北岭村驿站" "4.00" "6.00" "STATION";
  Build_NodeRow "N12" "河西乡服务站" "-3.00" "2.00" "STATION";
  Build_NodeRow "N13" "南山村服务点" "7.00" "-5.00" "STATION";
  Build_NodeRow "N14" "新平冷链中心" "1.00" "-1.00" "STATION";
  Build_NodeRow "N15" "县域车辆维修站" "4.00" "1.00" "STATION";
  Build_NodeRow "N16" "河西农资路口" "-1.00" "4.00" "JUNCTION";
  Build_NodeRow "N17" "城东电商服务点" "11.00" "4.00" "STATION";
  Build_NodeRow "N18" "双河村路口" "12.00" "0.00" "JUNCTION";
  Build_NodeRow "N19" "智慧物流调度中心" "0.50" "0.50" "STATION";
  Build_NodeRow "N20" "快递集散站" "6.00" "1.50" "STATION";
  Build_NodeRow "N21" "新能源车辆充电站" "9.00" "0.00" "STATION";
  Build_NodeRow "N22" "应急救援站" "3.00" "2.00" "STATION"]%string.
Definition ROAD_EDGES : list EdgeRow := [
  Build_EdgeRow "E01" "中心仓连接线" "N01" "N02" "1.50" 3 "COUNTY" "LOW" "8.00";
  Build_EdgeRow "E02" "西环至新平路" "N02" "N03" "1.50" 3 "COUNTY" "LOW" "8.00";
  Build_EdgeRow "E03" "新平路西段" "N03" "N04" "2.00" 4 "COUNTY" "MEDIUM" "6.00";
  Build_EdgeRow "E04" "新平路东河桥段" "N04" "N05" "2.50" 5 "COUNTY" "HIGH" "6.00";
  Build_EdgeRow "E05" "东河桥连接线" "N05" "N06" "2.50" 5 "TOWN" "LOW" "5.00";
  Build_EdgeRow "E06" "102 国道引道" "N02" "N07" "2.00" 4 "COUNTY" "LOW" "10.00";
  Build_EdgeRow "E07" "102 国道西段" "N07" "N08" "4.00" 7 "NATIONAL" "LOW" "20.00";
  Build_EdgeRow "E08" "102 国道东段" "N08" "N09" "3.20" 6 "NATIONAL" "LOW" "20.00";
  Build_EdgeRow "E09" "国道至城东站" "N09" "N06" "2.50" 4 "COUNTY" "LOW" "8.00";
  Build_EdgeRow "E10" "中心仓至 308 线" "N01" "N10" "3.10" 6 "COUNTY" "MEDIUM" "8.00";
  Build_EdgeRow "E11" "308 县道北岭段" "N10" "N11" "5.50" 11 "COUNTY" "MEDIUM" "5.00";
  Build_EdgeRow "E12" "308 县道农资段" "N10" "N16" "2.00" 4 "COUNTY" "LOW" "7.00";
  Build_EdgeRow "E13" "河西农资支线" "N16" "N12" "4.00" 8 "TOWN" "LOW" "5.00";
  Build_EdgeRow "E14" "河西回仓线" "N12" "N01" "3.60" 7 "TOWN" "LOW" "5.00";
  Build_EdgeRow "E15" "102 国道南山支线" "N08" "N13" "4.50" 9 "VILLAGE" "MEDIUM" "3.50";
  Build_EdgeRow "E16" "南山东接线" "N13" "N09" "5.20" 10 "VILLAGE" "MEDIUM" "3.50";
  Build_EdgeRow "E17" "城东电商北线" "N06" "N17" "3.50" 7 "TOWN" "LOW" "5.00";
  Build_EdgeRow "E18" "电商双河线" "N17" "N18" "4.00" 8 "VILLAGE" "LOW" "3.50";
  Build_EdgeRow "E19" "双河城东线" "N18" "N06" "2.80" 6 "VILLAGE" "LOW" "3.50";
  Build_EdgeRow "E20" "维修站接驳线" "N15" "N04" "2.80" 6 "TOWN" "LOW" "5.00";
  Build_EdgeRow "E21" "维修站国道线" "N15" "N08" "3.00" 6 "COUNTY" "LOW" "8.00";
  Build_EdgeRow "E22" "冷链中心回仓线" "N14" "N01" "1.10" 3 "TOWN" "LOW" "5.00";
  Build_EdgeRow "E23" "冷链中心国道线" "N14" "N07" "2.50" 5 "COUNTY" "LOW" "8.00";
  Build_EdgeRow "E24" "北岭电商山路" "N11" "N17" "8.00" 15 "VILLAGE" "HIGH" "2.00";
  Build_EdgeRow "E25" "东河桥电商线" "N05" "N17" "3.10" 6 "TOWN" "LOW" "5.00";
  Build_EdgeRow "E26" "国道双河线" "N09" "N18" "3.30" 6 "COUNTY" "LOW" "8.00";
  Build_EdgeRow "E27" "调度中心集散线" "N19" "N20" "5.60" 15 "COUNTY" "LOW" "12.00";
  Build_EdgeRow "E28" "集散站充电线" "N20" "N21" "3.30" 6 "TOWN" "LOW" "8.00";
  Build_EdgeRow "E29" "充电站维修接驳线" "N21" "N15" "5.20" 9 "TOWN" "LOW" "6.00";
  Build_EdgeRow "E30" "调度中心回仓线" "N19" "N01" "0.70" 2 "TOWN" "LOW" "12.00";
  Build_EdgeRow "E31" "维修站调度线" "N15" "N19" "3.60" 6 "TOWN" "LOW" "6.00";
  Build_EdgeRow "E32" "园区救援接驳线" "N03" "N22" "1.10" 7 "TOWN" "LOW" "6.00";
  Build_EdgeRow "E33" "救援站集散线" "N22" "N20" "3.10" 9 "TOWN" "LOW" "6.00";
  Build_EdgeRow "E34" "集散站东环线" "N20" "N05" "2.20" 7 "COUNTY" "LOW" "8.00";
  Build_EdgeRow "E35" "南环充电接驳线" "N09" "N21" "1.20" 3 "COUNTY" "LOW" "10.00";
  Build_EdgeRow "E36" "充电站双河线" "N21" "N18" "3.30" 6 "COUNTY" "LOW" "8.00"]%string.
Definition DRIVERS : list DriverRow := [
  Build_DriverRow "D-001" "李师傅" "C1" "BUSY" "V-001" "N04";
  Build_DriverRow "D-002" "张师傅" "C1" "ON_DUTY" "V-002" "N01";
  Build_DriverRow "D-003" "陈师傅" "C1" "ON_DUTY" "V-005" "N15";
  Build_DriverRow "D-004" "王师傅" "B2" "BUSY" "V-004" "N06";
  Build_DriverRow "D-005" "林师傅" "C1" "OFF_DUTY" "V-006" "N14";
  Build_DriverRow "D-006" "黄师傅" "C1" "ON_DUTY" "V-007" "N12";
  Build_DriverRow "D-007" "周师傅" "B2" "ON_DUTY" "V-008" "N03";
  Build_DriverRow "D-008" "徐师傅" "C1" "BUSY" "V-009" "N11";
  Build_DriverRow "D-009" "郭师傅" "B2" "ON_DUTY" "V-010" "N01";
  Build_DriverRow "D-010" "杨师傅" "C1" "ON_DUTY" "V-012" "N06";
  Build_DriverRow "D-011" "赵师傅" "C1" "ON_DUTY" "V-003" "N15";
  Build_DriverRow "D-012" "孙师傅" "C1" "ON_DUTY" "V-011" "N14"]%string.
Definition VEHICLES : list VehicleRow := [
  Build_VehicleRow "V-001" "新物冷链-01" "REFRIGERATED_VAN" "1500.00" "700.00" "2.80" "COLD_CHAIN" "IN_TRANSIT" "N04" (Some "D-001");
  Build_VehicleRow "V-002" "新物厢货-02" "VAN" "1200.00" "200.00" "2.20" "GENERAL" "AVAILABLE" "N01" (Some "D-002");
  Build_VehicleRow "V-003" "新物厢货-03" "VAN" "1000.00" "600.00" "2.00" "GENERAL" "AVAILABLE" "N15" (Some "D-011");
  Build_VehicleRow "V-004" "新物轻卡-04" "LIGHT_TRUCK" "3000.00" "1200.00" "5.50" "FARM_SUPPLY" "IN_TRANSIT" "N06" (Some "D-004");
  Build_VehicleRow "V-005" "新物冷链-05" "REFRIGERATED_VAN" "1000.00" "100.00" "2.40" "COLD_CHAIN" "AVAILABLE" "N15" (Some "D-003");
  Build_VehicleRow "V-006" "新物电运-06" "ELECTRIC_VAN" "900.00" "0.00" "1.80" "GENERAL" "MAINTENANCE" "N14" (Some "D-005");
  Build_VehicleRow "V-007" "新物乡配-07" "TRICYCLE" "300.00" "50.00" "0.80" "GENERAL" "AVAILABLE" "N12" (Some "D-006");
  Build_VehicleRow "V-008" "新物轻卡-08" "LIGHT_TRUCK" "2000.00" "700.00" "4.50" "GENERAL" "AVAILABLE" "N03" (Some "D-007");
  Build_VehicleRow "V-009" "新物冷链-09" "REFRIGERATED_VAN" "1600.00" "500.00" "3.00" "COLD_CHAIN" "IN_TRANSIT" "N11" (Some "D-008");
  Build_VehicleRow "V-010" "新物农运-10" "LIGHT_TRUCK" "4000.00" "1000.00" "6.50" "FARM_SUPPLY" "AVAILABLE" "N01" (Some "D-009");
  Build_VehicleRow "V-011" "新物冷链-11" "REFRIGERATED_VAN" "1800.00" "1300.00" "3.20" "COLD_CHAIN" "AVAILABLE" "N14" (Some "D-012");
  Build_VehicleRow "V-012" "新物电运-12" "ELECTRIC_VAN" "1000.00" "300.00" "2.00" "GENERAL" "AVAILABLE" "N06" (Some "D-010");
  Build_VehicleRow "V-013" "新物厢货-13" "VAN" "1200.00" "260.00" "2.20" "GENERAL" "AVAILABLE" "N07" None;
  Build_VehicleRow "V-014" "新物轻卡-14" "LIGHT_TRUCK" "2600.00" "980.00" "4.80" "FARM_SUPPLY" "IN_TRANSIT" "N08" None;
  Build_VehicleRow "V-015" "新物救援-15" "VAN" "1000.00" "120.00" "2.30" "GENERAL" "AVAILABLE" "N15" None;
  Build_VehicleRow "V-016" "新物电运-16" "ELECTRIC_VAN" "900.00" "0.00" "1.90" "GENERAL" "AVAILABLE" "N10" None;
  Build_VehicleRow "V-017" "新物乡配-17" "VAN" "1100.00" "430.00" "2.10" "GENERAL" "IN_TRANSIT" "N09" None;
  Build_VehicleRow "V-018" "新物检修-18" "LIGHT_TRUCK" "2200.00" "0.00" "4.20" "GENERAL" "MAINTENANCE" "N11" None;
  Build_VehicleRow "V-019" "新物冷链-19" "REFRIGERATED_VAN" "1500.00" "300.00" "2.90" "COLD_CHAIN" "AVAILABLE" "N08" None;
  Build_VehicleRow "V-020" "新物乡配-20" "VAN" "1200.00" "560.00" "2.30" "GENERAL" "IN_TRANSIT" "N08" None]%string.
Definition ORDERS : list OrderRow := [
  Build_OrderRow "DEMO-ORDER-001" "COLD_CHAIN" "700.00" "ST-001" "ST-002" "V-001" "IN_TRANSIT";
  Build_OrderRow "DEMO-ORDER-002" "FARM_SUPPLY" "1200.00" "ST-001" "ST-003" "V-010" "PENDING";
  Build_OrderRow "DEMO-ORDER-003" "COLD_CHAIN" "500.00" "ST-003" "ST-001" "V-009" "IN_TRANSIT";
  Build_OrderRow "DEMO-ORDER-004" "GENERAL" "300.00" "ST-001" "ST-008" "V-012" "PENDING";
  Build_OrderRow "DEMO-ORDER-005" "GENERAL" "850.00" "ST-001" "ST-002" "V-008" "IN_TRANSIT";
  Build_OrderRow "DEMO-ORDER-006" "COLD_CHAIN" "450.00" "ST-006" "ST-003" "V-011" "PENDING";
  Build_OrderRow "DEMO-ORDER-007" "FARM_SUPPLY" "1600.00" "ST-004" "ST-001" "V-010" "PENDING";
  Build_OrderRow "DEMO-ORDER-008" "GENERAL" "260.00" "ST-008" "ST-005" "V-012" "PENDING";
  Build_OrderRow "DEMO-ORDER-009" "GENERAL" "900.00" "ST-001" "ST-007" "V-004" "IN_TRANSIT";
  Build_OrderRow "DEMO-ORDER-010" "COLD_CHAIN" "600.00" "ST-003" "ST-002" "V-009" "PENDING";
  Build_OrderRow "DEMO-ORDER-011" "GENERAL" "400.00" "ST-001" "ST-004" "V-002" "PENDING";
  Build_OrderRow "DEMO-ORDER-012" "COLD_CHAIN" "300.00" "ST-006" "ST-002" "V-005" "PENDING"]%string.
Definition DEMO_BUSINESS_CASES : list LegacyCase := [
  Build_LegacyCase "LEGACY-DEMO-ORDER-001" "DEMO-ORDER-001" "IN_TRANSIT" "demo-driver-li" "demo-vehicle-001" "xinping-county-road" "新平县城关镇冷链配送中心" "大山镇卫生院" "DEMO-ANOM-001" "rain_slippery" "HIGH" "新平县强降雨后县道湿滑，冷链药品配送需评估绕行。";
  Build_LegacyCase "LEGACY-DEMO-ORDER-002" "DEMO-ORDER-002" "IN_TRANSIT" "demo-driver-zhang" "demo-vehicle-002" "yunling-mountain-pass" "云岭县白沙村农资转运点" "石门镇供销社" "DEMO-ANOM-002" "landslide_roadblock" "HIGH" "云岭县山口路段发生小型塌方，农资车辆暂时无法通行。";
  Build_LegacyCase "LEGACY-DEMO-ORDER-003" "DEMO-ORDER-003" "IN_TRANSIT" "demo-driver-chen" "demo-vehicle-003" "hegu-tea-route" "河谷县茶叶集散中心" "青塘乡合作社" "DEMO-ANOM-003" "fog_visibility" "MEDIUM" "河谷县清晨浓雾影响茶叶运输视距，建议降低山区道路车速。";
  Build_LegacyCase "LEGACY-DEMO-ORDER-004" "DEMO-ORDER-004" "IN_TRANSIT" "demo-driver-wang" "demo-vehicle-004" "dongchuan-rural-loop" "东川区快递分拨中心" "岚山村服务点" "DEMO-ANOM-004" "vehicle_breakdown" "HIGH" "东川区农村环线车辆发动机告警，包裹配送需等待救援车辆。";
  Build_LegacyCase "LEGACY-DEMO-ORDER-005" "DEMO-ORDER-005" "IN_TRANSIT" "demo-driver-lin" "demo-vehicle-005" "anping-market-road" "安平县粮油仓储中心" "青峰镇中学" "DEMO-ANOM-005" "traffic_congestion" "MEDIUM" "安平县集市日主干道拥堵，学校食材配送可能晚点。";
  Build_LegacyCase "LEGACY-DEMO-ORDER-006" "DEMO-ORDER-006" "IN_TRANSIT" "demo-driver-huang" "demo-vehicle-006" "liucheng-clinic-route" "柳城县药品配送站" "马家沟村卫生室" "DEMO-ANOM-006" "heatwave_cold_chain" "HIGH" "柳城县持续高温，药品冷链车制冷负荷偏高，需要优先送达。";
  Build_LegacyCase "LEGACY-DEMO-ORDER-007" "DEMO-ORDER-007" "IN_TRANSIT" "demo-driver-zhou" "demo-vehicle-007" "songxi-north-ridge" "松溪县生鲜仓" "北岭村驿站" "DEMO-ANOM-007" "cold_chain_temperature" "MEDIUM" "松溪县北岭村上坡路段较长，生鲜车厢温度接近预警阈值。";
  Build_LegacyCase "LEGACY-DEMO-ORDER-008" "DEMO-ORDER-008" "IN_TRANSIT" "demo-driver-xu" "demo-vehicle-008" "nanxi-red-rock-road" "南溪县电商仓" "红岩乡助农服务点" "DEMO-ANOM-008" "road_construction" "LOW" "南溪县红岩乡道路养护施工，预计单向交替放行十分钟。";
  Build_LegacyCase "LEGACY-DEMO-ORDER-009" "DEMO-ORDER-009" "IN_TRANSIT" "demo-driver-guo" "demo-vehicle-009" "quanyuan-double-river" "泉源县农机服务站" "双河镇维修点" "DEMO-ANOM-009" "bridge_inspection" "LOW" "泉源县双河桥开展例行检测，农机配件运输需按限速通行。";
  Build_LegacyCase "LEGACY-DEMO-ORDER-010" "DEMO-ORDER-010" "IN_TRANSIT" "demo-driver-yang" "demo-vehicle-010" "qingshan-bamboo-route" "青山县邮政分拨中心" "竹林村便民服务站" "DEMO-ANOM-010" "rainwater_detour" "LOW" "青山县竹林村支路积水已开始消退，邮政车辆可按临时绕行方案通行。"]%string.

Definition LIVE_MAP_EDGE_MINUTE_UPGRADES : list (string * (Z * Z)) := [("E27", (9, 15)); ("E32", (3, 7)); ("E33", (5, 9)); ("E34", (4, 7))]%string.
Definition STANDBY_DRIVER_ASSIGNMENTS : list (string * string) := [("V-003", "D-011"); ("V-011", "D-012")]%string.
Definition STANDBY_DRIVER_IDS : list string := map snd STANDBY_DRIVER_ASSIGNMENTS.

(** ** Tables *)
Record Station := { st_name : string; st_type : string; st_node : string; st_capacity_kg : Q; st_status : string }.
Record Driver := { driver_row : FleetDriverSnapshot; current_vehicle_id : option string }.
Record Order := {
  o_status : string; o_driver_id : option string; o_vehicle_id : option string; o_route_id : option string; o_origin : string; o_destination : string;
  o_cargo_weight_kg : option Q; o_cargo_type : option string; o_origin_station_id : option string; o_destination_station_id : option string;
}.
Record tables := {
  nodes_t : gmap string RoadNodeSnapshot;
  stations_t : gmap string Station;
  drivers_t : gmap string Driver;
  vehicles_t : gmap string FleetVehicle;
  orders_t : gmap string Order;
  edges_t : gmap string RoadEdgeSnapshot;
}.
Definition empty_tables : tables := {| nodes_t := ∅; stations_t := ∅; drivers_t := ∅; vehicles_t := ∅; orders_t := ∅; edges_t := ∅ |}.
Definition with_orders (m : gmap string Order) (t : tables) : tables :=
  {| nodes_t := nodes_t t; stations_t := stations_t t; drivers_t := drivers_t t; vehicles_t := vehicles_t t; orders_t := m; edges_t := edges_t t |}.

Definition IntegrityError : exn := Exn "IntegrityError" "".
Definition SandtableOrderConflictError (m : string) : exn := Exn "SandtableOrderConflictError" m.
Definition LegacyDemoOrderConflictError (m : string) : exn := Exn "LegacyDemoOrderConflictError" m.

(** ** [_add_if_missing] and the loops over the rows *)
Fixpoint each {A S} (f : A -> S -> result S) (l : list A) (s : S) : result S :=
  match l with [] => Ok s | a :: l' => s' ← f a s; each f l' s' end.

Section add.
Context {A R : Type} (key : A -> string) (convert : A -> result R) (clash : R -> gmap string R -> bool).

Definition add_if_missing (a : A) (m : gmap string R) : result (gmap string R) :=
  r ← convert a;
  match m !! key a with
  | Some _ => Ok m
  | None => if clash r m then Err IntegrityError else Ok (<[key a := r]> m)
  end.
Definition add_all (l : list A) (m : gmap string R) : result (gmap string R) := each add_if_missing l m.
End add.
Definition no_clash {R} (r : R) (m : gmap string R) : bool := false.

Definition node_of (a : NodeRow) : result RoadNodeSnapshot :=
  x ← finite_decimal (n_x_km a); y ← finite_decimal (n_y_km a);
  Ok {| node_id := n_node_id a; node_name := n_name a; x_km := x; y_km := y; node_type := n_type a |}.
Definition station_of (a : StationRow) : result Station :=
  q ← finite_decimal (s_handling_capacity_kg a);
  Ok {| st_name := s_name a; st_type := s_type a; st_node := s_road_node_id a; st_capacity_kg := q; st_status := s_status a |}.
Definition driver_of (a : DriverRow) : result Driver :=
  Ok {| driver_row := {| driver_id := d_driver_id a; driver_name := d_name a; license_class := d_license_class a; driver_status := d_status a;
                         driver_node_id := d_current_node_id a |};
        current_vehicle_id := None |}.
Definition vehicle_of (a : VehicleRow) : result FleetVehicle :=
  m ← finite_decimal (v_max_load_kg a); c ← finite_decimal (v_current_load_kg a); g ← finite_decimal (v_gross_weight_tons a);
  Ok {| row_vehicle := {| vehicle_id := v_vehicle_id a; plate_no := v_plate_no a; vehicle_type := v_type a; max_load_kg := m; current_load_kg := c;
                          cargo_capability := v_cargo_capability a; gross_weight_tons := g; vehicle_status := v_status a;
                          current_node_id := v_current_node_id a; driver := None |};
        assigned_driver_id := if one_of (v_vehicle_id a) (map fst STANDBY_DRIVER_ASSIGNMENTS) then None else v_assigned_driver_id a |}.
(** The plate of a vehicle is unique too. *)
Definition plate_taken (r : FleetVehicle) (m : gmap string FleetVehicle) : bool :=
  existsb (fun x => String.eqb (plate_no (row_vehicle x.2)) (plate_no (row_vehicle r))) (map_to_list m).

Definition station_name (i : string) : result string :=
  of_option (Exn "KeyError" i) (s_name <$> List.find (fun x => String.eqb (s_station_id x) i) STATIONS).
Definition order_of (a : OrderRow) : result Order :=
  q ← finite_decimal (r_cargo_weight_kg a); from ← station_name (r_origin_station_id a); to ← station_name (r_destination_station_id a);
  Ok {| o_status := r_status a; o_driver_id := None; o_vehicle_id := Some (r_vehicle_id a); o_route_id := None; o_origin := from; o_destination := to;
        o_cargo_weight_kg := Some q; o_cargo_type := Some (r_cargo_type a); o_origin_station_id := Some (r_origin_station_id a);
        o_destination_station_id := Some (r_destination_station_id a) |}.
Definition edge_of (a : EdgeRow) : result RoadEdgeSnapshot :=
  d ← finite_decimal (e_distance_km a); w ← finite_decimal (e_weight_limit_tons a);
  Ok {| edge_id := e_edge_id a; edge_name := e_name a; from_node_id := e_from_node_id a; to_node_id := e_to_node_id a; distance_km := d;
        base_minutes := e_base_minutes a; road_level := e_road_level a; risk_level := e_risk_level a; edge_status := "OPEN"; congestion_factor := 1;
        weight_limit_tons := w; bidirectional := true; edge_version := 1 |}.

(** ** Drivers on standby, and the drivers that were added *)
Definition with_driver (d : option string) (v : FleetVehicle) : FleetVehicle := {| row_vehicle := row_vehicle v; assigned_driver_id := d |}.
Definition with_vehicle (v : option string) (d : Driver) : Driver := {| driver_row := driver_row d; current_vehicle_id := v |}.
Definition free_or (x : option string) (y : string) : bool := match x with None => true | Some z => String.eqb z y end.
Definition may_pair (v d : string) (vehicle : FleetVehicle) (driver : Driver) : bool :=
  String.eqb (vehicle_status (row_vehicle vehicle)) "AVAILABLE" && String.eqb (driver_status (driver_row driver)) "ON_DUTY" &&
  free_or (assigned_driver_id vehicle) d && free_or (current_vehicle_id driver) v.
Definition pair_standby (p : string * string) (x : gmap string FleetVehicle * gmap string Driver) : gmap string FleetVehicle * gmap string Driver :=
  match x.1 !! p.1, x.2 !! p.2 with
  | Some vehicle, Some driver =>
      if may_pair p.1 p.2 vehicle driver then (<[p.1 := with_driver (Some p.2) vehicle]> x.1, <[p.2 := with_vehicle (Some p.1) driver]> x.2) else x
  | _, _ => x
  end.
Definition pair_standbys (x : gmap string FleetVehicle * gmap string Driver) := fold_left (fun x p => pair_standby p x) STANDBY_DRIVER_ASSIGNMENTS x.

Definition seat_driver (new : list string) (m : gmap string Driver) (a : DriverRow) : gmap string Driver :=
  if one_of (d_driver_id a) new && negb (one_of (d_driver_id a) STANDBY_DRIVER_IDS) then alter (with_vehicle (Some (d_current_vehicle_id a))) (d_driver_id a) m else m.
(** [new_driver_ids]: the rows whose driver was not there. *)
Definition new_driver_ids (m : gmap string Driver) : list string :=
  List.filter (fun i => match m !! i with Some _ => false | None => true end) (map d_driver_id DRIVERS).

(** ** Roads *)
Definition with_minutes (n : Z) (e : RoadEdgeSnapshot) : RoadEdgeSnapshot :=
  {| edge_id := edge_id e; edge_name := edge_name e; from_node_id := from_node_id e; to_node_id := to_node_id e; distance_km := distance_km e; base_minutes := n;
     road_level := road_level e; risk_level := risk_level e; edge_status := edge_status e; congestion_factor := congestion_factor e;
     weight_limit_tons := weight_limit_tons e; bidirectional := bidirectional e; edge_version := edge_version e + 1 |}.
Definition upgrade_of (i : string) : option (Z * Z) := snd <$> List.find (fun x => String.eqb x.1 i) LIVE_MAP_EDGE_MINUTE_UPGRADES.
Definition still_old (row : EdgeRow) (old : Z) (e : RoadEdgeSnapshot) : bool :=
  String.eqb (from_node_id e) (e_from_node_id row) && String.eqb (to_node_id e) (e_to_node_id row) && (base_minutes e =? old).
Definition upgraded (row : EdgeRow) (e : RoadEdgeSnapshot) : RoadEdgeSnapshot :=
  match upgrade_of (e_edge_id row) with
  | Some (old, new) => if still_old row old e then with_minutes new e else e
  | None => e
  end.
Definition seed_edge (row : EdgeRow) (m : gmap string RoadEdgeSnapshot) : result (gmap string RoadEdgeSnapshot) :=
  new ← edge_of row;
  Ok (match m !! e_edge_id row with None => <[e_edge_id row := new]> m | Some e => <[e_edge_id row := upgraded row e]> m end).

(** ** Orders that stand in the way *)
Definition weight_text (q : option Q) : string := match q with Some x => format_f x | None => "None" end.
Definition matches_sandtable_order (o : Order) (row : OrderRow) : result bool :=
  from ← station_name (r_origin_station_id row); to ← station_name (r_destination_station_id row);
  Ok (String.eqb (o_status o) (r_status row) && bool_decide (o_driver_id o = None) && bool_decide (o_vehicle_id o = Some (r_vehicle_id row)) &&
      bool_decide (o_route_id o = None) && String.eqb (o_origin o) from && String.eqb (o_destination o) to &&
      String.eqb (weight_text (o_cargo_weight_kg o)) (r_cargo_weight_kg row) && bool_decide (o_cargo_type o = Some (r_cargo_type row)) &&
      bool_decide (o_origin_station_id o = Some (r_origin_station_id row)) && bool_decide (o_destination_station_id o = Some (r_destination_station_id row))).
Definition check_order (row : OrderRow) (m : gmap string Order) : result (gmap string Order) :=
  match m !! r_order_no row with
  | None => Ok m
  | Some o => b ← matches_sandtable_order o row;
              if (b : bool) then Ok m else Err (SandtableOrderConflictError ("沙盘订单键冲突且指纹不匹配: " +:+ r_order_no row))
  end.

Definition seed_new_county_sandtable (t : tables) : result tables :=
  _ ← each check_order ORDERS (orders_t t);
  ns ← add_all n_node_id node_of no_clash ROAD_NODES (nodes_t t);
  ss ← add_all s_station_id station_of no_clash STATIONS (stations_t t);
  ds ← add_all d_driver_id driver_of no_clash DRIVERS (drivers_t t);
  vs ← add_all v_vehicle_id vehicle_of plate_taken VEHICLES (vehicles_t t);
  let paired := pair_standbys (vs, ds) in
  let seated := fold_left (seat_driver (new_driver_ids (drivers_t t))) DRIVERS paired.2 in
  os ← add_all r_order_no order_of no_clash ORDERS (orders_t t);
  es ← each seed_edge ROAD_EDGES (edges_t t);
  Ok {| nodes_t := ns; stations_t := ss; drivers_t := seated; vehicles_t := paired.1; orders_t := os; edges_t := es |}.

(** ** [migrate_legacy_demo_business_case_orders] *)
Definition legacy_order_matches (o : Order) (c : LegacyCase) : bool :=
  String.eqb (o_status o) (c_status c) && bool_decide (o_driver_id o = Some (c_driver_id c)) && bool_decide (o_vehicle_id o = Some (c_vehicle_id c)) &&
  bool_decide (o_route_id o = Some (c_route_id c)) && String.eqb (o_origin o) (c_origin c) && String.eqb (o_destination o) (c_destination c) &&
  match o_cargo_weight_kg o with None => true | Some _ => false end && bool_decide (o_cargo_type o = None) &&
  bool_decide (o_origin_station_id o = None) && bool_decide (o_destination_station_id o = None).
Definition sandtable_order_matches (o : Order) (no : string) : result bool :=
  match List.find (fun r => String.eqb (r_order_no r) no) ORDERS with None => Ok false | Some row => matches_sandtable_order o row end.
(** The orders to rename, in the order of the cases. *)
Definition pending_case (m : gmap string Order) (c : LegacyCase) : result (option LegacyCase) :=
  match m !! c_order_no c with
  | Some _ => Ok None
  | None =>
      match m !! c_legacy_order_no c with
      | None => Ok None
      | Some o => b ← sandtable_order_matches o (c_legacy_order_no c);
                  if (b : bool) then Ok None
                  else if legacy_order_matches o c then Ok (Some c)
                  else Err (LegacyDemoOrderConflictError ("旧演示订单键冲突且指纹不匹配: " +:+ c_legacy_order_no c))
      end
  end.
Definition rename_order (m : gmap string Order) (c : LegacyCase) : gmap string Order :=
  match m !! c_legacy_order_no c with Some o => <[c_order_no c := o]> (delete (c_legacy_order_no c) m) | None => m end.
Definition migrate_legacy_demo_business_case_orders (t : tables) : result tables :=
  pending ← map_result (pending_case (orders_t t)) DEMO_BUSINESS_CASES;
  Ok (with_orders (fold_left rename_order (omap (@id (option LegacyCase)) pending) (orders_t t)) t).


(** ** The seeded county as the tables of Sandtable

    A fresh database numbers the orders in the order of [ORDERS]. *)
Definition numbered_order (t : tables) (n : Z) (no : string) : option Sandtable.Order :=
  o ← orders_t t !! no;
  Some {| Sandtable.o_id := n; Sandtable.o_order_no := no; Sandtable.o_vehicle_id := o_vehicle_id o; Sandtable.o_origin := o_origin o;
          Sandtable.o_destination := o_destination o; Sandtable.o_cargo_weight_kg := o_cargo_weight_kg o; Sandtable.o_cargo_type := o_cargo_type o;
          Sandtable.o_origin_station_id := o_origin_station_id o; Sandtable.o_destination_station_id := o_destination_station_id o |}.
Fixpoint numbered (t : tables) (n : Z) (rows : list OrderRow) : list Sandtable.Order :=
  match rows with
  | [] => []
  | row :: rows' => match numbered_order t n (r_order_no row) with Some o => o :: numbered t (n + 1) rows' | None => numbered t n rows' end
  end.
Definition sandtable_of (t : tables) : Sandtable.tables :=
  {| Sandtable.orders := numbered t 1 ORDERS;
     Sandtable.stations := map (fun x => {| Sandtable.station_id := x.1; Sandtable.road_node_id := st_node x.2 |}) (map_to_list (stations_t t));
     Sandtable.node_rows := map snd (map_to_list (nodes_t t)); Sandtable.edge_rows := map snd (map_to_list (edges_t t));
     Sandtable.vehicle_rows := map snd (map_to_list (vehicles_t t)) |}.

(** ** Loops over rows *)
Definition is_ok {A} (r : result A) : bool := match r with Ok _ => true | Err _ => false end.

Lemma each_app {A S} (f : A -> S -> result S) l l' s : each f (l ++ l') s = (s' ← each f l s; each f l' s').
Proof. revert s. induction l as [|a l IH]; intros s; cbn; [done|]. destruct (f a s); cbn; [apply IH|done]. Qed.
Lemma each_still {A S} (f : A -> S -> result S) l s : (forall a, a ∈ l -> f a s = Ok s) -> each f l s = Ok s.
Proof. induction l as [|a l IH]; intros H; cbn; [done|]. rewrite (H a) by constructor. cbn. apply IH. intros b B. apply H. by constructor. Qed.

Section added.
Context {A R : Type} (key : A -> string) (convert : A -> result R) (clash : R -> gmap string R -> bool).

Lemma add_inv a m m' : add_if_missing key convert clash a m = Ok m' -> exists r, convert a = Ok r /\ ((is_Some (m !! key a) /\ m' = m) \/ (m !! key a = None /\ m' = <[key a := r]> m)).
Proof.
  unfold add_if_missing. intros (r & C & H)%result_bind_ok. exists r. split; [done|].
  destruct (m !! key a) as [x|] eqn:E; [injection H as <-; left; eauto|]. destruct (clash r m); [done|]. injection H as <-. by right.
Qed.
Lemma add_all_spec l m m' : add_all key convert clash l m = Ok m' ->
  m ⊆ m' /\ (forall a, a ∈ l -> is_Some (m' !! key a) /\ exists r, convert a = Ok r) /\
  (forall k x, m' !! k = Some x -> m !! k = Some x \/ exists a, a ∈ l /\ key a = k /\ convert a = Ok x).
Proof.
  unfold add_all. revert m. induction l as [|a l IH]; intros m; cbn [each].
  - intros [= <-]. split_and!; [done|intros a H; by apply elem_of_nil in H|intros k x H; by left].
  - intros (m1 & H1 & H2)%result_bind_ok. apply add_inv in H1 as (r & C & H1). apply IH in H2 as (I1 & I2 & I3).
    assert (S : m ⊆ m1 /\ is_Some (m1 !! key a)).
    { destruct H1 as [[P ->]|[N ->]]; [done|]. split; [by apply insert_subseteq|rewrite lookup_insert_eq; eauto]. }
    destruct S as [S [y Y]]. split_and!.
    + by transitivity m1.
    + intros b [->|B]%elem_of_cons; [|by apply I2]. split; [|eauto]. exists y. by eapply lookup_weaken.
    + intros k x X. destruct (I3 k x X) as [X1|(b & B & K & D)]; [|right; exists b; split_and!; [by constructor|done..]].
      destruct H1 as [[_ ->]|[N ->]]; [by left|]. apply lookup_insert_Some in X1 as [[<- <-]|[_ X1]]; [|by left].
      right. exists a. split_and!; [constructor|done..].
Qed.
Lemma add_all_present l m : (forall a, a ∈ l -> is_Some (m !! key a) /\ exists r, convert a = Ok r) -> add_all key convert clash l m = Ok m.
Proof.
  intros H. apply each_still. intros a E. destruct (H a E) as [[x X] [r C]]. unfold add_if_missing. rewrite C. cbn. by rewrite X.
Qed.
(** Adding the rows again changes nothing, also after the rows were updated. *)
Lemma add_all_again l m m' m'' : add_all key convert clash l m = Ok m' -> (forall k, is_Some (m' !! k) -> is_Some (m'' !! k)) -> add_all key convert clash l m'' = Ok m''.
Proof. intros (_ & H & _)%add_all_spec D. apply add_all_present. intros a E. destruct (H a E) as [K C]. eauto. Qed.
Lemma add_err a m e : is_ok (convert a) = true -> add_if_missing key convert clash a m = Err e -> e = IntegrityError /\ exists r, clash r m = true.
Proof. unfold add_if_missing. destruct (convert a) as [r|]; [|done]. cbn. destruct (m !! key a); [done|]. destruct (clash r m) eqn:K; [|done]. intros _ [= <-]. eauto. Qed.
Lemma add_all_err l m e : forallb (fun a => is_ok (convert a)) l = true -> add_all key convert clash l m = Err e -> e = IntegrityError /\ exists r m1, clash r m1 = true.
Proof.
  unfold add_all. revert m. induction l as [|a l IH]; intros m; cbn [each forallb]; [done|]. intros [C1 C2]%andb_true_iff.
  destruct (add_if_missing key convert clash a m) as [m1|x] eqn:E; cbn; [by apply IH|]. intros [= ->]. apply add_err in E as [-> [r K]]; eauto.
Qed.
End added.

(** ** Standby drivers stay paired *)
Lemma free_or_self d : free_or (Some d) d = true.
Proof. apply String.eqb_refl. Qed.
Lemma pair_standby_other p x k : k <> p.1 -> (pair_standby p x).1 !! k = x.1 !! k.
Proof. intros N. unfold pair_standby. repeat case_match; cbn; try done. by rewrite lookup_insert_ne. Qed.
Lemma pair_standby_other_driver p x k : k <> p.2 -> (pair_standby p x).2 !! k = x.2 !! k.
Proof. intros N. unfold pair_standby. repeat case_match; cbn; try done. by rewrite lookup_insert_ne. Qed.
Lemma pair_standby_again p x : pair_standby p (pair_standby p x) = pair_standby p x.
Proof.
  destruct p as [v d], x as [vs ds]. unfold pair_standby; cbn. destruct (vs !! v) as [w|] eqn:V, (ds !! d) as [r|] eqn:D; cbn; rewrite ?V, ?D; try done.
  destruct (may_pair v d w r) eqn:M; cbn; [|by rewrite V, D, M]. rewrite !lookup_insert_eq. unfold may_pair in *. cbn.
  apply andb_true_iff in M as [[[-> ->]%andb_true_iff _]%andb_true_iff _]. rewrite !String.eqb_refl. cbn. by rewrite !insert_insert_eq.
Qed.
Lemma pair_standby_local p x y : x.1 !! p.1 = y.1 !! p.1 -> x.2 !! p.2 = y.2 !! p.2 -> pair_standby p x = x -> pair_standby p y = y.
Proof.
  destruct p as [v d], x as [vs ds], y as [vs' ds']. unfold pair_standby; cbn. intros H1 H2. rewrite <- H1, <- H2.
  destruct (vs !! v) as [w|] eqn:V, (ds !! d) as [r|] eqn:D; try done. destruct (may_pair v d w r); [|done]. intros [= E1 E2].
  apply (f_equal (.!! v)) in E1 as W. apply (f_equal (.!! d)) in E2 as X. rewrite lookup_insert_eq, V in W. rewrite lookup_insert_eq, D in X.
  injection W as W. injection X as X. rewrite W, X. by rewrite !insert_id by congruence.
Qed.

Lemma pair_standbys_again x (g : gmap string Driver) : (forall d, d ∈ STANDBY_DRIVER_IDS -> g !! d = (pair_standbys x).2 !! d) ->
  pair_standbys ((pair_standbys x).1, g) = ((pair_standbys x).1, g).
Proof.
  unfold pair_standbys, STANDBY_DRIVER_ASSIGNMENTS. cbn [fold_left]. set (p1 := ("V-003", "D-011")%string). set (p2 := ("V-011", "D-012")%string).
  intros G. set (y := pair_standby p2 (pair_standby p1 x)) in *.
  assert (L : forall d, d ∈ ["D-011"; "D-012"]%string -> y.2 !! d = g !! d) by (intros d D; symmetry; by apply G).
  assert (E1 : pair_standby p1 (y.1, g) = (y.1, g)).
  { apply (pair_standby_local p1 (pair_standby p1 x)); [|cbn; rewrite <- L by (cbn; set_solver)|apply pair_standby_again].
    - cbn [fst]. symmetry. by apply pair_standby_other.
    - symmetry. by apply pair_standby_other_driver. }
  rewrite E1. apply (pair_standby_local p2 y); [done|cbn; apply L; set_solver|apply pair_standby_again].
Qed.
Lemma pair_standby_vehicle p x k w : x.1 !! k = Some w -> (pair_standby p x).1 !! k = Some w \/
  (k = p.1 /\ vehicle_status (row_vehicle w) = "AVAILABLE"%string /\ free_or (assigned_driver_id w) p.2 = true /\ (pair_standby p x).1 !! k = Some (with_driver (Some p.2) w)).
Proof.
  intros W. destruct (decide (k = p.1)) as [->|N]; [|left; by rewrite pair_standby_other]. unfold pair_standby. rewrite W.
  destruct (x.2 !! p.2) as [r|]; [|by left]. destruct (may_pair p.1 p.2 w r) eqn:M; [|by left]. right. cbn. rewrite lookup_insert_eq. split_and!; try done; unfold may_pair in M;
    apply andb_true_iff in M as [[[S _]%andb_true_iff F]%andb_true_iff _]; [by apply String.eqb_eq|done].
Qed.
Lemma pair_standby_driver p x k r : x.2 !! k = Some r -> (pair_standby p x).2 !! k = Some r \/
  (k = p.2 /\ driver_status (driver_row r) = "ON_DUTY"%string /\ free_or (current_vehicle_id r) p.1 = true /\ (pair_standby p x).2 !! k = Some (with_vehicle (Some p.1) r)).
Proof.
  intros W. destruct (decide (k = p.2)) as [->|N]; [|left; by rewrite pair_standby_other_driver]. unfold pair_standby. rewrite W.
  destruct (x.1 !! p.1) as [w|]; [|by left]. destruct (may_pair p.1 p.2 w r) eqn:M; [|by left]. right. cbn. rewrite lookup_insert_eq. split_and!; try done; unfold may_pair in M;
    apply andb_true_iff in M as [[[_ S]%andb_true_iff _]%andb_true_iff F]; [by apply String.eqb_eq|done].
Qed.
Definition paired_vehicle (k : string) (w w' : FleetVehicle) : Prop := w' = w \/
  exists d, (k, d) ∈ STANDBY_DRIVER_ASSIGNMENTS /\ vehicle_status (row_vehicle w) = "AVAILABLE"%string /\ free_or (assigned_driver_id w) d = true /\ w' = with_driver (Some d) w.
Definition paired_driver (k : string) (r r' : Driver) : Prop := r' = r \/
  exists v, (v, k) ∈ STANDBY_DRIVER_ASSIGNMENTS /\ driver_status (driver_row r) = "ON_DUTY"%string /\ free_or (current_vehicle_id r) v = true /\ r' = with_vehicle (Some v) r.
Lemma pair_standbys_vehicle x k w : x.1 !! k = Some w -> exists w', (pair_standbys x).1 !! k = Some w' /\ paired_vehicle k w w'.
Proof.
  intros W. unfold pair_standbys, STANDBY_DRIVER_ASSIGNMENTS. cbn [fold_left]. destruct (decide (k = "V-003"%string)) as [->|N].
  - rewrite pair_standby_other by done. destruct (pair_standby_vehicle ("V-003", "D-011")%string x _ w W) as [->|(_ & S & F & ->)]; eexists; (split; [done|]); [by left|].
    right. exists "D-011"%string. split_and!; try done. constructor.
  - destruct (pair_standby_vehicle ("V-011", "D-012")%string (pair_standby ("V-003", "D-011")%string x) k w) as [->|(-> & S & F & ->)]; [by rewrite pair_standby_other| |];
      eexists; (split; [done|]); [by left|]. right. exists "D-012"%string. split_and!; try done. constructor. constructor.
Qed.
Lemma pair_standbys_driver x k r : x.2 !! k = Some r -> exists r', (pair_standbys x).2 !! k = Some r' /\ paired_driver k r r'.
Proof.
  intros W. unfold pair_standbys, STANDBY_DRIVER_ASSIGNMENTS. cbn [fold_left]. destruct (decide (k = "D-011"%string)) as [->|N].
  - rewrite pair_standby_other_driver by done. destruct (pair_standby_driver ("V-003", "D-011")%string x _ r W) as [->|(_ & S & F & ->)]; eexists; (split; [done|]); [by left|].
    right. exists "V-003"%string. split_and!; try done. constructor.
  - destruct (pair_standby_driver ("V-011", "D-012")%string (pair_standby ("V-003", "D-011")%string x) k r) as [->|(-> & S & F & ->)]; [by rewrite pair_standby_other_driver| |];
      eexists; (split; [done|]); [by left|]. right. exists "V-011"%string. split_and!; try done. constructor. constructor.
Qed.

(** ** Seated drivers *)
Lemma seat_driver_other new m a k : k ∉ new \/ k ∈ STANDBY_DRIVER_IDS -> seat_driver new m a !! k = m !! k.
Proof.
  intros H. unfold seat_driver. destruct (one_of (d_driver_id a) new) eqn:N; cbn [andb]; [|done]. destruct (one_of (d_driver_id a) STANDBY_DRIVER_IDS) eqn:S; cbn [negb]; [done|].
  apply one_of_true in N. apply one_of_false in S. apply lookup_alter_ne. intros <-. by destruct H.
Qed.
Lemma seated_other new rows m k : k ∉ new \/ k ∈ STANDBY_DRIVER_IDS -> fold_left (seat_driver new) rows m !! k = m !! k.
Proof. intros H. revert m. induction rows as [|a rows IH]; intros m; cbn; [done|]. rewrite IH. by apply seat_driver_other. Qed.
Lemma seated_some new rows m k : is_Some (m !! k) -> is_Some (fold_left (seat_driver new) rows m !! k).
Proof.
  revert m. induction rows as [|a rows IH]; intros m H; cbn; [done|]. apply IH. unfold seat_driver. destruct (_ && _); [|done].
  destruct (decide (d_driver_id a = k)) as [<-|N]; [|by rewrite lookup_alter_ne]. destruct H as [r H]. rewrite lookup_alter_eq, H. eauto.
Qed.
Lemma seated_none rows m : fold_left (seat_driver []) rows m = m.
Proof. induction rows as [|a rows IH]; [done|exact IH]. Qed.
Lemma new_driver_ids_spec m k : k ∈ new_driver_ids m <-> k ∈ map d_driver_id DRIVERS /\ m !! k = None.
Proof. unfold new_driver_ids. rewrite list_elem_of_In, filter_In, <- list_elem_of_In. destruct (m !! k); naive_solver. Qed.

(** ** Roads *)
Lemma upgrade_differs i old new : upgrade_of i = Some (old, new) -> new <> old.
Proof.
  unfold upgrade_of. intros H. destruct (List.find _ LIVE_MAP_EDGE_MINUTE_UPGRADES) as [x|] eqn:F; [|done]. apply find_some in F as [F _].
  cbn in H, F. injection H as H. intros ->. destruct F as [<-|[<-|[<-|[<-|[]]]]]; by injection H as <-.
Qed.
Lemma upgraded_again row e : upgraded row (upgraded row e) = upgraded row e.
Proof.
  unfold upgraded. destruct (upgrade_of (e_edge_id row)) as [[old new]|] eqn:U; [|done]. destruct (still_old row old e) eqn:C; [|by rewrite C].
  unfold still_old. cbn. apply upgrade_differs in U. apply Z.eqb_neq in U as ->. by rewrite !andb_false_r.
Qed.
Definition row_settled (row : EdgeRow) : bool :=
  match upgrade_of (e_edge_id row) with Some (old, _) => negb (e_base_minutes row =? old) | None => true end.
Lemma new_edge_settled row e : row_settled row = true -> edge_of row = Ok e -> upgraded row e = e.
Proof.
  unfold row_settled, edge_of, upgraded, still_old. intros S (d & _ & H)%result_bind_ok. apply result_bind_ok in H as (w & _ & [= <-]).
  destruct (upgrade_of (e_edge_id row)) as [[old new]|]; [|done]. cbn. apply negb_true_iff in S as ->. by rewrite andb_false_r.
Qed.
Lemma upgraded_inv row e : upgraded row e = e \/ exists old new, upgrade_of (e_edge_id row) = Some (old, new) /\ base_minutes e = old /\ upgraded row e = with_minutes new e.
Proof.
  unfold upgraded. destruct (upgrade_of (e_edge_id row)) as [[old new]|]; [|by left]. destruct (still_old row old e) eqn:C; [|by left]. right.
  apply andb_true_iff in C as [_ C]. apply Z.eqb_eq in C. eauto.
Qed.

Lemma seed_edges_spec l m m' : NoDup (map e_edge_id l) -> forallb row_settled l = true -> each seed_edge l m = Ok m' ->
  (forall k e, m !! k = Some e -> exists e', m' !! k = Some e' /\ (e' = e \/ exists old new, upgrade_of k = Some (old, new) /\ base_minutes e = old /\ e' = with_minutes new e)) /\
  (forall k, k ∉ map e_edge_id l -> m' !! k = m !! k) /\
  (forall row, row ∈ l -> is_ok (edge_of row) = true /\ exists e, m' !! e_edge_id row = Some e /\ upgraded row e = e).
Proof.
  revert m. induction l as [|a l IH]; intros m; cbn [map forallb each].
  - intros _ _ [= <-]. split_and!; [eauto|done|intros row H; by apply elem_of_nil in H].
  - intros [N1 N2]%NoDup_cons [S1 S2]%andb_true_iff (m1 & (new & C & [= H1])%result_bind_ok & H2)%result_bind_ok.
    destruct (IH m1 N2 S2 H2) as (I1 & I2 & I3).
    assert (A : exists e, m1 !! e_edge_id a = Some e /\ upgraded a e = e /\ forall k, k <> e_edge_id a -> m1 !! k = m !! k).
    { subst m1. destruct (m !! e_edge_id a) as [e|]; eexists; rewrite lookup_insert_eq; (split_and!; [done|..|intros k K; by rewrite lookup_insert_ne]);
        [apply upgraded_again|by eapply new_edge_settled]. }
    destruct A as (e1 & A1 & A2 & A3). split_and!.
    + intros k e E. destruct (decide (k = e_edge_id a)) as [->|K]; [|apply I1; by rewrite A3].
      exists (upgraded a e). subst m1. rewrite E in *. rewrite I2 by done. rewrite lookup_insert_eq. split; [done|].
      destruct (upgraded_inv a e) as [->|(o & n & U & B & ->)]; [by left|right; eauto].
    + intros k [K1 K2]%not_elem_of_cons. rewrite I2 by done. by apply A3.
    + intros row [->|R]%elem_of_cons; [|by apply I3]. rewrite C. split; [done|]. exists e1. by rewrite I2.
Qed.
Lemma seed_edges_still l m : (forall row, row ∈ l -> is_ok (edge_of row) = true /\ exists e, m !! e_edge_id row = Some e /\ upgraded row e = e) -> each seed_edge l m = Ok m.
Proof.
  intros H. apply each_still. intros row R. destruct (H row R) as (C & e & E & U). unfold seed_edge. destruct (edge_of row); [|done]. cbn. rewrite E, U. by rewrite insert_id.
Qed.

(** ** Orders *)
Definition order_fits (m : gmap string Order) (row : OrderRow) : Prop := forall o, m !! r_order_no row = Some o -> matches_sandtable_order o row = Ok true.
Lemma check_order_inv row m m' : check_order row m = Ok m' -> m' = m /\ order_fits m row.
Proof.
  unfold check_order, order_fits. destruct (m !! r_order_no row) as [o|]; [|by intros [= <-]]. intros (b & B & H)%result_bind_ok. destruct b; [|done].
  injection H as <-. split; [done|]. by intros o' [= <-].
Qed.
Lemma check_orders_inv rows m m' : each check_order rows m = Ok m' -> m' = m /\ forall row, row ∈ rows -> order_fits m row.
Proof.
  revert m. induction rows as [|a rows IH]; intros m; cbn; [intros [= <-]; split; [done|]; intros row H; by apply elem_of_nil in H|].
  intros (m1 & [-> F]%check_order_inv & [-> G]%IH)%result_bind_ok. split; [done|]. intros row [->|R]%elem_of_cons; [done|by apply G].
Qed.
Lemma check_orders_still rows m : (forall row, row ∈ rows -> order_fits m row) -> each check_order rows m = Ok m.
Proof.
  intros H. apply each_still. intros row R. specialize (H row R). unfold check_order, order_fits in *. destruct (m !! r_order_no row) as [o|]; [|done].
  by rewrite (H o).
Qed.
(** A row of the data that was just added fits itself; no two rows share a number. *)
Definition rows_fit (a b : OrderRow) : bool :=
  if String.eqb (r_order_no a) (r_order_no b)
  then match order_of a with Ok o => match matches_sandtable_order o b with Ok x => x | Err _ => false end | Err _ => true end
  else true.
Lemma all_rows_fit : forallb (fun a => forallb (rows_fit a) ORDERS) ORDERS = true.
Proof. vm_compute. reflexivity. Qed.
Lemma seeded_order_fits a b o : a ∈ ORDERS -> b ∈ ORDERS -> r_order_no a = r_order_no b -> order_of a = Ok o -> matches_sandtable_order o b = Ok true.
Proof.
  intros A B E C. pose proof all_rows_fit as H. rewrite forallb_forall in H. apply list_elem_of_In in A, B. specialize (H a A). rewrite forallb_forall in H.
  specialize (H b B). unfold rows_fit in H. apply String.eqb_eq in E. rewrite E, C in H. destruct (matches_sandtable_order o b) as [[]|]; done.
Qed.

(** ** The data *)
Lemma rows_convert :
  forallb (fun a => is_ok (node_of a)) ROAD_NODES && forallb (fun a => is_ok (station_of a)) STATIONS && forallb (fun a => is_ok (driver_of a)) DRIVERS &&
  forallb (fun a => is_ok (vehicle_of a)) VEHICLES && forallb (fun a => is_ok (order_of a)) ORDERS && forallb (fun a => is_ok (edge_of a)) ROAD_EDGES = true.
Proof. vm_compute. reflexivity. Qed.
Lemma edge_rows_settled : forallb row_settled ROAD_EDGES = true.
Proof. vm_compute. reflexivity. Qed.
Lemma edge_rows_unique : NoDup (map e_edge_id ROAD_EDGES).
Proof. apply (bool_decide_unpack _). vm_compute. reflexivity. Qed.
(** What a row refers to is seeded too, so the foreign keys hold. *)
Definition refers (nodes stations drivers vehicles : list string) : bool :=
  forallb (fun a => one_of (s_road_node_id a) nodes) STATIONS && forallb (fun a => one_of (d_current_node_id a) nodes && one_of (d_current_vehicle_id a) vehicles) DRIVERS &&
  forallb (fun a => one_of (v_current_node_id a) nodes && match v_assigned_driver_id a with Some d => one_of d drivers | None => true end) VEHICLES &&
  forallb (fun a => one_of (e_from_node_id a) nodes && one_of (e_to_node_id a) nodes) ROAD_EDGES &&
  forallb (fun a => one_of (r_origin_station_id a) stations && one_of (r_destination_station_id a) stations) ORDERS.
Lemma references_hold : refers (map n_node_id ROAD_NODES) (map s_station_id STATIONS) (map d_driver_id DRIVERS) (map v_vehicle_id VEHICLES) = true.
Proof. vm_compute. reflexivity. Qed.

(** ** Seeding *)
#[local] Opaque ORDERS ROAD_EDGES ROAD_NODES STATIONS DRIVERS VEHICLES STANDBY_DRIVER_ASSIGNMENTS.

Record kept (t t' : tables) : Prop := {
  kept_nodes : nodes_t t ⊆ nodes_t t';
  kept_stations : stations_t t ⊆ stations_t t';
  kept_orders : orders_t t ⊆ orders_t t';
  kept_vehicles k w : vehicles_t t !! k = Some w -> exists w', vehicles_t t' !! k = Some w' /\ paired_vehicle k w w';
  kept_drivers k r : drivers_t t !! k = Some r -> exists r', drivers_t t' !! k = Some r' /\ paired_driver k r r';
  kept_edges k e : edges_t t !! k = Some e -> exists e', edges_t t' !! k = Some e' /\
    (e' = e \/ exists old new, upgrade_of k = Some (old, new) /\ base_minutes e = old /\ e' = with_minutes new e);
}.

Record seeded (t t' : tables) (vs : gmap string FleetVehicle) (ds : gmap string Driver) : Prop := {
  sd_fit : forall row, row ∈ ORDERS -> order_fits (orders_t t) row;
  sd_nodes : add_all n_node_id node_of no_clash ROAD_NODES (nodes_t t) = Ok (nodes_t t');
  sd_stations : add_all s_station_id station_of no_clash STATIONS (stations_t t) = Ok (stations_t t');
  sd_drivers : add_all d_driver_id driver_of no_clash DRIVERS (drivers_t t) = Ok ds;
  sd_vehicles : add_all v_vehicle_id vehicle_of plate_taken VEHICLES (vehicles_t t) = Ok vs;
  sd_paired : vehicles_t t' = (pair_standbys (vs, ds)).1;
  sd_seated : drivers_t t' = fold_left (seat_driver (new_driver_ids (drivers_t t))) DRIVERS (pair_standbys (vs, ds)).2;
  sd_orders : add_all r_order_no order_of no_clash ORDERS (orders_t t) = Ok (orders_t t');
  sd_edges : each seed_edge ROAD_EDGES (edges_t t) = Ok (edges_t t');
}.
Lemma seed_inv t t' : seed_new_county_sandtable t = Ok t' -> exists vs ds, seeded t t' vs ds.
Proof.
  unfold seed_new_county_sandtable. intros (m & [_ F]%check_orders_inv & H)%result_bind_ok. apply result_bind_ok in H as (ns & N & H).
  apply result_bind_ok in H as (ss & S & H). apply result_bind_ok in H as (ds & D & H). apply result_bind_ok in H as (vs & V & H).
  apply result_bind_ok in H as (os & O & H). apply result_bind_ok in H as (es & E & H). injection H as <-. exists vs, ds.
  exact (Build_seeded t {| nodes_t := ns; stations_t := ss; drivers_t := _; vehicles_t := _; orders_t := os; edges_t := es |} vs ds F N S D V eq_refl eq_refl O E).
Qed.
Lemma bind_ok {A B} (m : result A) (f : A -> result B) a b : m = Ok a -> f a = b -> m ≫= f = b.
Proof. by intros -> <-. Qed.
Lemma seed_ok t t' vs ds : seeded t t' vs ds -> seed_new_county_sandtable t = Ok t'.
Proof.
  intros [F N S D V P T O E]. unfold seed_new_county_sandtable. eapply bind_ok; [by apply check_orders_still|].
  eapply bind_ok; [exact N|]. eapply bind_ok; [exact S|]. eapply bind_ok; [exact D|]. eapply bind_ok; [exact V|].
  eapply bind_ok; [exact O|]. eapply bind_ok; [exact E|]. rewrite <- P, <- T. by destruct t'.
Qed.

Lemma pair_standbys_some x k : (is_Some (x.1 !! k) -> is_Some ((pair_standbys x).1 !! k)) /\ (is_Some (x.2 !! k) -> is_Some ((pair_standbys x).2 !! k)).
Proof. split; intros [w H]; [destruct (pair_standbys_vehicle x k w H) as (w' & -> & _)|destruct (pair_standbys_driver x k w H) as (w' & -> & _)]; eauto. Qed.

Lemma seeded_kept t t' vs ds : seeded t t' vs ds -> kept t t'.
Proof.
  intros S. split.
  - by apply (add_all_spec _ _ _ _ _ _ (sd_nodes _ _ _ _ S)).
  - by apply (add_all_spec _ _ _ _ _ _ (sd_stations _ _ _ _ S)).
  - by apply (add_all_spec _ _ _ _ _ _ (sd_orders _ _ _ _ S)).
  - intros k w H. rewrite (sd_paired _ _ _ _ S). apply pair_standbys_vehicle. eapply lookup_weaken; [done|]. by apply (add_all_spec _ _ _ _ _ _ (sd_vehicles _ _ _ _ S)).
  - intros k r H. rewrite (sd_seated _ _ _ _ S), seated_other by (left; rewrite new_driver_ids_spec; intros [_ N]; congruence).
    apply pair_standbys_driver. eapply lookup_weaken; [done|]. by apply (add_all_spec _ _ _ _ _ _ (sd_drivers _ _ _ _ S)).
  - by apply (seed_edges_spec _ _ _ edge_rows_unique edge_rows_settled (sd_edges _ _ _ _ S)).
Qed.

Lemma seeded_again t t' vs ds : seeded t t' vs ds -> seeded t' t' (vehicles_t t') (drivers_t t').
Proof.
  intros S. pose proof (add_all_spec _ _ _ _ _ _ (sd_drivers _ _ _ _ S)) as (_ & D & _). pose proof (add_all_spec _ _ _ _ _ _ (sd_orders _ _ _ _ S)) as (_ & _ & O).
  assert (P : pair_standbys (vehicles_t t', drivers_t t') = (vehicles_t t', drivers_t t')).
  { rewrite (sd_paired _ _ _ _ S). apply pair_standbys_again. intros d H. rewrite (sd_seated _ _ _ _ S). apply seated_other. by right. }
  assert (N : new_driver_ids (drivers_t t') = []).
  { destruct (new_driver_ids (drivers_t t')) as [|k l] eqn:E; [done|]. assert (K : k ∈ new_driver_ids (drivers_t t')) by (rewrite E; constructor).
    apply new_driver_ids_spec in K as [K X]. apply list_elem_of_fmap in K as (a & -> & A). destruct (D a A) as [Y _].
    apply (pair_standbys_some (vs, ds)), (seated_some (new_driver_ids (drivers_t t)) DRIVERS) in Y. rewrite <- (sd_seated _ _ _ _ S), X in Y. by destruct Y. }
  split.
  - intros row R o H. destruct (O _ _ H) as [X|(a & A & K & C)]; [by eapply (sd_fit _ _ _ _ S)|by eapply seeded_order_fits].
  - eapply add_all_again; [apply (sd_nodes _ _ _ _ S)|done].
  - eapply add_all_again; [apply (sd_stations _ _ _ _ S)|done].
  - eapply add_all_again; [apply (sd_drivers _ _ _ _ S)|]. intros k K. rewrite (sd_seated _ _ _ _ S). by apply seated_some, (pair_standbys_some (vs, ds)).
  - eapply add_all_again; [apply (sd_vehicles _ _ _ _ S)|]. intros k K. rewrite (sd_paired _ _ _ _ S). by apply (pair_standbys_some (vs, ds)).
  - by rewrite P.
  - by rewrite P, N, seated_none.
  - eapply add_all_again; [apply (sd_orders _ _ _ _ S)|done].
  - apply seed_edges_still. by apply (seed_edges_spec _ _ _ edge_rows_unique edge_rows_settled (sd_edges _ _ _ _ S)).
Qed.

(** Seeding is safe at every start-up: it never overwrites what is in the
    tables - it pairs a free standby vehicle with its free driver and lengthens
    the four roads whose old travel time is still there, nothing else - and
    seeding the result again succeeds and changes nothing at all. *)
Theorem seeding_settles t t' : seed_new_county_sandtable t = Ok t' -> kept t t' /\ seed_new_county_sandtable t' = Ok t'.
Proof. intros (vs & ds & S)%seed_inv. split; [by eapply seeded_kept|]. by eapply seed_ok, seeded_again. Qed.

(** ** When seeding fails *)
Definition conflicting (m : gmap string Order) (row : OrderRow) : Prop := exists o, m !! r_order_no row = Some o /\ matches_sandtable_order o row = Ok false.
Lemma rows_named : forallb (fun a => is_ok (station_name (r_origin_station_id a)) && is_ok (station_name (r_destination_station_id a))) ORDERS = true.
Proof. vm_compute. reflexivity. Qed.
Lemma matches_total o row : row ∈ ORDERS -> exists b, matches_sandtable_order o row = Ok b.
Proof.
  intros R. pose proof rows_named as H. rewrite forallb_forall in H. apply list_elem_of_In in R. specialize (H row R). unfold matches_sandtable_order.
  destruct (station_name (r_origin_station_id row)); [|done]. destruct (station_name (r_destination_station_id row)); [|done]. cbn. eauto.
Qed.
Lemma check_orders_err rows m e : (forall row, row ∈ rows -> row ∈ ORDERS) -> each check_order rows m = Err e ->
  exists row, row ∈ rows /\ conflicting m row /\ exn_class e = "SandtableOrderConflictError"%string.
Proof.
  induction rows as [|a rows IH]; intros I; cbn [each]; [done|]. destruct (check_order a m) as [m1|x] eqn:C; cbn.
  - apply check_order_inv in C as [-> _]. intros (row & R & K)%IH; [|intros row R; apply I; by constructor]. exists row. split; [by constructor|done].
  - intros [= ->]. exists a. split; [constructor|]. unfold check_order in C. destruct (m !! r_order_no a) as [o|] eqn:O; [|done].
    destruct (matches_total o a) as [b B]; [apply I; constructor|]. rewrite B in C. destruct b; [done|]. injection C as <-. split; [exists o; by rewrite O|done].
Qed.
Lemma seed_edges_total l m : forallb (fun a => is_ok (edge_of a)) l = true -> exists m', each seed_edge l m = Ok m'.
Proof.
  revert m. induction l as [|a l IH]; intros m; cbn [forallb each]; [eauto|]. intros [C H]%andb_true_iff. destruct (edge_of a) as [new|] eqn:E; [|done].
  edestruct IH as [m' M]; [done|]. exists m'. eapply bind_ok; [|exact M]. unfold seed_edge. by rewrite E.
Qed.
Lemma bind_err {A B} (m : result A) (f : A -> result B) e : m ≫= f = Err e -> m = Err e \/ exists a, m = Ok a /\ f a = Err e.
Proof. destruct m; cbn; [eauto|]. intros [= ->]. by left. Qed.
Lemma add_all_no_clash {A R} (key : A -> string) (convert : A -> result R) l m : forallb (fun a => is_ok (convert a)) l = true -> exists m', add_all key convert no_clash l m = Ok m'.
Proof. intros H. destruct (add_all key convert no_clash l m) as [m'|e] eqn:E; [eauto|]. destruct (add_all_err _ _ _ _ _ _ H E) as (_ & r & m1 & K). done. Qed.

(** Seeding fails for an order of another content under a number of the data, or
    for a vehicle with a plate that another vehicle has; nothing else stops it. *)
Lemma seed_err t e : seed_new_county_sandtable t = Err e ->
  (exists row, row ∈ ORDERS /\ conflicting (orders_t t) row /\ exn_class e = "SandtableOrderConflictError"%string) \/
  (e = IntegrityError /\ exists r m, plate_taken r m = true).
Proof.
  pose proof rows_convert as R. repeat rewrite andb_true_iff in R. destruct R as [[[[[R1 R2] R3] R4] R5] R6]. unfold seed_new_county_sandtable.
  intros [C|(m & C & H)]%bind_err; [left; by apply (check_orders_err ORDERS) in C|right].
  pose proof @add_all_no_clash as NC. apply bind_err in H as [X|(ns & _ & H)]; [by destruct (NC _ _ n_node_id node_of _ (nodes_t t) R1) as [? Y]; rewrite X in Y|].
  apply bind_err in H as [X|(ss & _ & H)]; [by destruct (NC _ _ s_station_id station_of _ (stations_t t) R2) as [? Y]; rewrite X in Y|].
  apply bind_err in H as [X|(ds & _ & H)]; [by destruct (NC _ _ d_driver_id driver_of _ (drivers_t t) R3) as [? Y]; rewrite X in Y|].
  apply bind_err in H as [X|(vs & _ & H)]; [by apply (add_all_err _ _ _ _ _ _ R4) in X|].
  apply bind_err in H as [X|(os & _ & H)]; [by destruct (NC _ _ r_order_no order_of _ (orders_t t) R5) as [? Y]; rewrite X in Y|].
  apply bind_err in H as [X|(es & _ & H)]; [by destruct (seed_edges_total _ (edges_t t) R6) as [? Y]; rewrite X in Y|done].
Qed.

(** ** Migration *)
Lemma rename_order_other m c k : k <> c_order_no c -> rename_order m c !! k = if decide (k = c_legacy_order_no c) then None else m !! k.
Proof.
  intros N. unfold rename_order. destruct (m !! c_legacy_order_no c) as [o|] eqn:E.
  - rewrite lookup_insert_ne by done. destruct (decide (k = c_legacy_order_no c)) as [->|K]; [apply lookup_delete_eq|by apply lookup_delete_ne].
  - by destruct (decide (k = c_legacy_order_no c)) as [->|K].
Qed.
Lemma renamed_other cs m k : k ∉ map c_order_no cs -> fold_left rename_order cs m !! k = if decide (k ∈ map c_legacy_order_no cs) then None else m !! k.
Proof.
  revert m. induction cs as [|c cs IH]; intros m; cbn [map fold_left]; [done|]. intros [N1 N2]%not_elem_of_cons. rewrite IH, rename_order_other by done.
  destruct (decide (k ∈ map c_legacy_order_no cs)) as [L|L]; [by rewrite decide_True by (by constructor)|].
  destruct (decide (k = c_legacy_order_no c)) as [->|K]; [by rewrite decide_True by constructor|]. rewrite decide_False; [done|]. by apply not_elem_of_cons.
Qed.
Lemma renamed_new cs m c o : NoDup (map c_order_no cs) -> NoDup (map c_legacy_order_no cs) -> (forall x y, x ∈ cs -> y ∈ cs -> c_order_no x <> c_legacy_order_no y) ->
  c ∈ cs -> m !! c_legacy_order_no c = Some o -> fold_left rename_order cs m !! c_order_no c = Some o.
Proof.
  revert m. induction cs as [|a cs IH]; intros m; cbn [map fold_left]; [intros _ _ _ H; by apply elem_of_nil in H|].
  intros [N1 N2]%NoDup_cons [L1 L2]%NoDup_cons D [->|C]%elem_of_cons O.
  - rewrite renamed_other by done. rewrite decide_False.
    + unfold rename_order. rewrite O. apply lookup_insert_eq.
    + intros (y & E & Y)%list_elem_of_fmap. apply (D a y); [constructor|by constructor|done].
  - apply IH; try done; [intros x y X Y; apply D; by constructor|]. rewrite rename_order_other.
    + rewrite decide_False; [done|]. intros E. apply L1. rewrite <- E. by apply list_elem_of_fmap_2.
    + intros E. apply (D a c); [constructor|by constructor|done].
Qed.

Definition legacy_data_ok : bool :=
  bool_decide (NoDup (map c_order_no DEMO_BUSINESS_CASES)) && bool_decide (NoDup (map c_legacy_order_no DEMO_BUSINESS_CASES)) &&
  bool_decide (NoDup (map r_order_no ORDERS)) &&
  forallb (fun x => negb (one_of (c_order_no x) (map c_legacy_order_no DEMO_BUSINESS_CASES)) && negb (one_of (c_order_no x) (map r_order_no ORDERS))) DEMO_BUSINESS_CASES.
Lemma legacy_data : NoDup (map c_order_no DEMO_BUSINESS_CASES) /\ NoDup (map c_legacy_order_no DEMO_BUSINESS_CASES) /\ NoDup (map r_order_no ORDERS) /\
  forall x, x ∈ DEMO_BUSINESS_CASES -> (c_order_no x ∉ map c_legacy_order_no DEMO_BUSINESS_CASES) /\ (c_order_no x ∉ map r_order_no ORDERS).
Proof.
  assert (H : legacy_data_ok = true) by (vm_compute; reflexivity). unfold legacy_data_ok in H. repeat rewrite andb_true_iff in H. destruct H as [[[H1 H2] H3] H4].
  apply bool_decide_eq_true in H1, H2, H3. rewrite forallb_forall in H4. split_and!; try done. intros x X. apply list_elem_of_In in X. specialize (H4 x X).
  apply andb_true_iff in H4 as [A B]. apply negb_true_iff, one_of_false in A. by apply negb_true_iff, one_of_false in B.
Qed.
Lemma find_row rows row : NoDup (map r_order_no rows) -> row ∈ rows -> List.find (fun r => String.eqb (r_order_no r) (r_order_no row)) rows = Some row.
Proof.
  induction rows as [|a rows IH]; cbn; [intros _ H; by apply elem_of_nil in H|]. intros [N1 N2]%NoDup_cons [->|R]%elem_of_cons; [by rewrite String.eqb_refl|].
  destruct (String.eqb_spec (r_order_no a) (r_order_no row)) as [E|_]; [|by apply IH]. destruct N1. rewrite E. by apply list_elem_of_fmap_2.
Qed.
#[local] Opaque DEMO_BUSINESS_CASES.

Lemma pending_case_inv m c x : pending_case m c = Ok x -> (x = Some c /\ is_Some (m !! c_legacy_order_no c)) \/
  (x = None /\ (is_Some (m !! c_order_no c) \/ forall o, m !! c_legacy_order_no c = Some o -> sandtable_order_matches o (c_legacy_order_no c) = Ok true)).
Proof.
  unfold pending_case. destruct (m !! c_order_no c); [intros [= <-]; right; eauto|]. destruct (m !! c_legacy_order_no c) as [o|]; [|intros [= <-]; right; split; [done|by right]].
  intros (b & B & H)%result_bind_ok. destruct b; [injection H as <-; right; split; [done|right; by intros o' [= <-]]|].
  destruct (legacy_order_matches o c); [|done]. injection H as <-. left. eauto.
Qed.
Lemma migrate_inv t t1 : migrate_legacy_demo_business_case_orders t = Ok t1 -> exists cs, orders_t t1 = fold_left rename_order cs (orders_t t) /\
  cs `sublist_of` DEMO_BUSINESS_CASES /\
  (forall c, c ∈ DEMO_BUSINESS_CASES -> (c ∈ cs /\ is_Some (orders_t t !! c_legacy_order_no c)) \/
    is_Some (orders_t t !! c_order_no c) \/ forall o, orders_t t !! c_legacy_order_no c = Some o -> sandtable_order_matches o (c_legacy_order_no c) = Ok true).
Proof.
  unfold migrate_legacy_demo_business_case_orders. intros (ps & P & [= <-])%result_bind_ok. eexists. split; [done|].
  apply map_result_Forall2 in P. induction P as [|c x l ps C P [I1 I2]]; cbn; [split; [done|]; intros c H; by apply elem_of_nil in H|].
  destruct (pending_case_inv _ _ _ C) as [[-> K]|[-> K]]; cbn.
  - split; [by constructor|]. intros d [->|D]%elem_of_cons; [left; split; [constructor|done]|]. destruct (I2 d D) as [[X Y]|H]; [left; split; [by constructor|done]|by right].
  - split; [by constructor|]. intros d [->|D]%elem_of_cons; [by right|by apply I2].
Qed.

(** The start-up after the demonstration moved to the county: on a database
    that has none of the new numbers of the old cases yet, and where the two
    orders that no old case used fit, a successful migration renames the old
    orders without losing any, and then only a clash of number plates can stop
    the seeding. *)
Theorem migrated_database_seeds t t1 : migrate_legacy_demo_business_case_orders t = Ok t1 ->
  (forall c, c ∈ DEMO_BUSINESS_CASES -> orders_t t !! c_order_no c = None) ->
  (forall row, row ∈ ORDERS -> r_order_no row ∉ map c_legacy_order_no DEMO_BUSINESS_CASES -> order_fits (orders_t t) row) ->
  (forall no o, orders_t t !! no = Some o -> orders_t t1 !! no = Some o \/
     exists c, c ∈ DEMO_BUSINESS_CASES /\ no = c_legacy_order_no c /\ orders_t t1 !! c_order_no c = Some o) /\
  (forall e, seed_new_county_sandtable t1 = Err e -> e = IntegrityError /\ exists r m, plate_taken r m = true).
Proof.
  intros (cs & E & S & C)%migrate_inv F G. destruct legacy_data as (N1 & N2 & N3 & D).
  assert (I : forall c, c ∈ cs -> c ∈ DEMO_BUSINESS_CASES) by (intros c H; by eapply elem_of_sublist).
  assert (K : forall no, no ∉ map c_order_no DEMO_BUSINESS_CASES -> no ∉ map c_order_no cs).
  { intros no H (c & -> & X)%list_elem_of_fmap. apply H. by apply list_elem_of_fmap_2, I. }
  split.
  - intros no o O. rewrite E. destruct (decide (no ∈ map c_legacy_order_no cs)) as [L|L].
    + right. apply list_elem_of_fmap in L as (c & -> & X). exists c. split_and!; [by apply I|done|]. apply renamed_new; try done.
      * eapply sublist_NoDup; [exact N1|by apply fmap_sublist].
      * eapply sublist_NoDup; [exact N2|by apply fmap_sublist].
      * intros x y X' Y' Q. destruct (D x (I x X')) as [A _]. apply A. rewrite Q. by apply list_elem_of_fmap_2, I.
    + left. rewrite renamed_other; [by rewrite decide_False|]. apply K. intros (c & -> & X)%list_elem_of_fmap. by rewrite (F c X) in O.
  - intros e H. apply seed_err in H as [(row & R & (o & O & B) & _)|H]; [exfalso|done].
    assert (Fit : order_fits (orders_t t1) row); [|specialize (Fit o O); congruence]. clear o O B. intros o O. rewrite E in O.
    rewrite renamed_other in O by (apply K; intros (c & Q & X)%list_elem_of_fmap; destruct (D c X) as [_ A]; apply A; rewrite <- Q; by apply list_elem_of_fmap_2).
    destruct (decide (r_order_no row ∈ map c_legacy_order_no cs)) as [|L]; [done|].
    destruct (decide (r_order_no row ∈ map c_legacy_order_no DEMO_BUSINESS_CASES)) as [M|M]; [|by apply (G row R M)].
    apply list_elem_of_fmap in M as (c & Q & X). destruct (C c X) as [[Y _]|[[y Y]|Y]].
    + destruct L. rewrite Q. by apply list_elem_of_fmap_2.
    + by rewrite (F c X) in Y.
    + rewrite <- Q in Y. specialize (Y o O). unfold sandtable_order_matches in Y. by rewrite (find_row _ _ N3 R) in Y.
Qed.

(** ** The roads of the seeded orders *)
Definition way (t : tables) (objective : RouteObjective) (o : Sandtable.Order) : result (Routing.SandtableTaskContext * option PathResult) :=
  c ← Sandtable.load (Sandtable.o_id o) (sandtable_of t);
  s ← snapshot (Sandtable.node_rows (sandtable_of t)) (Sandtable.edge_rows (sandtable_of t));
  p ← RoadNetwork.find s (Routing.st_origin_node_id c) (Routing.st_destination_node_id c) objective (Routing.st_vehicle_weight_tons c) ∅;
  Ok (c, p).
Definition too_heavy (t : tables) (objective : RouteObjective) (o : Sandtable.Order) : bool :=
  match way t objective o with
  | Ok (c, p) => Bool.eqb (match p with None => true | Some _ => false end) (String.eqb (Routing.st_current_vehicle_id c) "V-010")
  | Err _ => false
  end.

(** A fresh database is seeded with the twelve orders; each loads its
    context, and for each objective the path finder knows a way from its origin
    to its destination that its vehicle may drive, but for the orders of V-010,
    which at 6.50 tons is too heavy for every way to their villages. *)
Theorem seeded_orders_have_roads : exists t, seed_new_county_sandtable empty_tables = Ok t /\ length (Sandtable.orders (sandtable_of t)) = length ORDERS /\
  forall objective o, o ∈ Sandtable.orders (sandtable_of t) -> exists c p, way t objective o = Ok (c, p) /\ (p = None <-> Routing.st_current_vehicle_id c = "V-010"%string).
Proof.
  assert (H : match seed_new_county_sandtable empty_tables with
              | Ok t => Nat.eqb (length (Sandtable.orders (sandtable_of t))) (length ORDERS) &&
                        forallb (fun objective => forallb (too_heavy t objective) (Sandtable.orders (sandtable_of t))) route_objectives
              | Err _ => false end = true) by (vm_compute; reflexivity).
  destruct (seed_new_county_sandtable empty_tables) as [t|]; [|done]. apply andb_true_iff in H as [L H]. apply Nat.eqb_eq in L. exists t. split_and!; try done.
  intros objective o O. rewrite forallb_forall in H. specialize (H objective). rewrite forallb_forall in H. apply list_elem_of_In in O.
  specialize (H (ltac:(destruct objective; cbn; tauto)) o O). unfold too_heavy in H. destruct (way t objective o) as [[c p]|]; [|done]. exists c, p. split; [done|].
  apply eqb_prop in H. destruct p; symmetry in H; [apply String.eqb_neq in H; done|apply String.eqb_eq in H; done].
Qed.

(** ** Witnesses *)
Lemma seeding_settles_witness : exists t t', seed_new_county_sandtable empty_tables = Ok t /\ kept empty_tables t /\ seed_new_county_sandtable t = Ok t'.
Proof.
  destruct (seed_new_county_sandtable empty_tables) as [t|] eqn:E; [|exfalso; revert E; vm_compute; discriminate]. exists t, t.
  destruct (seeding_settles empty_tables t E) as [K A]. split_and!; [reflexivity|exact K|exact A].
Defined.

Definition ex_legacy : LegacyCase := match DEMO_BUSINESS_CASES with c :: _ => c | [] => Build_LegacyCase "" "" "" "" "" "" "" "" "" "" "" "" end.
Definition ex_old_order : Order :=
  {| o_status := c_status ex_legacy; o_driver_id := Some (c_driver_id ex_legacy); o_vehicle_id := Some (c_vehicle_id ex_legacy); o_route_id := Some (c_route_id ex_legacy);
     o_origin := c_origin ex_legacy; o_destination := c_destination ex_legacy; o_cargo_weight_kg := None; o_cargo_type := None; o_origin_station_id := None;
     o_destination_station_id := None |}.
Definition ex_old_tables : tables := with_orders {[ "DEMO-ORDER-001"%string := ex_old_order ]} empty_tables.
Definition moved (r : result tables) : option Order := match r with Ok t => orders_t t !! "LEGACY-DEMO-ORDER-001"%string | Err _ => None end.
Lemma migrated_database_seeds_witness : exists t1, migrate_legacy_demo_business_case_orders ex_old_tables = Ok t1 /\ orders_t t1 !! "LEGACY-DEMO-ORDER-001"%string = Some ex_old_order /\
  (forall e, seed_new_county_sandtable t1 = Err e -> e = IntegrityError).
Proof.
  destruct (migrate_legacy_demo_business_case_orders ex_old_tables) as [t1|] eqn:E; [|exfalso; revert E; vm_compute; discriminate]. exists t1.
  assert (M : moved (migrate_legacy_demo_business_case_orders ex_old_tables) = Some ex_old_order) by (vm_compute; reflexivity).
  destruct (migrated_database_seeds ex_old_tables t1 E) as [_ S].
  - intros c H. unfold ex_old_tables, with_orders; cbn. apply lookup_singleton_ne. intros Q. apply (proj2 (proj2 (proj2 legacy_data)) c) in H as [A _]. apply A. rewrite <- Q.
    apply (bool_decide_unpack _). vm_compute. exact I.
  - intros row R N o O. unfold ex_old_tables, with_orders in O; cbn in O. apply lookup_singleton_Some in O as [Q _]. destruct N. rewrite <- Q.
    apply (bool_decide_unpack _). vm_compute. exact I.
  - rewrite E in M. split_and!; [reflexivity|exact M|intros e H; apply (S e H)].
Defined.
