(* ===== verification/VehicleViews.v ===== *)
(** * VehicleViews: what the screens show of vehicles, rescues and repairs

    Models the rest of [app/vehicle_operations/query_service.py], the map of a
    case and the list of the fleet, and the routes of
    [app/api/v1/vehicle_operations.py] that read: permission, service, status code.
    The rows are those of VehicleOperations and RoadNetwork, with the columns of a
    vehicle that no operation changes kept beside them.  Event ids and times of the
    outbox are left out, as they are there; a time is shown as its number. *)

From S2P Require Import Prelude RoadNetwork VehicleOperations Breakdown.
From S2P Require Import Snapshots.
From S2P Require Security.

Local Open Scope Z_scope.
Local Open Scope list_scope.

(** ** Rows *)
Record VehicleColumns := {
  vc_plate_no : string; vc_vehicle_type : string; vc_max_load_kg : Q; vc_current_load_kg : Q; vc_assigned_driver_id : option string; vc_version : Z;
}.
Record map_rows := { mr_nodes : list RoadNodeSnapshot; mr_edges : list RoadEdgeSnapshot; mr_columns : gmap string VehicleColumns }.

(** A query joins the columns of a row. *)
Definition vehicle_rows (rows : map_rows) (s : store) : list (string * (FleetVehicle * VehicleColumns)) :=
  sorted_key fst (omap (fun kv => match mr_columns rows !! kv.1 with Some c => Some (kv.1, (kv.2, c)) | None => None end) (map_to_list (vehicles s))).

(** ** [map_snapshot] *)
Record IncidentView := {
  iv_status : string; iv_risk : string; iv_vehicle_id : string; iv_replacement_vehicle_id : option string; iv_location_node_id : string;
  iv_fault_code : string; iv_cargo : string;
}.
Record NodeView := { nv_node_id : string; nv_name : string; nv_x_km : string; nv_y_km : string; nv_node_type : string }.
Record EdgeView := { ev_edge_id : string; ev_name : string; ev_from_node_id : string; ev_to_node_id : string; ev_road_level : string; ev_status : string }.
Record VehicleView := {
  vv_vehicle_id : string; vv_plate_no : string; vv_status : string; vv_current_node_id : string; vv_max_load_kg : string; vv_current_load_kg : string;
  vv_assigned_driver_id : option string; vv_status_reason : option string; vv_available_after : option Z; vv_is_incident : bool; vv_is_replacement : bool;
}.
Record StageView := { sv_key : string; sv_title : string; sv_status : string; sv_detail : string }.
Record TimelineView := { tv_event_type : string; tv_label : string; tv_event : Event }.
Record MapSnapshot := {
  mp_task_id : string; mp_generated_at : Z; mp_incident : IncidentView; mp_nodes : list NodeView; mp_edges : list EdgeView; mp_vehicles : list VehicleView;
  mp_routes : list RouteView; mp_rescue : RescueView; mp_maintenance : MaintenanceView; mp_stages : list StageView; mp_timeline : list TimelineView;
}.

Definition incident_view (c : OperationCaseSnapshot) : IncidentView :=
  {| iv_status := incident_status c; iv_risk := "HIGH"; iv_vehicle_id := c_vehicle_id c; iv_replacement_vehicle_id := replacement_vehicle_id c;
     iv_location_node_id := incident_node_id (ms_row (mission c)); iv_fault_code := o_fault_code (os_row (maintenance c)); iv_cargo := "冷链生鲜 · 700kg" |}.
Definition node_view (n : RoadNodeSnapshot) : NodeView :=
  {| nv_node_id := node_id n; nv_name := node_name n; nv_x_km := format_f (x_km n); nv_y_km := format_f (y_km n); nv_node_type := node_type n |}.
Definition edge_view (e : RoadEdgeSnapshot) : EdgeView :=
  {| ev_edge_id := edge_id e; ev_name := edge_name e; ev_from_node_id := from_node_id e; ev_to_node_id := to_node_id e; ev_road_level := road_level e;
     ev_status := edge_status e |}.
Definition vehicle_view (c : OperationCaseSnapshot) (row : string * (FleetVehicle * VehicleColumns)) : VehicleView :=
  let (id, r) := row in let (v, x) := r in
  {| vv_vehicle_id := id; vv_plate_no := vc_plate_no x; vv_status := v_status v; vv_current_node_id := current_node_id v;
     vv_max_load_kg := format_f (vc_max_load_kg x); vv_current_load_kg := format_f (vc_current_load_kg x); vv_assigned_driver_id := vc_assigned_driver_id x;
     vv_status_reason := status_reason v; vv_available_after := available_after v; vv_is_incident := String.eqb id (c_vehicle_id c);
     vv_is_replacement := bool_decide (Some id = replacement_vehicle_id c) |}.
Definition stage_titles : list string := ["安全停车"; "替代配送接管"; "救援运送"; "维修与自动复岗"]%string.
Definition stage_details (c : OperationCaseSnapshot) : list string :=
  ["停车确认、冷链保温与道路警示已完成";
   match some_text (replacement_vehicle_id c) with Some v => v +:+ " 已接管配送" | None => "当前任务未启用替代车辆" end;
   "救援进度 " +:+ z_str (rescue_progress_percent (m_status (ms_row (mission c)))) +:+ "%";
   "维修进度 " +:+ z_str (maintenance_progress_percent (o_status (os_row (maintenance c)))) +:+ "%"]%string.
Definition stage_views (c : OperationCaseSnapshot) : list StageView :=
  map (fun x => {| sv_key := x.1.1.1; sv_status := x.1.1.2; sv_title := x.1.2; sv_detail := x.2 |}) (combine (combine (stages c) stage_titles) (stage_details c)).
Definition timeline (t : string) (s : store) : list TimelineView :=
  map (fun e => {| tv_event_type := event_type (event e); tv_label := event_label (event_type (event e)); tv_event := event e |})
    (List.filter (fun e => String.eqb (e_task_id e) t) (outbox s)).
Definition edge_ends (rows : map_rows) : gmap string (string * string) :=
  list_to_map (rev (map (fun e => (edge_id e, (from_node_id e, to_node_id e))) (sorted_key edge_id (mr_edges rows)))).

Definition map_snapshot (rows : map_rows) (now : Z) (t : string) (s : store) : result MapSnapshot :=
  k ← get_case t s; c ← of_option (NotFound t) (k : option OperationCaseSnapshot);
  Ok {| mp_task_id := t; mp_generated_at := now; mp_incident := incident_view c; mp_nodes := map node_view (sorted_key node_id (mr_nodes rows));
        mp_edges := map edge_view (sorted_key edge_id (mr_edges rows)); mp_vehicles := map (vehicle_view c) (vehicle_rows rows s);
        mp_routes := route_views (edge_ends rows) c; mp_rescue := rescue_view c; mp_maintenance := maintenance_view c now; mp_stages := stage_views c;
        mp_timeline := timeline t s |}.
(** [assignee] is the task's row, and the subject it is assigned to. *)
Definition driver_map_snapshot (rows : map_rows) (now : Z) (assignee : option (option string)) (t subject_id : string) (s : store) : result MapSnapshot :=
  _ ← driver_sees assignee subject_id t; map_snapshot rows now t s.

Record FleetView := {
  fv_vehicle_id : string; fv_plate_no : string; fv_vehicle_type : string; fv_status : string; fv_current_node_id : string; fv_fault_code : option string;
  fv_maintenance_order_no : option string; fv_version : Z;
}.
Definition list_vehicles (rows : map_rows) (s : store) : list FleetView :=
  map (fun row : string * (FleetVehicle * VehicleColumns) => let (id, r) := row in let (v, x) := r in
    {| fv_vehicle_id := id; fv_plate_no := vc_plate_no x; fv_vehicle_type := vc_vehicle_type x; fv_status := v_status v; fv_current_node_id := current_node_id v;
       fv_fault_code := fault_code v; fv_maintenance_order_no := maintenance_order_no v; fv_version := vc_version x |}) (vehicle_rows rows s).

(** ** The routes *)

(** [_call]: 500 is an exception that no handler answers. *)
Definition call {A} (r : result A) : Z * option A :=
  match r with
  | Ok a => (200, Some a)
  | Err e => (if raised_as ["VehicleOperationNotFound"%string] e then 404
              else if raised_as ["VehicleOperationsConflict"; "InvalidStateTransition"]%string e then 409 else 500, None)
  end.
Definition guarded {A} (p : Security.AuthenticatedPrincipal) (perm : Security.Permission) (r : result A) : Z * option A :=
  if Security.can p perm then call r else (403, None).

(** [Query(min_length=1, max_length=36)]: a task id that does not fit answers 422,
    once the permission has been checked. *)
Definition task_id_fits (t : string) : bool := (1 <=? py_len t) && (py_len t <=? 36).
Definition with_task_id {A} (t : string) (p : Security.AuthenticatedPrincipal) (perm : Security.Permission) (r : result A) : Z * option A :=
  if Security.can p perm && negb (task_id_fits t) then (422, None) else guarded p perm r.

Section routes.
Context (rows : map_rows) (p : Security.AuthenticatedPrincipal) (now : Z) (s : store).

Definition get_map_snapshot (t : string) := with_task_id t p Security.DISPATCH_REVIEW (map_snapshot rows now t s).
Definition get_driver_operation_snapshot (assignee : option (option string)) (t : string) :=
  with_task_id t p Security.ANOMALIES_REPORT (driver_map_snapshot rows now assignee t (Security.subject_id p) s).
Definition get_vehicles := guarded p Security.DISPATCH_REVIEW (Ok (list_vehicles rows s)).
Definition get_rescue (no : string) := guarded p Security.DISPATCH_REVIEW (get_rescue_mission no s).
Definition get_orders := guarded p Security.DISPATCH_REVIEW (list_maintenance_orders now s).
Definition get_order (no : string) := guarded p Security.DISPATCH_REVIEW (get_maintenance_order no now s).
End routes.
Definition retry_mission (p : Security.AuthenticatedPrincipal) (now : Z) (no : string) (s : store) : (Z * option OperationCaseSnapshot) * store :=
  if Security.can p Security.DISPATCH_REVIEW then let (r, s') := retry_rescue no now s in (call r, s') else ((403, None), s).
Definition inspection_decision (p : Security.AuthenticatedPrincipal) (decided shown : Z) (no : string) (passed : bool) (s : store) : (Z * option MaintenanceView) * store :=
  if Security.can p Security.DISPATCH_REVIEW then let (r, s') := query_record_inspection no passed (Security.subject_id p) decided shown s in (call r, s')
  else ((403, None), s).

(** ** Reads of a consistent store *)
Lemma case_shown s t m : wf s -> missions s !! t = Some m -> exists c, get_case t s = Ok (Some c).
Proof.
  intros W M. destruct (wf_cases s W t m M) as (r & O & C). destruct (case_run s t m r M O (co_present _ _ _ C)) as [c K]. unfold with_case in K.
  destruct (case_of s t) as [c'|] eqn:E; [|done]. exists c'. unfold get_case. by rewrite M, E.
Qed.
Lemma map_shown rows now s t : wf s -> (exists v, map_snapshot rows now t s = Ok v) \/ (missions s !! t = None /\ map_snapshot rows now t s = Err (NotFound t)).
Proof.
  intros W. unfold map_snapshot. destruct (missions s !! t) as [m|] eqn:M.
  - left. destruct (case_shown s t m W M) as [c ->]. cbn. eauto.
  - right. split; [done|]. unfold get_case. by rewrite M.
Qed.
Lemma rescue_shown s no : wf s -> (exists v t m, get_rescue_mission no s = Ok v /\ missions s !! t = Some m /\ mission_no m = no) \/
  (get_rescue_mission no s = Err (NotFound no) /\ forall t m, missions s !! t = Some m -> mission_no m <> no).
Proof.
  intros W. unfold get_rescue_mission. destruct (by_mission_no no s) as [[t m]|] eqn:B.
  - left. apply by_mission_no_some in B as [M N]. destruct (case_shown s t m W M) as [c C]. cbn. rewrite C. cbn. eauto 8.
  - right. split; [done|]. intros t m M N. unfold by_mission_no in B. apply (find_none _ _) with (x := (t, m)) in B; [|by apply list_elem_of_In, elem_of_map_to_list].
    cbn in B. by apply String.eqb_neq in B.
Qed.
Lemma order_shown s now no : wf s -> (exists v t r, get_maintenance_order no now s = Ok v /\ orders s !! t = Some r /\ order_no r = no) \/
  (get_maintenance_order no now s = Err (NotFound no) /\ forall t r, orders s !! t = Some r -> order_no r <> no).
Proof.
  intros W. unfold get_maintenance_order. destruct (by_order_no no s) as [[t r]|] eqn:B.
  - left. apply by_order_no_some in B as [O N]. destruct (wf_orders s W t r O) as [m M]. destruct (case_shown s t m W M) as [c C]. cbn. rewrite C. cbn. eauto 8.
  - right. split; [done|]. intros t r O N. unfold by_order_no in B. apply (find_none _ _) with (x := (t, r)) in B; [|by apply list_elem_of_In, elem_of_map_to_list].
    cbn in B. by apply String.eqb_neq in B.
Qed.
Lemma orders_shown s now : wf s -> exists l, list_maintenance_orders now s = Ok l /\ length l = size (orders s).
Proof.
  intros W. unfold list_maintenance_orders. set (nos := map _ _).
  assert (H : forall no, no ∈ nos -> exists v, get_maintenance_order no now s = Ok v).
  { intros no N. apply list_elem_of_fmap in N as ([t r] & -> & X). rewrite sorted_key_desc_perm in X. apply elem_of_map_to_list in X.
    cbn [snd]. destruct (order_shown s now (order_no r) W) as [(v & _ & _ & -> & _)|[_ N]]; [eauto|]. by destruct (N t r X). }
  destruct (map_result_total (fun no => get_maintenance_order no now s) nos) as [l L]; [done|]. exists l. split; [done|]. apply map_result_Forall2, Forall2_length in L. rewrite <- L. unfold nos.
  rewrite length_map, sorted_key_desc_perm. by rewrite length_map_to_list.
Qed.

Lemma call_ok {A} (a : A) : call (Ok a) = (200, Some a).
Proof. done. Qed.
Lemma call_missing {A} what : call (Err (NotFound what) : result A) = (404, None).
Proof. done. Qed.

(** C37: On a store that the operations keep consistent, no route that reads
    answers with a server error.  A supervisor gets the map of a case, a rescue
    or a repair exactly when there is one, and every repair in the list; a driver
    gets the map of the case of his own task only, and a task of somebody else
    answers as one that does not exist.  A task id that is empty or longer than 36
    characters is refused to both. *)
Theorem vehicle_reads_never_fail rows p now s : wf s ->
  (forall t, Security.can p Security.DISPATCH_REVIEW = true -> task_id_fits t = true ->
     fst (get_map_snapshot rows p now s t) = (match missions s !! t with Some _ => 200 | None => 404 end)) /\
  (forall assignee t, task_id_fits t = false ->
     (Security.can p Security.DISPATCH_REVIEW = true -> get_map_snapshot rows p now s t = (422, None)) /\
     (Security.can p Security.ANOMALIES_REPORT = true -> get_driver_operation_snapshot rows p now s assignee t = (422, None))) /\
  (forall assignee t, Security.can p Security.ANOMALIES_REPORT = true -> task_id_fits t = true ->
     fst (get_driver_operation_snapshot rows p now s assignee t) = 200 /\ assignee = Some (Some (Security.subject_id p)) /\ is_Some (missions s !! t) \/
     get_driver_operation_snapshot rows p now s assignee t = (404, None) /\ (assignee <> Some (Some (Security.subject_id p)) \/ missions s !! t = None)) /\
  (forall no, Security.can p Security.DISPATCH_REVIEW = true ->
     fst (get_rescue p s no) = 200 /\ (exists t m, missions s !! t = Some m /\ mission_no m = no) \/
     get_rescue p s no = (404, None) /\ forall t m, missions s !! t = Some m -> mission_no m <> no) /\
  (forall no, Security.can p Security.DISPATCH_REVIEW = true ->
     fst (get_order p now s no) = 200 /\ (exists t r, orders s !! t = Some r /\ order_no r = no) \/
     get_order p now s no = (404, None) /\ forall t r, orders s !! t = Some r -> order_no r <> no) /\
  (Security.can p Security.DISPATCH_REVIEW = true -> exists l, get_orders p now s = (200, Some l) /\ length l = size (orders s)).
Proof.
  intros W. split_and!.
  - intros t P L. unfold get_map_snapshot, with_task_id, guarded. rewrite P, L. cbn [andb negb]. destruct (map_shown rows now s t W) as [[v E]|[N E]]; rewrite E; [|by rewrite N].
    destruct (missions s !! t) eqn:M; [done|]. exfalso. unfold map_snapshot, get_case in E. by rewrite M in E.
  - intros a t L. unfold get_map_snapshot, get_driver_operation_snapshot, with_task_id. rewrite L. split; by intros ->.
  - intros a t P L. unfold get_driver_operation_snapshot, driver_map_snapshot, with_task_id, guarded. rewrite P, L. cbn [andb negb].
    destruct a as [[a|]|]; [|right; split; [done|by left]..]. cbn [driver_sees]. destruct (String.eqb_spec a (Security.subject_id p)) as [->|D].
    + cbn [mbind result_bind]. destruct (map_shown rows now s t W) as [[v E]|[N E]]; rewrite E; [left|right; split; [done|by right]].
      split_and!; [done..|]. destruct (missions s !! t) eqn:M; [eauto|]. exfalso. unfold map_snapshot, get_case in E. by rewrite M in E.
    + right. split; [done|left]. by intros [= ->].
  - intros no P. unfold get_rescue, guarded. rewrite P. destruct (rescue_shown s no W) as [(v & t & m & -> & M & N)|[-> N]]; [left; split; [done|eauto]|by right].
  - intros no P. unfold get_order, guarded. rewrite P. destruct (order_shown s now no W) as [(v & t & m & -> & M & N)|[-> N]]; [left; split; [done|eauto]|by right].
  - intros P. unfold get_orders, guarded. rewrite P. destruct (orders_shown s now W) as (l & -> & L). by exists l.
Qed.

(** ** Witness *)
Definition ex_supervisor : Security.AuthenticatedPrincipal :=
  {| Security.subject_id := "S"; Security.roles := [Security.SUPERVISOR]; Security.permissions := [Security.DISPATCH_REVIEW; Security.ANOMALIES_REPORT] |}.
Definition ex_map_rows : map_rows := {| mr_nodes := nodes ex_network; mr_edges := edges ex_network; mr_columns := ∅ |}.
Lemma vehicle_reads_never_fail_witness : exists s, wf s /\ fst (get_map_snapshot ex_map_rows ex_supervisor 0 s "TASK-4fa") = 200 /\
  fst (get_map_snapshot ex_map_rows ex_supervisor 0 s "other") = 404 /\ get_map_snapshot ex_map_rows ex_supervisor 0 s "" = (422, None).
Proof.
  exists (ex_opened true). pose proof (ex_opened_wf true) as W. destruct (vehicle_reads_never_fail ex_map_rows ex_supervisor 0 (ex_opened true) W) as (H & H' & _).
  split; [exact W|]. split; [rewrite H by reflexivity; vm_compute; reflexivity|]. split; [rewrite H by reflexivity; vm_compute; reflexivity|].
  apply (H' None ""%string); reflexivity.
Defined.
