(* ===== verification/HttpGuards.v ===== *)
(** * HttpGuards: what every HTTP request and response passes

    Models the middlewares of [app/security/http.py] (body limit, security
    headers), [app/observability/correlation.py] with [context.py], and their order
    in [app/main.py].  CORS, which answers a preflight itself, and metrics are left
    out.  An exception of the routes is answered by the framework outside of these
    middlewares, so it is no message here.

    An application is a function of the scope and of the messages it receives -
    the n-th call of [receive], [None] when it waits - to what it sends; [None]
    means that it is still waiting.  A client is the list of the messages it
    sends.  Texts are bytes; a path pattern has no wildcards but the star, as in
    [main.py].  The URL parser and the fresh correlation id are arguments. *)

From S2P Require Import Prelude Texts DecimalText.

Local Open Scope Z_scope.
Local Open Scope list_scope.

(** ** ASGI *)
Record scope := { scope_type : string; method : option string; path : string; scheme : option string; headers : list (string * string) }.
Inductive received := HttpRequest (body : string) (more_body : bool) | HttpDisconnect | OtherMessage.
Inductive sent :=
| ResponseStart (status : Z) (response_headers : list (string * string))
| ResponseBody (body : string)
| OtherSent.
Definition receive := nat -> option received.
Definition app := scope -> receive -> option (list sent).
Definition client (l : list received) : receive := fun n => l !! n.

(** A dictionary of the headers: the last of equal names counts. *)
Definition header (name : string) (hs : list (string * string)) : option string :=
  snd <$> List.find (fun h => String.eqb (lower h.1) name) (rev hs).

(** ** [JsonBodyLimitMiddleware] *)
Definition ascii_space (c : Ascii.ascii) : bool := let n := Ascii.nat_of_ascii c in (Nat.leb 9 n && Nat.leb n 13) || Nat.eqb n 32.
Fixpoint drop_spaces (l : list Ascii.ascii) : list Ascii.ascii :=
  match l with c :: l' => if ascii_space c then drop_spaces l' else l | [] => [] end.
(** [int(bytes)]: single underscores between the digits, at most 4300 of them. *)
Fixpoint int_digits (acc : Z) (after_digit : bool) (count : nat) (l : list Ascii.ascii) : option (Z * nat) :=
  match l with
  | [] => if after_digit then Some (acc, count) else None
  | c :: l' => match digit_value c with
               | Some d => int_digits (10 * acc + d) true (S count) l'
               | None => if is_char 95 c && after_digit then int_digits acc false count l' else None
               end
  end.
Definition int_of_bytes (s : string) : option Z :=
  let l := rev (drop_spaces (rev (drop_spaces (chars s)))) in
  let (neg, l) := read_sign l in
  match int_digits 0 false 0 l with Some (n, k) => if Nat.leb k 4300 then Some (if neg then - n else n) else None | None => None end.

(** [fnmatch.fnmatchcase]. *)
Fixpoint glob (p : list Ascii.ascii) : list Ascii.ascii -> bool :=
  match p with
  | [] => fun s => match s with [] => true | _ => false end
  | c :: p' =>
      if is_char 42 c
      then fix skip (s : list Ascii.ascii) : bool := glob p' s || match s with [] => false | _ :: s' => skip s' end
      else fun s => match s with x :: s' => Ascii.eqb x c && glob p' s' | [] => false end
  end.
Definition route_limits := list ((string * string) * Z).
Definition limit_of (default_limit : Z) (rules : route_limits) (m p : string) : Z :=
  match List.find (fun r => String.eqb m r.1.1 && glob (chars r.1.2) (chars p)) rules with Some r => r.2 | None => default_limit end.

(** The message of the refusal, with its quotes. *)
Definition quoted (s : string) : string := let q := bytes_of [34%nat] in q +:+ s +:+ q.
Definition reject_body : string :=
  "{" +:+ quoted "code" +:+ ":" +:+ quoted "PAYLOAD_TOO_LARGE" +:+ "," +:+ quoted "message" +:+ ":" +:+ quoted "The request payload is too large." +:+ "}".
Definition body_length (s : string) : Z := Z.of_nat (String.length s).
Definition reject : list sent :=
  [ResponseStart 413 [("content-type", "application/json"); ("content-length", z_str (body_length reject_body))]%string; ResponseBody reject_body].

Inductive reading := Whole (body : string) | TooLarge | Gone | Waiting.
Fixpoint read_body (limit : Z) (l : list received) (body : string) : reading :=
  match l with
  | [] => Waiting
  | HttpDisconnect :: _ => Gone
  | OtherMessage :: l' => read_body limit l' body
  | HttpRequest b more :: l' =>
      let body' := body +:+ b in
      if limit <? body_length body' then TooLarge else if more then read_body limit l' body' else Whole body'
  end.
Definition replay (body : string) : receive := fun n => Some (HttpRequest (match n with O => body | _ => ""%string end) false).

Definition limits_body (s : scope) : bool :=
  String.eqb (scope_type s) "http" && match method s with Some m => one_of m ["POST"; "PUT"; "PATCH"]%string | None => false end &&
  contains "json" (lower (default ""%string (header "content-type" (headers s)))).
Definition declared_too_large (limit : Z) (s : scope) : bool :=
  match header "content-length" (headers s) with
  | Some raw => match int_of_bytes raw with Some n => limit <? n | None => false end
  | None => false
  end.
Definition body_limit_middleware (default_limit : Z) (rules : route_limits) (inner : app) (s : scope) (l : list received) : option (list sent) :=
  if negb (limits_body s) then inner s (client l) else
  let limit := limit_of default_limit rules (default ""%string (method s)) (path s) in
  if declared_too_large limit s then Some reject else
  match read_body limit l ""%string with
  | Whole body => inner s (replay body)
  | TooLarge => Some reject
  | Gone => Some []
  | Waiting => None
  end.
(** The constructor. *)
Definition limits_ok (default_limit : Z) (rules : route_limits) : bool := (0 <? default_limit) && forallb (fun r => 0 <? r.2) rules.

(** ** [SecurityHeadersMiddleware] *)
Definition set_headers (values hs : list (string * string)) : list (string * string) :=
  List.filter (fun h => negb (one_of (lower h.1) (map fst values))) hs ++ values.
Section headers.
Context (urlsplit : string -> string * string) (profile : string) (hsts_enabled : bool) (oidc_issuer : string).

Definition local_sources : list string :=
  ["http://localhost:5173"; "http://127.0.0.1:5173"; "http://localhost:8001"; "ws://localhost:5173"; "ws://127.0.0.1:5173"; "ws://localhost:8001"]%string.
Definition connect_sources : list string :=
  "'self'"%string ::
  (if negb (String.eqb profile "production") then local_sources
   else if String.eqb oidc_issuer "" then []
   else let (sch, netloc) := urlsplit oidc_issuer in
        if String.eqb sch "https" && negb (String.eqb netloc "") then [("https://" +:+ netloc)%string] else []).
Definition content_security_policy : string :=
  join "; " ["default-src 'self'"; "base-uri 'self'"; "object-src 'none'"; "frame-ancestors 'none'"; "form-action 'self'"; "img-src 'self' data:";
             "font-src 'self' data:"; "style-src 'self' 'unsafe-inline'"; "script-src 'self'"; "connect-src " +:+ join " " connect_sources]%string.
Definition security_headers (s : scope) : list (string * string) :=
  [("x-content-type-options", "nosniff"); ("referrer-policy", "strict-origin-when-cross-origin");
   ("permissions-policy", "camera=(), microphone=(), geolocation=(), payment=(), usb=()"); ("content-security-policy", content_security_policy)]%string ++
  (if String.eqb profile "production" && hsts_enabled && bool_decide (scheme s = Some "https"%string)
   then [("strict-transport-security", "max-age=31536000; includeSubDomains")]%string else []).
Definition add_headers (s : scope) (m : sent) : sent :=
  match m with
  | ResponseStart st hs => ResponseStart st (set_headers (security_headers s) hs)
  | _ => m
  end.
Definition security_headers_middleware (inner : scope -> list received -> option (list sent)) (s : scope) (l : list received) : option (list sent) :=
  if String.eqb (scope_type s) "http" then map (add_headers s) <$> inner s l else inner s l.
End headers.

(** ** [CorrelationMiddleware] *)
Definition correlation_char (c : Ascii.ascii) : bool :=
  let n := Ascii.nat_of_ascii c in
  (Nat.leb 48 n && Nat.leb n 57) || (Nat.leb 65 n && Nat.leb n 90) || (Nat.leb 97 n && Nat.leb n 122) || Nat.eqb n 46 || Nat.eqb n 95 || Nat.eqb n 45.
Definition correlation_ok (v : string) : bool := forallb correlation_char (chars v) && Nat.leb 1 (String.length v) && Nat.leb (String.length v) 64.
Definition normalize_correlation_id (fresh : string) (v : option string) : string :=
  match v with Some x => if correlation_ok x then x else fresh | None => fresh end.
(** [decode("ascii", errors="ignore")]; an empty header counts as none. *)
Definition ascii_only (s : string) : string := String.string_of_list_ascii (List.filter (fun c => Nat.ltb (Ascii.nat_of_ascii c) 128) (chars s)).
Definition correlation_of (fresh : string) (s : scope) : string :=
  normalize_correlation_id fresh (match header "x-request-id" (headers s) with Some raw => if String.eqb raw "" then None else Some (ascii_only raw) | None => None end).
Definition add_correlation (id : string) (m : sent) : sent :=
  match m with ResponseStart st hs => ResponseStart st (hs ++ [("x-request-id"%string, id)]) | _ => m end.
(** [inner] is given the correlation id that is bound while it runs. *)
Definition correlation_middleware (fresh : string) (inner : option string -> app) (s : scope) (r : receive) : option (list sent) :=
  if String.eqb (scope_type s) "http" then let id := correlation_of fresh s in map (add_correlation id) <$> inner (Some id) s r else inner None s r.

(** ** The stack of [create_app]: the middleware added last is the outermost *)
Record http_settings := {
  hs_profile : string; hs_hsts_enabled : bool; hs_issuer : string; hs_default : Z; hs_dispatch : Z; hs_override : Z; hs_mutation : Z; hs_ticket : Z;
}.
Definition app_route_limits (c : http_settings) : route_limits :=
  [(("POST", "/api/v1/dispatch-tasks"), hs_dispatch c); (("POST", "/api/v1/anomaly-reports"), hs_dispatch c);
   (("POST", "/api/v1/runtime/threads/*/overrides"), hs_override c); (("POST", "/api/v1/memory/mutations"), hs_mutation c);
   (("POST", "/api/v1/ws-tickets"), hs_ticket c)]%string.
Definition serve (urlsplit : string -> string * string) (c : http_settings) (fresh : string) (routes : option string -> app) (s : scope) (l : list received) : option (list sent) :=
  security_headers_middleware urlsplit (hs_profile c) (hs_hsts_enabled c) (hs_issuer c)
    (body_limit_middleware (hs_default c) (app_route_limits c) (correlation_middleware fresh routes)) s l.

(** ** The body a client sends *)
Fixpoint whole_body (l : list received) : option string :=
  match l with
  | [] | HttpDisconnect :: _ => None
  | OtherMessage :: l' => whole_body l'
  | HttpRequest b more :: l' => if more then String.append b <$> whole_body l' else Some b
  end.

Lemma body_length_app a b : body_length (a +:+ b) = body_length a + body_length b.
Proof. unfold body_length. rewrite append_length. lia. Qed.
Lemma read_whole limit l body b : whole_body l = Some b ->
  read_body limit l body = if limit <? body_length (body +:+ b) then TooLarge else Whole (body +:+ b).
Proof.
  revert body b. induction l as [|m l IH]; intros body b; [done|]. destruct m as [x more| |]; cbn [whole_body read_body]; [|done|apply IH].
  destruct more; [|by intros [= ->]]. destruct (whole_body l) as [y|] eqn:W; [|done]. intros [= <-]. rewrite (IH _ y eq_refl). rewrite <- append_assoc.
  destruct (Z.ltb_spec limit (body_length (body +:+ x))) as [L|L]; [|done]. rewrite body_length_app.
  assert (0 <= body_length y) by (unfold body_length; lia). destruct (Z.ltb_spec limit (body_length (body +:+ x) + body_length y)); [done|lia].
Qed.
Lemma read_partial limit l body b : whole_body l = None -> read_body limit l body <> Whole b.
Proof.
  revert body. induction l as [|m l IH]; intros body; [done|]. destruct m as [x more| |]; cbn [whole_body read_body]; [|done|apply IH].
  destruct more; [|done]. destruct (whole_body l) as [y|] eqn:W; [done|]. intros _. destruct (_ <? _); [done|]. by apply IH.
Qed.

(** *** The limit of a route *)

(** A path fits a pattern, in which a star stands for any text. *)
Inductive fits : list Ascii.ascii -> list Ascii.ascii -> Prop :=
| fits_end : fits [] []
| fits_char c p s : is_char 42 c = false -> fits p s -> fits (c :: p) (c :: s)
| fits_star c p t s : is_char 42 c = true -> fits p s -> fits (c :: p) (t ++ s).
Lemma glob_fits p s : glob p s = true <-> fits p s.
Proof.
  split.
  - revert s. induction p as [|c p IH]; intros s; [destruct s; [constructor|done]|]. cbn [glob]. destruct (is_char 42 c) eqn:S.
    + induction s as [|x s IHs]; intros H.
      * apply orb_true_iff in H as [H|H]; [|done]. by apply (fits_star c p [] []); [|apply IH].
      * apply orb_true_iff in H as [H|H]; [by apply (fits_star c p [] (x :: s)); [|apply IH]|].
        specialize (IHs H). inversion IHs as [|? ? ? N|? ? t s' _ F]; subst; [congruence|]. by apply (fits_star c p (x :: t) s').
    + destruct s as [|x s]; [done|]. intros [->%Ascii.eqb_eq H]%andb_true_iff. by constructor; [|apply IH].
  - induction 1 as [|c p s S F IH|c p t s S F IH]; [done| |]; cbn [glob]; rewrite S; [by rewrite Ascii.eqb_refl, IH|].
    induction t as [|x t IHt]; [destruct s; cbn; by rewrite IH|]. cbn in IHt |- *. by rewrite IHt, orb_true_r.
Qed.
Definition rule_fits (m p : string) (r : (string * string) * Z) : Prop := r.1.1 = m /\ fits (chars r.1.2) (chars p).
(** The limit for a route: that of the first rule that fits it, or the default. *)
Definition governs (default_limit : Z) (rules : route_limits) (m p : string) (limit : Z) : Prop :=
  (exists before r after, rules = before ++ r :: after /\ rule_fits m p r /\ r.2 = limit /\ forall x, x ∈ before -> ~ rule_fits m p x) \/
  (limit = default_limit /\ forall x, x ∈ rules -> ~ rule_fits m p x).
Lemma limit_of_governs default_limit rules m p : governs default_limit rules m p (limit_of default_limit rules m p).
Proof.
  unfold limit_of. assert (K : forall r, (String.eqb m r.1.1 && glob (chars r.1.2) (chars p) = true) <-> rule_fits m p r).
  { intros r. unfold rule_fits. rewrite andb_true_iff, String.eqb_eq, glob_fits. naive_solver. }
  induction rules as [|r rules IH]; [right; split; [done|by intros x ?%elem_of_nil]|]. cbn [List.find].
  destruct (String.eqb m r.1.1 && glob (chars r.1.2) (chars p)) eqn:E.
  - left. exists [], r, rules. split_and!; [done|by apply K|done|by intros x ?%elem_of_nil].
  - assert (N : ~ rule_fits m p r) by (intros H%K; congruence).
    destruct IH as [(b & x & a & -> & F & L & B)|[L B]]; [left; exists (r :: b), x, a; split_and!; [done..|]|right; split; [done|]]; (intros y [->|Y]%elem_of_cons; [done|by apply B]).
Qed.

(** C38: The body limit is exact, however the body is cut into messages.  The
    limit is that of the first rule that fits method and path, or the default.
    When a request with a JSON body has arrived whole and announces no more than the
    limit, then the application is run if the body is within the limit - its first
    receive is the whole body, with nothing to follow, and every later one is empty -
    and is not run and the request is refused with 413 if the body is longer.  A
    request that breaks off, or announces too much, never reaches the application.
    Any other request reaches it as it is. *)
Theorem body_limit_is_exact default_limit rules inner s l : exists limit, governs default_limit rules (default ""%string (method s)) (path s) limit /\
  (limits_body s = true -> declared_too_large limit s = false -> forall body, whole_body l = Some body ->
     (body_length body <= limit -> exists r, body_limit_middleware default_limit rules inner s l = inner s r /\
        r O = Some (HttpRequest body false) /\ forall n, r (S n) = Some (HttpRequest "" false)) /\
     (limit < body_length body -> body_limit_middleware default_limit rules inner s l = Some reject)) /\
  (limits_body s = true -> declared_too_large limit s = true \/ whole_body l = None ->
     body_limit_middleware default_limit rules inner s l ∈ [Some reject; Some []; None]) /\
  (limits_body s = false -> body_limit_middleware default_limit rules inner s l = inner s (client l)).
Proof.
  exists (limit_of default_limit rules (default ""%string (method s)) (path s)). split; [apply limit_of_governs|].
  set (limit := limit_of _ _ _ _). unfold body_limit_middleware. fold limit. split_and!.
  - intros -> -> body W. cbn [negb]. rewrite (read_whole limit l "" body W). change (""%string +:+ body) with body.
    split; intros L; destruct (Z.ltb_spec limit (body_length body)); try lia; [|done]. by exists (replay body).
  - intros -> [->|W]; [constructor|]. destruct (declared_too_large limit s); [constructor|]. cbn [negb].
    destruct (read_body limit l "") as [b| | |] eqn:R; [by apply read_partial in R|constructor|do 2 constructor|do 3 constructor].
  - by intros ->.
Qed.

Lemma filter_unique (values : list (string * string)) k v : (forall x, x ∈ values -> lower x.1 = x.1) -> NoDup (map fst values) -> (k, v) ∈ values ->
  List.filter (fun h => String.eqb (lower h.1) k) values = [(k, v)].
Proof.
  induction values as [|[k1 v1] values IH]; intros L N K; [by apply elem_of_nil in K|]. cbn [map fst] in N. apply NoDup_cons in N as [N1 N2].
  pose proof (L (k1, v1) (list_elem_of_here _ _)) as L1. cbn [fst] in L1. cbn [List.filter fst]. rewrite L1. apply elem_of_cons in K as [[= <- <-]|K].
  - rewrite String.eqb_refl. f_equal. clear IH L1. induction values as [|[k2 v2] values IH]; [done|]. pose proof (L (k2, v2) (list_elem_of_further _ _ _ (list_elem_of_here _ _))) as L2. cbn [fst] in L2. cbn [List.filter fst]. rewrite L2.
    cbn [map fst] in N1. apply not_elem_of_cons in N1 as [N1 N3]. apply NoDup_cons in N2 as [_ N2]. destruct (String.eqb_spec k2 k) as [->|_]; [done|].
    apply IH; [exact N3| |exact N2]. intros x [->|X]%elem_of_cons; apply L; [constructor|by do 2 constructor].
  - destruct (String.eqb_spec k1 k) as [->|_]; [|apply IH; [intros x X; apply L; by constructor|done|done]].
    destruct N1. by apply (list_elem_of_fmap_2 fst) in K.
Qed.
Lemma headers_set_once (values hs : list (string * string)) k v : (forall x, x ∈ values -> lower x.1 = x.1) -> NoDup (map fst values) -> (k, v) ∈ values ->
  List.filter (fun h => String.eqb (lower h.1) k) (set_headers values hs) = [(k, v)].
Proof.
  intros L N K. unfold set_headers. rewrite List.filter_app, (filter_unique values k v L N K). replace (List.filter _ (List.filter _ hs)) with (@nil (string * string)); [done|].
  induction hs as [|h hs IH]; [done|]. cbn [List.filter]. destruct (one_of (lower h.1) (map fst values)) eqn:O; cbn [negb]; [done|]. cbn [List.filter].
  destruct (String.eqb_spec (lower h.1) k) as [E|_]; [|done]. apply one_of_false in O. destruct O. rewrite E. by apply (list_elem_of_fmap_2 fst) in K.
Qed.
Lemma security_header_names urlsplit profile hsts issuer s (values := security_headers urlsplit profile hsts issuer s) :
  (forall x, x ∈ values -> lower x.1 = x.1) /\ NoDup (map fst values).
Proof.
  subst values. unfold security_headers. set (csp := content_security_policy _ _ _). clearbody csp. destruct (_ && _ && _); cbn [app map fst].
  - split; [|apply (bool_decide_unpack _); vm_compute; done]. intros x X. repeat (apply elem_of_cons in X as [->|X]; [vm_compute; done|]). by apply elem_of_nil in X.
  - split; [|apply (bool_decide_unpack _); vm_compute; done]. intros x X. repeat (apply elem_of_cons in X as [->|X]; [vm_compute; done|]). by apply elem_of_nil in X.
Qed.

(** Every response that is sent through the middlewares to an HTTP request,
    a refusal included, carries each security header once, with the value of the
    server, whatever headers the routes set. *)
Theorem responses_carry_security_headers urlsplit c fresh routes s l out st hs :
  scope_type s = "http"%string -> serve urlsplit c fresh routes s l = Some out -> ResponseStart st hs ∈ out ->
  forall k v, (k, v) ∈ security_headers urlsplit (hs_profile c) (hs_hsts_enabled c) (hs_issuer c) s ->
    List.filter (fun h => String.eqb (lower h.1) k) hs = [(k, v)].
Proof.
  unfold serve, security_headers_middleware. intros -> E I k v K. cbn [String.eqb] in E.
  destruct (body_limit_middleware _ _ _ _ _) as [l0|]; [|done]. injection E as <-. apply list_elem_of_fmap in I as (m & E & _).
  destruct m as [st0 hs0| |]; [|done|done]. unfold add_headers in E. injection E as _ ->. apply headers_set_once; [apply security_header_names..|done].
Qed.

(** ** Witnesses *)
Definition ex_scope : scope :=
  {| scope_type := "http"; method := Some "POST"%string; path := "/api/v1/runtime/threads/t1/overrides"; scheme := Some "https"%string;
     headers := [("Content-Type", "application/json"); ("X-Request-ID", "req-1")]%string |}.
Definition ex_settings : http_settings :=
  {| hs_profile := "production"; hs_hsts_enabled := true; hs_issuer := ""; hs_default := 64; hs_dispatch := 16; hs_override := 8; hs_mutation := 32; hs_ticket := 4 |}.
Definition ex_routes (id : option string) : app := fun s r =>
  match r O with Some (HttpRequest b _) => Some [ResponseStart 200 [("x-content-type-options", "other")]%string; ResponseBody b] | _ => None end.
Definition ex_messages : list received := [HttpRequest "[1," true; OtherMessage; HttpRequest " 2]" false].
(** An application that tells its first three receives. *)
Definition ex_told (r : receive) : list sent :=
  flat_map (fun n => match r n with Some (HttpRequest b more) => [ResponseBody b; ResponseBody (if more then "more" else "end")%string] | _ => [] end) [0; 1; 2]%nat.
Lemma body_limit_is_exact_witness :
  (exists limit, governs 64 (app_route_limits ex_settings) "POST" (path ex_scope) limit /\ (6 <= limit <= 8 ->
     body_limit_middleware 64 (app_route_limits ex_settings) (fun _ r => Some (ex_told r)) ex_scope ex_messages = Some (map ResponseBody ["[1, 2]"; "end"; ""; "end"; ""; "end"]%string))) /\
  (exists limit, governs 64 (app_route_limits ex_settings) "POST" (path ex_scope) limit /\ (declared_too_large limit ex_scope = false -> limit < 9 ->
     body_limit_middleware 64 (app_route_limits ex_settings) (ex_routes None) ex_scope (HttpRequest "   " true :: ex_messages) = Some reject)) /\
  limit_of 64 (app_route_limits ex_settings) "POST" (path ex_scope) = 8.
Proof.
  split; [|split; [|reflexivity]].
  - destruct (body_limit_is_exact 64 (app_route_limits ex_settings) (fun _ r => Some (ex_told r)) ex_scope ex_messages) as (limit & G & H & _). exists limit. split; [exact G|].
    intros L. destruct (H eq_refl eq_refl "[1, 2]"%string eq_refl) as [W _]. destruct W as (r & -> & R0 & RS); [vm_compute; exact (proj1 L)|]. unfold ex_told. cbn [flat_map app]. rewrite R0, !RS. reflexivity.
  - destruct (body_limit_is_exact 64 (app_route_limits ex_settings) (ex_routes None) ex_scope (HttpRequest "   " true :: ex_messages)) as (limit & G & H & _). exists limit. split; [exact G|].
    intros D L. exact (proj2 (H eq_refl D "   [1, 2]"%string eq_refl) L).
Defined.
Definition ex_answer : option (list sent) := serve (fun _ => (""%string, ""%string)) ex_settings "f" ex_routes ex_scope ex_messages.
Lemma responses_carry_security_headers_witness : exists hs, ResponseStart 200 hs ∈ default [] ex_answer /\
  List.filter (fun h => String.eqb (lower h.1) "x-content-type-options") hs = [("x-content-type-options", "nosniff")]%string.
Proof.
  destruct ex_answer as [[|[st hs| |] l]|] eqn:E; [vm_compute in E; discriminate E| |vm_compute in E; discriminate E..].
  assert (S : st = 200) by (vm_compute in E; congruence). exists hs. cbn [default]. subst st. split; [constructor|].
  apply (responses_carry_security_headers (fun _ => (""%string, ""%string)) ex_settings "f" ex_routes ex_scope ex_messages (ResponseStart 200 hs :: l) 200 hs); [reflexivity|exact E|constructor|constructor].
Defined.
