(* ===== verification/Settings.v ===== *)
(** * Settings: what the configuration may be

    Models the validation of [app/core/config.py], [policies_from_settings] of
    [app/security/rate_limit.py], and what [create_app] builds of the settings of
    HttpGuards and RateLimit.  Pydantic reads the fields, with their types, literals
    and defaults, and checks that the dimension of the embedding is positive.  A
    float is a finite double, as in Capacity. *)

From S2P Require Import Prelude Texts Decimal Capacity.
From S2P Require HttpGuards RateLimit.

Local Open Scope Z_scope.
Local Open Scope list_scope.

Record Settings := {
  app_env : string; app_name : string; runtime_profile : string; authentication_provider : string; auth_issuer : string; auth_audience : string;
  auth_jwks_url : string; auth_algorithms : string; auth_clock_skew_seconds : Z; auth_access_token_ttl_seconds : Z; auth_revocation_namespace : string;
  development_jwt_secret : string; security_audit_retention_days : Z; rate_limit_namespace : string; rate_limit_dispatch_submit_capacity : Z;
  rate_limit_dispatch_submit_refill_per_minute : Z; rate_limit_runtime_override_capacity : Z; rate_limit_runtime_override_refill_per_minute : Z;
  rate_limit_memory_mutation_capacity : Z; rate_limit_memory_mutation_refill_per_minute : Z; rate_limit_observability_read_capacity : Z;
  rate_limit_observability_read_refill_per_minute : Z; rate_limit_ws_ticket_capacity : Z; rate_limit_ws_ticket_refill_per_minute : Z;
  rate_limit_authentication_invalid_capacity : Z; rate_limit_authentication_invalid_refill_per_minute : Z; rate_limit_emergency_read_capacity : Z;
  rate_limit_emergency_read_window_seconds : Z; ws_ticket_namespace : string; ws_ticket_ttl_seconds : Z; security_hsts_enabled : bool;
  request_body_default_max_bytes : Z; request_body_dispatch_max_bytes : Z; request_body_runtime_override_max_bytes : Z;
  request_body_memory_mutation_max_bytes : Z; request_body_ws_ticket_max_bytes : Z; cors_allowed_origins : string; database_url : string;
  redis_url : string; runtime_checkpoint_backend : string; runtime_checkpoint_namespace : string; runtime_checkpoint_retention_minutes : Z;
  runtime_checkpoint_refresh_on_read : bool; runtime_checkpoint_max_bytes : Z; runtime_checkpoint_reconciliation_scan_limit : Z;
  runtime_checkpoint_interrupt_after : string; runtime_thread_api_enabled : bool; runtime_thread_history_limit : Z;
  runtime_thread_history_max_limit : Z; runtime_override_api_enabled : bool; runtime_override_timeout_seconds : Q; runtime_override_lock_ttl_ms : Z;
  redis_stream_name : string; redis_consumer_group : string; redis_consumer_name : string; worker_consumer_name : string; worker_read_count : Z;
  worker_block_ms : Z; worker_pending_min_idle_ms : Z; worker_recovery_count : Z; worker_max_delivery_attempts : Z; worker_retry_base_delay_ms : Z;
  worker_retry_max_delay_ms : Z; worker_idempotency_lock_ttl_ms : Z; redis_dlq_stream_name : string; task_event_broker : string;
  task_event_stream_prefix : string; task_event_history_maxlen : Z; task_event_block_ms : Z; qdrant_url : string; llm_provider : string;
  llm_base_url : string; llm_api_key : string; llm_model : string; embedding_provider : string; embedding_base_url : string;
  embedding_api_key : string; embedding_model : string; embedding_dimension : Z; environment_provider : string; capacity_provider : string;
  routing_provider : string; amap_web_service_key : string; amap_route_api_base_url : string; amap_route_timeout_seconds : Q;
  amap_route_cb_failure_threshold : Z; amap_route_cb_recovery_seconds : Q; database_backend : string; redis_backend : string; qdrant_backend : string;
  graph_memory_backend : string; neo4j_uri : string; neo4j_user : string; neo4j_password : string; neo4j_database : string;
  neo4j_query_timeout_seconds : Q; graph_memory_max_hops : Z; graph_memory_result_limit : Z; environment_api_base_url : string;
  environment_api_timeout_seconds : Q; environment_cb_failure_threshold : Z; environment_cb_recovery_seconds : Q; capacity_limited_threshold : Q;
  capacity_unavailable_threshold : Q; memory_adoption_threshold : Q; memory_auto_apply_min_confidence : Q; memory_lower_confidence_reject_delta : Q;
  memory_mutation_timeout_seconds : Q; memory_mutation_lock_ttl_ms : Z; memory_mutation_api_enabled : bool; metrics_enabled : bool;
  metrics_host : string; metrics_port : Z; backend_processes : Z; prometheus_multiproc_dir : string; observability_api_enabled : bool;
  prometheus_url : string; grafana_public_url : string; observability_sample_interval_seconds : Q; observability_probe_timeout_seconds : Q;
}.

Definition WORKER_RECOVERY_SLA_MS : Z := 5000.
Definition ValueError (m : string) : exn := Exn "ValueError" m.
Definition blank (s : string) : bool := String.eqb (strip s) "".
Definition empty (s : string) : bool := String.eqb s "".

(** [text.split(",")]. *)
Fixpoint split_commas (l : list Ascii.ascii) : list (list Ascii.ascii) :=
  match l with
  | [] => [[]]
  | c :: l' =>
      match split_commas l' with
      | w :: ws => if Nat.eqb (Ascii.nat_of_ascii c) 44 then [] :: w :: ws else (c :: w) :: ws
      | [] => [[c]]
      end
  end.
Definition listed (s : string) : list string :=
  List.filter (fun x => negb (empty x)) (map (fun w => strip (String.string_of_list_ascii w)) (split_commas (String.list_ascii_of_string s))).

Section validation.
Context (c : Settings).

Definition cors_allowed_origins_list : list string := listed (cors_allowed_origins c).
Definition worker_recovery_budget_ms : Z := worker_pending_min_idle_ms c + worker_block_ms c + worker_retry_base_delay_ms c * 2.

(** A check is what it forbids, and the message. *)
Definition check := (bool * string)%type.
Fixpoint run_checks (l : list check) : result unit :=
  match l with [] => Ok tt | (violated, m) :: l' => if violated then Err (ValueError m) else run_checks l' end.

Definition mismatches : list string :=
  map (fun x => (x.1.1 +:+ "=" +:+ x.1.2)%string) (List.filter (fun x => negb (String.eqb x.1.2 x.2))
    [(("embedding_provider", embedding_provider c), "fake"); (("capacity_provider", capacity_provider c), "in-memory");
     (("routing_provider", routing_provider c), "in-memory"); (("database_backend", database_backend c), "mysql");
     (("redis_backend", redis_backend c), "server"); (("qdrant_backend", qdrant_backend c), "server");
     (("graph_memory_backend", graph_memory_backend c), "neo4j")]%string).
Definition docker_checks : list check :=
  [(match mismatches with [] => false | _ => true end, "docker-dev runtime configuration mismatch: "%string +:+ join ", "%string mismatches);
   (negb (one_of (environment_provider c) ["docker-development"%string; "http"%string]), "docker-dev runtime configuration mismatch: environment_provider="%string +:+ environment_provider c);
   (String.eqb (environment_provider c) "http"%string && empty (environment_api_base_url c), "docker-dev HTTP environment provider requires environment_api_base_url"%string);
   (worker_pending_min_idle_ms c <=? worker_idempotency_lock_ttl_ms c, "docker-dev worker_pending_min_idle_ms must exceed worker_idempotency_lock_ttl_ms"%string);
   (WORKER_RECOVERY_SLA_MS <=? worker_recovery_budget_ms, "docker-dev configured worker recovery budget must be below 5000ms"%string);
   (negb (String.eqb (authentication_provider c) "development_jwt"%string), "docker-dev requires authentication_provider=development_jwt"%string);
   (py_len (development_jwt_secret c) <? 32, "docker-dev development JWT secret must be at least 32 characters"%string)].

Definition unsafe : list string :=
  let when (b : bool) (m : string) := if b then [m] else [] in
  let algorithms := listed (auth_algorithms c) in
  (if String.eqb (authentication_provider c) "development_jwt" then ["development authentication is forbidden"]
   else when (negb (String.eqb (authentication_provider c) "oidc_jwt")) "production authentication provider must be oidc_jwt") ++
  when (blank (auth_issuer c)) "authentication issuer is required" ++
  when (blank (auth_audience c)) "authentication audience is required" ++
  when (blank (auth_jwks_url c)) "authentication JWKS URL is required" ++
  when (match algorithms with [] => true | _ => false end || negb (forallb (fun a => one_of a ["RS256"; "ES256"]) algorithms))
    "production authentication requires an asymmetric algorithm allowlist" ++
  when (one_of "*" cors_allowed_origins_list) "production wildcard CORS origin is forbidden" ++
  when (existsb (fun o => negb (String.prefix "https://" o)) cors_allowed_origins_list) "production requires HTTPS CORS origins" ++
  when (negb (empty (runtime_checkpoint_interrupt_after c)) &&
        negb (runtime_override_api_enabled c && String.eqb (runtime_checkpoint_interrupt_after c) "environment")) "checkpoint interrupt injection" ++
  when (String.eqb (embedding_provider c) "fake") "embedding_provider=fake" ++
  when (negb (String.eqb (environment_provider c) "http")) ("environment_provider=" +:+ environment_provider c) ++
  when (negb (String.eqb (capacity_provider c) "real")) ("capacity_provider=" +:+ capacity_provider c) ++
  when (negb (String.eqb (routing_provider c) "real")) ("routing_provider=" +:+ routing_provider c) ++
  when (negb (String.eqb (database_backend c) "mysql")) ("database_backend=" +:+ database_backend c) ++
  when (negb (String.eqb (redis_backend c) "server")) ("redis_backend=" +:+ redis_backend c) ++
  when (negb (String.eqb (qdrant_backend c) "server")) ("qdrant_backend=" +:+ qdrant_backend c) ++
  when (negb (String.eqb (graph_memory_backend c) "neo4j")) ("graph_memory_backend=" +:+ graph_memory_backend c).
Definition production_checks : list check :=
  [(match unsafe with [] => false | _ => true end, "production runtime rejects development or fake providers: " +:+ join ", " unsafe)]%string.

Definition rate_limit_values : list Z :=
  [rate_limit_dispatch_submit_capacity c; rate_limit_dispatch_submit_refill_per_minute c; rate_limit_runtime_override_capacity c;
   rate_limit_runtime_override_refill_per_minute c; rate_limit_memory_mutation_capacity c; rate_limit_memory_mutation_refill_per_minute c;
   rate_limit_observability_read_capacity c; rate_limit_observability_read_refill_per_minute c; rate_limit_ws_ticket_capacity c;
   rate_limit_ws_ticket_refill_per_minute c; rate_limit_authentication_invalid_capacity c; rate_limit_authentication_invalid_refill_per_minute c;
   rate_limit_emergency_read_capacity c; rate_limit_emergency_read_window_seconds c].
Definition body_limits : list Z :=
  [request_body_dispatch_max_bytes c; request_body_runtime_override_max_bytes c; request_body_memory_mutation_max_bytes c; request_body_ws_ticket_max_bytes c].
(** [int(seconds * 1000)]: the product of floats is rounded, then cut. *)
Definition milliseconds (q : Q) : Z := let x := float_of (q * 1000) in Z.quot (Qnum x) (Zpos (Qden x)).
Definition outside (lo x hi : Q) : bool := negb (Qle_bool lo x && Qle_bool x hi).

Definition general_checks : list check :=
  [(String.eqb (graph_memory_backend c) "neo4j"%string && existsb empty [neo4j_uri c; neo4j_user c; neo4j_password c; neo4j_database c],
    "Neo4j connection settings are required when graph_memory_backend=neo4j"%string);
   ((auth_clock_skew_seconds c <? 0) || (120 <? auth_clock_skew_seconds c), "authentication clock skew must be between 0 and 120 seconds"%string);
   ((auth_access_token_ttl_seconds c <=? 0) || (900 <? auth_access_token_ttl_seconds c), "authentication access token TTL must be between 1 and 900 seconds"%string);
   (blank (auth_revocation_namespace c), "authentication revocation namespace must not be empty"%string);
   (negb ((30 <=? security_audit_retention_days c) && (security_audit_retention_days c <=? 365)), "security audit retention must be between 30 and 365 days"%string);
   (blank (rate_limit_namespace c) || existsb (fun v => v <=? 0) rate_limit_values, "rate-limit namespace and policy values must be positive"%string);
   (blank (ws_ticket_namespace c) || negb ((15 <=? ws_ticket_ttl_seconds c) && (ws_ticket_ttl_seconds c <=? 120)), "WebSocket ticket namespace and TTL must be configured safely"%string);
   (existsb (fun v => v <=? 0) (request_body_default_max_bytes c :: body_limits) || existsb (fun v => request_body_default_max_bytes c <? v) body_limits,
    "request body limits must be positive and bounded by the default"%string);
   (negb ((1 <=? graph_memory_max_hops c) && (graph_memory_max_hops c <=? 3)), "graph_memory_max_hops must be between 1 and 3"%string);
   (graph_memory_result_limit c <=? 0, "graph_memory_result_limit must be positive"%string);
   (Qle_bool (neo4j_query_timeout_seconds c) 0, "neo4j_query_timeout_seconds must be positive"%string);
   (runtime_checkpoint_retention_minutes c <=? 0, "runtime checkpoint retention must be positive"%string);
   (runtime_checkpoint_max_bytes c <=? 0, "runtime checkpoint max bytes must be positive"%string);
   (runtime_checkpoint_reconciliation_scan_limit c <=? 0, "runtime checkpoint reconciliation scan limit must be positive"%string);
   (blank (runtime_checkpoint_namespace c), "runtime checkpoint namespace must not be empty"%string);
   (negb ((1 <=? runtime_thread_history_limit c) && (runtime_thread_history_limit c <=? runtime_thread_history_max_limit c)),
    "runtime thread history limit must not exceed its positive maximum"%string);
   (Qle_bool (runtime_override_timeout_seconds c) 0, "runtime override timeout must be positive"%string);
   (runtime_override_lock_ttl_ms c <? milliseconds (runtime_override_timeout_seconds c) + 2000, "runtime override lock TTL must include a 2000ms safety margin"%string);
   (runtime_override_api_enabled c && negb (String.eqb (runtime_checkpoint_interrupt_after c) "environment"%string),
    "runtime override API requires the environment checkpoint boundary"%string);
   (outside 0 (memory_auto_apply_min_confidence c) 1, "memory_auto_apply_min_confidence must be between 0 and 1"%string);
   (outside 0 (memory_lower_confidence_reject_delta c) 1, "memory_lower_confidence_reject_delta must be between 0 and 1"%string);
   (Qle_bool (memory_mutation_timeout_seconds c) 0, "memory_mutation_timeout_seconds must be positive"%string);
   (memory_mutation_lock_ttl_ms c <? milliseconds (memory_mutation_timeout_seconds c) + 1000,
    "memory_mutation_lock_ttl_ms must exceed memory_mutation_timeout_seconds by at least 1000ms"%string);
   ((metrics_port c <=? 0) || (65535 <? metrics_port c), "metrics_port must be a valid TCP port"%string);
   (Qle_bool (observability_sample_interval_seconds c) 0, "observability sample interval must be positive"%string);
   (Qle_bool (observability_probe_timeout_seconds c) 0, "observability probe timeout must be positive"%string);
   (Qle_bool (amap_route_timeout_seconds c) 0 || Qle_bool 1 (amap_route_timeout_seconds c), "AMap route timeout must be greater than 0 and below 1 second"%string);
   ((amap_route_cb_failure_threshold c <=? 0) || Qle_bool (amap_route_cb_recovery_seconds c) 0, "AMap route circuit-breaker settings must be positive"%string);
   (backend_processes c <=? 0, "backend_processes must be positive"%string);
   (String.eqb (runtime_profile c) "production"%string && metrics_enabled c && (1 <? backend_processes c) && empty (prometheus_multiproc_dir c),
    "PROMETHEUS_MULTIPROC_DIR is required when metrics use multiple backend processes"%string)].

Definition validate_runtime_profile : result unit :=
  run_checks ((if String.eqb (runtime_profile c) "docker-dev" then docker_checks else []) ++
              (if String.eqb (runtime_profile c) "production" then production_checks else []) ++ general_checks).

Definition runtime_summary : list (string * string) :=
  [("runtime_profile", runtime_profile c); ("embedding_provider", embedding_provider c); ("environment_provider", environment_provider c);
   ("capacity_provider", capacity_provider c); ("routing_provider", routing_provider c); ("database", database_backend c); ("redis", redis_backend c);
   ("qdrant", qdrant_backend c); ("graph_memory", graph_memory_backend c); ("metrics", if metrics_enabled c then "enabled" else "disabled");
   ("observability_api", if observability_api_enabled c then "enabled" else "disabled")]%string.

(** ** What is built of them *)
Definition http_settings : HttpGuards.http_settings :=
  {| HttpGuards.hs_profile := runtime_profile c; HttpGuards.hs_hsts_enabled := security_hsts_enabled c; HttpGuards.hs_issuer := auth_issuer c;
     HttpGuards.hs_default := request_body_default_max_bytes c; HttpGuards.hs_dispatch := request_body_dispatch_max_bytes c;
     HttpGuards.hs_override := request_body_runtime_override_max_bytes c; HttpGuards.hs_mutation := request_body_memory_mutation_max_bytes c;
     HttpGuards.hs_ticket := request_body_ws_ticket_max_bytes c |}.
Definition policies_from_settings (o : RateLimit.OperationClass) : result RateLimit.RateLimitPolicy :=
  match o with
  | RateLimit.DISPATCH_SUBMIT => RateLimit.make_policy (rate_limit_dispatch_submit_capacity c) (rate_limit_dispatch_submit_refill_per_minute c)
  | RateLimit.RUNTIME_OVERRIDE => RateLimit.make_policy (rate_limit_runtime_override_capacity c) (rate_limit_runtime_override_refill_per_minute c)
  | RateLimit.MEMORY_MUTATION => RateLimit.make_policy (rate_limit_memory_mutation_capacity c) (rate_limit_memory_mutation_refill_per_minute c)
  | RateLimit.OBSERVABILITY_READ => RateLimit.make_policy (rate_limit_observability_read_capacity c) (rate_limit_observability_read_refill_per_minute c)
  | RateLimit.WS_TICKET => RateLimit.make_policy (rate_limit_ws_ticket_capacity c) (rate_limit_ws_ticket_refill_per_minute c)
  | RateLimit.AUTHENTICATION_INVALID => RateLimit.make_policy (rate_limit_authentication_invalid_capacity c) (rate_limit_authentication_invalid_refill_per_minute c)
  end.
End validation.

(** ** Accepted settings *)
Lemma run_checks_ok l : run_checks l = Ok tt <-> Forall (fun x : check => x.1 = false) l.
Proof.
  induction l as [|[[] m] l IH]; cbn [run_checks].
  - by split; [constructor|].
  - split; [done|]. intros H. by inversion H.
  - rewrite IH. split; [by constructor|]. intros H. by inversion H.
Qed.
Lemma accepted_inv c : validate_runtime_profile c = Ok tt ->
  (runtime_profile c = "docker-dev"%string -> Forall (fun x : check => x.1 = false) (docker_checks c)) /\
  (runtime_profile c = "production"%string -> unsafe c = []) /\ Forall (fun x : check => x.1 = false) (general_checks c).
Proof.
  intros H. apply run_checks_ok in H. apply Forall_app in H as [D H]. apply Forall_app in H as [P G]. split_and!; [intros E; by rewrite E in D| |done].
  intros E. rewrite E in P. cbn [String.eqb] in P. apply Forall_cons in P as [P _]. by destruct (unsafe c).
Qed.

Lemma positive_values l : existsb (fun v => v <=? 0) l = false -> Forall (fun v => 0 < v) l.
Proof. induction l as [|v l IH]; [constructor|]. cbn. intros [V H]%orb_false_iff. constructor; [by apply Z.leb_gt|by apply IH]. Qed.
Lemma make_policy_ok a b : 0 < a -> 0 < b -> exists p, RateLimit.make_policy a b = Ok p /\ RateLimit.valid_policy p.
Proof.
  intros A B. unfold RateLimit.make_policy. destruct (Z.leb_spec a 0), (Z.leb_spec b 0); try lia. eexists. split; [done|]. by split.
Qed.

(** What holds of an accepted production configuration. *)
Record production_safe (c : Settings) : Prop := {
  ps_identity : authentication_provider c = "oidc_jwt"%string;
  ps_algorithms : listed (auth_algorithms c) <> [] /\ Forall (fun a => a = "RS256"%string \/ a = "ES256"%string) (listed (auth_algorithms c));
  ps_origins : Forall (fun o => String.prefix "https://" o = true) (cors_allowed_origins_list c);
  ps_interrupt : runtime_checkpoint_interrupt_after c = ""%string \/ runtime_checkpoint_interrupt_after c = "environment"%string /\ runtime_override_api_enabled c = true;
  ps_embedding : embedding_provider c <> "fake"%string;
  ps_environment : environment_provider c = "http"%string;
  ps_providers : capacity_provider c = "real"%string /\ routing_provider c = "real"%string;
  ps_stores : database_backend c = "mysql"%string /\ redis_backend c = "server"%string /\ qdrant_backend c = "server"%string /\ graph_memory_backend c = "neo4j"%string;
}.
Lemma app_nil_inv {A} (l m : list A) : l ++ m = [] -> l = [] /\ m = [].
Proof. by destruct l. Qed.
Lemma problem_nil (b : bool) (m : string) : (if b then [m] else []) = [] -> b = false.
Proof. by destruct b. Qed.
Lemma unsafe_nil c : unsafe c = [] -> production_safe c.
Proof.
  unfold unsafe. intros H. repeat (let X := fresh "X" in apply app_nil_inv in H as [X H]).
  destruct (String.eqb (authentication_provider c) "development_jwt"); [done|].
  repeat match goal with X : (if _ then [_] else []) = [] |- _ => apply problem_nil in X end.
  repeat match goal with X : negb (String.eqb _ _) = false |- _ => apply negb_false_iff, String.eqb_eq in X end.
  apply orb_false_iff in X3 as [A1 A2]. apply negb_false_iff in A2. split; try done.
  - split; [by destruct (listed (auth_algorithms c))|]. rewrite forallb_forall in A2. apply Forall_forall. intros a I. apply list_elem_of_In in I.
    specialize (A2 a I). apply one_of_true in A2. apply elem_of_cons in A2 as [->|A2]; [by left|right]. by apply elem_of_one.
  - apply Forall_forall. intros o I. destruct (String.prefix "https://" o) eqn:P; [done|]. exfalso. apply list_elem_of_In in I.
    assert (E : existsb (fun o => negb (String.prefix "https://" o)) (cors_allowed_origins_list c) = true) by (apply existsb_exists; exists o; by rewrite P). congruence.
  - apply andb_false_iff in X6 as [E|E]; apply negb_false_iff in E; [left; by apply String.eqb_eq|right]. apply andb_true_iff in E as [E1 E2]. by apply String.eqb_eq in E2.
  - by apply String.eqb_neq.
Qed.

(** C40: The start-up succeeds on what the validation accepts, and is safe: the
    limits of every route satisfy the body guard, each operation has a policy
    the limiter accepts, a lock outlives the work it guards by its margin, a
    docker worker recovers within its objective and never while a lock can be
    held, and production runs on no development provider. *)
Theorem accepted_settings_start c : validate_runtime_profile c = Ok tt ->
  HttpGuards.limits_ok (request_body_default_max_bytes c) (HttpGuards.app_route_limits (http_settings c)) = true /\
  (forall m p, 0 < HttpGuards.limit_of (request_body_default_max_bytes c) (HttpGuards.app_route_limits (http_settings c)) m p <= request_body_default_max_bytes c) /\
  (forall o, exists policy, policies_from_settings c o = Ok policy /\ RateLimit.valid_policy policy) /\
  milliseconds (runtime_override_timeout_seconds c) + 2000 <= runtime_override_lock_ttl_ms c /\
  milliseconds (memory_mutation_timeout_seconds c) + 1000 <= memory_mutation_lock_ttl_ms c /\
  (runtime_profile c = "docker-dev"%string ->
     worker_recovery_budget_ms c < WORKER_RECOVERY_SLA_MS /\ worker_idempotency_lock_ttl_ms c < worker_pending_min_idle_ms c) /\
  (runtime_profile c = "production"%string -> production_safe c).
Proof.
  intros (D & P & G)%accepted_inv. unfold general_checks in G. repeat rewrite Forall_cons in G. cbn [fst] in G.
  destruct G as (_ & _ & _ & _ & _ & R & _ & B & _ & _ & _ & _ & _ & _ & _ & _ & _ & O & _ & _ & _ & _ & M & _).
  apply orb_false_iff in R as [_ R]. apply positive_values in R. unfold rate_limit_values in R. repeat rewrite Forall_cons in R.
  apply orb_false_iff in B as [B1 B2]. apply positive_values in B1. unfold body_limits in B1, B2. repeat rewrite Forall_cons in B1.
  cbn [existsb] in B2. repeat (apply orb_false_iff in B2 as [? B2]). apply Z.ltb_ge in O, M.
  repeat match goal with H : (_ <? _) = false |- _ => apply Z.ltb_ge in H end. split_and!.
  - unfold HttpGuards.limits_ok, HttpGuards.app_route_limits. cbn [forallb snd HttpGuards.hs_dispatch HttpGuards.hs_override HttpGuards.hs_mutation HttpGuards.hs_ticket http_settings].
    repeat rewrite andb_true_iff. repeat rewrite Z.ltb_lt. tauto.
  - intros m p. unfold HttpGuards.limit_of. destruct (List.find _ _) as [r|] eqn:F; [|lia]. apply find_some in F as [F _].
    cbn in F. repeat (destruct F as [<-|F]; [cbn; lia|]). done.
  - intros []; cbn [policies_from_settings]; apply make_policy_ok; tauto.
  - done.
  - done.
  - intros E. specialize (D E). unfold docker_checks in D. repeat rewrite Forall_cons in D. cbn [fst] in D. destruct D as (_ & _ & _ & I & S & _).
    apply Z.leb_gt in I, S. by split.
  - intros E. by apply unsafe_nil, P.
Qed.

(** ** Witness *)
Definition ex_settings : Settings := {|
  app_env := "development"; app_name := "CountyFlow AI"; runtime_profile := "production"; authentication_provider := "oidc_jwt";
  auth_issuer := "countyflow-dev"; auth_audience := "countyflow-api"; auth_jwks_url := "https://id.example/keys"; auth_algorithms := "RS256,ES256";
  auth_clock_skew_seconds := 30; auth_access_token_ttl_seconds := 600; auth_revocation_namespace := "countyflow:auth:revoked";
  development_jwt_secret := ""; security_audit_retention_days := 180; rate_limit_namespace := "countyflow:ratelimit";
  rate_limit_dispatch_submit_capacity := 30; rate_limit_dispatch_submit_refill_per_minute := 120; rate_limit_runtime_override_capacity := 3;
  rate_limit_runtime_override_refill_per_minute := 12; rate_limit_memory_mutation_capacity := 5; rate_limit_memory_mutation_refill_per_minute := 30;
  rate_limit_observability_read_capacity := 60; rate_limit_observability_read_refill_per_minute := 300; rate_limit_ws_ticket_capacity := 10;
  rate_limit_ws_ticket_refill_per_minute := 60; rate_limit_authentication_invalid_capacity := 10;
  rate_limit_authentication_invalid_refill_per_minute := 60; rate_limit_emergency_read_capacity := 10; rate_limit_emergency_read_window_seconds := 60;
  ws_ticket_namespace := "countyflow:auth:ws-ticket"; ws_ticket_ttl_seconds := 45; security_hsts_enabled := false;
  request_body_default_max_bytes := 65536; request_body_dispatch_max_bytes := 16384; request_body_runtime_override_max_bytes := 8192;
  request_body_memory_mutation_max_bytes := 32768; request_body_ws_ticket_max_bytes := 2048;
  cors_allowed_origins := "https://a.example, https://b.example"; database_url := "sqlite+pysqlite:///countyflow.db";
  redis_url := "redis://localhost:6379/0"; runtime_checkpoint_backend := "redis"; runtime_checkpoint_namespace := "countyflow";
  runtime_checkpoint_retention_minutes := 10080; runtime_checkpoint_refresh_on_read := false; runtime_checkpoint_max_bytes := 1048576;
  runtime_checkpoint_reconciliation_scan_limit := 10; runtime_checkpoint_interrupt_after := ""; runtime_thread_api_enabled := false;
  runtime_thread_history_limit := 20; runtime_thread_history_max_limit := 100; runtime_override_api_enabled := false;
  runtime_override_timeout_seconds := 5 # 1; runtime_override_lock_ttl_ms := 8000; redis_stream_name := "countyflow:dispatch:tasks";
  redis_consumer_group := "countyflow-workers"; redis_consumer_name := "worker-1"; worker_consumer_name := "worker-1"; worker_read_count := 1;
  worker_block_ms := 1000; worker_pending_min_idle_ms := 5000; worker_recovery_count := 10; worker_max_delivery_attempts := 3;
  worker_retry_base_delay_ms := 1000; worker_retry_max_delay_ms := 30000; worker_idempotency_lock_ttl_ms := 30000;
  redis_dlq_stream_name := "countyflow:dispatch:dlq"; task_event_broker := "memory"; task_event_stream_prefix := "countyflow:events:task";
  task_event_history_maxlen := 100; task_event_block_ms := 1000; qdrant_url := "http://localhost:6333"; llm_provider := "openai_compatible";
  llm_base_url := ""; llm_api_key := ""; llm_model := ""; embedding_provider := "openai_compatible"; embedding_base_url := ""; embedding_api_key := "";
  embedding_model := ""; embedding_dimension := 128; environment_provider := "http"; capacity_provider := "real"; routing_provider := "real";
  amap_web_service_key := ""; amap_route_api_base_url := "https://restapi.amap.com/v5/direction/driving";
  amap_route_timeout_seconds := 3602879701896397 # 4503599627370496; amap_route_cb_failure_threshold := 3; amap_route_cb_recovery_seconds := 5 # 1;
  database_backend := "mysql"; redis_backend := "server"; qdrant_backend := "server"; graph_memory_backend := "neo4j";
  neo4j_uri := "bolt://localhost:7687"; neo4j_user := "neo4j"; neo4j_password := "pw"; neo4j_database := "neo4j"; neo4j_query_timeout_seconds := 1 # 1;
  graph_memory_max_hops := 2; graph_memory_result_limit := 25; environment_api_base_url := "";
  environment_api_timeout_seconds := 3602879701896397 # 4503599627370496; environment_cb_failure_threshold := 3;
  environment_cb_recovery_seconds := 5 # 1; capacity_limited_threshold := 3602879701896397 # 4503599627370496; capacity_unavailable_threshold := 1 # 1;
  memory_adoption_threshold := 3 # 4; memory_auto_apply_min_confidence := 3 # 4;
  memory_lower_confidence_reject_delta := 5404319552844595 # 36028797018963968; memory_mutation_timeout_seconds := 5 # 1;
  memory_mutation_lock_ttl_ms := 10000; memory_mutation_api_enabled := false; metrics_enabled := false; metrics_host := "0.0.0.0";
  metrics_port := 9100; backend_processes := 1; prometheus_multiproc_dir := ""; observability_api_enabled := false;
  prometheus_url := "http://prometheus:9090"; grafana_public_url := ""; observability_sample_interval_seconds := 15 # 1;
  observability_probe_timeout_seconds := 3602879701896397 # 4503599627370496 |}.
Lemma accepted_settings_start_witness : validate_runtime_profile ex_settings = Ok tt /\ production_safe ex_settings /\
  exists p, policies_from_settings ex_settings RateLimit.MEMORY_MUTATION = Ok p.
Proof.
  assert (V : validate_runtime_profile ex_settings = Ok tt) by (vm_compute; reflexivity).
  destruct (accepted_settings_start ex_settings V) as (_ & _ & P & _ & _ & _ & S). split; [exact V|]. split; [apply S; reflexivity|].
  destruct (P RateLimit.MEMORY_MUTATION) as (p & E & _). exists p. exact E.
Defined.
