(* ===== verification/SecurityAudit.v ===== *)
(** * SecurityAudit: the log of security decisions, and what logs may hold

    Models [app/security/audit.py], [security_audit.py] and
    [sqlalchemy_audit_repository.py], the events of the log with their table, and
    [redaction.py], the redactor of the structured logs.  Arguments are the IP
    address parser, with the law that its canonical text is one of itself, the
    generated event ids, and the four patterns of credentials ([mask]), and how the
    database orders rows of one time.  The recorder's writes can fail; an instant
    without a time zone is [None].  A [DATETIME] column keeps whole seconds and no
    zone: the driver writes what the clock shows, the server rounds it.  Names of
    keys are in ASCII. *)

From stdpp Require Import sorting.
From S2P Require Import Prelude Texts Evidence.
From S2P Require Security Auth.

Local Open Scope Z_scope.
Local Open Scope list_scope.

#[local] Existing Instances Auth.Permission_enum Auth.Permission_enum_laws.

(** ** Events *)
Inductive SecurityAuditEventType :=
  SECURITY_ADMISSION | AUTHENTICATION_FAILED | AUTHORIZATION_DENIED | ANOMALY_REPORT | RATE_LIMIT_EXCEEDED | RUNTIME_OVERRIDE_DENIED
| MEMORY_MUTATION_DENIED | REVIEW_DECISION | DISPATCH_PUBLICATION | TOKEN_INVALID | TOKEN_EXPIRED | WS_TICKET_REJECTED | SENSITIVE_DATA_REDACTED.
Inductive SecurityAuditStatus := ALLOWED | DENIED | ERROR.
#[export] Instance SecurityAuditEventType_enum : PyEnum SecurityAuditEventType := {
  members := [SECURITY_ADMISSION; AUTHENTICATION_FAILED; AUTHORIZATION_DENIED; ANOMALY_REPORT; RATE_LIMIT_EXCEEDED; RUNTIME_OVERRIDE_DENIED;
              MEMORY_MUTATION_DENIED; REVIEW_DECISION; DISPATCH_PUBLICATION; TOKEN_INVALID; TOKEN_EXPIRED; WS_TICKET_REJECTED; SENSITIVE_DATA_REDACTED];
  value t := match t with
    | SECURITY_ADMISSION => "SECURITY_ADMISSION" | AUTHENTICATION_FAILED => "AUTHENTICATION_FAILED" | AUTHORIZATION_DENIED => "AUTHORIZATION_DENIED"
    | ANOMALY_REPORT => "ANOMALY_REPORT" | RATE_LIMIT_EXCEEDED => "RATE_LIMIT_EXCEEDED" | RUNTIME_OVERRIDE_DENIED => "RUNTIME_OVERRIDE_DENIED"
    | MEMORY_MUTATION_DENIED => "MEMORY_MUTATION_DENIED" | REVIEW_DECISION => "REVIEW_DECISION" | DISPATCH_PUBLICATION => "DISPATCH_PUBLICATION"
    | TOKEN_INVALID => "TOKEN_INVALID" | TOKEN_EXPIRED => "TOKEN_EXPIRED" | WS_TICKET_REJECTED => "WS_TICKET_REJECTED"
    | SENSITIVE_DATA_REDACTED => "SENSITIVE_DATA_REDACTED" end%string }.
#[export] Instance SecurityAuditEventType_laws : PyEnumLaws SecurityAuditEventType.
Proof. intros []; reflexivity. Qed.
#[export] Instance SecurityAuditStatus_enum : PyEnum SecurityAuditStatus := {
  members := [ALLOWED; DENIED; ERROR]; value s := match s with ALLOWED => "ALLOWED" | DENIED => "DENIED" | ERROR => "ERROR" end%string }.
#[export] Instance SecurityAuditStatus_laws : PyEnumLaws SecurityAuditStatus.
Proof. intros []; reflexivity. Qed.

(** An aware [datetime], in microseconds: what it shows, and how far its zone is
    from UTC; and the column it goes to, in seconds. *)
Record aware := { wall : Z; offset : Z }.
Definition instant (t : aware) : Z := wall t - offset t.
Definition datetime_column (t : aware) : Z := (wall t + 500000) / 1000000.
(** [_aware] of what the column holds. *)
Definition utc_second (seconds : Z) : aware := {| wall := seconds * 1000000; offset := 0 |}.

Definition ValueError (m : string) : exn := Exn "ValueError" m.
(** [_text]. *)
Definition text (v name : string) (maximum : Z) : result string :=
  let n := strip v in
  if String.eqb n "" then Err (ValueError (name +:+ " must not be empty"))
  else if maximum <? py_len n then Err (ValueError (name +:+ " exceeds " +:+ z_str maximum +:+ " characters")) else Ok n.
Definition enum_or_raise {A} `{PyEnum A} (name v : string) : result A := of_option (ValueError (v +:+ " is not a valid " +:+ name)) (enum_of v).
Definition optional {A B} (f : A -> result B) (x : option A) : result (option B) := match x with None => Ok None | Some a => b ← f a; Ok (Some b) end.

(** What the constructor is given: a [StrEnum] is the text of its value. *)
Record event_args := {
  a_event_id : string; a_event_type : string; a_subject_id : option string; a_permission : option string; a_route_template : string; a_status : string;
  a_reason_code : string; a_request_id : string; a_remote_ip : option string; a_created_at : option aware;
}.
Record SecurityAuditEvent := {
  event_id : string; event_type : SecurityAuditEventType; subject_id : option string; permission : option Security.Permission; route_template : string;
  status : SecurityAuditStatus; reason_code : string; request_id : string; remote_ip : option string; created_at : aware;
}.
(** A row of [security_audit_events]. *)
Record SecurityAuditRecord := {
  r_event_id : string; r_subject_id : option string; r_event_type : string; r_permission : option string; r_route_template : string; r_status : string;
  r_reason_code : string; r_request_id : string; r_remote_ip : option string; r_created_at : Z;
}.
#[export] Instance SecurityAuditRecord_eq_dec : EqDecision SecurityAuditRecord.
Proof. solve_decision. Defined.
Definition has_char (code : nat) (s : string) : bool := existsb (fun c => Nat.eqb (Ascii.nat_of_ascii c) code) (String.list_ascii_of_string s).

Section audit.
Context (ip_address : string -> option string).

(** [__post_init__]. *)
Definition make_event (a : event_args) : result SecurityAuditEvent :=
  i ← text (a_event_id a) "event_id" 64;
  ty ← enum_or_raise "SecurityAuditEventType" (a_event_type a);
  st ← enum_or_raise "SecurityAuditStatus" (a_status a);
  p ← optional (enum_or_raise "Permission") (a_permission a);
  s ← optional (fun x => text x "subject_id" 128) (a_subject_id a);
  r ← text (a_route_template a) "route_template" 160;
  if negb (String.prefix "/" r) || has_char 63 r || has_char 35 r
  then Err (ValueError "route_template must be a normalized route without query or fragment") else
  c ← text (a_reason_code a) "reason_code" 64;
  q ← text (a_request_id a) "request_id" 64;
  ip ← optional (fun x => of_option (ValueError "remote_ip must be a valid IP address") (ip_address x)) (a_remote_ip a);
  t ← of_option (ValueError "created_at must be timezone-aware") (a_created_at a);
  Ok {| event_id := i; event_type := ty; subject_id := s; permission := p; route_template := r; status := st; reason_code := c; request_id := q; remote_ip := ip;
        created_at := t |}.

Definition to_record (e : SecurityAuditEvent) : SecurityAuditRecord :=
  {| r_event_id := event_id e; r_subject_id := subject_id e; r_event_type := value (event_type e); r_permission := value <$> permission e;
     r_route_template := route_template e; r_status := value (status e); r_reason_code := reason_code e; r_request_id := request_id e; r_remote_ip := remote_ip e;
     r_created_at := datetime_column (created_at e) |}.
(** The columns of a row. *)
Definition of_record (r : SecurityAuditRecord) : event_args :=
  {| a_event_id := r_event_id r; a_event_type := r_event_type r; a_subject_id := r_subject_id r; a_permission := r_permission r;
     a_route_template := r_route_template r; a_status := r_status r; a_reason_code := r_reason_code r; a_request_id := r_request_id r;
     a_remote_ip := r_remote_ip r; a_created_at := Some (utc_second (r_created_at r)) |}.

(** ** [SqlAlchemySecurityAuditRepository], over the rows in the order of their ids *)
Definition log := list SecurityAuditRecord.
Definition IntegrityError : exn := Exn "IntegrityError" "".
Definition append (e : SecurityAuditEvent) : action log unit := fun l =>
  if existsb (fun r => String.eqb (r_event_id r) (event_id e)) l then (Err IntegrityError, l) else (Ok tt, l ++ [to_record e]).
(** [newest_first] and [oldest_first] are the [ORDER BY created_at] of the
    database, which orders rows of one second as it likes. *)
Definition list_recent (newest_first : log -> log) (limit : Z) (l : log) : result (list SecurityAuditEvent) :=
  if negb ((1 <=? limit) && (limit <=? 500)) then Err (ValueError "security audit limit must be between 1 and 500")
  else map_result (fun r => make_event (of_record r)) (take (Z.to_nat limit) (newest_first l)).
(** The rows to delete, the oldest ones before the cutoff; a row is told by its
    event id, which the table keeps unique.  The cutoff loses its zone, too, and
    keeps its fraction. *)
Definition older (cutoff : aware) (r : SecurityAuditRecord) : bool := r_created_at r * 1000000 <? wall cutoff.
Definition expired (oldest_first : log -> log) (cutoff : aware) (limit : Z) (l : log) : list SecurityAuditRecord :=
  take (Z.to_nat limit) (oldest_first (List.filter (older cutoff) l)).
Definition delete_before (oldest_first : log -> log) (cutoff : option aware) (limit : Z) : action log Z := fun l =>
  match cutoff with
  | None => (Err (ValueError "security audit retention cutoff must be timezone-aware"), l)
  | Some cutoff =>
      if negb ((1 <=? limit) && (limit <=? 10000)) then (Err (ValueError "security audit deletion limit must be between 1 and 10000"), l)
      else let gone := expired oldest_first cutoff limit l in
           (Ok (Z.of_nat (length gone)), List.filter (fun r => negb (one_of (r_event_id r) (map r_event_id gone))) l)
  end.

(** ** [SecurityAuditRecorder] *)
Record request := { route_path : option string; url_path : string; correlation : option string; request_id_header : option string; client_host : option string }.
Definition SecurityAuditUnavailable : exn := Exn "SecurityAuditUnavailable" "".
(** [normalize] is that of HttpGuards, with the fresh id of the call; [fails] tells
    that the append raises for a reason of its own. *)
Definition record_event (normalize : option string -> string) (fails : bool) (fresh_event_id : string) (now : option aware) (rq : request) (ty : SecurityAuditEventType)
    (st : SecurityAuditStatus) (reason : string) (principal : option Auth.AuthenticatedPrincipal) (perm : option Security.Permission) : action log unit := fun l =>
  match make_event {| a_event_id := fresh_event_id; a_event_type := value ty; a_subject_id := (fun p => Security.subject_id (Auth.who p)) <$> principal;
                      a_permission := value <$> perm; a_route_template := or_else (route_path rq) (url_path rq); a_status := value st; a_reason_code := reason;
                      a_request_id := or_else (correlation rq) (normalize (request_id_header rq)); a_remote_ip := client_host rq ≫= ip_address;
                      a_created_at := now |} with
  | Err e => (Err e, l)
  | Ok e => if fails then (Err SecurityAuditUnavailable, l)
            else match append e l with (Ok _, l') => (Ok tt, l') | (Err _, l') => (Err SecurityAuditUnavailable, l') end
  end.
End audit.

(** ** [SensitiveDataRedactor] *)
Definition REDACTED : string := "[REDACTED]".
Definition SENSITIVE_KEY_MARKERS : list string := ["authorization"; "cookie"; "token"; "apikey"; "password"; "secret"; "clientsecret"; "privatekey"]%string.
Definition alphanumeric (c : Ascii.ascii) : bool :=
  let n := Ascii.nat_of_ascii c in (Nat.leb 48 n && Nat.leb n 57) || (Nat.leb 97 n && Nat.leb n 122).
Definition sensitive_key (k : string) : bool :=
  let normalized := String.string_of_list_ascii (List.filter alphanumeric (String.list_ascii_of_string (lower k))) in
  existsb (fun m => contains m normalized) SENSITIVE_KEY_MARKERS.

(** A secret of pydantic, whose text is never looked at, is not among the values. *)
Section redaction.
Context (mask : string -> string) (str : pyval -> string) (maximum_string_length : nat).

Definition redact_text (s : string) : string := mask (py_take maximum_string_length s).
(** [left] is [maximum_depth - _depth]. *)
Fixpoint redact (left : nat) (key : option string) (v : pyval) : pyval :=
  if match key with Some k => sensitive_key k | None => false end then PStr REDACTED else
  match left with
  | O => PStr "[TRUNCATED]"
  | S left' =>
      match v with
      | PDict d => PDict (map (fun kv => (kv.1, redact left' (Some kv.1) kv.2)) d)
      | PList l => PList (map (redact left' None) l)
      | PStr s => PStr (redact_text s)
      | PNone | PBool _ | PInt _ | PFloat _ => v
      | PDecimal _ | PBytes _ => PStr (redact_text (str v))
      end
  end.
End redaction.

(** ** Events are read back as they were recorded *)
Lemma text_again v n m x : text v n m = Ok x -> text x n m = Ok x.
Proof.
  unfold text. destruct (String.eqb_spec (strip v) "") as [|N]; [done|]. destruct (Z.ltb_spec m (py_len (strip v))) as [|L]; [done|]. intros [= <-].
  rewrite strip_idempotent. apply String.eqb_neq in N as ->. by apply Z.ltb_ge in L as ->.
Qed.
Lemma enum_again {A} `{PyEnumLaws A} name (a : A) : enum_or_raise name (value a) = Ok a.
Proof. unfold enum_or_raise. by rewrite enum_of_value. Qed.

Section facts.
Context (ip_address : string -> option string) (canonical : forall s t, ip_address s = Some t -> ip_address t = Some t).

(** What of an event comes back: its time in whole seconds, as what the clock
    showed in UTC. *)
Definition as_stored (e : SecurityAuditEvent) : SecurityAuditEvent :=
  {| event_id := event_id e; event_type := event_type e; subject_id := subject_id e; permission := permission e; route_template := route_template e;
     status := status e; reason_code := reason_code e; request_id := request_id e; remote_ip := remote_ip e;
     created_at := utc_second (datetime_column (created_at e)) |}.
Lemma event_read_back a e : make_event ip_address a = Ok e -> make_event ip_address (of_record (to_record e)) = Ok (as_stored e).
Proof.
  unfold make_event. intros (i & I & H)%result_bind_ok. apply result_bind_ok in H as (ty & _ & H). apply result_bind_ok in H as (st & _ & H).
  apply result_bind_ok in H as (p & _ & H). apply result_bind_ok in H as (s & S & H). apply result_bind_ok in H as (r & R & H).
  destruct (negb (String.prefix "/" r) || has_char 63 r || has_char 35 r) eqn:G; [done|].
  apply result_bind_ok in H as (c & C & H). apply result_bind_ok in H as (q & Q & H). apply result_bind_ok in H as (ip & P & H). apply result_bind_ok in H as (t & _ & [= <-]).
  cbn [of_record to_record a_event_id a_event_type a_status a_permission a_subject_id a_route_template a_reason_code a_request_id a_remote_ip a_created_at
       r_event_id r_event_type r_status r_permission r_subject_id r_route_template r_reason_code r_request_id r_remote_ip r_created_at
       event_id event_type status permission subject_id route_template reason_code request_id remote_ip created_at].
  rewrite (text_again _ _ _ _ I), !enum_again. cbn [mbind result_bind].
  replace (optional (enum_or_raise "Permission") (value <$> p)) with (Ok p : result (option Security.Permission))
    by (destruct p as [p|]; cbn [optional fmap option_fmap option_map]; [by rewrite enum_again|done]). cbn [mbind result_bind].
  replace (optional (fun x => text x "subject_id" 128) s) with (Ok s : result (option string)).
  2: { destruct (a_subject_id a) as [x|]; cbn [optional] in S; [|by injection S as <-]. apply result_bind_ok in S as (y & Y & [= <-]). cbn [optional].
       by rewrite (text_again _ _ _ _ Y). }
  cbn [mbind result_bind]. rewrite (text_again _ _ _ _ R). cbn [mbind result_bind]. rewrite G, (text_again _ _ _ _ C). cbn [mbind result_bind].
  rewrite (text_again _ _ _ _ Q). cbn [mbind result_bind].
  replace (optional _ ip) with (Ok ip : result (option string)); [done|].
  destruct (a_remote_ip a) as [x|]; cbn [optional] in P; [|by injection P as <-]. apply result_bind_ok in P as (y & Y & [= <-]). cbn [optional].
  unfold of_option in Y. destruct (ip_address x) as [z|] eqn:E; [|done]. injection Y as ->. by rewrite (canonical x y E).
Qed.

(** The events recorded and not deleted, in the order of recording, with the log
    that recording and retention produce. *)
Inductive recorded : list SecurityAuditEvent -> log -> Prop :=
| recorded_empty : recorded [] []
| recorded_append es l a e l' : recorded es l -> make_event ip_address a = Ok e -> append e l = (Ok tt, l') -> recorded (es ++ [e]) l'
| recorded_refused es l a e x l' : recorded es l -> make_event ip_address a = Ok e -> append e l = (Err x, l') -> recorded es l'
| recorded_delete es l oldest_first cutoff limit r l' : recorded es l -> delete_before oldest_first cutoff limit l = (r, l') ->
    recorded (List.filter (fun e => one_of (event_id e) (map r_event_id l')) es) l'.

Record faithful (es : list SecurityAuditEvent) (l : log) : Prop := {
  faithful_rows : l = map to_record es;
  faithful_unique : NoDup (map r_event_id l);
  faithful_readable e : e ∈ es -> make_event ip_address (of_record (to_record e)) = Ok (as_stored e);
}.
Lemma filter_keeps {A} (P : A -> bool) (l : list A) : List.filter P l `sublist_of` l.
Proof. induction l as [|r l IH]; cbn; [done|]. destruct (P r); by constructor. Qed.
(** Filtering the events by the rows that stay filters the rows. *)
Lemma filter_records (P : SecurityAuditRecord -> bool) es : NoDup (map r_event_id (map to_record es)) ->
  map to_record (List.filter (fun e => one_of (event_id e) (map r_event_id (List.filter P (map to_record es)))) es) = List.filter P (map to_record es).
Proof.
  intros N. rewrite <- (List.filter_ext_in (fun e => P (to_record e))).
  - clear N. induction es as [|e es IH]; [done|]. cbn. destruct (P (to_record e)); cbn; by rewrite IH.
  - intros e I. symmetry. assert (U : forall e', In e' es -> event_id e' = event_id e -> to_record e' = to_record e).
    { intros e' I' E. clear P. induction es as [|x es IH]; [done|]. cbn in N. apply NoDup_cons in N as [N1 N2].
      destruct I as [->|I], I' as [->|I']; [done| | |by apply IH].
      - destruct N1. change (r_event_id (to_record e)) with (event_id e). rewrite <- E. rewrite map_map. apply list_elem_of_In, in_map_iff. by exists e'.
      - destruct N1. change (r_event_id (to_record e')) with (event_id e'). rewrite E. rewrite map_map. apply list_elem_of_In, in_map_iff. by exists e. }
    destruct (P (to_record e)) eqn:K.
    + apply one_of_true, list_elem_of_In, in_map_iff. exists (to_record e). split; [done|]. apply filter_In. split; [by apply in_map|done].
    + apply one_of_false. intros J%list_elem_of_In. apply in_map_iff in J as (r & E & [(e' & <- & I')%in_map_iff K']%filter_In).
      rewrite (U e' I' E) in K'. congruence.
Qed.
Lemma recorded_faithful es l : recorded es l -> faithful es l.
Proof.
  induction 1 as [|es l a e l' _ [L U R] M A|es l a e x l' _ F M A|es l oldest_first cutoff limit r l' _ [L U R] D].
  - split; [done|constructor|by intros e ?%elem_of_nil].
  - unfold append in A. destruct (existsb _ l) eqn:X; [done|]. injection A as <-. split.
    + by rewrite L, map_app.
    + rewrite map_app. apply NoDup_app. split_and!; [done| |by apply NoDup_singleton]. intros i I E. apply elem_of_one in E as ->.
      apply list_elem_of_fmap in I as (r & E & I). apply not_true_iff_false in X. apply X, existsb_exists. exists r. split; [by apply list_elem_of_In|]. by apply String.eqb_eq.
    + intros y [I|I]%elem_of_app; [by apply R|]. apply elem_of_one in I as ->. by eapply event_read_back.
  - unfold append in A. destruct (existsb _ l); [|done]. by injection A as _ <-.
  - assert (K : exists P, l' = List.filter P l).
    { unfold delete_before in D. destruct cutoff as [c|]; [destruct (negb _)|]; injection D as _ <-; [|by eexists|]; (exists (fun _ => true); clear; induction l as [|x l IH]; [done|cbn; by rewrite <- IH]). }
    destruct K as (P & ->). rewrite L in U |- *. split.
    + symmetry. by apply filter_records.
    + eapply sublist_NoDup; [exact U|]. apply fmap_sublist, filter_keeps.
    + intros e I. apply R. eapply elem_of_sublist; [exact I|apply filter_keeps].
Qed.
End facts.

Lemma map_result_all {A B} (f : A -> result B) (g : A -> B) l : (forall a, a ∈ l -> f a = Ok (g a)) -> map_result f l = Ok (map g l).
Proof. induction l as [|a l IH]; intros H; [done|]. cbn. rewrite H by (by left). cbn. rewrite IH; [done|]. intros x X. apply H. by right. Qed.

(** What an [ORDER BY created_at] does. *)
Definition orders (le : Z -> Z -> Prop) (order : log -> log) : Prop :=
  forall l, Permutation (order l) l /\ StronglySorted (fun r x => le (r_created_at r) (r_created_at x)) (order l).

(** C30: The security log tells what was recorded, but for the time: whatever
    was appended and however often old entries were deleted, the newest entries are
    always read back - no stored row is refused - and are events that were recorded,
    by the second the clock showed when they were, the newest first, the same in
    everything but the time.  The time comes back as that second in UTC: of a clock
    in UTC it is at most half a second off, of any other it is off by its zone, too. *)
Theorem security_log_reads_back (ip_address : string -> option string) (canonical : forall s t, ip_address s = Some t -> ip_address t = Some t)
    (newest_first : log -> log) (order : orders Z.ge newest_first) es l limit :
  recorded ip_address es l -> 1 <= limit <= 500 ->
  (exists picked, Permutation picked es /\ StronglySorted (fun e x => datetime_column (created_at e) >= datetime_column (created_at x)) picked /\
     list_recent ip_address newest_first limit l = Ok (map as_stored (take (Z.to_nat limit) picked))) /\
  (forall e, instant (created_at e) + offset (created_at e) - 500000 < instant (created_at (as_stored e)) <= instant (created_at e) + offset (created_at e) + 500000).
Proof.
  intros R L. apply (recorded_faithful ip_address canonical) in R as [-> U R]. split.
  - destruct (order (map to_record es)) as [P S]. apply Permutation_map_inv in P as (picked & E & P). exists picked.
    symmetry in P. split; [done|]. rewrite E in S. split.
    { clear -S. induction picked as [|e picked IH]; [constructor|]. inversion S as [|? ? S' F]; subst. constructor; [by apply IH|].
      apply List.Forall_forall. intros x X. rewrite List.Forall_forall in F. apply (F (to_record x)). by apply in_map. }
    unfold list_recent. replace (negb _) with false by lia. rewrite E, firstn_map, map_result_map. apply map_result_all.
    intros e I. apply R. eapply elem_of_sublist in I; [|apply sublist_take]. by rewrite P in I.
  - intros e. unfold instant, as_stored, utc_second, datetime_column. cbn [created_at wall offset].
    pose proof (Z.div_mod (wall (created_at e) + 500000) 1000000). pose proof (Z.mod_pos_bound (wall (created_at e) + 500000) 1000000). lia.
Qed.

(** ** Retention *)
Section retention.
Context (oldest_first : log -> log) (order : orders Z.le oldest_first) (cutoff : aware) (limit : Z) (l : log) (unique : NoDup (map r_event_id l)).
Definition kept_row (r : SecurityAuditRecord) : bool := negb (one_of (r_event_id r) (map r_event_id (expired oldest_first cutoff limit l))).

Lemma oldest_perm m : oldest_first m ≡ₚ m.
Proof. apply order. Qed.
Lemma expired_older r : r ∈ expired oldest_first cutoff limit l -> r ∈ l /\ older cutoff r = true.
Proof. intros I. eapply elem_of_sublist in I; [|apply sublist_take]. rewrite oldest_perm in I. apply list_elem_of_In, filter_In in I as [I O]. by rewrite list_elem_of_In. Qed.
Lemma same_event r x : r ∈ l -> x ∈ l -> r_event_id r = r_event_id x -> r = x.
Proof.
  intros R X E. clear -unique R X E. induction l as [|a m IH]; [by apply elem_of_nil in R|]. cbn in unique. apply NoDup_cons in unique as [U1 U2].
  apply elem_of_cons in R as [->|R], X as [->|X]; [done| | |by apply IH].
  - destruct U1. rewrite E. by apply list_elem_of_fmap_2.
  - destruct U1. rewrite <- E. by apply list_elem_of_fmap_2.
Qed.
Lemma kept_row_spec r : r ∈ l -> kept_row r = true <-> r ∉ expired oldest_first cutoff limit l.
Proof.
  intros R. unfold kept_row. rewrite negb_true_iff, one_of_false. split; intros N X; apply N; [by apply list_elem_of_fmap_2|].
  apply list_elem_of_fmap in X as (x & E & X). by rewrite (same_event r x R (proj1 (expired_older x X)) E).
Qed.
Lemma rest_later r x : r ∈ expired oldest_first cutoff limit l -> x ∈ l -> older cutoff x = true -> x ∉ expired oldest_first cutoff limit l -> r_created_at r <= r_created_at x.
Proof.
  intros R X O N. destruct (order (List.filter (older cutoff) l)) as [P S]. unfold expired in R, N.
  rewrite <- (take_drop (Z.to_nat limit) (oldest_first (List.filter (older cutoff) l))) in S.
  assert (D : x ∈ drop (Z.to_nat limit) (oldest_first (List.filter (older cutoff) l))).
  { assert (M : x ∈ oldest_first (List.filter (older cutoff) l)) by (rewrite oldest_perm; apply list_elem_of_In, filter_In; split; [by apply list_elem_of_In|done]).
    rewrite <- (take_drop (Z.to_nat limit)) in M. by apply elem_of_app in M as [M|M]. }
  exact (StronglySorted_app_1_elem_of _ _ _ _ _ S R D).
Qed.
Lemma split_length {A} (p : A -> bool) (m : list A) : length m = (length (List.filter p m) + length (List.filter (fun x => negb (p x)) m))%nat.
Proof. induction m as [|a m IH]; [done|]. cbn. destruct (p a); cbn; lia. Qed.
Lemma gone_length : length (List.filter (fun r => negb (kept_row r)) l) = length (expired oldest_first cutoff limit l).
Proof.
  apply Permutation_length. apply list.NoDup_Permutation.
  - apply NoDup_fmap_1 with r_event_id. eapply sublist_NoDup; [exact unique|]. apply fmap_sublist, filter_keeps.
  - eapply sublist_NoDup; [|apply sublist_take]. rewrite oldest_perm. apply NoDup_fmap_1 with r_event_id. eapply sublist_NoDup; [exact unique|]. apply fmap_sublist, filter_keeps.
  - intros r. rewrite list_elem_of_In, filter_In, <- list_elem_of_In. split.
    + intros [R K]. destruct (decide (r ∈ expired oldest_first cutoff limit l)) as [|N]; [done|]. apply (kept_row_spec r R) in N. by rewrite N in K.
    + intros X. pose proof (proj1 (expired_older r X)) as R. split; [done|]. destruct (kept_row r) eqn:K; [|done]. by apply (kept_row_spec r R) in K.
Qed.
End retention.

(** Retention takes the oldest entries and nothing else: a deletion removes
    as many entries from before the cutoff as there are, up to its limit, each no
    younger than any such entry it leaves, keeps all others in their order, and
    answers with their number. *)
Theorem retention_deletes_the_oldest (ip_address : string -> option string) (canonical : forall s t, ip_address s = Some t -> ip_address t = Some t)
    (oldest_first : log -> log) (order : orders Z.le oldest_first) es l cutoff limit :
  recorded ip_address es l -> 1 <= limit <= 10000 ->
  exists n l', delete_before oldest_first (Some cutoff) limit l = (Ok n, l') /\ l' `sublist_of` l /\
    n = Z.min limit (Z.of_nat (length (List.filter (older cutoff) l))) /\ Z.of_nat (length l') = Z.of_nat (length l) - n /\
    (forall r, r ∈ l -> older cutoff r = false -> r ∈ l') /\
    (forall r, r ∈ l -> r ∉ l' -> older cutoff r = true /\ forall x, x ∈ l' -> older cutoff x = true -> r_created_at r <= r_created_at x).
Proof.
  intros R L. apply (recorded_faithful ip_address canonical) in R as [_ U _]. unfold delete_before. replace (negb _) with false by lia.
  eexists _, (List.filter (kept_row oldest_first cutoff limit l) l). split; [reflexivity|].
  assert (K : forall r, r ∈ List.filter (kept_row oldest_first cutoff limit l) l <-> r ∈ l /\ r ∉ expired oldest_first cutoff limit l).
  { intros r. rewrite list_elem_of_In, filter_In, <- list_elem_of_In. split; intros [I X]; (split; [done|]); by apply (kept_row_spec oldest_first order cutoff limit l U r I). }
  split_and!.
  - apply filter_keeps.
  - unfold expired. rewrite length_take, (oldest_perm _ order). lia.
  - pose proof (split_length (kept_row oldest_first cutoff limit l) l). pose proof (gone_length oldest_first order cutoff limit l U). lia.
  - intros r I C. apply K. split; [done|]. intros X. apply (expired_older _ order) in X as [_ X]. congruence.
  - intros r I N. assert (X : r ∈ expired oldest_first cutoff limit l).
    { destruct (decide (r ∈ expired oldest_first cutoff limit l)) as [|X]; [done|]. destruct N. by apply K. }
    split; [by apply (expired_older oldest_first order cutoff limit l)|]. intros x [I' X']%K O. by apply (rest_later oldest_first order cutoff limit l r x X I').
Qed.

(** ** Logs hold no secret under its name, and nothing long or deep *)
Lemma py_take_length n s : py_len (py_take n s) <= Z.of_nat n.
Proof.
  unfold py_len. revert n. induction s as [|c s IH]; intros n; [cbn; lia|]. cbn [py_take]. destruct (continues c) eqn:C.
  - cbn. rewrite C. apply IH.
  - destruct n as [|n]; [cbn; lia|]. cbn. rewrite C. specialize (IH n). cbn. lia.
Qed.

Section clean.
Context (mask : string -> string) (maximum_string_length : nat).
Definition named_secret (key : option string) : bool := match key with Some k => sensitive_key k | None => false end.
(** What may be logged under a key, with [left] levels to go: nothing but the mark
    under a sensitive key, no text longer than the bound whose credentials were
    not masked, no level below the last. *)
Inductive clean : nat -> option string -> pyval -> Prop :=
| clean_secret left key : named_secret key = true -> clean left key (PStr REDACTED)
| clean_truncated key : named_secret key = false -> clean O key (PStr "[TRUNCATED]")
| clean_text left key s : named_secret key = false -> py_len s <= Z.of_nat maximum_string_length -> clean (S left) key (PStr (mask s))
| clean_plain left key v : named_secret key = false -> match v with PNone | PBool _ | PInt _ | PFloat _ => True | _ => False end -> clean (S left) key v
| clean_list left key l : named_secret key = false -> Forall (clean left None) l -> clean (S left) key (PList l)
| clean_dict left key d : named_secret key = false -> Forall (fun kv => clean left (Some kv.1) kv.2) d -> clean (S left) key (PDict d).
End clean.

(** Whatever is logged, the redactor leaves nothing that logs may not hold:
    under a name that tells a secret stands only the mark, at every depth, every
    text is the masked form of one within the length bound, and nothing is
    deeper than the depth bound. *)
Theorem redacted_is_clean (mask : string -> string) (str : pyval -> string) (maximum : nat) left key v :
  clean mask maximum left key (redact mask str maximum left key v).
Proof.
  revert key v. induction left as [|left IH]; intros key v; cbn [redact]; change (match key with Some k => sensitive_key k | None => false end) with (named_secret key);
    destruct (named_secret key) eqn:K; try (by constructor).
  unfold redact_text. destruct v; try (by constructor); try (apply (clean_text mask maximum left key); [done|apply py_take_length]).
  - apply clean_list; [done|]. apply Forall_map, Forall_true. intros x. apply IH.
  - apply clean_dict; [done|]. apply Forall_map, Forall_true. intros [k x]. apply IH.
Qed.

(** ** Concrete logs *)
Definition ex_ip (s : string) : option string := Some s.
Definition ex_args (i : string) (t : aware) : event_args :=
  {| a_event_id := i; a_event_type := "TOKEN_EXPIRED"; a_subject_id := Some " u-1 "%string; a_permission := None; a_route_template := "/api/v1/tasks";
     a_status := "DENIED"; a_reason_code := "expired"; a_request_id := "r-1"; a_remote_ip := Some "10.0.0.1"%string; a_created_at := Some t |}.
Definition utc (us : Z) : aware := {| wall := us; offset := 0 |}.
Definition ex_event (i : string) (t : aware) : SecurityAuditEvent :=
  match make_event ex_ip (ex_args i t) with Ok e => e | Err _ =>
    {| event_id := ""; event_type := TOKEN_INVALID; subject_id := None; permission := None; route_template := ""; status := ERROR; reason_code := ""; request_id := "";
       remote_ip := None; created_at := t |} end.
(** The third event is of a clock eight hours ahead of UTC. *)
Definition ex_events : list SecurityAuditEvent :=
  [ex_event "e-1" (utc 20400000); ex_event "e-2" (utc 10900000); ex_event "e-3" {| wall := 28830000000; offset := 28800000000 |}].
Definition ex_log : log := map to_record ex_events.
Definition by_newest (l : log) : log := sorted_key_desc r_created_at l.
Definition by_oldest (l : log) : log := sorted_key r_created_at l.
Lemma sorted_weaken {A} (P Q : A -> A -> Prop) l : (forall x y, P x y -> Q x y) -> StronglySorted P l -> StronglySorted Q l.
Proof. intros I. induction 1 as [|x l S IH F]; constructor; [done|]. eapply List.Forall_impl; [|exact F]. auto. Qed.
Lemma by_oldest_orders : orders Z.le by_oldest.
Proof.
  intros l. split; [apply sorted_key_perm|]. eapply sorted_weaken; [|apply sorted_key_sorted]. intros x y. unfold py_le, pycmp, z_cmp.
  destruct (Z.compare_spec (r_created_at x) (r_created_at y)); [lia|lia|done].
Qed.
Lemma by_newest_orders : orders Z.ge by_newest.
Proof.
  intros l. split; [apply sorted_key_desc_perm|]. eapply sorted_weaken; [|apply sorted_key_desc_sorted]. intros x y. unfold py_le, pycmp, z_cmp.
  destruct (Z.compare_spec (r_created_at y) (r_created_at x)); [lia|lia|done].
Qed.
Lemma ex_log_recorded : recorded ex_ip ex_events ex_log.
Proof.
  apply (recorded_append ex_ip (firstn 2 ex_events) (firstn 2 ex_log) (ex_args "e-3" {| wall := 28830000000; offset := 28800000000 |})); [|vm_compute; reflexivity..].
  apply (recorded_append ex_ip (firstn 1 ex_events) (firstn 1 ex_log) (ex_args "e-2" (utc 10900000))); [|vm_compute; reflexivity..].
  apply (recorded_append ex_ip [] [] (ex_args "e-1" (utc 20400000))); [constructor|vm_compute; reflexivity..].
Qed.
Lemma ex_canonical s t : ex_ip s = Some t -> ex_ip t = Some t.
Proof. done. Qed.
Example ex_deleted : r_event_id <$> (delete_before by_oldest (Some (utc 25000000)) 1 ex_log).2 = ["e-1"; "e-3"]%string.
Proof. vm_compute. reflexivity. Qed.
Example ex_redacted :
  redact (fun s => s) (fun _ => "")%string 4 2 None (PDict [("API-Key", PStr "abc"); ("note", PStr "abcdef"); ("a", PDict [("b", PInt 1); ("tokens", PInt 2)])]%string)
  = PDict [("API-Key", PStr REDACTED); ("note", PStr "abcd"); ("a", PDict [("b", PStr "[TRUNCATED]"); ("tokens", PStr REDACTED)])]%string.
Proof. vm_compute. reflexivity. Qed.

(** Eight hours too late, 0.4 s too early. *)
Example ex_read : (es ← list_recent ex_ip by_newest 2 ex_log; Ok (map (fun e => (event_id e, instant (created_at e))) es))
  = Ok [("e-3", 28830000000); ("e-1", 20000000)]%string.
Proof. vm_compute. reflexivity. Qed.
Lemma security_log_reads_back_witness :
  recorded ex_ip ex_events ex_log /\
  (exists picked, Permutation picked ex_events /\ StronglySorted (fun e x => datetime_column (created_at e) >= datetime_column (created_at x)) picked /\
     list_recent ex_ip by_newest 2 ex_log = Ok (map as_stored (take 2 picked))) /\
  instant (created_at (as_stored (ex_event "e-1" (utc 20400000)))) <= 20400000 + 500000.
Proof.
  destruct (security_log_reads_back ex_ip ex_canonical by_newest by_newest_orders ex_events ex_log 2 ex_log_recorded) as [P T]; [lia|].
  split; [exact ex_log_recorded|]. split; [exact P|]. exact (proj2 (T (ex_event "e-1" (utc 20400000)))).
Defined.
Lemma retention_deletes_the_oldest_witness :
  recorded ex_ip ex_events ex_log /\ exists n l', delete_before by_oldest (Some (utc 25000000)) 1 ex_log = (Ok n, l') /\ l' `sublist_of` ex_log /\
    n = Z.min 1 (Z.of_nat (length (List.filter (older (utc 25000000)) ex_log))) /\ Z.of_nat (length l') = Z.of_nat (length ex_log) - n /\
    (forall r, r ∈ ex_log -> older (utc 25000000) r = false -> r ∈ l') /\
    (forall r, r ∈ ex_log -> r ∉ l' -> older (utc 25000000) r = true /\ forall x, x ∈ l' -> older (utc 25000000) x = true -> r_created_at r <= r_created_at x).
Proof. split; [exact ex_log_recorded|]. apply (retention_deletes_the_oldest ex_ip ex_canonical by_oldest by_oldest_orders ex_events ex_log (utc 25000000) 1); [exact ex_log_recorded|lia]. Defined.
