(* ===== verification/Environment.v ===== *)
(** * Environment: weather and road condition of a route, with a fallback

    Models [app/services/environment.py] over the circuit breaker of RealRoutes
    and the providers of [app/providers/environment.py]; the HTTP request is a
    parameter, and a duration is carried as its text. *)

From S2P Require Import Prelude Texts Evidence RealRoutes.

Local Open Scope Z_scope.
Local Open Scope list_scope.

Record EnvironmentResult := {
  weather : string;
  road_condition : string;
  risk_level : string;
  provider_name : string;
  fallback_used : bool;
  env_fallback_reason : option string;
  elapsed_ms : string;
}.

(** ** Providers *)

(** [payload[key]] of a parsed response; the fields are texts. *)
Definition subscript (payload : pyval) (key : string) : result pyval :=
  match payload with PDict d => of_option (Exn "KeyError" key) (dict_get d key) | _ => Err (Exn "TypeError" "") end.
Definition text_field (payload : pyval) (key : string) : result string :=
  v ← subscript payload key; match v with PStr s => Ok s | _ => Err (Exn "TypeError" "") end.

Definition EnvironmentTimeout : exn := Exn "ProviderTimeout" "Environment request timed out".
Definition EnvironmentResponseError : exn := Exn "ProviderResponseError" "Environment provider response invalid".

(** [HttpEnvironmentProvider.get_environment] on what the request gave. *)
Definition http_environment (reply : result pyval) (elapsed : string) : result EnvironmentResult :=
  match (payload ← reply; w ← text_field payload "weather"; c ← text_field payload "road_condition"; r ← text_field payload "risk_level";
         Ok {| weather := w; road_condition := c; risk_level := r; provider_name := "http_environment"; fallback_used := false; env_fallback_reason := None;
               elapsed_ms := elapsed |}) with
  | Ok r => Ok r
  | Err e => if raised_as ["TimeoutError"; "TimeoutException"]%string e then Err EnvironmentTimeout
             else if raised_as ["HTTPError"; "KeyError"; "TypeError"; "ValueError"]%string e then Err EnvironmentResponseError
             else Err e
  end.

(** [StaticRouteFallbackProvider.get_fallback]. *)
Definition get_fallback (route_id reason elapsed : string) : EnvironmentResult :=
  let context := lower route_id in
  let '(w, c, r) :=
    if contains "closed" context then ("unknown", "closed", "critical")%string
    else if contains "rain" context || contains "slippery" context then ("heavy_rain", "slippery", "high")%string
    else ("unknown", "unknown", "elevated")%string in
  {| weather := w; road_condition := c; risk_level := r; provider_name := "static_route_fallback"; fallback_used := true; env_fallback_reason := Some reason;
     elapsed_ms := elapsed |}.

(** ** The service *)

(** What one call meets: the clock when it asks and when it reports a failure,
    the operations of other requests meanwhile, the provider's answer and the
    time that has passed. *)
Record weather_call := { asked : Z; meanwhile : CircuitBreaker -> CircuitBreaker; answered : result EnvironmentResult; failed : Z; passed_ms : string }.

Definition failure_reason (e : exn) : string :=
  if raised_as ["ProviderTimeout"]%string e then "Primary environment provider timed out." else "Primary environment provider failed.".

Definition get_environment (m : weather_call) (route_id : string) : action CircuitBreaker EnvironmentResult := fun b =>
  let (allowed, b1) := allow_request (asked m) b in
  if negb allowed then (Ok (get_fallback route_id "Environment circuit breaker is open." (passed_ms m)), b1) else
  let b2 := meanwhile m b1 in
  match answered m with
  | Ok r => (Ok r, record_success b2)
  | Err e => if raised_as ProviderError e then (Ok (get_fallback route_id (failure_reason e) (passed_ms m)), record_failure (failed m) b2) else (Err e, b2)
  end.

(** ** What a caller can rely on *)
Lemma http_environment_fails reply elapsed e : http_environment reply elapsed = Err e ->
  e = EnvironmentTimeout \/ e = EnvironmentResponseError \/ (reply = Err e /\ raised_as ["TimeoutError"; "TimeoutException"; "HTTPError"; "KeyError"; "TypeError"; "ValueError"]%string e = false).
Proof.
  unfold http_environment. destruct (reply ≫= _) as [r|x] eqn:E; [done|]. destruct (raised_as ["TimeoutError"; "TimeoutException"]%string x) eqn:T; [intros [= <-]; by left|].
  destruct (raised_as ["HTTPError"; "KeyError"; "TypeError"; "ValueError"]%string x) eqn:H; [intros [= <-]; by right; left|]. intros [= <-]. right. right.
  assert (F : forall p key y, text_field p key = Err y -> raised_as ["HTTPError"; "KeyError"; "TypeError"; "ValueError"]%string y = true).
  { intros p key y. unfold text_field, subscript. destruct p; cbn; try (intros [= <-]; done). destruct (dict_get d key) as [v|]; cbn; [|intros [= <-]; done].
    destruct v; try done; intros [= <-]; done. }
  destruct reply as [p|y]; cbn in E.
  - exfalso. destruct (text_field p "weather") as [w|y] eqn:W; cbn in E; [|injection E as <-; apply F in W; congruence].
    destruct (text_field p "road_condition") as [c|y] eqn:C; cbn in E; [|injection E as <-; apply F in C; congruence].
    destruct (text_field p "risk_level") as [r|y] eqn:R; cbn in E; [done|injection E as <-; apply F in R; congruence].
  - injection E as ->. split; [done|]. unfold raised_as in *. cbn in *. apply orb_false_iff in T as [T1 T2]. by rewrite T1; cbn; rewrite orb_false_r in T2; rewrite T2.
Qed.

(** A failing environment provider never fails a task: whatever the HTTP
    request gives (short of an error outside its documented classes), the
    service answers; it answers from the provider only when the breaker lets
    the request through and the response is complete, and every other answer is
    marked as a fallback, with a reason and a risk above normal. *)
Theorem environment_always_answers clock failed_at others reply elapsed passed route_id b :
  (forall e, reply = Err e -> raised_as ["TimeoutError"; "TimeoutException"; "HTTPError"; "KeyError"; "TypeError"; "ValueError"]%string e = true) ->
  exists r b', get_environment {| asked := clock; meanwhile := others; answered := http_environment reply elapsed; failed := failed_at; passed_ms := passed |} route_id b = (Ok r, b') /\
    (fallback_used r = false <-> (allow_request clock b).1 = true /\ http_environment reply elapsed = Ok r) /\
    (fallback_used r = true -> (exists why, env_fallback_reason r = Some why /\ why <> ""%string) /\ risk_level r ∈ ["critical"; "high"; "elevated"]%string /\
       ((allow_request clock b).1 = true -> b' = record_failure failed_at (others (allow_request clock b).2))).
Proof.
  intros H. unfold get_environment. cbn [asked meanwhile answered failed passed_ms]. destruct (allow_request clock b) as [[] b1]; cbn [negb].
  - assert (F : forall why, why <> ""%string -> fallback_used (get_fallback route_id why passed) = true /\
        (exists w, env_fallback_reason (get_fallback route_id why passed) = Some w /\ w <> ""%string) /\ risk_level (get_fallback route_id why passed) ∈ ["critical"; "high"; "elevated"]%string).
    { intros why N. unfold get_fallback. destruct (contains "closed" _); [|destruct (_ || _)]; cbn; (split; [done|split; [by exists why|rewrite <- one_of_true; reflexivity]]). }
    destruct (http_environment reply elapsed) as [r|e] eqn:E.
    + exists r, (record_success (others b1)). split; [done|]. assert (U : fallback_used r = false).
      { unfold http_environment in E. destruct (reply ≫= _) as [r'|x] eqn:X; [|destruct (raised_as _ x); [done|]; by destruct (raised_as _ x)]. injection E as <-.
        apply result_bind_ok in X as (p & _ & X). apply result_bind_ok in X as (w & _ & X). apply result_bind_ok in X as (c & _ & X). apply result_bind_ok in X as (q & _ & X). by injection X as <-. }
      rewrite U. done.
    + assert (P : raised_as ProviderError e = true).
      { destruct (http_environment_fails _ _ _ E) as [->|[->|[-> X]]]; [done|done|]. by rewrite (H e eq_refl) in X. }
      rewrite P. eexists _, _. split; [done|]. assert (N : failure_reason e <> ""%string) by (intros N; unfold failure_reason in N; destruct (raised_as ["ProviderTimeout"%string] e); discriminate N).
      destruct (F _ N) as (F1 & F2 & F3). rewrite F1. split; [split; [done|intros [_ ?]; done]|]. intros _. split_and!; done.
  - eexists _, _. split; [done|]. unfold get_fallback. destruct (contains "closed" _); [|destruct (_ || _)]; cbn;
      (split; [split; [done|by intros [? _]]|]); intros _; (split; [by eexists|]); (split; [rewrite <- one_of_true; reflexivity|done]).
Qed.

Lemma environment_always_answers_witness : exists r b',
  get_environment {| asked := 0; meanwhile := id; answered := http_environment (Err (Exn "TimeoutError" "")) "12.5"; failed := 5; passed_ms := "12.5" |} "rain-road" (circuit_breaker 1 10) = (Ok r, b') /\
  fallback_used r = true /\ risk_level r = "high"%string /\ state b' = OPEN.
Proof.
  destruct (environment_always_answers 0 5 id (Err (Exn "TimeoutError" "")) "12.5" "12.5" "rain-road" (circuit_breaker 1 10)) as (r & b' & E & _ & F).
  - intros e [= <-]. reflexivity.
  - exists r, b'. split; [exact E|]. assert (U : fallback_used r = true) by (vm_compute in E; injection E as <- _; reflexivity).
    split; [exact U|]. split; [vm_compute in E; injection E as <- _; reflexivity|]. destruct (F U) as (_ & _ & B). rewrite (B eq_refl). reflexivity.
Defined.
