(* ===== verification/Agents.v ===== *)
(** * Agents: the eight nodes of the dispatch graph

    Models [app/agents/*.py] (the audit node is in AuditReview),
    [app/graph/dependencies.py] and [app/memory/service.py].  A node reads the
    untyped state and answers with a patch; the services it may be given are
    operations on a world [W], each of them optional as in [GraphDependencies].
    The texts of numbers are arguments: the model's decimals are rationals, which
    do not carry the exponent that Python prints. *)

From S2P Require Import Prelude Texts Decimal DecimalText Evidence Snapshots.
From S2P Require RoadNetwork Fleet Capacity Routing RealRoutes Recommendations Environment GraphMemory Sandtable Dispatch AuditReview Events.

Local Open Scope Z_scope.
Local Open Scope list_scope.

(** ** Memory of past resolutions *)
Record MemoryRecall := {
  memory_id : string;
  similarity_score : Q;
  m_driver_id : string;
  m_route_id : string;
  m_anomaly_type : string;
  historical_resolution : string;
  m_metadata : pydict;
}.
Definition memory_context_text (driver route anomaly detail : string) : string :=
  "司机 " +:+ driver +:+ " 路线 " +:+ route +:+ " 异常 " +:+ anomaly +:+ " " +:+ detail.
Definition memory_recall_query (driver route anomaly normalized : string) : string :=
  memory_context_text driver route anomaly ("异常描述 " +:+ normalized).

(** ** The services of the graph *)
Record RoutingService (W : Type) := {
  can_plan : bool;
  plan_route : Routing.RoutePlanningContext -> pydict -> list string -> list pyval -> option RoadNetwork.RoadNetworkSnapshot -> action W Routing.RoutingResult;
  score_routes : string -> list pyval -> string -> string -> string -> pydict -> action W Routing.RoutingResult;
}.
Arguments can_plan {W} _.
Arguments plan_route {W} _.
Arguments score_routes {W} _.

Record GraphDependencies (W : Type) := {
  audit_service : option (pydict -> action W AuditReview.AuditResult);
  capacity_service : option (string -> option string -> string -> Z -> string -> option Q -> option string -> action W Capacity.CapacityResult);
  dispatch_service : option (Dispatch.request -> action W Dispatch.DispatchResult);
  entity_memory_service : option (string -> action W (list MemoryRecall));
  graph_memory_service : option (GraphMemory.GraphMemoryContext -> action W GraphMemory.GraphMemoryRecall);
  environment_service : option (string -> action W Environment.EnvironmentResult);
  routing_service : option (RoutingService W);
  real_road_route_service : option (list string -> action W RealRoutes.RealRoadRoute);
  sandtable_context_service : option (Z -> string -> string -> option string -> action W Sandtable.resolution);
  fleet_allocation_service : option (Fleet.FleetAllocationRequest -> option RoadNetwork.RoadNetworkSnapshot -> action W Fleet.FleetAllocationResult);
  road_network_snapshot_service : option (action W RoadNetwork.RoadNetworkSnapshot);     (* its provider's [snapshot()] *)
}.
Arguments audit_service {W} _.
Arguments capacity_service {W} _.
Arguments dispatch_service {W} _.
Arguments entity_memory_service {W} _.
Arguments graph_memory_service {W} _.
Arguments environment_service {W} _.
Arguments routing_service {W} _.
Arguments real_road_route_service {W} _.
Arguments sandtable_context_service {W} _.
Arguments fleet_allocation_service {W} _.
Arguments road_network_snapshot_service {W} _.

(** [format(x, "f")] of a decimal and of one read from text, [str] of a decimal and of a float. *)
Record formats := { format_dec : Q -> string; format_read : decimal -> string; str_dec : Q -> string; str_float : Q -> string }.

(** ** Reading the state *)
Definition opt_text (state : pydict) (key : string) : result (option string) :=
  match get state key with PNone => Ok None | PStr s => Ok (Some s) | _ => Err ill_typed end.
Definition text_default (state : pydict) (key d : string) : result string := match dict_get state key with None => Ok d | Some v => as_text v end.
Definition flag_default (state : pydict) (key : string) : result bool := match dict_get state key with None => Ok false | Some v => as_bool v end.
Definition items_default (state : pydict) (key : string) : result (list pyval) := match dict_get state key with None => Ok [] | Some v => as_items v end.
Definition texts_default (state : pydict) (key : string) : result (list string) := l ← items_default state key; map_result as_text l.
Definition dict_default (state : pydict) (key : string) : result pydict := match dict_get state key with None => Ok [] | Some v => as_dict v end.
Definition some_text (o : option string) : option string := match o with Some s => if String.eqb s "" then None else Some s | None => None end.
Definition lift {W A} (r : result A) : action W A := fun w => (r, w).

(** [str.split()]: the words between white space. *)
Fixpoint words (fuel : nat) (word s : string) : list string :=
  let flush := if String.eqb word "" then [] else [word] in
  match fuel, s with
  | O, _ | _, EmptyString => flush
  | S fuel', String c s' =>
      match List.find (fun w => String.prefix w s) whitespace with
      | Some w => flush ++ words fuel' "" (String.substring (String.length w) (String.length s - String.length w) s)
      | None => words fuel' (word +:+ String c "") s'
      end
  end.
Definition normalized_text (description : string) : string := join " " (words (String.length description) "" description).

Section nodes.
Context {W : Type} (f : formats) (now : string).

(** ** intake *)
Definition started (state : pydict) (patch : pydict) : pydict :=
  if Events.truthy (get state "started_at") then patch else patch ++ [("started_at"%string, PStr now)].
Definition review (code message : string) : pydict :=
  [("requires_manual_review", PBool true); ("error_code", PStr code); ("error_message", PStr message)]%string.
Definition driver_of (c : Routing.SandtableTaskContext) (state : pydict) : result string :=
  match some_text (Routing.st_current_driver_id c) with Some d => Ok d | None => need_text state "driver_id" end.
Definition weights (c : Routing.SandtableTaskContext) : pydict :=
  let w := PStr (format_dec f (Routing.st_vehicle_weight_tons c)) in
  [("vehicle_weight_tons", w); ("original_vehicle_weight_tons", w); ("active_vehicle_weight_tons", w)]%string.

Definition not_unique : pydict := review "ROAD_LOCATION_UNRESOLVED" "The reported road location could not be resolved uniquely.".
Definition wrong_vehicle : pydict := review "VEHICLE_ASSIGNMENT_MISMATCH" "请求车辆与订单当前分配车辆不一致，请人工核对订单车辆信息。".

Definition mismatch_patch (patch : pydict) (c : Routing.SandtableTaskContext) (state : pydict) : result pydict :=
  d ← driver_of c state;
  Ok (Events.dict_update patch ([("sandtable_context_loaded", PBool true); ("vehicle_id", PStr (Routing.st_current_vehicle_id c)); ("driver_id", PStr d)]%string
                                ++ weights c ++ wrong_vehicle)).

Definition context_patch (c : Routing.SandtableTaskContext) (snapshot : option pydict) (state : pydict) : result pydict :=
  version ← match snapshot with Some s => need_int s "version" | None => Ok (Routing.st_network_version c) end;
  d ← driver_of c state;
  Ok ([("sandtable_context_loaded", PBool true); ("cargo_weight_kg", PStr (format_dec f (Routing.st_cargo_weight_kg c))); ("cargo_type", PStr (Routing.st_cargo_type c));
       ("origin_node_id", PStr (Routing.st_origin_node_id c)); ("destination_node_id", PStr (Routing.st_destination_node_id c));
       ("vehicle_id", PStr (Routing.st_current_vehicle_id c)); ("driver_id", PStr d); ("incident_node_id", opt_str (Routing.st_incident_node_id c));
       ("affected_edge_ids", strs (Routing.st_affected_edge_ids c)); ("blocked_edge_ids", strs (Routing.st_affected_edge_ids c));
       ("road_network_version", PInt version)]%string
      ++ weights c ++ match snapshot with Some s => [("road_network_snapshot"%string, PDict s)] | None => [] end).

Definition LookupErrors : list string := ["LookupError"; "KeyError"; "IndexError"]%string.

Definition intake_node (deps : GraphDependencies W) (state : pydict) : action W pydict :=
  (do description <- lift (text_default state "anomaly_description" "");
   let normalized := normalized_text description in
   if negb (Events.truthy (get state "task_id") && Events.truthy (get state "order_id") && Events.truthy (get state "anomaly_type") && negb (String.eqb normalized ""))
   then ret_action (review "INTAKE_VALIDATION_ERROR" "Anomaly description is required.")
   else
     let patch := [("normalized_anomaly", PStr normalized); ("requires_manual_review", PBool false)]%string in
     match sandtable_context_service deps with
     | None => ret_action (started state patch)
     | Some resolve =>
         let patch := patch ++ [("sandtable_context_loaded"%string, PBool false)] in
         do found <- except_as LookupErrors
                       (except_as ["RoadLocationUnresolved"%string]
                          (do i <- lift (need_int state "order_id"); do t <- lift (need_text state "anomaly_type"); do v <- lift (opt_text state "vehicle_id");
                           do x <- resolve i t normalized v; ret_action (Some (Some x)))
                          (ret_action (Some None)))
                       (ret_action None);
         match found with
         | None => ret_action (started state patch)
         | Some None => ret_action (Events.dict_update patch ([("sandtable_context_loaded"%string, PBool true)] ++ not_unique))
         | Some (Some (Sandtable.VehicleAssignmentMismatch c)) => lift (mismatch_patch patch c state)
         | Some (Some (Sandtable.Resolved c)) =>
             do snapshot <- match road_network_snapshot_service deps with
                            | Some provider => (do s <- provider; ret_action (Some (to_state s)))
                            | None => ret_action None
                            end;
             do update <- lift (context_patch c snapshot state);
             ret_action (started state (Events.dict_update patch update))
         end
     end)%action.

(** ** entity_memory and graph_memory *)
Definition memory_recall_to_state (m : MemoryRecall) : pyval :=
  PDict [("memory_id", PStr (memory_id m)); ("similarity_score", PFloat (str_float f (similarity_score m))); ("driver_id", PStr (m_driver_id m));
         ("route_id", PStr (m_route_id m)); ("anomaly_type", PStr (m_anomaly_type m)); ("historical_resolution", PStr (historical_resolution m));
         ("metadata", PDict (m_metadata m))]%string.

(** [state.get("normalized_anomaly", state["anomaly_description"])]: the default is read first. *)
Definition anomaly_text (state : pydict) : result string :=
  dflt ← need_text state "anomaly_description"; text_default state "normalized_anomaly" dflt.

Definition entity_memory_node (deps : GraphDependencies W) (state : pydict) : action W pydict :=
  match entity_memory_service deps with
  | None => ret_action [("memory_results"%string, PList [])]
  | Some recall =>
      (do driver <- lift (need_text state "driver_id"); do route <- lift (need_text state "route_id"); do anomaly <- lift (need_text state "anomaly_type");
       do text <- lift (anomaly_text state);
       except_as RealRoutes.ProviderError
         (do recalls <- recall (memory_recall_query driver route anomaly text);
          ret_action [("memory_results"%string, PList (map memory_recall_to_state recalls))])
         (ret_action [("memory_results", PList []); ("error_code", PStr "MEMORY_RECALL_ERROR");
                      ("error_message", PStr "Entity memory recall is temporarily unavailable.")]%string))%action
  end.

Definition graph_patch (facts paths : list pyval) (used : bool) (error : option string) (elapsed : string) : pydict :=
  [("graph_memory_facts", PList facts); ("graph_memory_paths", PList paths); ("graph_memory_used", PBool used); ("graph_memory_error", opt_str error);
   ("graph_memory_elapsed_ms", PFloat elapsed)]%string.

Definition graph_memory_node (deps : GraphDependencies W) (state : pydict) : action W pydict :=
  match graph_memory_service deps with
  | None => ret_action (graph_patch [] [] false None "0.0")
  | Some recall =>
      (do driver <- lift (need_text state "driver_id"); do route <- lift (need_text state "route_id"); do anomaly <- lift (need_text state "anomaly_type");
       do text <- lift (anomaly_text state); do vehicle <- lift (opt_text state "vehicle_id"); do w <- lift (opt_text state "weather");
       except_as ["GraphMemoryError"%string]
         (do r <- recall {| GraphMemory.driver_id := driver; GraphMemory.route_id := route; GraphMemory.anomaly_type := anomaly; GraphMemory.text := text;
                            GraphMemory.vehicle_id := vehicle; GraphMemory.weather := w |};
          let facts := GraphMemory.facts r in let paths := GraphMemory.paths r in
          ret_action (graph_patch (map (fun x => PDict (GraphMemory.relation_to_dict (str_float f) x)) facts)
                                  (map (fun x => PDict (GraphMemory.path_to_dict (str_float f) x)) paths)
                                  (match facts, paths with [], [] => false | _, _ => true end) None (GraphMemory.elapsed_ms r)))
         (ret_action (graph_patch [] [] false (Some "Graph memory recall is temporarily unavailable."%string) "0.0")))%action
  end.

(** ** environment *)
Definition environment_node (deps : GraphDependencies W) (state : pydict) : action W pydict :=
  match environment_service deps with
  | None => ret_action []
  | Some get_environment =>
      (do route <- lift (need_text state "route_id");
       do r <- get_environment route;
       ret_action [("weather", PStr (Environment.weather r)); ("road_condition", PStr (Environment.road_condition r)); ("environment_risk", PStr (Environment.risk_level r));
                   ("fallback_used", PBool (Environment.fallback_used r)); ("fallback_reason", opt_str (Environment.env_fallback_reason r));
                   ("environment_provider", PStr (Environment.provider_name r)); ("environment_elapsed_ms", PFloat (Environment.elapsed_ms r))]%string)%action
  end.
End nodes.

Section decisions.
Context {W : Type} (f : formats).

(** ** capacity *)
Definition capacity_value (driver_available vehicle_available : bool) (load_ratio : string) (station : option string) (status risk : string) (why : option string) (provider : string) : pydict :=
  [("driver_available", PBool driver_available); ("vehicle_available", PBool vehicle_available); ("load_ratio", PFloat load_ratio);
   ("station_load_ratio", match station with Some t => PFloat t | None => PNone end); ("capacity_status", PStr status); ("risk_level", PStr risk);
   ("reason", opt_str why); ("provider_name", PStr provider)]%string.
Definition capacity_result_to_state (r : Capacity.CapacityResult) : pydict :=
  capacity_value (Capacity.res_driver_available r) (Capacity.res_vehicle_available r) (str_float f (Capacity.res_load_ratio r))
    (str_float f <$> Capacity.res_station_load_ratio r) (Capacity.capacity_status r) (Capacity.capacity_risk_level r) (Capacity.capacity_reason r) (Capacity.res_provider_name r).
Definition assumed_capacity (available legacy : bool) : pydict :=
  capacity_value available available "0.0" None (if available then "AVAILABLE" else "UNAVAILABLE") (if available then "low" else "high") None
    (if legacy then "legacy_compatibility" else "sandtable_graph").
Definition unknown_capacity : pydict :=
  capacity_value false false "0.0" None "UNKNOWN" "high" (Some "Capacity evaluation is temporarily unavailable."%string) "unknown".

Definition path_to_state (p : option RoadNetwork.PathResult) : option pydict :=
  (fun p => [("objective", PStr (RoadNetwork.objective_value (RoadNetwork.objective p))); ("node_ids", strs (RoadNetwork.path_node_ids p));
             ("edge_ids", strs (RoadNetwork.path_edge_ids p)); ("distance_km", PStr (str_dec f (RoadNetwork.path_distance_km p)));
             ("estimated_minutes", PInt (RoadNetwork.estimated_minutes p)); ("risk_cost", PStr (str_dec f (RoadNetwork.risk_cost p)));
             ("visited_node_count", PInt (RoadNetwork.visited_node_count p))]%string) <$> p.
Definition opt_dec (q : option Q) : pyval := opt_str (format_dec f <$> q).

Definition score_components_to_state (c : Fleet.FleetScoreComponents) : pydict :=
  map (fun kv => (kv.1, PStr (format_dec f kv.2)))
    [("eta_penalty", Fleet.eta_penalty c); ("distance_penalty", Fleet.distance_penalty c); ("load_penalty", Fleet.load_penalty c);
     ("road_risk_penalty", Fleet.road_risk_penalty c); ("same_station_bonus", Fleet.same_station_bonus c); ("cargo_exact_match_bonus", Fleet.cargo_exact_match_bonus c)]%string.
Definition candidate_to_state (c : Fleet.VehicleCandidate) : pydict :=
  let remaining := PStr (format_dec f (Fleet.cand_remaining_load_kg c)) in
  [("vehicle_id", PStr (Fleet.cand_vehicle_id c)); ("driver_id", opt_str (Fleet.cand_driver_id c)); ("vehicle_status", PStr (Fleet.cand_vehicle_status c));
   ("driver_status", opt_str (Fleet.cand_driver_status c)); ("remaining_load_kg", remaining); ("remaining_capacity_kg", remaining);
   ("gross_weight_tons", PStr (format_dec f (Fleet.cand_gross_weight_tons c))); ("cargo_capability", PStr (Fleet.cand_cargo_capability c));
   ("pickup_route", opt_dict (path_to_state (Fleet.pickup_route c))); ("pickup_distance_km", opt_dec (Fleet.pickup_distance_km c));
   ("pickup_eta_minutes", opt_int (Fleet.pickup_eta_minutes c)); ("score", opt_dec (Fleet.score c));
   ("score_components", opt_dict (score_components_to_state <$> Fleet.score_components c)); ("scoring_formula", PStr "FLEET_SCORE_V1");
   ("eligible", PBool (Fleet.eligible c)); ("exclusion_reasons", strs (Fleet.exclusion_reasons c))]%string.

Definition broken_statuses : list string := ["BROKEN"; "UNAVAILABLE"; "MAINTENANCE"]%string.

Definition fleet_request (state : pydict) : result Fleet.FleetAllocationRequest :=
  original ← text_default state "vehicle_id" "";
  incident ← opt_text state "incident_node_id";
  node ← match some_text incident with Some n => Ok n | None => text_default state "origin_node_id" "" end;
  weight_text ← text_default state "cargo_weight_kg" "0"; weight ← finite_decimal weight_text;
  cargo ← text_default state "cargo_type" "GENERAL";
  destination ← opt_text state "destination_node_id";
  Ok {| Fleet.original_vehicle_id := original; Fleet.incident_node_id := node; Fleet.cargo_weight_kg := weight; Fleet.cargo_type := cargo;
        Fleet.destination_node_id := destination |}.

(** [next(c.gross_weight_tons for c in candidates if ...)]; inside a coroutine an exhausted generator is a [RuntimeError]. *)
Definition selected_weight (a : Fleet.FleetAllocationResult) : result Q :=
  of_option (Exn "RuntimeError" "coroutine raised StopIteration")
    (Fleet.cand_gross_weight_tons <$> List.find (fun c => bool_decide (Some (Fleet.cand_vehicle_id c) = Fleet.selected_vehicle_id a)) (Fleet.candidates a)).

Definition reassigned_patch (capacity : pydict) (a : Fleet.FleetAllocationResult) : result pydict :=
  w ← selected_weight a;
  Ok [("capacity_state", PDict (Events.dict_update capacity [("driver_available", PBool true); ("vehicle_available", PBool true); ("capacity_status", PStr "REASSIGNED");
                                                              ("risk_level", PStr "low"); ("reason", PNone)]));
      ("candidate_vehicles", PList (map (fun c => PDict (candidate_to_state c)) (Fleet.candidates a)));
      ("selected_vehicle_id", opt_str (Fleet.selected_vehicle_id a)); ("selected_driver_id", opt_str (Fleet.selected_driver_id a));
      ("selected_vehicle_gross_weight_tons", PStr (format_dec f w)); ("active_vehicle_weight_tons", PStr (format_dec f w)); ("vehicle_reassigned", PBool true);
      ("pickup_route", opt_dict (path_to_state (Fleet.result_pickup_route a))); ("requires_manual_review", PBool false)]%string.
Definition no_replacement_patch (capacity : pydict) (a : Fleet.FleetAllocationResult) : pydict :=
  [("capacity_state", PDict (Events.dict_update capacity [("vehicle_available", PBool false); ("capacity_status", PStr "UNAVAILABLE"); ("risk_level", PStr "high");
                                                           ("reason", opt_str (Fleet.reason a))]));
   ("candidate_vehicles", PList (map (fun c => PDict (candidate_to_state c)) (Fleet.candidates a))); ("requires_manual_review", PBool true);
   ("error_code", PStr "NO_REPLACEMENT_VEHICLE"); ("error_message", PStr "No eligible replacement vehicle is available.")]%string.

(** [road_network_snapshot_service.restore(...)] when there are a service and a snapshot. *)
Definition restored (deps : GraphDependencies W) (state : pydict) : result (option RoadNetwork.RoadNetworkSnapshot) :=
  match road_network_snapshot_service deps, get state "road_network_snapshot" with
  | Some _, PNone | None, _ => Ok None
  | Some _, v => d ← as_dict v; s ← restore d; Ok (Some s)
  end.

Definition normal_vehicle (state : pydict) : bool := match dict_get state "vehicle_status" with None => true | Some v => py_eq v (PStr "NORMAL") end.

(** The capacity state, or the patch of a failed evaluation. *)
Definition evaluated (deps : GraphDependencies W) (state : pydict) (legacy : bool) : action W (pydict + pydict) :=
  match capacity_service deps with
  | Some evaluate =>
      if legacy then ret_action (inl (assumed_capacity (normal_vehicle state) legacy)) else
      except_as ["CapacityEvaluationError"%string]
        (do driver <- lift (need_text state "driver_id"); do vehicle <- lift (opt_text state "vehicle_id"); do route <- lift (need_text state "route_id");
         do order <- lift (need_int state "order_id"); do status <- lift (text_default state "vehicle_status" "NORMAL"); do weight_text <- lift (opt_text state "cargo_weight_kg");
         do weight <- lift (match weight_text with Some t => q ← finite_decimal t; Ok (Some q) | None => Ok None end); do cargo <- lift (opt_text state "cargo_type");
         do r <- evaluate driver vehicle route order status weight cargo;
         ret_action (inl (capacity_result_to_state r)))%action
        (ret_action (inr ([("capacity_state"%string, PDict unknown_capacity)]
                          ++ review "CAPACITY_EVALUATION_ERROR" "Capacity evaluation is temporarily unavailable.")))
  | None => ret_action (inl (assumed_capacity (normal_vehicle state) legacy))
  end.

Definition capacity_node (deps : GraphDependencies W) (state : pydict) : action W pydict :=
  let legacy := match get state "sandtable_context_loaded" with PBool false => true | _ => false end in
  (do x <- evaluated deps state legacy;
   match x with
   | inr patch => ret_action patch
   | inl capacity =>
       match fleet_allocation_service deps with
       | Some allocate =>
           if negb legacy && match get state "vehicle_status" with PStr s => one_of s broken_statuses | _ => false end then
             do road <- lift (restored deps state);
             do request <- lift (fleet_request state);
             do a <- allocate request road;
             if Fleet.vehicle_reassigned a then lift (reassigned_patch capacity a) else ret_action (no_replacement_patch capacity a)
           else ret_action [("capacity_state"%string, PDict capacity)]
       | None => ret_action [("capacity_state"%string, PDict capacity)]
       end
   end)%action.
End decisions.

Section routing.
Context {W : Type} (f : formats).

(** ** routing *)
Definition route_score_components_to_state (c : Routing.RouteCandidate) : pyval :=
  opt_dict ((fun s => map (fun kv => (kv.1, PStr (format_dec f kv.2)))
    [("normalized_minutes", Routing.normalized_minutes s); ("normalized_distance", Routing.normalized_distance s); ("normalized_risk", Routing.normalized_risk s);
     ("time_penalty", Routing.time_penalty s); ("distance_penalty", Routing.distance_penalty s); ("risk_penalty", Routing.route_risk_penalty s)]%string)
    <$> Routing.rc_score_components c).

(** [score.quantize(Decimal("0.01"))] rounds ties to even; the text is that of the rounded score when it is the score. *)
Definition route_score_to_state (score : Q) : result string :=
  let n := half_even (score * pow10 2) in
  if negb (Z.abs n <? 10 ^ prec) then Err InvalidOperation
  else Ok (if Qeq_bool score (inject_Z n * pow10 (-2)) then format_fixed 2 score else format_dec f score).

Definition route_candidate_to_state (c : Routing.RouteCandidate) : result pydict :=
  score ← route_score_to_state (Routing.rc_score c);
  Ok [("route_id", PStr (Routing.route_id c)); ("route_name", PStr (Routing.route_name c)); ("distance_km", PStr (format_dec f (Routing.rc_distance_km c)));
      ("estimated_minutes", PInt (Routing.rc_estimated_minutes c)); ("risk_level", PStr (Routing.rc_risk_level c)); ("available", PBool (Routing.available c));
      ("reason", opt_str (Routing.rc_reason c)); ("score", PStr score); ("node_ids", strs (Routing.rc_node_ids c)); ("edge_ids", strs (Routing.rc_edge_ids c));
      ("objective", opt_str (Routing.rc_objective c)); ("algorithm_version", opt_str (Routing.algorithm_version c));
      ("scoring_formula", opt_str (Routing.scoring_formula c)); ("score_components", route_score_components_to_state c);
      ("road_network_version", opt_int (Routing.road_network_version c)); ("visited_node_count", opt_int (Routing.rc_visited_node_count c));
      ("risk_cost", opt_str (str_dec f <$> Routing.rc_risk_cost c))]%string.

Definition geo_point_to_state (p : RealRoutes.GeoPoint) : pyval :=
  PDict [("node_id", opt_str (RealRoutes.node_id p)); ("longitude", PStr (format_read f (RealRoutes.longitude p)));
         ("latitude", PStr (format_read f (RealRoutes.latitude p)))]%string.
Definition real_road_route_to_state (r : RealRoutes.RealRoadRoute) : pydict :=
  [("provider", PStr (RealRoutes.provider r)); ("source", PStr (RealRoutes.source r)); ("status", PStr (RealRoutes.r_status r));
   ("coordinate_system", PStr (RealRoutes.coordinate_system r)); ("mapping_version", PStr (RealRoutes.mapping_version r));
   ("distance_meters", opt_int (RealRoutes.distance_meters r)); ("duration_seconds", opt_int (RealRoutes.duration_seconds r));
   ("waypoints", PList (map geo_point_to_state (RealRoutes.waypoints r))); ("polyline", PList (map geo_point_to_state (RealRoutes.polyline r)));
   ("fallback_reason", opt_str (RealRoutes.fallback_reason r))]%string.

(** [x or y] of two values. *)
Definition py_or (x y : pyval) : pyval := if Events.truthy x then x else y.
Definition weight_of (v : pyval) : result Q := t ← as_text v; finite_decimal t.
Definition no_weight : exn := Exn "ValueError" "original_vehicle_weight_tons is required for offline road-network planning".

Definition planning_context (state : pydict) : result Routing.RoutePlanningContext :=
  let original := py_or (get state "original_vehicle_weight_tons") (get state "vehicle_weight_tons") in
  if is_none original then Err no_weight else
  let active := py_or (py_or (get state "active_vehicle_weight_tons") (get state "selected_vehicle_gross_weight_tons")) original in
  order ← need_int state "order_id";
  cargo_text ← text_default state "cargo_weight_kg" "0"; cargo_weight ← finite_decimal cargo_text;
  cargo ← text_default state "cargo_type" "GENERAL";
  origin ← need_text state "origin_node_id"; destination ← need_text state "destination_node_id";
  selected ← opt_text state "selected_vehicle_id";
  vehicle ← match some_text selected with Some v => Ok v | None => text_default state "vehicle_id" "" end;
  selected_driver ← opt_text state "selected_driver_id";
  driver ← match some_text selected_driver with Some d => Ok (Some d) | None => opt_text state "driver_id" end;
  incident ← opt_text state "incident_node_id";
  affected ← texts_default state "affected_edge_ids";
  version ← match dict_get state "road_network_version" with None => Ok 0 | Some v => as_int v end;
  original_weight ← weight_of original; active_weight ← weight_of active;
  Ok {| Routing.order_id := order; Routing.order_no := z_str order; Routing.cargo_weight_kg := cargo_weight; Routing.cargo_type := cargo;
        Routing.origin_node_id := origin; Routing.destination_node_id := destination; Routing.current_vehicle_id := vehicle; Routing.current_driver_id := driver;
        Routing.incident_node_id := incident; Routing.affected_edge_ids := affected; Routing.context_network_version := version;
        Routing.original_vehicle_weight_tons := original_weight; Routing.active_vehicle_weight_tons := active_weight |}.

(** The recommendation's patch.  A breakdown whose vehicle was replaced keeps the route the routing service recommends. *)
Definition reassigned_breakdown (category : string) (capacity_status : pyval) : bool :=
  String.eqb category "VEHICLE_BREAKDOWN" && py_eq capacity_status (PStr "REASSIGNED").
Definition kept_route (r : Routing.RoutingResult) (i : Recommendations.IssueRecommendation) (capacity_status : pyval) : option string :=
  if reassigned_breakdown (Recommendations.issue_category i) capacity_status then Routing.recommended_route r else Recommendations.recommended_route i.
Definition needs_review (r : Routing.RoutingResult) (i : Recommendations.IssueRecommendation) (capacity_status : pyval) : bool :=
  Routing.requires_manual_review r
  || (one_of (Recommendations.issue_category i) Recommendations.NON_ROUTE_CATEGORIES && negb (reassigned_breakdown (Recommendations.issue_category i) capacity_status))
  || (String.eqb (Routing.decision r) "REROUTE" && bool_decide (kept_route r i capacity_status = None)).

Definition recommendation_patch (state : pydict) (r : Routing.RoutingResult) (candidate_routes : list pydict) : result pydict :=
  anomaly ← need_text state "anomaly_type"; description ← need_text state "anomaly_description";
  vehicle_status ← opt_text state "vehicle_status"; risk ← opt_text state "environment_risk";
  capacity ← dict_default state "capacity_state"; status ← opt_text capacity "capacity_status";
  let i := Recommendations.recommend anomaly description vehicle_status risk status candidate_routes (Routing.recommended_route r) in
  let review := needs_review r i (opt_str status) in
  Ok [("candidate_routes", PList (map PDict candidate_routes)); ("recommended_route", opt_str (kept_route r i (opt_str status)));
      ("identified_issue", PStr (Recommendations.issue_category i)); ("issue_subtype", PStr (Recommendations.issue_subtype i));
      ("recommended_action", PStr (Recommendations.recommended_action i)); ("analysis_mode", PStr (Recommendations.analysis_mode i));
      ("decision", PStr (if review then "MANUAL_REVIEW" else Routing.decision r));
      ("decision_reason", PStr (Recommendations.analysis_reason i +:+ " 路由依据：" +:+ Routing.decision_reason r));
      ("memory_adopted", PBool (Routing.memory_adopted r)); ("adopted_memory_id", opt_str (Routing.adopted_memory_id r)); ("requires_manual_review", PBool review)]%string.

Definition node_state_value (n : Routing.NodeState) : pyval :=
  PDict [("node_id", PStr (Routing.ns_node_id n)); ("name", PStr (Routing.ns_name n)); ("x_km", PStr (Routing.ns_x_km n)); ("y_km", PStr (Routing.ns_y_km n));
         ("node_type", PStr (Routing.ns_node_type n))]%string.
Definition edge_state_value (e : Routing.EdgeState) : pyval :=
  PDict [("edge_id", PStr (Routing.es_edge_id e)); ("name", PStr (Routing.es_name e)); ("from_node_id", PStr (Routing.es_from_node_id e));
         ("to_node_id", PStr (Routing.es_to_node_id e)); ("distance_km", PStr (Routing.es_distance_km e)); ("base_minutes", PInt (Routing.es_base_minutes e));
         ("road_level", PStr (Routing.es_road_level e)); ("risk_level", PStr (Routing.es_risk_level e)); ("status", PStr (Routing.es_status e));
         ("congestion_factor", PStr (Routing.es_congestion_factor e)); ("weight_limit_tons", PStr (Routing.es_weight_limit_tons e));
         ("bidirectional", PBool (Routing.es_bidirectional e)); ("version", PInt (Routing.es_version e))]%string.

Definition unreachable_message : string := "排除受影响道路后不存在可达配送路线，请人工复核。".
Definition between {A} (r : Routing.RoutingResult) (g : RoadNetwork.PathResult -> RoadNetwork.PathResult -> A) : option A :=
  match Routing.recommended_path r, Routing.original_path r with Some p, Some o => Some (g p o) | _, _ => None end.

(** What the planning branch adds to the recommendation's patch. *)
Definition planned_patch (r : Routing.RoutingResult) : pydict :=
  (if String.eqb (Routing.routing_status r) "NO_REACHABLE_ROUTE"
   then [("error_code", PStr "NO_REACHABLE_ROUTE"); ("error_message", PStr unreachable_message)]%string else [])
   ++ [("blocked_edge_ids", strs (Routing.blocked_edge_ids r)); ("original_path", opt_dict (path_to_state f (Routing.original_path r)));
       ("recommended_path", opt_dict ((fun p : pydict => (p ++ [("scoring_formula", PStr "ROUTE_SCORE_V1")])%list) <$> path_to_state f (Routing.recommended_path r)));
       ("routing_algorithm", PStr "DIJKSTRA_V1"); ("routing_status", PStr (Routing.routing_status r)); ("road_network_version", opt_int (Routing.result_network_version r));
       ("distance_delta_km", opt_str (str_dec f <$> between r (fun p o => dec_sub (RoadNetwork.path_distance_km p) (RoadNetwork.path_distance_km o))));
       ("eta_delta_minutes", opt_int (between r (fun p o => RoadNetwork.estimated_minutes p - RoadNetwork.estimated_minutes o)));
       ("road_network_nodes", PList (map node_state_value (Routing.road_network_nodes r)));
       ("road_network_edges", PList (map edge_state_value (Routing.road_network_edges r)))]%string.

(** Both branches end with the recommendation over the result's candidates. *)
Definition recommended_patch (state : pydict) (r : Routing.RoutingResult) : result pydict :=
  cs ← map_result route_candidate_to_state (Routing.candidate_routes r); recommendation_patch state r cs.

Definition plans (service : RoutingService W) (state : pydict) : bool :=
  can_plan service && Events.truthy (get state "origin_node_id") && Events.truthy (get state "destination_node_id").

Definition plan_branch (deps : GraphDependencies W) (service : RoutingService W) (state : pydict) : action W pydict :=
  (do road <- lift (restored deps state);
   do context <- lift (planning_context state);
   do capacity_value <- lift (need state "capacity_state"); do capacity <- lift (as_dict capacity_value);
   do affected <- lift (texts_default state "affected_edge_ids");
   do memory <- lift (items_default state "memory_results");
   do r <- plan_route service context capacity affected memory road;
   do base <- lift (recommended_patch state r);
   let patch := base ++ planned_patch r in
   match Routing.recommended_path r, real_road_route_service deps with
   | Some p, Some plan => do road <- plan (RoadNetwork.path_node_ids p);
                          ret_action (patch ++ [("real_road_route"%string, PDict (real_road_route_to_state road))])
   | _, _ => ret_action patch
   end)%action.

Definition score_branch (service : RoutingService W) (state : pydict) : action W pydict :=
  (do current <- lift (need_text state "route_id");
   do memory <- lift (items_default state "memory_results");
   do weather <- lift (text_default state "weather" "unknown");
   do road <- lift (text_default state "road_condition" "unknown");
   do risk <- lift (text_default state "environment_risk" "elevated");
   do capacity_value <- lift (need state "capacity_state"); do capacity <- lift (as_dict capacity_value);
   do r <- score_routes service current memory weather road risk capacity;
   lift (recommended_patch state r))%action.

Definition routing_node (deps : GraphDependencies W) (state : pydict) : action W pydict :=
  match routing_service deps with
  | None => ret_action []
  | Some service => if plans service state then plan_branch deps service state else score_branch service state
  end.
End routing.

Section execution.
Context {W : Type}.

(** ** dispatch *)
Definition dispatch_result_to_state (r : Dispatch.DispatchResult) : pydict :=
  [("dispatch_id", opt_int (Dispatch.r_dispatch_id r)); ("dispatch_no", opt_str (Dispatch.r_dispatch_no r)); ("status", PStr (Dispatch.r_status r));
   ("target_route_id", opt_str (Dispatch.r_target_route_id r)); ("original_vehicle_id", opt_str (Dispatch.r_original_vehicle_id r));
   ("target_vehicle_id", opt_str (Dispatch.r_target_vehicle_id r)); ("target_driver_id", opt_str (Dispatch.r_target_driver_id r));
   ("version", opt_int (Dispatch.r_version r)); ("executed", PBool (Dispatch.executed r))]%string.

Definition value_or (state : pydict) (key : string) (d : pyval) : pyval := default d (dict_get state key).
Definition fleet_evidence_of (state : pydict) : pydict :=
  [("algorithm_version", PStr "FLEET_SCORE_V1"); ("candidates", value_or state "candidate_vehicles" (PList [])); ("pickup_route", get state "pickup_route")]%string.
Definition route_evidence_of (state : pydict) : pydict :=
  let plain key := (key, get state key) in
  let listed key := (key, value_or state key (PList [])) in
  [("algorithm_version", value_or state "routing_algorithm" (PStr "DIJKSTRA_V1")); plain "road_network_version"; listed "blocked_edge_ids"; plain "original_path";
   plain "recommended_path"; plain "pickup_route"; listed "road_network_nodes"; listed "road_network_edges"; plain "real_road_route"; listed "candidate_routes";
   plain "distance_delta_km"; plain "eta_delta_minutes"; plain "routing_status"]%string.

Definition dispatch_request (state : pydict) : result Dispatch.request :=
  task ← need_text state "task_id"; order ← need_int state "order_id"; route ← need_text state "route_id";
  target ← opt_text state "recommended_route"; decision ← text_default state "decision" "MANUAL_REVIEW";
  why ← text_default state "decision_reason" "Manual review required.";
  fallback ← flag_default state "fallback_used"; fallback_reason ← opt_text state "fallback_reason"; manual ← flag_default state "requires_manual_review";
  advised ← opt_text state "recommended_action"; mode ← opt_text state "analysis_mode"; subtype ← opt_text state "issue_subtype";
  vehicle ← (if is_none (get state "original_vehicle_weight_tons") then Ok None else opt_text state "vehicle_id");
  items ← items_default state "candidate_vehicles"; candidates ← map_result as_dict items;
  transfer ← opt_text state "incident_node_id";
  Ok {| Dispatch.task_id := task; Dispatch.order_id := order; Dispatch.original_route_id := route; Dispatch.target_route_id := target;
        Dispatch.decision := decision; Dispatch.decision_reason := why; Dispatch.fallback_used := fallback; Dispatch.fallback_reason := fallback_reason;
        Dispatch.requires_manual_review := manual; Dispatch.recommended_action := advised; Dispatch.analysis_mode := mode; Dispatch.issue_subtype := subtype;
        Dispatch.original_vehicle_id := vehicle; Dispatch.candidate_vehicles := candidates; Dispatch.transfer_node_id := transfer;
        Dispatch.fleet_evidence := Some (fleet_evidence_of state); Dispatch.route_evidence := Some (route_evidence_of state) |}.

Definition dispatched_patch (r : Dispatch.DispatchResult) : pydict :=
  [("dispatch_result", PDict (dispatch_result_to_state r)); ("requires_manual_review", PBool (Dispatch.r_requires_manual_review r))]%string
  ++ match Dispatch.r_target_vehicle_id r with Some v => [("selected_vehicle_id"%string, PStr v)] | None => [] end
  ++ match Dispatch.r_target_driver_id r with Some d => [("selected_driver_id"%string, PStr d)] | None => [] end.

Definition reservation_conflict : pydict :=
  review "VEHICLE_RESERVATION_CONFLICT" "Replacement vehicle reservation conflicted with another dispatch.".
Definition version_conflict : pydict := review "DISPATCH_VERSION_CONFLICT" "Dispatch was modified by another operation.".

Definition dispatch_node (deps : GraphDependencies W) (state : pydict) : action W pydict :=
  match dispatch_service deps with
  | None => ret_action []
  | Some execute =>
      catch_action (do rq <- lift (dispatch_request state); do r <- execute rq; ret_action (dispatched_patch r))%action
        (fun e => if raised_as ["VehicleReservationConflict"%string] e then ret_action reservation_conflict
                  else if raised_as ["OptimisticLockConflict"%string] e then ret_action version_conflict else raise_action e)
  end.

(** ** audit *)
Definition audit_node (deps : GraphDependencies W) (state : pydict) : action W pydict :=
  match audit_service deps with
  | None => ret_action []
  | Some audit =>
      (do e <- lift (AuditReview.node_evidence state);
       except_as ["AuditPersistenceError"%string]
         (do r <- audit e;
          ret_action [("audit_result", AuditReview.audit_result_to_state r); ("requires_manual_review", PBool (AuditReview.requires_manual_review r))]%string)
         (ret_action AuditReview.persistence_failed))%action
  end.
End execution.
