(* ===== verification/Graph.v ===== *)
(** * Graph: the eight agents in order

    Models [app/graph/builder.py]: every node is wrapped by [_instrument_node]
    and the nodes run in the fixed order of [NODE_ORDER], each patch updating the
    state the next one reads.  [RoutingPromise] and [DispatchPromise] state what
    the graph needs of its two deciding services; [routing_over] and
    [execute_over] are the services of Routing and Dispatch and keep them. *)

From S2P Require Import Prelude Texts Decimal Evidence Snapshots Agents.
From S2P Require RoadNetwork Routing Recommendations Dispatch AuditReview Events Sandtable.

Local Open Scope Z_scope.
Local Open Scope list_scope.

(** ** The wrapper of a node *)
Definition agent_result (patch : pydict) : string :=
  if is_true (get patch "requires_manual_review") then "review_required"
  else if Events.truthy (get patch "error_code") || is_true (get patch "fallback_used") || Events.truthy (get patch "graph_memory_error") then "degraded"
  else "success".

(** The counters a node increments, with their labels. *)
Definition counter : Type := string * list (string * string).
Definition fallback_reason_code (reason : string) : string :=
  let reason := lower reason in
  if contains "circuit" reason then "circuit_open" else if contains "timed out" reason then "timeout" else "http_error".
Definition node_counters (name : string) (patch : pydict) : list counter :=
  if String.eqb name "entity_memory" then
    let result := if py_eq (get patch "error_code") (PStr "MEMORY_RECALL_ERROR") then "error" else if Events.truthy (get patch "memory_results") then "hit" else "miss" in
    [("countyflow_vector_recall_total", [("result", result)])]%string
  else if String.eqb name "graph_memory" then
    let failed := Events.truthy (get patch "graph_memory_error") in
    let result := if failed then "error" else if Events.truthy (get patch "graph_memory_used") then "success" else "empty" in
    [("countyflow_graph_queries_total", [("operation", "multi_hop"); ("result", result)])]%string
    ++ (if failed then [("countyflow_graph_memory_degraded_total", [("reason_code", "query_error")])]%string else [])
  else if String.eqb name "environment" then
    let fallback := is_true (get patch "fallback_used") in
    let reason := match get patch "fallback_reason" with PStr s => s | _ => "" end in
    [("countyflow_environment_requests_total", [("operation", "primary"); ("result", if fallback then "error" else "success")])]%string
    ++ (if fallback then [("countyflow_environment_fallback_total", [("reason_code", fallback_reason_code reason)]);
                          ("countyflow_environment_requests_total", [("operation", "fallback"); ("result", "success")])]%string else [])
  else [].

Section graph.
Context {W : Type}.

Definition completed_count (state : pydict) : result Z := match dict_get state "completed_node_count" with None => Ok 0 | Some v => as_int v end.
Definition instrument_node (name : string) (node : pydict -> action W pydict) (state : pydict) : action W pydict :=
  (do patch <- node state;
   do count <- lift (completed_count state);
   ret_action (Events.dict_update patch [("last_completed_node", PStr name); ("completed_node_count", PInt (count + 1))]%string))%action.

Context (f : formats) (now : string) (deps : GraphDependencies W).
Definition build_graph : list (string * (pydict -> action W pydict)) :=
  [("intake", intake_node f now deps); ("entity_memory", entity_memory_node f deps); ("graph_memory", graph_memory_node f deps);
   ("environment", environment_node deps); ("capacity", capacity_node f deps); ("routing", routing_node f deps); ("dispatch", dispatch_node deps);
   ("audit", audit_node deps)]%string.

(** One node, and the nodes from a point on. *)
Definition node_step (n : string * (pydict -> action W pydict)) (state : pydict) : action W pydict :=
  (do patch <- instrument_node n.1 n.2 state; ret_action (Events.dict_update state patch))%action.
Fixpoint run_nodes (ns : list (string * (pydict -> action W pydict))) (state : pydict) : action W pydict :=
  match ns with [] => ret_action state | n :: ns' => (do state' <- node_step n state; run_nodes ns' state')%action end.
Definition invoke (state : pydict) : action W pydict := run_nodes build_graph state.
End graph.

(** ** What the graph needs of its services *)
Definition stopped_capacity : list string := ["UNAVAILABLE"; "UNKNOWN"]%string.
Definition offered (r : Routing.RoutingResult) (c : Routing.RouteCandidate) : Prop :=
  c ∈ Routing.candidate_routes r /\ Routing.recommended_route r = Some (Routing.route_id c) /\ Routing.available c = true /\ Routing.route_id c <> ""%string.

(** A result that asks for no review recommends one of its available candidates, and only when the capacity allows a run. *)
Definition sound_result (capacity : pydict) (r : Routing.RoutingResult) : Prop :=
  Routing.requires_manual_review r = false ->
  (exists c, offered r c) /\ (exists cap, get capacity "capacity_status" = PStr cap /\ (cap ∉ stopped_capacity)) /\
  (Routing.decision r ∈ ["KEEP_ROUTE"; "REROUTE"]%string).

Class RoutingPromise {W} (service : RoutingService W) := {
  plan_sound : forall context capacity affected memory road w r w',
    plan_route service context capacity affected memory road w = (Ok r, w') -> sound_result capacity r;
  score_sound : forall current memory weather road risk capacity w r w',
    score_routes service current memory weather road risk capacity w = (Ok r, w') -> sound_result capacity r;
}.

(** A task without a dispatch is executed exactly when its request asks for no review, and its target is the recommended route. *)
Class DispatchPromise {W} (dispatched : W -> string -> Prop) (execute : Dispatch.request -> action W Dispatch.DispatchResult) :=
  fresh_dispatch : forall rq w r w', execute rq w = (Ok r, w') -> ~ dispatched w (Dispatch.task_id rq) ->
    Dispatch.executed r = negb (Dispatch.manual_review rq) /\ Dispatch.r_target_route_id r = Dispatch.stored_target_route rq.

(** ** The services of Routing and Dispatch *)
Section services.
Context `{finder : RoadNetwork.PathFinder} (sha256_hex : string -> string) (float_of : string -> Q).   (* [float_of]: the number a float prints *)

(** [memory_results[0]] of [route]. *)
Definition recalled (memory_results : list pyval) : result (list Routing.MemoryRecall) :=
  match memory_results with
  | [] => Ok []
  | m :: _ =>
      d ← as_dict m; i ← need_text d "memory_id"; score ← need d "similarity_score"; resolution ← need_text d "historical_resolution";
      match score with
      | PFloat t => Ok [{| Routing.memory_id := i; Routing.similarity_score := float_of t; Routing.historical_resolution := resolution |}]
      | _ => Err ill_typed
      end
  end.

Definition routing_over {W} (provider : option Routing.RouteProvider) (memory_adoption_threshold : Q) (configured : bool)
    (network : option (W -> result RoadNetwork.RoadNetworkSnapshot)) : RoutingService W :=
  {| can_plan := match network with Some _ => configured | None => false end;
     plan_route := fun context capacity affected _ road w =>
       (cap ← need_text capacity "capacity_status";
        Routing.plan sha256_hex configured ((fun snapshot => snapshot w) <$> network) (inl context) cap affected road, w);
     score_routes := fun current memory weather road risk capacity w =>
       (cap ← need_text capacity "capacity_status"; mems ← recalled memory;
        Ok (Routing.route provider memory_adoption_threshold current mems weather road risk cap), w) |}.

Definition execute_over (repr : pyval -> string) (insert_first : bool) (nos : list string) (rq : Dispatch.request) : action Dispatch.db Dispatch.DispatchResult :=
  fun d => Dispatch.execute repr insert_first d rq nos.
Definition has_dispatch (d : Dispatch.db) (task_id : string) : Prop :=
  exists pk x, Dispatch.find_task d task_id = Some pk /\ Dispatch.get_by_task_id d pk = Some x.

Lemma need_text_get d key s : need_text d key = Ok s -> get d key = PStr s.
Proof. unfold need_text, need, get. destruct (dict_get d key) as [[]|]; cbn; try done. by intros [= ->]. Qed.

Lemma plan_on_sound s c affected r : Routing.plan_on sha256_hex s c affected = Ok r -> Routing.requires_manual_review r = false ->
  (exists x, offered r x) /\ (Routing.decision r ∈ ["KEEP_ROUTE"; "REROUTE"]%string).
Proof.
  intros H M. assert (S : Routing.routing_status r = "ROUTED"%string).
  { unfold Routing.plan_on in H. apply result_bind_ok in H as (o & _ & H). apply result_bind_ok in H as (paths & _ & H).
    destruct (Routing.by_edges paths); [by results|]. apply result_bind_ok in H as (cs & _ & H).
    destruct (min_key _ cs); [|done]. destruct (List.find _ _) as [[k p']|]; [|done]. by results. }
  destruct (Routing.plan_on_routed _ _ _ _ _ H S) as (paths & cs & x & p & _ & Hs & Hm & _ & _ & Hc & Hr & _).
  apply min_key_elem in Hm. destruct (Routing.score_paths_elem _ _ _ _ _ Hs Hm) as (q & comps & _ & Ex). split.
  - exists x. unfold offered. rewrite Hc, Hr, Ex. by rewrite Ex in Hm.
  - unfold Routing.plan_on in H. apply result_bind_ok in H as (o & _ & H). apply result_bind_ok in H as (paths' & _ & H).
    destruct (Routing.by_edges paths'); [results; simpl in S; done|]. apply result_bind_ok in H as (cs' & _ & H).
    destruct (min_key _ cs'); [|done]. destruct (List.find _ _) as [[k p']|]; [|done]. results. cbn.
    destruct (_ || _); [by right; left|by left].
Qed.

#[export] Instance routing_over_promise {W} (provider : option Routing.RouteProvider) threshold configured (network : option (W -> result RoadNetwork.RoadNetworkSnapshot)) :
  (forall p c, provider = Some p -> c ∈ Routing.get_candidates p -> Routing.route_id c <> ""%string) ->
  RoutingPromise (routing_over provider threshold configured network).
Proof.
  intros N. split.
  - cbn. intros context capacity affected memory road w r w' H M. injection H as H _. apply result_bind_ok in H as (cap & C & H).
    apply need_text_get in C.
    unfold Routing.plan in H. destruct (negb configured || _); [by results|]. destruct (one_of cap _) eqn:O; [by results|].
    assert (P : exists s, Routing.plan_on sha256_hex s (inl context) affected = Ok r).
    { destruct road; [by eexists|]. destruct ((fun snapshot => snapshot w) <$> network); [|done]. apply result_bind_ok in H as (s & _ & H). by eexists. }
    destruct P as (s & P). destruct (plan_on_sound _ _ _ _ P M) as [X D]. split; [done|]. split; [|done]. exists cap. split; [done|]. by apply one_of_false.
  - cbn. intros current memory weather road risk capacity w r w' H M. injection H as H _. apply result_bind_ok in H as (cap & C & H).
    apply need_text_get in C.
    apply result_bind_ok in H as (mems & _ & H). injection H as <-. unfold Routing.route in M |- *. destruct (one_of cap _) eqn:O; [done|].
    destruct provider as [p|]; [|done]. destruct (List.find _ _) as [c|] eqn:F; [|done]. cbn.
    apply List.find_some in F as [F A]. pose proof F as F'. apply list_elem_of_In in F. split; [|split].
    + exists c. unfold offered. cbn. split_and!; try done. rewrite sorted_key_desc_perm in F. apply list_elem_of_fmap in F as (c0 & -> & Hc).
      rewrite (proj1 (Routing.score_route_unsafe _ _ _ _ _ _)). eauto.
    + exists cap. split; [done|]. by apply one_of_false.
    + destruct (String.eqb _ current); [by left|by right; left].
Qed.

#[export] Instance execute_over_promise repr insert_first nos : DispatchPromise has_dispatch (execute_over repr insert_first nos).
Proof.
  intros rq d r d' H N. pose proof (Dispatch.try_candidates_cases repr insert_first d rq (Dispatch.attempts rq) nos (Ok r) d' (Dispatch.attempts_elem rq) H) as [(_ & pk & x & F & G & _)|C].
  - by destruct N; exists pk, x.
  - destruct C as (pk & p & no & _ & _ & _ & _ & -> & _). done.
Qed.
End services.

(** ** Reading an updated dictionary *)
Lemma get_update_none d e k : dict_get e k = None -> dict_get (Events.dict_update d e) k = dict_get d k.
Proof.
  unfold Events.dict_update. revert d. induction e as [|[k1 v1] e IH]; intros d H; [done|]. simpl in H |- *.
  destruct (String.eqb k1 k) eqn:E; [done|]. by rewrite IH, Events.get_set, E.
Qed.

Lemma dict_get_elem e k v : dict_get e k = Some v -> (k, v) ∈ e.
Proof. induction e as [|[k1 v1] e IH]; [done|]. simpl. destruct (String.eqb_spec k1 k) as [->|]; [intros [= ->]; left|intros H; right; by apply IH]. Qed.

(** Every entry of [e] for [k] has the value [v]. *)
Definition only (e : pydict) (k : string) (v : pyval) : Prop := forall v', (k, v') ∈ e -> v' = v.

Lemma get_update_some d e k v : dict_get e k = Some v -> only e k v -> dict_get (Events.dict_update d e) k = Some v.
Proof.
  unfold Events.dict_update. revert d. induction e as [|[k1 v1] e IH]; intros d H O; [done|]. simpl in H |- *.
  destruct (dict_get e k) as [v'|] eqn:G.
  - assert (v' = v) as -> by (apply O; right; by apply dict_get_elem). apply IH; [done|]. intros x Hx. apply O. by right.
  - destruct (String.eqb k1 k) eqn:E; [|done]. injection H as ->. apply String.eqb_eq in E as ->.
    change (dict_get (Events.dict_update (Events.dict_set d k v) e) k = Some v). by rewrite (get_update_none _ _ _ G), Events.get_set, String.eqb_refl.
Qed.

Lemma nodup_only e k v : NoDup (map fst e) -> dict_get e k = Some v -> only e k v.
Proof.
  induction e as [|[k1 v1] e IH]; [done|]. simpl. intros [Nk N]%NoDup_cons G v' H. apply elem_of_cons in H as [[= <- <-]|H].
  - rewrite String.eqb_refl in G. by injection G.
  - destruct (String.eqb_spec k1 k) as [->|]; [|by apply IH]. destruct Nk. apply (list_elem_of_fmap_2 fst) in H. exact H.
Qed.

Lemma set_only d k v : only (Events.dict_set d k v) k v.
Proof.
  intros v'. unfold Events.dict_set. destruct (existsb _ d) eqn:E; rewrite list_elem_of_In.
  - intros ([k1 v1] & H & _)%in_map_iff. simpl in H. destruct (String.eqb_spec k1 k) as [->|N]; [by injection H|]. by injection H.
  - intros [H|[[= ->]|[]]]%in_app_or; [|done]. exfalso. apply not_true_iff_false in E. apply E. apply existsb_exists. exists (k, v'). by rewrite String.eqb_refl.
Qed.

Lemma set_only_other d k v k' v' : k <> k' -> only d k' v' -> only (Events.dict_set d k v) k' v'.
Proof.
  intros N O x. unfold Events.dict_set. destruct (existsb _ d); rewrite list_elem_of_In.
  - intros ([k1 v1] & H & I)%in_map_iff. simpl in H. destruct (String.eqb k1 k); injection H as -> ->; [done|]. apply O. by apply list_elem_of_In.
  - intros [H|[[= -> _]|[]]]%in_app_or; [|done]. apply O. by apply list_elem_of_In.
Qed.

Section stepping.
Context {W : Type}.
Implicit Types node : pydict -> action W pydict.

Definition counter_keys : list string := ["last_completed_node"; "completed_node_count"]%string.

(** The state after a node: its patch over the state, and the two counters. *)
Lemma node_step_inv name node state w state' w' : node_step (name, node) state w = (Ok state', w') ->
  exists patch n, node state w = (Ok patch, w') /\ completed_count state = Ok n /\
    dict_get state' "last_completed_node" = Some (PStr name) /\ dict_get state' "completed_node_count" = Some (PInt (n + 1)) /\
    (NoDup (map fst patch) -> forall k, (k ∉ counter_keys) -> dict_get state' k = match dict_get patch k with Some v => Some v | None => dict_get state k end).
Proof.
  unfold node_step, instrument_node. cbn [fst snd]. intros H. apply bind_action_inv in H as [(p & w1 & H & E)|(e & _ & [=])]. injection E as <- ->.
  apply bind_action_inv in H as [(patch & w2 & Hn & H)|(e & _ & [=])]. apply bind_action_inv in H as [(n & w3 & Hc & H)|(e & _ & [=])].
  unfold lift in Hc. injection Hc as Hc <-. injection H as <- ->. exists patch, n. cbn [Events.dict_update fold_left fst snd].
  set (d1 := Events.dict_set patch "last_completed_node" (PStr name)). set (d2 := Events.dict_set d1 _ _). split_and!; [done|done| | |].
  - apply get_update_some; [subst d2 d1; by rewrite !Events.get_set|]. apply set_only_other; [done|apply set_only].
  - apply get_update_some; [subst d2 d1; by rewrite !Events.get_set|]. apply set_only.
  - intros N k [K1 K2]%not_elem_of_cons. apply not_elem_of_cons in K2 as [K2 _].
    assert (G : dict_get d2 k = dict_get patch k).
    { subst d2 d1. rewrite !Events.get_set. rewrite (proj2 (String.eqb_neq _ _)) by done. by rewrite (proj2 (String.eqb_neq _ _)) by done. }
    destruct (dict_get patch k) as [v|] eqn:P; [|by apply get_update_none].
    apply get_update_some; [done|]. apply set_only_other; [done|]. apply set_only_other; [done|]. by apply nodup_only.
Qed.

Lemma run_nodes_counts (ns : list (string * (pydict -> action W pydict))) state w state' w' n m nd :
  last ns = Some (n, nd) -> completed_count state = Ok m -> run_nodes ns state w = (Ok state', w') ->
  dict_get state' "last_completed_node" = Some (PStr n) /\ completed_count state' = Ok (m + Z.of_nat (length ns)).
Proof.
  revert state w m. induction ns as [|[n1 nd1] ns IH]; intros state w m L C H; [done|]. cbn [run_nodes] in H.
  apply bind_action_inv in H as [(s1 & w1 & Hs & H)|(e & _ & [=])].
  destruct (node_step_inv _ _ _ _ _ _ Hs) as (patch & m' & _ & C' & L1 & K1 & _). rewrite C in C'. injection C' as <-.
  assert (C1 : completed_count s1 = Ok (m + 1)) by (unfold completed_count; by rewrite K1).
  destruct ns as [|x ns].
  - injection H as <- <-. injection L as -> ->. rewrite C1. split; [done|]. f_equal; simpl; lia.
  - destruct (IH s1 w1 (m + 1)) as [A D]; [done|done|done|]. split; [done|]. rewrite D. f_equal. simpl. lia.
Qed.
End stepping.

(** ** What the routing node proposes *)

(** The state proposes a verified route: a candidate of its list that is available. *)
Definition proposes (d : pydict) (route : string) : Prop :=
  get d "recommended_route" = PStr route /\
  exists cs c, get d "candidate_routes" = PList (map PDict cs) /\ c ∈ cs /\ get c "route_id" = PStr route /\ get c "available" = PBool true.
Definition capacity_allows (state : pydict) : Prop :=
  exists cap, get (AuditReview.mapping (get state "capacity_state")) "capacity_status" = PStr cap /\ (cap ∉ stopped_capacity).

Section proposing.
Context (f : formats).

Lemma candidate_state_fields c d : route_candidate_to_state f c = Ok d ->
  get d "route_id" = PStr (Routing.route_id c) /\ get d "available" = PBool (Routing.available c).
Proof. unfold route_candidate_to_state. intros (score & _ & H)%result_bind_ok. by injection H as <-. Qed.

Lemma verified_when_listed route cs c : route <> ""%string -> c ∈ cs -> get c "route_id" = PStr route -> get c "available" = PBool true ->
  Recommendations.verified_route (Some route) cs = Some route.
Proof.
  intros N I G A. unfold Recommendations.verified_route. rewrite (proj2 (String.eqb_neq _ _) N).
  assert (E : existsb (Recommendations.offers route) cs = true).
  { apply existsb_exists. exists c. split; [by apply list_elem_of_In|]. unfold Recommendations.offers. rewrite G, A. simpl. by rewrite String.eqb_refl. }
  by rewrite E.
Qed.

(** The route that is kept when no review is asked for. *)
Lemma kept_route_offered anomaly description vs risk cap cs r c d :
  offered r c -> d ∈ cs -> get d "route_id" = PStr (Routing.route_id c) -> get d "available" = PBool true ->
  let i := Recommendations.recommend anomaly description vs risk cap cs (Routing.recommended_route r) in
  needs_review r i (opt_str cap) = false -> kept_route r i (opt_str cap) = Some (Routing.route_id c).
Proof.
  intros (_ & R & _ & N) I G A i M. unfold needs_review in M. apply orb_false_iff in M as [M _]. apply orb_false_iff in M as [_ M].
  unfold kept_route. destruct (reassigned_breakdown _ _); [done|]. rewrite andb_true_r in M.
  unfold i, Recommendations.recommend in M |- *. cbn [Recommendations.issue_category Recommendations.recommended_route] in M |- *.
  rewrite M, R. by apply (verified_when_listed _ _ d).
Qed.

Lemma recommended_patch_keys state r patch : recommended_patch f state r = Ok patch -> map fst patch =
  ["candidate_routes"; "recommended_route"; "identified_issue"; "issue_subtype"; "recommended_action"; "analysis_mode"; "decision"; "decision_reason";
   "memory_adopted"; "adopted_memory_id"; "requires_manual_review"]%string.
Proof.
  unfold recommended_patch, recommendation_patch. intros (cs & _ & H)%result_bind_ok. do 6 (apply result_bind_ok in H as (? & _ & H)). by injection H as <-.
Qed.

(** Either a review is asked for, and the decision says so, or the patch proposes a verified route. *)
Definition verdict (state patch : pydict) : Prop :=
  (get patch "requires_manual_review" = PBool true /\ get patch "decision" = PStr "MANUAL_REVIEW") \/
  (get patch "requires_manual_review" = PBool false /\ capacity_allows state /\ exists route, route <> ""%string /\ proposes patch route).

Lemma recommended_patch_verdict state r patch capacity : get state "capacity_state" = PDict capacity -> sound_result capacity r ->
  recommended_patch f state r = Ok patch -> verdict state patch.
Proof.
  unfold recommended_patch, recommendation_patch. intros Gc S (cs & Hm & H)%result_bind_ok.
  apply result_bind_ok in H as (anomaly & _ & H). apply result_bind_ok in H as (description & _ & H).
  apply result_bind_ok in H as (vs & _ & H). apply result_bind_ok in H as (risk & _ & H).
  apply result_bind_ok in H as (capd & _ & H). apply result_bind_ok in H as (cap & _ & H). injection H as <-.
  set (i := Recommendations.recommend _ _ _ _ _ _ _). destruct (needs_review r i (opt_str cap)) eqn:M; [by left|]. right.
  assert (Mr : Routing.requires_manual_review r = false) by (unfold needs_review in M; by destruct (Routing.requires_manual_review r)).
  destruct (S Mr) as ((c & O) & (st & Gs & Ns) & _). destruct (map_result_elem_l _ _ _ _ Hm (proj1 O)) as (d & Id & Hd).
  destruct (candidate_state_fields _ _ Hd) as [Fr Fa]. rewrite (proj1 (proj2 (proj2 O))) in Fa.
  pose proof (kept_route_offered anomaly description vs risk cap cs r c d O Id Fr Fa M) as K. fold i in K. split; [done|]. split.
  - exists st. by rewrite Gc.
  - exists (Routing.route_id c). split; [apply O|]. split; [unfold get; cbn; by rewrite K|]. by exists cs, d.
Qed.
End proposing.

(** ** Safety of the execution *)
Lemma dict_get_app d e k : dict_get (d ++ e) k = match dict_get d k with Some v => Some v | None => dict_get e k end.
Proof. induction d as [|[k1 v1] d IH]; [done|]. simpl. by destruct (String.eqb k1 k). Qed.

Lemma dict_get_absent d k : (k ∉ map fst d) -> dict_get d k = None.
Proof. intros N. destruct (dict_get d k) eqn:E; [|done]. destruct N. apply dict_get_elem in E. apply (list_elem_of_fmap_2 fst) in E. exact E. Qed.

Lemma dict_get_present d k : k ∈ map fst d -> is_Some (dict_get d k).
Proof.
  induction d as [|[k1 v1] d IH]; simpl; [by intros ?%not_elem_of_nil|]. intros [->|H]%elem_of_cons; [by rewrite String.eqb_refl|].
  destruct (String.eqb k1 k); [done|by apply IH].
Qed.

Lemma get_app_l d e k : k ∈ map fst d -> get (d ++ e) k = get d k.
Proof. intros [v E]%dict_get_present. unfold get. by rewrite dict_get_app, E. Qed.

Lemma verdict_app state base rest : (forall k, k ∈ ["requires_manual_review"; "decision"; "recommended_route"; "candidate_routes"]%string -> k ∈ map fst base) ->
  verdict state base -> verdict state (base ++ rest).
Proof. intros K. unfold verdict, proposes. rewrite !get_app_l by (apply K, one_of_true; reflexivity). done. Qed.

Lemma bind_lift {W A C} (m : result A) (k : A -> action W C) w x w' : bind_action (lift m) k w = (Ok x, w') -> exists a, m = Ok a /\ k a w = (Ok x, w').
Proof. unfold bind_action, lift. destruct m; [by eauto|done]. Qed.

Lemma need_dict state key v d : need state key = Ok v -> as_dict v = Ok d -> get state key = PDict d.
Proof. unfold need, get. destruct (dict_get state key) as [u|]; [|done]. cbn. intros [= ->]. destruct v; try done. by intros [= ->]. Qed.

Definition recommendation_keys : list string :=
  ["candidate_routes"; "recommended_route"; "identified_issue"; "issue_subtype"; "recommended_action"; "analysis_mode"; "decision"; "decision_reason";
   "memory_adopted"; "adopted_memory_id"; "requires_manual_review"]%string.
Definition plan_keys : list string :=
  ["blocked_edge_ids"; "original_path"; "recommended_path"; "routing_algorithm"; "routing_status"; "road_network_version"; "distance_delta_km"; "eta_delta_minutes";
   "road_network_nodes"; "road_network_edges"]%string.
Definition error_keys : list string := ["error_code"; "error_message"]%string.
Definition routing_keys (b1 b2 : bool) : list string :=
  recommendation_keys ++ ((if b1 then error_keys else []) ++ plan_keys) ++ (if b2 then ["real_road_route"%string] else []).
(** The keys the deciding nodes leave alone. *)
Definition settled_keys : list string := ["dispatch_result"; "task_id"; "capacity_state"]%string.
Definition settles (ks : list string) : bool := bool_decide (NoDup ks) && forallb (fun k => negb (one_of k ks)) settled_keys.

Lemma planned_patch_keys f r : exists b, map fst (planned_patch f r) = (if b : bool then error_keys else []) ++ plan_keys.
Proof. unfold planned_patch. exists (String.eqb (Routing.routing_status r) "NO_REACHABLE_ROUTE"). rewrite map_app. by destruct (String.eqb _ _). Qed.

Lemma settles_inv ks : settles ks = true -> NoDup ks /\ forall k, k ∈ settled_keys -> k ∉ ks.
Proof.
  unfold settles. intros [N%bool_decide_eq_true F]%andb_true_iff. split; [done|]. intros k H%list_elem_of_In.
  apply one_of_false. apply negb_true_iff. exact (proj1 (forallb_forall _ _) F k H).
Qed.

Section safety.
Context {W : Type} (f : formats) (deps : GraphDependencies W).

(** The routing node's patch carries a verdict and leaves the settled keys alone. *)
Lemma routing_node_verdict service state w patch w' : routing_service deps = Some service -> RoutingPromise service ->
  routing_node f deps state w = (Ok patch, w') -> settles (map fst patch) = true /\ verdict state patch.
Proof.
  intros R P. unfold routing_node. rewrite R. destruct (plans service state).
  - unfold plan_branch. intros H. apply bind_lift in H as (road & _ & H). apply bind_lift in H as (ctx & _ & H). apply bind_lift in H as (cv & G & H).
    apply bind_lift in H as (cap & C & H). apply bind_lift in H as (aff & _ & H). apply bind_lift in H as (mem & _ & H).
    apply bind_action_inv in H as [(r & w1 & Hp & H)|(e & _ & [=])]. apply bind_lift in H as (base & Hb & H).
    pose proof (need_dict _ _ _ _ G C) as Gc. apply plan_sound in Hp.
    pose proof (recommended_patch_verdict f state r base cap Gc Hp Hb) as V. pose proof (recommended_patch_keys f state r base Hb) as K.
    assert (T : exists rest b, patch = base ++ planned_patch f r ++ rest /\ map fst rest = if b : bool then ["real_road_route"%string] else []).
    { destruct (Routing.recommended_path r), (real_road_route_service deps) as [plan|].
      2-4: injection H as <- _; exists [], false; by rewrite app_nil_r.
      apply bind_action_inv in H as [(x & w2 & _ & H)|(e & _ & [=])]. injection H as <- _.
      eexists _, true. rewrite <- app_assoc. split; [reflexivity|done]. }
    destruct T as (rest & b2 & -> & Kr). destruct (planned_patch_keys f r) as [b1 Kp].
    split; [rewrite !map_app, K, Kp, Kr, <- app_assoc; by destruct b1, b2; vm_compute|].
    apply verdict_app; [|done]. rewrite K. intros k Hk%list_elem_of_In. apply one_of_true. revert k Hk. apply forallb_forall. reflexivity.
  - unfold score_branch. intros H. apply bind_lift in H as (current & _ & H). apply bind_lift in H as (mem & _ & H). apply bind_lift in H as (weather & _ & H).
    apply bind_lift in H as (road & _ & H). apply bind_lift in H as (risk & _ & H). apply bind_lift in H as (cv & G & H). apply bind_lift in H as (cap & C & H).
    apply bind_action_inv in H as [(r & w1 & Hp & H)|(e & _ & [=])]. unfold lift in H. injection H as Hb _. apply score_sound in Hp.
    split; [by rewrite (recommended_patch_keys f state r patch Hb)|].
    by apply (recommended_patch_verdict f state r patch cap (need_dict _ _ _ _ G C) Hp).
Qed.

(** The dispatch node of a task without a dispatch. *)
Lemma dispatch_node_executed dispatched execute state w patch w' : dispatch_service deps = Some execute -> DispatchPromise dispatched execute ->
  (forall t, get state "task_id" = PStr t -> ~ dispatched w t) -> dispatch_node deps state w = (Ok patch, w') ->
  NoDup (map fst patch) /\
  match dict_get patch "dispatch_result" with
  | None => True
  | Some v => exists rq d, v = PDict d /\ dispatch_request state = Ok rq /\ get d "executed" = PBool (negb (Dispatch.manual_review rq)) /\
                get d "target_route_id" = opt_str (Dispatch.stored_target_route rq)
  end.
Proof.
  intros D P N. unfold dispatch_node. rewrite D. unfold catch_action.
  destruct (bind_action _ _ w) as [[p|e] w1] eqn:B.
  - intros [= -> ->]. apply bind_lift in B as (rq & Hr & B). apply bind_action_inv in B as [(r & w2 & He & B)|(e & _ & [=])]. injection B as <- ->.
    assert (T : get state "task_id" = PStr (Dispatch.task_id rq)).
    { unfold dispatch_request in Hr. apply result_bind_ok in Hr as (t & Ht & Hr). do 15 (apply result_bind_ok in Hr as (? & _ & Hr)).
      injection Hr as <-. by apply need_text_get in Ht. }
    destruct (P rq w r w' He (N _ T)) as [X Y]. split.
    + unfold dispatched_patch. destruct (Dispatch.r_target_vehicle_id r), (Dispatch.r_target_driver_id r); apply (bool_decide_unpack _); by vm_compute.
    + exists rq, (dispatch_result_to_state r). split; [done|]. split; [done|]. rewrite <- X, <- Y. done.
  - destruct (raised_as _ e); [intros [= <- _]|destruct (raised_as _ e); [intros [= <- _]|done]]; (split; [apply (bool_decide_unpack _); by vm_compute|done]).
Qed.
End safety.

Lemma get_text state key s : get state key = PStr s -> dict_get state key = Some (PStr s).
Proof. unfold get. destruct (dict_get state key); [by intros [= ->]|done]. Qed.
Lemma get_flag state key b : get state key = PBool b -> dict_get state key = Some (PBool b).
Proof. unfold get. destruct (dict_get state key); [by intros [= ->]|done]. Qed.

Lemma dispatch_request_inv state rq : dispatch_request state = Ok rq ->
  flag_default state "requires_manual_review" = Ok (Dispatch.requires_manual_review rq) /\ opt_text state "recommended_route" = Ok (Dispatch.target_route_id rq) /\
  text_default state "decision" "MANUAL_REVIEW" = Ok (Dispatch.decision rq).
Proof.
  unfold dispatch_request. intros H. apply result_bind_ok in H as (? & _ & H). apply result_bind_ok in H as (? & _ & H). apply result_bind_ok in H as (? & _ & H).
  apply result_bind_ok in H as (target & Ht & H). apply result_bind_ok in H as (decision & Hd & H). apply result_bind_ok in H as (? & _ & H).
  apply result_bind_ok in H as (? & _ & H). apply result_bind_ok in H as (? & _ & H). apply result_bind_ok in H as (manual & Hm & H).
  do 7 (apply result_bind_ok in H as (? & _ & H)). injection H as <-. by split_and!.
Qed.

(** The request built from a state with a verdict. *)
Lemma verdict_request state0 state rq : verdict state0 state -> dispatch_request state = Ok rq -> Dispatch.manual_review rq = false ->
  get state "requires_manual_review" = PBool false /\ capacity_allows state0 /\
  exists route, proposes state route /\ Dispatch.stored_target_route rq = Some route.
Proof.
  intros V (Hm & Ht & _)%dispatch_request_inv N. destruct V as [[M _]|(M & C & route & Ne & P)].
  - unfold flag_default in Hm. rewrite (get_flag _ _ _ M) in Hm. injection Hm as Hm. unfold Dispatch.manual_review in N. by rewrite <- Hm in N.
  - split; [done|]. split; [done|]. exists route. split; [done|]. unfold opt_text in Ht. rewrite (proj1 P) in Ht. injection Ht as Ht.
    unfold Dispatch.stored_target_route. rewrite N, <- Ht. simpl. by rewrite (proj2 (String.eqb_neq _ _) Ne).
Qed.

(** A patch's verdict is that of the state it updates. *)
Lemma verdict_updated state0 patch state (U : forall k, (k ∉ counter_keys) -> dict_get state k = match dict_get patch k with Some v => Some v | None => dict_get state0 k end) :
  verdict state0 patch -> verdict state0 state.
Proof.
  assert (G : forall k v, one_of k counter_keys = false -> v <> PNone -> get patch k = v -> get state k = v).
  { intros k v K N E. unfold get in *. rewrite U by (by apply one_of_false). by destruct (dict_get patch k); [|subst v]. }
  intros [[M D]|(M & C & route & Ne & R & cs & c & L & I)].
  - left. split; by apply G.
  - right. split; [by apply G|]. split; [done|]. exists route. split; [done|]. split; [by apply G|]. exists cs, c. split; [by apply G|done].
Qed.

(** C4: between the routing node and the dispatch node anything may happen to
    the rest of the world.  If the graph's dispatch node executes the dispatch
    of a task that had none, then the routing node had left a state that asks
    for no review and whose recommended route is one of its available
    candidates, the capacity was neither unavailable nor unknown, and the
    dispatch goes to that route. *)
Theorem executed_dispatch_is_verified {W} (f : formats) (deps : GraphDependencies W) service execute dispatched s0 w0 s1 w1 w2 s2 w3
    (R : routing_service deps = Some service) (RP : RoutingPromise service) (D : dispatch_service deps = Some execute) (DP : DispatchPromise dispatched execute)
    (Fresh : dict_get s0 "dispatch_result" = None)
    (Routed : node_step ("routing"%string, routing_node f deps) s0 w0 = (Ok s1, w1))
    (New : forall t, get s1 "task_id" = PStr t -> ~ dispatched w2 t)
    (Done : node_step ("dispatch"%string, dispatch_node deps) s1 w2 = (Ok s2, w3))
    (Executed : get (AuditReview.mapping (get s2 "dispatch_result")) "executed" = PBool true) :
  get s1 "requires_manual_review" = PBool false /\ capacity_allows s0 /\
  exists route, proposes s1 route /\ get (AuditReview.mapping (get s2 "dispatch_result")) "target_route_id" = PStr route.
Proof.
  apply node_step_inv in Routed as (p1 & n1 & H1 & _ & _ & _ & U1). apply node_step_inv in Done as (p2 & n2 & H2 & _ & _ & _ & U2).
  destruct (routing_node_verdict _ _ _ _ _ _ _ R RP H1) as [[N1 S1]%settles_inv V]. specialize (U1 N1).
  destruct (dispatch_node_executed _ _ _ _ _ _ _ D DP New H2) as [N2 X]. specialize (U2 N2).
  assert (F : dict_get s1 "dispatch_result" = None).
  { rewrite U1 by (by apply one_of_false). by rewrite (dict_get_absent p1) by (apply S1; by left). }
  assert (E : dict_get s2 "dispatch_result" = dict_get p2 "dispatch_result").
  { rewrite U2 by (by apply one_of_false). rewrite F. by destruct (dict_get p2 "dispatch_result"). }
  assert (G : get s2 "dispatch_result" = get p2 "dispatch_result") by (unfold get; by rewrite E). rewrite G in Executed |- *. clear E G.
  change (get p2 "dispatch_result") with (default PNone (dict_get p2 "dispatch_result")) in *. destruct (dict_get p2 "dispatch_result") as [v|]; [|done].
  destruct X as (rq & d & -> & Hr & Ex & Et). change (get d "executed" = PBool true) in Executed. rewrite Ex in Executed. injection Executed as Ex'. apply negb_true_iff in Ex'.
  destruct (verdict_request s0 s1 rq (verdict_updated _ _ _ U1 V) Hr Ex') as (M & C & route & P & T). rewrite T in Et. eauto.
Qed.

(** ** What the later nodes do not look at *)
Definition review_keys : list string := ["requires_manual_review"; "error_code"; "error_message"]%string.

Lemma get_set_other d k v k' : k <> k' -> dict_get (Events.dict_set d k v) k' = dict_get d k'.
Proof. intros N. rewrite Events.get_set. by rewrite (proj2 (String.eqb_neq _ _) N). Qed.

Lemma plain_get_set_other d k v k' : k <> k' -> get (Events.dict_set d k v) k' = get d k'.
Proof. intros N. unfold get. by rewrite get_set_other. Qed.

Section blind.
Context {W : Type} (f : formats) (deps : GraphDependencies W) (state : pydict) (key : string) (v : pyval) (K : key ∈ review_keys).

Lemma review_key k : one_of k review_keys = false -> key <> k.
Proof. intros N%one_of_false ->. by destruct N. Qed.

Lemma read_other k : one_of k review_keys = false -> dict_get (Events.dict_set state key v) k = dict_get state k.
Proof. intros N. by apply get_set_other, review_key. Qed.
Lemma get_other k : one_of k review_keys = false -> get (Events.dict_set state key v) k = get state k.
Proof. intros N. by apply plain_get_set_other, review_key. Qed.

(** A term that reads other keys only. *)
Ltac blind := rewrite ?read_other, ?get_other by reflexivity; reflexivity.

Lemma recommended_patch_blind : recommended_patch f (Events.dict_set state key v) = recommended_patch f state.
Proof. unfold recommended_patch, recommendation_patch, need_text, need, opt_text, dict_default. blind. Qed.
Lemma planning_context_blind : planning_context (Events.dict_set state key v) = planning_context state.
Proof. unfold planning_context, need_text, need_int, need, opt_text, texts_default, items_default, text_default. blind. Qed.
Lemma restored_blind : restored deps (Events.dict_set state key v) = restored deps state.
Proof. unfold restored. blind. Qed.
Lemma plan_branch_blind (service : RoutingService W) : plan_branch f deps service (Events.dict_set state key v) = plan_branch f deps service state.
Proof.
  unfold plan_branch. rewrite planning_context_blind, restored_blind, recommended_patch_blind. unfold need, texts_default, items_default. blind.
Qed.
Lemma score_branch_blind (service : RoutingService W) : score_branch f service (Events.dict_set state key v) = score_branch f service state.
Proof. unfold score_branch. rewrite recommended_patch_blind. unfold need_text, need, text_default, items_default. blind. Qed.
End blind.

(** The result the routing service answered to this state. *)
Definition answered {W} (deps : GraphDependencies W) (service : RoutingService W) (state : pydict) (w : W) (r : Routing.RoutingResult) : Prop :=
  exists capacity memory w', get state "capacity_state" = PDict capacity /\ items_default state "memory_results" = Ok memory /\
    if plans service state
    then exists road context affected, restored deps state = Ok road /\ planning_context state = Ok context /\
           texts_default state "affected_edge_ids" = Ok affected /\ plan_route service context capacity affected memory road w = (Ok r, w')
    else exists current weather road risk, need_text state "route_id" = Ok current /\ text_default state "weather" "unknown" = Ok weather /\
           text_default state "road_condition" "unknown" = Ok road /\ text_default state "environment_risk" "elevated" = Ok risk /\
           score_routes service current memory weather road risk capacity w = (Ok r, w').
Definition unreachable (r : Routing.RoutingResult) : bool := String.eqb (Routing.routing_status r) "NO_REACHABLE_ROUTE".

Lemma routing_node_patch {W} f (deps : GraphDependencies W) service state w patch w' : routing_service deps = Some service ->
  routing_node f deps state w = (Ok patch, w') ->
  exists r base rest, answered deps service state w r /\ recommended_patch f state r = Ok base /\ patch = base ++ rest /\ NoDup (map fst patch) /\
    dict_get patch "error_code" = (if plans service state && unreachable r then Some (PStr "NO_REACHABLE_ROUTE") else None).
Proof.
  intros R. unfold routing_node. rewrite R. unfold answered. destruct (plans service state).
  - unfold plan_branch. intros H. apply bind_lift in H as (road & E1 & H). apply bind_lift in H as (ctx & E2 & H). apply bind_lift in H as (cv & G & H).
    apply bind_lift in H as (cap & C & H). apply bind_lift in H as (aff & E3 & H). apply bind_lift in H as (mem & E4 & H).
    apply bind_action_inv in H as [(r & w1 & Hp & H)|(e & _ & [=])]. apply bind_lift in H as (base & Hb & H). pose proof (recommended_patch_keys f state r base Hb) as K.
    assert (T : exists rest b, patch = base ++ planned_patch f r ++ rest /\ map fst rest = if b : bool then ["real_road_route"%string] else []).
    { destruct (Routing.recommended_path r), (real_road_route_service deps) as [plan|].
      2-4: injection H as <- _; exists [], false; by rewrite app_nil_r.
      apply bind_action_inv in H as [(x & w2 & _ & H)|(e & _ & [=])]. injection H as <- _. eexists _, true. rewrite <- app_assoc. split; [reflexivity|done]. }
    destruct T as (rest & b2 & -> & Kr). destruct (planned_patch_keys f r) as [b1 Kp]. exists r, base, (planned_patch f r ++ rest).
    split_and!; [exists cap, mem, w1; split; [by apply (need_dict _ _ _ _ G C)|]; split; [done|]; by exists road, ctx, aff|done|done|rewrite !map_app, K, Kp, Kr; apply (bool_decide_unpack _); by destruct b1, b2; vm_compute|].
    rewrite dict_get_app, (dict_get_absent base) by (rewrite K; by apply one_of_false). unfold planned_patch, unreachable. destruct (String.eqb _ _); [done|].
    rewrite dict_get_app. cbn. apply dict_get_absent. rewrite Kr. destruct b2; by apply one_of_false.
  - unfold score_branch. intros H. apply bind_lift in H as (current & E1 & H). apply bind_lift in H as (mem & E2 & H). apply bind_lift in H as (weather & E3 & H).
    apply bind_lift in H as (road & E4 & H). apply bind_lift in H as (risk & E5 & H). apply bind_lift in H as (cv & G & H). apply bind_lift in H as (cap & C & H).
    apply bind_action_inv in H as [(r & w1 & Hp & H)|(e & _ & [=])]. unfold lift in H. injection H as Hb _. pose proof (recommended_patch_keys f state r patch Hb) as K.
    exists r, patch, []. rewrite app_nil_r. split_and!; [exists cap, mem, w1; split; [by apply (need_dict _ _ _ _ G C)|]; split; [done|]; by exists current, weather, road, risk|done|done| |].
    + rewrite K. apply (bool_decide_unpack _). by vm_compute.
    + apply dict_get_absent. rewrite K. by apply one_of_false.
Qed.

(** What the recommendation writes about the review. *)
Lemma recommended_patch_review f state r base : recommended_patch f state r = Ok base ->
  exists category capacity status route, dict_get base "identified_issue" = Some (PStr category) /\ dict_default state "capacity_state" = Ok capacity /\
    opt_text capacity "capacity_status" = Ok status /\ dict_get base "recommended_route" = Some (opt_str route) /\
    dict_get base "requires_manual_review" = Some (PBool (Routing.requires_manual_review r
      || (one_of category ["VEHICLE_BREAKDOWN"; "CARGO"; "CAPACITY"; "OTHER"]%string && negb (String.eqb category "VEHICLE_BREAKDOWN" && bool_decide (status = Some "REASSIGNED"%string)))
      || (String.eqb (Routing.decision r) "REROUTE" && bool_decide (route = None)))).
Proof.
  unfold recommended_patch, recommendation_patch. intros (cs & Hm & H)%result_bind_ok. do 4 (apply result_bind_ok in H as (? & _ & H)).
  apply result_bind_ok in H as (capacity & Hc & H). apply result_bind_ok in H as (status & Hs & H). injection H as <-.
  eexists _, capacity, status, _. split; [reflexivity|]. split; [done|]. split; [done|]. split; [reflexivity|].
  assert (S : py_eq (opt_str status) (PStr "REASSIGNED") = bool_decide (status = Some "REASSIGNED"%string)).
  { destruct status as [st|]; [|done]. change (String.eqb st "REASSIGNED" = bool_decide (Some st = Some "REASSIGNED"%string)).
    destruct (String.eqb_spec st "REASSIGNED") as [->|N]; symmetry; [by apply bool_decide_eq_true_2|]. apply bool_decide_eq_false_2. congruence. }
  rewrite <- S. reflexivity.
Qed.

(** ** The catalogue, and a report against the wrong vehicle *)
Definition ex_formats : formats := {| format_dec := format_fixed 2; format_read := fun _ => ""%string; str_dec := format_fixed 2; str_float := format_fixed 2 |}.
Definition ex_context : Routing.SandtableTaskContext :=
  {| Routing.st_order_id := 7; Routing.st_order_no := "ORD-7"; Routing.st_cargo_weight_kg := 500; Routing.st_cargo_type := "GENERAL"; Routing.st_origin_node_id := "N1";
     Routing.st_destination_node_id := "N9"; Routing.st_current_vehicle_id := "V2"; Routing.st_current_driver_id := Some "D2"%string; Routing.st_incident_node_id := None;
     Routing.st_affected_edge_ids := []; Routing.st_network_version := 1; Routing.st_vehicle_weight_tons := 8 |}.
Definition ex_finder : RoadNetwork.PathFinder := fun _ _ _ _ _ _ => Ok None.
Definition ex_network : Dispatch.db -> result RoadNetwork.RoadNetworkSnapshot :=
  fun _ => Ok {| RoadNetwork.network_version := 1; RoadNetwork.nodes := []; RoadNetwork.edges := [] |}.
Definition ex_routing : RoutingService Dispatch.db :=
  routing_over (finder := ex_finder) (fun s => s) (fun _ => 0%Q) (Some Routing.default_catalog) (7 # 10) true (Some ex_network).
Definition ex_execute : Dispatch.request -> action Dispatch.db Dispatch.DispatchResult := execute_over (fun _ => ""%string) true ["DSP-1"%string].
Definition ex_deps (sandtable : option (Z -> string -> string -> option string -> action Dispatch.db Sandtable.resolution)) : GraphDependencies Dispatch.db :=
  {| audit_service := None; capacity_service := None; dispatch_service := Some ex_execute; entity_memory_service := None; graph_memory_service := None;
     environment_service := None; routing_service := Some ex_routing; real_road_route_service := None; sandtable_context_service := sandtable;
     fleet_allocation_service := None; road_network_snapshot_service := None |}.
Definition ex_mismatch : GraphDependencies Dispatch.db := ex_deps (Some (fun _ _ _ _ => ret_action (Sandtable.VehicleAssignmentMismatch ex_context))).
Definition ex_db : Dispatch.db :=
  {| Dispatch.orders := {[7]}; Dispatch.road_nodes := ∅; Dispatch.tasks := [(1, "T1"%string)];
     Dispatch.vehicles := {["V2"%string := {| Dispatch.v_status := "IN_USE"; Dispatch.v_version := 1 |}]}; Dispatch.dispatches := []; Dispatch.evidences := []; Dispatch.next_id := 1 |}.
Definition ex_report : pydict :=
  [("task_id", PStr "T1"); ("order_id", PInt 7); ("driver_id", PStr "D1"); ("route_id", PStr "national-102"); ("anomaly_type", PStr "WEATHER");
   ("anomaly_description", PStr "heavy rain"); ("vehicle_id", PStr "V1")]%string.
Definition executed_in (r : result pydict) : bool :=
  match r with Ok s => is_true (get (AuditReview.mapping (get s "dispatch_result")) "executed") | Err _ => false end.
Definition read_in (r : result pydict) (key : string) : pyval := match r with Ok s => get s key | Err _ => PNone end.

(** C13: whatever the state says about a review, the routing node overwrites
    it.  After the node the flag is set exactly when the result of the routing
    service asks for a review, when the issue is not one of the road (unless it is
    a breakdown whose vehicle was replaced), or when a reroute is left without a
    route; so a review that an earlier node asked for is lost, while its error code
    stays, unless no route is reachable.  And had the state asked for a review, or
    not asked for it, or carried another error, the node would have left the same
    flag and the same world. *)
Theorem routing_overwrites_review {W} (f : formats) (deps : GraphDependencies W) service state w s1 w1
    (R : routing_service deps = Some service) (Routed : node_step ("routing"%string, routing_node f deps) state w = (Ok s1, w1)) :
  (exists r category capacity status route, answered deps service state w r /\ get s1 "identified_issue" = PStr category /\
     dict_default state "capacity_state" = Ok capacity /\ opt_text capacity "capacity_status" = Ok status /\ get s1 "recommended_route" = opt_str route /\
     get s1 "requires_manual_review" = PBool (Routing.requires_manual_review r
       || (one_of category ["VEHICLE_BREAKDOWN"; "CARGO"; "CAPACITY"; "OTHER"]%string && negb (String.eqb category "VEHICLE_BREAKDOWN" && bool_decide (status = Some "REASSIGNED"%string)))
       || (String.eqb (Routing.decision r) "REROUTE" && bool_decide (route = None))) /\
     get s1 "error_code" = (if plans service state && unreachable r then PStr "NO_REACHABLE_ROUTE" else get state "error_code")) /\
  (forall key v, key ∈ review_keys -> exists s1', node_step ("routing"%string, routing_node f deps) (Events.dict_set state key v) w = (Ok s1', w1) /\
     get s1' "requires_manual_review" = get s1 "requires_manual_review").
Proof.
  pose proof (node_step_inv _ _ _ _ _ _ Routed) as (p1 & n1 & H1 & C1 & _ & _ & U1). destruct (routing_node_patch f deps service state w p1 w1 R H1) as (r & base & rest & A & B & -> & N & X).
  specialize (U1 N). destruct (recommended_patch_review f state r base B) as (category & capacity & status & route & B1 & B2 & B3 & B4 & B5).
  assert (F : forall k, one_of k counter_keys = false -> dict_get s1 k = match dict_get (base ++ rest) k with Some v => Some v | None => dict_get state k end) by (intros k Hk; apply U1; by apply one_of_false).
  split.
  - exists r, category, capacity, status, route. unfold get. rewrite !F, X by reflexivity. rewrite !dict_get_app, B1, B4, B5. split_and!; try done. by destruct (plans service state && unreachable r).
  - intros key v K. set (state' := Events.dict_set state key v).
    assert (H2 : routing_node f deps state' w = (Ok (base ++ rest), w1)).
    { etransitivity; [|exact H1]. unfold routing_node. rewrite R. unfold plans. rewrite !(get_other state key v K), (plan_branch_blind f deps state key v K), (score_branch_blind f state key v K) by reflexivity. done. }
    assert (C2 : completed_count state' = Ok n1) by (unfold completed_count; rewrite (read_other state key v K) by reflexivity; exact C1).
    destruct (node_step ("routing"%string, routing_node f deps) state' w) as [[s1'|e] w1'] eqn:S.
    2: { unfold node_step, instrument_node, bind_action, lift in S. cbn [fst snd] in S. rewrite H2, C2 in S. done. }
    pose proof (node_step_inv _ _ _ _ _ _ S) as (p2 & n2 & H3 & _ & _ & _ & U2). rewrite H2 in H3. injection H3 as <- <-. exists s1'. split; [done|].
    unfold get. rewrite (U2 N "requires_manual_review"%string), (U1 "requires_manual_review"%string) by (by apply one_of_false). by rewrite dict_get_app, B5.
Qed.

(** The report of [ex_mismatch] is to be checked by a person, and the graph
    dispatches it all the same: the routing node finds the flag set and leaves it
    not set. *)
Definition ex_intake_done : pydict :=
  match run_nodes (take 5 (build_graph ex_formats "2026-09-02T00:00:00Z" ex_mismatch)) ex_report ex_db with (Ok s, _) => s | _ => [] end.
Lemma routing_overwrites_review_witness :
  map fst (take 6 (build_graph ex_formats "2026-09-02T00:00:00Z" ex_mismatch)) = ["intake"; "entity_memory"; "graph_memory"; "environment"; "capacity"; "routing"]%string /\
  get ex_intake_done "requires_manual_review" = PBool true /\ get ex_intake_done "error_code" = PStr "VEHICLE_ASSIGNMENT_MISMATCH" /\
  (exists s1 w1, node_step ("routing"%string, routing_node ex_formats ex_mismatch) ex_intake_done ex_db = (Ok s1, w1) /\
     get s1 "requires_manual_review" = PBool false /\ get s1 "error_code" = PStr "VEHICLE_ASSIGNMENT_MISMATCH" /\
     exists s1', node_step ("routing"%string, routing_node ex_formats ex_mismatch) (Events.dict_set ex_intake_done "requires_manual_review" (PBool false)) ex_db = (Ok s1', w1) /\
       get s1' "requires_manual_review" = get s1 "requires_manual_review") /\
  executed_in (invoke ex_formats "2026-09-02T00:00:00Z" ex_mismatch ex_report ex_db).1 = true.
Proof.
  split; [reflexivity|]. split; [vm_compute; reflexivity|]. split; [vm_compute; reflexivity|]. split; [|vm_compute; reflexivity].
  destruct (node_step ("routing"%string, routing_node ex_formats ex_mismatch) ex_intake_done ex_db) as [[s1|e] w1] eqn:S; [|vm_compute in S; discriminate S].
  exists s1, w1. split; [reflexivity|]. split; [vm_compute in S; injection S as <- _; reflexivity|]. split; [vm_compute in S; injection S as <- _; reflexivity|].
  apply (proj2 (routing_overwrites_review ex_formats ex_mismatch ex_routing ex_intake_done ex_db s1 w1 eq_refl S)). by left.
Defined.

Definition ex_ready : pydict := ex_report ++ [("capacity_state", PDict [("capacity_status", PStr "AVAILABLE")])]%string.
Definition ex_routed : pydict := match node_step ("routing"%string, routing_node ex_formats (ex_deps None)) ex_ready ex_db with (Ok s, _) => s | _ => [] end.
Definition ex_done : result pydict * Dispatch.db := node_step ("dispatch"%string, dispatch_node (ex_deps None)) ex_routed ex_db.
Definition ex_final : pydict := match ex_done with (Ok s, _) => s | _ => [] end.

Lemma ex_routing_promise : RoutingPromise ex_routing.
Proof.
  apply routing_over_promise. intros p c [= <-] H. apply list_elem_of_In in H. simpl in H. by destruct H as [<-|[<-|[<-|[]]]].
Qed.

Lemma executed_dispatch_is_verified_witness :
  get ex_routed "requires_manual_review" = PBool false /\ capacity_allows ex_ready /\
  exists route, proposes ex_routed route /\ get (AuditReview.mapping (get ex_final "dispatch_result")) "target_route_id" = PStr route.
Proof.
  apply (executed_dispatch_is_verified ex_formats (ex_deps None) ex_routing ex_execute has_dispatch ex_ready ex_db ex_routed ex_db ex_db ex_final ex_done.2).
  - reflexivity.
  - exact ex_routing_promise.
  - reflexivity.
  - apply execute_over_promise.
  - reflexivity.
  - vm_compute. reflexivity.
  - intros t _ (pk & x & _ & [=]).
  - vm_compute. reflexivity.
  - vm_compute. reflexivity.
Defined.

(** a run that does not raise completes the eight nodes in their order: it
    ends after the audit and has counted eight nodes more than it found. *)
Theorem graph_runs_every_node {W} (f : formats) (now : string) (deps : GraphDependencies W) state w final w' n
    (C : completed_count state = Ok n) (H : invoke f now deps state w = (Ok final, w')) :
  get final "last_completed_node" = PStr "audit" /\ completed_count final = Ok (n + 8).
Proof.
  destruct (run_nodes_counts (build_graph f now deps) state w final w' "audit" n (audit_node deps)) as [L K]; [done|done|exact H|].
  unfold get. by rewrite L.
Qed.
Lemma graph_runs_every_node_witness :
  exists final w', get final "last_completed_node" = PStr "audit" /\ completed_count final = Ok (0 + 8) /\ executed_in (Ok final) = true /\ Dispatch.next_id w' = 2.
Proof.
  destruct (invoke ex_formats "t" (ex_deps None) ex_report ex_db) as [[final|e] w'] eqn:E; [|exfalso; revert E; by vm_compute].
  exists final, w'. destruct (graph_runs_every_node ex_formats "t" (ex_deps None) ex_report ex_db final w' 0) as [A B]; [reflexivity|exact E|].
  split; [exact A|]. split; [exact B|]. revert E. vm_compute. intros [= <- <-]. by split.
Defined.
