(* ===== verification/VectorMemory.v ===== *)
(** * VectorMemory: facts and memories in the vector store

    Models [app/shared_memory/qdrant_projection.py], [projection_builder.py] (its
    vectors), [memory/qdrant_repository.py] and the listing of
    [workspace_reads/qdrant_repository.py].  The Qdrant client is an argument, with
    the documented effect of its calls as laws: a call that fails may have taken
    effect, on all the points it concerns or on some.  Arguments are also the
    UUIDs of names, the texts of instants and their parser, and the codec of
    cursors.  Embeddings are lists of rationals. *)

From S2P Require Import Prelude Texts Evidence DecimalText.
From S2P Require Events MemoryPolicy SharedMemory.

Local Open Scope Z_scope.
Local Open Scope list_scope.

(** ** Points, filters and the client *)
Record point := { vector : list Q; payload : pydict }.
(** [FieldCondition] with [MatchValue], [Range(lt)] or [DatetimeRange(gt)],
    [IsEmptyCondition], and a nested [Filter] with [must] or [should]. *)
Inductive condition :=
| FieldMatch (key : string) (v : pyval)
| FieldBelow (key : string) (bound : Z)
| FieldAfter (key : string) (instant : Z)
| IsEmpty (key : string)
| Must (cs : list condition)
| Should (cs : list condition).
Inductive selector := Ids (ids : list string) | Where (c : condition).

Section filters.
Context (instant_of : string -> option Z).
Definition field_after (v : pyval) (t : Z) : bool := match v with PStr s => match instant_of s with Some u => t <? u | None => false end | _ => false end.
Fixpoint matches (c : condition) (d : pydict) : bool :=
  match c with
  | FieldMatch key v => match get d key with PList l => existsb (py_eq v) l | w => py_eq v w end
  | FieldBelow key z => match get d key with PInt n => n <? z | _ => false end
  | FieldAfter key t => field_after (get d key) t
  | IsEmpty key => match get d key with PNone | PList [] => true | _ => false end
  | Must cs => forallb (fun c => matches c d) cs
  | Should cs => existsb (fun c => matches c d) cs
  end.
Definition selects (s : selector) (i : string) (p : point) : bool := match s with Ids l => one_of i l | Where c => matches c (payload p) end.
(** The points after a payload was set on those selected. *)
Definition set_on (s : selector) (d : pydict) (m : gmap string point) : gmap string point :=
  map_imap (fun i p => Some (if selects s i p then {| vector := vector p; payload := Events.dict_update (payload p) d |} else p)) m.
End filters.

Class QdrantClient (C : Type) := {
  collection_exists : action C bool;
  create_collection : Z -> action C unit;
  client_upsert : string -> point -> action C unit;
  set_payload : selector -> pydict -> action C unit;
  scroll : condition -> Z -> action C (list point);
  count : condition -> action C Z;
  query_points : list Q -> condition -> Z -> action C (list (point * Q));
}.
(** What the client does to the points of the collection. *)
Class QdrantClientLaws (C : Type) `{QdrantClient C} (instant_of : string -> option Z) := {
  points : C -> gmap string point;
  exists_law c r c' : collection_exists c = (r, c') -> points c' = points c;
  create_law d c r c' : create_collection d c = (r, c') -> points c' = points c;
  upsert_law i p c r c' : client_upsert i p c = (r, c') ->
    points c' = <[i := p]> (points c) \/ (points c' = points c /\ exists e, r = Err e);
  set_payload_law s d c r c' : set_payload s d c = (r, c') ->
    match r with
    | Ok _ => points c' = set_on instant_of s d (points c)
    | Err _ => forall i, points c' !! i = points c !! i \/ points c' !! i = set_on instant_of s d (points c) !! i
    end;
  scroll_law f n c r c' : scroll f n c = (r, c') -> points c' = points c /\
    forall l, r = Ok l -> (forall p, p ∈ l -> exists i, points c !! i = Some p /\ matches instant_of f (payload p) = true) /\
      (l = [] -> 0 < n -> forall i p, points c !! i = Some p -> matches instant_of f (payload p) = false);
  count_law f c r c' : count f c = (r, c') -> points c' = points c;
  query_law v f n c r c' : query_points v f n c = (r, c') -> points c' = points c /\
    forall l, r = Ok l -> forall p s, (p, s) ∈ l -> exists i, points c !! i = Some p /\ matches instant_of f (payload p) = true;
}.

(** ** The projection of shared memory *)
Record VectorProjection := {
  v_mutation_id : string;
  v_fact_key : string;
  v_control_version : Z;
  v_memory_id : string;
  v_vector : list Q;
  v_driver_id : string;
  v_route_id : string;
  v_anomaly_type : string;
  v_resolution_text : string;
  v_metadata : pydict;
  v_expires_at : option Z;
}.
Definition ValueError (m : string) : exn := Exn "ValueError" m.

(** [build_vector]: [embed] is the embedding provider, [str] the text of a value. *)
Section builder.
Context (embed : string -> result (list Q)) (canonical_json : pyval -> result string) (str : pyval -> string).
Import MemoryPolicy.
Definition truthy_part (o : option string) : list string := match o with Some s => if String.eqb s "" then [] else [s] | None => [] end.
Fixpoint spaced (parts : list string) : string :=
  match parts with [] => "" | [s] => s | s :: rest => s +:+ " " +:+ spaced rest end.
Definition resolution_of (d : pydict) : string := match dict_get d "resolution" with Some v => str v | None => str (PDict d) end.
Definition build_vector (c : SharedMemoryMutationCommand) (mid key : string) (version : Z) : result VectorProjection :=
  value ← canonical_json (PDict (value_json c));
  let text := spaced (flat_map truthy_part
    [Some (subject_id c); object_id c; Some (predicate c); Some value; evidence_text c; Some (reason c)]) in
  v ← embed text;
  Ok {| v_mutation_id := mid; v_fact_key := key; v_control_version := version; v_memory_id := or_else (vector_memory_id c) key; v_vector := v;
        v_driver_id := subject_id c; v_route_id := or_else (object_id c) "unknown-route"; v_anomaly_type := predicate c;
        v_resolution_text := resolution_of (value_json c); v_metadata := [("text"%string, PStr text)]; v_expires_at := expires_at c |}.
End builder.

Section qdrant.
Context {C : Type} `{QdrantClient C} (uuid5 : string -> string) (isoformat : Z -> string) (str : pyval -> string) (dimension : Z).

Definition lift {A} (r : result A) : action C A := fun c => (r, c).
Definition ensure_collection : action C unit :=
  (do there <- collection_exists; if (there : bool) then ret_action tt else create_collection dimension)%action.

(** *** [QdrantMemoryProjection] *)
Definition point_name : string -> Z -> string := versioned "countyflow-shared-memory:".
Definition point_id (p : VectorProjection) : string := uuid5 (point_name (v_memory_id p) (v_control_version p)).
(** A projection has no attribute [timestamp]. *)
Definition payload_of (p : VectorProjection) : pydict :=
  [("memory_id", PStr (v_memory_id p)); ("driver_id", PStr (v_driver_id p)); ("route_id", PStr (v_route_id p)); ("anomaly_type", PStr (v_anomaly_type p));
   ("resolution_text", PStr (v_resolution_text p)); ("metadata", PDict (v_metadata p)); ("created_at", PStr ""); ("fact_key", PStr (v_fact_key p));
   ("control_version", PInt (v_control_version p)); ("projection_status", PStr "STAGED"); ("mutation_id", PStr (v_mutation_id p));
   ("expires_at", match v_expires_at p with Some t => PStr (isoformat t) | None => PNone end)]%string.
Definition stage (p : VectorProjection) : action C unit :=
  if negb (Z.of_nat (length (v_vector p)) =? dimension) then raise_action (ValueError ("expected " +:+ z_str dimension +:+ " dimensions"))
  else (do _ <- ensure_collection; client_upsert (point_id p) {| vector := v_vector p; payload := payload_of p |})%action.
Definition probe (mid : string) (version : Z) : action C (option string) :=
  (do _ <- ensure_collection;
   do found <- scroll (Must [FieldMatch "mutation_id" (PStr mid); FieldMatch "control_version" (PInt version)]) 2;
   ret_action (match found with [] => None | p :: _ => Some (match get (payload p) "projection_status" with PStr s => s | v => str v end) end))%action.
Definition activate (p : VectorProjection) : action C unit :=
  (do _ <- ensure_collection; set_payload (Ids [point_id p]) [("projection_status", PStr "ACTIVE")]%string)%action.
Definition earlier (p : VectorProjection) : condition :=
  Must [FieldMatch "fact_key" (PStr (v_fact_key p)); FieldMatch "projection_status" (PStr "ACTIVE"); FieldBelow "control_version" (v_control_version p)].
Definition retire_previous (p : VectorProjection) : action C unit :=
  (do _ <- ensure_collection; set_payload (Where (earlier p)) [("projection_status", PStr "RETIRED")]%string)%action.
Definition count_points (memory : string) (version : Z) : action C Z :=
  (do _ <- ensure_collection; count (Must [FieldMatch "memory_id" (PStr memory); FieldMatch "control_version" (PInt version)]))%action.

#[export] Instance vector_port : SharedMemory.ProjectionPort C VectorProjection := {|
  SharedMemory.stage := stage; SharedMemory.probe := probe; SharedMemory.activate := activate; SharedMemory.retire_previous := retire_previous |}.

(** *** [QdrantMemoryRepository] *)
Record MemoryRecord := {
  memory_id : string; driver_id : string; route_id : string; anomaly_type : string; resolution_text : string; metadata : pydict; created_at : Z;
}.
Record MemoryRecall := {
  r_memory_id : pyval; similarity_score : Q; r_driver_id : pyval; r_route_id : pyval; r_anomaly_type : pyval; historical_resolution : pyval; r_metadata : pyval;
}.
Definition EmbeddingDimensionError : exn := Exn "EmbeddingDimensionError" ("expected " +:+ z_str dimension +:+ " dimensions").
Definition record_name (memory : string) : string := "countyflow-memory:" +:+ memory.
(** [v in {"DEMO", "LIVE"}]: a list or a dictionary has no hash. *)
Definition known_provenance (v : pyval) : result bool :=
  match v with PStr s => Ok (one_of s ["DEMO"; "LIVE"]%string) | PList _ | PDict _ => Err (Exn "TypeError" "unhashable type") | _ => Ok false end.
Definition record_payload (r : MemoryRecord) : result pydict :=
  known ← known_provenance (get (metadata r) "data_provenance");
  Ok ([("memory_id", PStr (memory_id r)); ("driver_id", PStr (driver_id r)); ("route_id", PStr (route_id r)); ("anomaly_type", PStr (anomaly_type r));
   ("resolution_text", PStr (resolution_text r)); ("metadata", PDict (metadata r)); ("created_at", PStr (isoformat (created_at r)))]%string
  ++ (if (known : bool) then [("data_provenance"%string, get (metadata r) "data_provenance")] else [])).
Definition upsert (r : MemoryRecord) (v : list Q) : action C unit :=
  if negb (Z.of_nat (length v) =? dimension) then raise_action EmbeddingDimensionError
  else (do _ <- ensure_collection; do d <- lift (record_payload r); client_upsert (uuid5 (record_name (memory_id r))) {| vector := v; payload := d |})%action.

Definition active_or_legacy : condition := Should [FieldMatch "projection_status" (PStr "ACTIVE"); IsEmpty "projection_status"].
Definition unexpired_or_legacy (now : Z) : condition := Should [FieldAfter "expires_at" now; IsEmpty "expires_at"].
Definition required (d : pydict) (key : string) : result pyval := of_option (Exn "KeyError" key) (dict_get d key).
Definition recalled (found : point * Q) : result MemoryRecall :=
  let d := payload found.1 in
  i ← required d "memory_id"; dr ← required d "driver_id"; ro ← required d "route_id"; an ← required d "anomaly_type";
  re ← required d "resolution_text"; me ← required d "metadata";
  Ok {| r_memory_id := i; similarity_score := found.2; r_driver_id := dr; r_route_id := ro; r_anomaly_type := an; historical_resolution := re; r_metadata := me |}.
Definition search (now : Z) (v : list Q) (top_k : Z) : action C (list MemoryRecall) :=
  if top_k <=? 0 then raise_action (ValueError "top_k must be positive")
  else (do _ <- ensure_collection;
        do found <- query_points v (Must [active_or_legacy; unexpired_or_legacy now]) top_k;
        lift (map_result recalled found))%action.
End qdrant.

(** ** What the operations do to the points *)
Definition with_status (s : string) (q : point) : point := {| vector := vector q; payload := Events.dict_update (payload q) [("projection_status"%string, PStr s)] |}.
Definition fact_of (q : point) : pyval := get (payload q) "fact_key".
Definition version_of (q : point) : pyval := get (payload q) "control_version".
Definition status_of (q : point) : pyval := get (payload q) "projection_status".
Lemma get_with_status s q k : get (payload (with_status s q)) k = if String.eqb "projection_status" k then PStr s else get (payload q) k.
Proof. unfold get, with_status. cbn [payload]. unfold Events.dict_update. cbn [fold_left fst snd]. rewrite Events.get_set. by case_match. Qed.

Section effects.
Context {C : Type} `{Q : QdrantClient C} (instant_of : string -> option Z) `{Laws : !QdrantClientLaws C instant_of}.
Context (uuid5 : string -> string) (isoformat : Z -> string) (str : pyval -> string) (dimension : Z).
#[local] Abbreviation stage := (stage (C := C) uuid5 isoformat dimension).
#[local] Abbreviation activate := (activate (C := C) uuid5 dimension).
#[local] Abbreviation retire_previous := (retire_previous (C := C) dimension).
#[local] Abbreviation upsert := (upsert (C := C) uuid5 isoformat dimension).
#[local] Abbreviation point_id := (point_id uuid5).

Definition staged (p : VectorProjection) : point := {| vector := v_vector p; payload := payload_of isoformat p |}.

Lemma ensured c r c' : ensure_collection (C := C) dimension c = (r, c') -> points c' = points c.
Proof.
  intros [(b & c1 & E1 & E2)|(e & E1 & _)]%bind_action_inv; [|by eapply exists_law].
  rewrite <- (exists_law _ _ _ E1). destruct b; [by injection E2 as _ <-|by eapply create_law].
Qed.
(** After the collection is ensured. *)
Lemma after_ensured {A} (m : action C A) c r c' : (do _ <- ensure_collection dimension; m)%action c = (r, c') ->
  (exists c1, points c1 = points c /\ m c1 = (r, c')) \/ (points c' = points c /\ exists e, r = Err e).
Proof. intros [(u & c1 & E1 & E2)|(e & E1 & ->)]%bind_action_inv; apply ensured in E1; [left; by exists c1|right; eauto]. Qed.

Lemma stage_effect p c r c' : stage p c = (r, c') ->
  points c' = <[point_id p := staged p]> (points c) \/ (points c' = points c /\ exists e, r = Err e).
Proof.
  unfold VectorMemory.stage. destruct (negb _); [intros [= <- <-]; right; eauto|]. intros [(c1 & <- & E)|[? ?]]%after_ensured; [by eapply upsert_law|by right].
Qed.
Lemma upsert_effect m v c r c' : upsert m v c = (r, c') ->
  points c' = points c \/ exists d, record_payload isoformat m = Ok d /\ points c' = <[uuid5 (record_name (memory_id m)) := {| vector := v; payload := d |}]> (points c).
Proof.
  unfold VectorMemory.upsert. destruct (negb _); [by intros [= <- <-]; left|]. intros [(c1 & <- & E)|[? ?]]%after_ensured; [|by left].
  apply bind_action_inv in E as [(d & c2 & E1 & E2)|(e & E1 & _)]; unfold lift in E1; injection E1 as E1 ->; [|by left].
  apply upsert_law in E2 as [E2|[E2 _]]; [right; by exists d|by left].
Qed.
Lemma set_on_lookup s d (m : gmap string point) i : set_on instant_of s d m !! i =
  (fun p => if selects instant_of s i p then {| vector := vector p; payload := Events.dict_update (payload p) d |} else p) <$> m !! i.
Proof. unfold set_on. rewrite map_lookup_imap. by destruct (m !! i). Qed.
(** A call that sets the status of some points sets it pointwise. *)
Definition status_set (sel : string -> point -> bool) (s : string) (m m' : gmap string point) (all : Prop) : Prop := forall i,
  (m' !! i = m !! i /\ (all -> forall q, m !! i = Some q -> sel i q = false)) \/ exists q, m !! i = Some q /\ sel i q = true /\ m' !! i = Some (with_status s q).
Lemma set_status_effect sel s c r c' : set_payload sel [("projection_status"%string, PStr s)] c = (r, c') ->
  status_set (selects instant_of sel) s (points c) (points c') (r = Ok tt).
Proof.
  intros E i. apply set_payload_law in E.
  assert (K : points c' !! i = set_on instant_of sel [("projection_status"%string, PStr s)] (points c) !! i ->
    (points c' !! i = points c !! i /\ (r = Ok tt -> forall q, points c !! i = Some q -> selects instant_of sel i q = false)) \/
    exists q, points c !! i = Some q /\ selects instant_of sel i q = true /\ points c' !! i = Some (with_status s q)).
  { rewrite set_on_lookup. intros ->. destruct (points c !! i) as [q|]; [|left; split; [done|by intros _ q]]. cbn [fmap option_fmap option_map].
    destruct (selects instant_of sel i q) eqn:S; [right; by exists q|left; split; [done|]]. intros _ q' [= <-]. done. }
  destruct r as [[]|e]; [apply K; by rewrite E|]. destruct (E i) as [H|H]; [left; split; [done|discriminate]|by apply K].
Qed.
Lemma status_set_none sel s m m' : m' = m -> status_set sel s m m' False.
Proof. intros -> i. left. split; [done|by intros []]. Qed.
Lemma status_set_weaken sel s m m' (P P' : Prop) : (P' -> P) -> status_set sel s m m' P -> status_set sel s m m' P'.
Proof. intros I H i. destruct (H i) as [[A B]|X]; [left; split; [done|auto]|by right]. Qed.
Lemma activate_effect p c r c' : activate p c = (r, c') ->
  status_set (fun i _ => String.eqb i (point_id p)) "ACTIVE" (points c) (points c') (r = Ok tt).
Proof.
  intros [(c1 & <- & E)|[E [e ->]]]%after_ensured; [|eapply status_set_weaken; [|by apply status_set_none]; discriminate].
  apply set_status_effect in E. intros i. destruct (E i) as [[A B]|(q & A & B & D)]; cbn [selects one_of existsb] in *.
  - left. split; [done|]. intros R q Hq. specialize (B R q Hq). by apply orb_false_iff in B as [B _].
  - right. exists q. split; [done|]. split; [|done]. by rewrite orb_false_r in B.
Qed.
Lemma retire_effect p c r c' : retire_previous p c = (r, c') ->
  status_set (fun _ q => matches instant_of (earlier p) (payload q)) "RETIRED" (points c) (points c') (r = Ok tt).
Proof.
  intros [(c1 & <- & E)|[E [e ->]]]%after_ensured; [|eapply status_set_weaken; [|by apply status_set_none]; discriminate].
  by apply set_status_effect in E.
Qed.
Lemma earlier_spec p q f n s : fact_of q = PStr f -> version_of q = PInt n -> status_of q = PStr s ->
  matches instant_of (earlier p) (payload q) = true <-> f = v_fact_key p /\ s = "ACTIVE"%string /\ n < v_control_version p.
Proof.
  unfold fact_of, version_of, status_of. intros F N S. unfold earlier. cbn [matches forallb]. rewrite F, N, S. cbn [py_eq]. rewrite andb_true_r, !andb_true_iff.
  rewrite !String.eqb_eq, Z.ltb_lt. naive_solver.
Qed.

(** ** Histories of the collection *)
Context (memory_of : string -> string) (memory_inj : forall f g, memory_of f = memory_of g -> f = g) (uuid5_inj : forall s t, uuid5 s = uuid5 t -> s = t).
Definition id_of (f : string) (n : Z) : string := uuid5 (point_name (memory_of f) n).
(** A fact has a memory of its own, which is the default. *)
Definition own (p : VectorProjection) : Prop := v_memory_id p = memory_of (v_fact_key p).

(** A record of the repository. *)
Definition recorded_only (i : string) (q : point) : Prop := status_of q = PNone /\ exists memory, i = uuid5 (record_name memory).

(** The calls of the projection on a version of a fact, and whether they were
    answered; the latest first. *)
Inductive event := Staged (f : string) (n : Z) (done : bool) | Activated (f : string) (n : Z) (done : bool) | Retired (f : string) (n : Z) (done : bool).
Definition completed {A} (r : result A) : bool := match r with Ok _ => true | Err _ => false end.

(** Collections that began with records of the repository and saw any calls of
    both writers in any order, each answered or not: a version may be staged again,
    activated without a retirement, and retired by a version that was never
    activated. *)
Inductive history : C -> list event -> Prop :=
| history_start c : (forall i q, points c !! i = Some q -> recorded_only i q) -> history c []
| history_upsert c log m v r c' : history c log -> upsert m v c = (r, c') -> history c' log
| history_probe c log mid n r c' : history c log -> probe str dimension mid n c = (r, c') -> history c' log
| history_stage c log p r c' : history c log -> own p -> stage p c = (r, c') -> history c' (Staged (v_fact_key p) (v_control_version p) (completed r) :: log)
| history_activate c log p r c' : history c log -> own p -> activate p c = (r, c') -> history c' (Activated (v_fact_key p) (v_control_version p) (completed r) :: log)
| history_retire c log p r c' : history c log -> own p -> retire_previous p c = (r, c') -> history c' (Retired (v_fact_key p) (v_control_version p) (completed r) :: log).

(** A version can be shown after an activation since which it was not staged
    again and no later version retired it, both to completion; and it must be shown
    when it was staged and activated to completion and neither was tried since. *)
Definition may_show (log : list event) (f : string) (n : Z) : Prop := exists later done earlier, log = later ++ Activated f n done :: earlier /\
  (exists d, Staged f n d ∈ earlier) /\ (Staged f n true ∉ later) /\ forall m, n < m -> Retired f m true ∉ later.
Definition must_show (log : list event) (f : string) (n : Z) : Prop := exists later earlier, log = later ++ Activated f n true :: earlier /\
  Staged f n true ∈ earlier /\ (forall d, Staged f n d ∉ later) /\ forall m d, n < m -> Retired f m d ∉ later.

(** A point of shared memory stands under its fact and version, was staged, and
    is shown only if it may be; any other is a record. *)
Definition in_order (log : list event) (i : string) (q : point) : Prop :=
  recorded_only i q \/ exists f n s, i = id_of f n /\ fact_of q = PStr f /\ version_of q = PInt n /\ status_of q = PStr s /\
    (exists d, Staged f n d ∈ log) /\ (s = "ACTIVE"%string -> may_show log f n).
Definition stands (m : gmap string point) (f : string) (n : Z) (st : pyval -> Prop) : Prop :=
  exists q, m !! id_of f n = Some q /\ st (status_of q) /\ fact_of q = PStr f /\ version_of q = PInt n.
Definition shows (m : gmap string point) (f : string) (n : Z) : Prop := stands m f n (fun s => s = PStr "ACTIVE").
Record ordered (m : gmap string point) (log : list event) : Prop := {
  points_in_order i q : m !! i = Some q -> in_order log i q;
  staged_stands f n : Staged f n true ∈ log -> stands m f n (fun _ => True);
  must_shown f n : must_show log f n -> shows m f n;
}.

(** *** Identifiers *)
Lemma id_inj f n g m : id_of f n = id_of g m -> f = g /\ n = m.
Proof. intros E%uuid5_inj%versioned_inj. destruct E as [E ->]. by split; [apply memory_inj|]. Qed.
Lemma record_apart memory f n : uuid5 (record_name memory) <> id_of f n.
Proof. intros E%uuid5_inj%(f_equal chars). unfold record_name, point_name in E. rewrite versioned_chars, chars_app in E. discriminate E. Qed.
Lemma own_id p : own p -> point_id p = id_of (v_fact_key p) (v_control_version p).
Proof. unfold own, VectorMemory.point_id, id_of. by intros ->. Qed.

(** *** One more event *)
Implicit Types (m : gmap string point) (log : list event).
Lemma cons_app_inv (e : event) log later x earlier : e :: log = later ++ x :: earlier ->
  (later = [] /\ e = x /\ log = earlier) \/ exists later', later = e :: later' /\ log = later' ++ x :: earlier.
Proof. destruct later as [|y later]; intros [= <- E]; [left|right]; [done|by exists later]. Qed.
Lemma may_show_later e log f n : may_show log f n -> e <> Staged f n true -> (forall k, n < k -> e <> Retired f k true) -> may_show (e :: log) f n.
Proof.
  intros (l & d & e' & -> & S & N1 & N2) A B. exists (e :: l), d, e'. split; [done|]. split; [done|]. split.
  - intros [X|X]%elem_of_cons; [by apply A|done].
  - intros k L [X|X]%elem_of_cons; [by apply (B k L)|by apply (N2 k L)].
Qed.
Lemma must_show_earlier e log f n : must_show (e :: log) f n ->
  (e = Activated f n true /\ Staged f n true ∈ log) \/ (must_show log f n /\ (forall d, e <> Staged f n d) /\ forall k d, n < k -> e <> Retired f k d).
Proof.
  intros (l & e' & E & S & N1 & N2). apply cons_app_inv in E as [(-> & -> & ->)|(l' & -> & ->)]; [by left|right]. split; [|split].
  - exists l', e'. split; [done|]. split; [done|]. split; [intros d X; apply (N1 d); by right|intros k d L X; apply (N2 k d L); by right].
  - intros d ->. apply (N1 d). by left.
  - intros k d L ->. apply (N2 k d L). by left.
Qed.
Lemma in_order_later e log i q : in_order log i q -> (forall f n, i = id_of f n -> status_of q = PStr "ACTIVE" -> fact_of q = PStr f -> version_of q = PInt n ->
  e <> Staged f n true /\ forall k, n < k -> e <> Retired f k true) -> in_order (e :: log) i q.
Proof.
  intros [R|(f & n & s & H1 & H2 & H3 & H4 & (d & H5) & H6)] K; [by left|right]. exists f, n, s. split_and!; [done..|exists d; by right|].
  intros ->. destruct (K f n H1 H4 H2 H3) as [K1 K2]. by apply may_show_later; [apply H6|..].
Qed.

(** *** Every call keeps the points in order *)
Lemma record_order m log r v d : ordered m log -> record_payload isoformat r = Ok d ->
  ordered (<[uuid5 (record_name (memory_id r)) := {| vector := v; payload := d |}]> m) log.
Proof.
  intros [O T S] D. assert (K : forall f n P, stands m f n P -> stands (<[uuid5 (record_name (memory_id r)) := {| vector := v; payload := d |}]> m) f n P).
  { intros f n P (q & Hq). exists q. rewrite lookup_insert_ne; [done|apply record_apart]. }
  split; [|intros f n H; by apply K, T|intros f n H; by apply K, S].
  intros i q. rewrite lookup_insert_Some. intros [[<- <-]|[_ H]]; [|by apply O]. left. split; [|by eexists].
  unfold record_payload in D. apply result_bind_ok in D as (b & _ & [= <-]). by destruct b.
Qed.
(** A staging overwrites the point of its version, if it does anything. *)
Lemma staged_order m m' log p done : ordered m log -> own p -> m' = <[point_id p := staged p]> m \/ (m' = m /\ done = false) ->
  ordered m' (Staged (v_fact_key p) (v_control_version p) done :: log).
Proof.
  intros [O T S] M E. pose proof (own_id p M) as P.
  assert (New : m' = <[point_id p := staged p]> m -> stands m' (v_fact_key p) (v_control_version p) (fun _ => True)) by (intros ->; exists (staged p); rewrite <- P, lookup_insert_eq; by split_and!).
  assert (Keep : forall f n st, stands m f n st -> (f, n) <> (v_fact_key p, v_control_version p) -> stands m' f n st).
  { intros f n st (q & Hq) N. exists q. destruct E as [ -> |[-> _]]; [|done]. rewrite lookup_insert_ne; [done|]. rewrite P. intros [<- <-]%id_inj. done. }
  split.
  - intros i q H. assert (C0 : (i = point_id p /\ q = staged p) \/ (m !! i = Some q /\ (i = point_id p -> done = false))).
    { destruct E as [ -> |[-> D]]; [|by right]. apply lookup_insert_Some in H as [[<- <-]|[N H]]; [by left|right]. split; [done|]. by intros ->. }
    destruct C0 as [[-> ->]|[H0 D]].
    + right. exists (v_fact_key p), (v_control_version p), "STAGED"%string. split_and!; [done..|exists done; by left|done].
    + apply in_order_later; [by apply O|]. intros f n -> _ _ _. split; [|done]. intros [= <- <- ->]. rewrite P in D. by specialize (D eq_refl).
  - intros f n [X|X]%elem_of_cons; [injection X as -> -> <-; destruct E as [E|[_ [=]]]; by apply New|].
    destruct (decide ((f, n) = (v_fact_key p, v_control_version p))) as [[= -> ->]|N]; [|apply Keep; [by apply T|done]].
    destruct E as [E|[-> _]]; [by apply New|by apply T].
  - intros f n [[X _]|(X & N & _)]%must_show_earlier; [done|]. apply Keep; [by apply S|]. intros [= -> ->]. by apply (N done).
Qed.
Lemma with_status_fields s q : status_of (with_status s q) = PStr s /\ fact_of (with_status s q) = fact_of q /\ version_of (with_status s q) = version_of q.
Proof. unfold status_of, fact_of, version_of. by rewrite !get_with_status. Qed.
(** An activation shows the point of its version, if there is one and it does
    anything. *)
Lemma activated_order m m' log p done : ordered m log -> own p -> status_set (fun i _ => String.eqb i (point_id p)) "ACTIVE" m m' (done = true) ->
  ordered m' (Activated (v_fact_key p) (v_control_version p) done :: log).
Proof.
  intros [O T S] M E. pose proof (own_id p M) as P.
  assert (Keep : forall f n (st : pyval -> Prop), st (PStr "ACTIVE") -> stands m f n st -> stands m' f n st).
  { intros f n st A (q & Q1 & Q2 & Q3 & Q4). destruct (E (id_of f n)) as [[H _]|(q' & H1 & _ & H2)]; [exists q; by rewrite H|].
    simplify_eq. exists (with_status "ACTIVE" q). destruct (with_status_fields "ACTIVE" q) as (-> & -> & ->). by split_and!. }
  split.
  - intros i q H. destruct (E i) as [[H' _]|(q' & H1 & H2 & H3)].
    + apply in_order_later; [apply O; by rewrite <- H'|]. by intros f n.
    + apply String.eqb_eq in H2 as ->. rewrite H3 in H. injection H as <-. destruct (with_status_fields "ACTIVE" q') as (S' & F' & V').
      destruct (O _ _ H1) as [[_ [r R]]|(f & n & s & I & F & V & _ & (d & D) & _)]; [rewrite P in R; by apply eq_sym, record_apart in R|].
      rewrite P in I. apply id_inj in I as [<- <-]. right. exists (v_fact_key p), (v_control_version p), "ACTIVE"%string. split_and!; [done|congruence|congruence|done|exists d; by right|].
      intros _. exists [], done, log. split; [done|]. split; [by exists d|]. split; [by intros ?%elem_of_nil|by intros k _ ?%elem_of_nil].
  - intros f n [X|X]%elem_of_cons; [done|]. by apply Keep, T.
  - intros f n [[X Y]|(X & _)]%must_show_earlier; [|by apply Keep, S]. injection X as <- <- ->. destruct (T _ _ Y) as (q & Q1 & _ & Q3 & Q4).
    destruct (E (point_id p)) as [[_ H]|(q' & H1 & _ & H2)]; [rewrite P in H; specialize (H eq_refl q Q1); by rewrite String.eqb_refl in H|].
    rewrite P in H1, H2. simplify_eq. exists (with_status "ACTIVE" q). destruct (with_status_fields "ACTIVE" q) as (-> & -> & ->). by split_and!.
Qed.

(** Retiring touches the earlier versions of the fact that are shown, on success
    all of them. *)
Lemma retired m m' p all f n s i q : status_set (fun _ q => matches instant_of (earlier p) (payload q)) "RETIRED" m m' all ->
  m !! i = Some q -> fact_of q = PStr f -> version_of q = PInt n -> status_of q = PStr s ->
  m' !! i = Some q /\ (all -> ~ (f = v_fact_key p /\ s = "ACTIVE"%string /\ n < v_control_version p)) \/
  (f = v_fact_key p /\ s = "ACTIVE"%string /\ n < v_control_version p) /\ m' !! i = Some (with_status "RETIRED" q).
Proof.
  intros H Hq F V S. pose proof (earlier_spec p q f n s F V S) as E. destruct (H i) as [[A B]|(q' & A & B & D)].
  - left. split; [by rewrite A|]. intros X. specialize (B X q Hq). intros Y%E. by rewrite Y in B.
  - right. simplify_eq. split; [by apply E|done].
Qed.
Lemma retired_record m m' p all i q : status_set (fun _ q => matches instant_of (earlier p) (payload q)) "RETIRED" m m' all ->
  m !! i = Some q -> status_of q = PNone -> m' !! i = Some q.
Proof.
  intros H Hq S. destruct (H i) as [[A _]|(q' & A & B & _)]; [by rewrite A|]. simplify_eq. unfold status_of in S.
  unfold earlier in B. cbn [matches forallb] in B. rewrite S in B. cbn in B. by rewrite andb_false_r in B.
Qed.
Lemma status_set_none_at (sel : string -> point -> bool) s m m' all i : status_set sel s m m' all -> m !! i = None -> m' !! i = None.
Proof. intros H N. destruct (H i) as [[A _]|(q & A & _)]; [by rewrite A|by rewrite N in A]. Qed.
Lemma retired_order m m' log p done : ordered m log -> status_set (fun _ q => matches instant_of (earlier p) (payload q)) "RETIRED" m m' (done = true) ->
  ordered m' (Retired (v_fact_key p) (v_control_version p) done :: log).
Proof.
  intros [O T S] E.
  assert (Point : forall f n q, m !! id_of f n = Some q -> fact_of q = PStr f -> version_of q = PInt n -> exists s, status_of q = PStr s).
  { intros f n q Hq F V. destruct (O _ _ Hq) as [[_ [r R]]|(g & k & s & _ & _ & _ & H & _)]; [by apply eq_sym, record_apart in R|by exists s]. }
  split.
  - intros i q Hq. destruct (m !! i) as [q0|] eqn:Q0; [|apply (status_set_none_at _ _ _ _ _ _ E) in Q0; congruence].
    pose proof (O i q0 Q0) as [[R R']|(f & n & s & H1 & H2 & H3 & H4 & (d & H5) & H6)]; [left; rewrite (retired_record _ _ _ _ _ _ E Q0 R) in Hq; by injection Hq as <-|].
    destruct (retired _ _ _ _ _ _ _ _ _ E Q0 H2 H3 H4) as [[R Y]|[_ R]]; rewrite R in Hq; injection Hq as <-.
    + apply in_order_later; [by apply O|]. intros g k _ A F V. split; [done|]. intros j L [= <- <- ->]. apply (Y eq_refl). split_and!; [congruence|congruence|].
      assert (n = k) by congruence. lia.
    + destruct (with_status_fields "RETIRED" q0) as (S' & F' & V'). right. exists f, n, "RETIRED"%string. split_and!; [done|congruence|congruence|done|exists d; by right|done].
  - intros f n [X|X]%elem_of_cons; [done|]. destruct (T f n X) as (q & Q1 & _ & Q3 & Q4). destruct (Point f n q Q1 Q3 Q4) as (s & Q5).
    destruct (retired _ _ _ _ _ _ _ _ _ E Q1 Q3 Q4 Q5) as [[R _]|[_ R]]; [by exists q|]. exists (with_status "RETIRED" q). destruct (with_status_fields "RETIRED" q) as (_ & -> & ->). done.
  - intros f n [[X _]|(X & _ & N)]%must_show_earlier; [done|]. destruct (S f n X) as (q & Q1 & Q2 & Q3 & Q4).
    destruct (retired _ _ _ _ _ _ _ _ _ E Q1 Q3 Q4 Q2) as [[R _]|[(-> & _ & L) _]]; [by exists q|]. by destruct (N (v_control_version p) done L).
Qed.

Lemma probe_points mid n c r c' : probe str dimension mid n c = (r, c') -> points c' = points c.
Proof.
  intros [(c1 & <- & E)|[E _]]%after_ensured; [|done]. apply bind_action_inv in E as [(l & c2 & E1 & [= _ <-])|(e & E1 & _)]; by apply scroll_law in E1 as [E1 _].
Qed.
Lemma completed_ok (r : result unit) : completed r = true -> r = Ok tt.
Proof. by destruct r as [[]|]. Qed.
Lemma history_ordered c log : history c log -> ordered (points c) log.
Proof.
  induction 1 as [c R|c log m v r c' _ O E|c log mid n r c' _ O E|c log p r c' _ O M E|c log p r c' _ O M E|c log p r c' _ O M E].
  - split; [by left; apply R|by intros f n ?%elem_of_nil|]. by intros f n ([|? ?] & ? & H & _).
  - apply upsert_effect in E as [->|(d & D & ->)]; [done|by apply record_order].
  - by rewrite (probe_points _ _ _ _ _ E).
  - apply (staged_order (points c)); [done|done|]. apply stage_effect in E as [->|[-> [e ->]]]; [by left|by right].
  - apply (activated_order (points c)); [done|done|]. apply activate_effect in E. eapply status_set_weaken; [apply completed_ok|done].
  - apply (retired_order (points c)); [done|]. apply retire_effect in E. eapply status_set_weaken; [apply completed_ok|done].
Qed.

(** *** What a recall sees *)
Definition unexpired (now : Z) (q : point) : Prop :=
  match get (payload q) "expires_at" with PStr s => exists u, instant_of s = Some u /\ now < u | v => v = PNone \/ v = PList [] end.
Lemma unexpired_spec now q : matches instant_of (unexpired_or_legacy now) (payload q) = true -> unexpired now q.
Proof.
  unfold unexpired_or_legacy, unexpired. cbn [matches existsb]. destruct (get (payload q) "expires_at") as [| | | | |s| |[|x l]|]; cbn [field_after]; rewrite ?orb_false_r; try done; auto.
  destruct (instant_of s) as [u|]; [|done]. intros H%Z.ltb_lt. by exists u.
Qed.
Lemma active_spec log i q : in_order log i q -> matches instant_of active_or_legacy (payload q) = true ->
  recorded_only i q \/ exists f n, i = id_of f n /\ fact_of q = PStr f /\ version_of q = PInt n /\ may_show log f n.
Proof.
  intros [R|(f & n & s & I & F & V & S & _ & M)]; [by left|]. unfold active_or_legacy. cbn [matches existsb]. fold (status_of q). rewrite S. cbn [py_eq].
  intros H. right. exists f, n. split_and!; [done..|]. apply M. rewrite !orb_false_r in H. symmetry. by apply String.eqb_eq.
Qed.
Lemma active_found q : status_of q = PStr "ACTIVE" -> matches instant_of active_or_legacy (payload q) = true.
Proof. intros S. unfold active_or_legacy. cbn [matches existsb]. fold (status_of q). by rewrite S. Qed.
Lemma search_found now v k c rs c' : search dimension now v k c = (Ok rs, c') ->
  points c' = points c /\ forall r, r ∈ rs -> exists i q score, points c !! i = Some q /\ recalled (q, score) = Ok r /\
    matches instant_of active_or_legacy (payload q) = true /\ unexpired now q.
Proof.
  unfold search. destruct (k <=? 0); [done|]. intros [(c1 & <- & E)|[_ [e E]]]%after_ensured; [|done].
  apply bind_action_inv in E as [(l & c2 & E1 & E2)|(e & _ & E)]; [|done]. apply query_law in E1 as [P1 F1]. unfold lift in E2. injection E2 as E2 ->.
  split; [done|]. intros r R. destruct (map_result_elem _ _ _ _ E2 R) as ([q sc] & I & Re). destruct (F1 l eq_refl q sc I) as (i & Hq & M).
  cbn [matches forallb] in M. rewrite andb_true_r in M. apply andb_true_iff in M as [M1 M2]. exists i, q, sc. split_and!; [done..|]. by apply unexpired_spec.
Qed.
End effects.


(** ** A collection in memory, whose calls fail by a schedule *)
Record collection := { stored : gmap string point; there : bool; weather : list outage }.
Definition Unavailable : exn := Exn "ResponseHandlingException" "".
Definition calling {A} (answer : gmap string point -> A) (effect : gmap string point -> gmap string point) (created : bool) : action collection A := fun c =>
  let after m b := {| stored := m; there := b; weather := tail (weather c) |} in
  match head (weather c) with
  | Some Lost => (Err Unavailable, after (stored c) (there c))
  | Some Unheard => (Err Unavailable, after (effect (stored c)) (there c || created))
  | Some Answered | None => (Ok (answer (stored c)), after (effect (stored c)) (there c || created))
  end.
Definition found_in (instant_of : string -> option Z) (f : condition) (m : gmap string point) : list point :=
  List.filter (fun p => matches instant_of f (payload p)) (map snd (map_to_list m)).
Section collection.
Context (instant_of : string -> option Z).
#[local] Instance collection_client : QdrantClient collection := {|
  collection_exists c := calling (fun _ => there c) id false c;
  create_collection _ := calling (fun _ => tt) id true;
  client_upsert i p := calling (fun _ => tt) <[i := p]> false;
  set_payload s d := calling (fun _ => tt) (set_on instant_of s d) false;
  scroll f n := calling (fun m => take (Z.to_nat n) (found_in instant_of f m)) id false;
  count f := calling (fun m => Z.of_nat (length (found_in instant_of f m))) id false;
  query_points v f n := calling (fun m => map (fun p => (p, 1%Q)) (take (Z.to_nat n) (found_in instant_of f m))) id false |}.
Lemma found_in_spec f m p : p ∈ found_in instant_of f m <-> exists i, m !! i = Some p /\ matches instant_of f (payload p) = true.
Proof.
  unfold found_in. rewrite list_elem_of_In, filter_In, <- list_elem_of_In. rewrite list_elem_of_fmap. split.
  - intros [([i q] & -> & I) M]. exists i. by apply elem_of_map_to_list in I.
  - intros (i & I & M). split; [|done]. exists (i, p). by rewrite elem_of_map_to_list.
Qed.
Lemma calling_effect {A} answer effect created c (r : result A) c' : calling answer effect created c = (r, c') ->
  stored c' = effect (stored c) /\ (r = Ok (answer (stored c)) \/ r = Err Unavailable) \/ (stored c' = stored c /\ r = Err Unavailable).
Proof. unfold calling. destruct (head (weather c)) as [[]|]; intros [= <- <-]; cbn; auto. Qed.
#[local] Instance collection_laws : QdrantClientLaws collection instant_of.
Proof.
  refine {| points := stored |}.
  - by intros c r c' [[-> _]|[-> _]]%calling_effect.
  - by intros d c r c' [[-> _]|[-> _]]%calling_effect.
  - intros i p c r c' [[-> _]|[-> ->]]%calling_effect; [by left|right]. split; [done|by eexists].
  - intros s d c r c' [[-> [E|E]]|[-> ->]]%calling_effect; [by rewrite E|rewrite E; intros i; by right|intros i; by left].
  - intros f n c r c' [[-> E]|[-> ->]]%calling_effect; (split; [done|]); [|done]. intros l L. destruct E as [ -> | -> ]; [|done]. injection L as <-. split.
    + intros p I. apply found_in_spec. eapply elem_of_sublist; [exact I|apply sublist_take].
    + intros N Pos i p I. apply not_true_iff_false. intros M. assert (K : p ∈ found_in instant_of f (stored c)) by (apply found_in_spec; by exists i).
      destruct (found_in instant_of f (stored c)) as [|x l]; [by apply elem_of_nil in K|]. destruct (Z.to_nat n) as [|k] eqn:Z; [lia|discriminate N].
  - by intros f c r c' [[-> _]|[-> _]]%calling_effect.
  - intros v f n c r c' [[-> E]|[-> ->]]%calling_effect; (split; [done|]); [|done]. intros l L p s I. destruct E as [ -> | -> ]; [|done]. injection L as <-.
    apply list_elem_of_fmap in I as (q & [= -> _] & I). apply found_in_spec. eapply elem_of_sublist; [exact I|apply sublist_take].
Defined.
End collection.

(** ** A resumption leaves the previous version shown *)
Definition told (q : point) : pyval * pyval := (version_of q, get (payload q) "resolution_text").
Module Resumption.
Import MemoryPolicy SharedMemory.
#[local] Existing Instances RedisLock.redis_client collection_client.
Definition instants (s : string) : option Z := None.
#[local] Existing Instance collection_client.
#[local] Instance ex_client : QdrantClient collection := collection_client instants.
Definition ex_str (v : pyval) : string := match v with PStr s => s | _ => "" end.
#[local] Instance ex_vectors : ProjectionPort collection VectorProjection := vector_port id z_str ex_str 1.
#[local] Instance no_graph : ProjectionPort unit unit := {|
  SharedMemory.stage _ g := (Ok tt, g); SharedMemory.probe _ _ g := (Ok None, g); SharedMemory.activate _ g := (Ok tt, g); SharedMemory.retire_previous _ g := (Ok tt, g) |}.
Definition vector_service : service (VS := VectorProjection) (GS := unit) :=
  {| policy_settings := ex_settings; lock_ttl := 30000; SharedMemory.build_vector := VectorMemory.build_vector (fun _ => Ok [1%Q]) ex_json ex_str;
     build_graph _ _ _ _ := Ok tt; broker _ _ := Ok tt; column q := q; digest := ex_digest; SharedMemory.isoformat := ex_iso;
     read_command := from_dict ex_json ex_iso id (fun _ => Ok tt) |}.
Definition confirmed (key value : string) (expected : option Z) : result SharedMemoryMutationCommand :=
  let f := ex_fields "late" 80 expected in
  construct ex_json ex_iso id (fun _ => Ok tt)
    {| in_idempotency_key := key; in_category := in_category f; in_fact_kind := in_fact_kind f; in_subject_type := in_subject_type f; in_subject_id := in_subject_id f;
       in_predicate := in_predicate f; in_value_json := [("resolution", PStr value)]%string; in_confidence := in_confidence f; in_incoming_at := in_incoming_at f;
       in_source_type := in_source_type f; in_source_id := in_source_id f; in_operator_id := in_operator_id f; in_human_confirmed := true; in_reason := in_reason f;
       in_targets_values := in_targets_values f; in_object_type := in_object_type f; in_object_id := in_object_id f; in_expected_version := in_expected_version f;
       in_expires_at := in_expires_at f; in_evidence_text := in_evidence_text f; in_evidence_ref := in_evidence_ref f;
       in_evidence_observed_at := in_evidence_observed_at f; in_vector_memory_id := in_vector_memory_id f; in_graph_fact_key := in_graph_fact_key f |}.
#[local] Abbreviation state := (world (R := RedisLock.redis) (V := collection) (G := unit)).
Definition empty_world : state :=
  {| db := {| mutations := []; facts := ∅; evidences := []; attempts := [] |}; redis := RedisLock.ex_server; vectors := {| stored := ∅; there := false; weather := [] |};
     graphs := tt; published := [] |}.
Definition in_weather (l : list outage) (w : state) : state :=
  {| db := db w; redis := redis w; vectors := {| stored := stored (vectors w); there := there (vectors w); weather := l |}; graphs := graphs w; published := published w |}.
Definition apply_command (t mid : string) (c : result SharedMemoryMutationCommand) (w : state) : state :=
  match c with Ok c => (mutate vector_service ex_others 20 t mid "f1" c w).2 | Err _ => w end.
(** The first version is published; the retirement of the first by the second
    is lost; the second mutation is resumed. *)
Definition first_published : state := apply_command "t1" "m1" (confirmed "k1" "wait" None) empty_world.
Definition cut_off : state := apply_command "t2" "m2" (confirmed "k2" "leave" (Some 1)) (in_weather [Answered; Answered; Answered; Answered; Answered; Lost] first_published).
Definition resumed : result MemoryMutationResult * state := resume_mutation vector_service ex_others 30 "t3" "f1" "m2" cut_off.
(** The staging of the first mutation is lost, the second mutation publishes
    the same version, and the first is resumed. *)
Definition lost_staging : state := apply_command "t1" "m1" (confirmed "k1" "wait" None) (in_weather [Answered; Answered; Lost] empty_world).
Definition overtaken : state := apply_command "t2" "m2" (confirmed "k2" "leave" None) lost_staging.
Definition restaged : result MemoryMutationResult * state := resume_mutation vector_service ex_others 30 "t3" "f1" "m1" overtaken.
Definition shown (w : state) : list (pyval * pyval) :=
  map told (found_in instants (Must [active_or_legacy; unexpired_or_legacy 40]) (stored (vectors w))).

End Resumption.

(** ** The listing of the workspace *)
Inductive vectors_config := Unconfigured | One (size : option Z) | Named (sizes : list (option Z)).
Record collection_info := { points_count : option Z; vectors_of : vectors_config }.
Class QdrantReader (C : Type) := {
  reader_exists : action C bool;
  reader_scroll : Z -> option pyval -> action C (list (option pydict) * option pyval);
  get_collection : action C collection_info;
  reader_count : condition -> action C (option Z);
}.
Record VectorMemoryListItem := {
  l_memory_id : option string; l_driver_id : option string; l_route_id : option string; l_anomaly_type : option string; l_historical_resolution : option string;
  l_created_at : option Z; l_projection_status : option string;
}.
Record VectorMemoryPage := { items : list VectorMemoryListItem; total : Z; next_cursor : option string; vector_dimension : option Z; page_provenance : string }.
Definition InvalidVectorMemoryCursor : exn := Exn "InvalidVectorMemoryCursor" "invalid vector memory cursor".
Definition VectorMemoryReadUnavailable : exn := Exn "VectorMemoryReadUnavailable" "vector memory read unavailable".

(** [b64encode] and [b64decode] are those of the URL-safe alphabet, with padding. *)
Section listing.
Context (dumps : pyval -> string) (loads : string -> result pyval) (b64encode : string -> string) (b64decode : string -> result string) (fromisoformat : string -> option Z).

Definition validated_limit (limit : Z) : result Z := if (1 <=? limit) && (limit <=? 100) then Ok limit else Err (ValueError "limit must be between 1 and 100").
Definition encode_cursor (offset : pyval) : string := b64encode (dumps offset).
Fixpoint padding (n : nat) : string := match n with O => EmptyString | S n' => String (Ascii.ascii_of_nat 61) (padding n') end.
Definition padded (cursor : string) : string := cursor +:+ padding (Z.to_nat ((- py_len cursor) mod 4)).
Definition undecodable (e : exn) : bool := raised_as ["UnicodeEncodeError"; "UnicodeDecodeError"; "Error"; "JSONDecodeError"]%string e.
Definition decode_cursor (cursor : option string) : result (option pyval) :=
  match cursor with
  | None => Ok None
  | Some cursor =>
      if String.eqb cursor "" then Err InvalidVectorMemoryCursor else
      match b64decode (padded cursor) ≫= loads with
      | Err e => Err (if undecodable e then InvalidVectorMemoryCursor else e)
      | Ok (PInt z) => Ok (Some (PInt z))
      | Ok (PStr s) => if String.eqb s "" then Err InvalidVectorMemoryCursor else Ok (Some (PStr s))
      | Ok _ => Err InvalidVectorMemoryCursor
      end
  end.
Definition string_at (d : pydict) (key : string) : option string := match get d key with PStr s => Some s | _ => None end.
Definition to_item (payload : option pydict) : VectorMemoryListItem :=
  let d := default [] payload in
  {| l_memory_id := string_at d "memory_id"; l_driver_id := string_at d "driver_id"; l_route_id := string_at d "route_id";
     l_anomaly_type := string_at d "anomaly_type"; l_historical_resolution := string_at d "resolution_text";
     l_created_at := match get d "created_at" with PStr s => fromisoformat s | _ => None end; l_projection_status := string_at d "projection_status" |}.
Definition provenance_of (total demo_count : Z) : string :=
  if (0 <? total) && (demo_count =? total) then "DEMO" else if 0 <? demo_count then "MIXED" else "LIVE".
Definition dimension_of (c : vectors_config) : option Z :=
  match c with
  | Unconfigured => None
  | One size => size
  | Named sizes => match remove_dups (omap id sizes) with [d] => Some d | _ => None end
  end.
Definition list_records {C} `{QdrantReader C} (limit : Z) (cursor : option string) : action C VectorMemoryPage := fun c =>
  match (n ← validated_limit limit; o ← decode_cursor cursor; Ok (n, o)) with
  | Err e => (Err e, c)
  | Ok (n, o) =>
      catch_action
        (do there <- reader_exists;
         if (there : bool)
         then (do scrolled <- reader_scroll n o;
               do info <- get_collection;
               do demo <- reader_count (Must [FieldMatch "data_provenance" (PStr "DEMO")]);
               let count := default 0 (points_count info) in
               ret_action {| items := map to_item scrolled.1; total := count; next_cursor := encode_cursor <$> scrolled.2;
                             vector_dimension := dimension_of (vectors_of info); page_provenance := provenance_of count (default 0 demo) |})
         else ret_action {| items := []; total := 0; next_cursor := None; vector_dimension := None; page_provenance := "LIVE" |})%action
        (fun e => if is_exception e then raise_action VectorMemoryReadUnavailable else raise_action e) c
  end.

Lemma vector_cursor_roundtrip offset (json : loads (dumps offset) = Ok offset) (base64 : forall s, b64decode (b64encode s) = Ok s)
    (whole : forall s, py_len (b64encode s) mod 4 = 0) (some : b64encode (dumps offset) <> ""%string) :
  (exists z, offset = PInt z) \/ (exists s, offset = PStr s /\ s <> ""%string) -> decode_cursor (Some (encode_cursor offset)) = Ok (Some offset).
Proof.
  intros V. unfold decode_cursor, encode_cursor. apply String.eqb_neq in some as ->. unfold padded.
  replace (Z.to_nat (- py_len (b64encode (dumps offset)) mod 4)) with O. 2: { rewrite Z.mod_opp_l_z; [done|done|apply whole]. }
  cbn [padding]. rewrite append_empty_r, base64. cbn [mbind result_bind]. rewrite json. destruct V as [[z ->]|(s & -> & N)]; [done|].
  by apply String.eqb_neq in N as ->.
Qed.
End listing.

(** ** Concrete collections *)
Import Resumption.
#[local] Existing Instances ex_client collection_laws.
Definition ex_projection : VectorProjection :=
  {| v_mutation_id := "m1"; v_fact_key := "f"; v_control_version := 1; v_memory_id := "f"; v_vector := [1%Q]; v_driver_id := "D1"; v_route_id := "R1"; v_anomaly_type := "LATE";
     v_resolution_text := "wait"; v_metadata := []; v_expires_at := None |}.
Definition ex_empty : collection := {| stored := ∅; there := false; weather := [] |}.
Definition ex_staged : collection := (stage id z_str 1 ex_projection ex_empty).2.
Definition ex_active : collection := (activate id 1 ex_projection ex_staged).2.
Definition ex_shown : collection := (retire_previous 1 ex_projection ex_active).2.
Definition ex_log : list event := [Retired "f" 1 true; Activated "f" 1 true; Staged "f" 1 true].
Lemma ex_history : history instants id z_str ex_str 1 id ex_shown ex_log.
Proof.
  apply (history_retire instants id z_str ex_str 1 id ex_active _ ex_projection (Ok tt)); [|reflexivity|vm_compute; reflexivity].
  apply (history_activate instants id z_str ex_str 1 id ex_staged _ ex_projection (Ok tt)); [|reflexivity|vm_compute; reflexivity].
  apply (history_stage instants id z_str ex_str 1 id ex_empty _ ex_projection (Ok tt)); [|reflexivity|vm_compute; reflexivity]. by apply history_start.
Qed.
Lemma ex_must_show : must_show ex_log "f" 1.
Proof.
  exists [Retired "f" 1 true], [Staged "f" 1 true]. split; [done|]. split; [by left|]. split; [by intros d [[=]|H%elem_of_nil]%elem_of_cons|].
  intros m d L [E|H]%elem_of_cons; [injection E as ->; lia|by apply elem_of_nil in H].
Qed.
Example ex_recalls : match (search 1 20 [1%Q] 5 ex_shown).1 with Ok rs => historical_resolution <$> rs = [PStr "wait"] | Err _ => False end.
Proof. vm_compute. reflexivity. Qed.

(** Version 1 is published and version 2 replaces it, but the call that retires
    version 1 is lost.  The mutation is partial, as it should be.  Its resumption
    finds version 2 active, retires nothing and reports the mutation applied: a
    recall shows both versions from then on. *)
Example resumption_leaves_previous_shown :
  shown first_published = [(PInt 1, PStr "wait")] /\
  option_map (fun m => SharedMemory.mu_status (SharedMemory.progress m)) (SharedMemory.by_id (SharedMemory.db cut_off) "m2") = Some MemoryPolicy.M_PARTIAL /\
  (exists r, resumed.1 = Ok r /\ SharedMemory.r_status r = MemoryPolicy.M_APPLIED /\ SharedMemory.r_vector r = MemoryPolicy.P_ACTIVE) /\
  shown resumed.2 = [(PInt 1, PStr "wait"); (PInt 2, PStr "leave")].
Proof. split; [vm_compute; reflexivity|]. split; [vm_compute; reflexivity|]. split; [eexists; vm_compute; split; [reflexivity|split; reflexivity]|vm_compute; reflexivity]. Qed.

(** The staging of the first version of a fact by one mutation is lost; another
    mutation publishes that version; the first is resumed.  Its probe finds no point
    of its own, so it stages the version over the published point, and only then
    learns that the fact has moved on: no recall finds the fact any more, and the
    staged value is the one that was never published. *)
Example resumption_hides_published_fact :
  shown lost_staging = [] /\ shown overtaken = [(PInt 1, PStr "leave")] /\
  option_map (fun m => SharedMemory.mu_status (SharedMemory.progress m)) (SharedMemory.by_id (SharedMemory.db overtaken) "m2") = Some MemoryPolicy.M_APPLIED /\
  (exists k, restaged.1 = Err (MemoryPolicy.MemoryVersionConflict k)) /\ shown restaged.2 = [] /\
  map (fun q => (told q, status_of q)) (map snd (map_to_list (stored (SharedMemory.vectors restaged.2)))) = [((PInt 1, PStr "wait"), PStr "STAGED")].
Proof.
  split; [vm_compute; reflexivity|]. split; [vm_compute; reflexivity|]. split; [vm_compute; reflexivity|].
  split; [eexists; vm_compute; reflexivity|]. split; vm_compute; reflexivity.
Qed.

