(* ===== verification/GraphStore.v ===== *)
(** * GraphStore: facts and relations in the graph database

    Models [app/shared_memory/neo4j_projection.py], the graph part of
    [projection_builder.py], and [graph_memory/neo4j_repository.py].  The database
    is a property graph; a Cypher statement of the source is a function on it, in
    one transaction.  The driver that runs statements is an argument: one that
    fails may have run the statement.  Arguments are also the UUIDs of names, the
    texts of instants and their reader, the JSON texts of properties, the order in
    which the database returns rows, and which exceptions the driver's classes
    hold.  The bookkeeping instants of nodes ([created_at], [updated_at]) are left
    out. *)

From S2P Require Import Prelude Texts Evidence DecimalText.
From S2P Require MemoryPolicy SharedMemory GraphMemory.

Local Open Scope Z_scope.
Local Open Scope list_scope.

#[local] Existing Instances GraphMemory.EntityType_eq_dec GraphMemory.RelationType_eq_dec GraphMemory.EntityType_enum GraphMemory.RelationType_enum.

(** ** The property graph *)
Record node := { label : GraphMemory.EntityType; n_entity_type : string; n_entity_id : string; n_display_name : string; n_properties_json : string }.
Record edge := {
  from_key : string;
  kind : GraphMemory.RelationType;
  to_key : string;
  projection_id : option string;
  control_fact_key : option string;
  control_version : option Z;
  mutation_id : option string;
  projection_status : option string;
  expires_at : option string;
  e_confidence : Q;
  e_source_type : string;
  e_evidence : option string;
  e_version : Z;
  e_timestamp : string;
  relation_key : option string;
}.
Record graph := { nodes : gmap string node; edges : list edge }.
Definition statement (A : Type) : Type := graph -> result A * graph.
Definition ConstraintError : exn := Exn "ConstraintError" "".

(** [MERGE (n:GraphEntity:Label {entity_key: $entity_key}) SET ...], where
    [entity_key] is unique among the nodes. *)
Definition merge_node (key : string) (n : node) : statement unit := fun g =>
  match nodes g !! key with
  | Some m => if decide (label m = label n) then (Ok tt, {| nodes := <[key := n]> (nodes g); edges := edges g |}) else (Err ConstraintError, g)
  | None => (Ok tt, {| nodes := <[key := n]> (nodes g); edges := edges g |})
  end.
Definition joins (s : string) (k : GraphMemory.RelationType) (t : string) (e : edge) : bool :=
  String.eqb (from_key e) s && bool_decide (kind e = k) && String.eqb (to_key e) t.
(** [MATCH (source) MATCH (target) MERGE (source)-[r:...]->(target) SET ...]: no
    row without both nodes; every edge of the pattern is set, or a new one. *)
Definition merge_edge (s t : string) (pattern : edge -> bool) (new : edge) (set : edge -> edge) : statement unit := fun g =>
  match nodes g !! s, nodes g !! t with
  | Some _, Some _ =>
      (Ok tt, {| nodes := nodes g; edges := if existsb pattern (edges g) then map (fun e => if pattern e then set e else e) (edges g) else edges g ++ [new] |})
  | _, _ => (Ok tt, g)
  end.
(** [MATCH ()-[r]->() WHERE ... SET r.projection_status = $status]. *)
Definition with_status (s : string) (e : edge) : edge :=
  {| from_key := from_key e; kind := kind e; to_key := to_key e; projection_id := projection_id e; control_fact_key := control_fact_key e;
     control_version := control_version e; mutation_id := mutation_id e; projection_status := Some s; expires_at := expires_at e; e_confidence := e_confidence e;
     e_source_type := e_source_type e; e_evidence := e_evidence e; e_version := e_version e; e_timestamp := e_timestamp e; relation_key := relation_key e |}.
Definition set_status (which : edge -> bool) (s : string) : statement unit := fun g =>
  (Ok tt, {| nodes := nodes g; edges := map (fun e => if which e then with_status s e else e) (edges g) |}).
Definition reading {A} (f : graph -> A) : statement A := fun g => (Ok (f g), g).

Class Neo4jDriver (D : Type) := { execute_query : forall A, statement A -> action D A }.
Class Neo4jDriverLaws (D : Type) `{Neo4jDriver D} := {
  graph_of : D -> graph;
  execute_law A (q : statement A) d r d' : execute_query A q d = (r, d') ->
    match r with Ok a => q (graph_of d) = (Ok a, graph_of d') | Err _ => graph_of d' = graph_of d \/ graph_of d' = (q (graph_of d)).2 end;
}.

(** ** The projection of shared memory *)
Record GraphProjection := {
  g_mutation_id : string;
  g_fact_key : string;
  g_control_version : Z;
  g_source : GraphMemory.GraphEntity;
  g_relation_type : GraphMemory.RelationType;
  g_target : GraphMemory.GraphEntity;
  g_confidence : Q;
  g_source_type : string;
  g_evidence : option string;
  g_expires_at : option Z;
  g_timestamp : Z;
}.

Section builder.
Context (str : pyval -> string).
Import MemoryPolicy.
Definition StopIteration : exn := Exn "StopIteration" "".
(** [EntityType(value)] and [RelationType(value)]. *)
Definition member {A} `{PyEnum A} (v : string) : result A := of_option (Exn "ValueError" (v +:+ " is not a valid member")) (enum_of v).
Definition build_graph (c : SharedMemoryMutationCommand) (mid key : string) (version : Z) : result GraphProjection :=
  value ← match value_json c with [] => Err StopIteration | kv :: _ => Ok kv.2 end;
  target_type ← match object_type c with
                | Some t => if String.eqb t "" then Ok GraphMemory.ROAD_CONDITION else member t
                | None => Ok GraphMemory.ROAD_CONDITION
                end;
  let target_id := or_else (object_id c) (lower (strip (str value))) in
  source_type ← member (subject_type c);
  source ← GraphMemory.graph_entity source_type (subject_id c) (subject_id c) [];
  relation ← member (predicate c);
  target ← GraphMemory.graph_entity target_type target_id (str value) [];
  Ok {| g_mutation_id := mid; g_fact_key := key; g_control_version := version; g_source := source; g_relation_type := relation; g_target := target;
        g_confidence := dec_value (confidence c); g_source_type := MemoryPolicy.source_type c; g_evidence := evidence_text c; g_expires_at := expires_at c;
        g_timestamp := incoming_at c |}.
End builder.

Section neo4j.
Context {D : Type} `{Neo4jDriver D} (uuid5 : string -> string) (isoformat : Z -> string) (instant_of : string -> option Z)
  (dumps : pydict -> string) (loads : string -> result pydict) (order : list edge -> list edge) (is_neo4j is_driver : exn -> bool).

(** [_entity_parameters], and the parameters of [upsert_entity]. *)
Definition entity_node (e : GraphMemory.GraphEntity) : node :=
  {| label := GraphMemory.entity_type e; n_entity_type := value (GraphMemory.entity_type e); n_entity_id := GraphMemory.entity_id e;
     n_display_name := GraphMemory.display_name e; n_properties_json := dumps (GraphMemory.properties e) |}.

(** *** [Neo4jMemoryProjection] *)
Definition Neo4jMemoryProjectionError : exn := Exn "Neo4jMemoryProjectionError" "Neo4j memory projection operation failed".
Definition execute {A} (q : statement A) : action D A :=
  catch_action (execute_query A q) (fun e => if is_neo4j e then raise_action Neo4jMemoryProjectionError else raise_action e).
Definition identity_of (f : string) (n : Z) : string := uuid5 (versioned "countyflow-shared-memory:" f n).
Definition id_of (p : GraphProjection) : string := identity_of (g_fact_key p) (g_control_version p).
Definition projected_edge (p : GraphProjection) (key : option string) : edge :=
  {| from_key := GraphMemory.entity_key (g_source p); kind := g_relation_type p; to_key := GraphMemory.entity_key (g_target p); projection_id := Some (id_of p);
     control_fact_key := Some (g_fact_key p); control_version := Some (g_control_version p); mutation_id := Some (g_mutation_id p);
     projection_status := Some "STAGED"%string; expires_at := isoformat <$> g_expires_at p; e_confidence := g_confidence p; e_source_type := g_source_type p;
     e_evidence := g_evidence p; e_version := g_control_version p; e_timestamp := isoformat (g_timestamp p); relation_key := key |}.
Definition same_projection (p : GraphProjection) (e : edge) : bool :=
  joins (GraphMemory.entity_key (g_source p)) (g_relation_type p) (GraphMemory.entity_key (g_target p)) e && bool_decide (projection_id e = Some (id_of p)).
Definition merge_projection (p : GraphProjection) : statement unit :=
  merge_edge (GraphMemory.entity_key (g_source p)) (GraphMemory.entity_key (g_target p)) (same_projection p) (projected_edge p None)
    (fun e => projected_edge p (relation_key e)).
Definition stage (p : GraphProjection) : action D unit :=
  (do _ <- execute (merge_node (GraphMemory.entity_key (g_source p)) (entity_node (g_source p)));
   do _ <- execute (merge_node (GraphMemory.entity_key (g_target p)) (entity_node (g_target p)));
   execute (merge_projection p))%action.
Definition of_mutation (mid : string) (version : Z) (e : edge) : bool := bool_decide (mutation_id e = Some mid) && bool_decide (control_version e = Some version).
Definition probe (mid : string) (version : Z) : action D (option string) :=
  (do found <- execute (reading (fun g => take 1 (order (List.filter (of_mutation mid version) (edges g)))));
   ret_action (match found with [] => None | e :: _ => Some (default "None"%string (projection_status e)) end))%action.
Definition activate (p : GraphProjection) : action D unit := execute (set_status (fun e => bool_decide (projection_id e = Some (id_of p))) "ACTIVE").
Definition earlier (p : GraphProjection) (e : edge) : bool :=
  bool_decide (control_fact_key e = Some (g_fact_key p)) && bool_decide (projection_status e = Some "ACTIVE"%string)
  && match control_version e with Some n => n <? g_control_version p | None => false end.
Definition retire_previous (p : GraphProjection) : action D unit := execute (set_status (earlier p) "RETIRED").
Definition count_edges (f : string) (version : Z) : action D Z :=
  execute (reading (fun g => Z.of_nat (length (List.filter (fun e => bool_decide (control_fact_key e = Some f) && bool_decide (control_version e = Some version)) (edges g))))).

#[export] Instance graph_port : SharedMemory.ProjectionPort D GraphProjection := {|
  SharedMemory.stage := stage; SharedMemory.probe := probe; SharedMemory.activate := activate; SharedMemory.retire_previous := retire_previous |}.

(** *** [Neo4jGraphMemoryRepository]; [now] is the clock of the database *)
Definition GraphMemoryError : exn := Exn "GraphMemoryError" "Graph memory store operation failed.".
Definition run {A} (q : statement A) : action D A :=
  catch_action (execute_query A q) (fun e => if is_neo4j e || is_driver e then raise_action GraphMemoryError else raise_action e).
Definition upsert_entity (e : GraphMemory.GraphEntity) : action D unit := run (merge_node (GraphMemory.entity_key e) (entity_node e)).
Definition with_relation (r : GraphMemory.GraphRelation) (e : edge) : edge :=
  {| from_key := from_key e; kind := kind e; to_key := to_key e; projection_id := projection_id e; control_fact_key := control_fact_key e;
     control_version := control_version e; mutation_id := mutation_id e; projection_status := projection_status e; expires_at := expires_at e;
     e_confidence := GraphMemory.confidence r; e_source_type := GraphMemory.source_type r; e_evidence := GraphMemory.evidence r;
     e_version := GraphMemory.version r; e_timestamp := GraphMemory.timestamp r; relation_key := Some (GraphMemory.relation_key r) |}.
Definition bare_edge (s : string) (k : GraphMemory.RelationType) (t : string) : edge :=
  {| from_key := s; kind := k; to_key := t; projection_id := None; control_fact_key := None; control_version := None; mutation_id := None;
     projection_status := None; expires_at := None; e_confidence := 0; e_source_type := ""; e_evidence := None; e_version := 0; e_timestamp := "";
     relation_key := None |}.
Definition upsert_relation (r : GraphMemory.GraphRelation) : action D unit :=
  let s := GraphMemory.entity_key (GraphMemory.source r) in
  let t := GraphMemory.entity_key (GraphMemory.target r) in
  let k := GraphMemory.relation_type r in
  run (merge_edge s t (joins s k t) (with_relation r (bare_edge s k t)) (with_relation r)).

Section reads.
Context (now : Z).
(** [value or default] of a text. *)
Definition text_or (s d : string) : string := if String.eqb s "" then d else s.
Definition to_entity (n : node) : result GraphMemory.GraphEntity :=
  properties ← loads (text_or (n_properties_json n) "{}"); ty ← member (n_entity_type n); GraphMemory.graph_entity ty (n_entity_id n) (n_display_name n) properties.
Definition to_relation (s t : GraphMemory.GraphEntity) (e : edge) : result GraphMemory.GraphRelation :=
  GraphMemory.graph_relation s (kind e) t (if Qeq_bool (e_confidence e) 0 then 1 else e_confidence e) (text_or (e_source_type e) "graph") (e_evidence e)
    (if e_version e =? 0 then 1 else e_version e) (e_timestamp e).
Definition get_entity (ty i : string) : action D (option GraphMemory.GraphEntity) := fun d =>
  match member (A := GraphMemory.EntityType) ty with
  | Err e => (Err e, d)
  | Ok t => (do found <- run (reading (fun g => List.filter (fun n => String.eqb (n_entity_type n) (value t) && String.eqb (n_entity_id n) i) (map snd (map_to_list (nodes g)))));
             match found with [] => ret_action None | n :: _ => fun d => (e ← to_entity n; Ok (Some e), d) end)%action d
  end.
(** What both queries let through; [expires_at] is a text that [isoformat] wrote. *)
Definition unexpired (e : edge) : bool := match expires_at e with None => true | Some s => match instant_of s with Some u => now <? u | None => false end end.
Definition visible (e : edge) : bool := match projection_status e with None => true | Some s => String.eqb s "ACTIVE" end && unexpired e.
Definition touches (keys : list string) (e : edge) : bool := one_of (from_key e) keys || one_of (to_key e) keys.
Definition row (g : graph) (e : edge) : option (node * node * edge) := s ← nodes g !! from_key e; t ← nodes g !! to_key e; Some (s, t, e).
Definition find_related (keys : list string) (limit : Z) : action D (list GraphMemory.GraphRelation) :=
  if limit <=? 0 then raise_action (Exn "ValueError" "limit must be positive")
  else (do rows <- run (reading (fun g => omap (row g) (take (Z.to_nat limit) (order (List.filter (fun e => touches keys e && visible e) (edges g))))));
        fun d => (map_result (fun x => s ← to_entity x.1.1; t ← to_entity x.1.2; to_relation s t x.2) rows, d))%action.

(** The ways of at most [hops] visible edges from [here] that meet no node twice. *)
Definition other_end (here : string) (e : edge) : option string :=
  if String.eqb (from_key e) here then Some (to_key e) else if String.eqb (to_key e) here then Some (from_key e) else None.
Fixpoint ways (es : list edge) (hops : nat) (here : string) (met : list string) : list (list string * list edge) :=
  match hops with
  | O => []
  | S hops' =>
      flat_map (fun e =>
        match other_end here e with
        | Some o => if one_of o met then [] else ([o], [e]) :: map (fun w => (o :: w.1, e :: w.2)) (ways es hops' o (o :: met))
        | None => []
        end) es
  end.
Definition to_path (g : graph) (w : list string * list edge) : result GraphMemory.GraphPath :=
  entities ← map_result (fun k => of_option (Exn "KeyError" k) (nodes g !! k) ≫= to_entity) w.1;
  let by_key k := of_option (Exn "KeyError" k) (List.find (fun e => String.eqb (GraphMemory.entity_key e) k) (rev entities)) in
  relations ← map_result (fun e => s ← by_key (from_key e); t ← by_key (to_key e); to_relation s t e) w.2;
  GraphMemory.graph_path entities relations.
Definition find_paths (start : string) (max_hops limit : Z) : action D (list GraphMemory.GraphPath) :=
  if negb ((1 <=? max_hops) && (max_hops <=? 3)) then raise_action (Exn "ValueError" "max_hops must be between 1 and 3")
  else if limit <=? 0 then raise_action (Exn "ValueError" "limit must be positive")
  else (do found <- run (reading (fun g =>
          (g, if nodes g !! start is Some _ then take (Z.to_nat limit) (map (fun w => (start :: w.1, w.2)) (ways (List.filter visible (edges g)) (Z.to_nat max_hops) start [start])) else [])));
        fun d => (map_result (to_path found.1) found.2, d))%action.

#[export] Instance neo4j_repository : GraphMemory.GraphMemoryRepository D := {|
  GraphMemory.upsert_entity := upsert_entity; GraphMemory.upsert_relation := upsert_relation;
  GraphMemory.find_related := find_related; GraphMemory.find_paths := find_paths |}.
End reads.
End neo4j.

(** ** Histories of the graph *)
Section facts.
Context {D : Type} `{Drv : Neo4jDriver D} `{Laws : !Neo4jDriverLaws D} (uuid5 : string -> string) (isoformat : Z -> string) (dumps : pydict -> string)
  (is_neo4j is_driver : exn -> bool) (uuid5_inj : forall s t, uuid5 s = uuid5 t -> s = t).
#[local] Abbreviation identity_of := (identity_of uuid5).
#[local] Abbreviation id_of := (id_of uuid5).
#[local] Abbreviation execute := (execute (D := D) is_neo4j).
#[local] Abbreviation run := (run (D := D) is_neo4j is_driver).
#[local] Abbreviation stage := (stage (D := D) uuid5 isoformat dumps is_neo4j).
#[local] Abbreviation activate := (activate (D := D) uuid5 is_neo4j).
#[local] Abbreviation retire_previous := (retire_previous (D := D) is_neo4j).
#[local] Abbreviation same_projection := (same_projection uuid5).
#[local] Abbreviation merge_projection := (merge_projection uuid5 isoformat).
#[local] Abbreviation projected_edge := (projected_edge uuid5 isoformat).

Lemma identity_inj f n g m : identity_of f n = identity_of g m -> f = g /\ n = m.
Proof. by intros E%uuid5_inj%versioned_inj. Qed.

(** A domain relation, or the projection of a fact and version. *)
Definition tidy (e : edge) : Prop :=
  (projection_id e = None /\ control_fact_key e = None /\ control_version e = None) \/
  exists f n, projection_id e = Some (identity_of f n) /\ control_fact_key e = Some f /\ control_version e = Some n.
Definition all_tidy (g : graph) : Prop := forall e, e ∈ edges g -> tidy e.
(** A statement that keeps the edges tidy, answered or not. *)
Definition tidying {A} (q : statement A) : Prop := forall g, all_tidy g -> all_tidy (q g).2.

Lemma executed {A} (q : statement A) (h : exn -> action D A) d r d' : (forall e d r d', h e d = (r, d') -> d' = d /\ exists e', r = Err e') ->
  catch_action (execute_query A q) h d = (r, d') ->
  (exists a, r = Ok a /\ q (graph_of d) = (Ok a, graph_of d')) \/ ((exists e, r = Err e) /\ (graph_of d' = graph_of d \/ graph_of d' = (q (graph_of d)).2)).
Proof.
  intros R. unfold catch_action. destruct (execute_query A q d) as [[a|e] d1] eqn:E; apply execute_law in E.
  - intros [= <- <-]. left. by exists a.
  - intros [-> X]%R. by right.
Qed.
Lemma execute_inv {A} (q : statement A) d r d' : execute q d = (r, d') ->
  (exists a, r = Ok a /\ q (graph_of d) = (Ok a, graph_of d')) \/ ((exists e, r = Err e) /\ (graph_of d' = graph_of d \/ graph_of d' = (q (graph_of d)).2)).
Proof. apply executed. intros e d0 r0 d0'. case_match; intros [= <- <-]; eauto. Qed.
Lemma run_inv {A} (q : statement A) d r d' : run q d = (r, d') ->
  (exists a, r = Ok a /\ q (graph_of d) = (Ok a, graph_of d')) \/ ((exists e, r = Err e) /\ (graph_of d' = graph_of d \/ graph_of d' = (q (graph_of d)).2)).
Proof. apply executed. intros e d0 r0 d0'. case_match; intros [= <- <-]; eauto. Qed.
Lemma tidying_effect {A} (q : statement A) d (r : result A) d' : tidying q -> all_tidy (graph_of d) ->
  (exists a, r = Ok a /\ q (graph_of d) = (Ok a, graph_of d')) \/ ((exists e, r = Err e) /\ (graph_of d' = graph_of d \/ graph_of d' = (q (graph_of d)).2)) ->
  all_tidy (graph_of d').
Proof. intros T H [(a & _ & E)|[_ [->| ->]]]; [|done|by apply T]. specialize (T _ H). by rewrite E in T. Qed.

Lemma merge_node_edges k n g : edges (merge_node k n g).2 = edges g.
Proof. unfold merge_node. case_match; [case_match|]; done. Qed.
Lemma merge_node_tidying k n : tidying (merge_node k n).
Proof. intros g H e. rewrite merge_node_edges. apply H. Qed.
Lemma set_status_tidying w s : tidying (set_status w s).
Proof. intros g H e. cbn. intros (x & -> & I)%list_elem_of_fmap. apply H in I. by destruct (w x). Qed.
Lemma merge_edge_tidying s t pattern new set : tidy new -> (forall e, tidy e -> pattern e = true -> tidy (set e)) -> tidying (merge_edge s t pattern new set).
Proof.
  intros N S g H e. unfold merge_edge. destruct (nodes g !! s), (nodes g !! t); cbn; try apply H. destruct (existsb pattern (edges g)).
  - intros (x & -> & I)%list_elem_of_fmap. apply H in I. destruct (pattern x) eqn:P; [by apply S|done].
  - intros [I|I]%elem_of_app; [by apply H|]. by apply elem_of_one in I as ->.
Qed.
Lemma projected_tidy p k : tidy (projected_edge p k).
Proof. right. by exists (g_fact_key p), (g_control_version p). Qed.
Lemma merge_projection_tidying p : tidying (merge_projection p).
Proof. apply merge_edge_tidying; [apply projected_tidy|]. intros e _ _. apply projected_tidy. Qed.

(** Graphs that began with domain relations and saw any calls of both writers,
    each answered or not. *)
Inductive grown : D -> Prop :=
| grown_start d : (forall e, e ∈ edges (graph_of d) -> projection_id e = None /\ control_fact_key e = None /\ control_version e = None) -> grown d
| grown_entity d e r d' : grown d -> upsert_entity dumps is_neo4j is_driver e d = (r, d') -> grown d'
| grown_relation d x r d' : grown d -> upsert_relation is_neo4j is_driver x d = (r, d') -> grown d'
| grown_stage d p r d' : grown d -> stage p d = (r, d') -> grown d'
| grown_activate d p r d' : grown d -> activate p d = (r, d') -> grown d'
| grown_retire d p r d' : grown d -> retire_previous p d = (r, d') -> grown d'.
Lemma stage_tidy p d r d' : all_tidy (graph_of d) -> stage p d = (r, d') -> all_tidy (graph_of d').
Proof.
  intros T [(a & d1 & E1 & E2)|(e & E1 & _)]%bind_action_inv; apply execute_inv in E1; apply (tidying_effect _ _ _ _ (merge_node_tidying _ _) T) in E1; [|done].
  apply bind_action_inv in E2 as [(b & d2 & E2 & E3)|(e & E2 & _)]; apply execute_inv in E2; apply (tidying_effect _ _ _ _ (merge_node_tidying _ _) E1) in E2; [|done].
  apply execute_inv in E3. by apply (tidying_effect _ _ _ _ (merge_projection_tidying p) E2) in E3.
Qed.
Lemma grown_tidy d : grown d -> all_tidy (graph_of d).
Proof.
  induction 1 as [d H|d e r d' _ T E|d x r d' _ T E|d p r d' _ T E|d p r d' _ T E|d p r d' _ T E].
  - intros e I. left. by apply H.
  - apply run_inv in E. by apply (tidying_effect _ _ _ _ (merge_node_tidying _ _) T) in E.
  - apply run_inv in E. eapply tidying_effect; [|exact T|exact E]. apply merge_edge_tidying; [by left|done].
  - by eapply stage_tidy.
  - apply execute_inv in E. by apply (tidying_effect _ _ _ _ (set_status_tidying _ _) T) in E.
  - apply execute_inv in E. by apply (tidying_effect _ _ _ _ (set_status_tidying _ _) T) in E.
Qed.

(** *** What a publication shows *)
Lemma merge_node_ok k n g a g' : merge_node k n g = (Ok a, g') -> nodes g' = <[k := n]> (nodes g) /\ edges g' = edges g.
Proof. unfold merge_node. case_match; [case_match|]; intros [= _ <-]; done. Qed.
Definition staged_edges (p : GraphProjection) (es : list edge) : list edge :=
  if existsb (same_projection p) es then map (fun e => if same_projection p e then projected_edge p (relation_key e) else e) es else es ++ [projected_edge p None].
Lemma stage_ok p d a d' : stage p d = (Ok a, d') -> edges (graph_of d') = staged_edges p (edges (graph_of d)).
Proof.
  intros [(x & d1 & E1 & E2)|(e & _ & E)]%bind_action_inv; [|done]. apply execute_inv in E1 as [(y & _ & E1)|[[e E1] _]]; [|done]. apply merge_node_ok in E1 as [N1 <-].
  apply bind_action_inv in E2 as [(z & d2 & E2 & E3)|(e & _ & E)]; [|done]. apply execute_inv in E2 as [(u & _ & E2)|[[e E2] _]]; [|done]. apply merge_node_ok in E2 as [N2 <-].
  apply execute_inv in E3 as [(v & _ & E3)|[[e E3] _]]; [|done]. unfold GraphStore.merge_projection, merge_edge in E3. rewrite N2, N1, lookup_insert_eq in E3.
  destruct (<[_ := _]> (<[_ := _]> (nodes (graph_of d))) !! _) eqn:S in E3.
  - injection E3 as _ <-. done.
  - apply lookup_insert_None in S as [S _]. rewrite lookup_insert_eq in S. discriminate S.
Qed.
Lemma set_status_ok w s d a d' : execute (set_status w s) d = (Ok a, d') -> edges (graph_of d') = map (fun e => if w e then with_status s e else e) (edges (graph_of d)).
Proof. intros [(y & _ & [= _ <-])|[[e E] _]]%execute_inv; done. Qed.

(** What publishing makes of one edge. *)
Definition carries (p : GraphProjection) (e : edge) : bool := bool_decide (projection_id e = Some (id_of p)).
Definition published (p : GraphProjection) (e : edge) : edge :=
  let e := if carries p e then with_status "ACTIVE" e else e in if earlier p e then with_status "RETIRED" e else e.
Lemma published_edges p d d1 d2 d3 : stage p d = (Ok tt, d1) -> activate p d1 = (Ok tt, d2) -> retire_previous p d2 = (Ok tt, d3) ->
  edges (graph_of d3) = map (published p) (staged_edges p (edges (graph_of d))).
Proof. intros S%stage_ok A%set_status_ok R%set_status_ok. rewrite R, A, S, map_map. apply map_ext. intros e. done. Qed.

Lemma published_fields p e : projection_id (published p e) = projection_id e /\ control_fact_key (published p e) = control_fact_key e /\
  control_version (published p e) = control_version e /\ from_key (published p e) = from_key e /\ kind (published p e) = kind e /\ to_key (published p e) = to_key e.
Proof. unfold published. destruct (carries p e), (earlier p _); done. Qed.
Lemma carries_spec p e : tidy e -> carries p e = true <-> control_fact_key e = Some (g_fact_key p) /\ control_version e = Some (g_control_version p).
Proof.
  intros T. unfold carries. rewrite bool_decide_eq_true. destruct T as [(P & F & V)|(f & n & P & F & V)]; rewrite P, F, V; [split; [done|by intros [? _]]|].
  split; [intros [= [-> ->]%identity_inj]; done|]. by intros [[= ->] [= ->]].
Qed.
Lemma published_status p e : tidy e -> forall n, control_fact_key e = Some (g_fact_key p) -> control_version e = Some n -> n <= g_control_version p ->
  projection_status (published p e) = Some "ACTIVE"%string <-> n = g_control_version p.
Proof.
  intros T n F V L. pose proof (carries_spec p e T) as C. unfold published. destruct (carries p e) eqn:Q.
  - destruct (proj1 C eq_refl) as [_ C']. assert (n = g_control_version p) as -> by congruence. unfold earlier. cbn [with_status control_version]. rewrite V, Z.ltb_irrefl, andb_false_r. done.
  - assert (n <> g_control_version p) as N by (intros ->; by apply diff_false_true, (proj2 C)). split; [|done]. unfold earlier. rewrite F, V, bool_decide_true, (proj2 (Z.ltb_lt _ _)) by (done || lia).
    case_bool_decide as B; cbn; [discriminate|]. intros E. by destruct B.
Qed.
Lemma published_other p e : tidy e -> control_fact_key e <> Some (g_fact_key p) -> published p e = e.
Proof.
  intros T N. unfold published. destruct (carries p e) eqn:C; [apply (carries_spec p e T) in C as [C _]; done|]. unfold earlier. by rewrite bool_decide_false.
Qed.
Lemma staged_elem p es e : e ∈ staged_edges p es -> e ∈ es \/ exists k, e = projected_edge p k.
Proof.
  unfold staged_edges. destruct (existsb _ es).
  - intros (x & -> & I)%list_elem_of_fmap. destruct (same_projection p x); [right; by eexists|by left].
  - intros [I|I]%elem_of_app; [by left|]. apply elem_of_one in I as ->. right. by eexists.
Qed.
Lemma staged_keeps p es e : e ∈ es -> same_projection p e = false -> e ∈ staged_edges p es.
Proof.
  intros I S. unfold staged_edges. destruct (existsb _ es); [|apply elem_of_app; by left]. apply list_elem_of_fmap. exists e. by rewrite S.
Qed.
Lemma staged_has p es : exists k, projected_edge p k ∈ staged_edges p es.
Proof.
  unfold staged_edges. destruct (existsb _ es) eqn:X; [|exists None; apply elem_of_app; right; by left].
  apply existsb_exists in X as (e & I & S). exists (relation_key e). apply list_elem_of_fmap. exists e. rewrite S. split; [done|]. by apply list_elem_of_In.
Qed.
End facts.

(** C35: In the graph, too, a publication shows the published version: once the
    three steps of a projection are answered, an edge with what the projection
    says is active, of the edges of its fact those of its version and no earlier
    one are active, and the edges of every other fact and all domain relations
    are as they were. *)
Theorem graph_publication_shows {D : Type} `{Drv : Neo4jDriver D} `{Laws : !Neo4jDriverLaws D} (uuid5 : string -> string) (isoformat : Z -> string)
    (dumps : pydict -> string) (is_neo4j is_driver : exn -> bool) (uuid5_inj : forall s t, uuid5 s = uuid5 t -> s = t) d p d1 d2 d3 :
  grown uuid5 isoformat dumps is_neo4j is_driver d ->
  stage uuid5 isoformat dumps is_neo4j p d = (Ok tt, d1) -> activate uuid5 is_neo4j p d1 = (Ok tt, d2) -> retire_previous is_neo4j p d2 = (Ok tt, d3) ->
  (exists k, with_status "ACTIVE" (projected_edge uuid5 isoformat p k) ∈ edges (graph_of d3)) /\
  (forall e n, e ∈ edges (graph_of d3) -> control_fact_key e = Some (g_fact_key p) -> control_version e = Some n -> n <= g_control_version p ->
     projection_status e = Some "ACTIVE"%string <-> n = g_control_version p) /\
  (forall e, control_fact_key e <> Some (g_fact_key p) -> e ∈ edges (graph_of d3) <-> e ∈ edges (graph_of d)).
Proof.
  intros G%(grown_tidy uuid5 isoformat dumps is_neo4j is_driver) S A R. rewrite (published_edges uuid5 isoformat dumps is_neo4j p d d1 d2 d3 S A R).
  assert (T : forall e, e ∈ staged_edges uuid5 isoformat p (edges (graph_of d)) -> tidy uuid5 e) by (intros e [I|[k ->]]%staged_elem; [by apply G|apply projected_tidy]).
  split_and!.
  - destruct (staged_has uuid5 isoformat p (edges (graph_of d))) as [k K]. exists k. apply list_elem_of_fmap. eexists. split; [|exact K].
    assert (C : carries uuid5 p (projected_edge uuid5 isoformat p k) = true) by (unfold carries; by rewrite bool_decide_true).
    unfold published. rewrite C. unfold earlier. cbn [with_status control_version projected_edge]. by rewrite Z.ltb_irrefl, andb_false_r.
  - intros e n (x & -> & I)%list_elem_of_fmap. destruct (published_fields uuid5 p x) as (_ & -> & -> & _). apply published_status; [done|by apply T].
  - intros e N. split.
    + intros (x & -> & I)%list_elem_of_fmap. destruct (published_fields uuid5 p x) as (_ & F & _). rewrite F in N. rewrite (published_other uuid5 uuid5_inj p x (T x I) N).
      apply staged_elem in I as [I|[k ->]]; [done|by destruct N].
    + intros I. apply list_elem_of_fmap. exists e. split; [by rewrite (published_other uuid5 uuid5_inj p e (G e I) N)|]. apply staged_keeps; [done|].
      apply not_true_iff_false. unfold same_projection. rewrite andb_true_iff, bool_decide_eq_true. intros [_ P].
      assert (C : carries uuid5 p e = true) by (unfold carries; by rewrite bool_decide_true). by apply (carries_spec uuid5 uuid5_inj p e (G e I)) in C as [C _].
Qed.

(** ** A database in memory, whose calls fail by a schedule *)
Record database := { held : graph; weather : list outage }.
Definition ServiceUnavailable : exn := Exn "ServiceUnavailable" "".
#[local] Instance database_driver : Neo4jDriver database := {|
  execute_query A q d :=
    let after g := {| held := g; weather := tail (weather d) |} in
    match head (weather d) with
    | Some Lost => (Err ServiceUnavailable, after (held d))
    | Some Unheard => (Err ServiceUnavailable, after (q (held d)).2)
    | Some Answered | None => ((q (held d)).1, after (q (held d)).2)
    end |}.
#[local] Instance database_laws : Neo4jDriverLaws database.
Proof.
  refine {| graph_of := held |}. intros A q d r d'. unfold execute_query, database_driver. destruct (head (weather d)) as [[]|]; intros [= <- <-]; cbn; auto;
    destruct (q (held d)) as [[a|e] g]; cbn; auto.
Defined.

Module Scenarios.
Import MemoryPolicy SharedMemory.
#[local] Existing Instances RedisLock.redis_client database_driver.
Definition text_of (v : pyval) : string := match v with PStr s => s | _ => "" end.
Definition dumped (d : pydict) : string := "{}".
Definition loaded (s : string) : result pydict := Ok [].
Definition none (e : exn) : bool := false.
#[local] Instance ex_graphs : ProjectionPort database GraphProjection := graph_port id z_str dumped (fun l => l) none.
#[local] Instance no_vectors : ProjectionPort unit unit := {|
  SharedMemory.stage _ g := (Ok tt, g); SharedMemory.probe _ _ g := (Ok None, g); SharedMemory.activate _ g := (Ok tt, g); SharedMemory.retire_previous _ g := (Ok tt, g) |}.
Definition graph_service : service (VS := unit) (GS := GraphProjection) :=
  {| policy_settings := ex_settings; lock_ttl := 30000; build_vector _ _ _ _ := Ok tt; SharedMemory.build_graph := GraphStore.build_graph text_of;
     broker _ _ := Ok tt; column q := q; digest := ex_digest; SharedMemory.isoformat := ex_iso; read_command := from_dict ex_json ex_iso id (fun _ => Ok tt) |}.
Definition command (key kind predicate value : string) (object : option (string * string)) : result SharedMemoryMutationCommand :=
  let f := ex_fields "late" 80 None in
  construct ex_json ex_iso id (fun _ => Ok tt)
    {| in_idempotency_key := key; in_category := in_category f; in_fact_kind := kind; in_subject_type := in_subject_type f; in_subject_id := in_subject_id f;
       in_predicate := predicate; in_value_json := [("state", PStr value)]%string; in_confidence := in_confidence f; in_incoming_at := in_incoming_at f;
       in_source_type := in_source_type f; in_source_id := in_source_id f; in_operator_id := in_operator_id f; in_human_confirmed := true; in_reason := in_reason f;
       in_targets_values := ["GRAPH"%string]; in_object_type := fst <$> object; in_object_id := snd <$> object; in_expected_version := None;
       in_expires_at := None; in_evidence_text := in_evidence_text f; in_evidence_ref := None; in_evidence_observed_at := None; in_vector_memory_id := None;
       in_graph_fact_key := None |}.
#[local] Abbreviation state := (world (R := RedisLock.redis) (V := unit) (G := database)).
Definition empty_world (l : list outage) : state :=
  {| db := {| mutations := []; facts := ∅; evidences := []; attempts := [] |}; redis := RedisLock.ex_server; vectors := tt;
     graphs := {| held := {| nodes := ∅; edges := [] |}; weather := l |}; published := [] |}.
Definition apply_command (t mid fid : string) (c : result SharedMemoryMutationCommand) (w : state) : state :=
  match c with Ok c => (mutate graph_service ex_others 20 t mid fid c w).2 | Err _ => w end.
Definition status_of (mid : string) (w : state) : option MutationStatus := option_map (fun m => mu_status (progress m)) (by_id (db w) mid).
Definition facts_shown (w : state) : list (option string * option string * string) :=
  map (fun e => (GraphStore.mutation_id e, projection_status e, to_key e)) (edges (held (graphs w))).

(** The reply to the first staging is lost; another mutation of the fact follows. *)
Definition abandoned : state := apply_command "t1" "m1" "f1" (command "k1" "ATTRIBUTE" "STATUS" "open" None) (empty_world [Answered; Answered; Unheard]).
Definition followed : state := apply_command "t2" "m2" "f2" (command "k2" "ATTRIBUTE" "STATUS" "closed" None) abandoned.

(** A fact about an employee and a route; then a report that names both. *)
Definition governed : state := apply_command "t1" "m1" "f1" (command "k1" "RELATIONSHIP" "SERVES" "often" (Some ("Route", "R1")%string)) (empty_world []).
Definition context : GraphMemory.GraphMemoryContext :=
  {| GraphMemory.driver_id := "D1"; GraphMemory.route_id := "R1"; GraphMemory.anomaly_type := "delay"; GraphMemory.text := "a flat tyre";
     GraphMemory.vehicle_id := None; GraphMemory.weather := None |}.
#[local] Instance ex_repository : GraphMemory.GraphMemoryRepository database := neo4j_repository (fun _ => None) dumped loaded (fun l => l) none none 50.
Definition recalled : result GraphMemory.GraphMemoryRecall * database :=
  GraphMemory.recall {| GraphMemory.max_hops := 2; GraphMemory.result_limit := 5 |} "now" "0" context (graphs governed).
Definition told (d : database) : list (option string * Q * string * option string * Z) :=
  map (fun e => (control_fact_key e, e_confidence e, e_source_type e, e_evidence e, e_version e)) (edges (held d)).
End Scenarios.
Import Scenarios.

(** The reply to the staging of "open" is lost; its mutation stays partial.  The
    mutation that then states "closed" has the same fact and version, so its
    activation shows the abandoned edge as well. *)
Example publication_shows_abandoned_edge :
  status_of "m1" followed = Some MemoryPolicy.M_PARTIAL /\ status_of "m2" followed = Some MemoryPolicy.M_APPLIED /\
  facts_shown abandoned = [(Some "m1", Some "STAGED", "RoadCondition:open")]%string /\
  facts_shown followed = [(Some "m1", Some "ACTIVE", "RoadCondition:open"); (Some "m2", Some "ACTIVE", "RoadCondition:closed")]%string.
Proof. vm_compute. done. Qed.

(** A report that names the ends of a fact overwrites the confidence, the source
    and the evidence of the fact in the graph, whatever the policy would say. *)
Example recall_overwrites_fact :
  (exists key, told (SharedMemory.graphs governed) = [(Some key, (80 # 100)%Q, "report", Some "late twice", 1)]%string /\
     told recalled.2 = [(Some key, 1%Q, "deterministic_extraction", Some "a flat tyre", 1)]%string) /\
  exists r, recalled.1 = Ok r.
Proof. split; [eexists; vm_compute; done|eexists; vm_compute; reflexivity]. Qed.

Definition ex_entity (t : GraphMemory.EntityType) (i : string) : GraphMemory.GraphEntity :=
  {| GraphMemory.entity_type := t; GraphMemory.entity_id := i; GraphMemory.display_name := i; GraphMemory.properties := [] |}.
Definition ex_projection (n : Z) : GraphProjection :=
  {| g_mutation_id := "m1"; g_fact_key := "f"; g_control_version := n; g_source := ex_entity GraphMemory.DRIVER "D1"; g_relation_type := GraphMemory.SERVES;
     g_target := ex_entity GraphMemory.ROUTE "R1"; g_confidence := 1; g_source_type := "report"; g_evidence := None; g_expires_at := None; g_timestamp := 10 |}.
Definition ex_database : database := {| held := {| nodes := ∅; edges := [] |}; weather := [] |}.
Definition ex_staged (n : Z) (d : database) : database := (stage id z_str dumped none (ex_projection n) d).2.
Definition ex_active (n : Z) (d : database) : database := (activate id none (ex_projection n) (ex_staged n d)).2.
Definition ex_published (n : Z) (d : database) : database := (retire_previous none (ex_projection n) (ex_active n d)).2.
Definition ex_once : database := ex_published 1 ex_database.
Lemma ex_grown : grown id z_str dumped none none ex_once.
Proof.
  apply (grown_retire id z_str dumped none none (ex_active 1 ex_database) (ex_projection 1) (Ok tt)); [|vm_compute; reflexivity].
  apply (grown_activate id z_str dumped none none (ex_staged 1 ex_database) (ex_projection 1) (Ok tt)); [|vm_compute; reflexivity].
  apply (grown_stage id z_str dumped none none ex_database (ex_projection 1) (Ok tt)); [|vm_compute; reflexivity].
  apply grown_start. intros e I. by apply elem_of_nil in I.
Qed.
Example ex_second_shown : map (fun e => (control_version e, projection_status e)) (edges (held (ex_published 2 ex_once))) = [(Some 1, Some "RETIRED"); (Some 2, Some "ACTIVE")]%string.
Proof. vm_compute. reflexivity. Qed.

Lemma graph_publication_shows_witness :
  grown id z_str dumped none none ex_once /\
  forall e n, e ∈ edges (held (ex_published 2 ex_once)) -> control_fact_key e = Some "f"%string -> control_version e = Some n -> n <= 2 ->
    projection_status e = Some "ACTIVE"%string <-> n = 2.
Proof.
  split; [exact ex_grown|].
  destruct (graph_publication_shows id z_str dumped none none (fun s t E => E) ex_once (ex_projection 2) (ex_staged 2 ex_once) (ex_active 2 ex_once) (ex_published 2 ex_once))
    as (_ & H & _); [exact ex_grown|vm_compute; reflexivity..|exact H].
Defined.
