(* ===== verification/DemoReset.v ===== *)
(** * DemoReset: restoring a demonstration scenario

    Models [app/demo_reset/service.py] and the status codes of its route
    [app/api/v1/demo_scenarios.py].  The rows of vehicles, rescue and repair are
    those of VehicleOperations; the columns the reset writes of the roads, of the
    drivers and of the driver of a vehicle are kept beside them.  The rows are
    locked before they change and the transaction commits once, so a reset is one
    step that happens as a whole or not at all. *)

From S2P Require Import Prelude.
From S2P Require VehicleOperations.

Local Open Scope Z_scope.
Local Open Scope list_scope.

Module V := VehicleOperations.
#[local] Existing Instance V.VehicleOperationalStatus_enum.

(** ** The tables *)
Record RoadEdge := { road_status : string; congestion_factor : Q }.
Record FleetDriver := { driver_status : string; current_vehicle_id : option string; driver_node_id : string }.
Record db := {
  operations : V.store;
  roads : gmap string RoadEdge;
  drivers : gmap string FleetDriver;
  assigned_driver_id : gmap string (option string);    (* by vehicle *)
}.

Record DemoScenarioResetResult := { scenario_id : string; status : string; message : string }.
Definition DemoScenarioNotFound (id : string) : exn := Exn "DemoScenarioNotFound" id.
Definition DemoScenarioForbidden (subject : string) : exn := Exn "DemoScenarioForbidden" subject.
Definition DemoScenarioStateIncomplete (m : string) : exn := Exn "DemoScenarioStateIncomplete" m.

Definition ALLOWED_SUBJECTS (scenario : string) : option (list string) :=
  if one_of scenario ["VEHICLE_BREAKDOWN_N04"; "ROAD_BLOCKED_E04"]%string then Some ["CF-DEMO-001"; "CF-DEMO-006"]%string else None.

(** ** The scenario *)
Definition road_ids : list string := ["E04"; "E10"]%string.
Definition vehicle_specs : list (string * (V.VehicleOperationalStatus * string * string)) :=
  [("V-002", (V.IN_TRANSIT, "N01", "D-002")); ("V-003", (V.AVAILABLE, "N15", "D-011")); ("V-005", (V.IN_TRANSIT, "N15", "D-003"));
   ("V-011", (V.AVAILABLE, "N14", "D-012"))]%string.
Definition driver_specs : list (string * (string * string)) :=
  [("D-002", ("V-002", "N01")); ("D-011", ("V-003", "N15")); ("D-003", ("V-005", "N15")); ("D-012", ("V-011", "N14"))]%string.
Definition vehicle_ids : list string := map fst vehicle_specs.

(** [_require_rows]; the missing keys in order. *)
Definition require_rows {A} (rows : gmap string A) (expected : list string) (label : string) : result unit :=
  match sorted_key (fun x : string => x) (List.filter (fun k => bool_decide (rows !! k = None)) expected) with
  | [] => Ok tt
  | missing => Err (DemoScenarioStateIncomplete ("Missing " +:+ label +:+ ": " +:+ join ", " missing))
  end.

(** The rows with the given keys, updated. *)
Definition update_rows {A S} (f : S -> A -> A) (specs : list (string * S)) (rows : gmap string A) : gmap string A :=
  fold_left (fun rows spec => alter (f spec.2) spec.1 rows) specs rows.
#[local] Arguments update_rows : simpl never.

Definition opened : RoadEdge := {| road_status := "OPEN"; congestion_factor := 1 |}.
Definition prepared (spec : V.VehicleOperationalStatus * string * string) (_ : V.FleetVehicle) : V.FleetVehicle :=
  {| V.v_status := value spec.1.1; V.status_reason := None; V.status_changed_at := None; V.fault_code := None; V.available_after := None;
     V.maintenance_order_no := None; V.current_node_id := spec.1.2 |}.
Definition on_duty (spec : string * string) (_ : FleetDriver) : FleetDriver :=
  {| driver_status := "ON_DUTY"; current_vehicle_id := Some spec.1; driver_node_id := spec.2 |}.

Definition rescue_pending (m : V.RescueMission) : bool := match V.m_status m with V.R_CREATED | V.DISPATCHED | V.ARRIVED | V.LOADED => true | _ => false end.
Definition cancel_mission (m : V.RescueMission) : V.RescueMission :=
  if rescue_pending m then
    {| V.m_id := V.m_id m; V.mission_no := V.mission_no m; V.m_vehicle_id := V.m_vehicle_id m; V.rescue_unit_id := V.rescue_unit_id m; V.m_status := V.R_CANCELLED;
       V.incident_node_id := V.incident_node_id m; V.station_node_id := V.station_node_id m; V.outbound_edge_ids := V.outbound_edge_ids m;
       V.tow_edge_ids := V.tow_edge_ids m; V.m_next_transition_at := None; V.attempt_count := V.attempt_count m; V.failure_reason := Some "DEMO_RESET"%string |}
  else m.
Definition cancel_order (r : V.MaintenanceOrder) : V.MaintenanceOrder :=
  if V.is_open r then
    {| V.o_id := V.o_id r; V.order_no := V.order_no r; V.o_vehicle_id := V.o_vehicle_id r; V.bay_code := V.bay_code r; V.o_status := V.CANCELLED;
       V.o_fault_code := V.o_fault_code r; V.diagnosis := V.diagnosis r; V.repair_minutes := V.repair_minutes r;
       V.manual_inspection_required := V.manual_inspection_required r; V.inspection_result := V.inspection_result r; V.o_next_transition_at := None;
       V.o_available_after := None |}
  else r.
Definition free_unit (u : V.RescueUnit) : V.RescueUnit := {| V.unit_status := "AVAILABLE"; V.unit_node_id := V.unit_node_id u |}.
Definition free_bay (b : V.MaintenanceBay) : V.MaintenanceBay := {| V.bay_status := "AVAILABLE"; V.current_order_no := None |}.

(** ** The service *)
Definition reset_roads (d : db) : result db :=
  _ ← require_rows (roads d) road_ids "road edges";
  Ok {| operations := operations d; roads := update_rows (fun _ _ => opened) (map (fun i => (i, tt)) road_ids) (roads d); drivers := drivers d;
        assigned_driver_id := assigned_driver_id d |}.

Definition reset_operations (s : V.store) : V.store :=
  {| V.vehicles := update_rows prepared vehicle_specs (V.vehicles s); V.units := free_unit <$> V.units s; V.bays := free_bay <$> V.bays s;
     V.missions := cancel_mission <$> V.missions s; V.orders := cancel_order <$> V.orders s; V.history := V.history s; V.outbox := V.outbox s |}.

Definition reset_vehicle_breakdown (d : db) : result db :=
  _ ← require_rows (V.vehicles (operations d)) vehicle_ids "fleet vehicles";
  _ ← require_rows (drivers d) (map fst driver_specs) "fleet drivers";
  Ok {| operations := reset_operations (operations d); roads := roads d; drivers := update_rows on_duty driver_specs (drivers d);
        assigned_driver_id := fold_left (fun m spec => <[spec.1 := Some spec.2.2]> m) vehicle_specs (assigned_driver_id d) |}.

Definition reset (id : string) (principal_subject_id : string) : action db DemoScenarioResetResult := fun d =>
  match ALLOWED_SUBJECTS id with
  | None => (Err (DemoScenarioNotFound id), d)
  | Some subjects =>
      if negb (one_of principal_subject_id subjects) then (Err (DemoScenarioForbidden principal_subject_id), d) else
      match (d' ← reset_roads d; if String.eqb id "VEHICLE_BREAKDOWN_N04" then reset_vehicle_breakdown d' else Ok d') with
      | Ok d' => (Ok {| scenario_id := id; status := "READY"; message := "演示场景已恢复，可以再次提交。" |}, d')
      | Err e => (Err e, d)
      end
  end.

(** The status code of the route. *)
Definition reset_demo_scenario (profile id subject : string) : db -> Z * db := fun d =>
  if negb (String.eqb profile "docker-dev") then (404, d) else
  let (r, d') := reset id subject d in
  (match r with
   | Ok _ => 200
   | Err e => if raised_as ["DemoScenarioNotFound"%string] e then 404 else if raised_as ["DemoScenarioForbidden"%string] e then 403 else 409
   end, d').

(** ** Lemmas *)
Lemma update_rows_other {A S} (f : S -> A -> A) specs rows k : (k ∉ map fst specs) -> update_rows f specs rows !! k = rows !! k.
Proof.
  unfold update_rows. revert rows. induction specs as [|[k1 s1] specs IH]; intros rows N; [done|]. simpl in N |- *.
  apply not_elem_of_cons in N as [N1 N]. rewrite IH by done. by apply lookup_alter_ne.
Qed.

Lemma update_rows_some {A S} (f : S -> A -> A) specs rows k s v : NoDup (map fst specs) -> (k, s) ∈ specs -> rows !! k = Some v ->
  update_rows f specs rows !! k = Some (f s v).
Proof.
  unfold update_rows. revert rows. induction specs as [|[k1 s1] specs IH]; intros rows N I R; [by apply not_elem_of_nil in I|]. simpl in N |- *.
  apply NoDup_cons in N as [N1 N]. apply elem_of_cons in I as [[= <- <-]|I].
  - change (update_rows f specs (alter (f s) k rows) !! k = Some (f s v)). rewrite update_rows_other by done. by rewrite lookup_alter, R, decide_True.
  - apply IH; [done|done|]. rewrite lookup_alter_ne; [done|]. intros ->. destruct N1. apply (list_elem_of_fmap_2 fst) in I. exact I.
Qed.

Lemma require_rows_ok {A} (rows : gmap string A) expected label : require_rows rows expected label = Ok tt -> forall k, k ∈ expected -> is_Some (rows !! k).
Proof.
  unfold require_rows. intros H k I. destruct (rows !! k) eqn:E; [done|]. exfalso.
  assert (M : k ∈ sorted_key (fun x : string => x) (List.filter (fun k => bool_decide (rows !! k = None)) expected)).
  { rewrite sorted_key_perm. apply list_elem_of_In, filter_In. split; [by apply list_elem_of_In|by apply bool_decide_eq_true]. }
  destruct (sorted_key _ _); [by apply not_elem_of_nil in M|done].
Qed.

Lemma reset_roads_inv d d' : reset_roads d = Ok d' -> operations d' = operations d /\ drivers d' = drivers d /\ assigned_driver_id d' = assigned_driver_id d /\
  (forall k, k ∈ road_ids -> roads d' !! k = Some opened) /\ forall k, (k ∉ road_ids) -> roads d' !! k = roads d !! k.
Proof.
  unfold reset_roads. intros H. apply result_bind_ok in H as ([] & R & H). injection H as <-. cbn [operations roads drivers assigned_driver_id]. split_and!; try done; intros k I.
  - destruct (require_rows_ok _ _ _ R k I) as [v E].
    apply (update_rows_some (fun (_ : unit) (_ : RoadEdge) => opened) (map (fun i => (i, tt)) road_ids) (roads d) k tt v); [|by apply (list_elem_of_fmap_2 (fun i => (i, tt))) in I|done].
    apply (bool_decide_unpack _). by vm_compute.
  - by apply (update_rows_other (fun (_ : unit) (_ : RoadEdge) => opened) (map (fun i => (i, tt)) road_ids)).
Qed.

Lemma reset_inv id subject d x d' : reset id subject d = (x, d') ->
  match x with
  | Err _ => d' = d
  | Ok _ => exists d1, reset_roads d = Ok d1 /\ subject ∈ ["CF-DEMO-001"; "CF-DEMO-006"]%string /\
      (if String.eqb id "VEHICLE_BREAKDOWN_N04" then reset_vehicle_breakdown d1 = Ok d' else d' = d1)
  end.
Proof.
  unfold reset, ALLOWED_SUBJECTS. destruct (one_of id _); [|by intros [= <- <-]]. destruct (one_of subject _) eqn:S; simpl; [|by intros [= <- <-]].
  destruct (reset_roads d) as [d1|e] eqn:R; simpl; [|by intros [= <- <-]]. apply one_of_true in S.
  destruct (String.eqb id "VEHICLE_BREAKDOWN_N04"); [destruct (reset_vehicle_breakdown d1) as [d2|e] eqn:B|]; intros [= <- <-]; eauto.
Qed.

Lemma no_active_mission s t m : (cancel_mission <$> V.missions s) !! t = Some m -> V.rescue_active m = false.
Proof.
  rewrite lookup_fmap. destruct (V.missions s !! t) as [m0|]; [|done]. intros [= <-]. unfold cancel_mission.
  destruct (rescue_pending m0) eqn:P; [done|]. unfold rescue_pending in P. unfold V.rescue_active. by destruct (V.m_status m0).
Qed.
Lemma no_open_order s t r : (cancel_order <$> V.orders s) !! t = Some r -> V.is_open r = false.
Proof.
  rewrite lookup_fmap. destruct (V.orders s !! t) as [r0|]; [|done]. intros [= <-]. unfold cancel_order. by destruct (V.is_open r0) eqn:O.
Qed.
Lemma open_is_active r : V.is_open r = false -> V.maintenance_active r = false.
Proof. unfold V.is_open, V.maintenance_active. by destruct (V.o_status r). Qed.

Lemma nothing_due {A} (next : A -> option Z) (id : A -> Z) active now (rows : gmap string A) :
  (forall t x, rows !! t = Some x -> active x = false) -> V.first_due next id active now rows = None.
Proof.
  intros N. destruct (V.first_due next id active now rows) as [[t x]|] eqn:E; [|done]. apply V.first_due_some in E as (E & A1 & _).
  by rewrite (N t x E) in A1.
Qed.

(** The progressor has nothing to do after a reset. *)
Lemma reset_stops_the_progressor s now : V.run_once now (reset_operations s) = (Ok tt, reset_operations s).
Proof.
  unfold V.run_once, V.advance_one_due_rescue, V.advance_one_due_maintenance, bind_action, V.transaction.
  rewrite (nothing_due V.m_next_transition_at V.m_id V.rescue_active) by (intros t m; apply no_active_mission).
  rewrite (nothing_due V.o_next_transition_at V.o_id V.maintenance_active); [done|]. intros t r H. by apply open_is_active, (no_open_order s t).
Qed.
Lemma reset_ticks s ticks : V.run_ticks ticks (reset_operations s) = (Ok tt, reset_operations s).
Proof. induction ticks as [|now ticks IH]; [done|]. cbn [V.run_ticks]. unfold bind_action at 1. by rewrite reset_stops_the_progressor. Qed.

(** ** A vehicle nobody works on *)

(** What an operation that is about other vehicles leaves alone. *)
Record aside (x : string) (s s' : V.store) : Prop := {
  as_vehicle : V.vehicles s' !! x = V.vehicles s !! x;
  as_missions : forall t m, V.missions s' !! t = Some m -> V.m_vehicle_id m = x -> V.missions s !! t = Some m;
  as_orders : forall t r, V.orders s' !! t = Some r -> V.o_vehicle_id r = x -> V.orders s !! t = Some r;
}.

Section aside.
Context (x : string).
Implicit Types s : V.store.

Lemma aside_same s s' : V.vehicles s' = V.vehicles s -> V.missions s' = V.missions s -> V.orders s' = V.orders s -> aside x s s'.
Proof. intros E1 E2 E3. split; intros *; by rewrite ?E1, ?E2, ?E3. Qed.
Lemma aside_trans s1 s2 s3 : aside x s1 s2 -> aside x s2 s3 -> aside x s1 s3.
Proof. intros [V1 M1 O1] [V2 M2 O2]. split; [by rewrite V2|auto|auto]. Qed.
Lemma aside_vehicle id v s : id <> x -> aside x s (V.set_vehicle id v s).
Proof. intros N. split; [by apply lookup_insert_ne|done|done]. Qed.
Lemma aside_mission t m s : V.m_vehicle_id m <> x -> aside x s (V.set_mission t m s).
Proof. intros N. split; [done| |done]. intros t' m'. cbn. intros [[<- <-]|[_ H]]%lookup_insert_Some; done. Qed.
Lemma aside_order t r s : V.o_vehicle_id r <> x -> aside x s (V.set_order t r s).
Proof. intros N. split; [done|done|]. intros t' r'. cbn. intros [[<- <-]|[_ H]]%lookup_insert_Some; done. Qed.
Lemma aside_event t ty id e s : aside x s (V.add_event t ty id e s).
Proof. by apply aside_same. Qed.
Lemma aside_moved id target reason t now s s' : id <> x -> V.transition_vehicle id target reason t now s = Ok s' -> aside x s s'.
Proof.
  intros N (v & cur & _ & _ & _ & ->)%V.transition_inv. eapply aside_trans; [by apply (aside_vehicle id (V.vehicle_moved (value target) reason now v))|]. by apply aside_same.
Qed.
Lemma aside_updated id f s s' : id <> x -> V.update_vehicle id f s = Ok s' -> aside x s s'.
Proof. intros N (v & _ & ->)%V.update_vehicle_inv. by apply aside_vehicle. Qed.
Lemma aside_case t s1 s c s' : aside x s1 s -> V.with_case t s = Ok (c, s') -> aside x s1 s'.
Proof. by intros A ->%V.with_case_inv. Qed.
End aside.

(** An order that is closed does not move. *)
Lemma deliver_order_aside x t now s s' : (forall r, V.orders s !! t = Some r -> V.o_vehicle_id r = x -> V.is_open r = false) ->
  V.deliver_order t now s = Ok s' -> aside x s s'.
Proof.
  intros O. unfold V.deliver_order. destruct (V.orders s !! t) as [r|] eqn:E; [|intros [= <-]; by apply aside_same].
  intros (u & T & H)%result_bind_ok. injection H as <-. apply aside_order. cbn. intros X. destruct u. apply V.require_ok in T.
  specialize (O r eq_refl X). unfold V.is_open in O. destruct (V.o_status r); try done; by apply not_elem_of_nil in T.
Qed.

Lemma advance_rescue_aside x now t m s c s' : V.m_vehicle_id m <> x -> (forall r, V.orders s !! t = Some r -> V.o_vehicle_id r = x -> V.is_open r = false) ->
  V.advance_rescue now t m s = Ok (c, s') -> aside x s s'.
Proof.
  intros N O. unfold V.advance_rescue. cbv zeta. intros (u & _ & H)%result_bind_ok. apply result_bind_ok in H as (s1 & H1 & H).
  eapply aside_case; [|exact H]. revert H1. generalize (V.rescue_target (V.m_status m)) as target. intros target.
  set (s0 := V.add_event _ _ _ _ _). assert (A0 : aside x s s0) by (eapply aside_trans; [apply aside_mission|apply aside_event]; done).
  assert (O0 : forall r, V.orders s0 !! t = Some r -> V.o_vehicle_id r = x -> V.is_open r = false) by exact O. clearbody s0. intros H1.
  eapply aside_trans; [exact A0|]. destruct target; try (injection H1 as <-; by apply aside_same); [by eapply aside_moved; [exact N|exact H1]|].
  apply result_bind_ok in H1 as (s2 & H2 & H1). apply result_bind_ok in H1 as (s3 & H3 & H1).
  pose proof (aside_moved x _ _ _ _ _ _ _ N H2) as A2. pose proof (aside_updated x _ _ _ _ N H3) as A3.
  assert (O3 : forall r, V.orders s3 !! t = Some r -> V.o_vehicle_id r = x -> V.is_open r = false).
  { intros r E X. apply (O0 r); [|done]. apply (as_orders _ _ _ A2); [|done]. by apply (as_orders _ _ _ A3). }
  assert (A4 : aside x s3 (V.deliver_unit m s3)) by (unfold V.deliver_unit; destruct (V.units s3 !! _); by apply aside_same).
  eapply aside_trans; [exact A2|]. eapply aside_trans; [exact A3|]. eapply aside_trans; [exact A4|].
  eapply deliver_order_aside; [|exact H1]. intros r E X. apply O3; [|done]. by apply (as_orders _ _ _ A4).
Qed.

Lemma release_aside x t r passed now s s' : V.o_vehicle_id r <> x -> V.release_vehicle_and_bay t r passed now s = Ok s' -> aside x s s'.
Proof.
  intros N. unfold V.release_vehicle_and_bay. cbv zeta. intros (s1 & H1 & H)%result_bind_ok. apply result_bind_ok in H as (s2 & H2 & H). injection H as <-.
  eapply aside_trans; [by eapply aside_moved; [exact N|exact H1]|]. eapply aside_trans; [|apply aside_event].
  assert (A : aside x s1 s2) by (destruct passed; [by eapply aside_updated; [exact N|exact H2]|injection H2 as <-; by apply aside_same]).
  eapply aside_trans; [exact A|]. destruct (V.bay_code r) as [code|]; [|by apply aside_same]. destruct (V.bays s2 !! code); by apply aside_same.
Qed.

Lemma advance_maintenance_aside x now t r s c s' : V.o_vehicle_id r <> x -> V.advance_maintenance now t r s = Ok (c, s') -> aside x s s'.
Proof.
  intros N. unfold V.advance_maintenance. destruct (V.awaits_inspection r); [intros H; eapply aside_case; [|exact H]; by apply aside_order|].
  cbv zeta. intros (u & _ & H)%result_bind_ok. apply result_bind_ok in H as (v & _ & H). apply result_bind_ok in H as (s1 & H1 & H).
  eapply aside_case; [|exact H]. revert H1. generalize (V.maintenance_target (V.o_status r)) as target. intros target.
  set (r' := V.order_moved _ _ _ _ _). assert (N' : V.o_vehicle_id r' <> x) by exact N. clearbody r'.
  set (s0 := V.add_event _ _ _ _ _). assert (A0 : aside x s s0) by (eapply aside_trans; [by apply (aside_order x t r')|apply aside_event]). clearbody s0. intros H1.
  eapply aside_trans; [exact A0|]. destruct target; try (injection H1 as <-; by apply aside_same).
  - by eapply aside_updated; [exact N|exact H1].
  - by eapply aside_moved; [exact N|exact H1].
  - by eapply release_aside; [exact N'|exact H1].
Qed.

Lemma inspection_aside x no passed now who s : (forall t r, V.orders s !! t = Some r -> V.o_vehicle_id r = x -> V.is_open r = false) ->
  aside x s (V.record_inspection no passed now who s).2.
Proof.
  intros O. unfold V.record_inspection, V.transaction. destruct (V.by_order_no no s) as [[t r]|] eqn:B; [|by apply aside_same].
  apply V.by_order_no_some in B as [E _]. cbn [of_option mbind result_bind]. case_bool_decide as Q; [|by apply aside_same]. cbn [mbind result_bind].
  destruct (V.require_maintenance_transition _ _) as [u|]; [cbn [mbind result_bind]|by apply aside_same].
  assert (N : V.o_vehicle_id r <> x) by (intros X; specialize (O t r E X); unfold V.is_open in O; by rewrite Q in O).
  set (r' := V.order_moved _ _ _ _ _). assert (N' : V.o_vehicle_id r' <> x) by exact N. clearbody r'.
  set (s0 := V.set_order t r' s). assert (A0 : aside x s s0) by (by apply aside_order). clearbody s0.
  destruct (V.vehicle_for_update _ s0) as [v|]; [cbn [mbind result_bind]|by apply aside_same].
  destruct (V.release_vehicle_and_bay t r' passed now s0) as [s1|] eqn:R; [cbn [mbind result_bind]|by apply aside_same].
  destruct (V.with_case t _) as [[c s2]|] eqn:C; [|by apply aside_same]. cbn [snd]. apply V.with_case_inv in C as ->.
  eapply aside_trans; [exact A0|]. eapply aside_trans; [by eapply release_aside; [exact N'|exact R]|apply aside_event].
Qed.

(** The vehicle is marked as being rescued or repaired, and nobody does either. *)
Record caught (x : string) (s : V.store) : Prop := {
  ca_vehicle : exists v, V.vehicles s !! x = Some v /\ V.in_operation (V.v_status v) = true;
  ca_missions : forall t m, V.missions s !! t = Some m -> V.m_vehicle_id m = x -> V.rescue_active m = false /\ V.m_status m <> V.R_FAILED;
  ca_orders : forall t r, V.orders s !! t = Some r -> V.o_vehicle_id r = x -> V.is_open r = false;
}.

Lemma caught_aside x s s' : caught x s -> aside x s s' -> caught x s'.
Proof. intros [C1 C2 C3] [A1 A2 A3]. split; [by rewrite A1|by eauto|by eauto]. Qed.

Lemma transaction_aside {A} x (f : V.store -> result (A * V.store)) s : (forall a s', f s = Ok (a, s') -> aside x s s') -> aside x s (V.transaction f s).2.
Proof. intros H. unfold V.transaction. destruct (f s) as [[a s']|e] eqn:E; [by eapply H|by apply aside_same]. Qed.

(** Whatever happens next leaves a caught vehicle alone. *)
Lemma step_aside x s s' : caught x s -> V.step s s' -> aside x s s'.
Proof.
  intros [(v & L & I) Cm Co] [rq|t l|now|now|no now|no passed now who|vs Vs].
  - apply transaction_aside. intros c s1 H. apply V.open_inv in H as [(i & j & code & b & u & _ & _ & Em & Eo & _) (v1 & L1 & I1) Rep Oth].
    assert (N : V.q_vehicle_id rq <> x) by (intros E; rewrite E, L in L1; injection L1 as <-; by rewrite I in I1). split.
    + apply Oth; [done|]. intros E. destruct (Rep x E) as (_ & (v2 & L2 & I2) & _). rewrite L in L2. injection L2 as <-. by rewrite I in I2.
    + intros t m. rewrite Em. intros [[<- <-]|[_ H]]%lookup_insert_Some; [done|done].
    + intros t r. rewrite Eo. intros [[<- <-]|[_ H]]%lookup_insert_Some; [done|done].
  - apply transaction_aside. intros c s1. destruct (V.replacement_event t _); [|done]. destruct (V.missions s !! t); [|done]. intros ->%V.with_case_inv. by apply aside_same.
  - apply transaction_aside. intros c s1. destruct (V.first_due _ _ _ _ _) as [[t m]|] eqn:F; [|intros [= _ <-]; by apply aside_same].
    apply V.first_due_some in F as (M & Ac & _). unfold V.some_case. intros ([c1 s2] & H & E)%result_bind_ok. injection E as _ <-.
    eapply advance_rescue_aside; [|by apply Co|exact H]. intros X. destruct (Cm t m M X) as [Na _]. by rewrite Ac in Na.
  - apply transaction_aside. intros c s1. destruct (V.first_due _ _ _ _ _) as [[t r]|] eqn:F; [|intros [= _ <-]; by apply aside_same].
    apply V.first_due_some in F as (M & Ac & _). unfold V.some_case. intros ([c1 s2] & H & E)%result_bind_ok. injection E as _ <-.
    eapply advance_maintenance_aside; [|exact H]. intros X. pose proof (open_is_active r (Co t r M X)) as Na. by rewrite Ac in Na.
  - destruct (V.retry_rescue no now s) as [y s1] eqn:E. cbn. apply V.retry_inv in E as [(e & _ & ->)|(c & t & m & u & _ & M & F & _ & _ & ->)]; [by apply aside_same|].
    assert (N : V.m_vehicle_id m <> x) by (intros X; by destruct (Cm t m M X)).
    eapply aside_trans; [by apply (aside_mission x t (V.mission_moved V.DISPATCHED (Some (V.column_time (now + V.seconds 8))) None m))|by apply aside_same].
  - by apply inspection_aside.
  - split; [|done|done]. cbn. destruct (Vs x v L) as (v' & L' & K). by rewrite L', L, (K I).
Qed.

(** What may happen to the tables: the operations on vehicles, and further resets. *)
Inductive moves (s : V.store) : V.store -> Prop :=
| move_step s' : V.step s s' -> moves s s'
| move_reset : moves s (reset_operations s).

Lemma reset_vehicle s x : (x ∉ vehicle_ids) -> V.vehicles (reset_operations s) !! x = V.vehicles s !! x.
Proof. apply (update_rows_other prepared vehicle_specs). Qed.

Lemma reset_caught s x v : (x ∉ vehicle_ids) -> V.vehicles s !! x = Some v -> V.in_operation (V.v_status v) = true ->
  (forall t m, V.missions s !! t = Some m -> V.m_vehicle_id m = x -> V.m_status m <> V.R_FAILED) -> caught x (reset_operations s).
Proof.
  intros N L I F. split.
  - exists v. by rewrite reset_vehicle.
  - intros t m H X. split; [by apply (no_active_mission s t)|]. cbn in H. rewrite lookup_fmap in H. destruct (V.missions s !! t) as [m0|] eqn:E; [|done].
    injection H as <-. unfold cancel_mission in X |- *. destruct (rescue_pending m0); [done|by apply (F t m0)].
  - intros t r H X. by apply (no_open_order s t).
Qed.

Lemma moves_keep x s s' : (x ∉ vehicle_ids) -> rtc moves s s' -> caught x s -> V.vehicles s' !! x = V.vehicles s !! x /\ caught x s'.
Proof.
  intros N. induction 1 as [s|s s1 s' M _ IH]; intros C; [done|].
  assert (K : V.vehicles s1 !! x = V.vehicles s !! x /\ caught x s1).
  { destruct M as [s1 M|].
    - pose proof (step_aside x s s1 C M) as A. split; [apply A|by eapply caught_aside].
    - split; [by apply reset_vehicle|]. destruct (ca_vehicle _ _ C) as (v & L & I). apply (reset_caught s x v); [done|done|done|]. intros t m H X. by apply (ca_missions _ _ C t m H X). }
  destruct K as [K1 K2]. destruct (IH K2) as [J1 J2]. split; [by rewrite J1|done].
Qed.

(** ** What a reset does *)

(** a reset is allowed only to the two demonstration accounts; a refused
    one changes nothing.  A successful one opens the two roads and no other; a
    reset of the breakdown leaves no rescue or repair under way, every rescue
    unit and bay free and the four vehicles and drivers of the scenario in
    place, and otherwise touches no vehicle and no driver. *)
Theorem reset_restores_the_scenario id subject d x d' (H : reset id subject d = (x, d')) :
  match x with
  | Err _ => d' = d
  | Ok _ => subject ∈ ["CF-DEMO-001"; "CF-DEMO-006"]%string /\
      (forall k, k ∈ road_ids -> roads d' !! k = Some opened) /\ (forall k, (k ∉ road_ids) -> roads d' !! k = roads d !! k) /\
      if String.eqb id "VEHICLE_BREAKDOWN_N04" then
        (forall t m, V.missions (operations d') !! t = Some m -> V.rescue_active m = false) /\
        (forall t r, V.orders (operations d') !! t = Some r -> V.is_open r = false) /\
        (forall k u, V.units (operations d') !! k = Some u -> V.unit_status u = "AVAILABLE"%string) /\
        (forall k b, V.bays (operations d') !! k = Some b -> V.bay_status b = "AVAILABLE"%string /\ V.current_order_no b = None) /\
        (forall k spec, (k, spec) ∈ vehicle_specs -> exists v, V.vehicles (operations d') !! k = Some v /\ V.v_status v = value spec.1.1 /\ V.current_node_id v = spec.1.2) /\
        (forall k, (k ∉ vehicle_ids) -> V.vehicles (operations d') !! k = V.vehicles (operations d) !! k) /\
        (forall k spec, (k, spec) ∈ driver_specs -> exists v, drivers d' !! k = Some v /\ v = on_duty spec v) /\
        (forall k, (k ∉ map fst driver_specs) -> drivers d' !! k = drivers d !! k)
      else operations d' = operations d /\ drivers d' = drivers d
  end.
Proof.
  apply reset_inv in H. destruct x as [r|e]; [|done]. destruct H as (d1 & R & S & B). apply reset_roads_inv in R as (E1 & E2 & E3 & R1 & R2). split; [done|].
  destruct (String.eqb id "VEHICLE_BREAKDOWN_N04"); [|by subst d1; rewrite E1, E2].
  unfold reset_vehicle_breakdown in B. apply result_bind_ok in B as ([] & B1 & B). apply result_bind_ok in B as ([] & B2 & B). injection B as <-.
  cbn [operations roads drivers]. rewrite E1 in *. rewrite E2 in *. split; [done|]. split; [done|]. split_and!.
  - intros t m. apply no_active_mission.
  - intros t o. apply no_open_order.
  - intros k u. cbn. rewrite lookup_fmap. destruct (V.units _ !! k); [by intros [= <-]|done].
  - intros k b. cbn. rewrite lookup_fmap. destruct (V.bays _ !! k); [by intros [= <-]|done].
  - intros k spec I. destruct (require_rows_ok _ _ _ B1 k) as [v L]; [by apply (list_elem_of_fmap_2 fst) in I|]. exists (prepared spec v). split; [|done].
    apply (update_rows_some prepared vehicle_specs _ _ spec v); [apply (bool_decide_unpack _); by vm_compute|done|done].
  - intros k. apply reset_vehicle.
  - intros k spec I. destruct (require_rows_ok _ _ _ B2 k) as [v L]; [by apply (list_elem_of_fmap_2 fst) in I|]. exists (on_duty spec v). split; [|done].
    apply (update_rows_some on_duty driver_specs _ _ spec v); [apply (bool_decide_unpack _); by vm_compute|done|done].
  - intros k. apply (update_rows_other on_duty driver_specs).
Qed.

(** C21: a reset of the breakdown cancels every rescue and every repair, but
    only gives back the four vehicles of its scenario: another vehicle that was
    being rescued or repaired keeps its status for ever, whatever the
    progressor, new cases, retries, inspections, other writers or further
    resets do. *)
Theorem reset_strands_other_vehicles subject d r d' x v s (H : reset "VEHICLE_BREAKDOWN_N04" subject d = (Ok r, d'))
    (N : x ∉ vehicle_ids) (L : V.vehicles (operations d) !! x = Some v) (I : V.in_operation (V.v_status v) = true)
    (F : forall t m, V.missions (operations d) !! t = Some m -> V.m_vehicle_id m = x -> V.m_status m <> V.R_FAILED)
    (M : rtc moves (operations d') s) : V.vehicles s !! x = Some v.
Proof.
  apply reset_inv in H as (d1 & R & _ & B). apply reset_roads_inv in R as (E1 & _). simpl in B.
  unfold reset_vehicle_breakdown in B. apply result_bind_ok in B as ([] & _ & B). apply result_bind_ok in B as ([] & _ & B). injection B as <-.
  cbn [operations] in M. rewrite E1 in M. pose proof (reset_caught _ _ _ N L I F) as C.
  destruct (moves_keep x _ _ N M C) as [K _]. by rewrite K, reset_vehicle.
Qed.

(** ** The theorems at concrete tables *)
Definition ex_vehicle (st : V.VehicleOperationalStatus) : V.FleetVehicle :=
  {| V.v_status := value st; V.status_reason := None; V.status_changed_at := None; V.fault_code := None; V.available_after := None;
     V.maintenance_order_no := Some "MNT-1"%string; V.current_node_id := "N07" |}.
Definition ex_mission : V.RescueMission :=
  {| V.m_id := 1; V.mission_no := "RSC-1"; V.m_vehicle_id := "V-007"; V.rescue_unit_id := "RU-1"; V.m_status := V.LOADED; V.incident_node_id := "N07";
     V.station_node_id := "N01"; V.outbound_edge_ids := []; V.tow_edge_ids := []; V.m_next_transition_at := Some 50; V.attempt_count := 3; V.failure_reason := None |}.
Definition ex_order : V.MaintenanceOrder :=
  {| V.o_id := 1; V.order_no := "MNT-1"; V.o_vehicle_id := "V-007"; V.bay_code := Some "B-1"%string; V.o_status := V.SCHEDULED; V.o_fault_code := "ENGINE";
     V.diagnosis := None; V.repair_minutes := 30; V.manual_inspection_required := false; V.inspection_result := None; V.o_next_transition_at := None;
     V.o_available_after := None |}.
Definition ex_db : db :=
  {| operations := {| V.vehicles := list_to_map (("V-007"%string, ex_vehicle V.IN_RESCUE) :: map (fun k => (k, ex_vehicle V.AVAILABLE)) vehicle_ids);
                      V.units := {["RU-1"%string := {| V.unit_status := "DISPATCHED"; V.unit_node_id := "N07" |}]};
                      V.bays := {["B-1"%string := {| V.bay_status := "RESERVED"; V.current_order_no := Some "MNT-1"%string |}]};
                      V.missions := {["T7"%string := ex_mission]}; V.orders := {["T7"%string := ex_order]}; V.history := []; V.outbox := [] |};
     roads := list_to_map (map (fun k => (k, {| road_status := "BLOCKED"; congestion_factor := 2 |})) road_ids);
     drivers := list_to_map (map (fun k => (k, {| driver_status := "OFF_DUTY"; current_vehicle_id := None; driver_node_id := "N01" |})) (map fst driver_specs));
     assigned_driver_id := ∅ |}.
Definition ex_result : DemoScenarioResetResult := {| scenario_id := "VEHICLE_BREAKDOWN_N04"; status := "READY"; message := "演示场景已恢复，可以再次提交。" |}.
Definition ex_after : db := (reset "VEHICLE_BREAKDOWN_N04" "CF-DEMO-001" ex_db).2.

Lemma reset_restores_the_scenario_witness :
  V.bays (operations ex_after) !! "B-1"%string = Some {| V.bay_status := "AVAILABLE"; V.current_order_no := None |} /\
  forall t m, V.missions (operations ex_after) !! t = Some m -> V.rescue_active m = false.
Proof.
  split; [by vm_compute|].
  pose proof (reset_restores_the_scenario "VEHICLE_BREAKDOWN_N04" "CF-DEMO-001" ex_db (Ok ex_result) ex_after) as T. apply T. vm_compute. reflexivity.
Defined.

(** V-007 was on the hook of the rescue truck; its rescue is cancelled and it stays there. *)
Lemma reset_strands_other_vehicles_witness :
  V.vehicles (V.advance_one_due_rescue 100 (operations ex_after)).2 !! "V-007"%string = Some (ex_vehicle V.IN_RESCUE).
Proof.
  apply (reset_strands_other_vehicles "CF-DEMO-001" ex_db ex_result ex_after "V-007" (ex_vehicle V.IN_RESCUE)).
  - vm_compute. reflexivity.
  - by apply one_of_false.
  - vm_compute. reflexivity.
  - reflexivity.
  - intros t m E _. cbn in E. apply lookup_singleton_Some in E as [_ <-]. done.
  - eapply rtc_l; [apply move_step, (V.step_rescue _ 100)|apply rtc_refl].
Defined.
