(* ===== verification/WorkspaceReads.v ===== *)
(** * WorkspaceReads: the lists of the workspace, page by page

    Models [app/workspace_reads/service.py] and its
    [sqlalchemy_repository.py]: what the screens list of orders, anomalies,
    reviews, tasks and runtime threads, newest first and in pages that a numeric
    cursor continues.  A call reads one snapshot of the tables; its rows are those
    of Records and RuntimeThreads with the columns the lists show besides.
    [LIKE] of the database is a parameter; the vector store is a client. *)

From stdpp Require sorting.
From S2P Require Import Prelude DecimalText.
From S2P Require Idempotency Dispatch Records RuntimeThreads.

Local Open Scope Z_scope.
Local Open Scope list_scope.

(** ** Rows *)
Record OrderRow := {
  o_id : Z; order_no : string; o_status : string; o_driver_id : option string; o_vehicle_id : option string; o_route_id : option string;
  o_origin : string; o_destination : string; o_created_at : Z; o_updated_at : Z;
}.
Record AnomalyRow := {
  an_id : Z; anomaly_no : string; an_order_id : Z; anomaly_type : string; severity : string; an_description : string; an_status : string; reported_at : Z;
}.
Record TaskRow := { task : Idempotency.DispatchTask; t_created_at : Z; t_updated_at : Z }.
Record ThreadRow := { th_id : Z; thread : RuntimeThreads.RuntimeThread; th_updated_at : Z }.
Definition t_id (t : TaskRow) : Z := Idempotency.t_id (task t).
Definition t_task_id (t : TaskRow) : string := Idempotency.t_task_id (task t).
Definition t_status (t : TaskRow) : string := Idempotency.t_status (task t).
Definition assignee (t : TaskRow) : option string := Idempotency.t_assignee_subject_id (task t).

Record db := {
  orders : list OrderRow;
  anomalies : list AnomalyRow;
  tasks : list TaskRow;
  dispatches : list Dispatch.Dispatch;
  publications : list Records.DispatchPublication;
  accounts : gmap string Records.DemoEmployeeAccount;
  threads : list ThreadRow;
}.

(** ** Items and pages *)
Record OrderListItem := {
  oi_row_id : Z; oi_order_no : string; oi_status : string; oi_driver_id : option string; oi_vehicle_id : option string; oi_route_id : option string;
  oi_origin : string; oi_destination : string; oi_created_at : Z; oi_updated_at : Z; anomaly_count : Z; oi_latest_task_id : option string;
}.
Record AnomalyListItem := {
  ai_row_id : Z; ai_anomaly_no : string; ai_order_no : option string; ai_driver_id : option string; ai_vehicle_id : option string; ai_route_id : option string;
  ai_latest_task_id : option string; ai_anomaly_type : string; ai_risk : string; ai_description : string; ai_status : string; ai_reported_at : Z;
}.
Record ReviewListItem := {
  ri_row_id : Z; ri_task_id : string; ri_order_no : option string; ri_risk : option string; ri_reason : option string; ri_vehicle_id : option string;
  ri_original_route_id : option string; ri_suggested_route_id : option string; ri_status : string; ri_created_at : Z; ai_analysis_reason : option string;
  ai_recommended_action : option string; ai_analysis_mode : option string; ri_issue_subtype : option string;
}.
Record MyTaskListItem := {
  mi_row_id : Z; mi_task_id : string; mi_order_no : option string; mi_risk : option string; mi_description : option string; mi_vehicle_id : option string;
  mi_original_route_id : option string; mi_suggested_route_id : option string; mi_status : string; mi_created_at : Z; mi_updated_at : Z;
  mi_origin : option string; mi_destination : option string; publication_status : string; mi_published_at : option Z; mi_route_instruction : option string;
  can_report_anomaly : bool;
}.
Record TeamTaskListItem := {
  ti_row_id : Z; ti_task_id : string; ti_assignee_subject_id : option string; ti_assignee_display_name : string; ti_order_no : option string; ti_risk : option string;
  ti_description : option string; ti_vehicle_id : option string; ti_original_route_id : option string; ti_suggested_route_id : option string; ti_status : string;
  ti_created_at : Z; ti_updated_at : Z;
}.
Record RuntimeThreadListItem := {
  hi_row_id : Z; hi_thread_id : string; hi_task_id : string; hi_status : string; hi_current_node : option string; hi_next_node : option string;
  hi_state_version : Z; hi_checkpoint_count : Z; hi_worker_consumer : option string; hi_terminal_at : option Z; hi_updated_at : Z;
}.
(** [MyTaskSummary], [TeamTaskSummary]. *)
Record TaskSummary := { s_total : Z; s_ready : Z; s_waiting : Z; s_active : Z; s_ended : Z }.
Record TeamMemberTaskSummary := { subject_id : string; member_display_name : string; member_summary : TaskSummary }.
Record DomainCounts := { c_orders : Z; c_anomalies : Z; c_reviews : Z; c_runtime_threads : Z; c_provenance : string }.

(** [Page[T]]; the pages of tasks have a summary besides. *)
Record Page (T : Type) := { items : list T; total : Z; next_cursor : option string; provenance : string }.
Arguments items {T} _.
Arguments total {T} _.
Arguments next_cursor {T} _.
Arguments provenance {T} _.
Record MyTaskPage := { my_page : Page MyTaskListItem; my_summary : TaskSummary }.
Record TeamTaskPage := { team_page : Page TeamTaskListItem; team_summary : TaskSummary; members : list TeamMemberTaskSummary }.

Definition ValueError (m : string) : exn := Exn "ValueError" m.
Definition TeamMemberNotFound : exn := Exn "TeamMemberNotFound" "team member is not an active delivery employee".
Definition InvalidWorkspaceCursor (m : string) : exn := Exn "InvalidWorkspaceCursor" m.
Definition WorkspaceReadUnavailable : exn := Exn "WorkspaceReadUnavailable" "workspace read unavailable".

(** ** One page of a query *)
Definition count {A} (l : list A) : Z := Z.of_nat (length l).
Definition provenance_of (total demo_count : Z) : string :=
  if (0 <? total) && (demo_count =? total) then "DEMO" else if 0 <? demo_count then "MIXED" else "LIVE".
Definition validated_limit (limit : Z) : result nat := if (1 <=? limit) && (limit <=? 100) then Ok (Z.to_nat limit) else Err (ValueError "limit must be between 1 and 100").

Definition below {R} (row_id : R -> Z) (before_id : option Z) (r : R) : bool := match before_id with Some b => row_id r <? b | None => true end.
(** [.where(id < before_id).order_by(id.desc()).limit(limit + 1)], of which [limit] rows are shown. *)
Definition fetched {R} (row_id : R -> Z) (limit : nat) (before_id : option Z) (rows : list R) : list R :=
  take (S limit) (sorted_key_desc row_id (List.filter (below row_id before_id) rows)).
Definition page_of {R T} (row_id : R -> Z) (item : R -> T) (limit : nat) (before_id : option Z) (rows : list R) (total demo_count : Z) : Page T :=
  let fetched_rows := fetched row_id limit before_id rows in
  let visible := take limit fetched_rows in
  {| items := map item visible; total := total;
     next_cursor := if Nat.ltb limit (length fetched_rows) then (fun r => z_str (row_id r)) <$> last visible else None;
     provenance := provenance_of total demo_count |}.

(** ** Joins *)
Definition left_join {A} (matches : list A) : list (option A) := match matches with [] => [None] | _ => map Some matches end.
Definition by_id {A} (id : A -> Z) (i : Z) (l : list A) : option A := List.find (fun a => id a =? i) l.
(** [.order_by(id.desc()).limit(1)]. *)
Definition newest {A} (id : A -> Z) (l : list A) : option A := head (sorted_key_desc id l).
Definition order_of (d : db) (t : TaskRow) : option OrderRow := by_id o_id (Idempotency.t_order_id (task t)) (orders d).
Definition anomaly_of (d : db) (t : TaskRow) : option AnomalyRow := i ← Idempotency.t_anomaly_id (task t); by_id an_id i (anomalies d).
Definition latest_dispatch (d : db) (t : TaskRow) : option Dispatch.Dispatch :=
  newest Dispatch.d_id (List.filter (fun x => Dispatch.d_task_id x =? t_id t) (dispatches d)).

Section repository.
Context (like ilike : string -> string -> bool).   (* of a column and a pattern *)

Definition ilike_null (column : option string) (pattern : string) : bool := match column with Some s => ilike s pattern | None => false end.
Definition containing (query : string) : string := "%" +:+ query +:+ "%".
Definition same (column : string) (wanted : option string) : bool := match wanted with Some w => String.eqb column w | None => true end.

(** *** Orders *)
Definition order_conditions (query status : option string) (r : OrderRow) : bool :=
  match query with
  | None | Some ""%string => true
  | Some q =>
      let p := containing q in
      ilike (order_no r) p || ilike_null (o_driver_id r) p || ilike_null (o_vehicle_id r) p || ilike_null (o_route_id r) p || ilike (o_origin r) p || ilike (o_destination r) p
  end && same (o_status r) status.
Definition order_item (d : db) (r : OrderRow) : OrderListItem :=
  {| oi_row_id := o_id r; oi_order_no := order_no r; oi_status := o_status r; oi_driver_id := o_driver_id r; oi_vehicle_id := o_vehicle_id r; oi_route_id := o_route_id r;
     oi_origin := o_origin r; oi_destination := o_destination r; oi_created_at := o_created_at r; oi_updated_at := o_updated_at r;
     anomaly_count := count (List.filter (fun a => an_order_id a =? o_id r) (anomalies d));
     oi_latest_task_id := t_task_id <$> newest t_id (List.filter (fun t => Idempotency.t_order_id (task t) =? o_id r) (tasks d)) |}.
Definition list_orders (limit : Z) (before_id : option Z) (query status : option string) (d : db) : result (Page OrderListItem) :=
  limit ← validated_limit limit;
  let rows := List.filter (order_conditions query status) (orders d) in
  Ok (page_of o_id (order_item d) limit before_id rows (count rows) (count (List.filter (fun r => like (order_no r) "DEMO-ORDER-%") rows))).

(** *** Anomalies *)
Definition order_of_anomaly (d : db) (r : AnomalyRow) : option OrderRow := by_id o_id (an_order_id r) (orders d).
Definition anomaly_conditions (d : db) (query risk status : option string) (r : AnomalyRow) : bool :=
  match query with
  | None | Some ""%string => true
  | Some q =>
      let p := containing q in
      ilike (anomaly_no r) p || ilike_null (order_no <$> order_of_anomaly d r) p || ilike (anomaly_type r) p || ilike (an_description r) p
  end && same (severity r) risk && same (an_status r) status.
Definition anomaly_item (d : db) (r : AnomalyRow) : AnomalyListItem :=
  let o := order_of_anomaly d r in
  {| ai_row_id := an_id r; ai_anomaly_no := anomaly_no r; ai_order_no := order_no <$> o; ai_driver_id := x ← o; o_driver_id x; ai_vehicle_id := x ← o; o_vehicle_id x;
     ai_route_id := x ← o; o_route_id x;
     ai_latest_task_id := t_task_id <$> newest t_id (List.filter (fun t => bool_decide (Idempotency.t_anomaly_id (task t) = Some (an_id r))) (tasks d));
     ai_anomaly_type := anomaly_type r; ai_risk := severity r; ai_description := an_description r; ai_status := an_status r; ai_reported_at := reported_at r |}.
Definition list_anomalies (limit : Z) (before_id : option Z) (query risk status : option string) (d : db) : result (Page AnomalyListItem) :=
  limit ← validated_limit limit;
  let rows := List.filter (anomaly_conditions d query risk status) (anomalies d) in
  Ok (page_of an_id (anomaly_item d) limit before_id rows (count rows) (count (List.filter (fun r => like (anomaly_no r) "DEMO-ANOM-%") rows))).

(** *** Reviews.  The join with the latest audit record shows no column of it and matches one row at most. *)
Definition review_item (d : db) (t : TaskRow) : ReviewListItem :=
  let o := order_of d t in let x := latest_dispatch d t in
  {| ri_row_id := t_id t; ri_task_id := t_task_id t; ri_order_no := order_no <$> o; ri_risk := severity <$> anomaly_of d t;
     ri_reason := y ← x; Dispatch.d_decision_reason y; ri_vehicle_id := y ← o; o_vehicle_id y; ri_original_route_id := y ← x; Dispatch.d_original_route_id y;
     ri_suggested_route_id := y ← x; Dispatch.d_target_route_id y; ri_status := t_status t; ri_created_at := t_created_at t;
     ai_analysis_reason := y ← x; Dispatch.d_decision_reason y; ai_recommended_action := y ← x; Dispatch.d_recommended_action y;
     ai_analysis_mode := y ← x; Dispatch.d_analysis_mode y; ri_issue_subtype := y ← x; Dispatch.d_issue_subtype y |}.
Definition demo_task (t : TaskRow) : bool := like (t_task_id t) "DEMO-TASK-%".
Definition list_reviews (limit : Z) (before_id : option Z) (d : db) : result (Page ReviewListItem) :=
  limit ← validated_limit limit;
  let rows := List.filter (fun t => String.eqb (t_status t) "REVIEW_REQUIRED") (tasks d) in
  Ok (page_of t_id (review_item d) limit before_id rows (count rows) (count (List.filter demo_task rows))).

(** *** Tasks *)
Definition READY : list string := ["APPROVED"; "ASSIGNED"]%string.
Definition WAITING : list string := ["PENDING"; "QUEUED"; "REVIEW_REQUIRED"]%string.
Definition ACTIVE : list string := ["RUNNING"; "PROCESSING"; "IN_PROGRESS"]%string.
Definition ENDED : list string := ["COMPLETED"; "REJECTED"; "FAILED"; "CANCELLED"]%string.
Definition MY_TASK_STATUS_GROUPS (state : string) : option (list string) :=
  snd <$> List.find (fun g => String.eqb g.1 state) [("READY", READY); ("WAITING", WAITING); ("ACTIVE", ACTIVE); ("ENDED", ENDED)]%string.
Definition in_group (group : list string) (t : TaskRow) : bool := one_of (t_status t) group.
Definition summarize (rows : list TaskRow) : TaskSummary :=
  {| s_total := count rows; s_ready := count (List.filter (in_group READY) rows); s_waiting := count (List.filter (in_group WAITING) rows);
     s_active := count (List.filter (in_group ACTIVE) rows); s_ended := count (List.filter (in_group ENDED) rows) |}.
(** The condition on the state, or the error [what] for one that is no group. *)
Definition state_condition (state : option string) (what : string) : result (TaskRow -> bool) :=
  match state with
  | None => Ok (fun _ => true)
  | Some st => group ← of_option (ValueError what) (MY_TASK_STATUS_GROUPS st); Ok (in_group group)
  end.

Definition owned_by (subject : string) (t : TaskRow) : bool := bool_decide (assignee t = Some subject).
Definition publications_of (d : db) (t : TaskRow) : list Records.DispatchPublication :=
  match latest_dispatch d t with
  | Some x => List.filter (fun p => (Records.p_task_id p =? t_id t) && (Records.p_dispatch_id p =? Dispatch.d_id x)) (publications d)
  | None => []
  end.
Definition my_task_item (d : db) (row : TaskRow * option Records.DispatchPublication) : MyTaskListItem :=
  let (t, p) := row in let o := order_of d t in let a := anomaly_of d t in
  {| mi_row_id := t_id t; mi_task_id := t_task_id t; mi_order_no := order_no <$> o; mi_risk := severity <$> a; mi_description := an_description <$> a;
     mi_vehicle_id := y ← o; o_vehicle_id y; mi_original_route_id := y ← latest_dispatch d t; Dispatch.d_original_route_id y;
     mi_suggested_route_id := y ← p; Records.p_route_id y; mi_status := t_status t; mi_created_at := t_created_at t; mi_updated_at := t_updated_at t;
     mi_origin := o_origin <$> o; mi_destination := o_destination <$> o; publication_status := match p with Some _ => "PUBLISHED" | None => "PENDING" end;
     mi_published_at := Records.published_at <$> p; mi_route_instruction := y ← p; Records.p_route_instruction y;
     can_report_anomaly := match Idempotency.t_anomaly_id (task t) with None => true | Some _ => false end |}.
Definition my_task_rows (d : db) (rows : list TaskRow) : list (TaskRow * option Records.DispatchPublication) :=
  flat_map (fun t => map (fun p => (t, p)) (left_join (publications_of d t))) rows.
Definition list_my_tasks (subject : string) (limit : Z) (before_id : option Z) (state : option string) (d : db) : result MyTaskPage :=
  limit ← validated_limit limit;
  condition ← state_condition state "unsupported my-task state";
  let owned := List.filter (owned_by subject) (tasks d) in
  let rows := List.filter condition owned in
  Ok {| my_page := page_of (fun r => t_id r.1) (my_task_item d) limit before_id (my_task_rows d rows) (count rows) (count (List.filter demo_task rows));
        my_summary := summarize owned |}.

(** *** The tasks of the team *)
Definition delivery_employee (a : Records.DemoEmployeeAccount) : bool := Records.is_active a && String.eqb (Records.role a) "EMPLOYEE".
Definition member_rows (d : db) : list (string * Records.DemoEmployeeAccount) :=
  sorted_key fst (List.filter (fun x => delivery_employee x.2) (map_to_list (accounts d))).
Definition assigned_to (ids : list string) (t : TaskRow) : bool := match assignee t with Some s => one_of s ids | None => false end.
Definition team_item (d : db) (t : TaskRow) : TeamTaskListItem :=
  let o := order_of d t in let x := latest_dispatch d t in
  {| ti_row_id := t_id t; ti_task_id := t_task_id t; ti_assignee_subject_id := assignee t;
     ti_assignee_display_name := default ""%string (s ← assignee t; Records.display_name <$> accounts d !! s); ti_order_no := order_no <$> o;
     ti_risk := severity <$> anomaly_of d t; ti_description := an_description <$> anomaly_of d t; ti_vehicle_id := y ← o; o_vehicle_id y;
     ti_original_route_id := y ← x; Dispatch.d_original_route_id y; ti_suggested_route_id := y ← x; Dispatch.d_target_route_id y; ti_status := t_status t;
     ti_created_at := t_created_at t; ti_updated_at := t_updated_at t |}.
Definition member_summary_of (d : db) (x : string * Records.DemoEmployeeAccount) : TeamMemberTaskSummary :=
  {| subject_id := x.1; member_display_name := Records.display_name x.2; member_summary := summarize (List.filter (owned_by x.1) (tasks d)) |}.
Definition empty_team : TeamTaskPage :=
  {| team_page := {| items := []; total := 0; next_cursor := None; provenance := "LIVE" |};
     team_summary := {| s_total := 0; s_ready := 0; s_waiting := 0; s_active := 0; s_ended := 0 |}; members := [] |}.
Definition list_team_tasks (assignee_subject_id : option string) (limit : Z) (before_id : option Z) (state : option string) (d : db) : result TeamTaskPage :=
  limit ← validated_limit limit;
  let ids := map fst (member_rows d) in
  if match assignee_subject_id with Some s => negb (one_of s ids) | None => false end then Err TeamMemberNotFound else
  match ids with
  | [] => Ok empty_team
  | _ =>
      condition ← state_condition state "unsupported team-task state";
      let base := List.filter (assigned_to ids) (tasks d) in
      let rows := List.filter (fun t => match assignee_subject_id with Some s => owned_by s t | None => true end && condition t) base in
      Ok {| team_page := page_of t_id (team_item d) limit before_id rows (count rows) (count (List.filter demo_task rows)); team_summary := summarize base;
            members := map (member_summary_of d) (member_rows d) |}
  end.

(** *** Runtime threads *)
Definition thread_status (st : RuntimeThreads.RuntimeThreadStatus) : string :=
  match st with RuntimeThreads.RUNNING => "RUNNING" | RuntimeThreads.STABLE => "STABLE" | RuntimeThreads.OVERRIDING => "OVERRIDING" | RuntimeThreads.TERMINAL => "TERMINAL" end.
Definition thread_item (r : ThreadRow) : RuntimeThreadListItem :=
  let t := thread r in
  {| hi_row_id := th_id r; hi_thread_id := RuntimeThreads.thread_id t; hi_task_id := RuntimeThreads.task_id t; hi_status := thread_status (RuntimeThreads.status t);
     hi_current_node := RuntimeThreads.current_node t; hi_next_node := RuntimeThreads.next_node t; hi_state_version := RuntimeThreads.state_version t;
     hi_checkpoint_count := RuntimeThreads.checkpoint_count t; hi_worker_consumer := RuntimeThreads.worker_consumer t; hi_terminal_at := RuntimeThreads.terminal_at t;
     hi_updated_at := th_updated_at r |}.
Definition demo_thread (r : ThreadRow) : bool := like (RuntimeThreads.thread_id (thread r)) "demo-thread-%".
Definition list_runtime_threads (limit : Z) (before_id : option Z) (status : option string) (d : db) : result (Page RuntimeThreadListItem) :=
  limit ← validated_limit limit;
  let rows := List.filter (fun r => same (thread_status (RuntimeThreads.status (thread r))) status) (threads d) in
  Ok (page_of th_id thread_item limit before_id rows (count rows) (count (List.filter demo_thread rows))).

(** *** Counts *)
Definition count_domains (d : db) : DomainCounts :=
  let reviews := List.filter (fun t => String.eqb (t_status t) "REVIEW_REQUIRED") (tasks d) in
  let demo := count (List.filter (fun r => like (order_no r) "DEMO-ORDER-%") (orders d)) + count (List.filter (fun r => like (anomaly_no r) "DEMO-ANOM-%") (anomalies d))
              + count (List.filter demo_task reviews) + count (List.filter demo_thread (threads d)) in
  let all := count (orders d) + count (anomalies d) + count reviews + count (threads d) in
  {| c_orders := count (orders d); c_anomalies := count (anomalies d); c_reviews := count reviews; c_runtime_threads := count (threads d);
     c_provenance := provenance_of all demo |}.
End repository.

(** ** The service *)
Definition max_cursor : Z := 9223372036854775807.
Definition parse_numeric_cursor (cursor : option string) : result (option Z) :=
  match cursor with
  | None => Ok None
  | Some c =>
      if String.eqb c "" || negb (forallb is_digit (chars c)) || (19 <? Z.of_nat (String.length c))%Z
      then Err (InvalidWorkspaceCursor "workspace cursor must be a numeric string")
      else let v := (read_digits 0 0 (chars c)).1.1 in
           if max_cursor <? v then Err (InvalidWorkspaceCursor "workspace cursor is outside the supported range") else Ok (Some v)
  end.

(** What [_is_connection_failure] looks at of an error of the database driver. *)
Record DatabaseError := {
  is_disconnection_error : bool; connection_invalidated : bool; orig_is_connection_error : bool;
  first_argument : option (Z + string); sqlstate : option string;
}.
Definition is_connection_failure (e : DatabaseError) : bool :=
  is_disconnection_error e || connection_invalidated e || orig_is_connection_error e
  || match first_argument e with Some (inl code) => existsb (Z.eqb code) [2002; 2003; 2006; 2013] | _ => false end
  || match sqlstate e, first_argument e with
     | Some st, _ | None, Some (inr st) => String.prefix "08" (upper st)
     | _, _ => false
     end.
Definition DriverError : exn := Exn "OperationalError" "".
(** A read of the tables, or of a database that fails. *)
Definition mysql_read {A} (source : db + DatabaseError) (operation : db -> result A) : result A :=
  match source with
  | inl d => operation d
  | inr e => Err (if is_connection_failure e then WorkspaceReadUnavailable else DriverError)
  end.

Section service.
Context (like ilike : string -> string -> bool) (source : db + DatabaseError).
Definition get_overview : result DomainCounts := mysql_read source (fun d => Ok (count_domains like d)).
Definition orders_page (limit : Z) (cursor query status : option string) : result (Page OrderListItem) :=
  before ← parse_numeric_cursor cursor; mysql_read source (list_orders like ilike limit before query status).
Definition anomalies_page (limit : Z) (cursor query risk status : option string) : result (Page AnomalyListItem) :=
  before ← parse_numeric_cursor cursor; mysql_read source (list_anomalies like ilike limit before query risk status).
Definition reviews_page (limit : Z) (cursor : option string) : result (Page ReviewListItem) :=
  before ← parse_numeric_cursor cursor; mysql_read source (list_reviews like limit before).
Definition my_tasks_page (subject : string) (limit : Z) (cursor state : option string) : result MyTaskPage :=
  before ← parse_numeric_cursor cursor; mysql_read source (list_my_tasks like subject limit before state).
Definition team_tasks_page (assignee_subject_id : option string) (limit : Z) (cursor state : option string) : result TeamTaskPage :=
  before ← parse_numeric_cursor cursor; mysql_read source (list_team_tasks like assignee_subject_id limit before state).
Definition runtime_threads_page (limit : Z) (cursor status : option string) : result (Page RuntimeThreadListItem) :=
  before ← parse_numeric_cursor cursor; mysql_read source (list_runtime_threads like limit before status).
End service.

(** The status code of a list route. *)
Definition status_of {A} (r : result A) : Z :=
  match r with
  | Ok _ => 200
  | Err e => if raised_as ["InvalidWorkspaceCursor"%string] e then 422 else if raised_as ["WorkspaceReadUnavailable"%string] e then 503 else 500
  end.

(** ** Following the cursors *)

(** A client that asks for the next page until there is none; [k] counts its requests. *)
Fixpoint follow {T} (fetch : nat -> option string -> result (Page T)) (fuel k : nat) (cursor : option string) : result (list T) :=
  match fuel with
  | O => Err (Exn "OutOfFuel" "")
  | S fuel' =>
      p ← fetch k cursor;
      match next_cursor p with
      | None => Ok (items p)
      | Some c => rest ← follow fetch fuel' (S k) (Some c); Ok (items p ++ rest)
      end
  end.

(** *** Numeric cursors *)
Lemma cursor_roundtrip z : 0 <= z <= max_cursor -> parse_numeric_cursor (Some (z_str z)) = Ok (Some z).
Proof.
  intros [Z0 Z1]. destruct (z_str_digits z Z0) as (ds & E & D & N & R & L). unfold parse_numeric_cursor.
  assert (Ne : String.eqb (z_str z) "" = false) by (apply String.eqb_neq; intros X; rewrite X in E; by subst ds).
  assert (Len : (19 <? Z.of_nat (String.length (z_str z))) = false).
  { apply Z.ltb_ge. rewrite <- (chars_length (z_str z)), E. specialize (L 19%nat ltac:(lia)). unfold max_cursor in Z1.
    assert (z < 10 ^ Z.of_nat 19) by (change (10 ^ Z.of_nat 19) with 10000000000000000000; lia). specialize (L H). lia. }
  rewrite Ne, Len, E, D. cbn [negb orb]. specialize (R 0 0%nat []). rewrite app_nil_r, Z.mul_0_l, Z.add_0_l in R. rewrite R. cbn [read_digits fst].
  destruct (max_cursor <? z) eqn:M; [apply Z.ltb_lt in M; lia|done].
Qed.

(** *** Rows in descending order *)
Definition desc (l : list Z) : list Z := sorted_key_desc (fun z : Z => z) l.
Definition falling : list Z -> Prop := StronglySorted (fun x y => y < x).

Lemma desc_falling l : NoDup l -> falling (desc l).
Proof.
  intros N. pose proof (sorted_key_desc_sorted (fun z : Z => z) l) as S. pose proof (sorted_key_desc_perm (fun z : Z => z) l) as P.
  fold (desc l) in S, P. rewrite <- P in N. clear P. induction S as [|x m S IH F]; [constructor|]. apply NoDup_cons in N as [Nx N].
  constructor; [by apply IH|]. rewrite List.Forall_forall in F |- *. intros y Hy. specialize (F y Hy).
  unfold py_le, pycmp, z_cmp in F. destruct (Z.compare_spec y x) as [E| |]; [|done|done]. destruct Nx. rewrite <- E. by apply list_elem_of_In.
Qed.

Lemma falling_unique l m : falling l -> falling m -> l ≡ₚ m -> l = m.
Proof. intros L M P. apply (sorting.StronglySorted_unique_strong (fun x y => y < x)); [|done|done|done]. intros x y _ _ H1 H2. lia. Qed.

Lemma falling_app l m : falling (l ++ m) -> falling m /\ forall x y, x ∈ l -> y ∈ m -> y < x.
Proof.
  induction l as [|z l IH]; intros F; [split; [done|]; intros x y H; by apply not_elem_of_nil in H|]. simpl in F. inversion F as [|? ? F' Fa]; subst.
  destruct (IH F') as [M L]. split; [done|]. intros x y [->|Hx]%elem_of_cons Hy; [|by apply L]. rewrite List.Forall_forall in Fa. apply Fa, list_elem_of_In.
  apply elem_of_app. by right.
Qed.

Lemma map_sorted_desc {R} (id : R -> Z) rows : NoDup (map id rows) -> map id (sorted_key_desc id rows) = desc (map id rows).
Proof.
  intros N. assert (P : map id (sorted_key_desc id rows) ≡ₚ map id rows) by apply Permutation_map, sorted_key_desc_perm.
  apply falling_unique; [|by apply desc_falling|by rewrite P; symmetry; apply sorted_key_desc_perm].
  rewrite <- P in N. pose proof (sorted_key_desc_sorted id rows) as S. revert N. clear P. induction S as [|x m S IH F]; simpl; [constructor|].
  intros [Nx N]%NoDup_cons. constructor; [by apply IH|]. rewrite List.Forall_forall in F |- *. intros y Hy. apply in_map_iff in Hy as (r & <- & Hr).
  specialize (F r Hr). unfold py_le, pycmp, z_cmp in F. destruct (Z.compare_spec (id r) (id x)) as [E| |]; [|done|done].
  destruct Nx. rewrite <- E. by apply list_elem_of_In, in_map.
Qed.

(** *** The pages of a growing table *)
Lemma filter_perm {A} (p : A -> bool) (l m : list A) : l ≡ₚ m -> List.filter p l ≡ₚ List.filter p m.
Proof.
  induction 1 as [|x l m _ IH|x y l|l m n _ IH1 _ IH2]; simpl; [done| | |by rewrite IH1].
  - destruct (p x); by rewrite IH.
  - destruct (p x), (p y); try done. apply Permutation_swap.
Qed.

Section paging.
Context {R T : Type} (id : R -> Z) (item : nat -> R -> T) (row_id : T -> Z) (rows : nat -> list R) (totals demos : nat -> Z) (limit : nat).
Context (L : (0 < limit)%nat) (Item : forall k r, row_id (item k r) = id r).
Context (N : forall k, NoDup (map id (rows k))) (Range : forall i, i ∈ map id (rows 0%nat) -> 0 <= i <= max_cursor).
(** What is added later has a greater id than everything there was. *)
Context (Later : forall k, exists new, map id (rows k) = map id (rows 0%nat) ++ new /\ forall i j, i ∈ new -> j ∈ map id (rows 0%nat) -> j < i).

Definition fetch (k : nat) (cursor : option string) : result (Page T) :=
  before ← parse_numeric_cursor cursor; Ok (page_of id (item k) limit before (rows k) (totals k) (demos k)).

Lemma ids_below k b : b ∈ map id (rows 0%nat) -> List.filter (fun i => i <? b) (map id (rows k)) = List.filter (fun i => i <? b) (map id (rows 0%nat)).
Proof.
  intros B. destruct (Later k) as (new & E & G). rewrite E, List.filter_app. rewrite <- (app_nil_r (List.filter _ (map id (rows 0%nat)))) at 2. f_equal.
  clear E. induction new as [|i new IH]; [done|]. simpl. assert (b < i) by (apply G; [by left|done]).
  rewrite (proj2 (Z.ltb_ge i b)) by lia. apply IH. intros i' j I J. apply G; [by right|done].
Qed.

Lemma filter_map_ids b (l : list R) : map id (List.filter (below id (Some b)) l) = List.filter (fun i => i <? b) (map id l).
Proof. induction l as [|r l IH]; [done|]. simpl. destruct (id r <? b); simpl; by rewrite IH. Qed.

(** The rows a page with the cursor [b] is cut from are the rest of the first snapshot. *)
Lemma rest_below k A b B : desc (map id (rows 0%nat)) = A ++ b :: B -> map id (sorted_key_desc id (List.filter (below id (Some b)) (rows k))) = B.
Proof.
  intros E. pose proof (desc_falling _ (N 0%nat)) as F. rewrite E in F.
  assert (Bin : b ∈ map id (rows 0%nat)).
  { rewrite <- (sorted_key_desc_perm (fun z : Z => z) (map id (rows 0%nat))). change (b ∈ desc (map id (rows 0%nat))). rewrite E. apply elem_of_app. right. by left. }
  assert (M : map id (List.filter (below id (Some b)) (rows k)) = List.filter (fun i => i <? b) (map id (rows 0%nat))) by (by rewrite filter_map_ids, ids_below).
  rewrite map_sorted_desc; [|rewrite filter_map_ids; by apply NoDup_ListNoDup, List.NoDup_filter, NoDup_ListNoDup].
  destruct (falling_app A (b :: B) F) as [FB FA]. inversion FB as [|? ? FB' Fb]; subst.
  apply falling_unique; [apply desc_falling; rewrite M; by apply NoDup_ListNoDup, List.NoDup_filter, NoDup_ListNoDup|done|].
  transitivity (map id (List.filter (below id (Some b)) (rows k))); [apply sorted_key_desc_perm|]. rewrite M.
  assert (P : List.filter (fun i => i <? b) (map id (rows 0%nat)) ≡ₚ List.filter (fun i => i <? b) (A ++ b :: B)).
  { rewrite <- E. apply filter_perm. symmetry. apply sorted_key_desc_perm. }
  rewrite P, List.filter_app. simpl. rewrite Z.ltb_irrefl.
  assert (FA0 : List.filter (fun i => i <? b) A = []).
  { clear -FA. induction A as [|a A IH]; [done|]. simpl. rewrite (proj2 (Z.ltb_ge a b)); [apply IH; intros; apply FA; [by right|done]|].
    assert (b < a) by (apply FA; [by left|by left]). lia. }
  assert (FB0 : List.filter (fun i => i <? b) B = B).
  { clear -Fb. induction Fb as [|x B Hx F IH]; [done|]. simpl. rewrite (proj2 (Z.ltb_lt x b)) by done. by rewrite IH. }
  by rewrite FA0, FB0.
Qed.

(** The first page is cut from all rows. *)
Lemma rest_all : map id (sorted_key_desc id (List.filter (below id None) (rows 0%nat))) = desc (map id (rows 0%nat)).
Proof.
  assert (E : forall l : list R, List.filter (below id None) l = l) by (intros l; induction l as [|r l IH]; simpl; [done|by f_equal]).
  rewrite E. by apply map_sorted_desc.
Qed.

Definition from_rows (x : T) : Prop := exists k r, r ∈ rows k /\ x = item k r.

Lemma follow_from fuel : forall k cursor before A B, (length B < fuel)%nat -> desc (map id (rows 0%nat)) = A ++ B -> parse_numeric_cursor cursor = Ok before ->
  map id (sorted_key_desc id (List.filter (below id before) (rows k))) = B ->
  exists l, follow fetch fuel k cursor = Ok l /\ map row_id l = B /\ forall x, x ∈ l -> from_rows x.
Proof.
  induction fuel as [|fuel IH]; intros k cursor before A B Fu E P M; [lia|]. cbn [follow].
  assert (Fe : fetch k cursor = Ok (page_of id (item k) limit before (rows k) (totals k) (demos k))) by (unfold fetch; by rewrite P).
  rewrite Fe. cbn [mbind result_bind]. unfold page_of, fetched. cbn [next_cursor items]. set (F := sorted_key_desc id _) in *. rewrite take_take, Nat.min_l by lia.
  assert (Rows : forall x, x ∈ map (item k) (take limit F) -> from_rows x).
  { intros x H. apply list_elem_of_In, in_map_iff in H as (r & <- & H). exists k, r. split; [|done]. apply list_elem_of_In in H.
    assert (H' : r ∈ F) by (rewrite <- (take_drop limit F); apply elem_of_app; by left). unfold F in H'. rewrite sorted_key_desc_perm in H'.
    apply list_elem_of_In, filter_In in H' as [H' _]. by apply list_elem_of_In. }
  assert (V : map row_id (map (item k) (take limit F)) = take limit B).
  { rewrite map_map, <- M. rewrite firstn_map. apply map_ext. intros r. apply Item. }
  assert (LF : length F = length B) by (by rewrite <- M, length_map).
  destruct (Nat.ltb limit (length (take (S limit) F))) eqn:More.
  - apply Nat.ltb_lt in More. rewrite length_take, LF in More.
    destruct (last (take limit F)) as [r|] eqn:La; [|apply last_None in La; apply (f_equal length) in La; rewrite length_take, LF in La; simpl in La; lia].
    cbn [fmap option_fmap option_map].
    assert (LB : last (take limit B) = Some (id r)) by (rewrite <- M, firstn_map; etransitivity; [exact (fmap_last id (take limit F))|by rewrite La]).
    apply last_Some in LB as (B1 & LB). assert (EB : B = (B1 ++ [id r]) ++ drop limit B) by (by rewrite <- LB, take_drop).
    assert (E2 : desc (map id (rows 0%nat)) = (A ++ B1) ++ id r :: drop limit B) by (rewrite E; rewrite EB at 1; by rewrite <- !app_assoc).
    assert (I0 : id r ∈ map id (rows 0%nat)).
    { rewrite <- (sorted_key_desc_perm (fun z : Z => z) (map id (rows 0%nat))). change (id r ∈ desc (map id (rows 0%nat))). rewrite E2. apply elem_of_app. right. by left. }
    destruct (IH (S k) (Some (z_str (id r))) (Some (id r)) ((A ++ B1) ++ [id r]) (drop limit B)) as (l & H1 & H2 & H3).
    + rewrite length_drop. lia.
    + rewrite E2. by rewrite <- (app_assoc (A ++ B1) [id r]).
    + apply cursor_roundtrip. exact (Range _ I0).
    + exact (rest_below (S k) (A ++ B1) (id r) (drop limit B) E2).
    + rewrite H1. cbn [mbind result_bind]. eexists. split; [done|]. split; [rewrite map_app, V, H2; apply take_drop|].
      intros x [H|H]%elem_of_app; [by apply Rows|by apply H3].
  - apply Nat.ltb_ge in More. rewrite length_take, LF in More. eexists. split; [done|]. split; [rewrite V; apply take_ge; lia|done].
Qed.

(** Following the cursors lists every row of the first snapshot once, the newest first. *)
Lemma follow_all : exists l, follow fetch (S (length (rows 0%nat))) 0 None = Ok l /\ map row_id l = desc (map id (rows 0%nat)) /\ forall x, x ∈ l -> from_rows x.
Proof.
  apply (follow_from _ 0 None None []); [|done|done|apply rest_all].
  assert (P : length (desc (map id (rows 0%nat))) = length (map id (rows 0%nat))) by (apply Permutation_length, sorted_key_desc_perm).
  rewrite P, length_map. lia.
Qed.
End paging.

(** ** The tasks of one employee *)
Definition mine (subject : string) (condition : TaskRow -> bool) (d : db) : list TaskRow := List.filter condition (List.filter (owned_by subject) (tasks d)).

Lemma follow_ext {T} (f g : nat -> option string -> result (Page T)) fuel : (forall k c, f k c = g k c) -> forall k c, follow f fuel k c = follow g fuel k c.
Proof.
  intros E. induction fuel as [|fuel IH]; intros k c; [done|]. cbn [follow]. rewrite E. destruct (g k c) as [p|]; [cbn [mbind result_bind]|done].
  destruct (next_cursor p); [by rewrite IH|done].
Qed.

Lemma nodup_filter_map {A} (g : A -> Z) (p : A -> bool) l : NoDup (map g l) -> NoDup (map g (List.filter p l)).
Proof.
  induction l as [|a l IH]; [done|]. simpl. intros [Na N]%NoDup_cons. destruct (p a); [|by apply IH]. simpl. constructor; [|by apply IH].
  intros H%list_elem_of_In. apply in_map_iff in H as (b & E & H). apply filter_In in H as [H _]. destruct Na. rewrite <- E. by apply list_elem_of_In, in_map.
Qed.

Lemma filter_key_single {A} (g : A -> Z) (z : Z) (p : A -> bool) l : NoDup (map g l) -> (length (List.filter (fun a => Z.eqb (g a) z && p a) l) <= 1)%nat.
Proof.
  induction l as [|a l IH]; simpl; [lia|]. intros [Na N]%NoDup_cons. specialize (IH N). destruct ((g a =? z) && p a) eqn:E; [|done].
  apply andb_true_iff in E as [E%Z.eqb_eq _]. assert (Z0 : List.filter (fun a => (g a =? z) && p a) l = []).
  { destruct (List.filter _ l) as [|b m] eqn:F; [done|]. exfalso. assert (H : In b (List.filter (fun a => (g a =? z) && p a) l)) by (rewrite F; by left).
    apply filter_In in H as [H [Eb _]%andb_true_iff]. apply Z.eqb_eq in Eb. destruct Na. rewrite E, <- Eb. by apply list_elem_of_In, in_map. }
  by rewrite Z0.
Qed.

Lemma my_task_rows_fst d rows : NoDup (map Records.p_task_id (publications d)) -> map fst (my_task_rows d rows) = rows.
Proof.
  intros N. unfold my_task_rows. induction rows as [|t rows IH]; [done|]. simpl. rewrite map_app, IH. unfold publications_of, left_join.
  destruct (latest_dispatch d t) as [x|]; [|done].
  pose proof (filter_key_single Records.p_task_id (t_id t) (fun p => Records.p_dispatch_id p =? Dispatch.d_id x) (publications d) N) as Le.
  destruct (List.filter _ (publications d)) as [|p [|q ps]]; [done|done|simpl in Le; lia].
Qed.

Lemma my_task_rows_elem d rows t p : (t, p) ∈ my_task_rows d rows -> t ∈ rows /\
  match p with Some q => q ∈ publications d /\ Records.p_task_id q = t_id t | None => True end.
Proof.
  unfold my_task_rows. intros H%list_elem_of_In. apply in_flat_map in H as (t' & Ht & H). apply in_map_iff in H as (p' & [= -> ->] & H).
  split; [by apply list_elem_of_In|]. destruct p as [q|]; [|done]. unfold publications_of in H. destruct (latest_dispatch d t) as [x|]; [|by destruct H].
  unfold left_join in H. destruct (List.filter _ _) as [|q' ps] eqn:F; [by destruct H|]. apply in_map_iff in H as (q1 & [= ->] & H). rewrite <- F in H.
  apply filter_In in H as [H [E%Z.eqb_eq _]%andb_true_iff]. split; [by apply list_elem_of_In|done].
Qed.

(** C27: an employee who follows the cursors of the task list gets every task
    that was assigned to him (in the state he asks for) when he asked first,
    each once and the newest first, and no task of anybody else, however many
    tasks are added meanwhile; a route is shown only from a publication of the
    task.  One more request than there are tasks is enough. *)
Theorem employee_sees_each_task_once like (ds : nat -> db) subject limit state condition
    (Lim : 1 <= limit <= 100) (St : state_condition state "unsupported my-task state" = Ok condition)
    (Keys : forall k, NoDup (map t_id (tasks (ds k))) /\ NoDup (map Records.p_task_id (publications (ds k))))
    (Range : forall t, t ∈ tasks (ds 0%nat) -> 0 <= t_id t <= max_cursor)
    (Later : forall k, exists new, map t_id (mine subject condition (ds k)) = map t_id (mine subject condition (ds 0%nat)) ++ new /\
                                   forall i j, i ∈ new -> j ∈ map t_id (mine subject condition (ds 0%nat)) -> j < i) :
  exists l, follow (fun k cursor => p ← my_tasks_page like (inl (ds k)) subject limit cursor state; Ok (my_page p))
              (S (length (mine subject condition (ds 0%nat)))) 0 None = Ok l /\
    map mi_row_id l = desc (map t_id (mine subject condition (ds 0%nat))) /\
    forall x, x ∈ l -> exists k t, t ∈ tasks (ds k) /\ assignee t = Some subject /\ mi_task_id x = t_task_id t /\
      (mi_suggested_route_id x = None \/ exists p, p ∈ publications (ds k) /\ Records.p_task_id p = t_id t /\ mi_suggested_route_id x = Records.p_route_id p).
Proof.
  set (rows k := my_task_rows (ds k) (mine subject condition (ds k))).
  assert (Fst : forall k, map fst (rows k) = mine subject condition (ds k)) by (intros k; apply my_task_rows_fst, Keys).
  assert (Ids : forall k, map (fun r => t_id r.1) (rows k) = map t_id (mine subject condition (ds k))) by (intros k; rewrite <- Fst; symmetry; apply map_map).
  assert (V : validated_limit limit = Ok (Z.to_nat limit)).
  { unfold validated_limit. by rewrite (proj2 (Z.leb_le 1 limit)), (proj2 (Z.leb_le limit 100)) by lia. }
  destruct (follow_all (fun r => t_id r.1) (fun k => my_task_item (ds k)) mi_row_id rows (fun k => count (mine subject condition (ds k)))
              (fun k => count (List.filter (demo_task like) (mine subject condition (ds k)))) (Z.to_nat limit)) as (l & F & M & E).
  - lia.
  - by intros k [t p].
  - intros k. rewrite Ids. by apply nodup_filter_map, nodup_filter_map, Keys.
  - intros i. rewrite Ids. intros H%list_elem_of_In. apply in_map_iff in H as (t & <- & H). apply filter_In in H as [H _]. apply filter_In in H as [H _].
    by apply Range, list_elem_of_In.
  - intros k. by rewrite !Ids.
  - exists l. assert (Len : length (rows 0%nat) = length (mine subject condition (ds 0%nat))) by (by rewrite <- Fst, length_map).
    rewrite Len in F. rewrite Ids in M. split; [|split; [done|]].
    + rewrite <- F. apply follow_ext. intros k c. unfold my_tasks_page, fetch, mysql_read, list_my_tasks. destruct (parse_numeric_cursor c) as [before|]; [cbn [mbind result_bind]|done].
      by rewrite V, St.
    + intros x (k & [t p] & H & ->)%E. destruct (my_task_rows_elem _ _ _ _ H) as [Ht Hp]. exists k, t.
      apply list_elem_of_In, filter_In in Ht as [Ht _]. apply filter_In in Ht as [Ht O]. apply bool_decide_eq_true in O. split; [by apply list_elem_of_In|].
      split; [done|]. split; [done|]. destruct p as [q|]; [right; exists q; by destruct Hp|by left].
Qed.

(** Three tasks of one employee in pages of two, while a fourth is added. *)
Definition ex_task (i : Z) (tid who : string) : TaskRow :=
  {| task := {| Idempotency.t_id := i; Idempotency.t_task_id := tid; Idempotency.t_order_id := 7; Idempotency.t_anomaly_id := None; Idempotency.t_status := "RUNNING";
                Idempotency.t_idempotency_key := tid; Idempotency.t_assignee_subject_id := Some who; Idempotency.t_started := true; Idempotency.t_completed := false |};
     t_created_at := i; t_updated_at := i |}.
Definition ex_db (k : nat) : db :=
  {| orders := []; anomalies := []; dispatches := [Records.ex_dispatch]; publications := []; accounts := ∅; threads := [];
     tasks := [ex_task 1 "T1" "EMP-1"; ex_task 2 "T2" "EMP-2"; ex_task 4 "T4" "EMP-1"; ex_task 9 "T9" "EMP-1"]
              ++ match k with O => [] | S _ => [ex_task 12 "T12" "EMP-1"] end |}%string.

Lemma employee_sees_each_task_once_witness :
  exists l, follow (fun k cursor => p ← my_tasks_page (fun _ _ => false) (inl (ex_db k)) "EMP-1" 2 cursor (Some "ACTIVE"%string); Ok (my_page p)) 4 0 None = Ok l /\
    map mi_row_id l = [9; 4; 1].
Proof.
  destruct (employee_sees_each_task_once (fun _ _ => false) ex_db "EMP-1" 2 (Some "ACTIVE"%string) (in_group ACTIVE)) as (l & F & M & _).
  - lia.
  - reflexivity.
  - intros [|k]; (split; [|constructor]); cbn; repeat (constructor; [by apply (bool_decide_unpack _)|]); constructor.
  - intros t H. unfold max_cursor. repeat (apply elem_of_cons in H as [->|H]; [cbn; lia|]). by apply not_elem_of_nil in H.
  - intros [|k]; [exists []; split; [reflexivity|by intros i j H%not_elem_of_nil]|]. exists [12]. split; [reflexivity|].
    intros i j ->%elem_of_one H. change (j ∈ [1; 4; 9]) in H. repeat (apply elem_of_cons in H as [->|H]; [lia|]). by apply not_elem_of_nil in H.
  - exists l. split; [exact F|exact M].
Defined.
